(* ===== verification/_CoqProject ===== *)
-Q . S2P
Prelude.v
NgxString.v
HuffTables.v
Huff.v
Num.v
Parse.v
Sprintf.v
HttpTime.v
Base64.v
Utf8.v
Escape.v
Chunked.v
Rbtree.v
HttpUri.v
HttpLine.v
HttpHeader.v
Crc32.v
Radix.v
Inet.v
Cidr.v
ProxyProtocol.v
RoundRobin.v
QuicFrame.v
QuicAck.v
QuicBuf.v
Hpack.v
HeaderBlock.v
V2Encode.v
V2Filter.v
