(* ===== verification/Prelude.v ===== *)
(** * A verification library for the C reference code of fafafa.core

    The repository is an Object Pascal library; the C code in it is the
    reference trees under src/reference/ (nginx, libuv, yyjson, libfyaml) that
    the library is written after. This library models the core logic of nginx:
    the code under src/reference/nginx-master/src/core and .../src/http that
    computes on bytes, integers and linked structures. Paths below are relative
    to src/reference/nginx-master/src/.

    ** Files, in the order of their dependencies

    - [Prelude] (this file): characters and byte strings, machine integers
      ([u8], [u32], [u64], [s64]), sweeps over all bytes, the error monad of
      the parsers, bit-level lemmas, the hint database.
    - [NgxString]: the string helpers of core/ngx_string.h.
    - [HuffTables], [Huff]: http/ngx_http_huff_encode.c and _decode.c, the HPACK
      Huffman coder: the tables as data, the encoder with its 64-bit
      accumulator, the table-driven decoder with its resumable state.
      Shown: round trip, what the decoder accepts, agreement of the tables with
      the code words.
    - [Num]: ngx_atoi and its family (core/ngx_string.c), hexadecimal.
    - [Parse]: core/ngx_parse.c, sizes, offsets and times of the configuration.
    - [Sprintf]: ngx_vslprintf and ngx_sprintf_num on a bounded buffer.
    - [HttpTime]: core/ngx_times.c (ngx_gmtime, ngx_http_time) and
      core/ngx_parse_time.c, against a reference calendar.
    - [Base64], [Utf8], [Escape]: base64, UTF-8, URI, HTML and JSON escaping of
      core/ngx_string.c; in-place unescaping is on a shared memory.
    - [Chunked]: the chunked transfer coding: parser (http/ngx_http_parse.c),
      request body filter (http/ngx_http_request_body.c), response body filter
      (http/modules/ngx_http_chunked_filter_module.c).
    - [Rbtree]: core/ngx_rbtree.c and .h on a heap of linked cells.
    - [HttpUri]: the request target: ngx_http_parse_uri, the normalising
      ngx_http_parse_complex_uri (http/ngx_http_parse.c) and the choice between
      them, ngx_http_process_request_uri (http/ngx_http_request.c).
    - [HttpLine]: the request line, ngx_http_parse_request_line, which has the
      states of [HttpUri] inside, and the calls of it as data arrive ([feed]).
    - [HttpHeader]: header lines, ngx_http_parse_header_line, and the loop of
      ngx_http_process_request_headers that builds the list of headers and
      writes zeros into the buffer.
    - [Crc32]: core/ngx_crc32.c, ngx_crc32.h and ngx_crc.h, against the division
      by the polynomial a bit at a time.
    - [Radix]: core/ngx_radix_tree.c on a heap of linked nodes, with its free
      list and page allocator, against a map from prefixes to values; the loops
      for 32 and 128 bits are one, over the class [Cursor] of positions in a key,
      and the specification is over the class [Keys].
    - [Inet]: core/ngx_inet.c and .h: reading and printing IPv4 and IPv6
      addresses, ports, socket addresses and their comparison; the 16 bytes of
      an IPv6 address are a memory that the reader fills and moves in place.
    - [Cidr]: the same file, on top of [Inet]: blocks of addresses
      (ngx_ptocidr, ngx_cidr_match), ngx_parse_addr and ngx_parse_addr_port.
    - [ProxyProtocol]: core/ngx_proxy_protocol.c and .h: the PROXY protocol header in its text and its binary form, read and
      written, and the type-length-value fields of the binary form; a refusal is a value with what is logged.
    - [RoundRobin]: http/ngx_http_upstream_round_robin.c: groups of peers, the
      smooth weighted choice, failures and connections, and the step relation of any number of
      requests over shared groups.
    - [QuicFrame]: event/quic/ngx_event_quic_transport.c: variable-length integers, the
      parser of frames with the permissions of packet types, the writers of frames.
    - [QuicAck]: event/quic/ngx_event_quic_ack.c and _output.c: the received numbers of a packet
      number space in an array of ranges, the frame that acknowledges them, a received ACK frame
      against the queue of sent frames, and the step relation of a space; congestion control, streams and
      loss detection are the interface [AckClient] with the laws [AckLaws].
    - [QuicBuf]: event/quic/ngx_event_quic_frames.c: the buffer that puts the pieces of a stream or of the handshake in order
      (write, read, skip), the chains of buffers with holes, the splitting of frames.
    - [Hpack]: http/v2/ngx_http_v2_table.c: the static and the dynamic table of HPACK, in a ring of bytes and a ring of pointers.
    - [HeaderBlock]: http/v2/ngx_http_v2.c: the handlers that decode the header block of a request, over CONTINUATION
      frames and reads, on top of [Hpack] and [Huff].
    - [V2Encode]: http/v2/ngx_http_v2_encode.c and the macros of ngx_http_v2.h: integers and strings of a header block as they are
      written, with the octets that are reserved for them.
    - [V2Filter]: http/v2/ngx_http_v2_filter_module.c: the header block of a response, of early hints and of trailers, its length, and
      its HEADERS and CONTINUATION frames.

    ** How the parts interact

    A request is read by [HttpLine] (request line), whose target states are the
    ones of [HttpUri], then [HttpUri] builds the path from the positions that the
    line has left, and [HttpHeader] reads the lines after it; a body in the chunked coding
    is read by [Chunked] and written by its response filter; header values that
    are sizes, dates or Huffman strings are read by [Parse], [HttpTime], [Huff]
    on top of [Num] and printed by [Sprintf]. [Rbtree], [Radix] and [Crc32] stand
    apart: timers, caches and resolvers of nginx are built on the first, the geo
    and access tables, whose entries [Cidr] reads, on the second, keys of caches on
    the third. [Cidr] reads with [Inet] and [Num], [Inet] prints with [Sprintf].
    [RoundRobin] names the servers of a request with [Inet]. [QuicAck] makes the frames that
    [QuicFrame] writes, and reads with it the ones that it receives; the data of STREAM and CRYPTO frames goes through [QuicBuf].
    A header block of HTTP/2 is decoded by [HeaderBlock], which keeps its headers in [Hpack] and decodes strings
    with [Huff]; its headers are given to the stream, which is a parameter. The other way, [V2Filter] writes a response with
    [V2Encode], [Huff], [Sprintf] and [HttpTime], and its theorem reads the frames again as [HeaderBlock] and [Hpack] specify.
    [ProxyProtocol] prints addresses with [Inet] and numbers with [Sprintf], and reads numbers with [Num].

    ** How state and operations correspond to the code

    A pointer into a buffer is an index or the list that starts there; a
    structure is a Record with the fields the code uses; a switch over [state]
    is an inductive type and a step function, and the loop over the buffer is a
    fixpoint over the list. A buffer that the code writes while it reads it is
    one memory, a list updated by index. Heap cells are a finite map; reading
    an address without a cell is undefined behaviour and the result [None].
    Integers are Z with the wrap-around of their width written out; overflow
    checks are the ones of the code. Return codes are the values of ngx_core.h.

    ** Bounds and fuel

    Loops over input recurse on the input. The loops of [Rbtree] have the number
    of cells as fuel, which the theorems show to be enough; the sprintf digit
    loop has the number of digits of a 64-bit integer; the chunk filter has a
    fuel that its totality lemma discharges. No theorem assumes that a loop
    ends: results are stated as [= Some _] or as the returned code. The loop over
    header lines has one round for each byte of the data and one more; the loops
    of [Radix] have the bits of a key and two more; the loops over the ranges of an ACK frame have the
    bytes of the frame and one more. The loops of [QuicBuf] recurse on the chains, the one that fills holes has the bytes
    and buffers of both chains as fuel. An eviction in [Hpack] has the number of entries; the handlers of [HeaderBlock]
    have eight times the bytes of the input and eight, since a handler that uses no byte lowers a rank. The frames of [V2Filter] are
    at most the bytes of the block and one, an integer of [V2Encode] has at most ten octets after the first; the search of [ProxyProtocol]
    has the bytes of the fields and one more.

    ** Groups of theorems

    Round trips (Huffman, base64, hexadecimal, decimal, escaping, dates, times,
    chunked coding, addresses); exact characterisation of what a parser
    accepts and returns, with overflow ([Num], [Parse], [HttpTime], [Utf8],
    [Base64], [HttpUri]) or by a grammar that shares nothing with the parser ([HttpLine], [HttpHeader], [Inet], [Cidr],
    and [Chunked], where the filter gives the data of the chunks, asks for the rest or refuses, for every cut into reads and buffers);
    refinement of an abstract state by linked cells with the reachability invariant ([Rbtree]) and a simulation of a map by
    linked nodes for any operations, where the code answers the deletion of a prefix of the preallocated
    depth that is not there like one that is there, which the statement says ([Radix]); equality of an optimised
    path with the general one or of a table with a reference ([Crc32]), and of an input in pieces with the whole input
    ([HttpUri], [HttpLine], [Huff]); an invariant of every interleaving of
    requests, the balance of the weights, and fairness for peers that are up and have no limit of connections ([RoundRobin]); a packet that
    was not received is never acknowledged, in any run of a packet number space, its ranges are the set of
    the numbers received, and a received ACK frame takes off the queue the frames it acknowledges, or fails as the statement
    says ([QuicAck]); parsed frames are well-formed and created ones are
    read back ([QuicFrame]); the reads of a stream give its bytes in order whatever the pieces that arrived, and a frame is
    split at a place that is given, at most seven bytes from the best one ([QuicBuf]);
    the tables of HPACK answer as those of RFC 7541 do ([Hpack]), and header blocks are decoded by the format of RFC 7541, written
    down on its own with the deviations of nginx named,
    for every cut into frames and reads, errors included ([HeaderBlock]); the header block of a response is decoded to its headers, and
    the computed lengths are enough for it ([V2Filter]); what is refused, and with which message, and that a written header is read
    back ([ProxyProtocol]); no path leaves the root, and merged slashes leave no empty segment but the last ([HttpUri]); bounds of
    what is written ([V2Filter]), and that printing is defined for every well-formed format and cut at its bound ([Sprintf]).

    ** Not modelled, and why

    System calls, event notification, sockets, threads, shared memory locks and
    logging: there is no computation to check. TLS and regular expressions are
    other libraries. Configuration directives and most modules are glue around
    callbacks. The state machines over connections (event loop, upstreams, the frames of HTTP/2
    other than header blocks, HTTP/3, the connections of QUIC) are calls between modules and the kernel; their computing parts
    are the components above. Allocation never fails in the models and memory that is given back is not followed. The Pascal units are another language;
    libuv, yyjson and libfyaml are programs of their own, which nginx does not
    use. The component list of the manifest names every part. *)

From Stdlib Require Export ZArith Lia.
From stdpp Require Export base tactics option list numbers.
From Stdlib Require Strings.String Strings.Ascii.
From Stdlib Require Strings.Byte.

(** ** Characters and byte strings *)

(** Character literals denote the C integer of the character: in the scope
    [ch_scope] the one-character string A is the integer 65. *)
Declare Scope ch_scope.
Delimit Scope ch_scope with ch.

Definition ch_parse (b : Init.Byte.byte) : option Z :=
  Some (Z.of_N (Strings.Byte.to_N b)).

Definition ch_print (z : Z) : option Init.Byte.byte := None.

String Notation Z ch_parse ch_print : ch_scope.

#[global] Open Scope Z_scope.

Export String.StringSyntax.

(** The bytes of a C string literal, without the terminating NUL. *)
Definition bstr (s : String.string) : list Z :=
  map (fun c => Z.of_N (Ascii.N_of_ascii c)) (String.list_ascii_of_string s).

Arguments bstr s%_string_scope.

(** The return codes of ngx_core.h. *)
Definition CR : Z := 13.
Definition LF : Z := 10.

Definition NGX_OK : Z := 0.
Definition NGX_ERROR : Z := -1.
Definition NGX_AGAIN : Z := -2.
Definition NGX_BUSY : Z := -3.
Definition NGX_DONE : Z := -4.
Definition NGX_DECLINED : Z := -5.

(** [NGX_MAX_INT_T_VALUE] of ngx_config.h on an LP64 platform; the build
    gives [NGX_MAX_SIZE_T_VALUE], [NGX_MAX_OFF_T_VALUE] and
    [NGX_MAX_TIME_T_VALUE] the same value there. *)
Definition NGX_MAX_INT_T_VALUE : Z := 9223372036854775807.
Definition NGX_MAX_SIZE_T_VALUE : Z := 9223372036854775807.
Definition NGX_MAX_OFF_T_VALUE : Z := 9223372036854775807.
Definition NGX_MAX_TIME_T_VALUE : Z := 9223372036854775807.

(** ** Machine integers *)

(** [lia] with the equations of the divisions and remainders in the goal. *)
Ltac dlia := Z.div_mod_to_equations; lia.

(** Conversion to an unsigned integer of the given width. *)
Definition u8 (x : Z) : Z := x mod 2 ^ 8.
Definition u32 (x : Z) : Z := x mod 2 ^ 32.
Definition u64 (x : Z) : Z := x mod 2 ^ 64.

(** Conversion to a signed 64-bit integer. *)
Definition s64 (x : Z) : Z := (x + 2 ^ 63) mod 2 ^ 64 - 2 ^ 63.

Definition is_byte (b : Z) : Prop := 0 <= b < 256.
Abbreviation bytes := (Forall is_byte).

#[global] Instance is_byte_dec b : Decision (is_byte b).
Proof. unfold is_byte. apply _. Defined.

Lemma u8_byte x : is_byte (u8 x).
Proof. unfold u8, is_byte. pose proof (Z.mod_pos_bound x (2 ^ 8)). lia. Qed.

Lemma u8_small x : is_byte x -> u8 x = x.
Proof. intros H. apply Z.mod_small. exact H. Qed.

Lemma u64_small x : 0 <= x < 2 ^ 64 -> u64 x = x.
Proof. apply Z.mod_small. Qed.

Lemma u32_small x : 0 <= x < 2 ^ 32 -> u32 x = x.
Proof. apply Z.mod_small. Qed.

Lemma s64_small x : - 2 ^ 63 <= x < 2 ^ 63 -> s64 x = x.
Proof. intros H. unfold s64. rewrite Z.mod_small; lia. Qed.

Lemma s64_u64 x : s64 (u64 x) = s64 x.
Proof.
  unfold s64, u64. f_equal. rewrite Zplus_mod_idemp_l. reflexivity.
Qed.

(** Closes a decidable goal by evaluating its decision procedure. *)
Ltac by_decide := refine (bool_decide_unpack _ _); vm_compute; exact I.

Lemma omap_cons_eq {A B} (f : A -> option B) c l :
  omap f (c :: l) = match f c with Some d => d :: omap f l | None => omap f l end.
Proof. done. Qed.

Lemma mapM_some {A} (l : list A) : mapM id (map Some l) = Some l.
Proof. induction l as [|x l IH]; [done|]. cbn. by rewrite IH. Qed.

(** Inversion of [Some], without looking into the argument. *)
Lemma Some_inv {A} (x y : A) : Some x = Some y -> x = y.
Proof. congruence. Qed.

Lemma Some_pair_inv {A B} (x y : A) (z w : B) : Some (x, z) = Some (y, w) -> x = y /\ z = w.
Proof. intros H. split; congruence. Qed.

(** ** Reading a buffer *)

(** [rd s i] reads byte [i] of the buffer [s]; [None] is a read outside of it,
    undefined behaviour in C. *)
Definition rd (s : list Z) (i : Z) : option Z :=
  if decide (0 <= i) then s !! Z.to_nat i else None.

Lemma rd_in_range s i : 0 <= i < Z.of_nat (length s) -> is_Some (rd s i).
Proof.
  intros H. unfold rd. rewrite decide_True by lia.
  apply lookup_lt_is_Some. lia.
Qed.

Lemma rd_byte s i b : bytes s -> rd s i = Some b -> is_byte b.
Proof.
  unfold rd. intros Hs. case_decide; [|discriminate].
  intros Hi. by eapply Forall_lookup_1.
Qed.

(** ** Computations that read memory and may give up *)

(** [Ret] is a value, [Fail] the return of [NGX_ERROR], [Ub] undefined
    behaviour such as a read outside of the buffer. *)
Inductive cres (A : Type) := Ret (a : A) | Fail | Ub.
Arguments Ret {A} a.
Arguments Fail {A}.
Arguments Ub {A}.

#[global] Instance cres_ret : MRet cres := fun A a => Ret a.
#[global] Instance cres_bind : MBind cres := fun A B f m =>
  match m with Ret a => f a | Fail => Fail | Ub => Ub end.

(** [* (s + i)] *)
Definition rdc (s : list Z) (i : Z) : cres Z :=
  match rd s i with Some c => Ret c | None => Ub end.

(** A computation that meets no undefined behaviour and whose value satisfies
    [Q]. *)
Definition safe {A} (m : cres A) (Q : A -> Prop) : Prop :=
  match m with Ret a => Q a | Fail => True | Ub => False end.

Lemma safe_bind {A B} (m : cres A) (f : A -> cres B) (P : A -> Prop) (Q : B -> Prop) :
  safe m P -> (forall a, P a -> safe (f a) Q) -> safe (a ← m; f a) Q.
Proof. destruct m; cbn; auto. Qed.

Lemma safe_rdc s i :
  0 <= i < Z.of_nat (length s) -> safe (rdc s i) (fun _ => True).
Proof. intros H. unfold rdc. by destruct (rd_in_range s i H) as [c ->]. Qed.

Lemma safe_weaken {A} (m : cres A) (P Q : A -> Prop) :
  safe m P -> (forall a, P a -> Q a) -> safe m Q.
Proof. destruct m; cbn; auto. Qed.

(** ** Exhaustive checks over a range of integers *)

Fixpoint zall (f : Z -> bool) (i : Z) (n : nat) : bool :=
  match n with
  | O => true
  | S n => if f i then zall f (i + 1) n else false
  end.

Lemma zall_spec f i n :
  zall f i n = true -> forall x, i <= x < i + Z.of_nat n -> f x = true.
Proof.
  revert i. induction n as [|n IH]; cbn; intros i H x Hx; [lia|].
  destruct (f i) eqn:E; [|discriminate].
  destruct (decide (x = i)) as [->|]; [done|].
  apply (IH (i + 1)); [done|lia].
Qed.

(** A boolean predicate that holds of the 256 bytes. *)
Definition bytes_all (f : Z -> bool) : bool := zall f 0 256.

Lemma bytes_all_spec f : bytes_all f = true -> forall b, is_byte b -> f b = true.
Proof. intros H b Hb. apply (zall_spec f 0 256 H). exact Hb. Qed.

Lemma bytes_all_decide (P : Z -> Prop) (dec : forall x, Decision (P x)) :
  bytes_all (fun x => bool_decide (P x)) = true -> forall b, is_byte b -> P b.
Proof.
  intros H b Hb. pose proof (bytes_all_spec _ H b Hb) as E. cbv beta in E.
  by apply bool_decide_eq_true in E.
Qed.

(** [byte_sweep b H] proves a decidable goal about one byte [b], whose range
    is [H : is_byte b], by evaluating it on every byte. *)
Ltac byte_sweep b H :=
  lazymatch goal with
  | |- ?G =>
      let P := eval pattern b in G in
      lazymatch P with
      | ?Q _ =>
          refine (bytes_all_decide Q ltac:(intros ?; cbv beta zeta; apply _) _ b H);
          vm_compute; reflexivity
      end
  end.

(** ** Bits, most significant first *)

Fixpoint bits_of (n : nat) (v : Z) : list bool :=
  match n with
  | O => []
  | S n => Z.testbit v (Z.of_nat n) :: bits_of n v
  end.

Lemma length_bits_of n v : length (bits_of n v) = n.
Proof. induction n; cbn; congruence. Qed.

Lemma bits_of_app m n v :
  bits_of (m + n) v = bits_of m (Z.shiftr v (Z.of_nat n)) ++ bits_of n v.
Proof.
  induction m as [|m IH]; cbn; [done|]. rewrite IH. f_equal.
  rewrite Z.shiftr_spec by lia. f_equal. lia.
Qed.

Lemma bits_of_lor n a b :
  bits_of n (Z.lor a b) = zip_with orb (bits_of n a) (bits_of n b).
Proof. induction n as [|n IH]; cbn; [done|]. by rewrite Z.lor_spec, IH. Qed.

Lemma bits_of_0 n : bits_of n 0 = replicate n false.
Proof. induction n as [|n IH]; cbn; [done|]. by rewrite Z.testbit_0_l, IH. Qed.

Lemma bits_of_ext n a b :
  (forall i, 0 <= i < Z.of_nat n -> Z.testbit a i = Z.testbit b i) ->
  bits_of n a = bits_of n b.
Proof.
  induction n as [|n IH]; cbn; intros H; [done|].
  f_equal; [apply H; lia | apply IH; intros; apply H; lia].
Qed.

Lemma bits_of_mod n m v :
  (n <= m)%nat -> bits_of n (v mod 2 ^ Z.of_nat m) = bits_of n v.
Proof.
  intros Hle. apply bits_of_ext. intros i Hi.
  rewrite Z.mod_pow2_bits_low by lia. done.
Qed.

Lemma bits_of_u8 v : bits_of 8 (u8 v) = bits_of 8 v.
Proof. apply (bits_of_mod 8 8). lia. Qed.

Lemma bits_of_u64 v : bits_of 64 (u64 v) = bits_of 64 v.
Proof. apply (bits_of_mod 64 64). lia. Qed.

Lemma bits_of_shiftl n k v :
  bits_of (n + k) (Z.shiftl v (Z.of_nat k)) = bits_of n v ++ replicate k false.
Proof.
  rewrite bits_of_app. f_equal.
  - rewrite Z.shiftr_shiftl_l by lia. rewrite Z.sub_diag. by rewrite Z.shiftl_0_r.
  - rewrite <- bits_of_0. apply bits_of_ext. intros i Hi.
    rewrite Z.shiftl_spec, Z.bits_0 by lia. apply Z.testbit_neg_r. lia.
Qed.

Lemma bits_of_small m n v :
  0 <= v < 2 ^ Z.of_nat n -> bits_of (m + n) v = replicate m false ++ bits_of n v.
Proof.
  intros H. rewrite bits_of_app. f_equal.
  rewrite Z.shiftr_div_pow2 by lia. rewrite Z.div_small by lia. apply bits_of_0.
Qed.

Lemma bits_of_ones n m :
  (n <= m)%nat -> bits_of n (2 ^ Z.of_nat m - 1) = replicate n true.
Proof.
  intros Hle. replace (2 ^ Z.of_nat m - 1) with (Z.ones (Z.of_nat m))
    by (rewrite Z.ones_equiv; lia).
  induction n as [|n IH]; cbn; [done|].
  rewrite Z.ones_spec_low by lia. f_equal. apply IH. lia.
Qed.

Lemma zip_orb_false_r l : zip_with orb l (replicate (length l) false) = l.
Proof. induction l as [|b l IH]; cbn; [done|]. by rewrite orb_false_r, IH. Qed.

Lemma zip_orb_false_l l : zip_with orb (replicate (length l) false) l = l.
Proof. induction l as [|b l IH]; cbn; [done|]. by rewrite IH. Qed.

Lemma testbit_high x n i : 0 <= x < 2 ^ n -> 0 <= n <= i -> Z.testbit x i = false.
Proof.
  intros Hx Hi. rewrite <- (Z.mod_small x (2 ^ n)) by done.
  apply Z.mod_pow2_bits_high. lia.
Qed.

Lemma lor_bound a b n :
  0 <= n -> 0 <= a < 2 ^ n -> 0 <= b < 2 ^ n -> 0 <= Z.lor a b < 2 ^ n.
Proof.
  intros Hn Ha Hb. assert (Z.lor a b = Z.lor a b mod 2 ^ n) as ->;
    [|apply Z.mod_pos_bound; lia].
  apply Z.bits_inj'. intros i Hi. destruct (Z_lt_le_dec i n).
  - by rewrite Z.mod_pow2_bits_low by lia.
  - rewrite Z.mod_pow2_bits_high, Z.lor_spec by lia.
    by rewrite !(testbit_high _ n) by lia.
Qed.

(** The usual ways of taking a number apart and putting it together again. *)
Lemma lor_shiftl_add u b k :
  0 <= k -> 0 <= b < 2 ^ k -> Z.lor (Z.shiftl u k) b = u * 2 ^ k + b.
Proof.
  intros Hk Hb. rewrite <- Z.shiftl_mul_pow2 by done.
  assert (Z.land (Z.shiftl u k) b = 0) as L.
  { apply Z.bits_inj'. intros i Hi. rewrite Z.land_spec, Z.bits_0.
    destruct (Z_lt_le_dec i k).
    - by rewrite Z.shiftl_spec_low by lia.
    - rewrite (testbit_high b k i) by lia. apply andb_false_r. }
  rewrite Z.add_nocarry_lxor by exact L. symmetry. by apply Z.lxor_lor.
Qed.

Lemma land_ones_mod x m k : m = Z.ones k -> 0 <= k -> Z.land x m = x mod 2 ^ k.
Proof. intros -> H. by rewrite Z.land_ones. Qed.

(** [bit_cases] proves that two lists of bits, given by [bits_of] with numerals
    for widths, are the same: it evaluates [bits_of] and compares bit by bit,
    where [high] says that a bit is above the width of a variable. *)
Ltac bit_simpl :=
  repeat first
    [ rewrite Z.lor_spec | rewrite Z.land_spec
    | rewrite Z.shiftl_spec by lia | rewrite Z.shiftr_spec by lia
    | rewrite Z.mod_pow2_bits_low by lia
    | rewrite Z.testbit_neg_r by lia ].

Ltac bit_cases high :=
  unfold u8; cbv [bits_of Z.of_nat Pos.of_succ_nat Pos.succ app take drop];
  repeat match goal with
  | |- _ :: _ = _ :: _ => apply (f_equal2 cons)
  | |- [] = [] => reflexivity
  end;
  bit_simpl; cbn [Z.add Z.sub Z.opp Z.pos_sub Pos.add Pos.succ Pos.sub Pos.pred_double
                  Pos.sub_mask Pos.double_mask Pos.succ_double_mask Pos.double_pred_mask
                  Pos.pred_mask Pos.add_carry];
  repeat (rewrite Z.testbit_neg_r by lia);
  repeat high; cbn [orb andb]; rewrite ?orb_false_r, ?andb_true_r; try reflexivity.

(** The bits of a byte string. *)
Definition bytes_bits (l : list Z) : list bool := l ≫= bits_of 8.

Lemma bytes_bits_app a b : bytes_bits (a ++ b) = bytes_bits a ++ bytes_bits b.
Proof. apply bind_app. Qed.

Lemma length_bytes_bits l : length (bytes_bits l) = (8 * length l)%nat.
Proof.
  unfold bytes_bits. induction l as [|x l IH]; [done|].
  cbn [length mbind list_bind]. rewrite length_app, length_bits_of, IH. lia.
Qed.

(** The number whose bits are given. *)
Definition bits_value (l : list bool) : Z :=
  fold_left (fun v (b : bool) => 2 * v + (if b then 1 else 0)) l 0.

Lemma byte_of_bits b : is_byte b -> bits_value (bits_of 8 b) = b.
Proof. intros H. byte_sweep b H. Qed.

Lemma bytes_bits_inj a b : bytes a -> bytes b -> bytes_bits a = bytes_bits b -> a = b.
Proof.
  intros Ha. revert b. induction Ha as [|x a Hx Ha IH]; intros [|y b] Hb E; [done|done|done|].
  apply List.Forall_cons_iff in Hb. destruct Hb as [Hy Hb].
  change (bits_of 8 x ++ bytes_bits a = bits_of 8 y ++ bytes_bits b) in E.
  apply app_inj_1 in E; [|by rewrite !length_bits_of]. destruct E as [E1 E2].
  f_equal; [|by apply IH]. by rewrite <- (byte_of_bits x Hx), E1, byte_of_bits.
Qed.

(** [Create HintDb] of the development: facts about bytes and widths. *)
Create HintDb ngx.
Create Rewrite HintDb ngx_simpl.
#[export] Hint Resolve u8_byte u8_small u64_small u32_small : ngx.
#[export] Hint Rewrite length_bits_of : ngx_simpl.
