(* ===== verification/NgxString.v ===== *)
(** * Elementary string routines of ngx_string.c and ngx_string.h *)

From S2P Require Import Prelude.

Open Scope ch_scope.

(** [ngx_tolower], [ngx_toupper] *)
Definition ngx_tolower (c : Z) : Z :=
  u8 (if decide ("A" <= c /\ c <= "Z") then Z.lor c 0x20 else c).

Definition ngx_toupper (c : Z) : Z :=
  u8 (if decide ("a" <= c /\ c <= "z") then Z.land c (Z.lnot 0x20) else c).

Definition ngx_strlow (src : list Z) : list Z := map ngx_tolower src.

(** The number of bytes before the first NUL, at most [n]. *)
Fixpoint ngx_strnlen (p : list Z) (n : nat) : option nat :=
  match n with
  | O => Some 0%nat
  | S n =>
      match p with
      | [] => None
      | c :: p => if decide (c = 0) then Some 0%nat else S <$> ngx_strnlen p n
      end
  end.

(** The index of the first [c], [None] for NULL. *)
Fixpoint ngx_strlchr (p : list Z) (c : Z) : option nat :=
  match p with
  | [] => None
  | b :: p => if decide (b = c) then Some 0%nat else S <$> ngx_strlchr p c
  end.

Close Scope ch_scope.

Lemma ngx_tolower_byte c : is_byte (ngx_tolower c).
Proof. apply u8_byte. Qed.

Lemma ngx_tolower_idemp c : is_byte c -> ngx_tolower (ngx_tolower c) = ngx_tolower c.
Proof. intros H. byte_sweep c H. Qed.

Lemma ngx_strlchr_app p c l : c ∉ p -> ngx_strlchr (p ++ c :: l) c = Some (length p).
Proof.
  induction p as [|b p IH]; intros H; cbn.
  - by rewrite decide_True.
  - apply not_elem_of_cons in H as [Hb H]. rewrite decide_False by done. by rewrite IH.
Qed.

Lemma ngx_strlchr_none p c : c ∉ p -> ngx_strlchr p c = None.
Proof.
  induction p as [|b p IH]; intros H; cbn; [done|].
  apply not_elem_of_cons in H as [Hb H]. rewrite decide_False by done. by rewrite IH.
Qed.
