(* ===== verification/HuffTables.v ===== *)
(** * Tables of the HTTP Huffman coder

    The decoding automaton of ngx_http_huff_decode.c, 256 states by 16 nibbles,
    and the two encoding tables of ngx_http_huff_encode.c (plain, and with the
    lower-case transformation embedded), transcribed entry by entry.  The
    decoding table is given in blocks of fourteen states. *)

From S2P Require Import Prelude.

(** [ngx_http_huff_decode_code_t] *)
Record ngx_http_huff_decode_code_t := Dec { d_next : Z; d_emit : Z; d_sym : Z; d_ending : Z }.

(** [ngx_http_huff_encode_code_t] *)
Record ngx_http_huff_encode_code_t := Enc { e_code : Z; e_len : Z }.

(** States 0 to 13. *)
Definition huff_decode_codes_0 : list (list ngx_http_huff_decode_code_t) :=
  [ [ Dec 0x04 0x00 0x00 0x00; Dec 0x05 0x00 0x00 0x00; Dec 0x07 0x00 0x00 0x00; Dec 0x08 0x00 0x00 0x00;
      Dec 0x0b 0x00 0x00 0x00; Dec 0x0c 0x00 0x00 0x00; Dec 0x10 0x00 0x00 0x00; Dec 0x13 0x00 0x00 0x00;
      Dec 0x19 0x00 0x00 0x00; Dec 0x1c 0x00 0x00 0x00; Dec 0x20 0x00 0x00 0x00; Dec 0x23 0x00 0x00 0x00;
      Dec 0x2a 0x00 0x00 0x00; Dec 0x31 0x00 0x00 0x00; Dec 0x39 0x00 0x00 0x00; Dec 0x40 0x00 0x00 0x01 ];
    [ Dec 0x00 0x01 0x30 0x01; Dec 0x00 0x01 0x31 0x01; Dec 0x00 0x01 0x32 0x01; Dec 0x00 0x01 0x61 0x01;
      Dec 0x00 0x01 0x63 0x01; Dec 0x00 0x01 0x65 0x01; Dec 0x00 0x01 0x69 0x01; Dec 0x00 0x01 0x6f 0x01;
      Dec 0x00 0x01 0x73 0x01; Dec 0x00 0x01 0x74 0x01; Dec 0x0d 0x00 0x00 0x00; Dec 0x0e 0x00 0x00 0x00;
      Dec 0x11 0x00 0x00 0x00; Dec 0x12 0x00 0x00 0x00; Dec 0x14 0x00 0x00 0x00; Dec 0x15 0x00 0x00 0x00 ];
    [ Dec 0x01 0x01 0x30 0x00; Dec 0x16 0x01 0x30 0x01; Dec 0x01 0x01 0x31 0x00; Dec 0x16 0x01 0x31 0x01;
      Dec 0x01 0x01 0x32 0x00; Dec 0x16 0x01 0x32 0x01; Dec 0x01 0x01 0x61 0x00; Dec 0x16 0x01 0x61 0x01;
      Dec 0x01 0x01 0x63 0x00; Dec 0x16 0x01 0x63 0x01; Dec 0x01 0x01 0x65 0x00; Dec 0x16 0x01 0x65 0x01;
      Dec 0x01 0x01 0x69 0x00; Dec 0x16 0x01 0x69 0x01; Dec 0x01 0x01 0x6f 0x00; Dec 0x16 0x01 0x6f 0x01 ];
    [ Dec 0x02 0x01 0x30 0x00; Dec 0x09 0x01 0x30 0x00; Dec 0x17 0x01 0x30 0x00; Dec 0x28 0x01 0x30 0x01;
      Dec 0x02 0x01 0x31 0x00; Dec 0x09 0x01 0x31 0x00; Dec 0x17 0x01 0x31 0x00; Dec 0x28 0x01 0x31 0x01;
      Dec 0x02 0x01 0x32 0x00; Dec 0x09 0x01 0x32 0x00; Dec 0x17 0x01 0x32 0x00; Dec 0x28 0x01 0x32 0x01;
      Dec 0x02 0x01 0x61 0x00; Dec 0x09 0x01 0x61 0x00; Dec 0x17 0x01 0x61 0x00; Dec 0x28 0x01 0x61 0x01 ];
    [ Dec 0x03 0x01 0x30 0x00; Dec 0x06 0x01 0x30 0x00; Dec 0x0a 0x01 0x30 0x00; Dec 0x0f 0x01 0x30 0x00;
      Dec 0x18 0x01 0x30 0x00; Dec 0x1f 0x01 0x30 0x00; Dec 0x29 0x01 0x30 0x00; Dec 0x38 0x01 0x30 0x01;
      Dec 0x03 0x01 0x31 0x00; Dec 0x06 0x01 0x31 0x00; Dec 0x0a 0x01 0x31 0x00; Dec 0x0f 0x01 0x31 0x00;
      Dec 0x18 0x01 0x31 0x00; Dec 0x1f 0x01 0x31 0x00; Dec 0x29 0x01 0x31 0x00; Dec 0x38 0x01 0x31 0x01 ];
    [ Dec 0x03 0x01 0x32 0x00; Dec 0x06 0x01 0x32 0x00; Dec 0x0a 0x01 0x32 0x00; Dec 0x0f 0x01 0x32 0x00;
      Dec 0x18 0x01 0x32 0x00; Dec 0x1f 0x01 0x32 0x00; Dec 0x29 0x01 0x32 0x00; Dec 0x38 0x01 0x32 0x01;
      Dec 0x03 0x01 0x61 0x00; Dec 0x06 0x01 0x61 0x00; Dec 0x0a 0x01 0x61 0x00; Dec 0x0f 0x01 0x61 0x00;
      Dec 0x18 0x01 0x61 0x00; Dec 0x1f 0x01 0x61 0x00; Dec 0x29 0x01 0x61 0x00; Dec 0x38 0x01 0x61 0x01 ];
    [ Dec 0x02 0x01 0x63 0x00; Dec 0x09 0x01 0x63 0x00; Dec 0x17 0x01 0x63 0x00; Dec 0x28 0x01 0x63 0x01;
      Dec 0x02 0x01 0x65 0x00; Dec 0x09 0x01 0x65 0x00; Dec 0x17 0x01 0x65 0x00; Dec 0x28 0x01 0x65 0x01;
      Dec 0x02 0x01 0x69 0x00; Dec 0x09 0x01 0x69 0x00; Dec 0x17 0x01 0x69 0x00; Dec 0x28 0x01 0x69 0x01;
      Dec 0x02 0x01 0x6f 0x00; Dec 0x09 0x01 0x6f 0x00; Dec 0x17 0x01 0x6f 0x00; Dec 0x28 0x01 0x6f 0x01 ];
    [ Dec 0x03 0x01 0x63 0x00; Dec 0x06 0x01 0x63 0x00; Dec 0x0a 0x01 0x63 0x00; Dec 0x0f 0x01 0x63 0x00;
      Dec 0x18 0x01 0x63 0x00; Dec 0x1f 0x01 0x63 0x00; Dec 0x29 0x01 0x63 0x00; Dec 0x38 0x01 0x63 0x01;
      Dec 0x03 0x01 0x65 0x00; Dec 0x06 0x01 0x65 0x00; Dec 0x0a 0x01 0x65 0x00; Dec 0x0f 0x01 0x65 0x00;
      Dec 0x18 0x01 0x65 0x00; Dec 0x1f 0x01 0x65 0x00; Dec 0x29 0x01 0x65 0x00; Dec 0x38 0x01 0x65 0x01 ];
    [ Dec 0x03 0x01 0x69 0x00; Dec 0x06 0x01 0x69 0x00; Dec 0x0a 0x01 0x69 0x00; Dec 0x0f 0x01 0x69 0x00;
      Dec 0x18 0x01 0x69 0x00; Dec 0x1f 0x01 0x69 0x00; Dec 0x29 0x01 0x69 0x00; Dec 0x38 0x01 0x69 0x01;
      Dec 0x03 0x01 0x6f 0x00; Dec 0x06 0x01 0x6f 0x00; Dec 0x0a 0x01 0x6f 0x00; Dec 0x0f 0x01 0x6f 0x00;
      Dec 0x18 0x01 0x6f 0x00; Dec 0x1f 0x01 0x6f 0x00; Dec 0x29 0x01 0x6f 0x00; Dec 0x38 0x01 0x6f 0x01 ];
    [ Dec 0x01 0x01 0x73 0x00; Dec 0x16 0x01 0x73 0x01; Dec 0x01 0x01 0x74 0x00; Dec 0x16 0x01 0x74 0x01;
      Dec 0x00 0x01 0x20 0x01; Dec 0x00 0x01 0x25 0x01; Dec 0x00 0x01 0x2d 0x01; Dec 0x00 0x01 0x2e 0x01;
      Dec 0x00 0x01 0x2f 0x01; Dec 0x00 0x01 0x33 0x01; Dec 0x00 0x01 0x34 0x01; Dec 0x00 0x01 0x35 0x01;
      Dec 0x00 0x01 0x36 0x01; Dec 0x00 0x01 0x37 0x01; Dec 0x00 0x01 0x38 0x01; Dec 0x00 0x01 0x39 0x01 ];
    [ Dec 0x02 0x01 0x73 0x00; Dec 0x09 0x01 0x73 0x00; Dec 0x17 0x01 0x73 0x00; Dec 0x28 0x01 0x73 0x01;
      Dec 0x02 0x01 0x74 0x00; Dec 0x09 0x01 0x74 0x00; Dec 0x17 0x01 0x74 0x00; Dec 0x28 0x01 0x74 0x01;
      Dec 0x01 0x01 0x20 0x00; Dec 0x16 0x01 0x20 0x01; Dec 0x01 0x01 0x25 0x00; Dec 0x16 0x01 0x25 0x01;
      Dec 0x01 0x01 0x2d 0x00; Dec 0x16 0x01 0x2d 0x01; Dec 0x01 0x01 0x2e 0x00; Dec 0x16 0x01 0x2e 0x01 ];
    [ Dec 0x03 0x01 0x73 0x00; Dec 0x06 0x01 0x73 0x00; Dec 0x0a 0x01 0x73 0x00; Dec 0x0f 0x01 0x73 0x00;
      Dec 0x18 0x01 0x73 0x00; Dec 0x1f 0x01 0x73 0x00; Dec 0x29 0x01 0x73 0x00; Dec 0x38 0x01 0x73 0x01;
      Dec 0x03 0x01 0x74 0x00; Dec 0x06 0x01 0x74 0x00; Dec 0x0a 0x01 0x74 0x00; Dec 0x0f 0x01 0x74 0x00;
      Dec 0x18 0x01 0x74 0x00; Dec 0x1f 0x01 0x74 0x00; Dec 0x29 0x01 0x74 0x00; Dec 0x38 0x01 0x74 0x01 ];
    [ Dec 0x02 0x01 0x20 0x00; Dec 0x09 0x01 0x20 0x00; Dec 0x17 0x01 0x20 0x00; Dec 0x28 0x01 0x20 0x01;
      Dec 0x02 0x01 0x25 0x00; Dec 0x09 0x01 0x25 0x00; Dec 0x17 0x01 0x25 0x00; Dec 0x28 0x01 0x25 0x01;
      Dec 0x02 0x01 0x2d 0x00; Dec 0x09 0x01 0x2d 0x00; Dec 0x17 0x01 0x2d 0x00; Dec 0x28 0x01 0x2d 0x01;
      Dec 0x02 0x01 0x2e 0x00; Dec 0x09 0x01 0x2e 0x00; Dec 0x17 0x01 0x2e 0x00; Dec 0x28 0x01 0x2e 0x01 ];
    [ Dec 0x03 0x01 0x20 0x00; Dec 0x06 0x01 0x20 0x00; Dec 0x0a 0x01 0x20 0x00; Dec 0x0f 0x01 0x20 0x00;
      Dec 0x18 0x01 0x20 0x00; Dec 0x1f 0x01 0x20 0x00; Dec 0x29 0x01 0x20 0x00; Dec 0x38 0x01 0x20 0x01;
      Dec 0x03 0x01 0x25 0x00; Dec 0x06 0x01 0x25 0x00; Dec 0x0a 0x01 0x25 0x00; Dec 0x0f 0x01 0x25 0x00;
      Dec 0x18 0x01 0x25 0x00; Dec 0x1f 0x01 0x25 0x00; Dec 0x29 0x01 0x25 0x00; Dec 0x38 0x01 0x25 0x01 ] ].

(** States 14 to 27. *)
Definition huff_decode_codes_14 : list (list ngx_http_huff_decode_code_t) :=
  [ [ Dec 0x03 0x01 0x2d 0x00; Dec 0x06 0x01 0x2d 0x00; Dec 0x0a 0x01 0x2d 0x00; Dec 0x0f 0x01 0x2d 0x00;
      Dec 0x18 0x01 0x2d 0x00; Dec 0x1f 0x01 0x2d 0x00; Dec 0x29 0x01 0x2d 0x00; Dec 0x38 0x01 0x2d 0x01;
      Dec 0x03 0x01 0x2e 0x00; Dec 0x06 0x01 0x2e 0x00; Dec 0x0a 0x01 0x2e 0x00; Dec 0x0f 0x01 0x2e 0x00;
      Dec 0x18 0x01 0x2e 0x00; Dec 0x1f 0x01 0x2e 0x00; Dec 0x29 0x01 0x2e 0x00; Dec 0x38 0x01 0x2e 0x01 ];
    [ Dec 0x01 0x01 0x2f 0x00; Dec 0x16 0x01 0x2f 0x01; Dec 0x01 0x01 0x33 0x00; Dec 0x16 0x01 0x33 0x01;
      Dec 0x01 0x01 0x34 0x00; Dec 0x16 0x01 0x34 0x01; Dec 0x01 0x01 0x35 0x00; Dec 0x16 0x01 0x35 0x01;
      Dec 0x01 0x01 0x36 0x00; Dec 0x16 0x01 0x36 0x01; Dec 0x01 0x01 0x37 0x00; Dec 0x16 0x01 0x37 0x01;
      Dec 0x01 0x01 0x38 0x00; Dec 0x16 0x01 0x38 0x01; Dec 0x01 0x01 0x39 0x00; Dec 0x16 0x01 0x39 0x01 ];
    [ Dec 0x02 0x01 0x2f 0x00; Dec 0x09 0x01 0x2f 0x00; Dec 0x17 0x01 0x2f 0x00; Dec 0x28 0x01 0x2f 0x01;
      Dec 0x02 0x01 0x33 0x00; Dec 0x09 0x01 0x33 0x00; Dec 0x17 0x01 0x33 0x00; Dec 0x28 0x01 0x33 0x01;
      Dec 0x02 0x01 0x34 0x00; Dec 0x09 0x01 0x34 0x00; Dec 0x17 0x01 0x34 0x00; Dec 0x28 0x01 0x34 0x01;
      Dec 0x02 0x01 0x35 0x00; Dec 0x09 0x01 0x35 0x00; Dec 0x17 0x01 0x35 0x00; Dec 0x28 0x01 0x35 0x01 ];
    [ Dec 0x03 0x01 0x2f 0x00; Dec 0x06 0x01 0x2f 0x00; Dec 0x0a 0x01 0x2f 0x00; Dec 0x0f 0x01 0x2f 0x00;
      Dec 0x18 0x01 0x2f 0x00; Dec 0x1f 0x01 0x2f 0x00; Dec 0x29 0x01 0x2f 0x00; Dec 0x38 0x01 0x2f 0x01;
      Dec 0x03 0x01 0x33 0x00; Dec 0x06 0x01 0x33 0x00; Dec 0x0a 0x01 0x33 0x00; Dec 0x0f 0x01 0x33 0x00;
      Dec 0x18 0x01 0x33 0x00; Dec 0x1f 0x01 0x33 0x00; Dec 0x29 0x01 0x33 0x00; Dec 0x38 0x01 0x33 0x01 ];
    [ Dec 0x03 0x01 0x34 0x00; Dec 0x06 0x01 0x34 0x00; Dec 0x0a 0x01 0x34 0x00; Dec 0x0f 0x01 0x34 0x00;
      Dec 0x18 0x01 0x34 0x00; Dec 0x1f 0x01 0x34 0x00; Dec 0x29 0x01 0x34 0x00; Dec 0x38 0x01 0x34 0x01;
      Dec 0x03 0x01 0x35 0x00; Dec 0x06 0x01 0x35 0x00; Dec 0x0a 0x01 0x35 0x00; Dec 0x0f 0x01 0x35 0x00;
      Dec 0x18 0x01 0x35 0x00; Dec 0x1f 0x01 0x35 0x00; Dec 0x29 0x01 0x35 0x00; Dec 0x38 0x01 0x35 0x01 ];
    [ Dec 0x02 0x01 0x36 0x00; Dec 0x09 0x01 0x36 0x00; Dec 0x17 0x01 0x36 0x00; Dec 0x28 0x01 0x36 0x01;
      Dec 0x02 0x01 0x37 0x00; Dec 0x09 0x01 0x37 0x00; Dec 0x17 0x01 0x37 0x00; Dec 0x28 0x01 0x37 0x01;
      Dec 0x02 0x01 0x38 0x00; Dec 0x09 0x01 0x38 0x00; Dec 0x17 0x01 0x38 0x00; Dec 0x28 0x01 0x38 0x01;
      Dec 0x02 0x01 0x39 0x00; Dec 0x09 0x01 0x39 0x00; Dec 0x17 0x01 0x39 0x00; Dec 0x28 0x01 0x39 0x01 ];
    [ Dec 0x03 0x01 0x36 0x00; Dec 0x06 0x01 0x36 0x00; Dec 0x0a 0x01 0x36 0x00; Dec 0x0f 0x01 0x36 0x00;
      Dec 0x18 0x01 0x36 0x00; Dec 0x1f 0x01 0x36 0x00; Dec 0x29 0x01 0x36 0x00; Dec 0x38 0x01 0x36 0x01;
      Dec 0x03 0x01 0x37 0x00; Dec 0x06 0x01 0x37 0x00; Dec 0x0a 0x01 0x37 0x00; Dec 0x0f 0x01 0x37 0x00;
      Dec 0x18 0x01 0x37 0x00; Dec 0x1f 0x01 0x37 0x00; Dec 0x29 0x01 0x37 0x00; Dec 0x38 0x01 0x37 0x01 ];
    [ Dec 0x03 0x01 0x38 0x00; Dec 0x06 0x01 0x38 0x00; Dec 0x0a 0x01 0x38 0x00; Dec 0x0f 0x01 0x38 0x00;
      Dec 0x18 0x01 0x38 0x00; Dec 0x1f 0x01 0x38 0x00; Dec 0x29 0x01 0x38 0x00; Dec 0x38 0x01 0x38 0x01;
      Dec 0x03 0x01 0x39 0x00; Dec 0x06 0x01 0x39 0x00; Dec 0x0a 0x01 0x39 0x00; Dec 0x0f 0x01 0x39 0x00;
      Dec 0x18 0x01 0x39 0x00; Dec 0x1f 0x01 0x39 0x00; Dec 0x29 0x01 0x39 0x00; Dec 0x38 0x01 0x39 0x01 ];
    [ Dec 0x1a 0x00 0x00 0x00; Dec 0x1b 0x00 0x00 0x00; Dec 0x1d 0x00 0x00 0x00; Dec 0x1e 0x00 0x00 0x00;
      Dec 0x21 0x00 0x00 0x00; Dec 0x22 0x00 0x00 0x00; Dec 0x24 0x00 0x00 0x00; Dec 0x25 0x00 0x00 0x00;
      Dec 0x2b 0x00 0x00 0x00; Dec 0x2e 0x00 0x00 0x00; Dec 0x32 0x00 0x00 0x00; Dec 0x35 0x00 0x00 0x00;
      Dec 0x3a 0x00 0x00 0x00; Dec 0x3d 0x00 0x00 0x00; Dec 0x41 0x00 0x00 0x00; Dec 0x44 0x00 0x00 0x01 ];
    [ Dec 0x00 0x01 0x3d 0x01; Dec 0x00 0x01 0x41 0x01; Dec 0x00 0x01 0x5f 0x01; Dec 0x00 0x01 0x62 0x01;
      Dec 0x00 0x01 0x64 0x01; Dec 0x00 0x01 0x66 0x01; Dec 0x00 0x01 0x67 0x01; Dec 0x00 0x01 0x68 0x01;
      Dec 0x00 0x01 0x6c 0x01; Dec 0x00 0x01 0x6d 0x01; Dec 0x00 0x01 0x6e 0x01; Dec 0x00 0x01 0x70 0x01;
      Dec 0x00 0x01 0x72 0x01; Dec 0x00 0x01 0x75 0x01; Dec 0x26 0x00 0x00 0x00; Dec 0x27 0x00 0x00 0x00 ];
    [ Dec 0x01 0x01 0x3d 0x00; Dec 0x16 0x01 0x3d 0x01; Dec 0x01 0x01 0x41 0x00; Dec 0x16 0x01 0x41 0x01;
      Dec 0x01 0x01 0x5f 0x00; Dec 0x16 0x01 0x5f 0x01; Dec 0x01 0x01 0x62 0x00; Dec 0x16 0x01 0x62 0x01;
      Dec 0x01 0x01 0x64 0x00; Dec 0x16 0x01 0x64 0x01; Dec 0x01 0x01 0x66 0x00; Dec 0x16 0x01 0x66 0x01;
      Dec 0x01 0x01 0x67 0x00; Dec 0x16 0x01 0x67 0x01; Dec 0x01 0x01 0x68 0x00; Dec 0x16 0x01 0x68 0x01 ];
    [ Dec 0x02 0x01 0x3d 0x00; Dec 0x09 0x01 0x3d 0x00; Dec 0x17 0x01 0x3d 0x00; Dec 0x28 0x01 0x3d 0x01;
      Dec 0x02 0x01 0x41 0x00; Dec 0x09 0x01 0x41 0x00; Dec 0x17 0x01 0x41 0x00; Dec 0x28 0x01 0x41 0x01;
      Dec 0x02 0x01 0x5f 0x00; Dec 0x09 0x01 0x5f 0x00; Dec 0x17 0x01 0x5f 0x00; Dec 0x28 0x01 0x5f 0x01;
      Dec 0x02 0x01 0x62 0x00; Dec 0x09 0x01 0x62 0x00; Dec 0x17 0x01 0x62 0x00; Dec 0x28 0x01 0x62 0x01 ];
    [ Dec 0x03 0x01 0x3d 0x00; Dec 0x06 0x01 0x3d 0x00; Dec 0x0a 0x01 0x3d 0x00; Dec 0x0f 0x01 0x3d 0x00;
      Dec 0x18 0x01 0x3d 0x00; Dec 0x1f 0x01 0x3d 0x00; Dec 0x29 0x01 0x3d 0x00; Dec 0x38 0x01 0x3d 0x01;
      Dec 0x03 0x01 0x41 0x00; Dec 0x06 0x01 0x41 0x00; Dec 0x0a 0x01 0x41 0x00; Dec 0x0f 0x01 0x41 0x00;
      Dec 0x18 0x01 0x41 0x00; Dec 0x1f 0x01 0x41 0x00; Dec 0x29 0x01 0x41 0x00; Dec 0x38 0x01 0x41 0x01 ];
    [ Dec 0x03 0x01 0x5f 0x00; Dec 0x06 0x01 0x5f 0x00; Dec 0x0a 0x01 0x5f 0x00; Dec 0x0f 0x01 0x5f 0x00;
      Dec 0x18 0x01 0x5f 0x00; Dec 0x1f 0x01 0x5f 0x00; Dec 0x29 0x01 0x5f 0x00; Dec 0x38 0x01 0x5f 0x01;
      Dec 0x03 0x01 0x62 0x00; Dec 0x06 0x01 0x62 0x00; Dec 0x0a 0x01 0x62 0x00; Dec 0x0f 0x01 0x62 0x00;
      Dec 0x18 0x01 0x62 0x00; Dec 0x1f 0x01 0x62 0x00; Dec 0x29 0x01 0x62 0x00; Dec 0x38 0x01 0x62 0x01 ] ].

(** States 28 to 41. *)
Definition huff_decode_codes_28 : list (list ngx_http_huff_decode_code_t) :=
  [ [ Dec 0x02 0x01 0x64 0x00; Dec 0x09 0x01 0x64 0x00; Dec 0x17 0x01 0x64 0x00; Dec 0x28 0x01 0x64 0x01;
      Dec 0x02 0x01 0x66 0x00; Dec 0x09 0x01 0x66 0x00; Dec 0x17 0x01 0x66 0x00; Dec 0x28 0x01 0x66 0x01;
      Dec 0x02 0x01 0x67 0x00; Dec 0x09 0x01 0x67 0x00; Dec 0x17 0x01 0x67 0x00; Dec 0x28 0x01 0x67 0x01;
      Dec 0x02 0x01 0x68 0x00; Dec 0x09 0x01 0x68 0x00; Dec 0x17 0x01 0x68 0x00; Dec 0x28 0x01 0x68 0x01 ];
    [ Dec 0x03 0x01 0x64 0x00; Dec 0x06 0x01 0x64 0x00; Dec 0x0a 0x01 0x64 0x00; Dec 0x0f 0x01 0x64 0x00;
      Dec 0x18 0x01 0x64 0x00; Dec 0x1f 0x01 0x64 0x00; Dec 0x29 0x01 0x64 0x00; Dec 0x38 0x01 0x64 0x01;
      Dec 0x03 0x01 0x66 0x00; Dec 0x06 0x01 0x66 0x00; Dec 0x0a 0x01 0x66 0x00; Dec 0x0f 0x01 0x66 0x00;
      Dec 0x18 0x01 0x66 0x00; Dec 0x1f 0x01 0x66 0x00; Dec 0x29 0x01 0x66 0x00; Dec 0x38 0x01 0x66 0x01 ];
    [ Dec 0x03 0x01 0x67 0x00; Dec 0x06 0x01 0x67 0x00; Dec 0x0a 0x01 0x67 0x00; Dec 0x0f 0x01 0x67 0x00;
      Dec 0x18 0x01 0x67 0x00; Dec 0x1f 0x01 0x67 0x00; Dec 0x29 0x01 0x67 0x00; Dec 0x38 0x01 0x67 0x01;
      Dec 0x03 0x01 0x68 0x00; Dec 0x06 0x01 0x68 0x00; Dec 0x0a 0x01 0x68 0x00; Dec 0x0f 0x01 0x68 0x00;
      Dec 0x18 0x01 0x68 0x00; Dec 0x1f 0x01 0x68 0x00; Dec 0x29 0x01 0x68 0x00; Dec 0x38 0x01 0x68 0x01 ];
    [ Dec 0x01 0x01 0x6c 0x00; Dec 0x16 0x01 0x6c 0x01; Dec 0x01 0x01 0x6d 0x00; Dec 0x16 0x01 0x6d 0x01;
      Dec 0x01 0x01 0x6e 0x00; Dec 0x16 0x01 0x6e 0x01; Dec 0x01 0x01 0x70 0x00; Dec 0x16 0x01 0x70 0x01;
      Dec 0x01 0x01 0x72 0x00; Dec 0x16 0x01 0x72 0x01; Dec 0x01 0x01 0x75 0x00; Dec 0x16 0x01 0x75 0x01;
      Dec 0x00 0x01 0x3a 0x01; Dec 0x00 0x01 0x42 0x01; Dec 0x00 0x01 0x43 0x01; Dec 0x00 0x01 0x44 0x01 ];
    [ Dec 0x02 0x01 0x6c 0x00; Dec 0x09 0x01 0x6c 0x00; Dec 0x17 0x01 0x6c 0x00; Dec 0x28 0x01 0x6c 0x01;
      Dec 0x02 0x01 0x6d 0x00; Dec 0x09 0x01 0x6d 0x00; Dec 0x17 0x01 0x6d 0x00; Dec 0x28 0x01 0x6d 0x01;
      Dec 0x02 0x01 0x6e 0x00; Dec 0x09 0x01 0x6e 0x00; Dec 0x17 0x01 0x6e 0x00; Dec 0x28 0x01 0x6e 0x01;
      Dec 0x02 0x01 0x70 0x00; Dec 0x09 0x01 0x70 0x00; Dec 0x17 0x01 0x70 0x00; Dec 0x28 0x01 0x70 0x01 ];
    [ Dec 0x03 0x01 0x6c 0x00; Dec 0x06 0x01 0x6c 0x00; Dec 0x0a 0x01 0x6c 0x00; Dec 0x0f 0x01 0x6c 0x00;
      Dec 0x18 0x01 0x6c 0x00; Dec 0x1f 0x01 0x6c 0x00; Dec 0x29 0x01 0x6c 0x00; Dec 0x38 0x01 0x6c 0x01;
      Dec 0x03 0x01 0x6d 0x00; Dec 0x06 0x01 0x6d 0x00; Dec 0x0a 0x01 0x6d 0x00; Dec 0x0f 0x01 0x6d 0x00;
      Dec 0x18 0x01 0x6d 0x00; Dec 0x1f 0x01 0x6d 0x00; Dec 0x29 0x01 0x6d 0x00; Dec 0x38 0x01 0x6d 0x01 ];
    [ Dec 0x03 0x01 0x6e 0x00; Dec 0x06 0x01 0x6e 0x00; Dec 0x0a 0x01 0x6e 0x00; Dec 0x0f 0x01 0x6e 0x00;
      Dec 0x18 0x01 0x6e 0x00; Dec 0x1f 0x01 0x6e 0x00; Dec 0x29 0x01 0x6e 0x00; Dec 0x38 0x01 0x6e 0x01;
      Dec 0x03 0x01 0x70 0x00; Dec 0x06 0x01 0x70 0x00; Dec 0x0a 0x01 0x70 0x00; Dec 0x0f 0x01 0x70 0x00;
      Dec 0x18 0x01 0x70 0x00; Dec 0x1f 0x01 0x70 0x00; Dec 0x29 0x01 0x70 0x00; Dec 0x38 0x01 0x70 0x01 ];
    [ Dec 0x02 0x01 0x72 0x00; Dec 0x09 0x01 0x72 0x00; Dec 0x17 0x01 0x72 0x00; Dec 0x28 0x01 0x72 0x01;
      Dec 0x02 0x01 0x75 0x00; Dec 0x09 0x01 0x75 0x00; Dec 0x17 0x01 0x75 0x00; Dec 0x28 0x01 0x75 0x01;
      Dec 0x01 0x01 0x3a 0x00; Dec 0x16 0x01 0x3a 0x01; Dec 0x01 0x01 0x42 0x00; Dec 0x16 0x01 0x42 0x01;
      Dec 0x01 0x01 0x43 0x00; Dec 0x16 0x01 0x43 0x01; Dec 0x01 0x01 0x44 0x00; Dec 0x16 0x01 0x44 0x01 ];
    [ Dec 0x03 0x01 0x72 0x00; Dec 0x06 0x01 0x72 0x00; Dec 0x0a 0x01 0x72 0x00; Dec 0x0f 0x01 0x72 0x00;
      Dec 0x18 0x01 0x72 0x00; Dec 0x1f 0x01 0x72 0x00; Dec 0x29 0x01 0x72 0x00; Dec 0x38 0x01 0x72 0x01;
      Dec 0x03 0x01 0x75 0x00; Dec 0x06 0x01 0x75 0x00; Dec 0x0a 0x01 0x75 0x00; Dec 0x0f 0x01 0x75 0x00;
      Dec 0x18 0x01 0x75 0x00; Dec 0x1f 0x01 0x75 0x00; Dec 0x29 0x01 0x75 0x00; Dec 0x38 0x01 0x75 0x01 ];
    [ Dec 0x02 0x01 0x3a 0x00; Dec 0x09 0x01 0x3a 0x00; Dec 0x17 0x01 0x3a 0x00; Dec 0x28 0x01 0x3a 0x01;
      Dec 0x02 0x01 0x42 0x00; Dec 0x09 0x01 0x42 0x00; Dec 0x17 0x01 0x42 0x00; Dec 0x28 0x01 0x42 0x01;
      Dec 0x02 0x01 0x43 0x00; Dec 0x09 0x01 0x43 0x00; Dec 0x17 0x01 0x43 0x00; Dec 0x28 0x01 0x43 0x01;
      Dec 0x02 0x01 0x44 0x00; Dec 0x09 0x01 0x44 0x00; Dec 0x17 0x01 0x44 0x00; Dec 0x28 0x01 0x44 0x01 ];
    [ Dec 0x03 0x01 0x3a 0x00; Dec 0x06 0x01 0x3a 0x00; Dec 0x0a 0x01 0x3a 0x00; Dec 0x0f 0x01 0x3a 0x00;
      Dec 0x18 0x01 0x3a 0x00; Dec 0x1f 0x01 0x3a 0x00; Dec 0x29 0x01 0x3a 0x00; Dec 0x38 0x01 0x3a 0x01;
      Dec 0x03 0x01 0x42 0x00; Dec 0x06 0x01 0x42 0x00; Dec 0x0a 0x01 0x42 0x00; Dec 0x0f 0x01 0x42 0x00;
      Dec 0x18 0x01 0x42 0x00; Dec 0x1f 0x01 0x42 0x00; Dec 0x29 0x01 0x42 0x00; Dec 0x38 0x01 0x42 0x01 ];
    [ Dec 0x03 0x01 0x43 0x00; Dec 0x06 0x01 0x43 0x00; Dec 0x0a 0x01 0x43 0x00; Dec 0x0f 0x01 0x43 0x00;
      Dec 0x18 0x01 0x43 0x00; Dec 0x1f 0x01 0x43 0x00; Dec 0x29 0x01 0x43 0x00; Dec 0x38 0x01 0x43 0x01;
      Dec 0x03 0x01 0x44 0x00; Dec 0x06 0x01 0x44 0x00; Dec 0x0a 0x01 0x44 0x00; Dec 0x0f 0x01 0x44 0x00;
      Dec 0x18 0x01 0x44 0x00; Dec 0x1f 0x01 0x44 0x00; Dec 0x29 0x01 0x44 0x00; Dec 0x38 0x01 0x44 0x01 ];
    [ Dec 0x2c 0x00 0x00 0x00; Dec 0x2d 0x00 0x00 0x00; Dec 0x2f 0x00 0x00 0x00; Dec 0x30 0x00 0x00 0x00;
      Dec 0x33 0x00 0x00 0x00; Dec 0x34 0x00 0x00 0x00; Dec 0x36 0x00 0x00 0x00; Dec 0x37 0x00 0x00 0x00;
      Dec 0x3b 0x00 0x00 0x00; Dec 0x3c 0x00 0x00 0x00; Dec 0x3e 0x00 0x00 0x00; Dec 0x3f 0x00 0x00 0x00;
      Dec 0x42 0x00 0x00 0x00; Dec 0x43 0x00 0x00 0x00; Dec 0x45 0x00 0x00 0x00; Dec 0x48 0x00 0x00 0x01 ];
    [ Dec 0x00 0x01 0x45 0x01; Dec 0x00 0x01 0x46 0x01; Dec 0x00 0x01 0x47 0x01; Dec 0x00 0x01 0x48 0x01;
      Dec 0x00 0x01 0x49 0x01; Dec 0x00 0x01 0x4a 0x01; Dec 0x00 0x01 0x4b 0x01; Dec 0x00 0x01 0x4c 0x01;
      Dec 0x00 0x01 0x4d 0x01; Dec 0x00 0x01 0x4e 0x01; Dec 0x00 0x01 0x4f 0x01; Dec 0x00 0x01 0x50 0x01;
      Dec 0x00 0x01 0x51 0x01; Dec 0x00 0x01 0x52 0x01; Dec 0x00 0x01 0x53 0x01; Dec 0x00 0x01 0x54 0x01 ] ].

(** States 42 to 55. *)
Definition huff_decode_codes_42 : list (list ngx_http_huff_decode_code_t) :=
  [ [ Dec 0x01 0x01 0x45 0x00; Dec 0x16 0x01 0x45 0x01; Dec 0x01 0x01 0x46 0x00; Dec 0x16 0x01 0x46 0x01;
      Dec 0x01 0x01 0x47 0x00; Dec 0x16 0x01 0x47 0x01; Dec 0x01 0x01 0x48 0x00; Dec 0x16 0x01 0x48 0x01;
      Dec 0x01 0x01 0x49 0x00; Dec 0x16 0x01 0x49 0x01; Dec 0x01 0x01 0x4a 0x00; Dec 0x16 0x01 0x4a 0x01;
      Dec 0x01 0x01 0x4b 0x00; Dec 0x16 0x01 0x4b 0x01; Dec 0x01 0x01 0x4c 0x00; Dec 0x16 0x01 0x4c 0x01 ];
    [ Dec 0x02 0x01 0x45 0x00; Dec 0x09 0x01 0x45 0x00; Dec 0x17 0x01 0x45 0x00; Dec 0x28 0x01 0x45 0x01;
      Dec 0x02 0x01 0x46 0x00; Dec 0x09 0x01 0x46 0x00; Dec 0x17 0x01 0x46 0x00; Dec 0x28 0x01 0x46 0x01;
      Dec 0x02 0x01 0x47 0x00; Dec 0x09 0x01 0x47 0x00; Dec 0x17 0x01 0x47 0x00; Dec 0x28 0x01 0x47 0x01;
      Dec 0x02 0x01 0x48 0x00; Dec 0x09 0x01 0x48 0x00; Dec 0x17 0x01 0x48 0x00; Dec 0x28 0x01 0x48 0x01 ];
    [ Dec 0x03 0x01 0x45 0x00; Dec 0x06 0x01 0x45 0x00; Dec 0x0a 0x01 0x45 0x00; Dec 0x0f 0x01 0x45 0x00;
      Dec 0x18 0x01 0x45 0x00; Dec 0x1f 0x01 0x45 0x00; Dec 0x29 0x01 0x45 0x00; Dec 0x38 0x01 0x45 0x01;
      Dec 0x03 0x01 0x46 0x00; Dec 0x06 0x01 0x46 0x00; Dec 0x0a 0x01 0x46 0x00; Dec 0x0f 0x01 0x46 0x00;
      Dec 0x18 0x01 0x46 0x00; Dec 0x1f 0x01 0x46 0x00; Dec 0x29 0x01 0x46 0x00; Dec 0x38 0x01 0x46 0x01 ];
    [ Dec 0x03 0x01 0x47 0x00; Dec 0x06 0x01 0x47 0x00; Dec 0x0a 0x01 0x47 0x00; Dec 0x0f 0x01 0x47 0x00;
      Dec 0x18 0x01 0x47 0x00; Dec 0x1f 0x01 0x47 0x00; Dec 0x29 0x01 0x47 0x00; Dec 0x38 0x01 0x47 0x01;
      Dec 0x03 0x01 0x48 0x00; Dec 0x06 0x01 0x48 0x00; Dec 0x0a 0x01 0x48 0x00; Dec 0x0f 0x01 0x48 0x00;
      Dec 0x18 0x01 0x48 0x00; Dec 0x1f 0x01 0x48 0x00; Dec 0x29 0x01 0x48 0x00; Dec 0x38 0x01 0x48 0x01 ];
    [ Dec 0x02 0x01 0x49 0x00; Dec 0x09 0x01 0x49 0x00; Dec 0x17 0x01 0x49 0x00; Dec 0x28 0x01 0x49 0x01;
      Dec 0x02 0x01 0x4a 0x00; Dec 0x09 0x01 0x4a 0x00; Dec 0x17 0x01 0x4a 0x00; Dec 0x28 0x01 0x4a 0x01;
      Dec 0x02 0x01 0x4b 0x00; Dec 0x09 0x01 0x4b 0x00; Dec 0x17 0x01 0x4b 0x00; Dec 0x28 0x01 0x4b 0x01;
      Dec 0x02 0x01 0x4c 0x00; Dec 0x09 0x01 0x4c 0x00; Dec 0x17 0x01 0x4c 0x00; Dec 0x28 0x01 0x4c 0x01 ];
    [ Dec 0x03 0x01 0x49 0x00; Dec 0x06 0x01 0x49 0x00; Dec 0x0a 0x01 0x49 0x00; Dec 0x0f 0x01 0x49 0x00;
      Dec 0x18 0x01 0x49 0x00; Dec 0x1f 0x01 0x49 0x00; Dec 0x29 0x01 0x49 0x00; Dec 0x38 0x01 0x49 0x01;
      Dec 0x03 0x01 0x4a 0x00; Dec 0x06 0x01 0x4a 0x00; Dec 0x0a 0x01 0x4a 0x00; Dec 0x0f 0x01 0x4a 0x00;
      Dec 0x18 0x01 0x4a 0x00; Dec 0x1f 0x01 0x4a 0x00; Dec 0x29 0x01 0x4a 0x00; Dec 0x38 0x01 0x4a 0x01 ];
    [ Dec 0x03 0x01 0x4b 0x00; Dec 0x06 0x01 0x4b 0x00; Dec 0x0a 0x01 0x4b 0x00; Dec 0x0f 0x01 0x4b 0x00;
      Dec 0x18 0x01 0x4b 0x00; Dec 0x1f 0x01 0x4b 0x00; Dec 0x29 0x01 0x4b 0x00; Dec 0x38 0x01 0x4b 0x01;
      Dec 0x03 0x01 0x4c 0x00; Dec 0x06 0x01 0x4c 0x00; Dec 0x0a 0x01 0x4c 0x00; Dec 0x0f 0x01 0x4c 0x00;
      Dec 0x18 0x01 0x4c 0x00; Dec 0x1f 0x01 0x4c 0x00; Dec 0x29 0x01 0x4c 0x00; Dec 0x38 0x01 0x4c 0x01 ];
    [ Dec 0x01 0x01 0x4d 0x00; Dec 0x16 0x01 0x4d 0x01; Dec 0x01 0x01 0x4e 0x00; Dec 0x16 0x01 0x4e 0x01;
      Dec 0x01 0x01 0x4f 0x00; Dec 0x16 0x01 0x4f 0x01; Dec 0x01 0x01 0x50 0x00; Dec 0x16 0x01 0x50 0x01;
      Dec 0x01 0x01 0x51 0x00; Dec 0x16 0x01 0x51 0x01; Dec 0x01 0x01 0x52 0x00; Dec 0x16 0x01 0x52 0x01;
      Dec 0x01 0x01 0x53 0x00; Dec 0x16 0x01 0x53 0x01; Dec 0x01 0x01 0x54 0x00; Dec 0x16 0x01 0x54 0x01 ];
    [ Dec 0x02 0x01 0x4d 0x00; Dec 0x09 0x01 0x4d 0x00; Dec 0x17 0x01 0x4d 0x00; Dec 0x28 0x01 0x4d 0x01;
      Dec 0x02 0x01 0x4e 0x00; Dec 0x09 0x01 0x4e 0x00; Dec 0x17 0x01 0x4e 0x00; Dec 0x28 0x01 0x4e 0x01;
      Dec 0x02 0x01 0x4f 0x00; Dec 0x09 0x01 0x4f 0x00; Dec 0x17 0x01 0x4f 0x00; Dec 0x28 0x01 0x4f 0x01;
      Dec 0x02 0x01 0x50 0x00; Dec 0x09 0x01 0x50 0x00; Dec 0x17 0x01 0x50 0x00; Dec 0x28 0x01 0x50 0x01 ];
    [ Dec 0x03 0x01 0x4d 0x00; Dec 0x06 0x01 0x4d 0x00; Dec 0x0a 0x01 0x4d 0x00; Dec 0x0f 0x01 0x4d 0x00;
      Dec 0x18 0x01 0x4d 0x00; Dec 0x1f 0x01 0x4d 0x00; Dec 0x29 0x01 0x4d 0x00; Dec 0x38 0x01 0x4d 0x01;
      Dec 0x03 0x01 0x4e 0x00; Dec 0x06 0x01 0x4e 0x00; Dec 0x0a 0x01 0x4e 0x00; Dec 0x0f 0x01 0x4e 0x00;
      Dec 0x18 0x01 0x4e 0x00; Dec 0x1f 0x01 0x4e 0x00; Dec 0x29 0x01 0x4e 0x00; Dec 0x38 0x01 0x4e 0x01 ];
    [ Dec 0x03 0x01 0x4f 0x00; Dec 0x06 0x01 0x4f 0x00; Dec 0x0a 0x01 0x4f 0x00; Dec 0x0f 0x01 0x4f 0x00;
      Dec 0x18 0x01 0x4f 0x00; Dec 0x1f 0x01 0x4f 0x00; Dec 0x29 0x01 0x4f 0x00; Dec 0x38 0x01 0x4f 0x01;
      Dec 0x03 0x01 0x50 0x00; Dec 0x06 0x01 0x50 0x00; Dec 0x0a 0x01 0x50 0x00; Dec 0x0f 0x01 0x50 0x00;
      Dec 0x18 0x01 0x50 0x00; Dec 0x1f 0x01 0x50 0x00; Dec 0x29 0x01 0x50 0x00; Dec 0x38 0x01 0x50 0x01 ];
    [ Dec 0x02 0x01 0x51 0x00; Dec 0x09 0x01 0x51 0x00; Dec 0x17 0x01 0x51 0x00; Dec 0x28 0x01 0x51 0x01;
      Dec 0x02 0x01 0x52 0x00; Dec 0x09 0x01 0x52 0x00; Dec 0x17 0x01 0x52 0x00; Dec 0x28 0x01 0x52 0x01;
      Dec 0x02 0x01 0x53 0x00; Dec 0x09 0x01 0x53 0x00; Dec 0x17 0x01 0x53 0x00; Dec 0x28 0x01 0x53 0x01;
      Dec 0x02 0x01 0x54 0x00; Dec 0x09 0x01 0x54 0x00; Dec 0x17 0x01 0x54 0x00; Dec 0x28 0x01 0x54 0x01 ];
    [ Dec 0x03 0x01 0x51 0x00; Dec 0x06 0x01 0x51 0x00; Dec 0x0a 0x01 0x51 0x00; Dec 0x0f 0x01 0x51 0x00;
      Dec 0x18 0x01 0x51 0x00; Dec 0x1f 0x01 0x51 0x00; Dec 0x29 0x01 0x51 0x00; Dec 0x38 0x01 0x51 0x01;
      Dec 0x03 0x01 0x52 0x00; Dec 0x06 0x01 0x52 0x00; Dec 0x0a 0x01 0x52 0x00; Dec 0x0f 0x01 0x52 0x00;
      Dec 0x18 0x01 0x52 0x00; Dec 0x1f 0x01 0x52 0x00; Dec 0x29 0x01 0x52 0x00; Dec 0x38 0x01 0x52 0x01 ];
    [ Dec 0x03 0x01 0x53 0x00; Dec 0x06 0x01 0x53 0x00; Dec 0x0a 0x01 0x53 0x00; Dec 0x0f 0x01 0x53 0x00;
      Dec 0x18 0x01 0x53 0x00; Dec 0x1f 0x01 0x53 0x00; Dec 0x29 0x01 0x53 0x00; Dec 0x38 0x01 0x53 0x01;
      Dec 0x03 0x01 0x54 0x00; Dec 0x06 0x01 0x54 0x00; Dec 0x0a 0x01 0x54 0x00; Dec 0x0f 0x01 0x54 0x00;
      Dec 0x18 0x01 0x54 0x00; Dec 0x1f 0x01 0x54 0x00; Dec 0x29 0x01 0x54 0x00; Dec 0x38 0x01 0x54 0x01 ] ].

(** States 56 to 69. *)
Definition huff_decode_codes_56 : list (list ngx_http_huff_decode_code_t) :=
  [ [ Dec 0x00 0x01 0x55 0x01; Dec 0x00 0x01 0x56 0x01; Dec 0x00 0x01 0x57 0x01; Dec 0x00 0x01 0x59 0x01;
      Dec 0x00 0x01 0x6a 0x01; Dec 0x00 0x01 0x6b 0x01; Dec 0x00 0x01 0x71 0x01; Dec 0x00 0x01 0x76 0x01;
      Dec 0x00 0x01 0x77 0x01; Dec 0x00 0x01 0x78 0x01; Dec 0x00 0x01 0x79 0x01; Dec 0x00 0x01 0x7a 0x01;
      Dec 0x46 0x00 0x00 0x00; Dec 0x47 0x00 0x00 0x00; Dec 0x49 0x00 0x00 0x00; Dec 0x4a 0x00 0x00 0x01 ];
    [ Dec 0x01 0x01 0x55 0x00; Dec 0x16 0x01 0x55 0x01; Dec 0x01 0x01 0x56 0x00; Dec 0x16 0x01 0x56 0x01;
      Dec 0x01 0x01 0x57 0x00; Dec 0x16 0x01 0x57 0x01; Dec 0x01 0x01 0x59 0x00; Dec 0x16 0x01 0x59 0x01;
      Dec 0x01 0x01 0x6a 0x00; Dec 0x16 0x01 0x6a 0x01; Dec 0x01 0x01 0x6b 0x00; Dec 0x16 0x01 0x6b 0x01;
      Dec 0x01 0x01 0x71 0x00; Dec 0x16 0x01 0x71 0x01; Dec 0x01 0x01 0x76 0x00; Dec 0x16 0x01 0x76 0x01 ];
    [ Dec 0x02 0x01 0x55 0x00; Dec 0x09 0x01 0x55 0x00; Dec 0x17 0x01 0x55 0x00; Dec 0x28 0x01 0x55 0x01;
      Dec 0x02 0x01 0x56 0x00; Dec 0x09 0x01 0x56 0x00; Dec 0x17 0x01 0x56 0x00; Dec 0x28 0x01 0x56 0x01;
      Dec 0x02 0x01 0x57 0x00; Dec 0x09 0x01 0x57 0x00; Dec 0x17 0x01 0x57 0x00; Dec 0x28 0x01 0x57 0x01;
      Dec 0x02 0x01 0x59 0x00; Dec 0x09 0x01 0x59 0x00; Dec 0x17 0x01 0x59 0x00; Dec 0x28 0x01 0x59 0x01 ];
    [ Dec 0x03 0x01 0x55 0x00; Dec 0x06 0x01 0x55 0x00; Dec 0x0a 0x01 0x55 0x00; Dec 0x0f 0x01 0x55 0x00;
      Dec 0x18 0x01 0x55 0x00; Dec 0x1f 0x01 0x55 0x00; Dec 0x29 0x01 0x55 0x00; Dec 0x38 0x01 0x55 0x01;
      Dec 0x03 0x01 0x56 0x00; Dec 0x06 0x01 0x56 0x00; Dec 0x0a 0x01 0x56 0x00; Dec 0x0f 0x01 0x56 0x00;
      Dec 0x18 0x01 0x56 0x00; Dec 0x1f 0x01 0x56 0x00; Dec 0x29 0x01 0x56 0x00; Dec 0x38 0x01 0x56 0x01 ];
    [ Dec 0x03 0x01 0x57 0x00; Dec 0x06 0x01 0x57 0x00; Dec 0x0a 0x01 0x57 0x00; Dec 0x0f 0x01 0x57 0x00;
      Dec 0x18 0x01 0x57 0x00; Dec 0x1f 0x01 0x57 0x00; Dec 0x29 0x01 0x57 0x00; Dec 0x38 0x01 0x57 0x01;
      Dec 0x03 0x01 0x59 0x00; Dec 0x06 0x01 0x59 0x00; Dec 0x0a 0x01 0x59 0x00; Dec 0x0f 0x01 0x59 0x00;
      Dec 0x18 0x01 0x59 0x00; Dec 0x1f 0x01 0x59 0x00; Dec 0x29 0x01 0x59 0x00; Dec 0x38 0x01 0x59 0x01 ];
    [ Dec 0x02 0x01 0x6a 0x00; Dec 0x09 0x01 0x6a 0x00; Dec 0x17 0x01 0x6a 0x00; Dec 0x28 0x01 0x6a 0x01;
      Dec 0x02 0x01 0x6b 0x00; Dec 0x09 0x01 0x6b 0x00; Dec 0x17 0x01 0x6b 0x00; Dec 0x28 0x01 0x6b 0x01;
      Dec 0x02 0x01 0x71 0x00; Dec 0x09 0x01 0x71 0x00; Dec 0x17 0x01 0x71 0x00; Dec 0x28 0x01 0x71 0x01;
      Dec 0x02 0x01 0x76 0x00; Dec 0x09 0x01 0x76 0x00; Dec 0x17 0x01 0x76 0x00; Dec 0x28 0x01 0x76 0x01 ];
    [ Dec 0x03 0x01 0x6a 0x00; Dec 0x06 0x01 0x6a 0x00; Dec 0x0a 0x01 0x6a 0x00; Dec 0x0f 0x01 0x6a 0x00;
      Dec 0x18 0x01 0x6a 0x00; Dec 0x1f 0x01 0x6a 0x00; Dec 0x29 0x01 0x6a 0x00; Dec 0x38 0x01 0x6a 0x01;
      Dec 0x03 0x01 0x6b 0x00; Dec 0x06 0x01 0x6b 0x00; Dec 0x0a 0x01 0x6b 0x00; Dec 0x0f 0x01 0x6b 0x00;
      Dec 0x18 0x01 0x6b 0x00; Dec 0x1f 0x01 0x6b 0x00; Dec 0x29 0x01 0x6b 0x00; Dec 0x38 0x01 0x6b 0x01 ];
    [ Dec 0x03 0x01 0x71 0x00; Dec 0x06 0x01 0x71 0x00; Dec 0x0a 0x01 0x71 0x00; Dec 0x0f 0x01 0x71 0x00;
      Dec 0x18 0x01 0x71 0x00; Dec 0x1f 0x01 0x71 0x00; Dec 0x29 0x01 0x71 0x00; Dec 0x38 0x01 0x71 0x01;
      Dec 0x03 0x01 0x76 0x00; Dec 0x06 0x01 0x76 0x00; Dec 0x0a 0x01 0x76 0x00; Dec 0x0f 0x01 0x76 0x00;
      Dec 0x18 0x01 0x76 0x00; Dec 0x1f 0x01 0x76 0x00; Dec 0x29 0x01 0x76 0x00; Dec 0x38 0x01 0x76 0x01 ];
    [ Dec 0x01 0x01 0x77 0x00; Dec 0x16 0x01 0x77 0x01; Dec 0x01 0x01 0x78 0x00; Dec 0x16 0x01 0x78 0x01;
      Dec 0x01 0x01 0x79 0x00; Dec 0x16 0x01 0x79 0x01; Dec 0x01 0x01 0x7a 0x00; Dec 0x16 0x01 0x7a 0x01;
      Dec 0x00 0x01 0x26 0x01; Dec 0x00 0x01 0x2a 0x01; Dec 0x00 0x01 0x2c 0x01; Dec 0x00 0x01 0x3b 0x01;
      Dec 0x00 0x01 0x58 0x01; Dec 0x00 0x01 0x5a 0x01; Dec 0x4b 0x00 0x00 0x00; Dec 0x4e 0x00 0x00 0x01 ];
    [ Dec 0x02 0x01 0x77 0x00; Dec 0x09 0x01 0x77 0x00; Dec 0x17 0x01 0x77 0x00; Dec 0x28 0x01 0x77 0x01;
      Dec 0x02 0x01 0x78 0x00; Dec 0x09 0x01 0x78 0x00; Dec 0x17 0x01 0x78 0x00; Dec 0x28 0x01 0x78 0x01;
      Dec 0x02 0x01 0x79 0x00; Dec 0x09 0x01 0x79 0x00; Dec 0x17 0x01 0x79 0x00; Dec 0x28 0x01 0x79 0x01;
      Dec 0x02 0x01 0x7a 0x00; Dec 0x09 0x01 0x7a 0x00; Dec 0x17 0x01 0x7a 0x00; Dec 0x28 0x01 0x7a 0x01 ];
    [ Dec 0x03 0x01 0x77 0x00; Dec 0x06 0x01 0x77 0x00; Dec 0x0a 0x01 0x77 0x00; Dec 0x0f 0x01 0x77 0x00;
      Dec 0x18 0x01 0x77 0x00; Dec 0x1f 0x01 0x77 0x00; Dec 0x29 0x01 0x77 0x00; Dec 0x38 0x01 0x77 0x01;
      Dec 0x03 0x01 0x78 0x00; Dec 0x06 0x01 0x78 0x00; Dec 0x0a 0x01 0x78 0x00; Dec 0x0f 0x01 0x78 0x00;
      Dec 0x18 0x01 0x78 0x00; Dec 0x1f 0x01 0x78 0x00; Dec 0x29 0x01 0x78 0x00; Dec 0x38 0x01 0x78 0x01 ];
    [ Dec 0x03 0x01 0x79 0x00; Dec 0x06 0x01 0x79 0x00; Dec 0x0a 0x01 0x79 0x00; Dec 0x0f 0x01 0x79 0x00;
      Dec 0x18 0x01 0x79 0x00; Dec 0x1f 0x01 0x79 0x00; Dec 0x29 0x01 0x79 0x00; Dec 0x38 0x01 0x79 0x01;
      Dec 0x03 0x01 0x7a 0x00; Dec 0x06 0x01 0x7a 0x00; Dec 0x0a 0x01 0x7a 0x00; Dec 0x0f 0x01 0x7a 0x00;
      Dec 0x18 0x01 0x7a 0x00; Dec 0x1f 0x01 0x7a 0x00; Dec 0x29 0x01 0x7a 0x00; Dec 0x38 0x01 0x7a 0x01 ];
    [ Dec 0x01 0x01 0x26 0x00; Dec 0x16 0x01 0x26 0x01; Dec 0x01 0x01 0x2a 0x00; Dec 0x16 0x01 0x2a 0x01;
      Dec 0x01 0x01 0x2c 0x00; Dec 0x16 0x01 0x2c 0x01; Dec 0x01 0x01 0x3b 0x00; Dec 0x16 0x01 0x3b 0x01;
      Dec 0x01 0x01 0x58 0x00; Dec 0x16 0x01 0x58 0x01; Dec 0x01 0x01 0x5a 0x00; Dec 0x16 0x01 0x5a 0x01;
      Dec 0x4c 0x00 0x00 0x00; Dec 0x4d 0x00 0x00 0x00; Dec 0x4f 0x00 0x00 0x00; Dec 0x51 0x00 0x00 0x01 ];
    [ Dec 0x02 0x01 0x26 0x00; Dec 0x09 0x01 0x26 0x00; Dec 0x17 0x01 0x26 0x00; Dec 0x28 0x01 0x26 0x01;
      Dec 0x02 0x01 0x2a 0x00; Dec 0x09 0x01 0x2a 0x00; Dec 0x17 0x01 0x2a 0x00; Dec 0x28 0x01 0x2a 0x01;
      Dec 0x02 0x01 0x2c 0x00; Dec 0x09 0x01 0x2c 0x00; Dec 0x17 0x01 0x2c 0x00; Dec 0x28 0x01 0x2c 0x01;
      Dec 0x02 0x01 0x3b 0x00; Dec 0x09 0x01 0x3b 0x00; Dec 0x17 0x01 0x3b 0x00; Dec 0x28 0x01 0x3b 0x01 ] ].

(** States 70 to 83. *)
Definition huff_decode_codes_70 : list (list ngx_http_huff_decode_code_t) :=
  [ [ Dec 0x03 0x01 0x26 0x00; Dec 0x06 0x01 0x26 0x00; Dec 0x0a 0x01 0x26 0x00; Dec 0x0f 0x01 0x26 0x00;
      Dec 0x18 0x01 0x26 0x00; Dec 0x1f 0x01 0x26 0x00; Dec 0x29 0x01 0x26 0x00; Dec 0x38 0x01 0x26 0x01;
      Dec 0x03 0x01 0x2a 0x00; Dec 0x06 0x01 0x2a 0x00; Dec 0x0a 0x01 0x2a 0x00; Dec 0x0f 0x01 0x2a 0x00;
      Dec 0x18 0x01 0x2a 0x00; Dec 0x1f 0x01 0x2a 0x00; Dec 0x29 0x01 0x2a 0x00; Dec 0x38 0x01 0x2a 0x01 ];
    [ Dec 0x03 0x01 0x2c 0x00; Dec 0x06 0x01 0x2c 0x00; Dec 0x0a 0x01 0x2c 0x00; Dec 0x0f 0x01 0x2c 0x00;
      Dec 0x18 0x01 0x2c 0x00; Dec 0x1f 0x01 0x2c 0x00; Dec 0x29 0x01 0x2c 0x00; Dec 0x38 0x01 0x2c 0x01;
      Dec 0x03 0x01 0x3b 0x00; Dec 0x06 0x01 0x3b 0x00; Dec 0x0a 0x01 0x3b 0x00; Dec 0x0f 0x01 0x3b 0x00;
      Dec 0x18 0x01 0x3b 0x00; Dec 0x1f 0x01 0x3b 0x00; Dec 0x29 0x01 0x3b 0x00; Dec 0x38 0x01 0x3b 0x01 ];
    [ Dec 0x02 0x01 0x58 0x00; Dec 0x09 0x01 0x58 0x00; Dec 0x17 0x01 0x58 0x00; Dec 0x28 0x01 0x58 0x01;
      Dec 0x02 0x01 0x5a 0x00; Dec 0x09 0x01 0x5a 0x00; Dec 0x17 0x01 0x5a 0x00; Dec 0x28 0x01 0x5a 0x01;
      Dec 0x00 0x01 0x21 0x01; Dec 0x00 0x01 0x22 0x01; Dec 0x00 0x01 0x28 0x01; Dec 0x00 0x01 0x29 0x01;
      Dec 0x00 0x01 0x3f 0x01; Dec 0x50 0x00 0x00 0x00; Dec 0x52 0x00 0x00 0x00; Dec 0x54 0x00 0x00 0x01 ];
    [ Dec 0x03 0x01 0x58 0x00; Dec 0x06 0x01 0x58 0x00; Dec 0x0a 0x01 0x58 0x00; Dec 0x0f 0x01 0x58 0x00;
      Dec 0x18 0x01 0x58 0x00; Dec 0x1f 0x01 0x58 0x00; Dec 0x29 0x01 0x58 0x00; Dec 0x38 0x01 0x58 0x01;
      Dec 0x03 0x01 0x5a 0x00; Dec 0x06 0x01 0x5a 0x00; Dec 0x0a 0x01 0x5a 0x00; Dec 0x0f 0x01 0x5a 0x00;
      Dec 0x18 0x01 0x5a 0x00; Dec 0x1f 0x01 0x5a 0x00; Dec 0x29 0x01 0x5a 0x00; Dec 0x38 0x01 0x5a 0x01 ];
    [ Dec 0x01 0x01 0x21 0x00; Dec 0x16 0x01 0x21 0x01; Dec 0x01 0x01 0x22 0x00; Dec 0x16 0x01 0x22 0x01;
      Dec 0x01 0x01 0x28 0x00; Dec 0x16 0x01 0x28 0x01; Dec 0x01 0x01 0x29 0x00; Dec 0x16 0x01 0x29 0x01;
      Dec 0x01 0x01 0x3f 0x00; Dec 0x16 0x01 0x3f 0x01; Dec 0x00 0x01 0x27 0x01; Dec 0x00 0x01 0x2b 0x01;
      Dec 0x00 0x01 0x7c 0x01; Dec 0x53 0x00 0x00 0x00; Dec 0x55 0x00 0x00 0x00; Dec 0x58 0x00 0x00 0x01 ];
    [ Dec 0x02 0x01 0x21 0x00; Dec 0x09 0x01 0x21 0x00; Dec 0x17 0x01 0x21 0x00; Dec 0x28 0x01 0x21 0x01;
      Dec 0x02 0x01 0x22 0x00; Dec 0x09 0x01 0x22 0x00; Dec 0x17 0x01 0x22 0x00; Dec 0x28 0x01 0x22 0x01;
      Dec 0x02 0x01 0x28 0x00; Dec 0x09 0x01 0x28 0x00; Dec 0x17 0x01 0x28 0x00; Dec 0x28 0x01 0x28 0x01;
      Dec 0x02 0x01 0x29 0x00; Dec 0x09 0x01 0x29 0x00; Dec 0x17 0x01 0x29 0x00; Dec 0x28 0x01 0x29 0x01 ];
    [ Dec 0x03 0x01 0x21 0x00; Dec 0x06 0x01 0x21 0x00; Dec 0x0a 0x01 0x21 0x00; Dec 0x0f 0x01 0x21 0x00;
      Dec 0x18 0x01 0x21 0x00; Dec 0x1f 0x01 0x21 0x00; Dec 0x29 0x01 0x21 0x00; Dec 0x38 0x01 0x21 0x01;
      Dec 0x03 0x01 0x22 0x00; Dec 0x06 0x01 0x22 0x00; Dec 0x0a 0x01 0x22 0x00; Dec 0x0f 0x01 0x22 0x00;
      Dec 0x18 0x01 0x22 0x00; Dec 0x1f 0x01 0x22 0x00; Dec 0x29 0x01 0x22 0x00; Dec 0x38 0x01 0x22 0x01 ];
    [ Dec 0x03 0x01 0x28 0x00; Dec 0x06 0x01 0x28 0x00; Dec 0x0a 0x01 0x28 0x00; Dec 0x0f 0x01 0x28 0x00;
      Dec 0x18 0x01 0x28 0x00; Dec 0x1f 0x01 0x28 0x00; Dec 0x29 0x01 0x28 0x00; Dec 0x38 0x01 0x28 0x01;
      Dec 0x03 0x01 0x29 0x00; Dec 0x06 0x01 0x29 0x00; Dec 0x0a 0x01 0x29 0x00; Dec 0x0f 0x01 0x29 0x00;
      Dec 0x18 0x01 0x29 0x00; Dec 0x1f 0x01 0x29 0x00; Dec 0x29 0x01 0x29 0x00; Dec 0x38 0x01 0x29 0x01 ];
    [ Dec 0x02 0x01 0x3f 0x00; Dec 0x09 0x01 0x3f 0x00; Dec 0x17 0x01 0x3f 0x00; Dec 0x28 0x01 0x3f 0x01;
      Dec 0x01 0x01 0x27 0x00; Dec 0x16 0x01 0x27 0x01; Dec 0x01 0x01 0x2b 0x00; Dec 0x16 0x01 0x2b 0x01;
      Dec 0x01 0x01 0x7c 0x00; Dec 0x16 0x01 0x7c 0x01; Dec 0x00 0x01 0x23 0x01; Dec 0x00 0x01 0x3e 0x01;
      Dec 0x56 0x00 0x00 0x00; Dec 0x57 0x00 0x00 0x00; Dec 0x59 0x00 0x00 0x00; Dec 0x5a 0x00 0x00 0x01 ];
    [ Dec 0x03 0x01 0x3f 0x00; Dec 0x06 0x01 0x3f 0x00; Dec 0x0a 0x01 0x3f 0x00; Dec 0x0f 0x01 0x3f 0x00;
      Dec 0x18 0x01 0x3f 0x00; Dec 0x1f 0x01 0x3f 0x00; Dec 0x29 0x01 0x3f 0x00; Dec 0x38 0x01 0x3f 0x01;
      Dec 0x02 0x01 0x27 0x00; Dec 0x09 0x01 0x27 0x00; Dec 0x17 0x01 0x27 0x00; Dec 0x28 0x01 0x27 0x01;
      Dec 0x02 0x01 0x2b 0x00; Dec 0x09 0x01 0x2b 0x00; Dec 0x17 0x01 0x2b 0x00; Dec 0x28 0x01 0x2b 0x01 ];
    [ Dec 0x03 0x01 0x27 0x00; Dec 0x06 0x01 0x27 0x00; Dec 0x0a 0x01 0x27 0x00; Dec 0x0f 0x01 0x27 0x00;
      Dec 0x18 0x01 0x27 0x00; Dec 0x1f 0x01 0x27 0x00; Dec 0x29 0x01 0x27 0x00; Dec 0x38 0x01 0x27 0x01;
      Dec 0x03 0x01 0x2b 0x00; Dec 0x06 0x01 0x2b 0x00; Dec 0x0a 0x01 0x2b 0x00; Dec 0x0f 0x01 0x2b 0x00;
      Dec 0x18 0x01 0x2b 0x00; Dec 0x1f 0x01 0x2b 0x00; Dec 0x29 0x01 0x2b 0x00; Dec 0x38 0x01 0x2b 0x01 ];
    [ Dec 0x02 0x01 0x7c 0x00; Dec 0x09 0x01 0x7c 0x00; Dec 0x17 0x01 0x7c 0x00; Dec 0x28 0x01 0x7c 0x01;
      Dec 0x01 0x01 0x23 0x00; Dec 0x16 0x01 0x23 0x01; Dec 0x01 0x01 0x3e 0x00; Dec 0x16 0x01 0x3e 0x01;
      Dec 0x00 0x01 0x00 0x01; Dec 0x00 0x01 0x24 0x01; Dec 0x00 0x01 0x40 0x01; Dec 0x00 0x01 0x5b 0x01;
      Dec 0x00 0x01 0x5d 0x01; Dec 0x00 0x01 0x7e 0x01; Dec 0x5b 0x00 0x00 0x00; Dec 0x5c 0x00 0x00 0x01 ];
    [ Dec 0x03 0x01 0x7c 0x00; Dec 0x06 0x01 0x7c 0x00; Dec 0x0a 0x01 0x7c 0x00; Dec 0x0f 0x01 0x7c 0x00;
      Dec 0x18 0x01 0x7c 0x00; Dec 0x1f 0x01 0x7c 0x00; Dec 0x29 0x01 0x7c 0x00; Dec 0x38 0x01 0x7c 0x01;
      Dec 0x02 0x01 0x23 0x00; Dec 0x09 0x01 0x23 0x00; Dec 0x17 0x01 0x23 0x00; Dec 0x28 0x01 0x23 0x01;
      Dec 0x02 0x01 0x3e 0x00; Dec 0x09 0x01 0x3e 0x00; Dec 0x17 0x01 0x3e 0x00; Dec 0x28 0x01 0x3e 0x01 ];
    [ Dec 0x03 0x01 0x23 0x00; Dec 0x06 0x01 0x23 0x00; Dec 0x0a 0x01 0x23 0x00; Dec 0x0f 0x01 0x23 0x00;
      Dec 0x18 0x01 0x23 0x00; Dec 0x1f 0x01 0x23 0x00; Dec 0x29 0x01 0x23 0x00; Dec 0x38 0x01 0x23 0x01;
      Dec 0x03 0x01 0x3e 0x00; Dec 0x06 0x01 0x3e 0x00; Dec 0x0a 0x01 0x3e 0x00; Dec 0x0f 0x01 0x3e 0x00;
      Dec 0x18 0x01 0x3e 0x00; Dec 0x1f 0x01 0x3e 0x00; Dec 0x29 0x01 0x3e 0x00; Dec 0x38 0x01 0x3e 0x01 ] ].

(** States 84 to 97. *)
Definition huff_decode_codes_84 : list (list ngx_http_huff_decode_code_t) :=
  [ [ Dec 0x01 0x01 0x00 0x00; Dec 0x16 0x01 0x00 0x01; Dec 0x01 0x01 0x24 0x00; Dec 0x16 0x01 0x24 0x01;
      Dec 0x01 0x01 0x40 0x00; Dec 0x16 0x01 0x40 0x01; Dec 0x01 0x01 0x5b 0x00; Dec 0x16 0x01 0x5b 0x01;
      Dec 0x01 0x01 0x5d 0x00; Dec 0x16 0x01 0x5d 0x01; Dec 0x01 0x01 0x7e 0x00; Dec 0x16 0x01 0x7e 0x01;
      Dec 0x00 0x01 0x5e 0x01; Dec 0x00 0x01 0x7d 0x01; Dec 0x5d 0x00 0x00 0x00; Dec 0x5e 0x00 0x00 0x01 ];
    [ Dec 0x02 0x01 0x00 0x00; Dec 0x09 0x01 0x00 0x00; Dec 0x17 0x01 0x00 0x00; Dec 0x28 0x01 0x00 0x01;
      Dec 0x02 0x01 0x24 0x00; Dec 0x09 0x01 0x24 0x00; Dec 0x17 0x01 0x24 0x00; Dec 0x28 0x01 0x24 0x01;
      Dec 0x02 0x01 0x40 0x00; Dec 0x09 0x01 0x40 0x00; Dec 0x17 0x01 0x40 0x00; Dec 0x28 0x01 0x40 0x01;
      Dec 0x02 0x01 0x5b 0x00; Dec 0x09 0x01 0x5b 0x00; Dec 0x17 0x01 0x5b 0x00; Dec 0x28 0x01 0x5b 0x01 ];
    [ Dec 0x03 0x01 0x00 0x00; Dec 0x06 0x01 0x00 0x00; Dec 0x0a 0x01 0x00 0x00; Dec 0x0f 0x01 0x00 0x00;
      Dec 0x18 0x01 0x00 0x00; Dec 0x1f 0x01 0x00 0x00; Dec 0x29 0x01 0x00 0x00; Dec 0x38 0x01 0x00 0x01;
      Dec 0x03 0x01 0x24 0x00; Dec 0x06 0x01 0x24 0x00; Dec 0x0a 0x01 0x24 0x00; Dec 0x0f 0x01 0x24 0x00;
      Dec 0x18 0x01 0x24 0x00; Dec 0x1f 0x01 0x24 0x00; Dec 0x29 0x01 0x24 0x00; Dec 0x38 0x01 0x24 0x01 ];
    [ Dec 0x03 0x01 0x40 0x00; Dec 0x06 0x01 0x40 0x00; Dec 0x0a 0x01 0x40 0x00; Dec 0x0f 0x01 0x40 0x00;
      Dec 0x18 0x01 0x40 0x00; Dec 0x1f 0x01 0x40 0x00; Dec 0x29 0x01 0x40 0x00; Dec 0x38 0x01 0x40 0x01;
      Dec 0x03 0x01 0x5b 0x00; Dec 0x06 0x01 0x5b 0x00; Dec 0x0a 0x01 0x5b 0x00; Dec 0x0f 0x01 0x5b 0x00;
      Dec 0x18 0x01 0x5b 0x00; Dec 0x1f 0x01 0x5b 0x00; Dec 0x29 0x01 0x5b 0x00; Dec 0x38 0x01 0x5b 0x01 ];
    [ Dec 0x02 0x01 0x5d 0x00; Dec 0x09 0x01 0x5d 0x00; Dec 0x17 0x01 0x5d 0x00; Dec 0x28 0x01 0x5d 0x01;
      Dec 0x02 0x01 0x7e 0x00; Dec 0x09 0x01 0x7e 0x00; Dec 0x17 0x01 0x7e 0x00; Dec 0x28 0x01 0x7e 0x01;
      Dec 0x01 0x01 0x5e 0x00; Dec 0x16 0x01 0x5e 0x01; Dec 0x01 0x01 0x7d 0x00; Dec 0x16 0x01 0x7d 0x01;
      Dec 0x00 0x01 0x3c 0x01; Dec 0x00 0x01 0x60 0x01; Dec 0x00 0x01 0x7b 0x01; Dec 0x5f 0x00 0x00 0x01 ];
    [ Dec 0x03 0x01 0x5d 0x00; Dec 0x06 0x01 0x5d 0x00; Dec 0x0a 0x01 0x5d 0x00; Dec 0x0f 0x01 0x5d 0x00;
      Dec 0x18 0x01 0x5d 0x00; Dec 0x1f 0x01 0x5d 0x00; Dec 0x29 0x01 0x5d 0x00; Dec 0x38 0x01 0x5d 0x01;
      Dec 0x03 0x01 0x7e 0x00; Dec 0x06 0x01 0x7e 0x00; Dec 0x0a 0x01 0x7e 0x00; Dec 0x0f 0x01 0x7e 0x00;
      Dec 0x18 0x01 0x7e 0x00; Dec 0x1f 0x01 0x7e 0x00; Dec 0x29 0x01 0x7e 0x00; Dec 0x38 0x01 0x7e 0x01 ];
    [ Dec 0x02 0x01 0x5e 0x00; Dec 0x09 0x01 0x5e 0x00; Dec 0x17 0x01 0x5e 0x00; Dec 0x28 0x01 0x5e 0x01;
      Dec 0x02 0x01 0x7d 0x00; Dec 0x09 0x01 0x7d 0x00; Dec 0x17 0x01 0x7d 0x00; Dec 0x28 0x01 0x7d 0x01;
      Dec 0x01 0x01 0x3c 0x00; Dec 0x16 0x01 0x3c 0x01; Dec 0x01 0x01 0x60 0x00; Dec 0x16 0x01 0x60 0x01;
      Dec 0x01 0x01 0x7b 0x00; Dec 0x16 0x01 0x7b 0x01; Dec 0x60 0x00 0x00 0x00; Dec 0x6e 0x00 0x00 0x01 ];
    [ Dec 0x03 0x01 0x5e 0x00; Dec 0x06 0x01 0x5e 0x00; Dec 0x0a 0x01 0x5e 0x00; Dec 0x0f 0x01 0x5e 0x00;
      Dec 0x18 0x01 0x5e 0x00; Dec 0x1f 0x01 0x5e 0x00; Dec 0x29 0x01 0x5e 0x00; Dec 0x38 0x01 0x5e 0x01;
      Dec 0x03 0x01 0x7d 0x00; Dec 0x06 0x01 0x7d 0x00; Dec 0x0a 0x01 0x7d 0x00; Dec 0x0f 0x01 0x7d 0x00;
      Dec 0x18 0x01 0x7d 0x00; Dec 0x1f 0x01 0x7d 0x00; Dec 0x29 0x01 0x7d 0x00; Dec 0x38 0x01 0x7d 0x01 ];
    [ Dec 0x02 0x01 0x3c 0x00; Dec 0x09 0x01 0x3c 0x00; Dec 0x17 0x01 0x3c 0x00; Dec 0x28 0x01 0x3c 0x01;
      Dec 0x02 0x01 0x60 0x00; Dec 0x09 0x01 0x60 0x00; Dec 0x17 0x01 0x60 0x00; Dec 0x28 0x01 0x60 0x01;
      Dec 0x02 0x01 0x7b 0x00; Dec 0x09 0x01 0x7b 0x00; Dec 0x17 0x01 0x7b 0x00; Dec 0x28 0x01 0x7b 0x01;
      Dec 0x61 0x00 0x00 0x00; Dec 0x65 0x00 0x00 0x00; Dec 0x6f 0x00 0x00 0x00; Dec 0x85 0x00 0x00 0x01 ];
    [ Dec 0x03 0x01 0x3c 0x00; Dec 0x06 0x01 0x3c 0x00; Dec 0x0a 0x01 0x3c 0x00; Dec 0x0f 0x01 0x3c 0x00;
      Dec 0x18 0x01 0x3c 0x00; Dec 0x1f 0x01 0x3c 0x00; Dec 0x29 0x01 0x3c 0x00; Dec 0x38 0x01 0x3c 0x01;
      Dec 0x03 0x01 0x60 0x00; Dec 0x06 0x01 0x60 0x00; Dec 0x0a 0x01 0x60 0x00; Dec 0x0f 0x01 0x60 0x00;
      Dec 0x18 0x01 0x60 0x00; Dec 0x1f 0x01 0x60 0x00; Dec 0x29 0x01 0x60 0x00; Dec 0x38 0x01 0x60 0x01 ];
    [ Dec 0x03 0x01 0x7b 0x00; Dec 0x06 0x01 0x7b 0x00; Dec 0x0a 0x01 0x7b 0x00; Dec 0x0f 0x01 0x7b 0x00;
      Dec 0x18 0x01 0x7b 0x00; Dec 0x1f 0x01 0x7b 0x00; Dec 0x29 0x01 0x7b 0x00; Dec 0x38 0x01 0x7b 0x01;
      Dec 0x62 0x00 0x00 0x00; Dec 0x63 0x00 0x00 0x00; Dec 0x66 0x00 0x00 0x00; Dec 0x69 0x00 0x00 0x00;
      Dec 0x70 0x00 0x00 0x00; Dec 0x77 0x00 0x00 0x00; Dec 0x86 0x00 0x00 0x00; Dec 0x99 0x00 0x00 0x01 ];
    [ Dec 0x00 0x01 0x5c 0x01; Dec 0x00 0x01 0xc3 0x01; Dec 0x00 0x01 0xd0 0x01; Dec 0x64 0x00 0x00 0x00;
      Dec 0x67 0x00 0x00 0x00; Dec 0x68 0x00 0x00 0x00; Dec 0x6a 0x00 0x00 0x00; Dec 0x6b 0x00 0x00 0x00;
      Dec 0x71 0x00 0x00 0x00; Dec 0x74 0x00 0x00 0x00; Dec 0x78 0x00 0x00 0x00; Dec 0x7e 0x00 0x00 0x00;
      Dec 0x87 0x00 0x00 0x00; Dec 0x8e 0x00 0x00 0x00; Dec 0x9a 0x00 0x00 0x00; Dec 0xa9 0x00 0x00 0x01 ];
    [ Dec 0x01 0x01 0x5c 0x00; Dec 0x16 0x01 0x5c 0x01; Dec 0x01 0x01 0xc3 0x00; Dec 0x16 0x01 0xc3 0x01;
      Dec 0x01 0x01 0xd0 0x00; Dec 0x16 0x01 0xd0 0x01; Dec 0x00 0x01 0x80 0x01; Dec 0x00 0x01 0x82 0x01;
      Dec 0x00 0x01 0x83 0x01; Dec 0x00 0x01 0xa2 0x01; Dec 0x00 0x01 0xb8 0x01; Dec 0x00 0x01 0xc2 0x01;
      Dec 0x00 0x01 0xe0 0x01; Dec 0x00 0x01 0xe2 0x01; Dec 0x6c 0x00 0x00 0x00; Dec 0x6d 0x00 0x00 0x00 ];
    [ Dec 0x02 0x01 0x5c 0x00; Dec 0x09 0x01 0x5c 0x00; Dec 0x17 0x01 0x5c 0x00; Dec 0x28 0x01 0x5c 0x01;
      Dec 0x02 0x01 0xc3 0x00; Dec 0x09 0x01 0xc3 0x00; Dec 0x17 0x01 0xc3 0x00; Dec 0x28 0x01 0xc3 0x01;
      Dec 0x02 0x01 0xd0 0x00; Dec 0x09 0x01 0xd0 0x00; Dec 0x17 0x01 0xd0 0x00; Dec 0x28 0x01 0xd0 0x01;
      Dec 0x01 0x01 0x80 0x00; Dec 0x16 0x01 0x80 0x01; Dec 0x01 0x01 0x82 0x00; Dec 0x16 0x01 0x82 0x01 ] ].

(** States 98 to 111. *)
Definition huff_decode_codes_98 : list (list ngx_http_huff_decode_code_t) :=
  [ [ Dec 0x03 0x01 0x5c 0x00; Dec 0x06 0x01 0x5c 0x00; Dec 0x0a 0x01 0x5c 0x00; Dec 0x0f 0x01 0x5c 0x00;
      Dec 0x18 0x01 0x5c 0x00; Dec 0x1f 0x01 0x5c 0x00; Dec 0x29 0x01 0x5c 0x00; Dec 0x38 0x01 0x5c 0x01;
      Dec 0x03 0x01 0xc3 0x00; Dec 0x06 0x01 0xc3 0x00; Dec 0x0a 0x01 0xc3 0x00; Dec 0x0f 0x01 0xc3 0x00;
      Dec 0x18 0x01 0xc3 0x00; Dec 0x1f 0x01 0xc3 0x00; Dec 0x29 0x01 0xc3 0x00; Dec 0x38 0x01 0xc3 0x01 ];
    [ Dec 0x03 0x01 0xd0 0x00; Dec 0x06 0x01 0xd0 0x00; Dec 0x0a 0x01 0xd0 0x00; Dec 0x0f 0x01 0xd0 0x00;
      Dec 0x18 0x01 0xd0 0x00; Dec 0x1f 0x01 0xd0 0x00; Dec 0x29 0x01 0xd0 0x00; Dec 0x38 0x01 0xd0 0x01;
      Dec 0x02 0x01 0x80 0x00; Dec 0x09 0x01 0x80 0x00; Dec 0x17 0x01 0x80 0x00; Dec 0x28 0x01 0x80 0x01;
      Dec 0x02 0x01 0x82 0x00; Dec 0x09 0x01 0x82 0x00; Dec 0x17 0x01 0x82 0x00; Dec 0x28 0x01 0x82 0x01 ];
    [ Dec 0x03 0x01 0x80 0x00; Dec 0x06 0x01 0x80 0x00; Dec 0x0a 0x01 0x80 0x00; Dec 0x0f 0x01 0x80 0x00;
      Dec 0x18 0x01 0x80 0x00; Dec 0x1f 0x01 0x80 0x00; Dec 0x29 0x01 0x80 0x00; Dec 0x38 0x01 0x80 0x01;
      Dec 0x03 0x01 0x82 0x00; Dec 0x06 0x01 0x82 0x00; Dec 0x0a 0x01 0x82 0x00; Dec 0x0f 0x01 0x82 0x00;
      Dec 0x18 0x01 0x82 0x00; Dec 0x1f 0x01 0x82 0x00; Dec 0x29 0x01 0x82 0x00; Dec 0x38 0x01 0x82 0x01 ];
    [ Dec 0x01 0x01 0x83 0x00; Dec 0x16 0x01 0x83 0x01; Dec 0x01 0x01 0xa2 0x00; Dec 0x16 0x01 0xa2 0x01;
      Dec 0x01 0x01 0xb8 0x00; Dec 0x16 0x01 0xb8 0x01; Dec 0x01 0x01 0xc2 0x00; Dec 0x16 0x01 0xc2 0x01;
      Dec 0x01 0x01 0xe0 0x00; Dec 0x16 0x01 0xe0 0x01; Dec 0x01 0x01 0xe2 0x00; Dec 0x16 0x01 0xe2 0x01;
      Dec 0x00 0x01 0x99 0x01; Dec 0x00 0x01 0xa1 0x01; Dec 0x00 0x01 0xa7 0x01; Dec 0x00 0x01 0xac 0x01 ];
    [ Dec 0x02 0x01 0x83 0x00; Dec 0x09 0x01 0x83 0x00; Dec 0x17 0x01 0x83 0x00; Dec 0x28 0x01 0x83 0x01;
      Dec 0x02 0x01 0xa2 0x00; Dec 0x09 0x01 0xa2 0x00; Dec 0x17 0x01 0xa2 0x00; Dec 0x28 0x01 0xa2 0x01;
      Dec 0x02 0x01 0xb8 0x00; Dec 0x09 0x01 0xb8 0x00; Dec 0x17 0x01 0xb8 0x00; Dec 0x28 0x01 0xb8 0x01;
      Dec 0x02 0x01 0xc2 0x00; Dec 0x09 0x01 0xc2 0x00; Dec 0x17 0x01 0xc2 0x00; Dec 0x28 0x01 0xc2 0x01 ];
    [ Dec 0x03 0x01 0x83 0x00; Dec 0x06 0x01 0x83 0x00; Dec 0x0a 0x01 0x83 0x00; Dec 0x0f 0x01 0x83 0x00;
      Dec 0x18 0x01 0x83 0x00; Dec 0x1f 0x01 0x83 0x00; Dec 0x29 0x01 0x83 0x00; Dec 0x38 0x01 0x83 0x01;
      Dec 0x03 0x01 0xa2 0x00; Dec 0x06 0x01 0xa2 0x00; Dec 0x0a 0x01 0xa2 0x00; Dec 0x0f 0x01 0xa2 0x00;
      Dec 0x18 0x01 0xa2 0x00; Dec 0x1f 0x01 0xa2 0x00; Dec 0x29 0x01 0xa2 0x00; Dec 0x38 0x01 0xa2 0x01 ];
    [ Dec 0x03 0x01 0xb8 0x00; Dec 0x06 0x01 0xb8 0x00; Dec 0x0a 0x01 0xb8 0x00; Dec 0x0f 0x01 0xb8 0x00;
      Dec 0x18 0x01 0xb8 0x00; Dec 0x1f 0x01 0xb8 0x00; Dec 0x29 0x01 0xb8 0x00; Dec 0x38 0x01 0xb8 0x01;
      Dec 0x03 0x01 0xc2 0x00; Dec 0x06 0x01 0xc2 0x00; Dec 0x0a 0x01 0xc2 0x00; Dec 0x0f 0x01 0xc2 0x00;
      Dec 0x18 0x01 0xc2 0x00; Dec 0x1f 0x01 0xc2 0x00; Dec 0x29 0x01 0xc2 0x00; Dec 0x38 0x01 0xc2 0x01 ];
    [ Dec 0x02 0x01 0xe0 0x00; Dec 0x09 0x01 0xe0 0x00; Dec 0x17 0x01 0xe0 0x00; Dec 0x28 0x01 0xe0 0x01;
      Dec 0x02 0x01 0xe2 0x00; Dec 0x09 0x01 0xe2 0x00; Dec 0x17 0x01 0xe2 0x00; Dec 0x28 0x01 0xe2 0x01;
      Dec 0x01 0x01 0x99 0x00; Dec 0x16 0x01 0x99 0x01; Dec 0x01 0x01 0xa1 0x00; Dec 0x16 0x01 0xa1 0x01;
      Dec 0x01 0x01 0xa7 0x00; Dec 0x16 0x01 0xa7 0x01; Dec 0x01 0x01 0xac 0x00; Dec 0x16 0x01 0xac 0x01 ];
    [ Dec 0x03 0x01 0xe0 0x00; Dec 0x06 0x01 0xe0 0x00; Dec 0x0a 0x01 0xe0 0x00; Dec 0x0f 0x01 0xe0 0x00;
      Dec 0x18 0x01 0xe0 0x00; Dec 0x1f 0x01 0xe0 0x00; Dec 0x29 0x01 0xe0 0x00; Dec 0x38 0x01 0xe0 0x01;
      Dec 0x03 0x01 0xe2 0x00; Dec 0x06 0x01 0xe2 0x00; Dec 0x0a 0x01 0xe2 0x00; Dec 0x0f 0x01 0xe2 0x00;
      Dec 0x18 0x01 0xe2 0x00; Dec 0x1f 0x01 0xe2 0x00; Dec 0x29 0x01 0xe2 0x00; Dec 0x38 0x01 0xe2 0x01 ];
    [ Dec 0x02 0x01 0x99 0x00; Dec 0x09 0x01 0x99 0x00; Dec 0x17 0x01 0x99 0x00; Dec 0x28 0x01 0x99 0x01;
      Dec 0x02 0x01 0xa1 0x00; Dec 0x09 0x01 0xa1 0x00; Dec 0x17 0x01 0xa1 0x00; Dec 0x28 0x01 0xa1 0x01;
      Dec 0x02 0x01 0xa7 0x00; Dec 0x09 0x01 0xa7 0x00; Dec 0x17 0x01 0xa7 0x00; Dec 0x28 0x01 0xa7 0x01;
      Dec 0x02 0x01 0xac 0x00; Dec 0x09 0x01 0xac 0x00; Dec 0x17 0x01 0xac 0x00; Dec 0x28 0x01 0xac 0x01 ];
    [ Dec 0x03 0x01 0x99 0x00; Dec 0x06 0x01 0x99 0x00; Dec 0x0a 0x01 0x99 0x00; Dec 0x0f 0x01 0x99 0x00;
      Dec 0x18 0x01 0x99 0x00; Dec 0x1f 0x01 0x99 0x00; Dec 0x29 0x01 0x99 0x00; Dec 0x38 0x01 0x99 0x01;
      Dec 0x03 0x01 0xa1 0x00; Dec 0x06 0x01 0xa1 0x00; Dec 0x0a 0x01 0xa1 0x00; Dec 0x0f 0x01 0xa1 0x00;
      Dec 0x18 0x01 0xa1 0x00; Dec 0x1f 0x01 0xa1 0x00; Dec 0x29 0x01 0xa1 0x00; Dec 0x38 0x01 0xa1 0x01 ];
    [ Dec 0x03 0x01 0xa7 0x00; Dec 0x06 0x01 0xa7 0x00; Dec 0x0a 0x01 0xa7 0x00; Dec 0x0f 0x01 0xa7 0x00;
      Dec 0x18 0x01 0xa7 0x00; Dec 0x1f 0x01 0xa7 0x00; Dec 0x29 0x01 0xa7 0x00; Dec 0x38 0x01 0xa7 0x01;
      Dec 0x03 0x01 0xac 0x00; Dec 0x06 0x01 0xac 0x00; Dec 0x0a 0x01 0xac 0x00; Dec 0x0f 0x01 0xac 0x00;
      Dec 0x18 0x01 0xac 0x00; Dec 0x1f 0x01 0xac 0x00; Dec 0x29 0x01 0xac 0x00; Dec 0x38 0x01 0xac 0x01 ];
    [ Dec 0x72 0x00 0x00 0x00; Dec 0x73 0x00 0x00 0x00; Dec 0x75 0x00 0x00 0x00; Dec 0x76 0x00 0x00 0x00;
      Dec 0x79 0x00 0x00 0x00; Dec 0x7b 0x00 0x00 0x00; Dec 0x7f 0x00 0x00 0x00; Dec 0x82 0x00 0x00 0x00;
      Dec 0x88 0x00 0x00 0x00; Dec 0x8b 0x00 0x00 0x00; Dec 0x8f 0x00 0x00 0x00; Dec 0x92 0x00 0x00 0x00;
      Dec 0x9b 0x00 0x00 0x00; Dec 0xa2 0x00 0x00 0x00; Dec 0xaa 0x00 0x00 0x00; Dec 0xb4 0x00 0x00 0x01 ];
    [ Dec 0x00 0x01 0xb0 0x01; Dec 0x00 0x01 0xb1 0x01; Dec 0x00 0x01 0xb3 0x01; Dec 0x00 0x01 0xd1 0x01;
      Dec 0x00 0x01 0xd8 0x01; Dec 0x00 0x01 0xd9 0x01; Dec 0x00 0x01 0xe3 0x01; Dec 0x00 0x01 0xe5 0x01;
      Dec 0x00 0x01 0xe6 0x01; Dec 0x7a 0x00 0x00 0x00; Dec 0x7c 0x00 0x00 0x00; Dec 0x7d 0x00 0x00 0x00;
      Dec 0x80 0x00 0x00 0x00; Dec 0x81 0x00 0x00 0x00; Dec 0x83 0x00 0x00 0x00; Dec 0x84 0x00 0x00 0x00 ] ].

(** States 112 to 125. *)
Definition huff_decode_codes_112 : list (list ngx_http_huff_decode_code_t) :=
  [ [ Dec 0x01 0x01 0xb0 0x00; Dec 0x16 0x01 0xb0 0x01; Dec 0x01 0x01 0xb1 0x00; Dec 0x16 0x01 0xb1 0x01;
      Dec 0x01 0x01 0xb3 0x00; Dec 0x16 0x01 0xb3 0x01; Dec 0x01 0x01 0xd1 0x00; Dec 0x16 0x01 0xd1 0x01;
      Dec 0x01 0x01 0xd8 0x00; Dec 0x16 0x01 0xd8 0x01; Dec 0x01 0x01 0xd9 0x00; Dec 0x16 0x01 0xd9 0x01;
      Dec 0x01 0x01 0xe3 0x00; Dec 0x16 0x01 0xe3 0x01; Dec 0x01 0x01 0xe5 0x00; Dec 0x16 0x01 0xe5 0x01 ];
    [ Dec 0x02 0x01 0xb0 0x00; Dec 0x09 0x01 0xb0 0x00; Dec 0x17 0x01 0xb0 0x00; Dec 0x28 0x01 0xb0 0x01;
      Dec 0x02 0x01 0xb1 0x00; Dec 0x09 0x01 0xb1 0x00; Dec 0x17 0x01 0xb1 0x00; Dec 0x28 0x01 0xb1 0x01;
      Dec 0x02 0x01 0xb3 0x00; Dec 0x09 0x01 0xb3 0x00; Dec 0x17 0x01 0xb3 0x00; Dec 0x28 0x01 0xb3 0x01;
      Dec 0x02 0x01 0xd1 0x00; Dec 0x09 0x01 0xd1 0x00; Dec 0x17 0x01 0xd1 0x00; Dec 0x28 0x01 0xd1 0x01 ];
    [ Dec 0x03 0x01 0xb0 0x00; Dec 0x06 0x01 0xb0 0x00; Dec 0x0a 0x01 0xb0 0x00; Dec 0x0f 0x01 0xb0 0x00;
      Dec 0x18 0x01 0xb0 0x00; Dec 0x1f 0x01 0xb0 0x00; Dec 0x29 0x01 0xb0 0x00; Dec 0x38 0x01 0xb0 0x01;
      Dec 0x03 0x01 0xb1 0x00; Dec 0x06 0x01 0xb1 0x00; Dec 0x0a 0x01 0xb1 0x00; Dec 0x0f 0x01 0xb1 0x00;
      Dec 0x18 0x01 0xb1 0x00; Dec 0x1f 0x01 0xb1 0x00; Dec 0x29 0x01 0xb1 0x00; Dec 0x38 0x01 0xb1 0x01 ];
    [ Dec 0x03 0x01 0xb3 0x00; Dec 0x06 0x01 0xb3 0x00; Dec 0x0a 0x01 0xb3 0x00; Dec 0x0f 0x01 0xb3 0x00;
      Dec 0x18 0x01 0xb3 0x00; Dec 0x1f 0x01 0xb3 0x00; Dec 0x29 0x01 0xb3 0x00; Dec 0x38 0x01 0xb3 0x01;
      Dec 0x03 0x01 0xd1 0x00; Dec 0x06 0x01 0xd1 0x00; Dec 0x0a 0x01 0xd1 0x00; Dec 0x0f 0x01 0xd1 0x00;
      Dec 0x18 0x01 0xd1 0x00; Dec 0x1f 0x01 0xd1 0x00; Dec 0x29 0x01 0xd1 0x00; Dec 0x38 0x01 0xd1 0x01 ];
    [ Dec 0x02 0x01 0xd8 0x00; Dec 0x09 0x01 0xd8 0x00; Dec 0x17 0x01 0xd8 0x00; Dec 0x28 0x01 0xd8 0x01;
      Dec 0x02 0x01 0xd9 0x00; Dec 0x09 0x01 0xd9 0x00; Dec 0x17 0x01 0xd9 0x00; Dec 0x28 0x01 0xd9 0x01;
      Dec 0x02 0x01 0xe3 0x00; Dec 0x09 0x01 0xe3 0x00; Dec 0x17 0x01 0xe3 0x00; Dec 0x28 0x01 0xe3 0x01;
      Dec 0x02 0x01 0xe5 0x00; Dec 0x09 0x01 0xe5 0x00; Dec 0x17 0x01 0xe5 0x00; Dec 0x28 0x01 0xe5 0x01 ];
    [ Dec 0x03 0x01 0xd8 0x00; Dec 0x06 0x01 0xd8 0x00; Dec 0x0a 0x01 0xd8 0x00; Dec 0x0f 0x01 0xd8 0x00;
      Dec 0x18 0x01 0xd8 0x00; Dec 0x1f 0x01 0xd8 0x00; Dec 0x29 0x01 0xd8 0x00; Dec 0x38 0x01 0xd8 0x01;
      Dec 0x03 0x01 0xd9 0x00; Dec 0x06 0x01 0xd9 0x00; Dec 0x0a 0x01 0xd9 0x00; Dec 0x0f 0x01 0xd9 0x00;
      Dec 0x18 0x01 0xd9 0x00; Dec 0x1f 0x01 0xd9 0x00; Dec 0x29 0x01 0xd9 0x00; Dec 0x38 0x01 0xd9 0x01 ];
    [ Dec 0x03 0x01 0xe3 0x00; Dec 0x06 0x01 0xe3 0x00; Dec 0x0a 0x01 0xe3 0x00; Dec 0x0f 0x01 0xe3 0x00;
      Dec 0x18 0x01 0xe3 0x00; Dec 0x1f 0x01 0xe3 0x00; Dec 0x29 0x01 0xe3 0x00; Dec 0x38 0x01 0xe3 0x01;
      Dec 0x03 0x01 0xe5 0x00; Dec 0x06 0x01 0xe5 0x00; Dec 0x0a 0x01 0xe5 0x00; Dec 0x0f 0x01 0xe5 0x00;
      Dec 0x18 0x01 0xe5 0x00; Dec 0x1f 0x01 0xe5 0x00; Dec 0x29 0x01 0xe5 0x00; Dec 0x38 0x01 0xe5 0x01 ];
    [ Dec 0x01 0x01 0xe6 0x00; Dec 0x16 0x01 0xe6 0x01; Dec 0x00 0x01 0x81 0x01; Dec 0x00 0x01 0x84 0x01;
      Dec 0x00 0x01 0x85 0x01; Dec 0x00 0x01 0x86 0x01; Dec 0x00 0x01 0x88 0x01; Dec 0x00 0x01 0x92 0x01;
      Dec 0x00 0x01 0x9a 0x01; Dec 0x00 0x01 0x9c 0x01; Dec 0x00 0x01 0xa0 0x01; Dec 0x00 0x01 0xa3 0x01;
      Dec 0x00 0x01 0xa4 0x01; Dec 0x00 0x01 0xa9 0x01; Dec 0x00 0x01 0xaa 0x01; Dec 0x00 0x01 0xad 0x01 ];
    [ Dec 0x02 0x01 0xe6 0x00; Dec 0x09 0x01 0xe6 0x00; Dec 0x17 0x01 0xe6 0x00; Dec 0x28 0x01 0xe6 0x01;
      Dec 0x01 0x01 0x81 0x00; Dec 0x16 0x01 0x81 0x01; Dec 0x01 0x01 0x84 0x00; Dec 0x16 0x01 0x84 0x01;
      Dec 0x01 0x01 0x85 0x00; Dec 0x16 0x01 0x85 0x01; Dec 0x01 0x01 0x86 0x00; Dec 0x16 0x01 0x86 0x01;
      Dec 0x01 0x01 0x88 0x00; Dec 0x16 0x01 0x88 0x01; Dec 0x01 0x01 0x92 0x00; Dec 0x16 0x01 0x92 0x01 ];
    [ Dec 0x03 0x01 0xe6 0x00; Dec 0x06 0x01 0xe6 0x00; Dec 0x0a 0x01 0xe6 0x00; Dec 0x0f 0x01 0xe6 0x00;
      Dec 0x18 0x01 0xe6 0x00; Dec 0x1f 0x01 0xe6 0x00; Dec 0x29 0x01 0xe6 0x00; Dec 0x38 0x01 0xe6 0x01;
      Dec 0x02 0x01 0x81 0x00; Dec 0x09 0x01 0x81 0x00; Dec 0x17 0x01 0x81 0x00; Dec 0x28 0x01 0x81 0x01;
      Dec 0x02 0x01 0x84 0x00; Dec 0x09 0x01 0x84 0x00; Dec 0x17 0x01 0x84 0x00; Dec 0x28 0x01 0x84 0x01 ];
    [ Dec 0x03 0x01 0x81 0x00; Dec 0x06 0x01 0x81 0x00; Dec 0x0a 0x01 0x81 0x00; Dec 0x0f 0x01 0x81 0x00;
      Dec 0x18 0x01 0x81 0x00; Dec 0x1f 0x01 0x81 0x00; Dec 0x29 0x01 0x81 0x00; Dec 0x38 0x01 0x81 0x01;
      Dec 0x03 0x01 0x84 0x00; Dec 0x06 0x01 0x84 0x00; Dec 0x0a 0x01 0x84 0x00; Dec 0x0f 0x01 0x84 0x00;
      Dec 0x18 0x01 0x84 0x00; Dec 0x1f 0x01 0x84 0x00; Dec 0x29 0x01 0x84 0x00; Dec 0x38 0x01 0x84 0x01 ];
    [ Dec 0x02 0x01 0x85 0x00; Dec 0x09 0x01 0x85 0x00; Dec 0x17 0x01 0x85 0x00; Dec 0x28 0x01 0x85 0x01;
      Dec 0x02 0x01 0x86 0x00; Dec 0x09 0x01 0x86 0x00; Dec 0x17 0x01 0x86 0x00; Dec 0x28 0x01 0x86 0x01;
      Dec 0x02 0x01 0x88 0x00; Dec 0x09 0x01 0x88 0x00; Dec 0x17 0x01 0x88 0x00; Dec 0x28 0x01 0x88 0x01;
      Dec 0x02 0x01 0x92 0x00; Dec 0x09 0x01 0x92 0x00; Dec 0x17 0x01 0x92 0x00; Dec 0x28 0x01 0x92 0x01 ];
    [ Dec 0x03 0x01 0x85 0x00; Dec 0x06 0x01 0x85 0x00; Dec 0x0a 0x01 0x85 0x00; Dec 0x0f 0x01 0x85 0x00;
      Dec 0x18 0x01 0x85 0x00; Dec 0x1f 0x01 0x85 0x00; Dec 0x29 0x01 0x85 0x00; Dec 0x38 0x01 0x85 0x01;
      Dec 0x03 0x01 0x86 0x00; Dec 0x06 0x01 0x86 0x00; Dec 0x0a 0x01 0x86 0x00; Dec 0x0f 0x01 0x86 0x00;
      Dec 0x18 0x01 0x86 0x00; Dec 0x1f 0x01 0x86 0x00; Dec 0x29 0x01 0x86 0x00; Dec 0x38 0x01 0x86 0x01 ];
    [ Dec 0x03 0x01 0x88 0x00; Dec 0x06 0x01 0x88 0x00; Dec 0x0a 0x01 0x88 0x00; Dec 0x0f 0x01 0x88 0x00;
      Dec 0x18 0x01 0x88 0x00; Dec 0x1f 0x01 0x88 0x00; Dec 0x29 0x01 0x88 0x00; Dec 0x38 0x01 0x88 0x01;
      Dec 0x03 0x01 0x92 0x00; Dec 0x06 0x01 0x92 0x00; Dec 0x0a 0x01 0x92 0x00; Dec 0x0f 0x01 0x92 0x00;
      Dec 0x18 0x01 0x92 0x00; Dec 0x1f 0x01 0x92 0x00; Dec 0x29 0x01 0x92 0x00; Dec 0x38 0x01 0x92 0x01 ] ].

(** States 126 to 139. *)
Definition huff_decode_codes_126 : list (list ngx_http_huff_decode_code_t) :=
  [ [ Dec 0x01 0x01 0x9a 0x00; Dec 0x16 0x01 0x9a 0x01; Dec 0x01 0x01 0x9c 0x00; Dec 0x16 0x01 0x9c 0x01;
      Dec 0x01 0x01 0xa0 0x00; Dec 0x16 0x01 0xa0 0x01; Dec 0x01 0x01 0xa3 0x00; Dec 0x16 0x01 0xa3 0x01;
      Dec 0x01 0x01 0xa4 0x00; Dec 0x16 0x01 0xa4 0x01; Dec 0x01 0x01 0xa9 0x00; Dec 0x16 0x01 0xa9 0x01;
      Dec 0x01 0x01 0xaa 0x00; Dec 0x16 0x01 0xaa 0x01; Dec 0x01 0x01 0xad 0x00; Dec 0x16 0x01 0xad 0x01 ];
    [ Dec 0x02 0x01 0x9a 0x00; Dec 0x09 0x01 0x9a 0x00; Dec 0x17 0x01 0x9a 0x00; Dec 0x28 0x01 0x9a 0x01;
      Dec 0x02 0x01 0x9c 0x00; Dec 0x09 0x01 0x9c 0x00; Dec 0x17 0x01 0x9c 0x00; Dec 0x28 0x01 0x9c 0x01;
      Dec 0x02 0x01 0xa0 0x00; Dec 0x09 0x01 0xa0 0x00; Dec 0x17 0x01 0xa0 0x00; Dec 0x28 0x01 0xa0 0x01;
      Dec 0x02 0x01 0xa3 0x00; Dec 0x09 0x01 0xa3 0x00; Dec 0x17 0x01 0xa3 0x00; Dec 0x28 0x01 0xa3 0x01 ];
    [ Dec 0x03 0x01 0x9a 0x00; Dec 0x06 0x01 0x9a 0x00; Dec 0x0a 0x01 0x9a 0x00; Dec 0x0f 0x01 0x9a 0x00;
      Dec 0x18 0x01 0x9a 0x00; Dec 0x1f 0x01 0x9a 0x00; Dec 0x29 0x01 0x9a 0x00; Dec 0x38 0x01 0x9a 0x01;
      Dec 0x03 0x01 0x9c 0x00; Dec 0x06 0x01 0x9c 0x00; Dec 0x0a 0x01 0x9c 0x00; Dec 0x0f 0x01 0x9c 0x00;
      Dec 0x18 0x01 0x9c 0x00; Dec 0x1f 0x01 0x9c 0x00; Dec 0x29 0x01 0x9c 0x00; Dec 0x38 0x01 0x9c 0x01 ];
    [ Dec 0x03 0x01 0xa0 0x00; Dec 0x06 0x01 0xa0 0x00; Dec 0x0a 0x01 0xa0 0x00; Dec 0x0f 0x01 0xa0 0x00;
      Dec 0x18 0x01 0xa0 0x00; Dec 0x1f 0x01 0xa0 0x00; Dec 0x29 0x01 0xa0 0x00; Dec 0x38 0x01 0xa0 0x01;
      Dec 0x03 0x01 0xa3 0x00; Dec 0x06 0x01 0xa3 0x00; Dec 0x0a 0x01 0xa3 0x00; Dec 0x0f 0x01 0xa3 0x00;
      Dec 0x18 0x01 0xa3 0x00; Dec 0x1f 0x01 0xa3 0x00; Dec 0x29 0x01 0xa3 0x00; Dec 0x38 0x01 0xa3 0x01 ];
    [ Dec 0x02 0x01 0xa4 0x00; Dec 0x09 0x01 0xa4 0x00; Dec 0x17 0x01 0xa4 0x00; Dec 0x28 0x01 0xa4 0x01;
      Dec 0x02 0x01 0xa9 0x00; Dec 0x09 0x01 0xa9 0x00; Dec 0x17 0x01 0xa9 0x00; Dec 0x28 0x01 0xa9 0x01;
      Dec 0x02 0x01 0xaa 0x00; Dec 0x09 0x01 0xaa 0x00; Dec 0x17 0x01 0xaa 0x00; Dec 0x28 0x01 0xaa 0x01;
      Dec 0x02 0x01 0xad 0x00; Dec 0x09 0x01 0xad 0x00; Dec 0x17 0x01 0xad 0x00; Dec 0x28 0x01 0xad 0x01 ];
    [ Dec 0x03 0x01 0xa4 0x00; Dec 0x06 0x01 0xa4 0x00; Dec 0x0a 0x01 0xa4 0x00; Dec 0x0f 0x01 0xa4 0x00;
      Dec 0x18 0x01 0xa4 0x00; Dec 0x1f 0x01 0xa4 0x00; Dec 0x29 0x01 0xa4 0x00; Dec 0x38 0x01 0xa4 0x01;
      Dec 0x03 0x01 0xa9 0x00; Dec 0x06 0x01 0xa9 0x00; Dec 0x0a 0x01 0xa9 0x00; Dec 0x0f 0x01 0xa9 0x00;
      Dec 0x18 0x01 0xa9 0x00; Dec 0x1f 0x01 0xa9 0x00; Dec 0x29 0x01 0xa9 0x00; Dec 0x38 0x01 0xa9 0x01 ];
    [ Dec 0x03 0x01 0xaa 0x00; Dec 0x06 0x01 0xaa 0x00; Dec 0x0a 0x01 0xaa 0x00; Dec 0x0f 0x01 0xaa 0x00;
      Dec 0x18 0x01 0xaa 0x00; Dec 0x1f 0x01 0xaa 0x00; Dec 0x29 0x01 0xaa 0x00; Dec 0x38 0x01 0xaa 0x01;
      Dec 0x03 0x01 0xad 0x00; Dec 0x06 0x01 0xad 0x00; Dec 0x0a 0x01 0xad 0x00; Dec 0x0f 0x01 0xad 0x00;
      Dec 0x18 0x01 0xad 0x00; Dec 0x1f 0x01 0xad 0x00; Dec 0x29 0x01 0xad 0x00; Dec 0x38 0x01 0xad 0x01 ];
    [ Dec 0x89 0x00 0x00 0x00; Dec 0x8a 0x00 0x00 0x00; Dec 0x8c 0x00 0x00 0x00; Dec 0x8d 0x00 0x00 0x00;
      Dec 0x90 0x00 0x00 0x00; Dec 0x91 0x00 0x00 0x00; Dec 0x93 0x00 0x00 0x00; Dec 0x96 0x00 0x00 0x00;
      Dec 0x9c 0x00 0x00 0x00; Dec 0x9f 0x00 0x00 0x00; Dec 0xa3 0x00 0x00 0x00; Dec 0xa6 0x00 0x00 0x00;
      Dec 0xab 0x00 0x00 0x00; Dec 0xae 0x00 0x00 0x00; Dec 0xb5 0x00 0x00 0x00; Dec 0xbe 0x00 0x00 0x01 ];
    [ Dec 0x00 0x01 0xb2 0x01; Dec 0x00 0x01 0xb5 0x01; Dec 0x00 0x01 0xb9 0x01; Dec 0x00 0x01 0xba 0x01;
      Dec 0x00 0x01 0xbb 0x01; Dec 0x00 0x01 0xbd 0x01; Dec 0x00 0x01 0xbe 0x01; Dec 0x00 0x01 0xc4 0x01;
      Dec 0x00 0x01 0xc6 0x01; Dec 0x00 0x01 0xe4 0x01; Dec 0x00 0x01 0xe8 0x01; Dec 0x00 0x01 0xe9 0x01;
      Dec 0x94 0x00 0x00 0x00; Dec 0x95 0x00 0x00 0x00; Dec 0x97 0x00 0x00 0x00; Dec 0x98 0x00 0x00 0x00 ];
    [ Dec 0x01 0x01 0xb2 0x00; Dec 0x16 0x01 0xb2 0x01; Dec 0x01 0x01 0xb5 0x00; Dec 0x16 0x01 0xb5 0x01;
      Dec 0x01 0x01 0xb9 0x00; Dec 0x16 0x01 0xb9 0x01; Dec 0x01 0x01 0xba 0x00; Dec 0x16 0x01 0xba 0x01;
      Dec 0x01 0x01 0xbb 0x00; Dec 0x16 0x01 0xbb 0x01; Dec 0x01 0x01 0xbd 0x00; Dec 0x16 0x01 0xbd 0x01;
      Dec 0x01 0x01 0xbe 0x00; Dec 0x16 0x01 0xbe 0x01; Dec 0x01 0x01 0xc4 0x00; Dec 0x16 0x01 0xc4 0x01 ];
    [ Dec 0x02 0x01 0xb2 0x00; Dec 0x09 0x01 0xb2 0x00; Dec 0x17 0x01 0xb2 0x00; Dec 0x28 0x01 0xb2 0x01;
      Dec 0x02 0x01 0xb5 0x00; Dec 0x09 0x01 0xb5 0x00; Dec 0x17 0x01 0xb5 0x00; Dec 0x28 0x01 0xb5 0x01;
      Dec 0x02 0x01 0xb9 0x00; Dec 0x09 0x01 0xb9 0x00; Dec 0x17 0x01 0xb9 0x00; Dec 0x28 0x01 0xb9 0x01;
      Dec 0x02 0x01 0xba 0x00; Dec 0x09 0x01 0xba 0x00; Dec 0x17 0x01 0xba 0x00; Dec 0x28 0x01 0xba 0x01 ];
    [ Dec 0x03 0x01 0xb2 0x00; Dec 0x06 0x01 0xb2 0x00; Dec 0x0a 0x01 0xb2 0x00; Dec 0x0f 0x01 0xb2 0x00;
      Dec 0x18 0x01 0xb2 0x00; Dec 0x1f 0x01 0xb2 0x00; Dec 0x29 0x01 0xb2 0x00; Dec 0x38 0x01 0xb2 0x01;
      Dec 0x03 0x01 0xb5 0x00; Dec 0x06 0x01 0xb5 0x00; Dec 0x0a 0x01 0xb5 0x00; Dec 0x0f 0x01 0xb5 0x00;
      Dec 0x18 0x01 0xb5 0x00; Dec 0x1f 0x01 0xb5 0x00; Dec 0x29 0x01 0xb5 0x00; Dec 0x38 0x01 0xb5 0x01 ];
    [ Dec 0x03 0x01 0xb9 0x00; Dec 0x06 0x01 0xb9 0x00; Dec 0x0a 0x01 0xb9 0x00; Dec 0x0f 0x01 0xb9 0x00;
      Dec 0x18 0x01 0xb9 0x00; Dec 0x1f 0x01 0xb9 0x00; Dec 0x29 0x01 0xb9 0x00; Dec 0x38 0x01 0xb9 0x01;
      Dec 0x03 0x01 0xba 0x00; Dec 0x06 0x01 0xba 0x00; Dec 0x0a 0x01 0xba 0x00; Dec 0x0f 0x01 0xba 0x00;
      Dec 0x18 0x01 0xba 0x00; Dec 0x1f 0x01 0xba 0x00; Dec 0x29 0x01 0xba 0x00; Dec 0x38 0x01 0xba 0x01 ];
    [ Dec 0x02 0x01 0xbb 0x00; Dec 0x09 0x01 0xbb 0x00; Dec 0x17 0x01 0xbb 0x00; Dec 0x28 0x01 0xbb 0x01;
      Dec 0x02 0x01 0xbd 0x00; Dec 0x09 0x01 0xbd 0x00; Dec 0x17 0x01 0xbd 0x00; Dec 0x28 0x01 0xbd 0x01;
      Dec 0x02 0x01 0xbe 0x00; Dec 0x09 0x01 0xbe 0x00; Dec 0x17 0x01 0xbe 0x00; Dec 0x28 0x01 0xbe 0x01;
      Dec 0x02 0x01 0xc4 0x00; Dec 0x09 0x01 0xc4 0x00; Dec 0x17 0x01 0xc4 0x00; Dec 0x28 0x01 0xc4 0x01 ] ].

(** States 140 to 153. *)
Definition huff_decode_codes_140 : list (list ngx_http_huff_decode_code_t) :=
  [ [ Dec 0x03 0x01 0xbb 0x00; Dec 0x06 0x01 0xbb 0x00; Dec 0x0a 0x01 0xbb 0x00; Dec 0x0f 0x01 0xbb 0x00;
      Dec 0x18 0x01 0xbb 0x00; Dec 0x1f 0x01 0xbb 0x00; Dec 0x29 0x01 0xbb 0x00; Dec 0x38 0x01 0xbb 0x01;
      Dec 0x03 0x01 0xbd 0x00; Dec 0x06 0x01 0xbd 0x00; Dec 0x0a 0x01 0xbd 0x00; Dec 0x0f 0x01 0xbd 0x00;
      Dec 0x18 0x01 0xbd 0x00; Dec 0x1f 0x01 0xbd 0x00; Dec 0x29 0x01 0xbd 0x00; Dec 0x38 0x01 0xbd 0x01 ];
    [ Dec 0x03 0x01 0xbe 0x00; Dec 0x06 0x01 0xbe 0x00; Dec 0x0a 0x01 0xbe 0x00; Dec 0x0f 0x01 0xbe 0x00;
      Dec 0x18 0x01 0xbe 0x00; Dec 0x1f 0x01 0xbe 0x00; Dec 0x29 0x01 0xbe 0x00; Dec 0x38 0x01 0xbe 0x01;
      Dec 0x03 0x01 0xc4 0x00; Dec 0x06 0x01 0xc4 0x00; Dec 0x0a 0x01 0xc4 0x00; Dec 0x0f 0x01 0xc4 0x00;
      Dec 0x18 0x01 0xc4 0x00; Dec 0x1f 0x01 0xc4 0x00; Dec 0x29 0x01 0xc4 0x00; Dec 0x38 0x01 0xc4 0x01 ];
    [ Dec 0x01 0x01 0xc6 0x00; Dec 0x16 0x01 0xc6 0x01; Dec 0x01 0x01 0xe4 0x00; Dec 0x16 0x01 0xe4 0x01;
      Dec 0x01 0x01 0xe8 0x00; Dec 0x16 0x01 0xe8 0x01; Dec 0x01 0x01 0xe9 0x00; Dec 0x16 0x01 0xe9 0x01;
      Dec 0x00 0x01 0x01 0x01; Dec 0x00 0x01 0x87 0x01; Dec 0x00 0x01 0x89 0x01; Dec 0x00 0x01 0x8a 0x01;
      Dec 0x00 0x01 0x8b 0x01; Dec 0x00 0x01 0x8c 0x01; Dec 0x00 0x01 0x8d 0x01; Dec 0x00 0x01 0x8f 0x01 ];
    [ Dec 0x02 0x01 0xc6 0x00; Dec 0x09 0x01 0xc6 0x00; Dec 0x17 0x01 0xc6 0x00; Dec 0x28 0x01 0xc6 0x01;
      Dec 0x02 0x01 0xe4 0x00; Dec 0x09 0x01 0xe4 0x00; Dec 0x17 0x01 0xe4 0x00; Dec 0x28 0x01 0xe4 0x01;
      Dec 0x02 0x01 0xe8 0x00; Dec 0x09 0x01 0xe8 0x00; Dec 0x17 0x01 0xe8 0x00; Dec 0x28 0x01 0xe8 0x01;
      Dec 0x02 0x01 0xe9 0x00; Dec 0x09 0x01 0xe9 0x00; Dec 0x17 0x01 0xe9 0x00; Dec 0x28 0x01 0xe9 0x01 ];
    [ Dec 0x03 0x01 0xc6 0x00; Dec 0x06 0x01 0xc6 0x00; Dec 0x0a 0x01 0xc6 0x00; Dec 0x0f 0x01 0xc6 0x00;
      Dec 0x18 0x01 0xc6 0x00; Dec 0x1f 0x01 0xc6 0x00; Dec 0x29 0x01 0xc6 0x00; Dec 0x38 0x01 0xc6 0x01;
      Dec 0x03 0x01 0xe4 0x00; Dec 0x06 0x01 0xe4 0x00; Dec 0x0a 0x01 0xe4 0x00; Dec 0x0f 0x01 0xe4 0x00;
      Dec 0x18 0x01 0xe4 0x00; Dec 0x1f 0x01 0xe4 0x00; Dec 0x29 0x01 0xe4 0x00; Dec 0x38 0x01 0xe4 0x01 ];
    [ Dec 0x03 0x01 0xe8 0x00; Dec 0x06 0x01 0xe8 0x00; Dec 0x0a 0x01 0xe8 0x00; Dec 0x0f 0x01 0xe8 0x00;
      Dec 0x18 0x01 0xe8 0x00; Dec 0x1f 0x01 0xe8 0x00; Dec 0x29 0x01 0xe8 0x00; Dec 0x38 0x01 0xe8 0x01;
      Dec 0x03 0x01 0xe9 0x00; Dec 0x06 0x01 0xe9 0x00; Dec 0x0a 0x01 0xe9 0x00; Dec 0x0f 0x01 0xe9 0x00;
      Dec 0x18 0x01 0xe9 0x00; Dec 0x1f 0x01 0xe9 0x00; Dec 0x29 0x01 0xe9 0x00; Dec 0x38 0x01 0xe9 0x01 ];
    [ Dec 0x01 0x01 0x01 0x00; Dec 0x16 0x01 0x01 0x01; Dec 0x01 0x01 0x87 0x00; Dec 0x16 0x01 0x87 0x01;
      Dec 0x01 0x01 0x89 0x00; Dec 0x16 0x01 0x89 0x01; Dec 0x01 0x01 0x8a 0x00; Dec 0x16 0x01 0x8a 0x01;
      Dec 0x01 0x01 0x8b 0x00; Dec 0x16 0x01 0x8b 0x01; Dec 0x01 0x01 0x8c 0x00; Dec 0x16 0x01 0x8c 0x01;
      Dec 0x01 0x01 0x8d 0x00; Dec 0x16 0x01 0x8d 0x01; Dec 0x01 0x01 0x8f 0x00; Dec 0x16 0x01 0x8f 0x01 ];
    [ Dec 0x02 0x01 0x01 0x00; Dec 0x09 0x01 0x01 0x00; Dec 0x17 0x01 0x01 0x00; Dec 0x28 0x01 0x01 0x01;
      Dec 0x02 0x01 0x87 0x00; Dec 0x09 0x01 0x87 0x00; Dec 0x17 0x01 0x87 0x00; Dec 0x28 0x01 0x87 0x01;
      Dec 0x02 0x01 0x89 0x00; Dec 0x09 0x01 0x89 0x00; Dec 0x17 0x01 0x89 0x00; Dec 0x28 0x01 0x89 0x01;
      Dec 0x02 0x01 0x8a 0x00; Dec 0x09 0x01 0x8a 0x00; Dec 0x17 0x01 0x8a 0x00; Dec 0x28 0x01 0x8a 0x01 ];
    [ Dec 0x03 0x01 0x01 0x00; Dec 0x06 0x01 0x01 0x00; Dec 0x0a 0x01 0x01 0x00; Dec 0x0f 0x01 0x01 0x00;
      Dec 0x18 0x01 0x01 0x00; Dec 0x1f 0x01 0x01 0x00; Dec 0x29 0x01 0x01 0x00; Dec 0x38 0x01 0x01 0x01;
      Dec 0x03 0x01 0x87 0x00; Dec 0x06 0x01 0x87 0x00; Dec 0x0a 0x01 0x87 0x00; Dec 0x0f 0x01 0x87 0x00;
      Dec 0x18 0x01 0x87 0x00; Dec 0x1f 0x01 0x87 0x00; Dec 0x29 0x01 0x87 0x00; Dec 0x38 0x01 0x87 0x01 ];
    [ Dec 0x03 0x01 0x89 0x00; Dec 0x06 0x01 0x89 0x00; Dec 0x0a 0x01 0x89 0x00; Dec 0x0f 0x01 0x89 0x00;
      Dec 0x18 0x01 0x89 0x00; Dec 0x1f 0x01 0x89 0x00; Dec 0x29 0x01 0x89 0x00; Dec 0x38 0x01 0x89 0x01;
      Dec 0x03 0x01 0x8a 0x00; Dec 0x06 0x01 0x8a 0x00; Dec 0x0a 0x01 0x8a 0x00; Dec 0x0f 0x01 0x8a 0x00;
      Dec 0x18 0x01 0x8a 0x00; Dec 0x1f 0x01 0x8a 0x00; Dec 0x29 0x01 0x8a 0x00; Dec 0x38 0x01 0x8a 0x01 ];
    [ Dec 0x02 0x01 0x8b 0x00; Dec 0x09 0x01 0x8b 0x00; Dec 0x17 0x01 0x8b 0x00; Dec 0x28 0x01 0x8b 0x01;
      Dec 0x02 0x01 0x8c 0x00; Dec 0x09 0x01 0x8c 0x00; Dec 0x17 0x01 0x8c 0x00; Dec 0x28 0x01 0x8c 0x01;
      Dec 0x02 0x01 0x8d 0x00; Dec 0x09 0x01 0x8d 0x00; Dec 0x17 0x01 0x8d 0x00; Dec 0x28 0x01 0x8d 0x01;
      Dec 0x02 0x01 0x8f 0x00; Dec 0x09 0x01 0x8f 0x00; Dec 0x17 0x01 0x8f 0x00; Dec 0x28 0x01 0x8f 0x01 ];
    [ Dec 0x03 0x01 0x8b 0x00; Dec 0x06 0x01 0x8b 0x00; Dec 0x0a 0x01 0x8b 0x00; Dec 0x0f 0x01 0x8b 0x00;
      Dec 0x18 0x01 0x8b 0x00; Dec 0x1f 0x01 0x8b 0x00; Dec 0x29 0x01 0x8b 0x00; Dec 0x38 0x01 0x8b 0x01;
      Dec 0x03 0x01 0x8c 0x00; Dec 0x06 0x01 0x8c 0x00; Dec 0x0a 0x01 0x8c 0x00; Dec 0x0f 0x01 0x8c 0x00;
      Dec 0x18 0x01 0x8c 0x00; Dec 0x1f 0x01 0x8c 0x00; Dec 0x29 0x01 0x8c 0x00; Dec 0x38 0x01 0x8c 0x01 ];
    [ Dec 0x03 0x01 0x8d 0x00; Dec 0x06 0x01 0x8d 0x00; Dec 0x0a 0x01 0x8d 0x00; Dec 0x0f 0x01 0x8d 0x00;
      Dec 0x18 0x01 0x8d 0x00; Dec 0x1f 0x01 0x8d 0x00; Dec 0x29 0x01 0x8d 0x00; Dec 0x38 0x01 0x8d 0x01;
      Dec 0x03 0x01 0x8f 0x00; Dec 0x06 0x01 0x8f 0x00; Dec 0x0a 0x01 0x8f 0x00; Dec 0x0f 0x01 0x8f 0x00;
      Dec 0x18 0x01 0x8f 0x00; Dec 0x1f 0x01 0x8f 0x00; Dec 0x29 0x01 0x8f 0x00; Dec 0x38 0x01 0x8f 0x01 ];
    [ Dec 0x9d 0x00 0x00 0x00; Dec 0x9e 0x00 0x00 0x00; Dec 0xa0 0x00 0x00 0x00; Dec 0xa1 0x00 0x00 0x00;
      Dec 0xa4 0x00 0x00 0x00; Dec 0xa5 0x00 0x00 0x00; Dec 0xa7 0x00 0x00 0x00; Dec 0xa8 0x00 0x00 0x00;
      Dec 0xac 0x00 0x00 0x00; Dec 0xad 0x00 0x00 0x00; Dec 0xaf 0x00 0x00 0x00; Dec 0xb1 0x00 0x00 0x00;
      Dec 0xb6 0x00 0x00 0x00; Dec 0xb9 0x00 0x00 0x00; Dec 0xbf 0x00 0x00 0x00; Dec 0xcf 0x00 0x00 0x01 ] ].

(** States 154 to 167. *)
Definition huff_decode_codes_154 : list (list ngx_http_huff_decode_code_t) :=
  [ [ Dec 0x00 0x01 0x93 0x01; Dec 0x00 0x01 0x95 0x01; Dec 0x00 0x01 0x96 0x01; Dec 0x00 0x01 0x97 0x01;
      Dec 0x00 0x01 0x98 0x01; Dec 0x00 0x01 0x9b 0x01; Dec 0x00 0x01 0x9d 0x01; Dec 0x00 0x01 0x9e 0x01;
      Dec 0x00 0x01 0xa5 0x01; Dec 0x00 0x01 0xa6 0x01; Dec 0x00 0x01 0xa8 0x01; Dec 0x00 0x01 0xae 0x01;
      Dec 0x00 0x01 0xaf 0x01; Dec 0x00 0x01 0xb4 0x01; Dec 0x00 0x01 0xb6 0x01; Dec 0x00 0x01 0xb7 0x01 ];
    [ Dec 0x01 0x01 0x93 0x00; Dec 0x16 0x01 0x93 0x01; Dec 0x01 0x01 0x95 0x00; Dec 0x16 0x01 0x95 0x01;
      Dec 0x01 0x01 0x96 0x00; Dec 0x16 0x01 0x96 0x01; Dec 0x01 0x01 0x97 0x00; Dec 0x16 0x01 0x97 0x01;
      Dec 0x01 0x01 0x98 0x00; Dec 0x16 0x01 0x98 0x01; Dec 0x01 0x01 0x9b 0x00; Dec 0x16 0x01 0x9b 0x01;
      Dec 0x01 0x01 0x9d 0x00; Dec 0x16 0x01 0x9d 0x01; Dec 0x01 0x01 0x9e 0x00; Dec 0x16 0x01 0x9e 0x01 ];
    [ Dec 0x02 0x01 0x93 0x00; Dec 0x09 0x01 0x93 0x00; Dec 0x17 0x01 0x93 0x00; Dec 0x28 0x01 0x93 0x01;
      Dec 0x02 0x01 0x95 0x00; Dec 0x09 0x01 0x95 0x00; Dec 0x17 0x01 0x95 0x00; Dec 0x28 0x01 0x95 0x01;
      Dec 0x02 0x01 0x96 0x00; Dec 0x09 0x01 0x96 0x00; Dec 0x17 0x01 0x96 0x00; Dec 0x28 0x01 0x96 0x01;
      Dec 0x02 0x01 0x97 0x00; Dec 0x09 0x01 0x97 0x00; Dec 0x17 0x01 0x97 0x00; Dec 0x28 0x01 0x97 0x01 ];
    [ Dec 0x03 0x01 0x93 0x00; Dec 0x06 0x01 0x93 0x00; Dec 0x0a 0x01 0x93 0x00; Dec 0x0f 0x01 0x93 0x00;
      Dec 0x18 0x01 0x93 0x00; Dec 0x1f 0x01 0x93 0x00; Dec 0x29 0x01 0x93 0x00; Dec 0x38 0x01 0x93 0x01;
      Dec 0x03 0x01 0x95 0x00; Dec 0x06 0x01 0x95 0x00; Dec 0x0a 0x01 0x95 0x00; Dec 0x0f 0x01 0x95 0x00;
      Dec 0x18 0x01 0x95 0x00; Dec 0x1f 0x01 0x95 0x00; Dec 0x29 0x01 0x95 0x00; Dec 0x38 0x01 0x95 0x01 ];
    [ Dec 0x03 0x01 0x96 0x00; Dec 0x06 0x01 0x96 0x00; Dec 0x0a 0x01 0x96 0x00; Dec 0x0f 0x01 0x96 0x00;
      Dec 0x18 0x01 0x96 0x00; Dec 0x1f 0x01 0x96 0x00; Dec 0x29 0x01 0x96 0x00; Dec 0x38 0x01 0x96 0x01;
      Dec 0x03 0x01 0x97 0x00; Dec 0x06 0x01 0x97 0x00; Dec 0x0a 0x01 0x97 0x00; Dec 0x0f 0x01 0x97 0x00;
      Dec 0x18 0x01 0x97 0x00; Dec 0x1f 0x01 0x97 0x00; Dec 0x29 0x01 0x97 0x00; Dec 0x38 0x01 0x97 0x01 ];
    [ Dec 0x02 0x01 0x98 0x00; Dec 0x09 0x01 0x98 0x00; Dec 0x17 0x01 0x98 0x00; Dec 0x28 0x01 0x98 0x01;
      Dec 0x02 0x01 0x9b 0x00; Dec 0x09 0x01 0x9b 0x00; Dec 0x17 0x01 0x9b 0x00; Dec 0x28 0x01 0x9b 0x01;
      Dec 0x02 0x01 0x9d 0x00; Dec 0x09 0x01 0x9d 0x00; Dec 0x17 0x01 0x9d 0x00; Dec 0x28 0x01 0x9d 0x01;
      Dec 0x02 0x01 0x9e 0x00; Dec 0x09 0x01 0x9e 0x00; Dec 0x17 0x01 0x9e 0x00; Dec 0x28 0x01 0x9e 0x01 ];
    [ Dec 0x03 0x01 0x98 0x00; Dec 0x06 0x01 0x98 0x00; Dec 0x0a 0x01 0x98 0x00; Dec 0x0f 0x01 0x98 0x00;
      Dec 0x18 0x01 0x98 0x00; Dec 0x1f 0x01 0x98 0x00; Dec 0x29 0x01 0x98 0x00; Dec 0x38 0x01 0x98 0x01;
      Dec 0x03 0x01 0x9b 0x00; Dec 0x06 0x01 0x9b 0x00; Dec 0x0a 0x01 0x9b 0x00; Dec 0x0f 0x01 0x9b 0x00;
      Dec 0x18 0x01 0x9b 0x00; Dec 0x1f 0x01 0x9b 0x00; Dec 0x29 0x01 0x9b 0x00; Dec 0x38 0x01 0x9b 0x01 ];
    [ Dec 0x03 0x01 0x9d 0x00; Dec 0x06 0x01 0x9d 0x00; Dec 0x0a 0x01 0x9d 0x00; Dec 0x0f 0x01 0x9d 0x00;
      Dec 0x18 0x01 0x9d 0x00; Dec 0x1f 0x01 0x9d 0x00; Dec 0x29 0x01 0x9d 0x00; Dec 0x38 0x01 0x9d 0x01;
      Dec 0x03 0x01 0x9e 0x00; Dec 0x06 0x01 0x9e 0x00; Dec 0x0a 0x01 0x9e 0x00; Dec 0x0f 0x01 0x9e 0x00;
      Dec 0x18 0x01 0x9e 0x00; Dec 0x1f 0x01 0x9e 0x00; Dec 0x29 0x01 0x9e 0x00; Dec 0x38 0x01 0x9e 0x01 ];
    [ Dec 0x01 0x01 0xa5 0x00; Dec 0x16 0x01 0xa5 0x01; Dec 0x01 0x01 0xa6 0x00; Dec 0x16 0x01 0xa6 0x01;
      Dec 0x01 0x01 0xa8 0x00; Dec 0x16 0x01 0xa8 0x01; Dec 0x01 0x01 0xae 0x00; Dec 0x16 0x01 0xae 0x01;
      Dec 0x01 0x01 0xaf 0x00; Dec 0x16 0x01 0xaf 0x01; Dec 0x01 0x01 0xb4 0x00; Dec 0x16 0x01 0xb4 0x01;
      Dec 0x01 0x01 0xb6 0x00; Dec 0x16 0x01 0xb6 0x01; Dec 0x01 0x01 0xb7 0x00; Dec 0x16 0x01 0xb7 0x01 ];
    [ Dec 0x02 0x01 0xa5 0x00; Dec 0x09 0x01 0xa5 0x00; Dec 0x17 0x01 0xa5 0x00; Dec 0x28 0x01 0xa5 0x01;
      Dec 0x02 0x01 0xa6 0x00; Dec 0x09 0x01 0xa6 0x00; Dec 0x17 0x01 0xa6 0x00; Dec 0x28 0x01 0xa6 0x01;
      Dec 0x02 0x01 0xa8 0x00; Dec 0x09 0x01 0xa8 0x00; Dec 0x17 0x01 0xa8 0x00; Dec 0x28 0x01 0xa8 0x01;
      Dec 0x02 0x01 0xae 0x00; Dec 0x09 0x01 0xae 0x00; Dec 0x17 0x01 0xae 0x00; Dec 0x28 0x01 0xae 0x01 ];
    [ Dec 0x03 0x01 0xa5 0x00; Dec 0x06 0x01 0xa5 0x00; Dec 0x0a 0x01 0xa5 0x00; Dec 0x0f 0x01 0xa5 0x00;
      Dec 0x18 0x01 0xa5 0x00; Dec 0x1f 0x01 0xa5 0x00; Dec 0x29 0x01 0xa5 0x00; Dec 0x38 0x01 0xa5 0x01;
      Dec 0x03 0x01 0xa6 0x00; Dec 0x06 0x01 0xa6 0x00; Dec 0x0a 0x01 0xa6 0x00; Dec 0x0f 0x01 0xa6 0x00;
      Dec 0x18 0x01 0xa6 0x00; Dec 0x1f 0x01 0xa6 0x00; Dec 0x29 0x01 0xa6 0x00; Dec 0x38 0x01 0xa6 0x01 ];
    [ Dec 0x03 0x01 0xa8 0x00; Dec 0x06 0x01 0xa8 0x00; Dec 0x0a 0x01 0xa8 0x00; Dec 0x0f 0x01 0xa8 0x00;
      Dec 0x18 0x01 0xa8 0x00; Dec 0x1f 0x01 0xa8 0x00; Dec 0x29 0x01 0xa8 0x00; Dec 0x38 0x01 0xa8 0x01;
      Dec 0x03 0x01 0xae 0x00; Dec 0x06 0x01 0xae 0x00; Dec 0x0a 0x01 0xae 0x00; Dec 0x0f 0x01 0xae 0x00;
      Dec 0x18 0x01 0xae 0x00; Dec 0x1f 0x01 0xae 0x00; Dec 0x29 0x01 0xae 0x00; Dec 0x38 0x01 0xae 0x01 ];
    [ Dec 0x02 0x01 0xaf 0x00; Dec 0x09 0x01 0xaf 0x00; Dec 0x17 0x01 0xaf 0x00; Dec 0x28 0x01 0xaf 0x01;
      Dec 0x02 0x01 0xb4 0x00; Dec 0x09 0x01 0xb4 0x00; Dec 0x17 0x01 0xb4 0x00; Dec 0x28 0x01 0xb4 0x01;
      Dec 0x02 0x01 0xb6 0x00; Dec 0x09 0x01 0xb6 0x00; Dec 0x17 0x01 0xb6 0x00; Dec 0x28 0x01 0xb6 0x01;
      Dec 0x02 0x01 0xb7 0x00; Dec 0x09 0x01 0xb7 0x00; Dec 0x17 0x01 0xb7 0x00; Dec 0x28 0x01 0xb7 0x01 ];
    [ Dec 0x03 0x01 0xaf 0x00; Dec 0x06 0x01 0xaf 0x00; Dec 0x0a 0x01 0xaf 0x00; Dec 0x0f 0x01 0xaf 0x00;
      Dec 0x18 0x01 0xaf 0x00; Dec 0x1f 0x01 0xaf 0x00; Dec 0x29 0x01 0xaf 0x00; Dec 0x38 0x01 0xaf 0x01;
      Dec 0x03 0x01 0xb4 0x00; Dec 0x06 0x01 0xb4 0x00; Dec 0x0a 0x01 0xb4 0x00; Dec 0x0f 0x01 0xb4 0x00;
      Dec 0x18 0x01 0xb4 0x00; Dec 0x1f 0x01 0xb4 0x00; Dec 0x29 0x01 0xb4 0x00; Dec 0x38 0x01 0xb4 0x01 ] ].

(** States 168 to 181. *)
Definition huff_decode_codes_168 : list (list ngx_http_huff_decode_code_t) :=
  [ [ Dec 0x03 0x01 0xb6 0x00; Dec 0x06 0x01 0xb6 0x00; Dec 0x0a 0x01 0xb6 0x00; Dec 0x0f 0x01 0xb6 0x00;
      Dec 0x18 0x01 0xb6 0x00; Dec 0x1f 0x01 0xb6 0x00; Dec 0x29 0x01 0xb6 0x00; Dec 0x38 0x01 0xb6 0x01;
      Dec 0x03 0x01 0xb7 0x00; Dec 0x06 0x01 0xb7 0x00; Dec 0x0a 0x01 0xb7 0x00; Dec 0x0f 0x01 0xb7 0x00;
      Dec 0x18 0x01 0xb7 0x00; Dec 0x1f 0x01 0xb7 0x00; Dec 0x29 0x01 0xb7 0x00; Dec 0x38 0x01 0xb7 0x01 ];
    [ Dec 0x00 0x01 0xbc 0x01; Dec 0x00 0x01 0xbf 0x01; Dec 0x00 0x01 0xc5 0x01; Dec 0x00 0x01 0xe7 0x01;
      Dec 0x00 0x01 0xef 0x01; Dec 0xb0 0x00 0x00 0x00; Dec 0xb2 0x00 0x00 0x00; Dec 0xb3 0x00 0x00 0x00;
      Dec 0xb7 0x00 0x00 0x00; Dec 0xb8 0x00 0x00 0x00; Dec 0xba 0x00 0x00 0x00; Dec 0xbb 0x00 0x00 0x00;
      Dec 0xc0 0x00 0x00 0x00; Dec 0xc7 0x00 0x00 0x00; Dec 0xd0 0x00 0x00 0x00; Dec 0xdf 0x00 0x00 0x01 ];
    [ Dec 0x01 0x01 0xbc 0x00; Dec 0x16 0x01 0xbc 0x01; Dec 0x01 0x01 0xbf 0x00; Dec 0x16 0x01 0xbf 0x01;
      Dec 0x01 0x01 0xc5 0x00; Dec 0x16 0x01 0xc5 0x01; Dec 0x01 0x01 0xe7 0x00; Dec 0x16 0x01 0xe7 0x01;
      Dec 0x01 0x01 0xef 0x00; Dec 0x16 0x01 0xef 0x01; Dec 0x00 0x01 0x09 0x01; Dec 0x00 0x01 0x8e 0x01;
      Dec 0x00 0x01 0x90 0x01; Dec 0x00 0x01 0x91 0x01; Dec 0x00 0x01 0x94 0x01; Dec 0x00 0x01 0x9f 0x01 ];
    [ Dec 0x02 0x01 0xbc 0x00; Dec 0x09 0x01 0xbc 0x00; Dec 0x17 0x01 0xbc 0x00; Dec 0x28 0x01 0xbc 0x01;
      Dec 0x02 0x01 0xbf 0x00; Dec 0x09 0x01 0xbf 0x00; Dec 0x17 0x01 0xbf 0x00; Dec 0x28 0x01 0xbf 0x01;
      Dec 0x02 0x01 0xc5 0x00; Dec 0x09 0x01 0xc5 0x00; Dec 0x17 0x01 0xc5 0x00; Dec 0x28 0x01 0xc5 0x01;
      Dec 0x02 0x01 0xe7 0x00; Dec 0x09 0x01 0xe7 0x00; Dec 0x17 0x01 0xe7 0x00; Dec 0x28 0x01 0xe7 0x01 ];
    [ Dec 0x03 0x01 0xbc 0x00; Dec 0x06 0x01 0xbc 0x00; Dec 0x0a 0x01 0xbc 0x00; Dec 0x0f 0x01 0xbc 0x00;
      Dec 0x18 0x01 0xbc 0x00; Dec 0x1f 0x01 0xbc 0x00; Dec 0x29 0x01 0xbc 0x00; Dec 0x38 0x01 0xbc 0x01;
      Dec 0x03 0x01 0xbf 0x00; Dec 0x06 0x01 0xbf 0x00; Dec 0x0a 0x01 0xbf 0x00; Dec 0x0f 0x01 0xbf 0x00;
      Dec 0x18 0x01 0xbf 0x00; Dec 0x1f 0x01 0xbf 0x00; Dec 0x29 0x01 0xbf 0x00; Dec 0x38 0x01 0xbf 0x01 ];
    [ Dec 0x03 0x01 0xc5 0x00; Dec 0x06 0x01 0xc5 0x00; Dec 0x0a 0x01 0xc5 0x00; Dec 0x0f 0x01 0xc5 0x00;
      Dec 0x18 0x01 0xc5 0x00; Dec 0x1f 0x01 0xc5 0x00; Dec 0x29 0x01 0xc5 0x00; Dec 0x38 0x01 0xc5 0x01;
      Dec 0x03 0x01 0xe7 0x00; Dec 0x06 0x01 0xe7 0x00; Dec 0x0a 0x01 0xe7 0x00; Dec 0x0f 0x01 0xe7 0x00;
      Dec 0x18 0x01 0xe7 0x00; Dec 0x1f 0x01 0xe7 0x00; Dec 0x29 0x01 0xe7 0x00; Dec 0x38 0x01 0xe7 0x01 ];
    [ Dec 0x02 0x01 0xef 0x00; Dec 0x09 0x01 0xef 0x00; Dec 0x17 0x01 0xef 0x00; Dec 0x28 0x01 0xef 0x01;
      Dec 0x01 0x01 0x09 0x00; Dec 0x16 0x01 0x09 0x01; Dec 0x01 0x01 0x8e 0x00; Dec 0x16 0x01 0x8e 0x01;
      Dec 0x01 0x01 0x90 0x00; Dec 0x16 0x01 0x90 0x01; Dec 0x01 0x01 0x91 0x00; Dec 0x16 0x01 0x91 0x01;
      Dec 0x01 0x01 0x94 0x00; Dec 0x16 0x01 0x94 0x01; Dec 0x01 0x01 0x9f 0x00; Dec 0x16 0x01 0x9f 0x01 ];
    [ Dec 0x03 0x01 0xef 0x00; Dec 0x06 0x01 0xef 0x00; Dec 0x0a 0x01 0xef 0x00; Dec 0x0f 0x01 0xef 0x00;
      Dec 0x18 0x01 0xef 0x00; Dec 0x1f 0x01 0xef 0x00; Dec 0x29 0x01 0xef 0x00; Dec 0x38 0x01 0xef 0x01;
      Dec 0x02 0x01 0x09 0x00; Dec 0x09 0x01 0x09 0x00; Dec 0x17 0x01 0x09 0x00; Dec 0x28 0x01 0x09 0x01;
      Dec 0x02 0x01 0x8e 0x00; Dec 0x09 0x01 0x8e 0x00; Dec 0x17 0x01 0x8e 0x00; Dec 0x28 0x01 0x8e 0x01 ];
    [ Dec 0x03 0x01 0x09 0x00; Dec 0x06 0x01 0x09 0x00; Dec 0x0a 0x01 0x09 0x00; Dec 0x0f 0x01 0x09 0x00;
      Dec 0x18 0x01 0x09 0x00; Dec 0x1f 0x01 0x09 0x00; Dec 0x29 0x01 0x09 0x00; Dec 0x38 0x01 0x09 0x01;
      Dec 0x03 0x01 0x8e 0x00; Dec 0x06 0x01 0x8e 0x00; Dec 0x0a 0x01 0x8e 0x00; Dec 0x0f 0x01 0x8e 0x00;
      Dec 0x18 0x01 0x8e 0x00; Dec 0x1f 0x01 0x8e 0x00; Dec 0x29 0x01 0x8e 0x00; Dec 0x38 0x01 0x8e 0x01 ];
    [ Dec 0x02 0x01 0x90 0x00; Dec 0x09 0x01 0x90 0x00; Dec 0x17 0x01 0x90 0x00; Dec 0x28 0x01 0x90 0x01;
      Dec 0x02 0x01 0x91 0x00; Dec 0x09 0x01 0x91 0x00; Dec 0x17 0x01 0x91 0x00; Dec 0x28 0x01 0x91 0x01;
      Dec 0x02 0x01 0x94 0x00; Dec 0x09 0x01 0x94 0x00; Dec 0x17 0x01 0x94 0x00; Dec 0x28 0x01 0x94 0x01;
      Dec 0x02 0x01 0x9f 0x00; Dec 0x09 0x01 0x9f 0x00; Dec 0x17 0x01 0x9f 0x00; Dec 0x28 0x01 0x9f 0x01 ];
    [ Dec 0x03 0x01 0x90 0x00; Dec 0x06 0x01 0x90 0x00; Dec 0x0a 0x01 0x90 0x00; Dec 0x0f 0x01 0x90 0x00;
      Dec 0x18 0x01 0x90 0x00; Dec 0x1f 0x01 0x90 0x00; Dec 0x29 0x01 0x90 0x00; Dec 0x38 0x01 0x90 0x01;
      Dec 0x03 0x01 0x91 0x00; Dec 0x06 0x01 0x91 0x00; Dec 0x0a 0x01 0x91 0x00; Dec 0x0f 0x01 0x91 0x00;
      Dec 0x18 0x01 0x91 0x00; Dec 0x1f 0x01 0x91 0x00; Dec 0x29 0x01 0x91 0x00; Dec 0x38 0x01 0x91 0x01 ];
    [ Dec 0x03 0x01 0x94 0x00; Dec 0x06 0x01 0x94 0x00; Dec 0x0a 0x01 0x94 0x00; Dec 0x0f 0x01 0x94 0x00;
      Dec 0x18 0x01 0x94 0x00; Dec 0x1f 0x01 0x94 0x00; Dec 0x29 0x01 0x94 0x00; Dec 0x38 0x01 0x94 0x01;
      Dec 0x03 0x01 0x9f 0x00; Dec 0x06 0x01 0x9f 0x00; Dec 0x0a 0x01 0x9f 0x00; Dec 0x0f 0x01 0x9f 0x00;
      Dec 0x18 0x01 0x9f 0x00; Dec 0x1f 0x01 0x9f 0x00; Dec 0x29 0x01 0x9f 0x00; Dec 0x38 0x01 0x9f 0x01 ];
    [ Dec 0x00 0x01 0xab 0x01; Dec 0x00 0x01 0xce 0x01; Dec 0x00 0x01 0xd7 0x01; Dec 0x00 0x01 0xe1 0x01;
      Dec 0x00 0x01 0xec 0x01; Dec 0x00 0x01 0xed 0x01; Dec 0xbc 0x00 0x00 0x00; Dec 0xbd 0x00 0x00 0x00;
      Dec 0xc1 0x00 0x00 0x00; Dec 0xc4 0x00 0x00 0x00; Dec 0xc8 0x00 0x00 0x00; Dec 0xcb 0x00 0x00 0x00;
      Dec 0xd1 0x00 0x00 0x00; Dec 0xd8 0x00 0x00 0x00; Dec 0xe0 0x00 0x00 0x00; Dec 0xee 0x00 0x00 0x01 ];
    [ Dec 0x01 0x01 0xab 0x00; Dec 0x16 0x01 0xab 0x01; Dec 0x01 0x01 0xce 0x00; Dec 0x16 0x01 0xce 0x01;
      Dec 0x01 0x01 0xd7 0x00; Dec 0x16 0x01 0xd7 0x01; Dec 0x01 0x01 0xe1 0x00; Dec 0x16 0x01 0xe1 0x01;
      Dec 0x01 0x01 0xec 0x00; Dec 0x16 0x01 0xec 0x01; Dec 0x01 0x01 0xed 0x00; Dec 0x16 0x01 0xed 0x01;
      Dec 0x00 0x01 0xc7 0x01; Dec 0x00 0x01 0xcf 0x01; Dec 0x00 0x01 0xea 0x01; Dec 0x00 0x01 0xeb 0x01 ] ].

(** States 182 to 195. *)
Definition huff_decode_codes_182 : list (list ngx_http_huff_decode_code_t) :=
  [ [ Dec 0x02 0x01 0xab 0x00; Dec 0x09 0x01 0xab 0x00; Dec 0x17 0x01 0xab 0x00; Dec 0x28 0x01 0xab 0x01;
      Dec 0x02 0x01 0xce 0x00; Dec 0x09 0x01 0xce 0x00; Dec 0x17 0x01 0xce 0x00; Dec 0x28 0x01 0xce 0x01;
      Dec 0x02 0x01 0xd7 0x00; Dec 0x09 0x01 0xd7 0x00; Dec 0x17 0x01 0xd7 0x00; Dec 0x28 0x01 0xd7 0x01;
      Dec 0x02 0x01 0xe1 0x00; Dec 0x09 0x01 0xe1 0x00; Dec 0x17 0x01 0xe1 0x00; Dec 0x28 0x01 0xe1 0x01 ];
    [ Dec 0x03 0x01 0xab 0x00; Dec 0x06 0x01 0xab 0x00; Dec 0x0a 0x01 0xab 0x00; Dec 0x0f 0x01 0xab 0x00;
      Dec 0x18 0x01 0xab 0x00; Dec 0x1f 0x01 0xab 0x00; Dec 0x29 0x01 0xab 0x00; Dec 0x38 0x01 0xab 0x01;
      Dec 0x03 0x01 0xce 0x00; Dec 0x06 0x01 0xce 0x00; Dec 0x0a 0x01 0xce 0x00; Dec 0x0f 0x01 0xce 0x00;
      Dec 0x18 0x01 0xce 0x00; Dec 0x1f 0x01 0xce 0x00; Dec 0x29 0x01 0xce 0x00; Dec 0x38 0x01 0xce 0x01 ];
    [ Dec 0x03 0x01 0xd7 0x00; Dec 0x06 0x01 0xd7 0x00; Dec 0x0a 0x01 0xd7 0x00; Dec 0x0f 0x01 0xd7 0x00;
      Dec 0x18 0x01 0xd7 0x00; Dec 0x1f 0x01 0xd7 0x00; Dec 0x29 0x01 0xd7 0x00; Dec 0x38 0x01 0xd7 0x01;
      Dec 0x03 0x01 0xe1 0x00; Dec 0x06 0x01 0xe1 0x00; Dec 0x0a 0x01 0xe1 0x00; Dec 0x0f 0x01 0xe1 0x00;
      Dec 0x18 0x01 0xe1 0x00; Dec 0x1f 0x01 0xe1 0x00; Dec 0x29 0x01 0xe1 0x00; Dec 0x38 0x01 0xe1 0x01 ];
    [ Dec 0x02 0x01 0xec 0x00; Dec 0x09 0x01 0xec 0x00; Dec 0x17 0x01 0xec 0x00; Dec 0x28 0x01 0xec 0x01;
      Dec 0x02 0x01 0xed 0x00; Dec 0x09 0x01 0xed 0x00; Dec 0x17 0x01 0xed 0x00; Dec 0x28 0x01 0xed 0x01;
      Dec 0x01 0x01 0xc7 0x00; Dec 0x16 0x01 0xc7 0x01; Dec 0x01 0x01 0xcf 0x00; Dec 0x16 0x01 0xcf 0x01;
      Dec 0x01 0x01 0xea 0x00; Dec 0x16 0x01 0xea 0x01; Dec 0x01 0x01 0xeb 0x00; Dec 0x16 0x01 0xeb 0x01 ];
    [ Dec 0x03 0x01 0xec 0x00; Dec 0x06 0x01 0xec 0x00; Dec 0x0a 0x01 0xec 0x00; Dec 0x0f 0x01 0xec 0x00;
      Dec 0x18 0x01 0xec 0x00; Dec 0x1f 0x01 0xec 0x00; Dec 0x29 0x01 0xec 0x00; Dec 0x38 0x01 0xec 0x01;
      Dec 0x03 0x01 0xed 0x00; Dec 0x06 0x01 0xed 0x00; Dec 0x0a 0x01 0xed 0x00; Dec 0x0f 0x01 0xed 0x00;
      Dec 0x18 0x01 0xed 0x00; Dec 0x1f 0x01 0xed 0x00; Dec 0x29 0x01 0xed 0x00; Dec 0x38 0x01 0xed 0x01 ];
    [ Dec 0x02 0x01 0xc7 0x00; Dec 0x09 0x01 0xc7 0x00; Dec 0x17 0x01 0xc7 0x00; Dec 0x28 0x01 0xc7 0x01;
      Dec 0x02 0x01 0xcf 0x00; Dec 0x09 0x01 0xcf 0x00; Dec 0x17 0x01 0xcf 0x00; Dec 0x28 0x01 0xcf 0x01;
      Dec 0x02 0x01 0xea 0x00; Dec 0x09 0x01 0xea 0x00; Dec 0x17 0x01 0xea 0x00; Dec 0x28 0x01 0xea 0x01;
      Dec 0x02 0x01 0xeb 0x00; Dec 0x09 0x01 0xeb 0x00; Dec 0x17 0x01 0xeb 0x00; Dec 0x28 0x01 0xeb 0x01 ];
    [ Dec 0x03 0x01 0xc7 0x00; Dec 0x06 0x01 0xc7 0x00; Dec 0x0a 0x01 0xc7 0x00; Dec 0x0f 0x01 0xc7 0x00;
      Dec 0x18 0x01 0xc7 0x00; Dec 0x1f 0x01 0xc7 0x00; Dec 0x29 0x01 0xc7 0x00; Dec 0x38 0x01 0xc7 0x01;
      Dec 0x03 0x01 0xcf 0x00; Dec 0x06 0x01 0xcf 0x00; Dec 0x0a 0x01 0xcf 0x00; Dec 0x0f 0x01 0xcf 0x00;
      Dec 0x18 0x01 0xcf 0x00; Dec 0x1f 0x01 0xcf 0x00; Dec 0x29 0x01 0xcf 0x00; Dec 0x38 0x01 0xcf 0x01 ];
    [ Dec 0x03 0x01 0xea 0x00; Dec 0x06 0x01 0xea 0x00; Dec 0x0a 0x01 0xea 0x00; Dec 0x0f 0x01 0xea 0x00;
      Dec 0x18 0x01 0xea 0x00; Dec 0x1f 0x01 0xea 0x00; Dec 0x29 0x01 0xea 0x00; Dec 0x38 0x01 0xea 0x01;
      Dec 0x03 0x01 0xeb 0x00; Dec 0x06 0x01 0xeb 0x00; Dec 0x0a 0x01 0xeb 0x00; Dec 0x0f 0x01 0xeb 0x00;
      Dec 0x18 0x01 0xeb 0x00; Dec 0x1f 0x01 0xeb 0x00; Dec 0x29 0x01 0xeb 0x00; Dec 0x38 0x01 0xeb 0x01 ];
    [ Dec 0xc2 0x00 0x00 0x00; Dec 0xc3 0x00 0x00 0x00; Dec 0xc5 0x00 0x00 0x00; Dec 0xc6 0x00 0x00 0x00;
      Dec 0xc9 0x00 0x00 0x00; Dec 0xca 0x00 0x00 0x00; Dec 0xcc 0x00 0x00 0x00; Dec 0xcd 0x00 0x00 0x00;
      Dec 0xd2 0x00 0x00 0x00; Dec 0xd5 0x00 0x00 0x00; Dec 0xd9 0x00 0x00 0x00; Dec 0xdc 0x00 0x00 0x00;
      Dec 0xe1 0x00 0x00 0x00; Dec 0xe7 0x00 0x00 0x00; Dec 0xef 0x00 0x00 0x00; Dec 0xf6 0x00 0x00 0x01 ];
    [ Dec 0x00 0x01 0xc0 0x01; Dec 0x00 0x01 0xc1 0x01; Dec 0x00 0x01 0xc8 0x01; Dec 0x00 0x01 0xc9 0x01;
      Dec 0x00 0x01 0xca 0x01; Dec 0x00 0x01 0xcd 0x01; Dec 0x00 0x01 0xd2 0x01; Dec 0x00 0x01 0xd5 0x01;
      Dec 0x00 0x01 0xda 0x01; Dec 0x00 0x01 0xdb 0x01; Dec 0x00 0x01 0xee 0x01; Dec 0x00 0x01 0xf0 0x01;
      Dec 0x00 0x01 0xf2 0x01; Dec 0x00 0x01 0xf3 0x01; Dec 0x00 0x01 0xff 0x01; Dec 0xce 0x00 0x00 0x00 ];
    [ Dec 0x01 0x01 0xc0 0x00; Dec 0x16 0x01 0xc0 0x01; Dec 0x01 0x01 0xc1 0x00; Dec 0x16 0x01 0xc1 0x01;
      Dec 0x01 0x01 0xc8 0x00; Dec 0x16 0x01 0xc8 0x01; Dec 0x01 0x01 0xc9 0x00; Dec 0x16 0x01 0xc9 0x01;
      Dec 0x01 0x01 0xca 0x00; Dec 0x16 0x01 0xca 0x01; Dec 0x01 0x01 0xcd 0x00; Dec 0x16 0x01 0xcd 0x01;
      Dec 0x01 0x01 0xd2 0x00; Dec 0x16 0x01 0xd2 0x01; Dec 0x01 0x01 0xd5 0x00; Dec 0x16 0x01 0xd5 0x01 ];
    [ Dec 0x02 0x01 0xc0 0x00; Dec 0x09 0x01 0xc0 0x00; Dec 0x17 0x01 0xc0 0x00; Dec 0x28 0x01 0xc0 0x01;
      Dec 0x02 0x01 0xc1 0x00; Dec 0x09 0x01 0xc1 0x00; Dec 0x17 0x01 0xc1 0x00; Dec 0x28 0x01 0xc1 0x01;
      Dec 0x02 0x01 0xc8 0x00; Dec 0x09 0x01 0xc8 0x00; Dec 0x17 0x01 0xc8 0x00; Dec 0x28 0x01 0xc8 0x01;
      Dec 0x02 0x01 0xc9 0x00; Dec 0x09 0x01 0xc9 0x00; Dec 0x17 0x01 0xc9 0x00; Dec 0x28 0x01 0xc9 0x01 ];
    [ Dec 0x03 0x01 0xc0 0x00; Dec 0x06 0x01 0xc0 0x00; Dec 0x0a 0x01 0xc0 0x00; Dec 0x0f 0x01 0xc0 0x00;
      Dec 0x18 0x01 0xc0 0x00; Dec 0x1f 0x01 0xc0 0x00; Dec 0x29 0x01 0xc0 0x00; Dec 0x38 0x01 0xc0 0x01;
      Dec 0x03 0x01 0xc1 0x00; Dec 0x06 0x01 0xc1 0x00; Dec 0x0a 0x01 0xc1 0x00; Dec 0x0f 0x01 0xc1 0x00;
      Dec 0x18 0x01 0xc1 0x00; Dec 0x1f 0x01 0xc1 0x00; Dec 0x29 0x01 0xc1 0x00; Dec 0x38 0x01 0xc1 0x01 ];
    [ Dec 0x03 0x01 0xc8 0x00; Dec 0x06 0x01 0xc8 0x00; Dec 0x0a 0x01 0xc8 0x00; Dec 0x0f 0x01 0xc8 0x00;
      Dec 0x18 0x01 0xc8 0x00; Dec 0x1f 0x01 0xc8 0x00; Dec 0x29 0x01 0xc8 0x00; Dec 0x38 0x01 0xc8 0x01;
      Dec 0x03 0x01 0xc9 0x00; Dec 0x06 0x01 0xc9 0x00; Dec 0x0a 0x01 0xc9 0x00; Dec 0x0f 0x01 0xc9 0x00;
      Dec 0x18 0x01 0xc9 0x00; Dec 0x1f 0x01 0xc9 0x00; Dec 0x29 0x01 0xc9 0x00; Dec 0x38 0x01 0xc9 0x01 ] ].

(** States 196 to 209. *)
Definition huff_decode_codes_196 : list (list ngx_http_huff_decode_code_t) :=
  [ [ Dec 0x02 0x01 0xca 0x00; Dec 0x09 0x01 0xca 0x00; Dec 0x17 0x01 0xca 0x00; Dec 0x28 0x01 0xca 0x01;
      Dec 0x02 0x01 0xcd 0x00; Dec 0x09 0x01 0xcd 0x00; Dec 0x17 0x01 0xcd 0x00; Dec 0x28 0x01 0xcd 0x01;
      Dec 0x02 0x01 0xd2 0x00; Dec 0x09 0x01 0xd2 0x00; Dec 0x17 0x01 0xd2 0x00; Dec 0x28 0x01 0xd2 0x01;
      Dec 0x02 0x01 0xd5 0x00; Dec 0x09 0x01 0xd5 0x00; Dec 0x17 0x01 0xd5 0x00; Dec 0x28 0x01 0xd5 0x01 ];
    [ Dec 0x03 0x01 0xca 0x00; Dec 0x06 0x01 0xca 0x00; Dec 0x0a 0x01 0xca 0x00; Dec 0x0f 0x01 0xca 0x00;
      Dec 0x18 0x01 0xca 0x00; Dec 0x1f 0x01 0xca 0x00; Dec 0x29 0x01 0xca 0x00; Dec 0x38 0x01 0xca 0x01;
      Dec 0x03 0x01 0xcd 0x00; Dec 0x06 0x01 0xcd 0x00; Dec 0x0a 0x01 0xcd 0x00; Dec 0x0f 0x01 0xcd 0x00;
      Dec 0x18 0x01 0xcd 0x00; Dec 0x1f 0x01 0xcd 0x00; Dec 0x29 0x01 0xcd 0x00; Dec 0x38 0x01 0xcd 0x01 ];
    [ Dec 0x03 0x01 0xd2 0x00; Dec 0x06 0x01 0xd2 0x00; Dec 0x0a 0x01 0xd2 0x00; Dec 0x0f 0x01 0xd2 0x00;
      Dec 0x18 0x01 0xd2 0x00; Dec 0x1f 0x01 0xd2 0x00; Dec 0x29 0x01 0xd2 0x00; Dec 0x38 0x01 0xd2 0x01;
      Dec 0x03 0x01 0xd5 0x00; Dec 0x06 0x01 0xd5 0x00; Dec 0x0a 0x01 0xd5 0x00; Dec 0x0f 0x01 0xd5 0x00;
      Dec 0x18 0x01 0xd5 0x00; Dec 0x1f 0x01 0xd5 0x00; Dec 0x29 0x01 0xd5 0x00; Dec 0x38 0x01 0xd5 0x01 ];
    [ Dec 0x01 0x01 0xda 0x00; Dec 0x16 0x01 0xda 0x01; Dec 0x01 0x01 0xdb 0x00; Dec 0x16 0x01 0xdb 0x01;
      Dec 0x01 0x01 0xee 0x00; Dec 0x16 0x01 0xee 0x01; Dec 0x01 0x01 0xf0 0x00; Dec 0x16 0x01 0xf0 0x01;
      Dec 0x01 0x01 0xf2 0x00; Dec 0x16 0x01 0xf2 0x01; Dec 0x01 0x01 0xf3 0x00; Dec 0x16 0x01 0xf3 0x01;
      Dec 0x01 0x01 0xff 0x00; Dec 0x16 0x01 0xff 0x01; Dec 0x00 0x01 0xcb 0x01; Dec 0x00 0x01 0xcc 0x01 ];
    [ Dec 0x02 0x01 0xda 0x00; Dec 0x09 0x01 0xda 0x00; Dec 0x17 0x01 0xda 0x00; Dec 0x28 0x01 0xda 0x01;
      Dec 0x02 0x01 0xdb 0x00; Dec 0x09 0x01 0xdb 0x00; Dec 0x17 0x01 0xdb 0x00; Dec 0x28 0x01 0xdb 0x01;
      Dec 0x02 0x01 0xee 0x00; Dec 0x09 0x01 0xee 0x00; Dec 0x17 0x01 0xee 0x00; Dec 0x28 0x01 0xee 0x01;
      Dec 0x02 0x01 0xf0 0x00; Dec 0x09 0x01 0xf0 0x00; Dec 0x17 0x01 0xf0 0x00; Dec 0x28 0x01 0xf0 0x01 ];
    [ Dec 0x03 0x01 0xda 0x00; Dec 0x06 0x01 0xda 0x00; Dec 0x0a 0x01 0xda 0x00; Dec 0x0f 0x01 0xda 0x00;
      Dec 0x18 0x01 0xda 0x00; Dec 0x1f 0x01 0xda 0x00; Dec 0x29 0x01 0xda 0x00; Dec 0x38 0x01 0xda 0x01;
      Dec 0x03 0x01 0xdb 0x00; Dec 0x06 0x01 0xdb 0x00; Dec 0x0a 0x01 0xdb 0x00; Dec 0x0f 0x01 0xdb 0x00;
      Dec 0x18 0x01 0xdb 0x00; Dec 0x1f 0x01 0xdb 0x00; Dec 0x29 0x01 0xdb 0x00; Dec 0x38 0x01 0xdb 0x01 ];
    [ Dec 0x03 0x01 0xee 0x00; Dec 0x06 0x01 0xee 0x00; Dec 0x0a 0x01 0xee 0x00; Dec 0x0f 0x01 0xee 0x00;
      Dec 0x18 0x01 0xee 0x00; Dec 0x1f 0x01 0xee 0x00; Dec 0x29 0x01 0xee 0x00; Dec 0x38 0x01 0xee 0x01;
      Dec 0x03 0x01 0xf0 0x00; Dec 0x06 0x01 0xf0 0x00; Dec 0x0a 0x01 0xf0 0x00; Dec 0x0f 0x01 0xf0 0x00;
      Dec 0x18 0x01 0xf0 0x00; Dec 0x1f 0x01 0xf0 0x00; Dec 0x29 0x01 0xf0 0x00; Dec 0x38 0x01 0xf0 0x01 ];
    [ Dec 0x02 0x01 0xf2 0x00; Dec 0x09 0x01 0xf2 0x00; Dec 0x17 0x01 0xf2 0x00; Dec 0x28 0x01 0xf2 0x01;
      Dec 0x02 0x01 0xf3 0x00; Dec 0x09 0x01 0xf3 0x00; Dec 0x17 0x01 0xf3 0x00; Dec 0x28 0x01 0xf3 0x01;
      Dec 0x02 0x01 0xff 0x00; Dec 0x09 0x01 0xff 0x00; Dec 0x17 0x01 0xff 0x00; Dec 0x28 0x01 0xff 0x01;
      Dec 0x01 0x01 0xcb 0x00; Dec 0x16 0x01 0xcb 0x01; Dec 0x01 0x01 0xcc 0x00; Dec 0x16 0x01 0xcc 0x01 ];
    [ Dec 0x03 0x01 0xf2 0x00; Dec 0x06 0x01 0xf2 0x00; Dec 0x0a 0x01 0xf2 0x00; Dec 0x0f 0x01 0xf2 0x00;
      Dec 0x18 0x01 0xf2 0x00; Dec 0x1f 0x01 0xf2 0x00; Dec 0x29 0x01 0xf2 0x00; Dec 0x38 0x01 0xf2 0x01;
      Dec 0x03 0x01 0xf3 0x00; Dec 0x06 0x01 0xf3 0x00; Dec 0x0a 0x01 0xf3 0x00; Dec 0x0f 0x01 0xf3 0x00;
      Dec 0x18 0x01 0xf3 0x00; Dec 0x1f 0x01 0xf3 0x00; Dec 0x29 0x01 0xf3 0x00; Dec 0x38 0x01 0xf3 0x01 ];
    [ Dec 0x03 0x01 0xff 0x00; Dec 0x06 0x01 0xff 0x00; Dec 0x0a 0x01 0xff 0x00; Dec 0x0f 0x01 0xff 0x00;
      Dec 0x18 0x01 0xff 0x00; Dec 0x1f 0x01 0xff 0x00; Dec 0x29 0x01 0xff 0x00; Dec 0x38 0x01 0xff 0x01;
      Dec 0x02 0x01 0xcb 0x00; Dec 0x09 0x01 0xcb 0x00; Dec 0x17 0x01 0xcb 0x00; Dec 0x28 0x01 0xcb 0x01;
      Dec 0x02 0x01 0xcc 0x00; Dec 0x09 0x01 0xcc 0x00; Dec 0x17 0x01 0xcc 0x00; Dec 0x28 0x01 0xcc 0x01 ];
    [ Dec 0x03 0x01 0xcb 0x00; Dec 0x06 0x01 0xcb 0x00; Dec 0x0a 0x01 0xcb 0x00; Dec 0x0f 0x01 0xcb 0x00;
      Dec 0x18 0x01 0xcb 0x00; Dec 0x1f 0x01 0xcb 0x00; Dec 0x29 0x01 0xcb 0x00; Dec 0x38 0x01 0xcb 0x01;
      Dec 0x03 0x01 0xcc 0x00; Dec 0x06 0x01 0xcc 0x00; Dec 0x0a 0x01 0xcc 0x00; Dec 0x0f 0x01 0xcc 0x00;
      Dec 0x18 0x01 0xcc 0x00; Dec 0x1f 0x01 0xcc 0x00; Dec 0x29 0x01 0xcc 0x00; Dec 0x38 0x01 0xcc 0x01 ];
    [ Dec 0xd3 0x00 0x00 0x00; Dec 0xd4 0x00 0x00 0x00; Dec 0xd6 0x00 0x00 0x00; Dec 0xd7 0x00 0x00 0x00;
      Dec 0xda 0x00 0x00 0x00; Dec 0xdb 0x00 0x00 0x00; Dec 0xdd 0x00 0x00 0x00; Dec 0xde 0x00 0x00 0x00;
      Dec 0xe2 0x00 0x00 0x00; Dec 0xe4 0x00 0x00 0x00; Dec 0xe8 0x00 0x00 0x00; Dec 0xeb 0x00 0x00 0x00;
      Dec 0xf0 0x00 0x00 0x00; Dec 0xf3 0x00 0x00 0x00; Dec 0xf7 0x00 0x00 0x00; Dec 0xfa 0x00 0x00 0x01 ];
    [ Dec 0x00 0x01 0xd3 0x01; Dec 0x00 0x01 0xd4 0x01; Dec 0x00 0x01 0xd6 0x01; Dec 0x00 0x01 0xdd 0x01;
      Dec 0x00 0x01 0xde 0x01; Dec 0x00 0x01 0xdf 0x01; Dec 0x00 0x01 0xf1 0x01; Dec 0x00 0x01 0xf4 0x01;
      Dec 0x00 0x01 0xf5 0x01; Dec 0x00 0x01 0xf6 0x01; Dec 0x00 0x01 0xf7 0x01; Dec 0x00 0x01 0xf8 0x01;
      Dec 0x00 0x01 0xfa 0x01; Dec 0x00 0x01 0xfb 0x01; Dec 0x00 0x01 0xfc 0x01; Dec 0x00 0x01 0xfd 0x01 ];
    [ Dec 0x01 0x01 0xd3 0x00; Dec 0x16 0x01 0xd3 0x01; Dec 0x01 0x01 0xd4 0x00; Dec 0x16 0x01 0xd4 0x01;
      Dec 0x01 0x01 0xd6 0x00; Dec 0x16 0x01 0xd6 0x01; Dec 0x01 0x01 0xdd 0x00; Dec 0x16 0x01 0xdd 0x01;
      Dec 0x01 0x01 0xde 0x00; Dec 0x16 0x01 0xde 0x01; Dec 0x01 0x01 0xdf 0x00; Dec 0x16 0x01 0xdf 0x01;
      Dec 0x01 0x01 0xf1 0x00; Dec 0x16 0x01 0xf1 0x01; Dec 0x01 0x01 0xf4 0x00; Dec 0x16 0x01 0xf4 0x01 ] ].

(** States 210 to 223. *)
Definition huff_decode_codes_210 : list (list ngx_http_huff_decode_code_t) :=
  [ [ Dec 0x02 0x01 0xd3 0x00; Dec 0x09 0x01 0xd3 0x00; Dec 0x17 0x01 0xd3 0x00; Dec 0x28 0x01 0xd3 0x01;
      Dec 0x02 0x01 0xd4 0x00; Dec 0x09 0x01 0xd4 0x00; Dec 0x17 0x01 0xd4 0x00; Dec 0x28 0x01 0xd4 0x01;
      Dec 0x02 0x01 0xd6 0x00; Dec 0x09 0x01 0xd6 0x00; Dec 0x17 0x01 0xd6 0x00; Dec 0x28 0x01 0xd6 0x01;
      Dec 0x02 0x01 0xdd 0x00; Dec 0x09 0x01 0xdd 0x00; Dec 0x17 0x01 0xdd 0x00; Dec 0x28 0x01 0xdd 0x01 ];
    [ Dec 0x03 0x01 0xd3 0x00; Dec 0x06 0x01 0xd3 0x00; Dec 0x0a 0x01 0xd3 0x00; Dec 0x0f 0x01 0xd3 0x00;
      Dec 0x18 0x01 0xd3 0x00; Dec 0x1f 0x01 0xd3 0x00; Dec 0x29 0x01 0xd3 0x00; Dec 0x38 0x01 0xd3 0x01;
      Dec 0x03 0x01 0xd4 0x00; Dec 0x06 0x01 0xd4 0x00; Dec 0x0a 0x01 0xd4 0x00; Dec 0x0f 0x01 0xd4 0x00;
      Dec 0x18 0x01 0xd4 0x00; Dec 0x1f 0x01 0xd4 0x00; Dec 0x29 0x01 0xd4 0x00; Dec 0x38 0x01 0xd4 0x01 ];
    [ Dec 0x03 0x01 0xd6 0x00; Dec 0x06 0x01 0xd6 0x00; Dec 0x0a 0x01 0xd6 0x00; Dec 0x0f 0x01 0xd6 0x00;
      Dec 0x18 0x01 0xd6 0x00; Dec 0x1f 0x01 0xd6 0x00; Dec 0x29 0x01 0xd6 0x00; Dec 0x38 0x01 0xd6 0x01;
      Dec 0x03 0x01 0xdd 0x00; Dec 0x06 0x01 0xdd 0x00; Dec 0x0a 0x01 0xdd 0x00; Dec 0x0f 0x01 0xdd 0x00;
      Dec 0x18 0x01 0xdd 0x00; Dec 0x1f 0x01 0xdd 0x00; Dec 0x29 0x01 0xdd 0x00; Dec 0x38 0x01 0xdd 0x01 ];
    [ Dec 0x02 0x01 0xde 0x00; Dec 0x09 0x01 0xde 0x00; Dec 0x17 0x01 0xde 0x00; Dec 0x28 0x01 0xde 0x01;
      Dec 0x02 0x01 0xdf 0x00; Dec 0x09 0x01 0xdf 0x00; Dec 0x17 0x01 0xdf 0x00; Dec 0x28 0x01 0xdf 0x01;
      Dec 0x02 0x01 0xf1 0x00; Dec 0x09 0x01 0xf1 0x00; Dec 0x17 0x01 0xf1 0x00; Dec 0x28 0x01 0xf1 0x01;
      Dec 0x02 0x01 0xf4 0x00; Dec 0x09 0x01 0xf4 0x00; Dec 0x17 0x01 0xf4 0x00; Dec 0x28 0x01 0xf4 0x01 ];
    [ Dec 0x03 0x01 0xde 0x00; Dec 0x06 0x01 0xde 0x00; Dec 0x0a 0x01 0xde 0x00; Dec 0x0f 0x01 0xde 0x00;
      Dec 0x18 0x01 0xde 0x00; Dec 0x1f 0x01 0xde 0x00; Dec 0x29 0x01 0xde 0x00; Dec 0x38 0x01 0xde 0x01;
      Dec 0x03 0x01 0xdf 0x00; Dec 0x06 0x01 0xdf 0x00; Dec 0x0a 0x01 0xdf 0x00; Dec 0x0f 0x01 0xdf 0x00;
      Dec 0x18 0x01 0xdf 0x00; Dec 0x1f 0x01 0xdf 0x00; Dec 0x29 0x01 0xdf 0x00; Dec 0x38 0x01 0xdf 0x01 ];
    [ Dec 0x03 0x01 0xf1 0x00; Dec 0x06 0x01 0xf1 0x00; Dec 0x0a 0x01 0xf1 0x00; Dec 0x0f 0x01 0xf1 0x00;
      Dec 0x18 0x01 0xf1 0x00; Dec 0x1f 0x01 0xf1 0x00; Dec 0x29 0x01 0xf1 0x00; Dec 0x38 0x01 0xf1 0x01;
      Dec 0x03 0x01 0xf4 0x00; Dec 0x06 0x01 0xf4 0x00; Dec 0x0a 0x01 0xf4 0x00; Dec 0x0f 0x01 0xf4 0x00;
      Dec 0x18 0x01 0xf4 0x00; Dec 0x1f 0x01 0xf4 0x00; Dec 0x29 0x01 0xf4 0x00; Dec 0x38 0x01 0xf4 0x01 ];
    [ Dec 0x01 0x01 0xf5 0x00; Dec 0x16 0x01 0xf5 0x01; Dec 0x01 0x01 0xf6 0x00; Dec 0x16 0x01 0xf6 0x01;
      Dec 0x01 0x01 0xf7 0x00; Dec 0x16 0x01 0xf7 0x01; Dec 0x01 0x01 0xf8 0x00; Dec 0x16 0x01 0xf8 0x01;
      Dec 0x01 0x01 0xfa 0x00; Dec 0x16 0x01 0xfa 0x01; Dec 0x01 0x01 0xfb 0x00; Dec 0x16 0x01 0xfb 0x01;
      Dec 0x01 0x01 0xfc 0x00; Dec 0x16 0x01 0xfc 0x01; Dec 0x01 0x01 0xfd 0x00; Dec 0x16 0x01 0xfd 0x01 ];
    [ Dec 0x02 0x01 0xf5 0x00; Dec 0x09 0x01 0xf5 0x00; Dec 0x17 0x01 0xf5 0x00; Dec 0x28 0x01 0xf5 0x01;
      Dec 0x02 0x01 0xf6 0x00; Dec 0x09 0x01 0xf6 0x00; Dec 0x17 0x01 0xf6 0x00; Dec 0x28 0x01 0xf6 0x01;
      Dec 0x02 0x01 0xf7 0x00; Dec 0x09 0x01 0xf7 0x00; Dec 0x17 0x01 0xf7 0x00; Dec 0x28 0x01 0xf7 0x01;
      Dec 0x02 0x01 0xf8 0x00; Dec 0x09 0x01 0xf8 0x00; Dec 0x17 0x01 0xf8 0x00; Dec 0x28 0x01 0xf8 0x01 ];
    [ Dec 0x03 0x01 0xf5 0x00; Dec 0x06 0x01 0xf5 0x00; Dec 0x0a 0x01 0xf5 0x00; Dec 0x0f 0x01 0xf5 0x00;
      Dec 0x18 0x01 0xf5 0x00; Dec 0x1f 0x01 0xf5 0x00; Dec 0x29 0x01 0xf5 0x00; Dec 0x38 0x01 0xf5 0x01;
      Dec 0x03 0x01 0xf6 0x00; Dec 0x06 0x01 0xf6 0x00; Dec 0x0a 0x01 0xf6 0x00; Dec 0x0f 0x01 0xf6 0x00;
      Dec 0x18 0x01 0xf6 0x00; Dec 0x1f 0x01 0xf6 0x00; Dec 0x29 0x01 0xf6 0x00; Dec 0x38 0x01 0xf6 0x01 ];
    [ Dec 0x03 0x01 0xf7 0x00; Dec 0x06 0x01 0xf7 0x00; Dec 0x0a 0x01 0xf7 0x00; Dec 0x0f 0x01 0xf7 0x00;
      Dec 0x18 0x01 0xf7 0x00; Dec 0x1f 0x01 0xf7 0x00; Dec 0x29 0x01 0xf7 0x00; Dec 0x38 0x01 0xf7 0x01;
      Dec 0x03 0x01 0xf8 0x00; Dec 0x06 0x01 0xf8 0x00; Dec 0x0a 0x01 0xf8 0x00; Dec 0x0f 0x01 0xf8 0x00;
      Dec 0x18 0x01 0xf8 0x00; Dec 0x1f 0x01 0xf8 0x00; Dec 0x29 0x01 0xf8 0x00; Dec 0x38 0x01 0xf8 0x01 ];
    [ Dec 0x02 0x01 0xfa 0x00; Dec 0x09 0x01 0xfa 0x00; Dec 0x17 0x01 0xfa 0x00; Dec 0x28 0x01 0xfa 0x01;
      Dec 0x02 0x01 0xfb 0x00; Dec 0x09 0x01 0xfb 0x00; Dec 0x17 0x01 0xfb 0x00; Dec 0x28 0x01 0xfb 0x01;
      Dec 0x02 0x01 0xfc 0x00; Dec 0x09 0x01 0xfc 0x00; Dec 0x17 0x01 0xfc 0x00; Dec 0x28 0x01 0xfc 0x01;
      Dec 0x02 0x01 0xfd 0x00; Dec 0x09 0x01 0xfd 0x00; Dec 0x17 0x01 0xfd 0x00; Dec 0x28 0x01 0xfd 0x01 ];
    [ Dec 0x03 0x01 0xfa 0x00; Dec 0x06 0x01 0xfa 0x00; Dec 0x0a 0x01 0xfa 0x00; Dec 0x0f 0x01 0xfa 0x00;
      Dec 0x18 0x01 0xfa 0x00; Dec 0x1f 0x01 0xfa 0x00; Dec 0x29 0x01 0xfa 0x00; Dec 0x38 0x01 0xfa 0x01;
      Dec 0x03 0x01 0xfb 0x00; Dec 0x06 0x01 0xfb 0x00; Dec 0x0a 0x01 0xfb 0x00; Dec 0x0f 0x01 0xfb 0x00;
      Dec 0x18 0x01 0xfb 0x00; Dec 0x1f 0x01 0xfb 0x00; Dec 0x29 0x01 0xfb 0x00; Dec 0x38 0x01 0xfb 0x01 ];
    [ Dec 0x03 0x01 0xfc 0x00; Dec 0x06 0x01 0xfc 0x00; Dec 0x0a 0x01 0xfc 0x00; Dec 0x0f 0x01 0xfc 0x00;
      Dec 0x18 0x01 0xfc 0x00; Dec 0x1f 0x01 0xfc 0x00; Dec 0x29 0x01 0xfc 0x00; Dec 0x38 0x01 0xfc 0x01;
      Dec 0x03 0x01 0xfd 0x00; Dec 0x06 0x01 0xfd 0x00; Dec 0x0a 0x01 0xfd 0x00; Dec 0x0f 0x01 0xfd 0x00;
      Dec 0x18 0x01 0xfd 0x00; Dec 0x1f 0x01 0xfd 0x00; Dec 0x29 0x01 0xfd 0x00; Dec 0x38 0x01 0xfd 0x01 ];
    [ Dec 0x00 0x01 0xfe 0x01; Dec 0xe3 0x00 0x00 0x00; Dec 0xe5 0x00 0x00 0x00; Dec 0xe6 0x00 0x00 0x00;
      Dec 0xe9 0x00 0x00 0x00; Dec 0xea 0x00 0x00 0x00; Dec 0xec 0x00 0x00 0x00; Dec 0xed 0x00 0x00 0x00;
      Dec 0xf1 0x00 0x00 0x00; Dec 0xf2 0x00 0x00 0x00; Dec 0xf4 0x00 0x00 0x00; Dec 0xf5 0x00 0x00 0x00;
      Dec 0xf8 0x00 0x00 0x00; Dec 0xf9 0x00 0x00 0x00; Dec 0xfb 0x00 0x00 0x00; Dec 0xfc 0x00 0x00 0x01 ] ].

(** States 224 to 237. *)
Definition huff_decode_codes_224 : list (list ngx_http_huff_decode_code_t) :=
  [ [ Dec 0x01 0x01 0xfe 0x00; Dec 0x16 0x01 0xfe 0x01; Dec 0x00 0x01 0x02 0x01; Dec 0x00 0x01 0x03 0x01;
      Dec 0x00 0x01 0x04 0x01; Dec 0x00 0x01 0x05 0x01; Dec 0x00 0x01 0x06 0x01; Dec 0x00 0x01 0x07 0x01;
      Dec 0x00 0x01 0x08 0x01; Dec 0x00 0x01 0x0b 0x01; Dec 0x00 0x01 0x0c 0x01; Dec 0x00 0x01 0x0e 0x01;
      Dec 0x00 0x01 0x0f 0x01; Dec 0x00 0x01 0x10 0x01; Dec 0x00 0x01 0x11 0x01; Dec 0x00 0x01 0x12 0x01 ];
    [ Dec 0x02 0x01 0xfe 0x00; Dec 0x09 0x01 0xfe 0x00; Dec 0x17 0x01 0xfe 0x00; Dec 0x28 0x01 0xfe 0x01;
      Dec 0x01 0x01 0x02 0x00; Dec 0x16 0x01 0x02 0x01; Dec 0x01 0x01 0x03 0x00; Dec 0x16 0x01 0x03 0x01;
      Dec 0x01 0x01 0x04 0x00; Dec 0x16 0x01 0x04 0x01; Dec 0x01 0x01 0x05 0x00; Dec 0x16 0x01 0x05 0x01;
      Dec 0x01 0x01 0x06 0x00; Dec 0x16 0x01 0x06 0x01; Dec 0x01 0x01 0x07 0x00; Dec 0x16 0x01 0x07 0x01 ];
    [ Dec 0x03 0x01 0xfe 0x00; Dec 0x06 0x01 0xfe 0x00; Dec 0x0a 0x01 0xfe 0x00; Dec 0x0f 0x01 0xfe 0x00;
      Dec 0x18 0x01 0xfe 0x00; Dec 0x1f 0x01 0xfe 0x00; Dec 0x29 0x01 0xfe 0x00; Dec 0x38 0x01 0xfe 0x01;
      Dec 0x02 0x01 0x02 0x00; Dec 0x09 0x01 0x02 0x00; Dec 0x17 0x01 0x02 0x00; Dec 0x28 0x01 0x02 0x01;
      Dec 0x02 0x01 0x03 0x00; Dec 0x09 0x01 0x03 0x00; Dec 0x17 0x01 0x03 0x00; Dec 0x28 0x01 0x03 0x01 ];
    [ Dec 0x03 0x01 0x02 0x00; Dec 0x06 0x01 0x02 0x00; Dec 0x0a 0x01 0x02 0x00; Dec 0x0f 0x01 0x02 0x00;
      Dec 0x18 0x01 0x02 0x00; Dec 0x1f 0x01 0x02 0x00; Dec 0x29 0x01 0x02 0x00; Dec 0x38 0x01 0x02 0x01;
      Dec 0x03 0x01 0x03 0x00; Dec 0x06 0x01 0x03 0x00; Dec 0x0a 0x01 0x03 0x00; Dec 0x0f 0x01 0x03 0x00;
      Dec 0x18 0x01 0x03 0x00; Dec 0x1f 0x01 0x03 0x00; Dec 0x29 0x01 0x03 0x00; Dec 0x38 0x01 0x03 0x01 ];
    [ Dec 0x02 0x01 0x04 0x00; Dec 0x09 0x01 0x04 0x00; Dec 0x17 0x01 0x04 0x00; Dec 0x28 0x01 0x04 0x01;
      Dec 0x02 0x01 0x05 0x00; Dec 0x09 0x01 0x05 0x00; Dec 0x17 0x01 0x05 0x00; Dec 0x28 0x01 0x05 0x01;
      Dec 0x02 0x01 0x06 0x00; Dec 0x09 0x01 0x06 0x00; Dec 0x17 0x01 0x06 0x00; Dec 0x28 0x01 0x06 0x01;
      Dec 0x02 0x01 0x07 0x00; Dec 0x09 0x01 0x07 0x00; Dec 0x17 0x01 0x07 0x00; Dec 0x28 0x01 0x07 0x01 ];
    [ Dec 0x03 0x01 0x04 0x00; Dec 0x06 0x01 0x04 0x00; Dec 0x0a 0x01 0x04 0x00; Dec 0x0f 0x01 0x04 0x00;
      Dec 0x18 0x01 0x04 0x00; Dec 0x1f 0x01 0x04 0x00; Dec 0x29 0x01 0x04 0x00; Dec 0x38 0x01 0x04 0x01;
      Dec 0x03 0x01 0x05 0x00; Dec 0x06 0x01 0x05 0x00; Dec 0x0a 0x01 0x05 0x00; Dec 0x0f 0x01 0x05 0x00;
      Dec 0x18 0x01 0x05 0x00; Dec 0x1f 0x01 0x05 0x00; Dec 0x29 0x01 0x05 0x00; Dec 0x38 0x01 0x05 0x01 ];
    [ Dec 0x03 0x01 0x06 0x00; Dec 0x06 0x01 0x06 0x00; Dec 0x0a 0x01 0x06 0x00; Dec 0x0f 0x01 0x06 0x00;
      Dec 0x18 0x01 0x06 0x00; Dec 0x1f 0x01 0x06 0x00; Dec 0x29 0x01 0x06 0x00; Dec 0x38 0x01 0x06 0x01;
      Dec 0x03 0x01 0x07 0x00; Dec 0x06 0x01 0x07 0x00; Dec 0x0a 0x01 0x07 0x00; Dec 0x0f 0x01 0x07 0x00;
      Dec 0x18 0x01 0x07 0x00; Dec 0x1f 0x01 0x07 0x00; Dec 0x29 0x01 0x07 0x00; Dec 0x38 0x01 0x07 0x01 ];
    [ Dec 0x01 0x01 0x08 0x00; Dec 0x16 0x01 0x08 0x01; Dec 0x01 0x01 0x0b 0x00; Dec 0x16 0x01 0x0b 0x01;
      Dec 0x01 0x01 0x0c 0x00; Dec 0x16 0x01 0x0c 0x01; Dec 0x01 0x01 0x0e 0x00; Dec 0x16 0x01 0x0e 0x01;
      Dec 0x01 0x01 0x0f 0x00; Dec 0x16 0x01 0x0f 0x01; Dec 0x01 0x01 0x10 0x00; Dec 0x16 0x01 0x10 0x01;
      Dec 0x01 0x01 0x11 0x00; Dec 0x16 0x01 0x11 0x01; Dec 0x01 0x01 0x12 0x00; Dec 0x16 0x01 0x12 0x01 ];
    [ Dec 0x02 0x01 0x08 0x00; Dec 0x09 0x01 0x08 0x00; Dec 0x17 0x01 0x08 0x00; Dec 0x28 0x01 0x08 0x01;
      Dec 0x02 0x01 0x0b 0x00; Dec 0x09 0x01 0x0b 0x00; Dec 0x17 0x01 0x0b 0x00; Dec 0x28 0x01 0x0b 0x01;
      Dec 0x02 0x01 0x0c 0x00; Dec 0x09 0x01 0x0c 0x00; Dec 0x17 0x01 0x0c 0x00; Dec 0x28 0x01 0x0c 0x01;
      Dec 0x02 0x01 0x0e 0x00; Dec 0x09 0x01 0x0e 0x00; Dec 0x17 0x01 0x0e 0x00; Dec 0x28 0x01 0x0e 0x01 ];
    [ Dec 0x03 0x01 0x08 0x00; Dec 0x06 0x01 0x08 0x00; Dec 0x0a 0x01 0x08 0x00; Dec 0x0f 0x01 0x08 0x00;
      Dec 0x18 0x01 0x08 0x00; Dec 0x1f 0x01 0x08 0x00; Dec 0x29 0x01 0x08 0x00; Dec 0x38 0x01 0x08 0x01;
      Dec 0x03 0x01 0x0b 0x00; Dec 0x06 0x01 0x0b 0x00; Dec 0x0a 0x01 0x0b 0x00; Dec 0x0f 0x01 0x0b 0x00;
      Dec 0x18 0x01 0x0b 0x00; Dec 0x1f 0x01 0x0b 0x00; Dec 0x29 0x01 0x0b 0x00; Dec 0x38 0x01 0x0b 0x01 ];
    [ Dec 0x03 0x01 0x0c 0x00; Dec 0x06 0x01 0x0c 0x00; Dec 0x0a 0x01 0x0c 0x00; Dec 0x0f 0x01 0x0c 0x00;
      Dec 0x18 0x01 0x0c 0x00; Dec 0x1f 0x01 0x0c 0x00; Dec 0x29 0x01 0x0c 0x00; Dec 0x38 0x01 0x0c 0x01;
      Dec 0x03 0x01 0x0e 0x00; Dec 0x06 0x01 0x0e 0x00; Dec 0x0a 0x01 0x0e 0x00; Dec 0x0f 0x01 0x0e 0x00;
      Dec 0x18 0x01 0x0e 0x00; Dec 0x1f 0x01 0x0e 0x00; Dec 0x29 0x01 0x0e 0x00; Dec 0x38 0x01 0x0e 0x01 ];
    [ Dec 0x02 0x01 0x0f 0x00; Dec 0x09 0x01 0x0f 0x00; Dec 0x17 0x01 0x0f 0x00; Dec 0x28 0x01 0x0f 0x01;
      Dec 0x02 0x01 0x10 0x00; Dec 0x09 0x01 0x10 0x00; Dec 0x17 0x01 0x10 0x00; Dec 0x28 0x01 0x10 0x01;
      Dec 0x02 0x01 0x11 0x00; Dec 0x09 0x01 0x11 0x00; Dec 0x17 0x01 0x11 0x00; Dec 0x28 0x01 0x11 0x01;
      Dec 0x02 0x01 0x12 0x00; Dec 0x09 0x01 0x12 0x00; Dec 0x17 0x01 0x12 0x00; Dec 0x28 0x01 0x12 0x01 ];
    [ Dec 0x03 0x01 0x0f 0x00; Dec 0x06 0x01 0x0f 0x00; Dec 0x0a 0x01 0x0f 0x00; Dec 0x0f 0x01 0x0f 0x00;
      Dec 0x18 0x01 0x0f 0x00; Dec 0x1f 0x01 0x0f 0x00; Dec 0x29 0x01 0x0f 0x00; Dec 0x38 0x01 0x0f 0x01;
      Dec 0x03 0x01 0x10 0x00; Dec 0x06 0x01 0x10 0x00; Dec 0x0a 0x01 0x10 0x00; Dec 0x0f 0x01 0x10 0x00;
      Dec 0x18 0x01 0x10 0x00; Dec 0x1f 0x01 0x10 0x00; Dec 0x29 0x01 0x10 0x00; Dec 0x38 0x01 0x10 0x01 ];
    [ Dec 0x03 0x01 0x11 0x00; Dec 0x06 0x01 0x11 0x00; Dec 0x0a 0x01 0x11 0x00; Dec 0x0f 0x01 0x11 0x00;
      Dec 0x18 0x01 0x11 0x00; Dec 0x1f 0x01 0x11 0x00; Dec 0x29 0x01 0x11 0x00; Dec 0x38 0x01 0x11 0x01;
      Dec 0x03 0x01 0x12 0x00; Dec 0x06 0x01 0x12 0x00; Dec 0x0a 0x01 0x12 0x00; Dec 0x0f 0x01 0x12 0x00;
      Dec 0x18 0x01 0x12 0x00; Dec 0x1f 0x01 0x12 0x00; Dec 0x29 0x01 0x12 0x00; Dec 0x38 0x01 0x12 0x01 ] ].

(** States 238 to 251. *)
Definition huff_decode_codes_238 : list (list ngx_http_huff_decode_code_t) :=
  [ [ Dec 0x00 0x01 0x13 0x01; Dec 0x00 0x01 0x14 0x01; Dec 0x00 0x01 0x15 0x01; Dec 0x00 0x01 0x17 0x01;
      Dec 0x00 0x01 0x18 0x01; Dec 0x00 0x01 0x19 0x01; Dec 0x00 0x01 0x1a 0x01; Dec 0x00 0x01 0x1b 0x01;
      Dec 0x00 0x01 0x1c 0x01; Dec 0x00 0x01 0x1d 0x01; Dec 0x00 0x01 0x1e 0x01; Dec 0x00 0x01 0x1f 0x01;
      Dec 0x00 0x01 0x7f 0x01; Dec 0x00 0x01 0xdc 0x01; Dec 0x00 0x01 0xf9 0x01; Dec 0xfd 0x00 0x00 0x01 ];
    [ Dec 0x01 0x01 0x13 0x00; Dec 0x16 0x01 0x13 0x01; Dec 0x01 0x01 0x14 0x00; Dec 0x16 0x01 0x14 0x01;
      Dec 0x01 0x01 0x15 0x00; Dec 0x16 0x01 0x15 0x01; Dec 0x01 0x01 0x17 0x00; Dec 0x16 0x01 0x17 0x01;
      Dec 0x01 0x01 0x18 0x00; Dec 0x16 0x01 0x18 0x01; Dec 0x01 0x01 0x19 0x00; Dec 0x16 0x01 0x19 0x01;
      Dec 0x01 0x01 0x1a 0x00; Dec 0x16 0x01 0x1a 0x01; Dec 0x01 0x01 0x1b 0x00; Dec 0x16 0x01 0x1b 0x01 ];
    [ Dec 0x02 0x01 0x13 0x00; Dec 0x09 0x01 0x13 0x00; Dec 0x17 0x01 0x13 0x00; Dec 0x28 0x01 0x13 0x01;
      Dec 0x02 0x01 0x14 0x00; Dec 0x09 0x01 0x14 0x00; Dec 0x17 0x01 0x14 0x00; Dec 0x28 0x01 0x14 0x01;
      Dec 0x02 0x01 0x15 0x00; Dec 0x09 0x01 0x15 0x00; Dec 0x17 0x01 0x15 0x00; Dec 0x28 0x01 0x15 0x01;
      Dec 0x02 0x01 0x17 0x00; Dec 0x09 0x01 0x17 0x00; Dec 0x17 0x01 0x17 0x00; Dec 0x28 0x01 0x17 0x01 ];
    [ Dec 0x03 0x01 0x13 0x00; Dec 0x06 0x01 0x13 0x00; Dec 0x0a 0x01 0x13 0x00; Dec 0x0f 0x01 0x13 0x00;
      Dec 0x18 0x01 0x13 0x00; Dec 0x1f 0x01 0x13 0x00; Dec 0x29 0x01 0x13 0x00; Dec 0x38 0x01 0x13 0x01;
      Dec 0x03 0x01 0x14 0x00; Dec 0x06 0x01 0x14 0x00; Dec 0x0a 0x01 0x14 0x00; Dec 0x0f 0x01 0x14 0x00;
      Dec 0x18 0x01 0x14 0x00; Dec 0x1f 0x01 0x14 0x00; Dec 0x29 0x01 0x14 0x00; Dec 0x38 0x01 0x14 0x01 ];
    [ Dec 0x03 0x01 0x15 0x00; Dec 0x06 0x01 0x15 0x00; Dec 0x0a 0x01 0x15 0x00; Dec 0x0f 0x01 0x15 0x00;
      Dec 0x18 0x01 0x15 0x00; Dec 0x1f 0x01 0x15 0x00; Dec 0x29 0x01 0x15 0x00; Dec 0x38 0x01 0x15 0x01;
      Dec 0x03 0x01 0x17 0x00; Dec 0x06 0x01 0x17 0x00; Dec 0x0a 0x01 0x17 0x00; Dec 0x0f 0x01 0x17 0x00;
      Dec 0x18 0x01 0x17 0x00; Dec 0x1f 0x01 0x17 0x00; Dec 0x29 0x01 0x17 0x00; Dec 0x38 0x01 0x17 0x01 ];
    [ Dec 0x02 0x01 0x18 0x00; Dec 0x09 0x01 0x18 0x00; Dec 0x17 0x01 0x18 0x00; Dec 0x28 0x01 0x18 0x01;
      Dec 0x02 0x01 0x19 0x00; Dec 0x09 0x01 0x19 0x00; Dec 0x17 0x01 0x19 0x00; Dec 0x28 0x01 0x19 0x01;
      Dec 0x02 0x01 0x1a 0x00; Dec 0x09 0x01 0x1a 0x00; Dec 0x17 0x01 0x1a 0x00; Dec 0x28 0x01 0x1a 0x01;
      Dec 0x02 0x01 0x1b 0x00; Dec 0x09 0x01 0x1b 0x00; Dec 0x17 0x01 0x1b 0x00; Dec 0x28 0x01 0x1b 0x01 ];
    [ Dec 0x03 0x01 0x18 0x00; Dec 0x06 0x01 0x18 0x00; Dec 0x0a 0x01 0x18 0x00; Dec 0x0f 0x01 0x18 0x00;
      Dec 0x18 0x01 0x18 0x00; Dec 0x1f 0x01 0x18 0x00; Dec 0x29 0x01 0x18 0x00; Dec 0x38 0x01 0x18 0x01;
      Dec 0x03 0x01 0x19 0x00; Dec 0x06 0x01 0x19 0x00; Dec 0x0a 0x01 0x19 0x00; Dec 0x0f 0x01 0x19 0x00;
      Dec 0x18 0x01 0x19 0x00; Dec 0x1f 0x01 0x19 0x00; Dec 0x29 0x01 0x19 0x00; Dec 0x38 0x01 0x19 0x01 ];
    [ Dec 0x03 0x01 0x1a 0x00; Dec 0x06 0x01 0x1a 0x00; Dec 0x0a 0x01 0x1a 0x00; Dec 0x0f 0x01 0x1a 0x00;
      Dec 0x18 0x01 0x1a 0x00; Dec 0x1f 0x01 0x1a 0x00; Dec 0x29 0x01 0x1a 0x00; Dec 0x38 0x01 0x1a 0x01;
      Dec 0x03 0x01 0x1b 0x00; Dec 0x06 0x01 0x1b 0x00; Dec 0x0a 0x01 0x1b 0x00; Dec 0x0f 0x01 0x1b 0x00;
      Dec 0x18 0x01 0x1b 0x00; Dec 0x1f 0x01 0x1b 0x00; Dec 0x29 0x01 0x1b 0x00; Dec 0x38 0x01 0x1b 0x01 ];
    [ Dec 0x01 0x01 0x1c 0x00; Dec 0x16 0x01 0x1c 0x01; Dec 0x01 0x01 0x1d 0x00; Dec 0x16 0x01 0x1d 0x01;
      Dec 0x01 0x01 0x1e 0x00; Dec 0x16 0x01 0x1e 0x01; Dec 0x01 0x01 0x1f 0x00; Dec 0x16 0x01 0x1f 0x01;
      Dec 0x01 0x01 0x7f 0x00; Dec 0x16 0x01 0x7f 0x01; Dec 0x01 0x01 0xdc 0x00; Dec 0x16 0x01 0xdc 0x01;
      Dec 0x01 0x01 0xf9 0x00; Dec 0x16 0x01 0xf9 0x01; Dec 0xfe 0x00 0x00 0x00; Dec 0xff 0x00 0x00 0x01 ];
    [ Dec 0x02 0x01 0x1c 0x00; Dec 0x09 0x01 0x1c 0x00; Dec 0x17 0x01 0x1c 0x00; Dec 0x28 0x01 0x1c 0x01;
      Dec 0x02 0x01 0x1d 0x00; Dec 0x09 0x01 0x1d 0x00; Dec 0x17 0x01 0x1d 0x00; Dec 0x28 0x01 0x1d 0x01;
      Dec 0x02 0x01 0x1e 0x00; Dec 0x09 0x01 0x1e 0x00; Dec 0x17 0x01 0x1e 0x00; Dec 0x28 0x01 0x1e 0x01;
      Dec 0x02 0x01 0x1f 0x00; Dec 0x09 0x01 0x1f 0x00; Dec 0x17 0x01 0x1f 0x00; Dec 0x28 0x01 0x1f 0x01 ];
    [ Dec 0x03 0x01 0x1c 0x00; Dec 0x06 0x01 0x1c 0x00; Dec 0x0a 0x01 0x1c 0x00; Dec 0x0f 0x01 0x1c 0x00;
      Dec 0x18 0x01 0x1c 0x00; Dec 0x1f 0x01 0x1c 0x00; Dec 0x29 0x01 0x1c 0x00; Dec 0x38 0x01 0x1c 0x01;
      Dec 0x03 0x01 0x1d 0x00; Dec 0x06 0x01 0x1d 0x00; Dec 0x0a 0x01 0x1d 0x00; Dec 0x0f 0x01 0x1d 0x00;
      Dec 0x18 0x01 0x1d 0x00; Dec 0x1f 0x01 0x1d 0x00; Dec 0x29 0x01 0x1d 0x00; Dec 0x38 0x01 0x1d 0x01 ];
    [ Dec 0x03 0x01 0x1e 0x00; Dec 0x06 0x01 0x1e 0x00; Dec 0x0a 0x01 0x1e 0x00; Dec 0x0f 0x01 0x1e 0x00;
      Dec 0x18 0x01 0x1e 0x00; Dec 0x1f 0x01 0x1e 0x00; Dec 0x29 0x01 0x1e 0x00; Dec 0x38 0x01 0x1e 0x01;
      Dec 0x03 0x01 0x1f 0x00; Dec 0x06 0x01 0x1f 0x00; Dec 0x0a 0x01 0x1f 0x00; Dec 0x0f 0x01 0x1f 0x00;
      Dec 0x18 0x01 0x1f 0x00; Dec 0x1f 0x01 0x1f 0x00; Dec 0x29 0x01 0x1f 0x00; Dec 0x38 0x01 0x1f 0x01 ];
    [ Dec 0x02 0x01 0x7f 0x00; Dec 0x09 0x01 0x7f 0x00; Dec 0x17 0x01 0x7f 0x00; Dec 0x28 0x01 0x7f 0x01;
      Dec 0x02 0x01 0xdc 0x00; Dec 0x09 0x01 0xdc 0x00; Dec 0x17 0x01 0xdc 0x00; Dec 0x28 0x01 0xdc 0x01;
      Dec 0x02 0x01 0xf9 0x00; Dec 0x09 0x01 0xf9 0x00; Dec 0x17 0x01 0xf9 0x00; Dec 0x28 0x01 0xf9 0x01;
      Dec 0x00 0x01 0x0a 0x01; Dec 0x00 0x01 0x0d 0x01; Dec 0x00 0x01 0x16 0x01; Dec 0xfa 0x00 0x00 0x00 ];
    [ Dec 0x03 0x01 0x7f 0x00; Dec 0x06 0x01 0x7f 0x00; Dec 0x0a 0x01 0x7f 0x00; Dec 0x0f 0x01 0x7f 0x00;
      Dec 0x18 0x01 0x7f 0x00; Dec 0x1f 0x01 0x7f 0x00; Dec 0x29 0x01 0x7f 0x00; Dec 0x38 0x01 0x7f 0x01;
      Dec 0x03 0x01 0xdc 0x00; Dec 0x06 0x01 0xdc 0x00; Dec 0x0a 0x01 0xdc 0x00; Dec 0x0f 0x01 0xdc 0x00;
      Dec 0x18 0x01 0xdc 0x00; Dec 0x1f 0x01 0xdc 0x00; Dec 0x29 0x01 0xdc 0x00; Dec 0x38 0x01 0xdc 0x01 ] ].

(** States 252 to 255. *)
Definition huff_decode_codes_252 : list (list ngx_http_huff_decode_code_t) :=
  [ [ Dec 0x03 0x01 0xf9 0x00; Dec 0x06 0x01 0xf9 0x00; Dec 0x0a 0x01 0xf9 0x00; Dec 0x0f 0x01 0xf9 0x00;
      Dec 0x18 0x01 0xf9 0x00; Dec 0x1f 0x01 0xf9 0x00; Dec 0x29 0x01 0xf9 0x00; Dec 0x38 0x01 0xf9 0x01;
      Dec 0x01 0x01 0x0a 0x00; Dec 0x16 0x01 0x0a 0x01; Dec 0x01 0x01 0x0d 0x00; Dec 0x16 0x01 0x0d 0x01;
      Dec 0x01 0x01 0x16 0x00; Dec 0x16 0x01 0x16 0x01; Dec 0xfc 0x00 0x00 0x00; Dec 0xfc 0x00 0x00 0x00 ];
    [ Dec 0x02 0x01 0x0a 0x00; Dec 0x09 0x01 0x0a 0x00; Dec 0x17 0x01 0x0a 0x00; Dec 0x28 0x01 0x0a 0x01;
      Dec 0x02 0x01 0x0d 0x00; Dec 0x09 0x01 0x0d 0x00; Dec 0x17 0x01 0x0d 0x00; Dec 0x28 0x01 0x0d 0x01;
      Dec 0x02 0x01 0x16 0x00; Dec 0x09 0x01 0x16 0x00; Dec 0x17 0x01 0x16 0x00; Dec 0x28 0x01 0x16 0x01;
      Dec 0xfd 0x00 0x00 0x00; Dec 0xfd 0x00 0x00 0x00; Dec 0xfd 0x00 0x00 0x00; Dec 0xfd 0x00 0x00 0x00 ];
    [ Dec 0x03 0x01 0x0a 0x00; Dec 0x06 0x01 0x0a 0x00; Dec 0x0a 0x01 0x0a 0x00; Dec 0x0f 0x01 0x0a 0x00;
      Dec 0x18 0x01 0x0a 0x00; Dec 0x1f 0x01 0x0a 0x00; Dec 0x29 0x01 0x0a 0x00; Dec 0x38 0x01 0x0a 0x01;
      Dec 0x03 0x01 0x0d 0x00; Dec 0x06 0x01 0x0d 0x00; Dec 0x0a 0x01 0x0d 0x00; Dec 0x0f 0x01 0x0d 0x00;
      Dec 0x18 0x01 0x0d 0x00; Dec 0x1f 0x01 0x0d 0x00; Dec 0x29 0x01 0x0d 0x00; Dec 0x38 0x01 0x0d 0x01 ];
    [ Dec 0x03 0x01 0x16 0x00; Dec 0x06 0x01 0x16 0x00; Dec 0x0a 0x01 0x16 0x00; Dec 0x0f 0x01 0x16 0x00;
      Dec 0x18 0x01 0x16 0x00; Dec 0x1f 0x01 0x16 0x00; Dec 0x29 0x01 0x16 0x00; Dec 0x38 0x01 0x16 0x01;
      Dec 0xff 0x00 0x00 0x00; Dec 0xff 0x00 0x00 0x00; Dec 0xff 0x00 0x00 0x00; Dec 0xff 0x00 0x00 0x00;
      Dec 0xff 0x00 0x00 0x00; Dec 0xff 0x00 0x00 0x00; Dec 0xff 0x00 0x00 0x00; Dec 0xff 0x00 0x00 0x00 ] ].

Definition ngx_http_huff_decode_codes : list (list ngx_http_huff_decode_code_t) :=
  huff_decode_codes_0 ++
  huff_decode_codes_14 ++
  huff_decode_codes_28 ++
  huff_decode_codes_42 ++
  huff_decode_codes_56 ++
  huff_decode_codes_70 ++
  huff_decode_codes_84 ++
  huff_decode_codes_98 ++
  huff_decode_codes_112 ++
  huff_decode_codes_126 ++
  huff_decode_codes_140 ++
  huff_decode_codes_154 ++
  huff_decode_codes_168 ++
  huff_decode_codes_182 ++
  huff_decode_codes_196 ++
  huff_decode_codes_210 ++
  huff_decode_codes_224 ++
  huff_decode_codes_238 ++
  huff_decode_codes_252.

Definition ngx_http_huff_encode_table : list ngx_http_huff_encode_code_t :=
  [ Enc 0x00001ff8 13; Enc 0x007fffd8 23; Enc 0x0fffffe2 28; Enc 0x0fffffe3 28;
    Enc 0x0fffffe4 28; Enc 0x0fffffe5 28; Enc 0x0fffffe6 28; Enc 0x0fffffe7 28;
    Enc 0x0fffffe8 28; Enc 0x00ffffea 24; Enc 0x3ffffffc 30; Enc 0x0fffffe9 28;
    Enc 0x0fffffea 28; Enc 0x3ffffffd 30; Enc 0x0fffffeb 28; Enc 0x0fffffec 28;
    Enc 0x0fffffed 28; Enc 0x0fffffee 28; Enc 0x0fffffef 28; Enc 0x0ffffff0 28;
    Enc 0x0ffffff1 28; Enc 0x0ffffff2 28; Enc 0x3ffffffe 30; Enc 0x0ffffff3 28;
    Enc 0x0ffffff4 28; Enc 0x0ffffff5 28; Enc 0x0ffffff6 28; Enc 0x0ffffff7 28;
    Enc 0x0ffffff8 28; Enc 0x0ffffff9 28; Enc 0x0ffffffa 28; Enc 0x0ffffffb 28;
    Enc 0x00000014 6; Enc 0x000003f8 10; Enc 0x000003f9 10; Enc 0x00000ffa 12;
    Enc 0x00001ff9 13; Enc 0x00000015 6; Enc 0x000000f8 8; Enc 0x000007fa 11;
    Enc 0x000003fa 10; Enc 0x000003fb 10; Enc 0x000000f9 8; Enc 0x000007fb 11;
    Enc 0x000000fa 8; Enc 0x00000016 6; Enc 0x00000017 6; Enc 0x00000018 6;
    Enc 0x00000000 5; Enc 0x00000001 5; Enc 0x00000002 5; Enc 0x00000019 6;
    Enc 0x0000001a 6; Enc 0x0000001b 6; Enc 0x0000001c 6; Enc 0x0000001d 6;
    Enc 0x0000001e 6; Enc 0x0000001f 6; Enc 0x0000005c 7; Enc 0x000000fb 8;
    Enc 0x00007ffc 15; Enc 0x00000020 6; Enc 0x00000ffb 12; Enc 0x000003fc 10;
    Enc 0x00001ffa 13; Enc 0x00000021 6; Enc 0x0000005d 7; Enc 0x0000005e 7;
    Enc 0x0000005f 7; Enc 0x00000060 7; Enc 0x00000061 7; Enc 0x00000062 7;
    Enc 0x00000063 7; Enc 0x00000064 7; Enc 0x00000065 7; Enc 0x00000066 7;
    Enc 0x00000067 7; Enc 0x00000068 7; Enc 0x00000069 7; Enc 0x0000006a 7;
    Enc 0x0000006b 7; Enc 0x0000006c 7; Enc 0x0000006d 7; Enc 0x0000006e 7;
    Enc 0x0000006f 7; Enc 0x00000070 7; Enc 0x00000071 7; Enc 0x00000072 7;
    Enc 0x000000fc 8; Enc 0x00000073 7; Enc 0x000000fd 8; Enc 0x00001ffb 13;
    Enc 0x0007fff0 19; Enc 0x00001ffc 13; Enc 0x00003ffc 14; Enc 0x00000022 6;
    Enc 0x00007ffd 15; Enc 0x00000003 5; Enc 0x00000023 6; Enc 0x00000004 5;
    Enc 0x00000024 6; Enc 0x00000005 5; Enc 0x00000025 6; Enc 0x00000026 6;
    Enc 0x00000027 6; Enc 0x00000006 5; Enc 0x00000074 7; Enc 0x00000075 7;
    Enc 0x00000028 6; Enc 0x00000029 6; Enc 0x0000002a 6; Enc 0x00000007 5;
    Enc 0x0000002b 6; Enc 0x00000076 7; Enc 0x0000002c 6; Enc 0x00000008 5;
    Enc 0x00000009 5; Enc 0x0000002d 6; Enc 0x00000077 7; Enc 0x00000078 7;
    Enc 0x00000079 7; Enc 0x0000007a 7; Enc 0x0000007b 7; Enc 0x00007ffe 15;
    Enc 0x000007fc 11; Enc 0x00003ffd 14; Enc 0x00001ffd 13; Enc 0x0ffffffc 28;
    Enc 0x000fffe6 20; Enc 0x003fffd2 22; Enc 0x000fffe7 20; Enc 0x000fffe8 20;
    Enc 0x003fffd3 22; Enc 0x003fffd4 22; Enc 0x003fffd5 22; Enc 0x007fffd9 23;
    Enc 0x003fffd6 22; Enc 0x007fffda 23; Enc 0x007fffdb 23; Enc 0x007fffdc 23;
    Enc 0x007fffdd 23; Enc 0x007fffde 23; Enc 0x00ffffeb 24; Enc 0x007fffdf 23;
    Enc 0x00ffffec 24; Enc 0x00ffffed 24; Enc 0x003fffd7 22; Enc 0x007fffe0 23;
    Enc 0x00ffffee 24; Enc 0x007fffe1 23; Enc 0x007fffe2 23; Enc 0x007fffe3 23;
    Enc 0x007fffe4 23; Enc 0x001fffdc 21; Enc 0x003fffd8 22; Enc 0x007fffe5 23;
    Enc 0x003fffd9 22; Enc 0x007fffe6 23; Enc 0x007fffe7 23; Enc 0x00ffffef 24;
    Enc 0x003fffda 22; Enc 0x001fffdd 21; Enc 0x000fffe9 20; Enc 0x003fffdb 22;
    Enc 0x003fffdc 22; Enc 0x007fffe8 23; Enc 0x007fffe9 23; Enc 0x001fffde 21;
    Enc 0x007fffea 23; Enc 0x003fffdd 22; Enc 0x003fffde 22; Enc 0x00fffff0 24;
    Enc 0x001fffdf 21; Enc 0x003fffdf 22; Enc 0x007fffeb 23; Enc 0x007fffec 23;
    Enc 0x001fffe0 21; Enc 0x001fffe1 21; Enc 0x003fffe0 22; Enc 0x001fffe2 21;
    Enc 0x007fffed 23; Enc 0x003fffe1 22; Enc 0x007fffee 23; Enc 0x007fffef 23;
    Enc 0x000fffea 20; Enc 0x003fffe2 22; Enc 0x003fffe3 22; Enc 0x003fffe4 22;
    Enc 0x007ffff0 23; Enc 0x003fffe5 22; Enc 0x003fffe6 22; Enc 0x007ffff1 23;
    Enc 0x03ffffe0 26; Enc 0x03ffffe1 26; Enc 0x000fffeb 20; Enc 0x0007fff1 19;
    Enc 0x003fffe7 22; Enc 0x007ffff2 23; Enc 0x003fffe8 22; Enc 0x01ffffec 25;
    Enc 0x03ffffe2 26; Enc 0x03ffffe3 26; Enc 0x03ffffe4 26; Enc 0x07ffffde 27;
    Enc 0x07ffffdf 27; Enc 0x03ffffe5 26; Enc 0x00fffff1 24; Enc 0x01ffffed 25;
    Enc 0x0007fff2 19; Enc 0x001fffe3 21; Enc 0x03ffffe6 26; Enc 0x07ffffe0 27;
    Enc 0x07ffffe1 27; Enc 0x03ffffe7 26; Enc 0x07ffffe2 27; Enc 0x00fffff2 24;
    Enc 0x001fffe4 21; Enc 0x001fffe5 21; Enc 0x03ffffe8 26; Enc 0x03ffffe9 26;
    Enc 0x0ffffffd 28; Enc 0x07ffffe3 27; Enc 0x07ffffe4 27; Enc 0x07ffffe5 27;
    Enc 0x000fffec 20; Enc 0x00fffff3 24; Enc 0x000fffed 20; Enc 0x001fffe6 21;
    Enc 0x003fffe9 22; Enc 0x001fffe7 21; Enc 0x001fffe8 21; Enc 0x007ffff3 23;
    Enc 0x003fffea 22; Enc 0x003fffeb 22; Enc 0x01ffffee 25; Enc 0x01ffffef 25;
    Enc 0x00fffff4 24; Enc 0x00fffff5 24; Enc 0x03ffffea 26; Enc 0x007ffff4 23;
    Enc 0x03ffffeb 26; Enc 0x07ffffe6 27; Enc 0x03ffffec 26; Enc 0x03ffffed 26;
    Enc 0x07ffffe7 27; Enc 0x07ffffe8 27; Enc 0x07ffffe9 27; Enc 0x07ffffea 27;
    Enc 0x07ffffeb 27; Enc 0x0ffffffe 28; Enc 0x07ffffec 27; Enc 0x07ffffed 27;
    Enc 0x07ffffee 27; Enc 0x07ffffef 27; Enc 0x07fffff0 27; Enc 0x03ffffee 26 ].

Definition ngx_http_huff_encode_table_lc : list ngx_http_huff_encode_code_t :=
  [ Enc 0x00001ff8 13; Enc 0x007fffd8 23; Enc 0x0fffffe2 28; Enc 0x0fffffe3 28;
    Enc 0x0fffffe4 28; Enc 0x0fffffe5 28; Enc 0x0fffffe6 28; Enc 0x0fffffe7 28;
    Enc 0x0fffffe8 28; Enc 0x00ffffea 24; Enc 0x3ffffffc 30; Enc 0x0fffffe9 28;
    Enc 0x0fffffea 28; Enc 0x3ffffffd 30; Enc 0x0fffffeb 28; Enc 0x0fffffec 28;
    Enc 0x0fffffed 28; Enc 0x0fffffee 28; Enc 0x0fffffef 28; Enc 0x0ffffff0 28;
    Enc 0x0ffffff1 28; Enc 0x0ffffff2 28; Enc 0x3ffffffe 30; Enc 0x0ffffff3 28;
    Enc 0x0ffffff4 28; Enc 0x0ffffff5 28; Enc 0x0ffffff6 28; Enc 0x0ffffff7 28;
    Enc 0x0ffffff8 28; Enc 0x0ffffff9 28; Enc 0x0ffffffa 28; Enc 0x0ffffffb 28;
    Enc 0x00000014 6; Enc 0x000003f8 10; Enc 0x000003f9 10; Enc 0x00000ffa 12;
    Enc 0x00001ff9 13; Enc 0x00000015 6; Enc 0x000000f8 8; Enc 0x000007fa 11;
    Enc 0x000003fa 10; Enc 0x000003fb 10; Enc 0x000000f9 8; Enc 0x000007fb 11;
    Enc 0x000000fa 8; Enc 0x00000016 6; Enc 0x00000017 6; Enc 0x00000018 6;
    Enc 0x00000000 5; Enc 0x00000001 5; Enc 0x00000002 5; Enc 0x00000019 6;
    Enc 0x0000001a 6; Enc 0x0000001b 6; Enc 0x0000001c 6; Enc 0x0000001d 6;
    Enc 0x0000001e 6; Enc 0x0000001f 6; Enc 0x0000005c 7; Enc 0x000000fb 8;
    Enc 0x00007ffc 15; Enc 0x00000020 6; Enc 0x00000ffb 12; Enc 0x000003fc 10;
    Enc 0x00001ffa 13; Enc 0x00000003 5; Enc 0x00000023 6; Enc 0x00000004 5;
    Enc 0x00000024 6; Enc 0x00000005 5; Enc 0x00000025 6; Enc 0x00000026 6;
    Enc 0x00000027 6; Enc 0x00000006 5; Enc 0x00000074 7; Enc 0x00000075 7;
    Enc 0x00000028 6; Enc 0x00000029 6; Enc 0x0000002a 6; Enc 0x00000007 5;
    Enc 0x0000002b 6; Enc 0x00000076 7; Enc 0x0000002c 6; Enc 0x00000008 5;
    Enc 0x00000009 5; Enc 0x0000002d 6; Enc 0x00000077 7; Enc 0x00000078 7;
    Enc 0x00000079 7; Enc 0x0000007a 7; Enc 0x0000007b 7; Enc 0x00001ffb 13;
    Enc 0x0007fff0 19; Enc 0x00001ffc 13; Enc 0x00003ffc 14; Enc 0x00000022 6;
    Enc 0x00007ffd 15; Enc 0x00000003 5; Enc 0x00000023 6; Enc 0x00000004 5;
    Enc 0x00000024 6; Enc 0x00000005 5; Enc 0x00000025 6; Enc 0x00000026 6;
    Enc 0x00000027 6; Enc 0x00000006 5; Enc 0x00000074 7; Enc 0x00000075 7;
    Enc 0x00000028 6; Enc 0x00000029 6; Enc 0x0000002a 6; Enc 0x00000007 5;
    Enc 0x0000002b 6; Enc 0x00000076 7; Enc 0x0000002c 6; Enc 0x00000008 5;
    Enc 0x00000009 5; Enc 0x0000002d 6; Enc 0x00000077 7; Enc 0x00000078 7;
    Enc 0x00000079 7; Enc 0x0000007a 7; Enc 0x0000007b 7; Enc 0x00007ffe 15;
    Enc 0x000007fc 11; Enc 0x00003ffd 14; Enc 0x00001ffd 13; Enc 0x0ffffffc 28;
    Enc 0x000fffe6 20; Enc 0x003fffd2 22; Enc 0x000fffe7 20; Enc 0x000fffe8 20;
    Enc 0x003fffd3 22; Enc 0x003fffd4 22; Enc 0x003fffd5 22; Enc 0x007fffd9 23;
    Enc 0x003fffd6 22; Enc 0x007fffda 23; Enc 0x007fffdb 23; Enc 0x007fffdc 23;
    Enc 0x007fffdd 23; Enc 0x007fffde 23; Enc 0x00ffffeb 24; Enc 0x007fffdf 23;
    Enc 0x00ffffec 24; Enc 0x00ffffed 24; Enc 0x003fffd7 22; Enc 0x007fffe0 23;
    Enc 0x00ffffee 24; Enc 0x007fffe1 23; Enc 0x007fffe2 23; Enc 0x007fffe3 23;
    Enc 0x007fffe4 23; Enc 0x001fffdc 21; Enc 0x003fffd8 22; Enc 0x007fffe5 23;
    Enc 0x003fffd9 22; Enc 0x007fffe6 23; Enc 0x007fffe7 23; Enc 0x00ffffef 24;
    Enc 0x003fffda 22; Enc 0x001fffdd 21; Enc 0x000fffe9 20; Enc 0x003fffdb 22;
    Enc 0x003fffdc 22; Enc 0x007fffe8 23; Enc 0x007fffe9 23; Enc 0x001fffde 21;
    Enc 0x007fffea 23; Enc 0x003fffdd 22; Enc 0x003fffde 22; Enc 0x00fffff0 24;
    Enc 0x001fffdf 21; Enc 0x003fffdf 22; Enc 0x007fffeb 23; Enc 0x007fffec 23;
    Enc 0x001fffe0 21; Enc 0x001fffe1 21; Enc 0x003fffe0 22; Enc 0x001fffe2 21;
    Enc 0x007fffed 23; Enc 0x003fffe1 22; Enc 0x007fffee 23; Enc 0x007fffef 23;
    Enc 0x000fffea 20; Enc 0x003fffe2 22; Enc 0x003fffe3 22; Enc 0x003fffe4 22;
    Enc 0x007ffff0 23; Enc 0x003fffe5 22; Enc 0x003fffe6 22; Enc 0x007ffff1 23;
    Enc 0x03ffffe0 26; Enc 0x03ffffe1 26; Enc 0x000fffeb 20; Enc 0x0007fff1 19;
    Enc 0x003fffe7 22; Enc 0x007ffff2 23; Enc 0x003fffe8 22; Enc 0x01ffffec 25;
    Enc 0x03ffffe2 26; Enc 0x03ffffe3 26; Enc 0x03ffffe4 26; Enc 0x07ffffde 27;
    Enc 0x07ffffdf 27; Enc 0x03ffffe5 26; Enc 0x00fffff1 24; Enc 0x01ffffed 25;
    Enc 0x0007fff2 19; Enc 0x001fffe3 21; Enc 0x03ffffe6 26; Enc 0x07ffffe0 27;
    Enc 0x07ffffe1 27; Enc 0x03ffffe7 26; Enc 0x07ffffe2 27; Enc 0x00fffff2 24;
    Enc 0x001fffe4 21; Enc 0x001fffe5 21; Enc 0x03ffffe8 26; Enc 0x03ffffe9 26;
    Enc 0x0ffffffd 28; Enc 0x07ffffe3 27; Enc 0x07ffffe4 27; Enc 0x07ffffe5 27;
    Enc 0x000fffec 20; Enc 0x00fffff3 24; Enc 0x000fffed 20; Enc 0x001fffe6 21;
    Enc 0x003fffe9 22; Enc 0x001fffe7 21; Enc 0x001fffe8 21; Enc 0x007ffff3 23;
    Enc 0x003fffea 22; Enc 0x003fffeb 22; Enc 0x01ffffee 25; Enc 0x01ffffef 25;
    Enc 0x00fffff4 24; Enc 0x00fffff5 24; Enc 0x03ffffea 26; Enc 0x007ffff4 23;
    Enc 0x03ffffeb 26; Enc 0x07ffffe6 27; Enc 0x03ffffec 26; Enc 0x03ffffed 26;
    Enc 0x07ffffe7 27; Enc 0x07ffffe8 27; Enc 0x07ffffe9 27; Enc 0x07ffffea 27;
    Enc 0x07ffffeb 27; Enc 0x0ffffffe 28; Enc 0x07ffffec 27; Enc 0x07ffffed 27;
    Enc 0x07ffffee 27; Enc 0x07ffffef 27; Enc 0x07fffff0 27; Enc 0x03ffffee 26 ].
