(* ===== verification/Huff.v ===== *)
(** * Huffman coding of HTTP header strings

    Model of src/reference/nginx-master/src/http/ngx_http_huff_decode.c and
    ngx_http_huff_encode.c.  The decoder is the four-bit automaton over the
    table of HuffTables.v; the encoder packs codes into a 64-bit accumulator.
    The reference is the code tree read one bit at a time. *)

From S2P Require Import Prelude NgxString HuffTables.

(** ** Decoder *)

(** The variables [*state], [ending] and the output written through [*dst]. *)
Record huff_decoder := HD { hd_state : Z; hd_ending : Z; hd_dst : list Z }.

(** [ngx_http_huff_decode_codes[state][bits]]; [state] is a [u_char] and
    [bits] a nibble, so the access is within the table. *)
Definition huff_decode_entry (state bits : Z) : ngx_http_huff_decode_code_t :=
  nth (Z.to_nat bits) (nth (Z.to_nat state) ngx_http_huff_decode_codes [])
    (Dec 0 0 0 0).

Definition ngx_http_huff_decode_bits (d : huff_decoder) (bits : Z)
  : Z * huff_decoder :=
  let code := huff_decode_entry (hd_state d) bits in
  if decide (d_next code = hd_state d) then (NGX_ERROR, d)
  else
    let dst :=
      if decide (d_emit code <> 0) then hd_dst d ++ [d_sym code]
      else hd_dst d in
    (NGX_OK, HD (d_next code) (d_ending code) dst).

(** The [while (src != end)] loop. *)
Fixpoint huff_decode_loop (src : list Z) (d : huff_decoder) : Z * huff_decoder :=
  match src with
  | [] => (NGX_OK, d)
  | ch :: src =>
      let '(rc, d) := ngx_http_huff_decode_bits d (Z.shiftr ch 4) in
      if decide (rc <> NGX_OK) then (NGX_ERROR, d)
      else
        let '(rc, d) := ngx_http_huff_decode_bits d (Z.land ch 0xf) in
        if decide (rc <> NGX_OK) then (NGX_ERROR, d)
        else huff_decode_loop src d
  end.

(** Returns the return code, the final [*state] and the bytes written. *)
Definition ngx_http_huff_decode (state : Z) (src : list Z) (last : bool)
  : Z * Z * list Z :=
  let '(rc, d) := huff_decode_loop src (HD state 1 []) in
  if decide (rc <> NGX_OK) then (NGX_ERROR, hd_state d, hd_dst d)
  else if last then
    if decide (hd_ending d = 0) then (NGX_ERROR, hd_state d, hd_dst d)
    else (NGX_OK, 0, hd_dst d)
  else (NGX_OK, hd_state d, hd_dst d).

(** ** Encoder *)

Definition huff_table (lower : bool) : list ngx_http_huff_encode_code_t :=
  if lower then ngx_http_huff_encode_table_lc else ngx_http_huff_encode_table.

Definition huff_encode_entry (lower : bool) (c : Z) : ngx_http_huff_encode_code_t :=
  nth (Z.to_nat c) (huff_table lower) (Enc 0 0).

(** [ngx_http_huff_encode_buf]: the eight bytes of [buf], high byte first. *)
Definition ngx_http_huff_encode_buf (buf : Z) : list Z :=
  map (fun k => u8 (Z.shiftr buf k)) [56; 48; 40; 32; 24; 16; 8; 0].

(** The [while (src != end)] loop: [hlen] is the length of the output so far;
    [None] is the early [return 0] when the output is no shorter than the
    source; otherwise the output and the final [buf] and [pending]. *)
Fixpoint huff_encode_loop (lower : bool) (len : Z) (src : list Z)
    (dst : list Z) (buf pending : Z) : option (list Z * Z * Z) :=
  match src with
  | [] => Some (dst, buf, pending)
  | c :: src =>
      let next := huff_encode_entry lower c in
      let code := e_code next in
      let pending := pending + e_len next in
      if decide (pending < 64) then
        huff_encode_loop lower len src dst
          (Z.lor buf (u64 (Z.shiftl code (64 - pending)))) pending
      else if decide (Z.of_nat (length dst) + 8 >= len) then None
      else
        let pending := pending - 64 in
        let buf := Z.lor buf (Z.shiftr code pending) in
        let dst := dst ++ ngx_http_huff_encode_buf buf in
        let buf :=
          if decide (pending <> 0) then u64 (Z.shiftl code (64 - pending))
          else 0 in
        huff_encode_loop lower len src dst buf pending
  end.

(** The final [do ... while (pending)] loop writes [n = pending / 8] bytes. *)
Fixpoint huff_encode_tail (n : nat) (buf : Z) : list Z :=
  match n with
  | O => []
  | S n => u8 (Z.shiftr buf (8 * Z.of_nat n)) :: huff_encode_tail n buf
  end.

(** The output bytes; [None] is the return value 0 of the early exits (an
    empty source also returns 0, with an empty output). *)
Definition ngx_http_huff_encode (src : list Z) (lower : bool) : option (list Z) :=
  let len := Z.of_nat (length src) in
  match huff_encode_loop lower len src [] 0 0 with
  | None => None
  | Some (dst, buf, pending) =>
      if decide (pending = 0) then Some dst
      else
        let buf := Z.lor buf (Z.shiftr (2 ^ 64 - 1) pending) in
        let pending := Z.land (pending + 7) (Z.lnot 7) in
        if decide (Z.of_nat (length dst) + pending / 8 >= len) then None
        else
          let buf := Z.shiftr buf (64 - pending) in
          Some (dst ++ huff_encode_tail (Z.to_nat (pending / 8)) buf)
  end.

(** ** Reference: the code tree, one bit at a time *)

(** The code word of a byte. *)
Definition huff_code_bits (lower : bool) (c : Z) : list bool :=
  let e := huff_encode_entry lower c in bits_of (Z.to_nat (e_len e)) (e_code e).

Definition all_bytes : list Z := map Z.of_nat (seq 0 256).

Definition huff_codes : list (Z * list bool) :=
  map (fun c => (c, huff_code_bits false c)) all_bytes.

Fixpoint is_prefix (p l : list bool) : bool :=
  match p, l with
  | [], _ => true
  | x :: p, y :: l => if Bool.eqb x y then is_prefix p l else false
  | _ :: _, [] => false
  end.

Definition beq (p l : list bool) : bool := is_prefix p l && is_prefix l p.

(** One bit: a completed code word yields its symbol and returns to the root;
    a proper prefix of some code word is kept; anything else (the EOS word) is
    an error. *)
Definition bit_step (p : list bool) (b : bool) : option (list bool * list Z) :=
  let p' := p ++ [b] in
  match find (fun x => beq p' (snd x)) huff_codes with
  | Some (s, _) => Some ([], [s])
  | None => if existsb (fun x => is_prefix p' (snd x)) huff_codes
            then Some (p', []) else None
  end.

Fixpoint bit_run (p : list bool) (l : list bool) : option (list bool * list Z) :=
  match l with
  | [] => Some (p, [])
  | b :: l =>
      match bit_step p b with
      | None => None
      | Some (p, o) =>
          match bit_run p l with
          | None => None
          | Some (p', o') => Some (p', o ++ o')
          end
      end
  end.

(** The final bits are accepted as padding when they are all ones, however
    many there are. *)
Definition padding_ok (p : list bool) : bool := forallb id p.

(** The tree node that each state of the automaton stands for. *)
Definition set_path (l : list (option (list bool))) (s : Z) (p : list bool) :=
  match l !! Z.to_nat s with
  | Some None => <[Z.to_nat s := Some p]> l
  | _ => l
  end.

Definition path_round (l : list (option (list bool))) :=
  fold_left (fun l s =>
    match l !! Z.to_nat s with
    | Some (Some p) =>
        fold_left (fun l n =>
          let e := huff_decode_entry s n in
          if d_next e =? s then l
          else
            let q := p ++ bits_of 4 n in
            let k := if d_emit e =? 0 then O
                     else length (huff_code_bits false (d_sym e)) in
            set_path l (d_next e) (drop k q))
          (map Z.of_nat (seq 0 16)) l
    | _ => l
    end) all_bytes l.

Definition state_paths : list (list bool) := Eval vm_compute in
  map (fun o => match o with Some p => p | None => [] end)
    (Nat.iter 8 path_round (Some [] :: repeat None 255)).

Definition state_path (s : Z) : list bool := nth (Z.to_nat s) state_paths [].

Definition code_bits (lower : bool) (src : list Z) : list bool :=
  src ≫= huff_code_bits lower.

Definition fold_case (lower : bool) (src : list Z) : list Z :=
  if lower then ngx_strlow src else src.

(** ** The automaton implements the code tree *)

Definition entry_ok (s n : Z) : bool :=
  let e := huff_decode_entry s n in
  match bit_run (state_path s) (bits_of 4 n) with
  | None => d_next e =? s
  | Some (p, o) =>
      negb (d_next e =? s) && bool_decide (is_byte (d_next e))
      && bool_decide (state_path (d_next e) = p)
      && bool_decide (o = if d_emit e =? 0 then [] else [d_sym e])
      && Bool.eqb (negb (d_ending e =? 0)) (padding_ok p)
  end.

Lemma table_ok s n : is_byte s -> 0 <= n < 16 -> entry_ok s n = true.
Proof.
  intros Hs Hn.
  assert (bytes_all (fun s => zall (entry_ok s) 0 16) = true) as H
    by (vm_compute; reflexivity).
  apply (zall_spec _ 0 16); [|lia]. by apply (bytes_all_spec _ H).
Qed.

(** What a run of the automaton means in the code tree. *)
Definition decodes (d d' : huff_decoder) (p : list bool) (o : list Z) : Prop :=
  is_byte (hd_state d') /\ state_path (hd_state d') = p
  /\ hd_dst d' = hd_dst d ++ o
  /\ (hd_ending d' <> 0 <-> padding_ok p = true).

Lemma decode_bits_ok d n :
  is_byte (hd_state d) -> 0 <= n < 16 ->
  match bit_run (state_path (hd_state d)) (bits_of 4 n) with
  | None => ngx_http_huff_decode_bits d n = (NGX_ERROR, d)
  | Some (p, o) =>
      exists d', ngx_http_huff_decode_bits d n = (NGX_OK, d') /\ decodes d d' p o
  end.
Proof.
  intros Hs Hn. pose proof (table_ok _ _ Hs Hn) as H.
  unfold entry_ok in H. unfold ngx_http_huff_decode_bits.
  destruct (bit_run _ _) as [[p o]|].
  - rewrite !andb_true_iff, negb_true_iff in H.
    destruct H as [[[[H1 H2] H3] H4] H5].
    apply Z.eqb_neq in H1. apply bool_decide_eq_true in H2, H3, H4.
    rewrite decide_False by done. eexists. split; [reflexivity|].
    apply eqb_prop in H5. unfold decodes. cbn. split_and!; [done|done| |].
    + rewrite H4. destruct (Z.eqb_spec (d_emit (huff_decode_entry (hd_state d) n)) 0).
      * case_decide; [done|]. by rewrite app_nil_r.
      * case_decide; [done|]. tauto.
    + rewrite <- H5, negb_true_iff, Z.eqb_neq. done.
  - apply Z.eqb_eq in H. by rewrite decide_True.
Qed.

Lemma bit_run_app p l1 l2 :
  bit_run p (l1 ++ l2) =
  match bit_run p l1 with
  | None => None
  | Some (p1, o1) =>
      match bit_run p1 l2 with
      | None => None
      | Some (p2, o2) => Some (p2, o1 ++ o2)
      end
  end.
Proof.
  revert p. induction l1 as [|b l1 IH]; intros p; cbn.
  - by destruct (bit_run p l2) as [[]|].
  - destruct (bit_step p b) as [[q o]|]; [|done]. rewrite IH.
    destruct (bit_run q l1) as [[q1 o1]|]; [|done].
    destruct (bit_run q1 l2) as [[q2 o2]|]; [|done].
    by rewrite app_assoc.
Qed.

Lemma byte_nibbles ch : is_byte ch ->
  bits_of 8 ch = bits_of 4 (Z.shiftr ch 4) ++ bits_of 4 (Z.land ch 15)
  /\ 0 <= Z.shiftr ch 4 < 16 /\ 0 <= Z.land ch 15 < 16.
Proof. intros H. byte_sweep ch H. Qed.

Lemma decodes_trans d d1 d2 p1 p2 o1 o2 :
  decodes d d1 p1 o1 -> decodes d1 d2 p2 o2 -> decodes d d2 p2 (o1 ++ o2).
Proof.
  unfold decodes. intros (?&?&E1&?) (?&?&E2&?).
  rewrite E2, E1, app_assoc. tauto.
Qed.

Lemma decode_loop_ok src d :
  is_byte (hd_state d) -> bytes src ->
  match bit_run (state_path (hd_state d)) (bytes_bits src) with
  | None => fst (huff_decode_loop src d) = NGX_ERROR
  | Some (p, o) =>
      exists d', huff_decode_loop src d = (NGX_OK, d')
        /\ (if decide (src = []) then d' = d /\ p = state_path (hd_state d) /\ o = []
            else decodes d d' p o)
  end.
Proof.
  intros Hd Hsrc. revert d Hd. induction Hsrc as [|ch src Hch Hsrc IH]; intros d Hd.
  { exists d. by rewrite decide_True. }
  destruct (byte_nibbles ch Hch) as (Eb & Hh & Hl).
  change (bytes_bits (ch :: src)) with (bits_of 8 ch ++ bytes_bits src).
  rewrite Eb, <- app_assoc, !bit_run_app. cbn [huff_decode_loop].
  pose proof (decode_bits_ok d _ Hd Hh) as H1.
  destruct (bit_run (state_path (hd_state d)) _) as [[p1 o1]|];
    [|rewrite H1; done].
  destruct H1 as (d1 & -> & D1). rewrite decide_False by (by intros H; apply H).
  pose proof D1 as (Hd1 & E1 & _). rewrite <- E1.
  pose proof (decode_bits_ok d1 _ Hd1 Hl) as H2. rewrite bit_run_app.
  destruct (bit_run (state_path (hd_state d1)) _) as [[p2 o2]|];
    [|rewrite H2; done].
  destruct H2 as (d2 & -> & D2). rewrite decide_False by (by intros H; apply H).
  pose proof D2 as (Hd2 & E2 & _). rewrite <- E2.
  specialize (IH d2 Hd2).
  destruct (bit_run (state_path (hd_state d2)) _) as [[p3 o3]|]; [|done].
  destruct IH as (d3 & -> & D3). exists d3. split; [done|].
  rewrite decide_False by done. rewrite app_assoc.
  pose proof (decodes_trans _ _ _ _ _ _ _ D1 D2) as D12.
  case_decide; [|by eapply decodes_trans].
  destruct D3 as (-> & -> & ->). rewrite app_nil_r. destruct D12 as (?&?&?&?).
  by rewrite <- E2 in *.
Qed.

Lemma huff_decode_run state src last :
  is_byte state -> bytes src ->
  match bit_run (state_path state) (bytes_bits src) with
  | None => fst (fst (ngx_http_huff_decode state src last)) = NGX_ERROR
  | Some (p, o) =>
      exists s', is_byte s' /\ state_path s' = p /\
        ngx_http_huff_decode state src last =
          if last then
            if bool_decide (src = []) || padding_ok p then (NGX_OK, 0, o)
            else (NGX_ERROR, s', o)
          else (NGX_OK, s', o)
  end.
Proof.
  intros Hs Hsrc. pose proof (decode_loop_ok src (HD state 1 []) Hs Hsrc) as H.
  cbn [hd_state] in H. unfold ngx_http_huff_decode.
  destruct (bit_run _ _) as [[p o]|].
  - destruct H as (d' & -> & D). rewrite decide_False by (by intros H; apply H).
    case_decide as E.
    + destruct D as (-> & -> & ->). subst. exists state.
      split_and!; [done|done|]. by destruct last.
    + destruct D as (Hb & Hp & Ho & He). exists (hd_state d').
      split_and!; [done|done|]. cbn in Ho. rewrite Ho.
      rewrite (bool_decide_eq_false_2 _ E). cbn [orb].
      destruct last; [|done]. case_decide as E0.
      * destruct (padding_ok p); [|done]. destruct He. tauto.
      * apply He in E0. by rewrite E0.
  - destruct (huff_decode_loop src _) as [rc d]. cbn in H. subst.
    rewrite decide_True by (by unfold NGX_ERROR, NGX_OK). done.
Qed.

(** C33: the four-bit automaton with its 256 by 16 table computes exactly what
    the code tree does one bit at a time, from any state, on any input: an
    error on the bits that spell the EOS word, otherwise the same symbols and
    the state that stands for the same unfinished code word; a last fragment
    is accepted when its unfinished code word is all ones. *)
Theorem huff_decode_refines state src last :
  is_byte state -> bytes src ->
  match bit_run (state_path state) (bytes_bits src) with
  | None => fst (fst (ngx_http_huff_decode state src last)) = NGX_ERROR
  | Some (p, o) =>
      exists s', is_byte s' /\ state_path s' = p /\
        ngx_http_huff_decode state src last =
          if last then
            if bool_decide (src = []) || padding_ok p then (NGX_OK, 0, o)
            else (NGX_ERROR, s', o)
          else (NGX_OK, s', o)
  end.
Proof. apply huff_decode_run. Qed.

(** ** The encoder *)

Lemma enc_entry_ok lower c :
  is_byte c ->
  5 <= e_len (huff_encode_entry lower c) <= 30 /\
  0 <= e_code (huff_encode_entry lower c) < 2 ^ e_len (huff_encode_entry lower c).
Proof. destruct lower; intros H; byte_sweep c H. Qed.

Lemma code_run lower c :
  is_byte c ->
  bit_run [] (huff_code_bits lower c)
    = Some ([], [if lower then ngx_tolower c else c]).
Proof. destruct lower; intros H; byte_sweep c H. Qed.

Lemma code_bits_run lower src :
  bytes src -> bit_run [] (code_bits lower src) = Some ([], fold_case lower src).
Proof.
  induction 1 as [|c src Hc _ IH]; [by destruct lower|].
  change (code_bits lower (c :: src))
    with (huff_code_bits lower c ++ code_bits lower src).
  rewrite bit_run_app, code_run, IH by done. by destruct lower.
Qed.

Lemma padding_run k :
  (k < 8)%nat ->
  bit_run [] (replicate k true) = Some (replicate k true, []).
Proof. intros H. do 8 (destruct k as [|k]; [vm_compute; reflexivity|]). lia. Qed.

Lemma padding_ok_ones k : padding_ok (replicate k true) = true.
Proof. induction k; [done|exact IHk]. Qed.

Lemma length_code_bits_cons lower c src :
  length (code_bits lower (c :: src))
  = (Z.to_nat (e_len (huff_encode_entry lower c)) + length (code_bits lower src))%nat.
Proof.
  change (code_bits lower (c :: src))
    with (huff_code_bits lower c ++ code_bits lower src).
  rewrite length_app. unfold huff_code_bits. by rewrite length_bits_of.
Qed.

(** The accumulator: the pending bits, left-aligned in 64 bits. *)
Definition holds (buf : Z) (pend : list bool) : Prop :=
  bits_of 64 buf = pend ++ replicate (64 - length pend) false.

Lemma zip_pack a b n :
  zip_with orb (a ++ replicate (length b + n) false)
    (replicate (length a) false ++ b ++ replicate n false)
  = a ++ b ++ replicate n false.
Proof.
  rewrite zip_with_app by (by rewrite length_replicate).
  rewrite zip_orb_false_r. f_equal.
  rewrite replicate_add.
  rewrite zip_with_app by (by rewrite length_replicate).
  f_equal.
  - clear. induction b as [|x b IH]; cbn; congruence.
  - clear. induction n; cbn; congruence.
Qed.

Lemma holds_or buf pend v w n :
  holds buf pend -> (length pend + length w + n = 64)%nat ->
  bits_of 64 v = replicate (length pend) false ++ w ++ replicate n false ->
  bits_of 64 (Z.lor buf v) = pend ++ w ++ replicate n false.
Proof.
  unfold holds. intros H Hl Hv. rewrite bits_of_lor, H, Hv.
  replace (64 - length pend)%nat with (length w + n)%nat by lia.
  apply zip_pack.
Qed.

(** A code word shifted into place. *)
Lemma bits_code_shl (p l n : nat) v :
  (p + l + n = 64)%nat -> 0 <= v < 2 ^ Z.of_nat l ->
  bits_of 64 (u64 (Z.shiftl v (Z.of_nat n)))
    = replicate p false ++ bits_of l v ++ replicate n false.
Proof.
  intros H Hv. rewrite bits_of_u64.
  replace 64%nat with ((p + l) + n)%nat by lia.
  by rewrite bits_of_shiftl, bits_of_small, app_assoc.
Qed.

(** Eight bytes of the accumulator. *)
Lemma bytes_bits_buf buf : bytes_bits (ngx_http_huff_encode_buf buf) = bits_of 64 buf.
Proof.
  change 64%nat with (8 + (8 + (8 + (8 + (8 + (8 + (8 + 8))))))) %nat.
  rewrite !bits_of_app. unfold bytes_bits, ngx_http_huff_encode_buf. cbn -[bits_of u8].
  rewrite app_nil_r, Z.shiftr_0_r.
  by rewrite !bits_of_u8.
Qed.

Lemma encode_buf_bytes buf : bytes (ngx_http_huff_encode_buf buf).
Proof. repeat constructor; apply u8_byte. Qed.

Lemma length_encode_buf buf : length (ngx_http_huff_encode_buf buf) = 8%nat.
Proof. reflexivity. Qed.

(** One symbol that does not fill the accumulator. *)
Lemma holds_pack lower c buf pend :
  is_byte c -> holds buf pend ->
  let e := huff_encode_entry lower c in
  let pending := Z.of_nat (length pend) + e_len e in
  pending < 64 ->
  holds (Z.lor buf (u64 (Z.shiftl (e_code e) (64 - pending))))
    (pend ++ huff_code_bits lower c).
Proof.
  intros Hc H e pending Hlt. destruct (enc_entry_ok lower c Hc) as [Hl Hv].
  unfold holds. rewrite length_app. unfold huff_code_bits. fold e. fold e in Hl, Hv.
  rewrite length_bits_of, <- app_assoc.
  set (l := Z.to_nat (e_len e)) in *.
  apply holds_or; [done|rewrite length_bits_of; lia|].
  replace (64 - pending) with (Z.of_nat (64 - (length pend + l))) by lia.
  apply bits_code_shl; [lia|]. by replace (Z.of_nat l) with (e_len e) by lia.
Qed.

(** One symbol that fills it: eight bytes go out and the [k] low bits of the
    code stay. *)
Lemma holds_flush lower c buf pend :
  is_byte c -> holds buf pend -> (length pend < 64)%nat ->
  let e := huff_encode_entry lower c in
  let k := Z.of_nat (length pend) + e_len e - 64 in
  0 <= k ->
  exists w r,
    huff_code_bits lower c = w ++ r /\ Z.of_nat (length r) = k /\
    bits_of 64 (Z.lor buf (Z.shiftr (e_code e) k)) = pend ++ w /\
    holds (if decide (k <> 0) then u64 (Z.shiftl (e_code e) (64 - k)) else 0) r.
Proof.
  intros Hc H Hp e k Hk. destruct (enc_entry_ok lower c Hc) as [Hl Hv].
  fold e in Hl, Hv. set (m := Z.to_nat (e_len e - k)).
  exists (bits_of m (Z.shiftr (e_code e) k)), (bits_of (Z.to_nat k) (e_code e)).
  rewrite length_bits_of. split_and!.
  - unfold huff_code_bits. fold e.
    replace (Z.to_nat (e_len e)) with (m + Z.to_nat k)%nat by lia.
    rewrite bits_of_app. by rewrite Z2Nat.id by lia.
  - lia.
  - rewrite <- (app_nil_r (bits_of m _)). change (@nil bool) with (replicate 0 false).
    apply holds_or; [done|rewrite length_bits_of; lia|].
    cbn [replicate]. rewrite app_nil_r.
    replace 64%nat with (length pend + m)%nat by lia.
    apply bits_of_small. rewrite Z.shiftr_div_pow2 by lia.
    replace (2 ^ Z.of_nat m) with (2 ^ e_len e / 2 ^ k).
    + split; [apply Z.div_pos; lia|].
      apply Z.div_lt_upper_bound; [lia|].
      rewrite <- Z.divide_div_mul_exact; [|lia|].
      * rewrite (Z.mul_comm (2 ^ k)), Z.div_mul by lia. lia.
      * exists (2 ^ (e_len e - k)). rewrite <- Z.pow_add_r by lia. f_equal. lia.
    + rewrite <- Z.pow_sub_r by lia. f_equal. lia.
  - unfold holds. rewrite length_bits_of. case_decide as E.
    + rewrite bits_of_u64.
      replace (64 - k) with (Z.of_nat (64 - Z.to_nat k)) by lia.
      replace 64%nat with (Z.to_nat k + (64 - Z.to_nat k))%nat at 1 by lia.
      apply bits_of_shiftl.
    + replace k with 0 by lia. apply bits_of_0.
Qed.

Lemma encode_loop_ok lower n src dst buf pend :
  bytes src -> holds buf pend -> (length pend < 64)%nat -> bytes dst ->
  match huff_encode_loop lower n src dst buf (Z.of_nat (length pend)) with
  | Some (dst', buf', pending') =>
      exists pend', pending' = Z.of_nat (length pend') /\ holds buf' pend' /\
        (length pend' < 64)%nat /\ bytes dst' /\
        bytes_bits dst' ++ pend' = bytes_bits dst ++ pend ++ code_bits lower src /\
        (dst' = dst \/ Z.of_nat (length dst') < n)
  | None =>
      8 * n <= 8 * Z.of_nat (length dst) + Z.of_nat (length pend)
                 + Z.of_nat (length (code_bits lower src))
  end.
Proof.
  intros Hsrc. revert dst buf pend.
  induction Hsrc as [|c src Hc Hsrc IH]; intros dst buf pend H Hp Hd.
  { exists pend. rewrite app_nil_r. tauto. }
  cbn [huff_encode_loop]. rewrite length_code_bits_cons.
  destruct (enc_entry_ok lower c Hc) as [Hl _].
  change (code_bits lower (c :: src))
    with (huff_code_bits lower c ++ code_bits lower src).
  case_decide as Hlt.
  - pose proof (holds_pack lower c buf pend Hc H Hlt) as H'.
    assert (length (pend ++ huff_code_bits lower c)
            = length pend + Z.to_nat (e_len (huff_encode_entry lower c)))%nat as El
      by (rewrite length_app; unfold huff_code_bits; by rewrite length_bits_of).
    specialize (IH dst _ _ H' ltac:(lia) Hd). rewrite El in IH.
    replace (Z.of_nat (length pend + Z.to_nat (e_len (huff_encode_entry lower c))))
      with (Z.of_nat (length pend) + e_len (huff_encode_entry lower c)) in IH by lia.
    destruct (huff_encode_loop _ _ _ _ _ _) as [[[dst' buf'] pending']|]; [|lia].
    destruct IH as (pend' & ? & ? & ? & ? & E & ?). exists pend'.
    split_and!; try done. rewrite E, <- !app_assoc. done.
  - case_decide as Hlen; [lia|].
    destruct (holds_flush lower c buf pend Hc H Hp) as (w & r & Ew & Er & Hb & Hr); [lia|].
    rewrite <- Er in *.
    specialize (IH (dst ++ ngx_http_huff_encode_buf
      (Z.lor buf (Z.shiftr (e_code (huff_encode_entry lower c)) (Z.of_nat (length r)))))
      _ r Hr ltac:(lia)).
    rewrite length_app, length_encode_buf in IH.
    specialize (IH ltac:(apply Forall_app; split; [done|apply encode_buf_bytes])).
    destruct (huff_encode_loop _ _ _ _ _ _) as [[[dst' buf'] pending']|]; [|lia].
    destruct IH as (pend' & ? & ? & ? & ? & E & Hn). exists pend'.
    split_and!; try done.
    + rewrite E, bytes_bits_app, bytes_bits_buf, Hb, Ew, <- !app_assoc. done.
    + right. destruct Hn as [->|]; [|done].
      rewrite length_app, length_encode_buf. lia.
Qed.

Lemma bytes_bits_tail n buf :
  bytes_bits (huff_encode_tail n buf) = bits_of (8 * n) buf.
Proof.
  induction n as [|n IH]; [done|].
  change (bytes_bits (huff_encode_tail (S n) buf))
    with (bits_of 8 (u8 (Z.shiftr buf (8 * Z.of_nat n)))
          ++ bytes_bits (huff_encode_tail n buf)).
  replace (8 * S n)%nat with (8 + 8 * n)%nat by lia.
  rewrite bits_of_app, IH, bits_of_u8.
  by replace (Z.of_nat (8 * n)) with (8 * Z.of_nat n) by lia.
Qed.

Lemma encode_tail_bytes n buf : bytes (huff_encode_tail n buf).
Proof. induction n; cbn; constructor; [apply u8_byte|done]. Qed.

Lemma length_encode_tail n buf : length (huff_encode_tail n buf) = n.
Proof. induction n; cbn; congruence. Qed.

(** [ngx_align(pending, 8)] *)
Lemma align8 p : 0 <= p < 64 ->
  let q := Z.land (p + 7) (Z.lnot 7) in
  p <= q < p + 8 /\ q <= 64 /\ q = 8 * (q / 8).
Proof.
  intros H q. subst q. assert (is_byte p) as Hp by (unfold is_byte; lia).
  revert H. byte_sweep p Hp.
Qed.

(** The accumulator with the padding in, shifted down to whole bytes. *)
Lemma padded_bits buf pend (q : nat) :
  holds buf pend -> (length pend <= q <= 64)%nat ->
  bits_of q (Z.shiftr (Z.lor buf (Z.shiftr (2 ^ 64 - 1) (Z.of_nat (length pend))))
               (64 - Z.of_nat q))
    = pend ++ replicate (q - length pend) true.
Proof.
  intros H Hq. set (p := length pend) in *.
  assert (bits_of 64 (Z.lor buf (Z.shiftr (2 ^ 64 - 1) (Z.of_nat p)))
          = pend ++ replicate (64 - p) true ++ replicate 0 false) as E.
  { apply holds_or; [done|rewrite length_replicate; subst p; lia|].
    rewrite app_nil_r. fold p.
    replace 64%nat with (p + (64 - p))%nat at 1 by lia.
    rewrite Z.shiftr_div_pow2 by lia.
    replace ((2 ^ 64 - 1) / 2 ^ Z.of_nat p) with (2 ^ Z.of_nat (64 - p) - 1).
    - rewrite bits_of_small by lia. by rewrite bits_of_ones.
    - apply Z.div_unique with (2 ^ Z.of_nat p - 1); [lia|].
      replace 64 with (Z.of_nat p + Z.of_nat (64 - p)) at 1 by lia.
      rewrite Z.pow_add_r by lia. ring. }
  rewrite app_nil_r in E.
  replace 64%nat with (q + (64 - q))%nat in E at 1 by lia.
  rewrite bits_of_app in E.
  replace (64 - Z.of_nat q) with (Z.of_nat (64 - q)) by lia.
  apply (f_equal (take q)) in E.
  rewrite take_app_length' in E by (by rewrite length_bits_of). rewrite E.
  rewrite take_app_ge by lia. fold p. rewrite take_replicate. f_equal. f_equal. lia.
Qed.

(** What the encoder writes, and when it gives up. *)
Lemma encode_ok lower src :
  bytes src ->
  match ngx_http_huff_encode src lower with
  | Some dst =>
      bytes dst
      /\ (exists k, (k < 8)%nat /\ bytes_bits dst = code_bits lower src ++ replicate k true)
      /\ (src <> [] -> (length dst < length src)%nat)
  | None => 8 * Z.of_nat (length src) <= Z.of_nat (length (code_bits lower src)) + 7
  end.
Proof.
  intros Hsrc. unfold ngx_http_huff_encode.
  assert (holds 0 []) as H0 by (unfold holds; apply bits_of_0).
  pose proof (encode_loop_ok lower (Z.of_nat (length src)) src [] 0 [] Hsrc H0
                ltac:(cbn; lia) ltac:(constructor)) as H.
  cbn [length] in H. change (Z.of_nat 0) with 0 in H.
  destruct (huff_encode_loop _ _ _ _ _ _) as [[[dst buf] pending]|]; [|lia].
  destruct H as (pend & -> & Hb & Hp & Hd & E & Hn). cbn in E.
  case_decide as Ep.
  - split_and!; [done| |].
    + exists 0%nat. split; [lia|]. destruct pend; [|cbn in Ep; lia].
      by rewrite <- E, !app_nil_r.
    + intros Hne. destruct Hn as [->|]; [|lia]. cbn.
      destruct src; [done|]. cbn. lia.
  - destruct (align8 (Z.of_nat (length pend))) as (Hq & Hq64 & Hq8); [lia|].
    set (q := Z.land _ _) in *.
    assert (8 * length dst + length pend = length (code_bits lower src))%nat as El.
    { rewrite <- E, length_app. f_equal. clear. unfold bytes_bits.
      induction dst as [|x dst IH]; [done|].
      cbn [length mbind list_bind]. rewrite length_app, length_bits_of, <- IH. lia. }
    case_decide; [lia|].
    split_and!.
    + apply Forall_app. split; [done|apply encode_tail_bytes].
    + exists (Z.to_nat q - length pend)%nat. split; [lia|].
      rewrite bytes_bits_app, bytes_bits_tail, <- E, <- app_assoc. f_equal.
      replace (8 * Z.to_nat (q / 8))%nat with (Z.to_nat q) by lia.
      replace (64 - q) with (64 - Z.of_nat (Z.to_nat q)) by lia.
      apply padded_bits; [done|lia].
    + intros _. rewrite length_app, length_encode_tail. lia.
Qed.

Lemma huff_decode_encode src lower dst :
  bytes src -> ngx_http_huff_encode src lower = Some dst ->
  ngx_http_huff_decode 0 dst true = (NGX_OK, 0, fold_case lower src).
Proof.
  intros Hsrc E. pose proof (encode_ok lower src Hsrc) as H. rewrite E in H.
  destruct H as (Hd & (k & Hk & Eb) & _).
  pose proof (huff_decode_run 0 dst true ltac:(unfold is_byte; lia) Hd) as R.
  change (state_path 0) with (@nil bool) in R.
  rewrite Eb, bit_run_app, code_bits_run, padding_run, app_nil_r in R by done.
  destruct R as (s' & _ & _ & ->). by rewrite padding_ok_ones, orb_true_r.
Qed.

(** C15: whatever the encoder produces, the decoder gives back: decoding the
    complete output from the initial state succeeds, returns to state 0 and
    yields the source, in lower case when that was asked for. *)
Theorem huff_roundtrip src lower dst :
  bytes src -> ngx_http_huff_encode src lower = Some dst ->
  ngx_http_huff_decode 0 dst true = (NGX_OK, 0, fold_case lower src).
Proof. exact (huff_decode_encode src lower dst). Qed.

(** the encoder succeeds exactly when the code words, rounded up to whole
    bytes, are shorter than the source, and it then writes exactly that many
    bytes, all of them bytes. *)
Theorem huff_encode_size src lower :
  bytes src -> src <> [] ->
  let size := (Z.of_nat (length (code_bits lower src)) + 7) / 8 in
  match ngx_http_huff_encode src lower with
  | Some dst => bytes dst /\ Z.of_nat (length dst) = size
                /\ size < Z.of_nat (length src)
  | None => size >= Z.of_nat (length src)
  end.
Proof.
  intros Hsrc Hne size. pose proof (encode_ok lower src Hsrc) as H.
  destruct (ngx_http_huff_encode src lower) as [dst|].
  - destruct H as (Hd & (k & Hk & Eb) & Hlt). specialize (Hlt Hne).
    apply (f_equal length) in Eb.
    rewrite length_bytes_bits, length_app, length_replicate in Eb.
    split; [done|]. subst size. dlia.
  - subst size. dlia.
Qed.

(** Two decoders in the same state, one with more output already written. *)
Definition same_run (o : list Z) (d d0 : huff_decoder) : Prop :=
  hd_state d = hd_state d0 /\ hd_dst d = o ++ hd_dst d0.

Lemma decode_bits_frame o d d0 n rc d' :
  same_run o d d0 -> ngx_http_huff_decode_bits d n = (rc, d') ->
  exists d0', ngx_http_huff_decode_bits d0 n = (rc, d0') /\ same_run o d' d0'
    /\ (rc = NGX_OK -> hd_ending d' = hd_ending d0').
Proof.
  unfold same_run, ngx_http_huff_decode_bits. intros [E1 E2]. rewrite E1.
  case_decide; intros [= <- <-]; eexists; (split; [reflexivity|]);
    cbn; split_and!; try done.
  case_decide; [|done]. by rewrite E2, app_assoc.
Qed.

Lemma decode_loop_frame o l d d0 rc d' :
  same_run o d d0 -> huff_decode_loop l d = (rc, d') ->
  exists d0', huff_decode_loop l d0 = (rc, d0') /\ same_run o d' d0'
    /\ (rc = NGX_OK -> l <> [] -> hd_ending d' = hd_ending d0').
Proof.
  revert d d0 rc d'. induction l as [|ch l IH]; intros d d0 rc d' Hs; cbn.
  { intros [= <- <-]. eexists. split_and!; [done..|]. by intros _ []. }
  destruct (ngx_http_huff_decode_bits d _) as [rc1 d1] eqn:E1.
  destruct (decode_bits_frame o d d0 _ _ _ Hs E1) as (d01 & -> & Hs1 & _).
  case_decide; [intros [= <- <-]; eexists; split_and!; done|].
  destruct (ngx_http_huff_decode_bits d1 _) as [rc2 d2] eqn:E2.
  destruct (decode_bits_frame o d1 d01 _ _ _ Hs1 E2) as (d02 & -> & Hs2 & He).
  case_decide as Hrc; [intros [= <- <-]; eexists; split_and!; done|].
  intros E. destruct (IH d2 d02 _ _ Hs2 E) as (d0' & E0 & Hs' & He').
  exists d0'. split_and!; [done..|]. intros Hok _. destruct l; [|by apply He'].
  cbn in E, E0. simplify_eq. by apply He.
Qed.

Lemma decode_loop_app a b d :
  huff_decode_loop (a ++ b) d =
  let '(rc, d') := huff_decode_loop a d in
  if decide (rc <> NGX_OK) then (NGX_ERROR, d') else huff_decode_loop b d'.
Proof.
  revert d. induction a as [|ch a IH]; intros d; [done|]. cbn [app huff_decode_loop].
  destruct (ngx_http_huff_decode_bits d _) as [rc d1]. case_decide; [done|].
  destruct (ngx_http_huff_decode_bits d1 _) as [rc2 d2]. case_decide; [done|].
  apply IH.
Qed.

(** Decoding may be split at any byte: a non-last fragment followed by a
    non-empty fragment, from the state the first one left, gives the outcome,
    the state and the output of the two fragments decoded together. *)
Theorem huff_decode_split state a b last s1 o1 :
  b <> [] ->
  ngx_http_huff_decode state a false = (NGX_OK, s1, o1) ->
  ngx_http_huff_decode state (a ++ b) last =
    let '(rc, s2, o2) := ngx_http_huff_decode s1 b last in (rc, s2, o1 ++ o2).
Proof.
  intros Hb. unfold ngx_http_huff_decode. rewrite decode_loop_app.
  destruct (huff_decode_loop a _) as [rc d1] eqn:E1.
  case_decide; [discriminate|]. intros [= <- <-].
  destruct (huff_decode_loop b d1) as [rc2 d2] eqn:E2.
  destruct (decode_loop_frame (hd_dst d1) b d1 (HD (hd_state d1) 1 []) _ _
              ltac:(split; [done|by rewrite app_nil_r]) E2) as (d0 & -> & [Es Eo] & He).
  rewrite Es, Eo. case_decide as Hrc; [done|].
  rewrite (He Hrc Hb).
  destruct last; [|done]. by case_decide.
Qed.

(** ** Witnesses *)

Lemma huff_decode_refines_witness :
  is_byte 0 /\ bytes [0xf1; 0xe3; 0xc7] /\
  exists s', is_byte s' /\ state_path s' = [true; true; true] /\
    ngx_http_huff_decode 0 [0xf1; 0xe3; 0xc7] true = (NGX_OK, 0, [119; 119; 119]).
Proof.
  assert (is_byte 0) as H0 by by_decide.
  assert (bytes [0xf1; 0xe3; 0xc7]) as Hb by by_decide.
  split; [exact H0|]. split; [by_decide|].
  exact (huff_decode_refines 0 [0xf1; 0xe3; 0xc7] true H0 Hb).
Defined.

Lemma huff_roundtrip_witness :
  bytes (bstr "WWW.Example.com") /\
  ngx_http_huff_decode 0 [241; 227; 194; 229; 242; 58; 107; 160; 171; 144; 244; 255] true
    = (NGX_OK, 0, bstr "www.example.com").
Proof.
  assert (bytes (bstr "WWW.Example.com")) as Hb by by_decide.
  split; [exact Hb|].
  refine (huff_roundtrip (bstr "WWW.Example.com") true _ Hb _).
  vm_compute; reflexivity.
Defined.

Lemma huff_encode_size_witness :
  bytes (bstr "aaaaaaaa") /\ bstr "aaaaaaaa" <> [] /\
  ngx_http_huff_encode (bstr "aaaaaaaa") false = Some [24; 198; 49; 140; 99] /\
  Z.of_nat (length [24; 198; 49; 140; 99]) = 5.
Proof.
  assert (bytes (bstr "aaaaaaaa")) as Hb by by_decide.
  assert (bstr "aaaaaaaa" <> []) as Hn by discriminate.
  pose proof (huff_encode_size (bstr "aaaaaaaa") false Hb Hn) as H.
  split; [exact Hb|]. split; [exact Hn|]. split; [vm_compute; reflexivity|].
  exact (proj1 (proj2 H)).
Defined.

Lemma huff_decode_split_witness :
  [0xc7] <> [] /\
  ngx_http_huff_decode 0 ([0xf1; 0xe3] ++ [0xc7]) true
    = (NGX_OK, 0, [119; 119; 119]).
Proof.
  assert ([0xc7] <> []) as Hn by discriminate.
  split; [exact Hn|].
  refine (eq_trans (huff_decode_split 0 [0xf1; 0xe3] [0xc7] true _ _ Hn _) _);
    vm_compute; reflexivity.
Defined.

(** A string that ends in more than seven bits of padding is accepted, here
    three bytes of ones: every all-ones state of the table is accepting. *)
Example huff_long_padding :
  ngx_http_huff_decode 0 [0xff; 0xff; 0xff] true = (NGX_OK, 0, []).
Proof. vm_compute. reflexivity. Qed.
