(* ===== verification/Num.v ===== *)
(** * Number parsing of ngx_string.c

    [ngx_atoi], [ngx_atosz], [ngx_atoof], [ngx_atotm], [ngx_atofp],
    [ngx_hextoi] and [ngx_hex_dump].  A buffer and its length are one list;
    values are the signed 64-bit integers of the source, whose range the
    theorems show is never left. *)

From S2P Require Import Prelude.

Open Scope ch_scope.

(** ** Definitions *)

Definition is_digit (c : Z) : bool := bool_decide ("0" <= c /\ c <= "9").

(** The [for] loop of [ngx_atoi] and of its copies, [cutoff] and [cutlim] being
    the quotient and remainder by ten of the type's largest value. *)
Fixpoint atoi_loop (max value : Z) (line : list Z) : Z :=
  let cutoff := max / 10 in
  let cutlim := max mod 10 in
  match line with
  | [] => value
  | c :: line =>
      if decide (c < "0" \/ c > "9") then NGX_ERROR
      else if decide (value >= cutoff /\ (value > cutoff \/ c - "0" > cutlim))
      then NGX_ERROR
      else atoi_loop max (value * 10 + (c - "0")) line
  end.

Definition atoi_max (max : Z) (line : list Z) : Z :=
  match line with [] => NGX_ERROR | _ => atoi_loop max 0 line end.

Definition ngx_atoi (line : list Z) : Z := atoi_max NGX_MAX_INT_T_VALUE line.
Definition ngx_atosz (line : list Z) : Z := atoi_max NGX_MAX_SIZE_T_VALUE line.
Definition ngx_atoof (line : list Z) : Z := atoi_max NGX_MAX_OFF_T_VALUE line.
Definition ngx_atotm (line : list Z) : Z := atoi_max NGX_MAX_TIME_T_VALUE line.

(** [while (point--)] at the end of [ngx_atofp]. *)
Fixpoint atofp_scale (point : nat) (value : Z) : Z :=
  match point with
  | O => value
  | S point =>
      if decide (value > NGX_MAX_INT_T_VALUE / 10) then NGX_ERROR
      else atofp_scale point (value * 10)
  end.

(** The [for] loop; [point] is an unsigned counter that the guard keeps from
    wrapping. *)
Fixpoint atofp_loop (line : list Z) (value : Z) (dot : bool) (point : nat) : Z :=
  let cutoff := NGX_MAX_INT_T_VALUE / 10 in
  let cutlim := NGX_MAX_INT_T_VALUE mod 10 in
  match line with
  | [] => atofp_scale point value
  | c :: line =>
      if decide (point = O) then NGX_ERROR
      else if decide (c = ".") then
        if dot then NGX_ERROR else atofp_loop line value true point
      else if decide (c < "0" \/ c > "9") then NGX_ERROR
      else if decide (value >= cutoff /\ (value > cutoff \/ c - "0" > cutlim))
      then NGX_ERROR
      else atofp_loop line (value * 10 + (c - "0")) dot
             (if dot then pred point else point)
  end.

Definition ngx_atofp (line : list Z) (point : nat) : Z :=
  match line with [] => NGX_ERROR | _ => atofp_loop line 0 false point end.

Fixpoint hextoi_loop (value : Z) (line : list Z) : Z :=
  let cutoff := NGX_MAX_INT_T_VALUE / 16 in
  match line with
  | [] => value
  | ch :: line =>
      if decide (value > cutoff) then NGX_ERROR
      else if decide (ch >= "0" /\ ch <= "9")
      then hextoi_loop (value * 16 + (ch - "0")) line
      else
        let c := u8 (Z.lor ch 0x20) in
        if decide (c >= "a" /\ c <= "f")
        then hextoi_loop (value * 16 + (c - "a" + 10)) line
        else NGX_ERROR
  end.

Definition ngx_hextoi (line : list Z) : Z :=
  match line with [] => NGX_ERROR | _ => hextoi_loop 0 line end.

Definition hex_digit (n : Z) : Z := nth (Z.to_nat n) (bstr "0123456789abcdef") 0.

Fixpoint ngx_hex_dump (src : list Z) : list Z :=
  match src with
  | [] => []
  | c :: src => hex_digit (Z.shiftr c 4) :: hex_digit (Z.land c 0xf) :: ngx_hex_dump src
  end.

(** ** Reference: positional numerals *)

(** The value of a numeral in base [b], after a prefix worth [v]. *)
Definition numeral (b : Z) (digit : Z -> Z) (v : Z) (l : list Z) : Z :=
  fold_left (fun v c => v * b + digit c) l v.

Definition dec_value : list Z -> Z := numeral 10 (fun c => c - "0") 0.

Definition is_hex (c : Z) : bool :=
  is_digit c || bool_decide ("a" <= c /\ c <= "f") || bool_decide ("A" <= c /\ c <= "F").

Definition hex_val (c : Z) : Z :=
  if is_digit c then c - "0"
  else if decide ("a" <= c) then c - "a" + 10 else c - "A" + 10.

Definition hex_value : list Z -> Z := numeral 16 hex_val 0.

(** A fixed-point numeral: digits with at most one dot, as the digits before
    and after it; [dot] says that the dot was already met. *)
Fixpoint fixed_point (dot : bool) (line : list Z) : option (list Z * list Z) :=
  match line with
  | [] => Some ([], [])
  | c :: line =>
      if decide (c = ".") then if dot then None else fixed_point true line
      else if is_digit c then
        match fixed_point dot line with
        | Some (a, b) => Some (if dot then (a, c :: b) else (c :: a, b))
        | None => None
        end
      else None
  end.

(** ** Lemmas *)

Lemma is_digit_spec c : is_digit c = true <-> "0" <= c /\ c <= "9".
Proof. apply bool_decide_eq_true. Qed.

Lemma is_digit_false c : is_digit c = false <-> c < "0" \/ c > "9".
Proof. unfold is_digit. rewrite bool_decide_eq_false. lia. Qed.

(** A numeral only grows. *)
Lemma numeral_ge b digit v l :
  1 <= b -> 0 <= v -> Forall (fun c => 0 <= digit c) l -> v <= numeral b digit v l.
Proof.
  intros Hb Hv Hl. revert v Hv.
  induction Hl as [|c l Hc Hl IH]; intros v Hv; [done|].
  assert (v <= v * b + digit c) by nia.
  etransitivity; [|apply (IH (v * b + digit c))]; lia.
Qed.

Lemma numeral_app b digit v l1 l2 :
  numeral b digit v (l1 ++ l2) = numeral b digit (numeral b digit v l1) l2.
Proof. apply fold_left_app. Qed.

Lemma digits_nonneg l :
  forallb is_digit l = true -> Forall (fun c => 0 <= c - "0") l.
Proof.
  rewrite forallb_forall, Forall_forall. intros H c Hc.
  apply H, is_digit_spec in Hc. lia.
Qed.

(** The overflow guard of the loops is exact. *)
Lemma cutoff_exact max v d :
  0 <= max -> 0 <= d <= 9 ->
  (v >= max / 10 /\ (v > max / 10 \/ d > max mod 10)) <-> max < v * 10 + d.
Proof. intros. dlia. Qed.

Lemma atoi_loop_spec max v line :
  0 <= v <= max ->
  atoi_loop max v line =
    if forallb is_digit line && (numeral 10 (fun c => c - "0") v line <=? max)
    then numeral 10 (fun c => c - "0") v line else NGX_ERROR.
Proof.
  revert v. induction line as [|c line IH]; intros v Hv.
  { cbn. rewrite (proj2 (Z.leb_le v max)) by lia. done. }
  cbn [atoi_loop forallb]. case_decide as Hc.
  { by rewrite (proj2 (is_digit_false c) Hc). }
  rewrite (proj2 (is_digit_spec c)) by lia. cbn [andb].
  change (numeral 10 (fun c => c - "0") v (c :: line))
    with (numeral 10 (fun c => c - "0") (v * 10 + (c - "0")) line).
  case_decide as Ho.
  - apply cutoff_exact in Ho; [|lia|lia].
    destruct (forallb is_digit line) eqn:E; [|done]. cbn [andb].
    pose proof (numeral_ge 10 (fun c => c - "0") (v * 10 + (c - "0")) line
                  ltac:(lia) ltac:(lia) (digits_nonneg _ E)).
    rewrite (proj2 (Z.leb_gt _ max)) by lia. done.
  - rewrite cutoff_exact in Ho by lia. apply IH. lia.
Qed.

Lemma atoi_max_spec max line :
  0 <= max ->
  atoi_max max line =
    if negb (bool_decide (line = [])) && forallb is_digit line
       && (dec_value line <=? max)
    then dec_value line else NGX_ERROR.
Proof.
  intros H. destruct line as [|c line]; [done|].
  rewrite bool_decide_eq_false_2 by done. apply atoi_loop_spec. lia.
Qed.

(** [ngx_atoi] is exact: it returns the value of a non-empty string of
    decimal digits when that is at most [NGX_MAX_INT_T_VALUE], and [NGX_ERROR]
    in every other case. *)
Theorem atoi_exact line :
  ngx_atoi line =
    if negb (bool_decide (line = [])) && forallb is_digit line
       && (dec_value line <=? NGX_MAX_INT_T_VALUE)
    then dec_value line else NGX_ERROR.
Proof. apply atoi_max_spec. by_decide. Qed.

(** *** Fixed point *)

Lemma atofp_scale_spec point v :
  0 <= v <= NGX_MAX_INT_T_VALUE ->
  atofp_scale point v =
    if v * 10 ^ Z.of_nat point <=? NGX_MAX_INT_T_VALUE
    then v * 10 ^ Z.of_nat point else NGX_ERROR.
Proof.
  revert v. induction point as [|point IH]; intros v Hv; cbn [atofp_scale].
  { change (10 ^ Z.of_nat 0) with 1. rewrite Z.mul_1_r.
    by rewrite (proj2 (Z.leb_le v NGX_MAX_INT_T_VALUE)) by lia. }
  replace (10 ^ Z.of_nat (S point)) with (10 * 10 ^ Z.of_nat point)
    by (rewrite <- Z.pow_succ_r by lia; f_equal; lia).
  pose proof (Z.pow_pos_nonneg 10 (Z.of_nat point) ltac:(lia) ltac:(lia)).
  rewrite Z.mul_assoc. case_decide as Hc.
  - assert (v * 10 > NGX_MAX_INT_T_VALUE) by dlia.
    rewrite (proj2 (Z.leb_gt _ _)); [done|]. nia.
  - apply IH. dlia.
Qed.

Lemma fixed_point_dot line a b : fixed_point true line = Some (a, b) -> a = [] /\ b = line.
Proof.
  revert a b. induction line as [|c line IH]; cbn; intros a b; [by intros [= <- <-]|].
  case_decide; [done|]. destruct (is_digit c); [|done].
  destruct (fixed_point true line) as [[a' b']|]; [|done].
  destruct (IH _ _ eq_refl) as [-> ->]. by intros [= <- <-].
Qed.

Lemma fixed_point_digits dot line a b :
  fixed_point dot line = Some (a, b) -> forallb is_digit (a ++ b) = true.
Proof.
  revert dot a b. induction line as [|c line IH]; cbn; intros dot a b; [by intros [= <- <-]|].
  case_decide; [destruct dot; [done|apply IH]|].
  destruct (is_digit c) eqn:E; [|done].
  destruct (fixed_point dot line) as [[a' b']|] eqn:F; [|done].
  destruct dot; intros [= <- <-].
  - destruct (fixed_point_dot _ _ _ F) as [-> ->]. cbn. rewrite E. by apply (IH true []).
  - cbn. rewrite E. by apply (IH false).
Qed.

(** The value of [v] followed by the digits [a] and [b], with [point]
    fractional digits. *)
Definition fixed_value (v : Z) (point : nat) (a b : list Z) : Z :=
  numeral 10 (fun c => c - "0") v (a ++ b) * 10 ^ (Z.of_nat point - Z.of_nat (length b)).

Lemma fixed_value_big v point dot line a b :
  fixed_point dot line = Some (a, b) -> (length b <= point)%nat ->
  0 <= v -> v <= fixed_value v point a b.
Proof.
  intros F Hb Hv. unfold fixed_value.
  pose proof (numeral_ge 10 (fun c => c - "0") v (a ++ b) ltac:(lia) Hv
                (digits_nonneg _ (fixed_point_digits _ _ _ _ F))).
  pose proof (Z.pow_pos_nonneg 10 (Z.of_nat point - Z.of_nat (length b))
                ltac:(lia) ltac:(lia)). nia.
Qed.

Definition atofp_spec (line : list Z) (v : Z) (dot : bool) (point : nat) : Z :=
  match fixed_point dot line with
  | Some (a, b) =>
      if (bool_decide (line = []) || (0 <? point)%nat) && (length b <=? point)%nat
         && (fixed_value v point a b <=? NGX_MAX_INT_T_VALUE)
      then fixed_value v point a b else NGX_ERROR
  | None => NGX_ERROR
  end.

Lemma atofp_loop_spec line v dot point :
  0 <= v <= NGX_MAX_INT_T_VALUE ->
  atofp_loop line v dot point = atofp_spec line v dot point.
Proof.
  revert v dot point. induction line as [|c line IH]; intros v dot point Hv.
  { unfold atofp_spec, fixed_value. cbn [atofp_loop fixed_point length app numeral fold_left].
    rewrite atofp_scale_spec by lia. rewrite bool_decide_eq_true_2 by done.
    by rewrite Z.sub_0_r. }
  cbn [atofp_loop]. unfold atofp_spec. rewrite bool_decide_eq_false_2 by done. cbn [orb].
  case_decide as Hp.
  { subst. cbn [Nat.ltb Nat.leb andb]. by destruct (fixed_point dot (c :: line)) as [[]|]. }
  rewrite (proj2 (Nat.ltb_lt 0 point)) by lia. cbn [andb fixed_point].
  case_decide as Hdot.
  { destruct dot; [done|]. rewrite IH by done. unfold atofp_spec.
    destruct (fixed_point true line) as [[a b]|]; [|done].
    by rewrite (proj2 (Nat.ltb_lt 0 point)), orb_true_r by lia. }
  case_decide as Hc.
  { by rewrite (proj2 (is_digit_false c) Hc). }
  rewrite (proj2 (is_digit_spec c)) by lia.
  set (v' := v * 10 + (c - "0")). set (point' := if dot then pred point else point).
  assert (forall a b, fixed_point dot line = Some (a, b) ->
    let '(a2, b2) := if dot then (a, c :: b) else (c :: a, b) in
    (length b2 <=? point)%nat = (length b <=? point')%nat /\
    fixed_value v point a2 b2 = fixed_value v' point' a b) as Hstep.
  { intros a b F. destruct dot; [|done].
    destruct (fixed_point_dot _ _ _ F) as [-> ->]. subst point'.
    destruct point as [|point]; [done|]. cbn [length pred]. split; [done|].
    unfold fixed_value. cbn [length app].
    replace (Z.of_nat (S point) - Z.of_nat (S (length line)))
      with (Z.of_nat point - Z.of_nat (length line)) by lia. done. }
  case_decide as Ho.
  - rewrite cutoff_exact in Ho by (lia || by_decide).
    destruct (fixed_point dot line) as [[a b]|] eqn:F; [|done].
    specialize (Hstep a b eq_refl). destruct (if dot then (a, c :: b) else (c :: a, b)) as [a2 b2].
    destruct Hstep as [-> ->]. destruct (Nat.leb_spec (length b) point'); [|done].
    pose proof (fixed_value_big v' point' _ _ _ _ F ltac:(lia) ltac:(lia)).
    by rewrite (proj2 (Z.leb_gt _ _)) by lia.
  - rewrite cutoff_exact in Ho by (lia || by_decide).
    rewrite IH by lia. unfold atofp_spec.
    destruct (fixed_point dot line) as [[a b]|] eqn:F; [|done].
    specialize (Hstep a b eq_refl). destruct (if dot then (a, c :: b) else (c :: a, b)) as [a2 b2].
    destruct Hstep as [-> ->]. fold v' point'.
    destruct (Nat.leb_spec (length b) point'); [|by rewrite andb_false_r].
    assert (bool_decide (line = []) || (0 <? point')%nat = true) as ->; [|done].
    destruct line as [|c2 line]; [done|]. subst point'.
    destruct dot; [|by rewrite (proj2 (Nat.ltb_lt 0 point)), orb_true_r by lia].
    destruct (fixed_point_dot _ _ _ F) as [_ ->]. cbn [length] in *.
    rewrite (proj2 (Nat.ltb_lt 0 (pred point))); [apply orb_true_r|lia].
Qed.

(** [ngx_atofp] is exact: for a non-empty digit string with at most one dot
    and at most [point] digits after it, [point] positive, it returns the
    number scaled by ten to the [point] when that fits [ngx_int_t]; every
    other input is [NGX_ERROR]. *)
Theorem atofp_exact line point :
  ngx_atofp line point =
    match fixed_point false line with
    | Some (a, b) =>
        if negb (bool_decide (line = [])) && (0 <? point)%nat
           && (length b <=? point)%nat
           && (fixed_value 0 point a b <=? NGX_MAX_INT_T_VALUE)
        then fixed_value 0 point a b else NGX_ERROR
    | None => NGX_ERROR
    end.
Proof.
  destruct line as [|c line]; [done|]. unfold ngx_atofp.
  rewrite atofp_loop_spec by by_decide. unfold atofp_spec.
  by rewrite bool_decide_eq_false_2.
Qed.

(** *** Hexadecimal *)

Lemma hex_char_spec ch :
  is_byte ch ->
  (ch >= "0" /\ ch <= "9" -> is_hex ch = true /\ hex_val ch = ch - "0")
  /\ (~ (ch >= "0" /\ ch <= "9") ->
      (u8 (Z.lor ch 0x20) >= "a" /\ u8 (Z.lor ch 0x20) <= "f" ->
       is_hex ch = true /\ hex_val ch = u8 (Z.lor ch 0x20) - "a" + 10)
      /\ (~ (u8 (Z.lor ch 0x20) >= "a" /\ u8 (Z.lor ch 0x20) <= "f") ->
         is_hex ch = false))
  /\ (is_hex ch = true -> 0 <= hex_val ch < 16).
Proof. intros H. byte_sweep ch H. Qed.

Lemma hex_nonneg l :
  bytes l -> forallb is_hex l = true -> Forall (fun c => 0 <= hex_val c) l.
Proof.
  induction 1 as [|c l Hc Hl IH]; cbn; [done|].
  rewrite andb_true_iff. intros [E1 E2]. constructor; [|by apply IH].
  apply (proj2 (proj2 (hex_char_spec c Hc))) in E1. lia.
Qed.

Lemma hextoi_loop_spec v line :
  bytes line -> 0 <= v <= NGX_MAX_INT_T_VALUE ->
  hextoi_loop v line =
    if forallb is_hex line && (numeral 16 hex_val v line <=? NGX_MAX_INT_T_VALUE)
    then numeral 16 hex_val v line else NGX_ERROR.
Proof.
  intros Hl. revert v. induction Hl as [|ch line Hch Hl IH]; intros v Hv.
  { cbn. by rewrite (proj2 (Z.leb_le v NGX_MAX_INT_T_VALUE)) by lia. }
  destruct (hex_char_spec ch Hch) as (Hdig & Hlet & Hrange).
  cbn [hextoi_loop forallb].
  change (numeral 16 hex_val v (ch :: line))
    with (numeral 16 hex_val (v * 16 + hex_val ch) line).
  case_decide as Ho.
  - destruct (is_hex ch); [|done]. destruct (forallb is_hex line) eqn:E; [|done].
    specialize (Hrange eq_refl). cbn [andb].
    pose proof (numeral_ge 16 hex_val (v * 16 + hex_val ch) line ltac:(lia) ltac:(lia)
                  (hex_nonneg _ Hl E)).
    rewrite (proj2 (Z.leb_gt _ _)); [done|]. unfold NGX_MAX_INT_T_VALUE in *. dlia.
  - assert (v <= 576460752303423487) as Hv' by (unfold NGX_MAX_INT_T_VALUE in *; dlia).
    unfold NGX_MAX_INT_T_VALUE in *.
    case_decide as Hd; [destruct (Hdig Hd) as [E Ev]|destruct (Hlet Hd) as [Hin Hout]];
      [|case_decide as Hx; [destruct (Hin Hx) as [E Ev]|by rewrite Hout]];
      specialize (Hrange E); rewrite E; cbn [andb]; rewrite <- Ev; apply IH; lia.
Qed.

(** [ngx_hextoi] is exact on bytes: the value of a non-empty string of
    hexadecimal digits of either case when it fits [ngx_int_t], [NGX_ERROR]
    otherwise. *)
Lemma hextoi_exact line :
  bytes line ->
  ngx_hextoi line =
    if negb (bool_decide (line = [])) && forallb is_hex line
       && (hex_value line <=? NGX_MAX_INT_T_VALUE)
    then hex_value line else NGX_ERROR.
Proof.
  intros H. destruct line as [|c line]; [done|]. unfold ngx_hextoi.
  rewrite bool_decide_eq_false_2 by done. apply hextoi_loop_spec; [done|by_decide].
Qed.

Lemma hex_dump_byte c :
  is_byte c ->
  let h := hex_digit (Z.shiftr c 4) in let l := hex_digit (Z.land c 0xf) in
  is_byte h /\ is_byte l /\ is_hex h = true /\ is_hex l = true
  /\ hex_val h * 16 + hex_val l = c.
Proof. intros H. byte_sweep c H. Qed.

Lemma hex_dump_spec src v :
  bytes src ->
  bytes (ngx_hex_dump src) /\ forallb is_hex (ngx_hex_dump src) = true
  /\ numeral 16 hex_val v (ngx_hex_dump src) = numeral 256 id v src.
Proof.
  intros H. revert v. induction H as [|c src Hc Hs IH]; intros v; [done|].
  destruct (hex_dump_byte c Hc) as (B1 & B2 & X1 & X2 & E).
  destruct (IH (v * 256 + c)) as (Hb & Hx & En).
  cbn [ngx_hex_dump forallb]. rewrite X1, X2, Hx.
  split_and!; [by constructor; [|constructor]|done|].
  change (numeral 256 id v (c :: src)) with (numeral 256 id (v * 256 + c) src).
  rewrite <- En. unfold numeral. cbn [fold_left]. f_equal. lia.
Qed.

(** [ngx_hextoi] reads back what [ngx_hex_dump] writes: the bytes of a
    non-empty string as one big-endian number, whenever it fits. *)
Theorem hex_roundtrip src :
  bytes src -> src <> [] -> numeral 256 id 0 src <= NGX_MAX_INT_T_VALUE ->
  ngx_hextoi (ngx_hex_dump src) = numeral 256 id 0 src.
Proof.
  intros Hs Hne Hmax. destruct (hex_dump_spec src 0 Hs) as (Hb & Hx & En).
  rewrite hextoi_exact by done. unfold hex_value. rewrite Hx, En.
  rewrite (proj2 (Z.leb_le _ _) Hmax), bool_decide_eq_false_2; [done|].
  by destruct src.
Qed.

Lemma hex_roundtrip_witness :
  bytes [0x12; 0xab; 0xff] /\ [0x12; 0xab; 0xff] <> [] /\
  ngx_hextoi (ngx_hex_dump [0x12; 0xab; 0xff]) = 0x12abff.
Proof.
  assert (bytes [0x12; 0xab; 0xff]) as H by by_decide.
  assert ([0x12; 0xab; 0xff] <> []) as Hn by discriminate.
  split; [exact H|]. split; [exact Hn|].
  refine (hex_roundtrip [0x12; 0xab; 0xff] H Hn _). by_decide.
Defined.

Close Scope ch_scope.
