(* ===== verification/Parse.v ===== *)
(** * Configuration values: ngx_parse.c

    Sizes ([ngx_parse_size]), offsets ([ngx_parse_offset]) and durations
    ([ngx_parse_time]) with their unit suffixes. *)

From S2P Require Import Prelude Num.

Open Scope ch_scope.

(** ** Definitions *)

(** The [switch (unit)] of [ngx_parse_size]: new length, [max] and [scale]. *)
Definition size_unit (unit len : Z) : Z * Z * Z :=
  if decide (unit = "K" \/ unit = "k") then
    (len - 1, NGX_MAX_SIZE_T_VALUE / 1024, 1024)
  else if decide (unit = "M" \/ unit = "m") then
    (len - 1, NGX_MAX_SIZE_T_VALUE / (1024 * 1024), 1024 * 1024)
  else (len, NGX_MAX_SIZE_T_VALUE, 1).

Definition ngx_parse_size (line : list Z) : Z :=
  let len := Z.of_nat (length line) in
  if decide (len = 0) then NGX_ERROR
  else
    let unit := nth (Z.to_nat (len - 1)) line 0 in
    let '(len, max, scale) := size_unit unit len in
    let size := ngx_atosz (take (Z.to_nat len) line) in
    if decide (size = NGX_ERROR \/ size > max) then NGX_ERROR
    else size * scale.

(** The [switch (unit)] of [ngx_parse_offset]. *)
Definition offset_unit (unit len : Z) : Z * Z * Z :=
  if decide (unit = "K" \/ unit = "k") then
    (len - 1, NGX_MAX_OFF_T_VALUE / 1024, 1024)
  else if decide (unit = "M" \/ unit = "m") then
    (len - 1, NGX_MAX_OFF_T_VALUE / (1024 * 1024), 1024 * 1024)
  else if decide (unit = "G" \/ unit = "g") then
    (len - 1, NGX_MAX_OFF_T_VALUE / (1024 * 1024 * 1024), 1024 * 1024 * 1024)
  else (len, NGX_MAX_OFF_T_VALUE, 1).

Definition ngx_parse_offset (line : list Z) : Z :=
  let len := Z.of_nat (length line) in
  if decide (len = 0) then NGX_ERROR
  else
    let unit := nth (Z.to_nat (len - 1)) line 0 in
    let '(len, max, scale) := offset_unit unit len in
    let offset := ngx_atoof (take (Z.to_nat len) line) in
    if decide (offset = NGX_ERROR \/ offset > max) then NGX_ERROR
    else offset * scale.

(** The steps of [ngx_parse_time], in the order of the C enumeration. *)
Inductive time_step :=
  | st_start | st_year | st_month | st_week | st_day | st_hour | st_min
  | st_sec | st_msec | st_last.

#[global] Instance time_step_eq_dec : EqDecision time_step.
Proof. solve_decision. Defined.

(** The integer value of an enumerator. *)
Definition step_num (s : time_step) : Z :=
  match s with
  | st_start => 0 | st_year => 1 | st_month => 2 | st_week => 3 | st_day => 4
  | st_hour => 5 | st_min => 6 | st_sec => 7 | st_msec => 8 | st_last => 9
  end.

(** The [switch] of [ngx_parse_time] on a character [c] that is not a digit,
    [next] being the character after it if there is one: the new step, [max],
    [scale] and whether the second character of "ms" was consumed. *)
Definition time_unit (is_sec : bool) (step : time_step) (c : Z) (next : option Z)
  : option (time_step * Z * Z * bool) :=
  let M := NGX_MAX_INT_T_VALUE in
  let s := step_num step in
  if decide (c = "y") then
    if decide (s > step_num st_start) then None
    else Some (st_year, M / (60 * 60 * 24 * 365), 60 * 60 * 24 * 365, false)
  else if decide (c = "M") then
    if decide (s >= step_num st_month) then None
    else Some (st_month, M / (60 * 60 * 24 * 30), 60 * 60 * 24 * 30, false)
  else if decide (c = "w") then
    if decide (s >= step_num st_week) then None
    else Some (st_week, M / (60 * 60 * 24 * 7), 60 * 60 * 24 * 7, false)
  else if decide (c = "d") then
    if decide (s >= step_num st_day) then None
    else Some (st_day, M / (60 * 60 * 24), 60 * 60 * 24, false)
  else if decide (c = "h") then
    if decide (s >= step_num st_hour) then None
    else Some (st_hour, M / (60 * 60), 60 * 60, false)
  else if decide (c = "m") then
    if decide (next = Some "s") then
      if is_sec || bool_decide (s >= step_num st_msec) then None
      else Some (st_msec, M, 1, true)
    else if decide (s >= step_num st_min) then None
    else Some (st_min, M / 60, 60, false)
  else if decide (c = "s") then
    if decide (s >= step_num st_sec) then None
    else Some (st_sec, M, 1, false)
  else if decide (c = " ") then
    if decide (s >= step_num st_sec) then None
    else Some (st_last, M, 1, false)
  else None.

(** What follows the switch: the scaled value added to the total. *)
Definition time_add (is_sec : bool) (step : time_step) (max scale value total : Z)
  : option Z :=
  let M := NGX_MAX_INT_T_VALUE in
  let '(scale, max) :=
    if bool_decide (step <> st_msec) && negb is_sec then (scale * 1000, max / 1000)
    else (scale, max) in
  if decide (value > max) then None
  else
    let value := value * scale in
    if decide (total > M - value) then None else Some (total + value).

(** The [while (p < last)] loop, with the final lines at its end.  The inner
    loop that skips spaces is the nested fixpoint. *)
Fixpoint time_loop (is_sec : bool) (line : list Z) (step : time_step)
    (value total : Z) (valid : bool) {struct line} : Z :=
  let M := NGX_MAX_INT_T_VALUE in
  let cutoff := M / 10 in
  let cutlim := M mod 10 in
  match line with
  | [] =>
      if negb valid then NGX_ERROR
      else if negb is_sec && bool_decide (value > M / 1000) then NGX_ERROR
      else
        let value := if is_sec then value else value * 1000 in
        if decide (total > M - value) then NGX_ERROR else total + value
  | c :: p =>
      if decide (c >= "0" /\ c <= "9") then
        if decide (value >= cutoff /\ (value > cutoff \/ c - "0" > cutlim))
        then NGX_ERROR
        else time_loop is_sec p step (value * 10 + (c - "0")) total true
      else
        match time_unit is_sec step c (head p) with
        | None => NGX_ERROR
        | Some (step, max, scale, two) =>
            match time_add is_sec step max scale value total with
            | None => NGX_ERROR
            | Some total =>
                let skip := fix skip (p : list Z) : Z :=
                  match p with
                  | c :: q =>
                      if decide (c = " ") then skip q
                      else time_loop is_sec p step 0 total valid
                  | [] => time_loop is_sec p step 0 total valid
                  end in
                if two then
                  match p with _ :: p => skip p | [] => skip p end
                else skip p
            end
        end
  end.

Definition ngx_parse_time (line : list Z) (is_sec : bool) : Z :=
  time_loop is_sec line (if is_sec then st_start else st_month) 0 0 false.

Example time_1 : ngx_parse_time (bstr "1h 30m") true = 5400.
Proof. reflexivity. Qed.
Example time_2 : ngx_parse_time (bstr "1h30m10ms") false = 5400010.
Proof. reflexivity. Qed.
Example time_3 : ngx_parse_time (bstr "30m1h") true = NGX_ERROR.
Proof. reflexivity. Qed.

(** ** Sizes and offsets *)

(** The digits of a value and the scale of its suffix. *)
Definition split_unit (scale_of : Z -> option Z) (line : list Z) : list Z * Z :=
  match list.last line with
  | Some u =>
      match scale_of u with
      | Some s => (removelast line, s)
      | None => (line, 1)
      end
  | None => (line, 1)
  end.

Definition size_scale (u : Z) : option Z :=
  if decide (u = "K" \/ u = "k") then Some 1024
  else if decide (u = "M" \/ u = "m") then Some (1024 * 1024)
  else None.

Definition offset_scale (u : Z) : option Z :=
  if decide (u = "G" \/ u = "g") then Some (1024 * 1024 * 1024) else size_scale u.

Definition scaled (p : list Z * Z) : Z :=
  let '(ds, s) := p in
  if negb (bool_decide (ds = [])) && forallb is_digit ds
     && (dec_value ds * s <=? NGX_MAX_INT_T_VALUE)
  then dec_value ds * s else NGX_ERROR.

Lemma dec_value_nonneg ds : forallb is_digit ds = true -> 0 <= dec_value ds.
Proof.
  intros H. apply (numeral_ge 10 (fun c => c - "0") 0 ds); [lia..|].
  by apply digits_nonneg.
Qed.

(** The guard [size > max] with [max = M / scale]. *)
Lemma scale_guard ds s :
  1 <= s ->
  (let v := ngx_atoi ds in
   if decide (v = NGX_ERROR \/ v > NGX_MAX_INT_T_VALUE / s) then NGX_ERROR else v * s)
  = scaled (ds, s).
Proof.
  intros Hs. cbv zeta. unfold scaled, ngx_atoi. rewrite atoi_max_spec by by_decide.
  destruct (negb _ && forallb is_digit ds) eqn:E; cbn [andb];
    [|rewrite decide_True by tauto; done].
  apply andb_true_iff in E. destruct E as [_ E].
  pose proof (dec_value_nonneg ds E) as Hv.
  assert (0 < NGX_MAX_INT_T_VALUE) by by_decide.
  destruct (Z.leb_spec (dec_value ds) NGX_MAX_INT_T_VALUE) as [H1|H1];
    destruct (Z.leb_spec (dec_value ds * s) NGX_MAX_INT_T_VALUE) as [H2|H2].
  - rewrite decide_False; [done|]. unfold NGX_ERROR in *.
    pose proof (Z.div_le_lower_bound NGX_MAX_INT_T_VALUE s (dec_value ds)). lia.
  - rewrite decide_True; [done|]. right.
    pose proof (Z.div_lt_upper_bound NGX_MAX_INT_T_VALUE s (dec_value ds)). lia.
  - nia.
  - by rewrite decide_True by tauto.
Qed.

Lemma scale_guard_1 ds :
  (let v := ngx_atoi ds in
   if decide (v = NGX_ERROR \/ v > NGX_MAX_INT_T_VALUE) then NGX_ERROR else v * 1)
  = scaled (ds, 1).
Proof. rewrite <- scale_guard by lia. by rewrite Z.div_1_r. Qed.

Lemma unit_char (line : list Z) :
  line <> [] ->
  exists ds u, line = ds ++ [u] /\ list.last line = Some u /\ removelast line = ds
    /\ nth (Z.to_nat (Z.of_nat (length line) - 1)) line 0 = u
    /\ take (Z.to_nat (Z.of_nat (length line) - 1)) line = ds
    /\ take (Z.to_nat (Z.of_nat (length line))) line = line.
Proof.
  intros H. destruct (exists_last H) as (ds & u & ->). exists ds, u.
  rewrite length_app. cbn [length].
  replace (Z.to_nat (Z.of_nat (length ds + 1) - 1)) with (length ds) by lia.
  split_and!; [done|apply last_snoc|apply removelast_last| | |].
  - by rewrite nth_middle.
  - by rewrite take_app_length.
  - rewrite take_ge; [done|]. rewrite length_app. cbn. lia.
Qed.

Ltac split_units u :=
  repeat match goal with
    | |- context [decide (u = ?a \/ u = ?b)] => destruct (decide (u = a \/ u = b))
    end; cbv beta iota.

(** [ngx_parse_size] is exact: with the suffix k or m of either case, or
    none, it returns digits times scale when that fits, and [NGX_ERROR] for
    every other line. *)
Theorem parse_size_exact line :
  ngx_parse_size line = scaled (split_unit size_scale line).
Proof.
  unfold ngx_parse_size. case_decide as H0.
  { by destruct line. }
  destruct (unit_char line) as (ds & u & _ & El & Er & -> & Et & Ea); [by intros ->|].
  unfold split_unit, size_unit, size_scale. rewrite El, Er.
  split_units u; rewrite ?Et, ?Ea;
    first [apply scale_guard; lia | apply scale_guard_1].
Qed.

(** [ngx_parse_offset] is exact in the same way, with the suffix g too. *)
Theorem parse_offset_exact line :
  ngx_parse_offset line = scaled (split_unit offset_scale line).
Proof.
  unfold ngx_parse_offset. case_decide as H0.
  { by destruct line. }
  destruct (unit_char line) as (ds & u & _ & El & Er & -> & Et & Ea); [by intros ->|].
  unfold split_unit, offset_unit, offset_scale, size_scale. rewrite El, Er.
  split_units u; rewrite ?Et, ?Ea; try lia;
    first [apply scale_guard; lia | apply scale_guard_1].
Qed.

(** ** Durations *)

(** One component of a duration: digits, a unit, and the spaces after it. *)
Record time_item := Item { it_digits : list Z; it_unit : time_step; it_spaces : nat }.

Definition unit_text (u : time_step) : list Z :=
  match u with
  | st_year => ["y"] | st_month => ["M"] | st_week => ["w"] | st_day => ["d"]
  | st_hour => ["h"] | st_min => ["m"] | st_sec => ["s"]
  | st_msec => ["m"; "s"] | st_start | st_last => []
  end.

(** Seconds in a unit; a millisecond counts as one of its own. *)
Definition unit_scale (u : time_step) : Z :=
  match u with
  | st_year => 31536000 | st_month => 2592000 | st_week => 604800
  | st_day => 86400 | st_hour => 3600 | st_min => 60 | _ => 1
  end.

(** What one of the unit is worth in the result, in seconds or milliseconds. *)
Definition result_scale (is_sec : bool) (u : time_step) : Z :=
  if is_sec then unit_scale u
  else if decide (u = st_msec) then 1 else unit_scale u * 1000.

Definition item_text (i : time_item) : list Z :=
  it_digits i ++ unit_text (it_unit i) ++ replicate (it_spaces i) " ".

Definition item_value (is_sec : bool) (i : time_item) : Z :=
  dec_value (it_digits i) * result_scale is_sec (it_unit i).

Definition digits_ok (ds : list Z) : Prop := ds <> [] /\ forallb is_digit ds = true.

(** Units in strictly descending order after [step]. *)
Fixpoint items_ok (is_sec : bool) (step : time_step) (l : list time_item) : Prop :=
  match l with
  | [] => True
  | i :: l =>
      digits_ok (it_digits i)
      /\ step_num step < step_num (it_unit i) <= (if is_sec then 7 else 8)
      /\ items_ok is_sec (it_unit i) l
  end.

Definition items_text (l : list time_item) : list Z := concat (map item_text l).

Fixpoint items_value (is_sec : bool) (l : list time_item) : Z :=
  match l with
  | [] => 0
  | i :: l => item_value is_sec i + items_value is_sec l
  end.

Fixpoint skip_spaces (p : list Z) : list Z :=
  match p with
  | c :: q => if decide (c = " ") then skip_spaces q else p
  | [] => []
  end.

(** The loop on digits is the [ngx_atoi] loop. *)
Lemma time_loop_digits is_sec ds rest step v total valid :
  forallb is_digit ds = true -> 0 <= v <= NGX_MAX_INT_T_VALUE ->
  time_loop is_sec (ds ++ rest) step v total valid =
    let v' := numeral 10 (fun c => c - "0") v ds in
    if v' <=? NGX_MAX_INT_T_VALUE
    then time_loop is_sec rest step v' total (valid || negb (bool_decide (ds = [])))
    else NGX_ERROR.
Proof.
  revert v valid. induction ds as [|c ds IH]; intros v valid Hds Hv; cbv zeta.
  { change (numeral 10 (fun c => c - "0") v []) with v.
    rewrite (proj2 (Z.leb_le v _)) by lia. cbn. by rewrite orb_false_r. }
  cbn in Hds. apply andb_true_iff in Hds. destruct Hds as [Hc Hds].
  apply is_digit_spec in Hc.
  change (numeral 10 (fun c => c - "0") v (c :: ds))
    with (numeral 10 (fun c => c - "0") (v * 10 + (c - "0")) ds).
  cbn [app time_loop]. rewrite decide_True by lia. case_decide as Ho.
  - rewrite cutoff_exact in Ho by (lia || by_decide).
    pose proof (numeral_ge 10 (fun c => c - "0") (v * 10 + (c - "0")) ds
                  ltac:(lia) ltac:(lia) (digits_nonneg _ Hds)).
    by rewrite (proj2 (Z.leb_gt _ _)) by lia.
  - rewrite cutoff_exact in Ho by (lia || by_decide).
    rewrite IH by (done || lia). cbn. by rewrite orb_true_r.
Qed.

(** One unit of the loop. *)
Lemma time_loop_unit is_sec c p step v total valid :
  is_digit c = false ->
  time_loop is_sec (c :: p) step v total valid =
    match time_unit is_sec step c (head p) with
    | None => NGX_ERROR
    | Some (step, max, scale, two) =>
        match time_add is_sec step max scale v total with
        | None => NGX_ERROR
        | Some total =>
            time_loop is_sec (skip_spaces (if two then tail p else p)) step 0 total valid
        end
    end.
Proof.
  intros Hc. apply is_digit_false in Hc. cbn [time_loop].
  rewrite decide_False by lia.
  destruct (time_unit is_sec step c (head p)) as [[[[step' max] scale] two]|]; [|done].
  destruct (time_add _ _ _ _ _ _) as [total'|]; [|done]. cbv zeta.
  match goal with |- context [if two then match p with [] => ?f p | _ => _ end else _] =>
    set (skip := f) end.
  assert (forall q, skip q = time_loop is_sec (skip_spaces q) step' 0 total' valid) as Hs.
  { induction q as [|c2 q IH]; [done|]. cbn [skip_spaces].
    unfold skip. case_decide as E; [|done]. exact IH. }
  destruct two, p; apply Hs.
Qed.

(** The scaling of [time_add]: the guards are exact. *)
Lemma time_add_spec is_sec u v total :
  0 <= v -> 0 <= total <= NGX_MAX_INT_T_VALUE ->
  time_add is_sec u (NGX_MAX_INT_T_VALUE / unit_scale u) (unit_scale u) v total =
    let w := v * result_scale is_sec u in
    if total + w <=? NGX_MAX_INT_T_VALUE then Some (total + w) else None.
Proof.
  intros Hv Ht. unfold time_add. set (M := NGX_MAX_INT_T_VALUE) in *.
  assert (1 <= result_scale is_sec u) as Hs by (destruct is_sec, u; by_decide).
  assert ((if bool_decide (u <> st_msec) && negb is_sec
           then (unit_scale u * 1000, M / unit_scale u / 1000)
           else (unit_scale u, M / unit_scale u))
          = (result_scale is_sec u, M / result_scale is_sec u)) as ->.
  { destruct is_sec, u; cbn; try done; f_equal; rewrite Z.div_div by lia; done. }
  cbv zeta beta iota.
  set (s := result_scale is_sec u) in *.
  case_decide as H1.
  - pose proof (Z.div_le_lower_bound M s v ltac:(lia)).
    rewrite (proj2 (Z.leb_gt _ _)); [done|]. lia.
  - case_decide as H2.
    + by rewrite (proj2 (Z.leb_gt _ _)) by lia.
    + by rewrite (proj2 (Z.leb_le _ _)) by lia.
Qed.

Ltac decide_all := repeat (case_decide; try (lia || done)).

(** The switch on the unit of an item. *)
Lemma unit_switch (is_sec : bool) step u (rest : list Z) :
  step_num step < step_num u <= (if is_sec then 7 else 8) ->
  head rest <> Some "s" ->
  exists (c : Z) (p : list Z),
    unit_text u ++ rest = c :: p /\ is_digit c = false /\
    time_unit is_sec step c (head p)
      = Some (u, NGX_MAX_INT_T_VALUE / unit_scale u, unit_scale u,
              bool_decide (u = st_msec)) /\
    (if bool_decide (u = st_msec) then tail p else p) = rest.
Proof.
  intros Hu Hr. assert (0 <= step_num step) by (destruct step; by_decide).
  assert (NGX_MAX_INT_T_VALUE / 1 = NGX_MAX_INT_T_VALUE) as E1 by apply Z.div_1_r.
  destruct u; cbn [step_num] in Hu; try (destruct is_sec; lia);
    eexists _, _; (split; [reflexivity|]); (split; [reflexivity|]);
    unfold time_unit; cbn [unit_scale head step_num];
    rewrite ?E1; decide_all; try done.
  destruct is_sec; [lia|]. rewrite bool_decide_eq_false_2 by lia. done.
Qed.

Lemma skip_replicate n (rest : list Z) :
  head rest <> Some " " -> skip_spaces (replicate n " " ++ rest) = rest.
Proof.
  intros H. induction n as [|n IH]; [|done]. cbn.
  destruct rest as [|c rest]; [done|]. cbn. case_decide; [|done]. by subst.
Qed.

(** The text that may follow a component starts with a digit, if at all. *)
Definition digit_head (l : list Z) : Prop :=
  match l with [] => True | c :: _ => is_digit c = true end.

Lemma digit_head_not l (c : Z) : digit_head l -> is_digit c = false -> head l <> Some c.
Proof. destruct l; cbn; [done|]. intros H1 H2 [= ->]. congruence. Qed.

Lemma time_loop_item (is_sec : bool) step i rest total valid :
  digits_ok (it_digits i) ->
  step_num step < step_num (it_unit i) <= (if is_sec then 7 else 8) ->
  digit_head rest -> 0 <= total <= NGX_MAX_INT_T_VALUE ->
  time_loop is_sec (item_text i ++ rest) step 0 total valid =
    if total + item_value is_sec i <=? NGX_MAX_INT_T_VALUE
    then time_loop is_sec rest (it_unit i) 0 (total + item_value is_sec i) true
    else NGX_ERROR.
Proof.
  intros [Hne Hds] Hu Hr Ht. unfold item_text, item_value. rewrite <- !app_assoc.
  rewrite time_loop_digits by (done || by_decide). cbv zeta. fold (dec_value (it_digits i)).
  rewrite bool_decide_eq_false_2, orb_true_r by done.
  pose proof (dec_value_nonneg _ Hds) as Hv.
  assert (1 <= result_scale is_sec (it_unit i)) as Hs
    by (destruct is_sec, (it_unit i); by_decide).
  destruct (Z.leb_spec (dec_value (it_digits i)) NGX_MAX_INT_T_VALUE).
  2: { rewrite (proj2 (Z.leb_gt _ _)); [done|]. nia. }
  destruct (unit_switch is_sec step (it_unit i) (replicate (it_spaces i) " " ++ rest) Hu)
    as (c & p & -> & Hc & Et & Ep).
  { destruct (it_spaces i); [by apply digit_head_not|done]. }
  rewrite time_loop_unit, Et, time_add_spec, Ep by done. cbv zeta.
  destruct (_ <=? _); [|done].
  by rewrite skip_replicate by (by apply digit_head_not).
Qed.

Lemma items_digit_head (is_sec : bool) step l final :
  items_ok is_sec step l -> forallb is_digit final = true ->
  digit_head (items_text l ++ final).
Proof.
  destruct l as [|i l]; cbn.
  - intros _ H. destruct final; [done|]. cbn in *.
    apply andb_true_iff in H. tauto.
  - intros ([Hne Hd] & _) _. unfold item_text.
    destruct (it_digits i); [done|]. cbn in *. apply andb_true_iff in Hd. tauto.
Qed.

Lemma items_value_nonneg is_sec step l :
  items_ok is_sec step l -> 0 <= items_value is_sec l.
Proof.
  revert step. induction l as [|i l IH]; cbn; intros step; [done|].
  intros ([_ Hd] & _ & Hl). specialize (IH _ Hl). unfold item_value.
  pose proof (dec_value_nonneg _ Hd).
  assert (1 <= result_scale is_sec (it_unit i))
    by (destruct is_sec, (it_unit i); by_decide). nia.
Qed.

Lemma time_loop_items (is_sec : bool) step l final total valid :
  items_ok is_sec step l -> forallb is_digit final = true ->
  valid || negb (bool_decide (items_text l ++ final = [])) = true ->
  0 <= total <= NGX_MAX_INT_T_VALUE ->
  time_loop is_sec (items_text l ++ final) step 0 total valid =
    let r := total + items_value is_sec l
             + dec_value final * (if is_sec then 1 else 1000) in
    if r <=? NGX_MAX_INT_T_VALUE then r else NGX_ERROR.
Proof.
  intros Hl Hf. revert step total valid Hl.
  pose proof (dec_value_nonneg _ Hf) as Hv.
  induction l as [|i l IH]; intros step total valid Hl Hvalid Ht; cbv zeta.
  - cbn [items_text map concat app items_value] in *. rewrite Z.add_0_r.
    rewrite <- (app_nil_r final) at 1.
    rewrite time_loop_digits by (done || by_decide). cbv zeta. fold (dec_value final).
    cbn [time_loop]. rewrite Hvalid. cbn [negb].
    set (M := NGX_MAX_INT_T_VALUE) in *.
    assert (0 < M) by by_decide.
    destruct (Z.leb_spec (dec_value final) M).
    2: { rewrite (proj2 (Z.leb_gt _ M)); [done|]. destruct is_sec; lia. }
    destruct is_sec; cbn [negb andb].
    + rewrite Z.mul_1_r. case_decide.
      * by rewrite (proj2 (Z.leb_gt _ M)) by lia.
      * by rewrite (proj2 (Z.leb_le _ M)) by lia.
    + destruct (bool_decide_reflect (dec_value final > M / 1000)).
      * rewrite (proj2 (Z.leb_gt _ M)); [done|]. dlia.
      * case_decide.
        -- by rewrite (proj2 (Z.leb_gt _ M)) by lia.
        -- by rewrite (proj2 (Z.leb_le _ M)) by lia.
  - cbn [items_ok] in Hl. destruct Hl as (Hd & Hu & Hl).
    change (items_text (i :: l)) with (item_text i ++ items_text l).
    rewrite <- app_assoc.
    rewrite time_loop_item by (done || by eapply items_digit_head).
    cbn [items_value].
    pose proof (items_value_nonneg _ _ _ Hl).
    destruct (Z.leb_spec (total + item_value is_sec i) NGX_MAX_INT_T_VALUE) as [Hle|Hgt].
    + rewrite (IH (it_unit i)); [|done|done|].
      * cbv zeta. by rewrite Z.add_assoc.
      * split; [|done]. unfold item_value.
        pose proof (dec_value_nonneg _ (proj2 Hd)).
        assert (1 <= result_scale is_sec (it_unit i))
          by (destruct is_sec, (it_unit i); by_decide). nia.
    + rewrite (proj2 (Z.leb_gt _ _)); [done|]. destruct is_sec; lia.
Qed.

(** [ngx_parse_time] reads every duration written as components with
    strictly descending units (each with any number of spaces after it),
    possibly ending with a number of seconds that has no unit: it returns the
    sum of the components, in seconds or in milliseconds, when that fits
    [ngx_int_t], and [NGX_ERROR] when it does not. *)
Theorem parse_time_print (is_sec : bool) l final :
  items_ok is_sec (if is_sec then st_start else st_month) l ->
  forallb is_digit final = true -> items_text l ++ final <> [] ->
  ngx_parse_time (items_text l ++ final) is_sec =
    let r := items_value is_sec l + dec_value final * (if is_sec then 1 else 1000) in
    if r <=? NGX_MAX_INT_T_VALUE then r else NGX_ERROR.
Proof.
  intros Hl Hf Hne. unfold ngx_parse_time.
  rewrite time_loop_items; [done|done|done| |by_decide].
  by rewrite bool_decide_eq_false_2.
Qed.

Lemma parse_time_print_witness :
  ngx_parse_time (bstr "1h 30m45ms2") false = 5402045.
Proof.
  pose (l := [Item (bstr "1") st_hour 1; Item (bstr "30") st_min 0;
              Item (bstr "45") st_msec 0]).
  assert (items_ok false st_month l) as Hl
    by (cbn; repeat split; (discriminate || reflexivity || lia)).
  refine (parse_time_print false l (bstr "2") Hl eq_refl _). discriminate.
Defined.
