(* ===== verification/Sprintf.v ===== *)
(** * Formatted printing: ngx_vslprintf

    [ngx_sprintf_num], [ngx_sprintf_str] and [ngx_vslprintf] of ngx_string.c
    with their entry points.  A format is the list of its characters up to the
    terminating NUL, the variable arguments are a list of tagged values, and
    the buffer is what has been written so far together with its capacity
    ([None] for the end of the address space, as [ngx_sprintf] passes).  Doubles are
    the binary64 numbers of Stdlib's SpecFloat.  The result [None] is undefined
    behaviour: a missing or ill-typed argument, or a format that ends in the
    middle of a conversion. *)

From S2P Require Import Prelude Num.
From Stdlib Require Import Floats.SpecFloat.

Open Scope ch_scope.

(** ** Definitions *)

(** [buf < last], [out] being what lies before [buf]. *)
Definition below (cap : option Z) (out : list Z) (k : Z) : bool :=
  match cap with
  | None => true
  | Some n => bool_decide (Z.of_nat (length out) < n - k)
  end.

(** The [do ... while] loops that fill [temp] from its end; the digits come
    out in reading order.  Twenty digits are enough for a 64-bit number. *)
Fixpoint num_digits (fuel : nat) (base v : Z) (alphabet : list Z) (acc : list Z)
  : list Z :=
  match fuel with
  | O => acc
  | S fuel =>
      let acc := nth (Z.to_nat (v mod base)) alphabet 0 :: acc in
      let v := v / base in
      if decide (v = 0) then acc else num_digits fuel base v alphabet acc
  end.

Definition lower_hex : list Z := bstr "0123456789abcdef".
Definition upper_hex : list Z := bstr "0123456789ABCDEF".

(** [while (len++ < width && buf < last)] with [n = width - len]. *)
Fixpoint pad_num (n : nat) (cap : option Z) (zero : Z) (out : list Z) : list Z :=
  match n with
  | O => out
  | S n => if below cap out 0 then pad_num n cap zero (out ++ [zero]) else out
  end.

(** [ngx_cpymem(buf, p, len)] with [len] cut to the room left. *)
Definition safe_copy (cap : option Z) (out src : list Z) : list Z :=
  match cap with
  | None => out ++ src
  | Some n => out ++ take (Z.to_nat (n - Z.of_nat (length out))) src
  end.

Definition ngx_sprintf_num (cap : option Z) (out : list Z)
    (ui64 zero hexadecimal width : Z) : list Z :=
  let p :=
    if decide (hexadecimal = 0) then num_digits 20 10 ui64 lower_hex []
    else if decide (hexadecimal = 1) then num_digits 20 16 ui64 lower_hex []
    else num_digits 20 16 ui64 upper_hex [] in
  let out := pad_num (Z.to_nat (width - Z.of_nat (length p))) cap zero out in
  safe_copy cap out p.

(** The copying loops of the hexadecimal cases. *)
Fixpoint hex_copy (cap : option Z) (out src alphabet : list Z) : list Z :=
  match src with
  | [] => out
  | c :: src =>
      if below cap out 1 then
        hex_copy cap (out ++ [nth (Z.to_nat (Z.shiftr c 4)) alphabet 0;
                              nth (Z.to_nat (Z.land c 0xf)) alphabet 0]) src alphabet
      else out
  end.

(** [src] is the string up to its NUL when [len] is [(size_t) -1], that is
    [None], and has at least [len] bytes otherwise. *)
Definition ngx_sprintf_str (cap : option Z) (out src : list Z) (len : option Z)
    (hexadecimal : Z) : list Z :=
  let src := match len with None => src | Some n => take (Z.to_nat n) src end in
  if decide (hexadecimal = 0) then safe_copy cap out src
  else if decide (hexadecimal = 1) then hex_copy cap out src lower_hex
  else hex_copy cap out src upper_hex.

(** The variable arguments: integers of any type, NUL-terminated strings
    (without the NUL), [ngx_str_t] and [ngx_variable_value_t], doubles. *)
Inductive va_arg :=
  | AInt (n : Z)
  | ACstr (s : list Z)
  | AStr (s : list Z)
  | AVar (s : list Z)
  | ADouble (f : spec_float).

(** The local variables that a conversion sets up. *)
Record conv := Conv {
  cv_zero : Z; cv_width : Z; cv_sign : bool; cv_hex : Z; cv_max_width : bool;
  cv_frac_width : Z; cv_slen : option Z
}.

(** The loop over the decimal digits of a width. *)
Fixpoint parse_width (width : Z) (fmt : list Z) : Z * list Z :=
  match fmt with
  | c :: rest =>
      if decide (c >= "0" /\ c <= "9")
      then parse_width (u64 (width * 10 + (c - "0"))) rest
      else (width, fmt)
  | [] => (width, fmt)
  end.

(** The [for ( ;; )] loop over the flags. *)
Fixpoint parse_flags (cv : conv) (fmt : list Z) (args : list va_arg)
  : option (conv * list Z * list va_arg) :=
  let '(Conv zero width sign hex max_width frac_width slen) := cv in
  match fmt with
  | [] => Some (cv, fmt, args)
  | c :: rest =>
      if decide (c = "u") then
        parse_flags (Conv zero width false hex max_width frac_width slen) rest args
      else if decide (c = "m") then
        parse_flags (Conv zero width sign hex true frac_width slen) rest args
      else if decide (c = "X") then
        parse_flags (Conv zero width false 2 max_width frac_width slen) rest args
      else if decide (c = "x") then
        parse_flags (Conv zero width false 1 max_width frac_width slen) rest args
      else if decide (c = ".") then
        let '(frac_width, rest) := parse_width frac_width rest in
        Some (Conv zero width sign hex max_width frac_width slen, rest, args)
      else if decide (c = "*") then
        match args with
        | AInt n :: args =>
            let slen := if decide (u64 n = 2 ^ 64 - 1) then None else Some (u64 n) in
            parse_flags (Conv zero width sign hex max_width frac_width slen) rest args
        | _ => None
        end
      else Some (cv, fmt, args)
  end.

(** Doubles: comparison with zero, conversion from and to integers. *)
Definition double_of_Z (n : Z) : spec_float := binary_normalize 53 1024 n 0 false.

Definition double_half : spec_float := binary_normalize 53 1024 1 (-1) false.

(** Truncation; [None] when the value does not fit (undefined in C). *)
Definition trunc_double (lo hi : Z) (f : spec_float) : option Z :=
  match f with
  | S754_zero _ => Some 0
  | S754_finite s m e =>
      let a := Z.shiftl (Zpos m) e in
      let n := if s then - a else a in
      if decide (lo <= n <= hi) then Some n else None
  | _ => None
  end.

(** [case 'f']: the sign, the integral and the fractional part. *)
Definition print_double (cap : option Z) (out : list Z) (cv : conv) (f : spec_float)
  : option (list Z) :=
  let neg := SFltb f (S754_zero false) in
  let out := if neg then out ++ ["-"] else out in
  let f := if neg then SFopp f else f in
  i64 ← trunc_double (- 2 ^ 63) (2 ^ 63 - 1) f;
  let ui64 := u64 i64 in
  let frac_width := cv_frac_width cv in
  if decide (frac_width = 0) then
    Some (ngx_sprintf_num cap out ui64 (cv_zero cv) 0 (cv_width cv))
  else
    let scale := u64 (10 ^ frac_width) in
    frac ← trunc_double 0 (2 ^ 64 - 1)
      (SFadd 53 1024
         (SFmul 53 1024 (SFsub 53 1024 f (double_of_Z ui64)) (double_of_Z scale))
         double_half);
    let '(ui64, frac) :=
      if decide (frac = scale) then (u64 (ui64 + 1), 0) else (ui64, frac) in
    let out := ngx_sprintf_num cap out ui64 (cv_zero cv) 0 (cv_width cv) in
    let out := if below cap out 0 then out ++ ["."] else out in
    Some (ngx_sprintf_num cap out frac "0" 0 frac_width).

(** [NGX_INT_T_LEN], [NGX_ATOMIC_T_LEN] *)
Definition NGX_INT_T_LEN : Z := 20.

Definition s32 (x : Z) : Z := (x + 2 ^ 31) mod 2 ^ 32 - 2 ^ 31.

(** The integer conversions: for a conversion character, the signedness, the
    value as [i64] or [ui64], the width, the padding and the base. *)
Definition int_conv (cv : conv) (c n : Z) : option (bool * Z * Z * Z * Z) :=
  let '(Conv zero width sign hex max_width _ _) := cv in
  if decide (c = "O" \/ c = "T" \/ c = "r") then Some (true, s64 n, width, zero, hex)
  else if decide (c = "P") then Some (true, s32 n, width, zero, hex)
  else if decide (c = "M") then
    if decide (s64 n = -1) then Some (true, -1, width, zero, hex)
    else Some (false, u64 n, width, zero, hex)
  else if decide (c = "z" \/ c = "l" \/ c = "L") then
    Some (sign, (if sign then s64 n else u64 n), width, zero, hex)
  else if decide (c = "i" \/ c = "A") then
    Some (sign, (if sign then s64 n else u64 n),
          (if max_width then NGX_INT_T_LEN else width), zero, hex)
  else if decide (c = "d" \/ c = "D") then
    Some (sign, (if sign then s32 n else u32 n), width, zero, hex)
  else if decide (c = "p") then Some (false, u64 n, 16, "0", 2)
  else None.

(** The second [switch] and the code after it: the output and the
    arguments left.  The negation of the least signed number is taken to wrap. *)
Definition do_conv (cap : option Z) (out : list Z) (cv : conv) (c : Z)
    (args : list va_arg) : option (list Z * list va_arg) :=
  if decide (c = "V") then
    match args with
    | AStr s :: args =>
        Some (ngx_sprintf_str cap out s (Some (Z.of_nat (length s))) (cv_hex cv), args)
    | _ => None
    end
  else if decide (c = "v") then
    match args with
    | AVar s :: args =>
        Some (ngx_sprintf_str cap out s (Some (Z.of_nat (length s))) (cv_hex cv), args)
    | _ => None
    end
  else if decide (c = "s") then
    match args with
    | ACstr s :: args => Some (ngx_sprintf_str cap out s (cv_slen cv) (cv_hex cv), args)
    | _ => None
    end
  else if decide (c = "f") then
    match args with
    | ADouble f :: args =>
        out ← print_double cap out cv f; Some (out, args)
    | _ => None
    end
  else if decide (c = "c") then
    match args with
    | AInt d :: args => Some (out ++ [Z.land d 0xff], args)
    | _ => None
    end
  else if decide (c = "Z") then Some (out ++ [0], args)
  else if decide (c = "N") then Some (out ++ [10], args)
  else if decide (c = "%") then Some (out ++ ["%"], args)
  else
    match int_conv cv c 0 with
    | None => Some (out ++ [c], args)
    | Some _ =>
        match args with
        | AInt n :: args =>
            '(sign, v, width, zero, hex) ← int_conv cv c n;
            let out := if sign && bool_decide (v < 0) then out ++ ["-"] else out in
            let ui64 := if sign && bool_decide (v < 0) then u64 (- v) else u64 v in
            Some (ngx_sprintf_num cap out ui64 zero hex width, args)
        | _ => None
        end
    end.

(** The outer loop; every round consumes at least one character of [fmt]. *)
Fixpoint vslprintf_loop (fuel : nat) (cap : option Z) (out fmt : list Z)
    (args : list va_arg) : option (list Z) :=
  match fuel with
  | O => None
  | S fuel =>
      match fmt with
      | [] => Some out
      | c :: fmt =>
          if negb (below cap out 0) then Some out
          else if decide (c = "%") then
            let zero := if decide (head fmt = Some ("0" : Z)) then "0" else " " in
            let '(width, fmt) := parse_width 0 fmt in
            '(cv, fmt, args) ← parse_flags (Conv zero width true 0 false 0 None) fmt args;
            match fmt with
            | [] => None
            | c :: fmt =>
                '(out, args) ← do_conv cap out cv c args;
                vslprintf_loop fuel cap out fmt args
            end
          else vslprintf_loop fuel cap (out ++ [c]) fmt args
      end
  end.

Definition ngx_vslprintf (cap : option Z) (fmt : list Z) (args : list va_arg)
  : option (list Z) :=
  vslprintf_loop (S (length fmt)) cap [] fmt args.

Definition ngx_sprintf (fmt : list Z) (args : list va_arg) : option (list Z) :=
  ngx_vslprintf None fmt args.

Definition ngx_snprintf (max : Z) (fmt : list Z) (args : list va_arg)
  : option (list Z) :=
  ngx_vslprintf (Some max) fmt args.

Example sprintf_1 :
  ngx_sprintf (bstr "%04d:%uxL|%V%%") [AInt 42; AInt 255; AStr (bstr "abc")]
  = Some (bstr "0042:ff|abc%").
Proof. vm_compute. reflexivity. Qed.

Example sprintf_2 :
  ngx_sprintf (bstr "%18.15f") [ADouble (SFdiv 53 1024 (double_of_Z 1) (double_of_Z 3))]
  = Some (bstr "                 0.333333333333333").
Proof. vm_compute. reflexivity. Qed.

Example sprintf_3 :
  ngx_snprintf 5 (bstr "%L rest") [AInt (- 123)] = Some (bstr "-123 ").
Proof. vm_compute. reflexivity. Qed.

(** ** Numbers: printing is inverse to parsing *)

(** The digits produced by [num_digits] are those of the positional numeral. *)
Lemma num_digits_acc fuel base v alphabet acc :
  num_digits fuel base v alphabet acc = num_digits fuel base v alphabet [] ++ acc.
Proof.
  revert v acc. induction fuel as [|fuel IH]; intros v acc; [done|]. cbn [num_digits].
  case_decide; [done|]. rewrite IH. rewrite (IH _ [_]), <- app_assoc. done.
Qed.

Section Numerals.
(** An alphabet whose digits [digit] reads back, in base 2 or more. *)
Context (base : Z) (alphabet : list Z) (digit : Z -> Z) (good : Z -> bool).
Context (Hbase : 2 <= base).
Context (Hdigit : forall d, 0 <= d < base ->
  digit (nth (Z.to_nat d) alphabet 0) = d /\ good (nth (Z.to_nat d) alphabet 0) = true).

Lemma num_digits_spec fuel v :
  0 <= v < base ^ Z.of_nat fuel -> (0 < fuel)%nat ->
  let l := num_digits fuel base v alphabet [] in
  numeral base digit 0 l = v /\ forallb good l = true /\ l <> []
  /\ (length l <= fuel)%nat
  /\ (0 < v -> base ^ (Z.of_nat (length l) - 1) <= v).
Proof.
  cbv zeta. revert v. induction fuel as [|fuel IH]; intros v Hv Hf; [lia|].
  cbn [num_digits].
  destruct (Hdigit (v mod base)) as [Ed Eg]; [apply Z.mod_pos_bound; lia|].
  pose proof (Z.div_mod v base ltac:(lia)) as Edm.
  case_decide as E.
  - cbn [numeral fold_left forallb length]. rewrite Ed, Eg. split_and!; try done; try lia.
  - rewrite num_digits_acc.
    replace (Z.of_nat (S fuel)) with (Z.of_nat fuel + 1) in Hv by lia.
    rewrite Z.pow_add_r, Z.pow_1_r in Hv by lia.
    assert (0 <= v / base < base ^ Z.of_nat fuel) as Hq.
    { split; [apply Z.div_pos; lia|]. apply Z.div_lt_upper_bound; lia. }
    assert (0 < fuel)%nat as Hf'.
    { destruct fuel; [|lia]. change (base ^ Z.of_nat 0) with 1 in Hq. lia. }
    destruct (IH (v / base) Hq Hf') as (En & Eg' & Hne & Hlen & Hlo).
    rewrite numeral_app, En. cbn [numeral fold_left]. rewrite Ed, forallb_app, Eg'.
    cbn [forallb]. rewrite Eg, length_app. cbn [length].
    split_and!; try done; try lia.
    + intros H. by destruct (app_cons_not_nil _ _ _ (eq_sym H)).
    + intros Hpos. specialize (Hlo ltac:(lia)).
      set (k := length (num_digits fuel base (v / base) alphabet [])) in *.
      replace (Z.of_nat (k + 1) - 1) with (Z.of_nat k - 1 + 1)
        by lia.
      assert (0 < k)%nat by (destruct (num_digits fuel base (v / base) alphabet []); cbn in *; [done|lia]).
      rewrite Z.pow_add_r, Z.pow_1_r by lia.
      pose proof (Z.mod_pos_bound v base ltac:(lia)).
      transitivity (v / base * base); [apply Z.mul_le_mono_nonneg_r; lia|lia].
Qed.
End Numerals.

Lemma dec_digit_ok d :
  0 <= d < 10 ->
  nth (Z.to_nat d) lower_hex 0 - "0" = d /\ is_digit (nth (Z.to_nat d) lower_hex 0) = true.
Proof.
  intros H. assert (is_byte d) as Hd by (unfold is_byte; lia).
  revert H. byte_sweep d Hd.
Qed.

Lemma hex_digit_ok (upper : bool) d :
  0 <= d < 16 ->
  let a := if upper then upper_hex else lower_hex in
  hex_val (nth (Z.to_nat d) a 0) = d
  /\ (is_hex (nth (Z.to_nat d) a 0) && bool_decide (is_byte (nth (Z.to_nat d) a 0))) = true.
Proof.
  intros H. assert (is_byte d) as Hd by (unfold is_byte; lia).
  revert H. destruct upper; byte_sweep d Hd.
Qed.

(** The number printed into an unbounded buffer: padding, then the digits. *)
Lemma pad_num_none n zero out : pad_num n None zero out = out ++ replicate n zero.
Proof.
  revert out. induction n as [|n IH]; intros out; cbn; [by rewrite app_nil_r|].
  by rewrite IH, <- app_assoc.
Qed.

Lemma numeral_zeros base digit zero n l :
  digit zero = 0 -> numeral base digit 0 (replicate n zero ++ l) = numeral base digit 0 l.
Proof.
  intros Hz. induction n as [|n IH]; [done|]. cbn [replicate app numeral fold_left].
  rewrite Hz. exact IH.
Qed.

Lemma forallb_replicate {A} (f : A -> bool) n x :
  f x = true -> forallb f (replicate n x) = true.
Proof. intros H. induction n; [done|]. cbn. by rewrite H. Qed.

(** A decimal number printed with zero padding to any width is read back by
    [ngx_atoi], is at least as long as the width, and has no superfluous digit
    beyond it. *)
Theorem sprintf_num_roundtrip n width :
  0 <= n <= NGX_MAX_INT_T_VALUE ->
  let ds := ngx_sprintf_num None [] n "0" 0 width in
  ngx_atoi ds = n /\ width <= Z.of_nat (length ds)
  /\ (width < Z.of_nat (length ds) -> 0 < n -> 10 ^ (Z.of_nat (length ds) - 1) <= n).
Proof.
  intros Hn ds. unfold ds, ngx_sprintf_num. rewrite decide_True by done.
  rewrite pad_num_none. cbn [safe_copy app].
  destruct (num_digits_spec 10 lower_hex (fun c => c - "0") is_digit ltac:(lia)
              dec_digit_ok 20 n) as (Ev & Eg & Hne & Hlen & Hlo); [|lia|].
  { unfold NGX_MAX_INT_T_VALUE in Hn. change (10 ^ Z.of_nat 20) with 100000000000000000000. lia. }
  set (p := num_digits 20 10 n lower_hex []) in *.
  rewrite length_app, length_replicate. split_and!; [|lia|].
  - unfold ngx_atoi. rewrite atoi_max_spec by by_decide. unfold dec_value.
    rewrite numeral_zeros, Ev, forallb_app, forallb_replicate, Eg by done.
    rewrite bool_decide_eq_false_2.
    + by rewrite (proj2 (Z.leb_le _ _)) by lia.
    + intros H. apply app_nil in H. tauto.
  - intros Hw Hpos. specialize (Hlo Hpos).
    by replace (Z.to_nat (width - Z.of_nat (length p))) with 0%nat by lia.
Qed.

Lemma sprintf_num_roundtrip_witness :
  0 <= 42 <= NGX_MAX_INT_T_VALUE /\ ngx_atoi (ngx_sprintf_num None [] 42 "0" 0 4) = 42.
Proof.
  assert (0 <= 42 <= NGX_MAX_INT_T_VALUE) as H by by_decide.
  split; [exact H|]. exact (proj1 (sprintf_num_roundtrip 42 4 H)).
Defined.

(** a number printed in hexadecimal, in either case and with zero padding
    to any width, is read back by [ngx_hextoi]. *)
Theorem sprintf_hex_roundtrip n (upper : bool) width :
  0 <= n <= NGX_MAX_INT_T_VALUE ->
  ngx_hextoi (ngx_sprintf_num None [] n "0" (if upper then 2 else 1) width) = n.
Proof.
  intros Hn. unfold ngx_sprintf_num. rewrite pad_num_none. cbn [safe_copy app].
  assert (0 <= n < 16 ^ Z.of_nat 20) as Hn'.
  { unfold NGX_MAX_INT_T_VALUE in Hn. change (16 ^ Z.of_nat 20) with (2 ^ 80). lia. }
  destruct (num_digits_spec 16 (if upper then upper_hex else lower_hex) hex_val
              (fun c => is_hex c && bool_decide (is_byte c))
              ltac:(lia) (hex_digit_ok upper) 20 n Hn') as (Ev & Eg & Hne & _); [lia|].
  set (p := num_digits 20 16 n (if upper then upper_hex else lower_hex) []) in *.
  assert ((if decide ((if upper then 2 else 1) = 0) then num_digits 20 10 n lower_hex []
           else if decide ((if upper then 2 else 1) = 1) then num_digits 20 16 n lower_hex []
           else num_digits 20 16 n upper_hex []) = p) as -> by (by destruct upper).
  set (z := replicate _ _).
  assert (forallb is_hex p = true /\ bytes p) as [Hx Hb].
  { split.
    - apply forallb_forall. intros x Hx. rewrite forallb_forall in Eg.
      apply Eg, andb_true_iff in Hx. tauto.
    - apply List.Forall_forall. intros x Hx. rewrite forallb_forall in Eg.
      apply Eg, andb_true_iff in Hx. destruct Hx as [_ Hx].
      by apply bool_decide_eq_true in Hx. }
  rewrite hextoi_exact.
  - unfold hex_value. subst z.
    rewrite numeral_zeros, Ev, forallb_app, forallb_replicate, Hx by done.
    rewrite bool_decide_eq_false_2.
    + by rewrite (proj2 (Z.leb_le _ _)) by lia.
    + intros H. apply app_nil in H. tauto.
  - apply Forall_app. split; [|done]. apply Forall_replicate. by_decide.
Qed.

Lemma sprintf_hex_roundtrip_witness :
  0 <= 48879 <= NGX_MAX_INT_T_VALUE
  /\ ngx_hextoi (ngx_sprintf_num None [] 48879 "0" 2 8) = 48879.
Proof.
  assert (0 <= 48879 <= NGX_MAX_INT_T_VALUE) as H by by_decide.
  split; [exact H|]. exact (sprintf_hex_roundtrip 48879 true 8 H).
Defined.

(** ** Bounded printing is truncated unbounded printing *)

(** [out] is what fits of [full] in a buffer of [n] bytes. *)
Definition cut (n : Z) (full out : list Z) : Prop := out = take (Z.to_nat n) full.

Lemma cut_below n full out :
  cut n full out -> below (Some n) out 0 = true -> out = full /\ Z.of_nat (length full) < n.
Proof.
  unfold cut, below. intros -> H. apply bool_decide_eq_true in H.
  rewrite length_take in H. rewrite take_ge by lia. split; [done|lia].
Qed.

Lemma cut_full n full out t :
  cut n full out -> below (Some n) out 0 = false -> cut n (full ++ t) out.
Proof.
  unfold cut, below. intros -> H. apply bool_decide_eq_false in H.
  rewrite length_take in H. rewrite take_app_le by lia. done.
Qed.

Lemma cut_push n full out c :
  cut n full out -> below (Some n) out 0 = true -> cut n (full ++ [c]) (out ++ [c]).
Proof.
  intros H1 H2. destruct (cut_below _ _ _ H1 H2) as [-> H]. unfold cut.
  rewrite take_ge; [done|]. rewrite length_app. cbn. lia.
Qed.

Lemma cut_copy n full out src :
  cut n full out -> cut n (safe_copy None full src) (safe_copy (Some n) out src).
Proof.
  unfold cut, safe_copy. intros ->. rewrite take_app, length_take. do 2 f_equal. lia.
Qed.

Lemma cut_pad n k full out zero :
  cut n full out -> cut n (pad_num k None zero full) (pad_num k (Some n) zero out).
Proof.
  revert full out. induction k as [|k IH]; intros full out H; [done|]. cbn [pad_num].
  destruct (below (Some n) out 0) eqn:E.
  - apply IH. by apply cut_push.
  - rewrite pad_num_none. cbn [below]. rewrite <- app_assoc. by apply cut_full.
Qed.

Lemma cut_num n full out v zero hex width :
  cut n full out ->
  cut n (ngx_sprintf_num None full v zero hex width)
    (ngx_sprintf_num (Some n) out v zero hex width).
Proof. intros H. apply cut_copy, cut_pad, H. Qed.

Lemma cut_str n full out s len :
  cut n full out ->
  cut n (ngx_sprintf_str None full s len 0) (ngx_sprintf_str (Some n) out s len 0).
Proof. intros H. unfold ngx_sprintf_str. rewrite !decide_True by done. by apply cut_copy. Qed.

Lemma cut_double n full out cv f full' :
  cut n full out -> below (Some n) out 0 = true ->
  print_double None full cv f = Some full' ->
  exists out', print_double (Some n) out cv f = Some out' /\ cut n full' out'.
Proof.
  intros H Hb. unfold print_double.
  set (neg := SFltb f _).
  assert (cut n (if neg then full ++ ["-"] else full) (if neg then out ++ ["-"] else out)) as H'
    by (destruct neg; [by apply cut_push|done]).
  destruct (trunc_double _ _ _) as [i|]; cbn [mbind option_bind]; [|discriminate].
  case_decide; [intros <-%Some_inv; eexists; split; [reflexivity|by apply cut_num]|].
  destruct (trunc_double _ _ _) as [frac|]; cbn [mbind option_bind]; [|discriminate].
  destruct (if decide (frac = _) then _ else _) as [ui64 frac'].
  intros <-%Some_inv. eexists. split; [reflexivity|]. apply cut_num.
  set (f1 := ngx_sprintf_num None _ _ _ _ _). set (o1 := ngx_sprintf_num (Some n) _ _ _ _ _).
  assert (cut n f1 o1) as H1 by (by apply cut_num).
  change (below None f1 0) with true. cbv iota.
  destruct (below (Some n) o1 0) eqn:E; [by apply cut_push|by apply cut_full].
Qed.

Lemma cut_conv n full out cv c args full' args' :
  cut n full out -> below (Some n) out 0 = true -> cv_hex cv = 0 ->
  do_conv None full cv c args = Some (full', args') ->
  exists out', do_conv (Some n) out cv c args = Some (out', args') /\ cut n full' out'.
Proof.
  intros H Hb Hx. unfold do_conv. rewrite Hx.
  destruct (cut_below _ _ _ H Hb) as [Eo _].
  do 3 (case_decide; [destruct args as [|[] args]; try discriminate;
    intros [<- <-]%Some_pair_inv; eexists; (split; [reflexivity|by apply cut_str])|]).
  case_decide; [destruct args as [|[] args]; try discriminate|].
  2: case_decide; [destruct args as [|[] args]; try discriminate;
    intros [<- <-]%Some_pair_inv; eexists; (split; [reflexivity|by apply cut_push])|].
  2: do 3 (case_decide; [intros [<- <-]%Some_pair_inv; eexists; (split; [reflexivity|by apply cut_push])|]).
  - destruct (print_double None full cv f) as [fu|] eqn:E; [|discriminate].
    cbn [mbind option_bind].
    intros [<- <-]%Some_pair_inv. destruct (cut_double _ _ _ _ _ _ H Hb E) as (o & -> & Ho).
    eexists. split; [reflexivity|done].
  - destruct (int_conv cv c 0); [|intros [<- <-]%Some_pair_inv; eexists; split; [reflexivity|by apply cut_push]].
    destruct args as [|[k| | | |] args]; try discriminate.
    destruct (int_conv cv c k) as [[[[[sign v] width] zero] hex]|]; [|discriminate].
    cbn [mbind option_bind]. intros [<- <-]%Some_pair_inv. eexists. split; [reflexivity|]. apply cut_num.
    destruct (sign && bool_decide (v < 0)); [by apply cut_push|done].
Qed.

(** A conversion into an unbounded buffer only appends. *)
Lemma num_appends full v zero hex width :
  exists t, ngx_sprintf_num None full v zero hex width = full ++ t.
Proof.
  unfold ngx_sprintf_num, safe_copy. rewrite pad_num_none, <- app_assoc. eauto.
Qed.

Lemma hex_copy_appends full s a : exists t, hex_copy None full s a = full ++ t.
Proof.
  revert full. induction s as [|c s IH]; intros full; cbn.
  - exists []. by rewrite app_nil_r.
  - destruct (IH (full ++ [nth (Z.to_nat (Z.shiftr c 4)) a 0;
                           nth (Z.to_nat (Z.land c 15)) a 0])) as [t ->].
    rewrite <- app_assoc. eauto.
Qed.

Lemma str_appends full s len hex : exists t, ngx_sprintf_str None full s len hex = full ++ t.
Proof.
  unfold ngx_sprintf_str. repeat case_decide; try apply hex_copy_appends.
  unfold safe_copy. eauto.
Qed.

Lemma double_appends full cv f full' :
  print_double None full cv f = Some full' -> exists t, full' = full ++ t.
Proof.
  unfold print_double. cbn [below].
  assert (exists s, (if SFltb f (S754_zero false) then full ++ ["-"] else full) = full ++ s)
    as [s ->] by (destruct (SFltb _ _); [|exists []; rewrite app_nil_r]; eauto).
  destruct (trunc_double _ _ _) as [i|]; cbn [mbind option_bind]; [|discriminate].
  case_decide.
  - intros <-%Some_inv. destruct (num_appends (full ++ s) (u64 i) (cv_zero cv) 0 (cv_width cv)) as [t ->].
    rewrite <- app_assoc. eauto.
  - destruct (trunc_double _ _ _) as [frac|]; cbn [mbind option_bind]; [|discriminate].
    destruct (if decide (frac = _) then _ else _) as [ui64 frac'].
    intros <-%Some_inv.
    destruct (num_appends (full ++ s) ui64 (cv_zero cv) 0 (cv_width cv)) as [t ->].
    destruct (num_appends ((((full ++ s) ++ t) ++ ["."])) frac' "0" 0 (cv_frac_width cv)) as [t2 ->].
    rewrite <- !app_assoc. eauto.
Qed.

Lemma conv_appends full cv c args full' args' :
  do_conv None full cv c args = Some (full', args') -> exists t, full' = full ++ t.
Proof.
  unfold do_conv.
  do 3 (case_decide; [destruct args as [|[] args]; try discriminate;
    intros [<- <-]%Some_pair_inv; apply str_appends|]).
  case_decide; [destruct args as [|[] args]; try discriminate|].
  2: case_decide; [destruct args as [|[] args]; try discriminate; intros [<- <-]%Some_pair_inv; eauto|].
  2: do 3 (case_decide; [intros [<- <-]%Some_pair_inv; eauto|]).
  - destruct (print_double None full cv f) as [fu|] eqn:E; [|discriminate].
    cbn [mbind option_bind].
    intros [<- <-]%Some_pair_inv. by eapply double_appends.
  - destruct (int_conv cv c 0); [|intros [<- <-]%Some_pair_inv; eauto].
    destruct args as [|[k| | | |] args]; try discriminate.
    destruct (int_conv cv c k) as [[[[[sign v] width] zero] hex]|]; [|discriminate].
    cbn [mbind option_bind]. intros [<- <-]%Some_pair_inv. destruct (sign && bool_decide (v < 0)); [|apply num_appends].
    destruct (num_appends (full ++ ["-"]) (u64 (- v)) zero hex width) as [t ->].
    rewrite <- app_assoc. eauto.
Qed.

(** The parsers of a conversion return a suffix of the format. *)
Lemma parse_width_suffix w fmt w' rest :
  parse_width w fmt = (w', rest) -> exists p, fmt = p ++ rest.
Proof.
  revert w. induction fmt as [|c fmt IH]; intros w; cbn.
  - intros [= <- <-]. by exists [].
  - case_decide; [|intros [= <- <-]; by exists []].
    intros Hr. destruct (IH _ Hr) as [p ->]. by exists (c :: p).
Qed.

Definition no_hex (fmt : list Z) : Prop := Forall (fun c => c <> "x" /\ c <> "X") fmt.

Lemma parse_flags_suffix cv fmt args cv' rest args' :
  parse_flags cv fmt args = Some (cv', rest, args') ->
  (exists p, fmt = p ++ rest) /\ (no_hex fmt -> cv_hex cv' = cv_hex cv).
Proof.
  revert cv args. induction fmt as [|c fmt IH]; intros [zero width sign hex mw fw sl] args.
  { cbn. intros [= <- <- <-]. split; [by exists []|done]. }
  assert (forall cv2 args2, parse_flags cv2 fmt args2 = Some (cv', rest, args') ->
    (exists p, c :: fmt = p ++ rest) /\ (no_hex (c :: fmt) -> cv_hex cv' = cv_hex cv2)) as Hs.
  { intros cv2 args2 H. destruct (IH _ _ H) as [[p ->] Hx]. split.
    - by exists (c :: p).
    - intros Hn. apply Hx. by inversion Hn. }
  cbn [parse_flags]. do 2 (case_decide; [intros Hr; by apply Hs in Hr|]).
  do 2 (case_decide; [intros Hr; apply Hs in Hr; destruct Hr as [Hr _];
                      split; [done|intros Hn; inversion Hn; subst; tauto]|]).
  case_decide.
  { destruct (parse_width fw fmt) as [fw' rest'] eqn:E. intros [= <- <- <-].
    destruct (parse_width_suffix _ _ _ _ E) as [p ->].
    split; [by exists (c :: p)|done]. }
  case_decide.
  { destruct args as [|[k| | | |] args]; try discriminate. intros Hr. by apply Hs in Hr. }
  intros [= <- <- <-]. split; [by exists []|done].
Qed.

(** One round of the outer loop, as a function of the rest of the loop. *)
Lemma vslprintf_conv fuel cap out fmt args :
  below cap out 0 = true ->
  vslprintf_loop (S fuel) cap out ("%" :: fmt) args =
    let zero := if decide (head fmt = Some ("0" : Z)) then "0" else " " in
    let '(width, fmt1) := parse_width 0 fmt in
    match parse_flags (Conv zero width true 0 false 0 None) fmt1 args with
    | Some (cv, c :: fmt2, args) =>
        match do_conv cap out cv c args with
        | Some (out, args) => vslprintf_loop fuel cap out fmt2 args
        | None => None
        end
    | _ => None
    end.
Proof.
  intros H. cbn [vslprintf_loop]. rewrite H. cbn [negb]. rewrite decide_True by done.
  destruct (parse_width 0 fmt) as [w f1]. cbv zeta.
  destruct (parse_flags _ f1 args) as [[[cv [|c f2]] a2]|]; [done| |done].
  cbn [mbind option_bind]. by destruct (do_conv cap out cv c a2) as [[]|].
Qed.

Lemma conv_rest (zero : Z) fmt args w f1 cv c f2 args2 :
  parse_width 0 fmt = (w, f1) ->
  parse_flags (Conv zero w true 0 false 0 None) f1 args = Some (cv, c :: f2, args2) ->
  (length f2 < length fmt)%nat /\ (no_hex fmt -> cv_hex cv = 0 /\ no_hex f2).
Proof.
  intros E1 E2. destruct (parse_width_suffix _ _ _ _ E1) as [p ->].
  destruct (parse_flags_suffix _ _ _ _ _ _ E2) as [[q ->] Hx].
  rewrite !length_app. cbn [length]. split; [lia|].
  intros H. apply Forall_app in H. destruct H as [_ H].
  split; [by apply Hx|]. apply Forall_app in H. destruct H as [_ H]. by inversion H.
Qed.

Ltac vslprintf_cases fmt args c Hb :=
  destruct (decide (c = "%")) as [->|?];
  [ rewrite !vslprintf_conv by (exact Hb || reflexivity); cbv zeta;
    destruct (parse_width 0 fmt) as [w f1] eqn:E1;
    destruct (parse_flags _ f1 args) as [[[cv [|c2 f2]] args2]|] eqn:E2;
      try discriminate; try reflexivity
  | ].

Lemma vslprintf_plain fuel cap out c fmt args :
  below cap out 0 = true -> c <> "%" ->
  vslprintf_loop (S fuel) cap out (c :: fmt) args
    = vslprintf_loop fuel cap (out ++ [c]) fmt args.
Proof. intros H1 H2. cbn [vslprintf_loop]. rewrite H1. cbn [negb]. by rewrite decide_False. Qed.

(** The fuel is enough: more of it changes nothing. *)
Lemma vslprintf_fuel f1 f2 cap out fmt args :
  (length fmt < f1)%nat -> (length fmt < f2)%nat ->
  vslprintf_loop f1 cap out fmt args = vslprintf_loop f2 cap out fmt args.
Proof.
  revert f2 out fmt args. induction f1 as [|n IH]; intros [|m] out [|c fmt] args H1 H2;
    try (cbn in *; lia); [done|].
  cbn [length] in *. destruct (below cap out 0) eqn:Hb;
    [|cbn [vslprintf_loop]; by rewrite Hb].
  vslprintf_cases fmt args c Hb.
  - destruct (conv_rest _ _ _ _ _ _ _ _ _ E1 E2) as [Hl _].
    destruct (do_conv cap out cv c2 args2) as [[o a]|]; [|done]. apply IH; lia.
  - rewrite !vslprintf_plain by done. apply IH; lia.
Qed.

Lemma vslprintf_appends fuel full fmt args o :
  vslprintf_loop fuel None full fmt args = Some o -> exists t, o = full ++ t.
Proof.
  revert full fmt args. induction fuel as [|fuel IH]; intros full [|c fmt] args;
    try discriminate.
  { intros <-%Some_inv. exists []. by rewrite app_nil_r. }
  vslprintf_cases fmt args c (eq_refl true).
  - destruct (do_conv None full cv c2 args2) as [[o2 a2]|] eqn:E3; [|discriminate].
    intros Hr. destruct (IH _ _ _ Hr) as [t ->].
    destruct (conv_appends _ _ _ _ _ _ E3) as [s ->]. rewrite <- app_assoc. eauto.
  - rewrite vslprintf_plain by done. intros Hr. destruct (IH _ _ _ Hr) as [t ->].
    rewrite <- app_assoc. eauto.
Qed.

Lemma cut_loop fuel n full out fmt args o :
  cut n full out -> no_hex fmt ->
  vslprintf_loop fuel None full fmt args = Some o ->
  exists o', vslprintf_loop fuel (Some n) out fmt args = Some o' /\ cut n o o'.
Proof.
  revert full out fmt args. induction fuel as [|fuel IH]; intros full out [|c fmt] args H Hx;
    try discriminate.
  { intros <-%Some_inv. by exists out. }
  destruct (below (Some n) out 0) eqn:Hb.
  2: { intros E. destruct (vslprintf_appends _ _ _ _ _ E) as [t ->].
       exists out. cbn [vslprintf_loop]. rewrite Hb. split; [done|by apply cut_full]. }
  apply List.Forall_cons_iff in Hx. destruct Hx as [_ Hx].
  vslprintf_cases fmt args c Hb.
  - destruct (conv_rest _ _ _ _ _ _ _ _ _ E1 E2) as [_ Hh].
    destruct (Hh Hx) as [Hh1 Hh2].
    destruct (do_conv None full cv c2 args2) as [[o2 a2]|] eqn:E3; [|discriminate].
    destruct (cut_conv _ _ _ _ _ _ _ _ H Hb Hh1 E3) as (o2' & -> & H').
    by apply IH.
  - rewrite !vslprintf_plain by done. apply IH; [by apply cut_push|done].
Qed.

(** Printing into a buffer of [n] bytes writes exactly the first [n] bytes
    of what unbounded printing writes, for every format without the flags x
    and X (whose string conversions keep pairs of digits together). *)
Theorem snprintf_truncates n fmt args o :
  no_hex fmt -> ngx_sprintf fmt args = Some o ->
  ngx_snprintf n fmt args = Some (take (Z.to_nat n) o).
Proof.
  unfold ngx_sprintf, ngx_snprintf, ngx_vslprintf. intros Hx E.
  destruct (cut_loop _ n [] [] _ _ _ (eq_sym (take_nil _)) Hx E) as (o' & E' & ->).
  exact E'.
Qed.

Lemma snprintf_truncates_witness :
  ngx_snprintf 6 (bstr "%04d-%V") [AInt 7; AStr (bstr "abc")] = Some (bstr "0007-a").
Proof.
  refine (snprintf_truncates 6 (bstr "%04d-%V") [AInt 7; AStr (bstr "abc")]
            (bstr "0007-abc") _ _).
  - by_decide.
  - vm_compute. reflexivity.
Defined.

(** Output that fits is not cut. *)
Lemma snprintf_fits n fmt args o : no_hex fmt -> ngx_sprintf fmt args = Some o -> Z.of_nat (length o) <= n ->
  ngx_snprintf n fmt args = Some o.
Proof.
  unfold ngx_sprintf, ngx_snprintf, ngx_vslprintf. intros Hx E Hn.
  destruct (cut_loop _ n [] [] _ _ _ (eq_sym (take_nil _)) Hx E) as (o' & E' & ->).
  by rewrite take_ge in E' by lia.
Qed.

(** ** No overrun *)

Definition fits (n : Z) (out : list Z) : Prop := Z.of_nat (length out) <= n.

Lemma fits_push n out c : below (Some n) out 0 = true -> fits n (out ++ [c]).
Proof.
  unfold below, fits. intros H. apply bool_decide_eq_true in H.
  rewrite length_app. cbn. lia.
Qed.

Lemma fits_copy n out src : fits n out -> fits n (safe_copy (Some n) out src).
Proof. unfold fits, safe_copy. intros H. rewrite length_app, length_take. lia. Qed.

Lemma fits_pad n k out zero : fits n out -> fits n (pad_num k (Some n) zero out).
Proof.
  revert out. induction k as [|k IH]; intros out H; [done|]. cbn [pad_num].
  destruct (below (Some n) out 0) eqn:E; [|done]. apply IH. by apply fits_push.
Qed.

Lemma fits_num n out v zero hex width :
  fits n out -> fits n (ngx_sprintf_num (Some n) out v zero hex width).
Proof. intros H. apply fits_copy, fits_pad, H. Qed.

Lemma fits_hex n out s a : fits n out -> fits n (hex_copy (Some n) out s a).
Proof.
  revert out. induction s as [|c s IH]; intros out H; [done|]. cbn [hex_copy].
  destruct (below (Some n) out 1) eqn:E; [|done]. apply IH.
  unfold below in E. apply bool_decide_eq_true in E. unfold fits.
  rewrite length_app. cbn. lia.
Qed.

Lemma fits_str n out s len hex : fits n out -> fits n (ngx_sprintf_str (Some n) out s len hex).
Proof.
  intros H. unfold ngx_sprintf_str.
  repeat case_decide; by (apply fits_copy || apply fits_hex).
Qed.

Lemma below_fits n out : below (Some n) out 0 = true -> fits n out.
Proof. unfold below, fits. intros H. apply bool_decide_eq_true in H. lia. Qed.

Lemma fits_double n out cv f out' :
  below (Some n) out 0 = true -> print_double (Some n) out cv f = Some out' -> fits n out'.
Proof.
  intros Hb. unfold print_double. set (neg := SFltb f _).
  assert (fits n (if neg then out ++ ["-"] else out)) as H
    by (destruct neg; [by apply fits_push|by apply below_fits]).
  destruct (trunc_double _ _ _) as [i|]; cbn [mbind option_bind]; [|discriminate].
  case_decide; [intros <-%Some_inv; by apply fits_num|].
  destruct (trunc_double _ _ _) as [frac|]; cbn [mbind option_bind]; [|discriminate].
  destruct (if decide (frac = _) then _ else _) as [ui64 frac'].
  intros <-%Some_inv. apply fits_num.
  set (o1 := ngx_sprintf_num (Some n) _ _ _ _ _).
  assert (fits n o1) as H1 by (by apply fits_num).
  destruct (below (Some n) o1 0) eqn:E; [by apply fits_push|done].
Qed.

Lemma fits_conv n out cv c args out' args' :
  below (Some n) out 0 = true ->
  do_conv (Some n) out cv c args = Some (out', args') -> fits n out'.
Proof.
  intros Hb. pose proof (below_fits _ _ Hb) as H. unfold do_conv.
  do 3 (case_decide; [destruct args as [|[] args]; try discriminate;
    intros [<- <-]%Some_pair_inv; by apply fits_str|]).
  case_decide; [destruct args as [|[] args]; try discriminate|].
  2: case_decide; [destruct args as [|[] args]; try discriminate;
    intros [<- <-]%Some_pair_inv; by apply fits_push|].
  2: do 3 (case_decide; [intros [<- <-]%Some_pair_inv; by apply fits_push|]).
  - destruct (print_double (Some n) out cv f) as [o|] eqn:E; [|discriminate].
    intros [<- <-]%Some_pair_inv. by eapply fits_double.
  - destruct (int_conv cv c 0); [|intros [<- <-]%Some_pair_inv; by apply fits_push].
    destruct args as [|[k| | | |] args]; try discriminate.
    destruct (int_conv cv c k) as [[[[[sign v] width] zero] hex]|]; [|discriminate].
    cbn [mbind option_bind]. intros [<- <-]%Some_pair_inv.
    destruct (sign && bool_decide (v < 0)); apply fits_num; [by apply fits_push|done].
Qed.

Lemma fits_loop fuel n out fmt args o :
  fits n out -> vslprintf_loop fuel (Some n) out fmt args = Some o -> fits n o.
Proof.
  revert out fmt args. induction fuel as [|fuel IH]; intros out [|c fmt] args H;
    try discriminate; [by intros <-%Some_inv|].
  destruct (below (Some n) out 0) eqn:Hb.
  2: { cbn [vslprintf_loop]. rewrite Hb. by intros <-%Some_inv. }
  vslprintf_cases fmt args c Hb.
  - destruct (do_conv _ out cv c2 args2) as [[o2 a2]|] eqn:E3; [|discriminate].
    apply IH. by eapply fits_conv.
  - rewrite vslprintf_plain by done. apply IH. by apply fits_push.
Qed.

(** ** Which calls are defined

    A format is a sequence of plain characters and directives; a directive is a
    percent sign, the digits of a width, flags, at last a precision, and the
    character of the conversion. The arguments are those of the directives, in
    order and of their types. *)

Definition digits (ds : list Z) : Prop := Forall (fun c => is_digit c = true) ds.

(** [%*s]: a length, or minus one for a string up to its NUL. *)
Definition star_len (n : Z) : option Z := if decide (u64 n = 2 ^ 64 - 1) then None else Some (u64 n).

(** The flags with their arguments; the length of a string before and after
    them, the precision, and whether there is one. *)
Inductive flags : list Z -> list va_arg -> option Z -> option Z -> Z -> bool -> Prop :=
  | flags_end len : flags [] [] len len 0 false
  | flags_precision ds len : digits ds -> flags ("." :: ds) [] len len (u64 (dec_value ds)) true
  | flags_letter c fl vs len len' prec dot :
      c = "u" \/ c = "m" \/ c = "x" \/ c = "X" ->
      flags fl vs len len' prec dot -> flags (c :: fl) vs len len' prec dot
  | flags_star n fl vs len len' prec dot :
      flags fl vs (star_len n) len' prec dot -> flags ("*" :: fl) (AInt n :: vs) len len' prec dot.

(** The conversions of a double to integers are defined in C. *)
Definition double_in_range (f : spec_float) (prec : Z) : Prop :=
  let f := if SFltb f (S754_zero false) then SFopp f else f in
  match trunc_double (- 2 ^ 63) (2 ^ 63 - 1) f with
  | None => False
  | Some i =>
      prec <> 0 ->
      is_Some (trunc_double 0 (2 ^ 64 - 1)
        (SFadd 53 1024
           (SFmul 53 1024 (SFsub 53 1024 f (double_of_Z (u64 i))) (double_of_Z (u64 (10 ^ prec))))
           double_half))
  end.

(** The arguments of a conversion; a string with a given length has as many
    bytes. A character that is no conversion has none, and is printed. *)
Definition takes (c : Z) (len : option Z) (prec : Z) (args : list va_arg) : Prop :=
  if decide (c = "V") then exists s, args = [AStr s]
  else if decide (c = "v") then exists s, args = [AVar s]
  else if decide (c = "s") then
    exists s, args = [ACstr s] /\ match len with Some n => n <= Z.of_nat (length s) | None => True end
  else if decide (c = "f") then exists f, args = [ADouble f] /\ double_in_range f prec
  else if decide (c ∈ bstr "cOTrPMzlLiAdDp") then exists n, args = [AInt n]
  else args = [].

(** The character after the width, the flags and the precision is not one that
    would belong to them. *)
Definition ends_flags (fl : list Z) (dot : bool) (c : Z) : Prop :=
  (fl = [] \/ dot = true -> is_digit c = false) /\ (dot = false -> c ∉ bstr "umxX.*").

Inductive well_formed : list Z -> list va_arg -> Prop :=
  | wf_end args : well_formed [] args
  | wf_plain c fmt args : c <> "%" -> well_formed fmt args -> well_formed (c :: fmt) args
  | wf_directive ds fl vs len prec dot c a fmt args :
      digits ds -> flags fl vs None len prec dot -> ends_flags fl dot c -> takes c len prec a ->
      well_formed fmt args ->
      well_formed ("%" :: ds ++ fl ++ c :: fmt) (vs ++ a ++ args).

Lemma numeral_mod ds : forall v,
  u64 (numeral 10 (fun c => c - "0") (u64 v) ds) = u64 (numeral 10 (fun c => c - "0") v ds).
Proof.
  induction ds as [|d ds IH]; intros v.
  - cbn. unfold u64. by rewrite Z.mod_mod by done.
  - change (numeral 10 (fun c => c - "0") v (d :: ds))
      with (numeral 10 (fun c => c - "0") (v * 10 + (d - "0")) ds).
    change (numeral 10 (fun c => c - "0") (u64 v) (d :: ds))
      with (numeral 10 (fun c => c - "0") (u64 v * 10 + (d - "0")) ds).
    rewrite <- (IH (u64 v * 10 + (d - "0"))), <- (IH (v * 10 + (d - "0"))).
    do 2 f_equal. unfold u64. rewrite <- Zplus_mod_idemp_l, Zmult_mod_idemp_l, Zplus_mod_idemp_l. done.
Qed.

Lemma parse_width_digits ds c rest : forall w,
  digits ds -> is_digit c = false -> 0 <= w < 2 ^ 64 ->
  parse_width w (ds ++ c :: rest) = (u64 (numeral 10 (fun c => c - "0") w ds), c :: rest).
Proof.
  induction ds as [|d ds IH]; intros w Hd Hc Hw.
  - cbn [app parse_width]. unfold is_digit in Hc. rewrite bool_decide_eq_false in Hc.
    rewrite decide_False by lia. cbn. by rewrite u64_small by lia.
  - apply List.Forall_cons_iff in Hd. destruct Hd as [Hd Hds]. cbn [app parse_width].
    unfold is_digit in Hd. rewrite bool_decide_eq_true in Hd. rewrite decide_True by lia.
    rewrite IH; [|done|done|unfold u64; apply Z.mod_pos_bound; lia].
    change (numeral 10 (fun c => c - "0") w (d :: ds))
      with (numeral 10 (fun c => c - "0") (w * 10 + (d - "0")) ds). by rewrite numeral_mod.
Qed.

Lemma flags_not_digit fl vs len len' prec dot c : flags fl vs len len' prec dot -> ends_flags fl dot c ->
  exists d t, fl ++ [c] = d :: t /\ is_digit d = false.
Proof.
  intros [len0|ds len0 Hd|c0 fl0 vs0 l1 l2 p0 d0 Hc Hf|n fl0 vs0 l1 l2 p0 d0 Hf] [He _]; cbn [app].
  - exists c, []. split; [done|]. apply He. by left.
  - by exists ".", (ds ++ [c]).
  - exists c0, (fl0 ++ [c]). split; [done|]. by destruct Hc as [->|[->|[->| ->]]].
  - by exists "*", (fl0 ++ [c]).
Qed.

Lemma parse_flags_ok fl vs len len' prec dot c rest args :
  flags fl vs len len' prec dot -> forall zero width sign hex mw,
  (dot = true -> is_digit c = false) -> (dot = false -> c ∉ bstr "umxX.*") ->
  exists sign' hex' mw',
    parse_flags (Conv zero width sign hex mw 0 len) (fl ++ c :: rest) (vs ++ args)
    = Some (Conv zero width sign' hex' mw' prec len', c :: rest, args).
Proof.
  induction 1 as [len0|ds len0 Hd|c0 fl0 vs0 l1 l2 p0 d0 Hc Hf IH|n fl0 vs0 l1 l2 p0 d0 Hf IH];
    intros zero width sign hex mw H1 H2; cbn [app].
  - exists sign, hex, mw. specialize (H2 eq_refl).
    change (bstr "umxX.*") with ["u" : Z; "m"; "x"; "X"; "."; "*"] in H2.
    cbn [parse_flags]. rewrite !not_elem_of_cons in H2.
    by rewrite !decide_False by tauto.
  - exists sign, hex, mw. cbn [parse_flags]. do 4 rewrite (decide_False (P := "." = _)) by done.
    rewrite decide_True by done. rewrite parse_width_digits by (done || auto). done.
  - cbn [parse_flags]. destruct Hc as [->|[->|[->| ->]]]; cbn; by apply IH.
  - cbn [parse_flags]. cbn. by apply IH.
Qed.

Lemma print_double_ok cap out cv f : double_in_range f (cv_frac_width cv) -> is_Some (print_double cap out cv f).
Proof.
  unfold double_in_range, print_double. set (g := if SFltb f _ then _ else _).
  destruct (trunc_double _ _ g) as [i|]; [|done]. intros H. cbn [mbind option_bind].
  case_decide as Hp; [done|]. destruct (H Hp) as [frac ->]. cbn [mbind option_bind].
  by destruct (if decide (frac = _) then _ else _).
Qed.

Lemma int_conv_letter cv c : c ∈ bstr "OTrPMzlLiAdDp" <-> forall n, is_Some (int_conv cv c n).
Proof.
  change (bstr "OTrPMzlLiAdDp") with ["O" : Z; "T"; "r"; "P"; "M"; "z"; "l"; "L"; "i"; "A"; "d"; "D"; "p"].
  rewrite !elem_of_cons, elem_of_nil. destruct cv as [zero width sign hex mw fw sl]. unfold int_conv. split.
  - intros H n. repeat case_decide; try done; naive_solver.
  - intros H. destruct (H 0) as [x Hx]. clear H. revert Hx. repeat case_decide; [naive_solver..|done].
Qed.

Lemma int_conv_defined cv c n m : is_Some (int_conv cv c n) -> is_Some (int_conv cv c m).
Proof.
  destruct cv as [zero width sign hex mw fw sl]. unfold int_conv. repeat case_decide; done.
Qed.

Lemma do_conv_ok cap out cv c a args :
  takes c (cv_slen cv) (cv_frac_width cv) a ->
  exists out', do_conv cap out cv c (a ++ args) = Some (out', args).
Proof.
  unfold takes, do_conv. case_decide; [intros [s ->]; by eexists|]. case_decide; [intros [s ->]; by eexists|].
  case_decide; [intros (s & -> & _); by eexists|].
  case_decide.
  { intros (f & -> & Hf). cbn [app]. destruct (print_double_ok cap out cv f Hf) as [o ->]. by eexists. }
  destruct (decide (c = "c")) as [->|Hc].
  { change (("c" : Z) ∈ bstr "cOTrPMzlLiAdDp") with (99 ∈ bstr "cOTrPMzlLiAdDp").
    destruct (decide _) as [_|N]; [intros [n ->]; by eexists|]. destruct N. apply elem_of_cons. by left. }
  destruct (decide (c ∈ bstr "cOTrPMzlLiAdDp")) as [Hi|Hi].
  - assert (c ∈ bstr "OTrPMzlLiAdDp") as Hi'.
    { change (bstr "cOTrPMzlLiAdDp") with (("c" : Z) :: bstr "OTrPMzlLiAdDp") in Hi.
      apply elem_of_cons in Hi as [?|?]; done. }
    assert (c <> "Z" /\ c <> "N" /\ c <> "%") as (N1 & N2 & N3).
    { change (bstr "cOTrPMzlLiAdDp") with ["c" : Z; "O"; "T"; "r"; "P"; "M"; "z"; "l"; "L"; "i"; "A"; "d"; "D"; "p"] in Hi.
      rewrite !elem_of_cons, elem_of_nil in Hi. lia. }
    intros [n ->]. do 3 rewrite decide_False by done.
    rewrite (int_conv_letter cv) in Hi'. destruct (Hi' 0) as [? ->]. cbn [app].
    destruct (Hi' n) as [[[[[sign v] width] zero] hex] ->]. cbn [mbind option_bind]. by eexists.
  - intros ->. cbn [app]. repeat (case_decide; [by eexists|]).
    destruct (int_conv cv c 0) as [x|] eqn:E; [|by eexists]. exfalso. apply Hi.
    change (bstr "cOTrPMzlLiAdDp") with (("c" : Z) :: bstr "OTrPMzlLiAdDp"). apply elem_of_cons. right.
    apply (int_conv_letter cv). intros n. apply (int_conv_defined cv c 0). by rewrite E.
Qed.

Lemma vslprintf_total cap fmt args : well_formed fmt args -> forall fuel out,
  (length fmt < fuel)%nat -> is_Some (vslprintf_loop fuel cap out fmt args).
Proof.
  induction 1 as [args|c fmt args Hc Hw IH|ds fl vs len prec dot c a fmt args Hd Hf He Ht Hw IH];
    intros [|fuel] out Hl; cbn [length] in Hl; try lia; [done|..];
    (destruct (below cap out 0) eqn:Hb; [|cbn [vslprintf_loop]; by rewrite Hb]).
  - rewrite vslprintf_plain by done. apply IH. lia.
  - rewrite vslprintf_conv by done. cbv zeta.
    destruct (flags_not_digit _ _ _ _ _ _ _ Hf He) as (d & t & E & Hnd).
    assert (fl ++ c :: fmt = d :: t ++ fmt) as E2 by (change (c :: fmt) with ([c] ++ fmt); by rewrite app_assoc, E).
    rewrite E2, parse_width_digits by done. rewrite <- E2.
    destruct He as [He1 He2].
    set (zero := if decide _ then _ else _). set (w := u64 _).
    destruct (parse_flags_ok fl vs None len prec dot c fmt (a ++ args) Hf zero w true 0 false) as (s & h & m & ->).
    { intros Hdot. apply He1. by right. } { done. }
    destruct (do_conv_ok cap out (Conv zero w s h m prec len) c a args Ht) as [o ->].
    apply IH. rewrite !length_app in Hl. cbn [length] in Hl. lia.
Qed.

(** C39: bounded printing. For every well-formed format and arguments of the types
    that it asks for, [ngx_snprintf] returns and has written at most [n] bytes,
    [ngx_sprintf] returns too, and without the flags x and X (whose string
    conversions keep pairs of digits together) what is written is the beginning
    of the output of [ngx_sprintf]. *)
Theorem snprintf_bounded n fmt args :
  well_formed fmt args -> 0 <= n ->
  exists full o, ngx_sprintf fmt args = Some full /\ ngx_snprintf n fmt args = Some o
    /\ Z.of_nat (length o) <= n /\ (no_hex fmt -> o = take (Z.to_nat n) full).
Proof.
  intros Hw Hn. destruct (vslprintf_total None _ _ Hw (S (length fmt)) [] ltac:(lia)) as [full E1].
  destruct (vslprintf_total (Some n) _ _ Hw (S (length fmt)) [] ltac:(lia)) as [o E2].
  exists full, o. split; [done|]. split; [done|]. split.
  - by apply (fits_loop _ _ _ _ _ _ (Hn : fits n []) E2).
  - intros Hx. destruct (cut_loop _ n [] [] _ _ _ (eq_sym (take_nil _)) Hx E1) as (o' & E' & Hc).
    rewrite E2 in E'. injection E' as <-. exact Hc.
Qed.

(** A format with most of the features. *)
Definition some_format : list Z := bstr "%04d|%*s|%V|%.3f|%%|%uL|%Z".
Definition some_args : list va_arg :=
  [AInt (-7); AInt 3; ACstr (bstr "abcdef"); AStr (bstr "xyz"); ADouble (double_of_Z 2); AInt 255].

Ltac plain := apply wf_plain; [done|].

(** Proves the conditions on one directive; its arguments are given. *)
Ltac directive ds fl vs len prec dot c a :=
  apply (wf_directive ds fl vs len prec dot c a);
  [repeat constructor|repeat first [apply flags_end|apply flags_precision; repeat constructor
     |apply flags_star|apply flags_letter; [by auto|]]|
   split; [intros [|]; (done || reflexivity)|intros; (done || (vm_compute bstr; rewrite !elem_of_cons, elem_of_nil; lia))]
  | |].

Lemma some_format_ok : well_formed some_format some_args.
Proof.
  directive (bstr "04") ([] : list Z) ([] : list va_arg) (None : option Z) 0 false ("d" : Z) [AInt (-7)].
  { hnf. by eexists. }
  plain. directive ([] : list Z) (bstr "*") [AInt 3] (Some 3) 0 false ("s" : Z) [ACstr (bstr "abcdef")].
  { hnf. exists (bstr "abcdef"). split; [done|]. by_decide. }
  plain. directive ([] : list Z) ([] : list Z) ([] : list va_arg) (None : option Z) 0 false ("V" : Z) [AStr (bstr "xyz")].
  { hnf. by eexists. }
  plain. directive ([] : list Z) (bstr ".3") ([] : list va_arg) (None : option Z) 3 true ("f" : Z) [ADouble (double_of_Z 2)].
  { hnf. exists (double_of_Z 2). split; [done|]. vm_compute. intros _. by eexists. }
  plain. directive ([] : list Z) ([] : list Z) ([] : list va_arg) (None : option Z) 0 false ("%" : Z) ([] : list va_arg).
  { done. }
  plain. directive ([] : list Z) (bstr "u") ([] : list va_arg) (None : option Z) 0 false ("L" : Z) [AInt 255].
  { hnf. by eexists. }
  plain. directive ([] : list Z) ([] : list Z) ([] : list va_arg) (None : option Z) 0 false ("Z" : Z) ([] : list va_arg).
  { done. }
  apply wf_end.
Qed.

Lemma snprintf_bounded_witness :
  well_formed some_format some_args /\ ngx_sprintf some_format some_args = Some (bstr "-0007|abc|xyz|2.000|%|255|" ++ [0])
  /\ ngx_snprintf 12 some_format some_args = Some (bstr "-0007|abc|xy").
Proof.
  split; [exact some_format_ok|].
  destruct (snprintf_bounded 12 some_format some_args some_format_ok ltac:(lia)) as (full & o & E1 & -> & _ & Hc).
  assert (ngx_sprintf some_format some_args = Some (bstr "-0007|abc|xyz|2.000|%|255|" ++ [0])) as E2
    by (vm_compute; reflexivity).
  split; [exact E2|]. rewrite E1 in E2. injection E2 as ->.
  rewrite Hc; [reflexivity|]. by_decide.
Defined.

Close Scope ch_scope.
