(* ===== verification/HttpTime.v ===== *)
(** * Dates: ngx_times.c and ngx_parse_time.c

    [ngx_gmtime], the printers [ngx_http_time] and [ngx_http_cookie_time], and
    the parser [ngx_parse_http_time], against the Gregorian calendar. *)

From S2P Require Import Prelude Num Sprintf.

Open Scope ch_scope.

(** ** From seconds to a calendar date *)

Record ngx_tm_t := Tm {
  tm_sec : Z; tm_min : Z; tm_hour : Z; tm_mday : Z; tm_mon : Z; tm_year : Z;
  tm_wday : Z
}.

(** [ngx_gmtime]; the unsigned variables stay small enough not to wrap, apart
    from the difference stored in the signed [yday]. *)
Definition ngx_gmtime (t : Z) : ngx_tm_t :=
  let t := if decide (t < 0) then 0 else t in
  let days := t / 86400 in
  let sec := t mod 86400 in
  let '(days, sec) := if decide (days > 2932896) then (2932896, 86399) else (days, sec) in
  let wday := (4 + days) mod 7 in
  let hour := sec / 3600 in
  let sec := sec mod 3600 in
  let min := sec / 60 in
  let sec := sec mod 60 in
  let days := days - (31 + 28) + 719527 in
  let year := (days + 2) * 400 / (365 * 400 + 100 - 4 + 1) in
  let yday := s64 (days - (365 * year + year / 4 - year / 100 + year / 400)) in
  let '(yday, year) :=
    if decide (yday < 0) then
      let leap :=
        if decide (year mod 4 = 0 /\ (year mod 100 <> 0 \/ year mod 400 = 0)) then 1
        else 0 in
      (365 + leap + yday, year - 1)
    else (yday, year) in
  let mon := (yday + 31) * 10 / 306 in
  let mday := u64 (yday - (367 * mon / 12 - 30) + 1) in
  let '(year, mon) :=
    if decide (yday >= 306) then (year + 1, mon - 10) else (year, mon + 2) in
  Tm sec min hour mday mon year wday.

Definition week : list (list Z) :=
  [bstr "Sun"; bstr "Mon"; bstr "Tue"; bstr "Wed"; bstr "Thu";
            bstr "Fri"; bstr "Sat"].

Definition months : list (list Z) :=
  [bstr "Jan"; bstr "Feb"; bstr "Mar"; bstr "Apr"; bstr "May";
            bstr "Jun"; bstr "Jul"; bstr "Aug"; bstr "Sep"; bstr "Oct";
            bstr "Nov"; bstr "Dec"].

Definition ngx_http_time (t : Z) : option (list Z) :=
  let tm := ngx_gmtime t in
  ngx_sprintf (bstr "%s, %02d %s %4d %02d:%02d:%02d GMT")
    [ACstr (nth (Z.to_nat (tm_wday tm)) week []);
     AInt (tm_mday tm);
     ACstr (nth (Z.to_nat (tm_mon tm - 1)) months []);
     AInt (tm_year tm); AInt (tm_hour tm); AInt (tm_min tm); AInt (tm_sec tm)].

Definition ngx_http_cookie_time (t : Z) : option (list Z) :=
  let tm := ngx_gmtime t in
  ngx_sprintf
    (if decide (tm_year tm > 2037) then bstr "%s, %02d-%s-%d %02d:%02d:%02d GMT"
     else bstr "%s, %02d-%s-%02d %02d:%02d:%02d GMT")
    [ACstr (nth (Z.to_nat (tm_wday tm)) week []);
     AInt (tm_mday tm);
     ACstr (nth (Z.to_nat (tm_mon tm - 1)) months []);
     AInt (if decide (tm_year tm > 2037) then tm_year tm else tm_year tm mod 100);
     AInt (tm_hour tm); AInt (tm_min tm); AInt (tm_sec tm)].

(** ** Parsing *)

Inductive time_fmt := no_fmt | rfc822 | rfc850 | isoc.

#[global] Instance time_fmt_eq_dec : EqDecision time_fmt.
Proof. solve_decision. Defined.

(** The first [for] loop: [p] and [fmt] at its end. *)
Fixpoint scan_weekday (value : list Z) (p : Z) : Z * time_fmt :=
  match value with
  | [] => (p, no_fmt)
  | c :: value =>
      if decide (c = ",") then (p, no_fmt)
      else if decide (c = " ") then (p, isoc)
      else scan_weekday value (p + 1)
  end.

(** The second one, over the bytes from [p]. *)
Fixpoint scan_spaces (value : list Z) (p : Z) : Z :=
  match value with
  | [] => p
  | c :: value => if decide (c <> " ") then p else scan_spaces value (p + 1)
  end.

Definition digit_at (v : list Z) (p : Z) : cres Z :=
  c ← rdc v p; if decide (c < "0" \/ c > "9") then Fail else Ret (c - "0").

Definition two_digits (v : list Z) (p : Z) : cres Z :=
  a ← digit_at v p; b ← digit_at v (p + 1); Ret (a * 10 + b).

Definition four_digits (v : list Z) (p : Z) : cres Z :=
  a ← digit_at v p; b ← digit_at v (p + 1);
  c ← digit_at v (p + 2); d ← digit_at v (p + 3);
  Ret (a * 1000 + b * 100 + c * 10 + d).

Definition expect (v : list Z) (p c : Z) : cres unit :=
  x ← rdc v p; if decide (x = c) then Ret tt else Fail.

(** The [switch] on the name of the month. *)
Definition parse_month (v : list Z) (p : Z) : cres Z :=
  c ← rdc v p;
  if decide (c = "J") then
    a ← rdc v (p + 1);
    if decide (a = "a") then Ret 0
    else n ← rdc v (p + 2); Ret (if decide (n = "n") then 5 else 6)
  else if decide (c = "F") then Ret 1
  else if decide (c = "M") then
    r ← rdc v (p + 2); Ret (if decide (r = "r") then 2 else 4)
  else if decide (c = "A") then
    a ← rdc v (p + 1); Ret (if decide (a = "p") then 3 else 7)
  else if decide (c = "S") then Ret 8
  else if decide (c = "O") then Ret 9
  else if decide (c = "N") then Ret 10
  else if decide (c = "D") then Ret 11
  else Fail.

Definition mday : list Z := [31; 28; 31; 30; 31; 30; 31; 31; 30; 31; 30; 31].

(** The checks and the formula at the end; [year] and [day] are unsigned. *)
Definition http_date_value (day month year hour min sec : Z) : cres Z :=
  if decide (hour > 23 \/ min > 59 \/ sec > 59) then Fail
  else if
    (if decide (day = 29 /\ month = 1) then
       bool_decide (Z.land year 3 <> 0 \/ (year mod 100 = 0 /\ year mod 400 <> 0))
     else bool_decide (day > nth (Z.to_nat month) mday 0))
  then Fail
  else
    let month := month - 1 in
    let '(month, year) :=
      if decide (month <= 0) then (month + 12, u64 (year - 1)) else (month, year) in
    Ret (s64 (u64 (
      (365 * year + year / 4 - year / 100 + year / 400
       + 367 * month / 12 - 30
       + day - 1
       - 719527 + 31 + 28) * 86400 + hour * 3600 + min * 60 + sec))).

(** The time of day, from the space before it: the position after it. *)
Definition parse_clock (v : list Z) (p : Z) : cres (Z * Z * Z * Z) :=
  _ ← expect v p " ";
  hour ← two_digits v (p + 1);
  _ ← expect v (p + 3) ":";
  min ← two_digits v (p + 4);
  _ ← expect v (p + 6) ":";
  sec ← two_digits v (p + 7);
  Ret (hour, min, sec, p + 9).

(** The day of the two Internet formats. *)
Definition parse_day (v : list Z) (p : Z) : cres (Z * Z * time_fmt) :=
  let end_ := Z.of_nat (length v) in
  day ← two_digits v p;
  c ← rdc v (p + 2);
  if decide (c = " ") then
    if decide (end_ - (p + 2) < 18) then Fail else Ret (day, p + 3, rfc822)
  else if decide (c = "-") then Ret (day, p + 3, rfc850)
  else Fail.

(** The day of the asctime format. *)
Definition parse_isoc_day (v : list Z) (p : Z) : cres (Z * Z) :=
  let end_ := Z.of_nat (length v) in
  c ← rdc v p;
  let p := if decide (c = " ") then p + 1 else p in
  day ← digit_at v p;
  let p := p + 1 in
  c ← rdc v p;
  '(day, p) ← (if decide (c <> " ") then
                 d ← digit_at v p; Ret (day * 10 + d, p + 1)
               else Ret (day, p));
  if decide (end_ - p < 14) then Fail else Ret (day, p).

Definition ngx_parse_http_time (value : list Z) : cres Z :=
  let end_ := Z.of_nat (length value) in
  let '(p, fmt) := scan_weekday value 0 in
  let p := p + 1 in
  let p := scan_spaces (drop (Z.to_nat p) value) p in
  if decide (end_ - p < 18) then Fail
  else
    '(day, p, fmt) ← (if decide (fmt <> isoc) then parse_day value p
                      else Ret (32, p, fmt));
    month ← parse_month value p;
    let p := p + 3 in
    sep ← rdc value p;
    if decide ((fmt = rfc822 /\ sep <> " ") \/ (fmt = rfc850 /\ sep <> "-")) then Fail
    else
      let p := p + 1 in
      match fmt with
      | rfc822 =>
          year ← four_digits value p;
          '(hour, min, sec, _) ← parse_clock value (p + 4);
          http_date_value day month year hour min sec
      | rfc850 =>
          y ← two_digits value p;
          let year := y + (if decide (y < 70) then 2000 else 1900) in
          '(hour, min, sec, _) ← parse_clock value (p + 2);
          http_date_value day month year hour min sec
      | _ =>
          '(day, p) ← parse_isoc_day value p;
          '(hour, min, sec, p) ← parse_clock value p;
          _ ← expect value p " ";
          year ← four_digits value (p + 1);
          http_date_value day month year hour min sec
      end.

Example http_time_1 : ngx_http_time 784111777 = Some (bstr "Sun, 06 Nov 1994 08:49:37 GMT").
Proof. vm_compute. reflexivity. Qed.
Example http_time_2 :
  ngx_parse_http_time (bstr "Sunday, 06-Nov-94 08:49:37 GMT") = Ret 784111777.
Proof. vm_compute. reflexivity. Qed.
Example http_time_3 : ngx_parse_http_time (bstr "Sun Nov  6 08:49:37 1994") = Ret 784111777.
Proof. vm_compute. reflexivity. Qed.

(** ** Memory safety of the parser *)

Ltac sbind L := eapply safe_bind; [eapply L; lia|]; cbv beta; intros.

Lemma safe_digit v p :
  0 <= p < Z.of_nat (length v) -> safe (digit_at v p) (fun d => 0 <= d <= 9).
Proof.
  intros H. unfold digit_at. sbind safe_rdc. case_decide; cbn; lia.
Qed.

Lemma safe_two v p :
  0 <= p /\ p + 1 < Z.of_nat (length v) -> safe (two_digits v p) (fun d => 0 <= d <= 99).
Proof. intros H. unfold two_digits. sbind safe_digit. sbind safe_digit. cbn. lia. Qed.

Lemma safe_four v p :
  0 <= p /\ p + 3 < Z.of_nat (length v) -> safe (four_digits v p) (fun d => 0 <= d <= 9999).
Proof.
  intros H. unfold four_digits. do 4 sbind safe_digit. cbn. lia.
Qed.

Lemma safe_expect v p c :
  0 <= p < Z.of_nat (length v) -> safe (expect v p c) (fun _ => True).
Proof. intros H. unfold expect. sbind safe_rdc. by case_decide. Qed.

Lemma safe_month v p :
  0 <= p /\ p + 2 < Z.of_nat (length v) -> safe (parse_month v p) (fun _ => True).
Proof.
  intros H. unfold parse_month. sbind safe_rdc.
  repeat (case_decide; [try done|]); try done.
  - sbind safe_rdc. case_decide; [done|]. by sbind safe_rdc.
  - by sbind safe_rdc.
  - by sbind safe_rdc.
Qed.

Lemma safe_value day month year hour min sec :
  safe (http_date_value day month year hour min sec) (fun _ => True).
Proof.
  unfold http_date_value. case_decide; [done|].
  destruct (if decide (day = 29 /\ month = 1) then _ else _); [done|].
  by destruct (if decide (month - 1 <= 0) then _ else _).
Qed.

Lemma safe_clock v p :
  0 <= p /\ p + 8 < Z.of_nat (length v) ->
  safe (parse_clock v p) (fun r => snd r = p + 9).
Proof.
  intros H. unfold parse_clock.
  sbind safe_expect. sbind safe_two. sbind safe_expect. sbind safe_two.
  sbind safe_expect. sbind safe_two. done.
Qed.

Lemma safe_day v p :
  0 <= p /\ p + 18 <= Z.of_nat (length v) ->
  safe (parse_day v p) (fun '(_, q, f) => q = p + 3 /\
    ((f = rfc822 /\ p + 20 <= Z.of_nat (length v)) \/ f = rfc850)).
Proof.
  intros H. unfold parse_day. sbind safe_two. sbind safe_rdc.
  case_decide; [case_decide; [done|cbn; split; [done|left; split; [done|lia]]]|].
  case_decide; [|done]. cbn. tauto.
Qed.

Lemma safe_isoc_day v p :
  0 <= p /\ p + 3 <= Z.of_nat (length v) ->
  safe (parse_isoc_day v p) (fun '(_, q) => 0 <= q /\ q + 14 <= Z.of_nat (length v)).
Proof.
  intros H. unfold parse_isoc_day. sbind safe_rdc.
  set (p1 := if decide (a = " ") then p + 1 else p).
  assert (0 <= p1 <= p + 1) by (subst p1; case_decide; lia).
  cbv zeta. sbind safe_digit. sbind safe_rdc.
  apply safe_bind with (P := fun r => 0 <= snd r).
  { case_decide; [sbind safe_digit|]; cbn; lia. }
  intros [day q] Hq. case_decide; [done|]. cbn in *. lia.
Qed.

(** [ngx_parse_http_time] never reads outside of its buffer: whatever the
    bytes and their number, the result is a time or [NGX_ERROR]. *)
Theorem parse_http_time_safe value : ngx_parse_http_time value <> Ub.
Proof.
  assert (safe (ngx_parse_http_time value) (fun _ => True)) as H;
    [|by destruct (ngx_parse_http_time value)].
  unfold ngx_parse_http_time.
  assert (forall l q, q <= fst (scan_weekday l q)) as Hs.
  { induction l as [|c l IH]; intros q; cbn; [lia|].
    repeat case_decide; cbn; [lia..|]. specialize (IH (q + 1)). lia. }
  assert (forall l q, q <= scan_spaces l q) as Hs2.
  { induction l as [|c l IH]; intros q; cbn; [lia|].
    case_decide; [lia|]. specialize (IH (q + 1)). lia. }
  specialize (Hs value 0). destruct (scan_weekday value 0) as [p fmt]. cbn in Hs.
  cbv zeta. specialize (Hs2 (drop (Z.to_nat (p + 1)) value) (p + 1)).
  set (q := scan_spaces _ _) in *. case_decide; [done|].
  apply safe_bind with (P := fun '(_, q2, f) =>
    (f = isoc /\ q2 = q)
    \/ (q2 = q + 3 /\ ((f = rfc822 /\ q + 20 <= Z.of_nat (length value)) \/ f = rfc850))).
  { case_decide as E.
    - eapply safe_weaken; [apply safe_day; lia|]. intros [[d q2] f]. tauto.
    - left. done. }
  intros [[d q2] f] Hq2. cbv beta iota.
  sbind safe_month. sbind safe_rdc. case_decide; [done|].
  destruct f.
  - destruct Hq2 as [[[=] _]|(_ & [[[=] _]|[=]])].
  - destruct Hq2 as [[[=] _]|(-> & [[_ Hl]|[=]])].
    sbind safe_four. eapply safe_bind; [eapply safe_clock; lia|].
    intros [[[h mi] se] q4] _. apply safe_value.
  - destruct Hq2 as [[[=] _]|(-> & _)].
    sbind safe_two. eapply safe_bind; [eapply safe_clock; lia|].
    intros [[[h mi] se] q4] _. apply safe_value.
  - destruct Hq2 as [[_ ->]|(_ & [[[=] _]|[=]])].
    eapply safe_bind; [eapply safe_isoc_day; lia|]. intros [d2 q3] Hq3.
    eapply safe_bind; [eapply safe_clock; cbn in Hq3; lia|].
    intros [[[h mi] se] q4] Hq4. cbn in *. subst q4.
    sbind safe_expect. sbind safe_four. apply safe_value.
Qed.

(** ** The Gregorian calendar *)

Definition is_leap (y : Z) : bool :=
  (y mod 4 =? 0) && (negb (y mod 100 =? 0) || (y mod 400 =? 0)).

Definition month_length (y m : Z) : Z :=
  if decide (m = 2) then if is_leap y then 29 else 28
  else nth (Z.to_nat (m - 1)) mday 0.

(** Days in the years 1 to [n], and in the months 1 to [n] of a year. *)
Fixpoint days_in_years (n : nat) : Z :=
  match n with
  | O => 0
  | S k => days_in_years k + (if is_leap (Z.of_nat n) then 366 else 365)
  end.

Fixpoint days_in_months (y : Z) (n : nat) : Z :=
  match n with
  | O => 0
  | S k => days_in_months y k + month_length y (Z.of_nat n)
  end.

(** Days from January 1 of the year 1. *)
Definition civil_days (y m d : Z) : Z :=
  days_in_years (Z.to_nat (y - 1)) + days_in_months y (Z.to_nat (m - 1)) + (d - 1).

Definition valid_date (y m d : Z) : Prop := 1 <= m <= 12 /\ 1 <= d <= month_length y m.

Lemma month_length_31 y m : 1 <= m <= 12 -> 28 <= month_length y m <= 31.
Proof.
  intros H. unfold month_length. case_decide; [destruct (is_leap y); lia|].
  assert (Forall (fun d => 28 <= d <= 31) mday) as Hf by by_decide.
  assert (Z.to_nat (m - 1) < length mday)%nat as Hl by (change (length mday) with 12%nat; lia).
  exact (proj1 (List.Forall_nth _ _) Hf _ 0 Hl).
Qed.

(** Seconds from the epoch. *)
Definition unix_time (y m d hour min sec : Z) : Z :=
  (civil_days y m d - civil_days 1970 1 1) * 86400 + hour * 3600 + min * 60 + sec.

(** Days in the years before March 1 of year [y], counted from March 1, 1 BC. *)
Definition gauss_years (y : Z) : Z := 365 * y + y / 4 - y / 100 + y / 400.

Definition leap_day (y : Z) : Z := if is_leap y then 1 else 0.

Lemma gauss_years_succ y : gauss_years (y + 1) = gauss_years y + 365 + leap_day (y + 1).
Proof.
  unfold gauss_years, leap_day, is_leap.
  destruct (Z.eqb_spec ((y + 1) mod 4) 0), (Z.eqb_spec ((y + 1) mod 100) 0),
    (Z.eqb_spec ((y + 1) mod 400) 0); cbn [andb orb negb]; dlia.
Qed.

Lemma gauss_years_cycle q r : gauss_years (400 * q + r) = 146097 * q + gauss_years r.
Proof. unfold gauss_years. dlia. Qed.

Lemma gauss_years_mono a b : a <= b -> gauss_years a <= gauss_years b.
Proof. unfold gauss_years. dlia. Qed.

Lemma gauss_years_bound y : 0 <= y <= 9999 -> 0 <= gauss_years y <= 4000000.
Proof.
  intros H. pose proof (gauss_years_mono 0 y). pose proof (gauss_years_mono y 9999).
  change (gauss_years 0) with 0 in *. change (gauss_years 9999) with 3652059 in *. lia.
Qed.

Lemma days_in_years_gauss n : days_in_years n = gauss_years (Z.of_nat n).
Proof.
  induction n as [|n IH]; [done|]. cbn [days_in_years].
  replace (Z.of_nat (S n)) with (Z.of_nat n + 1) by lia.
  rewrite gauss_years_succ, IH. unfold leap_day. destruct (is_leap _); lia.
Qed.

(** Gauss' formula for a date whose month is counted from March. *)
Definition gauss_days (y m d : Z) : Z :=
  let '(m, y) := if decide (m - 2 <= 0) then (m - 2 + 12, y - 1) else (m - 2, y) in
  gauss_years y + 367 * m / 12 - 30 + d - 1.

Ltac fold_months y :=
  change (Z.of_nat 1) with 1; change (Z.of_nat 2) with 2; change (Z.of_nat 3) with 3;
  change (Z.of_nat 4) with 4; change (Z.of_nat 5) with 5; change (Z.of_nat 6) with 6;
  change (Z.of_nat 7) with 7; change (Z.of_nat 8) with 8; change (Z.of_nat 9) with 9;
  change (Z.of_nat 10) with 10; change (Z.of_nat 11) with 11;
  change (month_length y 1) with 31; change (month_length y 3) with 31;
  change (month_length y 4) with 30; change (month_length y 5) with 31;
  change (month_length y 6) with 30; change (month_length y 7) with 31;
  change (month_length y 8) with 31; change (month_length y 9) with 30;
  change (month_length y 10) with 31; change (month_length y 11) with 30.

Lemma gauss_civil y m d :
  1 <= y -> 1 <= m <= 12 -> gauss_days y m d = civil_days y m d + 306.
Proof.
  intros Hy Hm. unfold civil_days, gauss_days.
  rewrite days_in_years_gauss, Z2Nat.id by lia.
  pose proof (gauss_years_succ (y - 1)) as Hs.
  replace (y - 1 + 1) with y in Hs by lia.
  assert (month_length y 2 = 28 + leap_day y) as Hf
    by (unfold month_length, leap_day; rewrite decide_True by done; by destruct (is_leap y)).
  assert (m = 1 \/ m = 2 \/ m = 3 \/ m = 4 \/ m = 5 \/ m = 6 \/ m = 7 \/ m = 8 \/ m = 9
          \/ m = 10 \/ m = 11 \/ m = 12) as Hc by lia.
  repeat destruct Hc as [->|Hc]; [..|subst m];
    match goal with |- context [Z.to_nat (?a - 1)] =>
      let n := eval vm_compute in (Z.to_nat (a - 1)) in
      change (Z.to_nat (a - 1)) with n end;
    cbn [days_in_months Z.of_nat Pos.of_succ_nat Pos.succ];
    fold_months y; rewrite ?Hf;
    first [rewrite decide_False by lia | rewrite decide_True by lia]; dlia.
Qed.

(** ** [ngx_gmtime] computes the calendar date *)

Lemma gauss_search n k :
  0 <= n < gauss_years (Z.of_nat k) ->
  exists r, 0 <= r < Z.of_nat k /\ gauss_years r <= n < gauss_years (r + 1).
Proof.
  induction k as [|k IH]; intros H; [change (gauss_years (Z.of_nat 0)) with 0 in H; lia|].
  replace (Z.of_nat (S k)) with (Z.of_nat k + 1) in H by lia.
  destruct (Z_lt_le_dec n (gauss_years (Z.of_nat k))).
  - destruct IH as (r & ? & ?); [lia|]. exists r. split; [lia|done].
  - exists (Z.of_nat k). split; [lia|]. split; [done|lia].
Qed.

(** The estimate of the year is right or one too large. *)
Definition year_estimate_ok (r : Z) : bool :=
  (146097 * r <=? (gauss_years r + 2) * 400)
  && ((gauss_years (r + 1) + 1) * 400 <? 146097 * (r + 2)).

Lemma year_estimate n :
  0 <= n ->
  exists y, 0 <= y /\ gauss_years y <= n < gauss_years (y + 1) /\
    ((n + 2) * 400 / 146097 = y \/ (n + 2) * 400 / 146097 = y + 1).
Proof.
  intros Hn. pose proof (Z.div_mod n 146097 ltac:(lia)) as E.
  pose proof (Z.mod_pos_bound n 146097 ltac:(lia)) as Hm.
  set (q := n / 146097) in *. set (m := n mod 146097) in *.
  assert (0 <= q) by (apply Z.div_pos; lia).
  destruct (gauss_search m 400) as (r & Hr & Hd); [by change (gauss_years (Z.of_nat 400)) with 146097|].
  exists (400 * q + r). replace (400 * q + r + 1) with (400 * q + (r + 1)) by lia.
  rewrite !gauss_years_cycle. split; [lia|]. split; [lia|].
  assert (year_estimate_ok r = true) as Hok.
  { apply (zall_spec year_estimate_ok 0 400); [vm_compute; reflexivity|lia]. }
  unfold year_estimate_ok in Hok. apply andb_true_iff in Hok. destruct Hok as [H1 H2].
  apply Z.leb_le in H1. apply Z.ltb_lt in H2.
  clearbody q m. subst n. dlia.
Qed.

(** The month and the day from the day of the year that starts in March. *)
Definition month_of_yday (yday : Z) : Z := (yday + 31) * 10 / 306.
Definition mday_of_yday (yday : Z) : Z := yday - (367 * month_of_yday yday / 12 - 30) + 1.

Definition yday_ok (yday : Z) : bool :=
  let mon := month_of_yday yday in
  let d := mday_of_yday yday in
  (1 <=? d) &&
  (if 306 <=? yday then
     (11 <=? mon) && (mon <=? 12)
     && (d <=? (if mon =? 12 then if yday =? 365 then 29 else 28 else 31))
   else (1 <=? mon) && (mon <=? 10) && (d <=? nth (Z.to_nat (mon + 1)) mday 0)).

Lemma yday_table yday : 0 <= yday <= 365 -> yday_ok yday = true.
Proof. intros H. apply (zall_spec yday_ok 0 366); [vm_compute; reflexivity|lia]. Qed.

(** The year, the month and the day of the month that [ngx_gmtime] makes of a
    year [y] starting in March and a day of it. *)
Definition civil_of_march (y yday : Z) : Z * Z * Z :=
  if decide (yday >= 306) then (y + 1, month_of_yday yday - 10, mday_of_yday yday)
  else (y, month_of_yday yday + 2, mday_of_yday yday).

Lemma civil_of_march_ok y yday :
  0 <= y -> 0 <= yday < 365 + leap_day (y + 1) ->
  let '(y', m, d) := civil_of_march y yday in
  valid_date y' m d /\ gauss_days y' m d = gauss_years y + yday.
Proof.
  intros Hy Hd.
  assert (leap_day (y + 1) = 0 \/ leap_day (y + 1) = 1) as Hl
    by (unfold leap_day; destruct (is_leap _); auto).
  pose proof (yday_table yday ltac:(lia)) as H. unfold yday_ok in H.
  unfold civil_of_march, gauss_days, valid_date.
  apply andb_true_iff in H. destruct H as [H1 H]. apply Z.leb_le in H1.
  destruct (Z.leb_spec 306 yday); rewrite !andb_true_iff, !Z.leb_le in H.
  - rewrite decide_True by lia. destruct H as [Hm Hmax].
    rewrite decide_True by lia. split.
    + split; [lia|]. split; [lia|]. unfold month_length.
      destruct (Z.eqb_spec (month_of_yday yday) 12) as [E|E].
      * rewrite E, decide_True by lia. unfold leap_day in *.
        destruct (is_leap (y + 1)); destruct (Z.eqb_spec yday 365); lia.
      * replace (month_of_yday yday) with 11 by lia. done.
    + replace (month_of_yday yday - 10 - 2 + 12) with (month_of_yday yday) by lia.
      replace (y + 1 - 1) with y by lia. unfold mday_of_yday. lia.
  - rewrite decide_False by lia. destruct H as [Hm Hmax].
    rewrite decide_False by lia. split.
    + split; [lia|]. split; [lia|]. unfold month_length. rewrite decide_False by lia.
      replace (Z.to_nat (month_of_yday yday + 2 - 1)) with (Z.to_nat (month_of_yday yday + 1))
        by lia. done.
    + replace (month_of_yday yday + 2 - 2) with (month_of_yday yday) by lia.
      unfold mday_of_yday. lia.
Qed.

(** The largest time that [ngx_gmtime] represents: the end of the year 9999. *)
Definition max_time : Z := 253402300799.

Definition clamp_time (t : Z) : Z := Z.min (Z.max t 0) max_time.

Lemma clamp_split t :
  let d := (if decide (t < 0) then 0 else t) / 86400 in
  let s := (if decide (t < 0) then 0 else t) mod 86400 in
  (if decide (d > 2932896) then (2932896, 86399) else (d, s))
  = (clamp_time t / 86400, clamp_time t mod 86400).
Proof.
  cbv zeta. unfold clamp_time, max_time.
  destruct (decide (t < 0)).
  - rewrite Z.max_r, Z.min_l by lia. done.
  - rewrite Z.max_l by lia. case_decide.
    + rewrite Z.min_r by dlia. done.
    + rewrite Z.min_l by dlia. done.
Qed.

(** The date part of [ngx_gmtime] from the days since March 1, 1 BC. *)
Definition gmtime_date (days : Z) : Z * Z * Z :=
  let year := (days + 2) * 400 / (365 * 400 + 100 - 4 + 1) in
  let yday := s64 (days - gauss_years year) in
  let '(yday, year) :=
    if decide (yday < 0) then
      let leap :=
        if decide (year mod 4 = 0 /\ (year mod 100 <> 0 \/ year mod 400 = 0)) then 1
        else 0 in
      (365 + leap + yday, year - 1)
    else (yday, year) in
  let mon := (yday + 31) * 10 / 306 in
  let mday := u64 (yday - (367 * mon / 12 - 30) + 1) in
  if decide (yday >= 306) then (year + 1, mon - 10, mday) else (year, mon + 2, mday).

Lemma gmtime_split t :
  let days := clamp_time t / 86400 in
  let s := clamp_time t mod 86400 in
  ngx_gmtime t =
    let '(y, m, d) := gmtime_date (days - (31 + 28) + 719527) in
    Tm (s mod 3600 mod 60) (s mod 3600 / 60) (s / 3600) d m y ((4 + days) mod 7).
Proof.
  cbv zeta. unfold ngx_gmtime, gmtime_date. pose proof (clamp_split t) as E.
  cbv zeta in E. cbv zeta. rewrite E. fold (gauss_years).
  unfold gauss_years.
  destruct (if decide (s64 _ < 0) then _ else _) as [yd y]. destruct (decide (yd >= 306)); reflexivity.
Qed.

Lemma leap_decide y :
  (if decide (y mod 4 = 0 /\ (y mod 100 <> 0 \/ y mod 400 = 0)) then 1 else 0) = leap_day y.
Proof.
  unfold leap_day, is_leap.
  destruct (Z.eqb_spec (y mod 4) 0), (Z.eqb_spec (y mod 100) 0), (Z.eqb_spec (y mod 400) 0);
    cbn [andb orb negb]; case_decide; tauto.
Qed.

Lemma leap_day_range y : 0 <= leap_day y <= 1.
Proof. unfold leap_day. destruct (is_leap y); lia. Qed.

Lemma clock_parts s :
  0 <= s < 86400 ->
  0 <= s / 3600 <= 23 /\ 0 <= s mod 3600 / 60 <= 59 /\ 0 <= s mod 3600 mod 60 <= 59
  /\ s / 3600 * 3600 + s mod 3600 / 60 * 60 + s mod 3600 mod 60 = s.
Proof. intros H. repeat split; dlia. Qed.

Lemma gmtime_date_ok n :
  0 <= n < 2 ^ 32 ->
  exists y yday, 0 <= y /\ 0 <= yday < 365 + leap_day (y + 1) /\
    n = gauss_years y + yday /\ gmtime_date n = civil_of_march y yday.
Proof.
  intros Hn. destruct (year_estimate n) as (y & Hy & Hr & He); [lia|].
  pose proof (gauss_years_succ y) as Hs. pose proof (leap_day_range (y + 1)) as Hl.
  exists y, (n - gauss_years y). split; [done|]. split; [lia|]. split; [lia|].
  unfold gmtime_date. change (365 * 400 + 100 - 4 + 1) with 146097. cbv zeta.
  set (yd := n - gauss_years y) in *.
  match goal with |- (let '(_, _) := ?X in _) = _ => assert (X = (yd, y)) as -> end.
  { destruct He as [-> | ->].
    - rewrite s64_small by lia. rewrite decide_False by lia. done.
    - rewrite s64_small by lia. rewrite decide_True by lia. rewrite leap_decide.
      f_equal; lia. }
  unfold civil_of_march, mday_of_yday, month_of_yday.
  assert (0 <= yd <= 365) as Hd by lia.
  rewrite u64_small; [done|].
  pose proof (yday_table yd Hd) as Ht. unfold yday_ok, mday_of_yday, month_of_yday in Ht.
  apply andb_true_iff in Ht. destruct Ht as [Ht _]. apply Z.leb_le in Ht.
  split; [lia|]. clearbody yd. dlia.
Qed.

Lemma gmtime_facts t :
  let tm := ngx_gmtime t in
  valid_date (tm_year tm) (tm_mon tm) (tm_mday tm)
  /\ 1970 <= tm_year tm <= 9999
  /\ 0 <= tm_hour tm <= 23 /\ 0 <= tm_min tm <= 59 /\ 0 <= tm_sec tm <= 59
  /\ unix_time (tm_year tm) (tm_mon tm) (tm_mday tm) (tm_hour tm) (tm_min tm) (tm_sec tm)
     = clamp_time t
  /\ tm_wday tm
     = (civil_days (tm_year tm) (tm_mon tm) (tm_mday tm) - civil_days 1970 1 1 + 4) mod 7.
Proof.
  cbv zeta. rewrite gmtime_split. cbv zeta.
  assert (0 <= clamp_time t <= max_time) as Hc by (unfold clamp_time, max_time; lia).
  unfold max_time in Hc. set (c := clamp_time t) in *. clearbody c.
  assert (0 <= c / 86400 <= 2932896) as Hd by dlia.
  assert (0 <= c mod 86400 < 86400) as Hs by dlia.
  destruct (gmtime_date_ok (c / 86400 - (31 + 28) + 719527)) as (y & yday & Hy & Hyd & Hn & ->);
    [lia|].
  pose proof (civil_of_march_ok y yday Hy Hyd) as Hm.
  assert (1969 <= y /\ (y = 1969 -> yday >= 306) /\ y <= 9999 /\ (y = 9999 -> yday < 306))
    as Hb.
  { clear Hm. pose proof (gauss_years_mono y 1969). pose proof (gauss_years_mono 10000 y).
    pose proof (gauss_years_mono 1969 y). pose proof (gauss_years_mono y 9999).
    pose proof (gauss_years_succ y). pose proof (leap_day_range (y + 1)).
    pose proof (gauss_years_mono (y + 1) 1969).
    change (gauss_years 1969) with 719162 in *. change (gauss_years 10000) with 3652425 in *.
    change (gauss_years 9999) with 3652059 in *.
    split; [lia|]. split; [intros ->; change (gauss_years 1969) with 719162 in *; lia|].
    split; [lia|]. intros ->. change (gauss_years 9999) with 3652059 in *. lia. }
  assert (1970 <= fst (fst (civil_of_march y yday)) <= 9999) as Hyr.
  { unfold civil_of_march. case_decide; cbn; lia. }
  destruct (civil_of_march y yday) as [[y' m] d]. destruct Hm as [Hv Hg].
  cbn [tm_year tm_mon tm_mday tm_hour tm_min tm_sec tm_wday fst] in *.
  rewrite gauss_civil in Hg; [|lia|apply Hv].
  assert (civil_days 1970 1 1 = 719162) as E by (vm_compute; reflexivity).
  unfold unix_time. rewrite E.
  assert (civil_days y' m d - 719162 = c / 86400) as -> by lia.
  destruct (clock_parts _ Hs) as (H1 & H2 & H3 & H4).
  pose proof (Z.div_mod c 86400 ltac:(lia)).
  split; [done|]. split; [lia|]. do 3 (split; [done|]). split; [lia|]. f_equal. lia.
Qed.

(** C36: for every time, [ngx_gmtime] gives the valid Gregorian date and time of
    day of that many seconds from the epoch, and its weekday, times before the
    epoch and after the year 9999 being taken as the first and the last second
    of that range. *)
Theorem gmtime_correct t :
  let tm := ngx_gmtime t in
  valid_date (tm_year tm) (tm_mon tm) (tm_mday tm)
  /\ 1970 <= tm_year tm <= 9999
  /\ 0 <= tm_hour tm <= 23 /\ 0 <= tm_min tm <= 59 /\ 0 <= tm_sec tm <= 59
  /\ unix_time (tm_year tm) (tm_mon tm) (tm_mday tm) (tm_hour tm) (tm_min tm) (tm_sec tm)
     = clamp_time t
  /\ tm_wday tm
     = (civil_days (tm_year tm) (tm_mon tm) (tm_mday tm) - civil_days 1970 1 1 + 4) mod 7.
Proof. apply gmtime_facts. Qed.

(** ** The value of a parsed date *)

Lemma leap_check year :
  0 <= year ->
  bool_decide (Z.land year 3 <> 0 \/ (year mod 100 = 0 /\ year mod 400 <> 0))
  = negb (is_leap year).
Proof.
  intros H. change 3 with (Z.ones 2). rewrite Z.land_ones by lia. change (2 ^ 2) with 4.
  unfold is_leap.
  destruct (Z.eqb_spec (year mod 4) 0), (Z.eqb_spec (year mod 100) 0),
    (Z.eqb_spec (year mod 400) 0); cbn [andb orb negb];
    first [apply bool_decide_eq_true_2; tauto | apply bool_decide_eq_false_2; tauto].
Qed.

(** The check of the day against the month, [month] being counted from 0. *)
Lemma day_check day month year :
  0 <= month <= 11 -> 0 <= year ->
  (if decide (day = 29 /\ month = 1) then
     bool_decide (Z.land year 3 <> 0 \/ (year mod 100 = 0 /\ year mod 400 <> 0))
   else bool_decide (day > nth (Z.to_nat month) mday 0))
  = negb (bool_decide (day <= month_length year (month + 1))).
Proof.
  intros Hm Hy. rewrite leap_check by done. unfold month_length.
  replace (Z.to_nat (month + 1 - 1)) with (Z.to_nat month) by lia.
  rewrite <- bool_decide_not.
  destruct (decide (day = 29 /\ month = 1)) as [[-> ->]|Hn].
  - rewrite decide_True by lia. by destruct (is_leap year).
  - destruct (decide (month + 1 = 2)) as [E|E].
    + assert (month = 1) as -> by lia. change (nth (Z.to_nat 1) mday 0) with 28.
      apply bool_decide_ext. destruct (is_leap year); lia.
    + apply bool_decide_ext. lia.
Qed.

Lemma http_date_value_spec day month year hour min sec :
  1 <= day <= 99 -> 0 <= month <= 11 -> 1 <= year <= 9999 ->
  0 <= hour <= 99 -> 0 <= min <= 99 -> 0 <= sec <= 99 ->
  http_date_value day month year hour min sec =
    if decide (day <= month_length year (month + 1) /\ hour <= 23 /\ min <= 59 /\ sec <= 59)
    then Ret (unix_time year (month + 1) day hour min sec) else Fail.
Proof.
  intros Hd Hm Hy Hh Hmi Hs. unfold http_date_value.
  case_decide as Hc; [by rewrite decide_False by lia|].
  rewrite day_check by lia. case_bool_decide as Hl; cbn [negb];
    [|by rewrite decide_False by lia].
  symmetry. rewrite decide_True by lia. symmetry.
  assert (gauss_days year (month + 1) day = civil_days year (month + 1) day + 306) as E
    by (apply gauss_civil; lia).
  assert (civil_days 1970 1 1 = 719162) as E0 by (vm_compute; reflexivity).
  unfold unix_time. rewrite E0.
  replace (civil_days year (month + 1) day - 719162)
    with (gauss_days year (month + 1) day - 719468) by lia.
  clear E Hl. unfold gauss_days.
  replace (month + 1 - 2) with (month - 1) by lia.
  destruct (decide (month - 1 <= 0)); [rewrite (u64_small (year - 1)) by lia|];
    rewrite s64_u64;
    match goal with |- context [367 * ?m / 12] =>
      assert (-40 <= 367 * m / 12 <= 4000) as Hmb by (clear - Hm; dlia);
      generalize dependent (367 * m / 12); intros dm Hdm end;
    [ pose proof (gauss_years_bound (year - 1) ltac:(lia)) as Hg; fold (gauss_years (year - 1))
    | pose proof (gauss_years_bound year ltac:(lia)) as Hg; fold (gauss_years year)];
    rewrite s64_small by lia; f_equal; lia.
Qed.

(** For every year of the common era of at most four digits, the value of
    the date fields is the number of seconds from the epoch, negative before
    it, when the date exists and the time of day is one, and [NGX_ERROR]
    otherwise. *)
Theorem http_date_exact day month year hour min sec :
  1 <= day <= 99 -> 0 <= month <= 11 -> 1 <= year <= 9999 ->
  0 <= hour <= 99 -> 0 <= min <= 99 -> 0 <= sec <= 99 ->
  http_date_value day month year hour min sec =
    if decide (day <= month_length year (month + 1) /\ hour <= 23 /\ min <= 59 /\ sec <= 59)
    then Ret (unix_time year (month + 1) day hour min sec) else Fail.
Proof. apply http_date_value_spec. Qed.

Lemma http_date_exact_witness :
  http_date_value 29 1 2000 23 59 59 = Ret (unix_time 2000 2 29 23 59 59)
  /\ http_date_value 29 1 1900 0 0 0 = Fail.
Proof.
  split.
  - refine (eq_trans (http_date_exact 29 1 2000 23 59 59 _ _ _ _ _ _) _);
      [lia|lia|lia|lia|lia|lia|]. vm_compute. reflexivity.
  - refine (eq_trans (http_date_exact 29 1 1900 0 0 0 _ _ _ _ _ _) _);
      [lia|lia|lia|lia|lia|lia|]. vm_compute. reflexivity.
Defined.

(** ** The printed date is read back *)

Definition digit (n : Z) : Z := "0" + n.
Definition dec2 (n : Z) : list Z := [digit (n / 10); digit (n mod 10)].
Definition dec4 (n : Z) : list Z :=
  [digit (n / 1000); digit (n / 100 mod 10); digit (n / 10 mod 10); digit (n mod 10)].

Lemma print_dec2 n out :
  0 <= n <= 99 -> ngx_sprintf_num None out n "0" 0 2 = out ++ dec2 n.
Proof.
  intros Hn. unfold ngx_sprintf_num. rewrite decide_True by done.
  assert (num_digits 20 10 n lower_hex []
          = if decide (n < 10) then [digit n] else dec2 n) as ->.
  { assert (is_byte n) as Hb by (unfold is_byte; lia). revert Hn. byte_sweep n Hb. }
  case_decide; rewrite pad_num_none; cbn [length Z.of_nat Pos.of_succ_nat Pos.succ Z.sub].
  - change (Z.to_nat _) with 1%nat. cbn [replicate safe_copy]. rewrite <- app_assoc.
    unfold dec2. by rewrite Z.div_small, Z.mod_small by lia.
  - change (Z.to_nat _) with 0%nat. cbn [replicate safe_copy]. by rewrite app_nil_r.
Qed.

Lemma lower_hex_digit d : 0 <= d < 10 -> nth (Z.to_nat d) lower_hex 0 = digit d.
Proof. intros H. pose proof (dec_digit_ok d H) as [E _]. unfold digit. lia. Qed.

Lemma print_dec4 n out zero :
  1000 <= n <= 9999 -> ngx_sprintf_num None out n zero 0 4 = out ++ dec4 n.
Proof.
  intros Hn. unfold ngx_sprintf_num. rewrite decide_True by done.
  assert (num_digits 20 10 n lower_hex [] = dec4 n) as ->.
  { cbn [num_digits]. rewrite !Z.div_div by lia.
    rewrite decide_False by dlia. rewrite decide_False by dlia.
    rewrite decide_False by dlia. rewrite decide_True by dlia.
    rewrite !lower_hex_digit by (apply Z.mod_pos_bound; lia).
    unfold dec4. cbn [Z.mul Pos.mul Pos.add Pos.succ].
    by rewrite (Z.mod_small (n / 1000)) by dlia. }
  rewrite pad_num_none. change (Z.to_nat _) with 0%nat. cbn [replicate safe_copy].
  by rewrite app_nil_r.
Qed.

(** The conversions of the two formats. *)
Lemma run_str fuel out rest x args :
  vslprintf_loop (S fuel) None out ("%" :: "s" :: rest) (ACstr x :: args)
  = vslprintf_loop fuel None (out ++ x) rest args.
Proof. done. Qed.

Lemma s32_small x : - 2 ^ 31 <= x < 2 ^ 31 -> s32 x = x.
Proof. intros H. unfold s32. rewrite Z.mod_small; lia. Qed.

(** [%d] with the given flags, for a small number that is not negative. *)
Lemma run_int out zero width hex mw fw sl n args :
  0 <= n < 2 ^ 31 ->
  do_conv None out (Conv zero width true hex mw fw sl) "d" (AInt n :: args)
  = Some (ngx_sprintf_num None out n zero hex width, args).
Proof.
  intros H. change (do_conv _ _ _ _ _) with
    ('(sign, v, width, zero, hex) ← int_conv (Conv zero width true hex mw fw sl) "d" n;
     let out := if sign && bool_decide (v < 0) then out ++ ["-"] else out in
     let ui64 := if sign && bool_decide (v < 0) then u64 (- v) else u64 v in
     Some (ngx_sprintf_num None out ui64 zero hex width, args)).
  change (int_conv _ _ _) with (Some (true, s32 n, width, zero, hex)).
  rewrite s32_small by lia. cbn [mbind option_bind andb].
  rewrite bool_decide_eq_false_2 by lia. by rewrite u64_small by lia.
Qed.

Lemma run_02d fuel out rest n args :
  0 <= n <= 99 ->
  vslprintf_loop (S fuel) None out ("%" :: "0" :: "2" :: "d" :: rest) (AInt n :: args)
  = vslprintf_loop fuel None (out ++ dec2 n) rest args.
Proof.
  intros H. rewrite vslprintf_conv by done.
  change (parse_width 0 _) with (2, "d" :: rest). cbv zeta beta iota.
  change (parse_flags _ _ _) with
    (Some (Conv "0" 2 true 0 false 0 None, "d" :: rest, AInt n :: args)).
  cbv beta iota. by rewrite run_int, print_dec2 by lia.
Qed.

Lemma run_4d fuel out rest n args :
  1000 <= n <= 9999 ->
  vslprintf_loop (S fuel) None out ("%" :: "4" :: "d" :: rest) (AInt n :: args)
  = vslprintf_loop fuel None (out ++ dec4 n) rest args.
Proof.
  intros H. rewrite vslprintf_conv by done.
  change (parse_width 0 _) with (4, "d" :: rest). cbv zeta beta iota.
  change (parse_flags _ _ _) with
    (Some (Conv " " 4 true 0 false 0 None, "d" :: rest, AInt n :: args)).
  cbv beta iota. by rewrite run_int, print_dec4 by lia.
Qed.

(** The RFC 1123 form of a date. *)
Definition rfc1123 (wday day mon year hour min sec : Z) : list Z :=
  nth (Z.to_nat wday) week [] ++ bstr ", " ++ dec2 day ++ bstr " "
  ++ nth (Z.to_nat (mon - 1)) months [] ++ bstr " " ++ dec4 year ++ bstr " "
  ++ dec2 hour ++ bstr ":" ++ dec2 min ++ bstr ":" ++ dec2 sec ++ bstr " GMT".

Ltac run_plain := rewrite vslprintf_plain by (done || (intros [=])).

Lemma http_time_form t :
  let tm := ngx_gmtime t in
  1 <= tm_mday tm <= 31 -> 1000 <= tm_year tm <= 9999 ->
  0 <= tm_hour tm <= 23 -> 0 <= tm_min tm <= 59 -> 0 <= tm_sec tm <= 59 ->
  ngx_http_time t
  = Some (rfc1123 (tm_wday tm) (tm_mday tm) (tm_mon tm) (tm_year tm) (tm_hour tm)
                  (tm_min tm) (tm_sec tm)).
Proof.
  cbv zeta. unfold ngx_http_time. set (tm := ngx_gmtime t). clearbody tm.
  intros Hd Hy Hh Hmi Hs. unfold ngx_sprintf, ngx_vslprintf.
  change (S (length (bstr "%s, %02d %s %4d %02d:%02d:%02d GMT"))) with 35%nat.
  change (bstr "%s, %02d %s %4d %02d:%02d:%02d GMT") with
    ("%" :: "s" :: "," :: " " :: "%" :: "0" :: "2" :: "d" :: " " :: "%" :: "s" :: " "
     :: "%" :: "4" :: "d" :: " " :: "%" :: "0" :: "2" :: "d" :: ":" :: "%" :: "0" :: "2"
     :: "d" :: ":" :: "%" :: "0" :: "2" :: "d" :: bstr " GMT").
  rewrite run_str. do 2 run_plain. rewrite run_02d by lia. run_plain.
  rewrite run_str. run_plain. rewrite run_4d by lia. run_plain.
  rewrite run_02d by lia. run_plain. rewrite run_02d by lia. run_plain.
  rewrite run_02d by lia. change (bstr " GMT") with (" " :: "G" :: "M" :: "T" :: []).
  do 4 run_plain. cbn [vslprintf_loop]. unfold rfc1123. rewrite <- !app_assoc.
  reflexivity.
Qed.

Lemma digit_at_ok v p d :
  rd v p = Some (digit d) -> 0 <= d <= 9 -> digit_at v p = Ret d.
Proof.
  intros E Hd. unfold digit_at, rdc, digit in *. rewrite E. cbn [mbind cres_bind].
  rewrite decide_False by lia. f_equal. lia.
Qed.

Lemma two_digits_ok v p n :
  0 <= n <= 99 -> rd v p = Some (digit (n / 10)) -> rd v (p + 1) = Some (digit (n mod 10)) ->
  two_digits v p = Ret n.
Proof.
  intros Hn E1 E2. unfold two_digits.
  rewrite (digit_at_ok v p _ E1), (digit_at_ok v (p + 1) _ E2) by dlia.
  cbn [mbind cres_bind]. f_equal. dlia.
Qed.

Lemma four_digits_ok v p n :
  0 <= n <= 9999 -> rd v p = Some (digit (n / 1000)) ->
  rd v (p + 1) = Some (digit (n / 100 mod 10)) ->
  rd v (p + 2) = Some (digit (n / 10 mod 10)) -> rd v (p + 3) = Some (digit (n mod 10)) ->
  four_digits v p = Ret n.
Proof.
  intros Hn E1 E2 E3 E4. unfold four_digits.
  rewrite (digit_at_ok v p _ E1), (digit_at_ok v (p + 1) _ E2),
    (digit_at_ok v (p + 2) _ E3), (digit_at_ok v (p + 3) _ E4) by dlia.
  cbn [mbind cres_bind]. f_equal. dlia.
Qed.

Lemma month_ok v p m :
  1 <= m <= 12 ->
  (forall i, 0 <= i < 3 -> rd v (p + i) = rd (nth (Z.to_nat (m - 1)) months []) i) ->
  parse_month v p = Ret (m - 1).
Proof.
  intros Hm H. pose proof (H 0 ltac:(lia)) as H0. pose proof (H 1 ltac:(lia)) as H1.
  pose proof (H 2 ltac:(lia)) as H2. rewrite Z.add_0_r in H0. clear H.
  unfold parse_month, rdc. rewrite H0, H1, H2.
  assert (m = 1 \/ m = 2 \/ m = 3 \/ m = 4 \/ m = 5 \/ m = 6 \/ m = 7 \/ m = 8 \/ m = 9
          \/ m = 10 \/ m = 11 \/ m = 12) as Hc by lia.
  repeat destruct Hc as [->|Hc]; [..|subst m]; vm_compute; reflexivity.
Qed.

Lemma week_name w :
  0 <= w < 7 -> exists a b c, nth (Z.to_nat w) week [] = [a; b; c]
    /\ a <> "," /\ a <> " " /\ b <> "," /\ b <> " " /\ c <> "," /\ c <> " ".
Proof.
  intros H. assert (w = 0 \/ w = 1 \/ w = 2 \/ w = 3 \/ w = 4 \/ w = 5 \/ w = 6) as Hc by lia.
  repeat destruct Hc as [->|Hc]; [..|subst w]; do 3 eexists;
    (split; [vm_compute; reflexivity|lia]).
Qed.

Lemma month_name m :
  1 <= m <= 12 -> exists a b c, nth (Z.to_nat (m - 1)) months [] = [a; b; c].
Proof.
  intros H.
  assert (m = 1 \/ m = 2 \/ m = 3 \/ m = 4 \/ m = 5 \/ m = 6 \/ m = 7 \/ m = 8 \/ m = 9
          \/ m = 10 \/ m = 11 \/ m = 12) as Hc by lia.
  repeat destruct Hc as [->|Hc]; [..|subst m]; do 3 eexists; vm_compute; reflexivity.
Qed.

(** The parser on the RFC 1123 form. *)
Lemma parse_rfc1123 wday day mon year hour min sec :
  0 <= wday < 7 -> 1 <= day <= 31 -> 1 <= mon <= 12 -> 1000 <= year <= 9999 ->
  0 <= hour <= 23 -> 0 <= min <= 59 -> 0 <= sec <= 59 ->
  ngx_parse_http_time (rfc1123 wday day mon year hour min sec)
  = http_date_value day (mon - 1) year hour min sec.
Proof.
  intros Hw Hd Hm Hy Hh Hmi Hs. unfold rfc1123.
  pose proof (fun v p => month_ok v p mon Hm) as Hmo.
  destruct (week_name wday Hw) as (a & b & c & -> & Ha & Ha' & Hb & Hb' & Hc & Hc').
  destruct (month_name mon Hm) as (e & f & g & Em). rewrite Em in Hmo |- *.
  unfold dec2, dec4. set (v := [a; b; c] ++ _).
  assert (scan_weekday v 0 = (3, no_fmt)) as E1.
  { subst v. cbn [app scan_weekday]. do 6 (rewrite decide_False by done). done. }
  assert (Hdig : digit (day / 10) <> " ") by (unfold digit; dlia).
  unfold ngx_parse_http_time. rewrite E1. cbv beta iota zeta.
  assert (scan_spaces (drop (Z.to_nat (3 + 1)) v) (3 + 1) = 5) as ->.
  { change (drop _ v) with (" " :: drop 5 v).
    change (drop 5 v) with (digit (day / 10) :: drop 6 v). cbn [scan_spaces].
    rewrite decide_False by lia. rewrite decide_True by done. done. }
  change (Z.of_nat (length v)) with 29. rewrite decide_False by lia.
  rewrite decide_True by done.
  unfold parse_day. rewrite (two_digits_ok v 5 day) by (lia || reflexivity).
  change (rdc v (5 + 2)) with (Ret (" " : Z)). cbn [mbind cres_bind].
  rewrite decide_True by done. change (Z.of_nat (length v)) with 29.
  rewrite decide_False by lia. cbn [mbind cres_bind].
  rewrite Hmo.
  2: { intros i Hi. assert (i = 0 \/ i = 1 \/ i = 2) as [->|[->| ->]] by lia; reflexivity. }
  cbn [mbind cres_bind]. change (rdc v (5 + 3 + 3)) with (Ret (" " : Z)).
  cbn [mbind cres_bind]. rewrite decide_False by (intros [[_ []]|[[=] _]]; done).
  rewrite (four_digits_ok v _ year) by (lia || reflexivity). cbn [mbind cres_bind].
  unfold parse_clock, expect. change (rdc v (5 + 3 + 3 + 1 + 4)) with (Ret (" " : Z)).
  change (rdc v (5 + 3 + 3 + 1 + 4 + 3)) with (Ret (":" : Z)).
  change (rdc v (5 + 3 + 3 + 1 + 4 + 6)) with (Ret (":" : Z)).
  cbn [mbind cres_bind]. rewrite decide_True by done. cbn [mbind cres_bind].
  rewrite (two_digits_ok v (5 + 3 + 3 + 1 + 4 + 1) hour) by (lia || reflexivity). cbn [mbind cres_bind].
  rewrite decide_True by done. cbn [mbind cres_bind].
  rewrite (two_digits_ok v (5 + 3 + 3 + 1 + 4 + 4) min) by (lia || reflexivity). cbn [mbind cres_bind].
  rewrite (two_digits_ok v (5 + 3 + 3 + 1 + 4 + 7) sec) by (lia || reflexivity). done.
Qed.

(** The date that [ngx_http_time] prints for any time is a valid header
    value of 29 characters, and [ngx_parse_http_time] reads it back as the
    same time, up to the limits of [ngx_gmtime]. *)
Theorem http_time_roundtrip t :
  exists s, ngx_http_time t = Some s /\ length s = 29%nat
    /\ ngx_parse_http_time s = Ret (clamp_time t).
Proof.
  destruct (gmtime_facts t) as (Hv & Hy & Hh & Hmi & Hs & Ht & Hw).
  set (tm := ngx_gmtime t) in *.
  destruct Hv as [Hm Hd]. pose proof (month_length_31 (tm_year tm) (tm_mon tm)) as Hl.
  assert (0 <= tm_wday tm < 7) as Hw' by (rewrite Hw; apply Z.mod_pos_bound; lia).
  eexists. split; [apply http_time_form; fold tm; lia|]. fold tm. split.
  - destruct (week_name _ Hw') as (? & ? & ? & Ew & _).
    destruct (month_name _ Hm) as (? & ? & ? & Em).
    unfold rfc1123. rewrite Ew, Em. reflexivity.
  - rewrite parse_rfc1123, http_date_value_spec by lia.
    replace (tm_mon tm - 1 + 1) with (tm_mon tm) by lia.
    rewrite decide_True by lia. by rewrite Ht.
Qed.

(** Two dates that do not exist and are accepted: day 0 is the last day of the
    month before, and the unsigned year 0 wraps in January and February, so
    that midnight becomes 02:52:48. *)
Example http_time_day_zero :
  ngx_parse_http_time (bstr "Tue, 00 Mar 1994 00:00:00 GMT")
  = ngx_parse_http_time (bstr "Mon, 28 Feb 1994 00:00:00 GMT").
Proof. vm_compute. reflexivity. Qed.

Example http_time_year_zero :
  ngx_parse_http_time (bstr "Sat, 01 Jan 0000 00:00:00 GMT") = Ret (- 62167208832).
Proof. vm_compute. reflexivity. Qed.
