(* ===== verification/Base64.v ===== *)
(** * Base64: ngx_string.c

    The two encoders and decoders over their shared internal functions. *)

From S2P Require Import Prelude.

Open Scope ch_scope.

(** ** Definitions *)

Definition encode_basis : list Z :=
  bstr "ABCDEFGHIJKLMNOPQRSTUVWXYZabcdefghijklmnopqrstuvwxyz0123456789+/".

Definition encode_basis_url : list Z :=
  bstr "ABCDEFGHIJKLMNOPQRSTUVWXYZabcdefghijklmnopqrstuvwxyz0123456789-_".

(** [basis[i]] *)
Definition bas (basis : list Z) (i : Z) : Z := nth (Z.to_nat i) basis 0.

(** [while (len > 2)] and the lines after it. *)
Fixpoint ngx_encode_base64_internal (src basis : list Z) (padding : bool) : list Z :=
  match src with
  | s0 :: s1 :: s2 :: src =>
      bas basis (Z.land (Z.shiftr s0 2) 0x3f)
      :: bas basis (Z.lor (Z.shiftl (Z.land s0 3) 4) (Z.shiftr s1 4))
      :: bas basis (Z.lor (Z.shiftl (Z.land s1 0x0f) 2) (Z.shiftr s2 6))
      :: bas basis (Z.land s2 0x3f)
      :: ngx_encode_base64_internal src basis padding
  | [s0; s1] =>
      bas basis (Z.land (Z.shiftr s0 2) 0x3f)
      :: bas basis (Z.lor (Z.shiftl (Z.land s0 3) 4) (Z.shiftr s1 4))
      :: bas basis (Z.shiftl (Z.land s1 0x0f) 2)
      :: (if padding then ["="] else [])
  | [s0] =>
      bas basis (Z.land (Z.shiftr s0 2) 0x3f)
      :: bas basis (Z.shiftl (Z.land s0 3) 4)
      :: (if padding then ["="; "="] else [])
  | [] => []
  end.

Definition ngx_encode_base64 (src : list Z) : list Z :=
  ngx_encode_base64_internal src encode_basis true.

Definition ngx_encode_base64url (src : list Z) : list Z :=
  ngx_encode_base64_internal src encode_basis_url false.

Definition ngx_base64_encoded_length (len : Z) : Z := (len + 2) / 3 * 4.
Definition ngx_base64_decoded_length (len : Z) : Z := (len + 3) / 4 * 3.

(** [basis64] of [ngx_decode_base64]. *)
Definition decode_basis : list Z :=
  [77; 77; 77; 77; 77; 77; 77; 77; 77; 77; 77; 77; 77; 77; 77; 77;
   77; 77; 77; 77; 77; 77; 77; 77; 77; 77; 77; 77; 77; 77; 77; 77;
   77; 77; 77; 77; 77; 77; 77; 77; 77; 77; 77; 62; 77; 77; 77; 63;
   52; 53; 54; 55; 56; 57; 58; 59; 60; 61; 77; 77; 77; 77; 77; 77;
   77; 0; 1; 2; 3; 4; 5; 6; 7; 8; 9; 10; 11; 12; 13; 14;
   15; 16; 17; 18; 19; 20; 21; 22; 23; 24; 25; 77; 77; 77; 77; 77;
   77; 26; 27; 28; 29; 30; 31; 32; 33; 34; 35; 36; 37; 38; 39; 40;
   41; 42; 43; 44; 45; 46; 47; 48; 49; 50; 51; 77; 77; 77; 77; 77;
   77; 77; 77; 77; 77; 77; 77; 77; 77; 77; 77; 77; 77; 77; 77; 77;
   77; 77; 77; 77; 77; 77; 77; 77; 77; 77; 77; 77; 77; 77; 77; 77;
   77; 77; 77; 77; 77; 77; 77; 77; 77; 77; 77; 77; 77; 77; 77; 77;
   77; 77; 77; 77; 77; 77; 77; 77; 77; 77; 77; 77; 77; 77; 77; 77;
   77; 77; 77; 77; 77; 77; 77; 77; 77; 77; 77; 77; 77; 77; 77; 77;
   77; 77; 77; 77; 77; 77; 77; 77; 77; 77; 77; 77; 77; 77; 77; 77;
   77; 77; 77; 77; 77; 77; 77; 77; 77; 77; 77; 77; 77; 77; 77; 77;
   77; 77; 77; 77; 77; 77; 77; 77; 77; 77; 77; 77; 77; 77; 77; 77].

(** [basis64] of [ngx_decode_base64url]. *)
Definition decode_basis_url : list Z :=
  [77; 77; 77; 77; 77; 77; 77; 77; 77; 77; 77; 77; 77; 77; 77; 77;
   77; 77; 77; 77; 77; 77; 77; 77; 77; 77; 77; 77; 77; 77; 77; 77;
   77; 77; 77; 77; 77; 77; 77; 77; 77; 77; 77; 77; 77; 62; 77; 77;
   52; 53; 54; 55; 56; 57; 58; 59; 60; 61; 77; 77; 77; 77; 77; 77;
   77; 0; 1; 2; 3; 4; 5; 6; 7; 8; 9; 10; 11; 12; 13; 14;
   15; 16; 17; 18; 19; 20; 21; 22; 23; 24; 25; 77; 77; 77; 77; 63;
   77; 26; 27; 28; 29; 30; 31; 32; 33; 34; 35; 36; 37; 38; 39; 40;
   41; 42; 43; 44; 45; 46; 47; 48; 49; 50; 51; 77; 77; 77; 77; 77;
   77; 77; 77; 77; 77; 77; 77; 77; 77; 77; 77; 77; 77; 77; 77; 77;
   77; 77; 77; 77; 77; 77; 77; 77; 77; 77; 77; 77; 77; 77; 77; 77;
   77; 77; 77; 77; 77; 77; 77; 77; 77; 77; 77; 77; 77; 77; 77; 77;
   77; 77; 77; 77; 77; 77; 77; 77; 77; 77; 77; 77; 77; 77; 77; 77;
   77; 77; 77; 77; 77; 77; 77; 77; 77; 77; 77; 77; 77; 77; 77; 77;
   77; 77; 77; 77; 77; 77; 77; 77; 77; 77; 77; 77; 77; 77; 77; 77;
   77; 77; 77; 77; 77; 77; 77; 77; 77; 77; 77; 77; 77; 77; 77; 77;
   77; 77; 77; 77; 77; 77; 77; 77; 77; 77; 77; 77; 77; 77; 77; 77].

(** The [for] loop: the characters before the padding, [None] for an error. *)
Fixpoint decode_prefix (src basis : list Z) : option (list Z) :=
  match src with
  | [] => Some []
  | c :: src =>
      if decide (c = "=") then Some []
      else if decide (bas basis c = 77) then None
      else l ← decode_prefix src basis; Some (c :: l)
  end.

(** The [while (len > 3)] loop and the lines after it. *)
Fixpoint decode_quads (s basis : list Z) : list Z :=
  match s with
  | s0 :: s1 :: s2 :: s3 :: s =>
      u8 (Z.lor (Z.shiftl (bas basis s0) 2) (Z.shiftr (bas basis s1) 4))
      :: u8 (Z.lor (Z.shiftl (bas basis s1) 4) (Z.shiftr (bas basis s2) 2))
      :: u8 (Z.lor (Z.shiftl (bas basis s2) 6) (bas basis s3))
      :: decode_quads s basis
  | [s0; s1; s2] =>
      [u8 (Z.lor (Z.shiftl (bas basis s0) 2) (Z.shiftr (bas basis s1) 4));
       u8 (Z.lor (Z.shiftl (bas basis s1) 4) (Z.shiftr (bas basis s2) 2))]
  | [s0; s1] => [u8 (Z.lor (Z.shiftl (bas basis s0) 2) (Z.shiftr (bas basis s1) 4))]
  | _ => []
  end.

(** [NGX_ERROR] is [None]. *)
Definition ngx_decode_base64_internal (src basis : list Z) : option (list Z) :=
  s ← decode_prefix src basis;
  if decide (Z.of_nat (length s) mod 4 = 1) then None
  else Some (decode_quads s basis).

Definition ngx_decode_base64 (src : list Z) : option (list Z) :=
  ngx_decode_base64_internal src decode_basis.

Definition ngx_decode_base64url (src : list Z) : option (list Z) :=
  ngx_decode_base64_internal src decode_basis_url.

Example base64_1 : ngx_encode_base64 (bstr "nginx!?") = bstr "bmdpbnghPw==".
Proof. reflexivity. Qed.
Example base64_2 : ngx_decode_base64 (bstr "bmdpbnghPw") = Some (bstr "nginx!?").
Proof. reflexivity. Qed.
Example base64_3 : ngx_decode_base64 (bstr "bmdpb") = None.
Proof. reflexivity. Qed.

(** ** Reference: six bits per character of the alphabet *)

(** The two alphabets and their decoding tables. *)
Definition alphabet (url : bool) : list Z := if url then encode_basis_url else encode_basis.
Definition table (url : bool) : list Z := if url then decode_basis_url else decode_basis.
Definition encode (url : bool) : list Z -> list Z :=
  if url then ngx_encode_base64url else ngx_encode_base64.
Definition decode (url : bool) : list Z -> option (list Z) :=
  if url then ngx_decode_base64url else ngx_decode_base64.

(** The position of a character in the alphabet. *)
Fixpoint index_of (l : list Z) (c : Z) (i : Z) : option Z :=
  match l with
  | [] => None
  | x :: l => if decide (x = c) then Some i else index_of l c (i + 1)
  end.

Definition sextet (url : bool) (c : Z) : option Z := index_of (alphabet url) c 0.

(** What lies before the padding. *)
Fixpoint data_part (src : list Z) : list Z :=
  match src with
  | c :: src => if decide (c = "=") then [] else c :: data_part src
  | [] => []
  end.

(** The bits that a string of characters of the alphabet stands for. *)
Definition sextets (url : bool) (s : list Z) : list bool :=
  s ≫= (fun c => bits_of 6 (default 0 (sextet url c))).

Definition in_alphabet (url : bool) (c : Z) : bool := bool_decide (is_Some (sextet url c)).

(** ** The tables *)

Lemma table_sextet url c :
  is_byte c ->
  bas (table url) c = default 77 (sextet url c)
  /\ (in_alphabet url c = true -> 0 <= default 0 (sextet url c) < 64 /\ c <> "=")
  /\ (in_alphabet url c = false -> sextet url c = None).
Proof. intros H. destruct url; byte_sweep c H. Qed.

Lemma alphabet_sextet url i :
  0 <= i < 64 -> sextet url (bas (alphabet url) i) = Some i /\ is_byte (bas (alphabet url) i).
Proof.
  intros H. assert (is_byte i) as Hb by (unfold is_byte; lia). revert H.
  destruct url; byte_sweep i Hb.
Qed.

(** ** Induction by four and by three elements *)

Lemma quads_ind (P : list Z -> Prop) :
  P [] -> (forall a, P [a]) -> (forall a b, P [a; b]) -> (forall a b c, P [a; b; c]) ->
  (forall a b c d l, P l -> P (a :: b :: c :: d :: l)) -> forall l, P l.
Proof.
  intros H0 H1 H2 H3 H4. fix IH 1.
  intros [|a [|b [|c [|d l]]]]; [exact H0|apply H1|apply H2|apply H3|apply H4, IH].
Qed.

Lemma triples_ind (P : list Z -> Prop) :
  P [] -> (forall a, P [a]) -> (forall a b, P [a; b]) ->
  (forall a b c l, P l -> P (a :: b :: c :: l)) -> forall l, P l.
Proof.
  intros H0 H1 H2 H3. fix IH 1.
  intros [|a [|b [|c l]]]; [exact H0|apply H1|apply H2|apply H3, IH].
Qed.

(** ** Bits of the decoder *)

Lemma quad_bits_1 x y :
  0 <= x < 64 -> 0 <= y < 64 ->
  bits_of 8 (u8 (Z.lor (Z.shiftl x 2) (Z.shiftr y 4))) = bits_of 6 x ++ take 2 (bits_of 6 y).
Proof.
  intros Hx Hy.
  bit_cases ltac:(first [rewrite (testbit_high x 6) by lia | rewrite (testbit_high y 6) by lia]).
Qed.

Lemma quad_bits_2 x y :
  0 <= x < 64 -> 0 <= y < 64 ->
  bits_of 8 (u8 (Z.lor (Z.shiftl x 4) (Z.shiftr y 2)))
  = drop 2 (bits_of 6 x) ++ take 4 (bits_of 6 y).
Proof.
  intros Hx Hy.
  bit_cases ltac:(first [rewrite (testbit_high x 6) by lia | rewrite (testbit_high y 6) by lia]).
Qed.

Lemma quad_bits_3 x y :
  0 <= x < 64 -> 0 <= y < 64 ->
  bits_of 8 (u8 (Z.lor (Z.shiftl x 6) y)) = drop 4 (bits_of 6 x) ++ bits_of 6 y.
Proof.
  intros Hx Hy.
  bit_cases ltac:(first [rewrite (testbit_high x 6) by lia | rewrite (testbit_high y 6) by lia]).
Qed.

Lemma decode_prefix_spec url src :
  bytes src ->
  decode_prefix src (table url)
  = if forallb (in_alphabet url) (data_part src) then Some (data_part src) else None.
Proof.
  induction 1 as [|c src Hc Hs IH]; [done|]. cbn [decode_prefix data_part].
  case_decide; [done|]. cbn [forallb].
  destruct (table_sextet url c Hc) as (Et & Hin & Hout).
  destruct (in_alphabet url c) eqn:E; cbn [andb].
  - destruct (Hin eq_refl) as [Hr _]. rewrite IH, Et.
    unfold in_alphabet in E. apply bool_decide_eq_true in E. destruct E as [i Ei].
    rewrite Ei in *. cbn in *. rewrite decide_False by lia. by destruct (forallb _ _).
  - rewrite (Hout eq_refl) in Et. cbn in Et. by rewrite decide_True.
Qed.

(** A valid character, with its value. *)
Definition valid_char (url : bool) (c : Z) : Prop :=
  is_byte c /\ bas (table url) c = default 0 (sextet url c)
  /\ 0 <= default 0 (sextet url c) < 64.

Lemma valid_chars url s :
  bytes s -> forallb (in_alphabet url) s = true -> Forall (valid_char url) s.
Proof.
  induction 1 as [|c s Hc Hs IH]; [constructor|]. cbn [forallb]. intros E.
  apply andb_true_iff in E. destruct E as [E1 E2]. constructor; [|by apply IH].
  destruct (table_sextet url c Hc) as (Et & Hin & _). destruct (Hin E1) as [Hr _].
  unfold in_alphabet in E1. apply bool_decide_eq_true in E1. destruct E1 as [i Ei].
  unfold valid_char. rewrite Et, Ei in *. done.
Qed.

Lemma sextets_cons url c s :
  sextets url (c :: s) = bits_of 6 (default 0 (sextet url c)) ++ sextets url s.
Proof. done. Qed.

Ltac valid_chars_values :=
  repeat match goal with
  | H : Forall (valid_char _) (_ :: _) |- _ =>
      let E := fresh "E" in
      apply List.Forall_cons_iff in H; destruct H as [(_ & E & ?) H]; rewrite ?E
  end.

Lemma decode_quads_spec url s :
  Forall (valid_char url) s -> Z.of_nat (length s) mod 4 <> 1 ->
  let dst := decode_quads s (table url) in
  bytes dst /\ bytes_bits dst = take (8 * length dst) (sextets url s)
  /\ (8 * length dst <= 6 * length s < 8 * length dst + 8)%nat.
Proof.
  cbv zeta. intros H Hn.
  induction s as [|a|a b|a b c|a b c d s IH] using quads_ind;
    [cbn [decode_quads length]; split; [constructor|split; [done|lia]]|by destruct Hn|..];
    cbn [decode_quads]; valid_chars_values.
  - split; [repeat constructor; apply u8_byte|]. split; [|cbn [length]; lia].
    rewrite !sextets_cons. cbn [bytes_bits mbind list_bind length].
    by rewrite quad_bits_1.
  - split; [repeat (constructor; [apply u8_byte|]); constructor|]. split; [|cbn [length]; lia].
    rewrite !sextets_cons. unfold bytes_bits. cbn [mbind list_bind length].
    by rewrite quad_bits_1, quad_bits_2.
  - destruct IH as (Hb & Eb & Hl); [done|cbn [length] in Hn; dlia|].
    split; [repeat (constructor; [apply u8_byte|]); done|]. cbn [length].
    split; [|lia]. rewrite !sextets_cons.
    set (l := decode_quads s (table url)) in *.
    replace (8 * S (S (S (length l))))%nat with (24 + 8 * length l)%nat by lia.
    unfold bytes_bits in *. cbn [mbind list_bind]. rewrite Eb, quad_bits_1, quad_bits_2, quad_bits_3 by done.
    reflexivity.
Qed.

(** ** The theorems *)

Lemma data_part_bytes src : bytes src -> bytes (data_part src).
Proof.
  induction 1 as [|c src Hc Hs IH]; [constructor|]. cbn [data_part].
  case_decide; by constructor.
Qed.

Lemma decode_spec url src :
  bytes src ->
  let s := data_part src in
  if forallb (in_alphabet url) s && negb (Z.of_nat (length s) mod 4 =? 1) then
    exists dst, decode url src = Some dst /\ bytes dst
      /\ (8 * length dst <= 6 * length s < 8 * length dst + 8)%nat
      /\ bytes_bits dst = take (8 * length dst) (sextets url s)
  else decode url src = None.
Proof.
  intros Hs s. subst s.
  assert (decode url src = ngx_decode_base64_internal src (table url)) as -> by by destruct url.
  unfold ngx_decode_base64_internal. rewrite decode_prefix_spec by done.
  destruct (forallb _ _) eqn:E; [|done]. cbn [andb mbind option_bind].
  destruct (Z.eqb_spec (Z.of_nat (length (data_part src)) mod 4) 1) as [El|El]; cbn [negb].
  - by rewrite decide_True.
  - rewrite decide_False by done. eexists. split; [done|].
    destruct (decode_quads_spec url (data_part src)) as (H1 & H2 & H3);
      [apply valid_chars; [by apply data_part_bytes|done]|done|].
    done.
Qed.

(** The six-bit values that the encoder looks up. *)
Fixpoint encode_values (src : list Z) : list Z :=
  match src with
  | s0 :: s1 :: s2 :: src =>
      Z.land (Z.shiftr s0 2) 0x3f
      :: Z.lor (Z.shiftl (Z.land s0 3) 4) (Z.shiftr s1 4)
      :: Z.lor (Z.shiftl (Z.land s1 0x0f) 2) (Z.shiftr s2 6)
      :: Z.land s2 0x3f :: encode_values src
  | [s0; s1] =>
      [Z.land (Z.shiftr s0 2) 0x3f;
       Z.lor (Z.shiftl (Z.land s0 3) 4) (Z.shiftr s1 4); Z.shiftl (Z.land s1 0x0f) 2]
  | [s0] => [Z.land (Z.shiftr s0 2) 0x3f; Z.shiftl (Z.land s0 3) 4]
  | [] => []
  end.

Definition padding_len (n : nat) : nat :=
  match (n mod 3)%nat with 1%nat => 2%nat | 2%nat => 1%nat | _ => 0%nat end.

Lemma padding_len_3 n : padding_len (3 + n) = padding_len n.
Proof.
  unfold padding_len. replace (3 + n)%nat with (n + 1 * 3)%nat by lia.
  by rewrite Nat.Div0.mod_add.
Qed.

Lemma encode_form url src :
  encode url src
  = map (bas (alphabet url)) (encode_values src)
    ++ (if url then [] else replicate (padding_len (length src)) ("=" : Z)).
Proof.
  transitivity (ngx_encode_base64_internal src (alphabet url) (negb url)); [by destruct url|].
  induction src as [|a|a b|a b c s IH] using triples_ind;
    [by destruct url..|].
  change (length (a :: b :: c :: s)) with (3 + length s)%nat. rewrite padding_len_3.
  cbn [ngx_encode_base64_internal encode_values map app]. by rewrite IH.
Qed.

(** The six-bit values that depend on one byte. *)
Section EncodeByte.
Context (a : Z) (Ha : is_byte a).

Lemma bits_hi6 : bits_of 6 (Z.land (Z.shiftr a 2) 0x3f) = take 6 (bits_of 8 a).
Proof using Ha. byte_sweep a Ha. Qed.

Lemma bits_lo6 : bits_of 6 (Z.land a 0x3f) = drop 2 (bits_of 8 a).
Proof using Ha. byte_sweep a Ha. Qed.

Lemma bits_lo2 :
  bits_of 6 (Z.shiftl (Z.land a 3) 4) = drop 6 (bits_of 8 a) ++ replicate 4 false.
Proof using Ha. byte_sweep a Ha. Qed.

Lemma bits_lo4 :
  bits_of 6 (Z.shiftl (Z.land a 0x0f) 2) = drop 4 (bits_of 8 a) ++ replicate 2 false.
Proof using Ha. byte_sweep a Ha. Qed.

Lemma bits_hi4 : bits_of 6 (Z.shiftr a 4) = replicate 2 false ++ take 4 (bits_of 8 a).
Proof using Ha. byte_sweep a Ha. Qed.

Lemma bits_hi2 : bits_of 6 (Z.shiftr a 6) = replicate 4 false ++ take 2 (bits_of 8 a).
Proof using Ha. byte_sweep a Ha. Qed.

Lemma range_values :
  Forall (fun v => 0 <= v < 2 ^ 6)
    [Z.land (Z.shiftr a 2) 0x3f; Z.land a 0x3f; Z.shiftl (Z.land a 3) 4;
     Z.shiftl (Z.land a 0x0f) 2; Z.shiftr a 4; Z.shiftr a 6].
Proof using Ha. byte_sweep a Ha. Qed.
End EncodeByte.

Lemma encode_pair_2 a b :
  is_byte a -> is_byte b ->
  bits_of 6 (Z.lor (Z.shiftl (Z.land a 3) 4) (Z.shiftr b 4))
  = drop 6 (bits_of 8 a) ++ take 4 (bits_of 8 b).
Proof.
  intros Ha Hb. rewrite bits_of_lor, bits_lo2, bits_hi4 by done.
  cbn. by rewrite !orb_false_r.
Qed.

Lemma encode_pair_4 a b :
  is_byte a -> is_byte b ->
  bits_of 6 (Z.lor (Z.shiftl (Z.land a 0x0f) 2) (Z.shiftr b 6))
  = drop 4 (bits_of 8 a) ++ take 2 (bits_of 8 b).
Proof.
  intros Ha Hb. rewrite bits_of_lor, bits_lo4, bits_hi2 by done.
  cbn. by rewrite !orb_false_r.
Qed.

(** Proves that the values made of bytes are below 64. *)
Ltac value_ranges :=
  repeat match goal with
  | H : is_byte _ |- _ => apply range_values in H; unfold id in H; rewrite !List.Forall_cons_iff in H;
      destruct H as (? & ? & ? & ? & ? & ? & _)
  end;
  repeat (apply List.Forall_cons; [first [assumption | apply lor_bound; [lia|assumption..]]|]);
  first [assumption | apply List.Forall_nil].

Lemma encode_values_ok src :
  bytes src ->
  Forall (fun v => 0 <= v < 2 ^ 6) (encode_values src)
  /\ (exists k, (k < 6)%nat /\
        (encode_values src ≫= bits_of 6) = bytes_bits src ++ replicate k false)
  /\ (length (encode_values src) + padding_len (length src)
      = 4 * ((length src + 2) / 3))%nat.
Proof.
  induction src as [|a|a b|a b c s IH] using triples_ind; intros H;
    rewrite ?List.Forall_cons_iff in H; cbn [encode_values].
  - split; [apply List.Forall_nil|]. split; [exists 0%nat; by split; [lia|]|done].
  - destruct H as [Ha _]. split; [value_ranges|]. split; [|done].
    exists 4%nat. split; [lia|]. cbn [mbind list_bind]. by rewrite bits_hi6, bits_lo2.
  - destruct H as (Ha & Hb & _). split; [value_ranges|]. split; [|done].
    exists 2%nat. split; [lia|]. cbn [mbind list_bind].
    by rewrite bits_hi6, encode_pair_2, bits_lo4.
  - destruct H as (Ha & Hb & Hc & H). destruct (IH H) as (Hf & (k & Hk & Ek) & Hl).
    split; [value_ranges|]. split.
    + exists k. split; [done|]. cbn [mbind list_bind] in *.
      by rewrite Ek, bits_hi6, encode_pair_2, encode_pair_4, bits_lo6.
    + change (length (a :: b :: c :: s)) with (3 + length s)%nat. rewrite padding_len_3.
      replace (3 + length s + 2)%nat with (length s + 2 + 1 * 3)%nat by lia.
      rewrite Nat.div_add by lia. cbn [length]. lia.
Qed.

(** The characters of the encoded values. *)
Lemma encoded_chars url vs rest :
  Forall (fun v => 0 <= v < 2 ^ 6) vs ->
  (forall c r, rest = c :: r -> c = "=") ->
  data_part (map (bas (alphabet url)) vs ++ rest) = map (bas (alphabet url)) vs
  /\ forallb (in_alphabet url) (map (bas (alphabet url)) vs) = true
  /\ sextets url (map (bas (alphabet url)) vs) = (vs ≫= bits_of 6)
  /\ bytes (map (bas (alphabet url)) vs).
Proof.
  intros Hv Hr. induction Hv as [|v vs Hx Hv IH].
  { cbn. split_and!; try done. destruct rest as [|c r]; [done|]. cbn.
    by rewrite decide_True by (by eapply Hr). }
  destruct IH as (E1 & E2 & E3 & E4).
  destruct (alphabet_sextet url v Hx) as [Es Hb].
  assert (in_alphabet url (bas (alphabet url) v) = true) as Hin
    by (unfold in_alphabet; rewrite Es; by apply bool_decide_eq_true).
  destruct (table_sextet url _ Hb) as (_ & Hne & _). destruct (Hne Hin) as [_ Hne'].
  cbn [map app data_part forallb mbind list_bind]. rewrite decide_False by done.
  rewrite E1, Hin, E2, sextets_cons, Es, E3. split_and!; [done..|]. by constructor.
Qed.

(** C38: decoding with padding or without inverts encoding, in both alphabets,
    for every byte string, and the encoded length is the one of
    [ngx_base64_encoded_length] when padding is written. *)
Theorem base64_roundtrip (url : bool) src :
  bytes src ->
  decode url (encode url src) = Some src
  /\ (url = false ->
      Z.of_nat (length (encode url src)) = ngx_base64_encoded_length (Z.of_nat (length src))).
Proof.
  intros Hs. destruct (encode_values_ok src Hs) as (Hf & (k & Hk & Ek) & Hl).
  rewrite encode_form.
  set (pad := if url then [] else replicate (padding_len (length src)) ("=" : Z)).
  destruct (encoded_chars url (encode_values src) pad Hf) as (E1 & E2 & E3 & E4).
  { intros c r E. subst pad. destruct url; [done|].
    destruct (padding_len (length src)); [done|]. cbn in E. congruence. }
  set (s := map (bas (alphabet url)) (encode_values src)) in *.
  assert (length (sextets url s) = 6 * length s)%nat as Ls.
  { rewrite E3. unfold s. rewrite length_map. generalize (encode_values src). intros l.
    induction l as [|x l IH]; [done|].
    change ((x :: l) ≫= bits_of 6) with (bits_of 6 x ++ (l ≫= bits_of 6)).
    rewrite length_app, length_bits_of, IH. cbn [length]. lia. }
  assert (length (sextets url s) = 8 * length src + k)%nat as Ls2.
  { by rewrite E3, Ek, length_app, length_replicate, length_bytes_bits. }
  split.
  - assert (bytes (s ++ pad)) as Hb.
    { apply Forall_app. split; [done|]. subst pad. destruct url; [constructor|].
      by apply Forall_replicate. }
    pose proof (decode_spec url (s ++ pad) Hb) as H. cbv zeta in H.
    rewrite E1, E2 in H. cbn [andb] in H.
    destruct (Z.eqb_spec (Z.of_nat (length s) mod 4) 1) as [El|El]; cbn [negb] in H;
      [dlia|].
    destruct H as (dst & -> & Hd & Hl2 & Eb). f_equal.
    assert (length dst = length src) as El2 by lia.
    apply bytes_bits_inj; [done|done|].
    rewrite Eb, El2, E3, Ek, take_app_length'; [done|by rewrite length_bytes_bits].
  - intros ->. subst pad. rewrite length_app, length_replicate. unfold s. rewrite length_map.
    rewrite Hl. unfold ngx_base64_encoded_length. rewrite Nat2Z.inj_mul, Nat2Z.inj_div. lia.
Qed.

Lemma base64_roundtrip_witness :
  bytes (bstr "ab?>") /\ decode true (encode true (bstr "ab?>")) = Some (bstr "ab?>").
Proof.
  assert (bytes (bstr "ab?>")) as H by by_decide.
  split; [exact H|]. exact (proj1 (base64_roundtrip true (bstr "ab?>") H)).
Defined.

(** The decoder is exact on every byte string: it fails when a character
    before the first "=" is outside of the alphabet or when one is left over,
    and otherwise writes the bits of the characters in order, without the last
    incomplete byte, within the room of [ngx_base64_decoded_length]. *)
Theorem base64_decode_exact (url : bool) src :
  bytes src ->
  let s := data_part src in
  if forallb (in_alphabet url) s && negb (Z.of_nat (length s) mod 4 =? 1) then
    exists dst, decode url src = Some dst /\ bytes dst
      /\ bytes_bits dst = take (8 * length dst) (sextets url s)
      /\ (8 * length dst <= 6 * length s < 8 * length dst + 8)%nat
      /\ Z.of_nat (length dst) <= ngx_base64_decoded_length (Z.of_nat (length src))
  else decode url src = None.
Proof.
  intros Hs s. pose proof (decode_spec url src Hs) as H. fold s in H. cbv zeta in H.
  destruct (_ && _); [|done]. destruct H as (dst & -> & Hd & Hl & Eb).
  exists dst. split_and!; try done; try lia.
  assert (length s <= length src)%nat as Hle.
  { subst s. clear. induction src as [|c src IH]; cbn [data_part]; [lia|].
    case_decide; cbn [length]; lia. }
  unfold ngx_base64_decoded_length. dlia.
Qed.

Lemma base64_decode_exact_witness :
  bytes (bstr "YWI=") /\
  exists dst, decode false (bstr "YWI=") = Some dst /\ bytes dst
    /\ bytes_bits dst = take (8 * length dst) (sextets false (bstr "YWI")).
Proof.
  assert (bytes (bstr "YWI=")) as H by by_decide. split; [exact H|].
  destruct (base64_decode_exact false (bstr "YWI=") H) as (dst & E & Hb & Eb & _).
  exists dst. split; [exact E|]. split; [exact Hb|exact Eb].
Defined.
