(* ===== verification/Utf8.v ===== *)
(** * UTF-8: ngx_string.c

    [ngx_utf8_decode], [ngx_utf8_length] and [ngx_utf8_cpystrn].  The buffer
    that a pointer and a length describe is the list of its bytes, the pointer
    that [ngx_utf8_decode] moves is the rest of that list. *)

From S2P Require Import Prelude.

(** ** Definitions *)

(** The four cases on the first byte: the bits of the character, the largest
    value that a shorter sequence can have, and the bytes that follow. *)
Definition utf8_lead (u : Z) : option (Z * Z * Z) :=
  if decide (u >= 0xf8) then None
  else if decide (u >= 0xf0) then Some (Z.land u 0x07, 0xffff, 3)
  else if decide (u >= 0xe0) then Some (Z.land u 0x0f, 0x7ff, 2)
  else if decide (u >= 0xc2) then Some (Z.land u 0x1f, 0x7f, 1)
  else None.

(** [while (len)] and the lines after it. *)
Fixpoint utf8_tail (len : nat) (u valid : Z) (p : list Z) : Z * list Z :=
  match len, p with
  | O, _ => (if decide (u > valid) then u else 0xffffffff, p)
  | S len, i :: p =>
      if decide (i < 0x80) then (0xffffffff, p)
      else utf8_tail len (u32 (Z.lor (Z.shiftl u 6) (Z.land i 0x3f))) valid p
  | S _, [] => (0xffffffff, [])
  end.

(** The result and the moved pointer; [None] is a read of an empty buffer. *)
Definition ngx_utf8_decode (p : list Z) : option (Z * list Z) :=
  match p with
  | [] => None
  | b :: q =>
      match utf8_lead b with
      | None => Some (0xffffffff, q)
      | Some (u, valid, len) =>
          if decide (Z.of_nat (length p) - 1 < len) then Some (0xfffffffe, p)
          else Some (utf8_tail (Z.to_nat len) u valid q)
      end
  end.

(** The loop of [ngx_utf8_length]; every round moves the pointer forward. *)
Fixpoint utf8_length_loop (fuel : nat) (n : Z) (p : list Z) (len : Z) : option Z :=
  match fuel with
  | O => None
  | S fuel =>
      match p with
      | [] => Some len
      | c :: q =>
          if decide (c < 0x80) then utf8_length_loop fuel n q (len + 1)
          else
            '(u, r) ← ngx_utf8_decode p;
            if decide (u > 0x10ffff) then Some n
            else utf8_length_loop fuel n r (len + 1)
      end
  end.

Definition ngx_utf8_length (p : list Z) : option Z :=
  utf8_length_loop (S (length p)) (Z.of_nat (length p)) p 0.

(** [ngx_utf8_cpystrn] on a string of [len] bytes with its terminating NUL:
    what it writes.  The loop [while (--n)] runs at most [n - 1] times; the
    bytes of a character are those between the pointer and [next]. *)
Fixpoint utf8_cpy_loop (n : nat) (dst src : list Z) : list Z :=
  match n with
  | O => dst ++ [0]
  | S n =>
      match src with
      | [] => dst ++ [0]
      | c :: q =>
          if decide (c < 0x80) then
            if decide (c <> 0) then utf8_cpy_loop n (dst ++ [c]) q else dst ++ [0]
          else
            match ngx_utf8_decode src with
            | None => dst ++ [0]
            | Some (u, next) =>
                if decide (u > 0x10ffff) then dst ++ [0]
                else utf8_cpy_loop n (dst ++ take (length src - length next) src) next
            end
      end
  end.

Definition ngx_utf8_cpystrn (src : list Z) (n : nat) : list Z :=
  match n with O => [] | S n => utf8_cpy_loop n [] src end.

Example utf8_1 : ngx_utf8_decode [0xe2; 0x82; 0xac; 0x21] = Some (0x20ac, [0x21]).
Proof. reflexivity. Qed.
Example utf8_2 : ngx_utf8_length [0x61; 0xc3; 0xa9; 0x62] = Some 3.
Proof. reflexivity. Qed.
Example utf8_3 : ngx_utf8_cpystrn [0x61; 0xc3; 0xa9; 0x62] 3 = [0x61; 0xc3; 0xa9; 0].
Proof. reflexivity. Qed.

(** ** Reference: the encoding form *)

Definition utf8_encode (v : Z) : list Z :=
  if decide (v < 0x80) then [v]
  else if decide (v < 0x800) then [0xc0 + v / 64; 0x80 + v mod 64]
  else if decide (v < 0x10000) then
    [0xe0 + v / 4096; 0x80 + v / 64 mod 64; 0x80 + v mod 64]
  else [0xf0 + v / 262144; 0x80 + v / 4096 mod 64; 0x80 + v / 64 mod 64; 0x80 + v mod 64].

(** A continuation byte as the encoder writes it. *)
Definition cont (i : Z) : Z := 0x80 + i mod 64.

(** A byte that [ngx_utf8_decode] takes for a continuation. *)
Definition cont_byte (i : Z) : Prop := 0x80 <= i < 256.

(** The value that the tail of a sequence adds to [u]. *)
Definition tail_value (u : Z) (cs : list Z) : Z := fold_left (fun u i => u * 64 + i mod 64) cs u.

Lemma utf8_lead_spec u :
  is_byte u ->
  utf8_lead u =
    if decide (0xf0 <= u < 0xf8) then Some (u - 0xf0, 0xffff, 3)
    else if decide (0xe0 <= u < 0xf0) then Some (u - 0xe0, 0x7ff, 2)
    else if decide (0xc2 <= u < 0xe0) then Some (u - 0xc0, 0x7f, 1)
    else None.
Proof. intros H. byte_sweep u H. Qed.

Lemma utf8_step u i :
  0 <= u < 2 ^ 26 -> u32 (Z.lor (Z.shiftl u 6) (Z.land i 0x3f)) = u * 64 + i mod 64.
Proof.
  intros H. rewrite (land_ones_mod i 0x3f 6) by done.
  pose proof (Z.mod_pos_bound i (2 ^ 6) ltac:(lia)).
  rewrite lor_shiftl_add by lia. change (2 ^ 6) with 64 in *. by rewrite u32_small by lia.
Qed.

(** The loop over the continuation bytes. *)
Lemma utf8_tail_spec cs u valid rest :
  Forall cont_byte cs -> 0 <= u < 2 ^ 8 -> (length cs <= 3)%nat ->
  utf8_tail (length cs) u valid (cs ++ rest)
  = (if decide (tail_value u cs > valid) then tail_value u cs else 0xffffffff, rest).
Proof.
  intros Hc Hu Hl.
  assert (0 <= u < 2 ^ (26 - 6 * Z.of_nat (length cs))) as Hb.
  { split; [lia|]. apply Z.lt_le_trans with (2 ^ 8); [lia|]. apply Z.pow_le_mono_r; lia. }
  clear Hu. revert u Hb. induction Hc as [|i cs Hi Hc IH]; intros u Hb; [done|].
  cbn [length utf8_tail app tail_value fold_left]. unfold cont_byte in Hi.
  cbn [length] in Hl, Hb.
  assert (2 ^ (26 - 6 * Z.of_nat (S (length cs))) * 64 = 2 ^ (26 - 6 * Z.of_nat (length cs))) as E.
  { change 64 with (2 ^ 6). rewrite <- Z.pow_add_r by lia. f_equal. lia. }
  assert (0 < 2 ^ (26 - 6 * Z.of_nat (length cs)) <= 2 ^ 26) as Hp.
  { split; [apply Z.pow_pos_nonneg; lia|]. apply Z.pow_le_mono_r; lia. }
  rewrite decide_False, utf8_step by lia. apply IH; [lia|].
  pose proof (Z.mod_pos_bound i 64 ltac:(lia)). lia.
Qed.

(** When a continuation is missing the result is the error value. *)
Lemma utf8_tail_inv len u valid p v rest :
  bytes p -> utf8_tail len u valid p = (v, rest) -> v <> 0xffffffff ->
  exists cs, p = cs ++ rest /\ length cs = len /\ Forall cont_byte cs.
Proof.
  revert u p. induction len as [|len IH]; intros u p Hp E Hv.
  - cbn in E. exists []. split; [|by split; [|constructor]]. cbn.
    destruct p; cbn in E; by inversion E.
  - destruct p as [|i p]; cbn in E; [by inversion E; subst|].
    apply List.Forall_cons_iff in Hp. destruct Hp as [Hi Hp].
    case_decide; [by inversion E; subst|].
    destruct (IH _ p Hp E Hv) as (cs & -> & El & Hc). exists (i :: cs).
    cbn [length app]. split; [done|]. split; [lia|]. constructor; [|done].
    unfold is_byte in Hi. unfold cont_byte. lia.
Qed.

(** The shapes of the four lengths, without their arithmetic. *)
Lemma decode_run b u valid cs rest :
  utf8_lead b = Some (u, valid, Z.of_nat (length cs)) -> 0 <= u < 2 ^ 8 ->
  (length cs <= 3)%nat -> Forall cont_byte cs ->
  ngx_utf8_decode (b :: cs ++ rest)
  = Some (if decide (tail_value u cs > valid) then tail_value u cs else 0xffffffff, rest).
Proof.
  intros E Hu Hl Hc. unfold ngx_utf8_decode. rewrite E.
  rewrite decide_False by (cbn [length]; rewrite length_app; lia).
  by rewrite Nat2Z.id, utf8_tail_spec.
Qed.

(** The first byte and the continuations of an encoded character. *)
Lemma utf8_encode_lead v b cs :
  0x80 <= v <= 0x10ffff -> utf8_encode v = b :: map cont cs -> Forall cont_byte cs ->
  exists u valid, utf8_lead b = Some (u, valid, Z.of_nat (length cs)) /\ 0 <= u < 2 ^ 8
    /\ tail_value u cs = v /\ v > valid /\ (length cs <= 3)%nat.
Proof.
  intros Hv E Hc. unfold utf8_encode in E. rewrite decide_False in E by lia.
  destruct (decide (v < 0x800)); [|destruct (decide (v < 0x10000))];
    destruct cs as [|i1 [|i2 [|i3 [|i4 cs]]]]; try discriminate; injection E; unfold cont;
    intros; subst b.
  - exists (v / 64), 0x7f. rewrite utf8_lead_spec by (unfold is_byte; dlia).
    do 2 rewrite decide_False by dlia. rewrite decide_True by dlia.
    cbn [length tail_value fold_left]. split_and!; try lia; try dlia.
    f_equal. f_equal. f_equal. lia.
  - exists (v / 4096), 0x7ff. rewrite utf8_lead_spec by (unfold is_byte; dlia).
    rewrite decide_False by dlia. rewrite decide_True by dlia.
    cbn [length tail_value fold_left]. split_and!; try lia; try dlia.
    f_equal. f_equal. f_equal. lia.
  - exists (v / 262144), 0xffff. rewrite utf8_lead_spec by (unfold is_byte; dlia).
    rewrite decide_True by dlia.
    cbn [length tail_value fold_left]. split_and!; try lia; try dlia.
    f_equal. f_equal. f_equal. lia.
Qed.

Lemma encode_of_tail b u valid cs :
  is_byte b -> utf8_lead b = Some (u, valid, Z.of_nat (length cs)) ->
  valid < tail_value u cs <= 0x10ffff ->
  0x80 <= tail_value u cs /\ utf8_encode (tail_value u cs) = b :: map cont cs
  /\ 0 <= u < 2 ^ 8 /\ (length cs <= 3)%nat.
Proof.
  intros Hb E. rewrite utf8_lead_spec in E by done. unfold is_byte in Hb.
  assert (forall i, 0 <= i mod 64 < 64) as Hm by (intros; apply Z.mod_pos_bound; lia).
  repeat (case_decide; [injection E as <- <- El|]); [..|discriminate E];
    destruct cs as [|i1 [|i2 [|i3 [|i4 cs]]]]; cbn [length] in El; try lia;
    cbn [tail_value fold_left map]; unfold cont; intros Hv.
  - pose proof (Hm i1). pose proof (Hm i2). pose proof (Hm i3). clear Hm.
    set (m1 := i1 mod 64) in *. set (m2 := i2 mod 64) in *. set (m3 := i3 mod 64) in *.
    split; [lia|]. unfold utf8_encode. do 3 rewrite decide_False by lia.
    split; [|cbn [length]; lia]. repeat (f_equal; [dlia|]). f_equal; dlia.
  - pose proof (Hm i1). pose proof (Hm i2). clear Hm.
    set (m1 := i1 mod 64) in *. set (m2 := i2 mod 64) in *.
    split; [lia|]. unfold utf8_encode. do 2 rewrite decide_False by lia.
    rewrite decide_True by lia.
    split; [|cbn [length]; lia]. repeat (f_equal; [dlia|]). f_equal; dlia.
  - pose proof (Hm i1). clear Hm. set (m1 := i1 mod 64) in *.
    split; [lia|]. unfold utf8_encode. rewrite decide_False by lia.
    rewrite decide_True by lia.
    split; [|cbn [length]; lia]. repeat (f_equal; [dlia|]). f_equal; dlia.
Qed.

Lemma decode_encoded v b cs rest :
  0x80 <= v <= 0x10ffff -> Forall cont_byte cs -> utf8_encode v = b :: map cont cs ->
  ngx_utf8_decode (b :: cs ++ rest) = Some (v, rest).
Proof.
  intros Hv Hc E. destruct (utf8_encode_lead v b cs Hv E Hc) as (u & valid & El & Hu & Et & Hlt & Hl).
  rewrite (decode_run b u valid) by done. by rewrite Et, decide_True.
Qed.

(** C37: what [ngx_utf8_decode] accepts is exactly the shortest encoding of a
    value from 0x80 to 0x10ffff, except that the two upper bits of a
    continuation byte only have to make it 0x80 or more. *)
Theorem utf8_decode_exact p v rest :
  bytes p ->
  ngx_utf8_decode p = Some (v, rest) /\ v <= 0x10ffff <->
  exists b cs, p = b :: cs ++ rest /\ 0x80 <= v <= 0x10ffff /\ Forall cont_byte cs
    /\ utf8_encode v = b :: map cont cs.
Proof.
  intros Hp. split.
  - intros [E Hv]. destruct p as [|b q]; [discriminate|].
    apply List.Forall_cons_iff in Hp. destruct Hp as [Hb Hq].
    unfold ngx_utf8_decode in E.
    destruct (utf8_lead b) as [[[u valid] len]|] eqn:El; [|injection E; lia].
    case_decide; [injection E; lia|]. injection E as E.
    destruct (utf8_tail_inv _ _ _ _ _ _ Hq E ltac:(lia)) as (cs & -> & Ec & Hc).
    assert (0 <= len) as Hlen.
    { rewrite utf8_lead_spec in El by done. repeat case_decide; by inversion El. }
    assert (len = Z.of_nat (length cs)) as -> by lia.
    assert (0 <= u < 2 ^ 8 /\ (length cs <= 3)%nat) as [Hu Hl].
    { rewrite utf8_lead_spec in El by done. unfold is_byte in Hb.
      repeat case_decide; inversion El; lia. }
    rewrite Nat2Z.id, utf8_tail_spec in E by done. case_decide; [|injection E; lia].
    injection E as E. subst v.
    destruct (encode_of_tail b u valid cs Hb El ltac:(lia)) as (H80 & Ee & _).
    exists b, cs. split_and!; done.
  - intros (b & cs & -> & Hv & Hc & Ee). split; [by apply decode_encoded|lia].
Qed.

Lemma utf8_decode_exact_witness :
  bytes [0xe2; 0x82; 0xac; 0x21] /\ ngx_utf8_decode [0xe2; 0x82; 0xac; 0x21] = Some (0x20ac, [0x21]).
Proof.
  assert (bytes [0xe2; 0x82; 0xac; 0x21]) as H by by_decide. split; [exact H|].
  apply (utf8_decode_exact _ 0x20ac [0x21] H).
  exists 0xe2, [0x82; 0xac]. split; [reflexivity|]. split; [lia|]. split; [|reflexivity].
  repeat constructor; unfold cont_byte; lia.
Defined.

(** The two upper bits of a continuation byte are not checked. *)
Example utf8_bad_continuation : ngx_utf8_decode [0xc3; 0xff] = Some (0xff, []).
Proof. reflexivity. Qed.

(** ** Strings of characters *)

Lemma utf8_encode_bytes v :
  0 <= v <= 0x10ffff ->
  exists b cs, utf8_encode v = b :: map cont cs /\ Forall cont_byte cs
    /\ (v < 0x80 -> b = v /\ cs = []) /\ (0x80 <= v -> b >= 0xc2).
Proof.
  intros Hv. unfold utf8_encode. assert (forall x, cont_byte (0x80 + x mod 64)) as Hc.
  { intros x. unfold cont_byte. pose proof (Z.mod_pos_bound x 64). lia. }
  assert (forall x, 0x80 + x mod 64 = cont (0x80 + x mod 64)) as E by (intros; unfold cont; dlia).
  case_decide; [exists v, []; split; [done|]; split; [apply List.Forall_nil|]; split; [done|lia]|].
  repeat case_decide;
    [ exists (0xc0 + v / 64), [0x80 + v mod 64]
    | exists (0xe0 + v / 4096), [0x80 + v / 64 mod 64; 0x80 + v mod 64]
    | exists (0xf0 + v / 262144), [0x80 + v / 4096 mod 64; 0x80 + v / 64 mod 64; 0x80 + v mod 64]];
    (split; [cbn [map]; by rewrite <- !E|]; split; [repeat (apply List.Forall_cons; [apply Hc|]); apply List.Forall_nil|];
     split; [intros; exfalso; lia|intros; dlia]).
Qed.

(** A character followed by anything: one round of the two loops. *)
Lemma decode_char v rest :
  0x80 <= v <= 0x10ffff ->
  exists b q, utf8_encode v = b :: q /\ b >= 0x80
    /\ ngx_utf8_decode (utf8_encode v ++ rest) = Some (v, rest).
Proof.
  intros Hv. destruct (utf8_encode_bytes v ltac:(lia)) as (b & cs & E & Hc & _ & Hb).
  exists b, (map cont cs). split; [done|]. split; [lia|].
  assert (map cont (map cont cs) = map cont cs) as Ei.
  { rewrite map_map. apply map_ext. intros. unfold cont. dlia. }
  rewrite E. apply decode_encoded; [done| |by rewrite Ei].
  apply List.Forall_map. apply List.Forall_forall. intros i _. unfold cont_byte, cont. dlia.
Qed.

Definition chars_text (l : list Z) : list Z := l ≫= utf8_encode.

Lemma utf8_length_chars fuel n l k :
  Forall (fun v => 0 <= v <= 0x10ffff) l -> (length (chars_text l) < fuel)%nat ->
  utf8_length_loop fuel n (chars_text l) k = Some (k + Z.of_nat (length l)).
Proof.
  intros Hl. revert fuel k. induction Hl as [|v l Hv Hl IH]; intros fuel k Hf.
  - destruct fuel; cbn in *; [lia|]. f_equal. lia.
  - destruct fuel; [lia|]. change (chars_text (v :: l)) with (utf8_encode v ++ chars_text l) in *.
    rewrite length_app in Hf.
    destruct (decide (v < 0x80)) as [Hs|Hs].
    + unfold utf8_encode in *. rewrite (decide_True (P := v < 0x80)) in * by done.
      cbn [length app utf8_length_loop] in *. rewrite decide_True by done.
      rewrite IH by lia. f_equal. lia.
    + destruct (decode_char v (chars_text l) ltac:(lia)) as (b & q & E & Hb & Ed).
      rewrite E in Ed, Hf |- *. cbn [app length utf8_length_loop] in *.
      rewrite decide_False by lia. rewrite Ed. cbn [mbind option_bind].
      rewrite decide_False by lia. rewrite IH by lia. f_equal. lia.
Qed.

Lemma utf8_cpy_chars n dst l :
  Forall (fun v => 0 < v <= 0x10ffff) l ->
  utf8_cpy_loop n dst (chars_text l) = dst ++ chars_text (take n l) ++ [0].
Proof.
  intros Hl. revert n dst. induction Hl as [|v l Hv Hl IH]; intros [|n] dst;
    try (cbn; by rewrite ?app_nil_l).
  change (chars_text (v :: l)) with (utf8_encode v ++ chars_text l).
  change (chars_text (take (S n) (v :: l))) with (utf8_encode v ++ chars_text (take n l)).
  destruct (decide (v < 0x80)) as [Hs|Hs].
  - unfold utf8_encode. rewrite !(decide_True (P := v < 0x80)) by done.
    cbn [app utf8_cpy_loop]. rewrite decide_True, decide_True by lia.
    by rewrite IH, <- app_assoc.
  - destruct (decode_char v (chars_text l) ltac:(lia)) as (b & q & E & Hb & Ed).
    rewrite E in Ed |- *. cbn [app utf8_cpy_loop] in *.
    rewrite decide_False by lia. rewrite Ed. rewrite decide_False by lia.
    rewrite IH, <- app_assoc. f_equal. rewrite app_assoc. f_equal.
    change (b :: q ++ chars_text l) with ((b :: q) ++ chars_text l).
    rewrite length_app. replace (_ + _ - _)%nat with (length (b :: q)) by lia.
    by rewrite take_app_length.
Qed.

(** On the encoding of a list of characters, [ngx_utf8_length] counts them,
    and [ngx_utf8_cpystrn] copies the first [n - 1] of them, whole, and the
    terminating NUL. *)
Theorem utf8_strings l n :
  Forall (fun v => 0 < v <= 0x10ffff) l ->
  ngx_utf8_length (chars_text l) = Some (Z.of_nat (length l))
  /\ ngx_utf8_cpystrn (chars_text l) (S n) = chars_text (take n l) ++ [0].
Proof.
  intros Hl. split; [|by apply (utf8_cpy_chars n [])].
  unfold ngx_utf8_length. apply utf8_length_chars; [|lia].
  eapply List.Forall_impl; [|exact Hl]. cbn. lia.
Qed.

Lemma utf8_strings_witness :
  Forall (fun v => 0 < v <= 0x10ffff) [0x61; 0x20ac; 0x62]
  /\ ngx_utf8_cpystrn (chars_text [0x61; 0x20ac; 0x62]) 3 = [0x61; 0xe2; 0x82; 0xac; 0].
Proof.
  assert (Forall (fun v => 0 < v <= 0x10ffff) [0x61; 0x20ac; 0x62]) as H by by_decide.
  split; [exact H|]. exact (proj2 (utf8_strings _ 2 H)).
Defined.
