(* ===== verification/Escape.v ===== *)
(** * Escaping: ngx_string.c

    [ngx_escape_uri], [ngx_unescape_uri], [ngx_escape_html] and
    [ngx_escape_json].  An escaping function called without a destination only
    counts; the count is a definition of its own.  [ngx_unescape_uri] is also
    given on a memory that source and destination share, as its callers use
    it. *)

From S2P Require Import Prelude Num.

Open Scope ch_scope.

(** ** [ngx_escape_uri] *)

Definition uri : list Z :=
  [0xffffffff; 0xd000002d; 0x50000000; 0xb8000001;
   0xffffffff; 0xffffffff; 0xffffffff; 0xffffffff].

Definition args : list Z :=
  [0xffffffff; 0xd800086d; 0x50000000; 0xb8000001;
   0xffffffff; 0xffffffff; 0xffffffff; 0xffffffff].

Definition uri_component : list Z :=
  [0xffffffff; 0xfc009fff; 0x78000001; 0xb8000001;
   0xffffffff; 0xffffffff; 0xffffffff; 0xffffffff].

Definition html : list Z :=
  [0xffffffff; 0x500000ad; 0x50000000; 0xb8000001;
   0xffffffff; 0xffffffff; 0xffffffff; 0xffffffff].

Definition refresh : list Z :=
  [0xffffffff; 0x50000085; 0x50000000; 0xd8000001;
   0xffffffff; 0xffffffff; 0xffffffff; 0xffffffff].

Definition memcached : list Z := [0xffffffff; 0x00000021; 0; 0; 0; 0; 0; 0].

Definition NGX_ESCAPE_REFRESH : nat := 4.

Definition escape_map : list (list Z) :=
  [uri; args; uri_component; html; refresh; memcached; memcached].

(** [escape[c >> 5] & (1U << (c & 0x1f))] *)
Definition escape_bit (escape : list Z) (c : Z) : bool :=
  bool_decide (Z.land (nth (Z.to_nat (Z.shiftr c 5)) escape 0)
                      (u32 (Z.shiftl 1 (Z.land c 0x1f))) <> 0).

Definition upper_digit (n : Z) : Z := nth (Z.to_nat n) (bstr "0123456789ABCDEF") 0.

(** [dst == NULL]: the number of characters to escape. *)
Fixpoint escape_uri_count (escape src : list Z) : Z :=
  match src with
  | [] => 0
  | c :: src => (if escape_bit escape c then 1 else 0) + escape_uri_count escape src
  end.

Fixpoint escape_uri_copy (escape src : list Z) : list Z :=
  match src with
  | [] => []
  | c :: src =>
      if escape_bit escape c
      then "%" :: upper_digit (Z.shiftr c 4) :: upper_digit (Z.land c 0xf)
           :: escape_uri_copy escape src
      else c :: escape_uri_copy escape src
  end.

Definition ngx_escape_uri (src : list Z) (type : nat) : list Z :=
  escape_uri_copy (nth type escape_map []) src.

Definition ngx_escape_uri_len (src : list Z) (type : nat) : Z :=
  escape_uri_count (nth type escape_map []) src.

(** ** [ngx_unescape_uri] *)

Definition NGX_UNESCAPE_URI : Z := 1.
Definition NGX_UNESCAPE_REDIRECT : Z := 2.

Inductive unescape_state := sw_usual | sw_quoted | sw_quoted_second.

(** What a round of the loop writes: a byte, or [*(s - k)]. *)
Inductive emit := Byte (c : Z) | Back (k : nat).

Definition flag (type f : Z) : bool := bool_decide (Z.land type f <> 0).

(** The value of a hexadecimal digit, in the two ways the code computes it. *)
Definition unescape_digit (ch : Z) : option Z :=
  if decide (ch >= "0" /\ ch <= "9") then Some (ch - "0")
  else
    let c := u8 (Z.lor ch 0x20) in
    if decide (c >= "a" /\ c <= "f") then Some (c - "a" + 10) else None.

(** One round: the output, the new [state] and [decoded], and whether the code
    jumps to [done].  The second digit is tested for a question mark only when
    it is a letter. *)
Definition unescape_step (type : Z) (state : unescape_state) (decoded ch : Z)
  : list emit * unescape_state * Z * bool :=
  match state with
  | sw_usual =>
      if bool_decide (ch = "?")
         && flag type (Z.lor NGX_UNESCAPE_URI NGX_UNESCAPE_REDIRECT)
      then ([Byte ch], sw_usual, decoded, true)
      else if decide (ch = "%") then ([], sw_quoted, decoded, false)
      else ([Byte ch], sw_usual, decoded, false)
  | sw_quoted =>
      match unescape_digit ch with
      | Some d => ([], sw_quoted_second, d, false)
      | None => ([Byte ch], sw_usual, decoded, false)
      end
  | sw_quoted_second =>
      match unescape_digit ch with
      | None => ([], sw_usual, decoded, false)
      | Some d =>
          let letter := negb (bool_decide (ch >= "0" /\ ch <= "9")) in
          let ch := u8 (Z.shiftl decoded 4 + d) in
          if letter && flag type NGX_UNESCAPE_URI then
            ([Byte ch], sw_usual, decoded, bool_decide (ch = "?"))
          else if flag type NGX_UNESCAPE_REDIRECT then
            if letter && bool_decide (ch = "?")
            then ([Byte ch], sw_usual, decoded, true)
            else if decide (ch > "%" /\ ch < 0x7f)
            then ([Byte ch], sw_usual, decoded, false)
            else ([Byte "%"; Back 2; Back 1], sw_usual, decoded, false)
          else ([Byte ch], sw_usual, decoded, false)
      end
  end.

(** The loop when the source is not overwritten: what is written, and the
    source that is left. *)
Definition emit_value (prev ch : Z) (e : emit) : Z :=
  match e with Byte c => c | Back 1 => ch | Back _ => prev end.

Fixpoint unescape_loop (type : Z) (src : list Z) (prev : Z) (state : unescape_state)
    (decoded : Z) : list Z * list Z :=
  match src with
  | [] => ([], [])
  | ch :: src =>
      let '(out, state, decoded, done) := unescape_step type state decoded ch in
      let out := map (emit_value prev ch) out in
      if (done : bool) then (out, src)
      else let '(l, r) := unescape_loop type src ch state decoded in (out ++ l, r)
  end.

Definition ngx_unescape_uri (src : list Z) (type : Z) : list Z * list Z :=
  unescape_loop type src 0 sw_usual 0.

(** The loop on a memory [m] with the positions [d] and [s] of the two
    pointers; [None] is an access outside of the memory. *)
Fixpoint emit_all (m : list Z) (d s : nat) (out : list emit) : option (list Z * nat) :=
  match out with
  | [] => Some (m, d)
  | e :: out =>
      c ← (match e with Byte c => Some c | Back k => m !! (s - k)%nat end);
      if decide (d < length m)%nat then emit_all (<[d := c]> m) (S d) s out else None
  end.

Fixpoint unescape_mem (type : Z) (m : list Z) (d s : nat) (size : nat)
    (state : unescape_state) (decoded : Z) : option (list Z * nat * nat) :=
  match size with
  | O => Some (m, d, s)
  | S size =>
      ch ← m !! s;
      let s := S s in
      let '(out, state, decoded, done) := unescape_step type state decoded ch in
      '(m, d) ← emit_all m d s out;
      if (done : bool) then Some (m, d, s)
      else unescape_mem type m d s size state decoded
  end.

(** The memory after the call, the end of the output and of what was read. *)
Definition ngx_unescape_uri_mem (m : list Z) (dst src size : nat) (type : Z)
  : option (list Z * nat * nat) :=
  unescape_mem type m dst src size sw_usual 0.

(** ** [ngx_escape_html] *)

Definition html_entity (ch : Z) : option (list Z) :=
  if decide (ch = "<") then Some (bstr "&lt;")
  else if decide (ch = ">") then Some (bstr "&gt;")
  else if decide (ch = "&") then Some (bstr "&amp;")
  else if decide (ch = 34) then Some (bstr "&quot;")
  else None.

(** The growth that the counting pass adds for a character. *)
Definition html_growth (ch : Z) : Z :=
  if decide (ch = "<") then 5 - 2
  else if decide (ch = ">") then 5 - 2
  else if decide (ch = "&") then 6 - 2
  else if decide (ch = 34) then 7 - 2
  else 0.

Fixpoint ngx_escape_html_len (src : list Z) : Z :=
  match src with
  | [] => 0
  | ch :: src => html_growth ch + ngx_escape_html_len src
  end.

Fixpoint ngx_escape_html (src : list Z) : list Z :=
  match src with
  | [] => []
  | ch :: src =>
      (match html_entity ch with Some e => e | None => [ch] end) ++ ngx_escape_html src
  end.

(** ** [ngx_escape_json] *)

Definition json_short (ch : Z) : option Z :=
  if decide (ch = 10) then Some ("n" : Z)
  else if decide (ch = 13) then Some ("r" : Z)
  else if decide (ch = 9) then Some ("t" : Z)
  else if decide (ch = 8) then Some ("b" : Z)
  else if decide (ch = 12) then Some ("f" : Z)
  else None.

Definition json_growth (ch : Z) : Z :=
  if decide (ch = 92 \/ ch = 34) then 1
  else if decide (ch <= 0x1f) then
    match json_short ch with Some _ => 1 | None => 7 - 2 end
  else 0.

Fixpoint ngx_escape_json_len (src : list Z) : Z :=
  match src with
  | [] => 0
  | ch :: src => json_growth ch + ngx_escape_json_len src
  end.

Definition json_char (ch : Z) : list Z :=
  if decide (ch > 0x1f) then
    if decide (ch = 92 \/ ch = 34) then [92; ch] else [ch]
  else
    match json_short ch with
    | Some c => [92; c]
    | None =>
        let lo := Z.land ch 0xf in
        [92; "u" : Z; "0" : Z; "0" : Z; u8 ("0" + Z.shiftr ch 4);
         u8 (if decide (lo < 10) then "0" + lo else "A" + lo - 10)]
    end.

Fixpoint ngx_escape_json (src : list Z) : list Z :=
  match src with
  | [] => []
  | ch :: src => json_char ch ++ ngx_escape_json src
  end.

Example escape_1 : ngx_escape_uri (bstr "a b%?") 0 = bstr "a%20b%25%3F".
Proof. reflexivity. Qed.
Example escape_2 : ngx_unescape_uri (bstr "a%20b%zz?x") 1 = (bstr "a bzz?", bstr "x").
Proof. reflexivity. Qed.
Example escape_3 : ngx_escape_json [97; 34; 10; 1] = [97; 92; 34; 92; 110] ++ bstr "\u0001".
Proof. reflexivity. Qed.

(** ** The counting pass and the copying pass agree *)

Lemma escape_uri_count_ok escape src :
  Z.of_nat (length (escape_uri_copy escape src))
  = Z.of_nat (length src) + 2 * escape_uri_count escape src.
Proof.
  induction src as [|c src IH]; [done|]. cbn [escape_uri_copy escape_uri_count].
  destruct (escape_bit escape c); cbn [length]; lia.
Qed.

Lemma escape_html_len_ok src :
  Z.of_nat (length (ngx_escape_html src)) = Z.of_nat (length src) + ngx_escape_html_len src.
Proof.
  induction src as [|c src IH]; [done|]. cbn [ngx_escape_html ngx_escape_html_len length].
  rewrite length_app. unfold html_entity, html_growth.
  repeat case_decide; change (length (bstr "&lt;")) with 4%nat in *;
    change (length (bstr "&gt;")) with 4%nat in *;
    change (length (bstr "&amp;")) with 5%nat in *;
    change (length (bstr "&quot;")) with 6%nat in *; cbn [length] in *; lia.
Qed.

Lemma json_growth_ok ch :
  is_byte ch -> Z.of_nat (length (json_char ch)) = 1 + json_growth ch.
Proof. intros H. byte_sweep ch H. Qed.

Lemma escape_json_len_ok src :
  bytes src ->
  Z.of_nat (length (ngx_escape_json src)) = Z.of_nat (length src) + ngx_escape_json_len src.
Proof.
  induction 1 as [|c src Hc Hs IH]; [done|].
  cbn [ngx_escape_json ngx_escape_json_len length]. rewrite length_app.
  pose proof (json_growth_ok c Hc). lia.
Qed.

(** each of the three escaping functions, called with a destination, writes
    exactly the number of bytes that its counting pass announces, so that a
    buffer sized by that pass is filled and not overrun. *)
Theorem escape_lengths src type :
  bytes src ->
  Z.of_nat (length (ngx_escape_uri src type))
    = Z.of_nat (length src) + 2 * ngx_escape_uri_len src type
  /\ Z.of_nat (length (ngx_escape_html src))
     = Z.of_nat (length src) + ngx_escape_html_len src
  /\ Z.of_nat (length (ngx_escape_json src))
     = Z.of_nat (length src) + ngx_escape_json_len src.
Proof.
  intros Hs. split; [apply escape_uri_count_ok|].
  split; [apply escape_html_len_ok|by apply escape_json_len_ok].
Qed.

Lemma escape_lengths_witness :
  bytes (bstr "<a b>") /\
  Z.of_nat (length (ngx_escape_html (bstr "<a b>"))) = 5 + ngx_escape_html_len (bstr "<a b>").
Proof.
  assert (bytes (bstr "<a b>")) as H by by_decide. split; [exact H|].
  exact (proj1 (proj2 (escape_lengths (bstr "<a b>") 0 H))).
Defined.

(** ** Round trip of URIs *)

Lemma escape_bit_percent type :
  (type < 7)%nat -> type <> NGX_ESCAPE_REFRESH ->
  escape_bit (nth type escape_map []) "%" = true.
Proof.
  intros H Hr. unfold NGX_ESCAPE_REFRESH in Hr.
  do 7 (destruct type as [|type]; [by vm_compute|]). lia.
Qed.

Lemma hex_digits_back c :
  is_byte c ->
  unescape_digit (upper_digit (Z.shiftr c 4)) = Some (c / 16)
  /\ unescape_digit (upper_digit (Z.land c 0xf)) = Some (c mod 16)
  /\ u8 (Z.shiftl (c / 16) 4 + c mod 16) = c.
Proof. intros H. byte_sweep c H. Qed.

Lemma unescape_plain c src prev decoded :
  c <> "%" ->
  unescape_loop 0 (c :: src) prev sw_usual decoded
  = let '(l, r) := unescape_loop 0 src c sw_usual decoded in (c :: l, r).
Proof.
  intros H. cbn [unescape_loop unescape_step]. change (flag 0 _) with false.
  rewrite andb_false_r, decide_False by done. cbn [map emit_value app].
  by destruct (unescape_loop _ _ _ _ _).
Qed.

Lemma unescape_quoted c src prev decoded :
  is_byte c ->
  unescape_loop 0 ("%" :: upper_digit (Z.shiftr c 4) :: upper_digit (Z.land c 0xf) :: src)
    prev sw_usual decoded
  = let '(l, r) := unescape_loop 0 src (upper_digit (Z.land c 0xf)) sw_usual (c / 16) in
    (c :: l, r).
Proof.
  intros H. destruct (hex_digits_back c H) as (E1 & E2 & E3).
  cbn [unescape_loop unescape_step]. change (flag 0 _) with false. rewrite andb_false_r.
  rewrite decide_True by done. cbn [unescape_loop unescape_step map]. rewrite E1.
  cbn [unescape_loop unescape_step map]. rewrite E2, E3.
  change (flag 0 NGX_UNESCAPE_URI) with false. change (flag 0 NGX_UNESCAPE_REDIRECT) with false.
  rewrite andb_false_r. cbn [map emit_value app].
  by destruct (unescape_loop _ _ _ _ _).
Qed.

Lemma unescape_escaped escape src prev decoded :
  escape_bit escape "%" = true -> bytes src ->
  unescape_loop 0 (escape_uri_copy escape src) prev sw_usual decoded = (src, []).
Proof.
  intros He H. revert prev decoded.
  induction H as [|c src Hc Hs IH]; intros prev decoded; [done|]. cbn [escape_uri_copy].
  destruct (escape_bit escape c) eqn:E.
  - by rewrite unescape_quoted, IH.
  - rewrite unescape_plain, IH; [done|]. intros ->. congruence.
Qed.

(** [ngx_unescape_uri] without flags inverts [ngx_escape_uri] for every
    byte string and every type but the one for refresh headers, which leaves a
    percent sign alone. *)
Theorem uri_roundtrip src type :
  bytes src -> (type < 7)%nat -> type <> NGX_ESCAPE_REFRESH ->
  ngx_unescape_uri (ngx_escape_uri src type) 0 = (src, []).
Proof. intros Hs Ht Hr. apply unescape_escaped; [by apply escape_bit_percent|done]. Qed.

Lemma uri_roundtrip_witness :
  ngx_unescape_uri (ngx_escape_uri (bstr "100% a/b?c") 2) 0 = (bstr "100% a/b?c", []).
Proof.
  refine (uri_roundtrip (bstr "100% a/b?c") 2 _ _ _); [by_decide|lia|discriminate].
Defined.

(** The last word of the table for refresh headers does not have the bits of
    its comment: it escapes the tilde and leaves the closing brace. *)
Example refresh_table :
  ngx_escape_uri (bstr "~}") 4 = bstr "%7E}" /\ ngx_escape_uri (bstr "~}") 0 = bstr "~%7D".
Proof. split; reflexivity. Qed.

(** ** Unescaping in place *)

Lemma emit_write (A : list Z) b B R c :
  <[length A := c]> (A ++ b :: B ++ R) = (A ++ [c]) ++ B ++ R.
Proof.
  rewrite insert_app_r_alt by lia. rewrite Nat.sub_diag. cbn. by rewrite <- app_assoc.
Qed.

Lemma emit_byte (A : list Z) B R s c :
  B <> [] ->
  exists B1, S (length B1) = length B /\
    emit_all (A ++ B ++ R) (length A) s [Byte c] = Some ((A ++ [c]) ++ B1 ++ R, S (length A)).
Proof.
  intros H. destruct B as [|b B]; [done|]. exists B. split; [done|].
  cbn [emit_all mbind option_bind]. rewrite decide_True by (rewrite length_app; cbn; lia).
  cbn [app]. by rewrite emit_write.
Qed.

Lemma lookup_gap (A B R : list Z) (x : Z) :
  (A ++ B ++ x :: R) !! (length A + length B)%nat = Some x.
Proof.
  rewrite lookup_app_r by lia. rewrite lookup_app_r by lia.
  replace (_ - _ - _)%nat with 0%nat by lia. done.
Qed.

(** The three bytes of a sequence that is kept. *)
Lemma emit_kept (A : list Z) B R x ch :
  (2 <= length B)%nat -> list.last B = Some x ->
  exists B1, (3 + length B1 = length B + 1)%nat /\
    emit_all (A ++ B ++ ch :: R) (length A) (S (length A + length B)) [Byte "%"; Back 2; Back 1]
    = Some ((A ++ ["%"; x; ch]) ++ B1 ++ R, (3 + length A)%nat).
Proof.
  intros HB Hl. apply last_Some in Hl. destruct Hl as [B0 ->].
  rewrite length_app in HB. cbn [length] in HB. destruct B0 as [|b B0]; [cbn in HB; lia|].
  cbn [emit_all mbind option_bind].
  rewrite decide_True by (rewrite !length_app; cbn; lia).
  change ((b :: B0) ++ [x]) with (b :: B0 ++ [x]). cbn [app]. rewrite emit_write.
  replace (S (length A + length (b :: B0 ++ [x])) - 2)%nat
    with (length (A ++ [37%Z]) + length B0)%nat by (cbn; rewrite !length_app; cbn; lia).
  rewrite <- (app_assoc B0 [x]). cbn [app]. rewrite lookup_gap. cbn [mbind option_bind].
  rewrite decide_True by (rewrite !length_app; cbn; lia).
  assert (exists y B1, B0 ++ [x] = y :: B1 /\ length B1 = length B0) as (y & B1 & E & El).
  { destruct B0 as [|y B0]; [exists x, []; done|]. exists y, (B0 ++ [x]).
    split; [done|]. rewrite length_app. cbn. lia. }
  replace (S (length A)) with (length (A ++ [37%Z])) by (rewrite length_app; cbn; lia).
  change (B0 ++ x :: ch :: R) with (B0 ++ [x] ++ ch :: R). rewrite (app_assoc B0), E.
  cbn [app]. rewrite emit_write.
  replace (S (length A + length (b :: y :: B1)) - 1)%nat
    with (length ((A ++ [37%Z]) ++ [x]) + length B1)%nat by (cbn; rewrite !length_app; cbn; lia).
  rewrite lookup_gap. cbn [mbind option_bind].
  rewrite decide_True by (rewrite !length_app; cbn; lia).
  assert (exists z B2, B1 ++ [ch] = z :: B2 /\ length B2 = length B1) as (z & B2 & E2 & El2).
  { destruct B1 as [|z B1]; [exists ch, []; done|]. exists z, (B1 ++ [ch]).
    split; [done|]. rewrite length_app. cbn. lia. }
  replace (S (length (A ++ [37%Z]))) with (length ((A ++ [37%Z]) ++ [x]))
    by (rewrite !length_app; cbn; lia).
  change (B1 ++ ch :: R) with (B1 ++ [ch] ++ R). rewrite (app_assoc B1), E2.
  cbn [app]. rewrite emit_write. exists B2. split.
  - cbn. lia.
  - rewrite <- !app_assoc. cbn [app]. do 2 f_equal. rewrite !length_app. cbn. lia.
Qed.

(** Bytes that were read and are not yet written, at least. *)
Definition lag (state : unescape_state) : nat :=
  match state with sw_usual => 0 | sw_quoted => 1 | sw_quoted_second => 2 end.

Lemma step_cases type state decoded ch out state' decoded' done :
  unescape_step type state decoded ch = (out, state', decoded', done) ->
  (out = [] /\ (lag state' <= S (lag state))%nat)
  \/ (exists c, out = [Byte c] /\ state' = sw_usual)
  \/ (state = sw_quoted_second /\ out = [Byte "%"; Back 2; Back 1] /\ state' = sw_usual).
Proof.
  unfold unescape_step. destruct state.
  - destruct (_ && _); [intros [= <- <- <- <-]; eauto|].
    case_decide; intros [= <- <- <- <-]; cbn; eauto with lia.
  - destruct (unescape_digit ch); intros [= <- <- <- <-]; cbn; eauto with lia.
  - destruct (unescape_digit ch); [|intros [= <- <- <- <-]; cbn; eauto with lia].
    destruct (_ && _); [intros [= <- <- <- <-]; eauto|].
    destruct (flag type NGX_UNESCAPE_REDIRECT); [|intros [= <- <- <- <-]; eauto].
    destruct (_ && _); [intros [= <- <- <- <-]; eauto|].
    case_decide; intros [= <- <- <- <-]; eauto 10.
Qed.

(** The output of one round, on a memory whose bytes from [length A] to the
    source pointer are free. *)
Lemma emit_step type state decoded ch out state' decoded' done A B R prev :
  unescape_step type state decoded ch = (out, state', decoded', done) ->
  (lag state <= length B)%nat -> (lag state <> 0%nat -> list.last B = Some prev) ->
  exists B1,
    emit_all (A ++ B ++ ch :: R) (length A) (S (length A + length B)) out
      = Some ((A ++ map (emit_value prev ch) out) ++ B1 ++ R,
              length (A ++ map (emit_value prev ch) out))
    /\ (length out + length B1 = S (length B))%nat
    /\ (lag state' <= length B1)%nat
    /\ (lag state' <> 0%nat -> list.last B1 = Some ch).
Proof.
  intros Hs HB Hl.
  destruct (step_cases _ _ _ _ _ _ _ _ Hs) as [[-> Hlag]|[(c & -> & ->)|(-> & -> & ->)]].
  - exists (B ++ [ch]). cbn [emit_all map]. rewrite !app_nil_r, <- app_assoc, length_app.
    cbn. split; [done|]. split; [lia|]. split; [lia|]. intros _. by rewrite last_snoc.
  - destruct (emit_byte A (B ++ [ch]) R (S (length A + length B)) c) as (B1 & El & E).
    { by destruct B. }
    exists B1. rewrite <- app_assoc in E. cbn [app] in E. rewrite E.
    rewrite length_app in El. cbn in *. rewrite length_app. cbn.
    split; [by rewrite Nat.add_1_r|]. split; [lia|]. split; [lia|done].
  - cbn [lag] in *. destruct (emit_kept A B R prev ch HB (Hl ltac:(lia))) as (B1 & El & E).
    exists B1. rewrite E. cbn [map emit_value length lag]. rewrite length_app. cbn [length].
    split; [by rewrite Nat.add_comm|]. split; [lia|]. split; [lia|done].
Qed.

Lemma unescape_mem_ok type src post :
  forall A B state decoded prev,
  (lag state <= length B)%nat -> (lag state <> 0%nat -> list.last B = Some prev) ->
  let '(out, rest) := unescape_loop type src prev state decoded in
  exists B1,
    unescape_mem type (A ++ B ++ src ++ post) (length A) (length A + length B) (length src)
      state decoded
    = Some ((A ++ out) ++ B1 ++ rest ++ post, length (A ++ out),
            (length (A ++ out) + length B1)%nat)
    /\ (length out + length B1 + length rest = length B + length src)%nat.
Proof.
  induction src as [|ch src IH]; intros A B state decoded prev HB Hl.
  { cbn. exists B. rewrite !app_nil_r. split; [done|]. cbn. lia. }
  cbn [unescape_loop].
  destruct (unescape_step type state decoded ch) as [[[out state'] decoded'] done] eqn:Hs.
  destruct (emit_step _ _ _ _ _ _ _ _ A B (src ++ post) prev Hs HB Hl)
    as (B1 & E & El & HB1 & Hl1).
  set (o := map (emit_value prev ch) out) in *.
  assert (length o = length out) as Eo by (unfold o; by rewrite length_map).
  assert (forall r, unescape_mem type (A ++ B ++ (ch :: src) ++ post) (length A)
            (length A + length B) (length (ch :: src)) state decoded = r <->
          (if (done : bool)
           then Some ((A ++ o) ++ B1 ++ src ++ post, length (A ++ o),
                      S (length A + length B))
           else unescape_mem type ((A ++ o) ++ B1 ++ src ++ post) (length (A ++ o))
                  (S (length A + length B)) (length src) state' decoded') = r) as Hstep.
  { intros r. cbn [unescape_mem length app]. rewrite lookup_gap. cbn [mbind option_bind].
    rewrite Hs, E. done. }
  assert (S (length A + length B) = length (A ++ o) + length B1)%nat as Es
    by (rewrite length_app; lia).
  destruct done.
  - exists B1. rewrite Hstep, Es. split; [done|]. cbn. lia.
  - rewrite Es in Hstep. specialize (IH (A ++ o) B1 state' decoded' ch HB1 Hl1).
    destruct (unescape_loop type src ch state' decoded') as [l r].
    destruct IH as (B2 & E2 & El2). exists B2. rewrite Hstep, E2.
    rewrite <- !(app_assoc A), !length_app. split; [by rewrite !Nat.add_assoc|].
    cbn. lia.
Qed.

(** C34: unescaping in place is safe and is what unescaping into another buffer
    gives: when the destination starts at or before the source in one memory,
    every access is inside of it, the bytes before the destination and the
    source that is left are untouched, and the output stops before the rest. *)
Theorem unescape_in_place type pre gap src post :
  let '(out, rest) := ngx_unescape_uri src type in
  exists gap',
    ngx_unescape_uri_mem (pre ++ gap ++ src ++ post) (length pre)
      (length pre + length gap) (length src) type
    = Some ((pre ++ out) ++ gap' ++ rest ++ post, length (pre ++ out),
            (length (pre ++ out) + length gap')%nat)
    /\ (length out + length gap' + length rest = length gap + length src)%nat.
Proof.
  pose proof (unescape_mem_ok type src post pre gap sw_usual 0 0) as H.
  apply H; cbn; [lia|done].
Qed.
