(* ===== verification/Chunked.v ===== *)
(** * Chunked transfer coding

    The state machine [ngx_http_parse_chunked] of ngx_http_parse.c, the filter
    of ngx_http_request_body.c that takes a chunked request body apart in
    place, the filter that discards one, and the body filter of
    ngx_http_chunked_filter_module.c that writes the coding. *)

From S2P Require Import Prelude Num Sprintf.

Open Scope ch_scope.


(** ** The parser *)

Inductive ck_state :=
  | sw_chunk_start | sw_chunk_size | sw_chunk_extension | sw_chunk_extension_almost_done
  | sw_chunk_data | sw_after_data | sw_after_data_almost_done
  | sw_last_chunk_extension | sw_last_chunk_extension_almost_done
  | sw_trailer | sw_trailer_almost_done | sw_trailer_header | sw_trailer_header_almost_done.

#[global] Instance ck_state_eq_dec : EqDecision ck_state.
Proof. solve_decision. Defined.

Record ngx_http_chunked_t := Ck { ck_st : ck_state; ck_size : Z; ck_length : Z }.

(** What a round of the [for] loop does: go on in a state with a size, or one
    of the three [goto]s; the size is stored in the context at once. *)
Inductive ck_step :=
  | Next (state : ck_state) (size : Z) | Goto_data | Goto_done | Goto_invalid.

(** The two tests for a hexadecimal digit. *)
Definition ck_digit (ch : Z) : option Z :=
  if decide (ch >= "0" /\ ch <= "9") then Some (ch - "0")
  else
    let c := u8 (Z.lor ch 0x20) in
    if decide (c >= "a" /\ c <= "f") then Some (c - "a" + 10) else None.

(** [keep_trailers] at the end of the last chunk's line. *)
Definition last_line (keep_trailers : bool) (size : Z) : ck_step :=
  if keep_trailers then Goto_done else Next sw_trailer size.

Definition chunk_step (keep_trailers : bool) (state : ck_state) (size ch : Z) : ck_step :=
  match state with
  | sw_chunk_start =>
      match ck_digit ch with
      | Some d => Next sw_chunk_size d
      | None => Goto_invalid
      end
  | sw_chunk_size =>
      if decide (size > NGX_MAX_OFF_T_VALUE / 16) then Goto_invalid
      else
        match ck_digit ch with
        | Some d => Next sw_chunk_size (size * 16 + d)
        | None =>
            if decide (size = 0) then
              if decide (ch = CR) then Next sw_last_chunk_extension_almost_done size
              else if decide (ch = LF) then last_line keep_trailers size
              else if decide (ch = ";" \/ ch = " " \/ ch = 9)
              then Next sw_last_chunk_extension size
              else Goto_invalid
            else if decide (ch = CR) then Next sw_chunk_extension_almost_done size
            else if decide (ch = LF) then Next sw_chunk_data size
            else if decide (ch = ";" \/ ch = " " \/ ch = 9) then Next sw_chunk_extension size
            else Goto_invalid
        end
  | sw_chunk_extension =>
      if decide (ch = CR) then Next sw_chunk_extension_almost_done size
      else if decide (ch = LF) then Next sw_chunk_data size
      else Next state size
  | sw_chunk_extension_almost_done =>
      if decide (ch = LF) then Next sw_chunk_data size else Goto_invalid
  | sw_chunk_data => Goto_data
  | sw_after_data =>
      if decide (ch = CR) then Next sw_after_data_almost_done size
      else if decide (ch = LF) then Next sw_chunk_start size
      else Goto_invalid
  | sw_after_data_almost_done =>
      if decide (ch = LF) then Next sw_chunk_start size else Goto_invalid
  | sw_last_chunk_extension =>
      if decide (ch = CR) then Next sw_last_chunk_extension_almost_done size
      else if decide (ch = LF) then last_line keep_trailers size
      else Next state size
  | sw_last_chunk_extension_almost_done =>
      if decide (ch = LF) then last_line keep_trailers size else Goto_invalid
  | sw_trailer =>
      if decide (ch = CR) then Next sw_trailer_almost_done size
      else if decide (ch = LF) then Goto_done
      else Next sw_trailer_header size
  | sw_trailer_almost_done => if decide (ch = LF) then Goto_done else Goto_invalid
  | sw_trailer_header =>
      if decide (ch = CR) then Next sw_trailer_header_almost_done size
      else if decide (ch = LF) then Next sw_trailer size
      else Next state size
  | sw_trailer_header_almost_done =>
      if decide (ch = LF) then Next sw_trailer size else Goto_invalid
  end.

(** How the loop over the buffer ends: at the label [data] with the value of
    [rc], or at [done], or at [invalid]; with the bytes from [pos] on. *)
Inductive ck_end :=
  | At_data (rc : Z) (state : ck_state) (size : Z) (rest : list Z)
  | At_done (size : Z) (rest : list Z)
  | At_invalid (size : Z).

Fixpoint chunk_loop (keep_trailers : bool) (state : ck_state) (size : Z) (buf : list Z)
  : ck_end :=
  match buf with
  | [] => At_data NGX_AGAIN state size []
  | ch :: q =>
      match chunk_step keep_trailers state size ch with
      | Next state size => chunk_loop keep_trailers state size q
      | Goto_data => At_data NGX_OK state size (ch :: q)
      | Goto_done => At_done size q
      | Goto_invalid => At_invalid size
      end
  end.

(** The [switch] that sets [ctx->length]. *)
Definition chunk_length (state : ck_state) (size : Z) : Z :=
  match state with
  | sw_chunk_start => 3
  | sw_chunk_size => 1 + (if decide (size <> 0) then size + 4 else 1)
  | sw_chunk_extension | sw_chunk_extension_almost_done => 1 + size + 4
  | sw_chunk_data => size + 4
  | sw_after_data | sw_after_data_almost_done => 4
  | sw_last_chunk_extension | sw_last_chunk_extension_almost_done => 2
  | sw_trailer | sw_trailer_almost_done => 1
  | sw_trailer_header | sw_trailer_header_almost_done => 2
  end.

(** The return code, the context and the bytes from [b->pos] on; [buf] are the
    bytes from [b->pos] to [b->last] before the call. *)
Definition ngx_http_parse_chunked (ctx : ngx_http_chunked_t) (keep_trailers : bool)
    (buf : list Z) : Z * ngx_http_chunked_t * list Z :=
  let state :=
    if decide (ck_st ctx = sw_chunk_data /\ ck_size ctx = 0) then sw_after_data
    else ck_st ctx in
  match chunk_loop keep_trailers state (ck_size ctx) buf with
  | At_data rc state size rest =>
      if decide (size > NGX_MAX_OFF_T_VALUE - 5)
      then (NGX_ERROR, Ck state size (ck_length ctx), rest)
      else (rc, Ck state size (chunk_length state size), rest)
  | At_done size rest => (NGX_DONE, Ck sw_chunk_start size (ck_length ctx), rest)
  | At_invalid size => (NGX_ERROR, Ck (ck_st ctx) size (ck_length ctx), buf)
  end.

(** [ngx_pcalloc] *)
Definition chunked_zero : ngx_http_chunked_t := Ck sw_chunk_start 0 0.

(** ** The filter of the request body *)

(** An input buffer: its memory and the offsets of [pos] and [last]. *)
Record in_buf := InBuf { ib_mem : list Z; ib_pos : nat; ib_last : nat }.

Definition buf_bytes (m : list Z) (pos last : nat) : list Z := take (last - pos) (drop pos m).

(** The request fields that the filter works on. *)
Record body_req := BodyReq {
  br_chunked : ngx_http_chunked_t;
  br_content_length_n : Z;
  br_rest : Z
}.

(** [ngx_memmove] inside of the buffer, byte by byte when it is short. *)
Definition mem_move (m : list Z) (dst src size : nat) : list Z :=
  take dst m ++ take size (drop src m) ++ drop (dst + size) m.

Fixpoint copy_bytes (m : list Z) (dst src size : nat) : list Z :=
  match size with
  | O => m
  | S n => copy_bytes (<[dst := default 0 (m !! src)]> m) (S dst) (S src) n
  end.

(** An output buffer points into the memory of an input buffer. *)
Record out_buf := OutBuf { ob_pos : nat; ob_last : nat }.

Inductive filter_res :=
  | Filtered (req : body_req) (m : list Z) (pos : nat) (out : list out_buf) (last_buf : bool)
  | Refused (code : Z)
  | Out_of_fuel.

Definition NGX_HTTP_BAD_REQUEST : Z := 400.
Definition NGX_HTTP_REQUEST_ENTITY_TOO_LARGE : Z := 413.

(** A new output buffer that points to the data of a chunk at [pos]: the memory,
    [pos], [ctx->size], [content_length_n] and the output buffers made from this
    input buffer. *)
Definition new_out_buf (ctx : ngx_http_chunked_t) (n : Z) (m : list Z) (pos last : nat)
    (out : list out_buf) : list Z * nat * Z * Z * list out_buf :=
  let size := Z.of_nat (last - pos) in
  if decide (size > ck_size ctx) then
    let pos' := (pos + Z.to_nat (ck_size ctx))%nat in
    (m, pos', 0, n + ck_size ctx, out ++ [OutBuf pos pos'])
  else (m, last, ck_size ctx - size, n + size, out ++ [OutBuf pos last]).

(** The data of a chunk at [pos], after [NGX_OK]: short data is moved to the end
    of the output buffer [b], if there is one. *)
Definition take_chunk (ctx : ngx_http_chunked_t) (n : Z) (m : list Z) (pos last : nat)
    (out : list out_buf) : list Z * nat * Z * Z * list out_buf :=
  let csize := ck_size ctx in
  match list.last out with
  | Some b =>
      if decide (csize <= 128 /\ Z.of_nat (last - pos) >= csize) then
        let k := Z.to_nat csize in
        let m :=
          if decide (csize < 8) then copy_bytes m (ob_last b) pos k
          else mem_move m (ob_last b) pos k in
        (m, (pos + k)%nat, 0, n + csize,
         removelast out ++ [OutBuf (ob_pos b) (ob_last b + k)])
      else new_out_buf ctx n m pos last out
  | None => new_out_buf ctx n m pos last out
  end.

(** The configuration: [client_max_body_size] and the size of the
    [large_client_header_buffers]. *)
Record body_conf := BodyConf { bc_max_body_size : Z; bc_header_size : Z }.

(** The inner [for ( ;; )] loop on one input buffer; every round but the last
    consumes a byte. *)
Fixpoint chunked_filter_loop (fuel : nat) (conf : body_conf) (req : body_req)
    (m : list Z) (pos last : nat) (out : list out_buf) : filter_res :=
  match fuel with
  | O => Out_of_fuel
  | S fuel =>
      let '(rc, ctx, rest) :=
        ngx_http_parse_chunked (br_chunked req) false (buf_bytes m pos last) in
      let pos := (last - length rest)%nat in
      let n := br_content_length_n req in
      if decide (rc = NGX_OK) then
        if decide (bc_max_body_size conf <> 0 /\ bc_max_body_size conf - n < ck_size ctx)
        then Refused NGX_HTTP_REQUEST_ENTITY_TOO_LARGE
        else
          let '(m, pos, csize, n, out) := take_chunk ctx n m pos last out in
          chunked_filter_loop fuel conf
            (BodyReq (Ck (ck_st ctx) csize (ck_length ctx)) n (br_rest req)) m pos last out
      else if decide (rc = NGX_DONE) then Filtered (BodyReq ctx n 0) m pos out true
      else if decide (rc = NGX_AGAIN) then
        Filtered (BodyReq ctx n (Z.max (ck_length ctx) (bc_header_size conf))) m pos out false
      else Refused NGX_HTTP_BAD_REQUEST
  end.

(** The [for] loop over the chain: for each input buffer its memory afterwards
    and the output buffers that point into it, and whether the last buffer of
    the body follows. *)
Fixpoint chunked_filter_chain (conf : body_conf) (req : body_req) (bufs : list in_buf)
  : option (body_req * list (list Z * list out_buf * bool)) + Z :=
  match bufs with
  | [] => inl (Some (req, []))
  | b :: bufs =>
      match chunked_filter_loop (S (ib_last b - ib_pos b)) conf req
              (ib_mem b) (ib_pos b) (ib_last b) [] with
      | Out_of_fuel => inl None
      | Refused code => inr code
      | Filtered req m pos out last_buf =>
          match chunked_filter_chain conf req bufs with
          | inl (Some (req, l)) => inl (Some (req, (m, out, last_buf) :: l))
          | r => r
          end
      end
  end.

Definition ngx_http_request_body_chunked_filter (conf : body_conf) (req : body_req)
    (bufs : list in_buf) : option (body_req * list (list Z * list out_buf * bool)) + Z :=
  let req :=
    if decide (br_rest req = -1) then BodyReq chunked_zero 0 (bc_header_size conf) else req in
  chunked_filter_chain conf req bufs.

(** The chunked branch of [ngx_http_discard_request_body_filter]: the context,
    [content_length_n] and [pos] at the end. *)
Fixpoint discard_loop (fuel : nat) (hdr_size : Z) (ctx : ngx_http_chunked_t)
    (buf : list Z) : option (ngx_http_chunked_t * Z * list Z + Z) :=
  match fuel with
  | O => None
  | S fuel =>
      let '(rc, ctx, buf) := ngx_http_parse_chunked ctx false buf in
      if decide (rc = NGX_OK) then
        let size := Z.of_nat (length buf) in
        if decide (size > ck_size ctx) then
          discard_loop fuel hdr_size (Ck (ck_st ctx) 0 (ck_length ctx))
            (drop (Z.to_nat (ck_size ctx)) buf)
        else
          discard_loop fuel hdr_size (Ck (ck_st ctx) (ck_size ctx - size) (ck_length ctx)) []
      else if decide (rc = NGX_DONE) then Some (inl (ctx, 0, buf))
      else if decide (rc = NGX_AGAIN) then
        Some (inl (ctx, Z.max (ck_length ctx) hdr_size, buf))
      else Some (inr NGX_HTTP_BAD_REQUEST)
  end.

Definition ngx_http_discard_request_body_filter (chunked : bool) (hdr_size : Z)
    (ctx : ngx_http_chunked_t) (content_length_n : Z) (buf : list Z)
  : option (ngx_http_chunked_t * Z * list Z + Z) :=
  if chunked then discard_loop (S (length buf)) hdr_size ctx buf
  else
    let size := Z.of_nat (length buf) in
    if decide (size > content_length_n)
    then Some (inl (ctx, 0, drop (Z.to_nat content_length_n) buf))
    else Some (inl (ctx, content_length_n - size, [])).

(** ** The filter of the response body *)

(** An input buffer: the bytes it stands for and the flags that are read. *)
Record resp_buf := RespBuf { rs_data : list Z; rs_flush_sync : bool; rs_last_buf : bool }.

(** A trailer header: its [hash], key and value. *)
Record trailer := Trailer { tr_hash : Z; tr_key : list Z; tr_value : list Z }.

Definition trailer_line (t : trailer) : list Z :=
  if decide (tr_hash t = 0) then []
  else tr_key t ++ bstr ": " ++ tr_value t ++ [CR; LF].

(** [ngx_http_chunked_create_trailers]: the contents of the buffer. *)
Definition ngx_http_chunked_create_trailers (trailers : list trailer) : list Z :=
  let lines := concat (map trailer_line trailers) in
  if decide (length lines = 0%nat) then [CR; LF; "0" : Z; CR; LF; CR; LF]
  else [CR; LF; "0" : Z; CR; LF] ++ lines ++ [CR; LF].

(** [ngx_http_chunked_body_filter]: the contents of the chain that is passed on;
    allocations succeed.  An input buffer that is neither in memory nor in a
    file is skipped, and has no data. *)
Definition ngx_http_chunked_body_filter (trailers : list trailer) (bufs : list resp_buf)
  : option (list (list Z)) :=
  let size := fold_left (fun n b => n + Z.of_nat (length (rs_data b))) bufs 0 in
  let out :=
    map rs_data (filter (fun b => rs_flush_sync b || bool_decide (rs_data b <> [])) bufs) in
  head ← (if decide (size <> 0)
          then b ← ngx_sprintf (bstr "%xO" ++ [CR; LF]) [AInt size]; Some [b]
          else Some []);
  let tail :=
    if match list.last bufs with Some b => rs_last_buf b | None => false end then
      let t := ngx_http_chunked_create_trailers trailers in
      [if decide (size = 0) then drop 2 t else t]
    else if decide (size > 0) then [[CR; LF]]
    else [] in
  Some (head ++ out ++ tail).

Example chunked_1 :
  ngx_http_parse_chunked chunked_zero false (bstr "1a;x" ++ [CR; LF] ++ bstr "data")
  = (NGX_OK, Ck sw_chunk_data 26 30, bstr "data").
Proof. vm_compute. reflexivity. Qed.

Example chunked_2 :
  ngx_http_chunked_body_filter [] [RespBuf (bstr "hello") false false; RespBuf [] false true]
  = Some [bstr "5" ++ [CR; LF]; bstr "hello";
          [CR; LF; "0" : Z; CR; LF; CR; LF]].
Proof. vm_compute. reflexivity. Qed.

Definition chunked_text : list Z :=
  bstr "5" ++ [CR; LF] ++ bstr "hello" ++ [CR; LF] ++ bstr "2" ++ [CR; LF] ++ bstr "!!"
  ++ [CR; LF] ++ bstr "0" ++ [CR; LF; CR; LF] ++ bstr "GET".

Example chunked_3 :
  match chunked_filter_loop 40 (BodyConf 0 8192) (BodyReq chunked_zero 0 8192)
          chunked_text 0 (length chunked_text) [] with
  | Filtered req m pos out last_buf =>
      (br_content_length_n req, br_rest req, drop pos m,
       map (fun b => buf_bytes m (ob_pos b) (ob_last b)) out, last_buf)
      = (7, 0, bstr "GET", [bstr "hello!!"], true)
  | _ => False
  end.
Proof. vm_compute. reflexivity. Qed.

(** ** The parser one byte at a time

    A run of [chunk_step] over all of the input, which skips nothing. It links
    the filter to the coding, and is not part of what is stated of it. *)

(** The data of the body and what follows it: the state after input that may
    go on, the rest after the end of the body, or an error. *)
Inductive ck_status := More (state : ck_state) (size : Z) | Finished (rest : list Z) | Broken.

(** The data is over when none of it is left. *)
Definition norm (state : ck_state) (size : Z) : ck_state :=
  if decide (state = sw_chunk_data /\ size = 0) then sw_after_data else state.

Fixpoint body_run (keep : bool) (state : ck_state) (size : Z) (l : list Z)
  : list Z * ck_status :=
  match l with
  | [] => ([], More (norm state size) size)
  | ch :: q =>
      let state := norm state size in
      if decide (state = sw_chunk_data) then
        let '(d, r) := body_run keep sw_chunk_data (size - 1) q in (ch :: d, r)
      else
        match chunk_step keep state size ch with
        | Next state size =>
            if decide (size > NGX_MAX_OFF_T_VALUE - 5) then ([], Broken)
            else body_run keep state size q
        | Goto_done => ([], Finished q)
        | Goto_data | Goto_invalid => ([], Broken)
        end
  end.

(** The invariant of the context. *)
Definition ck_ok (state : ck_state) (size : Z) : Prop :=
  0 <= size <= NGX_MAX_OFF_T_VALUE - 5
  /\ (state = sw_chunk_extension \/ state = sw_chunk_extension_almost_done -> size <> 0).

Definition normal (state : ck_state) (size : Z) : Prop := state = sw_chunk_data -> size <> 0.

Lemma norm_normal state size : normal (norm state size) size.
Proof. unfold normal, norm. case_decide; [done|]. intros ? ->. tauto. Qed.

Lemma norm_id state size : normal state size -> norm state size = state.
Proof. unfold normal, norm. case_decide; [|done]. tauto. Qed.

Lemma norm_ok state size : ck_ok state size -> ck_ok (norm state size) size.
Proof.
  unfold ck_ok, norm. intros [H1 H2]. case_decide; [|done].
  split; [done|]. intros [[=]|[=]].
Qed.

Lemma ck_digit_range ch d : ck_digit ch = Some d -> 0 <= d < 16.
Proof.
  unfold ck_digit. case_decide; [intros [= <-]; lia|].
  cbv zeta. case_decide; [|discriminate]. intros [= <-]. lia.
Qed.

Ltac ck_cases :=
  repeat first
    [ case_decide
    | match goal with |- context [match ck_digit ?c with _ => _ end] =>
        let E := fresh "E" in destruct (ck_digit c) eqn:E; [apply ck_digit_range in E|] end
    | match goal with |- context [last_line ?k _] => try (is_var k; destruct k); unfold last_line end ].

(** A round keeps the invariant, or makes the size too large. *)
Lemma step_ok keep state size ch state' size' :
  ck_ok state size -> normal state size ->
  chunk_step keep state size ch = Next state' size' ->
  (ck_ok state' size' /\ normal state' size')
  \/ (state' = sw_chunk_size /\ size' > NGX_MAX_OFF_T_VALUE - 5).
Proof.
  unfold ck_ok, normal, NGX_MAX_OFF_T_VALUE. intros [Hs Hx] Hn.
  destruct state; cbn [chunk_step]; unfold NGX_MAX_OFF_T_VALUE; ck_cases;
    intros [= <- <-];
    try match goal with |- context [size * 16 + ?z] =>
      destruct (decide (size * 16 + z > 9223372036854775807 - 5)); [right; by split|] end;
    (left; split; [split; [lia|intros [[=]|[=]]; tauto]|]);
    intros Ed; first [discriminate Ed | tauto].
Qed.

(** *** Running over data and over appended input *)

Lemma run_data keep d size l :
  0 <= Z.of_nat (length d) <= size ->
  body_run keep sw_chunk_data size (d ++ l)
  = let '(x, r) := body_run keep sw_chunk_data (size - Z.of_nat (length d)) l in (d ++ x, r).
Proof.
  revert size. induction d as [|c d IH]; intros size H.
  - cbn [app length]. rewrite Z.sub_0_r. by destruct (body_run _ _ _ _).
  - cbn [length] in H. cbn [app body_run]. rewrite norm_id by (intros _; lia).
    rewrite decide_True by done. rewrite IH by lia.
    replace (size - 1 - Z.of_nat (length d)) with (size - Z.of_nat (length (c :: d)))
      by (cbn [length]; lia).
    by destruct (body_run _ _ _ _).
Qed.

Lemma run_norm keep state size l :
  body_run keep (norm state size) size l = body_run keep state size l.
Proof.
  pose proof (norm_id _ _ (norm_normal state size)) as E.
  destruct l; cbn [body_run]; by rewrite E.
Qed.

(** A step that is not data, on a state in normal form. *)
Lemma run_step keep state size ch l :
  state <> sw_chunk_data ->
  body_run keep state size (ch :: l) =
    match chunk_step keep state size ch with
    | Next state size =>
        if decide (size > NGX_MAX_OFF_T_VALUE - 5) then ([], Broken)
        else body_run keep state size l
    | Goto_done => ([], Finished l)
    | Goto_data | Goto_invalid => ([], Broken)
    end.
Proof.
  intros H. cbn [body_run]. rewrite norm_id by (intros ?; done). by rewrite decide_False.
Qed.

Lemma run_app keep state size a b :
  body_run keep state size (a ++ b) =
    match body_run keep state size a with
    | (d, More state size) =>
        let '(d', r) := body_run keep state size b in (d ++ d', r)
    | (d, Finished rest) => (d, Finished (rest ++ b))
    | (d, Broken) => (d, Broken)
    end.
Proof.
  revert state size. induction a as [|ch a IH]; intros state size.
  - change (body_run keep state size []) with (@nil Z, More (norm state size) size).
    cbn [app]. rewrite run_norm. by destruct (body_run _ _ _ _).
  - cbn [app body_run]. case_decide.
    + rewrite IH. destruct (body_run keep sw_chunk_data (size - 1) a) as [d []]; [|done|done].
      by destruct (body_run _ _ _ b).
    + destruct (chunk_step _ _ _ _); [|done..]. case_decide; [done|]. apply IH.
Qed.

(** ** The chunked coding *)

(** The end of a line. *)
Definition eol (l : list Z) : Prop := l = [LF] \/ l = [CR; LF].

Definition no_eol (l : list Z) : Prop := Forall (fun c => c <> CR /\ c <> LF) l.

(** What may follow the size of a chunk on its line. *)
Definition chunk_ext (l : list Z) : Prop :=
  l = [] \/ exists c l', l = c :: l' /\ (c = ";" \/ c = " " \/ c = 9) /\ no_eol l'.

(** The line of a chunk of [size] bytes: a hexadecimal numeral, its case and
    leading zeros being free, that is at most a sixteenth of the largest
    [off_t]. *)
Definition size_line (size : Z) (line : list Z) : Prop :=
  exists digits ext e, line = digits ++ ext ++ e
    /\ digits <> [] /\ Forall (fun c => is_hex c = true) digits
    /\ hex_value digits = size /\ size <= NGX_MAX_OFF_T_VALUE / 16
    /\ chunk_ext ext /\ eol e.

(** Lines that are not empty, and an empty one. *)
Inductive trailer_part : list Z -> Prop :=
  | trailer_end e : eol e -> trailer_part e
  | trailer_field line e l :
      line <> [] -> no_eol line -> eol e -> trailer_part l -> trailer_part (line ++ e ++ l).

(** A body: its text and its data. *)
Inductive chunked_body : list Z -> list Z -> Prop :=
  | body_last line l : size_line 0 line -> trailer_part l -> chunked_body (line ++ l) []
  | body_chunk line x e text data :
      x <> [] -> size_line (Z.of_nat (length x)) line -> eol e -> chunked_body text data ->
      chunked_body (line ++ x ++ e ++ text) (x ++ data).

(** *** What is left of a body in each state *)

Definition followed (P K : list Z -> Prop) (l : list Z) : Prop :=
  exists a b, l = a ++ b /\ P a /\ K b.

(** The rest of a numeral whose digits so far are worth [v]. *)
Definition sized (v : Z) (K : Z -> list Z -> Prop) (l : list Z) : Prop :=
  exists digits b, l = digits ++ b /\ Forall (fun c => is_hex c = true) digits
    /\ numeral 16 hex_val v digits <= NGX_MAX_OFF_T_VALUE / 16
    /\ K (numeral 16 hex_val v digits) b.

Definition chunk_data (size : Z) (l data : list Z) : Prop :=
  exists x e text y, l = x ++ e ++ text /\ data = x ++ y
    /\ Z.of_nat (length x) = size /\ eol e /\ chunked_body text y.

Definition after_line (size : Z) : list Z -> list Z -> Prop :=
  if decide (size = 0) then fun l data => trailer_part l /\ data = [] else chunk_data size.

Definition feed_then (K : list Z -> Prop) (l : list Z) : Prop := exists b, l = LF :: b /\ K b.

(** The texts, with their data, that complete a body of which a parser in
    [state] has read the beginning, [size] being the size of the chunk as far as
    it was read, or what is missing of its data. *)
Definition remains (state : ck_state) (size : Z) (l data : list Z) : Prop :=
  match state with
  | sw_chunk_start => chunked_body l data
  | sw_chunk_size =>
      sized size (fun v => followed chunk_ext (followed eol (fun l => after_line v l data))) l
  | sw_chunk_extension => followed no_eol (followed eol (fun l => after_line size l data)) l
  | sw_chunk_extension_almost_done => feed_then (fun l => after_line size l data) l
  | sw_chunk_data => chunk_data size l data
  | sw_after_data => followed eol (fun l => chunked_body l data) l
  | sw_after_data_almost_done => feed_then (fun l => chunked_body l data) l
  | sw_last_chunk_extension | sw_trailer_header =>
      followed no_eol (followed eol trailer_part) l /\ data = []
  | sw_last_chunk_extension_almost_done | sw_trailer_header_almost_done =>
      feed_then trailer_part l /\ data = []
  | sw_trailer => trailer_part l /\ data = []
  | sw_trailer_almost_done => l = [LF] /\ data = []
  end.

Lemma followed_and P1 P2 K Q l :
  followed P1 (followed P2 (fun l => K l /\ Q)) l <-> followed P1 (followed P2 K) l /\ Q.
Proof. unfold followed. naive_solver. Qed.

Lemma feed_and K Q l : feed_then (fun l => K l /\ Q) l <-> feed_then K l /\ Q.
Proof. unfold feed_then. naive_solver. Qed.

Lemma after_last : after_line 0 = fun l data => trailer_part l /\ data = [].
Proof. done. Qed.

Lemma after_chunk size : size <> 0 -> after_line size = chunk_data size.
Proof. intros H. unfold after_line. by rewrite decide_False. Qed.

(** *** The coding read byte by byte *)

Lemma eol_cons K c l :
  followed eol K (c :: l) <-> (c = LF /\ K l) \/ (c = CR /\ feed_then K l).
Proof.
  unfold followed, feed_then, eol. split.
  - intros (a & b & E & [->| ->] & H); injection E as -> ->; [by left|right; eauto].
  - intros [[-> H]|(-> & b & -> & H)]; [exists [LF], l; auto|exists [CR; LF], b; auto].
Qed.

Lemma text_cons K c l :
  followed no_eol (followed eol K) (c :: l)
  <-> if decide (c = CR \/ c = LF) then followed eol K (c :: l)
      else followed no_eol (followed eol K) l.
Proof.
  split.
  - intros ([|c' a] & b & E & Ha & H).
    + cbn in E. subst b. case_decide as Hc; [done|]. exfalso. apply eol_cons in H. tauto.
    + injection E as <- ->. apply List.Forall_cons_iff in Ha. destruct Ha as [Hc Ha].
      rewrite decide_False by tauto. by exists a, b.
  - case_decide as Hc.
    + intros H. exists [], (c :: l). split; [done|]. split; [constructor|done].
    + intros (a & b & -> & Ha & H). exists (c :: a), b. split; [done|]. split; [|done].
      constructor; [tauto|done].
Qed.

Lemma ext_cons K c l :
  followed chunk_ext (followed eol K) (c :: l)
  <-> if decide (c = ";" \/ c = " " \/ c = 9) then followed no_eol (followed eol K) l
      else followed eol K (c :: l).
Proof.
  split.
  - intros (a & b & E & [->|(c' & a' & -> & Hc & Ha)] & H).
    + cbn in E. subst b. case_decide as Hc; [|done]. exfalso.
      apply eol_cons in H. unfold CR, LF in H. lia.
    + injection E as <- ->. rewrite decide_True by done. by exists a', b.
  - case_decide as Hc.
    + intros (a & b & -> & Ha & H). exists (c :: a), b. split; [done|]. split; [|done].
      right. by exists c, a.
    + intros H. exists [], (c :: l). split; [done|]. split; [by left|done].
Qed.

Lemma ck_hex_range c : is_hex c = true -> 0 <= hex_val c < 16.
Proof.
  unfold is_hex, hex_val, is_digit. intros H.
  repeat case_bool_decide; repeat case_decide; cbn in H; try done; lia.
Qed.

Lemma numeral_hex_ge v digits :
  0 <= v -> Forall (fun c => is_hex c = true) digits -> v <= numeral 16 hex_val v digits.
Proof.
  intros Hv H. apply numeral_ge; [lia|done|]. eapply List.Forall_impl; [|exact H].
  cbn. intros c Hc. apply ck_hex_range in Hc. lia.
Qed.

Lemma sized_cons v K c l :
  0 <= v -> (is_hex c = true -> forall v, ~ K v (c :: l)) ->
  sized v K (c :: l)
  <-> if is_hex c then sized (v * 16 + hex_val c) K l
      else v <= NGX_MAX_OFF_T_VALUE / 16 /\ K v (c :: l).
Proof.
  intros Hv Hk. split.
  - intros ([|d ds] & b & E & Hd & Hn & H).
    + cbn in *. subst b. destruct (is_hex c); [|done]. by apply Hk in H.
    + injection E as <- ->. apply List.Forall_cons_iff in Hd. destruct Hd as [Hc Hd].
      rewrite Hc. by exists ds, b.
  - destruct (is_hex c) eqn:Hc.
    + intros (ds & b & -> & Hd & H). exists (c :: ds), b. split; [done|]. split; [|done].
      by apply List.Forall_cons.
    + intros [H1 H2]. exists [], (c :: l). split; [done|]. split; [constructor|done].
Qed.

Lemma trailer_cons c l :
  trailer_part (c :: l)
  <-> if decide (c = CR) then l = [LF]
      else if decide (c = LF) then l = []
      else followed no_eol (followed eol trailer_part) l.
Proof.
  split.
  - intros H. remember (c :: l) as t eqn:Et. destruct H as [e [->| ->]|line e b Hn Hl He Hb].
    + by injection Et as <- <-.
    + by injection Et as <- <-.
    + destruct line as [|c' line]; [done|]. injection Et as -> <-.
      apply List.Forall_cons_iff in Hl. destruct Hl as [[H1 H2] Hl].
      rewrite decide_False, decide_False by done. exists line, (e ++ b). split; [done|].
      split; [done|]. by exists e, b.
  - case_decide as H1; [intros ->; subst; apply trailer_end; by right|].
    case_decide as H2; [intros ->; subst; apply trailer_end; by left|].
    intros (a & b & -> & Ha & e & b' & -> & He & Hb).
    apply (trailer_field (c :: a)); [done| |done|done]. by apply List.Forall_cons.
Qed.

Lemma body_line l d :
  chunked_body l d <-> exists size line b, l = line ++ b /\ size_line size line /\ after_line size b d.
Proof.
  unfold after_line. split.
  - intros [line b Hl Hb|line x e text data Hx Hl He Hb].
    + exists 0, line, b. by rewrite decide_True.
    + exists (Z.of_nat (length x)), line, (x ++ e ++ text). split; [done|]. split; [done|].
      rewrite decide_False by (destruct x; [done|cbn; lia]). by exists x, e, text, data.
  - intros (size & line & b & -> & Hl & H). case_decide as Hs.
    + destruct H as [H ->]. subst size. by apply body_last.
    + destruct H as (x & e & text & y & -> & -> & <- & He & Hb).
      apply body_chunk; try done. intros ->. by apply Hs.
Qed.

Lemma body_cons c l d :
  chunked_body (c :: l) d <-> is_hex c = true /\ remains sw_chunk_size (hex_val c) l d.
Proof.
  rewrite body_line. cbn [remains]. unfold sized, size_line. split.
  - intros (size & line & b & E & (ds & ext & e & -> & Hn & Hd & Hv & Hs & Hx & He) & H).
    destruct ds as [|c' ds]; [done|]. rewrite <- !app_assoc in E. injection E as <- ->.
    apply List.Forall_cons_iff in Hd. destruct Hd as [Hc Hd]. split; [done|].
    change (numeral 16 hex_val (hex_val c) ds = size) in Hv. subst size.
    exists ds, (ext ++ e ++ b). split; [done|]. split; [done|]. split; [done|].
    exists ext, (e ++ b). split; [done|]. split; [done|]. by exists e, b.
  - intros (Hc & ds & b & -> & Hd & Hs & ext & b1 & -> & Hx & e & b2 & -> & He & H).
    exists (numeral 16 hex_val (hex_val c) ds), ((c :: ds) ++ ext ++ e), b2.
    rewrite <- !app_assoc. split; [done|]. split; [|done].
    exists (c :: ds), ext, e. split_and!; try done. by apply List.Forall_cons.
Qed.

Lemma data_cons size c l d :
  0 < size ->
  chunk_data size (c :: l) d <-> exists d', d = c :: d' /\ chunk_data (size - 1) l d'.
Proof.
  intros Hs. split.
  - intros ([|c' x] & e & text & y & E & -> & Hx & He & Hb); [cbn in Hx; lia|].
    injection E as <- ->. exists (x ++ y). split; [done|]. exists x, e, text, y.
    cbn [length] in Hx. split_and!; [done|done|lia|done|done].
  - intros (d' & -> & x & e & text & y & -> & -> & Hx & He & Hb).
    exists (c :: x), e, text, y. cbn [length]. split_and!; [done|done|lia|done|done].
Qed.

Lemma data_zero l d : chunk_data 0 l d <-> remains sw_after_data 0 l d.
Proof.
  cbn. split.
  - intros (x & e & text & y & -> & -> & Hx & He & Hb). destruct x; [|done]. by exists e, text.
  - intros (e & text & -> & He & Hb). by exists [], e, text, d.
Qed.

Lemma ext_hex K c l : is_hex c = true -> ~ followed chunk_ext (followed eol K) (c :: l).
Proof.
  intros Hc H. rewrite ext_cons in H. unfold is_hex, is_digit in Hc.
  repeat case_bool_decide; cbn in Hc; try done; case_decide; try lia;
    apply eol_cons in H; unfold CR, LF in H; lia.
Qed.

Lemma followed_nil P K : (forall a, P a -> a = [] -> ~ K []) -> ~ followed P K [].
Proof.
  intros H (a & b & E & Ha & Hb). symmetry in E. apply app_eq_nil in E. destruct E as [-> ->].
  by eapply H.
Qed.

Lemma eol_nil K : ~ followed eol K [].
Proof. apply followed_nil. by intros a [->| ->]. Qed.

Lemma remains_nil state size d : normal state size -> 0 <= size -> ~ remains state size [] d.
Proof.
  assert (forall P K, ~ followed P (followed eol K) []) as Hf
    by (intros P K; apply followed_nil; intros ???; apply eol_nil).
  assert (forall K, ~ feed_then K []) as Hl by (by intros K (b & H & _)).
  assert (~ trailer_part []) as Ht.
  { intros H. remember [] as t eqn:Et. destruct H as [e [->| ->]|[|c line] e b Hn Hx He Hb]; done. }
  intros Hn Hs. destruct state; cbn [remains]; try (by intros []); try apply Hf; try apply Hl.
  - intros H. apply body_line in H. destruct H as (v & line & b & E & (ds & x & e & -> & Hd & _) & _).
    by destruct ds.
  - intros (ds & b & E & _ & _ & H). symmetry in E. apply app_eq_nil in E. destruct E as [-> ->].
    by apply Hf in H.
  - intros (x & e & text & y & E & _ & Hx & He & _). destruct x; [|done]. by destruct He as [->| ->].
  - apply eol_nil.
  - intros [H _]. by apply Hf in H.
  - intros [H _]. by apply Hl in H.
  - intros [H _]. by apply Hf in H.
  - intros [H _]. by apply Hl in H.
Qed.

(** A round of the parser on a byte that is not data. *)
Lemma remains_step state size c l d :
  is_byte c -> ck_ok state size -> state <> sw_chunk_data ->
  remains state size (c :: l) d <->
    match chunk_step false state size c with
    | Next state size => remains state size l d
    | Goto_done => l = [] /\ d = []
    | Goto_data | Goto_invalid => False
    end.
Proof.
  intros Hb [Hs Hx] Hd.
  pose proof (ck_hex_range c) as Hr.
  assert (ck_digit c = if is_hex c then Some (hex_val c) else None) as Ed by byte_sweep c Hb.
  assert (is_hex c = true -> c <> CR /\ c <> LF /\ c <> ";" /\ c <> " " /\ c <> 9) as Hh
    by byte_sweep c Hb.
  destruct state; cbn [chunk_step last_line]; try done.
  - cbn [remains]. rewrite body_cons, Ed. destruct (is_hex c); cbn [remains]; naive_solver.
  - cbn [remains]. rewrite sized_cons by (lia || (intros Hc v; by apply ext_hex)).
    rewrite Ed. case_decide as Hbig.
    { destruct (is_hex c) eqn:Hc; [|lia]. split; [|done]. intros (ds & b & _ & Hf & Hv & _).
      specialize (Hr eq_refl).
      apply (numeral_hex_ge (size * 16 + hex_val c)) in Hf; lia. }
    destruct (is_hex c) eqn:Hc; [done|]. rewrite ext_cons.
    assert (size <= NGX_MAX_OFF_T_VALUE / 16) as Hle by lia.
    destruct (decide (size = 0)) as [->|Hz];
      (destruct (decide (c = ";" \/ c = " " \/ c = 9)) as [Hsp|Hsp];
       [rewrite (decide_False (P := c = CR)), (decide_False (P := c = LF)) by (unfold CR, LF; lia)
       |rewrite eol_cons]); cbn [remains].
    + rewrite after_last, followed_and. tauto.
    + rewrite after_last, feed_and.
      repeat case_decide; cbn [remains]; unfold CR, LF in *; naive_solver lia.
    + tauto.
    + rewrite after_chunk by done.
      repeat case_decide; cbn [remains]; rewrite ?after_chunk by done;
        unfold CR, LF in *; naive_solver lia.
  - cbn [remains]. rewrite text_cons, after_chunk by tauto.
    case_decide as Hc; [rewrite eol_cons|];
      repeat case_decide; cbn [remains]; rewrite ?after_chunk by tauto;
      unfold CR, LF in *; naive_solver lia.
  - cbn [remains]. rewrite after_chunk by tauto. unfold feed_then. case_decide; naive_solver.
  - cbn [remains]. rewrite eol_cons.
    repeat case_decide; cbn [remains]; unfold CR, LF in *; naive_solver lia.
  - cbn [remains]. unfold feed_then. case_decide; naive_solver.
  - cbn [remains]. rewrite text_cons. case_decide as Hc; [rewrite eol_cons|];
      repeat case_decide; cbn [remains]; unfold CR, LF in *; naive_solver lia.
  - cbn [remains]. unfold feed_then. case_decide; naive_solver.
  - cbn [remains]. rewrite trailer_cons.
    repeat case_decide; cbn [remains]; unfold CR, LF in *; naive_solver lia.
  - cbn [remains]. case_decide; naive_solver.
  - cbn [remains]. rewrite text_cons. case_decide as Hc; [rewrite eol_cons|];
      repeat case_decide; cbn [remains]; unfold CR, LF in *; naive_solver lia.
  - cbn [remains]. unfold feed_then. case_decide; naive_solver.
Qed.

Lemma remains_norm state size l d : remains (norm state size) size l d <-> remains state size l d.
Proof. unfold norm. case_decide as H; [|done]. destruct H as [-> ->]. symmetry. apply data_zero. Qed.

Lemma remains_big size l d : size > NGX_MAX_OFF_T_VALUE / 16 -> ~ remains sw_chunk_size size l d.
Proof.
  change (NGX_MAX_OFF_T_VALUE / 16) with 576460752303423487.
  intros H (ds & b & _ & Hf & Hv & _). apply (numeral_hex_ge size) in Hf; [|lia].
  change (NGX_MAX_OFF_T_VALUE / 16) with 576460752303423487 in Hv. lia.
Qed.

(** The parser reaches the end just after a text that completes the body. *)
Lemma run_remains l : forall state size d,
  bytes l -> ck_ok state size ->
  body_run false state size l = (d, Finished []) <-> remains state size l d.
Proof.
  induction l as [|c l IH]; intros state size d Hb Hok;
    pose proof (norm_ok _ _ Hok) as Hok1; pose proof (norm_normal state size) as Hn;
    rewrite <- run_norm, <- remains_norm; set (st := norm state size) in *; clearbody st.
  - split; [done|]. intros H. apply remains_nil in H; [done|done|apply Hok].
  - apply List.Forall_cons_iff in Hb. destruct Hb as [Hc Hb].
    destruct (decide (st = sw_chunk_data)) as [->|Hd].
    + specialize (Hn eq_refl). destruct Hok as [Hs _]. cbn [remains]. rewrite data_cons by lia.
      assert (ck_ok sw_chunk_data (size - 1)) as Hok' by (split; [lia|by intros [|]]).
      change (c :: l) with ([c] ++ l). rewrite run_data by (cbn; lia).
      change (Z.of_nat (length [c])) with 1.
      setoid_rewrite <- (IH sw_chunk_data (size - 1) _ Hb Hok').
      destruct (body_run false sw_chunk_data (size - 1) l) as [x r]. cbn [app]. naive_solver.
    + rewrite run_step, (remains_step st size c l d) by done.
      destruct (chunk_step false st size c) as [st' size'| | |] eqn:E; try naive_solver.
      destruct (step_ok _ _ _ _ _ _ Hok1 Hn E) as [[Hok' _]|[-> Hbig]].
      * rewrite decide_False by (destruct Hok'; lia). by apply IH.
      * rewrite decide_True by done. split; [done|]. intros H. apply remains_big in H; [done|].
        change (NGX_MAX_OFF_T_VALUE / 16) with 576460752303423487.
        unfold NGX_MAX_OFF_T_VALUE in *. lia.
Qed.

Lemma run_prefix l : forall keep state size d rest,
  body_run keep state size l = (d, Finished rest) ->
  exists text, l = text ++ rest /\ body_run keep state size text = (d, Finished []).
Proof.
  induction l as [|c l IH]; intros keep state size d rest; cbn [body_run]; [done|].
  case_decide as Hd.
  - destruct (body_run keep sw_chunk_data (size - 1) l) as [x r] eqn:E. intros [= <- ->].
    apply IH in E. destruct E as (text & -> & E). exists (c :: text). split; [done|].
    cbn [body_run]. rewrite decide_True by done. by rewrite E.
  - destruct (chunk_step _ _ _ _) as [st' size'| | |] eqn:E; try done.
    + case_decide as Hs; [done|]. intros H. apply IH in H. destruct H as (text & -> & H).
      exists (c :: text). split; [done|]. cbn [body_run]. rewrite decide_False, E by done. by rewrite decide_False by done.
    + intros [= <- <-]. exists [c]. split; [done|]. cbn [body_run]. rewrite decide_False by done. by rewrite E.
Qed.

Lemma run_finished state size l d rest :
  bytes l -> ck_ok state size ->
  body_run false state size l = (d, Finished rest)
  <-> exists text, l = text ++ rest /\ remains state size text d.
Proof.
  intros Hb Hok. split.
  - intros H. apply run_prefix in H. destruct H as (text & -> & H). exists text. split; [done|].
    apply Forall_app in Hb. destruct Hb as [Hb _]. by apply run_remains.
  - intros (text & -> & H). apply Forall_app in Hb. destruct Hb as [Hb _].
    apply (run_remains _ _ _ _ Hb Hok) in H. by rewrite run_app, H.
Qed.

(** ** [ctx->length] *)

Lemma length_norm state size : chunk_length (norm state size) size = chunk_length state size.
Proof. unfold norm. case_decide as H; [|done]. by destruct H as [-> ->]. Qed.

Lemma length_step state size ch state' size' :
  ck_ok state size -> chunk_step false state size ch = Next state' size' ->
  chunk_length state size <= chunk_length state' size' + 1.
Proof.
  unfold ck_ok. intros [Hs Hx].
  destruct state; cbn [chunk_step chunk_length]; ck_cases; intros [= <- <-];
    cbn [chunk_length]; repeat case_decide; lia.
Qed.

Lemma length_done state size ch :
  chunk_step false state size ch = Goto_done -> chunk_length state size <= 1.
Proof.
  destruct state; cbn [chunk_step chunk_length]; ck_cases; intros [=]; lia.
Qed.

Lemma length_lower l state size d rest :
  ck_ok state size -> body_run false state size l = (d, Finished rest) ->
  chunk_length state size <= Z.of_nat (length l) - Z.of_nat (length rest).
Proof.
  revert state size d. induction l as [|ch l IH]; intros state size d Hok; [discriminate|].
  rewrite <- run_norm, <- length_norm. pose proof (norm_normal state size) as Hn.
  apply norm_ok in Hok. set (st := norm state size) in *. clearbody st.
  destruct (decide (st = sw_chunk_data)) as [->|Hd].
  - change (ch :: l) with ([ch] ++ l). destruct Hok as [Hs _]. specialize (Hn eq_refl).
    rewrite run_data by (cbn; lia). change (Z.of_nat (length [ch])) with 1.
    destruct (body_run false sw_chunk_data (size - 1) l) as [x r] eqn:E.
    intros [= _ ->]. apply IH in E; [|split; [lia|intros [[=]|[=]]]].
    cbn [chunk_length length app] in *. lia.
  - rewrite run_step by done.
    destruct (chunk_step false st size ch) as [st' size'| | |] eqn:E; try discriminate.
    + case_decide as Hbig; [discriminate|]. intros Er.
      destruct (step_ok _ _ _ _ _ _ Hok Hn E) as [[Hok' _]|[_ ?]]; [|lia].
      apply IH in Er; [|done]. pose proof (length_step _ _ _ _ _ Hok E).
      cbn [length]. lia.
    + intros [= _ <-]. apply length_done in E. cbn [length]. lia.
Qed.

(** The shortest completion of a body. *)
Definition after_data_end : list Z := [LF; "0" : Z; LF; LF].
Definition data_end (size : Z) : list Z := replicate (Z.to_nat size) 0 ++ after_data_end.

Definition completion (state : ck_state) (size : Z) : list Z :=
  match state with
  | sw_chunk_start => ["0" : Z; LF; LF]
  | sw_chunk_size => if decide (size <> 0) then LF :: data_end size else [LF; LF]
  | sw_chunk_extension | sw_chunk_extension_almost_done => LF :: data_end size
  | sw_chunk_data => data_end size
  | sw_after_data | sw_after_data_almost_done => after_data_end
  | sw_last_chunk_extension | sw_last_chunk_extension_almost_done => [LF; LF]
  | sw_trailer | sw_trailer_almost_done => [LF]
  | sw_trailer_header | sw_trailer_header_almost_done => [LF; LF]
  end.

Lemma data_end_run size :
  0 <= size ->
  snd (body_run false sw_chunk_data size (data_end size)) = Finished [].
Proof.
  intros H. unfold data_end. rewrite run_data; rewrite length_replicate, Z2Nat.id by lia; [|lia].
  by rewrite Z.sub_diag.
Qed.

Lemma completion_run state size :
  ck_ok state size -> (state = sw_chunk_size -> size <= NGX_MAX_OFF_T_VALUE / 16) ->
  snd (body_run false state size (completion state size)) = Finished [].
Proof.
  unfold ck_ok. intros [Hs Hx] Hc. pose proof (data_end_run size ltac:(lia)) as Hd.
  assert (size > NGX_MAX_OFF_T_VALUE - 5 <-> False) as Hbig by lia.
  destruct state; cbn [completion].
  - done.
  - specialize (Hc eq_refl). case_decide as Hz.
    + rewrite run_step by done. cbn [chunk_step].
      rewrite decide_False by lia. change (ck_digit LF) with (@None Z).
      rewrite decide_False by done. rewrite (decide_False (P := LF = CR)) by done.
      rewrite decide_True by done. by rewrite decide_False by lia.
    + assert (size = 0) as -> by lia. done.
  - rewrite run_step by done. cbn [chunk_step].
    rewrite (decide_False (P := LF = CR)), (decide_True (P := LF = LF)) by done.
    by rewrite decide_False by lia.
  - rewrite run_step by done. cbn [chunk_step].
    rewrite (decide_True (P := LF = LF)) by done. by rewrite decide_False by lia.
  - done.
  - unfold after_data_end. rewrite run_step by done. cbn [chunk_step].
    rewrite (decide_False (P := LF = CR)), (decide_True (P := LF = LF)) by done.
    rewrite decide_False by lia. done.
  - unfold after_data_end. rewrite run_step by done. cbn [chunk_step].
    rewrite (decide_True (P := LF = LF)) by done. rewrite decide_False by lia. done.
  - rewrite run_step by done. cbn [chunk_step last_line].
    rewrite (decide_False (P := LF = CR)), (decide_True (P := LF = LF)) by done.
    rewrite decide_False by lia. done.
  - rewrite run_step by done. cbn [chunk_step last_line].
    rewrite (decide_True (P := LF = LF)) by done. rewrite decide_False by lia. done.
  - done.
  - done.
  - rewrite run_step by done. cbn [chunk_step].
    rewrite (decide_False (P := LF = CR)), (decide_True (P := LF = LF)) by done.
    rewrite decide_False by lia. done.
  - rewrite run_step by done. cbn [chunk_step].
    rewrite (decide_True (P := LF = LF)) by done. rewrite decide_False by lia. done.
Qed.

Lemma completion_length state size :
  0 <= size -> Z.of_nat (length (completion state size)) = chunk_length state size.
Proof.
  intros H.
  assert (Z.of_nat (length (data_end size)) = size + 4) as E.
  { unfold data_end. rewrite length_app, length_replicate.
    change (length after_data_end) with 4%nat. lia. }
  destruct state; cbn [completion chunk_length]; repeat case_decide; cbn [length];
    change (length after_data_end) with 4%nat; lia.
Qed.

(** A size that the check before the next character rejects. *)
Lemma size_rejected size l :
  size > NGX_MAX_OFF_T_VALUE / 16 ->
  snd (body_run false sw_chunk_size size l) <> Finished [].
Proof.
  intros H. destruct l as [|ch l]; [done|]. rewrite run_step by done. cbn [chunk_step].
  by rewrite decide_True.
Qed.

(** ** The parser runs the coding up to the data of a chunk *)

Lemma big_loop keep size buf :
  size > NGX_MAX_OFF_T_VALUE - 5 ->
  match chunk_loop keep sw_chunk_size size buf with
  | At_data _ _ size _ => size > NGX_MAX_OFF_T_VALUE - 5
  | At_done _ _ => False
  | At_invalid _ => True
  end.
Proof.
  intros H. destruct buf as [|ch buf]; [done|]. cbn [chunk_loop chunk_step].
  rewrite decide_True; [done|]. change (NGX_MAX_OFF_T_VALUE / 16) with 576460752303423487.
  unfold NGX_MAX_OFF_T_VALUE in *. lia.
Qed.

Lemma step_data keep state size ch :
  chunk_step keep state size ch = Goto_data <-> state = sw_chunk_data.
Proof.
  split; [|by intros ->].
  destruct state; cbn [chunk_step]; ck_cases; intros [=]; done.
Qed.

Lemma chunk_loop_run keep buf : forall state size,
  ck_ok state size -> normal state size ->
  match chunk_loop keep state size buf with
  | At_data rc state' size' rest =>
      (size' > NGX_MAX_OFF_T_VALUE - 5
       /\ forall l, body_run keep state size (buf ++ l) = ([], Broken))
      \/ (ck_ok state' size' /\ normal state' size'
          /\ exists pre, buf = pre ++ rest
             /\ (forall l, body_run keep state size (pre ++ l) = body_run keep state' size' l)
             /\ ((rc = NGX_AGAIN /\ rest = [])
                 \/ (rc = NGX_OK /\ rest <> [] /\ state' = sw_chunk_data)))
  | At_done size' rest =>
      0 <= size' <= NGX_MAX_OFF_T_VALUE - 5 /\ (exists pre, buf = pre ++ rest)
      /\ forall l, body_run keep state size (buf ++ l) = ([], Finished (rest ++ l))
  | At_invalid _ => forall l, body_run keep state size (buf ++ l) = ([], Broken)
  end.
Proof.
  induction buf as [|ch buf IH]; intros state size Hok Hn.
  { right. split_and!; [apply Hok..|done|]. exists []. eauto. }
  cbn [chunk_loop]. destruct (decide (state = sw_chunk_data)) as [->|Hd].
  { cbn [chunk_step]. right. split_and!; [apply Hok..|done|]. exists [].
    split; [done|]. split; [done|]. right. done. }
  assert (forall l, body_run keep state size ((ch :: buf) ++ l) =
    match chunk_step keep state size ch with
    | Next state size =>
        if decide (size > NGX_MAX_OFF_T_VALUE - 5) then ([], Broken)
        else body_run keep state size (buf ++ l)
    | Goto_done => ([], Finished (buf ++ l))
    | _ => ([], Broken)
    end) as Hrun by (intros l; cbn [app]; by apply run_step).
  destruct (chunk_step keep state size ch) as [st1 size1| | |] eqn:E.
  - destruct (step_ok _ _ _ _ _ _ Hok Hn E) as [[Hok1 Hn1]|[-> Hbig]].
    + assert (~ size1 > NGX_MAX_OFF_T_VALUE - 5) as Hs1 by (destruct Hok1; lia).
      specialize (IH st1 size1 Hok1 Hn1).
      destruct (chunk_loop keep st1 size1 buf) as [rc st' size' rest|size' rest|size'].
      * destruct IH as [[Hbig Hb]|(Hok' & Hn' & pre & -> & Hpre & Hrc)].
        -- left. split; [done|]. intros l. rewrite Hrun, decide_False by done. apply Hb.
        -- right. split; [done|]. split; [done|]. exists (ch :: pre). split; [done|].
           split; [|done]. intros l. cbn [app]. rewrite run_step by done. rewrite E.
           rewrite decide_False by done. apply Hpre.
      * destruct IH as (Hr & (pre & ->) & IH). split; [done|]. split; [by exists (ch :: pre)|].
        intros l. rewrite Hrun, decide_False by done. apply IH.
      * intros l. rewrite Hrun, decide_False by done. apply IH.
    + pose proof (big_loop keep size1 buf Hbig) as Hl.
      assert (forall l, body_run keep state size ((ch :: buf) ++ l) = ([], Broken)) as Hb
        by (intros l; by rewrite Hrun, decide_True).
      destruct (chunk_loop keep sw_chunk_size size1 buf); [by left|done|done].
  - by apply step_data in E.
  - split; [apply Hok|]. split; [by exists [ch]|]. exact Hrun.
  - exact Hrun.
Qed.

(** What a call of the parser means: its context afterwards is valid and in
    normal form, the input before the rest has no data and leads to that
    context; the rest is empty after [NGX_AGAIN], and starts with data after
    [NGX_OK]. *)
Lemma parse_chunked_run ctx keep buf :
  ck_ok (ck_st ctx) (ck_size ctx) ->
  let '(rc, ctx', rest) := ngx_http_parse_chunked ctx keep buf in
  (rc = NGX_ERROR
   /\ forall l, body_run keep (ck_st ctx) (ck_size ctx) (buf ++ l) = ([], Broken))
  \/ (rc = NGX_DONE /\ ck_ok (ck_st ctx') (ck_size ctx') /\ ck_st ctx' = sw_chunk_start
      /\ (exists pre, buf = pre ++ rest)
      /\ forall l, body_run keep (ck_st ctx) (ck_size ctx) (buf ++ l) = ([], Finished (rest ++ l)))
  \/ ((rc = NGX_AGAIN /\ rest = []
       \/ rc = NGX_OK /\ rest <> [] /\ ck_st ctx' = sw_chunk_data)
      /\ ck_ok (ck_st ctx') (ck_size ctx') /\ normal (ck_st ctx') (ck_size ctx')
      /\ ck_length ctx' = chunk_length (ck_st ctx') (ck_size ctx')
      /\ exists pre, buf = pre ++ rest
         /\ forall l, body_run keep (ck_st ctx) (ck_size ctx) (pre ++ l)
                      = body_run keep (ck_st ctx') (ck_size ctx') l).
Proof.
  intros Hok. unfold ngx_http_parse_chunked.
  change (if decide (ck_st ctx = sw_chunk_data /\ ck_size ctx = 0) then sw_after_data
          else ck_st ctx) with (norm (ck_st ctx) (ck_size ctx)).
  pose proof (chunk_loop_run keep buf (norm (ck_st ctx) (ck_size ctx)) (ck_size ctx)
                (norm_ok _ _ Hok) (norm_normal _ _)) as H.
  assert (forall l, body_run keep (norm (ck_st ctx) (ck_size ctx)) (ck_size ctx) l
                    = body_run keep (ck_st ctx) (ck_size ctx) l) as Er
    by (intros; apply run_norm).
  destruct (chunk_loop _ _ _ _) as [rc st' size' rest|size' rest|size'].
  - destruct H as [[Hbig Hb]|(Hok' & Hn' & pre & -> & Hpre & Hrc)].
    + rewrite decide_True by done. left. split; [done|]. intros l. by rewrite <- Er.
    + rewrite decide_False by (destruct Hok'; lia). right. right. cbn [ck_st ck_size ck_length].
      split; [naive_solver|]. split; [done|]. split; [done|]. split; [done|].
      exists pre. split; [done|]. intros l. by rewrite <- Er.
  - destruct H as (Hr & [pre ->] & H). right. left. cbn [ck_st ck_size].
    split; [done|]. split; [split; [done|intros [[=]|[=]]]|].
    split; [done|]. split; [by exists pre|]. intros l. by rewrite <- Er.
  - left. split; [done|]. intros l. by rewrite <- Er.
Qed.

(** ** Moving data inside of the memory *)

Lemma lookup_buf_bytes m a b i :
  buf_bytes m a b !! i = if decide (i < b - a)%nat then m !! (a + i)%nat else None.
Proof.
  unfold buf_bytes. case_decide.
  - by rewrite lookup_take_lt, lookup_drop by lia.
  - by rewrite lookup_take_ge by lia.
Qed.

(** [k] bytes from [src] are at [dst], all others are as before. *)
Definition moved (m m' : list Z) (dst src k : nat) : Prop :=
  length m' = length m
  /\ forall i, m' !! i = if decide (dst <= i < dst + k)%nat then m !! (src + (i - dst))%nat
                         else m !! i.

Lemma mem_move_ok m dst src k :
  (dst <= src)%nat -> (src + k <= length m)%nat -> moved m (mem_move m dst src k) dst src k.
Proof.
  intros H1 H2. unfold mem_move. split.
  - rewrite !length_app, !length_take, !length_drop. lia.
  - intros i. destruct (decide (i < dst)%nat).
    + rewrite lookup_app_l, lookup_take_lt by (rewrite ?length_take; lia).
      by rewrite decide_False by lia.
    + rewrite lookup_app_r by (rewrite length_take; lia).
      rewrite length_take, Nat.min_l by lia.
      destruct (decide (i < dst + k)%nat).
      * rewrite lookup_app_l by (rewrite length_take, length_drop; lia).
        rewrite lookup_take_lt, lookup_drop by lia. by rewrite decide_True by lia.
      * rewrite lookup_app_r by (rewrite length_take, length_drop; lia).
        rewrite length_take, length_drop, Nat.min_l, lookup_drop by lia.
        rewrite decide_False by lia. f_equal. lia.
Qed.

Lemma copy_bytes_ok k : forall m dst src,
  (dst <= src)%nat -> (src + k <= length m)%nat -> moved m (copy_bytes m dst src k) dst src k.
Proof.
  induction k as [|k IH]; intros m dst src H1 H2.
  - split; [done|]. intros i. by rewrite decide_False by lia.
  - cbn [copy_bytes]. set (x := default 0 (m !! src)).
    destruct (IH (<[dst := x]> m) (S dst) (S src)) as [Hl Hi];
      [lia|rewrite length_insert; lia|].
    split; [by rewrite Hl, length_insert|]. intros i. rewrite Hi.
    destruct (decide (S dst <= i < S dst + k)%nat).
    + rewrite list_lookup_insert_ne by lia. rewrite decide_True by lia. f_equal. lia.
    + destruct (decide (i = dst)) as [->|].
      * rewrite list_lookup_insert_eq by lia. rewrite decide_True by lia.
        rewrite Nat.sub_diag, Nat.add_0_r. unfold x.
        destruct (lookup_lt_is_Some_2 m src) as [y ->]; [lia|done].
      * rewrite list_lookup_insert_ne by lia. by rewrite decide_False by lia.
Qed.

(** A part of the memory that is not written to. *)
Lemma moved_before m m' dst src k a b :
  moved m m' dst src k -> (b <= dst)%nat -> buf_bytes m' a b = buf_bytes m a b.
Proof.
  intros [_ H] Hb. apply list_eq. intros i. rewrite !lookup_buf_bytes.
  case_decide; [|done]. rewrite H. by rewrite decide_False by lia.
Qed.

Lemma moved_extends m m' dst src k a :
  moved m m' dst src k -> (a <= dst)%nat -> (dst <= src)%nat -> (src + k <= length m)%nat ->
  buf_bytes m' a (dst + k) = buf_bytes m a dst ++ buf_bytes m src (src + k).
Proof.
  intros [_ H] Ha Hs Hm. apply list_eq. intros i. rewrite lookup_buf_bytes.
  assert (length (buf_bytes m a dst) = (dst - a)%nat) as El.
  { unfold buf_bytes. rewrite length_take, length_drop. lia. }
  destruct (decide (i < dst - a)%nat).
  - rewrite lookup_app_l, lookup_buf_bytes by lia. rewrite !decide_True by lia.
    rewrite H. by rewrite decide_False by lia.
  - rewrite lookup_app_r, El, lookup_buf_bytes by lia.
    destruct (decide (i < dst + k - a)%nat).
    + rewrite H, !decide_True by lia. f_equal. lia.
    + by rewrite decide_False by lia.
Qed.

Lemma moved_after m m' dst src k :
  moved m m' dst src k -> (dst <= src)%nat -> drop (src + k) m' = drop (src + k) m.
Proof.
  intros [_ H] Hs. apply list_eq. intros i. rewrite !lookup_drop, H.
  by rewrite decide_False by lia.
Qed.

(** The output buffers lie before [E], where the last one ends. *)
Definition outs_ok (E : nat) (out : list out_buf) : Prop :=
  Forall (fun b => (ob_pos b <= ob_last b <= E)%nat) out
  /\ forall b, list.last out = Some b -> ob_last b = E.

Definition out_data (m : list Z) (out : list out_buf) : list Z :=
  concat (map (fun b => buf_bytes m (ob_pos b) (ob_last b)) out).

Lemma out_data_app m a b : out_data m (a ++ b) = out_data m a ++ out_data m b.
Proof. unfold out_data. by rewrite map_app, concat_app. Qed.

Lemma out_data_moved m m' dst src k out :
  moved m m' dst src k -> Forall (fun b => (ob_last b <= dst)%nat) out ->
  out_data m' out = out_data m out.
Proof.
  intros Hm H. unfold out_data. f_equal. induction H as [|b out Hb Ho IH]; [done|].
  cbn [map]. rewrite IH. f_equal. by eapply moved_before.
Qed.

(** What taking [k] bytes of data does. *)
Definition took (k : nat) (ctx : ngx_http_chunked_t) (n : Z) (m : list Z) (pos : nat)
    (out : list out_buf) (r : list Z * nat * Z * Z * list out_buf) : Prop :=
  exists m' out' E',
    r = (m', (pos + k)%nat, ck_size ctx - Z.of_nat k, n + Z.of_nat k, out')
    /\ outs_ok E' out' /\ (E' <= pos + k)%nat /\ length m' = length m
    /\ drop (pos + k) m' = drop (pos + k) m
    /\ out_data m' out' = out_data m out ++ buf_bytes m pos (pos + k).

Lemma new_out_buf_ok ctx n m pos last out E :
  outs_ok E out -> (E <= pos < last)%nat -> (last <= length m)%nat -> 0 < ck_size ctx ->
  took (Nat.min (Z.to_nat (ck_size ctx)) (last - pos)) ctx n m pos out
    (new_out_buf ctx n m pos last out).
Proof.
  intros [Ho Hl] Hpos Hm Hs. set (k := Nat.min _ _).
  exists m, (out ++ [OutBuf pos (pos + k)]), (pos + k)%nat. split.
  - unfold new_out_buf. cbv zeta. case_decide.
    + assert (k = Z.to_nat (ck_size ctx)) as -> by lia. rewrite Z2Nat.id by lia.
      by rewrite Z.sub_diag.
    + assert (k = (last - pos)%nat) as -> by lia.
      by replace (pos + (last - pos))%nat with last by lia.
  - split; [|split; [done|split; [done|split; [done|]]]].
    + split.
      * apply Forall_app. split; [|repeat constructor; cbn; lia].
        eapply List.Forall_impl; [|exact Ho]. cbn. lia.
      * intros b. rewrite last_snoc. by intros [= <-].
    + rewrite out_data_app. f_equal. unfold out_data. cbn. by rewrite app_nil_r.
Qed.

Lemma take_chunk_ok ctx n m pos last out E :
  outs_ok E out -> (E <= pos < last)%nat -> (last <= length m)%nat -> 0 < ck_size ctx ->
  took (Nat.min (Z.to_nat (ck_size ctx)) (last - pos)) ctx n m pos out
    (take_chunk ctx n m pos last out).
Proof.
  intros Ho Hpos Hm Hs. pose proof (new_out_buf_ok ctx n m pos last out E Ho Hpos Hm Hs) as Hnew.
  unfold take_chunk. destruct (list.last out) as [b|] eqn:El; [|exact Hnew].
  destruct Ho as [Ho Hl]. specialize (Hl b El).
  apply last_Some in El. destruct El as [out0 ->].
  case_decide as Hc; [|exact Hnew]. clear Hnew.
  set (k := Nat.min _ _). assert (k = Z.to_nat (ck_size ctx)) as Ek by lia.
  cbv zeta. rewrite <- Ek.
  set (m' := if decide (ck_size ctx < 8) then _ else _).
  assert (moved m m' (ob_last b) pos k) as Hmv.
  { unfold m'. case_decide; [apply copy_bytes_ok|apply mem_move_ok]; lia. }
  clearbody m'. apply Forall_app in Ho. destruct Ho as [Ho Hb].
  apply List.Forall_cons_iff in Hb. destruct Hb as [Hb _].
  exists m', (out0 ++ [OutBuf (ob_pos b) (ob_last b + k)]), (ob_last b + k)%nat.
  rewrite removelast_last. split; [|split; [|split; [lia|split; [apply Hmv|split]]]].
  - rewrite Ek, Z2Nat.id by lia. by rewrite Z.sub_diag.
  - split.
    + apply Forall_app. split; [|repeat constructor; cbn; lia].
      eapply List.Forall_impl; [|exact Ho]. cbn. lia.
    + intros x. rewrite last_snoc. by intros [= <-].
  - eapply moved_after; [done|lia].
  - rewrite !out_data_app, <- app_assoc. f_equal.
    + eapply out_data_moved; [done|]. eapply List.Forall_impl; [|exact Ho]. cbn. lia.
    + unfold out_data. cbn. rewrite !app_nil_r. apply (moved_extends m); [done|lia..].
Qed.

(** ** The filter on one buffer *)

(** The body may not be larger than the configuration allows. *)
Definition within (conf : body_conf) (n : Z) : Prop :=
  bc_max_body_size conf = 0 \/ n <= bc_max_body_size conf.

(** The filter's result on a buffer with the bytes [input], [run] being the
    coding from the state before the call.  The limit is only exceeded when the
    size of a chunk says so. *)
Definition filter_ok (conf : body_conf) (n : Z) (m : list Z) (last : nat) (d0 : list Z)
    (run : list Z -> list Z * ck_status) (input : list Z) (r : filter_res) : Prop :=
  match r with
  | Out_of_fuel => False
  | Refused code =>
      (code = NGX_HTTP_BAD_REQUEST /\ snd (run input) = Broken)
      \/ (code = NGX_HTTP_REQUEST_ENTITY_TOO_LARGE /\ bc_max_body_size conf <> 0
          /\ exists a b x size, input = a ++ b /\ run a = (x, More sw_chunk_data size)
             /\ n + Z.of_nat (length x) + size > bc_max_body_size conf)
  | Filtered req m' pos' out last_buf =>
      let d := fst (run input) in
      length m' = length m /\ out_data m' out = d0 ++ d
      /\ br_content_length_n req = n + Z.of_nat (length d)
      /\ (within conf n -> within conf (n + Z.of_nat (length d)))
      /\ ck_ok (ck_st (br_chunked req)) (ck_size (br_chunked req))
      /\ if last_buf then
           br_rest req = 0 /\ ck_st (br_chunked req) = sw_chunk_start
           /\ snd (run input) = Finished (buf_bytes m' pos' last)
         else
           let ctx := br_chunked req in
           pos' = last /\ snd (run input) = More (ck_st ctx) (ck_size ctx)
           /\ ck_length ctx = chunk_length (ck_st ctx) (ck_size ctx)
           /\ br_rest req = Z.max (ck_length ctx) (bc_header_size conf)
  end.

Lemma buf_bytes_suffix m a b pre rest :
  buf_bytes m a b = pre ++ rest -> (b <= length m)%nat -> (a <= b)%nat ->
  (b - length rest = a + length pre)%nat /\ buf_bytes m (b - length rest) b = rest
  /\ (length pre + length rest = b - a)%nat.
Proof.
  intros E Hb Hab. assert (length (buf_bytes m a b) = (b - a)%nat) as El
    by (unfold buf_bytes; rewrite length_take, length_drop; lia).
  rewrite E, length_app in El. split; [lia|]. split; [|done].
  replace (b - length rest)%nat with (a + length pre)%nat by lia.
  transitivity (drop (length pre) (buf_bytes m a b)); [|by rewrite E, drop_app_length].
  unfold buf_bytes. rewrite skipn_firstn_comm, drop_drop. f_equal. lia.
Qed.

Lemma buf_bytes_split m a b c :
  (a <= b <= c)%nat -> buf_bytes m a c = buf_bytes m a b ++ buf_bytes m b c.
Proof.
  intros H. apply list_eq. intros i. rewrite lookup_buf_bytes.
  destruct (decide (a + i < length m)%nat) as [Hm|Hm].
  - destruct (decide (i < b - a)%nat).
    + rewrite lookup_app_l, lookup_buf_bytes
        by (unfold buf_bytes; rewrite length_take, length_drop; lia).
      by rewrite !decide_True by lia.
    + assert (length (buf_bytes m a b) = (b - a)%nat) as El
        by (unfold buf_bytes; rewrite length_take, length_drop; lia).
      rewrite lookup_app_r, El, lookup_buf_bytes by lia.
      destruct (decide (i < c - a)%nat).
      * rewrite decide_True by lia. f_equal. lia.
      * by rewrite decide_False by lia.
  - rewrite (lookup_ge_None_2 m) by lia.
    assert (length (buf_bytes m a b ++ buf_bytes m b c) <= i \/ b - a <= i)%nat as Hi.
    { destruct (decide (b - a <= i)%nat); [by right|left].
      rewrite length_app. unfold buf_bytes. rewrite !length_take, !length_drop. lia. }
    symmetry. case_decide; apply lookup_ge_None_2; rewrite length_app; unfold buf_bytes;
      rewrite !length_take, !length_drop; lia.
Qed.

(** [run] goes through [pre], which holds the data [x], and on as [run']. *)
Definition runs_to (run run' : list Z -> list Z * ck_status) (pre x : list Z) : Prop :=
  forall l, run (pre ++ l) = let '(y, r) := run' l in (x ++ y, r).

Lemma runs_to_trans run1 run2 run3 p1 x1 p2 x2 :
  runs_to run1 run2 p1 x1 -> runs_to run2 run3 p2 x2 ->
  runs_to run1 run3 (p1 ++ p2) (x1 ++ x2).
Proof.
  intros H1 H2 l. rewrite <- app_assoc, H1, H2. destruct (run3 l). by rewrite app_assoc.
Qed.

Lemma filter_ok_app conf n m m' last d0 run run' pre x input r :
  length m' = length m -> (within conf n -> within conf (n + Z.of_nat (length x))) ->
  runs_to run run' pre x ->
  filter_ok conf (n + Z.of_nat (length x)) m' last (d0 ++ x) run' input r ->
  filter_ok conf n m last d0 run (pre ++ input) r.
Proof.
  intros Hm Hw Hr. pose proof (Hr input) as Hi.
  destruct (run' input) as [y st] eqn:E.
  destruct r as [req m2 pos2 out last_buf|code|]; cbn [filter_ok]; [|..|done]; rewrite Hi, E;
    cbn [fst snd].
  - rewrite length_app, Nat2Z.inj_add, <- (app_assoc d0).
    replace (n + (Z.of_nat (length x) + Z.of_nat (length y)))
      with (n + Z.of_nat (length x) + Z.of_nat (length y)) by lia.
    intros (H1 & H2 & H3 & H4 & H5). split_and!; try done; try congruence; try tauto.
  - intros [H|(H1 & H2 & a & b & z & size & -> & Ha & Hgt)]; [by left|right].
    split; [done|]. split; [done|]. exists (pre ++ a), b, (x ++ z), size.
    rewrite <- app_assoc, Hr, Ha, length_app. split; [done|]. split; [done|lia].
Qed.

Lemma chunked_filter_loop_ok fuel conf : forall req m pos last out E n d0,
  (last - pos < fuel)%nat -> (pos <= last <= length m)%nat -> outs_ok E out -> (E <= pos)%nat ->
  ck_ok (ck_st (br_chunked req)) (ck_size (br_chunked req)) ->
  br_content_length_n req = n -> out_data m out = d0 ->
  filter_ok conf n m last d0
    (body_run false (ck_st (br_chunked req)) (ck_size (br_chunked req)))
    (buf_bytes m pos last) (chunked_filter_loop fuel conf req m pos last out).
Proof.
  induction fuel as [|fuel IH]; intros req m pos last out E n d0 Hf Hpos Ho HE Hok Hn Hd; [lia|].
  cbn [chunked_filter_loop]. set (ctx := br_chunked req) in *.
  pose proof (parse_chunked_run ctx false (buf_bytes m pos last) Hok) as H.
  destruct (ngx_http_parse_chunked ctx false (buf_bytes m pos last)) as [[rc ctx'] rest].
  destruct H as [[-> Hb]|[(-> & Hok' & Hst & [pre Epre] & Hr)
                         |(Hrc & Hok' & Hn' & Hlen & pre & Epre & Hr)]].
  - specialize (Hb []). rewrite app_nil_r in Hb. cbn. left. by rewrite Hb.
  - specialize (Hr []). rewrite !app_nil_r in Hr.
    destruct (buf_bytes_suffix m pos last pre rest Epre) as (Ep & Er & El); [lia..|].
    rewrite (decide_False (P := NGX_DONE = NGX_OK)), (decide_True (P := NGX_DONE = NGX_DONE))
      by done.
    cbn [filter_ok]. rewrite Hr. cbn [br_chunked br_content_length_n br_rest length fst snd].
    rewrite app_nil_r, Z.add_0_r, Er. by split_and!.
  - destruct Hrc as [[-> ->]|(-> & Hrest & Hst)].
    + rewrite app_nil_r in Epre. subst pre. specialize (Hr []). rewrite app_nil_r in Hr.
      cbn [body_run] in Hr. rewrite norm_id in Hr by done.
      rewrite (decide_False (P := NGX_AGAIN = NGX_OK)), (decide_False (P := NGX_AGAIN = NGX_DONE)),
        (decide_True (P := NGX_AGAIN = NGX_AGAIN)) by done.
      cbn [filter_ok]. rewrite Hr. cbn [br_chunked br_content_length_n br_rest length fst snd].
      rewrite app_nil_r, Z.add_0_r, Nat.sub_0_r. by split_and!.
    + destruct (buf_bytes_suffix m pos last pre rest Epre) as (Ep & Er & El); [lia..|].
      set (pos1 := (last - length rest)%nat) in *.
      rewrite Epre, Hst in *. specialize (Hn' eq_refl). destruct Hok' as [Hsz Hx].
      rewrite (decide_True (P := NGX_OK = NGX_OK)) by done.
      assert (0 < length rest)%nat as Hlr by (destruct rest; [done|cbn; lia]).
      case_decide as Hmax.
      { cbn [filter_ok]. right. split; [done|]. split; [tauto|].
        exists pre, rest, [], (ck_size ctx'). split; [done|].
        specialize (Hr []). rewrite app_nil_r in Hr. rewrite Hr. cbn [body_run].
        rewrite norm_id by (intros _; exact Hn'). split; [done|]. rewrite <- Hn. cbn. lia. }
      destruct (take_chunk_ok ctx' (br_content_length_n req) m pos1 last out E Ho)
        as (m' & out' & E' & -> & Ho' & HE' & Hl' & Hdrop & Hdata); [lia..|].
      set (k := Nat.min _ _) in *. set (x := buf_bytes m pos1 (pos1 + k)) in *.
      assert (length x = k) as Ek
        by (unfold x, buf_bytes; rewrite length_take, length_drop; lia).
      assert (rest = x ++ buf_bytes m' (pos1 + k) last) as Esplit.
      { rewrite <- Er at 1. rewrite (buf_bytes_split m pos1 (pos1 + k) last) by lia.
        f_equal. unfold buf_bytes. by rewrite Hdrop. }
      rewrite <- Ek.
      rewrite Esplit at 1. rewrite app_assoc.
      eapply (filter_ok_app _ _ _ m' _ _ _
                (body_run false sw_chunk_data (ck_size ctx' - Z.of_nat (length x))) _ x).
      * exact Hl'.
      * unfold within. lia.
      * intros l. rewrite <- app_assoc, Hr. apply run_data. lia.
      * rewrite Ek. apply (IH (BodyReq (Ck sw_chunk_data (ck_size ctx' - Z.of_nat k)
                    (ck_length ctx')) (br_content_length_n req + Z.of_nat k) (br_rest req))
                  m' (pos1 + k)%nat last out' E');
          cbn [br_chunked br_content_length_n ck_st ck_size];
          [lia|lia|exact Ho'|exact HE'|split; [lia|intros [[=]|[=]]]|by rewrite Hn|].
        by rewrite Hdata, Hd.
Qed.

(** ** The filter on a chain of buffers *)

Definition ib_ok (b : in_buf) : Prop := (ib_pos b <= ib_last b <= length (ib_mem b))%nat.
Definition ib_bytes (b : in_buf) : list Z := buf_bytes (ib_mem b) (ib_pos b) (ib_last b).
Definition chain_bytes (bufs : list in_buf) : list Z := concat (map ib_bytes bufs).

Definition chain_data (l : list (list Z * list out_buf * bool)) : list Z :=
  concat (map (fun '(m, out, _) => out_data m out) l).

(** The body does not end before the last buffer. *)
Definition ends_last (run : list Z -> list Z * ck_status) (bufs : list in_buf) : Prop :=
  forall a b rest, bufs = a ++ b -> b <> [] -> snd (run (chain_bytes a)) <> Finished rest.

(** The chain's result. *)
Definition chain_ok (conf : body_conf) (n : Z) (run : list Z -> list Z * ck_status)
    (bufs : list in_buf) (r : option (body_req * list (list Z * list out_buf * bool)) + Z) : Prop :=
  let input := chain_bytes bufs in
  match r with
  | inl None => False
  | inr code =>
      (code = NGX_HTTP_BAD_REQUEST /\ snd (run input) = Broken)
      \/ (code = NGX_HTTP_REQUEST_ENTITY_TOO_LARGE /\ bc_max_body_size conf <> 0
          /\ exists a b x size, input = a ++ b /\ run a = (x, More sw_chunk_data size)
             /\ n + Z.of_nat (length x) + size > bc_max_body_size conf)
  | inl (Some (req, l)) =>
      let d := fst (run input) in
      chain_data l = d
      /\ br_content_length_n req = n + Z.of_nat (length d)
      /\ (within conf n -> within conf (n + Z.of_nat (length d)))
      /\ match snd (run input) with
         | Broken => False
         | Finished _ => br_rest req = 0
         | More state size =>
             let ctx := br_chunked req in
             norm (ck_st ctx) (ck_size ctx) = state /\ ck_size ctx = size
             /\ (bufs <> [] -> ck_length ctx = chunk_length state size
                 /\ br_rest req = Z.max (ck_length ctx) (bc_header_size conf))
         end
  end.

Lemma run_broken keep state size a b :
  snd (body_run keep state size a) = Broken ->
  snd (body_run keep state size (a ++ b)) = Broken.
Proof. rewrite run_app. by destruct (body_run keep state size a) as [d []]. Qed.

Lemma chain_bytes_cons b bufs : chain_bytes (b :: bufs) = ib_bytes b ++ chain_bytes bufs.
Proof. done. Qed.

Lemma chunked_filter_chain_ok conf bufs : forall req,
  Forall ib_ok bufs -> ck_ok (ck_st (br_chunked req)) (ck_size (br_chunked req)) ->
  let run := body_run false (ck_st (br_chunked req)) (ck_size (br_chunked req)) in
  ends_last run bufs ->
  chain_ok conf (br_content_length_n req) run bufs
    (chunked_filter_chain conf req bufs).
Proof.
  induction bufs as [|b bufs IH]; intros req Hb Hok run Hlast.
  { cbn. rewrite Z.add_0_r. by split_and!. }
  apply List.Forall_cons_iff in Hb. destruct Hb as [Hib Hb]. unfold ib_ok in Hib.
  cbn [chunked_filter_chain].
  pose proof (chunked_filter_loop_ok (S (ib_last b - ib_pos b)) conf req (ib_mem b) (ib_pos b)
                (ib_last b) [] 0 (br_content_length_n req) []) as H.
  specialize (H ltac:(lia) Hib ltac:(split; [constructor|done]) ltac:(lia) Hok eq_refl eq_refl).
  fold run in H. change (buf_bytes _ _ _) with (ib_bytes b) in H.
  unfold chain_ok. rewrite chain_bytes_cons.
  destruct (chunked_filter_loop _ _ _ _ _ _ _) as [req1 m1 pos1 out1 last1|code|];
    [| |contradiction].
  - cbn [filter_ok] in H. destruct H as (Hl & Hd & Hn & Hw & Hok1 & Hst). cbn [app] in Hd.
    destruct last1.
    + destruct Hst as (Hr0 & Hs & Hfin).
      assert (bufs = []) as ->.
      { destruct bufs as [|b2 bufs]; [done|]. exfalso.
        apply (Hlast [b] (b2 :: bufs) (buf_bytes m1 pos1 (ib_last b))); [done|done|].
        unfold chain_bytes. cbn [map concat]. by rewrite app_nil_r. }
      cbn [chunked_filter_chain chain_ok chain_bytes map concat]. rewrite app_nil_r, Hfin.
      unfold chain_data. cbn [map concat]. rewrite app_nil_r. by split_and!.
    + destruct Hst as (_ & Hmore & Hlen & Hrest).
      set (run1 := body_run false (ck_st (br_chunked req1)) (ck_size (br_chunked req1))) in *.
      assert (runs_to run run1 (ib_bytes b) (fst (run (ib_bytes b)))) as Hr.
      { intros l. unfold run. rewrite run_app. fold run.
        destruct (run (ib_bytes b)) as [d st]. cbn [fst snd] in *. by rewrite Hmore. }
      specialize (IH req1 Hb Hok1). cbv zeta in IH. fold run1 in IH.
      assert (ends_last run1 bufs) as Hlast1.
      { intros a c rest -> Hc. specialize (Hlast (b :: a) c rest eq_refl Hc).
        rewrite chain_bytes_cons, Hr in Hlast. by destruct (run1 (chain_bytes a)). }
      specialize (IH Hlast1). pose proof (Hr (chain_bytes bufs)) as Hri.
      destruct (run1 (chain_bytes bufs)) as [y st] eqn:Ey.
      destruct (chunked_filter_chain conf req1 bufs) as [[[req2 l]|]|code] eqn:Ec;
        cbn [chain_ok] in IH |- *; [|done|]; rewrite Hri; rewrite ?Ey in IH;
        cbn [fst snd] in IH |- *.
      * destruct IH as (I1 & I2 & I3 & I4). unfold chain_data in *. cbn [map concat].
        rewrite Hd, I1, length_app, I2, Hn.
        split; [done|]. split; [lia|]. split.
        { intros Hw0. specialize (Hw Hw0). rewrite Hn in I3.
          rewrite Nat2Z.inj_add, Z.add_assoc. tauto. }
        destruct st; [|done|done]. destruct I4 as (I4 & I5 & I6).
        split; [done|]. split; [done|]. intros _.
        destruct bufs as [|b2 bufs]; [|by apply I6].
        cbn in Ec, Ey. injection Ec as <- _. injection Ey as _ <- <-.
        pose proof (length_norm (ck_st (br_chunked req1)) (ck_size (br_chunked req1))). split; congruence.
      * destruct IH as [[-> IH]|(-> & Hmx & a & c & z & size & Ea & Hz & Hgt)]; [by left|right].
        split; [done|]. split; [done|].
        exists (ib_bytes b ++ a), c, (fst (run (ib_bytes b)) ++ z), size.
        rewrite Ea, <- app_assoc, Hr, Hz, length_app. split; [done|]. split; [done|].
        rewrite Hn in Hgt. lia.
  - cbn [filter_ok] in H.
    destruct H as [[-> H]|(-> & Hmx & a & c & z & size & Ea & Hz & Hgt)]; [left|right].
    + split; [done|]. by apply run_broken.
    + split; [done|]. split; [done|]. exists a, (c ++ chain_bytes bufs), z, size.
      rewrite Ea, <- app_assoc. done.
Qed.

(** ** The filter implements the coding *)

(** The input ends a body, with some data, or goes on after its end. *)
Definition ends (state : ck_state) (size : Z) (input data : list Z) : Prop :=
  exists text rest, input = text ++ rest /\ remains state size text data.

(** The least length of what completes a body. *)
Definition least_rest (state : ck_state) (size : Z) (len : Z) : Prop :=
  (forall text d, bytes text -> remains state size text d -> len <= Z.of_nat (length text))
  /\ exists text d, bytes text /\ remains state size text d /\ Z.of_nat (length text) = len.

(** The size of the chunk, of which more digits may follow, is already too
    large; the next byte will be refused whatever it is. *)
Definition size_over (ctx : ngx_http_chunked_t) : Prop :=
  ck_st ctx = sw_chunk_size /\ ck_size ctx > NGX_MAX_OFF_T_VALUE / 16.

(** The body has not ended in the input, which holds the data [d] of it: what
    completes it is what completes a body from [ctx]. *)
Definition goes_on (state : ck_state) (size : Z) (input d : list Z) (ctx : ngx_http_chunked_t)
  : Prop :=
  (forall d', ~ ends state size input d')
  /\ (forall more d', bytes more ->
        ends state size (input ++ more) d'
        <-> exists d2, d' = d ++ d2 /\ ends (ck_st ctx) (ck_size ctx) more d2)
  /\ (size_over ctx \/ exists more d', bytes more /\ ends state size (input ++ more) d').

(** The result of the filter for a body of which [n] bytes of data were already
    counted and whose rest begins in the chain. *)
Definition filter_result (conf : body_conf) (n : Z) (state : ck_state) (size : Z)
    (bufs : list in_buf) (r : option (body_req * list (list Z * list out_buf * bool)) + Z) : Prop :=
  let input := chain_bytes bufs in
  let max := bc_max_body_size conf in
  match r with
  | inl None => False
  | inl (Some (req, l)) =>
      let d := chain_data l in
      let ctx := br_chunked req in
      br_content_length_n req = n + Z.of_nat (length d)
      /\ (within conf n -> within conf (n + Z.of_nat (length d)))
      /\ (ends state size input d /\ br_rest req = 0
          \/ goes_on state size input d ctx
             /\ (bufs <> [] ->
                 br_rest req = Z.max (ck_length ctx) (bc_header_size conf)
                 /\ (size_over ctx \/ least_rest (ck_st ctx) (ck_size ctx) (ck_length ctx))))
  | inr code =>
      code = NGX_HTTP_BAD_REQUEST
      /\ (forall more d, bytes more -> ~ ends state size (input ++ more) d)
      \/ code = NGX_HTTP_REQUEST_ENTITY_TOO_LARGE /\ max <> 0
         /\ exists a b, input = a ++ b
            /\ (exists more d, bytes more /\ ends state size (a ++ more) d)
            /\ (forall more d, bytes more -> ends state size (a ++ more) d ->
                n + Z.of_nat (length d) > max)
  end.

Lemma run_ends state size l d :
  bytes l -> ck_ok state size ->
  ends state size l d <-> exists rest, body_run false state size l = (d, Finished rest).
Proof.
  intros Hb Hok. unfold ends. setoid_rewrite (run_finished state size l d _ Hb Hok). naive_solver.
Qed.

Lemma bytes_app (a b : list Z) : bytes (a ++ b) <-> bytes a /\ bytes b.
Proof. apply List.Forall_app. Qed.

(** The state that a run leaves is valid. *)
Lemma ck_run_ok l : forall keep state size d st s,
  ck_ok state size -> body_run keep state size l = (d, More st s) -> ck_ok st s /\ normal st s.
Proof.
  induction l as [|c l IH]; intros keep state size d st s Hok;
    rewrite <- run_norm; pose proof (norm_ok _ _ Hok) as Hok1;
    pose proof (norm_normal state size) as Hn; set (s0 := norm state size) in *; clearbody s0.
  - cbn [body_run]. rewrite norm_id by done. by intros [= _ <- <-].
  - destruct (decide (s0 = sw_chunk_data)) as [->|Hd].
    + change (c :: l) with ([c] ++ l). specialize (Hn eq_refl). destruct Hok as [Hs _].
      rewrite run_data by (cbn; lia). change (Z.of_nat (length [c])) with 1.
      destruct (body_run keep sw_chunk_data (size - 1) l) as [x r] eqn:E. intros [= _ ->].
      eapply IH; [|exact E]. split; [lia|by intros [|]].
    + rewrite run_step by done. destruct (chunk_step keep s0 size c) as [st' size'| | |] eqn:E; try done.
      destruct (step_ok _ _ _ _ _ _ Hok1 Hn E) as [[Hok' _]|[_ Hbig]]; [|by rewrite decide_True].
      case_decide; [done|]. by apply IH.
Qed.

Lemma run_goes_on state size input d st s :
  bytes input -> ck_ok state size -> body_run false state size input = (d, More st s) ->
  forall more d', bytes more ->
  ends state size (input ++ more) d' <-> exists d2, d' = d ++ d2 /\ ends st s more d2.
Proof.
  intros Hb Hok Hr more d' Hm. destruct (ck_run_ok _ _ _ _ _ _ _ Hok Hr) as [Hok' _].
  assert (bytes (input ++ more)) as Ha by (by apply bytes_app).
  rewrite run_ends by done. setoid_rewrite (run_ends st s more _ Hm Hok').
  rewrite run_app, Hr. destruct (body_run false st s more) as [y r]. naive_solver.
Qed.

Lemma completion_bytes state size : bytes (completion state size).
Proof.
  assert (bytes (data_end size)) as H.
  { apply bytes_app. split; [|by_decide]. apply Forall_replicate. by_decide. }
  destruct state; cbn [completion]; repeat case_decide; try by_decide;
    try exact H; (apply List.Forall_cons; [by_decide|exact H]).
Qed.

Lemma completion_remains state size :
  ck_ok state size -> (state = sw_chunk_size -> size <= NGX_MAX_OFF_T_VALUE / 16) ->
  exists d, remains state size (completion state size) d.
Proof.
  intros Hok Hs. pose proof (completion_run state size Hok Hs) as H.
  destruct (body_run false state size (completion state size)) as [d r] eqn:E. cbn in H. subst r.
  exists d. apply run_remains; [apply completion_bytes|done|done].
Qed.

Lemma remains_ends state size text d : remains state size text d -> ends state size text d.
Proof. intros H. exists text, []. by rewrite app_nil_r. Qed.

Lemma least_rest_ok state size :
  ck_ok state size -> (state = sw_chunk_size -> size <= NGX_MAX_OFF_T_VALUE / 16) ->
  least_rest state size (chunk_length state size).
Proof.
  intros Hok Hs. split.
  - intros text d Hb H. apply (run_remains text state size d Hb Hok) in H.
    apply length_lower in H; [|done]. cbn in H. lia.
  - destruct (completion_remains state size Hok Hs) as [d H].
    exists (completion state size), d. split; [apply completion_bytes|]. split; [done|].
    apply completion_length. apply Hok.
Qed.

(** A context is too far, or can be completed. *)
Lemma over_or (ctx : ngx_http_chunked_t) :
  size_over ctx \/ (ck_st ctx = sw_chunk_size -> ck_size ctx <= NGX_MAX_OFF_T_VALUE / 16).
Proof.
  unfold size_over. destruct (decide (ck_st ctx = sw_chunk_size)); [|by right].
  destruct (decide (ck_size ctx > NGX_MAX_OFF_T_VALUE / 16)); [by left|right; lia].
Qed.

(** A chunk that was announced is in the body when the body ends. *)
Lemma data_owed size b y r :
  body_run false sw_chunk_data size b = (y, Finished r) -> size <= Z.of_nat (length y).
Proof.
  intros E. destruct (decide (size <= 0)); [lia|].
  destruct (decide (Z.of_nat (length b) <= size)) as [Hb|Hb].
  - rewrite <- (app_nil_r b), run_data in E by lia. cbn [body_run] in E. congruence.
  - rewrite <- (take_drop (Z.to_nat size) b), run_data in E by (rewrite length_take; lia).
    destruct (body_run _ _ _ _) as [x st]. injection E as <- _.
    rewrite length_app, length_take. lia.
Qed.

Lemma ends_norm state size l d : ends (norm state size) size l d <-> ends state size l d.
Proof. unfold ends. by setoid_rewrite remains_norm. Qed.

(** A body whose beginning announces a chunk has all of its data. *)
Lemma announced state size a x s :
  bytes a -> ck_ok state size -> body_run false state size a = (x, More sw_chunk_data s) ->
  (exists more d, bytes more /\ ends state size (a ++ more) d)
  /\ forall more d, bytes more -> ends state size (a ++ more) d ->
     Z.of_nat (length x) + s <= Z.of_nat (length d).
Proof.
  intros Hb Hok Hr. destruct (ck_run_ok _ _ _ _ _ _ _ Hok Hr) as [Hok' _].
  pose proof (run_goes_on _ _ _ _ _ _ Hb Hok Hr) as Hg. split.
  - destruct (completion_remains sw_chunk_data s Hok' ltac:(done)) as [d Hd].
    exists (completion sw_chunk_data s), (x ++ d). split; [apply completion_bytes|].
    apply Hg; [apply completion_bytes|]. exists d. split; [done|]. by apply remains_ends.
  - intros more d Hm Hd. apply Hg in Hd; [|done]. destruct Hd as (y & -> & Hy).
    apply run_ends in Hy; [|done|done]. destruct Hy as [r Hy]. apply data_owed in Hy.
    rewrite length_app. lia.
Qed.

Lemma run_ends_last state size bufs :
  ck_ok state size -> bytes (chain_bytes bufs) ->
  (forall a b d, bufs = a ++ b -> b <> [] -> ~ ends state size (chain_bytes a) d) ->
  ends_last (body_run false state size) bufs.
Proof.
  intros Hok Hb H a b rest -> Hne E.
  unfold chain_bytes in Hb. rewrite map_app, concat_app, bytes_app in Hb. destruct Hb as [Hb _].
  destruct (body_run false state size (chain_bytes a)) as [d r] eqn:Er. cbn in E. subst r.
  apply (H a b d eq_refl Hne). apply run_ends; [done|done|by exists rest].
Qed.

Lemma chain_result conf n state size bufs r :
  ck_ok state size -> bytes (chain_bytes bufs) ->
  chain_ok conf n (body_run false state size) bufs r -> filter_result conf n state size bufs r.
Proof.
  intros Hok Hb. unfold chain_ok, filter_result. set (input := chain_bytes bufs) in *.
  destruct r as [[[req l]|]|code]; [|done|].
  - intros (-> & Hn & Hw & Hst). split; [done|]. split; [done|].
    destruct (body_run false state size input) as [d [st s|rest|]] eqn:Er; cbn [fst snd] in *.
    + right. destruct Hst as (Hst & <- & Hlen). set (ctx := br_chunked req) in *.
      pose proof (run_goes_on _ _ _ _ _ _ Hb Hok Er) as Hg.
      destruct (ck_run_ok _ _ _ _ _ _ _ Hok Er) as [Hok' _].
      assert (size_over ctx \/ (st = sw_chunk_size -> ck_size ctx <= NGX_MAX_OFF_T_VALUE / 16)) as Ho.
      { destruct (over_or ctx) as [|H]; [by left|right]. intros ->. apply H.
        unfold norm in Hst. by case_decide. }
      split.
      * split; [|split].
        -- intros d' Hd. apply run_ends in Hd; [|done|done]. rewrite Er in Hd. naive_solver.
        -- intros more d' Hm. rewrite Hg by done. rewrite <- Hst. by setoid_rewrite ends_norm.
        -- destruct Ho as [|Ho]; [by left|right].
           destruct (completion_remains st _ Hok' Ho) as [y Hy].
           exists (completion st (ck_size ctx)), (d ++ y). split; [apply completion_bytes|].
           apply Hg; [apply completion_bytes|]. exists y. split; [done|]. by apply remains_ends.
      * intros Hne. destruct (Hlen Hne) as [Hl Hrest]. split; [done|].
        destruct Ho as [|Ho]; [by left|right]. rewrite Hl.
        destruct (least_rest_ok st (ck_size ctx) Hok' Ho) as [H1 H2]. rewrite <- Hst in H1, H2.
        setoid_rewrite remains_norm in H1. setoid_rewrite remains_norm in H2. by rewrite <- Hst.
    + left. split; [|done]. apply run_ends; [done|done|by exists rest].
    + done.
  - intros [[-> H]|(-> & Hm & a & b & x & s & E & Ha & Hgt)]; [left|right].
    + split; [done|]. intros more d Hmore Hd.
      apply run_ends in Hd; [|by apply bytes_app|done]. destruct Hd as [rest Hd].
      pose proof (run_broken false state size input more H) as Hx. by rewrite Hd in Hx.
    + split; [done|]. split; [done|]. exists a, b. split; [done|].
      rewrite E in Hb. apply bytes_app in Hb. destruct Hb as [Hb _].
      destruct (announced _ _ _ _ _ Hb Hok Ha) as [H1 H2]. split; [done|].
      intros more d Hmore Hd. specialize (H2 more d Hmore Hd). lia.
Qed.

(** C14: the request filter implements the chunked coding. The coding is the
    grammar [chunked_body] of texts with their data: size lines (a hexadecimal
    numeral up to [NGX_MAX_OFF_T_VALUE] / 16, an extension), as many bytes of
    data and an end of line, a last chunk of size zero and a trailer, where a
    line may also end with LF alone; [remains] is what is left of it after a
    part. For every cut of the rest of a body into buffers, from a new or any
    valid context: the filter terminates; its output buffers, in the memory that
    it rewrites in place, hold the data of the body up to its end or up to the
    end of the input, their length is counted and does not pass the limit; the
    context that it leaves stands for the rest of the body, of which
    [ctx->length] is the least length; 400 is only returned when no continuation
    of the input is a body, and 413 only when every body that goes on from a
    prefix of the input is longer than the limit. A size that is already larger
    than the numeral may be is only refused at the next byte ([size_over]). *)
Theorem chunked_filter_exact conf req bufs :
  Forall ib_ok bufs -> bytes (chain_bytes bufs) ->
  let req0 :=
    if decide (br_rest req = -1) then BodyReq chunked_zero 0 (bc_header_size conf) else req in
  let state := ck_st (br_chunked req0) in
  let size := ck_size (br_chunked req0) in
  ck_ok state size ->
  (forall a b d, bufs = a ++ b -> b <> [] -> ~ ends state size (chain_bytes a) d) ->
  filter_result conf (br_content_length_n req0) state size bufs
    (ngx_http_request_body_chunked_filter conf req bufs).
Proof.
  intros Hb Hbytes req0 state size Hok Hl. apply chain_result; [done|done|].
  unfold ngx_http_request_body_chunked_filter. fold req0.
  apply chunked_filter_chain_ok; [done|done|]. by apply run_ends_last.
Qed.

(** [ctx->length] is exact: after [NGX_OK] or [NGX_AGAIN] no continuation of
    the input completes the body with fewer bytes, and one completes it with
    just as many, unless the size was already too large for the next check. *)
Theorem chunked_length_exact ctx buf :
  ck_ok (ck_st ctx) (ck_size ctx) ->
  let '(rc, ctx', _) := ngx_http_parse_chunked ctx false buf in
  rc = NGX_OK \/ rc = NGX_AGAIN ->
  (forall more d rest,
     body_run false (ck_st ctx') (ck_size ctx') more = (d, Finished rest) ->
     ck_length ctx' <= Z.of_nat (length more) - Z.of_nat (length rest))
  /\ (ck_st ctx' <> sw_chunk_size \/ ck_size ctx' <= NGX_MAX_OFF_T_VALUE / 16 ->
      exists more d,
        Z.of_nat (length more) = ck_length ctx'
        /\ body_run false (ck_st ctx') (ck_size ctx') more = (d, Finished [])).
Proof.
  intros Hok. pose proof (parse_chunked_run ctx false buf Hok) as H.
  destruct (ngx_http_parse_chunked ctx false buf) as [[rc ctx'] rest].
  intros Hrc. destruct H as [[-> _]|[[-> _]|(_ & Hok' & _ & Hlen & _)]];
    [by destruct Hrc..|]. rewrite Hlen. split.
  - intros more d rest' Hm. by apply length_lower in Hm.
  - intros Hs. exists (completion (ck_st ctx') (ck_size ctx')).
    exists (fst (body_run false (ck_st ctx') (ck_size ctx')
                   (completion (ck_st ctx') (ck_size ctx')))).
    split; [apply completion_length; apply Hok'|].
    rewrite <- completion_run with (state := ck_st ctx') (size := ck_size ctx');
      [apply surjective_pairing|done|]. intros E. destruct Hs; [done|lia].
Qed.

(** ** What the response filter writes is read back *)

(** The data of a call. *)
Definition call_data (bufs : list resp_buf) : list Z := concat (map rs_data bufs).

Definition is_last_call (bufs : list resp_buf) : bool :=
  match list.last bufs with Some b => rs_last_buf b | None => false end.

(** A trailer that is sent has no line break in its key and value. *)
Definition trailer_ok (t : trailer) : Prop :=
  tr_hash t <> 0 -> Forall (fun c => c <> CR /\ c <> LF) (tr_key t ++ tr_value t).

Lemma ck_digit_hex c : is_byte c -> is_hex c = true -> ck_digit c = Some (hex_val c).
Proof. intros Hb. byte_sweep c Hb. Qed.

Lemma hex_run ds v l :
  Forall (fun c => ck_digit c = Some (hex_val c)) ds -> 0 <= v ->
  numeral 16 hex_val v ds <= NGX_MAX_OFF_T_VALUE / 16 ->
  body_run false sw_chunk_size v (ds ++ l)
  = body_run false sw_chunk_size (numeral 16 hex_val v ds) l.
Proof.
  intros H. revert v. induction H as [|c ds Hc Hs IH]; intros v Hv Hm; [done|].
  change (numeral 16 hex_val v (c :: ds)) with (numeral 16 hex_val (v * 16 + hex_val c) ds) in *.
  pose proof (ck_digit_range _ _ Hc) as Hr.
  assert (v * 16 + hex_val c <= numeral 16 hex_val (v * 16 + hex_val c) ds) as Hge.
  { apply numeral_ge; [lia|lia|]. eapply List.Forall_impl; [|exact Hs]. cbn.
    intros x Hx. pose proof (ck_digit_range _ _ Hx). lia. }
  change (NGX_MAX_OFF_T_VALUE / 16) with 576460752303423487 in *.
  cbn [app]. rewrite run_step by done. cbn [chunk_step].
  change (NGX_MAX_OFF_T_VALUE / 16) with 576460752303423487.
  rewrite decide_False, Hc by lia. unfold NGX_MAX_OFF_T_VALUE.
  rewrite decide_False by lia. apply IH; lia.
Qed.

(** *** The size line *)

Lemma chunk_line size :
  0 < size < 2 ^ 63 ->
  exists ds, ngx_sprintf (bstr "%xO" ++ [CR; LF]) [AInt size] = Some (ds ++ [CR; LF])
    /\ ds <> [] /\ Forall (fun c => ck_digit c = Some (hex_val c)) ds
    /\ numeral 16 hex_val 0 ds = size.
Proof.
  intros Hs. exists (num_digits 20 16 size lower_hex []).
  destruct (num_digits_spec 16 lower_hex hex_val
    (fun c => is_hex c && bool_decide (is_byte c)) ltac:(lia)
    (fun d Hd => hex_digit_ok false d Hd) 20 size) as (Ev & Eg & Hne & _); [|lia|].
  { change (16 ^ Z.of_nat 20) with (2 ^ 80). lia. }
  split; [|split; [done|split; [|done]]].
  - unfold ngx_sprintf, ngx_vslprintf.
    change (bstr "%xO" ++ [CR; LF]) with ("%" :: "x" :: "O" :: CR :: LF :: []).
    cbn [length]. rewrite vslprintf_conv by done.
    change (parse_width 0 _) with (0, "x" :: "O" :: CR :: LF :: []). cbv zeta beta iota.
    change (parse_flags _ _ _) with
      (Some (Conv " " 0 false 1 false 0 None, "O" :: CR :: LF :: [], [AInt size])).
    cbv beta iota.
    assert (do_conv None [] (Conv " " 0 false 1 false 0 None) "O" [AInt size]
            = Some (num_digits 20 16 size lower_hex [], [])) as ->.
    { change (do_conv _ _ _ _ _) with
        ('(sign, v, width, zero, hex) ← int_conv (Conv " " 0 false 1 false 0 None) "O" size;
         let out := if sign && bool_decide (v < 0) then [] ++ ["-"] else [] in
         let ui64 := if sign && bool_decide (v < 0) then u64 (- v) else u64 v in
         Some (ngx_sprintf_num None out ui64 zero hex width, @nil va_arg)).
      change (int_conv _ _ _) with (Some (true, s64 size, 0, " " : Z, 1)).
      rewrite s64_small by lia. cbn [mbind option_bind andb].
      rewrite bool_decide_eq_false_2 by lia. rewrite u64_small by lia.
      unfold ngx_sprintf_num. rewrite decide_False, decide_True by done.
      rewrite pad_num_none. replace (Z.to_nat _) with 0%nat by lia. done. }
    rewrite vslprintf_plain by done. rewrite vslprintf_plain by done.
    cbn [vslprintf_loop]. by rewrite <- app_assoc.
  - apply List.Forall_forall. intros c Hc. rewrite forallb_forall in Eg. specialize (Eg c Hc).
    apply andb_true_iff in Eg. destruct Eg as [E1 E2]. apply bool_decide_eq_true in E2.
    by apply ck_digit_hex.
Qed.

(** A whole chunk, up to its data, and the line break after the data. *)
Lemma run_chunk_head s ds size l :
  ds <> [] -> Forall (fun c => ck_digit c = Some (hex_val c)) ds ->
  numeral 16 hex_val 0 ds = size -> 0 < size <= NGX_MAX_OFF_T_VALUE / 16 ->
  body_run false sw_chunk_start s (ds ++ CR :: LF :: l) = body_run false sw_chunk_data size l.
Proof.
  intros Hne Hds Hv Hs. change (NGX_MAX_OFF_T_VALUE / 16) with 576460752303423487 in *.
  destruct ds as [|c ds]; [done|]. apply List.Forall_cons_iff in Hds. destruct Hds as [Hc Hds].
  pose proof (ck_digit_range _ _ Hc).
  assert (forall x, x <= 576460752303423487 -> ~ x > NGX_MAX_OFF_T_VALUE - 5) as Hb
    by (unfold NGX_MAX_OFF_T_VALUE; lia).
  change (numeral 16 hex_val 0 (c :: ds)) with (numeral 16 hex_val (hex_val c) ds) in Hv.
  cbn [app]. rewrite run_step by done. cbn [chunk_step]. rewrite Hc.
  rewrite decide_False by (apply Hb; lia).
  rewrite hex_run by (done || lia || (change (NGX_MAX_OFF_T_VALUE / 16) with 576460752303423487; lia)).
  rewrite Hv. rewrite run_step by done. cbn [chunk_step].
  change (NGX_MAX_OFF_T_VALUE / 16) with 576460752303423487. rewrite decide_False by lia.
  change (ck_digit CR) with (@None Z). rewrite decide_False by lia.
  rewrite decide_True by done. rewrite decide_False by (apply Hb; lia).
  rewrite run_step by done. cbn [chunk_step]. rewrite decide_True by done.
  by rewrite decide_False by (apply Hb; lia).
Qed.

Lemma run_after_data l :
  body_run false sw_chunk_data 0 (CR :: LF :: l) = body_run false sw_chunk_start 0 l.
Proof. done. Qed.

Lemma run_last_line s l :
  body_run false sw_chunk_start s ("0" :: CR :: LF :: l) = body_run false sw_trailer 0 l.
Proof. done. Qed.

(** *** Trailers *)

Lemma run_header_line k l :
  Forall (fun c => c <> CR /\ c <> LF) k ->
  body_run false sw_trailer_header 0 (k ++ CR :: LF :: l) = body_run false sw_trailer 0 l.
Proof.
  induction 1 as [|c k [H1 H2] Hk IH]; [done|].
  cbn [app]. rewrite run_step by done. cbn [chunk_step].
  do 2 rewrite decide_False by done. by rewrite decide_False by done.
Qed.

Lemma run_trailer t l :
  trailer_ok t ->
  body_run false sw_trailer 0 (trailer_line t ++ l) = body_run false sw_trailer 0 l.
Proof.
  unfold trailer_ok, trailer_line. case_decide as Hh; [done|]. intros H. specialize (H Hh).
  apply Forall_app in H. destruct H as [Hk Hv].
  rewrite <- !app_assoc. set (rest := bstr ": " ++ tr_value t ++ [CR; LF] ++ l).
  assert (exists c k, tr_key t ++ rest = c :: k ++ CR :: LF :: l
            /\ c <> CR /\ c <> LF /\ Forall (fun c => c <> CR /\ c <> LF) k)
    as (c & k & -> & H1 & H2 & Hkk).
  { unfold rest. change (bstr ": ") with [":"; " "].
    destruct (tr_key t) as [|c k].
    - exists ":", (" " :: tr_value t). split; [done|]. split; [done|]. split; [done|].
      constructor; [done|exact Hv].
    - apply List.Forall_cons_iff in Hk. destruct Hk as [[? ?] Hk].
      exists c, (k ++ ":" :: " " :: tr_value t). cbn [app]. rewrite <- !app_assoc.
      split; [done|]. split; [done|]. split; [done|]. apply Forall_app. split; [exact Hk|].
      constructor; [done|]. constructor; [done|exact Hv]. }
  rewrite run_step by done. cbn [chunk_step]. do 2 rewrite decide_False by done.
  rewrite decide_False by done. by apply run_header_line.
Qed.

Lemma run_trailers ts l :
  Forall trailer_ok ts ->
  body_run false sw_trailer 0 (concat (map trailer_line ts) ++ l)
  = body_run false sw_trailer 0 l.
Proof.
  induction 1 as [|t ts Ht Hts IH]; [done|]. cbn [map concat].
  by rewrite <- app_assoc, run_trailer.
Qed.

Lemma create_trailers_form ts :
  ngx_http_chunked_create_trailers ts
  = CR :: LF :: ("0" : Z) :: CR :: LF :: concat (map trailer_line ts) ++ [CR; LF].
Proof.
  unfold ngx_http_chunked_create_trailers. case_decide as E; [|done].
  by apply length_zero_iff_nil in E as ->.
Qed.

(** *** Calls of the filter *)

Lemma call_size bufs n :
  fold_left (fun n b => n + Z.of_nat (length (rs_data b))) bufs n
  = n + Z.of_nat (length (call_data bufs)).
Proof.
  revert n. induction bufs as [|b bufs IH]; intros n; cbn; [lia|].
  rewrite IH, length_app. change (concat (map rs_data bufs)) with (call_data bufs). lia.
Qed.

Lemma call_out bufs :
  concat (map rs_data
    (filter (fun b => rs_flush_sync b || bool_decide (rs_data b <> [])) bufs))
  = call_data bufs.
Proof.
  induction bufs as [|b bufs IH]; [done|]. rewrite filter_cons. unfold call_data in *.
  case_decide as H; cbn [map concat]; [by rewrite IH|].
  rewrite IH. destruct (rs_data b) as [|x d]; [done|]. exfalso. apply H.
  destruct (rs_flush_sync b); done.
Qed.

Definition last_chunk (ts : list trailer) : list Z :=
  ("0" : Z) :: CR :: LF :: concat (map trailer_line ts) ++ [CR; LF].

(** The bytes of a call's output. *)
Lemma call_text ts bufs outs :
  ngx_http_chunked_body_filter ts bufs = Some outs ->
  Z.of_nat (length (call_data bufs)) <= NGX_MAX_OFF_T_VALUE / 16 ->
  let d := call_data bufs in
  (d = [] /\ concat outs = if is_last_call bufs then last_chunk ts else [])
  \/ exists ds, ds <> [] /\ Forall (fun c => ck_digit c = Some (hex_val c)) ds
     /\ numeral 16 hex_val 0 ds = Z.of_nat (length d) /\ 0 < Z.of_nat (length d)
     /\ concat outs = ds ++ CR :: LF :: d ++ CR :: LF
                      :: (if is_last_call bufs then last_chunk ts else []).
Proof.
  unfold ngx_http_chunked_body_filter. rewrite call_size, Z.add_0_l.
  change (match list.last bufs with Some b => rs_last_buf b | None => false end)
    with (is_last_call bufs).
  change (NGX_MAX_OFF_T_VALUE / 16) with 576460752303423487. intros E Hs. cbv zeta in *.
  destruct (decide (call_data bufs = [])) as [Hd|Hd].
  - left. split; [done|]. rewrite Hd in E. cbn [length] in E.
    rewrite (decide_False (P := Z.of_nat 0 <> 0)) in E by (intros H; by apply H).
    cbn [mbind option_bind] in E. apply Some_inv in E. subst outs.
    rewrite !concat_app, call_out, Hd. cbn [concat app].
    rewrite (decide_True (P := Z.of_nat 0 = 0)) by done.
    rewrite (decide_False (P := Z.of_nat 0 > 0)) by done.
    destruct (is_last_call bufs); cbn [concat]; [|done].
    rewrite create_trailers_form. cbn [drop]. by rewrite app_nil_r.
  - right. assert (0 < Z.of_nat (length (call_data bufs))) as Hp
      by (destruct (call_data bufs); [done|cbn [length]; lia]).
    destruct (chunk_line (Z.of_nat (length (call_data bufs)))) as (ds & El & Hne & Hds & Hv);
      [lia|]. exists ds. rewrite (decide_True (P := Z.of_nat (length (call_data bufs)) <> 0)) in E by lia. rewrite El in E.
    cbn [mbind option_bind] in E. apply Some_inv in E. subst outs.
    split; [done|]. split; [done|]. split; [done|]. split; [done|].
    rewrite !concat_app, call_out. cbn [concat]. rewrite app_nil_r, <- app_assoc.
    cbn [app]. do 3 f_equal. f_equal.
    destruct (is_last_call bufs).
    + rewrite decide_False by lia. rewrite create_trailers_form. cbn [concat].
      by rewrite app_nil_r.
    + rewrite decide_True by lia. done.
Qed.

Lemma run_last_chunk ts s :
  Forall trailer_ok ts -> body_run false sw_chunk_start s (last_chunk ts) = ([], Finished []).
Proof. intros H. unfold last_chunk. rewrite run_last_line. by rewrite run_trailers. Qed.

Lemma call_run ts bufs outs s :
  ngx_http_chunked_body_filter ts bufs = Some outs ->
  Z.of_nat (length (call_data bufs)) <= NGX_MAX_OFF_T_VALUE / 16 ->
  Forall trailer_ok ts ->
  if is_last_call bufs
  then body_run false sw_chunk_start s (concat outs) = (call_data bufs, Finished [])
  else exists s', runs_to (body_run false sw_chunk_start s) (body_run false sw_chunk_start s')
                    (concat outs) (call_data bufs).
Proof.
  intros E Hs Ht. destruct (call_text ts bufs outs E Hs) as [[Hd Eo]|(ds & Hne & Hds & Hv & Hp & Eo)];
    rewrite Eo.
  - rewrite Hd. destruct (is_last_call bufs); [by apply run_last_chunk|].
    exists s. intros l. cbn [app]. by destruct (body_run _ _ _ _).
  - assert (forall l, body_run false sw_chunk_start s
              (ds ++ CR :: LF :: call_data bufs ++ CR :: LF :: l)
            = let '(y, r) := body_run false sw_chunk_start 0 l in (call_data bufs ++ y, r)) as Hr.
    { intros l. rewrite (run_chunk_head s ds (Z.of_nat (length (call_data bufs)))) by done.
      rewrite run_data by lia. by rewrite Z.sub_diag, run_after_data. }
    destruct (is_last_call bufs).
    + rewrite Hr, run_last_chunk by done. by rewrite app_nil_r.
    + exists 0. intros l. rewrite <- !app_assoc. cbn [app]. rewrite <- app_assoc. apply Hr.
Qed.

(** The whole response: calls without the last buffer, then one with it. *)
Lemma calls_run ts calls final : forall outs s,
  mapM (ngx_http_chunked_body_filter ts) (calls ++ [final]) = Some outs ->
  Forall (fun c => is_last_call c = false) calls -> is_last_call final = true ->
  Forall (fun c => Z.of_nat (length (call_data c)) <= NGX_MAX_OFF_T_VALUE / 16) (calls ++ [final]) ->
  Forall trailer_ok ts ->
  body_run false sw_chunk_start s (concat (concat outs))
  = (concat (map call_data (calls ++ [final])), Finished []).
Proof.
  induction calls as [|c calls IH]; intros outs s E Hc Hf Hs Ht.
  - cbn [app map concat] in *. apply List.Forall_cons_iff in Hs. destruct Hs as [Hs _].
    cbn [mapM] in E.
    destruct (ngx_http_chunked_body_filter ts final) as [o|] eqn:Eo; [|done].
    cbn in E. apply Some_inv in E. subst outs. cbn [concat]. rewrite !app_nil_r.
    pose proof (call_run ts final o s Eo Hs Ht) as H. by rewrite Hf in H.
  - cbn [app] in *. apply List.Forall_cons_iff in Hs. destruct Hs as [Hsc Hs].
    apply List.Forall_cons_iff in Hc. destruct Hc as [Hcc Hc]. cbn [mapM] in E.
    destruct (ngx_http_chunked_body_filter ts c) as [o|] eqn:Eo; [|done].
    destruct (mapM (ngx_http_chunked_body_filter ts) (calls ++ [final])) as [os|] eqn:Eos; [|done].
    cbn in E. apply Some_inv in E. subst outs.
    pose proof (call_run ts c o s Eo Hsc Ht) as H. rewrite Hcc in H. destruct H as [s' H].
    cbn [concat map]. rewrite concat_app, H. by rewrite (IH os s').
Qed.

(** What the response filter writes, over any number of calls and with any
    valid trailers, is read back by the request filter from any cut into
    non-empty buffers: it ends exactly at the end, with the data of all calls in
    order, when the limit admits their length. *)
Theorem chunked_roundtrip ts calls final outs conf bufs :
  Forall (fun c => is_last_call c = false) calls -> is_last_call final = true ->
  Forall (fun c => Z.of_nat (length (call_data c)) <= NGX_MAX_OFF_T_VALUE / 16) (calls ++ [final]) ->
  Forall trailer_ok ts ->
  mapM (ngx_http_chunked_body_filter ts) (calls ++ [final]) = Some outs ->
  let data := concat (map call_data (calls ++ [final])) in
  within conf (Z.of_nat (length data)) ->
  Forall ib_ok bufs -> Forall (fun b => ib_bytes b <> []) bufs ->
  chain_bytes bufs = concat (concat outs) ->
  exists req l,
    ngx_http_request_body_chunked_filter conf (BodyReq chunked_zero 0 (-1)) bufs
      = inl (Some (req, l))
    /\ chain_data l = data /\ br_content_length_n req = Z.of_nat (length data)
    /\ br_rest req = 0.
Proof.
  intros Hc Hf Hs Ht Ho data Hw Hb Hne Hbytes.
  pose proof (calls_run ts calls final outs 0 Ho Hc Hf Hs Ht) as Hr.
  rewrite <- Hbytes in Hr. fold data in Hr.
  unfold ngx_http_request_body_chunked_filter. rewrite decide_True by done.
  set (req0 := BodyReq chunked_zero 0 (bc_header_size conf)).
  pose proof (chunked_filter_chain_ok conf bufs req0 Hb) as H.
  specialize (H ltac:(split; [cbn; unfold NGX_MAX_OFF_T_VALUE; lia|by intros [|]])). cbv zeta in H.
  cbn [br_chunked ck_st ck_size req0 chunked_zero br_content_length_n] in H.
  assert (ends_last (body_run false sw_chunk_start 0) bufs) as Hl.
  { intros a b rest -> Hbn Hfin. unfold chain_bytes in Hr.
    rewrite map_app, concat_app, run_app in Hr. fold (chain_bytes a) in Hr.
    destruct (body_run false sw_chunk_start 0 (chain_bytes a)) as [x st]. cbn in Hfin. subst st.
    destruct b as [|b0 b]; [done|]. apply Forall_app in Hne. destruct Hne as [_ Hne].
    apply List.Forall_cons_iff in Hne. destruct Hne as [Hb0 _].
    cbn [map concat] in Hr. injection Hr as _ Hr. apply app_nil in Hr. destruct Hr as [_ Hr].
    by apply app_nil in Hr as [? _]. }
  specialize (H Hl). unfold chain_ok in H. rewrite Hr in H. cbn [fst snd] in H.
  destruct (chunked_filter_chain conf req0 bufs) as [[[req l]|]|code]; [|done|].
  - exists req, l. destruct H as (H1 & H2 & _ & H3). by rewrite Z.add_0_l in H2.
  - exfalso. destruct H as [[_ H]|(_ & Hmx & a & b & x & size & Ea & Hx & Hgt)]; [done|].
    rewrite Ea, run_app, Hx in Hr.
    destruct (body_run false sw_chunk_data size b) as [y st] eqn:Ey.
    injection Hr as Hd ->. apply data_owed in Ey. rewrite <- Hd, length_app in Hw.
    unfold within in Hw. lia.
Qed.

(** ** Witnesses *)

Definition witness_text : list Z :=
  [53; 13; 10; 104; 101; 108; 108; 111; 13; 10; 48; 13; 10; 13; 10].

Definition witness_bufs : list in_buf :=
  [InBuf (take 5 witness_text) 0 5; InBuf (drop 5 witness_text) 0 10].

Lemma chunked_filter_exact_witness :
  (exists d, ends sw_chunk_start 0 (chain_bytes witness_bufs) d)
  /\ filter_result (BodyConf 100 8192) 0 sw_chunk_start 0 witness_bufs
       (ngx_http_request_body_chunked_filter (BodyConf 100 8192)
          (BodyReq chunked_zero 0 (-1)) witness_bufs)
  /\ exists req l, 
       ngx_http_request_body_chunked_filter (BodyConf 100 8192)
          (BodyReq chunked_zero 0 (-1)) witness_bufs = inl (Some (req, l))
       /\ chain_data l = bstr "hello" /\ br_rest req = 0.
Proof.
  assert (Forall ib_ok witness_bufs) as Hb by (repeat constructor; cbn; lia).
  assert (ck_ok sw_chunk_start 0) as Hok
    by (split; [unfold NGX_MAX_OFF_T_VALUE; lia|intros [[=]|[=]]]).
  split; [|split].
  - exists (bstr "hello"). apply run_ends; [by_decide|done|]. exists []. vm_compute. reflexivity.
  - refine (chunked_filter_exact (BodyConf 100 8192) (BodyReq chunked_zero 0 (-1)) witness_bufs
              Hb _ Hok _); [by_decide|].
    intros a b d E Hne He. apply run_ends in He; [|destruct a as [|x [|y [|z a]]]|done].
    + destruct He as [rest He]. destruct a as [|x [|y [|z a]]].
      * vm_compute in He. discriminate.
      * injection E as <- _. vm_compute in He. discriminate.
      * injection E as _ _ E. subst b. contradiction.
      * injection E as _ _ E. discriminate.
    + constructor.
    + injection E as <- _. by_decide.
    + injection E as <- <- _. by_decide.
    + injection E as _ _ E. discriminate.
  - eexists _, _. split; [vm_compute; reflexivity|]. split; reflexivity.
Defined.

Lemma chunked_length_exact_witness :
  ck_ok sw_chunk_start 0 /\ exists more d,
    Z.of_nat (length more) = 31 /\ body_run false sw_chunk_size 26 more = (d, Finished []).
Proof.
  assert (ck_ok sw_chunk_start 0) as H
    by (split; [unfold NGX_MAX_OFF_T_VALUE; lia|intros [[=]|[=]]]).
  split; [exact H|].
  refine (proj2 (chunked_length_exact chunked_zero [49; 97] H (or_intror eq_refl)) _).
  right. vm_compute. discriminate.
Defined.

Lemma chunked_roundtrip_witness :
  exists req l,
    ngx_http_request_body_chunked_filter (BodyConf 0 8192) (BodyReq chunked_zero 0 (-1))
      witness_bufs = inl (Some (req, l))
    /\ chain_data l = bstr "hello" /\ br_content_length_n req = 5 /\ br_rest req = 0.
Proof.
  refine (chunked_roundtrip [] [[RespBuf (bstr "hello") false false]] [RespBuf [] false true]
    [[[53; 13; 10]; bstr "hello"; [13; 10]]; [[48; 13; 10; 13; 10]]]
    (BodyConf 0 8192) witness_bufs _ _ _ _ _ _ _ _ _).
  - repeat constructor.
  - reflexivity.
  - repeat constructor; vm_compute; discriminate.
  - constructor.
  - vm_compute. reflexivity.
  - left. reflexivity.
  - repeat constructor; cbn; lia.
  - repeat constructor; discriminate.
  - reflexivity.
Defined.
