(* ===== verification/Rbtree.v ===== *)
(** * Red-black trees: ngx_rbtree.c and ngx_rbtree.h

    Nodes live in a heap of cells with parent pointers and one shared sentinel.
    A read or write through an address without a cell is undefined behaviour,
    the result [None].  The two mirrored halves of the code are one definition
    with a direction. *)

From S2P Require Import Prelude.
From stdpp Require Import gmap sorting.

Open Scope Z_scope.

(** ** Definitions *)

Record rbnode := RBNode { key : Z; left : Z; right : Z; parent : Z; color : Z }.

Abbreviation heap := (gmap Z rbnode).

Definition NULL : Z := 0.

(** A tree: [tree->root], the heap; [tree->sentinel] is an argument. *)
Record rbtree := RBTree { root : Z; cells : heap }.

Inductive dir := L | R.
Definition opp (d : dir) : dir := match d with L => R | R => L end.

Definition child (d : dir) (n : rbnode) : Z := match d with L => left n | R => right n end.

Definition set_child (d : dir) (v : Z) (n : rbnode) : rbnode :=
  match d with
  | L => RBNode (key n) v (right n) (parent n) (color n)
  | R => RBNode (key n) (left n) v (parent n) (color n)
  end.

Definition set_parent (v : Z) (n : rbnode) : rbnode :=
  RBNode (key n) (left n) (right n) v (color n).

Definition set_color (v : Z) (n : rbnode) : rbnode :=
  RBNode (key n) (left n) (right n) (parent n) v.

(** An assignment to a field of [*a]. *)
Definition upd (f : rbnode -> rbnode) (a : Z) (h : heap) : option heap :=
  n ← h !! a; Some (<[a := f n]> h).

Definition ngx_rbt_red (a : Z) (h : heap) : option heap := upd (set_color 1) a h.
Definition ngx_rbt_black (a : Z) (h : heap) : option heap := upd (set_color 0) a h.
Definition ngx_rbt_is_red (n : rbnode) : bool := bool_decide (color n <> 0).

(** [a->parent] and [a->parent->parent]. *)
Definition parent_of (h : heap) (a : Z) : option Z := n ← h !! a; Some (parent n).
Definition grandparent_of (h : heap) (a : Z) : option Z := p ← parent_of h a; parent_of h p.
Definition child_of (d : dir) (h : heap) (a : Z) : option Z := n ← h !! a; Some (child d n).
Definition is_red_at (h : heap) (a : Z) : option bool := n ← h !! a; Some (ngx_rbt_is_red n).

(** The line that hangs [temp] below the parent of [node] in the place of
    [node], or makes it the root; [d] is the side that is tested. *)
Definition replace_child (d : dir) (node temp : Z) (t : rbtree) : option rbtree :=
  let '(RBTree root h) := t in
  if decide (node = root) then Some (RBTree temp h)
  else
    p ← parent_of h node;
    c ← child_of d h p;
    if decide (node = c)
    then h ← upd (set_child d temp) p h; Some (RBTree root h)
    else h ← upd (set_child (opp d) temp) p h; Some (RBTree root h).

(** [ngx_rbtree_left_rotate] for [L], [ngx_rbtree_right_rotate] for [R]. *)
Definition rotate (d : dir) (sentinel node : Z) (t : rbtree) : option rbtree :=
  let '(RBTree root h) := t in
  temp ← child_of (opp d) h node;
  b ← child_of d h temp;
  h ← upd (set_child (opp d) b) node h;
  h ← (if decide (b <> sentinel) then upd (set_parent node) b h else Some h);
  p ← parent_of h node;
  h ← upd (set_parent p) temp h;
  '(RBTree root h) ← replace_child d node temp (RBTree root h);
  h ← upd (set_child d node) temp h;
  h ← upd (set_parent temp) node h;
  Some (RBTree root h).

(** [ngx_rbtree_min] *)
Fixpoint rbtree_min_loop (fuel : nat) (h : heap) (node sentinel : Z) : option Z :=
  match fuel with
  | O => None
  | S fuel =>
      l ← child_of L h node;
      if decide (l <> sentinel) then rbtree_min_loop fuel h l sentinel else Some node
  end.

Definition ngx_rbtree_min (h : heap) (node sentinel : Z) : option Z :=
  rbtree_min_loop (S (size h)) h node sentinel.

(** *** Insertion *)

(** The loop of [ngx_rbtree_insert_value] and of
    [ngx_rbtree_insert_timer_value], which differ in the comparison, and the
    lines after it. *)
Fixpoint insert_loop (less : Z -> Z -> bool) (fuel : nat) (h : heap) (temp node sentinel : Z)
  : option heap :=
  match fuel with
  | O => None
  | S fuel =>
      n ← h !! node;
      t ← h !! temp;
      let d := if less (key n) (key t) then L else R in
      let p := child d t in
      if decide (p = sentinel) then
        h ← upd (set_child d node) temp h;
        h ← upd (set_parent temp) node h;
        h ← upd (set_child L sentinel) node h;
        h ← upd (set_child R sentinel) node h;
        ngx_rbt_red node h
      else insert_loop less fuel h p node sentinel
  end.

Definition key_less (a b : Z) : bool := bool_decide (a < b).
Definition timer_less (a b : Z) : bool := bool_decide (s64 (u64 (a - b)) < 0).

Definition ngx_rbtree_insert_value (h : heap) (temp node sentinel : Z) : option heap :=
  insert_loop key_less (S (size h)) h temp node sentinel.

Definition ngx_rbtree_insert_timer_value (h : heap) (temp node sentinel : Z) : option heap :=
  insert_loop timer_less (S (size h)) h temp node sentinel.

(** A round of the re-balancing loop where the parent is the [d] child of the
    grandparent: the node to go on with. *)
Definition insert_case (d : dir) (sentinel node : Z) (t : rbtree) : option (Z * rbtree) :=
  let '(RBTree root h) := t in
  p ← parent_of h node;
  g ← grandparent_of h node;
  temp ← child_of (opp d) h g;
  red ← is_red_at h temp;
  if (red : bool) then
    h ← ngx_rbt_black p h;
    h ← ngx_rbt_black temp h;
    h ← ngx_rbt_red g h;
    Some (g, RBTree root h)
  else
    c ← child_of (opp d) h p;
    '(node, RBTree root h) ←
      (if decide (node = c)
       then t ← rotate d sentinel p (RBTree root h); Some (p, t)
       else Some (node, RBTree root h));
    p ← parent_of h node;
    h ← ngx_rbt_black p h;
    g ← grandparent_of h node;
    h ← ngx_rbt_red g h;
    t ← rotate (opp d) sentinel g (RBTree root h);
    Some (node, t).

Fixpoint insert_fixup (fuel : nat) (sentinel node : Z) (t : rbtree) : option rbtree :=
  match fuel with
  | O => None
  | S fuel =>
      let finish := h ← ngx_rbt_black (root t) (cells t); Some (RBTree (root t) h) in
      if decide (node = root t) then finish
      else
        p ← parent_of (cells t) node;
        red ← is_red_at (cells t) p;
        if (red : bool) then
          g ← parent_of (cells t) p;
          l ← child_of L (cells t) g;
          '(node, t) ← insert_case (if decide (p = l) then L else R) sentinel node t;
          insert_fixup fuel sentinel node t
        else finish
  end.

(** [tree->insert] is the argument [insert]. *)
Definition ngx_rbtree_insert (insert : heap -> Z -> Z -> Z -> option heap)
    (sentinel node : Z) (t : rbtree) : option rbtree :=
  let '(RBTree root h) := t in
  if decide (root = sentinel) then
    h ← upd (set_parent NULL) node h;
    h ← upd (set_child L sentinel) node h;
    h ← upd (set_child R sentinel) node h;
    h ← ngx_rbt_black node h;
    Some (RBTree node h)
  else
    h ← insert h root node sentinel;
    insert_fixup (S (size h)) sentinel node (RBTree root h).

(** *** Deletion *)

(** The lines marked DEBUG stuff. *)
Definition clear_node (node : Z) (h : heap) : option heap :=
  upd (fun n => RBNode 0 NULL NULL NULL (color n)) node h.

(** The round of the fixup loop where [temp] is the [d] child of its parent, by
    its blocks; [w] is the sibling. First the block for a red [w], which leaves
    a new [w]. *)
Definition delete_red (d : dir) (sentinel temp w : Z) (t : rbtree) : option (Z * rbtree) :=
  let '(RBTree root h) := t in
  red ← is_red_at h w;
  if (red : bool) then
    h ← ngx_rbt_black w h;
    p ← parent_of h temp;
    h ← ngx_rbt_red p h;
    p ← parent_of h temp;
    t ← rotate d sentinel p (RBTree root h);
    p ← parent_of (cells t) temp;
    w ← child_of (opp d) (cells t) p;
    Some (w, t)
  else Some (w, RBTree root h).

(** The block for a black far child of [w]. *)
Definition delete_near (d : dir) (sentinel temp w : Z) (t : rbtree) : option (Z * rbtree) :=
  let '(RBTree root h) := t in
  far ← child_of (opp d) h w;
  red ← is_red_at h far;
  if negb red then
    near ← child_of d h w;
    h ← ngx_rbt_black near h;
    h ← ngx_rbt_red w h;
    t ← rotate (opp d) sentinel w (RBTree root h);
    p ← parent_of (cells t) temp;
    w ← child_of (opp d) (cells t) p;
    Some (w, t)
  else Some (w, RBTree root h).

(** The lines after it, which end the loop. *)
Definition delete_far (d : dir) (sentinel temp w : Z) (t : rbtree) : option (Z * rbtree) :=
  let '(RBTree root h) := t in
  p ← parent_of h temp;
  pn ← h !! p;
  h ← upd (set_color (color pn)) w h;
  p ← parent_of h temp;
  h ← ngx_rbt_black p h;
  far ← child_of (opp d) h w;
  h ← ngx_rbt_black far h;
  p ← parent_of h temp;
  '(RBTree root h) ← rotate d sentinel p (RBTree root h);
  Some (root, RBTree root h).

Definition delete_black (d : dir) (sentinel temp w : Z) (t : rbtree) : option (Z * rbtree) :=
  let '(RBTree root h) := t in
  wl ← child_of L h w;
  wr ← child_of R h w;
  redl ← is_red_at h wl;
  redr ← is_red_at h wr;
  if negb redl && negb redr then
    h ← ngx_rbt_red w h;
    p ← parent_of h temp;
    Some (p, RBTree root h)
  else
    '(w, t) ← delete_near d sentinel temp w (RBTree root h);
    delete_far d sentinel temp w t.

Definition delete_case (d : dir) (sentinel temp : Z) (t : rbtree) : option (Z * rbtree) :=
  p ← parent_of (cells t) temp;
  w ← child_of (opp d) (cells t) p;
  '(w, t) ← delete_red d sentinel temp w t;
  delete_black d sentinel temp w t.

Fixpoint delete_fixup (fuel : nat) (sentinel temp : Z) (t : rbtree) : option rbtree :=
  match fuel with
  | O => None
  | S fuel =>
      let finish := h ← ngx_rbt_black temp (cells t); Some (RBTree (root t) h) in
      if decide (temp = root t) then finish
      else
        red ← is_red_at (cells t) temp;
        if negb red then
          p ← parent_of (cells t) temp;
          l ← child_of L (cells t) p;
          '(temp, t) ← delete_case (if decide (temp = l) then L else R) sentinel temp t;
          delete_fixup fuel sentinel temp t
        else finish
  end.

(** [subst] and [temp] of the first lines. *)
Definition delete_subst (h : heap) (node sentinel : Z) : option (Z * Z) :=
  n ← h !! node;
  if decide (left n = sentinel) then Some (node, right n)
  else if decide (right n = sentinel) then Some (node, left n)
  else
    subst ← ngx_rbtree_min h (right n) sentinel;
    temp ← child_of R h subst;
    Some (subst, temp).

(** [subst] takes the place of [node]: its fields, the pointer above it and the
    parents of its children. *)
Definition replace_node (sentinel node subst : Z) (t : rbtree) : option rbtree :=
  let '(RBTree root h) := t in
  n ← h !! node;
  h ← upd (set_child L (left n)) subst h;
  n ← h !! node;
  h ← upd (set_child R (right n)) subst h;
  n ← h !! node;
  h ← upd (set_parent (parent n)) subst h;
  n ← h !! node;
  h ← upd (set_color (color n)) subst h;
  '(RBTree root h) ← replace_child L node subst (RBTree root h);
  l ← child_of L h subst;
  h ← (if decide (l <> sentinel) then upd (set_parent subst) l h else Some h);
  r ← child_of R h subst;
  h ← (if decide (r <> sentinel) then upd (set_parent subst) r h else Some h);
  Some (RBTree root h).

(** The block for [subst != node]. *)
Definition move_subst (sentinel node subst temp : Z) (t : rbtree) : option rbtree :=
  let '(RBTree root h) := t in
  sp ← parent_of h subst;
  h ← upd (set_parent (if decide (sp = node) then subst else sp)) temp h;
  replace_node sentinel node subst (RBTree root h).

Definition ngx_rbtree_delete (sentinel node : Z) (t : rbtree) : option rbtree :=
  let '(RBTree root h) := t in
  '(subst, temp) ← delete_subst h node sentinel;
  if decide (subst = root) then
    h ← ngx_rbt_black temp h;
    h ← clear_node node h;
    Some (RBTree temp h)
  else
    red ← is_red_at h subst;
    sp ← parent_of h subst;
    l ← child_of L h sp;
    h ← upd (set_child (if decide (subst = l) then L else R) temp) sp h;
    '(RBTree root h) ←
      (if decide (subst = node) then
         p ← parent_of h subst;
         h ← upd (set_parent p) temp h;
         Some (RBTree root h)
       else move_subst sentinel node subst temp (RBTree root h));
    h ← clear_node node h;
    if (red : bool) then Some (RBTree root h)
    else delete_fixup (S (size h)) sentinel temp (RBTree root h).

(** *** Traversal *)

Fixpoint next_loop (fuel : nat) (h : heap) (root node : Z) : option Z :=
  match fuel with
  | O => None
  | S fuel =>
      parent ← parent_of h node;
      if decide (node = root) then Some NULL
      else
        l ← child_of L h parent;
        if decide (node = l) then Some parent else next_loop fuel h root parent
  end.

Definition ngx_rbtree_next (sentinel : Z) (t : rbtree) (node : Z) : option Z :=
  let '(RBTree root h) := t in
  r ← child_of R h node;
  if decide (r <> sentinel) then ngx_rbtree_min h r sentinel
  else next_loop (S (size h)) h root node.

(** [ngx_rbtree_init] *)
Definition ngx_rbtree_init (s : Z) (h : heap) : option rbtree :=
  h ← ngx_rbt_black s h; Some (RBTree s h).

(** ** Reference: trees *)

(** A tree of colored nodes with their addresses and keys; [true] is red. *)
Inductive tree := E | N (c : bool) (l : tree) (a k : Z) (r : tree).

#[export] Instance tree_eq_dec : EqDecision tree.
Proof. solve_decision. Defined.

(** A node with [x] on the side [d] and [y] on the other. *)
Definition mk (d : dir) (c : bool) (x : tree) (a k : Z) (y : tree) : tree :=
  match d with L => N c x a k y | R => N c y a k x end.

Definition col (c : bool) : Z := if c then 1 else 0.

(** The cell of a node with the child [u] on the side [d]. *)
Definition mkn (d : dir) (k u v p : Z) (c : bool) : rbnode :=
  match d with L => RBNode k u v p (col c) | R => RBNode k v u p (col c) end.

(** The nodes in order. *)
Fixpoint nodes (t : tree) : list (Z * Z) :=
  match t with E => [] | N _ l a k r => nodes l ++ (a, k) :: nodes r end.

(** The addresses of a tree, in no particular order. *)
Fixpoint addrs (t : tree) : list Z :=
  match t with E => [] | N _ l a _ r => a :: addrs l ++ addrs r end.

Definition isred (t : tree) : bool := match t with N true _ _ _ _ => true | _ => false end.

(** A context: the nodes above a position, from the nearest one, each with the
    side on which the position is and the tree on the other side. *)
Record frame := Fr { f_dir : dir; f_col : bool; f_addr : Z; f_key : Z; f_sib : tree }.

Fixpoint plug (ctx : list frame) (t : tree) : tree :=
  match ctx with
  | [] => t
  | Fr d c a k sib :: ctx => plug ctx (mk d c t a k sib)
  end.

Fixpoint caddrs (ctx : list frame) : list Z :=
  match ctx with [] => [] | f :: ctx => f_addr f :: addrs (f_sib f) ++ caddrs ctx end.

Section Represent.
Context (s : Z).

Definition addr (t : tree) : Z := match t with E => s | N _ _ a _ _ => a end.

Fixpoint rep (h : heap) (p : Z) (t : tree) : Prop :=
  match t with
  | E => True
  | N c l a k r =>
      h !! a = Some (RBNode k (addr l) (addr r) p (col c)) /\ rep h a l /\ rep h a r
  end.

(** The parent of the position of a context, [p] being the one of the root. *)
Definition ctop (p : Z) (ctx : list frame) : Z := match ctx with [] => p | f :: _ => f_addr f end.

Fixpoint crep (h : heap) (p x : Z) (ctx : list frame) : Prop :=
  match ctx with
  | [] => True
  | Fr d c a k sib :: ctx =>
      h !! a = Some (mkn d k x (addr sib) (ctop p ctx) c) /\ rep h a sib /\ crep h p a ctx
  end.

(** [sentinel] has a black cell, the tree starts at the root, and no two nodes
    have the same address. *)
Definition tree_at (st : rbtree) (t : tree) : Prop :=
  root st = addr t
  /\ (exists p, rep (cells st) p t)
  /\ NoDup (s :: addrs t)
  /\ exists n, cells st !! s = Some n /\ color n = 0.

Lemma rep_mk h p d c x a k y :
  rep h p (mk d c x a k y)
  <-> h !! a = Some (mkn d k (addr x) (addr y) p c) /\ rep h a x /\ rep h a y.
Proof. destruct d; cbn; tauto. Qed.

Lemma addr_mk d c x a k y : addr (mk d c x a k y) = a.
Proof. by destruct d. Qed.

Lemma addrs_mk d c x a k y : Permutation (addrs (mk d c x a k y)) (a :: addrs x ++ addrs y).
Proof. destruct d; cbn; [done|]. by rewrite (Permutation_app_comm (addrs x)). Qed.

Lemma rep_plug h p ctx t :
  rep h p (plug ctx t) <-> rep h (ctop p ctx) t /\ crep h p (addr t) ctx.
Proof.
  revert t. induction ctx as [|[d c a k sib] ctx IH]; intros t; cbn [plug crep ctop]; [tauto|].
  rewrite IH, rep_mk, addr_mk. cbn [f_addr]. tauto.
Qed.

Lemma addrs_plug ctx t : Permutation (addrs (plug ctx t)) (addrs t ++ caddrs ctx).
Proof.
  revert t. induction ctx as [|[d c a k sib] ctx IH]; intros t; cbn [plug caddrs f_addr f_sib].
  - by rewrite app_nil_r.
  - rewrite IH, addrs_mk. cbn [app]. rewrite <- app_assoc. by rewrite Permutation_middle.
Qed.

(** *** Frames *)

Lemma rep_frame h h' p t :
  rep h p t -> (forall a, a ∈ addrs t -> h' !! a = h !! a) -> rep h' p t.
Proof.
  revert p. induction t as [|c l IHl a k r IHr]; intros p; [done|].
  cbn [rep addrs]. intros (H1 & H2 & H3) Hf. split; [|split].
  - rewrite Hf; [done|]. constructor.
  - apply IHl; [done|]. intros. apply Hf. set_solver.
  - apply IHr; [done|]. intros. apply Hf. set_solver.
Qed.

Lemma crep_frame h h' p x ctx :
  crep h p x ctx -> (forall a, a ∈ caddrs ctx -> h' !! a = h !! a) -> crep h' p x ctx.
Proof.
  revert x. induction ctx as [|[d c a k sib] ctx IH]; intros x; [done|].
  cbn [crep caddrs f_addr f_sib]. intros (H1 & H2 & H3) Hf. split; [|split].
  - rewrite Hf; [done|]. constructor.
  - apply (rep_frame h); [done|]. intros. apply Hf. set_solver.
  - apply IH; [done|]. intros. apply Hf. set_solver.
Qed.
End Represent.

Arguments mkn !d k u v p c /.
Arguments child !d !n /.
Arguments set_child !d v !n /.

Lemma child_mkn d k u v p c : child d (mkn d k u v p c) = u.
Proof. by destruct d. Qed.

Lemma child_opp_mkn d k u v p c : child (opp d) (mkn d k u v p c) = v.
Proof. by destruct d. Qed.

Lemma parent_mkn d k u v p c : parent (mkn d k u v p c) = p.
Proof. by destruct d. Qed.

Lemma color_mkn d k u v p c : color (mkn d k u v p c) = col c.
Proof. by destruct d. Qed.

Lemma key_mkn d k u v p c : key (mkn d k u v p c) = k.
Proof. by destruct d. Qed.

Lemma set_child_mkn d w k u v p c : set_child d w (mkn d k u v p c) = mkn d k w v p c.
Proof. by destruct d. Qed.

Lemma set_child_opp_mkn d w k u v p c : set_child (opp d) w (mkn d k u v p c) = mkn d k u w p c.
Proof. by destruct d. Qed.

Lemma set_parent_mkn d q k u v p c : set_parent q (mkn d k u v p c) = mkn d k u v q c.
Proof. by destruct d. Qed.

Lemma set_color_mkn d x k u v p c : set_color (col x) (mkn d k u v p c) = mkn d k u v p x.
Proof. by destruct d. Qed.

Lemma mkn_opp d k u v p c : mkn (opp d) k u v p c = mkn d k v u p c.
Proof. by destruct d. Qed.

Lemma opp_opp d : opp (opp d) = d.
Proof. by destruct d. Qed.

(** ** The heap under one assignment *)

Lemma upd_some f a h n : h !! a = Some n -> upd f a h = Some (<[a := f n]> h).
Proof. intros H. unfold upd. by rewrite H. Qed.

(** The address of the root of the whole tree, from the one at the position. *)
Fixpoint rtop (ctx : list frame) (x : Z) : Z :=
  match ctx with [] => x | f :: ctx => rtop ctx (f_addr f) end.

Lemma rtop_in ctx x : rtop ctx x = x \/ rtop ctx x ∈ caddrs ctx.
Proof.
  revert x. induction ctx as [|f ctx IH]; intros x; cbn [rtop caddrs]; [by left|right].
  destruct (IH (f_addr f)) as [->|H]; set_solver.
Qed.

Lemma rtop_other ctx x : ctx <> [] -> x ∉ caddrs ctx -> rtop ctx x <> x.
Proof.
  destruct ctx as [|f ctx]; [done|]. cbn [rtop caddrs]. intros _ Hx E.
  destruct (rtop_in ctx (f_addr f)) as [E2|E2]; rewrite E in E2; set_solver.
Qed.

(** Takes a distinctness hypothesis apart, and solves goals about membership
    from such facts alone. *)
Ltac nodup H := repeat first [rewrite NoDup_cons in H | rewrite NoDup_app in H].

Ltac clear_heap :=
  repeat match goal with
  | H : ?T |- _ =>
      lazymatch T with
      | context [@lookup] => clear H
      | context [rep] => clear H
      | context [crep] => clear H
      | heap => clear H
      | option _ => clear H
      end
  end.

Ltac dis := clear_heap; rewrite ?NoDup_cons, ?NoDup_app; set_solver.

Lemma nodup_perm {A} (l k : list A) : NoDup l -> Permutation l k -> NoDup k.
Proof. by intros H <-. Qed.

Section Heap.
Context (s : Z).

Lemma addr_plug ctx t : addr s (plug ctx t) = rtop ctx (addr s t).
Proof.
  revert t. induction ctx as [|[d c a k sib] ctx IH]; intros t; cbn [plug rtop f_addr]; [done|].
  by rewrite IH, addr_mk.
Qed.

(** The cells that do not belong to the tree are unchanged. *)
Definition same_out (t : tree) (ctx : list frame) (st st' : rbtree) : Prop :=
  forall a, a ∉ addrs t ++ caddrs ctx -> cells st' !! a = cells st !! a.

Lemma addr_in t : addr s t = s \/ addr s t ∈ addrs t.
Proof. destruct t; cbn; [by left|right; set_solver]. Qed.

(** The state seen from a position. *)
Definition zip_at (st : rbtree) (p : Z) (ctx : list frame) (t : tree) : Prop :=
  root st = rtop ctx (addr s t)
  /\ rep s (cells st) (ctop p ctx) t /\ crep s (cells st) p (addr s t) ctx
  /\ NoDup (s :: addrs t ++ caddrs ctx)
  /\ exists n, cells st !! s = Some n /\ color n = 0.

Lemma tree_zip st ctx t : tree_at s st (plug ctx t) <-> exists p, zip_at st p ctx t.
Proof.
  unfold tree_at, zip_at. rewrite addr_plug, addrs_plug. setoid_rewrite rep_plug.
  naive_solver.
Qed.

(** A new parent for the node at the root of a subtree. *)
Lemma rep_reparent h h' q q' t :
  rep s h q t -> NoDup (addrs t) ->
  (forall a, a ∈ addrs t -> h' !! a = if decide (a = addr s t) then set_parent q' <$> h !! a
                                      else h !! a) ->
  rep s h' q' t.
Proof.
  destruct t as [|c l a k r]; [done|]. cbn [rep addrs addr]. intros (H1 & H2 & H3) Hn Hf.
  apply NoDup_cons in Hn. destruct Hn as [Ha Hn]. split; [|split].
  - rewrite Hf by set_solver. rewrite decide_True, H1 by done. done.
  - apply (rep_frame s h); [done|]. intros b Hb. rewrite Hf by set_solver.
    rewrite decide_False; [done|]. set_solver.
  - apply (rep_frame s h); [done|]. intros b Hb. rewrite Hf by set_solver.
    rewrite decide_False; [done|]. set_solver.
Qed.

Lemma reparent_ok h q v t :
  rep s h q t -> NoDup (s :: addrs t) ->
  exists h',
    (if decide (addr s t <> s) then upd (set_parent v) (addr s t) h else Some h) = Some h'
    /\ rep s h' v t /\ forall a, a ∉ addrs t -> h' !! a = h !! a.
Proof.
  intros H Hn. apply NoDup_cons in Hn. destruct Hn as [Hs Hn].
  destruct t as [|c l a k r].
  - exists h. cbn [addr]. rewrite decide_False by (intros E; by apply E). done.
  - cbn [addr]. rewrite decide_True by set_solver. pose proof H as (H1 & _).
    rewrite (upd_some _ _ _ _ H1). eexists. split; [done|]. split.
    + apply (rep_reparent h _ q v); [done|done|]. intros b Hb. cbn [addr]. case_decide as E.
      * subst b. by rewrite lookup_insert_eq, H1.
      * by rewrite lookup_insert_ne.
    + intros b Hb. rewrite lookup_insert_ne; [done|]. cbn [addrs] in Hb. set_solver.
Qed.

(** A subtree in the place of another one, below the parent or at the root. *)
Lemma replace_child_ok d h p ctx x temp n :
  crep s h p x ctx -> h !! x = Some n -> (ctx <> [] -> parent n = ctop p ctx) ->
  NoDup (s :: x :: caddrs ctx) ->
  exists h', replace_child d x temp (RBTree (rtop ctx x) h) = Some (RBTree (rtop ctx temp) h')
    /\ crep s h' p temp ctx /\ forall a, a ∉ caddrs ctx -> h' !! a = h !! a.
Proof.
  intros Hc Hx Hp Hn. unfold replace_child.
  apply NoDup_cons in Hn. destruct Hn as [Hs Hn].
  apply NoDup_cons in Hn. destruct Hn as [Hxc Hn].
  destruct ctx as [|[d0 c a k sib] ctx].
  - exists h. cbn [rtop]. by rewrite decide_True.
  - rewrite decide_False by (intros E; by apply (rtop_other _ x) in Hxc).
    cbn [crep caddrs f_addr f_sib ctop] in *. destruct Hc as (Ha & Hsib & Hc).
    unfold parent_of. rewrite Hx. cbn [mbind option_bind]. rewrite Hp by done.
    unfold child_of. rewrite Ha. cbn [mbind option_bind].
    assert (exists h', upd (set_child d0 temp) a h = Some h'
      /\ h' = <[a := mkn d0 k temp (addr s sib) (ctop p ctx) c]> h) as (h' & Eu & Eh).
    { eexists. split; [by apply upd_some|]. by rewrite set_child_mkn. }
    assert ((if decide (x = child d (mkn d0 k x (addr s sib) (ctop p ctx) c))
             then h ← upd (set_child d temp) a h; Some (RBTree (rtop (Fr d0 c a k sib :: ctx) x) h)
             else h ← upd (set_child (opp d) temp) a h;
                  Some (RBTree (rtop (Fr d0 c a k sib :: ctx) x) h))
            = Some (RBTree (rtop (Fr d0 c a k sib :: ctx) temp) h')) as ->.
    { assert (x <> addr s sib) as Hne.
      { intros E. destruct (addr_in sib) as [E2|E2]; rewrite <- E in E2; set_solver. }
      destruct d, d0; cbn [child mkn left right opp];
        first [rewrite decide_True by done | rewrite decide_False by done];
        rewrite Eu; done. }
    exists h'. split; [done|]. subst h'. apply NoDup_cons in Hn. destruct Hn as [Hac Hn].
    cbn [crep]. split; [split; [by rewrite lookup_insert_eq|split]|].
    + apply (rep_frame s h); [done|]. intros b Hb. rewrite lookup_insert_ne; [done|]. set_solver.
    + apply (crep_frame s h); [done|]. intros b Hb. rewrite lookup_insert_ne; [done|]. set_solver.
    + intros b Hb. rewrite lookup_insert_ne; [done|]. set_solver.
Qed.

Lemma rotate_ok d st p ctx c1 x A kx c2 y B ky D :
  zip_at st p ctx (mk d c1 A x kx (mk d c2 B y ky D)) ->
  exists st', rotate d s x st = Some st'
    /\ zip_at st' p ctx (mk d c2 (mk d c1 A x kx B) y ky D)
    /\ same_out (mk d c1 A x kx (mk d c2 B y ky D)) ctx st st'.
Proof.
  destruct st as [rt h]. intros (Hroot & Hrep & Hcrep & Hnd & Hs). cbn [root cells] in *.
  rewrite addr_mk in *. rewrite !rep_mk, addr_mk in Hrep.
  destruct Hrep as (Hx & HA & Hy & HB & HD).
  rewrite !addrs_mk in Hnd. pose proof Hnd as Hnd0.
  nodup Hnd.
  unfold rotate, child_of. rewrite Hx. cbn [mbind option_bind]. rewrite child_opp_mkn, Hy.
  cbn [mbind option_bind]. rewrite child_mkn.
  rewrite (upd_some _ _ _ _ Hx), set_child_opp_mkn. cbn [mbind option_bind].
  set (h1 := <[x := _]> h).
  assert (HB1 : rep s h1 y B).
  { apply (rep_frame s h); [done|]. intros a Ha. unfold h1. rewrite lookup_insert_ne; [done|].
    dis. }
  destruct (reparent_ok h1 y x B HB1) as (h2 & -> & HB2 & F2); [dis|].
  cbn [mbind option_bind].
  assert (Hx2 : h2 !! x = Some (mkn d kx (addr s A) (addr s B) (ctop p ctx) c1)).
  { rewrite F2 by dis. unfold h1. by rewrite lookup_insert_eq. }
  unfold parent_of. rewrite Hx2. cbn [mbind option_bind]. rewrite parent_mkn.
  assert (Hy2 : h2 !! y = Some (mkn d ky (addr s B) (addr s D) x c2)).
  { rewrite F2 by dis. unfold h1. rewrite lookup_insert_ne; [done|]. dis. }
  rewrite (upd_some _ _ _ _ Hy2), set_parent_mkn. cbn [mbind option_bind].
  set (h3 := <[y := _]> h2).
  assert (F3 : forall a, a <> x -> a <> y -> a ∉ addrs B -> h3 !! a = h !! a).
  { intros a ? ? ?. unfold h3. rewrite lookup_insert_ne by done. rewrite F2 by done.
    unfold h1. by rewrite lookup_insert_ne. }
  destruct (replace_child_ok d h3 p ctx x y (mkn d kx (addr s A) (addr s B) (ctop p ctx) c1))
    as (h4 & E4 & Hc4 & F4).
  { apply (crep_frame s h); [done|]. intros a Ha. apply F3; dis. }
  { unfold h3. rewrite lookup_insert_ne by dis. exact Hx2. }
  { by rewrite parent_mkn. }
  { dis. }
  rewrite Hroot, E4. cbn [mbind option_bind].
  assert (Hy4 : h4 !! y = Some (mkn d ky (addr s B) (addr s D) (ctop p ctx) c2)).
  { rewrite F4 by dis. unfold h3. by rewrite lookup_insert_eq. }
  rewrite (upd_some _ _ _ _ Hy4), set_child_mkn. cbn [mbind option_bind].
  assert (Hx5 : <[y := mkn d ky x (addr s D) (ctop p ctx) c2]> h4 !! x
                = Some (mkn d kx (addr s A) (addr s B) (ctop p ctx) c1)).
  { rewrite lookup_insert_ne, F4 by dis. unfold h3.
    rewrite lookup_insert_ne by dis. exact Hx2. }
  rewrite (upd_some _ _ _ _ Hx5), set_parent_mkn. cbn [mbind option_bind].
  set (h6 := <[x := _]> _).
  assert (F6 : forall a, a <> x -> a <> y -> h6 !! a = h4 !! a).
  { intros a ? ?. unfold h6. by rewrite !lookup_insert_ne. }
  eexists. split; [done|]. split; [split; [|split; [|split; [|split]]]|]; cbn [root cells].
  - by rewrite addr_mk.
  - rewrite !rep_mk, addr_mk. split; [|split; [split; [|split]|]].
    + unfold h6. rewrite lookup_insert_ne by dis. by rewrite lookup_insert_eq.
    + unfold h6. by rewrite lookup_insert_eq.
    + apply (rep_frame s h); [done|]. intros a Ha. rewrite F6, F4, F3 by dis. done.
    + apply (rep_frame s h2); [done|]. intros a Ha. rewrite F6, F4 by dis.
      unfold h3. rewrite lookup_insert_ne; [done|]. dis.
    + apply (rep_frame s h); [done|]. intros a Ha. rewrite F6, F4, F3 by dis. done.
  - rewrite addr_mk. apply (crep_frame s h4); [done|]. intros a Ha. apply F6; dis.
  - rewrite !addrs_mk. eapply nodup_perm; [exact Hnd0|]. solve_Permutation.
  - rewrite F6, F4, F3 by dis. done.
  - intros a Ha. rewrite !addrs_mk in Ha. cbn [root cells].
    assert (a <> x /\ a <> y /\ (a ∉ addrs B) /\ a ∉ caddrs ctx) as (? & ? & ? & ?).
    { clear -Ha. set_solver. }
    rewrite F6, F4, F3 by done. done.
Qed.

(** *** Reading and writing at a position *)

Lemma zip_down st p d c t a k sib ctx :
  (zip_at st p (Fr d c a k sib :: ctx) t) <-> zip_at st p ctx (mk d c t a k sib).
Proof.
  unfold zip_at. rewrite rep_mk, addr_mk, addrs_mk. cbn [rtop crep caddrs ctop f_addr f_sib].
  assert (Permutation (addrs t ++ a :: addrs sib ++ caddrs ctx)
            ((a :: addrs t ++ addrs sib) ++ caddrs ctx)) as -> by solve_Permutation.
  naive_solver.
Qed.

Lemma zip_up st p d c t a k sib ctx :
  zip_at st p (Fr d c a k sib :: ctx) t -> zip_at st p ctx (mk d c t a k sib).
Proof. apply zip_down. Qed.

Lemma zip_dn st p d c t a k sib ctx :
  zip_at st p ctx (mk d c t a k sib) -> zip_at st p (Fr d c a k sib :: ctx) t.
Proof. apply zip_down. Qed.

Lemma mk_opp d c x a k y : mk (opp d) c x a k y = mk d c y a k x.
Proof. by destruct d. Qed.

Lemma zip_cell st p ctx d c x a k y :
  zip_at st p ctx (mk d c x a k y) ->
  cells st !! a = Some (mkn d k (addr s x) (addr s y) (ctop p ctx) c).
Proof. intros (_ & H & _). by apply rep_mk in H as (H & _). Qed.

Lemma zip_parent st p ctx d c x a k y :
  zip_at st p ctx (mk d c x a k y) -> parent_of (cells st) a = Some (ctop p ctx).
Proof. intros H%zip_cell. unfold parent_of. rewrite H. by destruct d. Qed.

Lemma zip_child st p ctx d c x a k y :
  zip_at st p ctx (mk d c x a k y) -> child_of d (cells st) a = Some (addr s x).
Proof. intros H%zip_cell. unfold child_of. rewrite H. by destruct d. Qed.

Lemma zip_child_opp st p ctx d c x a k y :
  zip_at st p ctx (mk d c x a k y) -> child_of (opp d) (cells st) a = Some (addr s y).
Proof. intros H%zip_cell. unfold child_of. rewrite H. by destruct d. Qed.

Lemma zip_red st p ctx t : zip_at st p ctx t -> is_red_at (cells st) (addr s t) = Some (isred t).
Proof.
  intros (_ & H & _ & _ & n & Hn & Hc). unfold is_red_at. destruct t as [|c l a k r]; cbn.
  - rewrite Hn. cbn. unfold ngx_rbt_is_red. by rewrite Hc.
  - destruct H as [-> _]. cbn. unfold ngx_rbt_is_red. cbn. by destruct c.
Qed.

Lemma recolor_ok st p ctx d c c' x a k y :
  zip_at st p ctx (mk d c x a k y) ->
  exists h, upd (set_color (col c')) a (cells st) = Some h
    /\ zip_at (RBTree (root st) h) p ctx (mk d c' x a k y)
    /\ same_out (mk d c x a k y) ctx st (RBTree (root st) h).
Proof.
  intros H. pose proof (zip_cell _ _ _ _ _ _ _ _ _ H) as Ha. destruct st as [rt h].
  destruct H as (Hr & Hrep & Hcrep & Hnd & n & Hn & Hcol). cbn [root cells] in *.
  rewrite (upd_some _ _ _ _ Ha), set_color_mkn. eexists. split; [done|].
  rewrite addr_mk in *. rewrite rep_mk in Hrep. destruct Hrep as (_ & Hx & Hy).
  rewrite addrs_mk in Hnd. pose proof Hnd as Hnd0. nodup Hnd.
  split; [split; [|split; [|split; [|split]]]|]; cbn [root cells].
  - by rewrite addr_mk.
  - rewrite rep_mk. split; [by rewrite lookup_insert_eq|split].
    + apply (rep_frame s h); [done|]. intros b Hb. rewrite lookup_insert_ne; [done|]. dis.
    + apply (rep_frame s h); [done|]. intros b Hb. rewrite lookup_insert_ne; [done|]. dis.
  - rewrite addr_mk. apply (crep_frame s h); [done|]. intros b Hb.
    rewrite lookup_insert_ne; [done|]. dis.
  - by rewrite addrs_mk.
  - exists n. rewrite lookup_insert_ne; [done|]. dis.
  - intros b Hb. rewrite addrs_mk in Hb. cbn [cells]. rewrite lookup_insert_ne; [done|].
    clear -Hb. set_solver.
Qed.

Lemma zip_sib st p d c a k sib ctx t :
  zip_at st p (Fr d c a k sib :: ctx) t -> addr s t <> s -> addr s t <> addr s sib.
Proof.
  intros (_ & _ & _ & Hnd & _) Ht E. cbn [caddrs f_addr f_sib] in Hnd.
  destruct (addr_in t) as [?|H1]; [done|].
  destruct (addr_in sib) as [H2|H2]; rewrite <- E in H2; [done|].
  clear E. nodup Hnd. set_solver.
Qed.

Lemma zip_not_root st p f ctx t : zip_at st p (f :: ctx) t -> t <> E -> addr s t <> root st.
Proof.
  intros (Hr & _ & _ & Hnd & _) Ht E. rewrite Hr in E. symmetry in E. revert E.
  apply rtop_other; [done|]. destruct t; [done|]. clear -Hnd. cbn [addr addrs] in *. nodup Hnd.
  set_solver.
Qed.

Lemma zip_in st p ctx t : zip_at st p ctx t -> t <> E -> addr s t <> s.
Proof.
  intros (_ & _ & _ & Hnd & _) Ht E. destruct t as [|c l a k r]; [done|]. cbn in E. subst a.
  nodup Hnd. cbn [addrs] in Hnd. set_solver.
Qed.

(** The child pointer of the node above tells the side. *)
Lemma zip_side st p d c a k sib ctx t :
  zip_at st p (Fr d c a k sib :: ctx) t -> t <> E ->
  exists l, child_of L (cells st) a = Some l /\ (if decide (addr s t = l) then L else R) = d.
Proof.
  intros H Ht. pose proof (zip_in _ _ _ _ H Ht) as Hs. pose proof (zip_sib _ _ _ _ _ _ _ _ _ H Hs).
  apply zip_down in H. destruct d.
  - eexists. split; [exact (zip_child _ _ _ _ _ _ _ _ _ H)|]. by rewrite decide_True.
  - rewrite <- (mk_opp R) in H. cbn [opp] in H.
    eexists. split; [exact (zip_child _ _ _ _ _ _ _ _ _ H)|]. by rewrite decide_False.
Qed.
End Heap.

Arguments zip_up {s st p d c t a k sib ctx}.
Arguments zip_dn {s st p d c t a k sib ctx}.
Arguments zip_cell {s st p ctx} d {c x a k y}.
Arguments zip_parent {s st p ctx} d {c x a k y}.
Arguments zip_child {s st p ctx} d {c x a k y}.
Arguments zip_child_opp {s st p ctx} d {c x a k y}.
Arguments zip_red {s st p ctx t}.
Arguments zip_sib {s st p d c a k sib ctx t}.
Arguments zip_not_root {s st p f ctx t}.
Arguments zip_in {s st p ctx t}.
Arguments zip_side {s st p d c a k sib ctx t}.
Arguments recolor_ok {s st p ctx} d {c} c' {x a k y}.
Arguments rotate_ok {s} d {st p ctx c1 x A kx c2 y B ky D}.

(** ** Red-black trees *)

(** [rb n t]: no red node has a red child, and [n] black nodes are on every
    path to a leaf. *)
Fixpoint rb (n : nat) (t : tree) : Prop :=
  match t with
  | E => n = 0%nat
  | N c l _ _ r =>
      if c then isred l = false /\ isred r = false /\ rb n l /\ rb n r
      else match n with O => False | S m => rb m l /\ rb m r end
  end.

(** A red node may come at the position. *)
Definition may_red (ctx : list frame) : bool :=
  match ctx with Fr _ c _ _ _ :: _ => negb c | [] => false end.

Fixpoint crb (n : nat) (ctx : list frame) : Prop :=
  match ctx with
  | [] => True
  | Fr _ c _ _ sib :: ctx =>
      rb n sib /\
      if c then isred sib = false /\ may_red ctx = true /\ crb n ctx else crb (S n) ctx
  end.

Lemma rb_mk n d c x a k y :
  rb n (mk d c x a k y) <->
  if c then isred x = false /\ isred y = false /\ rb n x /\ rb n y
  else match n with O => False | S m => rb m x /\ rb m y end.
Proof. destruct d, c, n; cbn; tauto. Qed.

Lemma isred_mk d c x a k y : isred (mk d c x a k y) = c.
Proof. by destruct d, c. Qed.

Lemma plug_ne ctx t : t <> E -> plug ctx t <> E.
Proof.
  revert t. induction ctx as [|[d c a k sib] ctx IH]; intros t H; [done|].
  cbn [plug]. apply IH. by destruct d.
Qed.

Lemma addrs_nodes t : Permutation (addrs t) (map fst (nodes t)).
Proof.
  induction t as [|c l IHl a k r IHr]; [done|]. cbn [addrs nodes].
  rewrite map_app. cbn [map fst]. rewrite IHl, IHr. by rewrite Permutation_middle.
Qed.

Lemma nodes_addrs t t' : nodes t = nodes t' -> Permutation (addrs t) (addrs t').
Proof. intros H. by rewrite !addrs_nodes, H. Qed.

Fixpoint height (t : tree) : nat :=
  match t with E => 0 | N _ l _ _ r => S (Nat.max (height l) (height r)) end.

Lemma height_mk d c x a k y : height (mk d c x a k y) = S (Nat.max (height x) (height y)).
Proof. destruct d; cbn; lia. Qed.

Lemma height_addrs t : (height t <= length (addrs t))%nat.
Proof. induction t; cbn; [lia|]. rewrite length_app. lia. Qed.

Definition blacken (t : tree) : tree :=
  match t with E => E | N _ l a k r => N false l a k r end.

Lemma nodes_plug ctx t t' : nodes t = nodes t' -> nodes (plug ctx t) = nodes (plug ctx t').
Proof.
  revert t t'. induction ctx as [|[d c a k sib] ctx IH]; intros t t' H; [done|].
  cbn [plug]. apply IH. destruct d; cbn; by rewrite H.
Qed.

Lemma plug_rb n ctx t :
  rb n t -> crb n ctx -> implb (isred t) (may_red ctx) = true ->
  exists m, rb m (plug ctx t) /\ isred (plug ctx t) = false.
Proof.
  revert n t. induction ctx as [|[d c a k sib] ctx IH]; intros n t Ht Hc Hr; cbn [plug].
  - exists n. split; [done|]. cbn in Hr. by destruct (isred t).
  - cbn [crb may_red] in *. destruct Hc as [Hs Hc]. destruct c.
    + destruct Hc as (Hb & Hm & Hc). apply (IH n); [|done|].
      * apply rb_mk. cbn in Hr. by destruct (isred t).
      * by rewrite isred_mk, Hm.
    + apply (IH (S n)); [by apply rb_mk|done|]. by rewrite isred_mk.
Qed.

Lemma rb_plug m ctx t :
  rb m (plug ctx t) -> isred (plug ctx t) = false ->
  exists n, rb n t /\ crb n ctx /\ implb (isred t) (may_red ctx) = true.
Proof.
  revert t. induction ctx as [|[d c a k sib] ctx IH]; intros t; cbn [plug].
  - intros H1 H2. exists m. rewrite H2. done.
  - intros H1 H2. destruct (IH _ H1 H2) as (n & Hn & Hc & Hr).
    rewrite isred_mk in Hr. apply rb_mk in Hn. cbn [crb may_red]. destruct c.
    + destruct Hn as (? & ? & ? & ?). exists n. cbn in Hr. rewrite H. done.
    + destruct n as [|n]; [done|]. destruct Hn as [? ?]. exists n.
      split; [done|]. split; [done|]. by destruct (isred t).
Qed.

Ltac sames :=
  let b := fresh "b" in let Hb := fresh "Hb" in
  intros b Hb; cbn [plug caddrs f_addr f_sib] in Hb;
  repeat match goal with
  | H : same_out ?t ?ctx _ ?st' |- cells ?st' !! _ = _ =>
      rewrite H; [clear H|clear -Hb; cbn [caddrs f_addr f_sib]; rewrite ?addrs_mk in *; set_solver]
  end; try done.

Section Fixup.
Context (s : Z).

(** What the code reads around a position with two nodes above it. *)
Lemma zip_above st p ctx d c dg t a k sib cg g kg u :
  zip_at s st p (Fr d c a k sib :: Fr dg cg g kg u :: ctx) t -> t <> E ->
  parent_of (cells st) (addr s t) = Some a
  /\ child_of d (cells st) a = Some (addr s t)
  /\ child_of (opp d) (cells st) a = Some (addr s sib)
  /\ grandparent_of (cells st) (addr s t) = Some g
  /\ child_of (opp dg) (cells st) g = Some (addr s u)
  /\ is_red_at (cells st) (addr s u) = Some (isred u).
Proof.
  intros H Ht.
  assert (parent_of (cells st) (addr s t) = Some a) as Ep.
  { destruct t as [|ct l b kb r]; [done|]. exact (zip_parent L H). }
  apply zip_up in H. pose proof (zip_parent d H) as Eg. cbn [ctop f_addr] in Eg.
  pose proof (zip_child d H). pose proof (zip_child_opp d H).
  assert (grandparent_of (cells st) (addr s t) = Some g).
  { unfold grandparent_of. by rewrite Ep. }
  apply zip_up in H. pose proof (zip_child_opp dg H).
  rewrite <- mk_opp in H. apply zip_dn, zip_red in H. done.
Qed.

Lemma insert_case_red st p ctx d dg t a k sib g kg u :
  zip_at s st p (Fr d true a k sib :: Fr dg false g kg u :: ctx) t -> t <> E -> isred u = true ->
  exists st' u', insert_case dg s (addr s t) st = Some (g, st')
    /\ zip_at s st' p ctx (mk dg true (mk d false t a k sib) g kg u')
    /\ same_out (mk dg false (mk d true t a k sib) g kg u) ctx st st'
    /\ isred u' = false /\ nodes u' = nodes u /\ forall n, rb n u -> rb (S n) u'.
Proof.
  intros H Ht Hu. destruct st as [rt h].
  destruct (zip_above _ _ _ _ _ _ _ _ _ _ _ _ _ _ H Ht) as (Ep & _ & _ & Eg & Eu & Hr).
  unfold insert_case. cbn [cells] in *. rewrite Ep. cbn [mbind option_bind].
  rewrite Eg. cbn [mbind option_bind]. rewrite Eu. cbn [mbind option_bind]. rewrite Hr, Hu.
  cbn [mbind option_bind]. apply zip_up, zip_up in H.
  apply zip_dn in H. destruct (recolor_ok d false H) as (h1 & E1 & H1 & S1).
  unfold ngx_rbt_black. cbn [cells col] in E1. rewrite E1. cbn [mbind option_bind].
  apply zip_up in H1. rewrite <- mk_opp in H1. apply zip_dn in H1.
  destruct u as [|[] ul ua uk ur]; [done| |done].
  destruct (recolor_ok L false H1) as (h2 & E2 & H2 & S2). cbn [cells col addr] in *. rewrite E2.
  cbn [mbind option_bind].
  apply zip_up in H2. destruct (recolor_ok (opp dg) true H2) as (h3 & E3 & H3 & S3).
  unfold ngx_rbt_red. cbn [root cells col] in *. rewrite E3. cbn [mbind option_bind].
  rewrite mk_opp in H3. eexists _, _. split; [reflexivity|]. split; [exact H3|].
  split; [|split; [done|split; [done|]]].
  - sames.
  - cbn. naive_solver.
Qed.


Lemma insert_rotate st p ctx dg t y ky Y g kg u :
  zip_at s st p (Fr dg true y ky Y :: Fr dg false g kg u :: ctx) t -> t <> E ->
  exists st',
    (p ← parent_of (cells st) (addr s t);
     h ← ngx_rbt_black p (cells st);
     g ← grandparent_of h (addr s t);
     h ← ngx_rbt_red g h;
     t' ← rotate (opp dg) s g (RBTree (root st) h);
     Some (addr s t, t')) = Some (addr s t, st')
    /\ zip_at s st' p (Fr dg false y ky (mk dg true Y g kg u) :: ctx) t
    /\ same_out (mk dg false (mk dg true t y ky Y) g kg u) ctx st st'.
Proof.
  intros H Ht. destruct st as [rt h]. destruct t as [|c l b kb r]; [done|].
  pose proof (zip_parent L H) as Ep. cbn [root cells ctop f_addr addr] in *. rewrite Ep.
  cbn [mbind option_bind]. apply zip_up in H.
  destruct (recolor_ok dg false H) as (h1 & E1 & H1 & S1). cbn [root cells col] in *.
  unfold ngx_rbt_black. rewrite E1. cbn [mbind option_bind].
  pose proof (zip_parent dg H1) as Eg. pose proof (zip_parent L (zip_dn H1)) as Ep1.
  cbn [root cells ctop f_addr] in *. unfold grandparent_of. rewrite Ep1. cbn [mbind option_bind].
  rewrite Eg. cbn [mbind option_bind]. apply zip_up in H1.
  destruct (recolor_ok dg true H1) as (h2 & E2 & H2 & S2). cbn [root cells col] in *.
  unfold ngx_rbt_red. rewrite E2. cbn [mbind option_bind].
  rewrite <- (mk_opp dg true), <- (mk_opp dg false) in H2.
  destruct (rotate_ok (opp dg) H2) as (st3 & E3 & H3 & S3). rewrite E3. cbn [mbind option_bind].
  rewrite !mk_opp in *. exists st3. split; [done|]. split; [by apply zip_down|]. sames.
Qed.

Lemma insert_case_outer st p ctx dg t a k sib g kg u :
  zip_at s st p (Fr dg true a k sib :: Fr dg false g kg u :: ctx) t -> t <> E -> isred u = false ->
  exists st', insert_case dg s (addr s t) st = Some (addr s t, st')
    /\ zip_at s st' p (Fr dg false a k (mk dg true sib g kg u) :: ctx) t
    /\ same_out (mk dg false (mk dg true t a k sib) g kg u) ctx st st'.
Proof.
  intros H Ht Hu. destruct (insert_rotate _ _ _ _ _ _ _ _ _ _ _ H Ht) as (st' & E1 & H1 & S1).
  exists st'. split; [|done]. rewrite <- E1. clear E1 H1 S1. destruct st as [rt h].
  pose proof (zip_in H Ht) as Hs. pose proof (zip_sib H Hs) as Hne.
  destruct (zip_above _ _ _ _ _ _ _ _ _ _ _ _ _ _ H Ht) as (Ep & _ & Ec & Eg & Eu & Hr).
  unfold insert_case. cbn [cells] in *. rewrite Ep. cbn [mbind option_bind].
  rewrite Eg. cbn [mbind option_bind]. rewrite Eu. cbn [mbind option_bind]. rewrite Hr, Hu.
  cbn [mbind option_bind]. rewrite Ec. cbn [mbind option_bind]. rewrite decide_False by done.
  cbn [mbind option_bind]. rewrite Ep. done.
Qed.

Lemma insert_case_inner st p ctx dg t1 x kx t2 a k sib g kg u :
  zip_at s st p (Fr (opp dg) true a k sib :: Fr dg false g kg u :: ctx) (mk dg true t1 x kx t2) ->
  isred u = false ->
  exists st', insert_case dg s x st = Some (a, st')
    /\ zip_at s st' p (Fr dg false x kx (mk dg true t2 g kg u) :: ctx) (mk dg true sib a k t1)
    /\ same_out (mk dg false (mk dg true sib a k (mk dg true t1 x kx t2)) g kg u) ctx st st'.
Proof.
  intros H Hu. destruct st as [rt h].
  destruct (zip_above _ _ _ _ _ _ _ _ _ _ _ _ _ _ H) as (Ep & Ec & _ & Eg & Eu & Hr);
    [by destruct dg|].
  rewrite addr_mk in *.
  unfold insert_case. cbn [cells] in *. rewrite Ep.
  cbn [mbind option_bind].
  rewrite Eg. cbn [mbind option_bind]. rewrite Eu. cbn [mbind option_bind]. rewrite Hr, Hu.
  cbn [mbind option_bind]. rewrite Ec. cbn [mbind option_bind]. rewrite decide_True by done.
  apply zip_up in H. rewrite mk_opp in H.
  destruct (rotate_ok dg H) as ([rt1 h1] & E1 & H1 & S1). rewrite E1. cbn [mbind option_bind].
  apply zip_dn in H1. destruct (insert_rotate _ _ _ _ _ _ _ _ _ _ _ H1) as (st2 & E2 & H2 & S2);
    [by destruct dg|].
  rewrite addr_mk in E2. cbn [cells root] in E2. rewrite E2.
  exists st2. split; [done|]. split; [done|]. sames.
Qed.

Lemma zip_plug st p ctx t : zip_at s st p ctx t -> zip_at s st p [] (plug ctx t).
Proof.
  revert t. induction ctx as [|[d c a k sib] ctx IH]; intros t H; [done|].
  cbn [plug]. by apply IH, zip_up.
Qed.

Lemma zip_tree st p t : zip_at s st p [] t -> tree_at s st t.
Proof. intros H. apply (tree_zip s _ []). by exists p. Qed.

(** The last line of both fixups: the root becomes black. *)
Lemma root_black st p t :
  zip_at s st p [] t -> t <> E ->
  exists h, ngx_rbt_black (root st) (cells st) = Some h
    /\ tree_at s (RBTree (root st) h) (blacken t)
    /\ forall a, a ∉ addrs t -> h !! a = cells st !! a.
Proof.
  intros H Ht. destruct t as [|c l a k r]; [done|].
  assert (root st = a) as Hr by apply H.
  destruct (recolor_ok L false H) as (h & E1 & H1 & S1).
  exists h. rewrite Hr in *. split; [exact E1|]. split; [exact (zip_tree _ _ _ H1)|].
  intros b Hb. apply S1. cbn [caddrs mk] in *. by rewrite app_nil_r.
Qed.

Lemma blacken_id t : isred t = false -> blacken t = t.
Proof. by destruct t as [|[]]. Qed.

Lemma same_plug t t' ctx st st1 st2 :
  nodes t' = nodes (plug ctx t) -> same_out t ctx st st1 ->
  (forall a, a ∉ addrs t' -> cells st2 !! a = cells st1 !! a) ->
  forall a, a ∉ addrs (plug ctx t) -> cells st2 !! a = cells st !! a.
Proof.
  intros Hn S1 S2 a Ha. rewrite S2 by (by rewrite (nodes_addrs _ _ Hn)).
  apply S1. by rewrite <- addrs_plug.
Qed.

Lemma insert_fixup_ok fuel st p ctx n t :
  zip_at s st p ctx t -> isred t = true -> rb n t -> crb n ctx -> (length ctx < fuel)%nat ->
  exists st' t' m, insert_fixup fuel s (addr s t) st = Some st' /\ tree_at s st' t'
    /\ nodes t' = nodes (plug ctx t) /\ rb m t' /\ isred t' = false
    /\ forall a, a ∉ addrs (plug ctx t) -> cells st' !! a = cells st !! a.
Proof.
  revert st ctx n t. induction fuel as [|fuel IH]; [lia|].
  intros st ctx n t H Hred Ht Hc Hf. cbn [insert_fixup].
  assert (t <> E) as Hne by (by intros ->).
  destruct ctx as [|[d c a k sib] ctx].
  { rewrite decide_True by (symmetry; apply H).
    destruct (root_black st p t H Hne) as (h & -> & H1 & S1). cbn [mbind option_bind].
    destruct t as [|[] l x kx r]; [done| |done].
    eexists _, _, (S n). split; [done|]. split; [exact H1|]. cbn in *. naive_solver. }
  rewrite (decide_False (P := addr s t = root st)) by (exact (zip_not_root H Hne)).
  destruct t as [|[] l x kx r] eqn:Et; [done| |done]. rewrite <- Et in *.
  assert (parent_of (cells st) (addr s t) = Some a) as -> by (subst t; exact (zip_parent L H)).
  cbn [mbind option_bind].
  assert (is_red_at (cells st) a = Some c) as ->.
  { apply zip_up, zip_red in H. by rewrite addr_mk, isred_mk in H. }
  cbn [mbind option_bind]. destruct c.
  2: { (* the parent is black *)
    destruct (plug_rb n (Fr d false a k sib :: ctx) t) as (m & Hm & Hb); [done|done|by rewrite Hred|].
    destruct (root_black st p _ (zip_plug _ _ _ _ H)) as (h & -> & H1 & S1).
    { by apply plug_ne. }
    rewrite blacken_id in H1 by done. eexists _, _, m. split; [done|]. split; [exact H1|]. done. }
  cbn [crb] in Hc. destruct Hc as (Hsib & Hbs & Hm & Hc).
  destruct ctx as [|[dg [] g kg u] ctx]; [done|done|]. cbn [crb] in Hc. destruct Hc as [Hu Hc].
  pose proof (zip_parent d (zip_up H)) as Eg. cbn [ctop f_addr] in Eg. rewrite Eg.
  cbn [mbind option_bind].
  destruct (zip_side (zip_up H)) as (ch & -> & Ed); [by destruct d|]. cbn [mbind option_bind].
  rewrite addr_mk in Ed. rewrite Ed. destruct (isred u) eqn:Er.
  - (* red uncle *)
    destruct (insert_case_red st p ctx d dg t a k sib g kg u H Hne Er)
      as (st1 & u' & E1 & H1 & S1 & Hbu & Hnu & Hru).
    rewrite E1. cbn [mbind option_bind].
    destruct (IH _ _ (S n) _ H1) as (st2 & t2 & m & E2 & H2 & N2 & R2 & B2 & S2).
    { apply isred_mk. }
    { apply rb_mk. rewrite isred_mk, rb_mk. split_and!; eauto. }
    { done. }
    { cbn [length] in Hf. lia. }
    assert (nodes (plug ctx (mk dg true (mk d false t a k sib) g kg u'))
            = nodes (plug ctx (mk dg false (mk d true t a k sib) g kg u))) as Hn.
    { apply nodes_plug. destruct d, dg; cbn; by rewrite Hnu. }
    rewrite Hn in N2. rewrite ?addr_mk in E2.
    exists st2, t2, m. split_and!; try done. exact (same_plug _ _ ctx _ _ _ Hn S1 S2).
  - assert (d = dg \/ d = opp dg) as [->| ->] by (destruct d, dg; tauto).
    + destruct (insert_case_outer st p ctx dg t a k sib g kg u H Hne Er) as (st1 & E1 & H1 & S1).
      rewrite E1. cbn [mbind option_bind].
      destruct (IH _ _ n _ H1) as (st2 & t2 & m & E2 & H2 & N2 & R2 & B2 & S2).
      { done. } { done. }
      { cbn [crb]. split; [apply rb_mk; eauto|done]. }
      { cbn [length] in *. lia. }
      assert (nodes (plug (Fr dg false a k (mk dg true sib g kg u) :: ctx) t)
              = nodes (plug ctx (mk dg false (mk dg true t a k sib) g kg u))) as Hn.
      { cbn [plug]. apply nodes_plug. destruct dg; cbn; rewrite <- ?app_assoc; cbn; by rewrite <- ?app_assoc. }
      rewrite Hn in N2. rewrite ?addr_mk in E2.
      exists st2, t2, m. split_and!; try done. exact (same_plug _ _ ctx _ _ _ Hn S1 S2).
    + assert (exists t1 t2, t = mk dg true t1 x kx t2) as (t1 & t2 & Et').
      { subst t. destruct dg; [by exists l, r|by exists r, l]. }
      clear Et. rewrite Et' in *. rewrite addr_mk in *.
      destruct (insert_case_inner st p ctx dg t1 x kx t2 a k sib g kg u H Er) as (st1 & E1 & H1 & S1).
      rewrite E1. cbn [mbind option_bind].
      apply rb_mk in Ht. destruct Ht as (Hbt1 & Hbt2 & Hrt1 & Hrt2).
      destruct (IH _ _ n _ H1) as (st2 & t3 & m & E2 & H2 & N2 & R2 & B2 & S2).
      { apply isred_mk. } { apply rb_mk. eauto. }
      { cbn [crb]. split; [apply rb_mk; eauto|done]. }
      { cbn [length] in *. lia. }
      assert (nodes (plug (Fr dg false x kx (mk dg true t2 g kg u) :: ctx) (mk dg true sib a k t1))
              = nodes (plug ctx (mk dg false (mk dg true sib a k (mk dg true t1 x kx t2)) g kg u)))
        as Hn.
      { cbn [plug]. apply nodes_plug. destruct dg; cbn; rewrite <- ?app_assoc; cbn; by rewrite <- ?app_assoc. }
      rewrite Hn in N2. rewrite ?addr_mk in E2.
      exists st2, t3, m. cbn [plug]. rewrite mk_opp.
      split_and!; try done. exact (same_plug _ _ ctx _ _ _ Hn S1 S2).
Qed.
End Fixup.

(** ** Insertion at a leaf *)

Section Insert.
Context (s : Z) (less : Z -> Z -> bool).

Fixpoint ins (a k : Z) (t : tree) : tree :=
  match t with
  | E => N true E a k E
  | N c l b kb r => if less k kb then N c (ins a k l) b kb r else N c l b kb (ins a k r)
  end.

(** The list with [(a, k)] before the first entry that is greater. *)
Fixpoint ins_list (a k : Z) (l : list (Z * Z)) : list (Z * Z) :=
  match l with
  | [] => [(a, k)]
  | x :: l => if less k (snd x) then (a, k) :: x :: l else x :: ins_list a k l
  end.

Lemma insert_leaf d st p ctx c x kx y node nd :
  zip_at s st p ctx (mk d c E x kx y) -> cells st !! node = Some nd ->
  node ∉ s :: addrs (mk d c E x kx y) ++ caddrs ctx ->
  exists h,
    (h ← upd (set_child d node) x (cells st); h ← upd (set_parent x) node h;
     h ← upd (set_child L s) node h; h ← upd (set_child R s) node h;
     ngx_rbt_red node h) = Some h
    /\ zip_at s (RBTree (root st) h) p (Fr d c x kx y :: ctx) (N true E node (key nd) E)
    /\ forall a, a <> node -> a <> x -> h !! a = cells st !! a.
Proof.
  intros H Hn Hni. pose proof (zip_cell d H) as Hx. destruct st as [rt h].
  destruct H as (Hr & Hrep & Hcrep & Hnd & Hs). cbn [root cells] in *.
  rewrite addr_mk in *. rewrite addrs_mk in *. cbn [addrs app] in *.
  rewrite (upd_some _ _ _ _ Hx), set_child_mkn. cbn [mbind option_bind].
  assert (node <> x) as Hne by (clear -Hni; set_solver).
  rewrite (upd_some _ _ _ nd) by (by rewrite lookup_insert_ne). cbn [mbind option_bind].
  do 2 (erewrite upd_some by (by rewrite lookup_insert_eq); cbn [mbind option_bind]).
  unfold ngx_rbt_red. erewrite upd_some by (by rewrite lookup_insert_eq).
  rewrite !insert_insert_eq. eexists. split; [done|].
  set (h' := <[node := _]> _).
  assert (F : forall a, a <> node -> a <> x -> h' !! a = h !! a).
  { intros a ? ?. unfold h'. by rewrite !lookup_insert_ne. }
  split; [|exact F]. apply zip_dn. rewrite rep_mk in Hrep. destruct Hrep as (_ & _ & Hy).
  pose proof Hnd as Hnd0. nodup Hnd.
  split; [|split; [|split; [|split]]]; cbn [root cells].
  - by rewrite addr_mk.
  - rewrite rep_mk. split; [|split].
    + unfold h'. rewrite lookup_insert_ne by done. by rewrite lookup_insert_eq.
    + cbn [rep]. split; [|done]. unfold h'. rewrite lookup_insert_eq. by destruct nd.
    + apply (rep_frame s h); [done|]. intros b Hb. apply F; dis.
  - rewrite addr_mk. apply (crep_frame s h); [done|]. intros b Hb. apply F; dis.
  - rewrite addrs_mk. cbn [addrs app]. apply (nodup_perm (node :: s :: x :: addrs y ++ caddrs ctx)).
    + by apply NoDup_cons.
    + solve_Permutation.
  - destruct Hs as (n & Hs & Hc). exists n. split; [|done]. rewrite F; [done| |].
    + clear -Hni. set_solver.
    + clear -Hnd. set_solver.
Qed.

Lemma insert_loop_ok fuel st p ctx t node nd :
  zip_at s st p ctx t -> t <> E -> cells st !! node = Some nd ->
  node ∉ s :: addrs t ++ caddrs ctx -> (height t <= fuel)%nat ->
  exists h ctx', insert_loop less fuel (cells st) (addr s t) node s = Some h
    /\ zip_at s (RBTree (root st) h) p ctx' (N true E node (key nd) E)
    /\ plug ctx' E = plug ctx t
    /\ plug ctx' (N true E node (key nd) E) = plug ctx (ins node (key nd) t)
    /\ forall a, a <> node -> a ∉ addrs (plug ctx t) -> h !! a = cells st !! a.
Proof.
  revert ctx t. induction fuel as [|fuel IH]; intros ctx t H Ht Hn Hni Hf;
    destruct t as [|c l x kx r]; try done; [cbn in Hf; lia|].
  cbn [insert_loop addr]. rewrite Hn.
  cbn [mbind option_bind]. pose proof (zip_cell L H) as Hx. cbn in Hx. rewrite Hx.
  cbn [mbind option_bind key].
  set (d := if less (key nd) kx then L else R).
  assert (exists u v, N c l x kx r = mk d c u x kx v
    /\ ins node (key nd) (N c l x kx r) = mk d c (ins node (key nd) u) x kx v
    /\ child d (RBNode kx (addr s l) (addr s r) (ctop p ctx) (col c)) = addr s u)
    as (u & v & Eu & Ei & ->).
  { unfold d. cbn [ins]. destruct (less (key nd) kx); [by exists l, r|by exists r, l]. }
  rewrite Ei. rewrite Eu in *. clearbody d. clear Eu Ei.
  destruct u as [|cu ul ua ku ur].
  - change (addr s E) with s. rewrite decide_True by done.
    destruct (insert_leaf _ _ _ _ _ _ _ _ _ _ H Hn Hni) as (h & E1 & H1 & F1).
    cbn [ins]. exists h, (Fr d c x kx v :: ctx). split; [exact E1|]. split; [exact H1|].
    split; [done|]. split; [done|]. intros b Hb Hb2. apply F1; [done|]. intros ->. apply Hb2.
    rewrite addrs_plug, addrs_mk. clear. set_solver.
  - rewrite decide_False by (exact (zip_in (zip_dn H) ltac:(done))).
    rewrite addrs_mk in Hni. rewrite height_mk in Hf.
    destruct (IH _ _ (zip_dn H)) as (h & ctx' & E1 & H1 & P1 & P2 & F1).
    { done. } { done. }
    { cbn [caddrs f_addr f_sib]. clear -Hni. set_solver. }
    { lia. }
    exists h, ctx'. split_and!; try done.
Qed.

(** *** The inserted list *)

(** Once an entry is greater than [k], the ones after it are. *)
Definition mono (k : Z) (l : list (Z * Z)) : Prop :=
  forall l1 x l2, l = l1 ++ x :: l2 -> less k (snd x) = true ->
  forall y, y ∈ l2 -> less k (snd y) = true.

Lemma mono_app k l1 x l2 : mono k (l1 ++ x :: l2) -> mono k l1 /\ mono k l2.
Proof.
  intros H. split; intros m1 y m2 -> Hy z Hz.
  - apply (H m1 y (m2 ++ x :: l2)); [by rewrite <- (app_assoc m1)|done|set_solver].
  - apply (H (l1 ++ x :: m1) y m2); [by rewrite <- (app_assoc l1)|done|done].
Qed.

Lemma ins_list_app a k l1 x l2 :
  mono k (l1 ++ x :: l2) ->
  ins_list a k (l1 ++ x :: l2) =
  if less k (snd x) then ins_list a k l1 ++ x :: l2 else l1 ++ x :: ins_list a k l2.
Proof.
  induction l1 as [|y l1 IH]; intros H.
  - cbn. by destruct (less k (snd x)).
  - cbn [app ins_list]. destruct (less k (snd y)) eqn:Ey.
    + rewrite (H [] y (l1 ++ x :: l2)) by (done || set_solver). done.
    + rewrite IH. { by destruct (less k (snd x)). }
      intros m1 z m2 E. apply (H (y :: m1) z m2). cbn [app]. by rewrite E.
Qed.

Lemma nodes_ins a k t : mono k (nodes t) -> nodes (ins a k t) = ins_list a k (nodes t).
Proof.
  induction t as [|c l IHl b kb r IHr]; intros H; [done|]. cbn [ins nodes] in *.
  rewrite ins_list_app by done. cbn [snd]. apply mono_app in H. destruct H as [H1 H2].
  destruct (less k kb); cbn [nodes]; [by rewrite IHl|by rewrite IHr].
Qed.

Lemma ins_list_perm a k l : Permutation (ins_list a k l) ((a, k) :: l).
Proof.
  induction l as [|x l IH]; [done|]. cbn. destruct (less k (snd x)); [done|].
  rewrite IH. by apply Permutation_swap.
Qed.

(** Entries in the order of [f]. *)
Definition ordered (f : Z -> Z) (l : list (Z * Z)) : Prop :=
  StronglySorted (fun x y => f (snd x) <= f (snd y)) l.

Lemma ins_ordered f a k l :
  (forall x, x ∈ l -> less k (snd x) = bool_decide (f k < f (snd x))) -> ordered f l ->
  mono k l /\ ordered f (ins_list a k l).
Proof.
  intros Hf Ho. split.
  - intros l1 x l2 -> Hx y Hy. rewrite Hf in * by set_solver.
    apply bool_decide_eq_true in Hx. apply bool_decide_eq_true.
    apply StronglySorted_app_1_r in Ho. apply StronglySorted_cons in Ho.
    destruct Ho as [Ho _]. rewrite List.Forall_forall in Ho.
    specialize (Ho y). rewrite <- list_elem_of_In in Ho. specialize (Ho Hy). lia.
  - induction Ho as [|x l Ho IH Hx]; cbn; [repeat constructor|].
    rewrite Hf by set_solver. case_bool_decide as E.
    + constructor; [by constructor|]. constructor; [cbn; lia|].
      eapply List.Forall_impl; [|exact Hx]. cbn. intros y Hy. lia.
    + constructor; [apply IH; set_solver|]. rewrite ins_list_perm.
      constructor; [cbn; lia|done].
Qed.
End Insert.

(** ** The abstract state *)

(** A state holds the entries [l], address and key, in order: a red-black tree
    with a black root. *)
Definition rbt (s : Z) (st : rbtree) (t : tree) : Prop :=
  tree_at s st t /\ (exists n, rb n t) /\ isred t = false.

Definition models (s : Z) (st : rbtree) (l : list (Z * Z)) : Prop :=
  exists t, rbt s st t /\ nodes t = l.

(** The cells outside [l] are unchanged. *)
Definition unchanged (l : list Z) (st st' : rbtree) : Prop :=
  forall a, a ∉ l -> cells st' !! a = cells st !! a.

Section Abstract.
Context (s : Z).

Lemma rep_cells h p t a : rep s h p t -> a ∈ addrs t -> is_Some (h !! a).
Proof.
  revert p. induction t as [|c l IHl b k r IHr]; intros p; cbn [rep addrs]; [set_solver|].
  intros (H & Hl & Hr). rewrite elem_of_cons, elem_of_app. intros [->|[Ha|Ha]]; eauto.
Qed.

Lemma size_bound (h : heap) (l : list Z) :
  NoDup l -> (forall a, a ∈ l -> is_Some (h !! a)) -> (length l <= size h)%nat.
Proof.
  intros Hn Hl. rewrite <- size_dom. rewrite <- (size_list_to_set (C := gset Z) l) by done.
  apply subseteq_size. intros a Ha. apply elem_of_dom, Hl. set_solver.
Qed.

Lemma zip_cells st p ctx t a : zip_at s st p ctx t -> a ∈ addrs t ++ caddrs ctx ->
  is_Some (cells st !! a).
Proof.
  intros H Ha. rewrite <- addrs_plug in Ha. apply zip_plug in H.
  exact (rep_cells _ _ _ _ (proj1 (proj2 H)) Ha).
Qed.

Lemma zip_size st p ctx t : zip_at s st p ctx t ->
  (length (addrs t) + length (caddrs ctx) < size (cells st))%nat.
Proof.
  intros H. rewrite <- length_app. pose proof H as (_ & _ & _ & Hn & n & Hs & _).
  apply (size_bound (cells st) (s :: addrs t ++ caddrs ctx)); [done|].
  intros a. rewrite elem_of_cons. intros [->|Ha]; [by rewrite Hs|exact (zip_cells _ _ _ _ _ H Ha)].
Qed.

Lemma length_ctx ctx : (length ctx <= length (caddrs ctx))%nat.
Proof. induction ctx as [|f ctx IH]; [done|]. cbn. rewrite length_app. lia. Qed.

Lemma root_sentinel st t : tree_at s st t -> root st = s -> t = E.
Proof.
  intros (Hr & _ & Hn & _) E. destruct t as [|c l a k r]; [done|]. exfalso. cbn in Hr.
  rewrite Hr in E. subst a. cbn in Hn. nodup Hn. set_solver.
Qed.

Lemma insert_ok less st l node nd :
  models s st l -> cells st !! node = Some nd -> node ∉ s :: map fst l -> mono less (key nd) l ->
  exists st',
    ngx_rbtree_insert (fun h => insert_loop less (S (size h)) h) s node st = Some st'
    /\ models s st' (ins_list less node (key nd) l)
    /\ unchanged (node :: map fst l) st st'.
Proof.
  intros (t & (Ht & (n & Hrb) & Hb) & Hl) Hn Hni Hm. destruct st as [rt h].
  unfold ngx_rbtree_insert. cbn [cells] in *.
  destruct (decide (rt = s)) as [Er|Er].
  - rewrite (root_sentinel _ _ Ht Er) in *. cbn in Hl. subst l.
    rewrite (upd_some _ _ _ _ Hn). cbn [mbind option_bind].
    do 2 (erewrite upd_some by (by rewrite lookup_insert_eq); cbn [mbind option_bind]).
    unfold ngx_rbt_black. erewrite upd_some by (by rewrite lookup_insert_eq).
    cbn [mbind option_bind]. rewrite !insert_insert_eq. eexists. split; [done|]. split.
    + exists (N false E node (key nd) E). split; [|done].
      split; [|split; [by exists 1%nat|done]].
      destruct Ht as (_ & _ & _ & ns & Hs & Hc). cbn in Hni.
      split; [done|]. split; [|split].
      * exists NULL. cbn. rewrite lookup_insert_eq. by destruct nd.
      * cbn. rewrite NoDup_cons. split; [set_solver|apply NoDup_singleton].
      * exists ns. split; [|done]. cbn. rewrite lookup_insert_ne; [done|]. set_solver.
    + intros a Ha. cbn. rewrite lookup_insert_ne; [done|]. set_solver.
  - destruct (tree_zip s (RBTree rt h) [] t) as [Hz _]. destruct (Hz Ht) as (p & H).
    assert (t <> E) as Hne by (intros ->; apply Er; apply Ht).
    assert (root (RBTree rt h) = addr s t) as Hr by apply H. cbn in Hr. subst rt.
    assert (node ∉ s :: addrs t ++ caddrs []) as Hni2.
    { cbn [caddrs]. by rewrite app_nil_r, addrs_nodes, Hl. }
    destruct (insert_loop_ok s less (S (size h)) _ _ _ _ node nd H Hne Hn Hni2)
      as (h1 & ctx & E1 & H1 & P1 & P2 & F1).
    { pose proof (zip_size _ _ _ _ H). pose proof (height_addrs t). cbn in *. lia. }
    cbn [cells] in E1. rewrite E1. cbn [mbind option_bind].
    cbn [plug] in P1, P2.
    destruct (rb_plug n ctx E) as (m & Hm0 & Hc & _); [by rewrite P1|by rewrite P1|].
    cbn in Hm0. subst m.
    destruct (insert_fixup_ok s (S (size h1)) _ _ _ 0 _ H1) as (st' & t' & m & E2 & H2 & N2 & R2 & B2 & S2).
    { done. } { done. } { done. }
    { pose proof (zip_size _ _ _ _ H1). pose proof (length_ctx ctx). cbn in *. lia. }
    cbn [addr] in E2. exists st'. split; [exact E2|].
    rewrite P2, nodes_ins, Hl in N2 by (by rewrite Hl). split.
    + exists t'. split; [|done]. split; [done|]. eauto.
    + intros a Ha. rewrite S2.
      * cbn [cells]. apply F1; [set_solver|]. cbn [plug]. rewrite addrs_nodes, Hl. set_solver.
      * rewrite P2, addrs_nodes, nodes_ins, Hl by (by rewrite Hl).
        rewrite ins_list_perm. done.
Qed.
End Abstract.

(** ** Deletion *)

Section Delete.
Context (s : Z).

Lemma zip_sib_at st p ctx d c a k sib t :
  zip_at s st p (Fr d c a k sib :: ctx) t -> zip_at s st p (Fr (opp d) c a k t :: ctx) sib.
Proof. intros H. apply zip_dn. rewrite mk_opp. by apply zip_up. Qed.

Lemma zip_side_sib st p d c a k sib ctx t :
  zip_at s st p (Fr d c a k sib :: ctx) t -> sib <> E ->
  exists l, child_of L (cells st) a = Some l /\ (if decide (addr s t = l) then L else R) = d.
Proof.
  intros H Ht. apply zip_sib_at in H. pose proof (zip_sib H (zip_in H Ht)).
  apply zip_up in H. rewrite mk_opp in H. destruct d.
  - eexists. split; [exact (zip_child L H)|]. by rewrite decide_True.
  - rewrite <- (mk_opp R) in H. cbn [opp] in H.
    eexists. split; [exact (zip_child L H)|]. rewrite decide_False; [done|]. congruence.
Qed.

(** The same parent above [temp] after an operation elsewhere. *)
Lemma parent_same st st' p ctx p' ctx' t l lctx :
  zip_at s st p ctx t -> zip_at s st' p' ctx' t -> ctop p ctx = ctop p' ctx' ->
  same_out l lctx st st' -> s ∉ addrs l ++ caddrs lctx ->
  parent_of (cells st) (addr s t) = Some (ctop p ctx) ->
  parent_of (cells st') (addr s t) = Some (ctop p' ctx').
Proof.
  intros H H' E S Hs Hp. destruct t as [|c tl b kb tr].
  - cbn [addr] in *. unfold parent_of in *. rewrite (S s Hs). by rewrite <- E.
  - exact (zip_parent L H').
Qed.

Lemma zip_s st p ctx t : zip_at s st p ctx t -> s ∉ addrs t ++ caddrs ctx.
Proof. intros (_ & _ & _ & Hn & _). by apply NoDup_cons in Hn as [? _]. Qed.

(** Positions around the sibling [w]. *)
Lemma zip_w st p ctx d c c' t a k near w kw far :
  (zip_at s st p ctx (mk d c t a k (mk d c' near w kw far)))
  <-> zip_at s st p (Fr (opp d) c a k t :: ctx) (mk d c' near w kw far).
Proof. by rewrite zip_down, mk_opp. Qed.

Lemma zip_far st p ctx d c c' t a k near w kw far :
  (zip_at s st p ctx (mk d c t a k (mk d c' near w kw far)))
  <-> zip_at s st p (Fr (opp d) c' w kw near :: Fr (opp d) c a k t :: ctx) far.
Proof. by rewrite !zip_down, !mk_opp. Qed.

Lemma zip_near st p ctx d c c' t a k near w kw far :
  (zip_at s st p ctx (mk d c t a k (mk d c' near w kw far)))
  <-> zip_at s st p (Fr d c' w kw far :: Fr (opp d) c a k t :: ctx) near.
Proof. by rewrite !zip_down, !mk_opp. Qed.

Lemma delete_far_ok st p ctx d c a k near w kw far t :
  zip_at s st p (Fr d c a k (mk d false near w kw far) :: ctx) t ->
  parent_of (cells st) (addr s t) = Some a -> isred far = true ->
  exists st', delete_far d s (addr s t) w st = Some (root st', st')
    /\ zip_at s st' p ctx (mk d c (mk d false t a k near) w kw (blacken far))
    /\ same_out (mk d c t a k (mk d false near w kw far)) ctx st st'.
Proof.
  intros H Hp Hf. destruct st as [rt h].
  unfold delete_far. cbn [cells] in *. rewrite Hp. cbn [mbind option_bind].
  pose proof (zip_cell d (zip_up H)) as Ha. cbn [cells] in Ha. rewrite Ha.
  cbn [mbind option_bind]. rewrite color_mkn.
  apply zip_up in H. pose proof H as Hw. apply zip_w in Hw.
  destruct (recolor_ok d c Hw) as (h1 & E1 & H1 & S1). cbn [cells root] in *. rewrite E1.
  cbn [mbind option_bind]. apply zip_w in H1.
  assert (Hp1 : parent_of h1 (addr s t) = Some a).
  { exact (parent_same _ _ _ _ _ _ _ _ _ (zip_dn H) (zip_dn H1) eq_refl S1 (zip_s _ _ _ _ Hw) Hp). }
  rewrite Hp1. cbn [mbind option_bind].
  destruct (recolor_ok d false H1) as (h2 & E2 & H2 & S2). cbn [cells root col] in *.
  unfold ngx_rbt_black. rewrite E2. cbn [mbind option_bind].
  assert (Hp2 : parent_of h2 (addr s t) = Some a).
  { exact (parent_same _ _ _ _ _ _ _ _ _ (zip_dn H1) (zip_dn H2) eq_refl S2 (zip_s _ _ _ _ H1) Hp1). }
  pose proof (zip_child_opp d (proj1 (zip_w _ _ _ _ _ _ _ _ _ _ _ _ _) H2)) as Ef.
  cbn [cells] in Ef. rewrite Ef. cbn [mbind option_bind].
  destruct far as [|[] fl f kf fr]; [done| |done].
  apply zip_far in H2. pose proof (zip_s _ _ _ _ H2) as Hs2.
  destruct (recolor_ok L false H2) as (h3 & E3 & H3 & S3). cbn [cells root addr col] in *.
  rewrite E3. cbn [mbind option_bind]. apply zip_far in H2, H3.
  assert (Hp3 : parent_of h3 (addr s t) = Some a).
  { exact (parent_same _ _ _ _ _ _ _ _ _ (zip_dn H2) (zip_dn H3) eq_refl S3 Hs2 Hp2). }
  rewrite Hp3. cbn [mbind option_bind].
  destruct (rotate_ok d H3) as ([rt4 h4] & E4 & H4 & S4). rewrite E4. cbn [mbind option_bind].
  exists (RBTree rt4 h4). split; [done|]. split; [exact H4|]. sames.
Qed.

Lemma delete_near_ok st p ctx d c a k n y kn m w kw far t :
  zip_at s st p ctx (mk d c t a k (mk d false (mk d true n y kn m) w kw far)) ->
  parent_of (cells st) (addr s t) = Some a -> isred far = false ->
  exists st', delete_near d s (addr s t) w st = Some (y, st')
    /\ zip_at s st' p ctx (mk d c t a k (mk d false n y kn (mk d true m w kw far)))
    /\ parent_of (cells st') (addr s t) = Some a
    /\ same_out (mk d c t a k (mk d false (mk d true n y kn m) w kw far)) ctx st st'.
Proof.
  intros H Hp Hf. destruct st as [rt h]. unfold delete_near. cbn [cells] in *.
  pose proof H as Hw. apply zip_w in Hw. pose proof (zip_child_opp d Hw) as Ef.
  cbn [cells] in Ef. rewrite Ef. cbn [mbind option_bind].
  pose proof H as Hfar. apply zip_far, zip_red in Hfar. cbn [cells] in Hfar. rewrite Hfar, Hf.
  cbn [mbind option_bind negb].
  pose proof (zip_child d Hw) as En. rewrite addr_mk in En. cbn [cells] in En. rewrite En.
  cbn [mbind option_bind]. pose proof H as Hn. apply zip_near in Hn.
  destruct (recolor_ok d false Hn) as (h1 & E1 & H1 & S1). cbn [cells root col] in *.
  unfold ngx_rbt_black. rewrite E1. cbn [mbind option_bind].
  apply zip_up in H1. destruct (recolor_ok d true H1) as (h2 & E2 & H2 & S2).
  cbn [cells root col] in *. unfold ngx_rbt_red. rewrite E2. cbn [mbind option_bind].
  rewrite <- (mk_opp d true), <- (mk_opp d false) in H2.
  destruct (rotate_ok (opp d) H2) as ([rt3 h3] & E3 & H3 & S3). rewrite E3.
  cbn [mbind option_bind cells].
  rewrite !mk_opp in *. apply zip_w in H3.
  assert (S : same_out (mk d c t a k (mk d false (mk d true n y kn m) w kw far)) ctx
                (RBTree rt h) (RBTree rt3 h3)).
  { sames. }
  assert (Hp3 : parent_of h3 (addr s t) = Some a).
  { exact (parent_same _ _ _ _ _ _ _ _ _ (zip_dn H) (zip_dn H3) eq_refl S (zip_s _ _ _ _ H) Hp). }
  rewrite Hp3. cbn [mbind option_bind].
  pose proof (zip_child_opp d H3) as Ey. rewrite addr_mk in Ey. cbn [cells] in Ey. rewrite Ey.
  cbn [mbind option_bind]. exists (RBTree rt3 h3). done.
Qed.

Lemma delete_red_ok st p ctx d c a k near w kw far t :
  zip_at s st p ctx (mk d c t a k (mk d true near w kw far)) ->
  parent_of (cells st) (addr s t) = Some a ->
  exists st', delete_red d s (addr s t) w st = Some (addr s near, st')
    /\ zip_at s st' p (Fr d false w kw far :: ctx) (mk d true t a k near)
    /\ parent_of (cells st') (addr s t) = Some a
    /\ same_out (mk d c t a k (mk d true near w kw far)) ctx st st'.
Proof.
  intros H Hp. destruct st as [rt h]. unfold delete_red. cbn [cells] in *.
  pose proof H as Hw. apply zip_w in Hw. pose proof (zip_red Hw) as Hr.
  rewrite addr_mk, isred_mk in Hr. cbn [cells] in Hr. rewrite Hr. cbn [mbind option_bind].
  destruct (recolor_ok d false Hw) as (h1 & E1 & H1 & S1). cbn [cells root col] in *.
  unfold ngx_rbt_black. rewrite E1. cbn [mbind option_bind]. apply zip_w in H1.
  assert (Hp1 : parent_of h1 (addr s t) = Some a).
  { exact (parent_same _ _ _ _ _ _ _ _ _ (zip_dn H) (zip_dn H1) eq_refl S1 (zip_s _ _ _ _ Hw) Hp). }
  rewrite Hp1. cbn [mbind option_bind].
  destruct (recolor_ok d true H1) as (h2 & E2 & H2 & S2). cbn [cells root col] in *.
  unfold ngx_rbt_red. rewrite E2. cbn [mbind option_bind].
  assert (Hp2 : parent_of h2 (addr s t) = Some a).
  { exact (parent_same _ _ _ _ _ _ _ _ _ (zip_dn H1) (zip_dn H2) eq_refl S2 (zip_s _ _ _ _ H1) Hp1). }
  rewrite Hp2. cbn [mbind option_bind].
  destruct (rotate_ok d H2) as ([rt3 h3] & E3 & H3 & S3). rewrite E3. cbn [mbind option_bind cells].
  apply zip_dn in H3.
  assert (Hp3 : parent_of h3 (addr s t) = Some a).
  { exact (parent_same _ _ _ _ _ _ _ _ _ (zip_dn H2) (zip_dn H3) eq_refl S3 (zip_s _ _ _ _ H2) Hp2). }
  rewrite Hp3. cbn [mbind option_bind].
  pose proof (zip_child_opp d H3) as Ey. cbn [cells] in Ey. rewrite Ey.
  cbn [mbind option_bind]. exists (RBTree rt3 h3). split_and!; [done|done|done|]. sames.
Qed.

(** What is below [temp] is one black node short. *)
Definition short (n : nat) (t : tree) : Prop :=
  if isred t then rb (S n) (blacken t) else rb n t.

Lemma delete_black_test st p ctx d c c' a k near w kw far t temp :
  zip_at s st p ctx (mk d c t a k (mk d c' near w kw far)) ->
  delete_black d s temp w st =
  if negb (isred near) && negb (isred far)
  then h ← ngx_rbt_red w (cells st); p ← parent_of h temp; Some (p, RBTree (root st) h)
  else '(w, t) ← delete_near d s temp w st; delete_far d s temp w t.
Proof.
  intros H. destruct st as [rt h]. unfold delete_black.
  pose proof H as Hw. apply zip_w in Hw.
  pose proof (zip_child_opp d Hw) as Ef. pose proof (zip_child d Hw) as En.
  pose proof H as Rn. apply zip_near, zip_red in Rn.
  pose proof H as Rf. apply zip_far, zip_red in Rf. cbn [cells root] in *.
  destruct d; cbn [opp] in *; rewrite En || rewrite Ef; cbn [mbind option_bind];
    rewrite En || rewrite Ef; cbn [mbind option_bind]; rewrite Rn || rewrite Rf;
    cbn [mbind option_bind]; rewrite Rn || rewrite Rf; cbn [mbind option_bind].
  - done.
  - by rewrite andb_comm.
Qed.

Ltac by_nodes d :=
  destruct d; cbn [mk opp nodes blacken]; rewrite <- ?app_assoc; cbn [app];
  rewrite <- ?app_assoc; try done.

Lemma nodes_blacken t : nodes (blacken t) = nodes t.
Proof. by destruct t. Qed.

Lemma rb_blacken n t : isred t = true -> rb n t -> rb (S n) (blacken t).
Proof. destruct t as [|[] l a k r]; cbn; naive_solver. Qed.

Lemma isred_blacken t : isred (blacken t) = false.
Proof. by destruct t. Qed.

Lemma rb_end d (c : bool) n t a k near w kw far :
  rb n t -> rb n near -> rb (S n) (blacken far) ->
  rb (if c then S n else S (S n)) (mk d c (mk d false t a k near) w kw (blacken far)).
Proof.
  intros H1 H2 H3. destruct c; apply rb_mk; rewrite ?isred_mk, ?isred_blacken, rb_mk; done.
Qed.

(** A round with a black sibling either moves up, or ends at the root. *)
Lemma delete_black_ok st p ctx d c a k near w kw far t n :
  zip_at s st p ctx (mk d c t a k (mk d false near w kw far)) ->
  parent_of (cells st) (addr s t) = Some a ->
  rb n t -> isred t = false -> rb (S n) (mk d false near w kw far) ->
  (exists st' t', delete_black d s (addr s t) w st = Some (a, st')
    /\ zip_at s st' p ctx (mk d c t a k t')
    /\ nodes t' = nodes (mk d false near w kw far) /\ isred t' = true /\ rb n t'
    /\ same_out (mk d c t a k (mk d false near w kw far)) ctx st st')
  \/
  (exists st' t', delete_black d s (addr s t) w st = Some (root st', st')
    /\ zip_at s st' p ctx t'
    /\ nodes t' = nodes (mk d c t a k (mk d false near w kw far)) /\ isred t' = c
    /\ rb (if c then S n else S (S n)) t'
    /\ same_out (mk d c t a k (mk d false near w kw far)) ctx st st').
Proof.
  intros H Hp Ht Hb Hw. apply rb_mk in Hw. destruct Hw as [Hnear Hfar].
  destruct (isred far) eqn:Ef.
  - right.
    rewrite (delete_black_test _ _ _ _ _ _ _ _ _ _ _ _ _ _ H), Ef, andb_false_r.
    assert (delete_near d s (addr s t) w st = Some (w, st)) as ->.
    { destruct st as [rt h]. unfold delete_near. pose proof H as Hw. apply zip_w in Hw.
      pose proof (zip_child_opp d Hw) as Ec. cbn [cells] in Ec. rewrite Ec.
      cbn [mbind option_bind]. apply zip_far, zip_red in H. cbn [cells] in H.
      rewrite H, Ef. done. }
    cbn [mbind option_bind].
    destruct (delete_far_ok _ _ _ _ _ _ _ _ _ _ _ _ (zip_dn H) Hp Ef) as (st' & E1 & H1 & S1).
    exists st', (mk d c (mk d false t a k near) w kw (blacken far)). split_and!; try done.
    + by_nodes d; by rewrite nodes_blacken.
    + apply isred_mk.
    + apply rb_end; [done|done|]. by apply rb_blacken.
  - destruct (isred near) eqn:En.
    + right. rewrite (delete_black_test _ _ _ _ _ _ _ _ _ _ _ _ _ _ H), Ef, En. cbn [andb negb].
      assert (exists n1 y ky n2, near = mk d true n1 y ky n2) as (n1 & y & ky & n2 & ->).
      { destruct near as [|[] n1 y ky n2]; [done| |done].
        destruct d; [by exists n1, y, ky, n2|by exists n2, y, ky, n1]. }
      destruct (delete_near_ok _ _ _ _ _ _ _ _ _ _ _ _ _ _ _ H Hp Ef) as (st1 & E1 & H1 & Hp1 & S1).
      rewrite E1. cbn [mbind option_bind].
      destruct (delete_far_ok _ _ _ _ _ _ _ _ _ _ _ _ (zip_dn H1) Hp1) as (st' & E2 & H2 & S2).
      { apply isred_mk. }
      apply rb_mk in Hnear. destruct Hnear as (B1 & B2 & R1 & R2).
      exists st', (mk d c (mk d false t a k n1) y ky (blacken (mk d true n2 w kw far))).
      split_and!; try done.
      * by_nodes d.
      * apply isred_mk.
      * apply rb_end; [done|done|]. apply rb_blacken; [apply isred_mk|]. by apply rb_mk.
      * sames.
    + left. rewrite (delete_black_test _ _ _ _ _ _ _ _ _ _ _ _ _ _ H), Ef, En. cbn [andb negb].
      apply zip_w in H. destruct (recolor_ok d true H) as (h1 & E1 & H1 & S1).
      unfold ngx_rbt_red. cbn [col] in E1. rewrite E1. cbn [mbind option_bind].
      assert (Hp1 : parent_of h1 (addr s t) = Some a).
      { exact (parent_same _ _ _ _ _ _ _ _ _ (zip_sib_at _ _ _ _ _ _ _ _ _ H)
                 (zip_sib_at _ _ _ _ _ _ _ _ _ H1) eq_refl S1 (zip_s _ _ _ _ H) Hp). }
      rewrite Hp1. cbn [mbind option_bind]. apply zip_w in H1.
      exists (RBTree (root st) h1), (mk d true near w kw far). split_and!; try done.
      * by_nodes d.
      * apply isred_mk.
      * by apply rb_mk.
      * sames.
Qed.

(** What a round leaves to do: [t] below [ctx] is one black node short, and
    what is around it is right. *)
Definition pending (p : Z) (ctx : list frame) (t : tree) (st : rbtree) : Prop :=
  zip_at s st p ctx t
  /\ (ctx <> [] -> parent_of (cells st) (addr s t) = Some (ctop p ctx))
  /\ exists n, short n t /\ crb (S n) ctx.

Lemma pending_black p ctx d c a k near w kw far t n st :
  zip_at s st p ctx (mk d c t a k (mk d false near w kw far)) ->
  parent_of (cells st) (addr s t) = Some a ->
  rb n t -> isred t = false -> rb (S n) (mk d false near w kw far) ->
  (if c then may_red ctx = true /\ crb (S n) ctx else crb (S (S n)) ctx) ->
  exists st' ctx' t', delete_black d s (addr s t) w st = Some (addr s t', st')
    /\ pending p ctx' t' st'
    /\ (isred t' = true \/ ctx' = [] \/ c = false /\ length ctx' = length ctx)
    /\ nodes (plug ctx' t') = nodes (plug ctx (mk d c t a k (mk d false near w kw far)))
    /\ same_out (mk d c t a k (mk d false near w kw far)) ctx st st'.
Proof.
  intros H Hp Ht Hb Hw Hc.
  destruct (delete_black_ok _ _ _ _ _ _ _ _ _ _ _ _ _ H Hp Ht Hb Hw)
    as [(st' & t' & E1 & H1 & N1 & B1 & R1 & S1)|(st' & t' & E1 & H1 & N1 & B1 & R1 & S1)].
  - exists st', ctx, (mk d c t a k t'). rewrite addr_mk, isred_mk. split_and!; try done.
    + split; [done|]. split; [intros _; rewrite addr_mk; exact (zip_parent d H1)|].
      exists (if c then n else S n). unfold short. rewrite isred_mk.
      destruct c; (split; [|by apply Hc]); destruct d; cbn; done.
    + destruct c; auto.
    + apply nodes_plug. destruct d; cbn in *; by rewrite N1.
  - exists st', [], (plug ctx t'). split_and!; try done.
    + rewrite E1. apply zip_plug in H1. by rewrite (proj1 H1).
    + split; [by apply zip_plug|]. split; [done|].
      destruct (plug_rb (if c then S n else S (S n)) ctx t') as (m & Hm & Hbm).
      { done. } { destruct c; apply Hc. } { rewrite B1. destruct c; [|done]. cbn. apply Hc. }
      exists m. split; [|done]. unfold short. by rewrite Hbm.
    + by right; left.
    + cbn [plug]. by apply nodes_plug.
Qed.

Lemma delete_round st p d c a k sib ctx t :
  pending p (Fr d c a k sib :: ctx) t st -> isred t = false ->
  exists st' ctx' t', delete_case d s (addr s t) st = Some (addr s t', st')
    /\ pending p ctx' t' st'
    /\ (isred t' = true \/ ctx' = [] \/ (length ctx' <= length ctx)%nat)
    /\ nodes (plug ctx' t') = nodes (plug ctx (mk d c t a k sib))
    /\ same_out (mk d c t a k sib) ctx st st'.
Proof.
  intros (H & Hp & n & Hsh & Hc) Hb. unfold short in Hsh. rewrite Hb in Hsh.
  cbn [crb ctop f_addr] in *. destruct Hc as [Hsib Hc]. specialize (Hp ltac:(done)).
  assert (exists w kw cw near far, sib = mk d cw near w kw far) as (w & kw & cw & near & far & ->).
  { destruct sib as [|cw u w kw v]; [done|].
    destruct d; [by exists w, kw, cw, u, v|by exists w, kw, cw, v, u]. }
  rewrite isred_mk in Hc. apply zip_up in H.
  unfold delete_case. rewrite Hp. cbn [mbind option_bind].
  rewrite (zip_child_opp d H), addr_mk. cbn [mbind option_bind]. destruct cw.
  - destruct c; [by destruct Hc as [? _]|].
    destruct (delete_red_ok _ _ _ _ _ _ _ _ _ _ _ _ H Hp) as (st1 & E1 & H1 & Hp1 & S1).
    rewrite E1. cbn [mbind option_bind]. apply rb_mk in Hsib. destruct Hsib as (Bn & Bf & Rn & Rf).
    assert (exists y ky n1 n2, near = mk d false n1 y ky n2) as (y & ky & n1 & n2 & ->).
    { destruct near as [|[] u y ky v]; [done|done|].
      destruct d; [by exists y, ky, u, v|by exists y, ky, v, u]. }
    rewrite addr_mk in *.
    destruct (pending_black _ _ _ _ _ _ _ _ _ _ _ _ _ H1 Hp1 Hsh Hb Rn)
      as (st' & ctx' & t' & E2 & P2 & M2 & N2 & S2).
    { cbn. done. }
    exists st', ctx', t'. split_and!; try done.
    + destruct M2 as [?|[?|[? _]]]; [by left|by right; left|done].
    + rewrite N2. cbn [plug]. apply nodes_plug. by_nodes d.
    + sames.
  - assert (delete_red d s (addr s t) w st = Some (w, st)) as ->.
    { destruct st as [rt h]. unfold delete_red. pose proof H as Hw. apply zip_w, zip_red in Hw.
      rewrite addr_mk, isred_mk in Hw. cbn [cells] in Hw. by rewrite Hw. }
    cbn [mbind option_bind].
    destruct (pending_black _ _ _ _ _ _ _ _ _ _ _ _ _ H Hp Hsh Hb Hsib)
      as (st' & ctx' & t' & E2 & P2 & M2 & N2 & S2).
    { destruct c; tauto. }
    exists st', ctx', t'. split_and!; try done.
    destruct M2 as [?|[?|[_ ->]]]; auto.
Qed.

Lemma delete_finish p ctx t st :
  pending p ctx t st -> isred t = true \/ ctx = [] ->
  exists h t' m, ngx_rbt_black (addr s t) (cells st) = Some h
    /\ tree_at s (RBTree (root st) h) t'
    /\ nodes t' = nodes (plug ctx t) /\ rb m t' /\ isred t' = false
    /\ forall a, a ∉ addrs (plug ctx t) -> h !! a = cells st !! a.
Proof.
  intros (H & _ & n & Hsh & Hc) Hor.
  assert (exists m, rb m (plug ctx (blacken t)) /\ isred (plug ctx (blacken t)) = false)
    as (m & Hm & Hb).
  { unfold short in Hsh. destruct (isred t) eqn:Et.
    - apply (plug_rb (S n)); [done|done|]. by rewrite isred_blacken.
    - destruct Hor as [?| ->]; [done|]. exists n. cbn [plug]. rewrite isred_blacken, blacken_id; done. }
  assert (nodes (plug ctx (blacken t)) = nodes (plug ctx t)) as Hn.
  { apply nodes_plug, nodes_blacken. }
  destruct t as [|c l a k r].
  - destruct Hor as [?| ->]; [done|]. destruct H as (Hr & _ & _ & Hnd & ns & Hs & Hcol).
    unfold ngx_rbt_black. rewrite (upd_some _ _ _ _ Hs). cbn [mbind option_bind].
    exists (<[s := set_color 0 ns]> (cells st)), E, m. split_and!; try done.
    + split; [done|]. split; [by exists NULL|]. split; [done|].
      eexists. cbn [cells]. split; [by rewrite lookup_insert_eq|done].
    + intros b _. destruct (decide (b = s)) as [->|Hne].
      * rewrite lookup_insert_eq, Hs. destruct ns. cbn in *. by subst.
      * by rewrite lookup_insert_ne.
  - destruct (recolor_ok L false H) as (h & E1 & H1 & S1). exists h, (plug ctx (blacken (N c l a k r))), m.
    split_and!; try done.
    + apply (zip_tree _ _ p). exact (zip_plug _ _ _ _ _ H1).
    + intros b Hb2. apply S1. by rewrite <- addrs_plug.
Qed.

Lemma zip_below st p f ctx t : zip_at s st p (f :: ctx) t -> addr s t <> root st.
Proof.
  intros (Hr & _ & _ & Hnd & _) E. rewrite Hr in E. symmetry in E. revert E.
  apply rtop_other; [done|]. destruct t; clear -Hnd; cbn [addr addrs app] in *; nodup Hnd; set_solver.
Qed.

Lemma delete_fixup_ok fuel st p ctx t :
  pending p ctx t st -> (if isred t then 0 < fuel else length ctx < fuel)%nat ->
  exists st' t' m, delete_fixup fuel s (addr s t) st = Some st' /\ tree_at s st' t'
    /\ nodes t' = nodes (plug ctx t) /\ rb m t' /\ isred t' = false
    /\ forall a, a ∉ addrs (plug ctx t) -> cells st' !! a = cells st !! a.
Proof.
  revert st ctx t. induction fuel as [|fuel IH]; intros st ctx t HP Hf.
  { destruct (isred t); lia. }
  cbn [delete_fixup]. pose proof HP as (H & Hp & _). rewrite (zip_red H). cbn [mbind option_bind].
  destruct (isred t) eqn:Et; [|destruct ctx as [|[d c a k sib] ctx]].
  - destruct (delete_finish _ _ _ _ HP) as (h & t' & m & E1 & H1); [by left|].
    rewrite E1. cbn [mbind option_bind negb]. exists (RBTree (root st) h), t', m.
    split; [by case_decide|done].
  - destruct (delete_finish _ _ _ _ HP) as (h & t' & m & E1 & H1); [by right|].
    rewrite E1. cbn [mbind option_bind negb]. exists (RBTree (root st) h), t', m.
    split; [|done]. rewrite decide_True; [done|]. symmetry. apply H.
  - rewrite (decide_False (P := addr s t = root st)) by exact (zip_below _ _ _ _ _ H).
    cbn [negb]. rewrite Hp by done. cbn [mbind option_bind ctop f_addr].
    assert (sib <> E) as Hsib.
    { destruct HP as (_ & _ & n & _ & Hc). intros ->. cbn in Hc. by destruct Hc. }
    destruct (zip_side_sib _ _ _ _ _ _ _ _ _ H Hsib) as (ch & -> & Ed).
    cbn [mbind option_bind]. rewrite Ed.
    destruct (delete_round _ _ _ _ _ _ _ _ _ HP Et) as (st1 & ctx1 & t1 & E1 & P1 & M1 & N1 & S1).
    rewrite E1. cbn [mbind option_bind].
    destruct (IH _ _ _ P1) as (st2 & t2 & m & E2 & H2 & N2 & R2 & B2 & S2).
    { cbn [length] in Hf. destruct M1 as [->|[->|M1]]; cbn [length];
        [lia|destruct (isred t1); lia|destruct (isred t1); lia]. }
    exists st2, t2, m. cbn [plug]. split_and!; try done; [by rewrite N2|].
    intros b Hb. rewrite S2, S1; [done| |]; [by rewrite <- addrs_plug|].
    by rewrite (nodes_addrs _ _ N1).
Qed.
End Delete.

(** *** Taking a node out *)

Section Splice.
Context (s : Z).

Lemma splice_ok h p q d c a k sib ctx x T v :
  crep s h p x (Fr d c a k sib :: ctx) -> rep s h q T ->
  NoDup (s :: x :: addrs T ++ caddrs (Fr d c a k sib :: ctx)) ->
  (exists n, h !! s = Some n /\ color n = 0) ->
  exists l h1 h2,
    child_of L h a = Some l
    /\ upd (set_child (if decide (x = l) then L else R) (addr s T)) a h = Some h1
    /\ upd (set_parent v) (addr s T) h1 = Some h2
    /\ crep s h2 p (addr s T) (Fr d c a k sib :: ctx) /\ rep s h2 v T
    /\ parent_of h2 (addr s T) = Some v
    /\ (exists n, h2 !! s = Some n /\ color n = 0)
    /\ (forall b, b <> a -> h1 !! b = h !! b)
    /\ (forall b, b ∉ s :: a :: addrs T -> h2 !! b = h !! b).
Proof.
  intros (Ha & Hsib & Hc) HT Hnd (ns & Hs & Hcol).
  cbn [caddrs f_addr f_sib] in Hnd. pose proof Hnd as Hnd0. nodup Hnd.
  assert (exists l, child_of L h a = Some l /\ (if decide (x = l) then L else R) = d)
    as (l & El & Ed).
  { unfold child_of. rewrite Ha. destruct d; cbn; eexists; (split; [done|]).
    - by rewrite decide_True.
    - rewrite decide_False; [done|]. intros ->. destruct (addr_in s sib); dis. }
  set (h1 := <[a := mkn d k (addr s T) (addr s sib) (ctop p ctx) c]> h).
  assert (F1 : forall b, b <> a -> h1 !! b = h !! b).
  { intros b Hb. unfold h1. by rewrite lookup_insert_ne. }
  assert (exists nt, h1 !! addr s T = Some nt /\ (addr s T = s -> nt = ns)) as (nt & Et & Ets).
  { rewrite F1; [|destruct T as [|cT lT t kT rT]; dis].
    destruct T as [|cT lT t kT rT]; [by exists ns|]. destruct HT as [Ht _]. eexists.
    split; [done|]. intros E. cbn in E. dis. }
  set (h2 := <[addr s T := set_parent v nt]> h1).
  assert (F2 : forall b, b <> a -> b <> addr s T -> h2 !! b = h !! b).
  { intros b ? ?. unfold h2. rewrite lookup_insert_ne by done. by apply F1. }
  assert (Hin : forall b, b <> s -> b ∉ addrs T -> addr s T <> b).
  { intros b ? ? E. destruct (addr_in s T); congruence. }
  assert (Hat : a <> addr s T) by (apply not_eq_sym, Hin; dis).
  exists l, h1, h2. split_and!; try done.
  - rewrite Ed, (upd_some _ _ _ _ Ha). by rewrite set_child_mkn.
  - by apply upd_some.
  - cbn [crep]. split_and!.
    + unfold h2. rewrite lookup_insert_ne by done. unfold h1. by rewrite lookup_insert_eq.
    + apply (rep_frame s h); [done|]. intros b Hb. apply F2; [dis|apply not_eq_sym, Hin; dis].
    + apply (crep_frame s h); [done|]. intros b Hb. apply F2; [dis|apply not_eq_sym, Hin; dis].
  - apply (rep_reparent s h1 _ q v).
    + apply (rep_frame s h); [done|]. intros b Hb. apply F1. dis.
    + dis.
    + clear Ed. intros b Hb. unfold h2. case_decide as E.
      * subst b. by rewrite lookup_insert_eq, Et.
      * by rewrite lookup_insert_ne.
  - unfold parent_of, h2. rewrite lookup_insert_eq. by destruct nt.
  - unfold h2. destruct (decide (addr s T = s)) as [E|E].
    + rewrite E, lookup_insert_eq. eexists. split; [done|]. rewrite (Ets E). by destruct ns.
    + exists ns. rewrite lookup_insert_ne, F1; [done| |done]. dis.
  - intros b Hb. apply F2; [clear -Hb; set_solver|]. apply not_eq_sym, Hin; clear -Hb; set_solver.
Qed.

Lemma replace_node_ok h p q ctx c l node k r subst ns :
  h !! node = Some (mkn L k (addr s l) (addr s r) (ctop p ctx) c) ->
  h !! subst = Some ns ->
  rep s h node l -> rep s h q r -> crep s h p node ctx ->
  NoDup (s :: node :: subst :: addrs l ++ addrs r ++ caddrs ctx) ->
  (exists n, h !! s = Some n /\ color n = 0) ->
  exists h', replace_node s node subst (RBTree (rtop ctx node) h)
             = Some (RBTree (rtop ctx subst) h')
    /\ zip_at s (RBTree (rtop ctx subst) h') p ctx (N c l subst (key ns) r)
    /\ forall b, b ∉ subst :: addrs l ++ addrs r ++ caddrs ctx -> h' !! b = h !! b.
Proof.
  intros Hn Hsub Hl Hr Hc Hnd Hs. pose proof Hnd as Hnd0. nodup Hnd.
  assert (Hns : node <> subst) by dis.
  unfold replace_node. cbn [mkn] in Hn. rewrite Hn. cbn [mbind option_bind left].
  rewrite (upd_some _ _ _ _ Hsub). cbn [mbind option_bind].
  do 3 (rewrite lookup_insert_ne, Hn by done; cbn [mbind option_bind left right parent color];
        erewrite upd_some by (by rewrite lookup_insert_eq); cbn [mbind option_bind];
        rewrite insert_insert_eq).
  cbn [set_child set_parent set_color key left right parent color].
  set (h1 := <[subst := _]> h).
  assert (F1 : forall b, b <> subst -> h1 !! b = h !! b).
  { intros b Hb. unfold h1. by rewrite lookup_insert_ne. }
  destruct (replace_child_ok s L h1 p ctx node subst
              (RBNode k (addr s l) (addr s r) (ctop p ctx) (col c))) as (h2 & E2 & Hc2 & F2).
  { apply (crep_frame s h); [done|]. intros b Hb. apply F1. dis. }
  { by rewrite F1. } { done. } { dis. }
  rewrite E2. cbn [mbind option_bind].
  assert (Hs2 : h2 !! subst = Some (RBNode (key ns) (addr s l) (addr s r) (ctop p ctx) (col c))).
  { rewrite F2 by dis. unfold h1. by rewrite lookup_insert_eq. }
  assert (child_of L h2 subst = Some (addr s l)) as -> by (unfold child_of; by rewrite Hs2).
  cbn [mbind option_bind].
  destruct (reparent_ok s h2 node subst l) as (h3 & E3 & Hl3 & F3).
  { apply (rep_frame s h); [done|]. intros b Hb. rewrite F2, F1 by dis. done. }
  { dis. }
  rewrite E3. cbn [mbind option_bind].
  assert (child_of R h3 subst = Some (addr s r)) as ->.
  { unfold child_of. rewrite F3, Hs2 by dis. done. }
  cbn [mbind option_bind].
  destruct (reparent_ok s h3 q subst r) as (h4 & E4 & Hr4 & F4).
  { apply (rep_frame s h); [done|]. intros b Hb. rewrite F3, F2, F1 by dis. done. }
  { dis. }
  rewrite E4. cbn [mbind option_bind].
  exists h4. split; [done|]. split; [split; [|split; [|split; [|split]]]|]; cbn [root cells].
  - done.
  - cbn [rep]. split_and!; [by rewrite F4, F3, Hs2 by dis| |done].
    apply (rep_frame s h3); [done|]. intros b Hb. apply F4. dis.
  - apply (crep_frame s h2); [done|]. intros b Hb. rewrite F4, F3 by dis. done.
  - cbn [addrs app]. rewrite <- app_assoc.
    apply (NoDup_cons_1_2 node). eapply nodup_perm; [exact Hnd0|]. apply Permutation_swap.
  - destruct Hs as (n & Hs & Hcol). exists n. split; [|done]. rewrite F4, F3, F2, F1 by dis. done.
  - intros b Hb. assert (b <> subst /\ (b ∉ addrs l) /\ (b ∉ addrs r) /\ b ∉ caddrs ctx) as (? & ? & ? & ?).
    { clear -Hb. set_solver. }
    rewrite F4, F3, F2, F1 by done. done.
Qed.
End Splice.

(** *** Contexts and the order of the nodes *)

(** The nodes before and after a position. *)
Fixpoint cl (ctx : list frame) : list (Z * Z) :=
  match ctx with
  | [] => []
  | Fr L _ _ _ _ :: ctx => cl ctx
  | Fr R _ a k sib :: ctx => cl ctx ++ nodes sib ++ [(a, k)]
  end.

Fixpoint cr (ctx : list frame) : list (Z * Z) :=
  match ctx with
  | [] => []
  | Fr L _ a k sib :: ctx => (a, k) :: nodes sib ++ cr ctx
  | Fr R _ _ _ _ :: ctx => cr ctx
  end.

Lemma nodes_cl_cr ctx t : nodes (plug ctx t) = cl ctx ++ nodes t ++ cr ctx.
Proof.
  revert t. induction ctx as [|[[] c a k sib] ctx IH]; intros t; cbn [plug mk cl cr].
  - by rewrite app_nil_r.
  - rewrite IH. cbn [nodes]. by rewrite <- !app_assoc.
  - rewrite IH. cbn [nodes]. rewrite <- !app_assoc. cbn [app]. by rewrite <- ?app_assoc.
Qed.

Lemma plug_app c1 c2 t : plug (c1 ++ c2) t = plug c2 (plug c1 t).
Proof.
  revert t. induction c1 as [|[d c a k sib] c1 IH]; intros t; [done|]. cbn [app plug]. apply IH.
Qed.

Lemma crep_app s h p x c1 c2 :
  (crep s h p x (c1 ++ c2)) <-> crep s h (ctop p c2) x c1 /\ crep s h p (rtop c1 x) c2.
Proof.
  revert x. induction c1 as [|[d c a k sib] c1 IH]; intros x; cbn [app crep rtop]; [tauto|].
  rewrite IH. cbn [f_addr]. destruct c1; cbn [ctop app]; tauto.
Qed.

Lemma caddrs_app c1 c2 : caddrs (c1 ++ c2) = caddrs c1 ++ caddrs c2.
Proof.
  induction c1 as [|f c1 IH]; [done|]. cbn [caddrs app]. by rewrite IH, <- app_assoc.
Qed.

Lemma zip_app s st p c1 c2 t :
  (zip_at s st p (c1 ++ c2) t) <-> zip_at s st p c2 (plug c1 t).
Proof.
  revert t. induction c1 as [|[d c a k sib] c1 IH]; intros t; cbn [app plug]; [done|].
  by rewrite zip_down, IH.
Qed.

Lemma cl_app c1 c2 : cl (c1 ++ c2) = cl c2 ++ cl c1.
Proof.
  induction c1 as [|[[] c a k sib] c1 IH]; cbn; [by rewrite app_nil_r|done|].
  by rewrite IH, <- app_assoc.
Qed.

Lemma cr_app c1 c2 : cr (c1 ++ c2) = cr c1 ++ cr c2.
Proof.
  induction c1 as [|[[] c a k sib] c1 IH]; cbn; [done| |done].
  by rewrite IH, <- app_assoc.
Qed.

(** Every entry of the list has its position. *)
Lemma nodes_at t l1 a k l2 :
  nodes t = l1 ++ (a, k) :: l2 ->
  exists ctx c l r, t = plug ctx (N c l a k r) /\ cl ctx ++ nodes l = l1 /\ nodes r ++ cr ctx = l2.
Proof.
  revert l1 l2. induction t as [|c l IHl b kb r IHr]; intros l1 l2 H; cbn [nodes] in H.
  { by destruct l1. }
  assert (Hr : forall m, nodes r = m ++ (a, k) :: l2 -> l1 = nodes l ++ (b, kb) :: m ->
    exists ctx c0 l0 r0, N c l b kb r = plug ctx (N c0 l0 a k r0)
      /\ cl ctx ++ nodes l0 = l1 /\ nodes r0 ++ cr ctx = l2).
  { intros m E1 E2. destruct (IHr _ _ E1) as (ctx & c' & l' & r' & -> & H1 & H2).
    exists (ctx ++ [Fr R c b kb l]), c', l', r'. rewrite plug_app, cl_app, cr_app.
    split; [done|]. cbn. rewrite !app_nil_r, <- H2, E2, <- H1, <- !app_assoc. done. }
  assert (Hl : forall m, nodes l = l1 ++ (a, k) :: m -> l2 = m ++ (b, kb) :: nodes r ->
    exists ctx c0 l0 r0, N c l b kb r = plug ctx (N c0 l0 a k r0)
      /\ cl ctx ++ nodes l0 = l1 /\ nodes r0 ++ cr ctx = l2).
  { intros m E1 E2. destruct (IHl _ _ E1) as (ctx & c' & l' & r' & -> & H1 & H2).
    exists (ctx ++ [Fr L c b kb r]), c', l', r'. rewrite plug_app, cl_app, cr_app.
    split; [done|]. cbn. rewrite !app_nil_r, E2, <- H2, <- !app_assoc. done. }
  destruct (app_eq_inv _ _ _ _ H) as [(m & E1 & E2)|(m & E1 & E2)].
  - destruct m as [|x m].
    + cbn in E2. injection E2 as -> -> ->. exists [], c, l, r. cbn. by rewrite E1, !app_nil_r.
    + cbn in E2. injection E2 as <- E2. by apply (Hl m).
  - destruct m as [|x m].
    + cbn in E2. injection E2 as -> -> <-. exists [], c, l, r. cbn. by rewrite E1, !app_nil_r.
    + cbn in E2. injection E2 as <- E2. by apply (Hr m).
Qed.

(** *** The least node of a subtree *)

Lemma min_loop_ok s fuel st p ctx t :
  zip_at s st p ctx t -> t <> E -> (length (addrs t) < fuel)%nat ->
  exists x ctx1 c k r, rbtree_min_loop fuel (cells st) (addr s t) s = Some x
    /\ t = plug ctx1 (N c E x k r) /\ cl ctx1 = [].
Proof.
  revert ctx t. induction fuel as [|fuel IH]; intros ctx t H Ht Hf; [lia|].
  destruct t as [|c l a k r]; [done|]. cbn [rbtree_min_loop addr].
  rewrite (zip_child L (c := c) (x := l) (k := k) (y := r) H). cbn [mbind option_bind].
  destruct l as [|c' l' a' k' r'] eqn:El.
  - rewrite decide_False by (cbn; tauto). by exists a, [], c, k, r.
  - rewrite <- El in *. pose proof (zip_dn (d := L) (c := c) (t := l) H) as Hd.
    rewrite decide_True by (apply (zip_in Hd); by rewrite El).
    destruct (IH _ _ Hd) as (x & ctx1 & c1 & k1 & r1 & E1 & E2 & E3).
    { by rewrite El. } { cbn in Hf. rewrite length_app in Hf. lia. }
    exists x, (ctx1 ++ [Fr L c a k r]), c1, k1, r1. rewrite plug_app, <- E2, cl_app, E3. done.
Qed.

Lemma min_ok s st p ctx t :
  zip_at s st p ctx t -> t <> E ->
  exists x ctx1 c k r, ngx_rbtree_min (cells st) (addr s t) s = Some x
    /\ t = plug ctx1 (N c E x k r) /\ cl ctx1 = [].
Proof.
  intros H Ht. apply (min_loop_ok s _ _ p ctx); [done|done|].
  pose proof (zip_size _ _ _ _ _ H). lia.
Qed.

(** ** Deletion of an entry *)

Section DeleteNode.
Context (s : Z).

Lemma crb_rename n c1 d c a k a' k' sib ctx :
  crb n (c1 ++ Fr d c a k sib :: ctx) -> crb n (c1 ++ Fr d c a' k' sib :: ctx).
Proof.
  revert n. induction c1 as [|[d1 c2 a1 k1 sib1] c1 IH]; intros n; [done|].
  cbn [app crb]. intros [H1 H2]. split; [done|]. destruct c2; [|by apply IH].
  destruct H2 as (? & Hm & H2). split; [done|]. split; [|by apply IH].
  by destruct c1.
Qed.

Lemma tree_at_frame st h t a :
  tree_at s st t -> a ∉ s :: addrs t -> (forall b, b <> a -> h !! b = cells st !! b) ->
  tree_at s (RBTree (root st) h) t.
Proof.
  intros (Hr & (p & Hp) & Hn & n & Hs & Hc) Ha Hf. split; [done|]. cbn [cells]. split_and!.
  - exists p. apply (rep_frame s (cells st)); [done|]. intros b Hb. apply Hf.
    intros ->. apply Ha. by right.
  - done.
  - exists n. rewrite Hf; [done|]. intros ->. apply Ha. by left.
Qed.

Lemma zip_frame st h p ctx t a :
  zip_at s st p ctx t -> a ∉ s :: addrs t ++ caddrs ctx ->
  (forall b, b <> a -> h !! b = cells st !! b) -> zip_at s (RBTree (root st) h) p ctx t.
Proof.
  intros (Hr & Hrep & Hcr & Hn & n & Hs & Hc) Ha Hf. split; [done|]. cbn [cells]. split_and!.
  - apply (rep_frame s (cells st)); [done|]. intros b Hb. apply Hf. intros ->. apply Ha.
    apply elem_of_cons. right. apply elem_of_app. by left.
  - apply (crep_frame s (cells st)); [done|]. intros b Hb. apply Hf. intros ->. apply Ha.
    apply elem_of_cons. right. apply elem_of_app. by right.
  - done.
  - exists n. rewrite Hf; [done|]. intros ->. apply Ha. by left.
Qed.

(** The end of the deletion, once the node of color [c] is out. *)
Lemma delete_tail st p ctx d c x kx T n :
  zip_at s st p ctx T -> (ctx <> [] -> parent_of (cells st) (addr s T) = Some (ctop p ctx)) ->
  rb n (mk d c E x kx T) -> crb n ctx -> implb c (may_red ctx) = true ->
  exists st',
    (if c then Some st else delete_fixup (S (size (cells st))) s (addr s T) st) = Some st'
    /\ models s st' (cl ctx ++ nodes T ++ cr ctx)
    /\ forall b, b ∉ addrs T ++ caddrs ctx -> cells st' !! b = cells st !! b.
Proof.
  intros H Hp Hrb Hc Hm. apply rb_mk in Hrb. rewrite <- nodes_cl_cr. destruct c.
  - destruct Hrb as (_ & HT & Hn & HrT). cbn in Hn. subst n. exists st. split; [done|].
    split; [|done]. exists (plug ctx T). split; [|done]. split; [|].
    + apply (zip_tree _ _ p). by apply zip_plug.
    + destruct (plug_rb 0 ctx T HrT Hc) as (m & ? & ?); [by rewrite HT|eauto].
  - destruct n as [|n]; [done|]. destruct Hrb as [Hn HrT]. cbn in Hn. subst n.
    destruct (delete_fixup_ok s (S (size (cells st))) st p ctx T) as (st' & t' & m & E1 & H1 & N1 & R1 & B1 & S1).
    { split; [done|]. split; [done|]. exists 0%nat. split; [|done]. unfold short.
      destruct (isred T) eqn:E; [|done]. by apply rb_blacken. }
    { pose proof (zip_size _ _ _ _ _ H). pose proof (length_ctx ctx). destruct (isred T); lia. }
    exists st'. split; [done|]. split.
    + exists t'. split; [|done]. split; [done|]. eauto.
    + intros b Hb. apply S1. by rewrite addrs_plug.
Qed.
Lemma clear_ok h x nd :
  h !! x = Some nd ->
  exists h', clear_node x h = Some h' /\ h' !! x = Some (RBNode 0 NULL NULL NULL (color nd))
    /\ forall b, b <> x -> h' !! b = h !! b.
Proof.
  intros H. unfold clear_node. rewrite (upd_some _ _ _ _ H). eexists. split; [done|].
  rewrite lookup_insert_eq. split; [done|]. intros b Hb. by rewrite lookup_insert_ne.
Qed.

(** [x] has at most one child and is the root. *)
Lemma delete_root st p d c x kx T n :
  zip_at s st p [] (mk d c E x kx T) -> rb n (mk d c E x kx T) -> c = false ->
  delete_subst (cells st) x s = Some (x, addr s T) ->
  exists st', ngx_rbtree_delete s x st = Some st' /\ models s st' (nodes T)
    /\ cells st' !! x = Some (RBNode 0 NULL NULL NULL (col c))
    /\ forall b, b ∉ s :: x :: addrs T -> cells st' !! b = cells st !! b.
Proof.
  intros H Hrb -> Hsub. apply rb_mk in Hrb. destruct n as [|n]; [done|].
  destruct Hrb as [Hn HrT]. cbn in Hn. subst n.
  pose proof (zip_cell d H) as Hx. destruct st as [rt h].
  destruct H as (Hr & Hrep & _ & Hnd & Hs). cbn [root cells rtop ctop caddrs] in *.
  rewrite addr_mk in Hr. apply rep_mk in Hrep. destruct Hrep as (_ & _ & HT).
  rewrite addrs_mk, app_nil_r in Hnd. cbn [addrs app] in Hnd. subst rt.
  unfold ngx_rbtree_delete. rewrite Hsub. cbn [mbind option_bind]. rewrite decide_True by done.
  destruct (delete_finish s x [] T (RBTree (addr s T) h)) as (h1 & t' & m & E1 & H1 & N1 & R1 & B1 & S1).
  { split; [|split; [done|]].
    - split; [done|]. split; [done|]. split; [done|]. split; [|done]. cbn [caddrs].
      rewrite app_nil_r. clear -Hnd. nodup Hnd. rewrite NoDup_cons. set_solver.
    - exists 0%nat. split; [|done]. unfold short. destruct (isred T) eqn:E; [|done].
      by apply rb_blacken. }
  { by right. }
  cbn [cells root plug] in *. rewrite E1. cbn [mbind option_bind].
  assert (x ∉ s :: addrs T) as Hxn by (clear -Hnd; nodup Hnd; set_solver).
  destruct (clear_ok h1 x _ ltac:(rewrite S1; [exact Hx|clear -Hxn; set_solver])) as (h2 & E2 & C2 & F2).
  rewrite E2. cbn [mbind option_bind]. eexists. split; [done|]. cbn [cells]. split_and!.
  - exists t'. split; [|done]. split; [|by eauto].
    apply (tree_at_frame (RBTree (addr s T) h1) h2 t' x); [done| |done].
    by rewrite (nodes_addrs _ _ N1).
  - rewrite C2. by rewrite color_mkn.
  - intros b Hb. rewrite F2, S1; [done| |]; clear -Hb; set_solver.
Qed.

(** [x] has at most one child and is not the root. *)
Lemma delete_leaf st p f ctx d c x kx T n :
  zip_at s st p (f :: ctx) (mk d c E x kx T) -> rb n (mk d c E x kx T) -> crb n (f :: ctx) ->
  implb c (may_red (f :: ctx)) = true ->
  delete_subst (cells st) x s = Some (x, addr s T) ->
  exists st', ngx_rbtree_delete s x st = Some st'
    /\ models s st' (cl (f :: ctx) ++ nodes T ++ cr (f :: ctx))
    /\ cells st' !! x = Some (RBNode 0 NULL NULL NULL (col c))
    /\ forall b, b ∉ s :: x :: addrs T ++ caddrs (f :: ctx) -> cells st' !! b = cells st !! b.
Proof.
  intros H Hrb Hcrb Hm Hsub. destruct f as [d0 c0 a k0 sib].
  pose proof (zip_below _ _ _ _ _ _ H) as Hroot. rewrite addr_mk in Hroot.
  pose proof (zip_cell d H) as Hx. pose proof (zip_parent d H) as Hpx.
  pose proof (zip_red H) as Hred. rewrite isred_mk, addr_mk in Hred.
  destruct st as [rt h]. destruct H as (Hr & Hrep & Hc & Hnd & Hs).
  cbn [root cells ctop f_addr] in *. rewrite addr_mk in *.
  apply rep_mk in Hrep. destruct Hrep as (_ & _ & HT). rewrite addrs_mk in Hnd.
  cbn [addrs app] in Hnd.
  destruct (splice_ok s h p x d0 c0 a k0 sib ctx x T a Hc HT Hnd Hs)
    as (l & h1 & h2 & E1 & E2 & E3 & Hc2 & HT2 & Hp2 & Hs2 & F1 & F2).
  assert (x <> a /\ x ∉ s :: a :: addrs T) as [Hxa Hxn].
  { clear -Hnd. cbn [caddrs f_addr f_sib] in Hnd. nodup Hnd. set_solver. }
  unfold ngx_rbtree_delete. rewrite Hsub. cbn [mbind option_bind].
  rewrite (decide_False (P := x = rt)) by done. rewrite Hred. cbn [mbind option_bind].
  rewrite Hpx. cbn [mbind option_bind]. rewrite E1. cbn [mbind option_bind]. rewrite E2.
  cbn [mbind option_bind]. rewrite decide_True by done.
  assert (parent_of h1 x = Some a) as ->.
  { unfold parent_of in *. by rewrite F1. }
  cbn [mbind option_bind]. rewrite E3. cbn [mbind option_bind].
  destruct (clear_ok h2 x _ ltac:(rewrite F2; [exact Hx|exact Hxn])) as (h3 & E4 & C3 & F3).
  rewrite E4. cbn [mbind option_bind].
  set (F := Fr d0 c0 a k0 sib :: ctx) in *.
  assert (Hx2 : x ∉ s :: addrs T ++ caddrs F) by (clear -Hnd; nodup Hnd; set_solver).
  assert (Hz : zip_at s (RBTree rt h3) p F T).
  { apply (zip_frame (RBTree rt h2) h3 p F T x); [|exact Hx2|exact F3].
    split; [exact Hr|]. split; [done|]. split; [done|]. split; [|done].
    clear -Hnd. nodup Hnd. rewrite NoDup_cons, NoDup_app. set_solver. }
  destruct (delete_tail (RBTree rt h3) p F d c x kx T n Hz) as (st' & E5 & M5 & F5).
  { intros _. cbn [cells]. unfold parent_of in *. rewrite F3; [done|].
    destruct (addr_in s T) as [->|Hin]; clear -Hx2 Hxn Hin || clear -Hxn; set_solver. }
  { done. } { done. } { done. }
  cbn [cells] in E5, F5. exists st'. split; [by destruct c|]. split; [exact M5|]. split.
  - rewrite F5, C3; [by rewrite color_mkn|]. clear -Hx2. set_solver.
  - intros b Hb. rewrite F5, F3, F2; [done| | |]; clear -Hb; subst F; cbn [caddrs f_addr f_sib] in *;
      set_solver.
Qed.
(** The state between the two halves: [x] is out, [node] is still in. *)
Lemma between_ok h p c1 c node k l ctx T v x :
  crep s h p (addr s T) (c1 ++ Fr R c node k l :: ctx) -> rep s h v T ->
  v = (if decide (ctop node c1 = node) then x else ctop node c1) ->
  node ∉ caddrs c1 ->
  h !! node = Some (mkn L k (addr s l) (addr s (plug c1 T)) (ctop p ctx) c)
  /\ rep s h node l /\ crep s h p node ctx /\ exists q, rep s h q (plug c1 T).
Proof.
  intros Hc HT Hv Hn. apply crep_app in Hc. destruct Hc as [H1 (H2 & H3 & H4)].
  rewrite addr_plug. split; [exact H2|]. split; [done|]. split; [done|].
  destruct c1 as [|f c1]; [by eexists|]. exists node. apply rep_plug. split; [|exact H1].
  rewrite decide_False in Hv; [by rewrite <- Hv|]. intros E. apply Hn. cbn in *. rewrite E. by left.
Qed.

Lemma move_ok st p ctx c l node k c1 cs x kx T :
  zip_at s st p (c1 ++ Fr R c node k l :: ctx) (mk L cs E x kx T) ->
  NoDup (s :: node :: x :: addrs l ++ addrs T ++ caddrs c1 ++ caddrs ctx) ->
  exists l0 h1 st3,
    child_of L (cells st) (ctop node c1) = Some l0
    /\ upd (set_child (if decide (x = l0) then L else R) (addr s T)) (ctop node c1) (cells st) = Some h1
    /\ move_subst s node x (addr s T) (RBTree (root st) h1) = Some st3
    /\ zip_at s st3 p (c1 ++ Fr R c x kx l :: ctx) T
    /\ parent_of (cells st3) (addr s T) = Some (ctop x c1)
    /\ (exists nd, cells st3 !! node = Some nd /\ color nd = col c)
    /\ forall b, b ∉ s :: node :: x :: addrs l ++ addrs T ++ caddrs c1 ++ caddrs ctx ->
         cells st3 !! b = cells st !! b.
Proof.
  intros H Hnd. pose proof (zip_cell L H) as Hx. pose proof (zip_parent L H) as Hpx.
  destruct st as [rt h]. destruct H as (Hr & Hrep & Hc & Hnd1 & Hs).
  apply rep_mk in Hrep. destruct Hrep as (_ & _ & HT). rewrite addr_mk in *.
  cbn [root cells] in *.
  assert (Hcc : caddrs (c1 ++ Fr R c node k l :: ctx) = caddrs c1 ++ node :: addrs l ++ caddrs ctx).
  { by rewrite caddrs_app. }
  assert (Hnd2 : NoDup (s :: x :: addrs T ++ caddrs (c1 ++ Fr R c node k l :: ctx))).
  { exact Hnd1. }
  set (v := if decide (ctop node c1 = node) then x else ctop node c1).
  assert (Hct : ctop p (c1 ++ Fr R c node k l :: ctx) = ctop node c1) by (by destruct c1).
  assert (exists l0 h1 h2, child_of L h (ctop node c1) = Some l0
    /\ upd (set_child (if decide (x = l0) then L else R) (addr s T)) (ctop node c1) h = Some h1
    /\ upd (set_parent v) (addr s T) h1 = Some h2
    /\ crep s h2 p (addr s T) (c1 ++ Fr R c node k l :: ctx) /\ rep s h2 v T
    /\ parent_of h2 (addr s T) = Some v
    /\ (exists n, h2 !! s = Some n /\ color n = 0)
    /\ (forall b, b <> ctop node c1 -> h1 !! b = h !! b)
    /\ (forall b, b ∉ s :: ctop node c1 :: addrs T -> h2 !! b = h !! b))
    as (l0 & h1 & h2 & E1 & E2 & E3 & Hc2 & HT2 & Hp2 & Hs2 & F1 & F2).
  { destruct c1 as [|[d0 c0 a0 k0 sib] c1]; cbn [app ctop f_addr] in *.
    - exact (splice_ok s h p x R c node k l ctx x T v Hc HT Hnd2 Hs).
    - exact (splice_ok s h p x d0 c0 a0 k0 sib (c1 ++ Fr R c node k l :: ctx) x T v Hc HT Hnd2 Hs). }
  rewrite Hct in *. clear Hcc Hnd1 Hnd2.
  assert (Hin : ctop node c1 = node \/ ctop node c1 ∈ caddrs c1).
  { destruct c1 as [|f c1]; [by left|right; cbn; by left]. }
  pose proof Hnd as Hnd0. nodup Hnd.
  assert (Hnc : node ∉ caddrs c1) by dis.
  destruct (between_ok h2 p c1 c node k l ctx T v x Hc2 HT2 eq_refl Hnc) as (Hn2 & Hl2 & Hc3 & q & Hq).
  assert (Hx2 : h2 !! x = Some (mkn L kx (addr s E) (addr s T) (ctop node c1) cs)).
  { rewrite F2; [exact Hx|]. clear -Hnd Hin. destruct Hin as [->|Hin]; set_solver. }
  destruct (replace_node_ok s h2 p q ctx c l node k (plug c1 T) x _ Hn2 Hx2 Hl2 Hq Hc3)
    as (h3 & E4 & H3 & F3).
  { eapply nodup_perm; [exact Hnd0|]. rewrite addrs_plug. solve_Permutation. }
  { done. }
  rewrite key_mkn in H3.
  exists l0, h1, (RBTree (rtop ctx x) h3). split; [exact E1|]. split; [exact E2|].
  assert (Hz : zip_at s (RBTree (rtop ctx x) h3) p (c1 ++ Fr R c x kx l :: ctx) T).
  { apply zip_app, zip_dn. exact H3. }
  assert (Hxc : x <> ctop node c1) by (clear -Hnd Hin; destruct Hin as [->|Hin]; set_solver).
  split_and!; [|exact Hz| | |].
  - unfold move_subst.
    assert (parent_of h1 x = Some (ctop node c1)) as ->.
    { unfold parent_of in *. by rewrite F1. }
    cbn [mbind option_bind]. change (if decide _ then x else _) with v. rewrite E3.
    cbn [mbind option_bind].
    assert (rt = rtop ctx node) as ->; [|exact E4].
    rewrite Hr. clear. revert x. induction c1 as [|f c1 IH]; intros x; cbn; [done|apply IH].
  - cbn [cells].
    assert (Hct2 : ctop p (c1 ++ Fr R c x kx l :: ctx) = ctop x c1) by (by destruct c1).
    destruct T as [|cT lT t kT rT].
    + cbn [addr] in *. unfold parent_of in *. rewrite F3, Hp2.
      * unfold v. f_equal. destruct c1 as [|f c1]; cbn [ctop caddrs] in *.
        -- by rewrite decide_True.
        -- rewrite decide_False; [done|]. clear -Hnc. set_solver.
      * rewrite addrs_plug. cbn [addrs app]. clear -Hnd. set_solver.
    + rewrite <- Hct2. exact (zip_parent (c := cT) (x := lT) (k := kT) (y := rT) L Hz).
  - cbn [cells]. eexists. rewrite F3; [split; [exact Hn2|by rewrite color_mkn]|].
    rewrite addrs_plug. clear -Hnd. set_solver.
  - cbn [cells]. intros b Hb. rewrite F3, F2; [done| |rewrite addrs_plug]; clear -Hb Hin.
    + destruct Hin as [->|Hin]; set_solver.
    + set_solver.
Qed.
(** [node] has two children; [x] is the least node on its right. *)
Lemma delete_two st p ctx c l node k c1 cs x kx T n :
  zip_at s st p ctx (N c l node k (plug c1 (N cs E x kx T))) ->
  rb n (N c l node k (plug c1 (N cs E x kx T))) -> crb n ctx -> implb c (may_red ctx) = true ->
  delete_subst (cells st) node s = Some (x, addr s T) ->
  exists st', ngx_rbtree_delete s node st = Some st'
    /\ models s st' (cl ctx ++ nodes l ++ (x, kx) :: cl c1 ++ nodes T ++ cr c1 ++ cr ctx)
    /\ cells st' !! node = Some (RBNode 0 NULL NULL NULL (col c))
    /\ forall b, b ∉ s :: node :: x :: addrs l ++ addrs T ++ caddrs c1 ++ caddrs ctx ->
         cells st' !! b = cells st !! b.
Proof.
  intros H Hrb Hcrb Hm Hsub.
  assert (Hnd : NoDup (s :: node :: x :: addrs l ++ addrs T ++ caddrs c1 ++ caddrs ctx)).
  { destruct H as (_ & _ & _ & Hnd & _). eapply nodup_perm; [exact Hnd|].
    cbn [addrs]. rewrite addrs_plug. cbn [addrs]. solve_Permutation. }
  assert (H0 : zip_at s st p (c1 ++ Fr R c node k l :: ctx) (mk L cs E x kx T)).
  { apply zip_app, zip_dn. exact H. }
  destruct (plug_rb n ctx _ Hrb Hcrb) as (m & Hm1 & Hm2); [by destruct c|].
  destruct (rb_plug m (c1 ++ Fr R c node k l :: ctx) (mk L cs E x kx T)) as (n0 & R0 & C0 & I0).
  { by rewrite plug_app. } { by rewrite plug_app. }
  rewrite isred_mk in I0.
  destruct (move_ok _ _ _ _ _ _ _ _ _ _ _ _ H0 Hnd)
    as (l0 & h1 & [rt3 h3] & E1 & E2 & E3 & H3 & Hp3 & (nd & Hn3 & Hcn) & F3).
  assert (Hxr : x <> root st).
  { destruct c1; exact (zip_below _ _ _ _ _ _ H0). }
  pose proof (zip_red H0) as Hred. pose proof (zip_parent L H0) as Hpx.
  assert (Hct : ctop p (c1 ++ Fr R c node k l :: ctx) = ctop node c1) by (by destruct c1).
  rewrite Hct in Hpx. rewrite isred_mk, addr_mk in Hred.
  assert (Hxn : x <> node) by (clear -Hnd; nodup Hnd; set_solver).
  destruct st as [rt h]. cbn [cells root] in *.
  unfold ngx_rbtree_delete. rewrite Hsub. cbn [mbind option_bind].
  rewrite (decide_False (P := x = rt)) by done. rewrite Hred. cbn [mbind option_bind].
  rewrite Hpx. cbn [mbind option_bind]. rewrite E1. cbn [mbind option_bind]. rewrite E2.
  cbn [mbind option_bind]. rewrite decide_False by done. rewrite E3. cbn [mbind option_bind].
  destruct (clear_ok h3 node _ Hn3) as (h4 & E4 & C4 & F4). rewrite E4. cbn [mbind option_bind].
  set (F := c1 ++ Fr R c x kx l :: ctx) in *.
  assert (HF : caddrs F = caddrs c1 ++ x :: addrs l ++ caddrs ctx).
  { unfold F. by rewrite caddrs_app. }
  assert (Hn4 : node ∉ s :: addrs T ++ caddrs F).
  { rewrite HF. clear -Hnd. nodup Hnd. set_solver. }
  pose proof (zip_frame (RBTree rt3 h3) h4 p F T node H3 Hn4 F4) as H4.
  destruct (delete_tail (RBTree rt3 h4) p F L cs x kx T n0 H4) as (st' & E5 & M5 & F5).
  { intros _. cbn [cells]. assert (ctop p F = ctop x c1) as -> by (by destruct c1).
    unfold parent_of in *. rewrite F4; [done|]. intros E. destruct (addr_in s T) as [Hat|Hat]; rewrite E in Hat; clear -Hn4 Hat; set_solver. }
  { done. } { by apply (crb_rename _ _ _ _ node k). } { destruct c1; exact I0. }
  cbn [cells] in E5, F5. exists st'. split; [by destruct cs|]. split; [|split].
  - replace (cl ctx ++ nodes l ++ (x, kx) :: cl c1 ++ nodes T ++ cr c1 ++ cr ctx)
      with (cl F ++ nodes T ++ cr F); [exact M5|].
    unfold F. rewrite cl_app, cr_app. cbn [cl cr]. rewrite <- !app_assoc. done.
  - rewrite F5, C4; [by rewrite Hcn|]. clear -Hn4. set_solver.
  - intros b Hb. rewrite F5, F4, F3; [done|done| |rewrite HF]; clear -Hb; set_solver.
Qed.

Lemma subst_ok st p ctx c l x k r :
  zip_at s st p ctx (N c l x k r) ->
  (l = E /\ delete_subst (cells st) x s = Some (x, addr s r))
  \/ (r = E /\ delete_subst (cells st) x s = Some (x, addr s l))
  \/ exists c1 cs y ky T, r = plug c1 (N cs E y ky T) /\ cl c1 = []
       /\ delete_subst (cells st) x s = Some (y, addr s T).
Proof.
  intros H. pose proof (zip_cell (c := c) (x := l) (k := k) (y := r) L H) as Hx.
  unfold delete_subst. rewrite Hx. cbn [mbind option_bind mkn left right].
  pose proof (zip_dn (d := L) (c := c) (t := l) (k := k) (sib := r) H) as Hl.
  pose proof (zip_dn (d := R) (c := c) (t := r) (k := k) (sib := l) H) as Hr.
  destruct (decide (l = E)) as [->|Hnl]; [left; by rewrite decide_True|].
  rewrite (decide_False (P := addr s l = s)) by (exact (zip_in Hl Hnl)).
  destruct (decide (r = E)) as [->|Hnr]; [right; left; by rewrite decide_True|].
  rewrite (decide_False (P := addr s r = s)) by (exact (zip_in Hr Hnr)).
  right. right. destruct (min_ok _ _ _ _ _ Hr Hnr) as (y & c1 & cs & ky & T & -> & -> & Hcl).
  cbn [mbind option_bind]. exists c1, cs, y, ky, T. split; [done|]. split; [done|].
  apply zip_app in Hr.
  pose proof (zip_child_opp (c := cs) (x := E) (k := ky) (y := T) L Hr) as Ey. cbn [opp] in Ey.
  by rewrite Ey.
Qed.
(** What the deletion of the entry [node] does to the abstract state. *)
Lemma delete_ok st l1 node k l2 nd :
  models s st (l1 ++ (node, k) :: l2) -> cells st !! node = Some nd ->
  exists st',
    ngx_rbtree_delete s node st = Some st'
    /\ models s st' (l1 ++ l2)
    /\ cells st' !! node = Some (RBNode 0 NULL NULL NULL (color nd))
    /\ unchanged (s :: map fst (l1 ++ (node, k) :: l2)) st st'.
Proof.
  intros (t & (Ht & (m & Hrb) & Hblk) & Hn) Hnd.
  destruct (nodes_at _ _ _ _ _ Hn) as (ctx & c & l & r & -> & H1 & H2).
  apply tree_zip in Ht. destruct Ht as (p & H).
  destruct (rb_plug _ _ _ Hrb Hblk) as (n & Rn & Cn & In).
  assert (Hcol : color nd = col c).
  { pose proof (zip_cell (c := c) (x := l) (k := k) (y := r) L H) as Hx. rewrite Hnd in Hx.
    injection Hx as ->. done. }
  assert (Hin : forall b, b ∉ s :: map fst (l1 ++ (node, k) :: l2) ->
            b ∉ s :: node :: addrs l ++ addrs r ++ caddrs ctx).
  { intros b. rewrite <- Hn, <- addrs_nodes, addrs_plug. cbn [addrs app]. by rewrite <- app_assoc. }
  assert (Hone : forall d T, mk d c E node k T = N c l node k r ->
            delete_subst (cells st) node s = Some (node, addr s T) ->
            l1 ++ l2 = cl ctx ++ nodes T ++ cr ctx ->
            (forall b, b ∈ addrs T -> b ∈ addrs l ++ addrs r) ->
            exists st', ngx_rbtree_delete s node st = Some st' /\ models s st' (l1 ++ l2)
              /\ cells st' !! node = Some (RBNode 0 NULL NULL NULL (color nd))
              /\ unchanged (s :: map fst (l1 ++ (node, k) :: l2)) st st').
  { intros d T ET Hsub -> Hsubset. rewrite <- ET in *. destruct ctx as [|f ctx].
    - destruct (delete_root _ _ _ _ _ _ _ _ H Rn) as (st' & E1 & M1 & C1 & F1).
      { rewrite isred_mk in In. by destruct c. } { done. }
      exists st'. rewrite Hcol. cbn [cl cr app]. rewrite app_nil_r. split_and!; try done.
      intros b Hb. apply F1. specialize (Hin b Hb). clear -Hin Hsubset. set_solver.
    - rewrite isred_mk in In.
      destruct (delete_leaf _ _ _ _ _ _ _ _ _ _ H Rn Cn In Hsub) as (st' & E1 & M1 & C1 & F1).
      exists st'. rewrite Hcol. split_and!; try done.
      intros b Hb. apply F1. specialize (Hin b Hb). clear -Hin Hsubset. set_solver. }
  destruct (subst_ok _ _ _ _ _ _ _ _ H) as [[-> Hs]|[[-> Hs]|(c1 & cs & x & kx & T & -> & Hcl & Hs)]].
  - apply (Hone L r); [done|done| |set_solver]. rewrite <- H1, <- H2. cbn. by rewrite app_nil_r.
  - apply (Hone R l); [done|done| |set_solver]. rewrite <- H1, <- H2. cbn. by rewrite app_assoc.
  - assert (Ic : implb c (may_red ctx) = true) by (by destruct c).
    destruct (delete_two _ _ _ _ _ _ _ _ _ _ _ _ _ H Rn Cn Ic Hs) as (st' & E1 & M1 & C1 & F1).
    exists st'. rewrite Hcol. split_and!; try done.
    + rewrite <- H1, <- H2, nodes_cl_cr, Hcl. rewrite Hcl in M1. cbn [nodes app] in *.
      by rewrite <- !app_assoc.
    + intros b Hb. apply F1. specialize (Hin b Hb). rewrite addrs_plug in Hin. cbn [addrs] in Hin.
      clear -Hin. set_solver.
Qed.
End DeleteNode.

(** ** Traversal and height *)

Section Next.
Context (s : Z).

(** The address of the first entry, [NULL] when there is none. *)
Definition first (l : list (Z * Z)) : Z := match l with [] => NULL | (a, _) :: _ => a end.

Lemma first_app t l : t <> E -> first (nodes t ++ l) = first (nodes t).
Proof. destruct t as [|c tl a k tr]; [done|]. intros _. cbn. by destruct (nodes tl). Qed.

Lemma min_first st p ctx t :
  zip_at s st p ctx t -> t <> E -> ngx_rbtree_min (cells st) (addr s t) s = Some (first (nodes t)).
Proof.
  intros H Ht. destruct (min_ok s _ _ _ _ H Ht) as (x & c1 & c & k & r & -> & -> & Hc).
  rewrite nodes_cl_cr, Hc. done.
Qed.

Lemma next_loop_ok fuel st p ctx t :
  zip_at s st p ctx t -> t <> E -> (length ctx < fuel)%nat ->
  next_loop fuel (cells st) (root st) (addr s t) = Some (first (cr ctx)).
Proof.
  revert ctx t. induction fuel as [|fuel IH]; intros ctx t H Ht Hf; [lia|]. cbn [next_loop].
  assert (parent_of (cells st) (addr s t) = Some (ctop p ctx)) as ->.
  { destruct t as [|c l x k r]; [done|]. exact (zip_parent (c := c) (x := l) (k := k) (y := r) L H). }
  cbn [mbind option_bind]. destruct ctx as [|[d c a k sib] ctx].
  - by rewrite decide_True by (symmetry; apply H).
  - rewrite (decide_False (P := addr s t = root st)) by exact (zip_below _ _ _ _ _ _ H).
    cbn [ctop f_addr]. pose proof (zip_sib H (zip_in H Ht)) as Hne.
    pose proof (zip_up H) as Hu. destruct d.
    + rewrite (zip_child L Hu). cbn [mbind option_bind]. by rewrite decide_True.
    + pose proof (zip_child_opp R Hu) as Ec. cbn [opp] in Ec. rewrite Ec.
      cbn [mbind option_bind]. rewrite decide_False by done. cbn [cr].
      rewrite <- (addr_mk s R c t a k sib). apply IH; [done|done|]. cbn in Hf. lia.
Qed.

Lemma rb_size n t : rb n t -> (2 ^ n <= S (length (nodes t)))%nat.
Proof.
  revert n. induction t as [|c l IHl a k r IHr]; intros n; cbn [rb nodes].
  - intros ->. cbn. lia.
  - rewrite length_app. cbn [length]. destruct c.
    + intros (_ & _ & Hl & Hr). apply IHl in Hl. lia.
    + destruct n as [|n]; [done|]. intros [Hl Hr]. apply IHl in Hl. apply IHr in Hr. cbn. lia.
Qed.

Lemma rb_height n t : rb n t -> (height t <= 2 * n + if isred t then 1 else 0)%nat.
Proof.
  revert n. induction t as [|c l IHl a k r IHr]; intros n; cbn [rb height isred].
  - lia.
  - destruct c.
    + intros (Bl & Br & Hl & Hr). apply IHl in Hl. apply IHr in Hr. rewrite Bl in Hl.
      rewrite Br in Hr. lia.
    + destruct n as [|n]; [done|]. intros [Hl Hr]. apply IHl in Hl. apply IHr in Hr.
      destruct (isred l), (isred r); lia.
Qed.

Lemma height_log st t : rbt s st t -> (height t <= 2 * Nat.log2 (S (length (nodes t))))%nat.
Proof.
  intros (_ & (n & Hn) & Hb). pose proof (rb_height _ _ Hn) as Hh. rewrite Hb in Hh.
  apply rb_size in Hn. apply Nat.log2_le_mono in Hn. rewrite Nat.log2_pow2 in Hn by lia. lia.
Qed.
End Next.

(** ** Properties *)

Section Run.
Context (s : Z).

(** The reachable states, with the addresses of the members: initialisation,
    a write to a cell that is not in the tree, insertion, deletion. *)
Inductive run : rbtree -> list Z -> Prop :=
  | run_init h st : ngx_rbtree_init s h = Some st -> run st []
  | run_write st m a n : run st m -> a ∉ s :: m -> run (RBTree (root st) (<[a := n]> (cells st))) m
  | run_insert st m node st' :
      run st m -> node ∉ s :: m -> is_Some (cells st !! node) ->
      ngx_rbtree_insert ngx_rbtree_insert_value s node st = Some st' -> run st' (node :: m)
  | run_delete st m1 node m2 st' :
      run st (m1 ++ node :: m2) -> ngx_rbtree_delete s node st = Some st' -> run st' (m1 ++ m2).
End Run.

Lemma init_ok s h n :
  h !! s = Some n -> exists st, ngx_rbtree_init s h = Some st /\ models s st [].
Proof.
  intros H. unfold ngx_rbtree_init, ngx_rbt_black. rewrite (upd_some _ _ _ _ H).
  cbn [mbind option_bind]. eexists. split; [done|]. exists E. split; [|done].
  split; [|split; [by exists 0%nat|done]]. split; [done|]. split; [by exists NULL|].
  split; [apply NoDup_singleton|]. eexists. cbn [cells]. by rewrite lookup_insert_eq.
Qed.

Lemma value_ordered node k l :
  ordered id l -> mono key_less k l /\ ordered id (ins_list key_less node k l).
Proof. intros H. by apply ins_ordered. Qed.

Lemma insert_value_ok s st l node nd :
  models s st l -> ordered id l -> cells st !! node = Some nd -> node ∉ s :: map fst l ->
  exists st',
    ngx_rbtree_insert ngx_rbtree_insert_value s node st = Some st'
    /\ models s st' (ins_list key_less node (key nd) l)
    /\ ordered id (ins_list key_less node (key nd) l)
    /\ unchanged (node :: map fst l) st st'.
Proof.
  intros Hm Ho Hn Hni. destruct (value_ordered node (key nd) l Ho) as [H1 H2].
  destruct (insert_ok s key_less st l node nd Hm Hn Hni H1) as (st' & E1 & M1 & F1).
  by exists st'.
Qed.

Lemma timer_less_offset base a b :
  u64 (a - base) < 2 ^ 63 -> u64 (b - base) < 2 ^ 63 ->
  timer_less a b = bool_decide (u64 (a - base) < u64 (b - base)).
Proof.
  intros Ha Hb. unfold timer_less. apply bool_decide_ext.
  assert (s64 (u64 (a - b)) = u64 (a - base) - u64 (b - base)) as ->; [|lia].
  unfold s64, u64 in *. rewrite Zplus_mod_idemp_l.
  replace (a - b + 2 ^ 63) with ((a - base) - (b - base) + 2 ^ 63) by lia.
  rewrite <- Zplus_mod_idemp_l, Zminus_mod, Zplus_mod_idemp_l.
  pose proof (Z.mod_pos_bound (a - base) (2 ^ 64) ltac:(lia)).
  pose proof (Z.mod_pos_bound (b - base) (2 ^ 64) ltac:(lia)).
  rewrite Z.mod_small by lia. lia.
Qed.

Lemma models_in s st l a k : models s st (l) -> (a, k) ∈ l -> is_Some (cells st !! a).
Proof.
  intros (t & ((_ & (p & Hp) & _) & _) & <-) Ha. apply (rep_cells s _ p t); [done|].
  rewrite addrs_nodes. apply list_elem_of_fmap. by exists (a, k).
Qed.

Lemma ordered_remove f l1 x l2 : ordered f (l1 ++ x :: l2) -> ordered f (l1 ++ l2).
Proof.
  unfold ordered. rewrite !StronglySorted_app, StronglySorted_cons. intros (H & H1 & _ & H2).
  split; [|done]. intros y z Hy Hz. apply H; [done|by right].
Qed.

Lemma run_models s st m :
  run s st m -> exists l, models s st l /\ ordered id l /\ Permutation (map fst l) m.
Proof.
  induction 1 as [h st H|st m a n H (l & Hm & Ho & Hp) Ha
                 |st m node st' H (l & Hm & Ho & Hp) Hn [nd Hnd] Hi
                 |st m1 node m2 st' H (l & Hm & Ho & Hp) Hd].
  - assert (exists n, h !! s = Some n) as (n & Hn).
    { unfold ngx_rbtree_init, ngx_rbt_black, upd in H. destruct (h !! s) as [n|]; [by exists n|done]. }
    destruct (init_ok s h n Hn) as (st2 & E2 & H2). rewrite E2 in H. injection H as ->.
    exists []. split; [done|]. split; [constructor|done].
  - exists l. split; [|done]. destruct Hm as (t & (Ht & Hr) & Hl). exists t.
    split; [|done]. split; [|done]. apply (tree_at_frame s st _ t a); [done| |].
    + rewrite addrs_nodes, Hl, Hp. done.
    + intros b Hb. by rewrite lookup_insert_ne.
  - rewrite <- Hp in Hn. destruct (insert_value_ok s st l node nd Hm Ho Hnd Hn) as (st2 & E2 & M2 & O2 & _).
    rewrite E2 in Hi. injection Hi as ->. eexists. split; [exact M2|]. split; [done|].
    rewrite ins_list_perm. cbn. by rewrite Hp.
  - assert (node ∈ map fst l) as Hin by (rewrite Hp; set_solver).
    apply list_elem_of_fmap in Hin. destruct Hin as ([n k] & -> & Hin). cbn [fst] in *.
    destruct (models_in s st l n k Hm Hin) as [nd Hnd].
    apply list_elem_of_split in Hin. destruct Hin as (l1 & l2 & ->).
    destruct (delete_ok s st l1 n k l2 nd Hm Hnd) as (st2 & E2 & M2 & _).
    rewrite E2 in Hd. injection Hd as ->. exists (l1 ++ l2). split; [done|]. split.
    + by apply ordered_remove in Ho.
    + rewrite map_app in *. cbn [map fst] in Hp. by apply Permutation_app_inv in Hp.
Qed.

(** The tree that the insertion of the keys 40, 20, 60, 10, 30, 50, 70 leaves. *)
Definition ex_t : tree :=
  N false (N false (N true E 5 10 E) 3 20 (N true E 6 30 E)) 2 40
          (N false (N true E 7 50 E) 4 60 (N true E 8 70 E)).

Definition ex_h : heap :=
  list_to_map [(1, RBNode 0 0 0 0 0); (9, RBNode 65 0 0 0 0);
    (2, RBNode 40 3 4 0 0); (3, RBNode 20 5 6 2 0); (4, RBNode 60 7 8 2 0);
    (5, RBNode 10 1 1 3 1); (6, RBNode 30 1 1 3 1); (7, RBNode 50 1 1 4 1); (8, RBNode 70 1 1 4 1)].

Definition ex_st : rbtree := RBTree 2 ex_h.

Lemma ex_rbt : rbt 1 ex_st ex_t.
Proof.
  split; [|split; [by exists 2%nat|done]].
  split; [reflexivity|]. split; [exists 0; repeat split; vm_compute; reflexivity|].
  split; [by_decide|]. by eexists.
Defined.

Lemma ex_models : models 1 ex_st [(5, 10); (3, 20); (6, 30); (2, 40); (7, 50); (4, 60); (8, 70)].
Proof. exists ex_t. split; [exact ex_rbt|reflexivity]. Defined.

(** C5: insertion by key. The tree is again red-black with a black root, its
    entries in order are the old ones with the new node after the entries that
    are not greater, no other cell is written, and the loops end. *)
Theorem rbtree_insert_ok s st l node nd :
  models s st l -> ordered id l -> cells st !! node = Some nd -> node ∉ s :: map fst l ->
  exists st',
    ngx_rbtree_insert ngx_rbtree_insert_value s node st = Some st'
    /\ models s st' (ins_list key_less node (key nd) l)
    /\ ordered id (ins_list key_less node (key nd) l)
    /\ unchanged (node :: map fst l) st st'.
Proof. apply insert_value_ok. Qed.

Lemma rbtree_insert_ok_witness :
  exists st', ngx_rbtree_insert ngx_rbtree_insert_value 1 9 ex_st = Some st'
    /\ models 1 st' [(5, 10); (3, 20); (6, 30); (2, 40); (7, 50); (4, 60); (9, 65); (8, 70)].
Proof.
  destruct (rbtree_insert_ok 1 ex_st _ 9 (RBNode 65 0 0 0 0) ex_models) as (st' & H1 & H2 & _).
  - by_decide.
  - reflexivity.
  - by_decide.
  - exists st'. split; [exact H1|exact H2].
Defined.

(** Insertion of a timer. The keys are milliseconds on a clock that wraps:
    when all of them are less than [2^63] after [base], the entries are kept in
    the order of that distance, and the rest is as in the insertion by key. *)
Theorem rbtree_timer_ok base s st l node nd :
  models s st l -> ordered (fun k => u64 (k - base)) l ->
  Forall (fun x => u64 (snd x - base) < 2 ^ 63) l -> u64 (key nd - base) < 2 ^ 63 ->
  cells st !! node = Some nd -> node ∉ s :: map fst l ->
  exists st',
    ngx_rbtree_insert ngx_rbtree_insert_timer_value s node st = Some st'
    /\ models s st' (ins_list timer_less node (key nd) l)
    /\ ordered (fun k => u64 (k - base)) (ins_list timer_less node (key nd) l)
    /\ Permutation (ins_list timer_less node (key nd) l) ((node, key nd) :: l)
    /\ unchanged (node :: map fst l) st st'.
Proof.
  intros Hm Ho Hl Hk Hn Hni.
  destruct (ins_ordered timer_less (fun k => u64 (k - base)) node (key nd) l) as [H1 H2].
  - intros x Hx. apply timer_less_offset; [done|].
    rewrite List.Forall_forall in Hl. apply Hl. by apply list_elem_of_In.
  - done.
  - destruct (insert_ok s timer_less st l node nd Hm Hn Hni H1) as (st' & E1 & M1 & F1).
    exists st'. split_and!; try done. apply ins_list_perm.
Qed.

(** Timers 5 ms before and 10 ms after the clock wraps. *)
Lemma rbtree_timer_ok_witness :
  exists st', ngx_rbtree_insert ngx_rbtree_insert_timer_value 1 3
      (RBTree 2 (list_to_map [(1, RBNode 0 0 0 0 0); (2, RBNode (2 ^ 64 - 5) 1 1 0 0);
                              (3, RBNode 10 0 0 0 0)])) = Some st'
    /\ models 1 st' [(2, 2 ^ 64 - 5); (3, 10)].
Proof.
  destruct (rbtree_timer_ok (2 ^ 64 - 100) 1
      (RBTree 2 (list_to_map [(1, RBNode 0 0 0 0 0); (2, RBNode (2 ^ 64 - 5) 1 1 0 0);
                              (3, RBNode 10 0 0 0 0)])) [(2, 2 ^ 64 - 5)] 3 (RBNode 10 0 0 0 0))
    as (st' & H1 & H2 & _).
  - exists (N false E 2 (2 ^ 64 - 5) E). split; [|reflexivity].
    split; [|split; [by exists 1%nat|done]].
    split; [reflexivity|]. split; [exists 0; repeat split; vm_compute; reflexivity|].
    split; [by_decide|]. by eexists.
  - by_decide.
  - by_decide.
  - reflexivity.
  - reflexivity.
  - by_decide.
  - exists st'. split; [exact H1|exact H2].
Defined.

(** C6: deletion. The tree is again red-black with a black root and its entries
    are the old ones without [node], in the same order; [node] is cleared, and
    only cells of the tree and the sentinel are written. *)
Theorem rbtree_delete_ok s st l1 node k l2 nd :
  models s st (l1 ++ (node, k) :: l2) -> cells st !! node = Some nd ->
  exists st',
    ngx_rbtree_delete s node st = Some st'
    /\ models s st' (l1 ++ l2)
    /\ cells st' !! node = Some (RBNode 0 NULL NULL NULL (color nd))
    /\ unchanged (s :: map fst (l1 ++ (node, k) :: l2)) st st'.
Proof. apply delete_ok. Qed.

Lemma rbtree_delete_ok_witness :
  exists st', ngx_rbtree_delete 1 2 ex_st = Some st'
    /\ models 1 st' [(5, 10); (3, 20); (6, 30); (7, 50); (4, 60); (8, 70)].
Proof.
  destruct (rbtree_delete_ok 1 ex_st [(5, 10); (3, 20); (6, 30)] 2 40 [(7, 50); (4, 60); (8, 70)]
              (RBNode 40 3 4 0 0)) as (st' & H1 & H2 & _).
  - exact ex_models.
  - reflexivity.
  - exists st'. split; [exact H1|exact H2].
Defined.
(** Traversal. The minimum of the tree is its first entry, and the next node
    of an entry is the entry after it, [NULL] after the last one. *)
Theorem rbtree_next_ok s st l1 a k l2 :
  models s st (l1 ++ (a, k) :: l2) ->
  ngx_rbtree_min (cells st) (root st) s = Some (first (l1 ++ (a, k) :: l2))
  /\ ngx_rbtree_next s st a = Some (first l2).
Proof.
  intros (t & (Ht & _) & Hn). destruct (nodes_at _ _ _ _ _ Hn) as (ctx & c & l & r & -> & _ & H2).
  apply tree_zip in Ht. destruct Ht as (p & H). split.
  - rewrite <- Hn. pose proof (zip_plug _ _ _ _ _ H) as Hz.
    assert (root st = addr s (plug ctx (N c l a k r))) as -> by apply Hz.
    apply (min_first s st p [] _ Hz). by apply plug_ne.
  - unfold ngx_rbtree_next. destruct st as [rt h].
    pose proof (zip_child_opp (c := c) (x := l) (k := k) (y := r) L H) as Er.
    cbn [cells opp] in Er. rewrite Er. cbn [mbind option_bind].
    pose proof (zip_dn (d := R) (c := c) (t := r) (k := k) (sib := l) H) as Hr.
    destruct (decide (r = E)) as [->|Hne].
    + rewrite decide_False by (intros E; by apply E).
      cbn in H2. subst l2.
      apply (next_loop_ok s _ (RBTree rt h) p ctx (N c l a k E) H); [done|].
      pose proof (zip_size _ _ _ _ _ H). pose proof (length_ctx ctx). cbn [cells] in *. lia.
    + rewrite decide_True by exact (zip_in Hr Hne).
      subst l2. rewrite first_app by done. exact (min_first s _ _ _ _ Hr Hne).
Qed.

Lemma rbtree_next_ok_witness :
  ngx_rbtree_min (cells ex_st) 2 1 = Some 5 /\ ngx_rbtree_next 1 ex_st 6 = Some 2.
Proof.
  exact (rbtree_next_ok 1 ex_st [(5, 10); (3, 20)] 6 30 [(2, 40); (7, 50); (4, 60); (8, 70)]
           ex_models).
Defined.

(** C40: the descent of an insertion into a tree of [n] entries ends after at
    most [2 log2 (n + 1)] rounds. *)
Theorem rbtree_descent_log less s st l node nd :
  models s st l -> l <> [] -> cells st !! node = Some nd -> node ∉ s :: map fst l ->
  exists h', insert_loop less (2 * Nat.log2 (S (length l))) (cells st) (root st) node s = Some h'.
Proof.
  intros (t & Hr & Hl) Hne Hn Hni. pose proof (height_log _ _ _ Hr) as Hh.
  destruct Hr as (Ht & _). apply (tree_zip s st [] t) in Ht. destruct Ht as (p & H).
  assert (root st = addr s t) as -> by apply H.
  destruct (insert_loop_ok s less (2 * Nat.log2 (S (length l))) st p [] t node nd H)
    as (h' & ctx' & E1 & _).
  - intros ->. by subst l.
  - done.
  - cbn [caddrs]. by rewrite app_nil_r, addrs_nodes, Hl.
  - by rewrite <- Hl.
  - by exists h'.
Qed.

Lemma rbtree_descent_log_witness :
  exists h', insert_loop key_less 6 ex_h 2 9 1 = Some h'.
Proof.
  apply (rbtree_descent_log key_less 1 ex_st _ 9 (RBNode 65 0 0 0 0) ex_models).
  - by_decide.
  - reflexivity.
  - by_decide.
Defined.

(** C4: the invariant of a tree that is only changed through the operations:
    every reachable state is a red-black tree with its members in the order of
    their keys, and no insertion of another node nor deletion of a member
    fails in it. *)
Theorem rbtree_invariant s st m :
  run s st m ->
  (exists l, models s st l /\ ordered id l /\ Permutation (map fst l) m)
  /\ (forall node, node ∉ s :: m -> is_Some (cells st !! node) ->
       is_Some (ngx_rbtree_insert ngx_rbtree_insert_value s node st))
  /\ (forall node, node ∈ m -> is_Some (ngx_rbtree_delete s node st)).
Proof.
  intros H. destruct (run_models _ _ _ H) as (l & Hm & Ho & Hp). split_and!.
  - by exists l.
  - intros node Hn [nd Hnd]. rewrite <- Hp in Hn.
    destruct (insert_value_ok s st l node nd Hm Ho Hnd Hn) as (st' & -> & _). by eexists.
  - intros node Hn. rewrite <- Hp in Hn. apply list_elem_of_fmap in Hn.
    destruct Hn as ([a k] & -> & Hin). destruct (models_in s st l a k Hm Hin) as [nd Hnd].
    apply list_elem_of_split in Hin. destruct Hin as (l1 & l2 & ->). cbn [fst].
    destruct (delete_ok s st l1 a k l2 nd Hm Hnd) as (st' & -> & _). by eexists.
Qed.

Lemma rbtree_invariant_witness :
  exists st, run 1 st [2] /\ is_Some (ngx_rbtree_delete 1 2 st).
Proof.
  assert (exists st, run 1 st [2]) as [st H].
  { eexists. eapply (run_insert 1 _ [] 2); [eapply (run_init 1 ex_h); reflexivity| | |].
    - by_decide.
    - eexists. reflexivity.
    - reflexivity. }
  exists st. split; [exact H|]. apply (rbtree_invariant 1 st [2] H). by left.
Defined.
