(* ===== verification/HttpUri.v ===== *)
(** * The request target

    The URI states of ngx_http_parse.c: [ngx_http_parse_uri], the state machine
    [ngx_http_parse_complex_uri] that decodes and normalises a path into a
    buffer, and [ngx_http_process_request_uri] of ngx_http_request.c, which
    chooses between the two. Positions are indices into the buffer that holds
    the request line; [None] is a null pointer. *)

From S2P Require Import Prelude Num.
From stdpp Require Import sets.

Open Scope Z_scope.
Open Scope ch_scope.

Definition NGX_HTTP_PARSE_INVALID_REQUEST : Z := 11.

(** The table [usual], without [NGX_WIN32]. *)
Definition usual_table : list Z :=
  [0x00000000; 0x7fff37d6; 0xffffffff; 0x7fffffff;
   0xffffffff; 0xffffffff; 0xffffffff; 0xffffffff].

Definition usual (ch : Z) : bool :=
  bool_decide (Z.land (nth (Z.to_nat (Z.shiftr ch 5)) usual_table 0)
                      (Z.shiftl 1 (Z.land ch 0x1f)) <> 0).

(** The fields of the request that describe the target. *)
Record uri_t := Uri {
  uri_start : option nat; uri_end : option nat; uri_ext : option nat; args_start : option nat;
  complex_uri : bool; quoted_uri : bool; plus_in_uri : bool; empty_path_in_uri : bool }.

Definition uri_zero : uri_t := Uri None None None None false false false false.

Definition set_uri_start (p : nat) (u : uri_t) : uri_t :=
  Uri (Some p) (uri_end u) (uri_ext u) (args_start u)
      (complex_uri u) (quoted_uri u) (plus_in_uri u) (empty_path_in_uri u).
Definition set_uri_end (p : nat) (u : uri_t) : uri_t :=
  Uri (uri_start u) (Some p) (uri_ext u) (args_start u)
      (complex_uri u) (quoted_uri u) (plus_in_uri u) (empty_path_in_uri u).
Definition set_uri_ext (p : option nat) (u : uri_t) : uri_t :=
  Uri (uri_start u) (uri_end u) p (args_start u)
      (complex_uri u) (quoted_uri u) (plus_in_uri u) (empty_path_in_uri u).
Definition set_args_start (p : nat) (u : uri_t) : uri_t :=
  Uri (uri_start u) (uri_end u) (uri_ext u) (Some p)
      (complex_uri u) (quoted_uri u) (plus_in_uri u) (empty_path_in_uri u).
Definition set_complex_uri (u : uri_t) : uri_t :=
  Uri (uri_start u) (uri_end u) (uri_ext u) (args_start u)
      true (quoted_uri u) (plus_in_uri u) (empty_path_in_uri u).
Definition set_quoted_uri (u : uri_t) : uri_t :=
  Uri (uri_start u) (uri_end u) (uri_ext u) (args_start u)
      (complex_uri u) true (plus_in_uri u) (empty_path_in_uri u).
Definition set_plus_in_uri (u : uri_t) : uri_t :=
  Uri (uri_start u) (uri_end u) (uri_ext u) (args_start u)
      (complex_uri u) (quoted_uri u) true (empty_path_in_uri u).
Definition set_empty_path (u : uri_t) : uri_t :=
  Uri (uri_start u) (uri_end u) (uri_ext u) (args_start u)
      (complex_uri u) (quoted_uri u) (plus_in_uri u) true.

(** ** The states of a target that is not changed *)

Inductive uri_state := sw_after_slash_in_uri | sw_check_uri | sw_uri.

#[global] Instance uri_state_eq_dec : EqDecision uri_state.
Proof. solve_decision. Defined.

(** The next state after a usual character. *)
Definition usual_next (st : uri_state) : uri_state :=
  match st with sw_uri => sw_uri | _ => sw_check_uri end.

(** The cases of the three switches that [ngx_http_parse_request_line] and
    [ngx_http_parse_uri] share; a character below [low] is an error. *)
Definition uri_switch (low : Z) (st : uri_state) (p : nat) (ch : Z) (u : uri_t)
  : option (uri_state * uri_t) :=
  let default st := if decide (ch < low \/ ch = 0x7f) then None else Some (st, u) in
  match st with
  | sw_after_slash_in_uri =>
      if decide (ch = ".") then Some (sw_uri, set_complex_uri u)
      else if decide (ch = "%") then Some (sw_uri, set_quoted_uri u)
      else if decide (ch = "/") then Some (sw_uri, set_complex_uri u)
      else if decide (ch = "?") then Some (sw_uri, set_args_start (p + 1) u)
      else if decide (ch = "#") then Some (sw_uri, set_complex_uri u)
      else if decide (ch = "+") then Some (sw_after_slash_in_uri, set_plus_in_uri u)
      else default sw_check_uri
  | sw_check_uri =>
      if decide (ch = "/") then Some (sw_after_slash_in_uri, set_uri_ext None u)
      else if decide (ch = ".") then Some (sw_check_uri, set_uri_ext (Some (p + 1)%nat) u)
      else if decide (ch = "%") then Some (sw_uri, set_quoted_uri u)
      else if decide (ch = "?") then Some (sw_uri, set_args_start (p + 1) u)
      else if decide (ch = "#") then Some (sw_uri, set_complex_uri u)
      else if decide (ch = "+") then Some (sw_check_uri, set_plus_in_uri u)
      else default sw_check_uri
  | sw_uri =>
      if decide (ch = "#") then Some (sw_uri, set_complex_uri u) else default sw_uri
  end.

Definition uri_char (st : uri_state) (p : nat) (ch : Z) (u : uri_t) : option (uri_state * uri_t) :=
  if usual ch then Some (usual_next st, u) else uri_switch 0x21 st p ch u.

Fixpoint uri_loop (st : uri_state) (p : nat) (l : list Z) (u : uri_t) : option uri_t :=
  match l with
  | [] => Some u
  | ch :: l => '(st, u) ← uri_char st p ch u; uri_loop st (p + 1) l u
  end.

(** [l] are the bytes from [uri_start], which is [p], to [uri_end]; [None] is
    the return of [NGX_ERROR]. *)
Definition ngx_http_parse_uri (p : nat) (l : list Z) (u : uri_t) : option uri_t :=
  match l with
  | [] => Some u
  | ch :: l => if decide (ch <> "/") then None else uri_loop sw_after_slash_in_uri (p + 1) l u
  end.

(** ** The normalising state machine *)

Inductive cu_state := cu_usual | cu_slash | cu_dot | cu_dot_dot | cu_quoted | cu_quoted_second.

#[global] Instance cu_state_eq_dec : EqDecision cu_state.
Proof. solve_decision. Defined.

(** The memory at [r->uri.data], the offset of [u] in it, the offset of
    [r->uri_ext], the position [r->args_start], and the flags. *)
Record cu := Cu {
  cu_mem : list Z; cu_u : nat; cu_ext : option nat; cu_args : option nat;
  cu_plus : bool; cu_quoted_uri : bool }.

(** [*u++ = ch]; a write after the end of the memory is undefined behaviour. *)
Definition cu_put (ch : Z) (m : cu) : option cu :=
  if decide (cu_u m < length (cu_mem m))%nat
  then Some (Cu (<[cu_u m := ch]> (cu_mem m)) (cu_u m + 1) (cu_ext m) (cu_args m)
                (cu_plus m) (cu_quoted_uri m))
  else None.

Definition cu_set_u (u : nat) (m : cu) : cu :=
  Cu (cu_mem m) u (cu_ext m) (cu_args m) (cu_plus m) (cu_quoted_uri m).
Definition cu_set_ext (e : option nat) (m : cu) : cu :=
  Cu (cu_mem m) (cu_u m) e (cu_args m) (cu_plus m) (cu_quoted_uri m).
Definition cu_set_args (p : nat) (m : cu) : cu :=
  Cu (cu_mem m) (cu_u m) (cu_ext m) (Some p) (cu_plus m) (cu_quoted_uri m).
Definition cu_set_plus (m : cu) : cu :=
  Cu (cu_mem m) (cu_u m) (cu_ext m) (cu_args m) true (cu_quoted_uri m).
Definition cu_set_quoted (m : cu) : cu :=
  Cu (cu_mem m) (cu_u m) (cu_ext m) (cu_args m) (cu_plus m) true.

(** The loop that looks for the slash before the last segment, [u] being
    [k - 1]: the offset after the slash, [inr] when there is none. *)
Fixpoint back_slash (mem : list Z) (k : nat) : option (nat + unit) :=
  match k with
  | O => Some (inr tt)
  | S u =>
      c ← mem !! u;
      if decide (c = "/") then Some (inl (u + 1)%nat) else back_slash mem u
  end.

(** [u -= 4] and the loop. *)
Definition cu_up (m : cu) : option (cu + unit) :=
  b ← back_slash (cu_mem m) (cu_u m - 3);
  Some (match b with inl u => inl (cu_set_u u m) | inr e => inr e end).

(** What a round does: go on with the next character, jump to a label, or
    return [NGX_HTTP_PARSE_INVALID_REQUEST]. *)
Inductive cu_next :=
  | cu_go (st qs : cu_state) (m : cu) | cu_goto_args (m : cu) | cu_goto_done (m : cu) | cu_invalid.

(** A round in the states that are not inside an escape; [p] is the position
    after [ch] in the code, and [qs] the saved [quoted_state]. *)
Definition cu_round (merge_slashes : bool) (st qs : cu_state) (p : nat) (ch : Z) (m : cu)
  : option cu_next :=
  let put st m := m ← cu_put ch m; Some (cu_go st qs m) in
  if usual ch then put cu_usual m
  else
    match st with
    | cu_slash =>
        if decide (ch = "/") then
          if negb merge_slashes then put cu_slash m else Some (cu_go cu_slash qs m)
        else if decide (ch = ".") then put cu_dot m
        else if decide (ch = "%") then Some (cu_go cu_quoted cu_slash m)
        else if decide (ch = "?") then Some (cu_goto_args (cu_set_args p m))
        else if decide (ch = "#") then Some (cu_goto_done m)
        else put cu_usual (if decide (ch = "+") then cu_set_plus m else m)
    | cu_dot =>
        if decide (ch = "/") then Some (cu_go cu_slash qs (cu_set_u (cu_u m - 1) m))
        else if decide (ch = ".") then put cu_dot_dot m
        else if decide (ch = "%") then Some (cu_go cu_quoted cu_dot m)
        else if decide (ch = "?") then
          Some (cu_goto_args (cu_set_args p (cu_set_u (cu_u m - 1) m)))
        else if decide (ch = "#") then Some (cu_goto_done (cu_set_u (cu_u m - 1) m))
        else put cu_usual (if decide (ch = "+") then cu_set_plus m else m)
    | cu_dot_dot =>
        if decide (ch = "/" \/ ch = "?" \/ ch = "#") then
          up ← cu_up m;
          match up with
          | inr _ => Some cu_invalid
          | inl m =>
              if decide (ch = "?") then Some (cu_goto_args (cu_set_args p m))
              else if decide (ch = "#") then Some (cu_goto_done m)
              else Some (cu_go cu_slash qs m)
          end
        else if decide (ch = "%") then Some (cu_go cu_quoted cu_dot_dot m)
        else put cu_usual (if decide (ch = "+") then cu_set_plus m else m)
    | _ =>
        if decide (ch = "/") then put cu_slash (cu_set_ext None m)
        else if decide (ch = "%") then Some (cu_go cu_quoted cu_usual m)
        else if decide (ch = "?") then Some (cu_goto_args (cu_set_args p m))
        else if decide (ch = "#") then Some (cu_goto_done m)
        else if decide (ch = ".") then put cu_usual (cu_set_ext (Some (cu_u m + 1)%nat) m)
        else put cu_usual (if decide (ch = "+") then cu_set_plus m else m)
    end.

(** The value of a hexadecimal digit by the two tests of an escape. *)
Definition cu_digit (ch : Z) : option Z :=
  if decide (ch >= "0" /\ ch <= "9") then Some (u8 (ch - "0"))
  else
    let c := u8 (Z.lor ch 0x20) in
    if decide (c >= "a" /\ c <= "f") then Some (u8 (c - "a" + 10)) else None.

(** A round of the [while] loop. In [sw_quoted_second] a decoded character other
    than the ones kept as they are is looked at again in [quoted_state]. *)
Definition cu_char (merge_slashes : bool) (st qs : cu_state) (decoded : Z) (p : nat) (ch : Z)
    (m : cu) : option (cu_next * Z) :=
  match st with
  | cu_quoted =>
      let m := cu_set_quoted m in
      match cu_digit ch with
      | Some d => Some (cu_go cu_quoted_second qs m, d)
      | None => Some (cu_invalid, decoded)
      end
  | cu_quoted_second =>
      let keep ch := m ← cu_put ch m; Some (cu_go cu_usual qs m, decoded) in
      let again ch m := n ← cu_round merge_slashes qs qs p ch m; Some (n, decoded) in
      if decide (ch >= "0" /\ ch <= "9") then
        let ch := u8 (Z.shiftl decoded 4 + (ch - "0")) in
        if decide (ch = "%" \/ ch = "#") then keep ch
        else if decide (ch = 0) then Some (cu_invalid, decoded)
        else again ch m
      else
        let c := u8 (Z.lor ch 0x20) in
        if decide (c >= "a" /\ c <= "f") then
          let ch := u8 (Z.shiftl decoded 4 + (c - "a") + 10) in
          if decide (ch = "?") then keep ch
          else again ch (if decide (ch = "+") then cu_set_plus m else m)
        else Some (cu_invalid, decoded)
  | _ => n ← cu_round merge_slashes st qs p ch m; Some (n, decoded)
  end.

(** The label [done] and the end of the label [args]: the path, the extension
    and [r->args], the last two when they are set. *)
Record cu_result := CuResult {
  cr_uri : list Z; cr_exten : option (list Z); cr_args : option (list Z);
  cr_args_start : option nat; cr_plus : bool; cr_quoted : bool }.

Definition cu_done (args : option (list Z)) (m : cu) : cu_result :=
  CuResult (take (cu_u m) (cu_mem m))
    (match cu_ext m with
     | Some e => Some (take (cu_u m - e) (drop e (cu_mem m))) | None => None end)
    args (match args with Some _ => None | None => cu_args m end) (cu_plus m) (cu_quoted_uri m).

(** The loop at [args]: [l] are the bytes after the question mark; the
    arguments are set when there is a fragment to cut off. *)
Fixpoint cut_fragment (l : list Z) : option (list Z) :=
  match l with
  | [] => None
  | c :: l => if decide (c = "#") then Some [] else a ← cut_fragment l; Some (c :: a)
  end.

(** The results of the function: [inl] is [NGX_OK]; [inr tt] is
    [NGX_HTTP_PARSE_INVALID_REQUEST]; [None] is undefined behaviour. [l] are the
    bytes from [ch] to [uri_end], and [p] the position of [ch]. *)
Fixpoint cu_loop (merge_slashes : bool) (st qs : cu_state) (decoded : Z) (p : nat) (l : list Z)
    (m : cu) : option (cu_result + unit) :=
  match l with
  | [] =>
      match st with
      | cu_quoted | cu_quoted_second => Some (inr tt)
      | cu_dot => Some (inl (cu_done None (cu_set_u (cu_u m - 1) m)))
      | cu_dot_dot =>
          up ← cu_up m;
          Some (match up with inl m => inl (cu_done None m) | inr e => inr e end)
      | _ => Some (inl (cu_done None m))
      end
  | ch :: l =>
      '(n, decoded) ← cu_char merge_slashes st qs decoded (p + 1) ch m;
      match n with
      | cu_go st qs m => cu_loop merge_slashes st qs decoded (p + 1) l m
      | cu_goto_args m => Some (inl (cu_done (cut_fragment l) m))
      | cu_goto_done m => Some (inl (cu_done None m))
      | cu_invalid => Some (inr tt)
      end
  end.

(** [mem] is the memory at [r->uri.data], [l] the bytes of the target, which
    starts at [p]; [u] has the flags of the request line. *)
Definition ngx_http_parse_complex_uri (merge_slashes : bool) (mem : list Z) (p : nat) (l : list Z)
    (u : uri_t) : option (cu_result + unit) :=
  let m := Cu mem 0 None None (plus_in_uri u) (quoted_uri u) in
  m ← (if empty_path_in_uri u then cu_put "/" m else Some m);
  cu_loop merge_slashes cu_usual cu_usual 0 p l m.

(** ** Choosing the path *)

(** The strings of the request; an empty one is a string that is not set. *)
Record target := Target {
  t_uri : list Z; t_exten : list Z; t_args : list Z; t_unparsed : list Z; t_valid : bool }.

Definition slice (buf : list Z) (a b : nat) : list Z := take (b - a) (drop a buf).

(** [buf] is the buffer with the request line, [mem] the contents of the
    allocated memory; [inr tt] is the return of [NGX_ERROR]. A failed allocation
    and the logging are left out. *)
Definition ngx_http_process_request_uri (merge_slashes : bool) (alloc : nat -> list Z)
    (buf : list Z) (u : uri_t) : option (target + unit) :=
  s ← uri_start u;
  e ← uri_end u;
  let len := match args_start u with Some a => (a - 1 - s)%nat | None => (e - s)%nat end in
  let finish uri ext_exten ext args_set args_start :=
    let exten :=
      match ext with
      | Some x => slice buf x (match args_start with Some a => a - 1 | None => e end)
      | None => ext_exten
      end%nat in
    let args :=
      match args_start with
      | Some a => if decide (a < e)%nat then slice buf a e else args_set
      | None => args_set
      end in
    Some (inl (Target uri exten args (slice buf s e) (negb (empty_path_in_uri u)))) in
  if complex_uri u || quoted_uri u || empty_path_in_uri u then
    let len := if empty_path_in_uri u then (len + 1)%nat else len in
    r ← ngx_http_parse_complex_uri merge_slashes (alloc len) s (slice buf s e) u;
    match r with
    | inr e => Some (inr e)
    | inl r => finish (cr_uri r) (default [] (cr_exten r)) None (default [] (cr_args r)) (cr_args_start r)
    end
  else finish (take len (drop s buf)) [] (uri_ext u) [] (args_start u).

(** ** Reference: decoding, segments, and their resolution *)

(** The path of a target, decoded, and the rest, which is empty or starts at
    the first question mark or number sign that is not escaped. *)
Fixpoint decode_target (l : list Z) : option (list Z * list Z) :=
  match l with
  | [] => Some ([], [])
  | c :: l' =>
      if decide (c = "?" \/ c = "#") then Some ([], l)
      else if decide (c = "%") then
        match l' with
        | h1 :: h2 :: l' =>
            if is_hex h1 && is_hex h2 && negb (bool_decide (16 * hex_val h1 + hex_val h2 = 0))
            then '(path, tail) ← decode_target l';
                 Some (16 * hex_val h1 + hex_val h2 :: path, tail)
            else None
        | _ => None
        end
      else '(path, tail) ← decode_target l'; Some (c :: path, tail)
  end.

(** The segments of a path after its first slash, [cur] being the beginning of
    the first one. *)
Fixpoint segments (cur path : list Z) : list (list Z) :=
  match path with
  | [] => [cur]
  | c :: path => if decide (c = "/") then cur :: segments [] path else segments (cur ++ [c]) path
  end.

Definition dot : list Z := ["."].
Definition dot_dot : list Z := ["."; "."].

Definition close_segment (merge : bool) (stack : list (list Z)) (cur : list Z)
  : option (list (list Z)) :=
  if decide (cur = dot) then Some stack
  else if decide (cur = dot_dot) then
    match stack with [] => None | _ => Some (removelast stack) end
  else if merge && bool_decide (cur = []) then Some stack
  else Some (stack ++ [cur]).

(** The segments that remain; after a last dot segment, an empty one. *)
Fixpoint resolve (merge : bool) (stack segs : list (list Z)) : option (list (list Z)) :=
  match segs with
  | [] => Some stack
  | [cur] =>
      if decide (cur = dot \/ cur = dot_dot)
      then stack ← close_segment merge stack cur; Some (stack ++ [[]])
      else Some (stack ++ [cur])
  | cur :: segs => stack ← close_segment merge stack cur; resolve merge stack segs
  end.

Definition join (segs : list (list Z)) : list Z := concat (map (cons ("/" : Z)) segs).

(** The position after the last dot of a segment that is not at its beginning:
    neither its first characters when they are dots, nor the one after two
    dots, count. *)
Fixpoint after_dot (i : nat) (l : list Z) : option nat :=
  match l with
  | [] => None
  | c :: l =>
      match after_dot (S i) l with
      | Some k => Some k
      | None => if decide (c = ".") then Some (S i) else None
      end
  end.

Definition ext_pos (seg : list Z) : option nat :=
  match seg with
  | a :: b :: c :: l =>
      if decide (a = ".") then if decide (b = ".") then after_dot 3 l else after_dot 2 (c :: l)
      else after_dot 1 (b :: c :: l)
  | [a; b] => if decide (a = ".") then None else after_dot 1 [b]
  | _ => None
  end.

Definition extension (seg : list Z) : option (list Z) := k ← ext_pos seg; Some (drop k seg).

Close Scope ch_scope.

(** ** The machine follows the reference *)

Open Scope ch_scope.

(** The state of the machine inside a segment that begins with [cur]. *)
Definition state_of (cur : list Z) : cu_state :=
  if decide (cur = []) then cu_slash
  else if decide (cur = dot) then cu_dot
  else if decide (cur = dot_dot) then cu_dot_dot
  else cu_usual.

Lemma after_dot_snoc i l c :
  after_dot i (l ++ [c]) = if decide (c = ".") then Some (i + length l + 1)%nat else after_dot i l.
Proof.
  revert i. induction l as [|a l IH]; intros i; cbn [app after_dot length].
  - case_decide; [|done]. f_equal. lia.
  - rewrite IH. case_decide; [|done]. f_equal. lia.
Qed.

Lemma state_of_snoc cur c :
  c <> "." -> state_of (cur ++ [c]) = cu_usual.
Proof.
  intros Hc. unfold state_of. rewrite !decide_False; [done| | |]; intros E.
  - change dot_dot with ([46] ++ [46]) in E. apply app_inj_tail in E as [_ E]. by subst.
  - change dot with ([] ++ [46]) in E. apply app_inj_tail in E as [_ E]. by subst.
  - by destruct cur.
Qed.

Lemma state_of_dot cur :
  state_of (cur ++ [46]) =
  match state_of cur with cu_slash => cu_dot | cu_dot => cu_dot_dot | _ => cu_usual end.
Proof.
  unfold state_of. repeat (case_decide; subst; try done).
  all: exfalso.
  all: match goal with
       | H : ?l ++ [46] = dot |- _ => change dot with ([] ++ [46]) in H
       | H : ?l ++ [46] = dot_dot |- _ => change dot_dot with (dot ++ [46]) in H
       | _ => idtac end.
  all: try match goal with H : _ ++ [46] = _ ++ [46] |- _ => apply app_inj_tail in H as [H _] end.
  all: try done. all: destruct cur; done.
Qed.

Lemma state_of_usual a cur : a <> "." -> state_of (a :: cur) = cu_usual.
Proof.
  intros Ha. unfold state_of, dot, dot_dot. by rewrite !decide_False by congruence.
Qed.

Lemma state_of_usual2 a b cur : b <> "." -> state_of (a :: b :: cur) = cu_usual.
Proof.
  intros Ha. unfold state_of, dot, dot_dot. by rewrite !decide_False by congruence.
Qed.

Lemma state_of_usual3 a b c cur : state_of (a :: b :: c :: cur) = cu_usual.
Proof. unfold state_of, dot, dot_dot. by rewrite !decide_False by congruence. Qed.

Lemma ext_pos_snoc cur c :
  ext_pos (cur ++ [c]) =
  match state_of cur with
  | cu_usual => if decide (c = ".") then Some (length cur + 1)%nat else ext_pos cur
  | _ => None
  end.
Proof.
  destruct cur as [|a [|b [|d l]]].
  - done.
  - cbn [app ext_pos]. destruct (decide (a = ".")) as [->|Ha]; [reflexivity|].
    rewrite state_of_usual by done. cbn. by case_decide.
  - cbn [app ext_pos]. destruct (decide (a = ".")) as [->|Ha].
    + destruct (decide (b = ".")) as [->|Hb]; [reflexivity|].
      rewrite state_of_usual2 by done. cbn. by case_decide.
    + rewrite state_of_usual by done.
      change [b; c] with ([b] ++ [c]). by rewrite after_dot_snoc.
  - rewrite state_of_usual3. cbn [app ext_pos length].
    destruct (decide (a = ".")); [destruct (decide (b = "."))|].
    + by rewrite after_dot_snoc.
    + change (d :: l ++ [c]) with ((d :: l) ++ [c]). by rewrite after_dot_snoc.
    + change (b :: d :: l ++ [c]) with ((b :: d :: l) ++ [c]). by rewrite after_dot_snoc.
Qed.
(** The memory holds the resolved segments and the beginning of the current one. *)
Definition tracks (m : cu) (n : nat) (stack : list (list Z)) (cur : list Z) : Prop :=
  length (cu_mem m) = n /\ (cu_u m <= n)%nat
  /\ take (cu_u m) (cu_mem m) = join stack ++ 47 :: cur
  /\ cu_ext m = option_map (Nat.add (S (length (join stack)))) (ext_pos cur)
  /\ Forall (fun s => 47 ∉ s) stack /\ 47 ∉ cur.

Lemma tracks_u m n stack cur :
  tracks m n stack cur -> cu_u m = (length (join stack) + S (length cur))%nat.
Proof.
  intros (H1 & H2 & H3 & _). apply (f_equal length) in H3.
  rewrite length_take, length_app in H3. cbn [length] in H3. lia.
Qed.

Lemma join_snoc stack seg : join (stack ++ [seg]) = join stack ++ 47 :: seg.
Proof. unfold join. by rewrite map_app, concat_app; cbn; rewrite app_nil_r. Qed.

Lemma put_ok m n c :
  length (cu_mem m) = n -> (cu_u m < n)%nat ->
  exists m', cu_put c m = Some m' /\ length (cu_mem m') = n /\ cu_u m' = (cu_u m + 1)%nat
    /\ take (cu_u m') (cu_mem m') = take (cu_u m) (cu_mem m) ++ [c]
    /\ cu_ext m' = cu_ext m /\ cu_args m' = cu_args m.
Proof.
  intros Hn Hu. unfold cu_put. rewrite decide_True by lia. eexists. split; [done|]. cbn.
  rewrite length_insert. split_and!; try done.
  rewrite Nat.add_1_r. erewrite take_S_r by (rewrite list_lookup_insert_eq; [done|lia]).
  by rewrite take_insert_ge by lia.
Qed.

(** One more character of the current segment. *)
Lemma put_tracks m n stack cur c :
  tracks m n stack cur -> (cu_u m < n)%nat -> c <> 47 ->
  (c = 46 -> state_of cur <> cu_usual) ->
  exists m', cu_put c m = Some m' /\ tracks m' n stack (cur ++ [c])
    /\ cu_u m' = (cu_u m + 1)%nat /\ cu_args m' = cu_args m.
Proof.
  intros (H1 & H2 & H3 & H4 & H5 & H6) Hu Hc Hd.
  destruct (put_ok m n c H1 Hu) as (m' & E1 & P1 & P2 & P3 & P4 & P5).
  exists m'. split; [done|]. split; [|done]. split_and!; try done.
  - lia.
  - rewrite P3, H3, <- app_assoc. done.
  - rewrite P4, H4, ext_pos_snoc. destruct (state_of cur) eqn:Es;
      [case_decide; [by destruct (Hd ltac:(done))|done]|..];
      clear -Es; unfold state_of in Es; repeat case_decide; by subst.
  - set_solver.
Qed.

(** A slash after the current segment. *)
Lemma slash_tracks m n stack cur :
  tracks m n stack cur -> (cu_u m < n)%nat ->
  exists m', cu_put 47 (cu_set_ext None m) = Some m' /\ tracks m' n (stack ++ [cur]) []
    /\ cu_u m' = (cu_u m + 1)%nat /\ cu_args m' = cu_args m.
Proof.
  intros (H1 & H2 & H3 & H4 & H5 & H6) Hu.
  destruct (put_ok (cu_set_ext None m) n 47 H1 Hu) as (m' & E1 & P1 & P2 & P3 & P4 & P5).
  cbn in P2, P3, P4, P5. exists m'. split; [done|]. split; [|done]. split_and!; try done.
  - lia.
  - by rewrite P3, H3, join_snoc.
  - apply Forall_app. split; [done|]. by apply Forall_singleton.
  - set_solver.
Qed.

Lemma back_slash_ok mem k pre seg :
  take k mem = pre ++ 47 :: seg -> 47 ∉ seg -> (k <= length mem)%nat ->
  back_slash mem k = Some (inl (S (length pre))).
Proof.
  revert k. induction seg as [|c seg IH] using rev_ind; intros k Hk Hs Hl.
  all: destruct k as [|k]; [by destruct pre|].
  all: destruct (lookup_lt_is_Some_2 mem k) as [x Hx]; [lia|].
  all: rewrite (take_S_r _ _ _ Hx) in Hk; cbn [back_slash]; rewrite Hx; cbn [mbind option_bind].
  - apply app_inj_tail in Hk as [Hk ->]. rewrite decide_True by done.
    apply (f_equal length) in Hk. rewrite length_take in Hk. do 2 f_equal. lia.
  - rewrite app_comm_cons, app_assoc in Hk. apply app_inj_tail in Hk as [Hk ->].
    rewrite decide_False by set_solver. apply IH; [done|set_solver|lia].
Qed.

(** The segment before two dots is dropped. *)
Lemma up_tracks m n stack :
  tracks m n stack dot_dot ->
  match stack with
  | [] => cu_up m = Some (inr tt)
  | _ => exists m', cu_up m = Some (inl m') /\ tracks m' n (removelast stack) []
          /\ (cu_u m' <= cu_u m)%nat /\ cu_args m' = cu_args m
  end.
Proof.
  intros H. pose proof (tracks_u _ _ _ _ H) as Hu. destruct H as (H1 & H2 & H3 & H4 & H5 & H6).
  unfold cu_up. destruct stack as [|s0 stack0] eqn:Est.
  { cbn in Hu. by rewrite Hu. }
  rewrite <- Est in *. destruct (exists_last (l := stack)) as (st & seg & E); [by subst|].
  clear Est. rewrite E in *. rewrite removelast_last.
  rewrite join_snoc in H3, Hu. rewrite length_app in Hu. cbn [length dot_dot] in Hu.
  assert (Hk : take (cu_u m - 3) (cu_mem m) = join st ++ 47 :: seg).
  { apply (f_equal (take (cu_u m - 3))) in H3. rewrite take_take in H3.
    rewrite Nat.min_l in H3 by lia. rewrite H3. apply take_app_length'.
    rewrite length_app. cbn [length]. lia. }
  apply Forall_app in H5. destruct H5 as [H5 H7]. apply List.Forall_inv in H7.
  rewrite (back_slash_ok _ _ _ _ Hk H7) by lia. cbn [mbind option_bind].
  eexists. split; [done|]. cbn [cu_set_u cu_u cu_mem cu_ext cu_args]. split; [|split; [lia|done]].
  assert (Hu2 : (S (length (join st)) <= cu_u m - 3)%nat) by (cbn in Hu; lia).
  split_and!; try done.
  - cbn. lia.
  - cbn. apply (f_equal (take (S (length (join st))))) in Hk. rewrite take_take in Hk.
    rewrite Nat.min_l in Hk by done. rewrite Hk.
    change (47 :: seg) with ([47] ++ seg). rewrite app_assoc. apply take_app_length'.
    rewrite length_app. cbn. lia.
  - set_solver.
Qed.

(** A single dot is dropped. *)
Lemma dot_dropped m n stack :
  tracks m n stack dot -> tracks (cu_set_u (cu_u m - 1) m) n stack [].
Proof.
  intros H. pose proof (tracks_u _ _ _ _ H) as Hu. destruct H as (H1 & H2 & H3 & H4 & H5 & H6).
  cbn [length dot] in Hu. split_and!; try done; cbn [cu_set_u cu_u cu_mem].
  - lia.
  - apply (f_equal (take (cu_u m - 1))) in H3. rewrite take_take in H3.
    rewrite Nat.min_l in H3 by lia. rewrite H3. unfold dot.
    change (47 :: [46]) with ([47] ++ [46]). rewrite app_assoc. apply take_app_length'.
    rewrite length_app. cbn. lia.
  - set_solver.
Qed.

(** One character of the decoded path. *)
Definition push (merge : bool) (stack : list (list Z)) (cur : list Z) (c : Z)
  : option (list (list Z) * list Z) :=
  if decide (c = 47) then stack ← close_segment merge stack cur; Some (stack, [])
  else Some (stack, cur ++ [c]).

Lemma resolve_push merge stack cur c path :
  resolve merge stack (segments cur (c :: path)) =
  '(stack, cur) ← push merge stack cur c; resolve merge stack (segments cur path).
Proof.
  unfold push. cbn [segments]. destruct (decide (c = 47)); [|done].
  assert (exists x y, segments [] path = x :: y) as (x & y & E).
  { clear. generalize (@nil Z). induction path as [|a p IH]; intros cur; cbn; [by eexists _, _|].
    case_decide; [by eexists _, _|apply IH]. }
  rewrite E. cbn [resolve]. destruct (close_segment merge stack cur); cbn; [by rewrite E|done].
Qed.

Lemma usual_excluded c : is_byte c -> usual c = true ->
  c <> 47 /\ c <> 46 /\ c <> 37 /\ c <> 63 /\ c <> 35 /\ c <> 43.
Proof. intros H. byte_sweep c H. Qed.

Lemma state_of_cases cur :
  (cur = [] /\ state_of cur = cu_slash) \/ (cur = dot /\ state_of cur = cu_dot)
  \/ (cur = dot_dot /\ state_of cur = cu_dot_dot)
  \/ (state_of cur = cu_usual /\ cur <> [] /\ cur <> dot /\ cur <> dot_dot).
Proof. unfold state_of. repeat case_decide; tauto. Qed.

(** Characters that only extend the segment. *)
Lemma round_other merge m n stack cur qs p c :
  tracks m n stack cur -> (cu_u m < n)%nat -> is_byte c ->
  c <> 47 -> c <> 46 -> c <> 37 -> c <> 63 -> c <> 35 ->
  exists m', cu_round merge (state_of cur) qs p c m = Some (cu_go cu_usual qs m')
    /\ tracks m' n stack (cur ++ [c]) /\ cu_u m' = (cu_u m + 1)%nat /\ cu_args m' = cu_args m.
Proof.
  intros H Hu Hb H1 H2 H3 H4 H5.
  assert (exists m1, cu_round merge (state_of cur) qs p c m
                     = (m ← cu_put c m1; Some (cu_go cu_usual qs m))
            /\ tracks m1 n stack cur /\ cu_u m1 = cu_u m /\ cu_args m1 = cu_args m)
    as (m1 & -> & T1 & U1 & A1).
  { unfold cu_round. destruct (usual c); [by exists m|].
    exists (if decide (c = 43) then cu_set_plus m else m).
    split; [|by case_decide].
    destruct (state_of cur); rewrite ?(decide_False (P := c = 47)), ?(decide_False (P := c = 46)),
      ?(decide_False (P := c = 37)), ?(decide_False (P := c = 63)), ?(decide_False (P := c = 35)),
      ?(decide_False (P := _ \/ _)) by tauto; done. }
  destruct (put_tracks m1 n stack cur c T1) as (m' & E1 & T2 & U2 & A2); [lia|done|done|].
  rewrite E1. cbn [mbind option_bind]. exists m'. split_and!; [done|done|lia|congruence].
Qed.

Lemma round_dot merge m n stack cur qs p :
  tracks m n stack cur -> (cu_u m < n)%nat ->
  exists m', cu_round merge (state_of cur) qs p 46 m = Some (cu_go (state_of (cur ++ [46])) qs m')
    /\ tracks m' n stack (cur ++ [46]) /\ cu_u m' = (cu_u m + 1)%nat /\ cu_args m' = cu_args m.
Proof.
  intros H Hu. rewrite state_of_dot. unfold cu_round. change (usual 46) with false. cbv iota.
  destruct (decide (state_of cur = cu_usual)) as [Es|Es].
  - rewrite Es. cbn.
    destruct (put_ok (cu_set_ext (Some (cu_u m + 1)%nat) m) n 46) as (m' & E1 & P1 & P2 & P3 & P4 & P5).
    { apply H. } { done. }
    rewrite E1. cbn. exists m'. split; [done|]. split; [|done].
    pose proof (tracks_u _ _ _ _ H) as Hu2. destruct H as (H1 & H2 & H3 & H4 & H5 & H6).
    cbn in P2, P3, P4, P5. split_and!; try done.
    + lia.
    + by rewrite P3, H3, <- app_assoc.
    + rewrite P4, ext_pos_snoc, Es, decide_True by done. cbn [option_map]. apply f_equal. lia.
    + set_solver.
  - destruct (put_tracks m n stack cur 46 H Hu) as (m' & E1 & T2 & U2 & A2); [done|done|].
    exists m'. split; [|done].
    destruct (state_of_cases cur) as [[_ E]|[[_ E]|[[_ E]|[E _]]]]; rewrite E in *; try done;
      cbv beta iota zeta;
      rewrite ?(decide_False (P := 46 = 47)), ?(decide_True (P := 46 = 46)),
        ?(decide_False (P := 46 = 37)), ?(decide_False (P := 46 = 43)),
        ?(decide_False (P := _ \/ _)) by (done || lia); by rewrite E1.
Qed.

Lemma round_slash merge m n stack cur qs p :
  tracks m n stack cur -> (cu_u m < n)%nat ->
  match close_segment merge stack cur with
  | None => cu_round merge (state_of cur) qs p 47 m = Some cu_invalid
  | Some stack' =>
      exists m', cu_round merge (state_of cur) qs p 47 m = Some (cu_go cu_slash qs m')
        /\ tracks m' n stack' [] /\ (cu_u m' <= cu_u m + 1)%nat /\ cu_args m' = cu_args m
  end.
Proof.
  intros H Hu. unfold cu_round, close_segment. change (usual 47) with false. cbv iota.
  destruct (state_of_cases cur) as [[-> E]|[[-> E]|[[-> E]|[E (N1 & N2 & N3)]]]]; rewrite E.
  - rewrite !decide_False by done. rewrite decide_True by done.
    rewrite bool_decide_true, andb_true_r by done. destruct merge; cbn.
    + exists m. split_and!; [done|done|lia|done].
    + destruct (slash_tracks _ _ _ _ H Hu) as (m' & E1 & T1 & U1 & A1).
      assert (cu_put 47 m = Some m') as ->.
      { rewrite <- E1. destruct m as [me u ex ar pl qu]. destruct H as (_ & _ & _ & Hx & _).
        cbn in Hx. by subst ex. }
      cbn. exists m'. split_and!; [done|done|lia|done].
  - rewrite decide_True by done. cbn. eexists. split; [done|].
    split; [by apply dot_dropped|]. cbn. split; [lia|done].
  - rewrite decide_False by done. rewrite !decide_True by tauto.
    pose proof (up_tracks _ _ _ H) as Hup. destruct stack as [|s0 st].
    + rewrite Hup. done.
    + destruct Hup as (m' & -> & T1 & U1 & A1). cbn. exists m'. split_and!; [done|done|lia|done].
  - rewrite !decide_False by done. rewrite bool_decide_false, andb_false_r by done.
    rewrite decide_True by done.
    destruct (slash_tracks _ _ _ _ H Hu) as (m' & E1 & T1 & U1 & A1). rewrite E1. cbn.
    exists m'. split_and!; [done|done|lia|done].
Qed.

Lemma round_ok merge m n stack cur qs p c :
  tracks m n stack cur -> (cu_u m < n)%nat -> is_byte c -> c <> 37 -> c <> 63 -> c <> 35 ->
  match push merge stack cur c with
  | None => cu_round merge (state_of cur) qs p c m = Some cu_invalid
  | Some (stack', cur') =>
      exists m', cu_round merge (state_of cur) qs p c m = Some (cu_go (state_of cur') qs m')
        /\ tracks m' n stack' cur' /\ (cu_u m' <= cu_u m + 1)%nat /\ cu_args m' = cu_args m
  end.
Proof.
  intros H Hu Hb H1 H2 H3. unfold push. destruct (decide (c = 47)) as [->|Hs].
  - pose proof (round_slash merge m n stack cur qs p H Hu) as Hr.
    by destruct (close_segment merge stack cur).
  - destruct (decide (c = 46)) as [->|Hd].
    + destruct (round_dot merge m n stack cur qs p H Hu) as (m' & E1 & T1 & U1 & A1).
      exists m'. split_and!; [done|done|lia|done].
    + destruct (round_other merge m n stack cur qs p c H Hu Hb) as (m' & E1 & T1 & U1 & A1); try done.
      exists m'. rewrite state_of_snoc by done. split_and!; [done|done|lia|done].
Qed.
(** *** Escapes *)

Lemma cu_digit_spec ch : is_byte ch ->
  cu_digit ch = if is_hex ch then Some (hex_val ch) else None.
Proof. intros H. byte_sweep ch H. Qed.

Lemma hex_val_range ch : is_byte ch -> is_hex ch = true -> 0 <= hex_val ch < 16.
Proof. intros H. apply (proj2 (proj2 (hex_char_spec ch H))). Qed.

Lemma second_ok merge st d p h m :
  is_byte h -> 0 <= d < 16 ->
  cu_char merge cu_quoted_second st d p h m =
  if is_hex h then
    let v := 16 * d + hex_val h in
    if decide (v = 0) then Some (cu_invalid, d)
    else if decide (v = 37 \/ v = 35 \/ v = 63) then
      m ← cu_put v m; Some (cu_go cu_usual st m, d)
    else n ← cu_round merge st st p v (if decide (v = 43) then cu_set_plus m else m); Some (n, d)
  else Some (cu_invalid, d).
Proof.
  intros Hh Hd. pose proof (hex_char_spec h Hh) as (H1 & H2 & H3). cbn [cu_char].
  rewrite Z.shiftl_mul_pow2 by lia. change (2 ^ 4) with 16.
  destruct (decide (h >= 48 /\ h <= 57)) as [E|E].
  - destruct (H1 E) as [-> ->]. cbv zeta.
    replace (u8 (d * 16 + (h - 48))) with (16 * d + (h - 48))
      by (rewrite u8_small; [lia|unfold is_byte; lia]).
    set (v := 16 * d + (h - 48)). assert (v <> 63 /\ v <> 43) as [V1 V2] by lia.
    rewrite (decide_False (P := v = 43)) by done. destruct (decide (v = 37 \/ v = 35)) as [V|V].
    + rewrite (decide_False (P := v = 0)), (decide_True (P := v = 37 \/ v = 35 \/ v = 63)) by lia. done.
    + destruct (decide (v = 0)); [done|]. by rewrite decide_False by lia.
  - destruct (H2 E) as [H4 H5]. cbv zeta. set (c := u8 (Z.lor h 32)) in *.
    destruct (decide (c >= 97 /\ c <= 102)) as [F|F].
    + destruct (H4 F) as [-> ->].
      replace (u8 (d * 16 + (c - 97) + 10)) with (16 * d + (c - 97 + 10))
        by (rewrite u8_small; [lia|unfold is_byte; lia]).
      set (v := 16 * d + (c - 97 + 10)).
      rewrite (decide_False (P := v = 0)) by lia.
      destruct (decide (v = 63)) as [V|V].
      * by rewrite decide_True by lia.
      * by rewrite (decide_False (P := v = 37 \/ v = 35 \/ v = 63)) by lia.
    + by rewrite (H5 F).
Qed.

Lemma round_percent merge cur qs p m :
  cu_round merge (state_of cur) qs p 37 m = Some (cu_go cu_quoted (state_of cur) m).
Proof.
  unfold cu_round. change (usual 37) with false. cbv iota.
  destruct (state_of_cases cur) as [[_ E]|[[_ E]|[[_ E]|[E _]]]]; rewrite E; reflexivity.
Qed.

Lemma cu_char_unquoted merge cur qs d p c m :
  cu_char merge (state_of cur) qs d p c m = n ← cu_round merge (state_of cur) qs p c m; Some (n, d).
Proof.
  destruct (state_of_cases cur) as [[_ E]|[[_ E]|[[_ E]|[E _]]]]; rewrite E; reflexivity.
Qed.

(** *** The end of the path *)

Definition cu_finish (st : cu_state) (m : cu) : option (cu + unit) :=
  match st with
  | cu_dot => Some (inl (cu_set_u (cu_u m - 1) m)) | cu_dot_dot => cu_up m | _ => Some (inl m)
  end.

Lemma done_ok m n stack cur args :
  tracks m n stack cur ->
  cu_done args m = CuResult (join (stack ++ [cur])) (extension cur) args
    (match args with Some _ => None | None => cu_args m end) (cu_plus m) (cu_quoted_uri m).
Proof.
  intros (H1 & H2 & H3 & H4 & _). unfold cu_done. f_equal.
  - by rewrite H3, join_snoc.
  - rewrite H4. unfold extension. destruct (ext_pos cur) as [k|]; [|done]. cbn [option_map mbind option_bind].
    f_equal. rewrite <- skipn_firstn_comm, H3, drop_app_ge by lia.
    replace (S (length (join stack)) + k - length (join stack))%nat with (S k) by lia. done.
Qed.

Lemma finish_ok merge m n stack cur :
  tracks m n stack cur ->
  match resolve merge stack [cur] with
  | None => cu_finish (state_of cur) m = Some (inr tt)
  | Some segs => exists m', cu_finish (state_of cur) m = Some (inl m') /\ cu_args m' = cu_args m
      /\ exists stack' cur', segs = stack' ++ [cur'] /\ tracks m' n stack' cur'
  end.
Proof.
  intros H. cbn [resolve]. unfold close_segment.
  destruct (state_of_cases cur) as [[-> E]|[[-> E]|[[-> E]|[E (N1 & N2 & N3)]]]]; rewrite E; cbn [cu_finish].
  - rewrite decide_False by (intros [?|?]; done). exists m. split; [done|]. split; [done|]. by exists stack, [].
  - rewrite decide_True by tauto. rewrite decide_True by done. cbn.
    eexists. split; [done|]. split; [done|]. exists stack, []. split; [done|]. by apply dot_dropped.
  - rewrite decide_True by tauto. rewrite decide_False by done. rewrite decide_True by done.
    pose proof (up_tracks _ _ _ H) as Hup. destruct stack as [|s0 st]; [done|].
    destruct Hup as (m' & -> & T1 & U1 & A1). cbn [mbind option_bind].
    exists m'. split; [done|]. split; [done|]. eexists _, []. split; [reflexivity|done].
  - rewrite decide_False by tauto. exists m. split; [done|]. split; [done|]. by exists stack, cur.
Qed.

(** ** The result *)

Definition tail_args (tail : list Z) : option (list Z) :=
  match tail with c :: a => if decide (c = 63) then cut_fragment a else None | [] => None end.

(** The position of the arguments when no fragment follows them, [endp] being
    the one of the end of the target. *)
Definition tail_start (endp : nat) (tail : list Z) : option nat :=
  match tail with
  | c :: a =>
      if decide (c = 63) then
        match cut_fragment a with Some _ => None | None => Some (endp - length a)%nat end
      else None
  | [] => None
  end.

Definition path_result (merge : bool) (endp : nat) (stack : list (list Z)) (cur l : list Z)
    (r : option (cu_result + unit)) : Prop :=
  match decode_target l with
  | None => r = Some (inr tt)
  | Some (path, tail) =>
      match resolve merge stack (segments cur path) with
      | None => r = Some (inr tt)
      | Some segs => exists plus quoted,
          r = Some (inl (CuResult (join segs) (extension (default [] (last segs)))
                           (tail_args tail) (tail_start endp tail) plus quoted))
      end
  end.

(** The bytes of a target up to its arguments or fragment. *)
Fixpoint raw_path (l : list Z) : list Z :=
  match l with
  | [] => []
  | c :: l => if decide (c = 63 \/ c = 35) then [] else c :: raw_path l
  end.

Lemma round_stop merge cur qs p c m :
  c = 63 \/ c = 35 ->
  cu_round merge (state_of cur) qs p c m =
  match cu_finish (state_of cur) m with
  | Some (inl m') => Some (if decide (c = 63) then cu_goto_args (cu_set_args p m') else cu_goto_done m')
  | Some (inr _) => Some cu_invalid
  | None => None
  end.
Proof.
  intros [-> | ->]; unfold cu_round; [change (usual 63) with false|change (usual 35) with false];
    cbv iota; destruct (state_of_cases cur) as [[_ E]|[[_ E]|[[_ E]|[E _]]]]; rewrite E; try reflexivity;
    cbn [cu_finish]; rewrite decide_True by tauto; destruct (cu_up m) as [[]|]; reflexivity.
Qed.

Lemma last_snoc_default (l : list (list Z)) x : default [] (last (l ++ [x])) = x.
Proof. by rewrite last_snoc. Qed.

Lemma loop_nil merge n p m stack cur dec qs :
  tracks m n stack cur -> cu_args m = None ->
  path_result merge (p + 0) stack cur [] (cu_loop merge (state_of cur) qs dec p [] m).
Proof.
  intros H Ha. unfold path_result. cbn [decode_target segments].
  pose proof (finish_ok merge m n stack cur H) as Hf.
  assert (cu_loop merge (state_of cur) qs dec p [] m =
          match cu_finish (state_of cur) m with
          | Some (inl m) => Some (inl (cu_done None m))
          | Some (inr e) => Some (inr e) | None => None end) as ->.
  { destruct (state_of_cases cur) as [[_ E]|[[_ E]|[[_ E]|[E _]]]]; rewrite E; try reflexivity.
    cbn [cu_loop cu_finish]. by destruct (cu_up m) as [[]|]. }
  destruct (resolve merge stack [cur]) as [segs|].
  - destruct Hf as (m' & -> & A1 & st & cu' & -> & T1).
    rewrite (done_ok _ _ _ _ _ T1), last_snoc_default, A1, Ha. by eexists _, _.
  - by rewrite Hf.
Qed.

Lemma loop_stop merge n p m stack cur dec qs c l :
  c = 63 \/ c = 35 -> tracks m n stack cur -> cu_args m = None ->
  path_result merge (p + length (c :: l)) stack cur (c :: l)
    (cu_loop merge (state_of cur) qs dec p (c :: l) m).
Proof.
  intros Hc H Ha. unfold path_result. cbn [decode_target]. rewrite decide_True by done.
  cbn [segments cu_loop]. rewrite cu_char_unquoted, round_stop by done.
  pose proof (finish_ok merge m n stack cur H) as Hf.
  destruct (resolve merge stack [cur]) as [segs|]; [|by rewrite Hf].
  destruct Hf as (m' & -> & A1 & st & cu' & -> & T1). cbn [mbind option_bind].
  rewrite last_snoc_default. unfold tail_args, tail_start. destruct (decide (c = 63)) as [->|Hn].
  - rewrite (done_ok (cu_set_args (p + 1) m') n st cu' _ T1). cbn [cu_set_args cu_args cu_plus cu_quoted_uri length].
    replace (p + S (length l) - length l)%nat with (p + 1)%nat by lia.
    destruct (cut_fragment l); by eexists _, _.
  - rewrite (done_ok _ n st cu' _ T1), A1, Ha. by eexists _, _.
Qed.

(** Going on after a character of the decoded path. *)
Lemma path_result_push merge endp stack cur c path l r stack' cur' :
  push merge stack cur c = Some (stack', cur') ->
  decode_target l = (x ← decode_target path; Some (c :: fst x, snd x)) ->
  path_result merge endp stack' cur' path r -> path_result merge endp stack cur l r.
Proof.
  intros Hp Hd H. unfold path_result in *. rewrite Hd.
  destruct (decode_target path) as [[pa tail]|]; [|done]. cbn [mbind option_bind fst snd].
  rewrite resolve_push, Hp. done.
Qed.

Lemma path_result_invalid merge endp stack cur c path l :
  push merge stack cur c = None ->
  decode_target l = (x ← decode_target path; Some (c :: fst x, snd x)) ->
  path_result merge endp stack cur l (Some (inr tt)).
Proof.
  intros Hp Hd. unfold path_result in *. rewrite Hd.
  destruct (decode_target path) as [[pa tail]|]; [|done]. cbn [mbind option_bind fst snd].
  by rewrite resolve_push, Hp.
Qed.

Lemma loop_ok merge n k : forall l p m stack cur dec qs,
  (length l <= k)%nat -> bytes l -> tracks m n stack cur -> (cu_u m + length (raw_path l) <= n)%nat ->
  cu_args m = None ->
  path_result merge (p + length l) stack cur l (cu_loop merge (state_of cur) qs dec p l m).
Proof.
  induction k as [|k IH]; intros [|c l] p m stack cur dec qs Hk Hb H Hu Ha;
    try (by apply (loop_nil merge n)); [cbn in Hk; lia|].
  destruct (decide (c = 63 \/ c = 35)) as [Hs|Hs]; [by apply (loop_stop merge n)|].
  cbn [raw_path] in Hu. rewrite decide_False in Hu by done.
  apply List.Forall_cons_iff in Hb. destruct Hb as [Hc Hb]. cbn [length] in *.
  destruct (decide (c = 37)) as [->|Hp].
  - (* an escape *)
    cbn [cu_loop]. rewrite cu_char_unquoted, round_percent. cbn [mbind option_bind].
    destruct l as [|h1 l]; cbn [cu_loop]; [done|].
    apply List.Forall_cons_iff in Hb. destruct Hb as [Hh1 Hb].
    assert (Hq : cu_char merge cu_quoted (state_of cur) dec (p + 1 + 1) h1 m
      = if is_hex h1 then Some (cu_go cu_quoted_second (state_of cur) (cu_set_quoted m), hex_val h1)
        else Some (cu_invalid, dec)).
    { cbn [cu_char]. rewrite cu_digit_spec by done. by destruct (is_hex h1). }
    rewrite Hq. destruct (is_hex h1) eqn:X1; cbn [mbind option_bind].
    2:{ unfold path_result. cbn [decode_target]. rewrite decide_False, decide_True by done.
        rewrite X1. by destruct l. }
    destruct l as [|h2 l]; cbn [cu_loop]; [done|].
    apply List.Forall_cons_iff in Hb. destruct Hb as [Hh2 Hb].
    rewrite second_ok by (done || by apply hex_val_range).
    destruct (is_hex h2) eqn:X2; cbn [mbind option_bind].
    2:{ unfold path_result. cbn [decode_target]. rewrite decide_False, decide_True by done.
        by rewrite X1, X2. }
    pose proof (hex_val_range h1 Hh1 X1). pose proof (hex_val_range h2 Hh2 X2).
    cbv zeta. set (v := 16 * hex_val h1 + hex_val h2) in *.
    assert (Hv : is_byte v) by (unfold is_byte; lia).
    destruct (decide (v = 0)) as [V0|V0].
    { unfold path_result. cbn [decode_target]. rewrite decide_False, decide_True by done.
      rewrite X1, X2. fold v. by rewrite bool_decide_true. }
    assert (Hd : decode_target (37 :: h1 :: h2 :: l) = (x ← decode_target l; Some (v :: fst x, snd x))).
    { cbn [decode_target]. rewrite decide_False, decide_True by done. rewrite X1, X2. fold v.
      rewrite bool_decide_false by done. cbn. by destruct (decode_target l) as [[]|]. }
    assert (Hraw : (length (raw_path l) <= length (raw_path (h1 :: h2 :: l)))%nat).
    { cbn [raw_path]. rewrite !decide_False; [cbn; lia| |]; intros [-> | ->]; done. }
    cbn [length] in *.
    replace (p + S (S (S (length l))))%nat with (p + 1 + 1 + 1 + length l)%nat by lia.
    destruct (decide (v = 37 \/ v = 35 \/ v = 63)) as [V|V].
    + destruct (put_tracks (cu_set_quoted m) n stack cur v H) as (m' & E1 & T1 & U1 & A1);
        [cbn; lia|lia|lia|].
      rewrite E1. cbn [mbind option_bind]. cbn in U1, A1.
      apply (path_result_push _ _ stack cur v l _ _ stack (cur ++ [v])); [|done|].
      { unfold push. by rewrite decide_False by lia. }
      rewrite <- (state_of_snoc cur v) by lia. apply IH; [lia|done|done|lia|congruence].
    + set (m1 := if decide (v = 43) then _ else _).
      assert (T : tracks m1 n stack cur /\ cu_u m1 = cu_u m /\ cu_args m1 = cu_args m)
        by (unfold m1; case_decide; exact (conj H (conj eq_refl eq_refl))).
      destruct T as (T & U & A).
      pose proof (round_ok merge m1 n stack cur (state_of cur) (p + 1 + 1 + 1) v T) as Hr.
      destruct (push merge stack cur v) as [[stack' cur']|] eqn:Epush.
      * destruct Hr as (m' & -> & T1 & U1 & A1); [lia|done|tauto|tauto|tauto|].
        cbn [mbind option_bind]. apply (path_result_push _ _ _ _ v l _ _ _ _ Epush Hd).
        apply IH; [lia|done|done|lia|congruence].
      * rewrite Hr by (lia || done || tauto). cbn [mbind option_bind].
        by apply (path_result_invalid _ _ _ _ v l).
  - cbn [cu_loop]. rewrite cu_char_unquoted.
    pose proof (round_ok merge m n stack cur qs (p + 1) c H) as Hr.
    assert (Hd : decode_target (c :: l) = (x ← decode_target l; Some (c :: fst x, snd x))).
    { cbn [decode_target]. rewrite !decide_False by done. by destruct (decode_target l) as [[]|]. }
    destruct (push merge stack cur c) as [[stack' cur']|] eqn:Epush.
    + destruct Hr as (m' & -> & T1 & U1 & A1); [lia|done|done|tauto|tauto|].
      cbn [mbind option_bind]. apply (path_result_push _ _ _ _ c l _ _ _ _ Epush Hd).
      replace (p + S (length l))%nat with (p + 1 + length l)%nat by lia.
      apply IH; [lia|done|done|cbn in Hu; lia|congruence].
    + rewrite Hr by (lia || done || tauto). cbn [mbind option_bind].
      by apply (path_result_invalid _ _ _ _ c l).
Qed.
(** ** Targets that are left as they are *)

Lemma join_app a b : join (a ++ b) = join a ++ join b.
Proof. unfold join. by rewrite map_app, concat_app. Qed.

Lemma join_segments cur path : join (segments cur path) = 47 :: cur ++ path.
Proof.
  revert cur. induction path as [|c path IH]; intros cur; cbn [segments].
  - unfold join. cbn. by rewrite !app_nil_r.
  - destruct (decide (c = 47)) as [->|Hc].
    + change (cur :: segments [] path) with ([cur] ++ segments [] path).
      rewrite join_app, IH. unfold join. cbn. by rewrite app_nil_r.
    + rewrite IH. by rewrite <- app_assoc.
Qed.

(** Flags are never taken back. *)
Lemma uri_switch_flags low st p c u st' u' :
  uri_switch low st p c u = Some (st', u') ->
  (complex_uri u = true -> complex_uri u' = true) /\ (quoted_uri u = true -> quoted_uri u' = true)
  /\ uri_start u' = uri_start u /\ uri_end u' = uri_end u
  /\ empty_path_in_uri u' = empty_path_in_uri u.
Proof.
  unfold uri_switch. intros H.
  destruct st; repeat case_decide; simplify_eq; cbn; tauto.
Qed.

Lemma uri_char_flags st p c u st' u' :
  uri_char st p c u = Some (st', u') ->
  (complex_uri u = true -> complex_uri u' = true) /\ (quoted_uri u = true -> quoted_uri u' = true)
  /\ uri_start u' = uri_start u /\ uri_end u' = uri_end u
  /\ empty_path_in_uri u' = empty_path_in_uri u.
Proof.
  unfold uri_char. destruct (usual c).
  - intros [= <- <-]. tauto.
  - apply uri_switch_flags.
Qed.

Lemma uri_loop_flags st p l u u' :
  uri_loop st p l u = Some u' ->
  (complex_uri u = true -> complex_uri u' = true) /\ (quoted_uri u = true -> quoted_uri u' = true)
  /\ uri_start u' = uri_start u /\ uri_end u' = uri_end u
  /\ empty_path_in_uri u' = empty_path_in_uri u.
Proof.
  revert st p u. induction l as [|c l IH]; intros st p u; cbn [uri_loop].
  - intros [= <-]. tauto.
  - destruct (uri_char st p c u) as [[st1 u1]|] eqn:E; [|done]. cbn [mbind option_bind].
    intros H. apply uri_char_flags in E. apply IH in H.
    destruct E as (E1 & E2 & E3 & E4 & E5), H as (H1 & H2 & H3 & H4 & H5).
    rewrite H3, H4, H5, E3, E4, E5. split_and!; try done; tauto.
Qed.
Lemma usual_special c : c = 35 \/ c = 37 \/ c = 43 \/ c = 46 \/ c = 47 \/ c = 63 -> usual c = false.
Proof. intros H. repeat destruct H as [->|H]; try reflexivity. by subst. Qed.

(** After the question mark. *)
Lemma uri_query p l u u' :
  uri_loop sw_uri p l u = Some u' -> complex_uri u' = false ->
  cut_fragment l = None /\ args_start u' = args_start u /\ uri_ext u' = uri_ext u.
Proof.
  revert p u. induction l as [|c l IH]; intros p u; cbn [uri_loop cut_fragment].
  - by intros [= <-].
  - destruct (uri_char sw_uri p c u) as [[st1 u1]|] eqn:E; [|done]. cbn [mbind option_bind].
    intros H Hc. destruct (decide (c = 35)) as [->|Hn].
    { exfalso. injection E as <- <-. apply uri_loop_flags in H. destruct H as [H _].
      rewrite H in Hc; done. }
    assert (st1 = sw_uri /\ u1 = u) as [-> ->].
    { unfold uri_char in E. destruct (usual c); [by simplify_eq|].
      cbn in E. repeat case_decide; by simplify_eq. }
    destruct (IH _ _ H Hc) as (-> & ? & ?). done.
Qed.

(** The beginning of a segment in the states before the question mark. *)
Definition plain (st : uri_state) (cur : list Z) : Prop :=
  match st with
  | sw_after_slash_in_uri => Forall (fun c => c = 43) cur
  | sw_check_uri => match cur with [] => False | c :: _ => c <> 46 end
  | sw_uri => False
  end.

Lemma plain_cur st cur : plain st cur -> cur <> dot /\ cur <> dot_dot.
Proof.
  destruct st; cbn; [|destruct cur; [done|]|done].
  - intros H. split; intros ->; apply List.Forall_inv in H; done.
  - intros H. split; unfold dot, dot_dot; congruence.
Qed.

Lemma plain_state st cur : plain st cur -> state_of cur = match cur with [] => cu_slash | _ => cu_usual end.
Proof.
  intros H. destruct (plain_cur st cur H) as [H1 H2]. unfold state_of.
  rewrite (decide_False (P := cur = dot)), (decide_False (P := cur = dot_dot)) by done.
  by destruct cur.
Qed.

Lemma plain_snoc st cur c : plain st cur -> c <> 46 -> plain sw_check_uri (cur ++ [c]).
Proof.
  destruct cur as [|a cur]; cbn; [done|]. intros H Hc. destruct st; cbn in H; [|done|done].
  apply List.Forall_inv in H. by subst.
Qed.

Lemma uri_char_plain st p c u st1 u1 cur :
  uri_char st p c u = Some (st1, u1) -> complex_uri u1 = false -> quoted_uri u1 = false ->
  plain st cur -> c <> 63 -> c <> 47 ->
  c <> 35 /\ c <> 37 /\ plain st1 (cur ++ [c])
  /\ (if decide (c = 46) then st = sw_check_uri /\ u1 = set_uri_ext (Some (p + 1)%nat) u
      else uri_ext u1 = uri_ext u /\ args_start u1 = args_start u).
Proof.
  unfold uri_char. intros E C Q Hpl N63 N47. destruct (usual c) eqn:Eu.
  - injection E as <- <-.
    assert (c <> 35 /\ c <> 37 /\ c <> 46) as (? & ? & ?).
    { split_and!; intros ->; rewrite usual_special in Eu by tauto; done. }
    rewrite decide_False by done. split_and!; try done.
    destruct st; [| |by destruct Hpl]; by apply (plain_snoc _ _ _ Hpl).
  - destruct st; [| |by destruct Hpl]; cbn in E; repeat case_decide; simplify_eq; try done.
    all: assert (Hs : forall c, c <> 46 -> plain sw_check_uri (cur ++ [c]))
      by (intros; eapply plain_snoc; done).
    all: refine (conj _ (conj _ (conj _ _))); try done; try (by apply Hs).
    + apply Forall_app. split; [done|]. repeat constructor.
    + cbn in Hpl. by destruct cur.
Qed.

(** What a target that is left as it is looks like to the machine. *)
Lemma uri_loop_plain l : forall st p cur base u u',
  uri_loop st p l u = Some u' -> complex_uri u' = false -> quoted_uri u' = false ->
  plain st cur -> args_start u = None -> p = (base + length cur)%nat ->
  uri_ext u = option_map (Nat.add base) (ext_pos cur) ->
  exists path tail segs seg, l = path ++ tail /\ decode_target l = Some (path, tail) /\ raw_path l = path
    /\ segments cur path = segs ++ [seg]
    /\ (forall merge stack, resolve merge stack (segments cur path) = Some (stack ++ segments cur path))
    /\ (tail = [] /\ args_start u' = None
        \/ exists a, tail = 63 :: a /\ cut_fragment a = None /\ args_start u' = Some (p + length path + 1)%nat)
    /\ uri_ext u' = option_map (Nat.add (p + length path - length seg)) (ext_pos seg).
Proof.
  induction l as [|c l IH]; intros st p cur base u u' H Hc Hq Hpl Ha Hp He.
  - cbn in H. injection H as <-. destruct (plain_cur _ _ Hpl) as [N1 N2].
    exists [], [], [], cur. split_and!; try done.
    + intros merge stack. cbn. by rewrite decide_False by tauto.
    + by left.
    + rewrite He. cbn. by replace (p + 0 - length cur)%nat with base by lia.
  - cbn [uri_loop] in H. destruct (uri_char st p c u) as [[st1 u1]|] eqn:E; [|done].
    cbn [mbind option_bind] in H.
    pose proof (uri_loop_flags _ _ _ _ _ H) as (F1 & F2 & _).
    assert (C1 : complex_uri u1 = false) by (destruct (complex_uri u1); [by rewrite F1 in Hc|done]).
    assert (Q1 : quoted_uri u1 = false) by (destruct (quoted_uri u1); [by rewrite F2 in Hq|done]).
    destruct (decide (c = 63)) as [->|Hn63].
    + (* the question mark *)
      assert (st1 = sw_uri /\ u1 = set_args_start (p + 1) u) as [-> ->].
      { unfold uri_char in E. rewrite usual_special in E by tauto. destruct st; [| |by destruct Hpl]; cbn in E; repeat case_decide; by simplify_eq. }
      destruct (uri_query _ _ _ _ H Hc) as (A1 & A2 & A3). destruct (plain_cur _ _ Hpl) as [N1 N2].
      exists [], (63 :: l), [], cur. split_and!; try done.
      * intros merge stack. cbn. by rewrite decide_False by tauto.
      * right. exists l. rewrite A2. cbn. by rewrite Nat.add_0_r.
      * rewrite A3. cbn. rewrite He. by replace (p + 0 - length cur)%nat with base by lia.
    + destruct (decide (c = 47)) as [->|Hn47].
      * (* a slash *)
        assert (st = sw_check_uri /\ st1 = sw_after_slash_in_uri /\ u1 = set_uri_ext None u)
          as (-> & -> & ->).
        { unfold uri_char in E. rewrite usual_special in E by tauto.
          destruct st; [| |by destruct Hpl]; cbn in E; repeat case_decide; simplify_eq; done. }
        destruct (IH _ (p + 1)%nat [] (p + 1)%nat _ _ H) as (path & tail & segs & seg & E1 & E2 & E3 & E4 & E5 & E6 & E7);
          try done; [apply List.Forall_nil|].
        destruct (plain_cur _ _ Hpl) as [N1 N2].
        exists (47 :: path), tail, (cur :: segs), seg. split_and!.
        -- by rewrite E1.
        -- cbn [decode_target]. rewrite !decide_False by lia. by rewrite E2.
        -- cbn [raw_path]. rewrite decide_False by lia. by rewrite E3.
        -- cbn [segments]. rewrite decide_True by done. by rewrite E4.
        -- intros merge stack. cbn [segments]. rewrite decide_True by done.
           cbn [resolve]. rewrite E4. destruct segs as [|s0 segs]; cbn [app].
           all: unfold close_segment; rewrite !decide_False by done;
             rewrite bool_decide_false, andb_false_r by (intros ->; done); cbn [mbind option_bind].
           all: pose proof (E5 merge (stack ++ [cur])) as E8; rewrite E4 in E8; cbn [app] in E8;
             by rewrite E8, <- app_assoc.
        -- destruct E6 as [E6|(a & -> & A2 & A3)]; [by left|right]. exists a.
           split; [done|]. split; [done|]. rewrite A3. cbn. f_equal. lia.
        -- rewrite E7. cbn. by replace (p + 1 + length path - length seg)%nat
             with (p + S (length path) - length seg)%nat by lia.
      * (* a character of the segment *)
        assert (Hp1 : c <> 35 /\ c <> 37 /\ plain st1 (cur ++ [c])
          /\ (if decide (c = 46) then st = sw_check_uri /\ u1 = set_uri_ext (Some (p + 1)%nat) u
              else uri_ext u1 = uri_ext u /\ args_start u1 = args_start u)).
        { by apply (uri_char_plain st p c u). }
        destruct Hp1 as (N35 & N37 & Hp1 & Hu1).
        destruct (IH _ (p + 1)%nat (cur ++ [c]) base _ _ H) as (path & tail & segs & seg & E1 & E2 & E3 & E4 & E5 & E6 & E7);
          try done.
        { case_decide; [destruct Hu1 as [_ ->]; done|]. by destruct Hu1 as [_ ->]. }
        { rewrite length_app. cbn. lia. }
        { rewrite ext_pos_snoc, (plain_state _ _ Hpl). case_decide as E46.
          - destruct Hu1 as [-> ->]. destruct cur; [done|]. cbn. f_equal. cbn in Hp. lia.
          - destruct Hu1 as [-> _]. rewrite He. by destruct cur. }
        exists (c :: path), tail, segs, seg. split_and!; try done.
        -- by rewrite E1.
        -- cbn [decode_target]. rewrite !decide_False by tauto. by rewrite E2.
        -- cbn [raw_path]. rewrite decide_False by tauto. by rewrite E3.
        -- cbn [segments]. by rewrite decide_False by done.
        -- intros merge stack. cbn [segments]. rewrite decide_False by done. apply E5.
        -- destruct E6 as [E6|(a & -> & A2 & A3)]; [by left|right]. exists a.
           split; [done|]. split; [done|]. rewrite A3. cbn. f_equal. lia.
        -- rewrite E7. cbn. by replace (p + 1 + length path - length seg)%nat
             with (p + S (length path) - length seg)%nat by lia.
Qed.

(** The arguments start after the path. *)
Lemma uri_loop_args l : forall st p u u' a,
  uri_loop st p l u = Some u' -> args_start u = None -> args_start u' = Some a ->
  a = (p + length (raw_path l) + 1)%nat.
Proof.
  assert (Hu : forall l p u u', uri_loop sw_uri p l u = Some u' -> args_start u' = args_start u).
  { clear l. induction l as [|c l IH]; intros p u u'; cbn [uri_loop]; [by intros [= <-]|].
    destruct (uri_char sw_uri p c u) as [[st1 u1]|] eqn:E; [|done]. cbn [mbind option_bind].
    intros H. unfold uri_char in E. destruct (usual c); [simplify_eq; by apply IH in H|].
    cbn in E. repeat case_decide; simplify_eq; apply IH in H; done. }
  induction l as [|c l IH]; intros st p u u' a; cbn [uri_loop].
  - intros [= <-]. congruence.
  - destruct (uri_char st p c u) as [[st1 u1]|] eqn:E; [|done]. cbn [mbind option_bind].
    intros H Ha Ha'. cbn [raw_path].
    assert (Hcase : (c = 63 /\ st1 = sw_uri /\ args_start u1 = Some (p + 1)%nat)
      \/ (st1 = sw_uri /\ args_start u1 = None)
      \/ (c <> 63 /\ c <> 35 /\ args_start u1 = None)).
    { unfold uri_char in E. destruct (usual c) eqn:Eu.
      - right; right. injection E as <- <-.
        split_and!; [intros ->|intros ->|done]; rewrite usual_special in Eu by tauto; done.
      - destruct st; cbn in E; repeat case_decide; simplify_eq; cbn;
          first [tauto|right; right; split_and!; [lia|lia|done]]. }
    destruct Hcase as [(-> & -> & H1)|[(-> & H1)|(H1 & H2 & H3)]].
    + apply Hu in H. rewrite H, H1 in Ha'. injection Ha' as <-.
      rewrite decide_True by tauto. cbn. lia.
    + apply Hu in H. congruence.
    + rewrite decide_False by tauto. rewrite (IH _ _ _ _ _ H H3 Ha'). cbn. lia.
Qed.

Lemma length_raw_path l : (length (raw_path l) <= length l)%nat.
Proof. induction l as [|c l IH]; cbn; [lia|]. case_decide; cbn; lia. Qed.

(** Segments that are kept are not dot segments. *)
Definition clean (seg : list Z) : Prop := seg <> dot /\ seg <> dot_dot /\ 47 ∉ seg.

Lemma segments_no_slash cur path : 47 ∉ cur -> Forall (fun s => 47 ∉ s) (segments cur path).
Proof.
  revert cur. induction path as [|c path IH]; intros cur H; cbn [segments].
  - by apply List.Forall_cons; [|apply List.Forall_nil].
  - case_decide.
    + apply List.Forall_cons; [done|]. apply IH. set_solver.
    + apply IH. set_solver.
Qed.

Lemma Forall_removelast {A} (P : A -> Prop) l : Forall P l -> Forall P (removelast l).
Proof.
  intros H. rewrite List.Forall_forall in *. intros x Hx. apply H. clear H.
  induction l as [|a l IH]; [done|]. cbn in Hx. destruct l; [done|].
  destruct Hx as [->|Hx]; [by left|right; auto].
Qed.

Lemma resolve_clean merge stack segs out :
  resolve merge stack segs = Some out -> Forall clean stack -> Forall (fun s => 47 ∉ s) segs ->
  Forall clean out.
Proof.
  revert stack. induction segs as [|cur segs IH]; intros stack H Hs Hg.
  - by injection H as <-.
  - apply List.Forall_cons_iff in Hg. destruct Hg as [Hc Hg].
    assert (Hclose : forall st, close_segment merge stack cur = Some st -> Forall clean st).
    { intros st. unfold close_segment. case_decide; [by intros [= <-]|].
      case_decide.
      - intros E. apply Forall_removelast in Hs. destruct stack; [done|]. by apply Some_inv in E as <-.
      - destruct (merge && _); intros [= <-]; [done|]. apply Forall_app. split; [done|].
        by apply List.Forall_cons; [|apply List.Forall_nil]. }
    assert (He : clean []) by (split_and!; [done|done|set_solver]).
    destruct segs as [|s1 segs]; cbn [resolve] in H.
    + case_decide as Hd.
      * destruct (close_segment merge stack cur) as [st|]; [|done]. injection H as <-.
        apply Forall_app. split; [by apply Hclose|]. by apply List.Forall_cons; [|apply List.Forall_nil].
      * injection H as <-. apply Forall_app. split; [done|].
        apply List.Forall_cons; [|apply List.Forall_nil]. split_and!; [tauto|tauto|done].
    + destruct (close_segment merge stack cur) as [st|]; [|done]. cbn [mbind option_bind] in H.
      apply (IH st); [done|by apply Hclose|done].
Qed.

Lemma complex_ok merge mem p l u :
  bytes l -> (S (length (raw_path l)) <= length mem)%nat -> empty_path_in_uri u = false ->
  path_result merge (p + S (length l)) [] [] l
    (ngx_http_parse_complex_uri merge mem p (47 :: l) u).
Proof.
  intros Hb Hn He. unfold ngx_http_parse_complex_uri. rewrite He. cbn [mbind option_bind].
  cbn [cu_loop cu_char]. unfold cu_round. change (usual 47) with false. cbv iota.
  rewrite (decide_True (P := 47 = 47)) by done.
  destruct (put_ok (cu_set_ext None (Cu mem 0 None None (plus_in_uri u) (quoted_uri u))) (length mem) 47)
    as (m' & E1 & P1 & P2 & P3 & P4 & P5); [done|cbn; lia|].
  rewrite E1. cbn [mbind option_bind]. cbn in P2, P3, P4, P5.
  replace (p + S (length l))%nat with (p + 1 + length l)%nat by lia.
  change cu_slash with (state_of []). apply (loop_ok merge (length mem) (length l)); [done|done| |lia|done].
  split_and!; try done; [lia|set_solver].
Qed.
(** ** Properties *)

Lemma slice_app buf s e a b c :
  slice buf s e = a ++ b ++ c -> slice buf (s + length a) (s + length a + length b) = b.
Proof.
  unfold slice. intros H.
  assert (E : drop s buf = a ++ b ++ c ++ drop (e - s) (drop s buf)).
  { rewrite <- (take_drop (e - s) (drop s buf)) at 1. by rewrite H, <- !app_assoc. }
  rewrite <- drop_drop, E, drop_app_length.
  replace (s + length a + length b - (s + length a))%nat with (length b) by lia.
  apply take_app_length.
Qed.

Lemma after_dot_le i l k : after_dot i l = Some k -> (k <= i + length l)%nat.
Proof.
  revert i k. induction l as [|c l IH]; intros i k; cbn; [done|].
  destruct (after_dot (S i) l) eqn:E.
  - intros [= <-]. apply IH in E. lia.
  - case_decide; [|done]. intros [= <-]. lia.
Qed.

Lemma ext_pos_le seg k : ext_pos seg = Some k -> (k <= length seg)%nat.
Proof.
  destruct seg as [|a [|b [|c l]]]; cbn [ext_pos]; try done.
  - case_decide; [done|]. apply after_dot_le.
  - case_decide; [case_decide|]; intros Hd; apply after_dot_le in Hd; cbn in *; lia.
Qed.

Lemma process_simple merge alloc buf s e l path tail segs seg u :
  slice buf s e = 47 :: l -> (s <= e <= length buf)%nat ->
  l = path ++ tail -> decode_target l = Some (path, tail) -> raw_path l = path ->
  segments [] path = segs ++ [seg] ->
  (forall stack, resolve merge stack (segments [] path) = Some (stack ++ segments [] path)) ->
  (tail = [] /\ args_start u = None
   \/ exists a, tail = 63 :: a /\ cut_fragment a = None /\ args_start u = Some (s + 1 + length path + 1)%nat) ->
  uri_ext u = option_map (Nat.add (s + 1 + length path - length seg)) (ext_pos seg) ->
  uri_start u = Some s -> uri_end u = Some e -> empty_path_in_uri u = false ->
  bytes l -> (forall n, length (alloc n) = n) ->
  complex_uri u = false -> quoted_uri u = false ->
  ngx_http_process_request_uri merge alloc buf u
  = ngx_http_process_request_uri merge alloc buf (set_complex_uri u).
Proof.
  intros Hs Hse E1 E2 E3 E4 E5 E6 E7 Us Ue Up Hb Hal Hc Hq.
  assert (Hlen : (e - s = S (length l))%nat).
  { apply (f_equal length) in Hs. unfold slice in Hs. rewrite length_take, length_drop in Hs.
    cbn in Hs. lia. }
  unfold ngx_http_process_request_uri. cbn [set_complex_uri uri_start uri_end args_start complex_uri
    quoted_uri empty_path_in_uri uri_ext orb]. rewrite Us, Ue, Hc, Hq, Up. cbn [mbind option_bind orb].
  set (len := match args_start u with Some a => _ | None => _ end).
  assert (Elen : len = S (length path)).
  { unfold len. destruct E6 as [[-> ->]|(a & -> & _ & ->)]; [|lia].
    rewrite Hlen, E1, app_nil_r. done. }
  rewrite Hs.
  assert (Hpos : (S (length (raw_path l)) <= length (alloc len))%nat) by (rewrite Hal, Elen, E3; lia).
  pose proof (complex_ok merge (alloc len) s l (set_complex_uri u) Hb Hpos Up) as Hr.
  unfold path_result in Hr. rewrite E2, E5, E4, app_nil_l, last_snoc_default in Hr.
  destruct Hr as (pl & qu & ->). cbn [mbind option_bind cr_uri cr_exten cr_args cr_args_start].
  assert (Hj : 47 :: path = join segs ++ 47 :: seg).
  { rewrite <- join_snoc, <- E4. by rewrite join_segments. }
  assert (Huri : take len (drop s buf) = join (segs ++ [seg])).
  { rewrite join_snoc, <- Hj, Elen.
    change (take (S (length path)) (drop s buf)) with (take (length (47 :: path)) (drop s buf)).
    assert (drop s buf = (47 :: path) ++ tail ++ drop (e - s) (drop s buf)) as ->.
    { rewrite <- (take_drop (e - s) (drop s buf)) at 1. unfold slice in Hs. rewrite Hs, E1. cbn [app].
      by rewrite <- app_assoc. }
    apply take_app_length. }
  assert (Hl : (length l = length path + length tail)%nat) by (rewrite E1; apply length_app).
  rewrite Huri. do 3 f_equal.
  - assert (match args_start u with Some a => a - 1 | None => e end = s + 1 + length path)%nat as ->.
    { destruct E6 as [[-> ->]|(a & -> & _ & ->)]; cbn in *; lia. }
    rewrite E7. unfold extension. destruct (ext_pos seg) as [k|] eqn:Ek; [|done]. cbn.
    pose proof (ext_pos_le _ _ Ek). apply (f_equal length) in Hj as Hjl.
    rewrite length_app in Hjl. cbn in Hjl.
    pose proof (slice_app buf s e (join segs ++ 47 :: take k seg) (drop k seg) tail) as Hsl.
    rewrite length_app in Hsl. cbn [length] in Hsl. rewrite length_take, length_drop in Hsl.
    replace (s + 1 + length path - length seg + k)%nat with (s + (length (join segs) + S (k `min` length seg)))%nat by lia.
    replace (s + 1 + length path)%nat
      with (s + (length (join segs) + S (k `min` length seg)) + (length seg - k))%nat by lia.
    apply Hsl. rewrite Hs, E1, <- app_assoc. cbn [app]. rewrite app_assoc, take_drop.
    rewrite app_comm_cons, Hj, <- app_assoc. done.
  - destruct E6 as [[-> ->]|(a & -> & Ha & ->)]; [done|]. cbn. rewrite Ha. cbn in Hl.
    by replace (s + S (length l) - length a)%nat with (s + 1 + length path + 1)%nat by lia.
Qed.
(** The fields of a request before its target is scanned. *)
Definition uri_init (s e : nat) : uri_t := Uri (Some s) (Some e) None None false false false false.

Lemma parse_uri_loop s l u :
  ngx_http_parse_uri s (47 :: l) u = uri_loop sw_after_slash_in_uri (s + 1) l u.
Proof. reflexivity. Qed.

Lemma uri_loop_simple merge alloc buf s e l u :
  slice buf s e = 47 :: l -> (s <= e <= length buf)%nat -> bytes l ->
  (forall n, length (alloc n) = n) ->
  uri_loop sw_after_slash_in_uri (s + 1) l (uri_init s e) = Some u ->
  complex_uri u = false -> quoted_uri u = false ->
  ngx_http_process_request_uri merge alloc buf u
  = ngx_http_process_request_uri merge alloc buf (set_complex_uri u).
Proof.
  intros Hs Hse Hb Hal H Hc Hq. pose proof (uri_loop_flags _ _ _ _ _ H) as (_ & _ & Us & Ue & Up).
  destruct (uri_loop_plain l _ _ [] (s + 1) _ _ H) as (path & tail & segs & seg & E1 & E2 & E3 & E4 & E5 & E6 & E7);
    try done; [apply List.Forall_nil|].
  exact (process_simple merge alloc buf s e l path tail segs seg u Hs Hse E1 E2 E3 E4
    (E5 merge) E6 E7 Us Ue Up Hb Hal Hc Hq).
Qed.

(** With merged slashes the only segment that may be empty is the last one. *)
Definition merged (merge : bool) (segs : list (list Z)) : Prop :=
  merge = true -> Forall (fun seg => seg <> []) (removelast segs).

(** The normalised path is a slash and a segment, once or more; no segment is a
    dot segment, and slashes have been merged on demand. *)
Definition safe_target (merge : bool) (r : option (target + unit)) : Prop :=
  match r with
  | Some (inl t) =>
      exists segs, t_uri t = join segs /\ segs <> [] /\ Forall clean segs /\ merged merge segs
  | Some (inr _) => True
  | None => False
  end.

Lemma close_segment_merged stack cur out :
  close_segment true stack cur = Some out ->
  Forall (fun seg => seg <> []) stack -> Forall (fun seg => seg <> []) out.
Proof.
  unfold close_segment. intros E Hs. case_decide; [by injection E as <-|]. case_decide.
  - apply Forall_removelast in Hs. destruct stack; [done|]. by apply Some_inv in E as <-.
  - case_bool_decide; cbn in E; injection E as <-; [done|].
    apply Forall_app. split; [done|]. by apply List.Forall_cons; [|apply List.Forall_nil].
Qed.

Lemma resolve_merged merge segs : forall stack out,
  resolve merge stack segs = Some out ->
  (merge = true -> Forall (fun seg => seg <> []) stack) -> merged merge out.
Proof.
  induction segs as [|cur segs IH]; intros stack out H Hs Hm; specialize (Hs Hm); subst merge.
  - injection H as <-. by apply Forall_removelast.
  - destruct segs as [|s1 segs]; cbn [resolve] in H.
    + case_decide.
      * destruct (close_segment true stack cur) as [st|] eqn:E; [|done]. injection H as <-.
        rewrite removelast_last. by apply (close_segment_merged stack cur).
      * injection H as <-. by rewrite removelast_last.
    + destruct (close_segment true stack cur) as [st|] eqn:E; [|done].
      apply (IH st out H); [|done]. intros _. by apply (close_segment_merged stack cur).
Qed.

Lemma resolve_nonempty merge stack segs out :
  resolve merge stack segs = Some out -> segs <> [] -> out <> [].
Proof.
  revert stack. induction segs as [|cur [|s1 segs] IH]; intros stack H Hn; [done| |].
  - cbn in H. case_decide.
    + destruct (close_segment merge stack cur); [|done]. injection H as <-. by destruct l.
    + injection H as <-. by destruct stack.
  - cbn [resolve] in H. destruct (close_segment merge stack cur); [|done]. by apply (IH l).
Qed.

Lemma process_complex_safe merge alloc buf s e l u :
  slice buf s e = 47 :: l -> (s <= e <= length buf)%nat -> bytes l ->
  (forall n, length (alloc n) = n) ->
  uri_loop sw_after_slash_in_uri (s + 1) l (uri_init s e) = Some u ->
  safe_target merge (ngx_http_process_request_uri merge alloc buf (set_complex_uri u)).
Proof.
  intros Hs Hse Hb Hal H. pose proof (uri_loop_flags _ _ _ _ _ H) as (_ & _ & Us & Ue & Up).
  assert (Hlen : (e - s = S (length l))%nat).
  { apply (f_equal length) in Hs. unfold slice in Hs. rewrite length_take, length_drop in Hs.
    cbn in Hs. lia. }
  unfold ngx_http_process_request_uri. cbn [set_complex_uri uri_start uri_end args_start complex_uri
    quoted_uri empty_path_in_uri uri_ext orb]. rewrite Us, Ue, Up. cbn [mbind option_bind orb uri_init empty_path_in_uri uri_start uri_end].
  set (len := match args_start u with Some a => _ | None => _ end).
  assert (Hpos : (S (length (raw_path l)) <= length (alloc len))%nat).
  { rewrite Hal. unfold len. destruct (args_start u) as [a|] eqn:Ea.
    - rewrite (uri_loop_args l _ _ _ _ _ H eq_refl Ea). lia.
    - pose proof (length_raw_path l). lia. }
  rewrite Hs.
  pose proof (complex_ok merge (alloc len) s l (set_complex_uri u) Hb Hpos Up) as Hr.
  unfold path_result in Hr. destruct (decode_target l) as [[path tail]|]; [|by rewrite Hr].
  destruct (resolve merge [] (segments [] path)) as [segs|] eqn:Er; [|by rewrite Hr].
  destruct Hr as (pl & qu & ->). cbn [mbind option_bind safe_target t_uri cr_uri].
  exists segs. split_and!; [done| | |].
  - apply (resolve_nonempty _ _ _ _ Er). destruct path as [|c p]; cbn; [done|]. case_decide; [done|].
    clear. generalize [c]. induction p as [|a p IH]; intros cur; cbn; [done|]. case_decide; [done|apply IH].
  - apply (resolve_clean _ _ _ _ Er); [apply List.Forall_nil|]. apply segments_no_slash. set_solver.
  - apply (resolve_merged _ _ _ _ Er). intros _. apply List.Forall_nil.
Qed.

(** C7: the normalising state machine. For every target that starts with a slash
    it computes the decoded path with its dot segments resolved and, on demand,
    its slashes merged, the extension of the last segment and the arguments, or
    returns [NGX_HTTP_PARSE_INVALID_REQUEST] when an escape is malformed or two
    dots go above the root; it never reads or writes outside of a buffer of the
    length of the path that is not decoded. *)
Theorem complex_uri_exact merge mem p l u :
  bytes l -> (S (length (raw_path l)) <= length mem)%nat -> empty_path_in_uri u = false ->
  path_result merge (p + S (length l)) [] [] l
    (ngx_http_parse_complex_uri merge mem p (47 :: l) u).
Proof. apply complex_ok. Qed.

Lemma complex_uri_exact_witness :
  exists plus quoted,
    ngx_http_parse_complex_uri true (replicate 30 0) 4 (bstr "/a/./b//%2e%2e/c.%64.txt?x#f") uri_zero
    = Some (inl (CuResult (bstr "/a/c.d.txt") (Some (bstr "txt")) (Some (bstr "x")) None plus quoted)).
Proof.
  refine (complex_uri_exact true (replicate 30 0) 4 (bstr "a/./b//%2e%2e/c.%64.txt?x#f") uri_zero _ _ _).
  - by_decide.
  - vm_compute. lia.
  - reflexivity.
Defined.

(** The shortcut. When the scan of a target sets neither [complex_uri] nor
    [quoted_uri], taking the target as it is gives the same path, extension and
    arguments as the normalising state machine. *)
Theorem uri_shortcut merge alloc buf s e l u :
  slice buf s e = 47 :: l -> (s <= e <= length buf)%nat -> bytes l ->
  (forall n, length (alloc n) = n) ->
  ngx_http_parse_uri s (47 :: l) (uri_init s e) = Some u ->
  complex_uri u = false -> quoted_uri u = false ->
  ngx_http_process_request_uri merge alloc buf u
  = ngx_http_process_request_uri merge alloc buf (set_complex_uri u).
Proof. rewrite parse_uri_loop. apply uri_loop_simple. Qed.

Lemma uri_shortcut_witness :
  exists u, ngx_http_parse_uri 4 (bstr "/a.b/c.txt?x=/../") (uri_init 4 21) = Some u
  /\ ngx_http_process_request_uri false (fun n => replicate n 0) (bstr "GET /a.b/c.txt?x=/../ HTTP/1.0") u
    = ngx_http_process_request_uri false (fun n => replicate n 0) (bstr "GET /a.b/c.txt?x=/../ HTTP/1.0")
        (set_complex_uri u).
Proof.
  eexists. split; [reflexivity|].
  apply (uri_shortcut false (fun n => replicate n 0) (bstr "GET /a.b/c.txt?x=/../ HTTP/1.0") 4 21
           (bstr "a.b/c.txt?x=/../")).
  - reflexivity.
  - vm_compute. lia.
  - by_decide.
  - intros n. apply length_replicate.
  - reflexivity.
  - reflexivity.
  - reflexivity.
Defined.

(** C1: no traversal. When a target is accepted, the path that the request gets
    is a sequence of segments, each after a slash, of which none is a dot
    segment, whichever way it was computed, escapes included; and when slashes
    are merged none but the last is empty, so that no two slashes are adjacent.
    No memory outside of the buffers is read or written on the way. *)
Theorem uri_no_traversal merge alloc buf s e l u :
  slice buf s e = 47 :: l -> (s <= e <= length buf)%nat -> bytes l ->
  (forall n, length (alloc n) = n) ->
  ngx_http_parse_uri s (47 :: l) (uri_init s e) = Some u ->
  safe_target merge (ngx_http_process_request_uri merge alloc buf u).
Proof.
  rewrite parse_uri_loop. intros Hs Hse Hb Hal H.
  pose proof (process_complex_safe merge alloc buf s e l u Hs Hse Hb Hal H) as Hc.
  pose proof (uri_loop_flags _ _ _ _ _ H) as (_ & _ & _ & _ & Up).
  destruct (complex_uri u || quoted_uri u) eqn:Ef.
  - unfold ngx_http_process_request_uri in *. cbn [set_complex_uri uri_start uri_end args_start complex_uri
      quoted_uri empty_path_in_uri uri_ext orb] in Hc. rewrite Ef. exact Hc.
  - apply orb_false_iff in Ef. destruct Ef as [E1 E2].
    by rewrite (uri_loop_simple merge alloc buf s e l u Hs Hse Hb Hal H E1 E2).
Qed.

Lemma uri_no_traversal_witness :
  exists u, ngx_http_parse_uri 4 (bstr "/a/b//%2E./etc//b/") (uri_init 4 22) = Some u
  /\ safe_target true (ngx_http_process_request_uri true (fun n => replicate n 0)
                         (bstr "GET /a/b//%2E./etc//b/ HTTP/1.0") u)
  /\ option_map (sum_map t_uri id) (ngx_http_process_request_uri true (fun n => replicate n 0)
                         (bstr "GET /a/b//%2E./etc//b/ HTTP/1.0") u) = Some (inl (bstr "/a/etc/b/")).
Proof.
  eexists. split; [reflexivity|]. split.
  - apply (uri_no_traversal true (fun n => replicate n 0) (bstr "GET /a/b//%2E./etc//b/ HTTP/1.0") 4 22
             (bstr "a/b//%2E./etc//b/")).
    + reflexivity.
    + vm_compute. lia.
    + by_decide.
    + intros n. apply length_replicate.
    + reflexivity.
  - vm_compute. reflexivity.
Defined.

Close Scope ch_scope.
