(* ===== verification/HttpLine.v ===== *)
(** * The request line

    The state machine [ngx_http_parse_request_line] of ngx_http_parse.c.
    Positions are indices into the buffer; [None] is a null pointer. *)

From Stdlib Require Import Sorting.Sorted.
From S2P Require Import Prelude HttpUri.

Open Scope ch_scope.


Definition NGX_HTTP_PARSE_INVALID_METHOD : Z := 10.
Definition NGX_HTTP_PARSE_INVALID_VERSION : Z := 12.
Definition NGX_HTTP_PARSE_INVALID_09_METHOD : Z := 13.

Definition NGX_HTTP_UNKNOWN : Z := 0x1.
Definition NGX_HTTP_GET : Z := 0x2.
Definition NGX_HTTP_HEAD : Z := 0x4.
Definition NGX_HTTP_POST : Z := 0x8.
Definition NGX_HTTP_PUT : Z := 0x10.
Definition NGX_HTTP_DELETE : Z := 0x20.
Definition NGX_HTTP_MKCOL : Z := 0x40.
Definition NGX_HTTP_COPY : Z := 0x80.
Definition NGX_HTTP_MOVE : Z := 0x100.
Definition NGX_HTTP_OPTIONS : Z := 0x200.
Definition NGX_HTTP_PROPFIND : Z := 0x400.
Definition NGX_HTTP_PROPPATCH : Z := 0x800.
Definition NGX_HTTP_LOCK : Z := 0x1000.
Definition NGX_HTTP_UNLOCK : Z := 0x2000.
Definition NGX_HTTP_PATCH : Z := 0x4000.
Definition NGX_HTTP_TRACE : Z := 0x8000.
Definition NGX_HTTP_CONNECT : Z := 0x10000.

Inductive rl_state :=
  | sw_start | sw_method | sw_spaces_before_uri | sw_schema | sw_schema_slash
  | sw_schema_slash_slash | sw_host_start | sw_host | sw_host_end | sw_host_ip_literal | sw_port
  | sw_in_uri (st : uri_state)
  | sw_http_09 | sw_http_H | sw_http_HT | sw_http_HTT | sw_http_HTTP
  | sw_first_major_digit | sw_major_digit | sw_first_minor_digit | sw_minor_digit
  | sw_spaces_after_digit | sw_almost_done.

#[global] Instance rl_state_eq_dec : EqDecision rl_state.
Proof. solve_decision. Defined.

(** The fields of the request that the function reads or writes; the state is
    kept apart while the loop runs. *)
Record request := Request {
  r_state : rl_state; request_start : option nat; request_end : option nat;
  method_end : option Z; method : Z;
  schema_start : option nat; schema_end : option nat;
  host_start : option nat; host_end : option nat;
  http_protocol : option nat; http_major : Z; http_minor : Z; http_version : Z;
  uri : uri_t }.

(** A request as it is allocated. *)
Definition request_zero : request :=
  Request sw_start None None None NGX_HTTP_UNKNOWN None None None None None 0 0 0 uri_zero.

Definition set_state v r := Request v (request_start r) (request_end r) (method_end r) (method r)
  (schema_start r) (schema_end r) (host_start r) (host_end r) (http_protocol r)
  (http_major r) (http_minor r) (http_version r) (uri r).
Definition set_request_start v r := Request (r_state r) (Some v) (request_end r) (method_end r) (method r)
  (schema_start r) (schema_end r) (host_start r) (host_end r) (http_protocol r)
  (http_major r) (http_minor r) (http_version r) (uri r).
Definition set_request_end v r := Request (r_state r) (request_start r) (Some v) (method_end r) (method r)
  (schema_start r) (schema_end r) (host_start r) (host_end r) (http_protocol r)
  (http_major r) (http_minor r) (http_version r) (uri r).
Definition set_method_end v r := Request (r_state r) (request_start r) (request_end r) (Some v) (method r)
  (schema_start r) (schema_end r) (host_start r) (host_end r) (http_protocol r)
  (http_major r) (http_minor r) (http_version r) (uri r).
Definition set_method v r := Request (r_state r) (request_start r) (request_end r) (method_end r) v
  (schema_start r) (schema_end r) (host_start r) (host_end r) (http_protocol r)
  (http_major r) (http_minor r) (http_version r) (uri r).
Definition set_schema_start v r := Request (r_state r) (request_start r) (request_end r) (method_end r)
  (method r) (Some v) (schema_end r) (host_start r) (host_end r) (http_protocol r)
  (http_major r) (http_minor r) (http_version r) (uri r).
Definition set_schema_end v r := Request (r_state r) (request_start r) (request_end r) (method_end r)
  (method r) (schema_start r) (Some v) (host_start r) (host_end r) (http_protocol r)
  (http_major r) (http_minor r) (http_version r) (uri r).
Definition set_host_start v r := Request (r_state r) (request_start r) (request_end r) (method_end r)
  (method r) (schema_start r) (schema_end r) (Some v) (host_end r) (http_protocol r)
  (http_major r) (http_minor r) (http_version r) (uri r).
Definition set_host_end v r := Request (r_state r) (request_start r) (request_end r) (method_end r)
  (method r) (schema_start r) (schema_end r) (host_start r) (Some v) (http_protocol r)
  (http_major r) (http_minor r) (http_version r) (uri r).
Definition set_http_protocol v r := Request (r_state r) (request_start r) (request_end r) (method_end r)
  (method r) (schema_start r) (schema_end r) (host_start r) (host_end r) (Some v)
  (http_major r) (http_minor r) (http_version r) (uri r).
Definition set_http_major v r := Request (r_state r) (request_start r) (request_end r) (method_end r)
  (method r) (schema_start r) (schema_end r) (host_start r) (host_end r) (http_protocol r)
  v (http_minor r) (http_version r) (uri r).
Definition set_http_minor v r := Request (r_state r) (request_start r) (request_end r) (method_end r)
  (method r) (schema_start r) (schema_end r) (host_start r) (host_end r) (http_protocol r)
  (http_major r) v (http_version r) (uri r).
Definition set_http_version v r := Request (r_state r) (request_start r) (request_end r) (method_end r)
  (method r) (schema_start r) (schema_end r) (host_start r) (host_end r) (http_protocol r)
  (http_major r) (http_minor r) v (uri r).
Definition set_uri v r := Request (r_state r) (request_start r) (request_end r) (method_end r)
  (method r) (schema_start r) (schema_end r) (host_start r) (host_end r) (http_protocol r)
  (http_major r) (http_minor r) (http_version r) v.

(** The switch over the length of the method; [m] are its characters. [None]
    leaves [r->method] as it is. *)
Definition method_code (m : list Z) : option Z :=
  match length m with
  | 3%nat =>
      if decide (m = bstr "GET") then Some NGX_HTTP_GET
      else if decide (m = bstr "PUT") then Some NGX_HTTP_PUT
      else None
  | 4%nat =>
      if decide (m !! 1%nat = Some ("O" : Z)) then
        if decide (m = bstr "POST") then Some NGX_HTTP_POST
        else if decide (m = bstr "COPY") then Some NGX_HTTP_COPY
        else if decide (m = bstr "MOVE") then Some NGX_HTTP_MOVE
        else if decide (m = bstr "LOCK") then Some NGX_HTTP_LOCK
        else None
      else if decide (m = bstr "HEAD") then Some NGX_HTTP_HEAD
      else None
  | 5%nat =>
      if decide (m = bstr "MKCOL") then Some NGX_HTTP_MKCOL
      else if decide (m = bstr "PATCH") then Some NGX_HTTP_PATCH
      else if decide (m = bstr "TRACE") then Some NGX_HTTP_TRACE
      else None
  | 6%nat =>
      if decide (m = bstr "DELETE") then Some NGX_HTTP_DELETE
      else if decide (m = bstr "UNLOCK") then Some NGX_HTTP_UNLOCK
      else None
  | 7%nat =>
      if decide (m = bstr "OPTIONS") then Some NGX_HTTP_OPTIONS
      else if decide (m = bstr "CONNECT") then Some NGX_HTTP_CONNECT
      else None
  | 8%nat => if decide (m = bstr "PROPFIND") then Some NGX_HTTP_PROPFIND else None
  | 9%nat => if decide (m = bstr "PROPPATCH") then Some NGX_HTTP_PROPPATCH else None
  | _ => None
  end.

Definition method_char (ch : Z) : bool :=
  bool_decide (~ ((ch < "A" \/ ch > "Z") /\ ch <> "_" /\ ch <> "-")).

Definition is_letter (ch : Z) : bool :=
  let c := u8 (Z.lor ch 0x20) in bool_decide (c >= "a" /\ c <= "z").

Definition is_num (ch : Z) : bool := bool_decide (ch >= "0" /\ ch <= "9").

(** What a round of the loop does: go on in a state, [goto done], or return. *)
Inductive rl_next := rl_go (st : rl_state) (r : request) | rl_done (r : request) | rl_return (rc : Z) (r : request).

(** The cases of a space in [sw_host_end] and [sw_port]: the single slash of
    the request line is used as the target. *)
Definition host_space (r : request) : request :=
  match schema_end r with
  | Some e => set_uri (set_uri_end (e + 2) (set_uri_start (e + 1) (uri r))) r
  | None => r
  end.

(** The switch of [sw_host_end], after its first assignment, and of [sw_port]. *)
Definition after_host (port_next : option rl_state) (p : nat) (ch : Z) (r : request) : rl_next :=
  if decide (ch = ":") then
    match port_next with
    | Some st => rl_go st r
    | None => rl_return NGX_HTTP_PARSE_INVALID_REQUEST r
    end
  else if decide (ch = "/") then
    rl_go (sw_in_uri sw_after_slash_in_uri) (set_uri (set_uri_start p (uri r)) r)
  else if decide (ch = "?") then
    rl_go (sw_in_uri sw_uri)
      (set_uri (set_empty_path (set_args_start (p + 1) (set_uri_start p (uri r)))) r)
  else if decide (ch = " ") then rl_go sw_http_09 (host_space r)
  else rl_return NGX_HTTP_PARSE_INVALID_REQUEST r.

(** The cases [sw_host] and [sw_host_end], the first of which falls through. *)
Definition host_end_case (p : nat) (ch : Z) (r : request) : rl_next :=
  after_host (Some sw_port) p ch (set_host_end p r).

Definition host_case (p : nat) (ch : Z) (r : request) : rl_next :=
  if is_letter ch then rl_go sw_host r
  else if decide ((ch >= "0" /\ ch <= "9") \/ ch = "." \/ ch = "-") then rl_go sw_host r
  else host_end_case p ch r.

(** The characters of an IP literal besides digits, letters and the bracket. *)
Definition ip_literal_chars : list Z := bstr ":-._~!$&'()*+,;=".

(** [Some] of the next state when [ch] is the expected character. *)
Definition expect (c : Z) (st : rl_state) (ch : Z) (r : request) : rl_next :=
  if decide (ch = c) then rl_go st r else rl_return NGX_HTTP_PARSE_INVALID_REQUEST r.

(** The states of the target; [usual] comes first, then the end of the target,
    which the three switches have in common. *)
Definition uri_case (us : uri_state) (p : nat) (ch : Z) (r : request) : rl_next :=
  if usual ch then rl_go (sw_in_uri (usual_next us)) r
  else if decide (ch = " ") then rl_go sw_http_09 (set_uri (set_uri_end p (uri r)) r)
  else if decide (ch = CR) then
    rl_go sw_almost_done (set_http_minor 9 (set_uri (set_uri_end p (uri r)) r))
  else if decide (ch = LF) then rl_done (set_http_minor 9 (set_uri (set_uri_end p (uri r)) r))
  else
    match uri_switch 0x20 us p ch (uri r) with
    | Some (us, u) => rl_go (sw_in_uri us) (set_uri u r)
    | None => rl_return NGX_HTTP_PARSE_INVALID_REQUEST r
    end.

(** The states after the target; the other states are in [rl_step]. *)
Definition version_case (st : rl_state) (p : nat) (ch : Z) (r : request) : rl_next :=
  let invalid := rl_return NGX_HTTP_PARSE_INVALID_REQUEST in
  match st with
  | sw_http_09 =>
      if decide (ch = " ") then rl_go sw_http_09 r
      else if decide (ch = CR) then rl_go sw_almost_done (set_http_minor 9 r)
      else if decide (ch = LF) then rl_done (set_http_minor 9 r)
      else if decide (ch = "H") then rl_go sw_http_H (set_http_protocol p r)
      else invalid r
  | sw_http_H => expect "T" sw_http_HT ch r
  | sw_http_HT => expect "T" sw_http_HTT ch r
  | sw_http_HTT => expect "P" sw_http_HTTP ch r
  | sw_http_HTTP => expect "/" sw_first_major_digit ch r
  | sw_first_major_digit =>
      if decide (ch < "1" \/ ch > "9") then invalid r
      else
        let r := set_http_major (ch - "0") r in
        if decide (http_major r > 1) then rl_return NGX_HTTP_PARSE_INVALID_VERSION r
        else rl_go sw_major_digit r
  | sw_major_digit =>
      if decide (ch = ".") then rl_go sw_first_minor_digit r
      else if decide (ch < "0" \/ ch > "9") then invalid r
      else
        let r := set_http_major (http_major r * 10 + (ch - "0")) r in
        if decide (http_major r > 1) then rl_return NGX_HTTP_PARSE_INVALID_VERSION r
        else rl_go sw_major_digit r
  | sw_first_minor_digit =>
      if decide (ch < "0" \/ ch > "9") then invalid r
      else rl_go sw_minor_digit (set_http_minor (ch - "0") r)
  | sw_minor_digit =>
      if decide (ch = CR) then rl_go sw_almost_done r
      else if decide (ch = LF) then rl_done r
      else if decide (ch = " ") then rl_go sw_spaces_after_digit r
      else if decide (ch < "0" \/ ch > "9") then invalid r
      else if decide (http_minor r > 99) then invalid r
      else rl_go sw_minor_digit (set_http_minor (http_minor r * 10 + (ch - "0")) r)
  | sw_spaces_after_digit =>
      if decide (ch = " ") then rl_go sw_spaces_after_digit r
      else if decide (ch = CR) then rl_go sw_almost_done r
      else if decide (ch = LF) then rl_done r
      else invalid r
  | sw_almost_done =>
      let r := set_request_end (p - 1) r in
      if decide (ch = LF) then rl_done r else invalid r
  | _ => invalid r
  end.

(** A round; [buf] is the memory in which the method is compared. *)
Definition rl_step (buf : list Z) (st : rl_state) (p : nat) (ch : Z) (r : request) : rl_next :=
  let invalid := rl_return NGX_HTTP_PARSE_INVALID_REQUEST in
  match st with
  | sw_start =>
      let r := set_request_start p r in
      if decide (ch = CR \/ ch = LF) then rl_go sw_start r
      else if negb (method_char ch) then rl_return NGX_HTTP_PARSE_INVALID_METHOD r
      else rl_go sw_method r
  | sw_method =>
      if decide (ch = " ") then
        let m := default 0%nat (request_start r) in
        let r := set_method_end (Z.of_nat p - 1) r in
        rl_go sw_spaces_before_uri
          (match method_code (slice buf m p) with Some c => set_method c r | None => r end)
      else if negb (method_char ch) then rl_return NGX_HTTP_PARSE_INVALID_METHOD r
      else rl_go sw_method r
  | sw_spaces_before_uri =>
      if decide (ch = "/") then
        rl_go (sw_in_uri sw_after_slash_in_uri) (set_uri (set_uri_start p (uri r)) r)
      else if is_letter ch then rl_go sw_schema (set_schema_start p r)
      else if decide (ch = " ") then rl_go sw_spaces_before_uri r
      else invalid r
  | sw_schema =>
      if is_letter ch then rl_go sw_schema r
      else if decide ((ch >= "0" /\ ch <= "9") \/ ch = "+" \/ ch = "-" \/ ch = ".")
      then rl_go sw_schema r
      else if decide (ch = ":") then rl_go sw_schema_slash (set_schema_end p r)
      else invalid r
  | sw_schema_slash => expect "/" sw_schema_slash_slash ch r
  | sw_schema_slash_slash => expect "/" sw_host_start ch r
  | sw_host_start =>
      let r := set_host_start p r in
      if decide (ch = "[") then rl_go sw_host_ip_literal r else host_case p ch r
  | sw_host => host_case p ch r
  | sw_host_end => host_end_case p ch r
  | sw_host_ip_literal =>
      if is_num ch then rl_go sw_host_ip_literal r
      else if is_letter ch then rl_go sw_host_ip_literal r
      else if decide (ch = "]") then rl_go sw_host_end r
      else if decide (ch ∈ ip_literal_chars) then rl_go sw_host_ip_literal r
      else invalid r
  | sw_port => if is_num ch then rl_go sw_port r else after_host None p ch r
  | sw_in_uri us => uri_case us p ch r
  | _ => version_case st p ch r
  end.

(** How the loop ends, and the position. *)
Inductive rl_end :=
  | rl_at_last (st : rl_state) (p : nat) (r : request) | rl_at_done (p : nat) (r : request)
  | rl_at_return (rc : Z) (r : request).

Fixpoint rl_loop (buf : list Z) (st : rl_state) (p : nat) (l : list Z) (r : request) : rl_end :=
  match l with
  | [] => rl_at_last st p r
  | ch :: l =>
      match rl_step buf st p ch r with
      | rl_go st r => rl_loop buf st (p + 1) l r
      | rl_done r => rl_at_done p r
      | rl_return rc r => rl_at_return rc r
      end
  end.

(** What follows the loop: the return code, the request and [b->pos], which is
    [pos] before. The fields [http_major] and [http_minor] have 16 bits and stay
    below 1000. *)
Definition rl_finish (pos : nat) (e : rl_end) : Z * request * nat :=
  match e with
  | rl_at_last st p r => (NGX_AGAIN, set_state st r, p)
  | rl_at_done p r =>
      let r := match request_end r with None => set_request_end p r | Some _ => r end in
      let r := set_http_version (http_major r * 1000 + http_minor r) r in
      let r := set_state sw_start r in
      if decide (http_version r = 9 /\ method r <> NGX_HTTP_GET)
      then (NGX_HTTP_PARSE_INVALID_09_METHOD, r, (p + 1)%nat)
      else (NGX_OK, r, (p + 1)%nat)
  | rl_at_return rc r => (rc, r, pos)
  end.

Definition ngx_http_parse_request_line (buf : list Z) (pos last : nat) (r : request)
  : Z * request * nat :=
  rl_finish pos (rl_loop buf (r_state r) pos (slice buf pos last) r).

(** The calls of [ngx_http_process_request_line], one for each time that data
    has been read: [buf] is the memory then and [last] the end of the data. *)
Fixpoint feed (pieces : list (list Z * nat)) (pos : nat) (r : request) : Z * request * nat :=
  match pieces with
  | [] => (NGX_AGAIN, r, pos)
  | (buf, last) :: pieces =>
      let '(rc, r, pos) := ngx_http_parse_request_line buf pos last r in
      if decide (rc = NGX_AGAIN) then feed pieces pos r else (rc, r, pos)
  end.

(** ** A grammar of the lines *)

Inductive host_form := reg_name (h : list Z) | ip_literal (h : list Z).
Inductive path_form := path_slash (t : list Z) | path_query (q : list Z) | path_none.
Inductive target_form :=
  | origin (t : list Z)
  | absolute (c : Z) (scheme : list Z) (h : host_form) (port : option (list Z)) (f : path_form).
(** [ver_09] has the number of spaces, [ver_1] the number of spaces less one,
    the digits of the minor version and the number of spaces after them. *)
Inductive version_form := ver_09 (n : nat) | ver_1 (n : nat) (minor : list Z) (k : nat).

#[global] Instance version_form_eq_dec : EqDecision version_form.
Proof. solve_decision. Defined.

(** The number of spaces after the method is [S l_spaces]. *)
Record line := Line {
  l_lead : list Z; l_method : list Z; l_spaces : nat; l_target : target_form;
  l_version : version_form; l_cr : bool }.

Definition is_crlf (c : Z) : bool := bool_decide (c = CR \/ c = LF).
Definition schema_char (c : Z) : bool :=
  is_letter c || bool_decide ((c >= "0" /\ c <= "9") \/ c = "+" \/ c = "-" \/ c = ".").
Definition host_char (c : Z) : bool :=
  is_letter c || bool_decide ((c >= "0" /\ c <= "9") \/ c = "." \/ c = "-").
Definition ip_char (c : Z) : bool :=
  is_num c || is_letter c || (bool_decide (c <> "]") && bool_decide (c ∈ ip_literal_chars)).
Definition is_space (c : Z) : bool := bool_decide (c = " ").

Definition spaces (n : nat) : list Z := replicate n (" " : Z).
Definition minor_value (v : Z) (d : list Z) : Z := foldl (fun v c => v * 10 + (c - "0")) v d.

Definition host_text (h : host_form) : list Z :=
  match h with reg_name h => h | ip_literal h => "[" :: h ++ ["]" : Z] end.
Definition port_text (port : option (list Z)) : list Z :=
  match port with Some d => ":" :: d | None => [] end.
Definition path_text (f : path_form) : list Z :=
  match f with path_slash t => "/" :: t | path_query q => "?" :: q | path_none => [] end.
Definition target_text (t : target_form) : list Z :=
  match t with
  | origin t => "/" :: t
  | absolute c scheme h port f =>
      (c :: scheme) ++ bstr "://" ++ host_text h ++ port_text port ++ path_text f
  end.
Definition version_text (v : version_form) : list Z :=
  match v with
  | ver_09 n => spaces n
  | ver_1 n minor k => spaces (S n) ++ bstr "HTTP/1." ++ minor ++ spaces k
  end.
Definition end_text (cr : bool) : list Z := if cr then [CR; LF] else [LF].

Definition line_text (L : line) : list Z :=
  l_lead L ++ l_method L ++ spaces (S (l_spaces L)) ++ target_text (l_target L) ++
  version_text (l_version L) ++ end_text (l_cr L).

Definition valid_host (h : host_form) : Prop :=
  match h with reg_name h => forallb host_char h | ip_literal h => forallb ip_char h end.
(** The characters of the path are judged by [ngx_http_parse_uri]; a version
    has to follow a target without a path. *)
Definition valid_target (t : target_form) (v : version_form) : Prop :=
  match t with
  | origin _ => True
  | absolute c scheme h port f =>
      is_letter c /\ forallb schema_char scheme /\ valid_host h /\
      forallb is_num (default [] port) /\ (f = path_none -> v <> ver_09 0)
  end.
Definition valid_version (v : version_form) : Prop :=
  match v with
  | ver_09 _ => True
  | ver_1 _ minor _ => minor <> [] /\ forallb is_num minor /\ minor_value 0 minor < 1000
  end.
Definition valid_line (L : line) : Prop :=
  forallb is_crlf (l_lead L) /\ l_method L <> [] /\ forallb method_char (l_method L) /\
  valid_target (l_target L) (l_version L) /\ valid_version (l_version L).

(** ** What the fields are after a line *)

(** The fields of the target [t] at [s], before [uri_end]; [u] has the flags. *)
Definition path_uri (s : nat) (f : path_form) (u : uri_t) : option uri_t :=
  match f with
  | path_slash t => ngx_http_parse_uri s ("/" :: t) (set_uri_start s u)
  | path_query q =>
      uri_loop sw_uri (s + 1) q (set_empty_path (set_args_start (s + 1) (set_uri_start s u)))
  | path_none => Some u
  end.

Definition line_method (ms me : nat) (m : list Z) (r : request) : request :=
  let r := set_method_end (Z.of_nat me - 1) (set_request_start ms r) in
  set_method (default (method r) (method_code m)) r.

(** The end of the path [f] at [p]; without a path the single slash after the
    colon at [se] is the target. *)
Definition path_end (se p : nat) (f : path_form) (u : uri_t) : uri_t :=
  match f with
  | path_none => set_uri_end (se + 2) (set_uri_start (se + 1) u)
  | _ => set_uri_end (p + length (path_text f)) u
  end.

Definition line_target (s : nat) (t : target_form) (r : request) : option request :=
  match t with
  | origin t =>
      u ← path_uri s (path_slash t) (uri r); Some (set_uri (path_end 0 s (path_slash t) u) r)
  | absolute c scheme h port f =>
      let se := (s + length (c :: scheme))%nat in
      let hs := (se + 3)%nat in
      let he := (hs + length (host_text h))%nat in
      let ps := (he + length (port_text port))%nat in
      let r := set_host_end he (set_host_start hs (set_schema_end se (set_schema_start s r))) in
      u ← path_uri ps f (uri r); Some (set_uri (path_end se ps f u) r)
  end.

Definition line_version (s : nat) (v : version_form) (r : request) : request :=
  match v with
  | ver_09 _ => set_http_minor 9 r
  | ver_1 n minor _ =>
      set_http_minor (minor_value 0 minor) (set_http_major 1 (set_http_protocol (s + S n) r))
  end.

(** The result for a line that begins at [s]. *)
Definition line_result (s : nat) (L : line) (r : request) : option (Z * request * nat) :=
  let ms := (s + length (l_lead L))%nat in
  let me := (ms + length (l_method L))%nat in
  let ts := (me + S (l_spaces L))%nat in
  let te := (ts + length (target_text (l_target L)))%nat in
  let re := (te + length (version_text (l_version L)))%nat in
  r ← line_target ts (l_target L) (line_method ms me (l_method L) r);
  let r := set_request_end re (line_version te (l_version L) r) in
  let r := set_http_version (http_major r * 1000 + http_minor r) (set_state sw_start r) in
  Some (if decide (http_version r = 9 /\ method r <> NGX_HTTP_GET)
        then NGX_HTTP_PARSE_INVALID_09_METHOD else NGX_OK, r,
        (re + length (end_text (l_cr L)))%nat).

(** ** Segments of a line *)

(** Forward and backward steps over a character for which the state is kept. *)
Definition stays (buf : list Z) (st : rl_state) (C : Z -> bool) : Prop :=
  forall p c r, C c = true -> rl_step buf st p c r = rl_go st r.

Lemma star_fwd buf st C seg : stays buf st C -> forallb C seg -> forall p k r,
  rl_loop buf st p (seg ++ k) r = rl_loop buf st (p + length seg) k r.
Proof.
  intros Hst; induction seg as [|c seg IH]; intros Hall p k r; cbn [forallb] in Hall.
  - by rewrite Nat.add_0_r.
  - apply andb_prop_elim in Hall as [Hc Hall]. cbn [app rl_loop length].
    rewrite Hst by (by apply Is_true_true). rewrite IH by done. f_equal; lia.
Qed.

Lemma star_inv buf st C l : stays buf st C -> forall p r q r',
  rl_loop buf st p l r = rl_at_done q r' ->
  exists seg c k, l = seg ++ c :: k /\ forallb C seg /\ C c = false /\
    rl_loop buf st (p + length seg) (c :: k) r = rl_at_done q r'.
Proof.
  intros Hst; induction l as [|c l IH]; intros p r q r' H; [done|].
  destruct (C c) eqn:Hc.
  - cbn in H. rewrite Hst in H by done. apply IH in H as (seg & d & k & -> & ? & ? & H).
    exists (c :: seg), d, k. cbn [forallb app length]. rewrite Hc.
    replace (p + S (length seg))%nat with (p + 1 + length seg)%nat by lia. done.
  - exists [], c, l. by rewrite Nat.add_0_r.
Qed.

(** One step backward: the first character, with the conditions it meets. *)
Ltac rl_inv H :=
  match type of H with
  | rl_loop _ _ _ ?l _ = _ =>
      tryif is_var l then destruct l; [discriminate H|] else idtac
  end;
  cbn in H; unfold expect in H; cbn in H; repeat case_decide; try discriminate H; simplify_eq.

Lemma spaces_forallb n : forallb is_space (spaces n).
Proof. by induction n. Qed.

Lemma forallb_spaces l : forallb is_space l -> l = spaces (length l).
Proof.
  induction l as [|c l IH]; [done|]. cbn. intros [Hc Hl]%andb_prop_elim.
  unfold is_space in Hc. apply bool_decide_unpack in Hc.
  change (c :: l = 32 :: spaces (length l)). rewrite <- IH by done. congruence.
Qed.

Lemma stays_method buf : stays buf sw_method method_char.
Proof.
  intros p c r H. cbn. rewrite H. case_decide as E; [subst; discriminate H|done].
Qed.

Lemma stays_before_uri buf : stays buf sw_spaces_before_uri is_space.
Proof. intros p c r H%bool_decide_eq_true. by subst. Qed.

Lemma stays_http_09 buf : stays buf sw_http_09 is_space.
Proof. intros p c r H%bool_decide_eq_true. by subst. Qed.

Lemma stays_after_digit buf : stays buf sw_spaces_after_digit is_space.
Proof. intros p c r H%bool_decide_eq_true. by subst. Qed.

Lemma stays_schema buf : stays buf sw_schema schema_char.
Proof.
  intros p c r H. cbn. unfold schema_char in H. destruct (is_letter c); [done|].
  apply bool_decide_eq_true in H. by rewrite decide_True.
Qed.

Lemma host_case_char p c r : host_char c = true -> host_case p c r = rl_go sw_host r.
Proof.
  unfold host_char, host_case. destruct (is_letter c); [done|]. intros H%bool_decide_eq_true.
  by rewrite decide_True.
Qed.

Lemma stays_host buf : stays buf sw_host host_char.
Proof. intros p c r H. by apply host_case_char. Qed.

Lemma stays_ip buf : stays buf sw_host_ip_literal ip_char.
Proof.
  intros p c r H. cbn. unfold ip_char in H.
  destruct (is_num c); [done|]. destruct (is_letter c); [done|]. apply andb_prop in H as [H1 H2].
  apply bool_decide_eq_true in H1, H2. rewrite (decide_False (P := c = 93)) by done.
  by rewrite decide_True.
Qed.

Lemma stays_port buf : stays buf sw_port is_num.
Proof. intros p c r H. cbn. by rewrite H. Qed.

(** ** The end of the line *)

#[local] Arguments bstr : simpl never.

Lemma length_spaces n : length (spaces n) = n.
Proof. apply length_replicate. Qed.

(** What the rest of the line does after the state that precedes CR or LF. *)
Definition ended (cr : bool) (p : nat) (r : request) : rl_end :=
  if cr then rl_at_done (p + 1) (set_request_end p r) else rl_at_done p r.

Lemma almost_done_fwd buf p k r :
  rl_loop buf sw_almost_done (p + 1) (LF :: k) r = rl_at_done (p + 1) (set_request_end p r).
Proof. cbn. by rewrite Nat.add_sub. Qed.

Lemma almost_done_inv buf p l r q r' :
  rl_loop buf sw_almost_done (p + 1) l r = rl_at_done q r' ->
  exists k, CR :: l = end_text true ++ k.
Proof. intros H. rl_inv H. by eexists. Qed.

Lemma after_digit_fwd buf p k r cr :
  rl_loop buf sw_spaces_after_digit p (end_text cr ++ k) r = ended cr p r.
Proof. destruct cr; [exact (almost_done_fwd buf p k r)|done]. Qed.

Lemma after_digit_inv buf p l r q r' :
  rl_loop buf sw_spaces_after_digit p l r = rl_at_done q r' ->
  exists n cr k, l = spaces n ++ end_text cr ++ k.
Proof.
  intros (seg & c & k & -> & Hs%forallb_spaces & Hc & H)%(star_inv _ _ _ _ (stays_after_digit buf)).
  rewrite Hs. exists (length seg). apply bool_decide_eq_false in Hc. cbn in H.
  repeat case_decide; simplify_eq.
  - apply almost_done_inv in H as [k' ->]. by exists true, k'.
  - by exists false, k.
Qed.

Lemma digit_value v d : is_num d -> 0 <= v -> v <= v * 10 + (d - 48).
Proof. intros H%bool_decide_unpack. lia. Qed.

Lemma minor_value_le v d : forallb is_num d -> 0 <= v -> v <= minor_value v d.
Proof.
  revert v; induction d as [|c d IH]; intros v Hd Hv; [done|].
  cbn in *. apply andb_prop_elim in Hd as [Hc Hd]. pose proof (digit_value _ _ Hc Hv).
  etransitivity; [|apply IH; [done|lia]]. lia.
Qed.

Lemma minor_fwd buf d : forall p k r, forallb is_num d -> 0 <= http_minor r ->
  minor_value (http_minor r) d < 1000 ->
  rl_loop buf sw_minor_digit p (d ++ k) r =
  rl_loop buf sw_minor_digit (p + length d) k (set_http_minor (minor_value (http_minor r) d) r).
Proof.
  induction d as [|c d IH]; intros p k r Hd Hv Hlt.
  - cbn. rewrite Nat.add_0_r. by destruct r.
  - cbn in *. apply andb_prop_elim in Hd as [Hc Hd].
    pose proof (digit_value _ _ Hc Hv). apply bool_decide_unpack in Hc as Hr.
    assert (Hle : http_minor r * 10 + (c - 48) < 1000).
    { pose proof (minor_value_le (http_minor r * 10 + (c - 48)) d Hd). unfold minor_value in *. lia. }
    unfold CR, LF. rewrite !decide_False by lia. rewrite IH by (cbn; (done || lia)). cbn.
    f_equal. lia.
Qed.

Lemma minor_inv buf l : forall p r q r', 0 <= http_minor r < 1000 ->
  rl_loop buf sw_minor_digit p l r = rl_at_done q r' ->
  exists d n cr k, l = d ++ spaces n ++ end_text cr ++ k /\ forallb is_num d /\
    minor_value (http_minor r) d < 1000.
Proof.
  induction l as [|c l IH]; intros p r q r' Hv H; [done|].
  cbn in H. repeat case_decide; simplify_eq.
  - apply almost_done_inv in H as [k ->]. exists [], 0%nat, true, k. by split_and!; [| |cbn; lia].
  - exists [], 0%nat, false, l. by split_and!; [| |cbn; lia].
  - apply after_digit_inv in H as (n & cr & k & ->). exists [], (S n), cr, k. by split_and!; [| |cbn; lia].
  - apply IH in H as (d & n & cr & k & -> & Hd & Hlt); [|cbn; lia].
    exists (c :: d), n, cr, k. split_and!; [done| |done]. cbn.
    apply andb_prop_intro. split; [|done]. apply bool_decide_pack. lia.
Qed.

(** ** The version *)

(** What follows the spaces after the target. *)
Definition version_tail (v : version_form) : list Z :=
  match v with ver_09 n => spaces n | ver_1 n minor k => spaces n ++ bstr "HTTP/1." ++ minor ++ spaces k end.

Definition tail_version (p : nat) (v : version_form) (r : request) : request :=
  match v with
  | ver_09 _ => set_http_minor 9 r
  | ver_1 n minor _ =>
      set_http_minor (minor_value 0 minor) (set_http_major 1 (set_http_protocol (p + n) r))
  end.

Lemma http_09_end buf p k r cr :
  rl_loop buf sw_http_09 p (end_text cr ++ k) r = ended cr p (set_http_minor 9 r).
Proof. destruct cr; [exact (almost_done_fwd buf p k (set_http_minor 9 r))|done]. Qed.

Lemma http_1_fwd buf p l r :
  rl_loop buf sw_http_09 p (bstr "HTTP/1." ++ l) r =
  rl_loop buf sw_first_minor_digit (p + 7) l (set_http_major 1 (set_http_protocol p r)).
Proof. by replace (p + 7)%nat with (p + 1 + 1 + 1 + 1 + 1 + 1 + 1)%nat by lia. Qed.

Lemma minor_tail buf p n cr k r :
  rl_loop buf sw_minor_digit p (spaces n ++ end_text cr ++ k) r = ended cr (p + n) r.
Proof.
  destruct n as [|n].
  - rewrite Nat.add_0_r. destruct cr; [exact (almost_done_fwd buf p k r)|done].
  - change (rl_loop buf sw_spaces_after_digit (p + 1) (spaces n ++ end_text cr ++ k) r =
            ended cr (p + S n) r).
    rewrite (star_fwd _ _ _ _ (stays_after_digit buf)) by apply spaces_forallb.
    rewrite after_digit_fwd, length_spaces. f_equal. lia.
Qed.

Lemma http_09_fwd buf p v cr k r : valid_version v ->
  rl_loop buf sw_http_09 p (version_tail v ++ end_text cr ++ k) r =
  ended cr (p + length (version_tail v)) (tail_version p v r).
Proof.
  destruct v as [n|n minor k'].
  - intros _. cbn. rewrite (star_fwd _ _ _ _ (stays_http_09 buf)) by apply spaces_forallb.
    apply http_09_end.
  - intros (Hne & Hd & Hlt). cbn [version_tail]. rewrite <- !app_assoc.
    rewrite (star_fwd _ _ _ _ (stays_http_09 buf)) by apply spaces_forallb.
    rewrite length_spaces, http_1_fwd.
    destruct minor as [|c minor]; [done|]. cbn in Hd, Hlt. apply andb_prop_elim in Hd as [Hc Hd].
    unfold is_num in Hc. apply bool_decide_unpack in Hc.
    cbn. rewrite decide_False by lia. rewrite minor_fwd by (cbn; (done || lia)).
    rewrite minor_tail. f_equal. rewrite !length_app, !length_spaces. cbn.
    rewrite !length_app, length_spaces. change (length (bstr "HTTP/1.")) with 7%nat. lia.
Qed.

Lemma http_09_inv buf p l r q r' : rl_loop buf sw_http_09 p l r = rl_at_done q r' ->
  exists v cr k, l = version_tail v ++ end_text cr ++ k /\ valid_version v.
Proof.
  intros (seg & c & k & -> & Hs%forallb_spaces & Hc & H)%(star_inv _ _ _ _ (stays_http_09 buf)).
  rewrite Hs. apply bool_decide_eq_false in Hc. cbn in H. repeat case_decide; simplify_eq.
  - apply almost_done_inv in H as [k' ->]. by exists (ver_09 (length seg)), true, k'.
  - by exists (ver_09 (length seg)), false, k.
  - do 5 rl_inv H. rename z into a. assert (a = 49) by lia. subst a. rl_inv H; [|lia].
    rl_inv H. apply minor_inv in H as (d & n & cr & k' & -> & Hd & Hlt); [|cbn; lia].
    exists (ver_1 (length seg) (z :: d) n), cr, k'. cbn [version_tail].
    rewrite <- !app_assoc. split; [done|]. split; [done|]. split; [|done].
    apply andb_prop_intro. split; [apply bool_decide_pack; lia|done].
Qed.

(** ** The end of the target *)

(** The version without the space that ends the target. *)
Definition drop_space (v : version_form) : version_form :=
  match v with ver_09 n => ver_09 (n - 1) | ver_1 _ _ _ => v end.

Lemma version_text_space v : v <> ver_09 0 ->
  version_text v = " " :: version_tail (drop_space v).
Proof. destruct v as [[|n]|n minor k]; [done| |done]. intros _. cbn. by rewrite Nat.sub_0_r. Qed.

Lemma after_space buf p v cr k r : v <> ver_09 0 -> valid_version v ->
  rl_loop buf sw_http_09 (p + 1) (version_tail (drop_space v) ++ end_text cr ++ k) r =
  ended cr (p + length (version_text v)) (line_version p v r).
Proof.
  intros Hv Hok. rewrite http_09_fwd by (by destruct v).
  rewrite (version_text_space v Hv). cbn [length].
  replace (tail_version (p + 1) (drop_space v) r) with (line_version p v r).
  - f_equal. lia.
  - destruct v as [n|n minor k']; [done|]. cbn [tail_version drop_space line_version].
    by replace (p + 1 + n)%nat with (p + S n)%nat by lia.
Qed.

Lemma space_inv buf p l r q r' : rl_loop buf sw_http_09 (p + 1) l r = rl_at_done q r' ->
  exists v cr k, (" " : Z) :: l = version_text v ++ end_text cr ++ k /\ valid_version v /\ v <> ver_09 0.
Proof.
  intros (v & cr & k & -> & Hv)%http_09_inv. destruct v as [n|n minor k'].
  - by exists (ver_09 (S n)), cr, k.
  - by exists (ver_1 n minor k'), cr, k.
Qed.

Lemma in_uri_end buf us p v cr k r : valid_version v ->
  rl_loop buf (sw_in_uri us) p (version_text v ++ end_text cr ++ k) r =
  ended cr (p + length (version_text v)) (line_version p v (set_uri (set_uri_end p (uri r)) r)).
Proof.
  intros Hv. destruct (decide (v = ver_09 0)) as [->|Hne].
  - cbn [version_text spaces replicate app length]. rewrite Nat.add_0_r. destruct cr; [|done].
    exact (almost_done_fwd buf p k (set_http_minor 9 (set_uri (set_uri_end p (uri r)) r))).
  - rewrite <- (after_space buf p v cr k) by done. by rewrite (version_text_space v Hne).
Qed.

Lemma in_uri_end_inv buf us p c l r q r' : c = 32 \/ c = CR \/ c = LF ->
  rl_loop buf (sw_in_uri us) p (c :: l) r = rl_at_done q r' ->
  exists v cr k, c :: l = version_text v ++ end_text cr ++ k /\ valid_version v.
Proof.
  intros [->|[->| ->]] H.
  - apply (space_inv _ p) in H as (v & cr & k & E & ? & _). by exists v, cr, k.
  - apply almost_done_inv in H as [k ->]. by exists (ver_09 0), true, k.
  - by exists (ver_09 0), false, l.
Qed.

Lemma switch_low us p ch u : ch <> 32 -> uri_switch 0x20 us p ch u = uri_switch 0x21 us p ch u.
Proof. intros H. destruct us; cbn; repeat case_decide; (done || lia). Qed.

Lemma usual_stop c : c = 32 \/ c = CR \/ c = LF -> usual c = false.
Proof. by intros [->|[->| ->]]. Qed.

Lemma switch_stop us p c u : c = 32 \/ c = CR \/ c = LF -> uri_switch 0x21 us p c u = None.
Proof. intros [->|[->| ->]]; by destruct us. Qed.

Definition uri_stop (c : Z) : bool := bool_decide (c = 32 \/ c = CR \/ c = LF).

(** In the states of the target the line is read as by [ngx_http_parse_uri]. *)
Lemma in_uri_step buf us p c r : uri_stop c = false ->
  rl_step buf (sw_in_uri us) p c r =
  match uri_char us p c (uri r) with
  | Some (us, u) => rl_go (sw_in_uri us) (set_uri u r)
  | None => rl_return NGX_HTTP_PARSE_INVALID_REQUEST r
  end.
Proof.
  intros H%bool_decide_eq_false. cbn. unfold uri_case, uri_char. destruct (usual c); [by destruct r|].
  rewrite !decide_False by (intros ->; tauto). by rewrite switch_low by (intros ->; tauto).
Qed.

Lemma in_uri_fwd buf t : forall us p r u, uri_loop us p t (uri r) = Some u -> exists us',
  forall k, rl_loop buf (sw_in_uri us) p (t ++ k) r =
            rl_loop buf (sw_in_uri us') (p + length t) k (set_uri u r).
Proof.
  induction t as [|c t IH]; intros us p r u H.
  - injection H as <-. exists us. intros k. cbn. rewrite Nat.add_0_r. by destruct r.
  - cbn [uri_loop] in H. destruct (uri_char us p c (uri r)) as [[us1 u1]|] eqn:E; [|done]. cbn in H.
    assert (Hs : uri_stop c = false).
    { apply bool_decide_eq_false. intros Hs. unfold uri_char in E.
      by rewrite usual_stop, switch_stop in E. }
    destruct (IH us1 (p + 1)%nat (set_uri u1 r) u H) as [us' Hus]. exists us'. intros k.
    cbn [app rl_loop length]. rewrite in_uri_step, E, Hus by done. f_equal. lia.
Qed.

Lemma in_uri_inv buf l : forall us p r q r',
  rl_loop buf (sw_in_uri us) p l r = rl_at_done q r' ->
  exists t u v cr k, l = t ++ version_text v ++ end_text cr ++ k /\ valid_version v /\
    uri_loop us p t (uri r) = Some u.
Proof.
  induction l as [|c l IH]; intros us p r q r' H; [done|]. destruct (uri_stop c) eqn:Hs.
  - apply in_uri_end_inv in H as (v & cr & k & E & Hv).
    + exists [], (uri r), v, cr, k. by split_and!.
    + by apply bool_decide_eq_true in Hs.
  - cbn [rl_loop] in H. rewrite in_uri_step in H by done.
    destruct (uri_char us p c (uri r)) as [[us1 u1]|] eqn:E; [|done].
    apply IH in H as (t & u & v & cr & k & -> & Hv & Hu). exists (c :: t), u, v, cr, k.
    split_and!; [done|done|]. cbn [uri_loop]. by rewrite E.
Qed.
(** ** The target *)

Definition rl_cont (buf : list Z) (p : nat) (l : list Z) (n : rl_next) : rl_end :=
  match n with
  | rl_go st r => rl_loop buf st (p + 1) l r
  | rl_done r => rl_at_done p r
  | rl_return rc r => rl_at_return rc r
  end.

Lemma rl_loop_cons buf st p c l r : rl_loop buf st p (c :: l) r = rl_cont buf p l (rl_step buf st p c r).
Proof. done. Qed.

Definition path_stop (c : Z) : Prop := c = 47 \/ c = 63 \/ c = 32.

(** The first character of the path, or the space after the host. *)
Lemma path_head f v l : (f = path_none -> v <> ver_09 0) ->
  exists c k, path_text f ++ version_text v ++ l = c :: k /\ path_stop c.
Proof.
  unfold path_stop. destruct f as [t|q|]; intros Hv.
  - eexists _, _. split; [reflexivity|auto].
  - eexists _, _. split; [reflexivity|auto].
  - rewrite version_text_space by auto. eexists _, _. split; [reflexivity|auto].
Qed.

Lemma path_fwd buf st p f v cr k r0 r se u :
  (forall c, path_stop c -> rl_step buf st p c r0 = after_host None p c r) ->
  valid_version v -> (f = path_none -> v <> ver_09 0) -> schema_end r = Some se ->
  path_uri p f (uri r) = Some u ->
  rl_loop buf st p (path_text f ++ version_text v ++ end_text cr ++ k) r0 =
  ended cr (p + length (path_text f) + length (version_text v))
    (line_version (p + length (path_text f)) v (set_uri (path_end se p f u) r)).
Proof.
  intros Hst Hv Hf Hse Hu. destruct f as [t|q|].
  - cbn [path_text app]. rewrite rl_loop_cons, Hst by (unfold path_stop; auto).
    destruct (in_uri_fwd buf t _ _ (set_uri (set_uri_start p (uri r)) r) u Hu) as [us' H].
    etransitivity; [apply H|]. rewrite in_uri_end by done. cbn [path_end path_text length].
    by replace (p + 1 + length t)%nat with (p + S (length t))%nat by lia.
  - cbn [path_text app]. rewrite rl_loop_cons, Hst by (unfold path_stop; auto).
    destruct (in_uri_fwd buf q sw_uri (p + 1) (set_uri
      (set_empty_path (set_args_start (p + 1) (set_uri_start p (uri r)))) r) u Hu) as [us' H].
    etransitivity; [apply H|]. rewrite in_uri_end by done. cbn [path_end path_text length].
    by replace (p + 1 + length q)%nat with (p + S (length q))%nat by lia.
  - injection Hu as <-. specialize (Hf eq_refl). cbn [path_text length path_end app].
    rewrite Nat.add_0_r, (version_text_space v Hf). cbn [app].
    rewrite rl_loop_cons, Hst by (unfold path_stop; auto).
    change (after_host None p 32 r) with (rl_go sw_http_09 (host_space r)). cbn [rl_cont].
    rewrite after_space by done. rewrite (version_text_space v Hf). unfold host_space. by rewrite Hse.
Qed.

Lemma path_inv buf pn p c l r q r' : c <> 58 ->
  rl_cont buf p l (after_host pn p c r) = rl_at_done q r' ->
  exists f v cr k u, c :: l = path_text f ++ version_text v ++ end_text cr ++ k /\
    valid_version v /\ (f = path_none -> v <> ver_09 0) /\ path_uri p f (uri r) = Some u.
Proof.
  intros Hc H. unfold after_host in H. rewrite decide_False in H by done.
  repeat case_decide; simplify_eq; try discriminate H; cbn [rl_cont] in H.
  - apply in_uri_inv in H as (t & u & v & cr & k & -> & Hv & Hu).
    by exists (path_slash t), v, cr, k, u.
  - apply in_uri_inv in H as (t & u & v & cr & k & -> & Hv & Hu).
    by exists (path_query t), v, cr, k, u.
  - apply space_inv in H as (v & cr & k & -> & Hv & Hne). by exists path_none, v, cr, k, (uri r).
Qed.

(** ** The host and the port *)

(** From the state of the port, or right after the host. *)
Lemma port_fwd buf st p port f v cr k r0 r se u :
  (forall c, c = 58 \/ path_stop c -> rl_step buf st p c r0 = after_host (Some sw_port) p c r) ->
  forallb is_num (default [] port) ->
  valid_version v -> (f = path_none -> v <> ver_09 0) -> schema_end r = Some se ->
  path_uri (p + length (port_text port)) f (uri r) = Some u ->
  let e := (p + length (port_text port) + length (path_text f))%nat in
  rl_loop buf st p (port_text port ++ path_text f ++ version_text v ++ end_text cr ++ k) r0 =
  ended cr (e + length (version_text v))
    (line_version e v (set_uri (path_end se (p + length (port_text port)) f u) r)).
Proof.
  intros Hst Hd Hv Hf Hse Hu. destruct port as [d|]; cbn [port_text app length default] in *.
  - rewrite rl_loop_cons, Hst by auto. change (after_host (Some sw_port) p 58 r) with (rl_go sw_port r).
    cbn [rl_cont]. rewrite (star_fwd _ _ _ _ (stays_port buf)) by done.
    replace (p + 1 + length d)%nat with (p + S (length d))%nat by lia.
    apply (path_fwd _ _ _ _ _ _ _ _ r); try done. by intros c [->|[->| ->]].
  - rewrite Nat.add_0_r in *. apply path_fwd; try done. intros c Hc. rewrite Hst by auto.
    by destruct Hc as [->|[->| ->]].
Qed.

Lemma port_inv buf p c l r q r' :
  rl_cont buf p l (after_host (Some sw_port) p c r) = rl_at_done q r' ->
  exists port f v cr k u,
    c :: l = port_text port ++ path_text f ++ version_text v ++ end_text cr ++ k /\
    forallb is_num (default [] port) /\
    valid_version v /\ (f = path_none -> v <> ver_09 0) /\
    path_uri (p + length (port_text port)) f (uri r) = Some u.
Proof.
  intros H. destruct (decide (c = 58)) as [->|Hc].
  - change (rl_loop buf sw_port (p + 1) l r = rl_at_done q r') in H.
    apply (star_inv _ _ _ _ (stays_port buf)) in H as (d & c & k & -> & Hd & Hc & H).
    rewrite rl_loop_cons in H. cbn [rl_step] in H. rewrite Hc in H.
    apply path_inv in H as (f & v & cr & k' & u & -> & Hv & Hf & Hu).
    + exists (Some d), f, v, cr, k', u. cbn [port_text length].
      by replace (p + S (length d))%nat with (p + 1 + length d)%nat by lia.
    + intros ->. done.
  - apply path_inv in H as (f & v & cr & k & u & E & Hv & Hf & Hu); [|done].
    exists None, f, v, cr, k, u. cbn [port_text length]. by rewrite Nat.add_0_r.
Qed.

Lemma host_case_stop p c r : host_char c = false -> host_case p c r = host_end_case p c r.
Proof.
  unfold host_char, host_case. destruct (is_letter c); [done|]. intros H%bool_decide_eq_false.
  by rewrite decide_False.
Qed.

Lemma host_fwd buf p h port f v cr k r se u :
  let h' := (p + length (host_text h))%nat in
  let e' := (h' + length (port_text port))%nat in
  let e := (e' + length (path_text f))%nat in
  let r' := set_host_end h' (set_host_start p r) in
  valid_host h -> forallb is_num (default [] port) ->
  valid_version v -> (f = path_none -> v <> ver_09 0) -> schema_end r = Some se ->
  path_uri e' f (uri r') = Some u ->
  rl_loop buf sw_host_start p
    (host_text h ++ port_text port ++ path_text f ++ version_text v ++ end_text cr ++ k) r =
  ended cr (e + length (version_text v)) (line_version e v (set_uri (path_end se e' f u) r')).
Proof.
  intros h' e' e r' Hh Hd Hv Hf Hse Hu. set (rest := port_text port ++ _).
  assert (Hstop : forall c, c = 58 \/ path_stop c -> host_char c = false).
  { by intros c [->|[->|[->| ->]]]. }
  destruct h as [h|h]; cbn [host_text] in *.
  - transitivity (rl_loop buf sw_host h' rest (set_host_start p r)).
    + destruct h as [|c h]; cbn [app].
      * assert (exists c l, rest = c :: l /\ (c = 58 \/ path_stop c)) as (c & l & -> & Hc).
        { subst rest. destruct port; [by eexists _, _; eauto|].
          destruct (path_head f v (end_text cr ++ k) Hf) as (c & l & E & Hc). cbn [port_text app].
          rewrite E. eauto. }
        subst h'. cbn [length]. rewrite Nat.add_0_r, !rl_loop_cons. f_equal.
        cbn [rl_step]. rewrite decide_False; [done|].
        intros ->. by destruct Hc as [E|[E|[E|E]]].
      * cbn in Hh. apply andb_prop_elim in Hh as [Hc Hh]. apply Is_true_true in Hc.
        rewrite rl_loop_cons. cbn [rl_step]. rewrite decide_False by (intros ->; done).
        rewrite host_case_char by done. cbn [rl_cont].
        rewrite (star_fwd _ _ _ _ (stays_host buf)) by done. f_equal. subst h'. cbn. lia.
    + apply port_fwd; try done. intros c Hc. cbn [rl_step]. by rewrite host_case_stop by auto.
  - cbn [app]. rewrite rl_loop_cons.
    change (rl_step buf sw_host_start p 91 r) with (rl_go sw_host_ip_literal (set_host_start p r)).
    cbn [rl_cont]. rewrite <- app_assoc, (star_fwd _ _ _ _ (stays_ip buf)) by done. cbn [app].
    rewrite rl_loop_cons.
    change (rl_step buf sw_host_ip_literal (p + 1 + length h) 93 (set_host_start p r))
      with (rl_go sw_host_end (set_host_start p r)). cbn [rl_cont].
    replace (p + 1 + length h + 1)%nat with h' by (subst h'; cbn; rewrite length_app; cbn; lia).
    by apply port_fwd.
Qed.

Lemma host_inv buf p l r q r' : rl_loop buf sw_host_start p l r = rl_at_done q r' ->
  exists h c k, l = host_text h ++ c :: k /\ valid_host h /\
    rl_cont buf (p + length (host_text h)) k
      (host_end_case (p + length (host_text h)) c (set_host_start p r)) = rl_at_done q r'.
Proof.
  intros H. destruct l as [|c l]; [done|]. rewrite rl_loop_cons in H. cbn [rl_step] in H.
  case_decide as Hc.
  - subst c. cbn [rl_cont] in H.
    apply (star_inv _ _ _ _ (stays_ip buf)) in H as (h & c & k & -> & Hh & Hc & H).
    rewrite rl_loop_cons in H. cbn [rl_step] in H. unfold ip_char in Hc.
    apply orb_false_elim in Hc as [[E1 E2]%orb_false_elim Hc]. rewrite E1, E2 in H.
    case_decide as Hb; [subst c|].
    + cbn [rl_cont] in H. destruct k as [|c k]; [done|]. exists (ip_literal h), c, k.
      cbn [host_text]. split_and!; [cbn; by rewrite <- app_assoc|done|].
      cbn [length]. rewrite length_app. cbn [length].
      by replace (p + S (length h + 1))%nat with (p + 1 + length h + 1)%nat by lia.
    + rewrite (bool_decide_eq_true_2 _ Hb) in Hc. cbn in Hc. apply bool_decide_eq_false in Hc.
      rewrite decide_False in H by done. done.
  - destruct (host_char c) eqn:E.
    + rewrite host_case_char in H by done. cbn [rl_cont] in H.
      apply (star_inv _ _ _ _ (stays_host buf)) in H as (h & c' & k & -> & Hh & Hc' & H).
      rewrite rl_loop_cons in H. cbn [rl_step] in H. rewrite host_case_stop in H by done.
      exists (reg_name (c :: h)), c', k. cbn [host_text length].
      replace (p + S (length h))%nat with (p + 1 + length h)%nat by lia. split_and!; [done| |done].
      cbn. by rewrite E.
    + rewrite host_case_stop in H by done. exists (reg_name []), c, l. cbn [host_text length].
      by rewrite Nat.add_0_r.
Qed.

Lemma target_fwd buf p t v cr k r r' : valid_target t v -> valid_version v ->
  line_target p t r = Some r' ->
  rl_loop buf sw_spaces_before_uri p (target_text t ++ version_text v ++ end_text cr ++ k) r =
  ended cr (p + length (target_text t) + length (version_text v))
    (line_version (p + length (target_text t)) v r').
Proof.
  destruct t as [t|c scheme h port f].
  - intros _ Hv H. cbn [line_target] in H.
    destruct (path_uri p (path_slash t) (uri r)) as [u|] eqn:Hu; [|done]. injection H as <-.
    apply (in_uri_fwd buf t _ _ (set_uri (set_uri_start p (uri r)) r)) in Hu as [us' Hu].
    cbn [target_text app]. etransitivity; [apply Hu|]. rewrite in_uri_end by done.
    cbn [length]. by replace (p + 1 + length t)%nat with (p + S (length t))%nat by lia.
  - intros (Hc & Hs & Hh & Hd & Hf) Hv H. cbn [line_target] in H.
    destruct (path_uri _ f _) as [u|] eqn:Hu in H; [|done]. injection H as <-.
    set (te := (p + length (target_text (absolute c scheme h port f)))%nat).
    cbn [target_text]. rewrite <- !app_assoc. cbn [app].
    rewrite rl_loop_cons. apply Is_true_true in Hc. cbn [rl_step].
    rewrite decide_False, Hc by (intros ->; done). cbn [rl_cont].
    rewrite (star_fwd _ _ _ _ (stays_schema buf)) by done.
    change (bstr "://") with [58; 47; 47]. cbn [app].
    set (se := (p + 1 + length scheme)%nat).
    transitivity (rl_loop buf sw_host_start (se + 3)
      (host_text h ++ port_text port ++ path_text f ++ version_text v ++ end_text cr ++ k)
      (set_schema_end se (set_schema_start p r))).
    { by replace (se + 3)%nat with (se + 1 + 1 + 1)%nat by lia. }
    replace (p + length (c :: scheme))%nat with se in * by (subst se; cbn; lia).
    replace (p + S (length scheme))%nat with se by (subst se; lia).
    rewrite (host_fwd _ _ _ _ _ _ _ _ _ se u) by done.
    replace te with
      (se + 3 + length (host_text h) + length (port_text port) + length (path_text f))%nat; [done|].
    subst se te. cbn [target_text length app]. change (bstr "://") with [58; 47; 47].
    rewrite !length_app. cbn [length]. lia.
Qed.

Lemma target_inv buf p l r q r' : rl_loop buf sw_spaces_before_uri p l r = rl_at_done q r' ->
  exists n t v cr k r1, l = spaces n ++ target_text t ++ version_text v ++ end_text cr ++ k /\
    valid_target t v /\ valid_version v /\ line_target (p + n) t r = Some r1.
Proof.
  intros (seg & c & k & -> & Hs%forallb_spaces & Hc & H)%(star_inv _ _ _ _ (stays_before_uri buf)).
  rewrite Hs, length_spaces in *. set (n := length seg) in *. set (s := (p + n)%nat) in *.
  rewrite rl_loop_cons in H. cbn [rl_step] in H. case_decide as E; [subst c|].
  - cbn [rl_cont] in H. apply in_uri_inv in H as (t & u & v & cr & k' & -> & Hv & Hu).
    exists n, (origin t), v, cr, k'. cbn [line_target].
    assert (Hp : path_uri (p + n) (path_slash t) (uri r) = Some u) by exact Hu. rewrite Hp.
    eexists. by split_and!.
  - destruct (is_letter c) eqn:Hl; [|case_decide; [by subst c|done]].
    cbn [rl_cont] in H.
    apply (star_inv _ _ _ _ (stays_schema buf)) in H as (scheme & d & k' & -> & Hsch & Hd & H).
    unfold schema_char in Hd. apply orb_false_elim in Hd as [Hd1 Hd2].
    apply bool_decide_eq_false in Hd2. rewrite rl_loop_cons in H. cbn [rl_step] in H.
    rewrite Hd1, decide_False in H by done. case_decide as E'; [subst d|done]. cbn [rl_cont] in H.
    destruct k' as [|x k']; [done|]. rewrite rl_loop_cons in H. cbn [rl_step] in H.
    unfold expect in H. case_decide; [subst x|done]. cbn [rl_cont] in H.
    destruct k' as [|x k']; [done|]. rewrite rl_loop_cons in H. cbn [rl_step] in H.
    unfold expect in H. case_decide; [subst x|done]. cbn [rl_cont] in H.
    apply host_inv in H as (h & c' & k & -> & Hh & H). unfold host_end_case in H.
    apply port_inv in H as (port & f & v & cr & k' & u & -> & Hp & Hv & Hf & Hu).
    exists n, (absolute c scheme h port f), v, cr, k'. cbn [line_target]. fold s.
    replace (s + length (c :: scheme))%nat with (s + 1 + length scheme)%nat by (cbn; lia).
    replace (s + 1 + length scheme + 3)%nat
      with (s + 1 + length scheme + 1 + 1 + 1)%nat by lia.
    cbn [uri set_host_end set_host_start set_schema_end set_schema_start] in Hu |- *. rewrite Hu.
    eexists.
    split; [|split; [split; [by rewrite Hl|by split_and!]|done]].
    f_equal. cbn [target_text]. rewrite <- !app_assoc. done.
Qed.

(** ** The method *)

Lemma method_not_crlf c : method_char c = true -> is_crlf c = false.
Proof.
  intros H. apply bool_decide_eq_false. by intros [->| ->].
Qed.

Lemma lead_fwd buf c l : method_char c = true -> forall lead p r, forallb is_crlf lead ->
  rl_loop buf sw_start p (lead ++ c :: l) r =
  rl_loop buf sw_method (p + length lead + 1) l (set_request_start (p + length lead) r).
Proof.
  intros Hc. induction lead as [|d lead IH]; intros p r Hl.
  - cbn [app length]. rewrite rl_loop_cons. cbn [rl_step].
    pose proof (method_not_crlf c Hc) as H%bool_decide_eq_false.
    rewrite decide_False, Hc by done. cbn [negb rl_cont]. by rewrite Nat.add_0_r.
  - cbn in Hl. apply andb_prop_elim in Hl as [Hd%bool_decide_unpack Hl].
    cbn [app length]. rewrite rl_loop_cons. cbn [rl_step]. rewrite decide_True by done.
    cbn [rl_cont]. rewrite IH by done.
    by replace (p + 1 + length lead)%nat with (p + S (length lead))%nat by lia.
Qed.

Lemma lead_inv buf l : forall p r q r', rl_loop buf sw_start p l r = rl_at_done q r' ->
  exists lead c k, l = lead ++ c :: k /\ forallb is_crlf lead /\ method_char c = true.
Proof.
  induction l as [|c l IH]; intros p r q r' H; [done|].
  rewrite rl_loop_cons in H. cbn [rl_step] in H. case_decide as Hc.
  - cbn [rl_cont] in H. apply IH in H as (lead & d & k & -> & Hl & Hd).
    exists (c :: lead), d, k. split; [done|]. split; [|done]. cbn. apply andb_prop_intro.
    split; [by apply bool_decide_pack|done].
  - destruct (method_char c) eqn:E; [|done]. by exists [], c, l.
Qed.

Lemma method_fwd buf p m k r s : forallb method_char m -> request_start r = Some s ->
  rl_loop buf sw_method p (m ++ 32 :: k) r =
  rl_loop buf sw_spaces_before_uri (p + length m + 1) k
    (line_method s (p + length m) (slice buf s (p + length m)) r).
Proof.
  intros Hm Hs. rewrite (star_fwd _ _ _ _ (stays_method buf)) by done.
  rewrite rl_loop_cons. cbn [rl_step]. rewrite decide_True, Hs by done. cbn [default rl_cont].
  f_equal. unfold line_method, set_request_start, set_method_end, set_method. cbn.
  by destruct (method_code _); destruct r; cbn in *; subst.
Qed.

Lemma method_inv buf p l r q r' : rl_loop buf sw_method p l r = rl_at_done q r' ->
  exists m k, l = m ++ 32 :: k /\ forallb method_char m.
Proof.
  intros (m & c & k & -> & Hm & Hc & H)%(star_inv _ _ _ _ (stays_method buf)).
  exists m, k. split; [|done]. rewrite rl_loop_cons in H. cbn [rl_step] in H.
  case_decide; [by subst|]. by rewrite Hc in H.
Qed.

(** ** Whole lines *)

Lemma loop_fwd buf p last L k r r1 : valid_line L -> slice buf p last = line_text L ++ k ->
  let ms := (p + length (l_lead L))%nat in
  let me := (ms + length (l_method L))%nat in
  let ts := (me + S (l_spaces L))%nat in
  let te := (ts + length (target_text (l_target L)))%nat in
  line_target ts (l_target L) (line_method ms me (l_method L) r) = Some r1 ->
  rl_loop buf sw_start p (line_text L ++ k) r =
  ended (l_cr L) (te + length (version_text (l_version L))) (line_version te (l_version L) r1).
Proof.
  intros (Hlead & Hne & Hm & Ht & Hv) Hbuf ms me ts te Hr1.
  assert (Hslice : slice buf ms me = l_method L).
  { unfold line_text in Hbuf. rewrite <- !app_assoc in Hbuf. by apply slice_app in Hbuf. }
  unfold line_text. rewrite <- !app_assoc. destruct (l_method L) as [|c m] eqn:Em; [done|].
  cbn [forallb] in Hm. apply andb_prop_elim in Hm as [Hc%Is_true_true Hm]. cbn [app].
  rewrite lead_fwd by done. fold ms.
  change (spaces (S (l_spaces L))) with (32 :: spaces (l_spaces L)). cbn [app].
  rewrite (method_fwd _ _ _ _ _ ms) by done.
  replace (ms + 1 + length m)%nat with me by (subst me; cbn; lia). rewrite Hslice.
  rewrite (star_fwd _ _ _ _ (stays_before_uri buf)) by apply spaces_forallb. rewrite length_spaces.
  replace (me + 1 + l_spaces L)%nat with ts by (subst ts; lia).
  by rewrite (target_fwd _ _ _ _ _ _ _ r1).
Qed.

Lemma loop_inv buf p last r q r' :
  rl_loop buf sw_start p (slice buf p last) r = rl_at_done q r' ->
  exists L k r1, slice buf p last = line_text L ++ k /\ valid_line L /\
    let ms := (p + length (l_lead L))%nat in
    let me := (ms + length (l_method L))%nat in
    line_target (me + S (l_spaces L)) (l_target L) (line_method ms me (l_method L) r) = Some r1.
Proof.
  intros H. pose proof H as (lead & c & l & El & Hlead & Hc)%lead_inv.
  rewrite El, lead_fwd in H by done. pose proof H as (m & k & -> & Hm)%method_inv.
  rewrite (method_fwd _ _ _ _ _ (p + length lead)) in H by done.
  assert (Hslice : slice buf (p + length lead) (p + length lead + 1 + length m) = c :: m).
  { change (c :: m ++ 32 :: k) with ((c :: m) ++ 32 :: k) in El. apply slice_app in El.
    cbn [length] in El. replace (p + length lead + S (length m))%nat
      with (p + length lead + 1 + length m)%nat in El by lia. done. }
  rewrite Hslice in H.
  apply target_inv in H as (n & t & v & cr & k' & r1 & -> & Ht & Hv & Hr1).
  exists (Line lead (c :: m) n t v cr), k', r1. rewrite El. unfold line_text.
  cbn [l_lead l_method l_spaces l_target l_version l_cr]. split_and!.
  - by rewrite <- !app_assoc.
  - split; [done|]. split; [done|]. split; [cbn; by rewrite Hc|done].
  - cbn [length]. rewrite <- Hr1.
    replace (p + length lead + S (length m))%nat with (p + length lead + 1 + length m)%nat by lia.
    f_equal. lia.
Qed.

Lemma line_target_end s t r r1 : line_target s t r = Some r1 -> request_end r1 = request_end r.
Proof.
  destruct t; cbn [line_target]; intros H;
    (destruct (path_uri _ _ _); [|done]); injection H as <-; done.
Qed.

(** What the function does at its end. *)
Lemma done_result buf p last r cr re r1 : request_end r1 = None ->
  rl_loop buf (r_state r) p (slice buf p last) r = ended cr re r1 ->
  ngx_http_parse_request_line buf p last r =
  let r' := set_request_end re r1 in
  let r' := set_http_version (http_major r' * 1000 + http_minor r') (set_state sw_start r') in
  (if decide (http_version r' = 9 /\ method r' <> NGX_HTTP_GET)
   then NGX_HTTP_PARSE_INVALID_09_METHOD else NGX_OK, r', (re + length (end_text cr))%nat).
Proof.
  intros He H. unfold ngx_http_parse_request_line, rl_finish. rewrite H.
  destruct r1; cbn in He; subst. destruct cr; cbn [ended end_text length]; cbn; case_decide;
    rewrite <- ?Nat.add_assoc; done.
Qed.

Definition line_error (rc : Z) : Prop :=
  rc = NGX_HTTP_PARSE_INVALID_METHOD \/ rc = NGX_HTTP_PARSE_INVALID_REQUEST \/
  rc = NGX_HTTP_PARSE_INVALID_VERSION.

Lemma after_host_error pn p c r rc r' : after_host pn p c r = rl_return rc r' -> line_error rc.
Proof.
  unfold after_host, line_error. intros H. repeat case_decide; destruct pn; simplify_eq; auto.
Qed.

Lemma step_error buf st p c r rc r' : rl_step buf st p c r = rl_return rc r' -> line_error rc.
Proof.
  intros H. assert (Hh : forall r1, host_case p c r1 = rl_return rc r' -> line_error rc).
  { intros r1. unfold host_case. destruct (is_letter c); [done|]. case_decide; [done|].
    apply after_host_error. }
  assert (Hi : forall r1, rl_return NGX_HTTP_PARSE_INVALID_REQUEST r1 = rl_return rc r' -> line_error rc).
  { intros r1 E. injection E as <- _. unfold line_error. auto. }
  destruct st; cbn [rl_step version_case] in H; unfold expect, uri_case in H;
    repeat (match type of H with
            | (if ?b then _ else _) = _ => destruct b
            | match ?x with Some _ => _ | None => _ end = _ => destruct x as [[]|]
            end; try discriminate H);
    first [by eapply Hi | by eapply Hh | by eapply after_host_error
          | injection H as <- _; unfold line_error; by auto].
Qed.

Lemma loop_error buf l : forall st p r rc r', rl_loop buf st p l r = rl_at_return rc r' -> line_error rc.
Proof.
  induction l as [|c l IH]; intros st p r rc r' H; [done|]. rewrite rl_loop_cons in H.
  destruct (rl_step buf st p c r) as [st1 r1|r1|rc1 r1] eqn:E; cbn [rl_cont] in H.
  - by eapply IH.
  - done.
  - injection H as <- <-. by eapply step_error.
Qed.

Lemma parse_accepts buf p last r rc r' p' : rc = NGX_OK \/ rc = NGX_HTTP_PARSE_INVALID_09_METHOD ->
  ngx_http_parse_request_line buf p last r = (rc, r', p') ->
  exists q r1, rl_loop buf (r_state r) p (slice buf p last) r = rl_at_done q r1.
Proof.
  unfold ngx_http_parse_request_line, rl_finish. intros Hrc H.
  destruct (rl_loop _ _ _ _ _) as [st q r1|q r1|rc1 r1] eqn:E.
  - injection H as <- _ _. by destruct Hrc.
  - by exists q, r1.
  - apply loop_error in E. injection H as <- _ _. destruct E as [->|[->| ->]]; by destruct Hrc.
Qed.

(** ** Pieces of a line *)

(** The step looks at the memory before its character only. *)
Lemma step_memory buf1 buf2 st p c r : take p buf1 = take p buf2 ->
  rl_step buf1 st p c r = rl_step buf2 st p c r.
Proof.
  intros H. destruct st; try done. cbn [rl_step]. case_decide; [|done].
  assert (Hs : forall m, slice buf1 m p = slice buf2 m p).
  { intros m. unfold slice. by rewrite <- !skipn_firstn_comm, H. }
  by rewrite Hs.
Qed.

Lemma loop_memory buf1 buf2 l : forall st p r, take (p + length l) buf1 = take (p + length l) buf2 ->
  rl_loop buf1 st p l r = rl_loop buf2 st p l r.
Proof.
  induction l as [|c l IH]; intros st p r H; [done|]. cbn [length] in H.
  rewrite !rl_loop_cons, (step_memory buf1 buf2).
  - destruct (rl_step buf2 st p c r); try done. cbn [rl_cont]. apply IH.
    by replace (p + 1 + length l)%nat with (p + S (length l))%nat by lia.
  - apply (f_equal (take p)) in H. by rewrite !take_take, !Nat.min_l in H by lia.
Qed.

Lemma loop_app buf a b : forall st p r,
  rl_loop buf st p (a ++ b) r =
  match rl_loop buf st p a r with rl_at_last st p r => rl_loop buf st p b r | e => e end.
Proof.
  induction a as [|c a IH]; intros st p r; [done|]. cbn [app]. rewrite !rl_loop_cons.
  destruct (rl_step buf st p c r); cbn [rl_cont]; done.
Qed.

Lemma loop_last buf l : forall st p r st' p' r', rl_loop buf st p l r = rl_at_last st' p' r' ->
  p' = (p + length l)%nat.
Proof.
  induction l as [|c l IH]; intros st p r st' p' r' H.
  - injection H as _ <- _. cbn. lia.
  - rewrite rl_loop_cons in H. destruct (rl_step buf st p c r); cbn [rl_cont] in H; try done.
    apply IH in H. cbn. lia.
Qed.

Definition next_set (s : rl_state) (n : rl_next) : rl_next :=
  match n with
  | rl_go st r => rl_go st (set_state s r)
  | rl_done r => rl_done (set_state s r)
  | rl_return rc r => rl_return rc (set_state s r)
  end.

Definition end_set (s : rl_state) (e : rl_end) : rl_end :=
  match e with
  | rl_at_last st p r => rl_at_last st p (set_state s r)
  | rl_at_done p r => rl_at_done p (set_state s r)
  | rl_at_return rc r => rl_at_return rc (set_state s r)
  end.

(** The loop does not look at the saved state. *)
Lemma step_state buf st p c r s :
  rl_step buf st p c (set_state s r) = next_set s (rl_step buf st p c r).
Proof.
  destruct r. destruct st; cbn; unfold expect, uri_case, host_case, host_end_case, after_host, host_space; cbn;
    repeat (match goal with
            | |- context [if ?b then _ else _] => destruct b
            | |- context [match ?x with Some _ => _ | None => _ end] => destruct x as [[]|] || destruct x
            end; cbn [next_set]); reflexivity.
Qed.

Lemma loop_state buf l s : forall st p r,
  rl_loop buf st p l (set_state s r) = end_set s (rl_loop buf st p l r).
Proof.
  induction l as [|c l IH]; intros st p r; [done|]. rewrite !rl_loop_cons, step_state.
  by destruct (rl_step buf st p c r); cbn [next_set rl_cont].
Qed.

(** Equal results, up to the position and the saved state after an error. *)
Definition same_result (a b : Z * request * nat) : Prop :=
  let '(rc, r, p) := a in let '(rc', r', p') := b in
  rc = rc' /\ set_state sw_start r = set_state sw_start r' /\
  (~ line_error rc -> r = r' /\ p = p').

Lemma finish_state pos pos' s e :
  (forall rc r, e = rl_at_return rc r -> line_error rc) ->
  same_result (rl_finish pos (end_set s e)) (rl_finish pos' e).
Proof.
  intros He. destruct e as [st p r|p r|rc r]; cbn.
  - done.
  - destruct r as [? ? [] ? ?]; cbn; case_decide; cbn; done.
  - split; [done|]. split; [done|]. intros []. by eapply He.
Qed.

Lemma same_refl a : same_result a a.
Proof. by destruct a as [[rc r] p]. Qed.

Lemma same_trans a b c : same_result a b -> same_result b c -> same_result a c.
Proof.
  destruct a as [[rc1 r1] p1], b as [[rc2 r2] p2], c as [[rc3 r3] p3].
  intros (-> & E1 & H1) (-> & E2 & H2). split; [done|]. split; [congruence|].
  intros Hn. destruct (H1 Hn), (H2 Hn). split; congruence.
Qed.

Lemma slice_split (buf : list Z) a b c : (a <= b <= c)%nat -> (c <= length buf)%nat ->
  slice buf a c = slice buf a b ++ slice buf b c /\ length (slice buf a b) = (b - a)%nat.
Proof.
  intros H Hc. unfold slice. split.
  - replace (c - a)%nat with ((b - a) + (c - b))%nat by lia.
    rewrite <- (take_drop (b - a) (take (b - a + (c - b)) (drop a buf))).
    rewrite take_take, Nat.min_l by lia. f_equal. rewrite skipn_firstn_comm, drop_drop.
    f_equal; [lia|]. f_equal. lia.
  - rewrite length_take, length_drop. lia.
Qed.

Lemma piece_ok b buf pos m last r : take m b = take m buf -> (pos <= m <= last)%nat ->
  (last <= length buf)%nat ->
  let '(rc, r1, p1) := ngx_http_parse_request_line b pos m r in
  if decide (rc = NGX_AGAIN)
  then p1 = m /\ same_result (ngx_http_parse_request_line buf m last r1)
                             (ngx_http_parse_request_line buf pos last r)
  else ngx_http_parse_request_line buf pos last r = (rc, r1, p1).
Proof.
  intros Hb Hm Hl. unfold ngx_http_parse_request_line.
  destruct (slice_split buf pos m last Hm Hl) as [-> Hlen].
  assert (Hs : slice b pos m = slice buf pos m).
  { unfold slice. by rewrite <- !skipn_firstn_comm, Hb. }
  rewrite Hs, loop_app, (loop_memory b buf) by (rewrite Hlen; by replace (pos + (m - pos))%nat with m by lia).
  destruct (rl_loop buf (r_state r) pos (slice buf pos m) r) as [st p1 r1|p1 r1|rc r1] eqn:E.
  - apply loop_last in E. rewrite Hlen in E. cbn [rl_finish]. rewrite decide_True by done.
    split; [lia|]. replace p1 with m by lia. cbn [r_state set_state]. rewrite loop_state.
    apply finish_state. intros rc r2. apply loop_error.
  - cbn. case_decide; done.
  - apply loop_error in E. cbn [rl_finish]. rewrite decide_False; [done|].
    intros ->. by destruct E as [E|[E|E]].
Qed.

(** ** Properties *)

(** C2: [ngx_http_parse_request_line] accepts exactly the lines of the grammar
    (empty lines, a method token, an absolute or an origin form whose path
    [ngx_http_parse_uri] accepts, HTTP/0.9 or HTTP/1.minor with a minor version
    below 1000, spaces, CRLF or LF) and then sets every field of the request to
    the piece of the line that the grammar names, the target's fields to those
    of [ngx_http_parse_uri], and [b->pos] to the end of the line. *)
Theorem request_line_exact buf pos last r rc r' p :
  r_state r = sw_start -> request_end r = None ->
  (rc = NGX_OK \/ rc = NGX_HTTP_PARSE_INVALID_09_METHOD) /\
  ngx_http_parse_request_line buf pos last r = (rc, r', p) <->
  exists L k, valid_line L /\ slice buf pos last = line_text L ++ k /\
    line_result pos L r = Some (rc, r', p).
Proof.
  intros Hst He.
  assert (Hfwd : forall L k r1, valid_line L -> slice buf pos last = line_text L ++ k ->
    let me := (pos + length (l_lead L) + length (l_method L))%nat in
    line_target (me + S (l_spaces L)) (l_target L)
      (line_method (pos + length (l_lead L)) me (l_method L) r) = Some r1 ->
    line_result pos L r = Some (ngx_http_parse_request_line buf pos last r)).
  { intros L k r1 HL Hbuf me Hr1. subst me. unfold line_result.
    rewrite Hr1. cbn [mbind option_bind]. f_equal. symmetry.
    apply done_result.
    - apply line_target_end in Hr1. cbn in Hr1. rewrite He in Hr1. by destruct (l_version L).
    - rewrite Hst, Hbuf. by apply (loop_fwd _ _ last). }
  split.
  - intros [Hrc H]. pose proof H as (q & r1 & Hl)%parse_accepts; [|done].
    rewrite Hst in Hl. apply loop_inv in Hl as (L & k & r2 & Hbuf & HL & Hr2).
    exists L, k. rewrite <- H. eauto.
  - intros (L & k & HL & Hbuf & H). unfold line_result in H.
    destruct (line_target _ (l_target L) _) as [r1|] eqn:Hr1; [|done].
    pose proof (Hfwd L k r1 HL Hbuf Hr1) as E. unfold line_result in E. rewrite Hr1 in E.
    cbn [mbind option_bind] in *. rewrite H in E. apply Some_inv in E. split; [|done].
    apply Some_inv in H. case_decide; injection H as <- _ _; auto.
Qed.

Lemma request_line_exact_witness :
  let buf := [CR; LF] ++ bstr "PUT  http://h:80?x HTTP/1.1 " ++ [CR; LF; 65] in
  let '(rc, r, p) := ngx_http_parse_request_line buf 0 33 request_zero in
  (rc = NGX_OK \/ rc = NGX_HTTP_PARSE_INVALID_09_METHOD) /\
  method r = NGX_HTTP_PUT /\ http_version r = 1001 /\ p = 32%nat /\
  uri r = Uri (Some 18%nat) (Some 20%nat) None (Some 19%nat) false false false true.
Proof.
  intros buf. destruct (ngx_http_parse_request_line buf 0 33 request_zero) as [[rc r] p] eqn:E.
  split.
  - apply (request_line_exact buf 0 33 request_zero rc r p eq_refl eq_refl).
    exists (Line [CR; LF] (bstr "PUT") 1
      (absolute "h" (bstr "ttp") (reg_name (bstr "h")) (Some (bstr "80")) (path_query (bstr "x")))
      (ver_1 0 (bstr "1") 1) true), [65].
    split; [|split; [vm_compute; reflexivity|rewrite <- E; vm_compute; reflexivity]].
    unfold valid_line. cbn. split; [exact I|]. split; [discriminate|]. split; [exact I|].
    split; [|split; [discriminate|split; [exact I|reflexivity]]].
    split; [exact I|]. split; [exact I|]. split; [exact I|]. split; [exact I|discriminate].
  - vm_compute in E. injection E as <- <- <-. by repeat split.
Defined.

(** C31: A request line that arrives in pieces gives the same as a line that is
    in the buffer at once: the calls of [ngx_http_parse_request_line] that
    return [NGX_AGAIN] and go on in the saved state end with the same code,
    the same fields and, unless the line is invalid, the same position. The
    memory after the data of a call is arbitrary. *)
Theorem request_line_resume buf last : (last <= length buf)%nat -> forall pieces pos r,
  Forall (fun '(b, m) => take m b = take m buf) pieces ->
  StronglySorted le (pos :: map snd pieces ++ [last]) ->
  same_result (feed (pieces ++ [(buf, last)]) pos r) (ngx_http_parse_request_line buf pos last r).
Proof.
  intros Hl. induction pieces as [|[b m] pieces IH]; intros pos r Hb Hs.
  - cbn. destruct (ngx_http_parse_request_line buf pos last r) as [[rc r1] p1].
    case_decide; [subst rc|]; apply same_refl.
  - apply List.Forall_cons_iff in Hb as [Hb Hbs].
    apply StronglySorted_inv in Hs as [Hs Hm]. cbn [map snd app] in Hs, Hm.
    apply List.Forall_cons_iff in Hm as [Hm Hms]. pose proof Hs as [_ Hml]%StronglySorted_inv.
    apply Forall_app in Hml as [_ [Hml _]%List.Forall_cons_iff].
    pose proof (piece_ok b buf pos m last r Hb (conj Hm Hml) Hl) as Hp. cbn [app feed].
    destruct (ngx_http_parse_request_line b pos m r) as [[rc r1] p1]. case_decide.
    + destruct Hp as [-> Hp]. eapply same_trans; [by apply IH|done].
    + rewrite Hp. apply same_refl.
Qed.

Lemma request_line_resume_witness :
  let buf := bstr "POST /a%20b.c HTTP/1.0" ++ [CR; LF] in
  same_result
    (feed ([(bstr "PO#", 2%nat); (bstr "POST /a%2##", 9%nat);
            (bstr "POST /a%20b.c HTTP/1.0" ++ [CR], 23%nat)] ++ [(buf, 24%nat)]) 0 request_zero)
    (ngx_http_parse_request_line buf 0 24 request_zero).
Proof.
  intros buf. apply request_line_resume.
  - vm_compute. lia.
  - repeat (apply List.Forall_cons; [reflexivity|]). apply List.Forall_nil.
  - repeat (apply SSorted_cons; [|repeat (apply List.Forall_cons; [vm_compute; lia|]); apply List.Forall_nil]).
    apply SSorted_nil.
Defined.

Close Scope ch_scope.
