(* ===== verification/HttpHeader.v ===== *)
(** * Header lines

    The state machine [ngx_http_parse_header_line] of ngx_http_parse.c, and the
    loop of [ngx_http_process_request_headers] in ngx_http_request.c that turns
    the lines into the list of headers. Positions are indices into the buffer. *)

From S2P Require Import Prelude NgxString HttpUri.

Open Scope ch_scope.

Definition NGX_HTTP_PARSE_HEADER_DONE : Z := 1.
Definition NGX_HTTP_PARSE_INVALID_HEADER : Z := 14.
Definition NGX_HTTP_LC_HEADER_LEN : nat := 32.

Definition ngx_hash (key c : Z) : Z := u64 (key * 31 + c).

(** The table [lowcase], line by line: zero outside of [0-9A-Za-z-]. *)
Definition lowcase : list Z :=
  replicate 32 0 ++
  replicate 13 0 ++ ["-" : Z] ++ replicate 2 0 ++ bstr "0123456789" ++ replicate 6 0 ++
  [0] ++ bstr "abcdefghijklmnopqrstuvwxyz" ++ replicate 5 0 ++
  [0] ++ bstr "abcdefghijklmnopqrstuvwxyz" ++ replicate 5 0 ++
  replicate 32 0 ++ replicate 32 0 ++ replicate 32 0 ++ replicate 32 0.

Definition lowcase_of (ch : Z) : Z := nth (Z.to_nat ch) lowcase 0.

Inductive hd_state :=
  | sw_start | sw_name | sw_space_before_value | sw_value | sw_space_after_value
  | sw_ignore_line | sw_almost_done | sw_header_almost_done.

#[global] Instance hd_state_eq_dec : EqDecision hd_state.
Proof. solve_decision. Defined.

(** The fields of the request that the function uses; the local copies of
    [state], [header_hash] and [lowcase_index] are [st], [hash] and [i] below. *)
Record hdr := Hdr {
  h_state : hd_state; header_hash : Z; lowcase_index : nat; lowcase_header : list Z;
  header_name_start : option nat; header_name_end : option nat;
  header_start : option nat; header_end : option nat; invalid_header : bool; upstream : bool }.

(** A request as it is allocated. *)
Definition hdr_zero : hdr :=
  Hdr sw_start 0 0 (replicate NGX_HTTP_LC_HEADER_LEN 0) None None None None false false.

Definition set_name_start (p : nat) (h : hdr) : hdr :=
  Hdr (h_state h) (header_hash h) (lowcase_index h) (lowcase_header h) (Some p) (header_name_end h)
      (header_start h) (header_end h) (invalid_header h) (upstream h).
Definition set_name_end (p : nat) (h : hdr) : hdr :=
  Hdr (h_state h) (header_hash h) (lowcase_index h) (lowcase_header h) (header_name_start h) (Some p)
      (header_start h) (header_end h) (invalid_header h) (upstream h).
Definition set_start (p : nat) (h : hdr) : hdr :=
  Hdr (h_state h) (header_hash h) (lowcase_index h) (lowcase_header h) (header_name_start h)
      (header_name_end h) (Some p) (header_end h) (invalid_header h) (upstream h).
Definition set_end (p : nat) (h : hdr) : hdr :=
  Hdr (h_state h) (header_hash h) (lowcase_index h) (lowcase_header h) (header_name_start h)
      (header_name_end h) (header_start h) (Some p) (invalid_header h) (upstream h).
Definition set_invalid (b : bool) (h : hdr) : hdr :=
  Hdr (h_state h) (header_hash h) (lowcase_index h) (lowcase_header h) (header_name_start h)
      (header_name_end h) (header_start h) (header_end h) b (upstream h).
Definition set_lowcase (i : nat) (c : Z) (h : hdr) : hdr :=
  Hdr (h_state h) (header_hash h) (lowcase_index h) (<[i := c]> (lowcase_header h))
      (header_name_start h) (header_name_end h) (header_start h) (header_end h)
      (invalid_header h) (upstream h).
(** The locals are stored. *)
Definition set_locals (st : hd_state) (hash : Z) (i : nat) (h : hdr) : hdr :=
  Hdr st hash i (lowcase_header h) (header_name_start h) (header_name_end h)
      (header_start h) (header_end h) (invalid_header h) (upstream h).

(** What a round does: go on, jump to one of the labels, or return
    [NGX_HTTP_PARSE_INVALID_HEADER]. *)
Inductive hd_next :=
  | hd_go (st : hd_state) (hash : Z) (i : nat) (h : hdr)
  | hd_done (hash : Z) (i : nat) (h : hdr) | hd_header_done (h : hdr) | hd_invalid (h : hdr).

(** The state [sw_start]. *)
Definition start_case (allow_underscores : bool) (p : nat) (ch : Z) (hash : Z) (i : nat) (h : hdr)
  : hd_next :=
  let h := set_invalid false (set_name_start p h) in
  if decide (ch = CR) then hd_go sw_header_almost_done hash i (set_end p h)
  else if decide (ch = LF) then hd_header_done (set_end p h)
  else
    let c := lowcase_of ch in
    if decide (c <> 0) then hd_go sw_name (ngx_hash 0 c) 1 (set_lowcase 0 c h)
    else if decide (ch = "_") then
      if allow_underscores then hd_go sw_name (ngx_hash 0 ch) 1 (set_lowcase 0 ch h)
      else hd_go sw_name 0 0 (set_invalid true h)
    else if decide (ch <= 0x20 \/ ch = 0x7f \/ ch = ":") then hd_invalid (set_end p h)
    else hd_go sw_name 0 0 (set_invalid true h).

(** [r->lowcase_header[i++] = c; i &= (NGX_HTTP_LC_HEADER_LEN - 1)] *)
Definition lc_next (i : nat) : nat := Nat.land (i + 1) (NGX_HTTP_LC_HEADER_LEN - 1).

(** The state [sw_name]; [buf] is the memory in which HTTP is compared. *)
Definition name_case (allow_underscores : bool) (buf : list Z) (p : nat) (ch : Z) (hash : Z) (i : nat)
    (h : hdr) : hd_next :=
  let c := lowcase_of ch in
  if decide (c <> 0) then hd_go sw_name (ngx_hash hash c) (lc_next i) (set_lowcase i c h)
  else if decide (ch = "_") then
    if allow_underscores then hd_go sw_name (ngx_hash hash ch) (lc_next i) (set_lowcase i ch h)
    else hd_go sw_name hash i (set_invalid true h)
  else if decide (ch = ":") then hd_go sw_space_before_value hash i (set_name_end p h)
  else if decide (ch = CR) then
    hd_go sw_almost_done hash i (set_end p (set_start p (set_name_end p h)))
  else if decide (ch = LF) then hd_done hash i (set_end p (set_start p (set_name_end p h)))
  else
    let s := default 0%nat (header_name_start h) in
    if decide (ch = "/" /\ upstream h = true /\ (p - s = 4)%nat /\ slice buf s (s + 4) = bstr "HTTP")
    then hd_go sw_ignore_line hash i h
    else if decide (ch <= 0x20 \/ ch = 0x7f) then hd_invalid (set_end p h)
    else hd_go sw_name hash i (set_invalid true h).

Definition hd_step (allow_underscores : bool) (buf : list Z) (st : hd_state) (p : nat) (ch : Z)
    (hash : Z) (i : nat) (h : hdr) : hd_next :=
  match st with
  | sw_start => start_case allow_underscores p ch hash i h
  | sw_name => name_case allow_underscores buf p ch hash i h
  | sw_space_before_value =>
      if decide (ch = " ") then hd_go sw_space_before_value hash i h
      else if decide (ch = CR) then hd_go sw_almost_done hash i (set_end p (set_start p h))
      else if decide (ch = LF) then hd_done hash i (set_end p (set_start p h))
      else if decide (ch = 0) then hd_invalid (set_end p h)
      else hd_go sw_value hash i (set_start p h)
  | sw_value =>
      if decide (ch = " ") then hd_go sw_space_after_value hash i (set_end p h)
      else if decide (ch = CR) then hd_go sw_almost_done hash i (set_end p h)
      else if decide (ch = LF) then hd_done hash i (set_end p h)
      else if decide (ch = 0) then hd_invalid (set_end p h)
      else hd_go sw_value hash i h
  | sw_space_after_value =>
      if decide (ch = " ") then hd_go sw_space_after_value hash i h
      else if decide (ch = CR) then hd_go sw_almost_done hash i h
      else if decide (ch = LF) then hd_done hash i h
      else if decide (ch = 0) then hd_invalid (set_end p h)
      else hd_go sw_value hash i h
  | sw_ignore_line =>
      if decide (ch = LF) then hd_go sw_start hash i h else hd_go sw_ignore_line hash i h
  | sw_almost_done =>
      if decide (ch = LF) then hd_done hash i h
      else if decide (ch = CR) then hd_go sw_almost_done hash i h
      else hd_invalid h
  | sw_header_almost_done =>
      if decide (ch = LF) then hd_header_done h else hd_invalid h
  end.

Definition hd_result : Type := Z * hdr * nat.

(** The loop with the labels after it: the return code, the request and
    [b->pos], which is [pos] before. *)
Fixpoint hd_loop (allow_underscores : bool) (buf : list Z) (pos : nat) (st : hd_state) (p : nat)
    (l : list Z) (hash : Z) (i : nat) (h : hdr) : hd_result :=
  match l with
  | [] => (NGX_AGAIN, set_locals st hash i h, p)
  | ch :: l =>
      match hd_step allow_underscores buf st p ch hash i h with
      | hd_go st hash i h => hd_loop allow_underscores buf pos st (p + 1) l hash i h
      | hd_done hash i h => (NGX_OK, set_locals sw_start hash i h, (p + 1)%nat)
      | hd_header_done h =>
          (NGX_HTTP_PARSE_HEADER_DONE, set_locals sw_start (header_hash h) (lowcase_index h) h,
           (p + 1)%nat)
      | hd_invalid h => (NGX_HTTP_PARSE_INVALID_HEADER, h, pos)
      end
  end.

Definition ngx_http_parse_header_line (allow_underscores : bool) (buf : list Z) (pos last : nat)
    (h : hdr) : hd_result :=
  hd_loop allow_underscores buf pos (h_state h) pos (slice buf pos last)
    (header_hash h) (lowcase_index h) h.

(** ** The list of headers *)

(** [ngx_table_elt_t]: the strings of the key and the value are pieces of the
    buffer, given by their start and length. *)
Record table_elt := TableElt {
  elt_hash : Z; elt_key : nat * nat; elt_value : nat * nat; lowcase_key : list Z }.

(** A string of the buffer. *)
Definition str_of (buf : list Z) (s : nat * nat) : list Z := slice buf s.1 (s.1 + s.2).

(** The element that is pushed for a line, and the buffer with the two zeros
    that are written after the key and the value. [None] is a null pointer. *)
Definition header_elt (buf : list Z) (h : hdr) : option (table_elt * list Z) :=
  ns ← header_name_start h; ne ← header_name_end h; vs ← header_start h; ve ← header_end h;
  let buf := <[ne := 0]> buf in
  let buf := <[ve := 0]> buf in
  let key := (ns, ne - ns)%nat in
  Some (TableElt (header_hash h) key (vs, ve - vs)%nat
          (if decide (key.2 = lowcase_index h) then take key.2 (lowcase_header h)
           else ngx_strlow (str_of buf key)), buf).

(** The settings of the server. *)
Record hd_conf := HdConf { underscores_in_headers : bool; ignore_invalid_headers : bool }.

(** The loop over the lines that are in the buffer, until the code is not
    [NGX_OK]: the code, the request, [pos], the buffer and the list of headers.
    The handlers of known headers, allocations that fail, and the logging are
    left out. [fuel] bounds the number of lines. *)
Fixpoint ngx_http_process_request_headers (fuel : nat) (cscf : hd_conf) (buf : list Z)
    (pos last : nat) (h : hdr) (headers : list table_elt)
  : option (Z * hdr * nat * list Z * list table_elt) :=
  match fuel with
  | O => None
  | S fuel =>
      let '(rc, h, pos) := ngx_http_parse_header_line (underscores_in_headers cscf) buf pos last h in
      if decide (rc = NGX_OK) then
        if invalid_header h && ignore_invalid_headers cscf then
          ngx_http_process_request_headers fuel cscf buf pos last h headers
        else
          '(e, buf) ← header_elt buf h;
          ngx_http_process_request_headers fuel cscf buf pos last h (headers ++ [e])
      else Some (rc, h, pos, buf, headers)
  end.


(** ** A grammar of the lines *)

(** A field: the lines before it that begin with HTTP/ and that are ignored,
    the name, the text after the colon if there is one, and the number of
    carriage returns before the line feed. *)
Record field := Field {
  f_skip : list (list Z); f_name : list Z; f_raw : option (list Z); f_crs : nat }.

Definition skip_text (skip : list (list Z)) : list Z :=
  concat (map (fun l => bstr "HTTP/" ++ l ++ [LF]) skip).
Definition crlf_text (n : nat) : list Z := replicate n CR ++ [LF].
Definition raw_text (raw : option (list Z)) : list Z :=
  match raw with Some w => ":" :: w | None => [] end.
Definition field_text (F : field) : list Z :=
  skip_text (f_skip F) ++ f_name F ++ raw_text (f_raw F) ++ crlf_text (f_crs F).

Definition name_char (c : Z) : bool := bool_decide (~ (c <= 0x20 \/ c = 0x7f \/ c = ":")).
Definition value_char (c : Z) : bool := bool_decide (~ (c = 0 \/ c = CR \/ c = LF)).
(** A line of an upstream that is ignored. *)
Definition http_line (up : bool) (l : list Z) : Prop := up = true /\ take 5 l = bstr "HTTP/".

Definition valid_skip (up : bool) (skip : list (list Z)) : Prop :=
  (skip <> [] -> up = true) /\ Forall (fun l => LF ∉ l) skip.
Definition valid_field (up : bool) (F : field) : Prop :=
  valid_skip up (f_skip F) /\ f_name F <> [] /\ forallb name_char (f_name F) /\
  ~ http_line up (f_name F) /\ forallb value_char (default [] (f_raw F)).

(** The value without the spaces around it. *)
Fixpoint ltrim (l : list Z) : list Z :=
  match l with c :: l' => if decide (c = " ") then ltrim l' else l | [] => [] end.
Fixpoint rtrim (l : list Z) : list Z :=
  match l with
  | [] => []
  | c :: l => match rtrim l with [] => if decide (c = " ") then [] else [c] | l => c :: l end
  end.
Definition f_value (F : field) : list Z := rtrim (ltrim (default [] (f_raw F))).

(** The character that is stored in [lowcase_header] and hashed, if any. *)
Definition lc (au : bool) (c : Z) : option Z :=
  if decide (lowcase_of c <> 0) then Some (lowcase_of c)
  else if decide (c = "_") then if au then Some c else None
  else None.

Definition valid_name (au : bool) (name : list Z) : bool := forallb (fun c => bool_decide (lc au c <> None)) name.
Definition name_hash (l : list Z) : Z := foldl ngx_hash 0 l.

(** What the request is after the line [F] at [pos]. *)
Definition field_result (au : bool) (pos : nat) (F : field) (h : hdr) (p : nat) : Prop :=
  let ns := (pos + length (skip_text (f_skip F)))%nat in
  let ne := (ns + length (f_name F))%nat in
  let vs := (ne + length (raw_text (f_raw F)) - length (ltrim (default [] (f_raw F))))%nat in
  let low := omap (lc au) (f_name F) in
  header_name_start h = Some ns /\ header_name_end h = Some ne /\
  header_start h = Some vs /\ header_end h = Some (vs + length (f_value F))%nat /\
  invalid_header h = negb (valid_name au (f_name F)) /\
  header_hash h = name_hash low /\ lowcase_index h = (length low mod 32)%nat /\
  ((length low < 32)%nat -> take (length low) (lowcase_header h) = low) /\
  h_state h = sw_start /\ length (lowcase_header h) = 32%nat /\
  p = (pos + length (field_text F))%nat.

(** ** The end of a line *)

Section line.
Context (au : bool) (buf : list Z) (pos : nat).
Local Notation "'loop'" := (hd_loop au buf pos).

Lemma crlf_fwd n k : forall p hash i h,
  loop sw_almost_done p (crlf_text n ++ k) hash i h =
  (NGX_OK, set_locals sw_start hash i h, (p + length (crlf_text n))%nat).
Proof.
  induction n as [|n IH]; intros p hash i h; [done|].
  change (loop sw_almost_done (p + 1) (crlf_text n ++ k) hash i h =
    (NGX_OK, set_locals sw_start hash i h, (p + S (length (crlf_text n)))%nat)).
  rewrite IH. f_equal. lia.
Qed.

Lemma crlf_inv l : forall p hash i h h' p',
  loop sw_almost_done p l hash i h = (NGX_OK, h', p') -> exists n k, l = crlf_text n ++ k.
Proof.
  induction l as [|c l IH]; intros p hash i h h' p' H; [done|]. cbn in H.
  repeat case_decide; simplify_eq.
  - by exists 0%nat, l.
  - apply IH in H as (n & k & ->). by exists (S n), k.
Qed.

(** A state that ends a line, the request being [h1] then. *)
Definition ends (st : hd_state) (p : nat) (h h1 : hdr) : Prop :=
  forall hash i, hd_step au buf st p CR hash i h = hd_go sw_almost_done hash i h1 /\
                 hd_step au buf st p LF hash i h = hd_done hash i h1.

Lemma ends_fwd st p h h1 n k hash i : ends st p h h1 ->
  loop st p (crlf_text n ++ k) hash i h =
  (NGX_OK, set_locals sw_start hash i h1, (p + length (crlf_text n))%nat).
Proof.
  intros He. destruct (He hash i) as [H1 H2]. destruct n as [|n].
  - change (crlf_text 0 ++ k) with (LF :: k). cbn [hd_loop]. by rewrite H2.
  - change (crlf_text (S n) ++ k) with (CR :: crlf_text n ++ k). cbn [hd_loop]. rewrite H1.
    rewrite crlf_fwd. f_equal.
    change (length (crlf_text (S n))) with (S (length (crlf_text n))). lia.
Qed.

Lemma ends_inv st p h h1 c l hash i h' p' : ends st p h h1 -> c = CR \/ c = LF ->
  loop st p (c :: l) hash i h = (NGX_OK, h', p') -> exists n k, c :: l = crlf_text n ++ k.
Proof.
  intros He Hc H. destruct (He hash i) as [H1 H2]. cbn [hd_loop] in H. destruct Hc as [->| ->].
  - rewrite H1 in H. apply crlf_inv in H as (n & k & ->). by exists (S n), k.
  - by exists 0%nat, l.
Qed.

(** ** The value *)

Lemma value_char_spec c : value_char c = true <-> c <> 0 /\ c <> CR /\ c <> LF.
Proof. unfold value_char. rewrite bool_decide_eq_true. tauto. Qed.

Lemma ends_value p h : ends sw_value p h (set_end p h).
Proof. done. Qed.
Lemma ends_space_after p h : ends sw_space_after_value p h h.
Proof. done. Qed.
Lemma ends_space_before p h : ends sw_space_before_value p h (set_end p (set_start p h)).
Proof. done. Qed.

(** The two states of the value; [e] is the end in the state after a space. *)
Lemma value_fwd n k w : forallb value_char w -> forall p hash i h,
  loop sw_value p (w ++ crlf_text n ++ k) hash i h =
    (NGX_OK, set_locals sw_start hash i (set_end (p + length (rtrim w)) h),
     (p + length w + length (crlf_text n))%nat) /\
  (forall e, header_end h = Some e ->
   loop sw_space_after_value p (w ++ crlf_text n ++ k) hash i h =
    (NGX_OK, set_locals sw_start hash i
               (set_end (match rtrim w with [] => e | _ => p + length (rtrim w) end)%nat h),
     (p + length w + length (crlf_text n))%nat)).
Proof.
  induction w as [|c w IH]; intros Hw p hash i h.
  - cbn [app rtrim length]. rewrite Nat.add_0_r. split.
    + by apply ends_fwd.
    + intros e He. rewrite (ends_fwd _ _ _ h) by apply ends_space_after.
      destruct h; cbn in He |- *. by subst.
  - cbn [forallb] in Hw. apply andb_prop_elim in Hw as [Hc%Is_true_true Hw].
    apply value_char_spec in Hc as (H0 & H1 & H2). specialize (IH Hw). cbn [rtrim].
    replace (p + length (c :: w))%nat with (p + 1 + length w)%nat by (cbn; lia).
    cbn [app hd_loop hd_step]. split; [|intros e He];
      rewrite (decide_False (P := c = CR)), (decide_False (P := c = LF)),
        (decide_False (P := c = 0)) by done;
      case_decide as Hs; (destruct (rtrim w) as [|d w'] eqn:E);
      first [rewrite (proj2 (IH (p + 1)%nat hash i (set_end p h)) p) by done
            |rewrite (proj2 (IH (p + 1)%nat hash i h) e) by done
            |rewrite (proj1 (IH (p + 1)%nat hash i h))]; cbn [length];
      rewrite ?Nat.add_0_r;
      try match goal with |- context [(p + 1 + S ?m)%nat] =>
        replace (p + 1 + S m)%nat with (p + S (S m))%nat by lia end; done.
Qed.

Lemma value_inv l : forall st p hash i h h' p', st = sw_value \/ st = sw_space_after_value ->
  loop st p l hash i h = (NGX_OK, h', p') ->
  exists w n k, l = w ++ crlf_text n ++ k /\ forallb value_char w.
Proof.
  induction l as [|c l IH]; intros st p hash i h h' p' Hst H; [done|].
  destruct (value_char c) eqn:Hc.
  - apply value_char_spec in Hc as Hc'. destruct Hc' as (H0 & H1 & H2).
    assert (exists st hash i h, (st = sw_value \/ st = sw_space_after_value) /\
      loop st (p + 1) l hash i h = (NGX_OK, h', p')) as (st1 & hash1 & i1 & h1 & Hst1 & H').
    { destruct Hst as [->| ->]; cbn in H; repeat case_decide; try done; eauto 8. }
    apply IH in H' as (w & n & k & -> & Hw); [|done]. exists (c :: w), n, k.
    split; [done|]. cbn. by rewrite Hc.
  - assert (c = CR \/ c = LF) as Hend.
    { apply bool_decide_eq_false, dec_stable in Hc as [->|Hc]; [|done]. by destruct Hst as [->| ->]. }
    assert (exists h1, ends st p h h1) as [h1 He].
    { destruct Hst as [->| ->]; eexists; [apply ends_value|apply ends_space_after]. }
    eapply ends_inv in H as (n & k & E); [|done|done]. by exists [], n, k.
Qed.

(** From the space after the colon. *)
Lemma raw_fwd n k w : forallb value_char w -> forall p hash i h,
  let vs := (p + length w - length (ltrim w))%nat in
  loop sw_space_before_value p (w ++ crlf_text n ++ k) hash i h =
  (NGX_OK, set_locals sw_start hash i (set_end (vs + length (rtrim (ltrim w))) (set_start vs h)),
   (p + length w + length (crlf_text n))%nat).
Proof.
  induction w as [|c w IH]; intros Hw p hash i h vs.
  - subst vs. cbn [app ltrim rtrim length]. rewrite Nat.sub_0_r, !Nat.add_0_r.
    apply ends_fwd, ends_space_before.
  - cbn [forallb] in Hw. apply andb_prop_elim in Hw as [Hc%Is_true_true Hw].
    apply value_char_spec in Hc as (H0 & H1 & H2). subst vs. cbn [app hd_loop hd_step ltrim].
    case_decide as Hs.
    + rewrite IH by done. cbn [length].
      by replace (p + 1 + length w)%nat with (p + S (length w))%nat by lia.
    + rewrite (decide_False (P := c = CR)), (decide_False (P := c = LF)),
        (decide_False (P := c = 0)) by done.
      rewrite (proj1 (value_fwd n k w Hw (p + 1)%nat hash i (set_start p h))).
      cbn [length]. replace (p + S (length w) - S (length w))%nat with p by lia. cbn [rtrim].
      rewrite (decide_False (P := c = 32)) by done.
      replace (p + S (length w))%nat with (p + 1 + length w)%nat by lia.
      destruct (rtrim w) as [|d w']; cbn [length].
      * by rewrite Nat.add_0_r.
      * by replace (p + 1 + S (length w'))%nat with (p + S (S (length w')))%nat by lia.
Qed.

Lemma raw_inv l : forall p hash i h h' p',
  loop sw_space_before_value p l hash i h = (NGX_OK, h', p') ->
  exists w n k, l = w ++ crlf_text n ++ k /\ forallb value_char w.
Proof.
  induction l as [|c l IH]; intros p hash i h h' p' H; [done|].
  destruct (decide (c = CR \/ c = LF)) as [Hc|Hc].
  - eapply ends_inv in H as (n & k & E); [|apply ends_space_before|done]. by exists [], n, k.
  - cbn [hd_loop hd_step] in H. case_decide as Hs.
    + apply IH in H as (w & n & k & -> & Hw). exists (c :: w), n, k. subst c. by split.
    + repeat case_decide; try tauto; try done. apply value_inv in H as (w & n & k & -> & Hw); [|auto].
      exists (c :: w), n, k. split; [done|]. cbn.
      rewrite (proj2 (value_char_spec c)); [done|tauto].
Qed.

(** ** The name *)

(** What a character of the name does to the hash, the index and the request. *)
Definition name_put (c : Z) (s : Z * nat * hdr) : Z * nat * hdr :=
  let '(hash, i, h) := s in
  match lc au c with
  | Some d => (ngx_hash hash d, lc_next i, set_lowcase i d h)
  | None => (hash, i, set_invalid true h)
  end.

Definition name_run (s : Z * nat * hdr) (w : list Z) : Z * nat * hdr := foldl (fun s c => name_put c s) s w.

Lemma lowcase_range c : lowcase_of c <> 0 -> 32 < c /\ c <> 58 /\ c <> 127 /\ c <> 95.
Proof.
  intros H. assert (is_byte c) as Hb.
  { unfold is_byte. destruct (decide (256 <= c)) as [Hc|Hc].
    - destruct H. unfold lowcase_of. apply nth_overflow. change (length lowcase) with 256%nat. lia.
    - destruct (decide (c < 0)) as [Hn|Hn]; [|lia]. destruct H. unfold lowcase_of.
      by replace (Z.to_nat c) with 0%nat by lia. }
  assert (Hd : implb (bool_decide (lowcase_of c <> 0))
    (bool_decide (32 < c /\ c <> 58 /\ c <> 127 /\ c <> 95)) = true).
  { revert c Hb H. intros c Hb _. byte_sweep c Hb. }
  rewrite (bool_decide_eq_true_2 _ H) in Hd. by apply bool_decide_eq_true in Hd.
Qed.

Lemma name_char_spec c : name_char c = true <-> ~ (c <= 32 \/ c = 127 \/ c = 58).
Proof. unfold name_char. by rewrite bool_decide_eq_true. Qed.

(** The character that makes the state machine ignore the line. *)
Definition http_case (p : nat) (c : Z) (h : hdr) : Prop :=
  let s := default 0%nat (header_name_start h) in
  c = 47 /\ upstream h = true /\ (p - s = 4)%nat /\ slice buf s (s + 4) = bstr "HTTP".

Lemma name_step p c hash i h : name_char c = true -> ~ http_case p c h ->
  hd_step au buf sw_name p c hash i h =
  let '(hash, i, h) := name_put c (hash, i, h) in hd_go sw_name hash i h.
Proof.
  intros Hc%name_char_spec Hh. cbn [hd_step]. unfold name_case, name_put, lc.
  destruct (decide (lowcase_of c <> 0)); [done|].
  destruct (decide (c = 95)); [by destruct au|].
  rewrite (decide_False (P := c = 58)), (decide_False (P := c = CR)), (decide_False (P := c = LF))
    by (unfold CR, LF; lia).
  rewrite decide_False by exact Hh. by rewrite decide_False by lia.
Qed.

Lemma start_step p c hash i h : name_char c = true ->
  hd_step au buf sw_start p c hash i h =
  let '(hash, i, h) := name_put c (0, 0%nat, set_invalid false (set_name_start p h)) in
  hd_go sw_name hash i h.
Proof.
  intros Hc%name_char_spec. cbn [hd_step]. unfold start_case, name_put, lc.
  rewrite (decide_False (P := c = CR)), (decide_False (P := c = LF)) by (unfold CR, LF; lia).
  destruct (decide (lowcase_of c <> 0)); [done|].
  destruct (decide (c = 95)); [by destruct au|]. by rewrite decide_False by lia.
Qed.

Lemma put_keeps c hash i h : let '(_, _, h') := name_put c (hash, i, h) in
  header_name_start h' = header_name_start h /\ upstream h' = upstream h /\
  length (lowcase_header h') = length (lowcase_header h).
Proof. cbn. destruct (lc au c); cbn; [by rewrite length_insert|done]. Qed.

Lemma run_keeps w : forall hash i h, let '(_, _, h') := name_run (hash, i, h) w in
  header_name_start h' = header_name_start h /\ upstream h' = upstream h /\
  length (lowcase_header h') = length (lowcase_header h).
Proof.
  induction w as [|c w IH]; intros hash i h; [done|].
  change (name_run (hash, i, h) (c :: w)) with (name_run (name_put c (hash, i, h)) w).
  pose proof (put_keeps c hash i h) as Hp. destruct (name_put c (hash, i, h)) as [[hash1 i1] h1].
  specialize (IH hash1 i1 h1). destruct (name_run _ w) as [[hash2 i2] h2].
  destruct Hp as (? & ? & ?), IH as (? & ? & ?). split_and!; congruence.
Qed.

(** At the position [p] the part [u] of the name has been read. *)
Definition at_name (p last : nat) (u l : list Z) (h : hdr) : Prop :=
  exists ns, header_name_start h = Some ns /\ p = (ns + length u)%nat /\ slice buf ns last = u ++ l.

Lemma at_name_slice p last u l h : at_name p last u l h ->
  slice buf (default 0%nat (header_name_start h)) p = u /\
  (p - default 0%nat (header_name_start h))%nat = length u.
Proof.
  intros (ns & -> & -> & Hb). cbn. split; [|lia].
  apply (slice_app _ _ _ [] u l) in Hb. cbn in Hb. by rewrite Nat.add_0_r in Hb.
Qed.

Lemma at_name_put p last u c l hash i h hash' i' h' : at_name p last u (c :: l) h ->
  name_put c (hash, i, h) = (hash', i', h') -> at_name (p + 1) last (u ++ [c]) l h'.
Proof.
  intros (ns & Hn & -> & Hb) E. pose proof (put_keeps c hash i h) as Hk. rewrite E in Hk.
  exists ns. rewrite <- app_assoc, length_app. cbn. split_and!; [by destruct Hk as [-> _]|lia|done].
Qed.

Lemma http_case_iff p last u c l h : at_name p last u (c :: l) h ->
  http_case p c h <-> upstream h = true /\ u ++ [c] = bstr "HTTP/".
Proof.
  intros Ha. destruct (at_name_slice _ _ _ _ _ Ha) as [Hs Hl]. unfold http_case. split.
  - intros (-> & Hup & H4 & Hh). split; [done|].
    replace (default 0%nat (header_name_start h) + 4)%nat with p in Hh by lia.
    rewrite Hs in Hh. by rewrite Hh.
  - intros [Hup E]. change (bstr "HTTP/") with (bstr "HTTP" ++ [47]) in E.
    apply app_inj_tail in E as [-> ->]. split_and!; [done|done|done|].
    by replace (default 0%nat (header_name_start h) + 4)%nat with p by (cbn in Hl; lia).
Qed.

Lemma http_line_mono up u w : http_line up u -> length u = 5%nat -> http_line up (u ++ w).
Proof. intros [? E] H5. split; [done|]. by rewrite take_app_le by lia. Qed.

Lemma name_fwd last k w : forallb name_char w -> forall u p hash i h,
  at_name p last u (w ++ k) h -> ~ http_line (upstream h) (u ++ w) ->
  loop sw_name p (w ++ k) hash i h =
  let '(hash', i', h') := name_run (hash, i, h) w in loop sw_name (p + length w) k hash' i' h'.
Proof.
  induction w as [|c w IH]; intros Hw u p hash i h Ha Hn.
  - cbn. by rewrite Nat.add_0_r.
  - cbn [forallb] in Hw. apply andb_prop_elim in Hw as [Hc%Is_true_true Hw]. cbn [app hd_loop].
    rewrite name_step; [|done|].
    + change (name_run (hash, i, h) (c :: w)) with (name_run (name_put c (hash, i, h)) w).
      pose proof (put_keeps c hash i h) as Hk.
      destruct (name_put c (hash, i, h)) as [[hash1 i1] h1] eqn:E.
      rewrite (IH Hw (u ++ [c])).
      * cbn [length]. by replace (p + 1 + length w)%nat with (p + S (length w))%nat by lia.
      * by eapply at_name_put.
      * destruct Hk as (_ & -> & _). by rewrite <- app_assoc.
    + rewrite (http_case_iff _ _ _ _ _ _ Ha). intros [Hup E]. apply Hn.
      change (c :: w) with ([c] ++ w). rewrite app_assoc. apply http_line_mono; [|by rewrite E].
      split; [done|]. by rewrite E.
Qed.

Lemma name_inv last l : forall u p hash i h rc h' p',
  at_name p last u l h -> ~ http_line (upstream h) u ->
  loop sw_name p l hash i h = (rc, h', p') -> rc <> NGX_AGAIN ->
  exists w c k hash1 i1 h1, l = w ++ c :: k /\ forallb name_char w /\
    ~ http_line (upstream h) (u ++ w) /\ upstream h1 = upstream h /\
    loop sw_name (p + length w) (c :: k) hash1 i1 h1 = (rc, h', p') /\
    (name_char c = false \/
     upstream h = true /\ u ++ w ++ [c] = bstr "HTTP/" /\ http_case (p + length w) c h1).
Proof.
  induction l as [|c l IH]; intros u p hash i h rc h' p' Ha Hn H Hrc.
  - cbn in H. by injection H as <- _ _.
  - destruct (name_char c) eqn:Hc.
    + destruct (decide (upstream h = true /\ u ++ [c] = bstr "HTTP/")) as [Hh|Hh].
      * exists [], c, l, hash, i, h. cbn [length app]. rewrite Nat.add_0_r, app_nil_r.
        split_and!; try done. right. split; [tauto|]. split; [tauto|].
        by apply (http_case_iff _ _ _ _ _ _ Ha).
      * pose proof Hh as Hh'. rewrite <- (http_case_iff _ _ _ _ _ _ Ha) in Hh'.
        cbn [hd_loop] in H. rewrite name_step in H by done.
        pose proof (put_keeps c hash i h) as Hk.
        destruct (name_put c (hash, i, h)) as [[hash1 i1] h1] eqn:E. destruct Hk as (_ & Hup & _).
        apply (IH (u ++ [c])) in H as (w & d & k & hash2 & i2 & h2 & -> & Hw & Hnw & Hup2 & H & Hd);
          [| |rewrite Hup|done].
        -- exists (c :: w), d, k, hash2, i2, h2. rewrite Hup in *. rewrite <- !app_assoc in *. cbn [length].
           replace (p + S (length w))%nat with (p + 1 + length w)%nat by lia.
           split; [done|]. split; [cbn; by rewrite Hc|]. by split_and!.
        -- by eapply at_name_put.
        -- intros [Hu E']. destruct (decide (5 <= length u)%nat).
           ++ rewrite take_app_le in E' by done. by destruct Hn.
           ++ rewrite take_ge in E' by (rewrite length_app; cbn; lia). by destruct Hh.
    + exists [], c, l, hash, i, h. cbn [length app]. rewrite Nat.add_0_r, app_nil_r.
      split_and!; try done. by left.
Qed.

(** ** Lines that are ignored *)

Lemma ignore_fwd t k : LF ∉ t -> forall p hash i h,
  loop sw_ignore_line p (t ++ LF :: k) hash i h = loop sw_start (p + length t + 1) k hash i h.
Proof.
  induction t as [|c t IH]; intros Ht p hash i h.
  - cbn. by rewrite Nat.add_0_r.
  - apply not_elem_of_cons in Ht as [Hc Ht]. cbn [app hd_loop hd_step length].
    rewrite decide_False by done. rewrite IH by done. f_equal. lia.
Qed.

Lemma ignore_inv l : forall p hash i h rc h' p', rc <> NGX_AGAIN ->
  loop sw_ignore_line p l hash i h = (rc, h', p') ->
  exists t k, l = t ++ LF :: k /\ (LF ∉ t) /\
    loop sw_start (p + length t + 1) k hash i h = (rc, h', p').
Proof.
  induction l as [|c l IH]; intros p hash i h rc h' p' Hrc H.
  - cbn in H. by injection H as <- _ _.
  - cbn [hd_loop hd_step] in H. case_decide as Hc.
    + subst c. exists [], l. cbn. rewrite Nat.add_0_r. split_and!; [done|apply not_elem_of_nil|done].
    + apply IH in H as (t & k & -> & Ht & H); [|done]. exists (c :: t), k. cbn [length].
      replace (p + S (length t) + 1)%nat with (p + 1 + length t + 1)%nat by lia.
      split_and!; [done|by apply not_elem_of_cons|done].
Qed.

(** ** The start of a line *)

Lemma start_name c p last l h : slice buf p last = c :: l ->
  let '(hash, i, h1) := name_put c (0, 0%nat, set_invalid false (set_name_start p h)) in
  at_name (p + 1) last [c] l h1 /\ upstream h1 = upstream h /\
  length (lowcase_header h1) = length (lowcase_header h).
Proof.
  intros Hb. pose proof (put_keeps c 0 0 (set_invalid false (set_name_start p h))) as Hk.
  destruct (name_put c _) as [[hash i] h1]. destruct Hk as (Hn & Hu & Hl).
  split_and!; [|done|done]. exists p. split_and!; [done|done|done].
Qed.

Lemma slice_tail s a b e : slice buf s e = a ++ b -> slice buf (s + length a) e = b.
Proof.
  unfold slice. intros H. rewrite <- drop_drop.
  replace (e - (s + length a))%nat with (e - s - length a)%nat by lia.
  by rewrite <- skipn_firstn_comm, H, drop_app_length.
Qed.

(** The beginning of a line that is ignored. *)
Lemma http_fwd p last t k hash i h : upstream h = true -> LF ∉ t ->
  slice buf p last = bstr "HTTP/" ++ t ++ LF :: k -> exists hash' i' h',
  loop sw_start p (bstr "HTTP/" ++ t ++ LF :: k) hash i h =
    loop sw_start (p + length (bstr "HTTP/" ++ t ++ [LF])) k hash' i' h' /\
  upstream h' = upstream h /\ length (lowcase_header h') = length (lowcase_header h).
Proof.
  intros Hup Ht Hb.
  change (bstr "HTTP/" ++ t ++ LF :: k) with (72 :: bstr "TTP" ++ 47 :: t ++ LF :: k) in Hb |- *.
  pose proof (start_name 72 _ _ _ h Hb) as Hs. cbn [hd_loop]. rewrite start_step by done.
  destruct (name_put 72 _) as [[hash1 i1] h1] eqn:E. clear E. destruct Hs as (Ha & Hu1 & Hl1).
  rewrite (name_fwd last (47 :: t ++ LF :: k) (bstr "TTP") I [72] _ _ _ _ Ha) by (by intros [_ E]).
  pose proof (run_keeps (bstr "TTP") hash1 i1 h1) as Hk.
  destruct (name_run _ (bstr "TTP")) as [[hash2 i2] h2] eqn:E. clear E.
  destruct Hk as (Hn2 & Hu2 & Hl2).
  assert (Hc : http_case (p + 1 + length (bstr "TTP")) 47 h2).
  { destruct Ha as (ns & Hns & Hp & Hb'). cbn in Hp. apply (http_case_iff _ last (bstr "HTTP") _ (t ++ LF :: k)).
    - exists ns. rewrite Hn2. split; [done|]. split; [cbn; lia|done].
    - by rewrite Hu2, Hu1. }
  cbn [hd_loop hd_step]. unfold name_case. rewrite decide_False by (by intros []).
  do 4 (rewrite decide_False by done). rewrite decide_True by exact Hc.
  exists hash2, i2, h2. rewrite ignore_fwd by done.
  split_and!; [|congruence|congruence]. f_equal.
  change (bstr "HTTP/" ++ t ++ [LF]) with (72 :: bstr "TTP" ++ 47 :: t ++ [LF]).
  cbn [length]. rewrite length_app. cbn [length]. rewrite length_app. cbn [length]. lia.
Qed.

Lemma skip_fwd up last sk k : valid_skip up sk -> forall p hash i h, upstream h = up ->
  slice buf p last = skip_text sk ++ k -> exists hash' i' h',
  loop sw_start p (skip_text sk ++ k) hash i h = loop sw_start (p + length (skip_text sk)) k hash' i' h' /\
  upstream h' = up /\ length (lowcase_header h') = length (lowcase_header h).
Proof.
  induction sk as [|t sk IH]; intros [Hup Hlf] p hash i h Hh Hb.
  - exists hash, i, h. cbn. by rewrite Nat.add_0_r.
  - apply List.Forall_cons_iff in Hlf as [Ht Hlf]. specialize (Hup ltac:(done)). subst up.
    assert (Etext : skip_text (t :: sk) ++ k = bstr "HTTP/" ++ t ++ LF :: skip_text sk ++ k).
    { unfold skip_text. cbn [map concat]. by rewrite <- !app_assoc. }
    rewrite Etext in *. destruct (http_fwd p last t _ hash i h Hh Ht Hb) as (hash1 & i1 & h1 & -> & Hu1 & Hl1).
    replace (bstr "HTTP/" ++ t ++ LF :: skip_text sk ++ k)
      with ((bstr "HTTP/" ++ t ++ [LF]) ++ skip_text sk ++ k) in Hb by (by rewrite <- !app_assoc).
    apply slice_tail in Hb.
    destruct (IH ltac:(done) _ hash1 i1 h1 ltac:(congruence) Hb) as (hash2 & i2 & h2 & -> & Hu2 & Hl2).
    exists hash2, i2, h2. split_and!; [|congruence|congruence]. f_equal.
    unfold skip_text. cbn [map concat]. rewrite !length_app. cbn. lia.
Qed.

(** ** The name in lower case *)

Lemma lc_next_mod i : lc_next i = ((i + 1) mod 32)%nat.
Proof. unfold lc_next. change (NGX_HTTP_LC_HEADER_LEN - 1)%nat with (Nat.ones 5). apply Nat.land_ones. Qed.

(** [a] are the characters that have been stored. *)
Definition stored (a : list Z) (s : Z * nat * hdr) : Prop :=
  let '(hash, i, h) := s in
  hash = name_hash a /\ i = (length a mod 32)%nat /\ length (lowcase_header h) = 32%nat /\
  ((length a < 32)%nat -> take (length a) (lowcase_header h) = a).

Lemma put_stored a c s : stored a s ->
  stored (a ++ option_list (lc au c)) (name_put c s) /\
  invalid_header (name_put c s).2 = invalid_header s.2 || negb (bool_decide (lc au c <> None)).
Proof.
  destruct s as [[hash i] h]. intros (-> & -> & Hl & Ht). cbn [name_put].
  destruct (lc au c) as [d|] eqn:E; cbn [option_list].
  - cbn [stored fst snd set_lowcase lowcase_header invalid_header].
    rewrite bool_decide_eq_true_2 by done. cbn [negb]. rewrite orb_false_r, length_insert, length_app. cbn [length]. split; [|done].
    split_and!; [unfold name_hash; by rewrite foldl_app| |done|].
    + rewrite lc_next_mod. by rewrite Nat.Div0.add_mod_idemp_l.
    + intros Hlt. rewrite Nat.mod_small by lia.
      rewrite <- (Ht ltac:(lia)) at 3. rewrite Nat.add_1_r.
      erewrite take_S_r by (apply list_lookup_insert_eq; lia). by rewrite take_insert_ge by lia.
  - rewrite app_nil_r. cbn. split; [done|]. by rewrite orb_true_r.
Qed.

Lemma run_stored w : forall a s, stored a s ->
  stored (a ++ omap (lc au) w) (name_run s w) /\
  invalid_header (name_run s w).2 = invalid_header s.2 || negb (valid_name au w).
Proof.
  induction w as [|c w IH]; intros a s Hs.
  - cbn. by rewrite app_nil_r, orb_false_r.
  - change (name_run s (c :: w)) with (name_run (name_put c s) w).
    destruct (put_stored a c s Hs) as [Hs1 Hi1]. destruct (IH _ _ Hs1) as [Hs2 Hi2].
    replace (a ++ omap (lc au) (c :: w)) with ((a ++ option_list (lc au c)) ++ omap (lc au) w).
    + split; [done|]. rewrite Hi2, Hi1. cbn [valid_name forallb].
      by destruct (bool_decide _), (invalid_header s.2).
    + rewrite <- app_assoc. f_equal. cbn. by destruct (lc au c).
Qed.

(** ** Whole lines *)

Lemma colon_step p hash i h :
  hd_step au buf sw_name p 58 hash i h = hd_go sw_space_before_value hash i (set_name_end p h).
Proof. done. Qed.

Lemma ends_name p h : ends sw_name p h (set_end p (set_start p (set_name_end p h))).
Proof. done. Qed.

(** From the end of the name. *)
Lemma rest_fwd raw n k p hash i h : forallb value_char (default [] raw) ->
  let vs := (p + length (raw_text raw) - length (ltrim (default [] raw)))%nat in
  loop sw_name p (raw_text raw ++ crlf_text n ++ k) hash i h =
  (NGX_OK, set_locals sw_start hash i
     (set_end (vs + length (rtrim (ltrim (default [] raw)))) (set_start vs (set_name_end p h))),
   (p + length (raw_text raw) + length (crlf_text n))%nat).
Proof.
  intros Hw vs. subst vs. destruct raw as [w|]; cbn [raw_text default length app] in *.
  - cbn [hd_loop]. rewrite colon_step, raw_fwd by done.
    by replace (p + 1 + length w)%nat with (p + S (length w))%nat by lia.
  - rewrite Nat.add_0_r. cbn [ltrim rtrim length]. rewrite Nat.sub_0_r, Nat.add_0_r.
    apply ends_fwd, ends_name.
Qed.

Lemma rest_inv p c k hash i h h' p' : name_char c = false ->
  loop sw_name p (c :: k) hash i h = (NGX_OK, h', p') ->
  exists raw n k', c :: k = raw_text raw ++ crlf_text n ++ k' /\ forallb value_char (default [] raw).
Proof.
  intros Hc H. destruct (decide (c = 58)) as [->|H58].
  - cbn [hd_loop] in H. rewrite colon_step in H. apply raw_inv in H as (w & n & k' & -> & Hw).
    by exists (Some w), n, k'.
  - destruct (decide (c = CR \/ c = LF)) as [He|He].
    + eapply ends_inv in H as (n & k' & E); [|apply ends_name|done]. by exists None, n, k'.
    + exfalso. assert (Hl : lowcase_of c = 0 /\ c <> 95 /\ c <> 47 /\ (c <= 32 \/ c = 127)).
      { apply bool_decide_eq_false, dec_stable in Hc. split; [|lia].
        destruct (decide (lowcase_of c = 0)) as [|Hn]; [done|]. apply lowcase_range in Hn. lia. }
      destruct Hl as (H0 & H95 & H47 & Hbad). cbn [hd_loop hd_step] in H. unfold name_case in H.
      rewrite H0, (decide_False (P := 0 <> 0)), (decide_False (P := c = 95)),
        (decide_False (P := c = 58)), (decide_False (P := c = CR)), (decide_False (P := c = LF)) in H
        by tauto.
      rewrite decide_False in H by tauto. by rewrite decide_True in H.
Qed.

Lemma field_fwd last F k p hash i h : valid_field (upstream h) F ->
  length (lowcase_header h) = 32%nat -> slice buf p last = field_text F ++ k -> exists h' p',
  loop sw_start p (field_text F ++ k) hash i h = (NGX_OK, h', p') /\ field_result au p F h' p' /\
  upstream h' = upstream h.
Proof.
  intros (Hsk & Hne & Hname & Hhttp & Hraw) Hl Hb. unfold field_text in *.
  rewrite <- !app_assoc in *.
  destruct (skip_fwd _ _ _ _ Hsk p hash i h eq_refl Hb) as (hash0 & i0 & h0 & -> & Hu0 & Hl0).
  apply slice_tail in Hb. set (ns := (p + length (skip_text (f_skip F)))%nat) in *.
  destruct F as [sk name raw n]. cbn [f_skip f_name f_raw f_crs] in *.
  destruct name as [|c w]; [done|]. cbn [app forallb] in *.
  apply andb_prop_elim in Hname as [Hc%Is_true_true Hw].
  pose proof (start_name _ _ _ _ h0 Hb) as Hs. cbn [hd_loop]. rewrite start_step by done.
  assert (Hst : stored [] (0, 0%nat, set_invalid false (set_name_start ns h0))).
  { split_and!; [done|done|by rewrite <- Hl, <- Hl0|done]. }
  destruct (run_stored (c :: w) _ _ Hst) as [Hst1 Hinv].
  change (name_run (0, 0%nat, set_invalid false (set_name_start ns h0)) (c :: w))
    with (name_run (name_put c (0, 0%nat, set_invalid false (set_name_start ns h0))) w) in *.
  destruct (name_put c _) as [[hash1 i1] h1]. destruct Hs as (Ha & Hu1 & Hl1).
  rewrite (name_fwd last _ _ Hw [c] _ _ _ _ Ha) by (by rewrite Hu1, Hu0).
  pose proof (run_keeps w hash1 i1 h1) as Hk.
  destruct (name_run (hash1, i1, h1) w) as [[hash2 i2] h2]. destruct Hk as (Hn2 & Hu2 & Hl2).
  rewrite rest_fwd by done. eexists _, _. split; [reflexivity|].
  split; [|cbn; congruence]. destruct Hst1 as (-> & -> & Hlen & Hlow). destruct Ha as (ns' & Hns & Hp & _).
  unfold field_result. cbn [f_skip f_name f_raw f_crs]. fold ns.
  replace (ns + length (c :: w))%nat with (ns + 1 + length w)%nat by (cbn; lia).
  split_and!; try done.
  - cbn. rewrite Hn2, Hns. f_equal. cbn in Hp. lia.
  - unfold field_text. cbn [f_skip f_name f_raw f_crs]. rewrite !length_app. cbn [length].
    subst ns. lia.
Qed.

Lemma no_header_done l : forall st p hash i h h' p',
  st <> sw_start -> st <> sw_name -> st <> sw_ignore_line -> st <> sw_header_almost_done ->
  loop st p l hash i h <> (NGX_HTTP_PARSE_HEADER_DONE, h', p').
Proof.
  induction l as [|c l IH]; intros st p hash i h h' p' H1 H2 H3 H4 H; [done|].
  cbn [hd_loop] in H. destruct st; try done; cbn [hd_step] in H; repeat case_decide; try done;
    by apply IH in H.
Qed.

Lemma rest_no_done p c k hash i h h' p' : name_char c = false ->
  loop sw_name p (c :: k) hash i h <> (NGX_HTTP_PARSE_HEADER_DONE, h', p').
Proof.
  intros Hc%bool_decide_eq_false%dec_stable H. cbn [hd_loop hd_step] in H. unfold name_case in H.
  rewrite decide_False in H.
  - rewrite (decide_False (P := c = 95)) in H by lia. case_decide; [by apply no_header_done in H|].
    case_decide; [by apply no_header_done in H|]. case_decide; [done|].
    rewrite decide_False in H by (intros [-> _]; lia). by rewrite decide_True in H by lia.
  - intros Hn. apply lowcase_range in Hn. lia.
Qed.

(** What a line is that ends in [NGX_OK] or in the end of the headers. *)
Definition header_line (up : bool) (rc : Z) (l : list Z) : Prop :=
  (rc = NGX_OK -> exists F k, l = field_text F ++ k /\ valid_field up F) /\
  (rc = NGX_HTTP_PARSE_HEADER_DONE -> exists sk (cr : bool) k,
     l = skip_text sk ++ (if cr then [CR; LF] else [LF] : list Z) ++ k /\ valid_skip up sk).

Lemma header_line_skip up rc t l : up = true -> LF ∉ t -> header_line up rc l ->
  header_line up rc (bstr "HTTP/" ++ t ++ LF :: l).
Proof.
  intros Hup Ht [H1 H2]. assert (Hsk : forall sk, valid_skip up sk -> valid_skip up (t :: sk)).
  { intros sk [_ Hs]. split; [done|]. by apply List.Forall_cons. }
  split; intros Hrc.
  - destruct (H1 Hrc) as ([sk name raw n] & k & -> & Hv & ?). exists (Field (t :: sk) name raw n), k.
    split; [|by split; [apply Hsk|]]. unfold field_text, skip_text. cbn [f_skip map concat].
    by rewrite <- !app_assoc.
  - destruct (H2 Hrc) as (sk & cr & k & -> & Hv). exists (t :: sk), cr, k.
    split; [|by apply Hsk]. unfold skip_text. cbn [map concat]. by rewrite <- !app_assoc.
Qed.

Lemma header_line_done up (cr : bool) k :
  header_line up NGX_HTTP_PARSE_HEADER_DONE ((if cr then [CR; LF] else [LF]) ++ k).
Proof.
  split; [done|]. intros _. exists [], cr, k. split; [done|]. split; [done|apply List.Forall_nil].
Qed.

Lemma start_inv last n : forall l p hash i h rc h' p', (length l <= n)%nat ->
  slice buf p last = l -> loop sw_start p l hash i h = (rc, h', p') -> header_line (upstream h) rc l.
Proof.
  induction n as [|n IH]; intros l p hash i h rc h' p' Hn Hb H.
  { destruct l; [|cbn in Hn; lia]. cbn in H. injection H as <- _ _. by split. }
  destruct (decide (rc = NGX_OK \/ rc = NGX_HTTP_PARSE_HEADER_DONE)) as [Hrc|Hrc]; [|split; tauto].
  assert (Hag : rc <> NGX_AGAIN) by (by destruct Hrc as [->| ->]).
  destruct l as [|c l]; [cbn in H; by injection H as <- _ _|]. destruct (name_char c) eqn:Hc.
  - pose proof (start_name _ _ _ _ h Hb) as Hs. cbn [hd_loop] in H. rewrite start_step in H by done.
    destruct (name_put c _) as [[hash1 i1] h1] eqn:E. clear E. destruct Hs as (Ha & Hu1 & Hl1).
    rewrite <- Hu1. eapply name_inv in H as (w & d & k & hash2 & i2 & h2 & -> & Hw & Hnh & Hu2 & H & Hd);
      [|done| |done].
    + destruct Hd as [Hd|(Hup & Eh & Hcase)].
      * split; intros ->; [|by apply rest_no_done in H].
        apply rest_inv in H as (raw & m & k' & Ek & Hraw); [|done]. rewrite Ek.
        exists (Field [] (c :: w) raw m), k'. split.
        { unfold field_text, skip_text. cbn [f_skip f_name f_raw f_crs map concat app].
          by rewrite <- !app_assoc. }
        split; [split; [done|by apply List.Forall_nil]|]. split; [done|].
        split; [cbn; by rewrite Hc|by split].
      * destruct Hcase as (-> & Hcase). cbn [hd_loop hd_step] in H. unfold name_case in H.
        rewrite decide_False in H by (by intros []). do 4 (rewrite decide_False in H by done).
        rewrite decide_True in H by done.
        apply ignore_inv in H as (t & k' & -> & Ht & H); [|done].
        assert (El : c :: w ++ 47 :: t ++ LF :: k' = bstr "HTTP/" ++ t ++ LF :: k').
        { rewrite <- Eh. cbn [app]. by rewrite <- app_assoc. }
        rewrite El in Hb |- *. apply header_line_skip; [done|done|].
        replace (upstream h1) with (upstream h2) by done. eapply IH; [| |exact H].
        -- cbn [length] in Hn. rewrite length_app in Hn. cbn [length] in Hn.
           rewrite length_app in Hn. cbn [length] in Hn. lia.
        -- replace (bstr "HTTP/" ++ t ++ LF :: k') with ((bstr "HTTP/" ++ t ++ [LF]) ++ k') in Hb
             by (by rewrite <- !app_assoc).
           apply slice_tail in Hb. etransitivity; [|exact Hb]. f_equal.
           assert (Hlen : length (c :: w ++ [47]) = 5%nat) by (change (c :: w ++ [47]) with ([c] ++ w ++ [47]); by rewrite Eh).
           cbn [length] in Hlen. rewrite length_app in Hlen. rewrite !length_app.
           change (length (bstr "HTTP/")) with 5%nat. cbn [length] in *. lia.
    + intros [_ E]. apply (f_equal length) in E. by destruct l.
  - apply bool_decide_eq_false, dec_stable in Hc. cbn [hd_loop hd_step] in H. unfold start_case in H.
    case_decide as Hcr; [subst c|].
    { destruct l as [|d l]; [cbn in H; by injection H as <- _ _|]. cbn [hd_loop hd_step] in H.
      case_decide; injection H as <- _ _; [subst d; by apply (header_line_done _ true)|].
      by destruct Hrc. }
    case_decide as Hlf; [subst c; injection H as <- _ _; by apply (header_line_done _ false)|].
    rewrite decide_False in H by (intros Hl%lowcase_range; lia).
    rewrite (decide_False (P := c = 95)), decide_True in H by lia. injection H as <- _ _.
    by destruct Hrc.
Qed.

Lemma done_fwd last sk (cr : bool) k p hash i h : valid_skip (upstream h) sk ->
  slice buf p last = skip_text sk ++ (if cr then [CR; LF] else [LF]) ++ k -> exists h' : hdr,
  loop sw_start p (skip_text sk ++ (if cr then [CR; LF] else [LF]) ++ k) hash i h =
  (NGX_HTTP_PARSE_HEADER_DONE, h',
   (p + length (skip_text sk ++ (if cr then [CR; LF] else [LF])))%nat).
Proof.
  intros Hsk Hb. destruct (skip_fwd _ _ _ _ Hsk p hash i h eq_refl Hb) as (hash0 & i0 & h0 & -> & _).
  rewrite length_app. destruct cr; eexists; cbn; f_equal; lia.
Qed.

End line.

Lemma line_fwd au buf pos last h F k : h_state h = sw_start -> length (lowcase_header h) = 32%nat ->
  valid_field (upstream h) F -> slice buf pos last = field_text F ++ k -> exists h' p',
  ngx_http_parse_header_line au buf pos last h = (NGX_OK, h', p') /\
  field_result au pos F h' p' /\ upstream h' = upstream h.
Proof.
  intros Hst Hl Hv Hb. unfold ngx_http_parse_header_line. rewrite Hst, Hb. by eapply field_fwd.
Qed.

Lemma line_inv au buf pos last h rc h' p' : h_state h = sw_start ->
  ngx_http_parse_header_line au buf pos last h = (rc, h', p') ->
  header_line (upstream h) rc (slice buf pos last).
Proof.
  intros Hst H. unfold ngx_http_parse_header_line in H. rewrite Hst in H. by eapply start_inv.
Qed.

(** ** The element of a line *)

Definition elt_ok (au : bool) (buf : list Z) (F : field) (e : table_elt) : Prop :=
  str_of buf (elt_key e) = f_name F /\ buf !! ((elt_key e).1 + (elt_key e).2)%nat = Some 0 /\
  str_of buf (elt_value e) = f_value F /\ buf !! ((elt_value e).1 + (elt_value e).2)%nat = Some 0 /\
  lowcase_key e = ngx_strlow (f_name F) /\
  (valid_name au (f_name F) = true -> elt_hash e = name_hash (ngx_strlow (f_name F))).

Lemma lc_tolower au c d : lc au c = Some d -> d = ngx_tolower c.
Proof.
  unfold lc. case_decide as Hl.
  - intros [= <-]. assert (Hb : is_byte c).
    { destruct (decide (is_byte c)) as [|Hn]; [done|]. exfalso. apply Hl. unfold lowcase_of.
      unfold is_byte in Hn. destruct (decide (c < 0)).
      - by replace (Z.to_nat c) with 0%nat by lia.
      - apply nth_overflow. change (length lowcase) with 256%nat. lia. }
    assert (Hd : implb (bool_decide (lowcase_of c <> 0)) (bool_decide (lowcase_of c = ngx_tolower c)) = true).
    { clear Hl. byte_sweep c Hb. }
    rewrite (bool_decide_eq_true_2 _ Hl) in Hd. by apply bool_decide_eq_true in Hd.
  - case_decide as Hu; [|done]. destruct au; [|done]. intros [= <-]. by subst.
Qed.

Lemma length_omap_le {A B} (f : A -> option B) l : (length (omap f l) <= length l)%nat.
Proof.
  induction l as [|c l IH]; [done|]. rewrite omap_cons_eq. destruct (f c); cbn [length]; lia.
Qed.

Lemma omap_full {A B} (f : A -> option B) (g : A -> B) l :
  (forall c d, f c = Some d -> d = g c) -> length (omap f l) = length l -> omap f l = map g l.
Proof.
  intros Hf. induction l as [|c l IH]; [done|]. rewrite omap_cons_eq. cbn [map].
  destruct (f c) as [d|] eqn:E; cbn [length]; intros H.
  - rewrite IH by lia. f_equal. by apply Hf.
  - pose proof (length_omap_le f l). lia.
Qed.

Lemma valid_name_low au name : valid_name au name = true -> omap (lc au) name = ngx_strlow name.
Proof.
  intros H. apply omap_full; [apply lc_tolower|]. induction name as [|c name IH]; [done|].
  unfold valid_name in *. cbn [forallb] in H. apply andb_prop in H as [Hc H].
  apply bool_decide_eq_true in Hc.
  rewrite omap_cons_eq. destruct (lc au c); [|done]. cbn [length]. by rewrite IH.
Qed.

(** The text after the name around its value. *)
Lemma ltrim_split w : exists a, w = a ++ ltrim w.
Proof.
  induction w as [|c w [a IH]]; [by exists []|]. cbn. case_decide; [|by exists []].
  exists (c :: a). cbn. by f_equal.
Qed.

Lemma rtrim_split w : exists b, w = rtrim w ++ b.
Proof.
  induction w as [|c w [b IH]]; [by exists []|]. cbn [rtrim]. destruct (rtrim w) as [|d w'].
  - case_decide; [by exists (c :: w)|]. by exists w.
  - exists b. cbn in *. by f_equal.
Qed.

Lemma value_split F : exists a b, raw_text (f_raw F) = a ++ f_value F ++ b /\
  length a = (length (raw_text (f_raw F)) - length (ltrim (default [] (f_raw F))))%nat /\
  (f_value F <> [] -> (1 <= length a)%nat).
Proof.
  unfold f_value. destruct (f_raw F) as [w|]; cbn [raw_text default id].
  - destruct (ltrim_split w) as [a Ha]. destruct (rtrim_split (ltrim w)) as [b Hb].
    exists (58 :: a), b. rewrite Ha at 1. rewrite Hb at 1. split; [done|].
    apply (f_equal length) in Ha. rewrite length_app in Ha. cbn [length]. split; [|intros _]; lia.
  - by exists [], [].
Qed.

(** Memory that is written at two places of a piece between [a] and [b]. *)
Lemma slice_take (buf buf' : list Z) a b c : take b buf' = take b buf -> (c <= b)%nat ->
  slice buf' a c = slice buf a c.
Proof.
  intros H Hc. unfold slice. rewrite <- !skipn_firstn_comm.
  apply (f_equal (take c)) in H. rewrite !take_take, !Nat.min_l in H by lia. by rewrite H.
Qed.

Lemma slice_drop (buf buf' : list Z) a b c : drop a buf' = drop a buf -> (a <= b)%nat ->
  slice buf' b c = slice buf b c.
Proof.
  intros H Hb. unfold slice. apply (f_equal (drop (b - a))) in H. rewrite !drop_drop in H.
  replace (a + (b - a))%nat with b in H by lia. by rewrite H.
Qed.

Lemma lookup_take_eq (buf buf' : list Z) b j : take b buf' = take b buf -> (j < b)%nat -> buf' !! j = buf !! j.
Proof. intros H Hj. rewrite <- (lookup_take_lt _ b), H by done. by apply lookup_take_lt. Qed.

Lemma elt_ok_take au buf buf' F e p : take p buf' = take p buf ->
  ((elt_key e).1 + (elt_key e).2 < p)%nat -> ((elt_value e).1 + (elt_value e).2 < p)%nat ->
  elt_ok au buf F e -> elt_ok au buf' F e.
Proof.
  intros H Hk Hv (H1 & H2 & H3 & H4 & H5). unfold elt_ok, str_of in *.
  rewrite !(slice_take _ _ _ _ _ H), !(lookup_take_eq _ _ _ _ H) by lia. done.
Qed.

Lemma slice_length buf a b (t k : list Z) : slice buf a b = t ++ k -> (a + length t <= length buf \/ t = [])%nat.
Proof.
  intros H. apply (f_equal length) in H. unfold slice in H.
  rewrite length_app, length_take, length_drop in H. destruct t; [by right|left]. cbn in *. lia.
Qed.

(** The two zeros that are written at the ends of the key and the value. *)
Lemma two_writes (buf : list Z) ne vs ve : (ne <= vs <= ve)%nat -> (ve < length buf)%nat ->
  ((vs < ve)%nat -> (ne < vs)%nat) ->
  let buf' := <[ve := 0]> (<[ne := 0]> buf) in
  (forall j, (j <= ne)%nat -> take j buf' = take j buf) /\
  (forall j, (ve < j)%nat -> drop j buf' = drop j buf) /\
  slice buf' vs ve = slice buf vs ve /\ buf' !! ne = Some 0 /\ buf' !! ve = Some 0 /\
  length buf' = length buf.
Proof.
  intros Hle Hlt Hv buf'. subst buf'. split_and!.
  - intros j Hj. by rewrite !take_insert_ge by lia.
  - intros j Hj. by rewrite !drop_insert_lt by lia.
  - destruct (decide (vs < ve)%nat) as [Hvs|Hvs].
    + transitivity (slice (<[ne:=0]> buf) vs ve).
      * apply (slice_take _ _ _ ve); [by apply take_insert_ge|done].
      * apply (slice_drop _ _ vs); [apply drop_insert_lt; by apply Hv|done].
    + unfold slice. by replace (ve - vs)%nat with 0%nat by lia.
  - destruct (decide (ne = ve)) as [->|Hn].
    + apply list_lookup_insert_eq. by rewrite length_insert.
    + rewrite list_lookup_insert_ne by done. apply list_lookup_insert_eq. lia.
  - apply list_lookup_insert_eq. by rewrite length_insert.
  - by rewrite !length_insert.
Qed.

(** The key in lower case comes from the request or from the key. *)
Lemma lowcase_key_ok au name lh i : i = (length (omap (lc au) name) mod 32)%nat ->
  ((length (omap (lc au) name) < 32)%nat ->
   take (length (omap (lc au) name)) lh = omap (lc au) name) ->
  (if decide (length name = i) then take (length name) lh else ngx_strlow name) = ngx_strlow name.
Proof.
  intros Hi Hlow. case_decide as Hlen; [|done]. pose proof (length_omap_le (lc au) name) as Hle.
  assert (length (omap (lc au) name) mod 32 < 32)%nat by (by apply Nat.mod_upper_bound).
  assert (length (omap (lc au) name) mod 32 <= length (omap (lc au) name))%nat
    by (by apply Nat.Div0.mod_le).
  assert (E : length (omap (lc au) name) = length name) by lia.
  rewrite <- E, Hlow by lia. apply omap_full; [apply lc_tolower|done].
Qed.

Lemma header_elt_ok au buf pos last F k h p : field_result au pos F h p ->
  valid_field (upstream h) F -> slice buf pos last = field_text F ++ k ->
  exists e buf', header_elt buf h = Some (e, buf') /\ elt_ok au buf' F e /\
    take pos buf' = take pos buf /\ drop p buf' = drop p buf /\ length buf' = length buf /\
    ((elt_key e).1 + (elt_key e).2 < p)%nat /\ ((elt_value e).1 + (elt_value e).2 < p)%nat.
Proof.
  intros (Hns & Hne & Hvs & Hve & Hinv & Hhash & Hi & Hlow & _ & _ & Hp) Hv Hb.
  destruct (value_split F) as (a & b & Hraw & Ha & Hval).
  unfold header_elt. rewrite Hns, Hne, Hvs, Hve. cbn [mbind option_bind fst snd].
  set (ns := (pos + length (skip_text (f_skip F)))%nat) in *.
  set (ne := (ns + length (f_name F))%nat) in *.
  assert (Hle : (length (ltrim (default [] (f_raw F))) <= length (raw_text (f_raw F)))%nat).
  { destruct (f_raw F) as [w|]; cbn [raw_text default id length]; [|done].
    destruct (ltrim_split w) as [a' E]. apply (f_equal length) in E. rewrite length_app in E. lia. }
  rewrite <- (Nat.add_sub_assoc ne) in * by done. rewrite <- Ha in *. clear Hle.
  set (vs := (ne + length a)%nat). set (ve := (vs + length (f_value F))%nat).
  assert (Hpos : (pos <= ns /\ ns <= ne /\ ne <= vs /\ vs <= ve /\ ve < p)%nat).
  { subst ve vs ne ns. rewrite Hp. unfold field_text. rewrite Hraw, !length_app.
    unfold crlf_text. rewrite length_app. cbn [length]. lia. }
  assert (Hbuf : (p <= length buf)%nat).
  { destruct (slice_length _ _ _ _ _ Hb) as [?|E]; [lia|]. rewrite E in Hp. cbn in Hp. lia. }
  set (buf' := <[ve:=0]> (<[ne:=0]> buf)).
  assert (Hname : slice buf ns ne = f_name F).
  { unfold field_text in Hb. rewrite <- !app_assoc in Hb. by apply slice_app in Hb. }
  assert (Hvalue : slice buf vs ve = f_value F).
  { unfold field_text in Hb. rewrite Hraw in Hb.
    replace ((skip_text (f_skip F) ++ f_name F ++ (a ++ f_value F ++ b) ++ crlf_text (f_crs F)) ++ k)
      with ((skip_text (f_skip F) ++ f_name F ++ a) ++ f_value F ++ b ++ crlf_text (f_crs F) ++ k)
      in Hb by (by rewrite <- !app_assoc).
    apply slice_app in Hb. rewrite !length_app in Hb.
    replace (pos + (length (skip_text (f_skip F)) + (length (f_name F) + length a)))%nat with vs in Hb
      by (subst vs ne ns; lia). done. }
  destruct (two_writes buf ne vs ve) as (Htake & Hdrop & Hval' & H1 & H2 & Hlen);
    [lia|lia|intros Hlt; subst vs ve; destruct (f_value F); [cbn in Hlt; lia|specialize (Hval ltac:(done)); lia]|].
  fold buf' in Htake, Hdrop, Hval', H1, H2, Hlen. eexists _, buf'. split; [reflexivity|].
  assert (Hkey : str_of buf' (ns, (ne - ns)%nat) = f_name F).
  { unfold str_of. cbn [fst snd]. replace (ns + (ne - ns))%nat with ne by lia.
    by rewrite (slice_take buf buf' _ ne ne (Htake ne ltac:(lia))). }
  split; [|split_and!; try (cbn; lia); [apply Htake; lia|apply Hdrop; lia]].
  unfold elt_ok. cbn [elt_key elt_value lowcase_key elt_hash fst snd]. rewrite Hkey.
  replace (ns + (ne - ns))%nat with ne by lia. replace (vs + (ve - vs))%nat with ve by lia.
  unfold str_of. cbn [fst snd]. replace (vs + (ve - vs))%nat with ve by lia.
  split_and!; [done|done|by rewrite Hval'|done| |].
  - replace (ne - ns)%nat with (length (f_name F)) by (subst ne; lia). by eapply lowcase_key_ok.
  - intros Hvn. by rewrite Hhash, valid_name_low.
Qed.

(** ** All the lines *)

Definition fields_text (Fs : list field) : list Z := concat (map field_text Fs).

(** The lines for which an element is pushed. *)
Definition kept (cscf : hd_conf) (F : field) : bool :=
  valid_name (underscores_in_headers cscf) (f_name F) || negb (ignore_invalid_headers cscf).

(** One line of the loop. *)
Lemma headers_step cscf fuel buf pos last h hs F k :
  h_state h = sw_start -> length (lowcase_header h) = 32%nat -> (last <= length buf)%nat ->
  valid_field (upstream h) F -> slice buf pos last = field_text F ++ k ->
  exists h' p' buf' es,
    ngx_http_process_request_headers (S fuel) cscf buf pos last h hs =
    ngx_http_process_request_headers fuel cscf buf' p' last h' (hs ++ es) /\
    p' = (pos + length (field_text F))%nat /\
    h_state h' = sw_start /\ length (lowcase_header h') = 32%nat /\ upstream h' = upstream h /\
    take pos buf' = take pos buf /\ drop p' buf' = drop p' buf /\ length buf' = length buf /\
    slice buf' p' last = k /\
    (forall buf2, take p' buf2 = take p' buf' ->
     Forall2 (elt_ok (underscores_in_headers cscf) buf2)
       (if kept cscf F then [F] else []) es).
Proof.
  intros Hst Hl Hlast Hv Hb. cbn [ngx_http_process_request_headers].
  destruct (line_fwd (underscores_in_headers cscf) buf pos last h F k Hst Hl Hv Hb)
    as (h' & p' & -> & Hres & Hup). rewrite decide_True by done.
  assert (Hres' := Hres). destruct Hres' as (_ & _ & _ & _ & Hinv & _ & _ & _ & Hst' & Hl' & Hp').
  assert (Hk : slice buf p' last = k) by (rewrite Hp'; by apply slice_tail in Hb).
  rewrite Hinv. unfold kept.
  destruct (negb (valid_name _ (f_name F)) && ignore_invalid_headers cscf) eqn:E.
  - exists h', p', buf, []. rewrite app_nil_r. split_and!; try done. intros buf2 _.
    destruct (valid_name _ _), (ignore_invalid_headers cscf); by try discriminate E.
  - rewrite <- Hup in Hv.
    destruct (header_elt_ok _ buf pos last F k h' p' Hres Hv Hb)
      as (e & buf' & -> & He & Ht & Hd & Hlen & Hk1 & Hk2).
    cbn [mbind option_bind]. exists h', p', buf', [e]. split_and!; try done.
    + by rewrite (slice_drop buf buf' p').
    + intros buf2 H2. replace (if _ || _ then [F] else []) with [F]
        by (by destruct (valid_name _ _), (ignore_invalid_headers cscf)).
      apply List.Forall2_cons; [|apply List.Forall2_nil]. by eapply elt_ok_take.
Qed.

Lemma headers_fields cscf last k Fs : forall fuel buf pos h hs,
  h_state h = sw_start -> length (lowcase_header h) = 32%nat -> (last <= length buf)%nat ->
  Forall (valid_field (upstream h)) Fs -> slice buf pos last = fields_text Fs ++ k ->
  exists h' buf' es, let p' := (pos + length (fields_text Fs))%nat in
    ngx_http_process_request_headers (length Fs + fuel) cscf buf pos last h hs =
    ngx_http_process_request_headers fuel cscf buf' p' last h' (hs ++ es) /\
    h_state h' = sw_start /\ length (lowcase_header h') = 32%nat /\ upstream h' = upstream h /\
    take pos buf' = take pos buf /\ drop p' buf' = drop p' buf /\ length buf' = length buf /\
    slice buf' p' last = k /\
    Forall2 (elt_ok (underscores_in_headers cscf) buf') (List.filter (kept cscf) Fs) es.
Proof.
  induction Fs as [|F Fs IH]; intros fuel buf pos h hs Hst Hl Hlast Hv Hb.
  - exists h, buf, []. cbn. rewrite Nat.add_0_r, app_nil_r. by split_and!.
  - apply List.Forall_cons_iff in Hv as [HF HFs].
    unfold fields_text in Hb. cbn [map concat] in Hb. rewrite <- app_assoc in Hb.
    destruct (headers_step cscf (length Fs + fuel) buf pos last h hs F _ Hst Hl Hlast HF Hb)
      as (h1 & p1 & buf1 & es1 & Erun & Hp1 & Hst1 & Hl1 & Hup1 & Ht1 & Hd1 & Hlen1 & Hb1 & He1).
    rewrite <- Hup1 in HFs.
    destruct (IH fuel buf1 p1 h1 (hs ++ es1) Hst1 Hl1 ltac:(lia) HFs Hb1)
      as (h2 & buf2 & es2 & Erun2 & Hst2 & Hl2 & Hup2 & Ht2 & Hd2 & Hlen2 & Hb2 & He2).
    exists h2, buf2, (es1 ++ es2). intros p'.
    replace (p1 + length (fields_text Fs))%nat with p' in *
      by (subst p' p1; unfold fields_text; cbn [map concat]; rewrite length_app; lia).
    split_and!; try done.
    + cbn [length Nat.add]. by rewrite Erun, Erun2, app_assoc.
    + congruence.
    + rewrite <- Ht1. apply (f_equal (take pos)) in Ht2. by rewrite !take_take, !Nat.min_l in Ht2 by lia.
    + rewrite Hd2. apply (f_equal (drop (p' - p1))) in Hd1. rewrite !drop_drop in Hd1.
      by replace (p1 + (p' - p1))%nat with p' in Hd1 by (subst p' p1; unfold fields_text; cbn [map concat]; rewrite length_app; lia).
    + congruence.
    + cbn [List.filter]. specialize (He1 buf2 Ht2). destruct (kept cscf F); exact (List.Forall2_app He1 He2).
Qed.

Definition end_of_headers (up : bool) (Fs : list field) (sk : list (list Z)) : Prop :=
  Forall (valid_field up) Fs /\ valid_skip up sk.
Definition headers_text (Fs : list field) (sk : list (list Z)) (cr : bool) : list Z :=
  fields_text Fs ++ skip_text sk ++ (if cr then [CR; LF] else [LF]).

Lemma field_text_nonempty F : (1 <= length (field_text F))%nat.
Proof. unfold field_text, crlf_text. rewrite !length_app. cbn [length]. lia. Qed.

Lemma fields_length Fs : (length Fs <= length (fields_text Fs))%nat.
Proof.
  induction Fs as [|F Fs IH]; [done|]. unfold fields_text in *. cbn [map concat length].
  rewrite length_app. pose proof (field_text_nonempty F). lia.
Qed.

(** The loop ends, and at the end of the headers only after lines of the grammar. *)
Lemma headers_total cscf last n : forall buf pos h hs, (last - pos < n)%nat ->
  h_state h = sw_start -> length (lowcase_header h) = 32%nat -> (last <= length buf)%nat ->
  exists rc h' p' buf' es,
    ngx_http_process_request_headers n cscf buf pos last h hs = Some (rc, h', p', buf', es) /\
    (rc = NGX_HTTP_PARSE_HEADER_DONE -> exists Fs sk cr k, end_of_headers (upstream h) Fs sk /\
       slice buf pos last = headers_text Fs sk cr ++ k).
Proof.
  induction n as [|n IH]; intros buf pos h hs Hn Hst Hl Hlast; [lia|].
  destruct (ngx_http_parse_header_line (underscores_in_headers cscf) buf pos last h)
    as [[rc h1] p1] eqn:E.
  pose proof (line_inv _ _ _ _ _ _ _ _ Hst E) as [Hok Hdone].
  destruct (decide (rc = NGX_OK)) as [->|Hrc].
  - destruct (Hok eq_refl) as (F & k & Hb & HF).
    destruct (headers_step cscf n buf pos last h hs F k Hst Hl Hlast HF Hb)
      as (h2 & p2 & buf2 & es & -> & Hp2 & Hst2 & Hl2 & Hup2 & _ & _ & Hlen2 & Hb2 & _).
    assert (Hlt : (last - p2 < n)%nat).
    { apply (f_equal length) in Hb. unfold slice in Hb. rewrite length_take, length_drop, length_app in Hb.
      pose proof (field_text_nonempty F). lia. }
    destruct (IH buf2 p2 h2 (hs ++ es) Hlt Hst2 Hl2 ltac:(lia))
      as (rc & h3 & p3 & buf3 & es3 & Erun & Hd). exists rc, h3, p3, buf3, es3. split; [done|].
    intros Hrc. destruct (Hd Hrc) as (Fs & sk & cr & k' & [HFs Hsk] & Ek). rewrite Hup2 in *.
    exists (F :: Fs), sk, cr, k'. split; [split; [by apply List.Forall_cons|done]|].
    rewrite Hb, <- Hb2, Ek. unfold headers_text, fields_text. cbn [map concat]. by rewrite <- !app_assoc.
  - cbn [ngx_http_process_request_headers]. rewrite E, decide_False by done.
    exists rc, h1, p1, buf, hs. split; [done|]. intros Hd.
    destruct (Hdone Hd) as (sk & cr & k & Hb & Hsk). exists [], sk, cr, k.
    split; [split; [apply List.Forall_nil|done]|]. rewrite Hb. unfold headers_text. cbn.
    by rewrite <- app_assoc.
Qed.

Lemma headers_done cscf buf pos last h Fs sk cr k :
  h_state h = sw_start -> length (lowcase_header h) = 32%nat -> (last <= length buf)%nat ->
  end_of_headers (upstream h) Fs sk -> slice buf pos last = headers_text Fs sk cr ++ k ->
  exists h' buf' es,
    ngx_http_process_request_headers (S (last - pos)) cscf buf pos last h [] =
    Some (NGX_HTTP_PARSE_HEADER_DONE, h', (pos + length (headers_text Fs sk cr))%nat, buf', es) /\
    Forall2 (elt_ok (underscores_in_headers cscf) buf') (List.filter (kept cscf) Fs) es /\
    take pos buf' = take pos buf /\
    drop (pos + length (fields_text Fs)) buf' = drop (pos + length (fields_text Fs)) buf.
Proof.
  intros Hst Hl Hlast [HFs Hsk] Hb. unfold headers_text in *. rewrite <- !app_assoc in Hb.
  assert (Hfuel : (length Fs <= last - pos)%nat).
  { pose proof (fields_length Fs). apply (f_equal length) in Hb. unfold slice in Hb.
    rewrite length_take, length_drop, length_app in Hb. lia. }
  destruct (headers_fields cscf last _ Fs (S (last - pos - length Fs)) buf pos h [] Hst Hl Hlast HFs Hb)
    as (h1 & buf1 & es & Erun & Hst1 & Hl1 & Hup1 & Ht & Hd & Hlen & Hb1 & Hes).
  replace (length Fs + S (last - pos - length Fs))%nat with (S (last - pos)) in Erun by lia.
  rewrite Erun. cbn [ngx_http_process_request_headers]. unfold ngx_http_parse_header_line.
  rewrite Hst1, Hb1. rewrite <- Hup1 in Hsk.
  destruct (done_fwd (underscores_in_headers cscf) buf1 (pos + length (fields_text Fs)) last sk cr k
    (pos + length (fields_text Fs)) (header_hash h1) (lowcase_index h1) h1 Hsk Hb1) as [h2 ->].
  rewrite decide_False by done. exists h2, buf1, es. cbn [app]. split_and!; try done.
  by rewrite (length_app (fields_text Fs)), Nat.add_assoc.
Qed.

(** ** Properties *)

(** C32: [ngx_http_parse_header_line] returns [NGX_OK] exactly for the lines of
    the grammar (a name, a colon, a value, carriage returns and a line feed,
    after lines of an upstream that begin with HTTP/) and the end of the headers
    exactly for an empty line; the fields of the request then delimit the name
    and the value without the spaces around it, and hold the hash and the lower
    case of the name and whether it is valid. *)
Theorem header_line_exact au buf pos last h :
  h_state h = sw_start -> length (lowcase_header h) = 32%nat ->
  let '(rc, h', p') := ngx_http_parse_header_line au buf pos last h in
  (rc = NGX_OK <->
   exists F k, valid_field (upstream h) F /\ slice buf pos last = field_text F ++ k) /\
  (rc = NGX_HTTP_PARSE_HEADER_DONE <->
   exists sk (cr : bool) k, valid_skip (upstream h) sk /\
     slice buf pos last = skip_text sk ++ (if cr then [CR; LF] else [LF]) ++ k) /\
  (forall F k, valid_field (upstream h) F -> slice buf pos last = field_text F ++ k ->
   field_result au pos F h' p').
Proof.
  intros Hst Hl. destruct (ngx_http_parse_header_line au buf pos last h) as [[rc h'] p'] eqn:E.
  pose proof (line_inv _ _ _ _ _ _ _ _ Hst E) as [H1 H2].
  assert (Hok : forall F k, valid_field (upstream h) F -> slice buf pos last = field_text F ++ k ->
    rc = NGX_OK /\ field_result au pos F h' p').
  { intros F k HF Hb. destruct (line_fwd au buf pos last h F k Hst Hl HF Hb) as (h1 & p1 & E1 & Hr & _).
    rewrite E in E1. by injection E1 as -> -> ->. }
  split; [split|split; [split|]].
  - intros Hrc. destruct (H1 Hrc) as (F & k & ? & ?). eauto.
  - intros (F & k & HF & Hb). by apply (Hok F k).
  - intros Hrc. destruct (H2 Hrc) as (sk & cr & k & ? & ?). eauto.
  - intros (sk & cr & k & Hsk & Hb). unfold ngx_http_parse_header_line in E.
    rewrite Hst, Hb in E.
    destruct (done_fwd au buf pos last sk cr k pos (header_hash h) (lowcase_index h) h Hsk Hb) as [h1 E1].
    rewrite E1 in E. by injection E.
  - intros F k HF Hb. by apply (Hok F k).
Qed.

Lemma header_line_exact_witness :
  let buf := bstr "HTTP/1.1 200" ++ [LF] ++ bstr "X-Ab_c:  v w " ++ [CR; LF; CR; LF] in
  let h := Hdr sw_start 7 5 (replicate 32 0) None None None None true true in
  let '(rc, h', p') := ngx_http_parse_header_line false buf 0 30 h in
  rc = NGX_OK /\ field_result false 0
    (Field [bstr "1.1 200"] (bstr "X-Ab_c") (Some (bstr "  v w ")) 1) h' p' /\
  p' = 28%nat /\ header_start h' = Some 22%nat /\ header_end h' = Some 25%nat.
Proof.
  intros buf h. pose proof (header_line_exact false buf 0 30 h eq_refl eq_refl) as H.
  destruct (ngx_http_parse_header_line false buf 0 30 h) as [[rc h'] p'] eqn:E.
  destruct H as (H1 & _ & H3).
  assert (HF : valid_field true (Field [bstr "1.1 200"] (bstr "X-Ab_c") (Some (bstr "  v w ")) 1)).
  { split; [split; [done|]|].
    - apply List.Forall_cons; [by_decide|apply List.Forall_nil].
    - split; [done|]. split; [exact I|]. split; [by intros [_ Hn]|exact I]. }
  split; [apply H1; exists (Field [bstr "1.1 200"] (bstr "X-Ab_c") (Some (bstr "  v w ")) 1), [CR; LF];
          split; [exact HF|vm_compute; reflexivity]|].
  split; [apply (H3 _ [CR; LF] HF); vm_compute; reflexivity|].
  vm_compute in E. injection E as <- <- <-. done.
Defined.

(** C3: The loop over the header lines ends for every input, after at most one
    round for a byte; it reaches the end of the headers exactly when the data are
    lines of the grammar and an empty line, and the list then holds an element
    for each line in order (without the invalid names that are to be ignored):
    its strings are the name and the value, each followed by a zero, its key in
    lower case is the name in lower case, and for a valid name its hash is the
    hash of that key.
    The memory before the headers and after the last line is unchanged. *)
Theorem request_headers_exact cscf buf pos last h :
  h_state h = sw_start -> length (lowcase_header h) = 32%nat -> (last <= length buf)%nat ->
  exists rc h' p' buf' es,
    ngx_http_process_request_headers (S (last - pos)) cscf buf pos last h [] =
      Some (rc, h', p', buf', es) /\
    (rc = NGX_HTTP_PARSE_HEADER_DONE <->
     exists Fs sk cr k, end_of_headers (upstream h) Fs sk /\
       slice buf pos last = headers_text Fs sk cr ++ k) /\
    (forall Fs sk cr k, end_of_headers (upstream h) Fs sk ->
     slice buf pos last = headers_text Fs sk cr ++ k ->
     p' = (pos + length (headers_text Fs sk cr))%nat /\
     Forall2 (elt_ok (underscores_in_headers cscf) buf') (List.filter (kept cscf) Fs) es /\
     take pos buf' = take pos buf /\
     drop (pos + length (fields_text Fs)) buf' = drop (pos + length (fields_text Fs)) buf).
Proof.
  intros Hst Hl Hlast.
  destruct (headers_total cscf last (S (last - pos)) buf pos h [] ltac:(lia) Hst Hl Hlast)
    as (rc & h' & p' & buf' & es & Erun & Hd).
  assert (Hfwd : forall Fs sk cr k, end_of_headers (upstream h) Fs sk ->
    slice buf pos last = headers_text Fs sk cr ++ k ->
    rc = NGX_HTTP_PARSE_HEADER_DONE /\ p' = (pos + length (headers_text Fs sk cr))%nat /\
    Forall2 (elt_ok (underscores_in_headers cscf) buf') (List.filter (kept cscf) Fs) es /\
    take pos buf' = take pos buf /\
    drop (pos + length (fields_text Fs)) buf' = drop (pos + length (fields_text Fs)) buf).
  { intros Fs sk cr k Hend Hb.
    destruct (headers_done cscf buf pos last h Fs sk cr k Hst Hl Hlast Hend Hb)
      as (h1 & buf1 & es1 & E & Hr). rewrite E in Erun. by injection Erun as <- <- <- <- <-. }
  exists rc, h', p', buf', es. split; [done|]. split; [split; [done|]|].
  - intros (Fs & sk & cr & k & Hend & Hb). by apply (Hfwd Fs sk cr k).
  - intros Fs sk cr k Hend Hb. by apply (Hfwd Fs sk cr k).
Qed.

Lemma request_headers_exact_witness :
  let buf := bstr "Host: a" ++ [CR; LF] ++ bstr "x_y:1" ++ [LF] ++ bstr "Age:  7 " ++ [LF; CR; LF; 88] in
  let Fs := [Field [] (bstr "Host") (Some (bstr " a")) 1; Field [] (bstr "x_y") (Some (bstr "1")) 0;
             Field [] (bstr "Age") (Some (bstr "  7 ")) 0] in
  exists rc h' p' buf' es,
    ngx_http_process_request_headers 28 (HdConf false true) buf 0 27 hdr_zero [] =
      Some (rc, h', p', buf', es) /\ rc = NGX_HTTP_PARSE_HEADER_DONE /\ p' = 26%nat /\
    Forall2 (elt_ok false buf') [Field [] (bstr "Host") (Some (bstr " a")) 1;
                                 Field [] (bstr "Age") (Some (bstr "  7 ")) 0] es /\
    map lowcase_key es = [bstr "host"; bstr "age"].
Proof.
  intros buf Fs.
  assert (Hl : (27 <= length buf)%nat) by (vm_compute; lia).
  destruct (request_headers_exact (HdConf false true) buf 0 27 hdr_zero eq_refl eq_refl Hl)
    as (rc & h' & p' & buf' & es & E & Hd & Hr).
  assert (Hv : end_of_headers false Fs []).
  { split; [|split; [done|apply List.Forall_nil]].
    repeat (apply List.Forall_cons; [split; [split; [done|apply List.Forall_nil]|];
      split; [done|]; split; [exact I|]; split; [by intros [Hn _]|exact I]|]). apply List.Forall_nil. }
  destruct (Hr Fs [] true [88] Hv ltac:(vm_compute; reflexivity)) as (Hp & Hes & _).
  exists rc, h', p', buf', es. split; [exact E|].
  split; [apply Hd; exists Fs, [], true, [88]; split; [exact Hv|vm_compute; reflexivity]|].
  split; [rewrite Hp; reflexivity|]. split; [exact Hes|].
  vm_compute in E. injection E as <- <- <- <- <-. reflexivity.
Defined.

Close Scope ch_scope.
