(* ===== verification/Crc32.v ===== *)
(** * CRC-32 and the other checksums of nginx core

    The table-driven CRC-32 of ngx_crc32.c and ngx_crc32.h against the bitwise
    division by the polynomial, and the rotating sum of ngx_crc.h. *)

From S2P Require Import Prelude.

Definition ngx_crc32_table16 : list Z :=
  [0x00000000; 0x1db71064; 0x3b6e20c8; 0x26d930ac; 0x76dc4190; 0x6b6b51f4;
   0x4db26158; 0x5005713c; 0xedb88320; 0xf00f9344; 0xd6d6a3e8; 0xcb61b38c;
   0x9b64c2b0; 0x86d3d2d4; 0xa00ae278; 0xbdbdf21c].

Definition ngx_crc32_table256 : list Z :=
  [0x00000000; 0x77073096; 0xee0e612c; 0x990951ba; 0x076dc419; 0x706af48f;
   0xe963a535; 0x9e6495a3; 0x0edb8832; 0x79dcb8a4; 0xe0d5e91e; 0x97d2d988;
   0x09b64c2b; 0x7eb17cbd; 0xe7b82d07; 0x90bf1d91; 0x1db71064; 0x6ab020f2;
   0xf3b97148; 0x84be41de; 0x1adad47d; 0x6ddde4eb; 0xf4d4b551; 0x83d385c7;
   0x136c9856; 0x646ba8c0; 0xfd62f97a; 0x8a65c9ec; 0x14015c4f; 0x63066cd9;
   0xfa0f3d63; 0x8d080df5; 0x3b6e20c8; 0x4c69105e; 0xd56041e4; 0xa2677172;
   0x3c03e4d1; 0x4b04d447; 0xd20d85fd; 0xa50ab56b; 0x35b5a8fa; 0x42b2986c;
   0xdbbbc9d6; 0xacbcf940; 0x32d86ce3; 0x45df5c75; 0xdcd60dcf; 0xabd13d59;
   0x26d930ac; 0x51de003a; 0xc8d75180; 0xbfd06116; 0x21b4f4b5; 0x56b3c423;
   0xcfba9599; 0xb8bda50f; 0x2802b89e; 0x5f058808; 0xc60cd9b2; 0xb10be924;
   0x2f6f7c87; 0x58684c11; 0xc1611dab; 0xb6662d3d; 0x76dc4190; 0x01db7106;
   0x98d220bc; 0xefd5102a; 0x71b18589; 0x06b6b51f; 0x9fbfe4a5; 0xe8b8d433;
   0x7807c9a2; 0x0f00f934; 0x9609a88e; 0xe10e9818; 0x7f6a0dbb; 0x086d3d2d;
   0x91646c97; 0xe6635c01; 0x6b6b51f4; 0x1c6c6162; 0x856530d8; 0xf262004e;
   0x6c0695ed; 0x1b01a57b; 0x8208f4c1; 0xf50fc457; 0x65b0d9c6; 0x12b7e950;
   0x8bbeb8ea; 0xfcb9887c; 0x62dd1ddf; 0x15da2d49; 0x8cd37cf3; 0xfbd44c65;
   0x4db26158; 0x3ab551ce; 0xa3bc0074; 0xd4bb30e2; 0x4adfa541; 0x3dd895d7;
   0xa4d1c46d; 0xd3d6f4fb; 0x4369e96a; 0x346ed9fc; 0xad678846; 0xda60b8d0;
   0x44042d73; 0x33031de5; 0xaa0a4c5f; 0xdd0d7cc9; 0x5005713c; 0x270241aa;
   0xbe0b1010; 0xc90c2086; 0x5768b525; 0x206f85b3; 0xb966d409; 0xce61e49f;
   0x5edef90e; 0x29d9c998; 0xb0d09822; 0xc7d7a8b4; 0x59b33d17; 0x2eb40d81;
   0xb7bd5c3b; 0xc0ba6cad; 0xedb88320; 0x9abfb3b6; 0x03b6e20c; 0x74b1d29a;
   0xead54739; 0x9dd277af; 0x04db2615; 0x73dc1683; 0xe3630b12; 0x94643b84;
   0x0d6d6a3e; 0x7a6a5aa8; 0xe40ecf0b; 0x9309ff9d; 0x0a00ae27; 0x7d079eb1;
   0xf00f9344; 0x8708a3d2; 0x1e01f268; 0x6906c2fe; 0xf762575d; 0x806567cb;
   0x196c3671; 0x6e6b06e7; 0xfed41b76; 0x89d32be0; 0x10da7a5a; 0x67dd4acc;
   0xf9b9df6f; 0x8ebeeff9; 0x17b7be43; 0x60b08ed5; 0xd6d6a3e8; 0xa1d1937e;
   0x38d8c2c4; 0x4fdff252; 0xd1bb67f1; 0xa6bc5767; 0x3fb506dd; 0x48b2364b;
   0xd80d2bda; 0xaf0a1b4c; 0x36034af6; 0x41047a60; 0xdf60efc3; 0xa867df55;
   0x316e8eef; 0x4669be79; 0xcb61b38c; 0xbc66831a; 0x256fd2a0; 0x5268e236;
   0xcc0c7795; 0xbb0b4703; 0x220216b9; 0x5505262f; 0xc5ba3bbe; 0xb2bd0b28;
   0x2bb45a92; 0x5cb36a04; 0xc2d7ffa7; 0xb5d0cf31; 0x2cd99e8b; 0x5bdeae1d;
   0x9b64c2b0; 0xec63f226; 0x756aa39c; 0x026d930a; 0x9c0906a9; 0xeb0e363f;
   0x72076785; 0x05005713; 0x95bf4a82; 0xe2b87a14; 0x7bb12bae; 0x0cb61b38;
   0x92d28e9b; 0xe5d5be0d; 0x7cdcefb7; 0x0bdbdf21; 0x86d3d2d4; 0xf1d4e242;
   0x68ddb3f8; 0x1fda836e; 0x81be16cd; 0xf6b9265b; 0x6fb077e1; 0x18b74777;
   0x88085ae6; 0xff0f6a70; 0x66063bca; 0x11010b5c; 0x8f659eff; 0xf862ae69;
   0x616bffd3; 0x166ccf45; 0xa00ae278; 0xd70dd2ee; 0x4e048354; 0x3903b3c2;
   0xa7672661; 0xd06016f7; 0x4969474d; 0x3e6e77db; 0xaed16a4a; 0xd9d65adc;
   0x40df0b66; 0x37d83bf0; 0xa9bcae53; 0xdebb9ec5; 0x47b2cf7f; 0x30b5ffe9;
   0xbdbdf21c; 0xcabac28a; 0x53b39330; 0x24b4a3a6; 0xbad03605; 0xcdd70693;
   0x54de5729; 0x23d967bf; 0xb3667a2e; 0xc4614ab8; 0x5d681b02; 0x2a6f2b94;
   0xb40bbe37; 0xc30c8ea1; 0x5a05df1b; 0x2d02ef8d].

(** An element of a table; the index is below the length. *)
Definition entry (table : list Z) (i : Z) : Z := nth (Z.to_nat i) table 0.

(** ** The routines *)

Definition ngx_crc32_init : Z := 0xffffffff.
Definition ngx_crc32_final (crc : Z) : Z := Z.lxor crc 0xffffffff.

(** A round of the loop of [ngx_crc32_short]: the two halves of the byte. *)
Definition crc32_short_byte (crc c : Z) : Z :=
  let crc := Z.lxor (entry ngx_crc32_table16 (Z.land (Z.lxor crc (Z.land c 0xf)) 0xf)) (Z.shiftr crc 4) in
  Z.lxor (entry ngx_crc32_table16 (Z.land (Z.lxor crc (Z.shiftr c 4)) 0xf)) (Z.shiftr crc 4).

Definition ngx_crc32_short (p : list Z) : Z :=
  Z.lxor (foldl crc32_short_byte 0xffffffff p) 0xffffffff.

(** A round of the loops of [ngx_crc32_long] and [ngx_crc32_update]. *)
Definition crc32_long_byte (crc c : Z) : Z :=
  Z.lxor (entry ngx_crc32_table256 (Z.land (Z.lxor crc c) 0xff)) (Z.shiftr crc 8).

Definition ngx_crc32_long (p : list Z) : Z :=
  Z.lxor (foldl crc32_long_byte 0xffffffff p) 0xffffffff.

Definition ngx_crc32_update (crc : Z) (p : list Z) : Z := foldl crc32_long_byte crc p.

(** [ngx_crc]: a rotation and a sum of 32 bits for each byte. *)
Definition crc_byte (sum c : Z) : Z :=
  let sum := Z.lor (Z.shiftr sum 1) (u32 (Z.shiftl sum 31)) in u32 (sum + c).

Definition ngx_crc (data : list Z) : Z := foldl crc_byte 0 data.

(** ** Reference: division of the message by the polynomial, a bit at a time *)

(** The polynomial of CRC-32 without its highest coefficient, the coefficient of
    the lowest power in the highest bit. *)
Definition poly : Z := 0xedb88320.

(** Multiplication of a remainder by x. *)
Definition times_x (r : Z) : Z :=
  if Z.odd r then Z.lxor (Z.shiftr r 1) poly else Z.shiftr r 1.

(** A bit of the message is added to the coefficient of the highest power. *)
Definition crc_bit (r : Z) (b : bool) : Z := times_x (Z.lxor r (Z.b2z b)).

(** The bits of a byte, the lowest first. *)
Definition low_bits (c : Z) : list bool := map (Z.testbit c) [0; 1; 2; 3; 4; 5; 6; 7].

Definition crc32_reference (l : list Z) : Z :=
  Z.lxor (foldl crc_bit 0xffffffff (l ≫= low_bits)) 0xffffffff.

(** ** The tables *)

Fixpoint times (n : nat) (r : Z) : Z := match n with O => r | S n => times n (times_x r) end.

Lemma table16_ok i : 0 <= i < 16 -> entry ngx_crc32_table16 i = times 4 i.
Proof.
  intros H. assert (Hz : zall (fun i => entry ngx_crc32_table16 i =? times 4 i) 0 16 = true)
    by (vm_compute; reflexivity).
  apply Z.eqb_eq, (zall_spec _ _ _ Hz i H).
Qed.

Lemma table256_ok i : is_byte i -> entry ngx_crc32_table256 i = times 8 i.
Proof.
  intros H. assert (Hz : bytes_all (fun i => entry ngx_crc32_table256 i =? times 8 i) = true)
    by (vm_compute; reflexivity).
  apply Z.eqb_eq, (bytes_all_spec _ Hz i H).
Qed.

(** ** Linearity *)

Lemma times_x_lxor a b : times_x (Z.lxor a b) = Z.lxor (times_x a) (times_x b).
Proof.
  unfold times_x. rewrite <- !Z.bit0_odd, Z.lxor_spec, Z.shiftr_lxor.
  destruct (Z.testbit a 0), (Z.testbit b 0); cbn [xorb];
    apply Z.bits_inj'; intros n _; rewrite ?Z.lxor_spec;
    repeat match goal with |- context [Z.testbit ?x n] => destruct (Z.testbit x n) end; reflexivity.
Qed.

Lemma times_lxor n : forall a b, times n (Z.lxor a b) = Z.lxor (times n a) (times n b).
Proof. induction n as [|n IH]; intros a b; [done|]. cbn. by rewrite times_x_lxor, IH. Qed.

Lemma times_shiftl n a : times n (Z.shiftl a (Z.of_nat n)) = a.
Proof.
  revert a; induction n as [|n IH]; intros a; [apply Z.shiftl_0_r|]. cbn [times].
  replace (times_x (Z.shiftl a (Z.of_nat (S n)))) with (Z.shiftl a (Z.of_nat n)); [apply IH|].
  unfold times_x. rewrite <- Z.bit0_odd, Z.shiftl_spec_low by lia.
  rewrite Z.shiftr_shiftl_l by lia. f_equal. lia.
Qed.

Lemma times_split n r : times n r =
  Z.lxor (times n (Z.land r (Z.ones (Z.of_nat n)))) (Z.shiftr r (Z.of_nat n)).
Proof.
  rewrite <- (times_shiftl n (Z.shiftr r (Z.of_nat n))) at 1. rewrite <- times_lxor. f_equal.
  apply Z.bits_inj'; intros k Hk. rewrite Z.lxor_spec, Z.land_spec, Z.shiftl_spec by done.
  rewrite Z.testbit_ones_nonneg by lia. destruct (decide (k < Z.of_nat n)).
  - rewrite (proj2 (Z.ltb_lt _ _)), (Z.testbit_neg_r _ (k - Z.of_nat n)) by lia.
    by rewrite andb_true_r, xorb_false_r.
  - rewrite (proj2 (Z.ltb_ge _ _)) by lia. rewrite Z.shiftr_spec by lia. rewrite andb_false_r.
    cbn. f_equal. lia.
Qed.

Lemma times_add m n r : times (m + n) r = times n (times m r).
Proof. revert r; induction m as [|m IH]; intros r; [done|]. cbn. apply IH. Qed.

(** ** A byte *)

(** The bits as a number, the first the lowest. *)
Definition val (w : list bool) : Z := foldr (fun b v => Z.lxor (Z.b2z b) (Z.shiftl v 1)) 0 w.

Lemma crc_bits w : forall r, foldl crc_bit r w = times (length w) (Z.lxor r (val w)).
Proof.
  induction w as [|b w IH]; intros r; [cbn; by rewrite Z.lxor_0_r|].
  cbn [foldl length times val foldr]. rewrite IH. f_equal. unfold crc_bit. fold (val w).
  rewrite <- Z.lxor_assoc, (times_x_lxor _ (Z.shiftl (val w) 1)). f_equal.
  symmetry. exact (times_shiftl 1 (val w)).
Qed.

Lemma val_low c : is_byte c -> val (low_bits c) = c.
Proof. intros H. byte_sweep c H. Qed.

Lemma reference_byte r c : is_byte c -> foldl crc_bit r (low_bits c) = times 8 (Z.lxor r c).
Proof. intros H. rewrite crc_bits, val_low by done. done. Qed.

Lemma land_byte x : is_byte (Z.land x 0xff).
Proof. rewrite (land_ones_mod x 0xff 8) by done. unfold is_byte. dlia. Qed.

Lemma shiftr_byte c : is_byte c -> Z.shiftr c 8 = 0.
Proof. intros H. rewrite Z.shiftr_div_pow2 by lia. apply Z.div_small. exact H. Qed.

Lemma long_byte_ok r c : is_byte c -> crc32_long_byte r c = times 8 (Z.lxor r c).
Proof.
  intros H. unfold crc32_long_byte. rewrite table256_ok by apply land_byte.
  rewrite (times_split 8 (Z.lxor r c)). change (Z.ones (Z.of_nat 8)) with 0xff.
  change (Z.of_nat 8) with 8. by rewrite Z.shiftr_lxor, (shiftr_byte c H), Z.lxor_0_r.
Qed.

Lemma short_half r c : times 4 (Z.lxor r c) =
  Z.lxor (Z.lxor (entry ngx_crc32_table16 (Z.land (Z.lxor r (Z.land c 0xf)) 0xf)) (Z.shiftr r 4))
         (Z.shiftr c 4).
Proof.
  rewrite (times_split 4 (Z.lxor r c)). change (Z.ones (Z.of_nat 4)) with 0xf.
  change (Z.of_nat 4) with 4. rewrite Z.shiftr_lxor, <- Z.lxor_assoc. do 2 f_equal.
  rewrite table16_ok by (rewrite (land_ones_mod _ 0xf 4) by done; dlia). f_equal.
  apply Z.bits_inj'; intros k _. rewrite !Z.land_spec, !Z.lxor_spec, Z.land_spec.
  by destruct (Z.testbit r k), (Z.testbit c k), (Z.testbit 15 k).
Qed.

Lemma short_byte_ok r c : is_byte c -> crc32_short_byte r c = times 8 (Z.lxor r c).
Proof.
  intros H. change 8%nat with (4 + 4)%nat. rewrite times_add, short_half, short_half.
  unfold crc32_short_byte.
  assert (Hc : Z.land (Z.shiftr c 4) 0xf = Z.shiftr c 4 /\ Z.shiftr (Z.shiftr c 4) 4 = 0).
  { byte_sweep c H. }
  destruct Hc as [-> ->]. by rewrite Z.lxor_0_r.
Qed.

Lemma crc_loop_ok f p : (forall r c, is_byte c -> f r c = times 8 (Z.lxor r c)) -> bytes p ->
  forall r, foldl f r p = foldl crc_bit r (p ≫= low_bits).
Proof.
  intros Hf Hp. induction p as [|c p IH]; intros r; [done|].
  apply List.Forall_cons_iff in Hp as [Hc Hp]. cbn [foldl]. rewrite IH by done.
  change ((c :: p) ≫= low_bits) with (low_bits c ++ (p ≫= low_bits)).
  by rewrite foldl_app, Hf, reference_byte by done.
Qed.

Lemma update_pieces pieces : forall r, foldl ngx_crc32_update r pieces = foldl crc32_long_byte r (concat pieces).
Proof.
  induction pieces as [|p pieces IH]; intros r; [done|]. cbn. by rewrite IH, foldl_app.
Qed.

(** ** Bounds, and errors that are found *)

Lemma lxor_bound a b n : 0 <= a < 2 ^ n -> 0 <= b < 2 ^ n -> 0 <= n -> 0 <= Z.lxor a b < 2 ^ n.
Proof.
  intros Ha Hb Hn. assert (Z.lxor a b = Z.lxor a b mod 2 ^ n) as ->;
    [|apply Z.mod_pos_bound; lia].
  apply Z.bits_inj'. intros i Hi. destruct (Z_lt_le_dec i n).
  - by rewrite Z.mod_pow2_bits_low by lia.
  - rewrite Z.mod_pow2_bits_high, Z.lxor_spec by lia.
    by rewrite !(testbit_high _ n) by lia.
Qed.

Lemma times_x_bound r : 0 <= r < 2 ^ 32 -> 0 <= times_x r < 2 ^ 32.
Proof.
  intros H. assert (0 <= Z.shiftr r 1 < 2 ^ 32) by (rewrite Z.shiftr_div_pow2 by lia; dlia).
  unfold times_x. destruct (Z.odd r); [|done]. apply lxor_bound; unfold poly; lia.
Qed.

Lemma times_x_zero r : 0 <= r < 2 ^ 32 -> times_x r = 0 -> r = 0.
Proof.
  intros H E. unfold times_x in E. rewrite Z.shiftr_div_pow2 in E by lia. change (2 ^ 1) with 2 in E.
  pose proof (Z.div_mod r 2 ltac:(lia)) as Hd. rewrite Zmod_odd in Hd. destruct (Z.odd r).
  - apply Z.lxor_eq in E. unfold poly in E. dlia.
  - lia.
Qed.

Lemma times_zero n : forall r, 0 <= r < 2 ^ 32 -> times n r = 0 -> r = 0.
Proof.
  induction n as [|n IH]; intros r H E; [done|]. cbn in E.
  apply times_x_zero; [done|]. apply IH; [by apply times_x_bound|done].
Qed.

Lemma times_inj n a b : 0 <= a < 2 ^ 32 -> 0 <= b < 2 ^ 32 -> times n a = times n b -> a = b.
Proof.
  intros Ha Hb E. apply Z.lxor_eq, (times_zero n); [by apply lxor_bound|].
  by rewrite times_lxor, E, Z.lxor_nilpotent.
Qed.

Lemma val_bound w : 0 <= val w < 2 ^ Z.of_nat (length w).
Proof.
  induction w as [|b w IH]; [cbn; lia|]. cbn [val foldr length]. fold (val w).
  rewrite Nat2Z.inj_succ. apply lxor_bound; [| |lia].
  - destruct b; rewrite Z.pow_succ_r by lia; cbn [Z.b2z]; lia.
  - rewrite Z.shiftl_mul_pow2, Z.pow_succ_r by lia. lia.
Qed.

Lemma val_inj w1 : forall w2, length w1 = length w2 -> val w1 = val w2 -> w1 = w2.
Proof.
  induction w1 as [|b1 w1 IH]; intros [|b2 w2] Hl E; try discriminate Hl; [done|].
  cbn [val foldr] in E. fold (val w1) in E. fold (val w2) in E.
  assert (Hb : forall b v, Z.testbit (Z.lxor (Z.b2z b) (Z.shiftl v 1)) 0 = b).
  { intros b v. rewrite Z.lxor_spec, Z.shiftl_spec_low by lia. by destruct b. }
  assert (Hv : forall b v, Z.shiftr (Z.lxor (Z.b2z b) (Z.shiftl v 1)) 1 = v).
  { intros b v. rewrite Z.shiftr_lxor, Z.shiftr_shiftl_l, Z.shiftl_0_r by lia. by destruct b. }
  f_equal.
  - rewrite <- (Hb b1 (val w1)), E. apply Hb.
  - apply IH; [by injection Hl|]. rewrite <- (Hv b1 (val w1)), E. apply Hv.
Qed.

(** The state of the division determines what went in. *)
Lemma crc_bits_inj w r1 r2 : 0 <= r1 < 2 ^ 32 -> 0 <= r2 < 2 ^ 32 ->
  foldl crc_bit r1 w = foldl crc_bit r2 w -> (length w <= 32)%nat -> r1 = r2.
Proof.
  intros H1 H2 E Hw. rewrite !crc_bits in E.
  assert (Hv : 0 <= val w < 2 ^ 32).
  { pose proof (val_bound w). assert (2 ^ Z.of_nat (length w) <= 2 ^ 32) by (apply Z.pow_le_mono_r; lia). lia. }
  apply times_inj in E; [|by apply lxor_bound|by apply lxor_bound].
  rewrite <- (Z.lxor_0_r r1), <- (Z.lxor_nilpotent (val w)), <- Z.lxor_assoc, E.
  by rewrite Z.lxor_assoc, Z.lxor_nilpotent, Z.lxor_0_r.
Qed.

Lemma crc_bit_bound r b : 0 <= r < 2 ^ 32 -> 0 <= crc_bit r b < 2 ^ 32.
Proof. intros H. apply times_x_bound, lxor_bound; [done|destruct b; cbn; lia|lia]. Qed.

Lemma crc_bound w : forall r, 0 <= r < 2 ^ 32 -> 0 <= foldl crc_bit r w < 2 ^ 32.
Proof. induction w as [|b w IH]; intros r H; [done|]. cbn. by apply IH, crc_bit_bound. Qed.

Lemma crc_run_inj w : forall r1 r2, 0 <= r1 < 2 ^ 32 -> 0 <= r2 < 2 ^ 32 ->
  foldl crc_bit r1 w = foldl crc_bit r2 w -> r1 = r2.
Proof.
  induction w as [|b w IH]; intros r1 r2 H1 H2 E; [done|]. cbn [foldl] in E.
  apply IH in E; [|by apply crc_bit_bound|by apply crc_bit_bound].
  by apply (crc_bits_inj [b]) in E; [|done|done|cbn; lia].
Qed.

Lemma crc_window w1 w2 r : 0 <= r < 2 ^ 32 -> length w1 = length w2 -> (length w1 <= 32)%nat ->
  foldl crc_bit r w1 = foldl crc_bit r w2 -> w1 = w2.
Proof.
  intros Hr Hl Hw E. rewrite !crc_bits, Hl in E.
  assert (Hv : forall w, (length w <= 32)%nat -> 0 <= val w < 2 ^ 32).
  { intros w H. pose proof (val_bound w).
    assert (2 ^ Z.of_nat (length w) <= 2 ^ 32) by (apply Z.pow_le_mono_r; lia). lia. }
  apply times_inj in E; [|apply lxor_bound; [done|apply Hv; lia|lia]..].
  apply val_inj; [done|]. apply (f_equal (Z.lxor r)) in E.
  by rewrite <- !Z.lxor_assoc, Z.lxor_nilpotent, !Z.lxor_0_l in E.
Qed.

(** ** Properties *)

(** C35: The short and the long routine, and [ngx_crc32_update] over any pieces of
    the data between [ngx_crc32_init] and [ngx_crc32_final], compute the
    remainder of the division of the message by the polynomial of CRC-32, bit
    by bit from the lowest bit of each byte; it has 32 bits. *)
Theorem crc32_exact p : bytes p ->
  ngx_crc32_short p = crc32_reference p /\ ngx_crc32_long p = crc32_reference p /\
  (forall pieces, concat pieces = p ->
   ngx_crc32_final (foldl ngx_crc32_update ngx_crc32_init pieces) = crc32_reference p) /\
  0 <= crc32_reference p < 2 ^ 32.
Proof.
  intros Hp. unfold ngx_crc32_short, ngx_crc32_long, ngx_crc32_final, ngx_crc32_init, crc32_reference.
  rewrite (crc_loop_ok _ _ short_byte_ok Hp), (crc_loop_ok _ _ long_byte_ok Hp).
  split; [done|]. split; [done|]. split.
  - intros pieces <-. by rewrite update_pieces, (crc_loop_ok _ _ long_byte_ok Hp).
  - apply lxor_bound; [by apply crc_bound|lia|lia].
Qed.

Lemma crc32_exact_witness :
  let p := [49; 50; 51; 52; 53; 54; 55; 56; 57] in
  bytes p /\ ngx_crc32_short p = 0xcbf43926 /\ ngx_crc32_long p = 0xcbf43926 /\
  ngx_crc32_final (foldl ngx_crc32_update ngx_crc32_init [[49; 50]; []; [51; 52; 53; 54; 55; 56; 57]])
  = 0xcbf43926.
Proof.
  intros p. assert (Hp : bytes p) by by_decide. split; [done|].
  destruct (crc32_exact p Hp) as (-> & -> & Hs & _). split; [vm_compute; reflexivity|].
  split; [vm_compute; reflexivity|]. rewrite Hs by reflexivity. vm_compute. reflexivity.
Defined.

(** Messages that differ in bits that lie within 32 consecutive bits have
    different checksums: a burst of errors of up to 32 bits is always found. *)
Theorem crc32_burst p1 p2 pre w1 w2 post : bytes p1 -> bytes p2 ->
  p1 ≫= low_bits = pre ++ w1 ++ post -> p2 ≫= low_bits = pre ++ w2 ++ post ->
  length w1 = length w2 -> (length w1 <= 32)%nat -> w1 <> w2 ->
  ngx_crc32_long p1 <> ngx_crc32_long p2.
Proof.
  intros Hp1 Hp2 E1 E2 Hl Hw Hne E. apply Hne. unfold ngx_crc32_long in E.
  rewrite (crc_loop_ok _ _ long_byte_ok Hp1), (crc_loop_ok _ _ long_byte_ok Hp2), E1, E2, !foldl_app in E.
  apply (f_equal (Z.lxor 0xffffffff)) in E. rewrite !(Z.lxor_comm 0xffffffff), !Z.lxor_assoc in E.
  rewrite Z.lxor_nilpotent, !Z.lxor_0_r in E.
  assert (Hr : 0 <= foldl crc_bit 0xffffffff pre < 2 ^ 32) by (apply crc_bound; lia).
  apply crc_run_inj in E; [|by apply crc_bound|by apply crc_bound].
  by eapply crc_window.
Qed.

Lemma crc32_burst_witness :
  ngx_crc32_long [1; 2; 3; 4; 5; 6] <> ngx_crc32_long [1; 130; 0; 0; 5; 6].
Proof.
  apply (crc32_burst [1; 2; 3; 4; 5; 6] [1; 130; 0; 0; 5; 6]
    (low_bits 1) (low_bits 2 ++ low_bits 3 ++ low_bits 4) (low_bits 130 ++ low_bits 0 ++ low_bits 0)
    (low_bits 5 ++ low_bits 6)).
  - by_decide.
  - by_decide.
  - reflexivity.
  - reflexivity.
  - reflexivity.
  - vm_compute. lia.
  - discriminate.
Defined.
