(* ===== verification/Radix.v ===== *)
(** * The radix tree of ngx_radix_tree.c

    A binary trie of nodes linked in a heap, for prefixes of keys of 32 and of
    128 bits, with its free list and its page allocator. A pointer is its
    address, NULL is 0; reading an address without a node, or a byte after the
    end of a key, is undefined behaviour and the result [None]. *)

From S2P Require Import Prelude.
From stdpp Require Import gmap sets.

Open Scope Z_scope.

Definition NULL : Z := 0.
Definition NGX_RADIX_NO_VALUE : Z := 2 ^ 64 - 1.

(** [ngx_radix_node_t], and its size. *)
Record rnode := RNode { n_right : Z; n_left : Z; n_parent : Z; n_value : Z }.
Definition sizeof_node : Z := 32.

(** [ngx_radix_tree_t] and its memory: [cells] are the nodes, [pages] the
    addresses that the next calls of [ngx_pmemalign] return. *)
Record rtree := RTree {
  t_root : Z; t_free : Z; t_start : Z; t_size : Z; cells : gmap Z rnode; pages : list Z }.

Definition set_cells (h : gmap Z rnode) (t : rtree) : rtree :=
  RTree (t_root t) (t_free t) (t_start t) (t_size t) h (pages t).

Definition set_value (v : Z) (n : rnode) : rnode := RNode (n_right n) (n_left n) (n_parent n) v.
(** [node->right] when the bit of the key is set, or else [node->left]. *)
Definition branch (right : bool) (n : rnode) : Z := if right then n_right n else n_left n.
Definition set_branch (right : bool) (a : Z) (n : rnode) : rnode :=
  if right then RNode a (n_left n) (n_parent n) (n_value n)
  else RNode (n_right n) a (n_parent n) (n_value n).

Definition upd_node (f : rnode -> rnode) (a : Z) (t : rtree) : option rtree :=
  n ← cells t !! a; Some (set_cells (<[a := f n]> (cells t)) t).

(** ** The positions in a key

    The loops for the two sizes differ in how they go along the bits of the key
    and the mask; this is what they need of a position. *)
Class Cursor (C : Type) := {
  more : C -> option bool;   (* the loop condition, whether the mask has the bit *)
  dir : C -> option bool;    (* whether the key has the bit *)
  adv : C -> C }.

(** [bit], with [key] and [mask]. *)
Record cursor32 := Cursor32 { c_key : Z; c_mask : Z; c_bit : Z }.

Definition more32 (c : cursor32) : option bool := Some (bool_decide (Z.land (c_bit c) (c_mask c) <> 0)).
Definition dir32 (c : cursor32) : option bool := Some (bool_decide (Z.land (c_key c) (c_bit c) <> 0)).
Definition adv32 (c : cursor32) : cursor32 := Cursor32 (c_key c) (c_mask c) (Z.shiftr (c_bit c) 1).
#[export] Instance cursor32_cursor : Cursor cursor32 := { more := more32; dir := dir32; adv := adv32 }.

Definition start32 (key mask : Z) : cursor32 := Cursor32 key mask 0x80000000.

(** [i] and [bit]; the loops with a mask end when [i] is 16. *)
Record cursor128 := Cursor128 { d_key : list Z; d_mask : list Z; d_i : nat; d_bit : Z }.

Definition more128 (c : cursor128) : option bool :=
  if decide (d_i c = 16%nat) then Some false
  else m ← d_mask c !! d_i c; Some (bool_decide (Z.land (d_bit c) m <> 0)).

Definition dir128 (c : cursor128) : option bool :=
  k ← d_key c !! d_i c; Some (bool_decide (Z.land k (d_bit c) <> 0)).

Definition adv128 (c : cursor128) : cursor128 :=
  let bit := Z.shiftr (d_bit c) 1 in
  if decide (bit = 0) then Cursor128 (d_key c) (d_mask c) (d_i c + 1) 0x80
  else Cursor128 (d_key c) (d_mask c) (d_i c) bit.

#[export] Instance cursor128_cursor : Cursor cursor128 := { more := more128; dir := dir128; adv := adv128 }.

Definition start128 (key mask : list Z) : cursor128 := Cursor128 key mask 0 0x80.

(** ** The operations *)

Section operations.
(** The size of a page, and the contents of a node that has not been written. *)
Context (ngx_pagesize : Z) (uninit : rnode).

(** The address, NULL when there is no memory. *)
Definition ngx_radix_alloc (t : rtree) : option (Z * rtree) :=
  if decide (t_free t <> NULL) then
    n ← cells t !! t_free t;
    Some (t_free t, RTree (t_root t) (n_right n) (t_start t) (t_size t) (cells t) (pages t))
  else
    let take_node (t : rtree) :=
      Some (t_start t,
            RTree (t_root t) (t_free t) (t_start t + sizeof_node) (t_size t - sizeof_node)
              (<[t_start t := uninit]> (cells t)) (pages t)) in
    if decide (t_size t < sizeof_node) then
      let p := hd NULL (pages t) in
      if decide (p = NULL) then
        Some (NULL, RTree (t_root t) (t_free t) NULL (t_size t) (cells t) (tl (pages t)))
      else take_node (RTree (t_root t) (t_free t) p ngx_pagesize (cells t) (tl (pages t)))
    else take_node t.

Section loops.
Context {C : Type} `{Cursor C}.

(** The first loop of an insertion: [inl] is the node of the prefix, [inr] the
    last node on the way to it and the position where a child is missing. *)
Fixpoint descend (fuel : nat) (h : gmap Z rnode) (node : Z) (c : C) : option (Z + Z * C) :=
  match fuel with
  | O => None
  | S fuel =>
      m ← more c;
      if (m : bool) then
        d ← dir c;
        n ← h !! node;
        let next := branch d n in
        if decide (next = NULL) then Some (inr (node, c)) else descend fuel h next (adv c)
      else Some (inl node)
  end.

(** The second loop: [inl] is the node of the prefix, [inr] a failed allocation. *)
Fixpoint grow (fuel : nat) (node : Z) (c : C) (t : rtree) : option (rtree * (Z + unit)) :=
  match fuel with
  | O => None
  | S fuel =>
      m ← more c;
      if (m : bool) then
        '(next, t) ← ngx_radix_alloc t;
        if decide (next = NULL) then Some (t, inr tt)
        else
          t ← upd_node (fun _ => RNode NULL NULL node NGX_RADIX_NO_VALUE) next t;
          d ← dir c;
          t ← upd_node (set_branch d next) node t;
          grow fuel next (adv c) t
      else Some (t, inl node)
  end.

Definition radix_insert (fuel : nat) (t : rtree) (c : C) (value : Z) : option (Z * rtree) :=
  r ← descend fuel (cells t) (t_root t) c;
  match r with
  | inl node =>
      n ← cells t !! node;
      if decide (n_value n <> NGX_RADIX_NO_VALUE) then Some (NGX_BUSY, t)
      else t ← upd_node (set_value value) node t; Some (NGX_OK, t)
  | inr (node, c) =>
      '(t, r) ← grow fuel node c t;
      match r with
      | inl node => t ← upd_node (set_value value) node t; Some (NGX_OK, t)
      | inr _ => Some (NGX_ERROR, t)
      end
  end.

(** The loop of a deletion: the node of the prefix, or NULL. *)
Fixpoint lookup (fuel : nat) (h : gmap Z rnode) (node : Z) (c : C) : option Z :=
  match fuel with
  | O => None
  | S fuel =>
      if decide (node = NULL) then Some NULL
      else
        m ← more c;
        if (m : bool) then d ← dir c; n ← h !! node; lookup fuel h (branch d n) (adv c)
        else Some node
  end.

(** The endless loop that frees the node and the ancestors that are left
    without a child and a value. *)
Fixpoint prune (fuel : nat) (node : Z) (t : rtree) : option rtree :=
  match fuel with
  | O => None
  | S fuel =>
      n ← cells t !! node;
      p ← cells t !! n_parent n;
      t ← upd_node (set_branch (bool_decide (n_right p = node)) NULL) (n_parent n) t;
      t ← upd_node (set_branch true (t_free t)) node t;
      let t := RTree (t_root t) node (t_start t) (t_size t) (cells t) (pages t) in
      n ← cells t !! node;
      let node := n_parent n in
      n ← cells t !! node;
      if decide (n_right n <> NULL \/ n_left n <> NULL) then Some t
      else if decide (n_value n <> NGX_RADIX_NO_VALUE) then Some t
      else if decide (n_parent n = NULL) then Some t
      else prune fuel node t
  end.

Definition radix_delete (fuel : nat) (t : rtree) (c : C) : option (Z * rtree) :=
  node ← lookup fuel (cells t) (t_root t) c;
  if decide (node = NULL) then Some (NGX_ERROR, t)
  else
    n ← cells t !! node;
    if decide (n_right n <> NULL \/ n_left n <> NULL) then
      if decide (n_value n <> NGX_RADIX_NO_VALUE) then
        t ← upd_node (set_value NGX_RADIX_NO_VALUE) node t; Some (NGX_OK, t)
      else Some (NGX_ERROR, t)
    else t ← prune fuel node t; Some (NGX_OK, t).

Fixpoint find_loop (fuel : nat) (h : gmap Z rnode) (node : Z) (c : C) (value : Z) : option Z :=
  match fuel with
  | O => None
  | S fuel =>
      if decide (node = NULL) then Some value
      else
        n ← h !! node;
        let value := if decide (n_value n <> NGX_RADIX_NO_VALUE) then n_value n else value in
        d ← dir c;
        find_loop fuel h (branch d n) (adv c) value
  end.

Definition radix_find (fuel : nat) (t : rtree) (c : C) : option Z :=
  find_loop fuel (cells t) (t_root t) c NGX_RADIX_NO_VALUE.

End loops.

(** The fuel is one more than the nodes on a path. *)
Definition ngx_radix32tree_insert (t : rtree) (key mask value : Z) : option (Z * rtree) :=
  radix_insert 34 t (start32 key mask) value.
Definition ngx_radix32tree_delete (t : rtree) (key mask : Z) : option (Z * rtree) :=
  radix_delete 34 t (start32 key mask).
Definition ngx_radix32tree_find (t : rtree) (key : Z) : option Z :=
  radix_find 34 t (start32 key 0).
Definition ngx_radix128tree_insert (t : rtree) (key mask : list Z) (value : Z) : option (Z * rtree) :=
  radix_insert 130 t (start128 key mask) value.
Definition ngx_radix128tree_delete (t : rtree) (key mask : list Z) : option (Z * rtree) :=
  radix_delete 130 t (start128 key mask).
Definition ngx_radix128tree_find (t : rtree) (key : list Z) : option Z :=
  radix_find 130 t (start128 key []).

(** The nodes of a depth are inserted without a value: the loop over the keys
    [key], [key + inc], ... until the sum wraps around; [None] is undefined
    behaviour, [Some None] the return of NULL. *)
Fixpoint prealloc_level (n : nat) (t : rtree) (key mask inc : Z) : option (option rtree) :=
  match n with
  | O => None
  | S n =>
      '(rc, t) ← ngx_radix32tree_insert t key mask NGX_RADIX_NO_VALUE;
      if decide (rc <> NGX_OK) then Some None
      else
        let key := u32 (key + inc) in
        if decide (key = 0) then Some (Some t) else prealloc_level n t key mask inc
  end.

Fixpoint prealloc (preallocate : nat) (t : rtree) (mask inc : Z) : option (option rtree) :=
  match preallocate with
  | O => Some (Some t)
  | S preallocate =>
      let mask := Z.lor (Z.shiftr mask 1) 0x80000000 in
      r ← prealloc_level (Z.to_nat (2 ^ 32 / inc)) t 0 mask inc;
      match r with
      | Some t => prealloc preallocate t mask (Z.shiftr inc 1)
      | None => Some None
      end
  end.

(** [preallocate] is a number of bits, or -1 for the number that fills a page. *)
Definition depth (preallocate : Z) : Z :=
  if decide (preallocate = -1) then
    let n := ngx_pagesize / sizeof_node in
    if decide (n = 128) then 6 else if decide (n = 256) then 7 else 8
  else preallocate.

Definition ngx_radix_tree_create (mem : list Z) (preallocate : Z) : option (option rtree) :=
  '(root, t) ← ngx_radix_alloc (RTree NULL NULL NULL 0 ∅ mem);
  if decide (root = NULL) then Some None
  else
    let t := RTree root (t_free t) (t_start t) (t_size t) (cells t) (pages t) in
    t ← upd_node (fun _ => RNode NULL NULL NULL NGX_RADIX_NO_VALUE) root t;
    if decide (preallocate = 0) then Some (Some t)
    else prealloc (Z.to_nat (depth preallocate)) t 0 0x80000000.

End operations.

(** ** The abstract state

    A node is found by its path, the bits of its prefix from the last to the
    first: the map [M] has its address and value. *)

Definition node_addr (M : gmap (list bool) (Z * Z)) (p : list bool) : Z := from_option fst NULL (M !! p).
Definition parent_addr (M : gmap (list bool) (Z * Z)) (p : list bool) : Z :=
  match p with [] => NULL | _ :: p => node_addr M p end.

(** The values: what the tree is for. *)
Definition vals (M : gmap (list bool) (Z * Z)) : gmap (list bool) Z :=
  omap (fun n => if decide (n.2 = NGX_RADIX_NO_VALUE) then None else Some n.2) M.

Fixpoint free_list (h : gmap Z rnode) (f : Z) (fl : list Z) : Prop :=
  match fl with
  | [] => f = NULL
  | a :: fl => f = a /\ exists n, h !! a = Some n /\ free_list h (n_right n) fl
  end.

(** The addresses of the nodes in a piece of memory. *)
Definition nodes_in (a size : Z) : list Z := map (fun i => a + sizeof_node * Z.of_nat i) (seq 0 (Z.to_nat (size / sizeof_node))).

Section proofs.
Context (ngx_pagesize : Z) (uninit : rnode) (Hpage : sizeof_node <= ngx_pagesize).
(** The number of bits of a key, and the depth of the preallocation. *)
Context (N D : nat).

(** The addresses that the allocator has still to give. *)
Definition avail (t : rtree) : list Z :=
  nodes_in (t_start t) (t_size t) ++
  concat (map (fun p => if decide (p = NULL) then [] else nodes_in p ngx_pagesize) (pages t)).

Record inv (t : rtree) (M : gmap (list bool) (Z * Z)) (fl : list Z) : Prop := {
  inv_node p a v : M !! p = Some (a, v) -> a <> NULL /\
    cells t !! a = Some (RNode (node_addr M (true :: p)) (node_addr M (false :: p)) (parent_addr M p) v);
  inv_root : exists v, M !! [] = Some (t_root t, v);
  inv_closed d p : is_Some (M !! (d :: p)) -> is_Some (M !! p);
  inv_depth p : is_Some (M !! p) -> (length p <= N)%nat;
  inv_inj p q a v w : M !! p = Some (a, v) -> M !! q = Some (a, w) -> p = q;
  inv_free : free_list (cells t) (t_free t) fl;
  inv_nodup : NoDup (fl ++ avail t);
  inv_nonnull : Forall (fun a => a <> NULL) (fl ++ avail t);
  inv_disj p a v : M !! p = Some (a, v) -> a ∉ fl ++ avail t;
  inv_null : cells t !! NULL = None }.

Lemma addr_some M p a v : M !! p = Some (a, v) -> node_addr M p = a.
Proof. unfold node_addr. by intros ->. Qed.

Lemma addr_none M p : M !! p = None -> node_addr M p = NULL.
Proof. unfold node_addr. by intros ->. Qed.

Lemma addr_null t M fl p : inv t M fl -> node_addr M p = NULL <-> M !! p = None.
Proof.
  intros H. unfold node_addr. destruct (M !! p) as [[a v]|] eqn:E; cbn; [|done].
  split; [|done]. intros ->. by destruct (inv_node _ _ _ H _ _ _ E).
Qed.

Lemma nodes_in_cons a size : sizeof_node <= size ->
  nodes_in a size = a :: nodes_in (a + sizeof_node) (size - sizeof_node).
Proof.
  intros H. unfold nodes_in.
  replace (Z.to_nat (size / sizeof_node)) with (S (Z.to_nat ((size - sizeof_node) / sizeof_node))).
  - cbn [seq map]. f_equal; [lia|]. rewrite <- seq_shift, map_map. apply map_ext. intros i. lia.
  - unfold sizeof_node in *. rewrite <- Z2Nat.inj_succ by dlia. f_equal. dlia.
Qed.

Lemma nodes_in_small a size : size < sizeof_node -> nodes_in a size = [].
Proof. intros H. unfold nodes_in. by replace (Z.to_nat (size / sizeof_node)) with 0%nat by (unfold sizeof_node in *; dlia). Qed.

(** An allocation takes the first free node, or else the next address. *)
Definition fresh (t : rtree) (fl : list Z) (a : Z) (t' : rtree) (fl' : list Z) : Prop :=
  fl ++ avail t = a :: fl' ++ avail t' /\ t_root t' = t_root t /\
  (exists n, cells t' !! a = Some n) /\
  (forall b, b <> a -> cells t' !! b = cells t !! b) /\
  free_list (cells t') (t_free t') fl'.

Lemma free_list_frame h h' f fl : (forall a, a ∈ fl -> h' !! a = h !! a) ->
  free_list h f fl -> free_list h' f fl.
Proof.
  revert f; induction fl as [|a fl IH]; intros f Hf; [done|]. cbn.
  intros [-> (n & Hn & Hr)]. split; [done|]. exists n.
  rewrite Hf by (by apply list_elem_of_here). split; [done|].
  apply IH; [|done]. intros b Hb. apply Hf. by apply list_elem_of_further.
Qed.

Definition enough (k : nat) (t : rtree) : Prop := forall n, (n < k)%nat -> nth n (pages t) NULL <> NULL.

Lemma enough_tl k t t' : enough (S k) t -> pages t' = pages t \/ pages t' = tl (pages t) -> enough k t'.
Proof.
  intros H [E|E] n Hn; unfold enough in H; rewrite E.
  - apply H. lia.
  - specialize (H (S n) ltac:(lia)). by destruct (pages t), n.
Qed.

(** The allocator on a tree that satisfies the invariant. *)
Lemma alloc_ok t M fl : inv t M fl -> exists a t',
  ngx_radix_alloc ngx_pagesize uninit t = Some (a, t') /\
  (pages t' = pages t \/ pages t' = tl (pages t)) /\
  (if decide (a = NULL) then ~ enough 1 t /\ inv t' M fl else exists fl', fresh t fl a t' fl').
Proof.
  intros H. unfold ngx_radix_alloc. pose proof (inv_free _ _ _ H) as Hfree. case_decide as Hf.
  - destruct fl as [|a fl]; [done|]. destruct Hfree as [Ha (n & Hn & Hr)]. rewrite Ha, Hn. cbn.
    eexists _, _. split; [reflexivity|]. split; [by left|]. rewrite decide_False by congruence.
    exists fl. split_and!; try done. by exists n.
  - destruct fl as [|a fl]; [|exfalso; destruct Hfree as [Ha _];
      pose proof (inv_nonnull _ _ _ H) as Hz; apply List.Forall_inv in Hz; congruence].
    pose proof (inv_nodup _ _ _ H) as Hnd. pose proof (inv_nonnull _ _ _ H) as Hnz.
    assert (Htake : forall t1, t_root t1 = t_root t -> t_free t1 = t_free t -> cells t1 = cells t ->
      avail t1 = avail t -> sizeof_node <= t_size t1 ->
      let t2 := RTree (t_root t1) (t_free t1) (t_start t1 + sizeof_node) (t_size t1 - sizeof_node)
                  (<[t_start t1 := uninit]> (cells t1)) (pages t1) in
      t_start t1 <> NULL /\ fresh t [] (t_start t1) t2 []).
    { intros t1 Er Ef Ec Ea Hs t2.
      assert (Eav : avail t = t_start t1 :: avail t2).
      { rewrite <- Ea. unfold avail. by rewrite nodes_in_cons by done. }
      split; [rewrite Eav in Hnz; by apply List.Forall_inv in Hnz|].
      split_and!; [done|done| | |].
      - exists uninit. apply lookup_insert_eq.
      - intros b Hb. cbn. rewrite Ec. by apply lookup_insert_ne.
      - cbn. by rewrite Ef. }
    case_decide as Hsz.
    + destruct (decide (hd NULL (pages t) = NULL)) as [Hp|Hp].
      * eexists _, _. split; [reflexivity|]. split; [by right|]. rewrite decide_True by done.
        split; [intros He; apply (He 0%nat ltac:(lia)); by destruct (pages t)|].
        assert (Eav : avail (RTree (t_root t) (t_free t) NULL (t_size t) (cells t) (tl (pages t))) = avail t).
        { unfold avail. cbn. rewrite !nodes_in_small by done. destruct (pages t) as [|p ps]; [done|].
          cbn in Hp |- *. by rewrite decide_True. }
        destruct H. split; try done; by rewrite ?Eav.
      * destruct (Htake (RTree (t_root t) (t_free t) (hd NULL (pages t)) ngx_pagesize (cells t) (tl (pages t))))
          as [Hne Hfr]; [done|done|done| |done|].
        { unfold avail. cbn. rewrite (nodes_in_small (t_start t)) by done.
          destruct (pages t) as [|p ps]; [done|]. cbn in Hp |- *. by rewrite decide_False. }
        eexists _, _. split; [reflexivity|]. split; [by right|]. rewrite decide_False by done. by eexists.
    + destruct (Htake t) as [Hne Hfr]; [done|done|done|done|lia|].
      eexists _, _. split; [reflexivity|]. split; [by left|]. rewrite decide_False by done. by eexists.
Qed.

Lemma addr_insert M p q a v : node_addr (<[p := (a, v)]> M) q = if decide (p = q) then a else node_addr M q.
Proof.
  unfold node_addr. case_decide as E; [subst; by rewrite lookup_insert_eq|by rewrite lookup_insert_ne].
Qed.

Lemma parent_insert M p q a v : (forall d, q <> d :: p) ->
  parent_addr (<[p := (a, v)]> M) q = parent_addr M q.
Proof.
  intros H. destruct q as [|d q]; [done|]. cbn. rewrite addr_insert. case_decide as E; [|done].
  by destruct (H d); subst.
Qed.

(** A value is set. *)
Lemma set_value_ok t M fl p a v w : inv t M fl -> M !! p = Some (a, v) -> exists t',
  upd_node (set_value w) a t = Some t' /\ inv t' (<[p := (a, w)]> M) fl /\ pages t' = pages t.
Proof.
  intros H Hp. destruct (inv_node _ _ _ H _ _ _ Hp) as [Hne Hc]. unfold upd_node. rewrite Hc. cbn.
  eexists. split; [reflexivity|]. split; [|done].
  assert (Ea : forall q, node_addr (<[p := (a, w)]> M) q = node_addr M q).
  { intros q. rewrite addr_insert. case_decide; [subst; symmetry; by eapply addr_some|done]. }
  assert (Ep : forall q, parent_addr (<[p := (a, w)]> M) q = parent_addr M q).
  { intros [|d q]; [done|apply Ea]. }
  assert (Es : forall q, is_Some ((<[p := (a, w)]> M) !! q) -> is_Some (M !! q)).
  { intros q. destruct (decide (p = q)) as [->|Hn]; [by rewrite Hp|by rewrite lookup_insert_ne]. }
  assert (Hin : forall q b x, (<[p := (a, w)]> M) !! q = Some (b, x) -> exists y, M !! q = Some (b, y)).
  { intros q b x. destruct (decide (p = q)) as [->|Hn].
    - rewrite lookup_insert_eq. intros [= <- <-]. by exists v.
    - rewrite lookup_insert_ne by done. by exists x. }
  destruct H as [Hnode [v0 Hroot] Hcl Hdep Hinj Hfree Hnd Hnz Hdis Hnull]. split; try done.
  - intros q b x Hq. rewrite !Ea, Ep. destruct (decide (p = q)) as [->|Hn].
    + rewrite lookup_insert_eq in Hq. injection Hq as <- <-. split; [done|]. cbn. by rewrite lookup_insert_eq.
    + rewrite lookup_insert_ne in Hq by done. destruct (Hnode _ _ _ Hq) as [? Hb]. split; [done|].
      cbn. rewrite lookup_insert_ne; [done|]. intros <-. by destruct Hn; eapply Hinj.
  - destruct (decide (p = [])) as [->|Hn].
    + exists w. rewrite lookup_insert_eq. cbn. congruence.
    + exists v0. by rewrite lookup_insert_ne.
  - intros d q Hq. specialize (Hcl d q (Es _ Hq)). destruct (decide (p = q)) as [->|Hn];
      [by rewrite lookup_insert_eq|by rewrite lookup_insert_ne].
  - intros q Hq. by apply Hdep, Es.
  - intros q1 q2 b x y H1 H2. destruct (Hin _ _ _ H1), (Hin _ _ _ H2). by eapply Hinj.
  - apply (free_list_frame (cells t)); [|done]. intros b Hb. cbn. apply lookup_insert_ne.
    intros <-. apply (Hdis _ _ _ Hp), elem_of_app. by left.
  - intros q b x Hq. destruct (Hin _ _ _ Hq). by eapply Hdis.
  - cbn. by rewrite lookup_insert_ne.
Qed.

(** A new node is linked. *)
Lemma link_ok t M fl p a v d b t1 fl' : inv t M fl -> fresh t fl b t1 fl' -> b <> NULL ->
  M !! p = Some (a, v) -> M !! (d :: p) = None -> (length p < N)%nat ->
  exists t2 t3, upd_node (fun _ => RNode NULL NULL a NGX_RADIX_NO_VALUE) b t1 = Some t2 /\
    upd_node (set_branch d b) a t2 = Some t3 /\
    inv t3 (<[d :: p := (b, NGX_RADIX_NO_VALUE)]> M) fl' /\ pages t3 = pages t1.
Proof.
  intros H (Hav & Hr & (nb & Hb) & Hc & Hfl) Hbn Hp Hdp Hlen.
  destruct (inv_node _ _ _ H _ _ _ Hp) as [Han Hca].
  assert (Hout : (b ∉ fl' ++ avail t1) /\
    forall q c x, M !! q = Some (c, x) -> c <> b /\ (c ∉ fl' ++ avail t1)).
  { split.
    - pose proof (inv_nodup _ _ _ H) as Hnd. rewrite Hav in Hnd. by apply NoDup_cons in Hnd as [? _].
    - intros q c x Hq. pose proof (inv_disj _ _ _ H _ _ _ Hq) as Hd. rewrite Hav in Hd.
      by apply not_elem_of_cons in Hd. }
  destruct Hout as [Hbout Hout]. destruct (Hout _ _ _ Hp) as [Hab Haout].
  unfold upd_node. rewrite Hb. cbn. eexists _. eexists. split; [reflexivity|].
  cbn. rewrite lookup_insert_ne by done. rewrite Hc, Hca by done. cbn.
  split; [reflexivity|]. split; [|done].
  destruct H as [Hnode [v0 Hroot] Hcl Hdep Hinj Hfree Hnd Hnz Hdis Hnull].
  assert (Hno : forall x, M !! (x :: d :: p) = None).
  { intros x. destruct (M !! (x :: d :: p)) eqn:E; [|done].
    assert (is_Some (M !! (d :: p))) as [? ?] by (apply (Hcl x); by rewrite E). congruence. }
  split; try done.
  - intros q c x Hq. rewrite !addr_insert. cbn [cells set_cells].
    destruct (decide (d :: p = q)) as [<-|Hn].
    + rewrite lookup_insert_eq in Hq. injection Hq as <- <-. split; [done|].
      rewrite lookup_insert_ne, lookup_insert_eq by done.
      rewrite !decide_False by (intros E; apply (f_equal length) in E; cbn in E; lia).
      rewrite !addr_none by done. cbn. rewrite addr_insert, decide_False by (intros E; apply (f_equal length) in E; cbn in E; lia).
      by rewrite (addr_some _ _ _ _ Hp).
    + rewrite lookup_insert_ne in Hq by done. destruct (Hnode _ _ _ Hq) as [Hcn Hcc]. split; [done|].
      destruct (Hout _ _ _ Hq) as [Hcb _]. rewrite parent_insert.
      2: { intros y ->. by rewrite Hno in Hq. }
      destruct (decide (q = p)) as [->|Hqp].
      * assert (c = a) as -> by congruence. assert (x = v) as -> by congruence.
        rewrite lookup_insert_eq. destruct d; cbn.
        -- by rewrite (decide_True (P := true :: p = true :: p)),
             (decide_False (P := true :: p = false :: p)).
        -- by rewrite (decide_True (P := false :: p = false :: p)),
             (decide_False (P := false :: p = true :: p)).
      * rewrite lookup_insert_ne by (intros <-; apply Hqp; by eapply Hinj).
        rewrite lookup_insert_ne by done. rewrite Hc by done. rewrite Hcc.
        by rewrite !decide_False by (intros E; injection E as _ E; by apply Hqp).
  - exists v0. rewrite lookup_insert_ne by done. cbn. by rewrite Hr.
  - intros x q Hq. destruct (decide (d :: p = x :: q)) as [[= <- <-]|Hn].
    + rewrite lookup_insert_ne by (intros E; apply (f_equal length) in E; cbn in E; lia). by rewrite Hp.
    + rewrite lookup_insert_ne in Hq by done. apply Hcl in Hq.
      destruct (decide (d :: p = q)) as [<-|]; [by rewrite lookup_insert_eq|by rewrite lookup_insert_ne].
  - intros q. destruct (decide (d :: p = q)) as [<-|Hn]; [intros _; cbn; lia|].
    rewrite lookup_insert_ne by done. apply Hdep.
  - intros q1 q2 c x y. destruct (decide (d :: p = q1)) as [<-|H1], (decide (d :: p = q2)) as [<-|H2];
      rewrite ?lookup_insert_eq, ?lookup_insert_ne by done; [done|..].
    + intros [= <- <-] Hq. by destruct (Hout _ _ _ Hq).
    + intros Hq [= <- <-]. by destruct (Hout _ _ _ Hq).
    + apply Hinj.
  - cbn. apply (free_list_frame (cells t1)); [|done]. intros c Hcin. cbn.
    rewrite !lookup_insert_ne; [done| |]; intros <-.
    + apply Hbout, elem_of_app. by left.
    + apply Haout, elem_of_app. by left.
  - change (avail _) with (avail t1). rewrite Hav in Hnd. by apply NoDup_cons in Hnd as [_ ?].
  - change (avail _) with (avail t1). rewrite Hav in Hnz. by apply List.Forall_inv_tail in Hnz.
  - intros q c x Hq. change (avail _) with (avail t1). destruct (decide (d :: p = q)) as [<-|Hn].
    + rewrite lookup_insert_eq in Hq. by injection Hq as <- <-.
    + rewrite lookup_insert_ne in Hq by done. by destruct (Hout _ _ _ Hq).
  - cbn. rewrite !lookup_insert_ne by done. by rewrite Hc.
Qed.

Lemma addr_delete M p q : node_addr (delete p M) q = if decide (p = q) then NULL else node_addr M q.
Proof.
  unfold node_addr. case_decide as E; [subst; by rewrite lookup_delete_eq|by rewrite lookup_delete_ne].
Qed.

(** A node without children is unlinked and goes to the free list. *)
Lemma unlink_ok t M fl d p b v : inv t M fl -> M !! (d :: p) = Some (b, v) ->
  (forall x, M !! (x :: d :: p) = None) -> exists a w nb na t1 t2,
  M !! p = Some (a, w) /\ cells t !! b = Some nb /\ n_parent nb = a /\ cells t !! a = Some na /\
  upd_node (set_branch (bool_decide (n_right na = b)) NULL) a t = Some t1 /\
  upd_node (set_branch true (t_free t1)) b t1 = Some t2 /\ pages t2 = pages t /\
  let t3 := RTree (t_root t2) b (t_start t2) (t_size t2) (cells t2) (pages t2) in
  inv t3 (delete (d :: p) M) (b :: fl) /\ (exists n, cells t3 !! b = Some n /\ n_parent n = a).
Proof.
  intros H Hb Hleaf.
  destruct (inv_closed _ _ _ H d p ltac:(by rewrite Hb)) as [[a w] Ha].
  destruct (inv_node _ _ _ H _ _ _ Hb) as [Hbn Hcb]. destruct (inv_node _ _ _ H _ _ _ Ha) as [Han Hca].
  assert (Hab : a <> b).
  { intros ->. pose proof (inv_inj _ _ _ H _ _ _ _ _ Ha Hb) as E. apply (f_equal length) in E. cbn in E. lia. }
  assert (Hflag : bool_decide (node_addr M (true :: p) = b) = d).
  { destruct d; [by rewrite (addr_some _ _ _ _ Hb), bool_decide_true|].
    apply bool_decide_eq_false. intros E. destruct (M !! (true :: p)) as [[c x]|] eqn:Et.
    - rewrite (addr_some _ _ _ _ Et) in E. subst c.
      by pose proof (inv_inj _ _ _ H _ _ _ _ _ Et Hb).
    - rewrite (addr_none _ _ Et) in E. congruence. }
  set (na := RNode (node_addr M (true :: p)) (node_addr M (false :: p)) (parent_addr M p) w) in *.
  set (nb := RNode (node_addr M (true :: d :: p)) (node_addr M (false :: d :: p)) (parent_addr M (d :: p)) v) in *.
  exists a, w, nb, na, (set_cells (<[a := set_branch d NULL na]> (cells t)) t). eexists.
  split; [done|]. split; [done|]. split; [exact (addr_some _ _ _ _ Ha)|]. split; [done|].
  split; [unfold upd_node; rewrite Hca; cbn; by rewrite Hflag|].
  split; [unfold upd_node; cbn; rewrite lookup_insert_ne, Hcb by done; reflexivity|]. split; [done|].
  cbn. split.
  2: { eexists. rewrite lookup_insert_eq. split; [reflexivity|]. exact (addr_some _ _ _ _ Ha). }
  pose proof (inv_disj _ _ _ H _ _ _ Hb) as Hbd. pose proof (inv_disj _ _ _ H _ _ _ Ha) as Had.
  destruct H as [Hnode [v0 Hroot] Hcl Hdep Hinj Hfree Hnd Hnz Hdis Hnull].
  assert (Hin : forall q c x, delete (d :: p) M !! q = Some (c, x) -> q <> d :: p /\ M !! q = Some (c, x)).
  { intros q c x Hq. apply lookup_delete_Some in Hq. by destruct Hq. }
  split.
  - intros q c x Hq. apply Hin in Hq as [Hqn Hq]. destruct (Hnode _ _ _ Hq) as [Hcn Hcc]. split; [done|].
    assert (Hcb' : c <> b) by (intros ->; by apply Hqn; eapply Hinj).
    cbn. rewrite lookup_insert_ne by done. rewrite !addr_delete.
    assert (Ep : parent_addr (delete (d :: p) M) q = parent_addr M q).
    { destruct q as [|y q]; [done|]. cbn. rewrite addr_delete. destruct (decide (d :: p = q)) as [E|]; [|done].
      exfalso. rewrite <- E in Hq. by rewrite Hleaf in Hq. }
    rewrite Ep. destruct (decide (q = p)) as [->|Hqp].
    + assert (c = a) as -> by congruence. assert (x = w) as -> by congruence.
      rewrite lookup_insert_eq. destruct d; cbn.
      * by rewrite (decide_True (P := true :: p = true :: p)), (decide_False (P := true :: p = false :: p)).
      * by rewrite (decide_True (P := false :: p = false :: p)), (decide_False (P := false :: p = true :: p)).
    + rewrite lookup_insert_ne by (intros <-; apply Hqp; by eapply Hinj). rewrite Hcc.
      by rewrite !decide_False by (intros E; injection E as _ E; by apply Hqp).
  - exists v0. by rewrite lookup_delete_ne.
  - intros x q [[c y] Hq]. apply Hin in Hq as [Hqn Hq].
    rewrite lookup_delete_ne; [apply (Hcl x); by rewrite Hq|]. intros E. rewrite <- E in Hq.
    by rewrite Hleaf in Hq.
  - intros q [[c y] Hq]. apply Hin in Hq as [Hqn Hq]. apply Hdep. by rewrite Hq.
  - intros q1 q2 c x y H1 H2. apply Hin in H1 as [_ H1], H2 as [_ H2]. by eapply Hinj.
  - cbn. split; [done|]. eexists. rewrite lookup_insert_eq. split; [reflexivity|]. cbn.
    apply (free_list_frame (cells t)); [|done]. intros c Hc.
    rewrite !lookup_insert_ne; [done| |]; intros <-.
    + apply Had, elem_of_app. by left.
    + apply Hbd, elem_of_app. by left.
  - change (NoDup (b :: fl ++ avail t)). by apply NoDup_cons.
  - change (Forall (fun a => a <> NULL) (b :: fl ++ avail t)). by apply List.Forall_cons.
  - intros q c x Hq. apply Hin in Hq as [Hqn Hq]. change (c ∉ b :: fl ++ avail t).
    apply not_elem_of_cons. split; [intros ->; by apply Hqn; eapply Hinj|by eapply Hdis].
  - cbn. by rewrite !lookup_insert_ne.
Qed.

(** ** The loops *)

Lemma vals_lookup M p : vals M !! p =
  match M !! p with
  | Some (_, v) => if decide (v = NGX_RADIX_NO_VALUE) then None else Some v
  | None => None
  end.
Proof. unfold vals. rewrite lookup_omap. by destruct (M !! p) as [[a v]|]. Qed.

Lemma vals_insert M p a v : vals (<[p := (a, v)]> M) =
  if decide (v = NGX_RADIX_NO_VALUE) then delete p (vals M) else <[p := v]> (vals M).
Proof.
  apply map_eq. intros q. rewrite vals_lookup. destruct (decide (p = q)) as [->|Hn].
  - rewrite lookup_insert_eq. case_decide; [by rewrite lookup_delete_eq|by rewrite lookup_insert_eq].
  - rewrite lookup_insert_ne by done. rewrite <- vals_lookup.
    case_decide; [by rewrite lookup_delete_ne|by rewrite lookup_insert_ne].
Qed.

Lemma vals_delete M p : vals (delete p M) = delete p (vals M).
Proof.
  apply map_eq. intros q. rewrite vals_lookup. destruct (decide (p = q)) as [->|Hn].
  - by rewrite !lookup_delete_eq.
  - rewrite !lookup_delete_ne by done. by rewrite vals_lookup.
Qed.

Lemma vals_none M p : M !! p = None -> delete p (vals M) = vals M.
Proof. intros H. apply delete_id. by rewrite vals_lookup, H. Qed.

(** Leaves other than [p0] have values, below the depth of the preallocation. *)
Definition tidy_at (p0 : list bool) (M : gmap (list bool) (Z * Z)) : Prop :=
  forall p a, (D < length p)%nat -> p <> p0 -> M !! p = Some (a, NGX_RADIX_NO_VALUE) ->
  exists d, is_Some (M !! (d :: p)).
Definition tidy (M : gmap (list bool) (Z * Z)) : Prop := tidy_at [] M.

Lemma tidy_any M p : tidy M -> tidy_at p M.
Proof. intros H q a Hq _. apply H; [done|]. intros ->. cbn in Hq. lia. Qed.

Section loops.
Context {C : Type} `{Cursor C}.

(** The bits that a position has before it: with the mask, and without. *)
Fixpoint walks (c : C) (l : list bool) : Prop :=
  match l with
  | [] => more c = Some false
  | b :: l => more c = Some true /\ dir c = Some b /\ walks (adv c) l
  end.

Fixpoint reads (c : C) (l : list bool) : Prop :=
  match l with [] => True | b :: l => dir c = Some b /\ reads (adv c) l end.

Lemma child_addr t M fl p a v d : inv t M fl -> M !! p = Some (a, v) -> exists n,
  cells t !! a = Some n /\ branch d n = node_addr M (d :: p) /\ n_value n = v /\ n_parent n = parent_addr M p.
Proof.
  intros Hi Hp. destruct (inv_node _ _ _ Hi _ _ _ Hp) as [_ Hc]. eexists. split; [exact Hc|].
  by destruct d.
Qed.

Lemma descend_ok t M fl : inv t M fl -> forall l fuel c p a v,
  M !! p = Some (a, v) -> walks c l -> (length l < fuel)%nat ->
  (exists b w, descend fuel (cells t) a c = Some (inl b) /\ M !! (rev l ++ p) = Some (b, w)) \/
  (exists l1 d l2 c' b w, l = l1 ++ d :: l2 /\ descend fuel (cells t) a c = Some (inr (b, c')) /\
     walks c' (d :: l2) /\ M !! (rev l1 ++ p) = Some (b, w) /\ M !! (d :: rev l1 ++ p) = None).
Proof.
  intros Hi. induction l as [|d l IH]; intros [|fuel] c p a v Hp Hw Hf; try (cbn in Hf; lia).
  - left. cbn in Hw |- *. rewrite Hw. cbn. by eexists _, _.
  - destruct Hw as (Hm & Hd & Hw). cbn [descend]. rewrite Hm. cbn. rewrite Hd. cbn.
    destruct (child_addr t M fl p a v d Hi Hp) as (n & -> & Hc & _). cbn. rewrite Hc.
    case_decide as Hz.
    + right. exists [], d, l, c, a, v. apply (addr_null _ _ _ _ Hi) in Hz. by split_and!.
    + destruct (M !! (d :: p)) as [[b w]|] eqn:Eb; [|by rewrite (addr_none _ _ Eb) in Hz].
      rewrite (addr_some _ _ _ _ Eb).
      destruct (IH fuel (adv c) (d :: p) b w Eb Hw ltac:(cbn in Hf; lia))
        as [(b' & w' & E & Hb')|(l1 & d' & l2 & c' & b' & w' & -> & E & Hw' & Hb' & Hn)].
      * left. exists b', w'. split; [done|]. cbn. by rewrite <- app_assoc.
      * right. exists (d :: l1), d', l2, c', b', w'. cbn [rev]. rewrite <- !app_assoc.
        split; [done|]. split; [done|]. by split.
Qed.

Lemma enough_le k k' t : enough k' t -> (k <= k')%nat -> enough k t.
Proof. intros He Hk n Hn. apply He. lia. Qed.

Lemma tidy_link M p d b : tidy_at p M -> tidy_at (d :: p) (<[d :: p := (b, NGX_RADIX_NO_VALUE)]> M).
Proof.
  intros Ht q a Hq Hqn Ha. rewrite lookup_insert_ne in Ha by done.
  destruct (decide (q = p)) as [->|Hqp].
  - exists d. by rewrite lookup_insert_eq.
  - destruct (Ht q a Hq Hqp Ha) as [x Hx]. exists x. rewrite lookup_insert_ne; [done|].
    intros E. injection E as _ ->. done.
Qed.

Lemma grow_ok l : forall fuel c t M fl p a v, inv t M fl -> M !! p = Some (a, v) -> walks c l ->
  (length l < fuel)%nat -> (length p + length l <= N)%nat ->
  (match l with [] => True | d :: _ => M !! (d :: p) = None end) ->
  exists r t' M' fl', grow ngx_pagesize uninit fuel a c t = Some (t', r) /\ inv t' M' fl' /\
    vals M' = vals M /\ (forall k, enough (length l + k) t -> enough k t') /\
    match r with
    | inl b => M' !! (rev l ++ p) = Some (b, match l with [] => v | _ => NGX_RADIX_NO_VALUE end) /\
               (tidy_at p M -> tidy_at (rev l ++ p) M')
    | inr _ => ~ enough (length l) t
    end.
Proof.
  induction l as [|d l IH]; intros [|fuel] c t M fl p a v Hi Hp Hw Hf Hlen Hn; try (cbn in Hf; lia).
  - exists (inl a), t, M, fl. cbn in Hw |- *. rewrite Hw. cbn. by split_and!.
  - destruct Hw as (Hm & Hd & Hw). cbn [grow]. rewrite Hm. cbn [mbind option_bind].
    destruct (alloc_ok _ _ _ Hi) as (b & t1 & -> & Hpg & Hal). cbn [mbind option_bind].
    case_decide as Hb.
    + destruct Hal as [He Hi1]. exists (inr tt), t1, M, fl. split_and!; try done.
      * intros k Hk. exfalso. apply He. eapply enough_le; [exact Hk|cbn; lia].
      * intros Hk. apply He. eapply enough_le; [exact Hk|cbn; lia].
    + destruct Hal as [fl1 Hfr]. cbn in Hlen.
      destruct (link_ok _ _ _ _ _ _ d _ _ _ Hi Hfr Hb Hp Hn ltac:(lia)) as (t2 & t3 & -> & E3 & Hi3 & Hpg3).
      cbn [mbind option_bind]. rewrite Hd. cbn [mbind option_bind]. rewrite E3. cbn [mbind option_bind].
      assert (Hen : forall k, enough (S k) t -> enough k t3).
      { intros k Hk. intros n Hn'. rewrite Hpg3. by apply (enough_tl _ _ _ Hk Hpg). }
      destruct (IH fuel (adv c) t3 _ fl1 (d :: p) b NGX_RADIX_NO_VALUE Hi3)
        as (r & t' & M' & fl' & E & Hi' & Hvals & Hen' & Hr).
      * by rewrite lookup_insert_eq.
      * done.
      * cbn in Hf. lia.
      * cbn. lia.
      * destruct l as [|d2 l]; [done|]. rewrite lookup_insert_ne by (intros Ex; apply (f_equal length) in Ex; cbn in Ex; lia).
        destruct (M !! (d2 :: d :: p)) eqn:Ex; [|done].
        destruct (inv_closed _ _ _ Hi d2 (d :: p) ltac:(by rewrite Ex)) as [? Ey]. congruence.
      * exists r, t', M', fl'. split; [done|]. split; [done|]. split; [|split].
        -- by rewrite Hvals, vals_insert, decide_True, vals_none.
        -- intros k Hk. by apply Hen', Hen.
        -- destruct r as [b'|].
           ++ destruct Hr as (Hx & Ht). cbn [rev]. rewrite <- app_assoc.
              split; [by destruct l|]. intros Htd. by apply Ht, tidy_link.
           ++ intros Hk. apply Hr. by apply Hen.
Qed.

Lemma tidy_set M p a v : tidy_at p M -> v <> NGX_RADIX_NO_VALUE \/ (length p <= D)%nat -> tidy (<[p := (a, v)]> M).
Proof.
  intros Ht Hv q b Hq _ Hb. destruct (decide (p = q)) as [->|Hn].
  - rewrite lookup_insert_eq in Hb. destruct Hv; [congruence|lia].
  - rewrite lookup_insert_ne in Hb by done. destruct (Ht q b Hq (not_eq_sym Hn) Hb) as [d Hd]. exists d.
    destruct (decide (p = d :: q)) as [->|]; [by rewrite lookup_insert_eq|by rewrite lookup_insert_ne].
Qed.

(** An insertion. *)
Lemma radix_insert_ok t M fl l fuel c v : inv t M fl -> walks c l -> (length l < fuel)%nat ->
  (length l <= N)%nat -> exists rc t' M' fl',
  radix_insert ngx_pagesize uninit fuel t c v = Some (rc, t') /\ inv t' M' fl' /\
  (forall k, enough (length l + k) t -> enough k t') /\
  (v <> NGX_RADIX_NO_VALUE \/ (length l <= D)%nat -> tidy M -> rc <> NGX_ERROR -> tidy M') /\
  match vals M !! rev l with
  | Some _ => rc = NGX_BUSY /\ t' = t /\ M' = M
  | None => (rc = NGX_OK /\ vals M' = if decide (v = NGX_RADIX_NO_VALUE) then vals M else <[rev l := v]> (vals M)) \/
            (rc = NGX_ERROR /\ vals M' = vals M /\ ~ enough (length l) t)
  end.
Proof.
  intros Hi Hw Hf Hlen. destruct (inv_root _ _ _ Hi) as [v0 Hroot]. unfold radix_insert.
  destruct (descend_ok t M fl Hi l fuel c [] (t_root t) v0 Hroot Hw Hf)
    as [(b & w & -> & Hb)|(l1 & d & l2 & c' & b & w & -> & -> & Hw' & Hb & Hn)];
    cbn [mbind option_bind]; rewrite app_nil_r in Hb.
  - destruct (child_addr t M fl _ _ _ true Hi Hb) as (n & -> & _ & Hv & _). cbn [mbind option_bind].
    rewrite Hv, vals_lookup, Hb.
    assert (Hen : forall k t', pages t' = pages t -> enough (length l + k) t -> enough k t').
    { intros k t' E Hk m Hm. rewrite E. apply Hk. lia. }
    destruct (decide (w = NGX_RADIX_NO_VALUE)) as [->|Hwv].
    + rewrite decide_False by (by intros []).
      destruct (set_value_ok t M fl _ _ _ v Hi Hb) as (t' & -> & Hi' & Hpg). cbn [mbind option_bind].
      exists NGX_OK, t', (<[rev l := (b, v)]> M), fl. split; [done|]. split; [done|].
      split; [intros k; by apply Hen|]. split; [intros Hv' Ht _; by apply tidy_set; [apply tidy_any|rewrite length_rev]|].
      left. split; [done|]. rewrite vals_insert. case_decide; [|done].
      apply delete_id. by rewrite vals_lookup, Hb.
    + rewrite decide_True by done. exists NGX_BUSY, t, M, fl. split_and!; try done.
      intros k; by apply Hen.
  - rewrite app_nil_r in Hn. rewrite length_app in *. cbn in Hf, Hlen.
    destruct (grow_ok (d :: l2) fuel c' t M fl (rev l1) b w Hi Hb Hw' ltac:(cbn; lia)
                ltac:(rewrite length_rev; cbn; lia) Hn)
      as (r & t1 & M1 & fl1 & -> & Hi1 & Hvals & Hen & Hr). cbn [mbind option_bind].
    assert (Hnone : vals M !! rev (l1 ++ d :: l2) = None).
    { rewrite vals_lookup. destruct (M !! rev (l1 ++ d :: l2)) eqn:E; [|done]. exfalso.
      rewrite rev_app_distr in E. cbn in E. rewrite <- app_assoc in E. cbn in E.
      assert (Hcl : forall q s, is_Some (M !! (q ++ s)) -> is_Some (M !! s)).
      { intros q s. induction q as [|x q IH]; [done|]. intros Hx. by apply IH, (inv_closed _ _ _ Hi x). }
      destruct (Hcl (rev l2) (d :: rev l1) ltac:(by rewrite E)) as [? Ey]. congruence. }
    rewrite Hnone.
    assert (Hen' : forall k, enough (length l1 + length (d :: l2) + k) t -> enough k t1).
    { intros k Hk. apply Hen. eapply enough_le; [exact Hk|cbn; lia]. }
    destruct r as [b1|].
    + destruct Hr as [Hb1 Ht].
      destruct (set_value_ok t1 M1 fl1 _ _ _ v Hi1 Hb1) as (t' & -> & Hi' & Hpg). cbn [mbind option_bind].
      exists NGX_OK, t', (<[rev (d :: l2) ++ rev l1 := (b1, v)]> M1), fl1.
      split; [done|]. split; [done|]. split; [intros k Hk m Hm; rewrite Hpg; by apply (Hen' k Hk)|].
      split; [intros Hv' Htd _; apply tidy_set; [apply Ht; by apply tidy_any|]|].
      { rewrite <- rev_app_distr, length_rev, length_app. exact Hv'. }
      left. split; [done|]. rewrite rev_app_distr, vals_insert, Hvals. case_decide; [|done].
      apply delete_id. by rewrite <- rev_app_distr.
    + exists NGX_ERROR, t1, M1, fl1. split_and!; try done. right. split_and!; try done.
      intros Hk. apply Hr. eapply enough_le; [exact Hk|cbn; lia].
Qed.

Lemma closed_app t M fl q p : inv t M fl -> is_Some (M !! (q ++ p)) -> is_Some (M !! p).
Proof.
  intros Hi. induction q as [|x q IH]; [done|]. intros Hx. by apply IH, (inv_closed _ _ _ Hi x).
Qed.

Lemma lookup_ok t M fl l : inv t M fl -> forall fuel c p, walks c l -> (length l < fuel)%nat ->
  lookup fuel (cells t) (node_addr M p) c = Some (node_addr M (rev l ++ p)).
Proof.
  intros Hi. induction l as [|d l IH]; intros [|fuel] c p Hw Hf; try (cbn in Hf; lia);
    cbn [lookup]; case_decide as Hz.
  - cbn. by rewrite Hz.
  - cbn in Hw |- *. by rewrite Hw.
  - apply (addr_null _ _ _ _ Hi) in Hz. symmetry. f_equal. apply addr_none.
    destruct (M !! (rev (d :: l) ++ p)) eqn:E; [|done].
    destruct (closed_app _ _ _ (rev (d :: l)) p Hi ltac:(by rewrite E)). congruence.
  - destruct Hw as (Hm & Hd & Hw). rewrite Hm. cbn [mbind option_bind]. rewrite Hd. cbn [mbind option_bind].
    destruct (M !! p) as [[a v]|] eqn:Ep; [|by rewrite (addr_none _ _ Ep) in Hz].
    rewrite (addr_some _ _ _ _ Ep). destruct (child_addr t M fl p a v d Hi Ep) as (n & -> & Hc & _).
    cbn [mbind option_bind]. rewrite Hc, IH by (done || (cbn in Hf; lia)). cbn [rev]. by rewrite <- app_assoc.
Qed.

Definition leaf (M : gmap (list bool) (Z * Z)) (p : list bool) : Prop := forall x, M !! (x :: p) = None.

Lemma leaf_node t M fl p a v : inv t M fl -> M !! p = Some (a, v) -> exists n,
  cells t !! a = Some n /\ n_value n = v /\ n_parent n = parent_addr M p /\
  (n_right n <> NULL \/ n_left n <> NULL <-> ~ leaf M p).
Proof.
  intros Hi Hp. destruct (inv_node _ _ _ Hi _ _ _ Hp) as [_ Hc]. eexists. split; [exact Hc|].
  split; [done|]. split; [done|]. cbn [n_right n_left]. rewrite !(addr_null _ _ _ _ Hi). split.
  - intros [Hn|Hn] Hl; by apply Hn.
  - intros Hl. destruct (M !! (true :: p)) eqn:Et; [by left|]. destruct (M !! (false :: p)) eqn:Ef; [by right|].
    destruct Hl. by intros [].
Qed.

Lemma tidy_unlink M d p : tidy_at (d :: p) M -> tidy_at p (delete (d :: p) M).
Proof.
  intros Ht q a Hq Hqp Ha. apply lookup_delete_Some in Ha as [Hn Ha].
  destruct (Ht q a Hq (not_eq_sym Hn) Ha) as [x Hx]. exists x. rewrite lookup_delete_ne; [done|].
  intros E. injection E as _ E. by apply Hqp.
Qed.

Lemma tidy_weaken M p : tidy_at p M ->
  (length p <= D)%nat \/ (exists a v, M !! p = Some (a, v) /\ v <> NGX_RADIX_NO_VALUE) \/ ~ leaf M p -> tidy M.
Proof.
  intros Ht Hp q a Hq _ Ha. destruct (decide (q = p)) as [->|Hn]; [|by eapply Ht].
  destruct Hp as [Hl|[(b & v & Hb & Hv)|Hl]]; [lia|congruence|].
  destruct (M !! (true :: p)) eqn:Et; [exists true; by rewrite Et|].
  destruct (M !! (false :: p)) eqn:Ef; [exists false; by rewrite Ef|]. destruct Hl. by intros [].
Qed.

Lemma cons_ne {A} (x : A) l : x :: l <> l.
Proof. intros E. apply (f_equal length) in E. cbn in E. lia. Qed.

(** A round of the pruning. *)
Lemma prune_round fuel d p t M fl b v : inv t M fl -> M !! (d :: p) = Some (b, v) -> leaf M (d :: p) ->
  exists a w n t3, M !! p = Some (a, w) /\ delete (d :: p) M !! p = Some (a, w) /\
    inv t3 (delete (d :: p) M) (b :: fl) /\ pages t3 = pages t /\
    (n_right n <> NULL \/ n_left n <> NULL <-> ~ leaf (delete (d :: p) M) p) /\
    prune (S fuel) b t =
    (if decide (n_right n <> NULL \/ n_left n <> NULL) then Some t3
     else if decide (w <> NGX_RADIX_NO_VALUE) then Some t3
     else if decide (parent_addr (delete (d :: p) M) p = NULL) then Some t3
     else prune fuel a t3).
Proof.
  intros Hi Hb Hleaf.
  destruct (unlink_ok t M fl d p b v Hi Hb Hleaf)
    as (a & w & nb & na & t1 & t2 & Ha & Enb & Epar & Ena & E1 & E2 & Hpg & Hi3 & (n3 & En3 & Epar3)).
  cbn [prune]. rewrite Enb. cbn [mbind option_bind]. rewrite Epar, Ena. cbn [mbind option_bind].
  rewrite E1. cbn [mbind option_bind]. rewrite E2. cbn [mbind option_bind].
  set (t3 := RTree (t_root t2) b (t_start t2) (t_size t2) (cells t2) (pages t2)) in *.
  rewrite En3. cbn [mbind option_bind]. rewrite Epar3.
  assert (Ha3 : delete (d :: p) M !! p = Some (a, w)) by (by rewrite lookup_delete_ne by apply cons_ne).
  destruct (leaf_node _ _ _ _ _ _ Hi3 Ha3) as (n & -> & Hv & Hpn & Hch). cbn [mbind option_bind].
  rewrite Hv, Hpn. by exists a, w, n, t3.
Qed.

Lemma prune_ok p : forall fuel d t M fl b v, inv t M fl -> M !! (d :: p) = Some (b, v) ->
  leaf M (d :: p) -> (length p < fuel)%nat -> exists t' M' fl',
  prune fuel b t = Some t' /\ inv t' M' fl' /\ vals M' = delete (d :: p) (vals M) /\
  (tidy_at (d :: p) M -> tidy M') /\ pages t' = pages t.
Proof.
  induction p as [|d' p IH]; intros [|fuel] d t M fl b v Hi Hb Hleaf Hf; try (cbn in Hf; lia);
    destruct (prune_round fuel d _ t M fl b v Hi Hb Hleaf)
      as (a & w & n & t3 & Ha & Ha3 & Hi3 & Hpg & Hch & ->).
  - exists t3, (delete [d] M), (b :: fl). cbn [parent_addr].
    split; [do 2 (case_decide; [done|]); by rewrite decide_True|]. split; [done|].
    split; [apply vals_delete|]. split; [intros Ht; by apply tidy_unlink|done].
  - set (M3 := delete (d :: d' :: p) M) in *.
    assert (Hstop : (tidy_at (d :: d' :: p) M -> tidy M3) -> exists t' M' fl',
      Some t3 = Some t' /\ inv t' M' fl' /\ vals M' = delete (d :: d' :: p) (vals M) /\
      (tidy_at (d :: d' :: p) M -> tidy M') /\ pages t' = pages t).
    { intros Ht. exists t3, M3, (b :: fl). split; [done|]. split; [done|]. by split; [apply vals_delete|]. }
    destruct (decide (n_right n <> NULL \/ n_left n <> NULL)) as [Hc|Hc].
    { apply Hstop. intros Ht. apply (tidy_weaken _ (d' :: p)); [by apply tidy_unlink|].
      right. right. by apply Hch. }
    destruct (decide (w <> NGX_RADIX_NO_VALUE)) as [Hw|Hw].
    { apply Hstop. intros Ht. apply (tidy_weaken _ (d' :: p)); [by apply tidy_unlink|].
      right. left. by exists a, w. }
    apply dec_stable in Hw. subst w. rewrite decide_False.
    2: { cbn. rewrite (addr_null _ _ _ _ Hi3). intros E.
         destruct (inv_closed _ _ _ Hi3 d' p ltac:(by rewrite Ha3)). congruence. }
    destruct (IH fuel d' t3 _ (b :: fl) a _ Hi3 Ha3) as (t' & M' & fl' & E & Hi' & Hvals & Ht & Hpg').
    + intros x. destruct (M3 !! (x :: d' :: p)) eqn:Ex; [|done].
      exfalso. apply Hc, Hch. intros Hl. by rewrite Hl in Ex.
    + cbn in Hf. lia.
    + exists t', M', fl'. split; [done|]. split; [done|]. split; [|split; [|congruence]].
      * rewrite Hvals. subst M3. rewrite vals_delete. apply delete_id.
        rewrite lookup_delete_ne by apply cons_ne. by rewrite vals_lookup, Ha.
      * intros Htd. by apply Ht, tidy_unlink.
Qed.

(** A deletion. *)
Lemma radix_delete_ok t M fl l fuel c : inv t M fl -> walks c l -> (N < fuel)%nat -> (length l < fuel)%nat ->
  match M !! rev l with
  | None => radix_delete fuel t c = Some (NGX_ERROR, t)
  | Some (_, v) =>
      (~ leaf M (rev l) /\ v = NGX_RADIX_NO_VALUE /\ radix_delete fuel t c = Some (NGX_ERROR, t)) \/
      (rev l = [] /\ leaf M [] /\ radix_delete fuel t c = None) \/
      ((leaf M (rev l) \/ v <> NGX_RADIX_NO_VALUE) /\ (rev l = [] -> ~ leaf M []) /\ exists t' M' fl',
       radix_delete fuel t c = Some (NGX_OK, t') /\ inv t' M' fl' /\
       vals M' = delete (rev l) (vals M) /\ (tidy M -> tidy M') /\ pages t' = pages t)
  end.
Proof.
  intros Hi Hw HN Hf. destruct (inv_root _ _ _ Hi) as [v0 Hroot]. unfold radix_delete.
  pose proof (lookup_ok t M fl l Hi fuel c [] Hw Hf) as Hlk. rewrite (addr_some _ _ _ _ Hroot), app_nil_r in Hlk.
  rewrite Hlk. cbn [mbind option_bind]. destruct (M !! rev l) as [[b v]|] eqn:Eb.
  2: { by rewrite decide_True by (by apply addr_none). }
  destruct (inv_node _ _ _ Hi _ _ _ Eb) as [Hbn _].
  rewrite (addr_some _ _ _ _ Eb), decide_False by done.
  destruct (leaf_node _ _ _ _ _ _ Hi Eb) as (n & Hn & Hv & Hpn & Hch). rewrite Hn. cbn [mbind option_bind].
  rewrite Hv. case_decide as Hc.
  - apply Hch in Hc. case_decide as Hvn; [|by left].
    right. right. split; [by right|]. split; [intros E; by rewrite <- E|].
    destruct (set_value_ok t M fl _ _ _ NGX_RADIX_NO_VALUE Hi Eb) as (t' & -> & Hi' & Hpg).
    exists t', (<[rev l := (b, NGX_RADIX_NO_VALUE)]> M), fl. split; [done|]. split; [done|].
    split; [by rewrite vals_insert, decide_True|]. split; [|done]. intros Ht.
    apply (tidy_weaken _ (rev l)).
    + intros q x Hq Hqn Hx. rewrite lookup_insert_ne in Hx by done.
      destruct (Ht q x Hq ltac:(intros ->; cbn in Hq; lia) Hx) as [y Hy]. exists y.
      destruct (decide (rev l = y :: q)) as [->|]; [by rewrite lookup_insert_eq|by rewrite lookup_insert_ne].
    + right. right. intros Hl. apply Hc. intros x. specialize (Hl x).
      rewrite lookup_insert_ne in Hl; [done|]. intros E. by apply (cons_ne x (rev l)).
  - right. assert (Hl : leaf M (rev l)).
    { intros x. destruct (M !! (x :: rev l)) eqn:Ex; [|done]. destruct Hc. apply Hch. intros Hl.
      by rewrite Hl in Ex. }
    destruct (rev l) as [|d p] eqn:Er.
    + left. split; [done|]. split; [done|]. destruct fuel; [lia|]. cbn [prune]. rewrite Hn.
      cbn [mbind option_bind]. rewrite Hpn. cbn [parent_addr]. by rewrite (inv_null _ _ _ Hi).
    + right. split; [by left|]. split; [done|].
      destruct (prune_ok p fuel d t M fl b v Hi Eb Hl) as (t' & M' & fl' & -> & Hi' & Hvals & Ht & Hpg).
      * pose proof (inv_depth _ _ _ Hi (d :: p) ltac:(by rewrite Eb)) as Hd. cbn in Hd. lia.
      * exists t', M', fl'. split; [done|]. split; [done|]. split; [done|]. split; [|done].
        intros Htd. by apply Ht, tidy_any.
Qed.

(** A search: the value of the last node on the way that has one. *)
Fixpoint best (m : gmap (list bool) Z) (p K : list bool) (b : Z) : Z :=
  let b := match m !! p with Some v => v | None => b end in
  match K with [] => b | d :: K => best m (d :: p) K b end.

Lemma best_none M t fl K : inv t M fl -> forall p b, M !! p = None -> best (vals M) p K b = b.
Proof.
  intros Hi. induction K as [|d K IH]; intros p b Hp; cbn [best]; rewrite vals_lookup, Hp; [done|].
  apply IH. destruct (M !! (d :: p)) eqn:E; [|done].
  destruct (inv_closed _ _ _ Hi d p ltac:(by rewrite E)). congruence.
Qed.

(** [e] is what is read after the last bit. *)
Fixpoint reads_to (c : C) (K : list bool) (e : option bool) : Prop :=
  match K with [] => dir c = e | b :: K => dir c = Some b /\ reads_to (adv c) K e end.

Lemma find_ok t M fl e K : inv t M fl -> forall fuel c p b, reads_to c K e ->
  (length p + length K = N)%nat -> (S (length K) < fuel)%nat ->
  find_loop fuel (cells t) (node_addr M p) c b =
  match M !! (rev K ++ p), e with Some _, None => None | _, _ => Some (best (vals M) p K b) end.
Proof.
  intros Hi. induction K as [|d K IH]; intros [|fuel] c p b Hr Hlen Hf; try (cbn in Hf; lia);
    cbn [find_loop]; case_decide as Hz.
  - apply (addr_null _ _ _ _ Hi) in Hz. cbn [rev app]. rewrite Hz. by rewrite (best_none M t fl).
  - destruct (M !! p) as [[a v]|] eqn:Ep; [|by rewrite (addr_none _ _ Ep) in Hz].
    cbn [rev app]. rewrite Ep. rewrite (addr_some _ _ _ _ Ep). cbn in Hr. rewrite Hr.
    destruct e as [d|].
    + destruct (child_addr t M fl p a v d Hi Ep) as (n & -> & Hc & Hv & _). cbn [mbind option_bind].
      rewrite Hc, Hv. destruct fuel as [|fuel]; [cbn in Hf; lia|]. cbn [find_loop].
      rewrite decide_True.
      * cbn [best]. rewrite vals_lookup, Ep. by repeat case_decide.
      * apply (addr_null _ _ _ _ Hi). destruct (M !! (d :: p)) eqn:E; [|done].
        pose proof (inv_depth _ _ _ Hi (d :: p) ltac:(by rewrite E)) as Hd. cbn in Hd, Hlen. lia.
    + destruct (child_addr t M fl p a v true Hi Ep) as (n & -> & _). done.
  - apply (addr_null _ _ _ _ Hi) in Hz. rewrite (best_none M t fl) by done.
    destruct (M !! (rev (d :: K) ++ p)) eqn:E; [|done].
    destruct (closed_app _ _ _ (rev (d :: K)) p Hi ltac:(by rewrite E)). congruence.
  - destruct (M !! p) as [[a v]|] eqn:Ep; [|by rewrite (addr_none _ _ Ep) in Hz].
    rewrite (addr_some _ _ _ _ Ep). destruct Hr as [Hd Hr].
    destruct (child_addr t M fl p a v d Hi Ep) as (n & -> & Hc & Hv & _). cbn [mbind option_bind].
    rewrite Hd. cbn [mbind option_bind]. rewrite Hc, Hv, (IH fuel (adv c)).
    + cbn [rev best]. rewrite <- app_assoc. cbn [app]. rewrite (vals_lookup M p), Ep.
      by case_decide as Hv1; case_decide.
    + done.
    + cbn in Hlen |- *. lia.
    + cbn in Hf |- *. lia.
Qed.

End loops.

(** ** The first tree *)

Definition tree_start (mem : list Z) : rtree := RTree NULL NULL NULL 0 ∅ mem.

(** The pages are memory that is used for nothing else. *)
Definition good_pages (mem : list Z) : Prop :=
  NoDup (avail (tree_start mem)) /\ Forall (fun a => a <> NULL) (avail (tree_start mem)).

End proofs.

(** ** The specification: a map from prefixes to values *)

(** The bits of the key that the leading bits of the mask select. *)
Fixpoint masked (mask key : list bool) : list bool :=
  match mask, key with true :: mask, k :: key => k :: masked mask key | _, _ => [] end.

(** The values of the prefixes of [K], the shortest prefix first; the map has
    the bits of a prefix from the last to the first. *)
Definition matches (m : gmap (list bool) Z) (K : list bool) : list Z :=
  omap (fun n => m !! rev (take n K)) (seq 0 (S (length K))).

Definition longest_match (m : gmap (list bool) Z) (K : list bool) : Z :=
  default NGX_RADIX_NO_VALUE (last (matches m K)).

Inductive radix_op (K : Type) :=
  | op_insert (key mask : K) (value : Z) | op_delete (key mask : K) | op_find (key : K).
Arguments op_insert {K} key mask value.
Arguments op_delete {K} key mask.
Arguments op_find {K} key.

(** What the theorems need of a kind of keys: the bits of a key, from the first
    one, and what the code reads after them. *)
Class Keys (K C : Type) `{Cursor C} (N : nat) := {
  start : K -> K -> C;
  start_find : K -> C;
  key_bits : K -> list bool;
  key_end : K -> option bool;
  good_key : K -> Prop;
  key_pos : (0 < N)%nat;
  key_length k : good_key k -> length (key_bits k) = N;
  key_walks k m : good_key k -> good_key m -> walks (start k m) (masked (key_bits m) (key_bits k));
  key_reads k : good_key k -> reads_to (start_find k) (key_bits k) (key_end k) }.

(** The results of a list of operations; [None] is undefined behaviour. *)
Fixpoint results {S O : Type} (step : S -> O -> option (Z * S)) (s : S) (l : list O) : option (list Z) :=
  match l with
  | [] => Some []
  | o :: l => '(r, s) ← step s o; rs ← results step s l; Some (r :: rs)
  end.

Section spec.
Context {K C : Type} `{Cursor C} {N : nat} `{!Keys K C N}.

Definition prefix (key mask : K) : list bool := rev (masked (key_bits mask) (key_bits key)).

(** An operation on the map. It is an error of the caller to delete the prefix
    of no bits when no other prefix is in the map, and to look for a key that is
    in the map as a whole when nothing can be read after the key. *)
Definition map_step (m : gmap (list bool) Z) (o : radix_op K) : option (Z * gmap (list bool) Z) :=
  match o with
  | op_insert key mask value =>
      match m !! prefix key mask with
      | Some _ => Some (NGX_BUSY, m)
      | None => Some (NGX_OK, <[prefix key mask := value]> m)
      end
  | op_delete key mask =>
      if decide (prefix key mask = [] /\ delete [] m = ∅) then None
      else
        match m !! prefix key mask with
        | Some _ => Some (NGX_OK, delete (prefix key mask) m)
        | None => Some (NGX_ERROR, m)
        end
  | op_find key =>
      match m !! rev (key_bits key), key_end key with
      | Some _, None => None
      | _, _ => Some (longest_match m (key_bits key), m)
      end
  end.

Definition tree_step (ngx_pagesize : Z) (uninit : rnode) (fuel : nat) (t : rtree) (o : radix_op K)
  : option (Z * rtree) :=
  match o with
  | op_insert key mask value => radix_insert ngx_pagesize uninit fuel t (start key mask) value
  | op_delete key mask => radix_delete fuel t (start key mask)
  | op_find key => v ← radix_find fuel t (start_find key); Some (v, t)
  end.

(** The arguments: a value is not the mark of its absence. *)
Definition good_op (o : radix_op K) : Prop :=
  match o with
  | op_insert key mask value => good_key key /\ good_key mask /\ value <> NGX_RADIX_NO_VALUE
  | op_delete key mask => good_key key /\ good_key mask
  | op_find key => good_key key
  end.

(** What an operation may do when the prefixes of up to [D] bits have been
    preallocated, as nodes without a value: what it does on the map, or for the
    deletion of such a prefix, as long as the nodes are there, one of two other
    things. It is NGX_OK for a prefix that is not in the map, which does not
    change; and the deletion of the prefix of no bits is an error of the caller
    only when the nodes are gone. *)
Definition allowed (D : nat) (m : gmap (list bool) Z) (o : radix_op K)
    (r : option (Z * gmap (list bool) Z)) : Prop :=
  r = map_step m o \/
  match o with
  | op_delete key mask =>
      let p := prefix key mask in
      (0 < D)%nat /\ (length p <= D)%nat /\
      (p <> [] /\ m !! p = None /\ r = Some (NGX_OK, m) \/
       p = [] /\ delete [] m = ∅ /\
       r = Some (match m !! [] with Some _ => NGX_OK | None => NGX_ERROR end, delete [] m))
  | _ => False
  end.

(** The results that a list of operations may have. *)
Fixpoint map_results (D : nat) (m : gmap (list bool) Z) (l : list (radix_op K))
    (rs : option (list Z)) : Prop :=
  match l with
  | [] => rs = Some []
  | o :: l =>
      exists r, allowed D m o r /\
        match r with
        | None => rs = None
        | Some (c, m) => exists rs', map_results D m l rs' /\ rs = cons c <$> rs'
        end
  end.

(** Without a preallocation they are those of the map. *)
Lemma map_results_exact l : forall m rs, map_results 0 m l rs -> rs = results map_step m l.
Proof.
  induction l as [|o l IH]; intros m rs HR; [done|]. destruct HR as (r & [->|HR] & Hr).
  - cbn [results]. destruct (map_step m o) as [[c m']|]; [|done].
    destruct Hr as (rs' & Hr & ->). apply IH in Hr. rewrite Hr. cbn [mbind option_bind].
    by destruct (results map_step m' l).
  - destruct o; try done. destruct HR as (? & _). lia.
Qed.

Lemma length_masked mask : forall key, (length (masked mask key) <= length key)%nat.
Proof.
  induction mask as [|[|] mask IH]; intros [|k key]; cbn; try lia. specialize (IH key). lia.
Qed.

Lemma best_matches m : forall K' p b,
  best m p K' b = default b (last (omap (fun n => m !! (rev (take n K') ++ p)) (seq 0 (S (length K'))))).
Proof.
  induction K' as [|d K' IH]; intros p b.
  - cbn. by destruct (m !! p).
  - cbn [best length]. change (seq 0 (S (S (length K')))) with (0%nat :: seq 1 (S (length K'))).
    rewrite <- seq_shift. rewrite IH.
    assert (E : omap (fun n => m !! (rev (take n (d :: K')) ++ p)) (map S (seq 0 (S (length K')))) =
                omap (fun n => m !! (rev (take n K') ++ d :: p)) (seq 0 (S (length K')))).
    { generalize (seq 0 (S (length K'))). intros s. induction s as [|n s IHs]; [done|].
      cbn [map]. rewrite !omap_cons_eq, IHs. cbn [take rev]. by rewrite <- app_assoc. }
    rewrite omap_cons_eq, E. cbn [take rev app]. clear.
    destruct (m !! p) as [v|]; [|done]. generalize (omap (fun n => m !! (rev (take n K') ++ d :: p)) (seq 0 (S (length K')))).
    intros l. rewrite last_cons. by destruct (last l).
Qed.

Lemma best_longest m K' : best m [] K' NGX_RADIX_NO_VALUE = longest_match m K'.
Proof.
  rewrite best_matches. unfold longest_match, matches. f_equal. f_equal.
  generalize (seq 0 (S (length K'))). intros s. induction s as [|n s IH]; [done|].
  by rewrite !omap_cons_eq, IH, app_nil_r.
Qed.

(** *** A step *)

Context (ngx_pagesize : Z) (uninit : rnode) (Hpage : sizeof_node <= ngx_pagesize).
Context (D : nat) (HD : (D < N)%nat) (fuel : nat) (Hfuel : (S N < fuel)%nat).

(** A tree stands for a map, with memory for [k] nodes. *)
Definition sim (t : rtree) (m : gmap (list bool) Z) (k : nat) : Prop :=
  exists M fl, inv ngx_pagesize N t M fl /\ tidy D M /\ vals M = m /\ enough k t.

Lemma prefix_length key mask : good_key key -> (length (masked (key_bits mask) (key_bits key)) <= N)%nat.
Proof. intros Hk. rewrite <- (key_length key Hk). apply length_masked. Qed.

(** Below the preallocation a node has a value, or leads to one. *)
Lemma tidy_value t M fl p : inv ngx_pagesize N t M fl -> tidy D M -> (D < length p)%nat ->
  is_Some (M !! p) -> exists q v, vals M !! (q ++ p) = Some v.
Proof.
  intros Hi Ht. remember (N - length p)%nat as n eqn:En. revert p En.
  induction n as [n IH] using lt_wf_ind. intros p -> Hp [[a v] Ha].
  destruct (decide (v = NGX_RADIX_NO_VALUE)) as [->|Hv].
  - destruct (Ht p a Hp ltac:(intros ->; cbn in Hp; lia) Ha) as [d Hd].
    pose proof (inv_depth _ _ _ _ _ Hi _ Hd) as Hl. cbn in Hl.
    destruct (IH (N - length (d :: p))%nat ltac:(cbn; lia) (d :: p) eq_refl ltac:(cbn; lia) Hd) as (q & v & Hv).
    exists (q ++ [d]), v. by rewrite <- app_assoc.
  - exists [], v. cbn. by rewrite vals_lookup, Ha, decide_False.
Qed.

Lemma leaf_value t M fl p a v : inv ngx_pagesize N t M fl -> tidy D M -> (D < length p)%nat ->
  M !! p = Some (a, v) -> leaf M p -> v <> NGX_RADIX_NO_VALUE.
Proof.
  intros Hi Ht Hp Ha Hl ->. destruct (Ht p a Hp ltac:(intros ->; cbn in Hp; lia) Ha) as [d Hd].
  rewrite (Hl d) in Hd. by destruct Hd.
Qed.

Lemma leaf_root_empty t M fl : inv ngx_pagesize N t M fl -> leaf M [] -> delete [] (vals M) = ∅.
Proof.
  intros Hi Hl. apply map_eq. intros q. rewrite lookup_empty. destruct (decide (q = [])) as [->|Hq].
  { apply lookup_delete_eq. }
  rewrite lookup_delete_ne by done. rewrite vals_lookup. destruct (M !! q) as [[a v]|] eqn:E; [|done].
  exfalso. destruct (exists_last Hq) as (q' & x & ->).
  destruct (closed_app ngx_pagesize N t M fl q' [x] Hi ltac:(by rewrite E)) as [? Ex]. by rewrite Hl in Ex.
Qed.

Lemma leaf_root t M fl : inv ngx_pagesize N t M fl -> tidy D M -> D = 0%nat ->
  leaf M [] <-> delete [] (vals M) = ∅.
Proof.
  intros Hi Ht HD0. split; [by apply leaf_root_empty with t fl|].
  intros Hd x. destruct (M !! [x]) eqn:E; [|done]. exfalso.
  destruct (tidy_value t M fl [x] Hi Ht ltac:(cbn; lia) ltac:(by rewrite E)) as (q & v & Hv).
  rewrite <- (lookup_delete_ne _ []) in Hv by (by destruct q). by rewrite Hd, lookup_empty in Hv.
Qed.

Lemma insert_sim t m k key mask value : sim t m (N + k) -> good_op (op_insert key mask value) ->
  exists r t' m', map_step m (op_insert key mask value) = Some (r, m') /\
    tree_step ngx_pagesize uninit fuel t (op_insert key mask value) = Some (r, t') /\ sim t' m' k.
Proof.
  intros (M & fl & Hi & Ht & <- & He) (Hk & Hm & Hv). cbn [map_step tree_step]. unfold prefix.
  pose proof (prefix_length key mask Hk) as Hlen.
  destruct (radix_insert_ok ngx_pagesize uninit Hpage N D t M fl _ fuel _ value Hi (key_walks key mask Hk Hm)
              ltac:(lia) Hlen) as (rc & t' & M' & fl' & -> & Hi' & Hen & Htd & Hres).
  assert (He' : enough k t') by (apply Hen; eapply enough_le; [exact He|lia]).
  destruct (vals M !! _) as [v|].
  - destruct Hres as (-> & -> & ->). eexists _, _, _. split; [done|]. split; [done|]. by exists M, fl'.
  - destruct Hres as [[-> Hvals]|(_ & _ & Hf)].
    + rewrite decide_False in Hvals by done. eexists _, _, _. split; [done|]. split; [done|].
      exists M', fl'. split; [done|]. split; [by apply Htd; [left| |]|]. done.
    + destruct Hf. eapply enough_le; [exact He|lia].
Qed.

(** Below the preallocation. *)
Lemma delete_deep t m k key mask : sim t m k -> good_op (op_delete key mask) ->
  (D = 0 \/ D < length (prefix key mask))%nat ->
  match map_step m (op_delete key mask) with
  | Some (r, m') => exists t',
      tree_step ngx_pagesize uninit fuel t (op_delete key mask) = Some (r, t') /\ sim t' m' k
  | None => tree_step ngx_pagesize uninit fuel t (op_delete key mask) = None
  end.
Proof.
  intros Hsim (Hk & Hm) Hd. pose proof Hsim as (M & fl & Hi & Ht & <- & He).
  cbn [map_step tree_step]. unfold prefix in *.
  pose proof (prefix_length key mask Hk) as Hlen.
  pose proof (radix_delete_ok ngx_pagesize N D t M fl _ fuel _ Hi (key_walks key mask Hk Hm)
                ltac:(lia) ltac:(lia)) as Hres.
  set (l := masked (key_bits mask) (key_bits key)) in *.
  assert (Hroot : rev l = [] /\ delete [] (vals M) = ∅ <-> rev l = [] /\ leaf M []).
  { split; intros [El Hx]; split; try done; rewrite El in Hd; cbn in Hd;
      apply (leaf_root t M fl Hi Ht); (lia || done). }
  rewrite (vals_lookup M (rev l)).
  destruct (M !! rev l) as [[b v]|] eqn:Eb.
  - destruct Hres as [(Hl & -> & E)|[(El & Hl & E)|(Hlv & Hnr & t' & M' & fl' & E & Hi' & Hvals & Ht' & Hpg)]].
    + case_decide as Hx; [apply Hroot in Hx as [E' Hl']; by rewrite E' in Hl; destruct Hl|].
      rewrite decide_True by done. by exists t.
    + case_decide as Hx; [done|]. by destruct Hx; apply Hroot.
    + case_decide as Hx; [apply Hroot in Hx as [E' Hl']; by destruct (Hnr E')|].
      rewrite decide_False.
      * exists t'. split; [done|]. exists M', fl'. split; [done|]. split; [by apply Ht'|].
        split; [done|]. unfold enough. by rewrite Hpg.
      * destruct Hlv as [Hl|Hv]; [|done]. apply (leaf_value t M fl (rev l) b v Hi Ht); [|exact Eb|exact Hl].
        destruct Hd as [HD0|Hd]; [|done]. rewrite HD0.
        destruct (rev l); [by destruct (Hnr eq_refl)|cbn; lia].
  - rewrite decide_False.
    + by exists t.
    + intros [El _]. destruct (inv_root _ _ _ _ _ Hi) as [v Hv]. congruence.
Qed.

(** A prefix of the preallocation. *)
Lemma delete_shallow t m k key mask : sim t m k -> good_op (op_delete key mask) ->
  (0 < D)%nat -> (length (prefix key mask) <= D)%nat ->
  exists r, allowed D m (op_delete key mask) r /\
    match r with
    | Some (c, m') => exists t',
        tree_step ngx_pagesize uninit fuel t (op_delete key mask) = Some (c, t') /\ sim t' m' k
    | None => tree_step ngx_pagesize uninit fuel t (op_delete key mask) = None
    end.
Proof.
  intros Hsim (Hk & Hm) HD0 Hd. pose proof Hsim as (M & fl & Hi & Ht & <- & He).
  unfold allowed. cbn [map_step tree_step]. unfold prefix in *.
  pose proof (prefix_length key mask Hk) as Hlen.
  pose proof (radix_delete_ok ngx_pagesize N D t M fl _ fuel _ Hi (key_walks key mask Hk Hm)
                ltac:(lia) ltac:(lia)) as Hres.
  set (l := masked (key_bits mask) (key_bits key)) in *.
  assert (forall r, (rev l = [] /\ delete [] (vals M) = ∅ -> False) ->
    r = match vals M !! rev l with
        | Some _ => Some (NGX_OK, delete (rev l) (vals M)) | None => Some (NGX_ERROR, vals M) end ->
    r = if decide (rev l = [] /\ delete [] (vals M) = ∅) then None
        else match vals M !! rev l with
        | Some _ => Some (NGX_OK, delete (rev l) (vals M)) | None => Some (NGX_ERROR, vals M) end) as Hmap
    by (intros r Hn ->; by rewrite decide_False).
  rewrite (vals_lookup M (rev l)) in *.
  destruct (M !! rev l) as [[b v]|] eqn:Eb.
  2: { exists (Some (NGX_ERROR, vals M)). split; [|by exists t]. left. apply Hmap; [|done].
       intros [El _]. destruct (inv_root _ _ _ _ _ Hi) as [v Hv]. congruence. }
  destruct Hres as [(Hl & -> & E)|[(El & Hl & E)|(Hlv & Hnr & t' & M' & fl' & E & Hi' & Hvals & Ht' & Hpg)]].
  - rewrite (decide_True (P := NGX_RADIX_NO_VALUE = NGX_RADIX_NO_VALUE)) in * by done.
    exists (Some (NGX_ERROR, vals M)). split; [|by exists t].
    destruct (decide (rev l = [] /\ delete [] (vals M) = ∅)) as [[El Hx]|Hx]; [|by left].
    right. split; [done|]. split; [done|]. right. split; [done|]. split; [done|].
    rewrite El in Eb. assert (vals M !! [] = None) as Hn by (by rewrite vals_lookup, Eb, decide_True).
    by rewrite Hn, delete_id.
  - exists None. split; [|done]. left. rewrite decide_True; [done|]. split; [done|].
    by apply leaf_root_empty with t fl.
  - assert (sim t' (delete (rev l) (vals M)) k) as Hs.
    { exists M', fl'. split; [done|]. split; [by apply Ht'|]. split; [done|]. unfold enough. by rewrite Hpg. }
    exists (Some (NGX_OK, delete (rev l) (vals M))). split; [|by exists t'].
    destruct (decide (v = NGX_RADIX_NO_VALUE)) as [Hv|Hv].
    + right. split; [done|]. split; [done|]. left.
      assert (vals M !! rev l = None) as Hn by (by rewrite vals_lookup, Eb, decide_True).
      split; [|by rewrite delete_id].
      intros El. destruct Hlv as [Hlf|]; [|done]. apply (Hnr El). by rewrite <- El.
    + destruct (decide (rev l = [] /\ delete [] (vals M) = ∅)) as [[El Hx]|Hx]; [|by left].
      right. split; [done|]. split; [done|]. right. split; [done|]. split; [done|].
      rewrite El in Eb. assert (vals M !! [] = Some v) as Hn by (by rewrite vals_lookup, Eb, decide_False).
      by rewrite Hn, El.
Qed.

Lemma delete_sim t m k key mask : sim t m k -> good_op (op_delete key mask) ->
  exists r, allowed D m (op_delete key mask) r /\
    match r with
    | Some (c, m') => exists t',
        tree_step ngx_pagesize uninit fuel t (op_delete key mask) = Some (c, t') /\ sim t' m' k
    | None => tree_step ngx_pagesize uninit fuel t (op_delete key mask) = None
    end.
Proof.
  intros Hsim Ho. destruct (decide (D = 0 \/ D < length (prefix key mask))%nat) as [Hd|Hd].
  - eexists. split; [by left|]. by apply delete_deep.
  - apply delete_shallow; [done|done|lia|lia].
Qed.

Lemma find_sim t m k key : sim t m k -> good_op (op_find key) ->
  match map_step m (op_find key) with
  | Some (r, m') => tree_step ngx_pagesize uninit fuel t (op_find key) = Some (r, t) /\ m' = m
  | None => tree_step ngx_pagesize uninit fuel t (op_find key) = None
  end.
Proof.
  intros (M & fl & Hi & Ht & <- & He) Hk. cbn [good_op] in Hk. cbn [map_step tree_step]. unfold radix_find.
  destruct (inv_root _ _ _ _ _ Hi) as [v0 Hv0]. rewrite <- (addr_some _ _ _ _ Hv0).
  pose proof (key_length key Hk) as Hlen.
  rewrite (find_ok ngx_pagesize N t M fl (key_end key) (key_bits key)) by (done || (by apply key_reads) || (cbn; lia)).
  rewrite app_nil_r, best_longest. rewrite (vals_lookup M).
  destruct (M !! rev (key_bits key)) as [[a v]|] eqn:E; [|done].
  destruct (key_end key) eqn:Ee; [by case_decide|].
  rewrite decide_False; [done|]. apply (leaf_value t M fl (rev (key_bits key)) a v Hi Ht); [|exact E|].
  - rewrite length_rev. lia.
  - intros x. destruct (M !! (x :: rev (key_bits key))) eqn:Ex; [|done].
    pose proof (inv_depth _ _ _ _ _ Hi _ ltac:(by rewrite Ex)) as Hx. cbn in Hx. rewrite length_rev in Hx. lia.
Qed.

(** ** Any operations *)

Lemma results_ok l : forall t m, Forall good_op l -> sim t m (N * length l) ->
  map_results D m l (results (tree_step ngx_pagesize uninit fuel) t l).
Proof.
  induction l as [|o l IH]; intros t m Hl Hsim; [done|].
  apply List.Forall_cons_iff in Hl as [Ho Hl]. cbn [results map_results].
  replace (N * length (o :: l))%nat with (N + N * length l)%nat in Hsim by (cbn; lia).
  assert (Hmono : forall m, sim t m (N + N * length l) -> sim t m (N * length l)).
  { intros m' (M & fl & Hi & Ht & Hv & He). exists M, fl. split; [done|]. split; [done|]. split; [done|].
    eapply enough_le; [exact He|lia]. }
  assert (Hnext : forall c t' m', tree_step ngx_pagesize uninit fuel t o = Some (c, t') ->
    sim t' m' (N * length l) -> exists rs',
    map_results D m' l rs' /\
    ('(r, s) ← tree_step ngx_pagesize uninit fuel t o;
     rs ← results (tree_step ngx_pagesize uninit fuel) s l; Some (r :: rs)) = cons c <$> rs').
  { intros c t' m' E Hs. rewrite E. cbn [mbind option_bind]. eexists. split; [by apply IH|].
    by destruct (results _ _ _). }
  destruct o as [key mask value|key mask|key].
  - destruct (insert_sim _ _ _ _ _ _ Hsim Ho) as (r & t' & m' & E & Et & Hsim').
    exists (Some (r, m')). split; [by left|]. by apply (Hnext r t').
  - apply Hmono in Hsim. destruct (delete_sim _ _ _ _ _ Hsim Ho) as (r & Hr & Hres).
    exists r. split; [done|]. destruct r as [[c m']|]; [|by rewrite Hres].
    destruct Hres as (t' & E & Hsim'). by apply (Hnext c t').
  - apply Hmono in Hsim. pose proof (find_sim _ _ _ _ Hsim Ho) as Hres.
    exists (map_step m (op_find key)). split; [by left|].
    destruct (map_step m (op_find key)) as [[r m']|]; [|by rewrite Hres].
    destruct Hres as (E & ->). by apply (Hnext r t).
Qed.

End spec.

(** ** The two kinds of keys *)

Section keys.
Context {C : Type} `{Cursor C} (at_ : nat -> C) (kb mb : nat -> bool) (T : nat) (e : option bool).
Context (Hdir : forall n, (n < T)%nat -> dir (at_ n) = Some (kb n)).
Context (Hadv : forall n, (n < T)%nat -> adv (at_ n) = at_ (S n)).

Lemma walks_at len : (forall n, (n < T)%nat -> more (at_ n) = Some (mb n)) -> more (at_ T) = Some false ->
  forall n, (n + len = T)%nat -> walks (at_ n) (masked (map mb (seq n len)) (map kb (seq n len))).
Proof.
  intros Hmore Hend. induction len as [|len IH]; intros n Hn; cbn [seq map masked walks].
  - by replace n with T by lia.
  - destruct (mb n) eqn:Em; cbn [walks]; rewrite Hmore, Em by lia; [|done].
    split; [done|]. split; [apply Hdir; lia|]. rewrite Hadv by lia. apply IH. lia.
Qed.

Lemma reads_at len : dir (at_ T) = e ->
  forall n, (n + len = T)%nat -> reads_to (at_ n) (map kb (seq n len)) e.
Proof.
  intros Hend. induction len as [|len IH]; intros n Hn; cbn [seq map reads_to].
  - by replace n with T by lia.
  - split; [apply Hdir; lia|]. rewrite Hadv by lia. apply IH. lia.
Qed.
End keys.

Lemma land_pow2 x n : 0 <= n -> bool_decide (Z.land x (2 ^ n) <> 0) = Z.testbit x n.
Proof.
  intros Hn. apply Bool.eq_iff_eq_true. rewrite bool_decide_eq_true. split.
  - intros H. destruct (Z.testbit x n) eqn:E; [done|]. destruct H. apply Z.bits_inj'. intros m Hm.
    rewrite Z.land_spec, Z.pow2_bits_eqb, Z.bits_0 by lia. destruct (Z.eqb_spec n m) as [<-|]; [by rewrite E|].
    apply andb_false_r.
  - intros E H0. apply (f_equal (fun y => Z.testbit y n)) in H0.
    by rewrite Z.land_spec, Z.pow2_bits_true, Z.bits_0, E in H0 by lia.
Qed.

(** A key of 32 bits. *)
Definition bit32 (k : Z) (n : nat) : bool := Z.testbit k (31 - Z.of_nat n).
Definition bits32 (k : Z) : list bool := map (bit32 k) (seq 0 32).
Definition at32 (k m : Z) (n : nat) : cursor32 := Cursor32 k m (Z.shiftr (2 ^ 31) (Z.of_nat n)).

Lemma shiftr_pow2 b n : (n <= Z.to_nat b)%nat -> 0 <= b -> Z.shiftr (2 ^ b) (Z.of_nat n) = 2 ^ (b - Z.of_nat n).
Proof. intros Hn Hb. rewrite Z.shiftr_div_pow2, <- Z.pow_sub_r by lia. done. Qed.

Lemma at32_dir k m n : (n < 32)%nat -> dir (at32 k m n) = Some (bit32 k n).
Proof.
  intros Hn. cbv [dir cursor32_cursor dir32 at32 c_key c_bit].
  by rewrite shiftr_pow2, land_pow2 by lia.
Qed.

Lemma at32_more k m n : (n < 32)%nat -> more (at32 k m n) = Some (bit32 m n).
Proof.
  intros Hn. cbv [more cursor32_cursor more32 at32 c_mask c_bit].
  by rewrite Z.land_comm, shiftr_pow2, land_pow2 by lia.
Qed.

Lemma at32_adv k m n : adv (at32 k m n) = at32 k m (S n).
Proof.
  cbv [adv cursor32_cursor adv32 at32 c_key c_mask c_bit]. unfold at32. f_equal.
  rewrite Z.shiftr_shiftr by lia. f_equal. lia.
Qed.

#[export] Program Instance keys32 : Keys Z cursor32 32 := {
  start := start32;
  start_find k := start32 k 0;
  key_bits := bits32;
  key_end k := Some false;
  good_key k := 0 <= k < 2 ^ 32 }.
Next Obligation. lia. Qed.
Next Obligation. intros. unfold bits32. by rewrite length_map, length_seq. Qed.
Next Obligation.
  intros k m _ _. refine (walks_at (at32 k m) (bit32 k) (bit32 m) 32 _ _ 32 _ _ 0 _).
  - apply at32_dir.
  - intros n _. apply at32_adv.
  - apply at32_more.
  - done.
  - done.
Qed.
Next Obligation.
  intros k _. refine (reads_at (at32 k 0) (bit32 k) 32 _ _ _ 32 _ 0 _).
  - apply at32_dir.
  - intros n _. apply at32_adv.
  - change (Some (bool_decide (Z.land k 0 <> 0)) = Some false). by rewrite Z.land_0_r.
  - done.
Qed.

(** A key of 16 bytes. *)
Definition bit128 (k : list Z) (n : nat) : bool := Z.testbit (nth (n / 8) k 0) (7 - Z.of_nat (n mod 8)).
Definition bits128 (k : list Z) : list bool := map (bit128 k) (seq 0 128).
Definition at128 (k m : list Z) (n : nat) : cursor128 :=
  Cursor128 k m (n / 8) (Z.shiftr (2 ^ 7) (Z.of_nat (n mod 8))).

Lemma byte_bit k n : length k = 16%nat -> (n < 128)%nat -> exists b, k !! (n / 8)%nat = Some b /\
  bool_decide (Z.land b (Z.shiftr (2 ^ 7) (Z.of_nat (n mod 8))) <> 0) = bit128 k n.
Proof.
  intros Hk Hn. pose proof (Nat.mod_upper_bound n 8 ltac:(done)) as Hm.
  destruct (lookup_lt_is_Some_2 k (n / 8)) as [b Hb].
  { rewrite Hk. apply Nat.Div0.div_lt_upper_bound. lia. }
  exists b. split; [done|]. rewrite shiftr_pow2, land_pow2 by lia. unfold bit128.
  by rewrite (nth_lookup_Some _ _ _ _ Hb).
Qed.

Lemma at128_dir k m n : length k = 16%nat -> (n < 128)%nat -> dir (at128 k m n) = Some (bit128 k n).
Proof.
  intros Hk Hn. destruct (byte_bit k n Hk Hn) as (b & Hb & E).
  cbv [dir cursor128_cursor dir128 at128 d_key d_i d_bit]. rewrite Hb. cbn [mbind option_bind]. by rewrite E.
Qed.

Lemma at128_more k m n : length m = 16%nat -> (n < 128)%nat -> more (at128 k m n) = Some (bit128 m n).
Proof.
  intros Hk Hn. destruct (byte_bit m n Hk Hn) as (b & Hb & E).
  cbv [more cursor128_cursor more128 at128 d_mask d_i d_bit]. rewrite decide_False.
  - rewrite Hb. cbn [mbind option_bind]. by rewrite Z.land_comm, E.
  - intros E16. rewrite E16 in Hb. apply lookup_lt_Some in Hb. lia.
Qed.

Lemma at128_adv k m n : adv (at128 k m n) = at128 k m (S n).
Proof.
  cbv [adv cursor128_cursor adv128 at128 d_key d_mask d_i d_bit]. unfold at128.
  rewrite Z.shiftr_shiftr by lia. pose proof (Nat.mod_upper_bound n 8 ltac:(done)) as Hm.
  pose proof (Nat.div_mod_eq n 8) as En.
  destruct (decide (n mod 8 = 7)%nat) as [E|E].
  - rewrite E. cbn [Z.of_nat]. rewrite decide_True by done.
    replace (S n) with (S (n / 8) * 8)%nat by lia. rewrite Nat.div_mul, Nat.Div0.mod_mul by done.
    f_equal. lia.
  - assert (E1 : (S n / 8 = n / 8)%nat) by (symmetry; apply (Nat.div_unique _ 8 _ (S (n mod 8))); lia).
    assert (E2 : (S n mod 8 = S (n mod 8))%nat) by (symmetry; apply (Nat.mod_unique _ 8 (n / 8)); lia).
    rewrite E1, E2. replace (Z.of_nat (n mod 8) + 1) with (Z.of_nat (S (n mod 8))) by lia.
    rewrite decide_False; [done|]. rewrite shiftr_pow2 by lia. apply Z.pow_nonzero; lia.
Qed.

#[export] Program Instance keys128 : Keys (list Z) cursor128 128 := {
  start := start128;
  start_find k := start128 k [];
  key_bits := bits128;
  key_end k := None;
  good_key k := length k = 16%nat }.
Next Obligation. lia. Qed.
Next Obligation. intros. unfold bits128. by rewrite length_map, length_seq. Qed.
Next Obligation.
  intros k m Hk Hm. cbn in Hk, Hm. refine (walks_at (at128 k m) (bit128 k) (bit128 m) 128 _ _ 128 _ _ 0 _).
  - intros n. by apply at128_dir.
  - intros n _. apply at128_adv.
  - intros n. by apply at128_more.
  - done.
  - done.
Qed.
Next Obligation.
  intros k Hk. cbn in Hk. refine (reads_at (at128 k []) (bit128 k) 128 _ _ _ 128 _ 0 _).
  - intros n. by apply at128_dir.
  - intros n _. apply at128_adv.
  - cbv [dir cursor128_cursor dir128 at128 d_key d_i d_bit]. by rewrite lookup_ge_None_2 by (cbn; lia).
  - done.
Qed.

(** ** The creation of a tree *)

Section creation.
Context (ngx_pagesize : Z) (uninit : rnode) (Hpage : sizeof_node <= ngx_pagesize).
Context (N D : nat) (HD : (D <= 32)%nat) (HN : (D <= N)%nat).

(** The tree of the root. *)
Definition root_tree (p : Z) (ps : list Z) : rtree :=
  RTree p NULL (p + sizeof_node) (ngx_pagesize - sizeof_node)
    {[p := RNode NULL NULL NULL NGX_RADIX_NO_VALUE]} ps.

Lemma create_root mem k : good_pages ngx_pagesize mem -> enough (S k) (tree_start mem) ->
  exists p ps, mem = p :: ps /\ p <> NULL /\
    (forall preallocate, ngx_radix_tree_create ngx_pagesize uninit mem preallocate =
       if decide (preallocate = 0) then Some (Some (root_tree p ps))
       else prealloc ngx_pagesize uninit (Z.to_nat (depth ngx_pagesize preallocate)) (root_tree p ps) 0 0x80000000) /\
    sim (N := N) ngx_pagesize D (root_tree p ps) ∅ k.
Proof.
  intros [Hnd Hnn] He. pose proof (He 0%nat ltac:(lia)) as Hp.
  destruct mem as [|p ps]; [done|]. cbn in Hp. exists p, ps. split; [done|]. split; [done|].
  assert (Eav : avail ngx_pagesize (tree_start (p :: ps)) = p :: avail ngx_pagesize (root_tree p ps)).
  { unfold avail. cbn [tree_start t_start t_size pages map concat]. rewrite nodes_in_small by done.
    rewrite decide_False by done. by rewrite (nodes_in_cons p). }
  rewrite Eav in Hnd, Hnn. apply NoDup_cons in Hnd as [Hp0 Hnd].
  apply List.Forall_cons_iff in Hnn as [_ Hnn]. split.
  - intros preallocate. unfold ngx_radix_tree_create, ngx_radix_alloc.
    cbn [t_root t_free t_start t_size cells pages hd tl]. rewrite (decide_False (P := NULL <> NULL)) by (by intros []).
    rewrite (decide_True (P := 0 < sizeof_node)) by done. rewrite (decide_False (P := p = NULL)) by done.
    cbn [mbind option_bind t_start t_root t_free t_size cells pages]. rewrite decide_False by done.
    unfold upd_node. cbn [cells t_root]. rewrite lookup_insert_eq. cbn [mbind option_bind].
    unfold set_cells. cbn [t_root t_free t_start t_size cells pages].
    by rewrite insert_insert_eq, insert_empty.
  - exists {[ [] := (p, NGX_RADIX_NO_VALUE) ]}, [].
    assert (Hdom : forall q a v, ({[ [] := (p, NGX_RADIX_NO_VALUE) ]} : gmap (list bool) (Z * Z)) !! q = Some (a, v) ->
      q = [] /\ a = p /\ v = NGX_RADIX_NO_VALUE).
    { intros q a v Hq. apply lookup_singleton_Some in Hq as [<- Hq]. by injection Hq as -> ->. }
    split; [split|].
    + intros q a v Hq. destruct (Hdom _ _ _ Hq) as (-> & -> & ->). split; [done|].
      cbn [cells root_tree]. rewrite lookup_singleton_eq. f_equal.
    + exists NGX_RADIX_NO_VALUE. apply lookup_singleton_eq.
    + intros d q [[a v] Hq]. by destruct (Hdom _ _ _ Hq).
    + intros q [[a v] Hq]. destruct (Hdom _ _ _ Hq) as (-> & _). cbn. lia.
    + intros q1 q2 a v w H1 H2. destruct (Hdom _ _ _ H1) as (-> & _), (Hdom _ _ _ H2) as (-> & _). done.
    + done.
    + done.
    + done.
    + intros q a v Hq. destruct (Hdom _ _ _ Hq) as (_ & -> & _). done.
    + cbn. by rewrite lookup_singleton_ne.
    + split; [|split].
      * intros q a Hl _ Hq. destruct (Hdom _ _ _ Hq) as (-> & _). cbn in Hl. lia.
      * apply map_eq. intros q. rewrite vals_lookup, lookup_empty.
        destruct (({[ [] := (p, NGX_RADIX_NO_VALUE) ]} : gmap (list bool) (Z * Z)) !! q) as [[a v]|] eqn:E; [|done].
        destruct (Hdom _ _ _ E) as (_ & _ & ->). by rewrite decide_True.
      * intros n Hn. apply (He (S n)). lia.
Qed.

(** The mask of the [d] first bits. *)
Definition top_mask (d : nat) : Z := 2 ^ 32 - 2 ^ (32 - Z.of_nat d).

Definition top_bits (d : nat) : list bool := repeat true d ++ repeat false (32 - d).

Lemma top_mask_ok d : (d <= 32)%nat ->
  (0 <= top_mask d < 2 ^ 32 /\ bits32 (top_mask d) = top_bits d) /\
  ((d < 32)%nat -> Z.lor (Z.shiftr (top_mask d) 1) 0x80000000 = top_mask (S d)).
Proof.
  intros Hd. do 32 (destruct d as [|d]; [by vm_compute|]).
  destruct d as [|d]; [split; [by vm_compute|lia]|lia].
Qed.

Lemma masked_repeat d key : forall l, (d <= length key)%nat ->
  length (masked (repeat true d ++ repeat false l) key) = d.
Proof.
  revert key; induction d as [|d IH]; intros key l Hd.
  - by destruct l, key.
  - destruct key as [|k key]; cbn in Hd |- *; [lia|]. by rewrite IH by lia.
Qed.

(** The nodes of one level. *)
Lemma level_ok mask inc d : mask = top_mask d -> (d <= D)%nat -> 0 < inc ->
  forall n key t k, (0 < n)%nat -> 0 <= key -> key + Z.of_nat n * inc = 2 ^ 32 ->
  sim (N := N) ngx_pagesize D t ∅ (n * d + k) -> exists t',
  prealloc_level ngx_pagesize uninit n t key mask inc = Some (Some t') /\
  sim (N := N) ngx_pagesize D t' ∅ k.
Proof.
  intros -> Hd Hinc. destruct (top_mask_ok d ltac:(lia)) as [[Hm Eb] _].
  induction n as [|n IH]; intros key t k Hn Hk Hsum (M & fl & Hi & Ht & Hv & He); [lia|].
  cbn [prealloc_level]. unfold ngx_radix32tree_insert.
  assert (Hkr : 0 <= key < 2 ^ 32) by nia.
  set (l := masked (bits32 (top_mask d)) (bits32 key)).
  assert (Hl : length l = d).
  { subst l. rewrite Eb. apply masked_repeat. unfold bits32. rewrite length_map, length_seq. lia. }
  destruct (radix_insert_ok ngx_pagesize uninit Hpage N D t M fl l 34 (start32 key (top_mask d))
              NGX_RADIX_NO_VALUE Hi (key_walks (Keys := keys32) key (top_mask d) Hkr Hm) ltac:(lia) ltac:(lia))
    as (rc & t' & M' & fl' & -> & Hi' & Hen & Htd & Hres).
  cbn [mbind option_bind]. rewrite Hv, lookup_empty in Hres. rewrite Hl in *.
  destruct Hres as [[-> Hv']|(_ & _ & Hf)]; [|destruct Hf; eapply enough_le; [exact He|cbn; lia]].
  rewrite (decide_False (P := NGX_OK <> NGX_OK)) by (by intros []).
  rewrite decide_True in Hv' by done.
  assert (Hs : sim (N := N) ngx_pagesize D t' ∅ (n * d + k)).
  { exists M', fl'. split; [done|]. split; [by apply Htd; [right|..]|]. split; [done|].
    apply Hen. eapply enough_le; [exact He|cbn; lia]. }
  unfold u32. destruct n as [|n].
  - replace (key + inc) with (2 ^ 32) by lia. rewrite Z_mod_same_full, decide_True by done. by exists t'.
  - rewrite Z.mod_small by nia. rewrite decide_False by nia. apply IH; [lia|lia|nia|done].
Qed.

(** The nodes that the preallocation can ask for, from depth [d] on. *)
Fixpoint prealloc_nodes (j d : nat) : nat :=
  match j with O => 0%nat | S j => (2 ^ S d * S d + prealloc_nodes j (S d))%nat end.

Lemma prealloc_ok j : forall d t k, (d + j <= D)%nat ->
  sim (N := N) ngx_pagesize D t ∅ (prealloc_nodes j d + k) -> exists t',
  prealloc ngx_pagesize uninit j t (top_mask d) (Z.shiftr 0x80000000 (Z.of_nat d)) = Some (Some t') /\
  sim (N := N) ngx_pagesize D t' ∅ k.
Proof.
  induction j as [|j IH]; intros d t k Hd Hs; [by exists t|].
  cbn [prealloc]. destruct (top_mask_ok d ltac:(lia)) as [_ Em]. rewrite Em by lia.
  assert (Einc : Z.shiftr 0x80000000 (Z.of_nat d) = 2 ^ (31 - Z.of_nat d)).
  { change 0x80000000 with (2 ^ 31). apply shiftr_pow2; lia. }
  assert (En : 2 ^ 32 / 2 ^ (31 - Z.of_nat d) = Z.of_nat (2 ^ S d)).
  { rewrite <- Z.pow_sub_r by lia. rewrite Nat2Z.inj_pow. f_equal. lia. }
  rewrite Einc, En, Nat2Z.id. cbn [prealloc_nodes] in Hs. rewrite <- Nat.add_assoc in Hs.
  destruct (level_ok (top_mask (S d)) (2 ^ (31 - Z.of_nat d)) (S d) eq_refl ltac:(lia) ltac:(lia)
              (2 ^ S d) 0 t (prealloc_nodes j (S d) + k)) as (t' & -> & Hs').
  - pose proof (Nat.pow_nonzero 2 (S d)). lia.
  - lia.
  - rewrite Nat2Z.inj_pow, Z.add_0_l, <- Z.pow_add_r by lia. f_equal. lia.
  - done.
  - cbn [mbind option_bind]. rewrite <- Einc, Z.shiftr_shiftr by lia.
    replace (Z.of_nat d + 1) with (Z.of_nat (S d)) by lia. apply IH; [lia|done].
Qed.

Lemma create_ok mem preallocate k : -1 <= preallocate ->
  D = Z.to_nat (depth ngx_pagesize preallocate) -> good_pages ngx_pagesize mem ->
  enough (S (prealloc_nodes D 0 + k)) (tree_start mem) -> exists t,
  ngx_radix_tree_create ngx_pagesize uninit mem preallocate = Some (Some t) /\
  sim (N := N) ngx_pagesize D t ∅ k.
Proof.
  intros Hp ED Hmem He.
  destruct (create_root mem (prealloc_nodes D 0 + k) Hmem He) as (p & ps & -> & _ & E & Hs).
  rewrite E. rewrite <- ED. case_decide as Hz.
  - exists (root_tree p ps). split; [done|]. rewrite Hz in ED. change (D = 0%nat) in ED.
    rewrite ED in Hs |- *. exact Hs.
  - apply (prealloc_ok D 0 (root_tree p ps) k); [lia|exact Hs].
Qed.
End creation.

Lemma enough_forall k t : Forall (fun p => p <> NULL) (pages t) -> (k <= length (pages t))%nat -> enough k t.
Proof.
  intros H Hk n Hn. rewrite List.Forall_forall in H. apply H, nth_In. lia.
Qed.

(** ** The two trees *)

Section trees.
Context (ngx_pagesize : Z) (uninit : rnode).

(** A run of the operations as they are called. *)
Definition step32 (t : rtree) (o : radix_op Z) : option (Z * rtree) :=
  match o with
  | op_insert key mask value => ngx_radix32tree_insert ngx_pagesize uninit t key mask value
  | op_delete key mask => ngx_radix32tree_delete t key mask
  | op_find key => v ← ngx_radix32tree_find t key; Some (v, t)
  end.

Definition step128 (t : rtree) (o : radix_op (list Z)) : option (Z * rtree) :=
  match o with
  | op_insert key mask value => ngx_radix128tree_insert ngx_pagesize uninit t key mask value
  | op_delete key mask => ngx_radix128tree_delete t key mask
  | op_find key => v ← ngx_radix128tree_find t key; Some (v, t)
  end.

Lemma results_ext {S O} (f g : S -> O -> option (Z * S)) : (forall s o, f s o = g s o) ->
  forall l s, results f s l = results g s l.
Proof.
  intros E. induction l as [|o l IH]; intros s; [done|]. cbn [results]. rewrite E.
  destruct (g s o) as [[r s']|]; [|done]. cbn [mbind option_bind]. by rewrite IH.
Qed.

Lemma depth_bound preallocate : -1 <= preallocate < 32 -> (Z.to_nat (depth ngx_pagesize preallocate) <= 31)%nat.
Proof. intros H. unfold depth. repeat case_decide; lia. Qed.

End trees.

(** C16: a tree of 32-bit prefixes, created with any preallocation and used by any
    sequence of insertions, deletions and searches, gives the results of a map
    from prefixes to values: an insertion is NGX_BUSY when the prefix has a
    value, a deletion NGX_ERROR when it has none, a search returns the value of
    the longest prefix of the key; and undefined behaviour is only the deletion
    of the empty prefix when no other prefix is there. Two things differ for a
    tree with a preallocation of depth [D > 0], both for the deletion of a prefix
    of at most [D] bits ([allowed]): of one that is not in the map it may also
    return NGX_OK, the map being unchanged, when a preallocated node is freed;
    and that of the empty prefix is defined as long as such nodes are left.
    Memory suffices for all nodes ([enough]), and a value is never the mark of
    its absence ([good_op]). *)
Theorem radix32_refines ngx_pagesize uninit mem preallocate ops :
  let D := Z.to_nat (depth ngx_pagesize preallocate) in
  sizeof_node <= ngx_pagesize -> -1 <= preallocate < 32 -> good_pages ngx_pagesize mem ->
  enough (S (prealloc_nodes D 0 + 32 * length ops)) (tree_start mem) ->
  Forall good_op ops ->
  exists t, ngx_radix_tree_create ngx_pagesize uninit mem preallocate = Some (Some t) /\
    map_results D ∅ ops (results (step32 ngx_pagesize uninit) t ops).
Proof.
  intros D Hpage Hp Hmem He Hops. pose proof (depth_bound ngx_pagesize preallocate Hp) as Hd.
  destruct (create_ok ngx_pagesize uninit Hpage 32 D ltac:(lia) ltac:(lia) mem preallocate _
              ltac:(lia) eq_refl Hmem He) as (t & Et & Hs).
  exists t. split; [done|].
  pose proof (results_ok (N := 32) ngx_pagesize uninit Hpage D ltac:(lia) 34 ltac:(lia) ops t ∅ Hops Hs) as Hr.
  erewrite results_ext; [exact Hr|]. by intros s [].
Qed.

(** The same for prefixes of 16 bytes; undefined behaviour is also the search
    for a key that is in the map with all its bits, which reads its 17th byte. *)
Theorem radix128_refines ngx_pagesize uninit mem preallocate ops :
  let D := Z.to_nat (depth ngx_pagesize preallocate) in
  sizeof_node <= ngx_pagesize -> -1 <= preallocate < 32 -> good_pages ngx_pagesize mem ->
  enough (S (prealloc_nodes D 0 + 128 * length ops)) (tree_start mem) ->
  Forall good_op ops ->
  exists t, ngx_radix_tree_create ngx_pagesize uninit mem preallocate = Some (Some t) /\
    map_results D ∅ ops (results (step128 ngx_pagesize uninit) t ops).
Proof.
  intros D Hpage Hp Hmem He Hops. pose proof (depth_bound ngx_pagesize preallocate Hp) as Hd.
  destruct (create_ok ngx_pagesize uninit Hpage 128 D ltac:(lia) ltac:(lia) mem preallocate _
              ltac:(lia) eq_refl Hmem He) as (t & Et & Hs).
  exists t. split; [done|].
  pose proof (results_ok (N := 128) ngx_pagesize uninit Hpage D ltac:(lia) 130 ltac:(lia) ops t ∅ Hops Hs) as Hr.
  erewrite results_ext; [exact Hr|]. by intros s [].
Qed.

(** Pages of one node, at the addresses 32, 64, ... *)
Definition small_pages (k : nat) : list Z := map (fun i => 32 * (1 + Z.of_nat i)) (seq 0 k).

Definition ops32 : list (radix_op Z) :=
  [op_insert 0x0a000000 0xff000000 1; op_insert 0x0a010000 0xffff0000 2; op_find 0x0a010203;
   op_delete 0x0a010000 0xffff0000; op_find 0x0a010203; op_delete 0x0a010000 0xffff0000;
   op_insert 0x0a000000 0xff000000 3; op_find 0x0b000000].

Lemma ops32_good : Forall (good_op (K := Z)) ops32.
Proof.
  unfold ops32, good_op. repeat apply List.Forall_cons; try apply List.Forall_nil;
    repeat match goal with |- _ /\ _ => split end; try done; by_decide.
Qed.

Lemma small_memory : good_pages 32 (small_pages 300).
Proof. split; by_decide. Qed.

Lemma small_enough k : (k <= 300)%nat -> enough k (tree_start (small_pages 300)).
Proof.
  intros Hk. apply enough_forall; [by_decide|].
  assert (length (pages (tree_start (small_pages 300))) = 300%nat) as -> by by vm_compute. exact Hk.
Qed.

Lemma radix32_refines_witness :
  (exists t, ngx_radix_tree_create 32 (RNode 7 7 7 7) (small_pages 300) 1 = Some (Some t) /\
     map_results 1 ∅ ops32 (results (step32 32 (RNode 7 7 7 7)) t ops32)) /\
  exists t, ngx_radix_tree_create 32 (RNode 7 7 7 7) (small_pages 300) 0 = Some (Some t) /\
    results (step32 32 (RNode 7 7 7 7)) t ops32 =
    Some [NGX_OK; NGX_OK; 2; NGX_OK; 1; NGX_ERROR; NGX_BUSY; NGX_RADIX_NO_VALUE].
Proof.
  split.
  - apply (radix32_refines 32 (RNode 7 7 7 7) (small_pages 300) 1 ops32);
      [done|done|exact small_memory| |exact ops32_good].
    apply small_enough, Nat.leb_le. by vm_compute.
  - destruct (radix32_refines 32 (RNode 7 7 7 7) (small_pages 300) 0 ops32) as (t & Et & E);
      [done|done|exact small_memory| |exact ops32_good|].
    + apply small_enough, Nat.leb_le. by vm_compute.
    + exists t. split; [exact Et|]. rewrite (map_results_exact _ _ _ E). by vm_compute.
Defined.

Definition net128 (l : list Z) : list Z := l ++ repeat 0 (16 - length l).

Definition ops128 : list (radix_op (list Z)) :=
  [op_insert (net128 [0x20; 0x01; 0x0d; 0xb8]) (net128 [255; 255; 255; 255]) 1;
   op_insert (repeat 1 16) (repeat 255 16) 2;
   op_find (net128 [0x20; 0x01; 0x0d; 0xb8; 7]);
   op_delete (net128 [0x20; 0x01; 0x0d; 0xb8]) (net128 [255; 255; 255; 255]);
   op_find (net128 [0x20; 0x01; 0x0d; 0xb8; 7])].

Lemma radix128_refines_witness :
  exists t, ngx_radix_tree_create 32 (RNode 7 7 7 7) (small_pages 700) 0 = Some (Some t) /\
    results (step128 32 (RNode 7 7 7 7)) t ops128 = Some [NGX_OK; NGX_OK; 1; NGX_OK; NGX_RADIX_NO_VALUE].
Proof.
  destruct (radix128_refines 32 (RNode 7 7 7 7) (small_pages 700) 0 ops128) as (t & Et & E).
  - done.
  - done.
  - split; by_decide.
  - apply enough_forall; [by_decide|]. apply Nat.leb_le. by vm_compute.
  - unfold ops128, good_op. repeat apply List.Forall_cons; try apply List.Forall_nil;
      repeat match goal with |- _ /\ _ => split end; try done; by_decide.
  - exists t. split; [exact Et|]. rewrite (map_results_exact _ _ _ E). by vm_compute.
Defined.

(** ** Corner cases *)

Definition new_tree (preallocate : Z) : option rtree :=
  t ← ngx_radix_tree_create 32 (RNode 7 7 7 7) (small_pages 300) preallocate; t.

(** The root alone is deleted through its parent, which is NULL. *)
Fact radix_delete_root : (t ← new_tree 0; Some (ngx_radix32tree_delete t 0 0)) = Some None.
Proof. by vm_compute. Qed.

(** A leaf of the preallocation is deleted although it was not inserted. *)
Fact radix_delete_preallocated :
  (t ← new_tree 1; '(rc, _) ← ngx_radix32tree_delete t 0 0x80000000; Some rc) = Some NGX_OK.
Proof. by vm_compute. Qed.

(** The search for a key that is in the tree with all its bits reads past it. *)
Fact radix128_find_past :
  (t ← new_tree 0; '(_, t) ← ngx_radix128tree_insert 32 (RNode 7 7 7 7) t (repeat 1 16) (repeat 255 16) 5;
   Some (ngx_radix128tree_find t (repeat 1 16))) = Some None.
Proof. by vm_compute. Qed.

(** A failed insertion leaves nodes without a value, and a deletion then finds one. *)
Fact radix_insert_error_path :
  (t ← ngx_radix_tree_create 32 (RNode 7 7 7 7) [32; 64; 0] 0; t ← t;
   '(rc, t) ← ngx_radix32tree_insert 32 (RNode 7 7 7 7) t 0 0xff000000 5;
   '(rd, t) ← ngx_radix32tree_delete t 0 0x80000000; Some (rc, rd)) = Some (NGX_ERROR, NGX_OK).
Proof. by vm_compute. Qed.
