(* ===== verification/Inet.v ===== *)
(** * Internet addresses: ngx_inet.c

    Parsing and printing of IPv4 and IPv6 addresses and socket addresses. The
    host is little-endian: [htonl] and [htons] swap bytes. *)

From S2P Require Import Prelude NgxString Num Sprintf.
From stdpp Require Import list.

Open Scope Z_scope.
Open Scope ch_scope.

(** ** Definitions *)

Definition INADDR_ANY : Z := 0.
Definition INADDR_NONE : Z := 0xffffffff.

Definition htons (x : Z) : Z := x mod 2 ^ 8 * 2 ^ 8 + x / 2 ^ 8 mod 2 ^ 8.
Definition htonl (x : Z) : Z :=
  x mod 2 ^ 8 * 2 ^ 24 + x / 2 ^ 8 mod 2 ^ 8 * 2 ^ 16 + x / 2 ^ 16 mod 2 ^ 8 * 2 ^ 8 + x / 2 ^ 24 mod 2 ^ 8.
Definition ntohs : Z -> Z := htons.
Definition ntohl : Z -> Z := htonl.

(** The loop of [ngx_inet_addr]; the result is an [in_addr_t]. *)
Fixpoint inet_addr_loop (addr octet n : Z) (text : list Z) : Z :=
  match text with
  | [] => if decide (n = 3) then htonl (u32 (u32 (Z.shiftl addr 8) + octet)) else INADDR_NONE
  | c :: text =>
      if decide (c >= "0" /\ c <= "9") then
        let octet := octet * 10 + (c - "0") in
        if decide (octet > 255) then INADDR_NONE else inet_addr_loop addr octet n text
      else if decide (c = ".") then
        inet_addr_loop (u32 (u32 (Z.shiftl addr 8) + octet)) 0 (n + 1) text
      else INADDR_NONE
  end.

Definition ngx_inet_addr (text : list Z) : Z := inet_addr_loop 0 0 0 text.

(** The local variables of [ngx_inet6_addr]: [a] is the index [addr] in the
    memory [mem] of the result, [zero] an index or NULL, [digit] the text that
    begins there or NULL. *)
Record in6_state := In6 {
  i_mem : list Z; i_a : nat; i_zero : option nat; i_digit : option (list Z); i_len4 : nat;
  i_n : Z; i_nibbles : Z; i_word : Z }.

(** [mem[i] = b] *)
Definition put (i : nat) (b : Z) (mem : list Z) : cres (list Z) :=
  if decide (i < length mem)%nat then Ret (<[i := b]> mem) else Ub.

(** [*addr++ = (u_char) (word >> 8); *addr++ = (u_char) (word & 0xff);] *)
Definition put_word (hi lo : Z) (s : in6_state) : cres in6_state :=
  mem ← put (i_a s) hi (i_mem s);
  mem ← put (S (i_a s)) lo mem;
  Ret (In6 mem (S (S (i_a s))) (i_zero s) (i_digit s) (i_len4 s) (i_n s) (i_nibbles s) (i_word s)).

(** The loop; [Ret] is its end or the [break]. *)
Fixpoint inet6_loop (p : list Z) (s : in6_state) : cres in6_state :=
  match p with
  | [] => Ret s
  | c :: p =>
      if decide (c = ":") then
        if decide (i_nibbles s <> 0) then
          s ← put_word (u8 (Z.shiftr (i_word s) 8)) (u8 (Z.land (i_word s) 0xff)) s;
          let n := u64 (i_n s - 1) in
          if decide (n <> 0) then
            inet6_loop p (In6 (i_mem s) (i_a s) (i_zero s) (Some p) (S (length p)) n 0 0)
          else Fail
        else
          match i_zero s with
          | None =>
              inet6_loop p (In6 (i_mem s) (i_a s) (Some (i_a s)) (Some p) (S (length p))
                              (i_n s) (i_nibbles s) (i_word s))
          | Some _ => Fail
          end
      else if decide (c = "." /\ i_nibbles s <> 0) then
        match i_digit s with
        | Some digit =>
            if decide (i_n s < 2) then Fail
            else
              let word := ngx_inet_addr (take (i_len4 s - 1) digit) in
              if decide (word = INADDR_NONE) then Fail
              else
                let word := ntohl word in
                s ← put_word (u8 (Z.land (Z.shiftr word 24) 0xff)) (u8 (Z.land (Z.shiftr word 16) 0xff)) s;
                Ret (In6 (i_mem s) (i_a s) (i_zero s) (i_digit s) (i_len4 s) (u64 (i_n s - 1)) (i_nibbles s) word)
        | None => Fail
        end
      else
        let nibbles := i_nibbles s + 1 in
        if decide (nibbles > 4) then Fail
        else
          let next word :=
            inet6_loop p (In6 (i_mem s) (i_a s) (i_zero s) (i_digit s) (i_len4 s) (i_n s) nibbles (u64 word)) in
          if decide (c >= "0" /\ c <= "9") then next (i_word s * 16 + (c - "0"))
          else
            let c := u8 (Z.lor c 0x20) in
            if decide (c >= "a" /\ c <= "f") then next (i_word s * 16 + (c - "a") + 10) else Fail
  end.

(** [while (s >= zero) { *d-- = *s--; }], of [k] rounds. *)
Fixpoint move_up (k s d : nat) (mem : list Z) : cres (list Z) :=
  match k with
  | O => Ret mem
  | S k =>
      b ← (match mem !! s with Some b => Ret b | None => Ub end);
      mem ← put d b mem;
      move_up k (s - 1) (d - 1) mem
  end.

Fixpoint memzero (k i : nat) (mem : list Z) : cres (list Z) :=
  match k with O => Ret mem | S k => mem ← put i 0 mem; memzero k (S i) mem end.

(** The code after the loop. *)
Definition inet6_end (s : in6_state) : cres (list Z) :=
  if decide (i_nibbles s = 0 /\ i_zero s = None) then Fail
  else
    s ← put_word (u8 (Z.shiftr (i_word s) 8)) (u8 (Z.land (i_word s) 0xff)) s;
    let n := u64 (i_n s - 1) in
    if decide (n <> 0) then
      match i_zero s with
      | Some zero =>
          let n := Z.to_nat (n * 2) in
          mem ← move_up (i_a s - zero) (i_a s - 1) (i_a s - 1 + n) (i_mem s);
          memzero n zero mem
      | None => Fail
      end
    else match i_zero s with None => Ret (i_mem s) | Some _ => Fail end.

(** [addr] is the memory of 16 bytes before the call; its contents after it. *)
Definition ngx_inet6_addr (text addr : list Z) : cres (list Z) :=
  if decide (length text = 0%nat) then Fail
  else
    let p := if decide (head text = Some (":" : Z)) then tail text else text in
    s ← inet6_loop p (In6 addr 0 None None 0 8 0 0);
    inet6_end s.

(** *** Printing *)

(** The longest run of zero words so far: [zero] is the index of its first byte
    and [max] its length, at first [(ngx_uint_t) -1] and 1; [n] is the length of
    the run that is being read and [last] its index. *)
Definition NONE64 : Z := 2 ^ 64 - 1.

Fixpoint zero_scan (k : nat) (i : Z) (p : list Z) (zero last max n : Z) : option (Z * Z) :=
  match k with
  | O => Some (if decide (max < n) then (last, n) else (zero, max))
  | S k =>
      b0 ← rd p i;
      b1 ← rd p (i + 1);
      if decide (b0 <> 0 \/ b1 <> 0) then
        if decide (max < n) then zero_scan k (i + 2) p last last n 0
        else zero_scan k (i + 2) p zero last max 0
      else zero_scan k (i + 2) p zero (if decide (n = 0) then i else last) max (n + 1)
  end.

(** The loop that prints the words up to index [n], of at most [fuel] rounds. *)
Fixpoint ntop_loop (fuel : nat) (i n zero max : Z) (p dst : list Z) : option (list Z) :=
  match fuel with
  | O => None
  | S fuel =>
      if decide (i < n) then
        if decide (i = zero) then ntop_loop fuel (i + (max - 1) * 2 + 2) n zero max p (dst ++ [":"])
        else
          b0 ← rd p i;
          b1 ← rd p (i + 1);
          t ← ngx_sprintf (bstr "%xd") [AInt (b0 * 256 + b1)];
          let dst := dst ++ t in
          ntop_loop fuel (i + 2) n zero max p (if decide (i < 14) then dst ++ [":"] else dst)
      else Some dst
  end.

Definition NGX_INET_ADDRSTRLEN : Z := Z.of_nat (length (bstr "255.255.255.255")).
Definition NGX_INET6_ADDRSTRLEN : Z :=
  Z.of_nat (length (bstr "ffff:ffff:ffff:ffff:ffff:ffff:255.255.255.255")).

(** The text; [None] is a read outside of the address. *)
Definition ngx_inet6_ntop (p : list Z) (len : Z) : option (list Z) :=
  if decide (len < NGX_INET6_ADDRSTRLEN) then Some []
  else
    '(zero, max) ← zero_scan 8 0 p NONE64 NONE64 1 0;
    p10 ← rd p 10; p11 ← rd p 11; p12 ← rd p 12; p13 ← rd p 13; p14 ← rd p 14; p15 ← rd p 15;
    let v4 :=
      bool_decide (zero = 0 /\ ((max = 5 /\ p10 = 0xff /\ p11 = 0xff) \/ max = 6 \/
                                (max = 7 /\ p14 <> 0 /\ p15 <> 1))) in
    let n := if (v4 : bool) then 12 else 16 in
    dst ← ntop_loop 9 0 n zero max p (if decide (zero = 0) then [":"] else []);
    if decide (n = 12) then
      t ← ngx_sprintf (bstr "%ud.%ud.%ud.%ud") [AInt p12; AInt p13; AInt p14; AInt p15];
      Some (dst ++ t)
    else Some dst.

(** *** Socket addresses *)

(** Ports and IPv4 addresses are in network byte order; [sun_path] has 108 bytes.
    Other families are left out. *)
Inductive sockaddr :=
  | sockaddr_in (sin_port sin_addr : Z)
  | sockaddr_in6 (sin6_port : Z) (sin6_addr : list Z)
  | sockaddr_un (sun_path : list Z).

(** The bytes of an [in_addr_t] in memory. *)
Definition addr_bytes (a : Z) : list Z := [a mod 2 ^ 8; a / 2 ^ 8 mod 2 ^ 8; a / 2 ^ 16 mod 2 ^ 8; a / 2 ^ 24 mod 2 ^ 8].

Definition ngx_inet_get_port (sa : sockaddr) : Z :=
  match sa with
  | sockaddr_in6 port _ => ntohs port
  | sockaddr_un _ => 0
  | sockaddr_in port _ => ntohs port
  end.

Definition ngx_inet_set_port (sa : sockaddr) (port : Z) : sockaddr :=
  match sa with
  | sockaddr_in6 _ addr => sockaddr_in6 (htons port) addr
  | sockaddr_un _ => sa
  | sockaddr_in _ addr => sockaddr_in (htons port) addr
  end.

Definition ngx_inet_wildcard (sa : sockaddr) : bool :=
  match sa with
  | sockaddr_in _ addr => bool_decide (addr = INADDR_ANY)
  | sockaddr_in6 _ addr => bool_decide (addr = repeat 0 16)
  | sockaddr_un _ => false
  end.

Definition ngx_cmp_sockaddr (sa1 : sockaddr) (slen1 : Z) (sa2 : sockaddr) (slen2 : Z) (cmp_port : bool) : Z :=
  match sa1, sa2 with
  | sockaddr_in6 port1 addr1, sockaddr_in6 port2 addr2 =>
      if decide (cmp_port = true /\ port1 <> port2) then NGX_DECLINED
      else if decide (addr1 <> addr2) then NGX_DECLINED else NGX_OK
  | sockaddr_un path1, sockaddr_un path2 =>
      let len := (if decide (slen1 < slen2) then slen1 else slen2) - 2 in
      let len := if decide (len > 108) then 108 else len in
      if decide (take (Z.to_nat len) path1 <> take (Z.to_nat len) path2) then NGX_DECLINED else NGX_OK
  | sockaddr_in port1 addr1, sockaddr_in port2 addr2 =>
      if decide (cmp_port = true /\ port1 <> port2) then NGX_DECLINED
      else if decide (addr1 <> addr2) then NGX_DECLINED else NGX_OK
  | _, _ => NGX_DECLINED
  end.

(** [p - text], the text being what was printed; [unix_text] is without the
    terminating NUL. *)
Definition ngx_sock_ntop (sa : sockaddr) (socklen len : Z) (port : bool) : option (list Z) :=
  match sa with
  | sockaddr_in sin_port sin_addr =>
      let args := map AInt (addr_bytes sin_addr) in
      if port then ngx_snprintf len (bstr "%ud.%ud.%ud.%ud:%d") (args ++ [AInt (ntohs sin_port)])
      else ngx_snprintf len (bstr "%ud.%ud.%ud.%ud") args
  | sockaddr_in6 sin6_port sin6_addr =>
      t ← ngx_inet6_ntop sin6_addr len;
      if port then
        e ← ngx_sprintf (bstr "]:%d") [AInt (ntohs sin6_port)];
        Some ("[" :: t ++ e)
      else Some t
  | sockaddr_un sun_path =>
      p ← (if decide (socklen <= 2) then ngx_snprintf len (bstr "unix:%Z") []
           else
             n ← ngx_strnlen sun_path (Z.to_nat (socklen - 2));
             ngx_snprintf len (bstr "unix:%*s%Z") [AInt (Z.of_nat n); ACstr sun_path]);
      Some (take (length p - 1) p)
  end.

Definition NGX_SOCKADDR_STRLEN : Z := 5 + 110 - 2.

Definition AF_UNIX : Z := 1.
Definition AF_INET : Z := 2.
Definition AF_INET6 : Z := 10.

(** [addr] are the 4 or 16 bytes of the address. *)
Definition ngx_inet_ntop (family : Z) (addr : list Z) (len : Z) : option (list Z) :=
  if decide (family = AF_INET) then
    ngx_snprintf len (bstr "%ud.%ud.%ud.%ud") (map AInt (take 4 addr))
  else if decide (family = AF_INET6) then ngx_inet6_ntop addr len
  else Some [].

Example inet6_1 : ngx_inet6_addr (bstr "2001:db8::ff00:42:8329") (repeat 9 16) =
  Ret [0x20; 1; 0x0d; 0xb8; 0; 0; 0; 0; 0; 0; 0xff; 0; 0; 0x42; 0x83; 0x29].
Proof. by vm_compute. Qed.
Example inet6_2 : ngx_inet6_addr (bstr "::ffff:192.0.2.1") (repeat 9 16) =
  Ret [0; 0; 0; 0; 0; 0; 0; 0; 0; 0; 255; 255; 192; 0; 2; 1].
Proof. by vm_compute. Qed.
Example inet6_3 : ngx_inet6_ntop [0x20; 1; 0x0d; 0xb8; 0; 0; 0; 0; 0; 0; 0xff; 0; 0; 0x42; 0x83; 0x29] 45 =
  Some (bstr "2001:db8::ff00:42:8329").
Proof. by vm_compute. Qed.
Example inet6_4 : ngx_inet6_addr (bstr "::") (repeat 9 16) = Ret (repeat 0 16).
Proof. by vm_compute. Qed.
Example sock_1 : ngx_sock_ntop (sockaddr_in (htons 8080) (htonl 0x7f000001)) 16 64 true = Some (bstr "127.0.0.1:8080").
Proof. by vm_compute. Qed.
Example sock_2 : ngx_sock_ntop (sockaddr_un (bstr "/tmp/x" ++ repeat 0 102)) 110 64 true = Some (bstr "unix:/tmp/x").
Proof. by vm_compute. Qed.

(** ** Texts with separators *)

(** The pieces between the separators. *)
Fixpoint split (sep : Z) (l : list Z) : list (list Z) :=
  match l with
  | [] => [[]]
  | c :: l =>
      if decide (c = sep) then [] :: split sep l
      else match split sep l with f :: fs => (c :: f) :: fs | [] => [[c]] end
  end.

Lemma split_ne sep l : split sep l <> [].
Proof. destruct l as [|c l]; cbn; [done|]. case_decide; [done|]. by destruct (split sep l). Qed.

Lemma split_last sep f : sep ∉ f -> split sep f = [f].
Proof.
  induction f as [|c f IH]; intros H; cbn; [done|].
  apply not_elem_of_cons in H as [Hc H]. rewrite decide_False by done. by rewrite IH.
Qed.

Lemma split_app sep f l : sep ∉ f -> split sep (f ++ sep :: l) = f :: split sep l.
Proof.
  induction f as [|c f IH]; intros H; cbn; [by rewrite decide_True|].
  apply not_elem_of_cons in H as [Hc H]. rewrite decide_False by done. by rewrite IH.
Qed.

Lemma split_prefix sep g l : sep ∉ g ->
  split sep (g ++ l) = match split sep l with h :: fs => (g ++ h) :: fs | [] => [] end.
Proof.
  induction g as [|c g IH]; intros H; cbn [app split].
  - destruct (split sep l) eqn:E; [by apply split_ne in E|done].
  - apply not_elem_of_cons in H as [Hc H]. rewrite decide_False, IH by done.
    destruct (split sep l) eqn:E; [by apply split_ne in E|done].
Qed.

(** ** IPv4 addresses *)

(** The value of a piece: decimal digits, or nothing at all. *)
Definition octet_from (o : Z) (f : list Z) : option Z :=
  let v := numeral 10 (fun c => c - "0") o f in
  if forallb is_digit f && (v <=? 255) then Some v else None.

Definition octet_of (f : list Z) : option Z := octet_from 0 f.

Fixpoint quad (addr n : Z) (fs : list (option Z)) : Z :=
  match fs with
  | [] => if decide (n = 4) then htonl addr else INADDR_NONE
  | Some o :: fs => quad (u32 (u32 (Z.shiftl addr 8) + o)) (n + 1) fs
  | None :: _ => INADDR_NONE
  end.

Lemma quad_length fs : forall addr n, n + Z.of_nat (length fs) <> 4 -> quad addr n fs = INADDR_NONE.
Proof.
  induction fs as [|[o|] fs IH]; intros addr n Hn; cbn [quad]; [|apply IH; cbn in Hn; lia|done].
  rewrite decide_False; [done|]. cbn in Hn. lia.
Qed.

Lemma inet_addr_loop_ok text : forall addr octet n, 0 <= octet <= 255 ->
  inet_addr_loop addr octet n text =
  match split "." text with
  | f :: fs => quad addr n (octet_from octet f :: map octet_of fs)
  | [] => INADDR_NONE
  end.
Proof.
  induction text as [|c text IH]; intros addr octet n Ho.
  - cbn [split map quad]. unfold octet_from. cbn [forallb numeral fold_left andb].
    rewrite (proj2 (Z.leb_le _ _)) by lia. cbn [inet_addr_loop quad]. by do 2 case_decide; try lia.
  - cbn [inet_addr_loop split]. case_decide as Hd.
    + rewrite (decide_False (P := c = ".")) by lia.
      assert (Hdig : is_digit c = true) by (apply is_digit_spec; lia).
      destruct (split "." text) as [|f fs] eqn:Es; [by apply split_ne in Es|].
      assert (Ef : octet_from octet (c :: f) =
                   if decide (octet * 10 + (c - "0") > 255) then None
                   else octet_from (octet * 10 + (c - "0")) f).
      { unfold octet_from. cbn [forallb]. rewrite Hdig. cbn [andb].
        change (numeral 10 (fun c => c - "0") octet (c :: f))
          with (numeral 10 (fun c => c - "0") (octet * 10 + (c - "0")) f).
        case_decide as Hb; [|done]. destruct (forallb is_digit f) eqn:Ed; [|done]. cbn [andb].
        pose proof (numeral_ge 10 (fun c => c - "0") (octet * 10 + (c - "0")) f ltac:(lia) ltac:(lia)
                      (digits_nonneg _ Ed)).
        by rewrite (proj2 (Z.leb_gt _ _)) by lia. }
      rewrite Ef. case_decide as Hb; [done|]. by rewrite IH by lia.
    + assert (Hdig : is_digit c = false) by (apply is_digit_false; lia).
      case_decide as Hp.
      * rewrite IH by lia. assert (En : octet_from octet [] = Some octet).
        { unfold octet_from. cbn [forallb numeral fold_left andb]. by rewrite (proj2 (Z.leb_le _ _)) by lia. }
        rewrite En. cbn [quad]. destruct (split "." text) as [|f fs] eqn:Es; [by apply split_ne in Es|]. done.
      * destruct (split "." text) as [|f fs] eqn:Es; [by apply split_ne in Es|].
        unfold octet_from. cbn [forallb]. by rewrite Hdig.
Qed.

Lemma push_octet addr o : 0 <= addr < 2 ^ 24 -> 0 <= o <= 255 ->
  u32 (u32 (Z.shiftl addr 8) + o) = addr * 2 ^ 8 + o.
Proof.
  intros Ha Ho. rewrite Z.shiftl_mul_pow2 by lia. rewrite (u32_small (addr * 2 ^ 8)) by lia.
  apply u32_small. lia.
Qed.

Lemma octet_bound o f v : octet_from o f = Some v -> 0 <= o -> 0 <= v <= 255.
Proof.
  unfold octet_from. destruct (forallb is_digit f) eqn:Ed; [|done]. cbn [andb].
  destruct (Z.leb_spec (numeral 10 (fun c => c - "0") o f) 255); [|done]. intros [= <-] Ho.
  pose proof (numeral_ge 10 (fun c => c - "0") o f ltac:(lia) ltac:(lia) (digits_nonneg _ Ed)). lia.
Qed.

Lemma inet_addr_quads text :
  ngx_inet_addr text =
  match map octet_of (split "." text) with
  | [Some a; Some b; Some c; Some d] => htonl (a * 2 ^ 24 + b * 2 ^ 16 + c * 2 ^ 8 + d)
  | _ => INADDR_NONE
  end.
Proof.
  unfold ngx_inet_addr. rewrite inet_addr_loop_ok by lia.
  destruct (split "." text) as [|f fs] eqn:Es; [by apply split_ne in Es|].
  change (octet_from 0 f :: map octet_of fs) with (map octet_of (f :: fs)).
  assert (Hb : Forall (fun o => match o with Some v => 0 <= v <= 255 | None => True end) (map octet_of (f :: fs))).
  { apply List.Forall_map, List.Forall_forall. intros g _. destruct (octet_of g) eqn:E; [|done].
    by eapply octet_bound. }
  revert Hb. generalize (map octet_of (f :: fs)). intros l Hb.
  destruct l as [|[a|] l]; [done| |by destruct l as [|? [|? [|? [|? ?]]]]].
  destruct l as [|[b|] l]; [done| |by destruct l as [|? [|? [|? ?]]]].
  destruct l as [|[c|] l]; [done| |by destruct l as [|? [|? ?]]].
  destruct l as [|[d|] l]; [done| |by destruct l as [|? ?]].
  destruct l as [|x l]; [|rewrite quad_length by (cbn; lia); done].
  repeat match goal with H : Forall _ (_ :: _) |- _ => apply List.Forall_cons_iff in H as [? H] end.
  cbn [quad]. rewrite decide_True by done. rewrite (push_octet 0 a) by lia.
  rewrite (push_octet (0 * 2 ^ 8 + a) b) by lia. rewrite (push_octet ((0 * 2 ^ 8 + a) * 2 ^ 8 + b) c) by lia.
  rewrite push_octet by lia. f_equal. lia.
Qed.

(** [ngx_inet_addr] accepts exactly the texts of four pieces between dots,
    each of decimal digits with a value of at most 255 or empty, and returns
    their bytes in network order; any other text gives INADDR_NONE, and so does
    255.255.255.255. *)
Theorem inet_addr_exact text :
  ngx_inet_addr text =
  match map octet_of (split "." text) with
  | [Some a; Some b; Some c; Some d] => htonl (a * 2 ^ 24 + b * 2 ^ 16 + c * 2 ^ 8 + d)
  | _ => INADDR_NONE
  end.
Proof. apply inet_addr_quads. Qed.


(** ** IPv6 addresses: what is accepted *)

(** A piece of one to four hexadecimal digits. *)
Definition group (f : list Z) : option Z :=
  if bool_decide (1 <= Z.of_nat (length f) <= 4) && forallb is_hex f then Some (hex_value f) else None.

(** A piece that is an IPv4 address, as its two words; its first part has one to four digits. *)
Definition v4_group (f : list Z) : option (list Z) :=
  match split "." f with
  | h :: _ :: _ =>
      if decide (1 <= Z.of_nat (length h) <= 4 /\ ngx_inet_addr f <> INADDR_NONE) then
        let a := ntohl (ngx_inet_addr f) in Some [a / 2 ^ 16; a mod 2 ^ 16]
      else None
  | _ => None
  end.

(** The words of the pieces; [None] stands for a gap, which an empty piece is
    unless it is the last one; an IPv4 address is the last of two pieces or more. *)
Fixpoint in6_groups (colon : bool) (fs : list (list Z)) : option (list (option Z)) :=
  match fs with
  | [] => None
  | [[]] => Some [Some 0]
  | [f] =>
      match group f with
      | Some w => Some [Some w]
      | None => if colon then map Some <$> v4_group f else None
      end
  | [] :: fs => gs ← in6_groups true fs; Some (None :: gs)
  | f :: fs => w ← group f; gs ← in6_groups true fs; Some (Some w :: gs)
  end.

(** The words before the first gap, and what comes after it. *)
Fixpoint before_gap (gs : list (option Z)) : list Z * option (list (option Z)) :=
  match gs with
  | [] => ([], None)
  | None :: gs => ([], Some gs)
  | Some w :: gs => let '(ws, r) := before_gap gs in (w :: ws, r)
  end.

(** Eight words without a gap, or less than eight around one gap; [closed] says
    that the text does not end with a colon. *)
Definition in6_words (closed : bool) (gs : list (option Z)) : option (list Z) :=
  match before_gap gs with
  | (ws, None) => if decide (closed = true /\ length ws = 8%nat) then Some ws else None
  | (ws, Some gs) =>
      ws' ← mapM id gs;
      if decide (length ws + length ws' < 8)%nat then Some (ws ++ repeat 0 (8 - length ws - length ws') ++ ws')
      else None
  end.

Definition word_bytes (w : Z) : list Z := [w / 2 ^ 8; w mod 2 ^ 8].

(** The address of a text, whose first character is dropped when it is a colon. *)
Definition in6_reference (text : list Z) : option (list Z) :=
  let fs := split ":" (if decide (head text = Some (":" : Z)) then tail text else text) in
  gs ← in6_groups false fs;
  ws ← in6_words (bool_decide (last fs <> Some [])) gs;
  Some (ws ≫= word_bytes).

(** The same with what has been read so far: the words [ws] and the place [z] of the gap. *)
Definition in6_finish (ws : list Z) (z : option nat) (closed : bool) : option (list Z) :=
  match z with
  | None => if decide (closed = true /\ length ws = 8%nat) then Some ws else None
  | Some k =>
      if decide (length ws < 8)%nat then Some (take k ws ++ repeat 0 (8 - length ws) ++ drop k ws) else None
  end.

Fixpoint in6_run (ws : list Z) (z : option nat) (colon : bool) (fs : list (list Z)) : option (list Z) :=
  match fs with
  | [] => None
  | [[]] => in6_finish (ws ++ [0]) z false
  | [f] =>
      match group f with
      | Some w => in6_finish (ws ++ [w]) z true
      | None => if colon then l ← v4_group f; in6_finish (ws ++ l) z true else None
      end
  | [] :: fs => match z with None => in6_run ws (Some (length ws)) true fs | Some _ => None end
  | f :: fs => w ← group f; in6_run (ws ++ [w]) z true fs
  end.

(** The cases of a list of pieces: the last one, a gap, a group. *)
Lemma pieces_ind (P : bool -> list (list Z) -> Prop) :
  (forall colon, P colon [[]]) -> (forall colon f, f <> [] -> P colon [f]) ->
  (forall colon fs, fs <> [] -> P true fs -> P colon ([] :: fs)) ->
  (forall colon f fs, f <> [] -> fs <> [] -> P true fs -> P colon (f :: fs)) ->
  forall fs colon, fs <> [] -> P colon fs.
Proof.
  intros H1 H2 H3 H4. induction fs as [|f fs IH]; intros colon Hne; [done|].
  destruct fs as [|g fs]; [destruct f; auto|]. destruct f as [|c f].
  - apply H3; [done|]. by apply IH.
  - apply H4; [done|done|]. by apply IH.
Qed.

Lemma groups_gap colon fs : fs <> [] -> in6_groups colon ([] :: fs) = gs ← in6_groups true fs; Some (None :: gs).
Proof. by destruct fs. Qed.

Lemma groups_group colon f fs : f <> [] -> fs <> [] ->
  in6_groups colon (f :: fs) = w ← group f; gs ← in6_groups true fs; Some (Some w :: gs).
Proof. by destruct f, fs. Qed.

Lemma groups_last colon f : f <> [] -> in6_groups colon [f] =
  match group f with Some w => Some [Some w] | None => if colon then map Some <$> v4_group f else None end.
Proof. by destruct f. Qed.

Lemma run_gap_eq ws z colon fs : fs <> [] -> in6_run ws z colon ([] :: fs) =
  match z with None => in6_run ws (Some (length ws)) true fs | Some _ => None end.
Proof. by destruct fs. Qed.

Lemma run_group_eq ws z colon f fs : f <> [] -> fs <> [] ->
  in6_run ws z colon (f :: fs) = w ← group f; in6_run (ws ++ [w]) z true fs.
Proof. by destruct f, fs. Qed.

Lemma run_last_eq ws z colon f : f <> [] -> in6_run ws z colon [f] =
  match group f with
  | Some w => in6_finish (ws ++ [w]) z true
  | None => if colon then l ← v4_group f; in6_finish (ws ++ l) z true else None
  end.
Proof. by destruct f. Qed.

Lemma before_gap_some l : before_gap (map Some l) = (l, None).
Proof. induction l as [|x l IH]; [done|]. cbn. by rewrite IH. Qed.

Lemma run_after_gap k fs colon : fs <> [] -> forall ws, in6_run ws (Some k) colon fs =
  gs ← in6_groups colon fs; l ← mapM id gs; in6_finish (ws ++ l) (Some k) true.
Proof.
  revert fs colon. refine (pieces_ind _ _ _ _ _).
  - done.
  - intros colon f Hf ws. rewrite run_last_eq, groups_last by done. destruct (group f); [done|].
    destruct colon; [|done]. destruct (v4_group f) as [l|]; [|done]. cbn [fmap option_fmap option_map mbind option_bind].
    by rewrite mapM_some.
  - intros colon fs Hfs IH ws. rewrite run_gap_eq, groups_gap by done. by destruct (in6_groups true fs).
  - intros colon f fs Hf Hfs IH ws. rewrite run_group_eq, groups_group by done.
    destruct (group f) as [w|]; [|done]. cbn [mbind option_bind]. rewrite IH.
    destruct (in6_groups true fs) as [gs|]; [|done]. cbn. destruct (mapM id gs) as [l|]; [|done]. cbn.
    by rewrite <- app_assoc.
Qed.

Definition words_from (ws : list Z) (closed : bool) (gs : list (option Z)) : option (list Z) :=
  match before_gap gs with
  | (l, None) => in6_finish (ws ++ l) None closed
  | (l, Some gs) => l' ← mapM id gs; in6_finish ((ws ++ l) ++ l') (Some (length (ws ++ l))) true
  end.

Lemma words_from_cons ws closed w gs : words_from ws closed (Some w :: gs) = words_from (ws ++ [w]) closed gs.
Proof.
  unfold words_from. cbn [before_gap]. destruct (before_gap gs) as [l [gs'|]]; rewrite <- app_assoc; done.
Qed.

Lemma words_from_nil closed gs : words_from [] closed gs = in6_words closed gs.
Proof.
  unfold words_from, in6_words. destruct (before_gap gs) as [l [gs'|]]; [|done]. cbn [app].
  destruct (mapM id gs') as [l'|]; [|done]. cbn [mbind option_bind in6_finish].
  rewrite length_app, take_app_length, drop_app_length. by rewrite Nat.sub_add_distr.
Qed.

Lemma run_before_gap fs colon : fs <> [] -> forall ws, in6_run ws None colon fs =
  gs ← in6_groups colon fs; words_from ws (bool_decide (last fs <> Some [])) gs.
Proof.
  revert fs colon. refine (pieces_ind _ _ _ _ _).
  - done.
  - intros colon f Hf ws. rewrite run_last_eq, groups_last by done. cbn [last].
    rewrite bool_decide_true by (by intros [= ->]).
    destruct (group f); [done|]. destruct colon; [|done]. destruct (v4_group f) as [l|]; [|done].
    cbn [fmap option_fmap option_map mbind option_bind]. unfold words_from. by rewrite before_gap_some.
  - intros colon fs Hfs IH ws. rewrite run_gap_eq, groups_gap, run_after_gap by done.
    destruct (in6_groups true fs) as [gs|]; [|done]. cbn [mbind option_bind]. unfold words_from.
    cbn [before_gap]. by rewrite app_nil_r.
  - intros colon f fs Hf Hfs IH ws. rewrite run_group_eq, groups_group by done.
    destruct (group f) as [w|]; [|done]. cbn [mbind option_bind]. rewrite IH.
    replace (last (f :: fs)) with (last fs) by (by destruct fs).
    destruct (in6_groups true fs) as [gs|]; [|done]. cbn [mbind option_bind]. by rewrite words_from_cons.
Qed.

Lemma run_reference text :
  in6_reference text =
  ws ← in6_run [] None false (split ":" (if decide (head text = Some (":" : Z)) then tail text else text));
  Some (ws ≫= word_bytes).
Proof.
  unfold in6_reference. set (p := if decide _ then _ else _). rewrite run_before_gap by apply split_ne.
  destruct (in6_groups false (split ":" p)) as [gs|]; [|done]. cbn [mbind option_bind].
  by rewrite words_from_nil.
Qed.

(** ** The code on a piece *)

Lemma htonl_range x : 0 <= htonl x < 2 ^ 32.
Proof. unfold htonl. dlia. Qed.

(** Digits of a piece are added to the word. *)
Definition with_word (s : in6_state) (k w : Z) : in6_state :=
  In6 (i_mem s) (i_a s) (i_zero s) (i_digit s) (i_len4 s) (i_n s) k w.

Lemma hexdig_run s f : forall k w l, bytes f -> forallb is_hex f = true -> 0 <= k ->
  k + Z.of_nat (length f) <= 4 -> 0 <= w < 16 ^ k ->
  inet6_loop (f ++ l) (with_word s k w) =
  inet6_loop l (with_word s (k + Z.of_nat (length f)) (numeral 16 hex_val w f)) /\
  0 <= numeral 16 hex_val w f < 16 ^ (k + Z.of_nat (length f)).
Proof.
  induction f as [|c f IH]; intros k w l Hb Hh Hk Hlen Hw.
  - cbn [app length]. by rewrite Z.add_0_r.
  - apply List.Forall_cons_iff in Hb as [Hc Hb]. cbn [forallb] in Hh. apply andb_prop in Hh as [Hx Hh].
    cbn [length] in Hlen |- *. rewrite Nat2Z.inj_succ in Hlen |- *.
    destruct (hex_char_spec c Hc) as (Hdig & Hlet & Hrange). specialize (Hrange Hx).
    assert (Hcol : c <> ":" /\ c <> ".") by (split; intros ->; done).
    assert (Hpow : 16 ^ (k + 1) = 16 ^ k * 16) by (rewrite Z.pow_add_r by lia; lia).
    assert (Hmax : 16 ^ (k + 1) <= 16 ^ 4) by (apply Z.pow_le_mono_r; lia).
    destruct (IH (k + 1) (w * 16 + hex_val c) l Hb Hh ltac:(lia) ltac:(lia) ltac:(lia)) as [E Hn].
    replace (k + Z.succ (Z.of_nat (length f))) with (k + 1 + Z.of_nat (length f)) by lia.
    split; [|exact Hn]. change (numeral 16 hex_val w (c :: f)) with (numeral 16 hex_val (w * 16 + hex_val c) f).
    rewrite <- E. cbn [app inet6_loop]. rewrite (decide_False (P := c = ":")) by apply Hcol.
    rewrite (decide_False (P := c = "." /\ _)) by (intros [? _]; by apply (proj2 Hcol)).
    cbn [with_word i_nibbles i_word i_mem i_a i_zero i_digit i_len4 i_n].
    rewrite (decide_False (P := k + 1 > 4)) by lia.
    assert (Hu : forall x, x = w * 16 + hex_val c -> u64 x = w * 16 + hex_val c).
    { intros x ->. apply u64_small. lia. }
    case_decide as Hd; [destruct (Hdig Hd) as [_ Ev]; by rewrite Hu by lia|].
    destruct (Hlet Hd) as [Hin Hout]. case_decide as Hl.
    + destruct (Hin Hl) as [_ Ev]. by rewrite Hu by lia.
    + rewrite Hout in Hx; done.
Qed.

Lemma bad_char s c k w l : is_byte c -> is_hex c = false -> c <> ":" -> c <> "." \/ k = 0 -> 
  inet6_loop (c :: l) (with_word s k w) = Fail.
Proof.
  intros Hc Hx Hcol Hdot. cbn [inet6_loop]. rewrite decide_False by done.
  cbn [with_word i_nibbles i_word i_mem i_a i_zero i_digit i_len4 i_n].
  rewrite decide_False by (intros [? ?]; destruct Hdot; done).
  destruct (hex_char_spec c Hc) as (Hdig & Hlet & _). case_decide; [done|].
  case_decide as Hd; [by rewrite (proj1 (Hdig Hd)) in Hx|]. case_decide as Hl; [|done].
  destruct (Hlet Hd) as [Hin _]. by rewrite (proj1 (Hin Hl)) in Hx.
Qed.

Lemma fifth_digit s c w l : is_hex c = true -> inet6_loop (c :: l) (with_word s 4 w) = Fail.
Proof.
  intros Hx. cbn [inet6_loop]. rewrite decide_False by (intros ->; done).
  rewrite decide_False by (intros [-> _]; done). by rewrite decide_True by (cbn; lia).
Qed.

(** ** The memory of the result *)

Lemma put_app b l1 x l2 : put (length l1) b (l1 ++ x :: l2) = Ret (l1 ++ b :: l2).
Proof.
  unfold put. rewrite decide_True by (rewrite length_app; cbn; lia).
  rewrite insert_app_r_alt by lia. by rewrite Nat.sub_diag.
Qed.

Lemma move_up_ok B : forall A R T, R <> [] -> exists X, length X = length R /\
  move_up (length B) (length A + length B - 1) (length A + length B - 1 + length R) (A ++ B ++ R ++ T) =
  Ret (A ++ X ++ B ++ T).
Proof.
  induction B as [|b B IH] using rev_ind; intros A R T HR.
  - exists R. by split.
  - destruct R as [|r R _] using rev_ind.
    + done.
    + destruct (IH A (b :: R) (b :: T) ltac:(done)) as (X & HX & E). exists X.
      rewrite !length_app in *. cbn [length] in *. split; [lia|].
      replace (length B + 1)%nat with (S (length B)) by lia. cbn [move_up].
      rewrite <- !app_assoc. cbn [app].
      assert (El : (A ++ B ++ b :: R ++ r :: T) !! (length A + S (length B) - 1)%nat = Some b).
      { rewrite !lookup_app_r by lia. by replace (_ - _ - _)%nat with 0%nat by lia. }
      rewrite El. cbn [mbind cres_bind].
      replace (length A + S (length B) - 1 + (length R + 1))%nat with (length (A ++ B ++ b :: R))
        by (rewrite !length_app; cbn; lia).
      assert (Ep : put (length (A ++ B ++ b :: R)) b (A ++ B ++ b :: R ++ r :: T) = Ret (A ++ B ++ (b :: R) ++ b :: T)).
      { replace (A ++ B ++ b :: R ++ r :: T) with ((A ++ B ++ b :: R) ++ r :: T) by (by rewrite <- !app_assoc).
        rewrite put_app. by rewrite <- !app_assoc. }
      rewrite Ep. cbn [mbind cres_bind].
      replace (length A + S (length B) - 1 - 1)%nat with (length A + length B - 1)%nat by lia.
      destruct B as [|b' B']; [exact E|].
      replace (length (A ++ (b' :: B') ++ b :: R) - 1)%nat with (length A + length (b' :: B') - 1 + S (length R))%nat
        by (rewrite !length_app; cbn; lia).
      exact E.
Qed.

Lemma memzero_ok X : forall A T, memzero (length X) (length A) (A ++ X ++ T) = Ret (A ++ repeat 0 (length X) ++ T).
Proof.
  induction X as [|x X IH]; intros A T; [done|]. cbn [length memzero app repeat].
  rewrite put_app. cbn [mbind cres_bind]. specialize (IH (A ++ [0]) T). rewrite length_app in IH.
  cbn [length] in IH. rewrite <- !app_assoc in IH. cbn [app] in IH.
  by replace (S (length A)) with (length A + 1)%nat by lia.
Qed.

Definition bytes_of_words (ws : list Z) : list Z := ws ≫= word_bytes.

Lemma bytes_of_words_app a b : bytes_of_words (a ++ b) = bytes_of_words a ++ bytes_of_words b.
Proof. apply bind_app. Qed.

Lemma length_bytes_of_words ws : length (bytes_of_words ws) = (2 * length ws)%nat.
Proof.
  induction ws as [|w ws IH]; [done|]. change (w :: ws) with ([w] ++ ws).
  rewrite bytes_of_words_app, !length_app, IH. cbn. lia.
Qed.

Lemma bytes_of_zeros n : bytes_of_words (repeat 0 n) = repeat 0 (2 * n).
Proof.
  induction n as [|n IH]; [done|]. change (repeat 0 (S n)) with ([0] ++ repeat 0 n).
  rewrite bytes_of_words_app, IH. by replace (2 * S n)%nat with (S (S (2 * n))) by lia.
Qed.

(** The state with the words [ws] in memory and a gap at [z]; [p] is the text at
    the start of a piece, and [colon] says that there is one before it. *)
Definition rep (ws : list Z) (z : option nat) (colon : bool) (p : list Z) (s : in6_state) : Prop :=
  (length ws < 8)%nat /\ (match z with Some k => (k <= length ws)%nat | None => True end) /\
  (exists rest, i_mem s = bytes_of_words ws ++ rest /\ length rest = (16 - 2 * length ws)%nat) /\
  i_a s = (2 * length ws)%nat /\ i_zero s = (fun k => 2 * k)%nat <$> z /\
  i_n s = 8 - Z.of_nat (length ws) /\
  (if colon then i_digit s = Some p /\ i_len4 s = S (length p) else i_digit s = None).

(** A word is written. *)
Lemma put_word_ok ws z colon p s hi lo : rep ws z colon p s -> is_byte hi -> is_byte lo -> exists s' rest,
  put_word hi lo s = Ret s' /\ s' = In6 (bytes_of_words (ws ++ [hi * 2 ^ 8 + lo]) ++ rest) (2 * length (ws ++ [0]))
    (i_zero s) (i_digit s) (i_len4 s) (i_n s) (i_nibbles s) (i_word s) /\
  length rest = (16 - 2 * length (ws ++ [0%Z]))%nat.
Proof.
  intros (Hl & _ & (rest & Hm & Hr) & Ha & _) Hhi Hlo. unfold put_word. rewrite Hm, Ha.
  destruct rest as [|x [|y rest]]; [cbn in Hr; lia|cbn in Hr; lia|].
  rewrite <- (length_bytes_of_words ws), put_app. cbn [mbind cres_bind].
  replace (bytes_of_words ws ++ hi :: y :: rest) with ((bytes_of_words ws ++ [hi]) ++ y :: rest)
    by (by rewrite <- app_assoc).
  replace (S (length (bytes_of_words ws))) with (length (bytes_of_words ws ++ [hi])) by (rewrite length_app; cbn; lia).
  rewrite put_app. cbn [mbind cres_bind]. eexists _, rest. split; [reflexivity|].
  rewrite !length_app, length_bytes_of_words, bytes_of_words_app. cbn [length] in Hr |- *.
  replace (bytes_of_words [hi * 2 ^ 8 + lo]) with [hi; lo].
  - rewrite <- !app_assoc. split; [f_equal; lia|lia].
  - unfold is_byte in *. cbn. f_equal; [|f_equal]; dlia.
Qed.

Lemma word_split w : u8 (Z.shiftr w 8) * 2 ^ 8 + u8 (Z.land w 0xff) = w mod 2 ^ 16.
Proof.
  unfold u8. rewrite Z.shiftr_div_pow2, (land_ones_mod w 0xff 8) by (done || lia). dlia.
Qed.

(** The end of the function. *)
Lemma inet6_end_ok ws z colon p s k w : rep ws z colon p s ->
  inet6_end (with_word s k w) =
  if decide (k = 0 /\ z = None) then Fail
  else match in6_finish (ws ++ [w mod 2 ^ 16]) z true with
       | Some l => Ret (bytes_of_words l)
       | None => Fail
       end.
Proof.
  intros Hs. unfold inet6_end. cbn [with_word i_nibbles i_zero i_word].
  pose proof Hs as (Hl & Hz & _ & _ & Ez & En & _). rewrite Ez.
  destruct (decide (k = 0 /\ z = None)) as [[-> ->]|Hkz]; [done|].
  rewrite decide_False by (intros [? E]; apply Hkz; by destruct z).
  assert (Hs' : rep ws z colon p (with_word s k w)) by exact Hs.
  destruct (put_word_ok _ _ _ _ _ (u8 (Z.shiftr w 8)) (u8 (Z.land w 0xff)) Hs' (u8_byte _) (u8_byte _))
    as (s' & rest & -> & -> & Hrest).
  cbn [mbind cres_bind i_n i_zero i_a i_mem with_word]. rewrite word_split, Ez, En.
  rewrite u64_small by lia. rewrite length_app in *. cbn [length] in *.
  set (ws' := ws ++ [w mod 2 ^ 16]) in *.
  assert (Hws' : length ws' = (length ws + 1)%nat) by (subst ws'; by rewrite length_app).
  destruct z as [z|]; cbn [fmap option_fmap option_map in6_finish].
  - case_decide as Hn.
    + rewrite decide_True by lia.
      assert (Hcut : bytes_of_words ws' = bytes_of_words (take z ws') ++ bytes_of_words (drop z ws')).
      { rewrite <- bytes_of_words_app. by rewrite take_drop. }
      rewrite Hcut, <- app_assoc.
      assert (HA : length (bytes_of_words (take z ws')) = (2 * z)%nat).
      { rewrite length_bytes_of_words, length_take. lia. }
      assert (HB : length (bytes_of_words (drop z ws')) = (2 * (length ws + 1) - 2 * z)%nat).
      { rewrite length_bytes_of_words, length_drop. lia. }
      destruct (move_up_ok (bytes_of_words (drop z ws')) (bytes_of_words (take z ws')) rest [])
        as (X & HX & E).
      { intros ->. cbn in Hrest. lia. }
      rewrite !app_nil_r, HA, HB in E.
      replace (2 * z + (2 * (length ws + 1) - 2 * z) - 1)%nat with (2 * (length ws + 1) - 1)%nat in E by lia.
      replace (Z.to_nat ((8 - Z.of_nat (length ws) - 1) * 2)) with (length rest) by lia.
      rewrite E. cbn [mbind cres_bind]. rewrite <- HX, <- HA, memzero_ok.
      rewrite !bytes_of_words_app, bytes_of_zeros, HX, Hrest, Hws'. do 4 f_equal. lia.
    + by rewrite decide_False by lia.
  - case_decide as Hn.
    + by rewrite decide_False by (intros [_ ?]; lia).
    + rewrite decide_True by (split; [done|lia]). destruct rest; [by rewrite app_nil_r|cbn in Hrest; lia].
Qed.

(** ** A piece *)

(** The hexadecimal digits at the start of a piece, at most four. *)
Lemma piece_cases f : bytes f -> ":" ∉ f ->
  (forallb is_hex f = true /\ (length f <= 4)%nat) \/
  exists g c r, f = g ++ c :: r /\ forallb is_hex g = true /\
    ((is_hex c = false /\ (length g <= 4)%nat) \/ (is_hex c = true /\ length g = 4%nat)).
Proof.
  intros Hb _. assert (Hn : forall n, (forallb is_hex f = true /\ (length f <= n)%nat) \/
    exists g c r, f = g ++ c :: r /\ forallb is_hex g = true /\
    ((is_hex c = false /\ (length g <= n)%nat) \/ (is_hex c = true /\ length g = n))); [|apply Hn].
  clear Hb. induction f as [|c f IH]; intros n; [left; cbn; split; [done|lia]|].
  destruct (is_hex c) eqn:Hc.
  - destruct n as [|n]; [right; exists [], c, f; auto|].
    destruct (IH n) as [[Hf Hl]|(g & d & r & -> & Hg & Hd)].
    + left. cbn. rewrite Hc, Hf. split; [done|lia].
    + right. exists (c :: g), d, r. split; [done|]. cbn [forallb length]. rewrite Hc, Hg. split; [done|].
      destruct Hd as [[Hd Hl]|[Hd Hl]]; [left|right]; split; (done || lia).
  - right. exists [], c, f. split; [done|]. split; [done|]. left. split; [done|cbn; lia].
Qed.

Lemma group_hex f : forallb is_hex f = true -> (1 <= length f <= 4)%nat -> group f = Some (hex_value f).
Proof. intros Hx Hl. unfold group. by rewrite bool_decide_true, Hx by lia. Qed.

Lemma group_none g c r : (is_hex c = false \/ length g = 4%nat) -> group (g ++ c :: r) = None.
Proof.
  intros H. unfold group. rewrite length_app, forallb_app. cbn [forallb length].
  destruct H as [->|Hl]; [by rewrite andb_false_l, !andb_false_r|].
  by rewrite bool_decide_false by lia.
Qed.

(** A character that is neither a digit nor a dot. *)
Lemma inet_addr_bad c text : c ∈ text -> is_digit c = false -> c <> "." -> ngx_inet_addr text = INADDR_NONE.
Proof.
  intros Hc Hd Hp. unfold ngx_inet_addr. generalize 0 at 2 as addr. intros addr. generalize 0 at 2 as n. intros n.
  generalize 0 as o. intros o. revert addr o n.
  induction text as [|b text IH]; intros addr o n; [by apply not_elem_of_nil in Hc|].
  apply elem_of_cons in Hc as [->|Hc]; cbn [inet_addr_loop].
  - apply is_digit_false in Hd. rewrite decide_False by lia. by rewrite decide_False.
  - case_decide; [case_decide; [done|by apply IH]|]. case_decide; [by apply IH|done].
Qed.

Lemma hex_no_sep sep g : forallb is_hex g = true -> is_hex sep = false -> sep ∉ g.
Proof.
  intros Hg Hs Hin. rewrite forallb_forall in Hg. apply list_elem_of_In in Hin. apply Hg in Hin. congruence.
Qed.

Lemma split_hex sep g r : forallb is_hex g = true -> is_hex sep = false ->
  split sep (g ++ sep :: r) = g :: split sep r.
Proof.
  intros Hg Hs. apply split_app. by apply hex_no_sep.
Qed.

Lemma v4_group_dot g r : forallb is_hex g = true -> (1 <= length g <= 4)%nat ->
  v4_group (g ++ "." :: r) =
  (let f := g ++ "." :: r in
   if decide (ngx_inet_addr f <> INADDR_NONE) then
     Some [ntohl (ngx_inet_addr f) / 2 ^ 16; ntohl (ngx_inet_addr f) mod 2 ^ 16] else None).
Proof.
  intros Hg Hl. unfold v4_group. rewrite split_hex by done.
  destruct (split "." r) as [|h fs] eqn:E; [by apply split_ne in E|]. cbv zeta.
  case_decide as H1; case_decide as H2; [done|by destruct H1|by destruct H1; split; [lia|]|done].
Qed.

(** Pieces that are neither. *)
Lemma v4_group_bad g c r : bytes (g ++ c :: r) -> forallb is_hex g = true ->
  (is_hex c = false /\ c <> ".") \/ (is_hex c = true /\ length g = 4%nat) \/ (c = "." /\ g = []) ->
  v4_group (g ++ c :: r) = None.
Proof.
  intros Hb Hg Hc. unfold v4_group. destruct Hc as [[Hx Hp]|[[Hx Hl]|[-> ->]]].
  - assert (Hd : is_digit c = false).
    { unfold is_hex in Hx. by destruct (is_digit c). }
    assert (Ha : ngx_inet_addr (g ++ c :: r) = INADDR_NONE).
    { apply (inet_addr_bad c); [|done|done]. apply elem_of_app. right. apply list_elem_of_here. }
    destruct (split "." (g ++ c :: r)) as [|h [|h2 fs]]; [done|done|].
    by rewrite decide_False by (intros [_ ?]; done).
  - replace (g ++ c :: r) with ((g ++ [c]) ++ r) by (by rewrite <- app_assoc).
    rewrite split_prefix.
    + destruct (split "." r) as [|h [|h2 fs]]; [done|done|]. rewrite decide_False; [done|].
      intros [Hlen _]. rewrite !length_app in Hlen. cbn [length] in Hlen. lia.
    + apply hex_no_sep; [|done]. by rewrite forallb_app, Hg; cbn; rewrite Hx.
  - cbn [app split]. rewrite decide_True by done. destruct (split "." r); [done|].
    by rewrite decide_False by (cbn; lia).
Qed.

Lemma high_word a : 0 <= a < 2 ^ 32 ->
  u8 (Z.land (Z.shiftr a 24) 0xff) * 2 ^ 8 + u8 (Z.land (Z.shiftr a 16) 0xff) = a / 2 ^ 16.
Proof.
  intros H. unfold u8. rewrite !(land_ones_mod _ 0xff 8) by (done || lia). rewrite !Z.shiftr_div_pow2 by lia. dlia.
Qed.

(** A dot after digits: the rest of the text is an IPv4 address. *)
Lemma dot_ok ws z colon g r l s : forallb is_hex g = true -> (length g <= 4)%nat -> g <> [] ->
  l = [] \/ head l = Some (":" : Z) -> rep ws z colon ((g ++ "." :: r) ++ l) s ->
  (s ← inet6_loop ("." :: r ++ l) (with_word s (Z.of_nat (length g)) (numeral 16 hex_val 0 g)); inet6_end s) =
  match l, v4_group (g ++ "." :: r) with
  | [], Some ws' =>
      if colon then
        match in6_finish (ws ++ ws') z true with Some l => Ret (bytes_of_words l) | None => Fail end
      else Fail
  | _, _ => Fail
  end.
Proof.
  intros Hg Hlen Hne Hl Hs. assert (Hg1 : (1 <= length g)%nat) by (destruct g; [done|cbn; lia]).
  rewrite v4_group_dot by (done || lia). cbv zeta. cbn [inet6_loop].
  rewrite (decide_False (P := "." = ":")) by done. cbn [with_word i_nibbles i_digit i_n i_len4].
  rewrite (decide_True (P := "." = "." /\ _)) by (split; [done|lia]).
  pose proof Hs as (Hw & Hz & _ & _ & _ & En & Hdig).
  destruct colon; [destruct Hdig as [Ed E4]|rewrite Hdig; destruct l; [by case_decide|done]].
  rewrite Ed, E4. cbn [Nat.sub]. rewrite Nat.sub_0_r, firstn_all.
  destruct l as [|c l].
  - rewrite app_nil_r in *. set (f := g ++ "." :: r) in *.
    destruct (decide (ngx_inet_addr f = INADDR_NONE)) as [Ha|Ha].
    + rewrite (decide_False (P := _ <> _)) by (by intros []). by case_decide.
    + rewrite (decide_True (P := _ <> _)) by done. set (a := ntohl (ngx_inet_addr f)) in *.
      assert (Har : 0 <= a < 2 ^ 32) by apply htonl_range.
      case_decide as Hn.
      * destruct z as [z|]; cbn [in6_finish]; rewrite decide_False; try done;
          rewrite length_app; cbn [length]; (lia || (intros [_ ?]; lia)).
      * destruct (put_word_ok ws z true f (with_word s (Z.of_nat (length g)) (numeral 16 hex_val 0 g))
          (u8 (Z.land (Z.shiftr a 24) 0xff)) (u8 (Z.land (Z.shiftr a 16) 0xff)) Hs (u8_byte _) (u8_byte _))
          as (s' & rest & -> & -> & Hrest).
        cbn [mbind cres_bind i_mem i_a i_zero i_digit i_len4 i_n i_nibbles with_word].
        rewrite high_word in * by done. rewrite length_app in Hrest. cbn [length] in Hrest.
        set (k := Z.of_nat (length g)).
        match goal with |- inet6_end (In6 ?m ?a ?z ?d ?l4 ?n ?k ?w) = _ => set (s2 := In6 m a z d l4 n 0 0) end.
        assert (Hs2 : rep (ws ++ [a / 2 ^ 16]) z true f s2).
        { pose proof Hs as (_ & _ & _ & _ & Ez & _). unfold rep, s2. cbn [i_mem i_a i_zero i_digit i_len4 i_n].
          rewrite !length_app. cbn [length]. rewrite En, u64_small by lia.
          split; [lia|]. split; [destruct z; [lia|done]|]. split; [by exists rest|]. split; [done|]. split; [done|].
          split; [lia|done]. }
        pose proof (inet6_end_ok _ _ _ _ _ k a Hs2) as E. unfold with_word, s2 in E.
        cbn [i_mem i_a i_zero i_digit i_len4 i_n] in E. rewrite E.
        rewrite decide_False by (intros [? _]; lia). by rewrite <- app_assoc.
  - assert (Hin : ngx_inet_addr ((g ++ "." :: r) ++ c :: l) = INADDR_NONE).
    { destruct Hl as [|[= ->]]; [done|]. apply (inet_addr_bad ":"); [|done|done].
      apply elem_of_app. right. apply list_elem_of_here. }
    rewrite Hin. rewrite (decide_True (P := INADDR_NONE = INADDR_NONE)) by done. by case_decide.
Qed.

(** The loop on a piece that ends the text or is before a colon. *)
Lemma part_ok ws z colon f l s : bytes f -> ":" ∉ f -> l = [] \/ head l = Some (":" : Z) ->
  rep ws z colon (f ++ l) s ->
  match group f with
  | Some w => exists k, 1 <= k <= 4 /\ 0 <= w < 2 ^ 16 /\
      inet6_loop (f ++ l) (with_word s 0 0) = inet6_loop l (with_word s k w)
  | None =>
      f = [] \/
      (s ← inet6_loop (f ++ l) (with_word s 0 0); inet6_end s) =
      match l, v4_group f with
      | [], Some ws' =>
          if colon then
            match in6_finish (ws ++ ws') z true with Some l => Ret (bytes_of_words l) | None => Fail end
          else Fail
      | _, _ => Fail
      end
  end.
Proof.
  intros Hb Hcol Hl Hs. destruct (piece_cases f Hb Hcol) as [[Hx Hlen]|(g & c & r & -> & Hg & Hc)].
  - destruct f as [|b f0]; [by left|]. set (f := b :: f0) in *.
    assert (Hlen' : (1 <= length f <= 4)%nat) by (subst f; cbn in *; lia).
    rewrite group_hex by done.
    destruct (hexdig_run s f 0 0 l Hb Hx ltac:(lia) ltac:(lia) ltac:(lia)) as [E Hw].
    exists (0 + Z.of_nat (length f)). split; [lia|]. split; [|exact E].
    assert (16 ^ (0 + Z.of_nat (length f)) <= 16 ^ 4) by (apply Z.pow_le_mono_r; lia). 
    unfold hex_value. lia.
  - rewrite group_none by tauto. right.
    assert (Hb' : bytes g /\ is_byte c).
    { apply List.Forall_app in Hb as [Hb1 Hb2]. split; [done|]. by apply List.Forall_inv in Hb2. }
    assert (Hlg : (length g <= 4)%nat) by (destruct Hc as [[_ ?]|[_ ?]]; lia).
    destruct (hexdig_run s g 0 0 (c :: r ++ l) (proj1 Hb') Hg ltac:(lia) ltac:(lia) ltac:(lia)) as [E Hw].
    rewrite <- app_assoc. cbn [app]. rewrite E. rewrite Z.add_0_l in *.
    assert (Hcc : c <> ":").
    { intros ->. apply Hcol, elem_of_app. right. apply list_elem_of_here. }
    assert (Hnone : v4_group (g ++ c :: r) = None ->
      inet6_loop (c :: r ++ l) (with_word s (Z.of_nat (length g)) (numeral 16 hex_val 0 g)) = Fail ->
      (s ← inet6_loop (c :: r ++ l) (with_word s (Z.of_nat (length g)) (numeral 16 hex_val 0 g)); inet6_end s) =
      match l, v4_group (g ++ c :: r) with
      | [], Some ws' => if colon then
            match in6_finish (ws ++ ws') z true with Some l => Ret (bytes_of_words l) | None => Fail end
          else Fail
      | _, _ => Fail
      end).
    { intros -> ->. by destruct l. }
    destruct Hc as [[Hx _]|[Hx Hg4]].
    + destruct (decide (c = "." /\ g <> [])) as [[-> Hne]|Hdot].
      * by apply (dot_ok ws z colon g r l s).
      * destruct (decide (c = ".")) as [->|Hd].
        -- destruct g; [|by destruct Hdot]. apply Hnone; [by apply v4_group_bad; auto|].
           apply bad_char; [apply Hb'|done|done|by right].
        -- apply Hnone; [by apply v4_group_bad; auto|]. apply bad_char; [apply Hb'|done|done|by left].
    + apply Hnone; [apply v4_group_bad; auto|]. rewrite Hg4. by apply fifth_digit.
Qed.

(** ** The whole text *)

Lemma run_full fs colon : fs <> [] -> forall ws z, (8 <= length ws)%nat -> in6_run ws z colon fs = None.
Proof.
  assert (Hfin : forall ws l z closed, (8 <= length ws)%nat -> l <> [] -> in6_finish (ws ++ l) z closed = None).
  { intros ws l z closed Hw Hl. destruct l as [|x l]; [done|]. unfold in6_finish.
    destruct z; rewrite decide_False; try done; rewrite length_app; cbn [length]; (lia || (intros [_ ?]; lia)). }
  revert fs colon. refine (pieces_ind _ _ _ _ _).
  - intros colon ws z Hw. by apply Hfin.
  - intros colon f Hf ws z Hw. rewrite run_last_eq by done. destruct (group f); [by apply Hfin|].
    destruct colon; [|done]. unfold v4_group. destruct (split "." f) as [|h [|h2 fs]]; [done|done|].
    case_decide; [|done]. cbn [mbind option_bind]. by apply Hfin.
  - intros colon fs Hfs IH ws z Hw. rewrite run_gap_eq by done. destruct z; [done|]. by apply IH.
  - intros colon f fs Hf Hfs IH ws z Hw. rewrite run_group_eq by done. destruct (group f); [|done].
    apply IH. rewrite length_app. lia.
Qed.

Definition outcome (r : option (list Z)) : cres (list Z) :=
  match r with Some ws => Ret (bytes_of_words ws) | None => Fail end.

Lemma last_piece_ok ws z colon f s : bytes f -> ":" ∉ f -> rep ws z colon f s ->
  (s ← inet6_loop f (with_word s 0 0); inet6_end s) = outcome (in6_run ws z colon [f]).
Proof.
  intros Hb Hcol Hs. destruct (decide (f = [])) as [->|Hne].
  - cbn [inet6_loop mbind cres_bind in6_run]. rewrite (inet6_end_ok _ _ _ _ _ 0 0 Hs).
    destruct z as [z|]; [by rewrite decide_False by (intros [_ ?]; done)|].
    rewrite decide_True by done. cbn [in6_finish]. by rewrite decide_False by (intros [? _]; done).
  - pose proof (part_ok ws z colon f [] s Hb Hcol (or_introl eq_refl)) as Hp. rewrite app_nil_r in Hp.
    specialize (Hp Hs). rewrite run_last_eq by done. destruct (group f) as [w|].
    + destruct Hp as (k & Hk & Hw & ->). cbn [inet6_loop mbind cres_bind].
      rewrite (inet6_end_ok _ _ _ _ _ k w Hs), decide_False by (intros [? _]; lia).
      by rewrite Z.mod_small by done.
    + destruct Hp as [Hp| ->]; [done|]. destruct (v4_group f); [|by destruct colon]. by destruct colon.
Qed.

Lemma pieces_ok n : forall p ws z colon s, (length p <= n)%nat -> bytes p -> rep ws z colon p s ->
  (s ← inet6_loop p (with_word s 0 0); inet6_end s) = outcome (in6_run ws z colon (split ":" p)).
Proof.
  induction n as [|n IH]; intros p ws z colon s Hn Hb Hs;
    (destruct (decide (":" ∈ p)) as [Hin|Hin]; [|rewrite split_last by done; by apply last_piece_ok]).
  { destruct p; [by apply not_elem_of_nil in Hin|cbn in Hn; lia]. }
  apply list_elem_of_split_l in Hin as (f & p' & -> & Hf). rewrite split_app by done.
  rewrite length_app in Hn. cbn [length] in Hn.
  apply List.Forall_app in Hb as [Hbf Hb]. apply List.Forall_cons_iff in Hb as [_ Hb].
  pose proof Hs as (Hw & Hz & Hmem & Ha & Ez & En & Hdig).
  destruct (decide (f = [])) as [->|Hne].
  - rewrite run_gap_eq by apply split_ne. cbn [app inet6_loop]. rewrite decide_True by done.
    cbn [with_word i_nibbles i_zero i_mem i_a i_n i_word]. rewrite decide_False by (by intros []).
    rewrite Ez. destruct z as [z|]; cbn [fmap option_fmap option_map]; [done|].
    apply (IH p' ws (Some (length ws)) true (In6 (i_mem s) (i_a s) (Some (i_a s)) (Some p') (S (length p')) (i_n s) 0 0));
      [lia|done|].
    unfold rep. cbn [i_mem i_a i_zero i_digit i_len4 i_n]. split; [done|]. split; [lia|]. split; [done|].
    split; [done|]. split; [by rewrite Ha|]. by split.
  - rewrite run_group_eq by (done || apply split_ne).
    pose proof (part_ok ws z colon f (":" :: p') s Hbf Hf (or_intror eq_refl) Hs) as Hp.
    destruct (group f) as [w|]; [|destruct Hp as [Hp| ->]; [done|by destruct (v4_group f)]].
    destruct Hp as (k & Hk & Hwr & ->). cbn [inet6_loop]. rewrite (decide_True (P := ":" = ":")) by done.
    cbn [with_word i_nibbles i_word]. rewrite (decide_True (P := k <> 0)) by lia.
    destruct (put_word_ok ws z colon _ (with_word s k w) (u8 (Z.shiftr w 8)) (u8 (Z.land w 0xff)) Hs
      (u8_byte _) (u8_byte _)) as (s' & rest & -> & -> & Hrest).
    cbn [mbind cres_bind option_bind i_n i_mem i_a i_zero with_word]. rewrite word_split, Z.mod_small by done.
    rewrite En, u64_small by lia. rewrite length_app in Hrest. cbn [length] in Hrest. case_decide as Hn0.
    + match goal with |- context [inet6_loop p' ?s2] =>
        apply (IH p' (ws ++ [w]) z true s2); [lia|done|] end.
      unfold rep. cbn [i_mem i_a i_zero i_digit i_len4 i_n]. rewrite !length_app. cbn [length].
      split; [lia|]. split; [destruct z; [lia|done]|]. split; [by exists rest|]. split; [done|].
      split; [done|]. split; [lia|done].
    + rewrite run_full; [done|apply split_ne|]. rewrite length_app. cbn. lia.
Qed.

Lemma inet6_addr_eq text addr : bytes text -> length addr = 16%nat ->
  ngx_inet6_addr text addr = match in6_reference text with Some a => Ret a | None => Fail end.
Proof.
  intros Hb Ha. rewrite run_reference. unfold ngx_inet6_addr.
  destruct text as [|c text]; [done|]. cbn [length]. rewrite (decide_False (P := S _ = 0%nat)) by done.
  set (p := if decide _ then _ else _).
  assert (Hp : bytes p) by (apply List.Forall_cons_iff in Hb as Hb'; subst p; case_decide; [apply Hb'|done]).
  pose proof (pieces_ok (length p) p [] None false (In6 addr 0 None None 0 8 0 0) ltac:(lia) Hp) as E.
  unfold with_word in E. cbn [i_mem i_a i_zero i_digit i_len4 i_n] in E. rewrite E.
  - unfold outcome, bytes_of_words. by destruct (in6_run _ _ _ _).
  - unfold rep. cbn [i_mem i_a i_zero i_digit i_len4 i_n]. split; [cbn; lia|]. split; [done|].
    split; [by exists addr|]. done.
Qed.

(** C29: [ngx_inet6_addr] accepts exactly the texts of the reference: groups of one
    to four hexadecimal digits between colons, at most one gap of zeros, an IPv4
    address for the last two words; it fills the 16 bytes with the words and the
    zeros of the gap, and never writes outside of them. *)
Theorem inet6_addr_exact text addr : bytes text -> length addr = 16%nat ->
  ngx_inet6_addr text addr = match in6_reference text with Some a => Ret a | None => Fail end.
Proof. apply inet6_addr_eq. Qed.

Lemma inet6_addr_exact_witness :
  let text := bstr "64:ff9b::192.0.2.33" in
  (bytes text /\ length (repeat 9 16) = 16%nat) /\
  ngx_inet6_addr text (repeat 9 16) = Ret [0; 0x64; 0xff; 0x9b; 0; 0; 0; 0; 0; 0; 0; 0; 192; 0; 2; 33].
Proof.
  cbv zeta. assert (Hb : bytes (bstr "64:ff9b::192.0.2.33")) by by_decide. split; [by split|].
  rewrite (inet6_addr_exact (bstr "64:ff9b::192.0.2.33") (repeat 9 16) Hb eq_refl). by vm_compute.
Defined.

Definition good_sockaddr (sa : sockaddr) : Prop :=
  match sa with
  | sockaddr_in port a => 0 <= port < 2 ^ 16 /\ 0 <= a < 2 ^ 32
  | sockaddr_in6 port p => 0 <= port < 2 ^ 16 /\ bytes p /\ length p = 16%nat
  | sockaddr_un path => length path = 108%nat
  end.

Lemma htons_range x : 0 <= htons x < 2 ^ 16.
Proof. unfold htons. dlia. Qed.

(** ** Printed numbers *)

Definition hexw (w : Z) : list Z := num_digits 20 16 w lower_hex [].
Definition decw (w : Z) : list Z := num_digits 20 10 w lower_hex [].

Lemma hexw_ok w : 0 <= w < 2 ^ 16 ->
  group (hexw w) = Some w /\ forallb is_hex (hexw w) = true /\ (1 <= length (hexw w) <= 4)%nat.
Proof.
  intros Hw. destruct (num_digits_spec 16 lower_hex hex_val (fun c => is_hex c && bool_decide (is_byte c))
    ltac:(lia) (hex_digit_ok false) 20 w) as (Ev & Eg & Hne & _ & Hlo).
  { change (16 ^ Z.of_nat 20) with (2 ^ 80). lia. } { lia. }
  fold (hexw w) in *.
  assert (Hx : forallb is_hex (hexw w) = true).
  { apply forallb_forall. intros c Hc. rewrite forallb_forall in Eg. apply Eg in Hc. by apply andb_prop in Hc as [? _]. }
  assert (Hl : (1 <= length (hexw w) <= 4)%nat).
  { split; [destruct (hexw w); [done|cbn; lia]|]. destruct (decide (w = 0)) as [->|]; [vm_compute; lia|].
    specialize (Hlo ltac:(lia)). destruct (Nat.le_gt_cases (length (hexw w)) 4) as [|Hgt]; [done|].
    assert (16 ^ 4 <= 16 ^ (Z.of_nat (length (hexw w)) - 1)) by (apply Z.pow_le_mono_r; lia). lia. }
  split; [|done]. rewrite group_hex by done. unfold hex_value. by rewrite Ev.
Qed.

Lemma decw_ok v : 0 <= v <= 255 ->
  octet_of (decw v) = Some v /\ forallb is_digit (decw v) = true /\ (1 <= length (decw v) <= 3)%nat.
Proof.
  intros Hv. assert (Hb : is_byte v) by (unfold is_byte; lia). clear Hv. byte_sweep v Hb.
Qed.

Lemma atoi_decw v : 0 <= v < 2 ^ 16 -> ngx_atoi (decw v) = v /\ (length (decw v) <= 5)%nat /\ forallb is_digit (decw v) = true.
Proof.
  intros Hv. destruct (num_digits_spec 10 lower_hex (fun c => c - "0") is_digit ltac:(lia) dec_digit_ok 20 v)
    as (Ev & Eg & Hne & _ & Hlo); [|lia|].
  { change (10 ^ Z.of_nat 20) with 100000000000000000000. lia. }
  fold (decw v) in *. split; [|split; [|done]].
  - unfold ngx_atoi. rewrite atoi_max_spec by by_decide. unfold dec_value. rewrite bool_decide_false by done.
    rewrite Eg, Ev. cbn [negb andb]. by rewrite (proj2 (Z.leb_le _ _)) by (unfold NGX_MAX_INT_T_VALUE; lia).
  - destruct (decide (v = 0)) as [->|]; [by vm_compute; lia|]. specialize (Hlo ltac:(lia)).
    destruct (Nat.le_gt_cases (length (decw v)) 5) as [|Hgt]; [done|].
    assert (10 ^ 5 <= 10 ^ (Z.of_nat (length (decw v)) - 1)) by (apply Z.pow_le_mono_r; lia). lia.
Qed.

Lemma num_plain cap out v zero hex : ngx_sprintf_num cap out v zero hex 0 =
  safe_copy cap out (if decide (hex = 0) then decw v
    else if decide (hex = 1) then hexw v else num_digits 20 16 v upper_hex []).
Proof.
  unfold ngx_sprintf_num. set (p := if decide (hex = 0) then _ else _).
  replace (Z.to_nat (0 - Z.of_nat (length p))) with 0%nat by lia. done.
Qed.

Lemma sprintf_hex w : 0 <= w < 2 ^ 16 -> ngx_sprintf (bstr "%xd") [AInt w] = Some (hexw w).
Proof.
  intros Hw. unfold ngx_sprintf, ngx_vslprintf. change (length (bstr "%xd")) with 3%nat.
  cbv -[ngx_sprintf_num u32 u64 hexw].
  by rewrite num_plain, u32_small, u64_small by lia.
Qed.

Definition dotted (a b c d : Z) : list Z := decw a ++ "." :: decw b ++ "." :: decw c ++ "." :: decw d.

Lemma sprintf_dotted a b c d : is_byte a -> is_byte b -> is_byte c -> is_byte d ->
  ngx_sprintf (bstr "%ud.%ud.%ud.%ud") [AInt a; AInt b; AInt c; AInt d] = Some (dotted a b c d).
Proof.
  unfold is_byte. intros. unfold ngx_sprintf, ngx_vslprintf. change (length (bstr _)) with 15%nat.
  cbv -[ngx_sprintf_num u32 u64 dotted app].
  rewrite !num_plain, !u32_small, !u64_small by lia. unfold dotted. cbn [safe_copy app].
  by rewrite <- !app_assoc.
Qed.

Lemma split_dotted a b c d : is_byte a -> is_byte b -> is_byte c -> is_byte d ->
  split "." (dotted a b c d) = [decw a; decw b; decw c; decw d].
Proof.
  unfold is_byte. intros. assert (Hd : forall v, 0 <= v <= 255 -> "." ∉ decw v).
  { intros v Hv Hin. destruct (decw_ok v Hv) as (_ & Hg & _). rewrite forallb_forall in Hg.
    apply list_elem_of_In, Hg in Hin. done. }
  unfold dotted. rewrite !split_app by (apply Hd; lia). by rewrite split_last by (apply Hd; lia).
Qed.

Lemma inet_addr_dotted a b c d : is_byte a -> is_byte b -> is_byte c -> is_byte d ->
  ngx_inet_addr (dotted a b c d) = htonl (a * 2 ^ 24 + b * 2 ^ 16 + c * 2 ^ 8 + d).
Proof.
  intros. rewrite inet_addr_quads, split_dotted by done. cbn [map]. unfold is_byte in *.
  by rewrite !(fun v H => proj1 (decw_ok v H)) by lia.
Qed.

Lemma htonl_bytes a b c d : is_byte a -> is_byte b -> is_byte c -> is_byte d ->
  htonl (a * 2 ^ 24 + b * 2 ^ 16 + c * 2 ^ 8 + d) = d * 2 ^ 24 + c * 2 ^ 16 + b * 2 ^ 8 + a.
Proof.
  unfold is_byte. intros. unfold htonl. set (x := _ + d).
  assert (E1 : x mod 2 ^ 8 = d) by (subst x; dlia).
  assert (E2 : x / 2 ^ 8 mod 2 ^ 8 = c) by (subst x; dlia).
  assert (E3 : x / 2 ^ 16 mod 2 ^ 8 = b) by (subst x; dlia).
  assert (E4 : x / 2 ^ 24 mod 2 ^ 8 = a) by (subst x; dlia).
  by rewrite E1, E2, E3, E4.
Qed.

Lemma four_bytes x : 0 <= x < 2 ^ 32 -> exists a b c d,
  x = a * 2 ^ 24 + b * 2 ^ 16 + c * 2 ^ 8 + d /\ is_byte a /\ is_byte b /\ is_byte c /\ is_byte d.
Proof.
  intros Hx. exists (x / 2 ^ 24), (x / 2 ^ 16 mod 2 ^ 8), (x / 2 ^ 8 mod 2 ^ 8), (x mod 2 ^ 8).
  unfold is_byte. split; [dlia|]. split; [dlia|]. split; [dlia|]. split; dlia.
Qed.

Lemma ntohl_htonl x : 0 <= x < 2 ^ 32 -> ntohl (htonl x) = x.
Proof.
  intros Hx. destruct (four_bytes x Hx) as (a & b & c & d & -> & Ha & Hb & Hc & Hd).
  unfold ntohl. by rewrite !htonl_bytes.
Qed.

Lemma htonl_none x : 0 <= x < 2 ^ 32 -> htonl x = INADDR_NONE <-> x = 0xffffffff.
Proof.
  intros Hx. split; [|by intros ->]. intros E. apply (f_equal ntohl) in E. rewrite ntohl_htonl in E by done.
  rewrite E. by vm_compute.
Qed.


(** ** The printed IPv6 address *)

Definition is_word (w : Z) : Prop := 0 <= w < 2 ^ 16.

Lemma words_of_bytes p n : bytes p -> length p = (2 * n)%nat -> exists ws,
  p = bytes_of_words ws /\ length ws = n /\ Forall is_word ws.
Proof.
  revert p; induction n as [|n IH]; intros p Hb Hl.
  - destruct p; [by exists []|done].
  - destruct p as [|a [|b p]]; cbn in Hl; [lia|lia|].
    apply List.Forall_cons_iff in Hb as [Ha Hb]. apply List.Forall_cons_iff in Hb as [Hb Hp].
    destruct (IH p Hp ltac:(lia)) as (ws & -> & Hlen & Hws).
    exists (a * 2 ^ 8 + b :: ws). unfold is_byte, is_word in *. split; [|split; [cbn; lia|]].
    + change (a * 2 ^ 8 + b :: ws) with ([a * 2 ^ 8 + b] ++ ws). rewrite bytes_of_words_app.
      cbn. f_equal; [dlia|]. f_equal. dlia.
    + apply List.Forall_cons; [lia|done].
Qed.

Lemma lookup_words ws : forall j w, ws !! j = Some w ->
  bytes_of_words ws !! (2 * j)%nat = Some (w / 2 ^ 8) /\ bytes_of_words ws !! S (2 * j) = Some (w mod 2 ^ 8).
Proof.
  induction ws as [|x ws IH]; intros j w Hj; [done|].
  change (bytes_of_words (x :: ws)) with (x / 2 ^ 8 :: x mod 2 ^ 8 :: bytes_of_words ws).
  destruct j as [|j]; [by injection Hj as ->|].
  replace (2 * S j)%nat with (S (S (2 * j))) by lia. by apply IH.
Qed.

Lemma drop_words n : forall ws, drop (2 * n) (bytes_of_words ws) = bytes_of_words (drop n ws).
Proof.
  induction n as [|n IH]; intros ws; [done|]. replace (2 * S n)%nat with (S (S (2 * n))) by lia.
  destruct ws as [|w ws]; [done|]. apply IH.
Qed.

Lemma rd_words ws j w : ws !! j = Some w ->
  rd (bytes_of_words ws) (2 * Z.of_nat j) = Some (w / 2 ^ 8) /\
  rd (bytes_of_words ws) (2 * Z.of_nat j + 1) = Some (w mod 2 ^ 8).
Proof.
  intros Hj. destruct (lookup_words ws j w Hj) as [E0 E1]. unfold rd. rewrite !decide_True by lia.
  replace (Z.to_nat (2 * Z.of_nat j)) with (2 * j)%nat by lia.
  by replace (Z.to_nat (2 * Z.of_nat j + 1)) with (S (2 * j)) by lia.
Qed.

(** A run of zero words: none, or at least two from word [a] on. *)
Definition zero_run (ws : list Z) (zero max : Z) : Prop :=
  (zero = NONE64 /\ max = 1) \/
  exists a m, zero = 2 * Z.of_nat a /\ max = Z.of_nat m /\ (2 <= m)%nat /\ (a + m <= length ws)%nat /\
    take m (drop a ws) = repeat 0 m.

Lemma zero_run_app ws w zero max : zero_run ws zero max -> zero_run (ws ++ [w]) zero max.
Proof.
  intros [H|(a & m & E1 & E2 & Hm & Hl & Hr)]; [by left|right]. exists a, m.
  split; [done|]. split; [done|]. split; [done|]. rewrite length_app. split; [cbn; lia|].
  rewrite drop_app_le by lia. rewrite take_app_le by (rewrite length_drop; lia). done.
Qed.

(** The current run ends at the end of [ws]. *)
Definition last_run (ws : list Z) (last n : Z) : Prop :=
  0 <= n <= Z.of_nat (length ws) /\ drop (length ws - Z.to_nat n) ws = repeat 0 (Z.to_nat n) /\
  (n <> 0 -> last = 2 * (Z.of_nat (length ws) - n)).

Lemma run_of_last ws last n max zero : last_run ws last n -> zero_run ws zero max -> max < n ->
  zero_run ws last n.
Proof.
  intros (Hn & Hd & Hlast) Hz Hmax. right. exists (length ws - Z.to_nat n)%nat, (Z.to_nat n).
  assert (1 <= max) by (destruct Hz as [[_ ->]|(a & m & _ & -> & Hm & _)]; lia).
  split; [rewrite Hlast by lia; lia|]. split; [lia|]. split; [lia|]. split; [lia|].
  rewrite Hd. rewrite take_ge; [done|]. by rewrite repeat_length.
Qed.

Lemma last_run_zero ws last n : last_run ws last n ->
  last_run (ws ++ [0]) (if decide (n = 0) then 2 * Z.of_nat (length ws) else last) (n + 1).
Proof.
  intros (Hn & Hd & Hlast). unfold last_run. rewrite length_app. cbn [length]. split; [lia|]. split.
  - replace (length ws + 1 - Z.to_nat (n + 1))%nat with (length ws - Z.to_nat n)%nat by lia.
    rewrite drop_app_le by lia. rewrite Hd. replace (Z.to_nat (n + 1)) with (Z.to_nat n + 1)%nat by lia.
    by rewrite repeat_app.
  - intros _. case_decide; [lia|]. rewrite Hlast by done. lia.
Qed.

Lemma zero_scan_ok l : forall ws zero last max n, Forall is_word (ws ++ l) ->
  zero_run ws zero max -> last_run ws last n -> exists zero' max',
  zero_scan (length l) (2 * Z.of_nat (length ws)) (bytes_of_words (ws ++ l)) zero last max n = Some (zero', max') /\
  zero_run (ws ++ l) zero' max'.
Proof.
  induction l as [|w l IH]; intros ws zero last max n Hw Hz Hlast; cbn [length zero_scan].
  - rewrite app_nil_r. case_decide; eexists _, _; (split; [reflexivity|]); [by eapply run_of_last|done].
  - assert (Hj : (ws ++ w :: l) !! length ws = Some w) by (rewrite lookup_app_r, Nat.sub_diag by lia; done).
    destruct (rd_words _ _ _ Hj) as [-> ->]. cbn [mbind option_bind].
    assert (Hww : is_word w). { apply List.Forall_app in Hw as [_ Hw]. by apply List.Forall_inv in Hw. }
    replace (ws ++ w :: l) with ((ws ++ [w]) ++ l) in * by (by rewrite <- app_assoc).
    replace (2 * Z.of_nat (length ws) + 2) with (2 * Z.of_nat (length (ws ++ [w])))
      by (rewrite length_app; cbn; lia).
    case_decide as Hnz.
    + assert (Hreset : forall z, last_run (ws ++ [w]) z 0).
      { intros z. split; [lia|]. split; [|done]. rewrite Nat.sub_0_r. apply drop_ge. lia. }
      case_decide; apply IH; try done; apply zero_run_app; [by eapply run_of_last|done].
    + assert (w = 0) as -> by (unfold is_word in Hww; dlia).
      apply IH; [done|by apply zero_run_app|by apply last_run_zero].
Qed.

(** The words from index [j] on, each with a colon unless it is the eighth. *)
Fixpoint wtext (j : nat) (l : list Z) : list Z :=
  match l with
  | [] => []
  | w :: l => hexw w ++ (if decide (j < 7)%nat then [":"] else []) ++ wtext (S j) l
  end.

(** The words before the gap, and the rest of the loop. *)
Lemma ntop_before l : forall fuel pre post n zero max dst, Forall is_word l ->
  (forall i, (length pre <= i < length pre + length l)%nat -> 2 * Z.of_nat i <> zero) ->
  2 * Z.of_nat (length pre + length l) <= n ->
  ntop_loop (length l + fuel) (2 * Z.of_nat (length pre)) n zero max (bytes_of_words (pre ++ l ++ post)) dst =
  ntop_loop fuel (2 * Z.of_nat (length pre + length l)) n zero max (bytes_of_words (pre ++ l ++ post))
    (dst ++ wtext (length pre) l).
Proof.
  induction l as [|w l IH]; intros fuel pre post n zero max dst Hw Hz Hn; cbn [length Nat.add ntop_loop wtext].
  - by rewrite Nat.add_0_r, app_nil_r.
  - cbn [length] in Hn. rewrite decide_True by lia. rewrite decide_False by (apply Hz; cbn; lia).
    assert (Hj : (pre ++ (w :: l) ++ post) !! length pre = Some w) by (rewrite lookup_app_r, Nat.sub_diag by lia; done).
    destruct (rd_words _ _ _ Hj) as [-> ->]. cbn [mbind option_bind].
    apply List.Forall_cons_iff in Hw as [Hw Hl]. unfold is_word in Hw.
    replace (w / 2 ^ 8 * 256 + w mod 2 ^ 8) with w by dlia. rewrite sprintf_hex by done. cbn [mbind option_bind].
    specialize (IH fuel (pre ++ [w]) post n zero max (if decide (2 * Z.of_nat (length pre) < 14)
      then (dst ++ hexw w) ++ [":"] else dst ++ hexw w) Hl).
    rewrite length_app in IH. cbn [length] in IH. rewrite <- (app_assoc pre) in IH. cbn [app] in IH.
    replace (2 * Z.of_nat (length pre) + 2) with (2 * Z.of_nat (length pre + 1)) by lia.
    cbn [app] in IH |- *. rewrite IH.
    + replace (length pre + S (length l))%nat with (length pre + 1 + length l)%nat by lia.
      f_equal. replace (length pre + 1)%nat with (S (length pre)) by lia.
      case_decide; case_decide; try lia; by rewrite <- !app_assoc.
    + intros i Hi. apply Hz. cbn. lia.
    + lia.
Qed.

Lemma ntop_words l fuel pre post zero max dst : Forall is_word l ->
  (forall i, (length pre <= i < length pre + length l)%nat -> 2 * Z.of_nat i <> zero) ->
  (length l < fuel)%nat ->
  ntop_loop fuel (2 * Z.of_nat (length pre)) (2 * Z.of_nat (length pre + length l)) zero max
    (bytes_of_words (pre ++ l ++ post)) dst = Some (dst ++ wtext (length pre) l).
Proof.
  intros Hw Hz Hf. replace fuel with (length l + S (fuel - length l - 1))%nat by lia.
  rewrite ntop_before by (done || lia). cbn [ntop_loop]. by rewrite decide_False by lia.
Qed.

(** With a gap: the colon of the gap, and the words after it. *)
Lemma ntop_gap fuel pre m mid post max dst : Forall is_word mid -> max = Z.of_nat m -> (1 <= m)%nat ->
  (length mid < fuel)%nat ->
  ntop_loop (S fuel) (2 * Z.of_nat (length pre)) (2 * Z.of_nat (length pre + m + length mid))
    (2 * Z.of_nat (length pre)) max (bytes_of_words (pre ++ repeat 0 m ++ mid ++ post)) dst =
  Some (dst ++ ":" :: wtext (length pre + m) mid).
Proof.
  intros Hw -> Hm Hf. cbn [ntop_loop]. rewrite decide_True by lia. rewrite decide_True by done.
  replace (2 * Z.of_nat (length pre) + (Z.of_nat m - 1) * 2 + 2) with (2 * Z.of_nat (length (pre ++ repeat 0%Z m)))
    by (rewrite length_app, repeat_length; lia).
  replace (length pre + m + length mid)%nat with (length (pre ++ repeat 0%Z m) + length mid)%nat
    by (rewrite length_app, repeat_length; lia).
  rewrite (app_assoc pre). rewrite ntop_words.
  - rewrite <- app_assoc. rewrite length_app, repeat_length. done.
  - done.
  - intros i Hi. rewrite length_app, repeat_length in Hi. lia.
  - done.
Qed.


(** *** The reference gives eight words *)

Lemma bytes_split sep l : bytes l -> Forall bytes (split sep l).
Proof.
  induction 1 as [|c l Hc Hl IH]; cbn [split]; [by repeat constructor|].
  case_decide; [by constructor; [constructor|]|]. destruct (split sep l) as [|f fs] eqn:E; [by apply split_ne in E|].
  apply List.Forall_cons_iff in IH as [Hf Hfs]. constructor; [by constructor|done].
Qed.

Lemma group_word f w : bytes f -> group f = Some w -> is_word w.
Proof.
  intros Hb. unfold group. case_bool_decide as Hl; [|done]. destruct (forallb is_hex f) eqn:Hx; [|done].
  intros [= <-]. destruct (hexdig_run (In6 [] 0 None None 0 0 0 0) f 0 0 [] Hb Hx ltac:(lia) ltac:(lia) ltac:(lia)) as [_ Hr].
  assert (16 ^ (0 + Z.of_nat (length f)) <= 16 ^ 4) by (apply Z.pow_le_mono_r; lia).
  unfold is_word, hex_value. lia.
Qed.

Lemma v4_words f l : v4_group f = Some l -> Forall is_word l.
Proof.
  unfold v4_group. destruct (split "." f) as [|h [|h2 fs]]; [done|done|]. case_decide; [|done]. intros [= <-].
  pose proof (htonl_range (ngx_inet_addr f)). unfold ntohl. unfold is_word.
  repeat constructor; dlia.
Qed.

Lemma finish_words ws z closed l : Forall is_word ws -> in6_finish ws z closed = Some l ->
  Forall is_word l /\ length l = 8%nat.
Proof.
  intros Hw. unfold in6_finish. destruct z as [k|]; case_decide as Hd; intros [= <-]; [|by split; [|apply Hd]].
  split.
  - apply List.Forall_app. split; [by apply Forall_take|]. apply List.Forall_app. split; [|by apply Forall_drop].
    apply List.Forall_forall. intros x Hx. apply repeat_spec in Hx as ->. done.
  - rewrite !length_app, repeat_length, length_take, length_drop. lia.
Qed.

Lemma run_words fs colon : fs <> [] -> forall ws z l, Forall bytes fs -> Forall is_word ws ->
  in6_run ws z colon fs = Some l -> Forall is_word l /\ length l = 8%nat.
Proof.
  revert fs colon. refine (pieces_ind _ _ _ _ _).
  - intros colon ws z l _ Hw. cbn [in6_run]. apply finish_words. apply List.Forall_app. split; [done|].
    by repeat constructor.
  - intros colon f Hf ws z l Hb Hw. rewrite run_last_eq by done. apply List.Forall_inv in Hb.
    destruct (group f) as [w|] eqn:Eg.
    + apply finish_words, List.Forall_app. split; [done|]. constructor; [by eapply group_word|constructor].
    + destruct colon; [|done]. destruct (v4_group f) as [l'|] eqn:Ev; [|done]. cbn [mbind option_bind].
      apply finish_words, List.Forall_app. split; [done|by eapply v4_words].
  - intros colon fs Hfs IH ws z l Hb Hw. rewrite run_gap_eq by done. apply List.Forall_cons_iff in Hb as [_ Hb].
    destruct z; [done|]. by apply IH.
  - intros colon f fs Hf Hfs IH ws z l Hb Hw. rewrite run_group_eq by done.
    apply List.Forall_cons_iff in Hb as [Hbf Hb]. destruct (group f) as [w|] eqn:Eg; [|done]. cbn [mbind option_bind].
    apply IH; [done|]. apply List.Forall_app. split; [done|]. constructor; [by eapply group_word|constructor].
Qed.

Lemma bytes_of_words_bytes ws : Forall is_word ws -> bytes (bytes_of_words ws).
Proof.
  induction 1 as [|w ws Hw Hws IH]; [by constructor|]. change (w :: ws) with ([w] ++ ws).
  rewrite bytes_of_words_app. apply List.Forall_app. split; [|done]. unfold is_word in Hw.
  repeat constructor; dlia.
Qed.

Lemma reference_bytes text a : bytes text -> in6_reference text = Some a -> bytes a /\ length a = 16%nat.
Proof.
  intros Hb. rewrite run_reference. set (p := if decide _ then _ else _).
  assert (Hp : bytes p) by (subst p; case_decide; [by destruct Hb|done]).
  destruct (in6_run [] None false (split ":" p)) as [ws|] eqn:E; [|done]. intros [= <-].
  destruct (run_words _ _ (split_ne ":" p) _ _ _ (bytes_split ":" p Hp) (List.Forall_nil _) E) as [Hw Hl].
  split; [by apply bytes_of_words_bytes|]. change (ws ≫= word_bytes) with (bytes_of_words ws).
  rewrite length_bytes_of_words. lia.
Qed.

(** *** What is printed is read back *)

Lemma hexw_ne w : is_word w -> hexw w <> [].
Proof. intros Hw E. destruct (hexw_ok w Hw) as (_ & _ & H). rewrite E in H. cbn in H. lia. Qed.

Lemma hexw_no_colon w : is_word w -> ":" ∉ hexw w.
Proof. intros Hw. apply hex_no_sep; [apply (hexw_ok w Hw)|done]. Qed.

Lemma split_wtext l : forall j T, Forall is_word l -> (j + length l <= 7)%nat ->
  split ":" (wtext j l ++ T) = map hexw l ++ split ":" T.
Proof.
  induction l as [|w l IH]; intros j T Hw Hj; [done|]. apply List.Forall_cons_iff in Hw as [Hw Hl].
  cbn [wtext map app length] in *. rewrite decide_True by lia. rewrite <- !app_assoc. cbn [app].
  rewrite split_app by (by apply hexw_no_colon). rewrite IH by (done || lia). done.
Qed.

Lemma run_hexs l fs : fs <> [] -> forall ws z colon, Forall is_word l ->
  in6_run ws z colon (map hexw l ++ fs) = in6_run (ws ++ l) z (match l with [] => colon | _ => true end) fs.
Proof.
  intros Hfs. induction l as [|w l IH]; intros ws z colon Hw; [by rewrite app_nil_r|].
  apply List.Forall_cons_iff in Hw as [Hw Hl]. cbn [map app].
  rewrite run_group_eq; [|by apply hexw_ne|by destruct l, fs].
  destruct (hexw_ok w Hw) as (-> & _). cbn [mbind option_bind]. rewrite IH by done. rewrite <- app_assoc.
  by destruct l.
Qed.

Lemma run_wtext l j ws z colon : Forall is_word l -> (j + length l = 8)%nat ->
  in6_run ws z colon (split ":" (wtext j l)) =
  in6_finish (ws ++ match l with [] => [0] | _ => l end) z (match l with [] => false | _ => true end).
Proof.
  intros Hw Hj. destruct l as [|w l _] using rev_ind; [done|].
  apply List.Forall_app in Hw as [Hl Hw]. apply List.Forall_inv in Hw. rewrite length_app in Hj. cbn [length] in Hj.
  assert (Et : wtext j (l ++ [w]) = wtext j l ++ hexw w).
  { clear Hl. revert j Hj. induction l as [|x l IH]; intros j Hj; cbn [wtext app length] in *.
    - rewrite decide_False by lia. by rewrite app_nil_r.
    - rewrite IH by lia. by rewrite <- !app_assoc. }
  rewrite Et, split_wtext by (done || lia). rewrite split_last by (by apply hexw_no_colon).
  rewrite run_hexs by done. rewrite run_last_eq by (by apply hexw_ne).
  destruct (hexw_ok w Hw) as (-> & _). rewrite <- app_assoc. by destruct l.
Qed.

Lemma head_hexw w T : is_word w -> head (hexw w ++ T) <> Some (":" : Z).
Proof.
  intros Hw E. pose proof (hexw_no_colon w Hw) as Hc. pose proof (hexw_ne w Hw).
  destruct (hexw w) as [|c h]; [done|]. injection E as ->. apply Hc. apply list_elem_of_here.
Qed.

Lemma parse_plain ws : Forall is_word ws -> length ws = 8%nat ->
  in6_reference (wtext 0 ws) = Some (bytes_of_words ws).
Proof.
  intros Hw Hl. rewrite run_reference. rewrite decide_False.
  - rewrite run_wtext by (done || lia). destruct ws; [done|]. cbn [in6_finish app]. by rewrite decide_True.
  - destruct ws as [|w ws]; [done|]. apply head_hexw. by apply List.Forall_inv in Hw.
Qed.

Lemma parse_gap pre m mid : Forall is_word pre -> Forall is_word mid -> (2 <= m)%nat ->
  (length pre + m + length mid = 8)%nat ->
  in6_reference ((if decide (length pre = 0)%nat then [":"] else []) ++ wtext 0 pre ++ ":" :: wtext (length pre + m) mid) =
  Some (bytes_of_words (pre ++ repeat 0 m ++ mid)).
Proof.
  intros Hp Hm Hm2 Hlen. rewrite run_reference. set (T := wtext 0 pre ++ ":" :: wtext (length pre + m) mid).
  assert (Ep : forall text, text = (if decide (length pre = 0)%nat then [":"] else []) ++ T ->
    (if decide (head text = Some (":" : Z)) then tail text else text) = T).
  { intros text ->. destruct pre as [|w pre].
    - rewrite (decide_True (P := length [] = 0%nat)) by done. cbn [app head tail]. by rewrite decide_True.
    - rewrite (decide_False (P := length (w :: pre) = 0%nat)) by done. cbn [app]. rewrite decide_False; [done|].
      subst T. cbn [wtext]. rewrite <- app_assoc. apply head_hexw. by apply List.Forall_inv in Hp. }
  rewrite (Ep _ eq_refl). subst T. rewrite split_wtext by (done || lia).
  change (split ":" (":" :: wtext (length pre + m) mid)) with ([] :: split ":" (wtext (length pre + m) mid)).
  rewrite run_hexs, run_gap_eq by (done || apply split_ne). cbn [app].
  rewrite run_wtext by (done || lia). cbn [in6_finish]. rewrite length_app, take_app_length, drop_app_length.
  destruct mid as [|w mid]; cbn [length] in *.
  - rewrite decide_True by lia. replace m with (8 - (length pre + 1) + 1)%nat by lia. rewrite repeat_app.
    rewrite app_nil_r. done.
  - rewrite decide_True by lia. cbn [mbind option_bind]. replace (8 - _)%nat with m by lia. done.
Qed.

Lemma parse_v4 m mid a b c d : (m + length mid = 6)%nat -> (1 <= m)%nat -> Forall is_word mid ->
  is_byte a -> is_byte b -> is_byte c -> is_byte d ->
  in6_reference (":" :: ":" :: wtext m mid ++ dotted a b c d) =
  if decide (a * 2 ^ 24 + b * 2 ^ 16 + c * 2 ^ 8 + d = 0xffffffff) then None
  else Some (bytes_of_words (repeat 0 m ++ mid ++ [a * 2 ^ 8 + b; c * 2 ^ 8 + d])).
Proof.
  intros Hm Hm1 Hw Ha Hb Hc Hd. rewrite run_reference. cbn [head tail]. rewrite (decide_True (P := Some _ = _)) by done.
  change (split ":" (":" :: wtext m mid ++ dotted a b c d)) with ([] :: split ":" (wtext m mid ++ dotted a b c d)).
  rewrite run_gap_eq by apply split_ne. rewrite split_wtext by (done || lia).
  assert (Hcol : ":" ∉ dotted a b c d).
  { intros Hin. assert (Hbad : ngx_inet_addr (dotted a b c d) = INADDR_NONE) by (by apply (inet_addr_bad ":")).
    assert (Hdd : forall v, is_byte v -> ":" ∉ decw v).
    { intros v Hv Hi. destruct (decw_ok v) as (_ & Hg & _); [unfold is_byte in Hv; lia|].
      rewrite forallb_forall in Hg. apply list_elem_of_In, Hg in Hi. done. }
    unfold dotted in Hin. do 3 rewrite elem_of_app, elem_of_cons in Hin.
    assert (Hdot : ":" <> ".") by done. pose proof (Hdd a Ha). pose proof (Hdd b Hb).
    pose proof (Hdd c Hc). pose proof (Hdd d Hd). tauto. }
  rewrite split_last by done. rewrite run_hexs by done. cbn [app length].
  assert (Hdec : forall v, is_byte v -> (1 <= length (decw v) <= 3)%nat /\ forallb is_hex (decw v) = true).
  { intros v Hv. destruct (decw_ok v) as (_ & Hg & Hl); [unfold is_byte in Hv; lia|]. split; [done|].
    rewrite forallb_forall in Hg |- *. intros x Hx. apply Hg in Hx. unfold is_hex. by rewrite Hx. }
  destruct (Hdec a Ha) as [Hal Hah].
  rewrite run_last_eq by (unfold dotted; by destruct (decw a)).
  set (x := a * 2 ^ 24 + b * 2 ^ 16 + c * 2 ^ 8 + d).
  assert (Hx : 0 <= x < 2 ^ 32) by (subst x; unfold is_byte in *; lia).
  assert (Ea : ngx_inet_addr (dotted a b c d) = htonl x) by (by apply inet_addr_dotted).
  assert (Ev : v4_group (dotted a b c d) =
    if decide (x = 0xffffffff) then None else Some [a * 2 ^ 8 + b; c * 2 ^ 8 + d]).
  { unfold dotted. rewrite v4_group_dot by (done || lia). cbv zeta.
    change (decw a ++ "." :: _) with (dotted a b c d). rewrite Ea, ntohl_htonl by done.
    pose proof (htonl_none x Hx) as Hn. case_decide as H1; case_decide as H2; try tauto.
    subst x. unfold is_byte in *. do 2 f_equal; [dlia|]. f_equal. dlia. }
  unfold dotted at 1. rewrite group_none by (by left). rewrite Ev.
  replace (match mid with [] => true | _ :: _ => true end) with true by (by destruct mid).
  case_decide; [done|]. cbn [mbind option_bind in6_finish take drop]. rewrite length_app. cbn [length].
  rewrite (decide_True (P := (length mid + 2 < 8)%nat)) by lia. cbn [mbind option_bind take drop app].
  by replace (8 - (length mid + 2))%nat with m by lia.
Qed.

(** The addresses whose text ends with 255.255.255.255. *)
Definition unreadable (p : list Z) : Prop := p = repeat 0 12 ++ repeat 255 4 \/ p = repeat 0 10 ++ repeat 255 6.

#[export] Instance unreadable_dec p : Decision (unreadable p).
Proof. unfold unreadable. apply _. Defined.

Lemma length_wtext l : forall j, Forall is_word l -> (length (wtext j l) <= 5 * length l)%nat.
Proof.
  induction l as [|w l IH]; intros j Hw; [done|]. apply List.Forall_cons_iff in Hw as [Hw Hl].
  destruct (hexw_ok w Hw) as (_ & _ & H4). specialize (IH (S j) Hl). cbn [wtext length].
  rewrite !length_app. case_decide; cbn [length]; lia.
Qed.

Lemma hex_bytes l : forallb is_hex l = true -> bytes l.
Proof.
  intros H. apply List.Forall_forall. intros c Hc. rewrite forallb_forall in H. apply H in Hc.
  unfold is_hex, is_digit in Hc. unfold is_byte. rewrite !orb_true_iff, !bool_decide_eq_true in Hc. lia.
Qed.

(** The characters of a printed address. *)
Definition text_char (c : Z) : Prop := is_hex c = true \/ c = ":" \/ c = ".".

Lemma text_bytes t : Forall text_char t -> bytes t.
Proof.
  intros H. eapply List.Forall_impl; [|exact H]. intros c [Hc|[-> | ->]]; [|by_decide|by_decide].
  assert (Hb : bytes [c]) by (apply hex_bytes; cbn; by rewrite Hc). by apply List.Forall_inv in Hb.
Qed.

Lemma hex_text l : forallb is_hex l = true -> Forall text_char l.
Proof. rewrite forallb_forall. intros H. apply List.Forall_forall. intros c Hc. left. by apply H. Qed.

Lemma chars_wtext l : forall j, Forall is_word l -> Forall text_char (wtext j l).
Proof.
  induction l as [|w l IH]; intros j Hw; [by constructor|]. apply List.Forall_cons_iff in Hw as [Hw Hl].
  cbn [wtext]. apply List.Forall_app. split; [apply hex_text, hexw_ok, Hw|].
  apply List.Forall_app. split; [|by apply IH]. case_decide; [|by constructor].
  apply List.Forall_cons; [by right; left|constructor].
Qed.

Lemma chars_dotted a b c d : is_byte a -> is_byte b -> is_byte c -> is_byte d -> Forall text_char (dotted a b c d).
Proof.
  intros Ha Hb Hc Hd. assert (Hdec : forall v, is_byte v -> Forall text_char (decw v)).
  { intros v Hv. apply hex_text. destruct (decw_ok v) as (_ & Hg & _); [unfold is_byte in Hv; lia|].
    rewrite forallb_forall in Hg |- *. intros x Hx. apply Hg in Hx. unfold is_hex. by rewrite Hx. }
  unfold dotted. repeat (apply List.Forall_app; split; [by apply Hdec|]; apply List.Forall_cons; [by right; right|]).
  by apply Hdec.
Qed.

Lemma length_dotted a b c d : is_byte a -> is_byte b -> is_byte c -> is_byte d ->
  (length (dotted a b c d) <= 15)%nat.
Proof.
  unfold is_byte. intros. unfold dotted. repeat (rewrite length_app; cbn [length]).
  pose proof (proj2 (proj2 (decw_ok a ltac:(lia)))). pose proof (proj2 (proj2 (decw_ok b ltac:(lia)))).
  pose proof (proj2 (proj2 (decw_ok c ltac:(lia)))). pose proof (proj2 (proj2 (decw_ok d ltac:(lia)))). lia.
Qed.

(** What the printing gives; no text has the length of [NGX_INET6_ADDRSTRLEN]. *)
Definition prints (ws : list Z) (r : option (list Z)) : Prop :=
  exists t, r = Some t /\ ((length t <= 40)%nat /\ Forall text_char t) /\
    in6_reference t = if decide (unreadable (bytes_of_words ws)) then None else Some (bytes_of_words ws).

(** The code after the search of the zeros. *)
Lemma ntop_unfold ws len : length ws = 8%nat -> NGX_INET6_ADDRSTRLEN <= len -> exists w5 w6 w7,
  drop 5 ws = [w5; w6; w7] /\
  ngx_inet6_ntop (bytes_of_words ws) len =
  ('(zero, max) ← zero_scan 8 0 (bytes_of_words ws) NONE64 NONE64 1 0;
   let v4 := bool_decide (zero = 0 /\ ((max = 5 /\ w5 / 2 ^ 8 = 0xff /\ w5 mod 2 ^ 8 = 0xff) \/ max = 6 \/
                                (max = 7 /\ w7 / 2 ^ 8 <> 0 /\ w7 mod 2 ^ 8 <> 1))) in
   let n := if (v4 : bool) then 12 else 16 in
   dst ← ntop_loop 9 0 n zero max (bytes_of_words ws) (if decide (zero = 0) then [":"] else []);
   if decide (n = 12) then
     t ← ngx_sprintf (bstr "%ud.%ud.%ud.%ud") [AInt (w6 / 2 ^ 8); AInt (w6 mod 2 ^ 8); AInt (w7 / 2 ^ 8); AInt (w7 mod 2 ^ 8)];
     Some (dst ++ t)
   else Some dst).
Proof.
  intros Hl Hlen. unfold ngx_inet6_ntop. rewrite decide_False by lia.
  destruct ws as [|w0 [|w1 [|w2 [|w3 [|w4 [|w5 [|w6 [|w7 [|w8 ws]]]]]]]]]; cbn in Hl; try lia.
  exists w5, w6, w7. split; [done|]. destruct (zero_scan _ _ _ _ _ _ _) as [[zero max]|]; done.
Qed.

Lemma word_forall_app (a b : list Z) : Forall is_word (a ++ b) -> Forall is_word a /\ Forall is_word b.
Proof. apply List.Forall_app. Qed.

(** Without an IPv4 part, the address is not one of the two exceptions. *)
Lemma unreadable_v4 ws w5 w6 w7 zero max : length ws = 8%nat -> drop 5 ws = [w5; w6; w7] ->
  zero_scan 8 0 (bytes_of_words ws) NONE64 NONE64 1 0 = Some (zero, max) -> unreadable (bytes_of_words ws) ->
  zero = 0 /\ ((max = 5 /\ w5 / 2 ^ 8 = 0xff /\ w5 mod 2 ^ 8 = 0xff) \/ max = 6).
Proof.
  intros Hl H5 Hs Hu.
  destruct ws as [|w0 [|w1 [|w2 [|w3 [|w4 [|v5 [|v6 [|v7 [|w8 ws]]]]]]]]]; cbn in Hl; try lia.
  injection H5 as -> -> ->. destruct Hu as [E|E]; rewrite E in Hs; injection Hs as <- <-; (split; [done|]); [by right|left].
  split; [done|]. by injection E.
Qed.

Lemma ntop_plain ws len : length ws = 8%nat -> Forall is_word ws -> NGX_INET6_ADDRSTRLEN <= len ->
  zero_scan 8 0 (bytes_of_words ws) NONE64 NONE64 1 0 = Some (NONE64, 1) ->
  prints ws (ngx_inet6_ntop (bytes_of_words ws) len).
Proof.
  intros Hl Hw Hlen Hs. destruct (ntop_unfold ws len Hl Hlen) as (w5 & w6 & w7 & H5 & ->). rewrite Hs.
  cbn [mbind option_bind]. rewrite bool_decide_false by (intros [? _]; done).
  rewrite (decide_False (P := NONE64 = 0)) by done.
  pose proof (ntop_words ws 9 [] [] NONE64 1 [] Hw) as E. cbn [length app Nat.add] in E. rewrite Hl, app_nil_r in E.
  change (2 * Z.of_nat 0) with 0 in E. change (2 * Z.of_nat 8) with 16 in E. rewrite E.
  - cbn [mbind option_bind]. rewrite (decide_False (P := 16 = 12)) by done. exists (wtext 0 ws). split; [done|].
    split; [pose proof (length_wtext ws 0 Hw); split; [lia|by apply chars_wtext]|]. rewrite parse_plain by done.
    rewrite decide_False; [done|]. intros Hu.
    by destruct (unreadable_v4 _ _ _ _ _ _ Hl H5 Hs Hu).
  - intros i Hi. unfold NONE64. lia.
  - lia.
Qed.

Lemma ntop_v4 ws m mid w5 w6 w7 : length ws = 8%nat -> drop 5 ws = [w5; w6; w7] -> ws = repeat 0 m ++ mid ->
  Forall is_word mid -> Forall is_word ws ->
  (Z.of_nat m = 5 /\ w5 / 2 ^ 8 = 0xff /\ w5 mod 2 ^ 8 = 0xff) \/ Z.of_nat m = 6 \/
  (Z.of_nat m = 7 /\ w7 / 2 ^ 8 <> 0 /\ w7 mod 2 ^ 8 <> 1) ->
  prints ws (
    dst ← ntop_loop 9 0 12 (2 * Z.of_nat 0) (Z.of_nat m) (bytes_of_words ws)
      (if decide (2 * Z.of_nat 0 = 0) then [":"] else []);
    if decide (12 = 12) then
      t ← ngx_sprintf (bstr "%ud.%ud.%ud.%ud") [AInt (w6 / 2 ^ 8); AInt (w6 mod 2 ^ 8); AInt (w7 / 2 ^ 8); AInt (w7 mod 2 ^ 8)];
      Some (dst ++ t)
    else Some dst).
Proof.
  intros Hl H5 Ews Hwm Hw Hm.
  assert (Hw67 : is_word w6 /\ is_word w7).
  { assert (Hd : Forall is_word (drop 5 ws)) by (by apply Forall_drop). rewrite H5 in Hd.
    apply List.Forall_cons_iff in Hd as [_ Hd]. apply List.Forall_cons_iff in Hd as [? Hd].
    by apply List.Forall_inv in Hd. }
  destruct Hw67 as [Hw6 Hw7]. unfold is_word in Hw6, Hw7.
  assert (Hb : is_byte (w6 / 2 ^ 8) /\ is_byte (w6 mod 2 ^ 8) /\ is_byte (w7 / 2 ^ 8) /\ is_byte (w7 mod 2 ^ 8)).
  { unfold is_byte. split; [dlia|]. split; [dlia|]. split; dlia. }
  rewrite sprintf_dotted by apply Hb. rewrite (decide_True (P := 2 * Z.of_nat 0 = 0)) by done.
  assert (Hgo : exists m' mid', (m' + length mid' = 6)%nat /\ (5 <= m')%nat /\ Forall is_word mid' /\
    (forall x, repeat 0 m' ++ mid' ++ x = take 6 ws ++ x) /\ drop 6 ws = [w6; w7] /\
    ntop_loop 9 0 12 (2 * Z.of_nat 0) (Z.of_nat m) (bytes_of_words ws) [":"] = Some (":" :: ":" :: wtext m' mid') /\
    (w6 = 0xffff -> w7 = 0xffff -> unreadable (bytes_of_words ws))).
  { destruct (decide (m = 7)%nat) as [->|H7].
    - assert (Hlm : length mid = 1%nat) by (apply (f_equal length) in Ews; rewrite length_app, repeat_length in Ews; lia).
      destruct mid as [|x [|y mid]]; cbn in Hlm; try lia. subst ws. cbn in H5. injection H5 as <- <- <-.
      exists 6%nat, []. split; [done|]. split; [lia|]. split; [done|]. split; [done|]. split; [done|]. by split.
    - assert (Hm56 : m = 5%nat \/ m = 6%nat) by lia.
      assert (Hlm : length mid = (8 - m)%nat) by (apply (f_equal length) in Ews; rewrite length_app, repeat_length in Ews; lia).
      destruct Hm56 as [-> | ->]; cbn [Nat.sub] in Hlm.
      + destruct mid as [|x [|y [|z [|? mid]]]]; cbn in Hlm; try lia. rewrite Ews in H5. cbn in H5. injection H5 as -> -> ->.
        assert (w5 = 0xffff) as ->. { assert (w5 / 2 ^ 8 = 255 /\ w5 mod 2 ^ 8 = 255) by (destruct Hm as [?|[?|?]]; lia). dlia. }
        exists 5%nat, [0xffff]. split; [done|]. split; [lia|]. split; [by apply List.Forall_cons_iff in Hwm as [? _]; repeat constructor|].
        rewrite Ews. split; [done|]. split; [done|]. split.
        * apply (ntop_gap 8 [] 5 [0xffff] [w6; w7] 5 [":"]); [|done|lia|cbn; lia].
          repeat constructor; done.
        * intros -> ->. by right.
      + destruct mid as [|y [|z [|? mid]]]; cbn in Hlm; try lia. rewrite Ews in H5. cbn in H5. injection H5 as <- -> ->.
        exists 6%nat, []. split; [done|]. split; [lia|]. split; [done|]. rewrite Ews. split; [done|]. split; [done|]. split.
        * by apply (ntop_gap 8 [] 6 [] [w6; w7] 6 [":"]); [|done|lia|cbn; lia].
        * intros -> ->. by left. }
  destruct Hgo as (m' & mid' & Hm' & Hm1 & Hw' & Et & E6 & -> & Hu). cbn [mbind option_bind].
  rewrite (decide_True (P := 12 = 12)) by done.
  eexists. split; [reflexivity|]. destruct Hb as (Hb1 & Hb2 & Hb3 & Hb4). split.
  - cbn [app length]. rewrite length_app. pose proof (length_wtext mid' m' Hw').
    pose proof (length_dotted _ _ _ _ Hb1 Hb2 Hb3 Hb4). split; [lia|].
    do 2 (apply List.Forall_cons; [by right; left|]). apply List.Forall_app. split; [by apply chars_wtext|].
    by apply chars_dotted.
  - cbn [app]. rewrite parse_v4 by (done || lia).
    rewrite Et. replace (w6 / 2 ^ 8 * 2 ^ 8 + w6 mod 2 ^ 8) with w6 by dlia.
    replace (w7 / 2 ^ 8 * 2 ^ 8 + w7 mod 2 ^ 8) with w7 by dlia. rewrite <- E6, take_drop.
    case_decide as Hx; case_decide as Hn; [done| | |done].
    + destruct Hn. apply Hu; dlia.
    + destruct Hx. assert (E : drop (2 * 6) (bytes_of_words ws) = repeat 255 4) by (by destruct Hn as [-> | ->]).
      rewrite drop_words, E6 in E. injection E as E0 E1 E2 E3. lia.
Qed.

Lemma ntop_run ws len zero a m : length ws = 8%nat -> Forall is_word ws -> NGX_INET6_ADDRSTRLEN <= len ->
  zero_scan 8 0 (bytes_of_words ws) NONE64 NONE64 1 0 = Some (zero, Z.of_nat m) ->
  zero = 2 * Z.of_nat a -> (2 <= m)%nat -> (a + m <= 8)%nat -> take m (drop a ws) = repeat 0 m ->
  prints ws (ngx_inet6_ntop (bytes_of_words ws) len).
Proof.
  intros Hl Hw Hlen Hs Ez Hm Ham Hr. destruct (ntop_unfold ws len Hl Hlen) as (w5 & w6 & w7 & H5 & ->).
  pose proof (unreadable_v4 _ _ _ _ _ _ Hl H5 Hs) as Hun. rewrite Hs. cbn [mbind option_bind].
  set (pre := take a ws). set (mid := drop (a + m) ws).
  assert (Ews : ws = pre ++ repeat 0 m ++ mid).
  { subst pre mid. rewrite <- Hr, <- drop_drop, take_drop, take_drop. done. }
  assert (Hpre : length pre = a) by (subst pre; rewrite length_take; lia).
  assert (Hmid : (a + m + length mid = 8)%nat) by (subst mid; rewrite length_drop; lia).
  assert (Hwp : Forall is_word pre /\ Forall is_word mid).
  { rewrite Ews in Hw. apply word_forall_app in Hw as [? Hw]. by apply word_forall_app in Hw as [_ ?]. }
  clearbody pre mid. subst zero. cbv zeta.
  case_bool_decide as Hv4.
  - destruct Hv4 as [Ha Hv4]. assert (a = 0)%nat as -> by lia. destruct pre; [|done]. cbn [app] in Ews.
    apply (ntop_v4 ws m mid w5 w6 w7); [done|done|done|apply Hwp|done|done].
  - pose proof (ntop_before pre (9 - a) [] (repeat 0 m ++ mid) 16 (2 * Z.of_nat a) (Z.of_nat m)
      (if decide (2 * Z.of_nat a = 0) then [":"] else []) (proj1 Hwp)) as E1.
    rewrite Hpre in E1. cbn [length app Nat.add] in E1. change (2 * Z.of_nat 0) with 0 in E1.
    replace (a + (9 - a))%nat with 9%nat in E1 by lia. rewrite <- Ews in E1. rewrite E1 by lia.
    pose proof (ntop_gap (8 - a) pre m mid [] (Z.of_nat m) ((if decide (2 * Z.of_nat a = 0) then [":"] else []) ++ wtext 0 pre)
      (proj2 Hwp) eq_refl) as E2. rewrite app_nil_r, <- Ews, Hpre, Hmid in E2.
    replace (S (8 - a)) with (9 - a)%nat in E2 by lia. change (2 * Z.of_nat 8) with 16 in E2. rewrite E2 by lia.
    cbn [mbind option_bind]. rewrite (decide_False (P := 16 = 12)) by done.
    eexists. split; [reflexivity|]. split.
    + assert (Hc : Forall text_char (if decide (2 * Z.of_nat a = 0) then [":"] else []))
        by (destruct (decide _); [apply List.Forall_cons; [by right; left|]|]; constructor).
      pose proof (length_wtext pre 0 (proj1 Hwp)). pose proof (length_wtext mid (a + m) (proj2 Hwp)). split.
      * rewrite !length_app. cbn [length]. case_decide; cbn [length]; lia.
      * apply List.Forall_app. split; [apply List.Forall_app; split; [exact Hc|apply chars_wtext, Hwp]|].
        apply List.Forall_cons; [by right; left|apply chars_wtext, Hwp].
    + pose proof (parse_gap pre m mid (proj1 Hwp) (proj2 Hwp) Hm ltac:(lia)) as Ep. rewrite <- Ews, Hpre in Ep.
      rewrite <- app_assoc.
      replace (if decide (2 * Z.of_nat a = 0) then [":"] else []) with (if decide (a = 0)%nat then [":" : Z] else [])
        by (case_decide; case_decide; (lia || done)).
      rewrite Ep. rewrite decide_False; [done|]. intros Hu. apply Hv4. destruct (Hun Hu) as [Hz Hmm].
      split; [done|]. tauto.
Qed.

Lemma ntop_ok p len : bytes p -> length p = 16%nat -> NGX_INET6_ADDRSTRLEN <= len ->
  exists t, ngx_inet6_ntop p len = Some t /\ ((length t <= 40)%nat /\ Forall text_char t) /\
    in6_reference t = if decide (unreadable p) then None else Some p.
Proof.
  intros Hb Hl Hlen. destruct (words_of_bytes p 8 Hb Hl) as (ws & -> & Hws & Hw).
  destruct (zero_scan_ok ws [] NONE64 NONE64 1 0 Hw) as (zero & max & Hs & Hz).
  { by left. } { split; [cbn; lia|]. split; done. }
  cbn [app length] in Hs, Hz. rewrite Hws in Hs. change (2 * Z.of_nat 0) with 0 in Hs.
  destruct Hz as [[-> ->]|(a & m & -> & -> & Hm & Ham & Hr)].
  - exact (ntop_plain ws len Hws Hw Hlen Hs).
  - exact (ntop_run ws len _ a m Hws Hw Hlen Hs eq_refl Hm ltac:(lia) Hr).
Qed.


(** An IPv6 address is printed in at most 45 bytes, and [ngx_inet6_addr] reads
    back the same address from the text, unless it is ::255.255.255.255 or
    ::ffff:255.255.255.255, whose texts it rejects. *)
Theorem inet6_roundtrip p len addr : bytes p -> length p = 16%nat -> NGX_INET6_ADDRSTRLEN <= len ->
  length addr = 16%nat -> exists t, ngx_inet6_ntop p len = Some t /\
    Z.of_nat (length t) <= NGX_INET6_ADDRSTRLEN /\
    ngx_inet6_addr t addr = if decide (unreadable p) then Fail else Ret p.
Proof.
  intros Hb Hl Hlen Ha. destruct (ntop_ok p len Hb Hl Hlen) as (t & Et & [H45 Hbt] & Hr).
  exists t. split; [done|]. split; [change NGX_INET6_ADDRSTRLEN with 45; lia|].
  rewrite inet6_addr_eq, Hr by (done || by apply text_bytes). by case_decide.
Qed.

Lemma inet6_roundtrip_witness :
  let p := [0x20; 1; 0x0d; 0xb8; 0; 0; 0; 0; 0; 0; 0; 0; 0; 0; 0; 0] in
  exists t, ngx_inet6_ntop p 64 = Some t /\ Z.of_nat (length t) <= NGX_INET6_ADDRSTRLEN /\
    ngx_inet6_addr t (repeat 9 16) = Ret p.
Proof.
  refine (inet6_roundtrip [0x20; 1; 0x0d; 0xb8; 0; 0; 0; 0; 0; 0; 0; 0; 0; 0; 0; 0] 64 (repeat 9 16) _ eq_refl _ eq_refl).
  - by_decide.
  - vm_compute. discriminate.
Defined.

Close Scope ch_scope.
