(* ===== verification/Cidr.v ===== *)
(** * Address blocks and addresses with ports: ngx_inet.c

    [ngx_ptocidr] and [ngx_cidr_match] against prefixes of bits, and
    [ngx_parse_addr_port], which reads what [ngx_sock_ntop] prints. *)

From S2P Require Import Prelude NgxString Num Sprintf Inet.
From stdpp Require Import list.

Open Scope Z_scope.
Open Scope ch_scope.

(** ** Definitions *)

(** [ngx_cidr_t]; addresses and masks as in [sockaddr]. *)
Inductive ngx_cidr :=
  | cidr_in (addr mask : Z)
  | cidr_in6 (addr mask : list Z)
  | cidr_unix.

(** The loop over the bytes of an IPv6 address: whether a bit was cleared, the
    address and the mask. *)
Fixpoint cidr_loop (addr : list Z) (shift : Z) : bool * list Z * list Z :=
  match addr with
  | [] => (false, [], [])
  | b :: addr =>
      let s := if decide (shift > 8) then 8 else shift in
      let shift := shift - s in
      let m := u8 (u32 (Z.shiftl 0xff (8 - s))) in
      let '(cut, addr, mask) := cidr_loop addr shift in
      if decide (b <> Z.land b m) then (true, Z.land b m :: addr, m :: mask) else (cut, b :: addr, m :: mask)
  end.

(** The return code and the block, [Fail] for NGX_ERROR; [addr6] is the memory
    of the address before the call. *)
Definition ngx_ptocidr (text addr6 : list Z) : cres (Z * ngx_cidr) :=
  let mask := ngx_strlchr text "/" in
  let len := match mask with Some k => k | None => length text end in
  let shift_of k := ngx_atoi (drop (S k) text) in
  let addr := ngx_inet_addr (take len text) in
  if decide (addr <> INADDR_NONE) then
    match mask with
    | None => Ret (NGX_OK, cidr_in addr 0xffffffff)
    | Some k =>
        let shift := shift_of k in
        if decide (shift = NGX_ERROR) then Fail
        else if decide (shift > 32) then Fail
        else
          let mask := if decide (shift <> 0) then htonl (u32 (Z.shiftl 0xffffffff (32 - shift))) else 0 in
          if decide (addr = Z.land addr mask) then Ret (NGX_OK, cidr_in addr mask)
          else Ret (NGX_DONE, cidr_in (Z.land addr mask) mask)
    end
  else
    addr6 ← ngx_inet6_addr (take len text) addr6;
    match mask with
    | None => Ret (NGX_OK, cidr_in6 addr6 (repeat 0xff 16))
    | Some k =>
        let shift := shift_of k in
        if decide (shift = NGX_ERROR) then Fail
        else if decide (shift > 128) then Fail
        else
          let '(cut, addr, mask) := cidr_loop addr6 shift in
          Ret (if (cut : bool) then NGX_DONE else NGX_OK, cidr_in6 addr mask)
    end.

(** IN6_IS_ADDR_V4MAPPED *)
Definition v4mapped (addr : list Z) : bool :=
  bool_decide (take 12 addr = repeat 0 10 ++ [0xff; 0xff]).

(** The address of a mapped IPv4 address. *)
Definition mapped_addr (p : list Z) : Z :=
  let b i := nth i p 0 in
  htonl (u32 (u32 (u32 (u32 (Z.shiftl (b 12%nat) 24) + Z.shiftl (b 13%nat) 16) + Z.shiftl (b 14%nat) 8) + b 15%nat)).

Fixpoint and_equal (x m y : list Z) : bool :=
  match x, m, y with
  | a :: x, b :: m, c :: y => bool_decide (Z.land a b = c) && and_equal x m y
  | _, _, _ => true
  end.

Fixpoint cidr_search (sa : sockaddr) (cidrs : list ngx_cidr) : Z :=
  match cidrs with
  | [] => NGX_DECLINED
  | cidr :: cidrs =>
      let found :=
        match sa, cidr with
        | sockaddr_in6 _ inaddr6, cidr_in6 addr mask => and_equal inaddr6 mask addr
        | sockaddr_un _, cidr_unix => true
        | sockaddr_in _ inaddr, cidr_in addr mask => bool_decide (Z.land inaddr mask = addr)
        | _, _ => false
        end in
      if (found : bool) then NGX_OK else cidr_search sa cidrs
  end.

(** A mapped IPv4 address is matched as one of family AF_INET. *)
Definition ngx_cidr_match (sa : sockaddr) (cidrs : list ngx_cidr) : Z :=
  match sa with
  | sockaddr_in6 port addr6 =>
      if v4mapped addr6 then cidr_search (sockaddr_in port (mapped_addr addr6)) cidrs
      else cidr_search sa cidrs
  | _ => cidr_search sa cidrs
  end.

(** *** Addresses with ports *)

(** [Ret None] is NGX_DECLINED; memory for the result is assumed to be there. *)
Definition ngx_parse_addr (text : list Z) : cres (option sockaddr) :=
  let inaddr := ngx_inet_addr text in
  if decide (inaddr <> INADDR_NONE) then Ret (Some (sockaddr_in 0 inaddr))
  else
    match ngx_inet6_addr text (repeat 0 16) with
    | Ret inaddr6 => Ret (Some (sockaddr_in6 0 inaddr6))
    | Fail => Ret None
    | Ub => Ub
    end.

Definition ngx_parse_addr_port (text : list Z) : cres (option sockaddr) :=
  rc ← ngx_parse_addr text;
  match rc with
  | Some sa => Ret (Some sa)
  | None =>
      (* the port from index [p] on, the address in [len] bytes of [text] *)
      let with_port (text : list Z) (p : list Z) (len : Z) :=
        let plen := Z.of_nat (length p) in
        let port := ngx_atoi p in
        if decide (port < 1 \/ port > 65535) then Ret None
        else
          rc ← ngx_parse_addr (take (Z.to_nat (len - (plen + 1))) text);
          match rc with
          | Some sa => Ret (Some (ngx_inet_set_port sa port))
          | None => Ret None
          end in
      let len := Z.of_nat (length text) in
      if decide (head text = Some ("[" : Z)) then
        match ngx_strlchr text "]" with
        | None => Ret None
        | Some k =>
            if decide (Z.of_nat k = len - 1) then
              ngx_parse_addr (take (Z.to_nat (len - 2)) (drop 1 text))
            else
              c ← rdc text (Z.of_nat k + 1);
              if decide (c <> ":") then Ret None
              else with_port (drop 1 text) (drop (k + 2) text) (len - 2)
        end
      else
        match ngx_strlchr text ":" with
        | None => Ret None
        | Some k => with_port text (drop (k + 1) text) len
        end
  end.

Example addr_port_1 : ngx_parse_addr_port (bstr "[::1]:80") = Ret (Some (sockaddr_in6 (htons 80) (repeat 0 15 ++ [1]))).
Proof. by vm_compute. Qed.
Example cidr_1 : ngx_ptocidr (bstr "192.168.1.1/16") [] =
  Ret (NGX_DONE, cidr_in (htonl 0xc0a80000) (htonl 0xffff0000)).
Proof. by vm_compute. Qed.

(** ** Masks of leading bits *)

Definition mask_byte (t : Z) : Z := u8 (u32 (Z.shiftl 0xff (8 - t))).

Fixpoint mask_bytes (n : nat) (s : Z) : list Z :=
  match n with
  | O => []
  | S n => mask_byte (Z.min s 8) :: mask_bytes n (s - Z.min s 8)
  end.

Lemma length_mask_bytes n : forall s, length (mask_bytes n s) = n.
Proof. induction n as [|n IH]; intros s; [done|]. cbn [mask_bytes length]. by rewrite IH. Qed.

Lemma mask_byte_bits t b : 0 <= t <= 8 -> is_byte b ->
  bits_of 8 (Z.land b (mask_byte t)) = take (Z.to_nat t) (bits_of 8 b) ++ replicate (8 - Z.to_nat t) false /\
  is_byte (Z.land b (mask_byte t)).
Proof.
  intros Ht Hb. assert (Hc : t = 0 \/ t = 1 \/ t = 2 \/ t = 3 \/ t = 4 \/ t = 5 \/ t = 6 \/ t = 7 \/ t = 8) by lia.
  clear Ht. repeat (destruct Hc as [-> |Hc]; [byte_sweep b Hb|]). subst t. byte_sweep b Hb.
Qed.

Definition cidr_masked (a : list Z) (s : Z) : list Z := zip_with Z.land a (mask_bytes (length a) s).

Lemma masked_bits a : forall s, bytes a -> 0 <= s ->
  bytes_bits (cidr_masked a s) =
    take (Z.to_nat s) (bytes_bits a) ++ replicate (8 * length a - Z.to_nat s) false /\
  bytes (cidr_masked a s).
Proof.
  induction a as [|b a IH]; intros s Hb Hs.
  { split; [|constructor]. cbn. by rewrite take_nil. }
  apply List.Forall_cons_iff in Hb as [Hb Ha]. unfold cidr_masked. cbn [length mask_bytes zip_with].
  destruct (mask_byte_bits (Z.min s 8) b ltac:(lia) Hb) as [Eb Hbb].
  destruct (IH (s - Z.min s 8) Ha ltac:(lia)) as [Ea Hba]. unfold cidr_masked in Ea, Hba.
  split; [|by apply List.Forall_cons].
  change (bytes_bits (?x :: ?l)) with (bits_of 8 x ++ bytes_bits l).
  change (bytes_bits (b :: a)) with (bits_of 8 b ++ bytes_bits a). rewrite Eb, Ea, take_app, length_bits_of.
  destruct (decide (s <= 8)).
  - rewrite Z.min_l by lia. replace (Z.to_nat (s - s)) with 0%nat by lia.
    replace (Z.to_nat s - 8)%nat with 0%nat by lia. cbn [take app]. rewrite <- !app_assoc. cbn [app]. f_equal.
    rewrite !take_0. cbn [app]. rewrite <- replicate_add. f_equal. lia.
  - rewrite Z.min_r by lia. change (Z.to_nat 8) with 8%nat. rewrite (take_ge (bits_of 8 b) 8) by done.
    rewrite (take_ge (bits_of 8 b) (Z.to_nat s)) by (cbn; lia). cbn [Nat.sub replicate]. rewrite app_nil_r, <- app_assoc.
    do 2 f_equal; [f_equal; lia|f_equal; lia].
Qed.

(** Addresses have the same cidr_masked value exactly when the leading bits agree. *)
Lemma masked_eq a b s : bytes a -> bytes b -> length a = length b -> 0 <= s ->
  cidr_masked a s = cidr_masked b s <-> take (Z.to_nat s) (bytes_bits a) = take (Z.to_nat s) (bytes_bits b).
Proof.
  intros Ha Hb Hl Hs. destruct (masked_bits a s Ha Hs) as [Ea Hma], (masked_bits b s Hb Hs) as [Eb Hmb]. split.
  - intros E. rewrite E, Eb in Ea. apply app_inj_1 in Ea as [Ea _]; [done|].
    rewrite !length_take, !length_bytes_bits. lia.
  - intros E. apply bytes_bits_inj; [done|done|]. by rewrite Ea, Eb, E, Hl.
Qed.

(** The mask changes nothing when the other bits are zero. *)
Lemma masked_id a s : bytes a -> 0 <= s ->
  cidr_masked a s = a <-> drop (Z.to_nat s) (bytes_bits a) = replicate (8 * length a - Z.to_nat s) false.
Proof.
  intros Ha Hs. destruct (masked_bits a s Ha Hs) as [Ea Hma]. split.
  - intros E. rewrite E in Ea. rewrite <- (take_drop (Z.to_nat s) (bytes_bits a)) in Ea at 1.
    by apply app_inv_head in Ea.
  - intros E. apply bytes_bits_inj; [done|done|]. by rewrite Ea, <- E, take_drop.
Qed.

Lemma masked_idem a s : bytes a -> 0 <= s -> cidr_masked (cidr_masked a s) s = cidr_masked a s.
Proof.
  intros Ha Hs. destruct (masked_bits a s Ha Hs) as [Ea Hma]. apply masked_eq; [done|done| |done|].
  - unfold cidr_masked. rewrite length_zip_with, length_mask_bytes. lia.
  - rewrite Ea, take_app, take_take, length_take. rewrite Nat.min_id.
    destruct (decide (Z.to_nat s <= length (bytes_bits a))%nat).
    + replace (Z.to_nat s - _)%nat with 0%nat by lia. by rewrite take_0, app_nil_r.
    + rewrite length_bytes_bits in *. replace (8 * length a - Z.to_nat s)%nat with 0%nat by lia.
      cbn [replicate]. by rewrite take_nil, app_nil_r.
Qed.

Lemma cidr_loop_ok a : forall s, bytes a -> 0 <= s ->
  cidr_loop a s = (negb (bool_decide (cidr_masked a s = a)), cidr_masked a s, mask_bytes (length a) s).
Proof.
  induction a as [|b a IH]; intros s Hb Hs; [done|]. apply List.Forall_cons_iff in Hb as [Hb Ha].
  cbn [cidr_loop]. replace (if decide (s > 8) then 8 else s) with (Z.min s 8) by (case_decide; lia).
  rewrite IH by (done || lia). unfold cidr_masked. cbn [length mask_bytes zip_with].
  fold (mask_byte (Z.min s 8)). case_decide as Hm.
  - rewrite bool_decide_false; [done|]. intros [= E _]. congruence.
  - rewrite <- Hm. do 2 f_equal. f_equal. apply bool_decide_ext. split; [by intros ->|by intros [= E]].
Qed.

Lemma and_equal_ok x : forall m y, length m = length x -> length y = length x ->
  and_equal x m y = bool_decide (zip_with Z.land x m = y).
Proof.
  induction x as [|a x IH]; intros [|b m] [|c y] Hm Hy; try done. cbn [and_equal zip_with].
  rewrite IH by (cbn in *; lia). apply Bool.eq_iff_eq_true. rewrite andb_true_iff, !bool_decide_eq_true.
  split; [by intros [-> ->]|by intros [= -> ->]].
Qed.

(** ** IPv4 addresses as bytes *)

Lemma addr_bytes_ok a : bytes (addr_bytes a) /\ length (addr_bytes a) = 4%nat.
Proof.
  split; [|done]. unfold addr_bytes. repeat apply List.Forall_cons; try apply List.Forall_nil; apply Z.mod_pos_bound; lia.
Qed.

Lemma addr_bytes_inj a b : 0 <= a < 2 ^ 32 -> 0 <= b < 2 ^ 32 -> addr_bytes a = addr_bytes b -> a = b.
Proof.
  intros Ha Hb E. injection E as E0 E1 E2 E3.
  destruct (four_bytes a Ha) as (a3 & a2 & a1 & a0 & -> & H3 & H2 & H1 & H0).
  destruct (four_bytes b Hb) as (b3 & b2 & b1 & b0 & -> & K3 & K2 & K1 & K0). unfold is_byte in *.
  assert (a0 = b0) as -> by dlia. assert (a1 = b1) as -> by dlia.
  assert (a2 = b2) as -> by dlia. assert (a3 = b3) as -> by dlia. done.
Qed.

Lemma addr_bytes_htonl a b c d : is_byte a -> is_byte b -> is_byte c -> is_byte d ->
  addr_bytes (htonl (a * 2 ^ 24 + b * 2 ^ 16 + c * 2 ^ 8 + d)) = [a; b; c; d].
Proof.
  intros. rewrite htonl_bytes by done. unfold is_byte in *. unfold addr_bytes.
  f_equal; [dlia|]. f_equal; [dlia|]. f_equal; [dlia|]. f_equal; dlia.
Qed.

Lemma addr_bytes_land a b : addr_bytes (Z.land a b) = zip_with Z.land (addr_bytes a) (addr_bytes b).
Proof.
  unfold addr_bytes. cbn [zip_with].
  assert (E : forall k, 0 <= k -> Z.land a b / 2 ^ k mod 2 ^ 8 = Z.land (a / 2 ^ k mod 2 ^ 8) (b / 2 ^ k mod 2 ^ 8)).
  { intros k Hk. rewrite <- !Z.shiftr_div_pow2, <- !Z.land_ones by lia. rewrite Z.shiftr_land.
    apply Z.bits_inj'. intros n Hn. rewrite !Z.land_spec. destruct (Z.testbit _ n), (Z.testbit _ n), (Z.testbit _ n); done. }
  pose proof (E 0 ltac:(lia)) as E0. change (2 ^ 0) with 1 in E0. rewrite !Z.div_1_r in E0.
  by rewrite E0, !E by lia.
Qed.

Definition in_mask (s : Z) : Z := if decide (s <> 0) then htonl (u32 (Z.shiftl 0xffffffff (32 - s))) else 0.

Lemma in_mask_ok s : 0 <= s <= 32 -> addr_bytes (in_mask s) = mask_bytes 4 s /\ 0 <= in_mask s < 2 ^ 32.
Proof.
  intros Hs. assert (Hz : zall (fun s => bool_decide (addr_bytes (in_mask s) = mask_bytes 4 s /\ 0 <= in_mask s < 2 ^ 32)) 0 33 = true)
    by (vm_compute; reflexivity).
  pose proof (zall_spec _ _ _ Hz s ltac:(lia)) as H. by apply bool_decide_eq_true in H.
Qed.

Lemma land_range a b : 0 <= a < 2 ^ 32 -> 0 <= b < 2 ^ 32 -> 0 <= Z.land a b < 2 ^ 32.
Proof.
  intros Ha Hb. split; [apply Z.land_nonneg; lia|].
  destruct (decide (Z.land a b = 0)) as [->|]; [lia|].
  apply Z.log2_lt_pow2; [|]. { pose proof (proj2 (Z.land_nonneg a b) (or_introl (proj1 Ha))). lia. }
  pose proof (Z.log2_land a b (proj1 Ha) (proj1 Hb)).
  destruct (decide (a = 0)) as [->|]; [by rewrite Z.land_0_l in *|].
  pose proof (Z.log2_lt_pow2 a 32 ltac:(lia)). lia.
Qed.

Lemma inet_addr_range text : 0 <= ngx_inet_addr text < 2 ^ 32.
Proof.
  rewrite inet_addr_quads. assert (0 <= INADDR_NONE < 2 ^ 32) by by_decide. pose proof htonl_range.
  by repeat match goal with |- context [match ?x with _ => _ end] => destruct x end.
Qed.

Lemma atoi_sign l : ngx_atoi l = NGX_ERROR \/ 0 <= ngx_atoi l.
Proof.
  unfold ngx_atoi. rewrite atoi_max_spec by by_decide. destruct (_ && _ && _) eqn:E; [right|by left].
  apply andb_prop in E as [E _]. apply andb_prop in E as [_ E].
  pose proof (numeral_ge 10 (fun c => c - "0") 0 l ltac:(lia) ltac:(lia) (digits_nonneg _ E)). unfold dec_value. lia.
Qed.

(** ** Blocks *)

(** The address and the length of the prefix that a text denotes. *)
Definition cidr_reference (text : list Z) : option (list Z * Z) :=
  let slash := ngx_strlchr text "/" in
  let t := take (match slash with Some k => k | None => length text end) text in
  a ← (if decide (ngx_inet_addr t <> INADDR_NONE) then Some (addr_bytes (ngx_inet_addr t)) else in6_reference t);
  match slash with
  | None => Some (a, Z.of_nat (8 * length a))
  | Some k =>
      let s := ngx_atoi (drop (S k) text) in
      if decide (0 <= s <= Z.of_nat (8 * length a)) then Some (a, s) else None
  end.

(** The address of a host: 4 bytes, which may be mapped, or 16; none for a Unix socket. *)
Definition host_bytes (sa : sockaddr) : list Z :=
  match sa with
  | sockaddr_in _ a => addr_bytes a
  | sockaddr_in6 _ p => if v4mapped p then drop 12 p else p
  | sockaddr_un _ => []
  end.

(** A block of the prefix of [s] bits of [a]. *)
Definition block (a : list Z) (s : Z) (c : ngx_cidr) : Prop :=
  forall sa cs, good_sockaddr sa ->
  ngx_cidr_match sa (c :: cs) =
  if decide (length (host_bytes sa) = length a /\
             take (Z.to_nat s) (bytes_bits (host_bytes sa)) = take (Z.to_nat s) (bytes_bits a))
  then NGX_OK else ngx_cidr_match sa cs.

Lemma mapped_addr_bytes p : bytes p -> length p = 16%nat ->
  addr_bytes (mapped_addr p) = drop 12 p /\ 0 <= mapped_addr p < 2 ^ 32.
Proof.
  intros Hb Hl. do 16 (destruct p as [|? p]; [done|]). destruct p; [|done].
  repeat match goal with H : bytes (_ :: _) |- _ => apply List.Forall_cons_iff in H as [? H] end.
  split; [|apply htonl_range]. unfold mapped_addr. cbn [nth drop].
  rewrite !Z.shiftl_mul_pow2 by lia. unfold is_byte in *.
  match goal with |- addr_bytes (htonl (u32 (u32 (u32 (u32 (?a * _) + ?b * _) + ?c * _) + ?d))) = _ =>
    rewrite (u32_small (a * 2 ^ 24)) by lia; rewrite (u32_small (a * 2 ^ 24 + b * 2 ^ 16)) by lia;
    rewrite (u32_small (a * 2 ^ 24 + b * 2 ^ 16 + c * 2 ^ 8)) by lia;
    rewrite (u32_small (a * 2 ^ 24 + b * 2 ^ 16 + c * 2 ^ 8 + d)) by lia end.
  by apply addr_bytes_htonl.
Qed.

Lemma land_mask a s : 0 <= a < 2 ^ 32 -> 0 <= s <= 32 ->
  addr_bytes (Z.land a (in_mask s)) = cidr_masked (addr_bytes a) s.
Proof. intros Ha Hs. rewrite addr_bytes_land. by rewrite (proj1 (in_mask_ok s Hs)). Qed.

Lemma in_block_eq h a s : 0 <= h < 2 ^ 32 -> 0 <= a < 2 ^ 32 -> 0 <= s <= 32 ->
  Z.land h (in_mask s) = Z.land a (in_mask s) <->
  take (Z.to_nat s) (bytes_bits (addr_bytes h)) = take (Z.to_nat s) (bytes_bits (addr_bytes a)).
Proof.
  intros Hh Ha Hs. destruct (in_mask_ok s Hs) as [_ Hm].
  rewrite <- masked_eq by (apply addr_bytes_ok || done || lia). rewrite <- !land_mask by done. split; [by intros ->|].
  apply addr_bytes_inj; by apply land_range.
Qed.

Lemma block_in a s : 0 <= a < 2 ^ 32 -> 0 <= s <= 32 ->
  block (addr_bytes a) s (cidr_in (Z.land a (in_mask s)) (in_mask s)).
Proof.
  intros Ha Hs sa cs Hsa.
  assert (Hin : forall port h l, 0 <= h < 2 ^ 32 -> l = addr_bytes h ->
    cidr_search (sockaddr_in port h) (cidr_in (Z.land a (in_mask s)) (in_mask s) :: cs) =
    if decide (length l = length (addr_bytes a) /\ take (Z.to_nat s) (bytes_bits l) = take (Z.to_nat s) (bytes_bits (addr_bytes a)))
    then NGX_OK else cidr_search (sockaddr_in port h) cs).
  { intros port h l Hh ->. cbn [cidr_search]. pose proof (in_block_eq h a s Hh Ha Hs) as E.
    case_bool_decide as H1; case_decide as H2; try done; [by destruct H2; split; [|apply E]|].
    destruct H1. apply E, H2. }
  destruct sa as [port h|port p|path]; cbn [good_sockaddr] in Hsa.
  - apply Hin; [apply Hsa|done].
  - destruct Hsa as (_ & Hb & Hl). cbn [ngx_cidr_match host_bytes]. destruct (v4mapped p).
    + destruct (mapped_addr_bytes p Hb Hl) as [E Hr]. apply Hin; [done|by rewrite E].
    + cbn [cidr_search]. rewrite decide_False; [done|]. intros [E _]. rewrite Hl in E. done.
  - cbn [ngx_cidr_match cidr_search host_bytes]. by rewrite decide_False by (intros [E _]; done).
Qed.

Lemma block_in6 a s : bytes a -> length a = 16%nat -> 0 <= s ->
  block a s (cidr_in6 (cidr_masked a s) (mask_bytes 16 s)).
Proof.
  intros Ha Hl Hs sa cs Hsa. destruct sa as [port h|port p|path]; cbn [good_sockaddr] in Hsa.
  - cbn [ngx_cidr_match cidr_search host_bytes]. by rewrite decide_False by (intros [E _]; rewrite Hl in E; done).
  - destruct Hsa as (_ & Hb & Hp). cbn [ngx_cidr_match host_bytes]. destruct (v4mapped p) eqn:Ev.
    + cbn [cidr_search]. rewrite decide_False; [done|]. rewrite length_drop. intros [E _]. lia.
    + cbn [cidr_search]. rewrite and_equal_ok.
      * replace (zip_with Z.land p (mask_bytes 16 s)) with (cidr_masked p s) by (unfold cidr_masked; by rewrite Hp).
        pose proof (masked_eq p a s Hb Ha ltac:(lia) Hs) as E.
        case_bool_decide as H1; case_decide as H2; try done.
        -- destruct H2. split; [lia|by apply E].
        -- destruct H1. apply E, H2.
      * by rewrite length_mask_bytes.
      * unfold cidr_masked. rewrite length_zip_with, length_mask_bytes. lia.
  - cbn [ngx_cidr_match cidr_search host_bytes]. by rewrite decide_False by (intros [E _]; rewrite Hl in E; done).
Qed.

Lemma masked_all a : bytes a -> cidr_masked a (Z.of_nat (8 * length a)) = a.
Proof.
  intros Ha. apply masked_id; [done|lia|]. rewrite Nat2Z.id, Nat.sub_diag.
  apply drop_ge. rewrite length_bytes_bits. lia.
Qed.

(** C30: [ngx_ptocidr] reads exactly the texts of an address and, after a slash, of a
    length that is at most its number of bits; it returns NGX_DONE exactly when
    a bit after the prefix is set; and [ngx_cidr_match] with the block among
    others finds it exactly for the hosts whose address, an IPv4 address mapped
    to IPv6 included, has the prefix. *)
Theorem cidr_exact text addr6 : bytes text -> length addr6 = 16%nat ->
  match cidr_reference text with
  | Some (a, s) => exists c, block a s c /\
      ngx_ptocidr text addr6 =
      Ret (if decide (drop (Z.to_nat s) (bytes_bits a) = replicate (8 * length a - Z.to_nat s) false)
           then NGX_OK else NGX_DONE, c)
  | None => ngx_ptocidr text addr6 = Fail
  end.
Proof.
  intros Hb H6. unfold cidr_reference, ngx_ptocidr. set (slash := ngx_strlchr text "/").
  set (t := take _ text). assert (Ht : bytes t) by (by apply Forall_take).
  destruct (decide (ngx_inet_addr t <> INADDR_NONE)) as [Hv|Hv]; cbn [mbind option_bind].
  - pose proof (inet_addr_range t) as Hr. set (a := ngx_inet_addr t) in *.
    destruct (addr_bytes_ok a) as [Hab Hal]. rewrite Hal. clearbody slash t.
    assert (Hlast : forall s, 0 <= s <= 32 -> exists c, block (addr_bytes a) s c /\
      (if decide (a = Z.land a (in_mask s)) then Ret (NGX_OK, cidr_in a (in_mask s))
       else Ret (NGX_DONE, cidr_in (Z.land a (in_mask s)) (in_mask s))) =
      Ret (if decide (drop (Z.to_nat s) (bytes_bits (addr_bytes a)) = replicate (8 * 4 - Z.to_nat s) false)
           then NGX_OK else NGX_DONE, c)).
    { intros s Hs. exists (cidr_in (Z.land a (in_mask s)) (in_mask s)). split; [by apply block_in|].
      pose proof (masked_id (addr_bytes a) s Hab ltac:(lia)) as Hid. rewrite Hal in Hid.
      case_decide as H1; case_decide as H2; try done.
      - by rewrite <- H1.
      - destruct H2. apply Hid. rewrite <- land_mask by done. by rewrite <- H1.
      - destruct H1. apply Hid in H2. rewrite <- land_mask in H2 by done.
        apply addr_bytes_inj; [done|by apply land_range; [|apply in_mask_ok]|done]. }
    destruct slash as [k|].
    + destruct (atoi_sign (drop (S k) text)) as [-> |Hs].
      { by rewrite decide_False by (unfold NGX_ERROR; lia). }
      set (s := ngx_atoi _) in *. rewrite (decide_False (P := s = NGX_ERROR)) by (unfold NGX_ERROR; lia).
      change (Z.of_nat (8 * 4)) with 32. destruct (decide (s > 32)) as [H32|H32].
      { by rewrite decide_False by lia. }
      rewrite (decide_True (P := 0 <= s <= 32)) by lia. fold (in_mask s). apply Hlast. lia.
    + change (Z.of_nat (8 * 4)) with 32. destruct (Hlast 32 ltac:(lia)) as (c & Hc & E). exists c. split; [done|].
      etransitivity; [|exact E]. change (in_mask 32) with 0xffffffff.
      rewrite decide_True; [done|]. change 0xffffffff with (Z.ones 32). rewrite Z.land_ones by lia.
      by rewrite Z.mod_small.
  - rewrite inet6_addr_eq by done. destruct (in6_reference t) as [a|] eqn:Ea; [|done].
    cbn [mbind option_bind cres_bind]. destruct (reference_bytes _ _ Ht Ea) as [Hab Hal]. rewrite Hal.
    clearbody slash t. destruct slash as [k|].
    + destruct (atoi_sign (drop (S k) text)) as [-> |Hs].
      { by rewrite decide_False by (unfold NGX_ERROR; lia). }
      set (s := ngx_atoi _) in *. rewrite (decide_False (P := s = NGX_ERROR)) by (unfold NGX_ERROR; lia).
      change (Z.of_nat (8 * 16)) with 128. destruct (decide (s > 128)) as [H128|H128].
      { by rewrite decide_False by lia. }
      rewrite (decide_True (P := 0 <= s <= 128)) by lia. rewrite cidr_loop_ok by done. rewrite Hal.
      exists (cidr_in6 (cidr_masked a s) (mask_bytes 16 s)). split; [by apply block_in6|].
      do 2 f_equal. pose proof (masked_id a s Hab Hs) as Hid. rewrite Hal in Hid.
      case_bool_decide as H1; case_decide as H2; (done || tauto).
    + exists (cidr_in6 a (repeat 0xff 16)). split.
      * pose proof (block_in6 a 128 Hab Hal ltac:(lia)) as Hc.
        pose proof (masked_all a Hab) as Em. rewrite Hal in Em. change (Z.of_nat (8 * 16)) with 128 in Em |- *.
        by rewrite Em in Hc.
      * rewrite decide_True; [done|]. rewrite drop_ge by (rewrite length_bytes_bits; lia). by rewrite Hal.
Qed.

Lemma cidr_exact_witness :
  let text := bstr "10.1.2.3/8" in
  (bytes text /\ length (repeat 0 16) = 16%nat) /\
  exists c, block [10; 1; 2; 3] 8 c /\ ngx_ptocidr text (repeat 0 16) = Ret (NGX_DONE, c).
Proof.
  cbv zeta. assert (Hb : bytes (bstr "10.1.2.3/8")) by by_decide. split; [by split|].
  pose proof (cidr_exact (bstr "10.1.2.3/8") (repeat 0 16) Hb eq_refl) as E.
  assert (Er : cidr_reference (bstr "10.1.2.3/8") = Some ([10; 1; 2; 3], 8)) by (vm_compute; reflexivity).
  rewrite Er in E. destruct E as (c & Hc & E). exists c. split; [exact Hc|]. rewrite E. vm_compute. reflexivity.
Defined.


(** ** Addresses with ports *)

Lemma htons_htons x : 0 <= x < 2 ^ 16 -> htons (htons x) = x.
Proof.
  intros Hx. assert (E : exists a b, x = a * 2 ^ 8 + b /\ is_byte a /\ is_byte b).
  { exists (x / 2 ^ 8), (x mod 2 ^ 8). unfold is_byte. split; [dlia|]. split; dlia. }
  destruct E as (a & b & -> & Ha & Hb). unfold is_byte in *.
  assert (Eh : forall a b, 0 <= a < 256 -> 0 <= b < 256 -> htons (a * 2 ^ 8 + b) = b * 2 ^ 8 + a).
  { clear. intros a b Ha Hb. unfold htons. f_equal; [f_equal; dlia|dlia]. }
  by rewrite !Eh.
Qed.

(** The conversions of a port and of a byte. *)
Lemma conv_d out p args : 0 <= p < 2 ^ 16 ->
  do_conv None out (Conv " " 0 true 0 false 0 None) "d" (AInt p :: args) = Some (out ++ decw p, args).
Proof.
  intros Hp. assert (Es : s32 p = p) by (unfold s32; rewrite Z.mod_small by lia; lia).
  unfold do_conv. repeat (rewrite (decide_False (P := "d" = _)) by done).
  assert (Ei : forall n, int_conv (Conv " " 0 true 0 false 0 None) "d" n = Some (true, s32 n, 0, " ", 0)) by done.
  rewrite !Ei. cbn [mbind option_bind andb]. rewrite Es, bool_decide_false by lia.
  by rewrite num_plain, u64_small by lia.
Qed.

Lemma loop_d fuel out fmt p args : 0 <= p < 2 ^ 16 ->
  vslprintf_loop (S fuel) None out ("%" :: "d" :: fmt) (AInt p :: args) =
  vslprintf_loop fuel None (out ++ decw p) fmt args.
Proof.
  intros Hp. rewrite vslprintf_conv by done.
  change (parse_width 0 ("d" :: fmt)) with (0, ("d" : Z) :: fmt). cbn [head].
  rewrite decide_False by done. cbv zeta.
  change (parse_flags (Conv " " 0 true 0 false 0 None) ("d" :: fmt) (AInt p :: args))
    with (Some (Conv " " 0 true 0 false 0 None, ("d" : Z) :: fmt, AInt p :: args)).
  cbv iota. by rewrite conv_d.
Qed.

Lemma loop_ud fuel out fmt v args : is_byte v ->
  vslprintf_loop (S fuel) None out ("%" :: "u" :: "d" :: fmt) (AInt v :: args) =
  vslprintf_loop fuel None (out ++ decw v) fmt args.
Proof.
  unfold is_byte. intros Hv. rewrite vslprintf_conv by done.
  change (parse_width 0 ("u" :: "d" :: fmt)) with (0, ("u" : Z) :: "d" :: fmt). cbn [head].
  rewrite decide_False by done. cbv zeta.
  change (parse_flags (Conv " " 0 true 0 false 0 None) ("u" :: "d" :: fmt) (AInt v :: args))
    with (Some (Conv " " 0 false 0 false 0 None, ("d" : Z) :: fmt, AInt v :: args)).
  cbv iota. unfold do_conv. repeat (rewrite (decide_False (P := "d" = _)) by done).
  assert (Ei : forall n, int_conv (Conv " " 0 false 0 false 0 None) "d" n = Some (false, u32 n, 0, " ", 0)) by done.
  rewrite !Ei. cbn [mbind option_bind andb]. by rewrite num_plain, u32_small, u64_small by lia.
Qed.

Lemma sprintf_port_tail p : 0 <= p < 2 ^ 16 ->
  ngx_sprintf (bstr "]:%d") [AInt p] = Some ("]" :: ":" :: decw p).
Proof.
  intros Hp. unfold ngx_sprintf, ngx_vslprintf. change (S (length (bstr "]:%d"))) with 5%nat.
  change (bstr "]:%d") with [("]" : Z); ":"; "%"; "d"]. rewrite !vslprintf_plain by done. by rewrite loop_d.
Qed.

Lemma sprintf_dotted_port a b c d p : is_byte a -> is_byte b -> is_byte c -> is_byte d -> 0 <= p < 2 ^ 16 ->
  ngx_sprintf (bstr "%ud.%ud.%ud.%ud:%d") [AInt a; AInt b; AInt c; AInt d; AInt p] =
  Some (dotted a b c d ++ ":" :: decw p).
Proof.
  intros. unfold ngx_sprintf, ngx_vslprintf. change (S (length (bstr "%ud.%ud.%ud.%ud:%d"))) with 19%nat.
  change (bstr "%ud.%ud.%ud.%ud:%d") with
    (("%" : Z) :: "u" :: "d" :: "." :: "%" :: "u" :: "d" :: "." :: "%" :: "u" :: "d" :: "." :: "%" :: "u" :: "d" :: ":" :: "%" :: ["d"]).
  do 3 (rewrite loop_ud by done; rewrite vslprintf_plain by done).
  rewrite loop_ud, vslprintf_plain, loop_d by done. unfold dotted. cbn [vslprintf_loop app].
  do 5 (rewrite <- ?app_assoc; cbn [app]). done.
Qed.

(** The text of a socket address with its port. *)
Lemma ntop_in port a b c d socklen len : 0 <= port < 2 ^ 16 -> is_byte a -> is_byte b -> is_byte c -> is_byte d ->
  21 <= len ->
  ngx_sock_ntop (sockaddr_in (htons port) (htonl (a * 2 ^ 24 + b * 2 ^ 16 + c * 2 ^ 8 + d))) socklen len true =
  Some (dotted a b c d ++ ":" :: decw port).
Proof.
  intros Hp Ha Hb Hc Hd Hlen. cbn [ngx_sock_ntop]. rewrite addr_bytes_htonl by done. cbn [map app].
  unfold ntohs. rewrite htons_htons by done. apply snprintf_fits.
  - by_decide.
  - by apply sprintf_dotted_port.
  - rewrite length_app. cbn [length]. pose proof (length_dotted a b c d Ha Hb Hc Hd).
    pose proof (atoi_decw port Hp). lia.
Qed.

(** Texts whose first piece is not a group are not addresses. *)
Lemma reference_bad f p : ":" ∉ f -> f <> [] -> group f = None -> in6_reference (f ++ ":" :: p) = None.
Proof.
  intros Hf Hne Hg. rewrite run_reference. rewrite decide_False.
  - rewrite split_app by done. rewrite run_group_eq by (done || apply split_ne). by rewrite Hg.
  - destruct f as [|c f]; [done|]. cbn. intros [= ->]. apply Hf, list_elem_of_here.
Qed.

Lemma group_dotted a b c d : is_byte a -> is_byte b -> is_byte c -> is_byte d ->
  group (dotted a b c d) = None /\ dotted a b c d <> [] /\ (":" ∉ dotted a b c d) /\ ("]" ∉ dotted a b c d).
Proof.
  intros Ha Hb Hc Hd. split; [unfold dotted; apply group_none; by left|].
  split; [unfold dotted; by destruct (decw a)|].
  assert (Hdd : forall x v, is_digit x = false -> is_byte v -> x ∉ decw v).
  { intros x v Hx Hv Hin. destruct (decw_ok v) as (_ & Hg & _); [unfold is_byte in Hv; lia|].
    rewrite forallb_forall in Hg. apply list_elem_of_In, Hg in Hin. congruence. }
  assert (Hno : forall x, is_digit x = false -> x <> "." -> x ∉ dotted a b c d).
  { intros x Hx Hp Hin. unfold dotted in Hin. do 3 rewrite elem_of_app, elem_of_cons in Hin.
    pose proof (Hdd x a Hx Ha). pose proof (Hdd x b Hx Hb). pose proof (Hdd x c Hx Hc). pose proof (Hdd x d Hx Hd). tauto. }
  split; by apply Hno.
Qed.

Lemma head_text t l : t <> [] -> Forall text_char t -> head (t ++ l) <> Some ("[" : Z).
Proof.
  intros Hne Ht E. destruct t as [|x t]; [done|]. injection E as ->.
  apply List.Forall_inv in Ht as [H|[H|H]]; done.
Qed.

Lemma parse_in port a b c d : 1 <= port < 2 ^ 16 -> is_byte a -> is_byte b -> is_byte c -> is_byte d ->
  htonl (a * 2 ^ 24 + b * 2 ^ 16 + c * 2 ^ 8 + d) <> INADDR_NONE ->
  ngx_parse_addr_port (dotted a b c d ++ ":" :: decw port) =
  Ret (Some (sockaddr_in (htons port) (htonl (a * 2 ^ 24 + b * 2 ^ 16 + c * 2 ^ 8 + d)))).
Proof.
  intros Hp Ha Hb Hc Hd Hx. destruct (group_dotted a b c d Ha Hb Hc Hd) as (Hg & Hne & Hcol & _).
  destruct (atoi_decw port ltac:(lia)) as (Hatoi & Hlen & Hdig).
  unfold ngx_parse_addr_port. set (t := dotted a b c d) in *. set (text := t ++ ":" :: decw port).
  assert (Hin : ":" ∈ text) by (apply elem_of_app; right; apply list_elem_of_here).
  assert (Hbt : bytes text).
  { apply List.Forall_app. split; [by apply text_bytes, chars_dotted|]. apply List.Forall_cons; [by unfold is_byte; lia|].
    apply hex_bytes. rewrite forallb_forall in Hdig |- *. intros x Hi. unfold is_hex. by rewrite (Hdig x Hi). }
  assert (E1 : ngx_parse_addr text = Ret None).
  { unfold ngx_parse_addr. rewrite (inet_addr_bad ":") by done. rewrite decide_False by (intros []; done).
    rewrite inet6_addr_eq by done. subst text. by rewrite reference_bad. }
  rewrite E1. cbn [mbind cres_bind]. rewrite decide_False.
  2: { apply head_text; [done|by apply chars_dotted]. }
  assert (E2 : ngx_strlchr text ":" = Some (length t)) by (by apply ngx_strlchr_app). rewrite E2.
  assert (E3 : drop (length t + 1) text = decw port).
  { subst text. rewrite drop_app_ge by lia. by replace (length t + 1 - length t)%nat with 1%nat by lia. }
  rewrite E3, Hatoi. rewrite decide_False by lia.
  assert (E4 : take (Z.to_nat (Z.of_nat (length text) - (Z.of_nat (length (decw port)) + 1))) text = t).
  { subst text. rewrite length_app. cbn [length]. replace (Z.to_nat _) with (length t) by lia. apply take_app_length. }
  rewrite E4. unfold ngx_parse_addr. subst t. rewrite inet_addr_dotted by done. rewrite decide_True by done. done.
Qed.

Lemma parse_in6 port p t : 1 <= port < 2 ^ 16 -> Forall text_char t -> in6_reference t = Some p ->
  ngx_parse_addr_port ("[" :: t ++ "]" :: ":" :: decw port) = Ret (Some (sockaddr_in6 (htons port) p)).
Proof.
  intros Hp Ht Hr. destruct (atoi_decw port ltac:(lia)) as (Hatoi & Hlen & Hdig).
  assert (Hbt : bytes t) by (by apply text_bytes).
  assert (Hno : forall c, is_hex c = false -> c <> ":" -> c <> "." -> c ∉ t).
  { intros c Hc H1 H2 Hin. apply list_elem_of_In in Hin. rewrite List.Forall_forall in Ht.
    destruct (Ht _ Hin) as [H|[H|H]]; congruence. }
  unfold ngx_parse_addr_port. set (text := "[" :: t ++ "]" :: ":" :: decw port).
  assert (Hbtext : bytes text).
  { apply List.Forall_cons; [by unfold is_byte; lia|]. apply List.Forall_app. split; [done|].
    do 2 (apply List.Forall_cons; [by unfold is_byte; lia|]). apply hex_bytes.
    rewrite forallb_forall in Hdig |- *. intros x Hi. unfold is_hex. by rewrite (Hdig x Hi). }
  assert (E1 : ngx_parse_addr text = Ret None).
  { unfold ngx_parse_addr. rewrite (inet_addr_bad "[") by (done || apply list_elem_of_here).
    rewrite decide_False by (intros []; done). rewrite inet6_addr_eq by done.
    assert (Hin : ":" ∈ text).
    { apply list_elem_of_further, elem_of_app. right. apply list_elem_of_further, list_elem_of_here. }
    apply list_elem_of_split_l in Hin as (f & l & Ef & Hf). rewrite Ef.
    destruct f as [|c f]; [done|]. rewrite reference_bad; [done|done|done|].
    injection Ef as <- Ef. apply (group_none []). by left. }
  rewrite E1. cbn [mbind cres_bind]. rewrite (decide_True (P := head text = _)) by done.
  assert (E2 : ngx_strlchr text "]" = Some (length ("[" :: t))).
  { unfold text. change ("[" :: t ++ ?l) with (("[" :: t) ++ l). apply ngx_strlchr_app.
    apply not_elem_of_cons. split; [done|]. by apply Hno. }
  rewrite E2. set (k := length ("[" :: t)).
  assert (Hk : k = S (length t)) by done.
  assert (Hl : length text = (k + 2 + length (decw port))%nat) by (subst text; cbn; rewrite length_app; cbn; lia).
  rewrite (decide_False (P := Z.of_nat k = _)) by lia.
  assert (E3 : rdc text (Z.of_nat k + 1) = Ret (":" : Z)).
  { unfold rdc, rd. rewrite decide_True by lia.
    replace text with (("[" :: t ++ ["]"]) ++ ":" :: decw port)
      by (subst text; cbn [app]; by rewrite <- app_assoc).
    rewrite list_lookup_middle; [done|]. rewrite Hk. cbn [length]. rewrite length_app. cbn [length]. lia. }
  rewrite E3. cbn [mbind cres_bind]. rewrite (decide_False (P := ":" <> ":")) by (by intros []).
  assert (E4 : drop (k + 2) text = decw port).
  { subst text. rewrite Hk. cbn [Nat.add drop]. rewrite drop_app_ge by lia.
    by replace (length t + 2 - length t)%nat with 2%nat by lia. }
  rewrite E4, Hatoi. rewrite (decide_False (P := _ \/ _)) by lia.
  assert (E5 : take (Z.to_nat (Z.of_nat (length text) - 2 - (Z.of_nat (length (decw port)) + 1))) (drop 1 text) = t).
  { rewrite Hl, Hk. subst text. cbn [drop]. replace (Z.to_nat _) with (length t) by lia. apply take_app_length. }
  rewrite E5. unfold ngx_parse_addr.
  assert (Ea : ngx_inet_addr t = INADDR_NONE).
  { destruct (decide (":" ∈ t)) as [Hin|Hin]; [by apply (inet_addr_bad ":")|].
    exfalso. revert Hr. rewrite run_reference. rewrite decide_False.
    - rewrite split_last by done. cbn [in6_run]. destruct t as [|x t']; [done|].
      destruct (group (x :: t')); done.
    - destruct t as [|x t']; [done|]. cbn. intros [= ->]. apply Hin, list_elem_of_here. }
  rewrite Ea, decide_False by (intros []; done). rewrite inet6_addr_eq, Hr by done. done.
Qed.

Lemma roundtrip_in port x len : 1 <= port < 2 ^ 16 -> 0 <= x < 2 ^ 32 -> htonl x <> INADDR_NONE -> 64 <= len ->
  exists t, ngx_sock_ntop (sockaddr_in (htons port) (htonl x)) 0 len true = Some t /\
    ngx_parse_addr_port t = Ret (Some (sockaddr_in (htons port) (htonl x))).
Proof.
  intros Hp Hx Hn Hlen. destruct (four_bytes x Hx) as (a & b & c & d & -> & Ha & Hb & Hc & Hd).
  exists (dotted a b c d ++ ":" :: decw port). split; [apply ntop_in; (done || lia)|by apply parse_in].
Qed.

Lemma ntop_in6 port p t socklen len : 0 <= port < 2 ^ 16 -> ngx_inet6_ntop p len = Some t ->
  ngx_sock_ntop (sockaddr_in6 (htons port) p) socklen len true = Some ("[" :: t ++ "]" :: ":" :: decw port).
Proof.
  intros Hp E. pose proof (sprintf_port_tail port Hp) as E2. unfold ngx_sock_ntop, mbind, option_bind.
  by rewrite E, (htons_htons port Hp : ntohs (htons port) = port), E2.
Qed.

Lemma roundtrip_in6 port p len : 1 <= port < 2 ^ 16 -> bytes p -> length p = 16%nat -> ~ unreadable p -> 64 <= len ->
  exists t, ngx_sock_ntop (sockaddr_in6 (htons port) p) 0 len true = Some t /\
    ngx_parse_addr_port t = Ret (Some (sockaddr_in6 (htons port) p)).
Proof.
  intros Hp Hb Hl Hu Hlen.
  assert (H45 : NGX_INET6_ADDRSTRLEN <= len) by (change NGX_INET6_ADDRSTRLEN with 45; lia).
  destruct (ntop_ok p len Hb Hl H45) as (t & Et & [_ Ht] & Hr). rewrite decide_False in Hr by done.
  exists ("[" :: t ++ "]" :: ":" :: decw port). split; [apply ntop_in6; (done || lia)|by apply parse_in6].
Qed.

(** The text of an IPv4 or IPv6 socket address with a port other than zero is
    read back by [ngx_parse_addr_port] as the same socket address, unless it ends
    with the address 255.255.255.255. *)
Theorem addr_port_roundtrip sa len : good_sockaddr sa -> ngx_inet_get_port sa <> 0 -> 64 <= len ->
  match sa with
  | sockaddr_in _ a => a <> INADDR_NONE
  | sockaddr_in6 _ p => ~ unreadable p
  | sockaddr_un _ => False
  end ->
  exists t, ngx_sock_ntop sa 0 len true = Some t /\ ngx_parse_addr_port t = Ret (Some sa).
Proof.
  intros Hsa Hport Hlen Hx. destruct sa as [port a|port p|path]; [| |done].
  - destruct Hsa as [Hp Ha]. pose proof (htons_range port) as Hr.
    pose proof (roundtrip_in (htons port) (htonl a) len) as E.
    rewrite (htons_htons port Hp) in E. rewrite (ntohl_htonl a Ha : htonl (htonl a) = a) in E.
    change (htons port <> 0) in Hport. apply E; [lia|apply htonl_range|done|done].
  - destruct Hsa as (Hp & Hb & Hl). pose proof (htons_range port) as Hr.
    pose proof (roundtrip_in6 (htons port) p len) as E. rewrite (htons_htons port Hp) in E.
    change (htons port <> 0) in Hport. apply E; (done || lia).
Qed.

Lemma addr_port_roundtrip_witness :
  let sa := sockaddr_in6 (htons 8080) (repeat 0 15 ++ [1]) in
  (good_sockaddr sa /\ ngx_inet_get_port sa <> 0) /\
  exists t, ngx_sock_ntop sa 0 64 true = Some t /\ ngx_parse_addr_port t = Ret (Some sa).
Proof.
  cbv zeta. assert (H : good_sockaddr (sockaddr_in6 (htons 8080) (repeat 0 15 ++ [1])) /\
    ngx_inet_get_port (sockaddr_in6 (htons 8080) (repeat 0 15 ++ [1])) <> 0).
  { split; [|done]. cbn [good_sockaddr]. split; [done|]. split; [by_decide|done]. }
  split; [exact H|]. apply (addr_port_roundtrip _ 64 (proj1 H) (proj2 H)); [done|]. by_decide.
Defined.

Close Scope ch_scope.
