(* ===== verification/ProxyProtocol.v ===== *)
(** * The PROXY protocol of ngx_proxy_protocol.c

    The header that a proxy sends before the data of a client, in the text form
    (version 1) and in the binary form (version 2): reading, writing, and the
    search of the type-length-value fields that a binary header carries.  A
    pointer into the buffer is the list of the bytes from it on; a failure
    comes with what is logged.  Allocation does not fail; [None] is a read
    outside of the buffer. *)

From S2P Require Import Prelude NgxString Num Sprintf Inet.

Open Scope ch_scope.

(** ** Definitions *)

(** [ngx_proxy_protocol_t] *)
Record proxy_protocol := Proxy {
  src_addr : list Z;
  dst_addr : list Z;
  src_port : Z;
  dst_port : Z;
  tlvs : list Z;
}.

(** What is logged when a header is refused; [Silent] is a failure without a
    message. *)
Inductive refusal :=
  | BrokenHeader (text : list Z)
  | UnknownVersion (version : Z)
  | TooLarge
  | Silent.

(** The rest of the data with [c->proxy_protocol], or NULL, which leaves it as it is. *)
Inductive outcome :=
  | Accepted (rest : list Z) (c : option proxy_protocol)
  | Refused (why : refusal).

Definition NGX_PROXY_PROTOCOL_V1_MAX_HEADER : Z := 107.
Definition NGX_PROXY_PROTOCOL_AF_INET : Z := 1.
Definition NGX_PROXY_PROTOCOL_AF_INET6 : Z := 2.

(** The sizes of the structures, which have no padding. *)
Definition sizeof_header : nat := 16.
Definition sizeof_tlv : nat := 3.
Definition sizeof_tlv_ssl : nat := 5.

Definition ngx_proxy_protocol_parse_uint16 (p : list Z) : option Z :=
  b0 ← rd p 0;
  b1 ← rd p 1;
  Some (Z.shiftl b0 8 + b1).

Definition ngx_proxy_protocol_parse_uint32 (p : list Z) : option Z :=
  b0 ← rd p 0;
  b1 ← rd p 1;
  b2 ← rd p 2;
  b3 ← rd p 3;
  Some (u32 (Z.shiftl b0 24 + Z.shiftl b1 16 + Z.shiftl b2 8 + b3)).

(** [ngx_memcmp] and [ngx_strncmp] with a literal of that length, which has no NUL
    in the second case: whether the result is zero. *)
Fixpoint starts_with (p s : list Z) {struct s} : option bool :=
  match s with
  | [] => Some true
  | c :: s =>
      match p with
      | [] => None
      | b :: p => if decide (b = c) then starts_with p s else Some false
      end
  end.

Definition CRLF : list Z := [CR; LF].
Definition signature : list Z := [CR; LF; CR; LF; 0; CR; LF] ++ bstr "QUIT" ++ [LF].

(** *** Version 1 *)

(** The label [invalid]. *)
Fixpoint line_prefix (p : list Z) : list Z :=
  match p with
  | [] => []
  | c :: p => if decide (c = CR \/ c = LF) then [] else c :: line_prefix p
  end.

Definition invalid (buf : list Z) : outcome := Refused (BrokenHeader (line_prefix buf)).

(** The loop of the label [skip]: the data after the first CR LF. *)
Fixpoint skip_loop (p : list Z) : option (list Z) :=
  match p with
  | [] => None
  | p0 :: q =>
      match q with
      | [] => None
      | p1 :: r => if decide (p0 = CR /\ p1 = LF) then Some r else skip_loop q
      end
  end.

(** The loop of [ngx_proxy_protocol_read_addr]: [p] after it, [None] for NULL. *)
Fixpoint addr_loop (p : list Z) : option (list Z) :=
  match p with
  | [] => None
  | ch :: p =>
      if decide (ch = " ") then Some p
      else if decide (ch <> ":" /\ ch <> "." /\ (ch < "a" \/ ch > "f")
                      /\ (ch < "A" \/ ch > "F") /\ (ch < "0" \/ ch > "9"))
      then None
      else addr_loop p
  end.

(** The address and the data after it. *)
Definition ngx_proxy_protocol_read_addr (pos : list Z) : option (list Z * list Z) :=
  p ← addr_loop pos;
  let len := (length pos - length p - 1)%nat in
  Some (take len pos, p).

Fixpoint port_loop (p : list Z) (sep : Z) : option (list Z) :=
  match p with
  | [] => None
  | c :: p => if decide (c = sep) then Some p else port_loop p sep
  end.

Definition ngx_proxy_protocol_read_port (pos : list Z) (sep : Z) : option (Z * list Z) :=
  p ← port_loop pos sep;
  let len := (length pos - length p - 1)%nat in
  let n := ngx_atoi (take len pos) in
  if decide (n < 0 \/ n > 65535) then None else Some (n, p).

(** The test for TCP4 and TCP6 with the space. *)
Definition tcp_family (p : list Z) : option bool :=
  if decide (length p < 5)%nat then Some false
  else
    tcp ← starts_with p (bstr "TCP");
    if (tcp : bool) then
      p3 ← rd p 3;
      p4 ← rd p 4;
      Some (bool_decide ((p3 = "4" \/ p3 = "6") /\ p4 = " "))
    else Some false.

(** The addresses and ports of a text header, up to its line feed; [None] for the
    label [invalid]. *)
Definition v1_fields (p : list Z) : option (proxy_protocol * list Z) :=
  '(src, p) ← ngx_proxy_protocol_read_addr p;
  '(dst, p) ← ngx_proxy_protocol_read_addr p;
  '(sport, p) ← ngx_proxy_protocol_read_port p " ";
  '(dport, p) ← ngx_proxy_protocol_read_port p CR;
  match p with
  | [] => None
  | ch :: p => if decide (ch <> LF) then None else Some (Proxy src dst sport dport [], p)
  end.

(** *** Version 2 *)

(** The address of [sockaddr_in] from its bytes in memory. *)
Definition in_addr (p : list Z) : Z := foldr (fun b a => b + 2 ^ 8 * a) 0 p.

(** The socket addresses of the two families with port zero, and their sizes. *)
Definition v2_sockaddr (family : Z) (p : list Z) : sockaddr :=
  if decide (family = NGX_PROXY_PROTOCOL_AF_INET) then sockaddr_in 0 (in_addr p) else sockaddr_in6 0 p.

Definition v2_socklen (family : Z) : Z :=
  if decide (family = NGX_PROXY_PROTOCOL_AF_INET) then 16 else 28.

(** The number of bytes of an address, [None] for the other families. *)
Definition addr_size (family : Z) : option nat :=
  if decide (family = NGX_PROXY_PROTOCOL_AF_INET) then Some 4%nat
  else if decide (family = NGX_PROXY_PROTOCOL_AF_INET6) then Some 16%nat
  else None.

(** The [switch] over the families and the code after it; [body] are the bytes from [buf] to
    [end]. *)
Definition v2_addrs (family : Z) (n : nat) (body : list Z) : option (option proxy_protocol) :=
  if decide (length body < 2 * n + 4)%nat then Some None
  else
    let src := v2_sockaddr family (take n body) in
    let dst := v2_sockaddr family (take n (drop n body)) in
    sport ← ngx_proxy_protocol_parse_uint16 (drop (2 * n) body);
    dport ← ngx_proxy_protocol_parse_uint16 (drop (2 * n + 2) body);
    saddr ← ngx_sock_ntop src (v2_socklen family) NGX_SOCKADDR_STRLEN false;
    daddr ← ngx_sock_ntop dst (v2_socklen family) NGX_SOCKADDR_STRLEN false;
    Some (Some (Proxy saddr daddr sport dport (drop (2 * n + 4) body))).

Definition ngx_proxy_protocol_v2_read (c : option proxy_protocol) (header : list Z) : option outcome :=
  version_command ← rd header 12;
  family_transport ← rd header 13;
  let buf := drop sizeof_header header in
  let version := Z.shiftr version_command 4 in
  if decide (version <> 2) then Some (Refused (UnknownVersion version))
  else
    len ← ngx_proxy_protocol_parse_uint16 (drop 14 header);
    if decide (Z.of_nat (length buf) < len) then Some (Refused TooLarge)
    else
      let end_ := drop (Z.to_nat len) buf in
      let command := Z.land version_command 0x0f in
      if decide (command <> 1) then Some (Accepted end_ c)
      else
        let transport := Z.land family_transport 0x0f in
        if decide (transport <> 1) then Some (Accepted end_ c)
        else
          let family := Z.shiftr family_transport 4 in
          match addr_size family with
          | None => Some (Accepted end_ c)
          | Some n =>
              pp ← v2_addrs family n (take (Z.to_nat len) buf);
              match pp with
              | None => Some (Refused Silent)
              | Some pp => Some (Accepted end_ (Some pp))
              end
          end.

(** *** Reading *)

Definition ngx_proxy_protocol_read (c : option proxy_protocol) (buf : list Z) : option outcome :=
  v2 ← (if decide (length buf < sizeof_header)%nat then Some false else starts_with buf signature);
  if (v2 : bool) then ngx_proxy_protocol_v2_read c buf
  else
    proxy ← (if decide (length buf < 8)%nat then Some false else starts_with buf (bstr "PROXY "));
    if negb proxy then Some (invalid buf)
    else
      let p := drop 6 buf in
      unknown ← (if decide (length p < 7)%nat then Some false else starts_with p (bstr "UNKNOWN"));
      if (unknown : bool) then
        Some (match skip_loop (drop 7 p) with
              | Some rest => Accepted rest c
              | None => invalid buf
              end)
      else
        tcp ← tcp_family p;
        if negb tcp then Some (invalid buf)
        else
          Some (match v1_fields (drop 5 p) with
                | Some (pp, rest) => Accepted rest (Some pp)
                | None => invalid buf
                end).

(** *** Writing *)

(** The addresses of the connection; [local_sockaddr] is what
    [ngx_connection_local_sockaddr] finds, [None] when it fails. *)
Record connection := Connection {
  c_sockaddr : sockaddr;
  c_socklen : Z;
  local_sockaddr : option (sockaddr * Z);
}.

(** The code after the [switch]; [buf] is what is written so far. *)
Definition write_addrs (c : connection) (lsa : sockaddr) (llen n : Z) (buf : list Z) : option (option (list Z)) :=
  t ← ngx_sock_ntop (c_sockaddr c) (c_socklen c) (n - Z.of_nat (length buf)) false;
  let buf := (buf ++ t) ++ [(" " : Z)] in
  t ← ngx_sock_ntop lsa llen (n - Z.of_nat (length buf)) false;
  let buf := buf ++ t in
  let port := ngx_inet_get_port (c_sockaddr c) in
  let lport := ngx_inet_get_port lsa in
  t ← ngx_snprintf (n - Z.of_nat (length buf)) (bstr " %ui %ui" ++ CRLF) [AInt port; AInt lport];
  Some (Some (buf ++ t)).

(** The bytes written from [buf] on, for a buffer of [n] bytes; the inner [None] is NULL. *)
Definition ngx_proxy_protocol_write (c : connection) (n : Z) : option (option (list Z)) :=
  if decide (n < NGX_PROXY_PROTOCOL_V1_MAX_HEADER) then Some None
  else
    match local_sockaddr c with
    | None => Some None
    | Some (lsa, llen) =>
        match c_sockaddr c with
        | sockaddr_in _ _ => write_addrs c lsa llen n (bstr "PROXY TCP4 ")
        | sockaddr_in6 _ _ => write_addrs c lsa llen n (bstr "PROXY TCP6 ")
        | sockaddr_un _ => Some (Some (bstr "PROXY UNKNOWN" ++ CRLF))
        end
    end.

(** *** Type-length-value fields *)

(** The [while] loop, at most once for every byte: the result with the value that it
    leaves in [*value]. *)
Fixpoint lookup_loop (fuel : nat) (p : list Z) (type : Z) (value : list Z) : option (Z * list Z) :=
  match fuel with
  | O => None
  | S fuel =>
      if decide (length p = 0)%nat then Some (NGX_DECLINED, value)
      else if decide (length p < sizeof_tlv)%nat then Some (NGX_ERROR, value)
      else
        t ← rd p 0;
        len ← ngx_proxy_protocol_parse_uint16 (drop 1 p);
        let p := drop sizeof_tlv p in
        if decide (Z.of_nat (length p) < len) then Some (NGX_ERROR, value)
        else if decide (t = type) then Some (NGX_OK, take (Z.to_nat len) p)
        else lookup_loop fuel (drop (Z.to_nat len) p) type value
  end.

Definition ngx_proxy_protocol_lookup_tlv (tlvs : list Z) (type : Z) (value : list Z) : option (Z * list Z) :=
  lookup_loop (S (length tlvs)) tlvs type value.

Definition ngx_proxy_protocol_tlv_entries : list (list Z * Z) :=
  [(bstr "alpn", 0x01); (bstr "authority", 0x02); (bstr "unique_id", 0x05); (bstr "ssl", 0x20); (bstr "netns", 0x30)].

Definition ngx_proxy_protocol_tlv_ssl_entries : list (list Z * Z) :=
  [(bstr "version", 0x21); (bstr "cn", 0x22); (bstr "cipher", 0x23); (bstr "sig_alg", 0x24); (bstr "key_alg", 0x25)].

(** The [for] loop over the entries and the code after it. *)
Fixpoint entries_loop (te : list (list Z * Z)) (p : list Z) (tlvs value : list Z) : option (Z * list Z) :=
  match te with
  | [] => Some (NGX_DECLINED, value)
  | (name, type) :: te =>
      eq ← (if decide (length name = length p) then starts_with p name else Some false);
      if (eq : bool) then ngx_proxy_protocol_lookup_tlv tlvs type value
      else entries_loop te p tlvs value
  end.

(** The code after the case of a name with the prefix ssl_. *)
Definition get_by_name (te : list (list Z * Z)) (p tlvs value : list Z) : option (Z * list Z) :=
  hex ← (if decide (length p < 2)%nat then Some false else starts_with p (bstr "0x"));
  if (hex : bool) then
    let type := ngx_hextoi (drop 2 p) in
    if decide (type = NGX_ERROR) then Some (NGX_ERROR, value)
    else ngx_proxy_protocol_lookup_tlv tlvs type value
  else entries_loop te p tlvs value.

Definition ngx_proxy_protocol_get_tlv (c : option proxy_protocol) (name value : list Z) : option (Z * list Z) :=
  match c with
  | None => Some (NGX_DECLINED, value)
  | Some pp =>
      is_ssl ← (if decide (length name < 4)%nat then Some false else starts_with name (bstr "ssl_"));
      if (is_ssl : bool) then
        '(rc, ssl) ← ngx_proxy_protocol_lookup_tlv (tlvs pp) 0x20 [];
        if decide (rc <> NGX_OK) then Some (rc, value)
        else if decide (length ssl < sizeof_tlv_ssl)%nat then Some (NGX_ERROR, value)
        else
          let p := drop 4 name in
          verify ← (if decide (length p = 6)%nat then starts_with p (bstr "verify") else Some false);
          if (verify : bool) then
            v ← ngx_proxy_protocol_parse_uint32 (drop 1 ssl);
            t ← ngx_sprintf (bstr "%uD") [AInt v];
            Some (NGX_OK, t)
          else get_by_name ngx_proxy_protocol_tlv_ssl_entries p (drop sizeof_tlv_ssl ssl) value
      else get_by_name ngx_proxy_protocol_tlv_entries name (tlvs pp) value
  end.

Example read_1 :
  ngx_proxy_protocol_read None (bstr "PROXY TCP4 192.0.2.1 10.0.0.1 56324 443" ++ CRLF ++ bstr "GET") =
  Some (Accepted (bstr "GET") (Some (Proxy (bstr "192.0.2.1") (bstr "10.0.0.1") 56324 443 []))).
Proof. by vm_compute. Qed.

Example read_2 :
  ngx_proxy_protocol_read None (bstr "PROXY TCP4 192.0.2.1 10.0.0.1 65536 443" ++ CRLF) =
  Some (Refused (BrokenHeader (bstr "PROXY TCP4 192.0.2.1 10.0.0.1 65536 443"))).
Proof. by vm_compute. Qed.

Example read_3 :
  ngx_proxy_protocol_read None
    (signature ++ [0x21; 0x11; 0; 17; 192; 0; 2; 1; 10; 0; 0; 1; 0xdc; 0x04; 1; 0xbb; 1; 0; 2; 104; 50; 71]) =
  Some (Accepted [71] (Some (Proxy (bstr "192.0.2.1") (bstr "10.0.0.1") 56324 443 [1; 0; 2; 104; 50]))).
Proof. by vm_compute. Qed.

Example write_1 :
  ngx_proxy_protocol_write (Connection (sockaddr_in (htons 56324) (htonl 0xc0000201)) 16
    (Some (sockaddr_in6 (htons 443) (repeat 0 15 ++ [1]), 28))) 107 =
  Some (Some (bstr "PROXY TCP4 192.0.2.1 ::1 56324 443" ++ CRLF)).
Proof. by vm_compute. Qed.

Example get_1 :
  ngx_proxy_protocol_get_tlv (Some (Proxy [] [] 0 0 [1; 0; 2; 104; 50])) (bstr "alpn") [] = Some (NGX_OK, bstr "h2").
Proof. by vm_compute. Qed.

Example get_2 :
  ngx_proxy_protocol_get_tlv (Some (Proxy [] [] 0 0 ([2; 0; 1; 120; 0x20; 0; 5; 7; 0; 0; 0; 1]))) (bstr "ssl_verify") [] =
  Some (NGX_OK, bstr "1").
Proof. by vm_compute. Qed.

Example get_3 :
  ngx_proxy_protocol_get_tlv (Some (Proxy [] [] 0 0 [1; 0; 2; 104; 50; 0x20; 0; 9; 7])) (bstr "0x20") [] =
  Some (NGX_ERROR, []).
Proof. by vm_compute. Qed.

(** ** Specification of reading *)

(** A port number in decimal. *)
Definition port_text (d : list Z) (n : Z) : Prop :=
  d <> [] /\ forallb is_digit d = true /\ dec_value d = n /\ n <= 65535.

Definition crlf_free (x : list Z) : Prop := forall a b, x <> a ++ CRLF ++ b.

Definition be16 (x : Z) : list Z := [x / 2 ^ 8; x mod 2 ^ 8].

(** A binary header with its body. *)
Definition v2_header (vc ft : Z) (body : list Z) : list Z :=
  signature ++ [vc; ft] ++ be16 (Z.of_nat (length body)) ++ body.

(** The text of a binary address. *)
Definition shown (a text : list Z) : Prop :=
  match a with
  | [a; b; c; d] => text = dotted a b c d
  | _ => length a = 16%nat /\ ngx_inet6_ntop a NGX_SOCKADDR_STRLEN = Some text
  end.

(** The headers of both versions, with the data that follows and the state that they
    leave in the connection. *)
Inductive header (c : option proxy_protocol) : list Z -> list Z -> option proxy_protocol -> Prop :=
  | v1_unknown x rest : crlf_free x ->
      header c (bstr "PROXY UNKNOWN" ++ x ++ CRLF ++ rest) rest c
  | v1_tcp (v : Z) s d sp dp sport dport rest : v = "4" \/ v = "6" ->
      Forall text_char s -> Forall text_char d -> port_text sp sport -> port_text dp dport ->
      header c (bstr "PROXY TCP" ++ v :: " " :: s ++ " " :: d ++ " " :: sp ++ " " :: dp ++ CRLF ++ rest) rest
        (Some (Proxy s d sport dport []))
  | v2_skipped vc ft body rest : vc / 2 ^ 4 = 2 -> Z.of_nat (length body) < 2 ^ 16 ->
      vc mod 2 ^ 4 <> 1 \/ ft mod 2 ^ 4 <> 1 \/ addr_size (ft / 2 ^ 4) = None ->
      header c (v2_header vc ft body ++ rest) rest c
  | v2_proxied ft n src dst s d sport dport fields rest :
      addr_size (ft / 2 ^ 4) = Some n -> ft mod 2 ^ 4 = 1 -> length src = n -> length dst = n ->
      shown src s -> shown dst d -> 0 <= sport < 2 ^ 16 -> 0 <= dport < 2 ^ 16 ->
      Z.of_nat (length (src ++ dst ++ be16 sport ++ be16 dport ++ fields)) < 2 ^ 16 ->
      header c (v2_header 0x21 ft (src ++ dst ++ be16 sport ++ be16 dport ++ fields) ++ rest) rest
        (Some (Proxy s d sport dport fields)).

(** What is logged of data without a header. *)
Inductive refused : list Z -> refusal -> Prop :=
  | refused_text buf text l : buf = text ++ l -> (CR ∉ text) /\ (LF ∉ text) ->
      (l = [] \/ head l = Some CR \/ head l = Some LF) ->
      (forall r, (length buf < sizeof_header)%nat \/ buf <> signature ++ r) ->
      refused buf (BrokenHeader text)
  | refused_version vc l : (length l >= 3)%nat -> vc / 2 ^ 4 <> 2 ->
      refused (signature ++ vc :: l) (UnknownVersion (vc / 2 ^ 4))
  | refused_length vc ft len l : vc / 2 ^ 4 = 2 -> 0 <= len < 2 ^ 16 -> Z.of_nat (length l) < len ->
      refused (signature ++ [vc; ft] ++ be16 len ++ l) TooLarge
  | refused_addrs ft n body rest : addr_size (ft / 2 ^ 4) = Some n -> ft mod 2 ^ 4 = 1 ->
      (length body < 2 * n + 4)%nat ->
      refused (v2_header 0x21 ft body ++ rest) Silent.

(** ** Texts *)

Lemma starts_with_app s r : starts_with (s ++ r) s = Some true.
Proof. induction s as [|c s IH]; [done|]. cbn. by rewrite decide_True. Qed.

Lemma starts_with_cases s : forall p, (length s <= length p)%nat ->
  (exists r, p = s ++ r /\ starts_with p s = Some true) \/
  ((forall r, p <> s ++ r) /\ starts_with p s = Some false).
Proof.
  induction s as [|c s IH]; intros p Hp; [left; by exists p|].
  destruct p as [|b p]; cbn in Hp; [lia|]. cbn [starts_with]. destruct (decide (b = c)) as [->|Hb].
  - destruct (IH p ltac:(lia)) as [(r & -> & E)|[Hr E]]; [left; by exists r|right].
    split; [|done]. intros r [= Ep]. by apply (Hr r).
  - right. split; [|done]. intros r [= Eb _]. done.
Qed.


(** The texts that are followed by a mark. *)
Lemma addr_loop_spec p q : addr_loop p = Some q <-> exists s, p = s ++ " " :: q /\ Forall text_char s.
Proof.
  revert q. induction p as [|c p IH]; intros q; cbn [addr_loop].
  { split; [done|]. by intros ([|] & ? & _). }
  destruct (decide (c = " ")) as [->|Hc].
  - split; [intros [= ->]; by exists []|]. intros ([|x s] & E & Hs).
    + by injection E as ->.
    + injection E as <- _. inversion Hs as [|? ? [?|[?|?]] ?]; done.
  - assert (Hx : text_char c <-> ~ (c <> ":" /\ c <> "." /\ (c < "a" \/ c > "f") /\ (c < "A" \/ c > "F") /\ (c < "0" \/ c > "9"))).
    { unfold text_char, is_hex, is_digit. rewrite !orb_true_iff, !bool_decide_eq_true.
      destruct (decide (c = ":")), (decide (c = ".")); split; intros; tauto || lia || (left; lia). }
    destruct (decide _) as [Hn|Hn].
    + split; [done|]. intros ([|x s] & E & Hs); [by injection E as ->|]. injection E as <- _.
      inversion Hs; tauto.
    + rewrite IH. split.
      * intros (s & -> & Hs). exists (c :: s). split; [done|]. constructor; tauto.
      * intros ([|x s] & E & Hs); [by injection E as ->|]. injection E as <- ->. exists s.
        split; [done|]. by inversion Hs.
Qed.

(** The bytes between a position and the mark. *)
Lemma take_between {A} (s q : list A) c : take (length (s ++ c :: q) - length q - 1) (s ++ c :: q) = s.
Proof.
  rewrite length_app. cbn [length]. replace (length s + S (length q) - length q - 1)%nat with (length s) by lia.
  apply take_app_length.
Qed.

Lemma read_addr_spec p s q : ngx_proxy_protocol_read_addr p = Some (s, q) <-> p = s ++ " " :: q /\ Forall text_char s.
Proof.
  unfold ngx_proxy_protocol_read_addr. rewrite bind_Some. split.
  - intros (x & Hx & [= <- <-]). apply addr_loop_spec in Hx as (s' & -> & Hs). by rewrite take_between.
  - intros [-> Hs]. exists q. rewrite addr_loop_spec, take_between. split; [by exists s|done].
Qed.

Lemma port_loop_spec sep p q : port_loop p sep = Some q <-> exists s, p = s ++ sep :: q /\ sep ∉ s.
Proof.
  induction p as [|c p IH]; cbn [port_loop].
  { split; [done|]. by intros ([|] & ? & _). }
  destruct (decide (c = sep)) as [->|Hc].
  - split; [intros [= ->]; exists []; split; [done|apply not_elem_of_nil]|]. intros ([|x s] & E & Hs).
    + by injection E as ->.
    + injection E as <- _. destruct Hs. apply list_elem_of_here.
  - rewrite IH. split.
    + intros (s & -> & Hs). exists (c :: s). split; [done|]. by apply not_elem_of_cons.
    + intros ([|x s] & E & Hs); [by injection E as ->|]. injection E as <- ->. exists s.
      by apply not_elem_of_cons in Hs as [_ Hs].
Qed.

Lemma atoi_port d : 0 <= ngx_atoi d <= 65535 <-> port_text d (ngx_atoi d).
Proof.
  unfold ngx_atoi. rewrite atoi_max_spec by by_decide. unfold port_text.
  destruct (bool_decide (d = [])) eqn:Ed; [apply bool_decide_eq_true in Ed as ->|apply bool_decide_eq_false in Ed]; cbn [negb andb].
  { split; [by intros [[]]|tauto]. }
  destruct (forallb is_digit d) eqn:Hd; [|split; [by intros [[]]|by intros (_ & ? & _)]].
  destruct (Z.leb_spec (dec_value d) NGX_MAX_INT_T_VALUE) as [Hm|Hm]; cbn [andb].
  - split; [tauto|]. intros (_ & _ & _ & H). split; [|done].
    pose proof (numeral_ge 10 (fun c => c - "0") 0 d ltac:(lia) ltac:(lia) (digits_nonneg d Hd)) as Hge. exact Hge.
  - split; [by intros [[]]|]. intros (_ & _ & H & _). unfold NGX_MAX_INT_T_VALUE in Hm. rewrite H in Hm. by cbv in Hm.
Qed.
(** The end of a line of any text. *)
Lemma skip_loop_spec p r : skip_loop p = Some r <-> exists x, p = x ++ CRLF ++ r /\ crlf_free x.
Proof.
  induction p as [|p0 q IH]; [split; [done|]; by intros ([|] & ? & _)|].
  destruct q as [|p1 q]; [split; [done|]; by intros ([|? [|]] & ? & _)|].
  change (skip_loop (p0 :: p1 :: q)) with
    (if decide (p0 = CR /\ p1 = LF) then Some q else skip_loop (p1 :: q)).
  destruct (decide (p0 = CR /\ p1 = LF)) as [[-> ->]|Hn].
  - split.
    + intros [= ->]. exists []. split; [done|]. intros [|] b; done.
    + intros ([|x0 [|x1 x]] & E & Hx); [by injection E as ->|by injection E|].
      injection E as <- <- _. by destruct (Hx [] x).
  - rewrite IH. split.
    + intros (x & E & Hx). exists (p0 :: x). split; [by rewrite E|]. intros [|a0 a] b Eab.
      * injection Eab as -> ->. injection E as -> _. by destruct Hn.
      * injection Eab as _ ->. by destruct (Hx a b).
    + intros ([|x0 x] & E & Hx); [injection E as -> -> _; by destruct Hn|]. injection E as <- E. exists x.
      split; [done|]. intros a b ->. by destruct (Hx (p0 :: a) b).
Qed.

Lemma line_prefix_spec p : exists l, p = line_prefix p ++ l /\ (CR ∉ line_prefix p) /\ (LF ∉ line_prefix p) /\
  (l = [] \/ head l = Some CR \/ head l = Some LF).
Proof.
  induction p as [|c p (l & E & HC & HL & Hl)]; cbn [line_prefix].
  { exists []. split; [done|]. split; [apply not_elem_of_nil|]. split; [apply not_elem_of_nil|by left]. }
  destruct (decide (c = CR \/ c = LF)) as [Hc|Hc].
  - exists (c :: p). split; [done|]. split; [apply not_elem_of_nil|]. split; [apply not_elem_of_nil|].
    right. destruct Hc as [-> | ->]; [by left|by right].
  - exists l. split; [cbn; by rewrite <- E|]. rewrite !not_elem_of_cons. split_and!; (done || intros <-; tauto).
Qed.

Lemma atoi_min d : ngx_atoi d < 0 \/ ngx_atoi d > 65535 \/ port_text d (ngx_atoi d).
Proof. pose proof (atoi_port d). destruct (decide (0 <= ngx_atoi d <= 65535)); [tauto|lia]. Qed.

Lemma port_value d n : port_text d n -> ngx_atoi d = n /\ 0 <= n <= 65535.
Proof.
  intros (Hne & Hd & Hv & Hn). assert (E : ngx_atoi d = n).
  { unfold ngx_atoi. rewrite atoi_max_spec by by_decide. rewrite bool_decide_false, Hd by done. cbn [negb andb].
    rewrite Hv. by rewrite (proj2 (Z.leb_le n NGX_MAX_INT_T_VALUE)) by (unfold NGX_MAX_INT_T_VALUE; lia). }
  split; [done|]. rewrite <- E. apply atoi_port. rewrite E. done.
Qed.

Lemma digits_without sep d : forallb is_digit d = true -> is_digit sep = false -> sep ∉ d.
Proof. intros Hd Hs Hin. rewrite forallb_forall in Hd. apply list_elem_of_In, Hd in Hin. congruence. Qed.

Lemma read_port_spec sep p n q : is_digit sep = false ->
  ngx_proxy_protocol_read_port p sep = Some (n, q) <-> exists d, p = d ++ sep :: q /\ port_text d n.
Proof.
  intros Hsep. unfold ngx_proxy_protocol_read_port. rewrite bind_Some. split.
  - intros (x & Hx & E). apply port_loop_spec in Hx as (d & -> & Hd). rewrite take_between in E.
    destruct (decide _) as [|Hn] in E; [done|]. injection E as <- <-. exists d. split; [done|].
    destruct (atoi_min d) as [|[]]; [lia..|done].
  - intros (d & -> & Hd). exists q. rewrite port_loop_spec, take_between. destruct (port_value d n Hd) as [-> Hn].
    split; [exists d; split; [done|]; apply digits_without; [apply Hd|done]|]. by rewrite decide_False by lia.
Qed.

(** The fields of a text header. *)
Lemma v1_fields_spec p pp rest : v1_fields p = Some (pp, rest) <->
  exists s d sp dp sport dport, p = s ++ " " :: d ++ " " :: sp ++ " " :: dp ++ CRLF ++ rest /\
    (Forall text_char s /\ Forall text_char d /\ port_text sp sport /\ port_text dp dport) /\ pp = Proxy s d sport dport [].
Proof.
  unfold v1_fields. split.
  - intros E. apply bind_Some in E as ([s p1] & E1 & E). apply read_addr_spec in E1 as [-> Hs].
    apply bind_Some in E as ([d p2] & E2 & E). apply read_addr_spec in E2 as [-> Hd].
    apply bind_Some in E as ([sport p3] & E3 & E). apply read_port_spec in E3 as (sp & -> & Hsp); [|done].
    apply bind_Some in E as ([dport p4] & E4 & E). apply read_port_spec in E4 as (dp & -> & Hdp); [|done].
    destruct p4 as [|ch p4]; [done|]. destruct (decide (ch <> LF)) as [|Hl] in E; [done|]. injection E as <- <-.
    apply dec_stable in Hl as ->. by exists s, d, sp, dp, sport, dport.
  - intros (s & d & sp & dp & sport & dport & -> & (Hs & Hd & Hsp & Hdp) & ->).
    rewrite (proj2 (read_addr_spec _ s _)) by done. cbn [mbind option_bind].
    rewrite (proj2 (read_addr_spec _ d _)) by done. cbn [mbind option_bind].
    rewrite (proj2 (read_port_spec " " _ sport (dp ++ CRLF ++ rest) eq_refl)) by (by exists sp). cbn [mbind option_bind].
    rewrite (proj2 (read_port_spec CR _ dport (LF :: rest) eq_refl)) by (by exists dp). cbn [mbind option_bind].
    rewrite decide_False by (by intros []). done.
Qed.

(** ** Binary addresses *)

Lemma parse_be16 x l : 0 <= x < 2 ^ 16 -> ngx_proxy_protocol_parse_uint16 (be16 x ++ l) = Some x.
Proof.
  intros Hx. unfold ngx_proxy_protocol_parse_uint16, be16. cbn [app mbind option_bind rd].
  change (rd _ 0) with (Some (x / 2 ^ 8)). change (rd _ 1) with (Some (x mod 2 ^ 8)). cbn [mbind option_bind].
  rewrite Z.shiftl_mul_pow2 by lia. f_equal. dlia.
Qed.

Lemma be16_bytes a b : is_byte a -> is_byte b -> be16 (a * 2 ^ 8 + b) = [a; b] /\ 0 <= a * 2 ^ 8 + b < 2 ^ 16.
Proof.
  unfold is_byte, be16. intros Ha Hb. split; [|lia].
  f_equal; [dlia|f_equal; dlia].
Qed.

(** Two bytes are the number that they encode. *)
Lemma two_bytes l : bytes l -> length l = 2%nat -> exists x, l = be16 x /\ 0 <= x < 2 ^ 16.
Proof.
  intros Hb Hl. destruct l as [|a [|b [|]]]; cbn in Hl; try lia. inversion Hb as [|? ? Ha Hb']. inversion Hb'.
  exists (a * 2 ^ 8 + b). by destruct (be16_bytes a b) as [-> ?].
Qed.
Lemma is_byte_mod x : is_byte (x mod 2 ^ 8).
Proof. unfold is_byte. dlia. Qed.

(** The text of an IPv4 address. *)
Definition text4 (x : Z) : list Z :=
  dotted (x mod 2 ^ 8) (x / 2 ^ 8 mod 2 ^ 8) (x / 2 ^ 16 mod 2 ^ 8) (x / 2 ^ 24 mod 2 ^ 8).

Lemma ntop_text4 port x socklen len : 15 <= len -> ngx_sock_ntop (sockaddr_in port x) socklen len false = Some (text4 x).
Proof.
  intros Hlen. cbn [ngx_sock_ntop]. unfold addr_bytes, text4. cbn [map].
  apply snprintf_fits; [by_decide|apply sprintf_dotted; apply is_byte_mod|].
  pose proof (length_dotted _ _ _ _ (is_byte_mod x) (is_byte_mod (x / 2 ^ 8)) (is_byte_mod (x / 2 ^ 16)) (is_byte_mod (x / 2 ^ 24))).
  lia.
Qed.

Lemma text4_in_addr a b c d : is_byte a -> is_byte b -> is_byte c -> is_byte d ->
  text4 (in_addr [a; b; c; d]) = dotted a b c d.
Proof.
  unfold is_byte, text4, in_addr. cbn [foldr]. intros Ha Hb Hc Hd.
  assert (E : forall h, h * 2 ^ 8 / 2 ^ 8 = h) by (intros; by apply Z.div_mul).
  f_equal; dlia.
Qed.

(** The size of an address is that of one of the two families. *)
Lemma addr_size_cases family n : addr_size family = Some n ->
  (family = 1 /\ n = 4%nat) \/ (family = 2 /\ n = 16%nat).
Proof.
  unfold addr_size, NGX_PROXY_PROTOCOL_AF_INET, NGX_PROXY_PROTOCOL_AF_INET6.
  destruct (decide (family = 1)); [intros [= <-]; by left|].
  destruct (decide (family = 2)); [intros [= <-]; by right|done].
Qed.

Lemma shown_ntop family n a : addr_size family = Some n -> bytes a -> length a = n ->
  exists t, ngx_sock_ntop (v2_sockaddr family a) (v2_socklen family) NGX_SOCKADDR_STRLEN false = Some t /\
    forall t', shown a t' <-> t' = t.
Proof.
  intros Hn Hb Hl. apply addr_size_cases in Hn as [[-> ->]|[-> ->]].
  - destruct a as [|a [|b [|c [|d [|]]]]]; cbn in Hl; try lia.
    assert (H4 : is_byte a /\ is_byte b /\ is_byte c /\ is_byte d) by (rewrite !List.Forall_cons_iff in Hb; tauto).
    exists (dotted a b c d). split; [|done]. change (v2_sockaddr 1 [a; b; c; d]) with (sockaddr_in 0 (in_addr [a; b; c; d])).
    rewrite ntop_text4 by (unfold NGX_SOCKADDR_STRLEN; lia). by rewrite text4_in_addr by apply H4.
  - destruct (ntop_ok a NGX_SOCKADDR_STRLEN Hb Hl ltac:(unfold NGX_SOCKADDR_STRLEN, NGX_INET6_ADDRSTRLEN; cbn; lia)) as (t & Et & _). exists t. split.
    + change (v2_sockaddr 2 a) with (sockaddr_in6 0 a). unfold ngx_sock_ntop, mbind, option_bind. by rewrite Et.
    + intros t'. destruct a as [|? [|? [|? [|? [|? ?]]]]]; try (cbn in Hl; lia). unfold shown. rewrite Et.
      split; [by intros [_ [= ->]]|by intros ->].
Qed.

(** A body is cut into two addresses, two ports and the fields. *)
Lemma body_cut n body : bytes body -> (2 * n + 4 <= length body)%nat -> exists src dst sport dport,
  body = src ++ dst ++ be16 sport ++ be16 dport ++ drop (2 * n + 4) body /\
  (bytes src /\ length src = n) /\ (bytes dst /\ length dst = n) /\ 0 <= sport < 2 ^ 16 /\ 0 <= dport < 2 ^ 16.
Proof.
  intros Hb Hl.
  destruct (two_bytes (take 2 (drop (n + n) body))) as (sport & Es & Hs).
  { by apply Forall_take, Forall_drop. } { rewrite length_take, length_drop. lia. }
  destruct (two_bytes (take 2 (drop (n + n + 2) body))) as (dport & Ed & Hd).
  { by apply Forall_take, Forall_drop. } { rewrite length_take, length_drop. lia. }
  exists (take n body), (take n (drop n body)), sport, dport. split.
  - rewrite <- Es, <- Ed. replace (2 * n + 4)%nat with (n + n + 2 + 2)%nat by lia.
    rewrite <- !drop_drop, !take_drop. done.
  - rewrite !length_take, length_drop. split; [split; [by apply Forall_take|lia]|].
    split; [split; [by apply Forall_take, Forall_drop|lia]|done].
Qed.

(** The code after the [switch], on a body that is long enough. *)
Lemma v2_addrs_spec family n src dst sport dport fields : addr_size family = Some n ->
  bytes src -> length src = n -> bytes dst -> length dst = n -> 0 <= sport < 2 ^ 16 -> 0 <= dport < 2 ^ 16 ->
  exists s d, (forall t, shown src t <-> t = s) /\ (forall t, shown dst t <-> t = d) /\
    v2_addrs family n (src ++ dst ++ be16 sport ++ be16 dport ++ fields) =
      Some (Some (Proxy s d sport dport fields)).
Proof.
  intros Hn Hbs Hls Hbd Hld Hs Hd. destruct (shown_ntop family n src Hn Hbs Hls) as (s & Es & Hss).
  destruct (shown_ntop family n dst Hn Hbd Hld) as (d & Ed & Hdd). exists s, d. split; [done|]. split; [done|].
  unfold v2_addrs. rewrite decide_False by (rewrite !length_app; cbn [length be16]; lia).
  assert (E1 : drop (2 * n) (src ++ dst ++ be16 sport ++ be16 dport ++ fields) = be16 sport ++ be16 dport ++ fields).
  { rewrite app_assoc. apply drop_app_length'. rewrite length_app. lia. }
  rewrite <- !drop_drop, E1.
  change (drop 2 (be16 sport ++ ?l)) with l. change (drop 4 (be16 sport ++ be16 dport ++ ?l)) with l.
  rewrite !parse_be16 by done. cbn [mbind option_bind].
  rewrite (take_app_length' src) by lia. rewrite (drop_app_length' src) by lia. rewrite (take_app_length' dst) by lia.
  rewrite Es. cbn [mbind option_bind]. by rewrite Ed.
Qed.
(** ** Reading is exact *)

(** A literal at the start, behind the test of the length. *)
Lemma guard_cases k s p : (length s <= k)%nat ->
  ((k <= length p)%nat /\ (exists r, p = s ++ r) /\
    (if decide (length p < k)%nat then Some false else starts_with p s) = Some true) \/
  ((forall r, (length p < k)%nat \/ p <> s ++ r) /\
    (if decide (length p < k)%nat then Some false else starts_with p s) = Some false).
Proof.
  intros Hs. destruct (decide (length p < k)%nat) as [Hk|Hk]; [right; split; [by left|done]|].
  destruct (starts_with_cases s p ltac:(lia)) as [(r & E & ->)|[Hr ->]]; [left|right].
  - split; [lia|]. split; [by exists r|done].
  - split; [by right|done].
Qed.

Lemma guard_false k s p : starts_with p s = Some false ->
  (if decide (length p < k)%nat then Some false else starts_with p s) = Some false.
Proof. intros ->. by destruct (decide _). Qed.

Lemma guard_true k s r : (k <= length (s ++ r))%nat ->
  (if decide (length (s ++ r) < k)%nat then Some false else starts_with (s ++ r) s) = Some true.
Proof. intros H. rewrite decide_False by lia. apply starts_with_app. Qed.

(** The binary form, in the words of the format. *)
Lemma v2_read_eq c vc ft len l : is_byte vc -> is_byte ft -> 0 <= len < 2 ^ 16 ->
  ngx_proxy_protocol_v2_read c (signature ++ [vc; ft] ++ be16 len ++ l) =
    if decide (vc / 2 ^ 4 <> 2) then Some (Refused (UnknownVersion (vc / 2 ^ 4)))
    else if decide (Z.of_nat (length l) < len) then Some (Refused TooLarge)
    else if decide (vc mod 2 ^ 4 <> 1) then Some (Accepted (drop (Z.to_nat len) l) c)
    else if decide (ft mod 2 ^ 4 <> 1) then Some (Accepted (drop (Z.to_nat len) l) c)
    else match addr_size (ft / 2 ^ 4) with
         | None => Some (Accepted (drop (Z.to_nat len) l) c)
         | Some n =>
             pp ← v2_addrs (ft / 2 ^ 4) n (take (Z.to_nat len) l);
             match pp with
             | None => Some (Refused Silent)
             | Some pp => Some (Accepted (drop (Z.to_nat len) l) (Some pp))
             end
         end.
Proof.
  intros Hv Hf Hlen. unfold ngx_proxy_protocol_v2_read.
  change (rd _ 12) with (Some vc). change (rd _ 13) with (Some ft).
  change (drop sizeof_header _) with l. change (drop 14 _) with (be16 len ++ l). cbn [mbind option_bind].
  rewrite parse_be16 by done. cbn [mbind option_bind].
  rewrite !Z.shiftr_div_pow2 by lia. change 0x0f with (Z.ones 4). by rewrite !Z.land_ones by lia.
Qed.

Definition verdict (c : option proxy_protocol) (buf : list Z) (o : outcome) : Prop :=
  match o with
  | Accepted rest c' => header c buf rest c'
  | Refused why => refused buf why
  end.

(** What follows the length, when there is enough of it. *)
Lemma v2_buffer vc ft len l : 0 <= len <= Z.of_nat (length l) ->
  signature ++ [vc; ft] ++ be16 len ++ l = v2_header vc ft (take (Z.to_nat len) l) ++ drop (Z.to_nat len) l /\
  Z.of_nat (length (take (Z.to_nat len) l)) = len.
Proof.
  intros Hlen. assert (E : Z.of_nat (length (take (Z.to_nat len) l)) = len) by (rewrite length_take; lia).
  split; [|done]. unfold v2_header. rewrite E, <- !app_assoc, take_drop. done.
Qed.

Lemma v2_read_sound c vc ft len l : is_byte vc -> is_byte ft -> 0 <= len < 2 ^ 16 -> bytes l ->
  exists o, ngx_proxy_protocol_v2_read c (signature ++ [vc; ft] ++ be16 len ++ l) = Some o /\
    verdict c (signature ++ [vc; ft] ++ be16 len ++ l) o.
Proof.
  intros Hv Hf Hlen Hl. rewrite v2_read_eq by done.
  destruct (decide (vc / 2 ^ 4 <> 2)) as [Hver|Hver].
  { eexists. split; [done|]. by apply (refused_version vc ([ft] ++ be16 len ++ l)); cbn; lia. }
  apply dec_stable in Hver. destruct (decide (Z.of_nat (length l) < len)) as [Hs|Hs].
  { eexists. split; [done|]. by apply refused_length. }
  destruct (v2_buffer vc ft len l ltac:(lia)) as [-> E].
  set (body := take _ l) in *. set (rest := drop _ l).
  assert (Hskip : vc mod 2 ^ 4 <> 1 \/ ft mod 2 ^ 4 <> 1 \/ addr_size (ft / 2 ^ 4) = None ->
    verdict c (v2_header vc ft body ++ rest) (Accepted rest c)) by (intros H; apply v2_skipped; (done || lia)).
  destruct (decide (vc mod 2 ^ 4 <> 1)) as [Hc|Hc]; [eexists; split; [done|]; apply Hskip; tauto|].
  destruct (decide (ft mod 2 ^ 4 <> 1)) as [Ht|Ht]; [eexists; split; [done|]; apply Hskip; tauto|].
  apply dec_stable in Hc, Ht. destruct (addr_size (ft / 2 ^ 4)) as [n|] eqn:Hn; [|eexists; split; [done|]; apply Hskip; tauto].
  assert (vc = 0x21) as -> by dlia. clear Hskip. destruct (decide (length body < 2 * n + 4)%nat) as [Hb|Hb].
  - unfold v2_addrs. rewrite decide_True by done. cbn [mbind option_bind]. eexists. split; [done|].
    by apply (refused_addrs ft n).
  - destruct (body_cut n body) as (src & dst & sport & dport & Eb & [Hbs Hls] & [Hbd Hld] & Hsp & Hdp);
      [by apply Forall_take|lia|].
    set (fields := drop (2 * n + 4) body) in *. rewrite Eb.
    destruct (v2_addrs_spec (ft / 2 ^ 4) n src dst sport dport fields Hn Hbs Hls Hbd Hld Hsp Hdp) as (s & d & Hss & Hdd & ->).
    cbn [mbind option_bind]. eexists. split; [done|]. apply (v2_proxied c ft n); try done.
    + by apply Hss.
    + by apply Hdd.
    + rewrite <- Eb. lia.
Qed.
Lemma tcp_family_cases p :
  (exists v q, (v = "4" \/ v = "6") /\ p = bstr "TCP" ++ v :: " " :: q /\ tcp_family p = Some true) \/
  tcp_family p = Some false.
Proof.
  unfold tcp_family. destruct (decide (length p < 5)%nat) as [|Hl]; [by right|].
  destruct (starts_with_cases (bstr "TCP") p) as [(r & -> & ->)|[_ ->]]; [cbn; lia| |by right].
  cbn [mbind option_bind]. destruct r as [|v [|s q]]; [cbn in Hl; lia..|].
  change (rd _ 3) with (Some v). change (rd _ 4) with (Some s). cbn [mbind option_bind].
  destruct (bool_decide _) eqn:E; [left|by right]. apply bool_decide_eq_true in E as [Hv ->]. by exists v, q.
Qed.

Lemma invalid_sound c buf : (forall r, (length buf < sizeof_header)%nat \/ buf <> signature ++ r) ->
  verdict c buf (invalid buf).
Proof.
  intros H. destruct (line_prefix_spec buf) as (l & E & HC & HL & Hl). by apply (refused_text buf _ l).
Qed.

Lemma read_sound c buf : bytes buf -> exists o, ngx_proxy_protocol_read c buf = Some o /\ verdict c buf o.
Proof.
  intros Hb. unfold ngx_proxy_protocol_read.
  destruct (guard_cases sizeof_header signature buf) as [(Hl & (r & ->) & ->)|[Hno ->]]; [unfold sizeof_header; cbn; lia| |];
    cbn [mbind option_bind].
  { apply Forall_app in Hb as [_ Hb]. destruct r as [|vc [|ft [|l1 [|l0 l]]]]; try (cbn in Hl; unfold sizeof_header in Hl; lia).
    rewrite !List.Forall_cons_iff in Hb. destruct Hb as (Hv & Hf & H1 & H0 & Hb).
    destruct (be16_bytes l1 l0 H1 H0) as [E Hlen].
    change (vc :: ft :: l1 :: l0 :: l) with ([vc; ft] ++ [l1; l0] ++ l). rewrite <- E. by apply v2_read_sound. }
  pose proof (invalid_sound c buf Hno) as Hinv.
  destruct (guard_cases 8 (bstr "PROXY ") buf) as [(_ & (p & ->) & ->)|[_ ->]]; [cbn; lia| |by eexists].
  cbn [mbind option_bind negb]. change (drop 6 (bstr "PROXY " ++ p)) with p.
  destruct (guard_cases 7 (bstr "UNKNOWN") p) as [(_ & (q & ->) & ->)|[_ ->]]; [cbn; lia| |];
    cbn [mbind option_bind].
  { change (drop 7 (bstr "UNKNOWN" ++ q)) with q. eexists. split; [done|].
    destruct (skip_loop q) as [rest|] eqn:E; [|done]. apply skip_loop_spec in E as (x & -> & Hx).
    by apply (v1_unknown c x rest). }
  destruct (tcp_family_cases p) as [(v & q & Hv & -> & ->)| ->]; [|by eexists].
  cbn [mbind option_bind negb]. change (drop 5 (bstr "TCP" ++ v :: " " :: q)) with q.
  eexists. split; [done|]. destruct (v1_fields q) as [[pp rest]|] eqn:E; [|done].
  apply v1_fields_spec in E as (s & d & sp & dp & sport & dport & -> & (Hs & Hd & Hsp & Hdp) & ->).
  by apply (v1_tcp c v s d sp dp).
Qed.

Lemma read_complete c buf rest c' : bytes buf -> header c buf rest c' ->
  ngx_proxy_protocol_read c buf = Some (Accepted rest c').
Proof.
  intros Hb H. unfold ngx_proxy_protocol_read.
  assert (Hv2 : forall vc ft body rest, starts_with (v2_header vc ft body ++ rest) signature = Some true)
    by (intros; unfold v2_header; rewrite <- app_assoc; apply starts_with_app).
  destruct H as [x rest Hx|v s d sp dp sport dport rest Hv Hs Hd Hsp Hdp|vc ft body rest Hver Hlen Hskip
    |ft n src dst s d sport dport fields rest Hn Ht Hls Hld Hss Hdd Hsp Hdp Hlen].
  - rewrite (guard_false sizeof_header signature) by reflexivity. cbn [mbind option_bind].
    change (bstr "PROXY UNKNOWN" ++ ?l) with (bstr "PROXY " ++ bstr "UNKNOWN" ++ l).
    rewrite guard_true by (cbn; lia). cbn [mbind option_bind negb]. change (drop 6 (bstr "PROXY " ++ ?l)) with l.
    rewrite guard_true by (cbn; lia). cbn [mbind option_bind]. change (drop 7 (bstr "UNKNOWN" ++ ?l)) with l.
    by rewrite (proj2 (skip_loop_spec _ rest)) by (by exists x).
  - rewrite (guard_false sizeof_header signature) by reflexivity. cbn [mbind option_bind].
    change (bstr "PROXY TCP" ++ ?l) with (bstr "PROXY " ++ bstr "TCP" ++ l).
    rewrite guard_true by (cbn; rewrite !length_app; cbn; lia).
    cbn [mbind option_bind negb]. change (drop 6 (bstr "PROXY " ++ ?l)) with l.
    set (q := s ++ " " :: d ++ " " :: sp ++ " " :: dp ++ CRLF ++ rest).
    rewrite (guard_false 7 (bstr "UNKNOWN")) by reflexivity. cbn [mbind option_bind].
    destruct (tcp_family_cases (bstr "TCP" ++ v :: " " :: q)) as [(v' & q' & _ & _ & ->)|E].
    2: { unfold tcp_family in E. rewrite decide_False in E by (cbn; lia). rewrite starts_with_app in E.
         cbn [mbind option_bind] in E. change (rd _ 3) with (Some v) in E. change (rd _ 4) with (Some (" " : Z)) in E.
         cbn [mbind option_bind] in E. by rewrite bool_decide_true in E by tauto. }
    cbn [mbind option_bind negb]. change (drop 5 (bstr "TCP" ++ v :: " " :: q)) with q.
    by rewrite (proj2 (v1_fields_spec q (Proxy s d sport dport []) rest)) by (by exists s, d, sp, dp, sport, dport).
  - rewrite decide_False by (unfold v2_header; cbn; unfold sizeof_header; lia). rewrite Hv2. cbn [mbind option_bind].
    assert (Hvf : is_byte vc /\ is_byte ft) by (cbn in Hb; rewrite !List.Forall_cons_iff in Hb; tauto).
    unfold v2_header. rewrite <- !app_assoc, v2_read_eq by (apply Hvf || lia).
    rewrite decide_False by (intros []; done). rewrite decide_False by (rewrite length_app; lia).
    rewrite Nat2Z.id, drop_app_length. destruct (decide (vc mod 2 ^ 4 <> 1)); [done|].
    destruct (decide (ft mod 2 ^ 4 <> 1)); [done|]. by destruct Hskip as [|[| ->]].
  - rewrite decide_False by (unfold v2_header; cbn; unfold sizeof_header; lia). rewrite Hv2. cbn [mbind option_bind].
    set (body := src ++ dst ++ be16 sport ++ be16 dport ++ fields) in *.
    assert (Hvf : is_byte ft /\ bytes body).
    { unfold v2_header in Hb. rewrite <- !app_assoc in Hb. apply Forall_app in Hb as [_ Hb].
      rewrite !List.Forall_app in Hb. destruct Hb as (Hft & _ & Hbody & _). split; [|done].
      rewrite !List.Forall_cons_iff in Hft. tauto. }
    destruct Hvf as [Hf Hbb]. unfold v2_header. rewrite <- !app_assoc, v2_read_eq by (done || lia).
    rewrite decide_False by (intros []; done). rewrite decide_False by (rewrite length_app; lia).
    rewrite (decide_False (P := _ <> 1)) by (intros []; done). rewrite (decide_False (P := ft mod _ <> 1)) by (by intros []).
    rewrite Hn, Nat2Z.id, drop_app_length, take_app_length.
    subst body. rewrite !List.Forall_app in Hbb. destruct Hbb as (Hbs & Hbd & _).
    destruct (v2_addrs_spec (ft / 2 ^ 4) n src dst sport dport fields Hn Hbs Hls Hbd Hld Hsp Hdp) as (s' & d' & Hss' & Hdd' & ->).
    apply Hss' in Hss as ->. apply Hdd' in Hdd as ->. done.
Qed.

(** C12: reading a PROXY protocol header ends without a read outside of the data, accepts exactly the
    text and binary headers, with the addresses, ports and fields that they carry and the data that follows, and
    a refusal is logged with what is wrong: the line, the version, the length, or nothing for too short addresses. *)
Theorem proxy_read_exact c buf : bytes buf -> exists o, ngx_proxy_protocol_read c buf = Some o /\
  (forall rest c', o = Accepted rest c' <-> header c buf rest c') /\
  (forall why, o = Refused why -> refused buf why).
Proof.
  intros Hb. destruct (read_sound c buf Hb) as (o & E & Ho). exists o. split; [done|]. split.
  - intros rest c'. split; [by intros ->|]. intros H. apply (read_complete c buf rest c' Hb) in H. congruence.
  - by intros why ->.
Qed.

Lemma proxy_read_exact_witness :
  let buf := signature ++ [0x21; 0x11; 0; 17; 192; 0; 2; 1; 10; 0; 0; 1; 0xdc; 0x04; 1; 0xbb; 1; 0; 2; 104; 50; 71] in
  bytes buf /\ header None buf [71] (Some (Proxy (bstr "192.0.2.1") (bstr "10.0.0.1") 56324 443 [1; 0; 2; 104; 50])).
Proof.
  cbv zeta. split; [by_decide|].
  destruct (proxy_read_exact None (signature ++ [0x21; 0x11; 0; 17; 192; 0; 2; 1; 10; 0; 0; 1; 0xdc; 0x04; 1; 0xbb; 1; 0; 2; 104; 50; 71]))
    as (o & E & Ho & _); [by_decide|].
  apply Ho. vm_compute in E. by injection E as <-.
Defined.
(** ** What is written is read *)

(** The addresses that a text denotes; two addresses of the second family have a text that no reader
    of nginx accepts. *)
Definition denotes (text : list Z) (sa : sockaddr) : Prop :=
  match sa with
  | sockaddr_in _ a => ngx_inet_addr text = a
  | sockaddr_in6 _ p => ngx_inet6_addr text (repeat 0 16) = if decide (unreadable p) then Fail else Ret p
  | sockaddr_un _ => False
  end.

Definition is_inet (sa : sockaddr) : bool := match sa with sockaddr_un _ => false | _ => true end.

Lemma ntop_ui cap out p fmt args fuel : 0 <= p < 2 ^ 16 -> below cap out 0 = true ->
  vslprintf_loop (S fuel) cap out ("%" :: "u" :: "i" :: fmt) (AInt p :: args) =
  vslprintf_loop fuel cap (safe_copy cap out (decw p)) fmt args.
Proof.
  intros Hp Hc. rewrite vslprintf_conv by done.
  change (parse_width 0 ("u" :: "i" :: fmt)) with (0, ("u" : Z) :: "i" :: fmt). cbn [head].
  rewrite decide_False by done. cbv zeta.
  change (parse_flags (Conv " " 0 true 0 false 0 None) ("u" :: "i" :: fmt) (AInt p :: args))
    with (Some (Conv " " 0 false 0 false 0 None, ("i" : Z) :: fmt, AInt p :: args)).
  cbv iota. unfold do_conv. repeat (rewrite (decide_False (P := "i" = _)) by done).
  assert (Ei : forall n, int_conv (Conv " " 0 false 0 false 0 None) "i" n = Some (false, u64 n, 0, " ", 0)) by done.
  rewrite !Ei. cbn [mbind option_bind andb]. by rewrite num_plain, !(u64_small p) by lia.
Qed.

Lemma sprintf_ports p q : 0 <= p < 2 ^ 16 -> 0 <= q < 2 ^ 16 ->
  ngx_sprintf (bstr " %ui %ui" ++ CRLF) [AInt p; AInt q] = Some (" " :: decw p ++ " " :: decw q ++ CRLF).
Proof.
  intros Hp Hq. unfold ngx_sprintf, ngx_vslprintf. change (S (length (bstr " %ui %ui" ++ CRLF))) with 11%nat.
  change (bstr " %ui %ui" ++ CRLF) with ((" " : Z) :: "%" :: "u" :: "i" :: " " :: "%" :: "u" :: "i" :: [CR; LF]).
  rewrite vslprintf_plain, ntop_ui, vslprintf_plain, ntop_ui, !vslprintf_plain by done. cbn [vslprintf_loop safe_copy app].
  do 4 (rewrite <- ?app_assoc; cbn [app]). done.
Qed.

Lemma decw_port p : 0 <= p < 2 ^ 16 -> port_text (decw p) p /\ (length (decw p) <= 5)%nat.
Proof.
  intros Hp. destruct (atoi_decw p Hp) as (E & Hl & _). split; [|done]. rewrite <- E at 2. apply atoi_port. rewrite E. lia.
Qed.

Lemma snprintf_ports p q n : 0 <= p < 2 ^ 16 -> 0 <= q < 2 ^ 16 -> 14 <= n ->
  ngx_snprintf n (bstr " %ui %ui" ++ CRLF) [AInt p; AInt q] = Some (" " :: decw p ++ " " :: decw q ++ CRLF).
Proof.
  intros Hp Hq Hn. apply snprintf_fits; [by_decide|by apply sprintf_ports|].
  destruct (decw_port p Hp) as [_ H1], (decw_port q Hq) as [_ H2]. cbn [length]. rewrite length_app. cbn [length].
  rewrite length_app. change (length CRLF) with 2%nat. lia.
Qed.

Lemma text4_denotes x : 0 <= x < 2 ^ 32 -> ngx_inet_addr (text4 x) = x.
Proof.
  intros Hx. unfold text4. rewrite inet_addr_dotted, htonl_bytes by apply is_byte_mod. dlia.
Qed.

(** The text of an address fits and denotes it. *)
Lemma sock_text sa socklen len : good_sockaddr sa -> is_inet sa = true -> 45 <= len -> exists t,
  ngx_sock_ntop sa socklen len false = Some t /\ (length t <= 40)%nat /\ Forall text_char t /\ denotes t sa.
Proof.
  intros Hsa Hi Hlen. destruct sa as [port x|port p|]; [| |done].
  - destruct Hsa as [_ Hx]. exists (text4 x). split; [apply ntop_text4; lia|].
    pose proof (length_dotted _ _ _ _ (is_byte_mod x) (is_byte_mod (x / 2 ^ 8)) (is_byte_mod (x / 2 ^ 16)) (is_byte_mod (x / 2 ^ 24))).
    split; [unfold text4; lia|]. split; [apply chars_dotted; apply is_byte_mod|by apply text4_denotes].
  - destruct Hsa as (_ & Hb & Hl). destruct (ntop_ok p len Hb Hl ltac:(exact Hlen)) as (t & Et & (H40 & Ht) & Hr).
    exists t. split; [unfold ngx_sock_ntop, mbind, option_bind; by rewrite Et|]. split; [done|]. split; [done|].
    cbn [denotes]. rewrite inet6_addr_eq, Hr by (done || by apply text_bytes). by case_decide.
Qed.

Lemma port_range sa : is_inet sa = true -> 0 <= ngx_inet_get_port sa < 2 ^ 16.
Proof. destruct sa; [intros _; apply htons_range..|done]. Qed.

(** The text header of two addresses. *)
Definition v1_text (v : Z) (s d : list Z) (p q : Z) : list Z :=
  bstr "PROXY TCP" ++ v :: " " :: s ++ " " :: d ++ " " :: decw p ++ " " :: decw q ++ CRLF.

Lemma v1_text_read c v s d p q rest : v = "4" \/ v = "6" -> Forall text_char s -> Forall text_char d ->
  0 <= p < 2 ^ 16 -> 0 <= q < 2 ^ 16 -> bytes rest ->
  ngx_proxy_protocol_read c (v1_text v s d p q ++ rest) = Some (Accepted rest (Some (Proxy s d p q []))).
Proof.
  intros Hv Hs Hd Hp Hq Hr. destruct (decw_port p Hp) as [Hpt _], (decw_port q Hq) as [Hqt _].
  assert (E : v1_text v s d p q ++ rest =
    bstr "PROXY TCP" ++ v :: " " :: s ++ " " :: d ++ " " :: decw p ++ " " :: decw q ++ CRLF ++ rest).
  { unfold v1_text. do 6 (rewrite <- ?app_assoc; cbn [app]). done. }
  assert (Hdig : forall n, 0 <= n < 2 ^ 16 -> bytes (decw n)).
  { intros n Hn. destruct (atoi_decw n Hn) as (_ & _ & Hd'). apply hex_bytes. rewrite forallb_forall in Hd' |- *.
    intros x Hx. unfold is_hex. by rewrite Hd'. }
  rewrite E. apply read_complete; [|by apply v1_tcp].
  rewrite !List.Forall_app, !List.Forall_cons_iff, !List.Forall_app, !List.Forall_cons_iff, !List.Forall_app,
    !List.Forall_cons_iff, !List.Forall_app, !List.Forall_cons_iff, !List.Forall_app.
  split_and!; try (by apply text_bytes); try (by apply Hdig); try done; try by_decide; destruct Hv as [-> | ->]; by_decide.
Qed.

Lemma write_addrs_ok c lsa llen n (v : Z) : good_sockaddr (c_sockaddr c) -> good_sockaddr lsa ->
  is_inet (c_sockaddr c) = true -> is_inet lsa = true -> 107 <= n -> exists s d,
  let h := v1_text v s d (ngx_inet_get_port (c_sockaddr c)) (ngx_inet_get_port lsa) in
  write_addrs c lsa llen n (bstr "PROXY TCP" ++ [v; (" " : Z)]) = Some (Some h) /\ Z.of_nat (length h) <= 107 /\
  (denotes s (c_sockaddr c) /\ Forall text_char s) /\ (denotes d lsa /\ Forall text_char d).
Proof.
  intros Hsa Hlsa Hi Hl Hn. set (buf := bstr "PROXY TCP" ++ [v; (" " : Z)]).
  assert (Hb : length buf = 11%nat) by done.
  destruct (sock_text (c_sockaddr c) (c_socklen c) (n - Z.of_nat (length buf)) Hsa Hi ltac:(lia)) as (s & Es & Hs40 & Hs & Hsd).
  set (buf2 := (buf ++ s) ++ [(" " : Z)]).
  assert (Hb2 : (length buf2 <= 52)%nat) by (subst buf2; rewrite !length_app; cbn [length]; lia).
  destruct (sock_text lsa llen (n - Z.of_nat (length buf2)) Hlsa Hl ltac:(lia)) as (d & Ed & Hd40 & Hd & Hdd).
  set (p := ngx_inet_get_port (c_sockaddr c)). set (q := ngx_inet_get_port lsa).
  assert (Hp : 0 <= p < 2 ^ 16) by (by apply port_range). assert (Hq : 0 <= q < 2 ^ 16) by (by apply port_range).
  exists s, d. cbv zeta.
  assert (Eh : v1_text v s d p q = (buf2 ++ d) ++ " " :: decw p ++ " " :: decw q ++ CRLF).
  { unfold v1_text. subst buf2 buf. do 6 (rewrite <- ?app_assoc; cbn [app]). done. }
  rewrite Eh. split; [|split; [|done]].
  - unfold write_addrs, mbind, option_bind. rewrite Es. fold buf2. rewrite Ed. fold p q.
    by rewrite snprintf_ports by (done || rewrite length_app; lia).
  - destruct (decw_port p Hp) as [_ H1], (decw_port q Hq) as [_ H2]. rewrite !length_app. cbn [length]. rewrite length_app.
    cbn [length]. rewrite length_app. change (length CRLF) with 2%nat. lia.
Qed.

(** C28: [ngx_proxy_protocol_write] gives NULL for a buffer that is shorter than the longest header; otherwise the
    header of two internet addresses has at most that length and is read back by [ngx_proxy_protocol_read] with texts
    that denote the addresses, the ports and no fields, whatever follows; the header of a UNIX socket is skipped. *)
Theorem proxy_write_read c lsa llen n pp rest : local_sockaddr c = Some (lsa, llen) ->
  good_sockaddr (c_sockaddr c) -> good_sockaddr lsa -> is_inet lsa = true -> bytes rest ->
  if decide (n < NGX_PROXY_PROTOCOL_V1_MAX_HEADER) then ngx_proxy_protocol_write c n = Some None
  else exists h, ngx_proxy_protocol_write c n = Some (Some h) /\
    Z.of_nat (length h) <= NGX_PROXY_PROTOCOL_V1_MAX_HEADER /\
    if is_inet (c_sockaddr c) then exists s d,
      denotes s (c_sockaddr c) /\ denotes d lsa /\
      ngx_proxy_protocol_read pp (h ++ rest) = Some (Accepted rest (Some
        (Proxy s d (ngx_inet_get_port (c_sockaddr c)) (ngx_inet_get_port lsa) [])))
    else ngx_proxy_protocol_read pp (h ++ rest) = Some (Accepted rest pp).
Proof.
  intros Hc Hsa Hlsa Hl Hr. unfold ngx_proxy_protocol_write. rewrite Hc.
  destruct (decide (n < NGX_PROXY_PROTOCOL_V1_MAX_HEADER)) as [|Hn]; [done|].
  unfold NGX_PROXY_PROTOCOL_V1_MAX_HEADER in *.
  destruct (is_inet (c_sockaddr c)) eqn:Hi.
  2: { exists (bstr "PROXY UNKNOWN" ++ CRLF). destruct (c_sockaddr c); [done..|]. split; [done|]. split; [cbn; lia|].
       rewrite <- app_assoc. apply read_complete; [|by apply (v1_unknown pp [] rest); intros [|]].
       apply Forall_app. split; [by_decide|]. apply Forall_app. split; [by_decide|done]. }
  assert (Hgo : forall v : Z, v = "4" \/ v = "6" -> exists h,
    write_addrs c lsa llen n (bstr "PROXY TCP" ++ [v; (" " : Z)]) = Some (Some h) /\ Z.of_nat (length h) <= 107 /\
    exists s d, denotes s (c_sockaddr c) /\ denotes d lsa /\ ngx_proxy_protocol_read pp (h ++ rest) = Some (Accepted rest (Some
      (Proxy s d (ngx_inet_get_port (c_sockaddr c)) (ngx_inet_get_port lsa) [])))).
  { intros v Hv. destruct (write_addrs_ok c lsa llen n v Hsa Hlsa Hi Hl ltac:(lia)) as (s & d & Hw & Hlen & [Hs Hst] & [Hd Hdt]).
    eexists. split; [exact Hw|]. split; [exact Hlen|]. exists s, d. split; [done|]. split; [done|].
    apply v1_text_read; (done || by apply port_range). }
  destruct (c_sockaddr c); [apply (Hgo "4"); by left|apply (Hgo "6"); by right|done].
Qed.

Lemma proxy_write_read_witness :
  let c := Connection (sockaddr_in6 (htons 56324) (repeat 0 15 ++ [1])) 28 (Some (sockaddr_in (htons 443) (htonl 0x0a000001), 16)) in
  exists h, ngx_proxy_protocol_write c 107 = Some (Some h) /\ Z.of_nat (length h) <= 107 /\ exists s d,
    denotes s (c_sockaddr c) /\ denotes d (sockaddr_in (htons 443) (htonl 0x0a000001)) /\
    ngx_proxy_protocol_read None (h ++ [71]) = Some (Accepted [71] (Some (Proxy s d 56324 443 []))).
Proof.
  refine (proxy_write_read (Connection (sockaddr_in6 (htons 56324) (repeat 0 15 ++ [1])) 28
    (Some (sockaddr_in (htons 443) (htonl 0x0a000001), 16))) (sockaddr_in (htons 443) (htonl 0x0a000001)) 16 107 None [71]
    eq_refl _ _ eq_refl _); by_decide.
Defined.
(** ** The fields of a binary header *)

Definition field_ok (f : Z * list Z) : Prop := is_byte (fst f) /\ Z.of_nat (length (snd f)) < 2 ^ 16.

Definition field_bytes (f : Z * list Z) : list Z := fst f :: be16 (Z.of_nat (length (snd f))) ++ snd f.

Definition fields_bytes (l : list (Z * list Z)) : list Z := concat (map field_bytes l).

(** Bytes that do not begin with a whole field. *)
Definition no_field (rest : list Z) : Prop := forall f r, field_ok f -> rest <> field_bytes f ++ r.

(** The whole fields at the beginning, and what is left. *)
Definition decodes (b : list Z) (l : list (Z * list Z)) (rest : list Z) : Prop :=
  Forall field_ok l /\ no_field rest /\ b = fields_bytes l ++ rest.

(** The first field of a type. *)
Definition find_field (type : Z) (l : list (Z * list Z)) : option (list Z) :=
  snd <$> List.find (fun f => bool_decide (fst f = type)) l.

(** A type that no field has: not found when the fields are the whole, and an error when there are
    bytes after them. *)
Definition absent (rest : list Z) : Z := if decide (rest = []) then NGX_DECLINED else NGX_ERROR.

Definition found (l : list (Z * list Z)) (rest : list Z) (type : Z) (value : list Z) : Z * list Z :=
  match find_field type l with Some v => (NGX_OK, v) | None => (absent rest, value) end.

(** The answer for a name: a hexadecimal type or a name of the table. *)
Definition named (types : list (list Z * Z)) (l : list (Z * list Z)) (rest p value : list Z) : Z * list Z :=
  if decide (take 2 p = bstr "0x") then
    let h := drop 2 p in
    if negb (bool_decide (h = [])) && forallb is_hex h && (hex_value h <=? NGX_MAX_INT_T_VALUE)
    then found l rest (hex_value h) value
    else (NGX_ERROR, value)
  else
    match List.find (fun e => bool_decide (fst e = p)) types with
    | Some e => found l rest (snd e) value
    | None => (NGX_DECLINED, value)
    end.

(** The number of four bytes in network order. *)
Definition be32 (l : list Z) : Z := foldl (fun a b => a * 2 ^ 8 + b) 0 l.

Definition tlv_answer (l : list (Z * list Z)) (rest name value : list Z) (r : Z * list Z) : Prop :=
  if decide (take 4 name = bstr "ssl_") then
    let p := drop 4 name in
    match find_field 0x20 l with
    | None => r = (absent rest, value)
    | Some ssl =>
        if decide (length ssl < sizeof_tlv_ssl)%nat then r = (NGX_ERROR, value)
        else if decide (p = bstr "verify") then r = (NGX_OK, decw (be32 (take 4 (drop 1 ssl))))
        else exists l' rest', decodes (drop sizeof_tlv_ssl ssl) l' rest' /\
          r = named ngx_proxy_protocol_tlv_ssl_entries l' rest' p value
    end
  else r = named ngx_proxy_protocol_tlv_entries l rest name value.

(** One round of the search. *)
Lemma lookup_field fuel t v b type value : field_ok (t, v) ->
  lookup_loop (S fuel) (field_bytes (t, v) ++ b) type value =
  if decide (t = type) then Some (NGX_OK, v) else lookup_loop fuel b type value.
Proof.
  intros [Ht Hv]. cbn [fst snd] in *. unfold field_bytes. cbn [fst snd app]. rewrite <- app_assoc.
  cbn [lookup_loop]. rewrite decide_False by (cbn; lia). rewrite decide_False by (unfold sizeof_tlv; cbn; lia).
  change (rd _ 0) with (Some t). cbn [mbind option_bind].
  change (drop 1 (t :: ?x)) with x. change (drop sizeof_tlv (t :: be16 _ ++ ?x)) with x.
  rewrite parse_be16 by lia. cbn [mbind option_bind]. rewrite decide_False by (rewrite length_app; lia).
  by rewrite Nat2Z.id, take_app_length, drop_app_length.
Qed.

(** A field at the beginning, or none. *)
Lemma field_cases b : bytes b -> (exists f r, field_ok f /\ b = field_bytes f ++ r) \/ no_field b.
Proof.
  intros Hb. destruct (decide (3 <= length b)%nat) as [Hl|Hl].
  2: { right. intros f r _ ->. unfold field_bytes in Hl. cbn in Hl. lia. }
  destruct b as [|t [|b1 [|b0 b]]]; cbn in Hl; try lia. rewrite !List.Forall_cons_iff in Hb.
  destruct Hb as (Ht & H1 & H0 & Hb). destruct (be16_bytes b1 b0 H1 H0) as [E Hlen]. set (len := b1 * 2 ^ 8 + b0) in *.
  destruct (decide (len <= Z.of_nat (length b))) as [Hle|Hgt].
  - left. exists (t, take (Z.to_nat len) b), (drop (Z.to_nat len) b). unfold field_ok, field_bytes. cbn [fst snd].
    rewrite length_take. replace (Z.of_nat (Z.to_nat len `min` length b)) with len by lia.
    split; [split; [done|lia]|]. rewrite E. cbn [app]. by rewrite take_drop.
  - right. intros [t' v] r [_ Hv] Eb. cbn [fst snd] in *. unfold field_bytes in Eb. cbn [fst snd app] in Eb.
    injection Eb as _ Eb1 Eb0 ->. rewrite length_app in Hgt. subst len. rewrite Eb1, Eb0 in Hgt. dlia.
Qed.

Lemma decodes_exists n : forall b, (length b <= n)%nat -> bytes b -> exists l rest, decodes b l rest.
Proof.
  induction n as [|n IH]; intros b Hn Hb; destruct (field_cases b Hb) as [(f & r & Hf & ->)|Hno];
    try (exists [], b; split; [constructor|by split]).
  - cbn in Hn. lia.
  - destruct (IH r) as (l & rest & Hl & Hrest & ->).
    + unfold field_bytes in Hn. cbn in Hn. rewrite !length_app in Hn. lia.
    + by apply Forall_app in Hb as [_ Hb].
    + exists (f :: l), rest. split; [by constructor|]. split; [done|].
      unfold fields_bytes. cbn [map concat]. by rewrite <- app_assoc.
Qed.

(** A search among bytes that do not begin with a field. *)
Lemma lookup_none fuel rest type value : bytes rest -> no_field rest ->
  lookup_loop (S fuel) rest type value = Some (absent rest, value).
Proof.
  intros Hb Hno. cbn [lookup_loop]. unfold absent.
  destruct (decide (length rest = 0)%nat) as [Hz|Hz]; [destruct rest; [by rewrite decide_True|done]|].
  rewrite (decide_False (P := rest = [])) by (by intros ->).
  destruct (decide (length rest < sizeof_tlv)%nat) as [|Hl]; [done|]. unfold sizeof_tlv in *.
  destruct rest as [|t [|b1 [|b0 b]]]; try (cbn in Hl; lia). rewrite !List.Forall_cons_iff in Hb.
  destruct Hb as (Ht & H1 & H0 & Hb). destruct (be16_bytes b1 b0 H1 H0) as [E Hlen].
  change (rd _ 0) with (Some t). change (drop 1 _) with ([b1; b0] ++ b). change (drop 3 _) with b.
  cbn [mbind option_bind]. rewrite <- E, parse_be16 by done. cbn [mbind option_bind].
  destruct (decide _) as [|Hge]; [done|]. exfalso. set (len := b1 * 2 ^ 8 + b0) in *.
  apply (Hno (t, take (Z.to_nat len) b) (drop (Z.to_nat len) b)).
  - split; [done|]. cbn [snd]. rewrite length_take. lia.
  - unfold field_bytes. cbn [fst snd]. rewrite length_take.
    replace (Z.of_nat (Z.to_nat len `min` length b)) with len by lia. rewrite E. cbn [app]. by rewrite take_drop.
Qed.

Lemma lookup_tlv_spec b l rest type value : bytes b -> decodes b l rest ->
  ngx_proxy_protocol_lookup_tlv b type value = Some (found l rest type value).
Proof.
  intros Hb (Hl & Hno & ->). unfold ngx_proxy_protocol_lookup_tlv.
  assert (Hf : (length l < S (length (fields_bytes l ++ rest)))%nat).
  { rewrite length_app. clear. induction l as [|f l IH]; [cbn; lia|]. unfold fields_bytes in *. cbn [map concat length].
    rewrite length_app. cbn [field_bytes length]. lia. }
  revert Hf. generalize (S (length (fields_bytes l ++ rest))). intros fuel.
  revert fuel. induction Hl as [|[t v] l Hf Hl IH]; intros fuel Hfuel.
  - destruct fuel as [|fuel]; [cbn in Hfuel; lia|]. by rewrite lookup_none.
  - destruct fuel as [|fuel]; [cbn in Hfuel; lia|]. unfold fields_bytes in *. cbn [map concat] in *. rewrite <- app_assoc in *.
    rewrite lookup_field by done. unfold found, find_field. cbn [List.find fst]. destruct (decide (t = type)) as [->|Hne].
    + by rewrite bool_decide_true.
    + rewrite bool_decide_false by done. apply IH; [by apply Forall_app in Hb as [_ Hb]|cbn in Hfuel; lia].
Qed.
(** ** The fields are found *)

Lemma take_literal (s p : list Z) : take (length s) p = s <-> exists r, p = s ++ r.
Proof.
  split; [|intros (r & ->); apply take_app_length].
  intros E. exists (drop (length s) p). by rewrite <- E at 1; rewrite take_drop.
Qed.

(** The test of a prefix, with its length as the bound. *)
Lemma prefix_test k s p : length s = k ->
  (if decide (length p < k)%nat then Some false else starts_with p s) = Some (bool_decide (take k p = s)).
Proof.
  intros <-. destruct (guard_cases (length s) s p (le_n _)) as [(Hl & Hr & ->)|[Hno ->]]; f_equal; symmetry.
  - apply bool_decide_true. by apply take_literal.
  - apply bool_decide_false. rewrite take_literal. intros (r & ->). destruct (Hno r) as [Hl|Hl]; [|done].
    rewrite length_app in Hl. lia.
Qed.

(** The comparison of whole names. *)
Lemma name_test s p : (if decide (length s = length p) then starts_with p s else Some false) =
  Some (bool_decide (s = p)).
Proof.
  destruct (decide (length s = length p)) as [Hl|Hl].
  - destruct (starts_with_cases s p ltac:(lia)) as [(r & -> & ->)|[Hno ->]]; f_equal; symmetry.
    + apply bool_decide_true. destruct r; [by rewrite app_nil_r|]. rewrite length_app in Hl. cbn in Hl. lia.
    + apply bool_decide_false. intros ->. apply (Hno []). by rewrite app_nil_r.
  - f_equal. symmetry. apply bool_decide_false. by intros ->.
Qed.

Lemma entries_loop_spec types p b l rest value : bytes b -> decodes b l rest ->
  entries_loop types p b value = Some
    match List.find (fun e => bool_decide (fst e = p)) types with
    | Some e => found l rest (snd e) value
    | None => (NGX_DECLINED, value)
    end.
Proof.
  intros Hb Hd. induction types as [|[name type] types IH]; [done|]. cbn [entries_loop List.find fst].
  rewrite name_test. cbn [mbind option_bind]. destruct (bool_decide (name = p)); [|done].
  cbn [snd]. by apply lookup_tlv_spec.
Qed.

Lemma get_by_name_spec types p b l rest value : bytes p -> bytes b -> decodes b l rest ->
  get_by_name types p b value = Some (named types l rest p value).
Proof.
  intros Hp Hb Hd. unfold get_by_name, named. rewrite prefix_test by done. cbn [mbind option_bind].
  destruct (decide (take 2 p = bstr "0x")) as [E|E].
  - rewrite bool_decide_true by done. rewrite hextoi_exact by (by apply Forall_drop).
    destruct (negb _ && _ && _) eqn:Hx; [|done].
    assert (0 <= hex_value (drop 2 p)).
    { apply andb_prop in Hx as [Hx _]. apply andb_prop in Hx as [_ Hx]. unfold hex_value.
      apply (numeral_ge 16 hex_val 0); [lia..|]. apply hex_nonneg; [by apply Forall_drop|done]. }
    rewrite decide_False by (unfold NGX_ERROR; lia). by apply lookup_tlv_spec.
  - rewrite bool_decide_false by done. by apply entries_loop_spec.
Qed.

Lemma parse_be32 b0 b1 b2 b3 l : is_byte b0 -> is_byte b1 -> is_byte b2 -> is_byte b3 ->
  ngx_proxy_protocol_parse_uint32 (b0 :: b1 :: b2 :: b3 :: l) = Some (be32 [b0; b1; b2; b3]) /\
  0 <= be32 [b0; b1; b2; b3] < 2 ^ 32.
Proof.
  unfold is_byte, be32. cbn [foldl]. intros H0 H1 H2 H3. split; [|lia].
  unfold ngx_proxy_protocol_parse_uint32. change (rd _ 0) with (Some b0). change (rd _ 1) with (Some b1).
  change (rd _ 2) with (Some b2). change (rd _ 3) with (Some b3). cbn [mbind option_bind].
  rewrite !Z.shiftl_mul_pow2 by lia. f_equal. rewrite u32_small; lia.
Qed.

Lemma sprintf_verify v : 0 <= v < 2 ^ 32 -> ngx_sprintf (bstr "%uD") [AInt v] = Some (decw v).
Proof.
  intros Hv. unfold ngx_sprintf, ngx_vslprintf. change (length (bstr "%uD")) with 3%nat.
  cbv -[ngx_sprintf_num u32 u64 decw]. by rewrite num_plain, u32_small, u64_small by lia.
Qed.

Lemma find_field_bytes type l v : Forall (fun f => bytes (snd f)) l -> find_field type l = Some v -> bytes v.
Proof.
  unfold find_field. intros Hb. destruct (List.find _ l) as [f|] eqn:E; [|done]. intros [= <-].
  apply List.find_some in E as [Hin _]. rewrite List.Forall_forall in Hb. by apply Hb.
Qed.

Lemma fields_are_bytes l : bytes (fields_bytes l) -> Forall (fun f => bytes (snd f)) l.
Proof.
  induction l as [|f l IH]; intros H; constructor.
  - unfold fields_bytes in H. cbn [map concat] in H. apply Forall_app in H as [H _].
    unfold field_bytes in H. apply List.Forall_cons_iff in H as [_ H]. by apply Forall_app in H as [_ H].
  - apply IH. unfold fields_bytes in H. cbn [map concat] in H. by apply Forall_app in H as [_ H].
Qed.

(** C13: a field of the header is found by its name or its hexadecimal type, those of TLS inside the field for it:
    the value is that of the first field of the type, bytes that are no whole field are an error only when the
    type was not met before them, unknown names and absent types are declined, and the result of the verification is printed in decimal. *)
Theorem proxy_tlv_exact pp l rest name value : bytes (tlvs pp) -> bytes name -> decodes (tlvs pp) l rest ->
  exists r, ngx_proxy_protocol_get_tlv (Some pp) name value = Some r /\ tlv_answer l rest name value r.
Proof.
  intros Hb Hname Hd. unfold ngx_proxy_protocol_get_tlv, tlv_answer. rewrite prefix_test by done. cbn [mbind option_bind].
  destruct (decide (take 4 name = bstr "ssl_")) as [E|E].
  2: { rewrite bool_decide_false by done. eexists. split; [by apply get_by_name_spec|done]. }
  rewrite bool_decide_true by done. rewrite (lookup_tlv_spec _ l rest) by done. cbn [mbind option_bind].
  unfold found. destruct (find_field 0x20 l) as [ssl|] eqn:Ef.
  2: { unfold absent. destruct (decide (rest = [])); (rewrite decide_True by done); by eexists. }
  rewrite decide_False by (by intros []).
  assert (Hssl : bytes ssl).
  { destruct Hd as (_ & _ & Ed). rewrite Ed in Hb. apply Forall_app in Hb as [Hb _].
    by apply (find_field_bytes 0x20 l); [apply fields_are_bytes|]. }
  destruct (decide (length ssl < sizeof_tlv_ssl)%nat) as [|Hlen]; [by eexists|]. unfold sizeof_tlv_ssl in *.
  change 6%nat with (length (bstr "verify")).
  assert (Ev : (if decide (length (drop 4 name) = length (bstr "verify")) then starts_with (drop 4 name) (bstr "verify") else Some false) =
    Some (bool_decide (bstr "verify" = drop 4 name))).
  { rewrite <- name_test. by destruct (decide (_ = length (bstr _))), (decide (length (bstr _) = _)). }
  rewrite Ev. cbn [mbind option_bind]. destruct (decide (drop 4 name = bstr "verify")) as [Ep|Ep].
  - rewrite bool_decide_true by done.
    destruct ssl as [|x [|b0 [|b1 [|b2 [|b3 ssl]]]]]; try (cbn in Hlen; lia). rewrite !List.Forall_cons_iff in Hssl.
    destruct (parse_be32 b0 b1 b2 b3 ssl) as [Ep32 Hr]; [tauto..|].
    change (drop 1 _) with (b0 :: b1 :: b2 :: b3 :: ssl). rewrite Ep32. cbn [mbind option_bind].
    rewrite sprintf_verify by done. by eexists.
  - rewrite bool_decide_false by done.
    assert (Hb5 : bytes (drop 5 ssl)) by (by apply Forall_drop).
    destruct (decodes_exists _ (drop 5 ssl) (le_n _) Hb5) as (l' & rest' & Hd').
    eexists. split; [apply get_by_name_spec; [by apply Forall_drop|done|exact Hd']|]. by exists l', rest'.
Qed.

Lemma proxy_tlv_exact_witness :
  let b := [2; 0; 1; 120; 0x20; 0; 12; 1; 0; 0; 0; 2; 0x22; 0; 4; 110; 97; 109; 101; 9] in
  exists r, ngx_proxy_protocol_get_tlv (Some (Proxy [] [] 0 0 b)) (bstr "ssl_cn") [] = Some r /\
    tlv_answer [(2, [120]); (0x20, [1; 0; 0; 0; 2; 0x22; 0; 4; 110; 97; 109; 101])] [9] (bstr "ssl_cn") [] r.
Proof.
  apply (proxy_tlv_exact (Proxy [] [] 0 0 [2; 0; 1; 120; 0x20; 0; 12; 1; 0; 0; 0; 2; 0x22; 0; 4; 110; 97; 109; 101; 9])).
  - by_decide.
  - by_decide.
  - split; [repeat constructor; cbn; lia|]. split; [|done].
    intros [t v] r _ E. unfold field_bytes in E. cbn in E. discriminate.
Defined.

Close Scope ch_scope.
