(* ===== verification/RoundRobin.v ===== *)
(** * Weighted round robin: http/ngx_http_upstream_round_robin.c

    The choice of a server for a request: groups of peers (servers and backup
    servers), the smooth weighted choice, the bookkeeping of failures and of
    connections, and any interleaving of requests over one set of groups. The
    build is the one without NGX_HTTP_UPSTREAM_ZONE: no shared memory, so no
    locks, references and names resolved at run time. *)

From S2P Require Import Prelude NgxString Inet.
From stdpp Require Import list.

Open Scope Z_scope.
Open Scope ch_scope.

(** ** Definitions *)

(** *** Data *)

(** [ngx_addr_t] *)
Record addr := Addr { a_sockaddr : sockaddr; a_socklen : Z; a_name : list Z }.

(** [ngx_http_upstream_rr_peer_t]; the field [next] is the order of the list. *)
Record peer := Peer {
  p_addr : addr; p_server : list Z;
  current_weight : Z; effective_weight : Z; weight : Z;
  conns : Z; max_conns : Z;
  fails : Z; accessed : Z; checked : Z;
  max_fails : Z; fail_timeout : Z; down : Z }.

(** [ngx_http_upstream_rr_peers_t]; the pointer [next] leads to the next element
    of a list of groups, the first of which are the servers and the second the
    backup servers. *)
Record rr_peers := Peers {
  number : Z; total_weight : Z; peers_tries : Z; single : bool; weighted : bool;
  peers_name : list Z; peers_peer : list peer }.

(** [ngx_http_upstream_rr_peer_data_t]: the group of the request as an index in
    the list of groups, the chosen peer as a group and an index in it, the words
    of the bitmap of the peers tried. *)
Record rr_data := RRData {
  rrp_peers : nat; rrp_current : option (nat * nat); rrp_tried : list Z }.

(** The fields of [ngx_peer_connection_t] in use; the connection is opaque. *)
Record peer_connection := PC {
  pc_connection : option nat; pc_cached : bool; pc_sockaddr : option sockaddr; pc_socklen : Z;
  pc_name : list Z; pc_tries : Z }.

Definition NGX_PEER_NEXT : Z := 2.
Definition NGX_PEER_FAILED : Z := 4.

(** Signed arithmetic; overflow is undefined. *)
Definition int_of (x : Z) : option Z := if decide (- 2 ^ 63 <= x < 2 ^ 63) then Some x else None.

(** *** Configuration *)

(** [ngx_http_upstream_server_t], with a list of addresses. *)
Record server := Server {
  s_name : list Z; s_addrs : list addr; s_weight : Z; s_max_conns : Z; s_max_fails : Z;
  s_fail_timeout : Z; s_down : Z; s_backup : bool }.

(** [ngx_http_upstream_srv_conf_t] *)
Record srv_conf := SrvConf { us_servers : option (list server); us_host : list Z; us_port : Z }.

(** The first loop over the servers, for those with the given flag: the
    number of addresses, their weights, and the addresses that are not down. *)
Fixpoint count_servers (backup : bool) (servers : list server) (n w t : Z) : Z * Z * Z :=
  match servers with
  | [] => (n, w, t)
  | s :: servers =>
      if decide (s_backup s = backup) then
        let naddrs := Z.of_nat (length (s_addrs s)) in
        count_servers backup servers (u64 (n + naddrs)) (u64 (w + naddrs * s_weight s))
          (if decide (s_down s = 0) then u64 (t + naddrs) else t)
      else count_servers backup servers n w t
  end.

Definition server_peer (s : server) (a : addr) : peer :=
  Peer a (s_name s) 0 (s_weight s) (s_weight s) 0 (s_max_conns s) 0 0 0
    (s_max_fails s) (s_fail_timeout s) (s_down s).

(** The second loop: the peers in their order. *)
Fixpoint make_peers (backup : bool) (servers : list server) : list peer :=
  match servers with
  | [] => []
  | s :: servers =>
      if decide (s_backup s = backup) then map (server_peer s) (s_addrs s) ++ make_peers backup servers
      else make_peers backup servers
  end.

(** A peer of an upstream that no configuration names. *)
Definition implicit_peer (a : addr) : peer := Peer a [] 0 1 1 0 0 0 0 0 1 10 0.

(** The groups, [None] for NGX_ERROR; [resolve] is ngx_inet_resolve_host.
    Without shared memory the test of NGX_HTTP_UPSTREAM_BACKUP follows from the
    one before it. *)
Definition ngx_http_upstream_init_round_robin (resolve : list Z -> Z -> option (list addr)) (us : srv_conf) :
    option (list rr_peers) :=
  match us_servers us with
  | Some servers =>
      let '(n, w, t) := count_servers false servers 0 0 0 in
      if decide (n = 0) then None
      else
        let peers is_single :=
          Peers n w t is_single (bool_decide (w <> n)) (us_host us) (make_peers false servers) in
        let '(nb, wb, tb) := count_servers true servers 0 0 0 in
        if decide (nb = 0) then Some [peers (bool_decide (n = 1))]
        else
          Some [peers false; Peers nb wb tb false (bool_decide (wb <> nb)) (us_host us) (make_peers true servers)]
  | None =>
      if decide (us_port us = 0) then None
      else
        addrs ← resolve (us_host us) (us_port us);
        let n := Z.of_nat (length addrs) in
        Some [Peers n n n (bool_decide (n = 1)) false (us_host us) (map implicit_peer addrs)]
  end.

(** *** Requests *)

(** The macro ngx_http_upstream_tries, of the groups from the first one on. *)
Definition ngx_http_upstream_tries (ups : list rr_peers) : option Z :=
  match ups with
  | [] => None
  | p :: next => Some (u64 (peers_tries p + match next with q :: _ => peers_tries q | [] => 0 end))
  end.

(** The words of the bitmap for [n] peers. *)
Definition tried_words (n : Z) : list Z :=
  if decide (n <= 8 * 8) then [0] else replicate (Z.to_nat (u64 (n + (8 * 8 - 1)) / (8 * 8))) 0.

(** The data of a new request and its [tries]. *)
Definition ngx_http_upstream_init_round_robin_peer (ups : list rr_peers) (pc : peer_connection) :
    option (rr_data * peer_connection) :=
  match ups with
  | [] => None
  | p :: next =>
      let n := number p in
      let n := match next with q :: _ => if decide (number q > n) then number q else n | [] => n end in
      tries ← ngx_http_upstream_tries ups;
      Some (RRData 0 None (tried_words n),
            PC (pc_connection pc) (pc_cached pc) (pc_sockaddr pc) (pc_socklen pc) (pc_name pc) tries)
  end.

(** [ngx_http_upstream_resolved_t] *)
Record resolved := Resolved {
  ur_host : list Z; ur_port : Z; ur_naddrs : Z; ur_addrs : list addr;
  ur_sockaddr : option sockaddr; ur_socklen : Z; ur_name : option (list Z) }.

Definition resolved_peer (port : Z) (a : addr) : option peer :=
  let sa := ngx_inet_set_port (a_sockaddr a) port in
  text ← ngx_sock_ntop sa (a_socklen a) NGX_SOCKADDR_STRLEN true;
  Some (implicit_peer (Addr sa (a_socklen a) text)).

(** The groups and the data of a request to addresses of its own. *)
Definition ngx_http_upstream_create_round_robin_peer (ur : resolved) (pc : peer_connection) :
    option (list rr_peers * rr_data * peer_connection) :=
  peer ←
    match ur_sockaddr ur with
    | Some sa =>
        Some [implicit_peer (Addr sa (ur_socklen ur) (match ur_name ur with Some n => n | None => ur_host ur end))]
    | None => mapM (resolved_peer (ur_port ur)) (take (Z.to_nat (ur_naddrs ur)) (ur_addrs ur))
    end;
  let peers := Peers (ur_naddrs ur) 0 (ur_naddrs ur) (bool_decide (ur_naddrs ur = 1)) false (ur_host ur) peer in
  tries ← ngx_http_upstream_tries [peers];
  Some ([peers], RRData 0 None (tried_words (ur_naddrs ur)),
        PC (pc_connection pc) (pc_cached pc) (pc_sockaddr pc) (pc_socklen pc) (pc_name pc) tries).

(** *** The choice of a peer *)

(** [rrp->tried[n] & m], with the word and the bit of peer [i]. *)
Definition word_of (i : nat) : nat := Z.to_nat (Z.of_nat i / (8 * 8)).
Definition mask_of (i : nat) : Z := u64 (Z.shiftl 1 (Z.of_nat i mod (8 * 8))).

(** The [continue]s of the loop but the first. *)
Definition skipped (now : Z) (p : peer) : bool :=
  bool_decide (down p <> 0) ||
  bool_decide (max_fails p <> 0 /\ fails p >= max_fails p /\ now - checked p <= fail_timeout p) ||
  bool_decide (max_conns p <> 0 /\ conns p >= max_conns p).

Definition set_weights (cw ew : Z) (p : peer) : peer :=
  Peer (p_addr p) (p_server p) cw ew (weight p) (conns p) (max_conns p) (fails p) (accessed p) (checked p)
    (max_fails p) (fail_timeout p) (down p).

Definition set_conns (n : Z) (p : peer) : peer :=
  Peer (p_addr p) (p_server p) (current_weight p) (effective_weight p) (weight p) n (max_conns p) (fails p)
    (accessed p) (checked p) (max_fails p) (fail_timeout p) (down p).

Definition set_health (f a c : Z) (p : peer) : peer :=
  Peer (p_addr p) (p_server p) (current_weight p) (effective_weight p) (weight p) (conns p) (max_conns p) f a c
    (max_fails p) (fail_timeout p) (down p).

(** The loop, at index [i]: the peers with their new weights, [total], and
    [best] as the index and the weight of the peer. *)
Fixpoint peer_loop (now : Z) (tried : list Z) (i : nat) (ps : list peer) (total : Z) (best : option (nat * Z)) :
    option (list peer * Z * option (nat * Z)) :=
  match ps with
  | [] => Some ([], total, best)
  | p :: ps =>
      word ← tried !! word_of i;
      if bool_decide (Z.land word (mask_of i) <> 0) || skipped now p then
        '(ps', total, best) ← peer_loop now tried (S i) ps total best;
        Some (p :: ps', total, best)
      else
        cw ← int_of (current_weight p + effective_weight p);
        total ← int_of (total + effective_weight p);
        let ew := if decide (effective_weight p < weight p) then effective_weight p + 1 else effective_weight p in
        let best :=
          match best with
          | None => Some (i, cw)
          | Some (_, b) => if decide (cw > b) then Some (i, cw) else best
          end in
        '(ps', total, best) ← peer_loop now tried (S i) ps total best;
        Some (set_weights cw ew p :: ps', total, best)
  end.

(** The peers, the data of the request and whether there is a peer. *)
Definition ngx_http_upstream_get_peer (now : Z) (g : nat) (ps : list peer) (rrp : rr_data) :
    option (option nat * list peer * rr_data) :=
  '(ps, total, best) ← peer_loop now (rrp_tried rrp) 0 ps 0 None;
  match best with
  | None => Some (None, ps, rrp)
  | Some (p, cw) =>
      word ← rrp_tried rrp !! word_of p;
      let tried := <[word_of p := Z.lor word (mask_of p)]> (rrp_tried rrp) in
      best ← ps !! p;
      cw ← int_of (current_weight best - total);
      let best := set_weights cw (effective_weight best) best in
      let best :=
        if decide (now - checked best > fail_timeout best) then set_health (fails best) (accessed best) now best
        else best in
      Some (Some p, <[p := best]> ps, RRData (rrp_peers rrp) (Some (g, p)) tried)
  end.

(** The choice of a peer of the group before the label [failed]. *)
Definition group_get (now : Z) (g : nat) (peers : rr_peers) (rrp : rr_data) :
    option (option nat * list peer * rr_data) :=
  if single peers then
    match peers_peer peers with
    | [] => None
    | p :: _ =>
        if decide (down p <> 0) then Some (None, peers_peer peers, rrp)
        else if decide (max_conns p <> 0 /\ conns p >= max_conns p) then Some (None, peers_peer peers, rrp)
        else Some (Some 0%nat, peers_peer peers, RRData (rrp_peers rrp) (Some (g, 0%nat)) (rrp_tried rrp))
    end
  else ngx_http_upstream_get_peer now g (peers_peer peers) rrp.

Definition set_peers (ps : list peer) (g : rr_peers) : rr_peers :=
  Peers (number g) (total_weight g) (peers_tries g) (single g) (weighted g) (peers_name g) ps.

(** [for (i = 0; i < n; i++) { rrp->tried[i] = 0; }] *)
Definition clear_tried (n : nat) (tried : list Z) : option (list Z) :=
  if decide (n <= length tried)%nat then Some (replicate n 0 ++ drop n tried) else None.

(** The call for the group [g], which is the first of [ups]; the recursive call
    is for the group after it. *)
Fixpoint get_from (now : Z) (g : nat) (ups : list rr_peers) (rrp : rr_data) (pc : peer_connection) :
    option (Z * list rr_peers * rr_data * peer_connection) :=
  match ups with
  | [] => None
  | peers :: next =>
      let pc := PC None false (pc_sockaddr pc) (pc_socklen pc) (pc_name pc) (pc_tries pc) in
      '(found, ps, rrp) ← group_get now g peers rrp;
      match found with
      | Some i =>
          p ← ps !! i;
          let a := p_addr p in
          let ps := <[i := set_conns (u64 (conns p + 1)) p]> ps in
          Some (NGX_OK, set_peers ps peers :: next, rrp,
                PC None false (Some (a_sockaddr a)) (a_socklen a) (a_name a) (pc_tries pc))
      | None =>
          let peers := set_peers ps peers in
          let busy next rrp (pc : peer_connection) :=
            Some (NGX_BUSY, peers :: next, rrp,
                  PC (pc_connection pc) (pc_cached pc) (pc_sockaddr pc) (pc_socklen pc) (peers_name peers)
                    (pc_tries pc)) in
          match next with
          | [] => busy next rrp pc
          | q :: _ =>
              let n := u64 (number q + (8 * 8 - 1)) / (8 * 8) in
              tried ← clear_tried (Z.to_nat n) (rrp_tried rrp);
              '(rc, next, rrp, pc) ← get_from now (S g) next (RRData (S g) (rrp_current rrp) tried) pc;
              if decide (rc <> NGX_BUSY) then Some (rc, peers :: next, rrp, pc)
              else busy next rrp pc
          end
      end
  end.

Definition ngx_http_upstream_get_round_robin_peer (now : Z) (ups : list rr_peers) (rrp : rr_data)
    (pc : peer_connection) : option (Z * list rr_peers * rr_data * peer_connection) :=
  let g := rrp_peers rrp in
  '(rc, next, rrp, pc) ← get_from now g (drop g ups) rrp pc;
  Some (rc, take g ups ++ next, rrp, pc).

(** *** The end of the use of a peer *)

Definition free_failed (now : Z) (p : peer) : peer :=
  let p := set_health (u64 (fails p + 1)) now now p in
  let ew :=
    if decide (max_fails p <> 0) then s64 (u64 (effective_weight p - u64 (weight p) / max_fails p))
    else effective_weight p in
  set_weights (current_weight p) (if decide (ew < 0) then 0 else ew) p.

Definition ngx_http_upstream_free_round_robin_peer (now : Z) (ups : list rr_peers) (rrp : rr_data)
    (pc : peer_connection) (state : Z) : option (list rr_peers * peer_connection) :=
  '(g, i) ← rrp_current rrp;
  peers ← ups !! rrp_peers rrp;
  gp ← ups !! g;
  p ← peers_peer gp !! i;
  let store p := <[g := set_peers (<[i := p]> (peers_peer gp)) gp]> ups in
  let tries n := PC (pc_connection pc) (pc_cached pc) (pc_sockaddr pc) (pc_socklen pc) (pc_name pc) n in
  if single peers then
    let p := if decide (fails p <> 0) then set_health 0 (accessed p) (checked p) p else p in
    Some (store (set_conns (u64 (conns p - 1)) p), tries 0)
  else
    let p :=
      if decide (Z.land state NGX_PEER_FAILED <> 0) then free_failed now p
      else if decide (accessed p < checked p) then set_health 0 (accessed p) (checked p) p
      else p in
    Some (store (set_conns (u64 (conns p - 1)) p),
          tries (if decide (pc_tries pc <> 0) then pc_tries pc - 1 else pc_tries pc)).

Definition abc : list rr_peers :=
  let p w := Peer (Addr (sockaddr_un []) 0 []) [] 0 w w 0 0 0 0 0 1 10 0 in
  [Peers 3 7 3 false true [] [p 5; p 1; p 1]].

Fixpoint first_picks (n : nat) (ups : list rr_peers) : list nat :=
  match n with
  | O => []
  | S n =>
      match ngx_http_upstream_init_round_robin_peer ups (PC None false None 0 [] 0) with
      | Some (rrp, pc) =>
          match ngx_http_upstream_get_round_robin_peer 0 ups rrp pc with
          | Some (_, ups, rrp, _) => match rrp_current rrp with Some (_, i) => i :: first_picks n ups | None => [] end
          | None => []
          end
      | None => []
      end
  end.

Example picks_511 : first_picks 8 abc = [0; 0; 1; 0; 2; 0; 0; 0]%nat.
Proof. by vm_compute. Qed.

Example create_2 :
  match ngx_http_upstream_create_round_robin_peer
    (Resolved (bstr "h") 8080 2 [Addr (sockaddr_in 0 16777343) 16 []; Addr (sockaddr_in6 0 (repeat 0 15 ++ [1])) 28 []] None 0 None)
    (PC None false None 0 [] 0) with
  | Some ([g], rrp, pc) => (a_name <$> (p_addr <$> peers_peer g), rrp_tried rrp, pc_tries pc) =
      ([bstr "127.0.0.1:8080"; bstr "[::1]:8080"], [0], 2)
  | _ => False
  end.
Proof. vm_compute. reflexivity. Qed.

(** ** Sums and balanced weights *)

Fixpoint zsum (n : nat) (f : nat -> Z) : Z :=
  match n with O => 0 | S n => zsum n f + f n end.

Lemma zsum_ext n f g : (forall i, (i < n)%nat -> f i = g i) -> zsum n f = zsum n g.
Proof. induction n as [|n IH]; cbn; intros E; [done|]. rewrite IH by (intros; apply E; lia). rewrite E; lia. Qed.

Lemma zsum_add n f g : zsum n (fun i => f i + g i) = zsum n f + zsum n g.
Proof. induction n; cbn; lia. Qed.

Lemma zsum_scale n k f : zsum n (fun i => k * f i) = k * zsum n f.
Proof. induction n; cbn; lia. Qed.

Lemma zsum_le n f g : (forall i, (i < n)%nat -> f i <= g i) -> zsum n f <= zsum n g.
Proof.
  induction n as [|n IH]; cbn; intros E; [lia|]. pose proof (E n ltac:(lia)).
  pose proof (IH ltac:(intros; apply E; lia)). lia.
Qed.

Lemma zsum_const n k : zsum n (fun _ => k) = k * Z.of_nat n.
Proof. induction n as [|n IH]; cbn; [lia|]. rewrite IH. lia. Qed.

Lemma zsum_point n b x : (b < n)%nat -> zsum n (fun i => if decide (i = b) then x else 0) = x.
Proof.
  induction n as [|n IH]; intros Hb; [lia|]. cbn. destruct (decide (n = b)) as [->|Hne].
  - rewrite (zsum_ext _ _ (fun _ => 0)); [rewrite zsum_const; lia|].
    intros i Hi. rewrite decide_False; [done|lia].
  - rewrite IH; lia.
Qed.

(** Sums over a subset of the indices. *)
Definition msum (n : nat) (T : nat -> bool) (f : nat -> Z) : Z := zsum n (fun i => if T i then f i else 0).

Definition msize (n : nat) (T : nat -> bool) : Z := msum n T (fun _ => 1).

Lemma msum_ext n T T' f g : (forall i, (i < n)%nat -> T i = T' i /\ f i = g i) -> msum n T f = msum n T' g.
Proof. intros E. apply zsum_ext. intros i Hi. destruct (E i Hi) as [-> ->]. done. Qed.

Lemma msum_add n T f g : msum n T (fun i => f i + g i) = msum n T f + msum n T g.
Proof. unfold msum. rewrite <- zsum_add. apply zsum_ext. intros i _. destruct (T i); lia. Qed.

Lemma msum_le n T f g : (forall i, (i < n)%nat -> T i = true -> f i <= g i) -> msum n T f <= msum n T g.
Proof. intros E. apply zsum_le. intros i Hi. specialize (E i Hi). destruct (T i); [by apply E|lia]. Qed.

Lemma msum_const n T k : msum n T (fun _ => k) = k * msize n T.
Proof. unfold msize, msum. rewrite <- zsum_scale. apply zsum_ext. intros i _. destruct (T i); lia. Qed.

Lemma msum_disj n T U f : (forall i, T i && U i = false) ->
  msum n (fun i => T i || U i) f = msum n T f + msum n U f.
Proof.
  intros D. unfold msum. rewrite <- zsum_add. apply zsum_ext. intros i _. specialize (D i).
  destruct (T i), (U i); cbn in *; try done; lia.
Qed.

Lemma msum_point n T b x : (b < n)%nat ->
  msum n T (fun i => if decide (i = b) then x else 0) = if T b then x else 0.
Proof.
  intros Hb. rewrite <- (zsum_point n b (if T b then x else 0)) by done. apply zsum_ext.
  intros i _. destruct (decide (i = b)) as [->|]; [done|]. by destruct (T i).
Qed.

Lemma msum_all n f : msum n (fun _ => true) f = zsum n f.
Proof. done. Qed.

Lemma msize_bounds n T : 0 <= msize n T <= Z.of_nat n.
Proof.
  unfold msize, msum. split.
  - transitivity (zsum n (fun _ => 0)); [rewrite zsum_const; lia|]. apply zsum_le. intros i _. destruct (T i); lia.
  - transitivity (zsum n (fun _ => 1)); [|rewrite zsum_const; lia]. apply zsum_le. intros i _. destruct (T i); lia.
Qed.

(** Weights whose sum is zero and of which no [t] of the [n] owe more than
    [w * t * (n - t)]. *)
Definition balanced (n : nat) (w : Z) (c : nat -> Z) : Prop :=
  zsum n c = 0 /\ forall T, - w * (msize n T * (Z.of_nat n - msize n T)) <= msum n T c.

Lemma balanced_ext n w c c' : (forall i, (i < n)%nat -> c i = c' i) -> balanced n w c -> balanced n w c'.
Proof.
  intros E [H1 H2]. split; [by rewrite <- (zsum_ext n c c')|].
  intros T. rewrite <- (msum_ext n T T c c'); [apply H2|]. intros i Hi. split; [done|by apply E].
Qed.

Lemma balanced_arith (F C E cb eb t m n w : Z) : 0 <= m -> 0 <= w ->
  - w * ((t + m) * (n - (t + m))) <= F + C ->
  - w * ((t - 1) * (n - (t - 1))) <= F - cb ->
  C + E <= m * (cb + eb) -> E <= w * m -> eb <= w ->
  - w * (t * (n - t)) <= F - E.
Proof.
  intros Hm Hw H1 H2 H3 H4 H5.
  assert (H6 : m * (F - cb) >= m * (- w * ((t - 1) * (n - (t - 1))))) by nia.
  assert (H7 : m * E <= m * (w * m)) by nia. assert (H8 : m * eb <= m * w) by nia.
  assert (H9 : (m + 1) * (F - E) >= (m + 1) * (- w * (t * (n - t)))); [|nia].
  replace ((m + 1) * (- w * (t * (n - t)))) with
    (- w * ((t + m) * (n - (t + m))) + m * (- w * ((t - 1) * (n - (t - 1)))) - m * (w * m) - m * w) by ring.
  nia.
Qed.

(** A round: the members of [S] get their weights [e], one of them that is the
    richest then pays for all. *)
Definition round (n : nat) (S : nat -> bool) (e : nat -> Z) (b : nat) (c : nat -> Z) (i : nat) : Z :=
  c i + (if S i then e i else 0) - (if decide (i = b) then msum n S e else 0).

Lemma msum_round n S e b c T : (b < n)%nat ->
  msum n T (round n S e b c) =
  msum n T c + msum n (fun i => T i && S i) e - (if T b then msum n S e else 0).
Proof.
  intros Hb. unfold round. transitivity
    (msum n T (fun i => (c i + (if S i then e i else 0)) + (if decide (i = b) then - msum n S e else 0))).
  { apply msum_ext. intros i _. split; [done|]. destruct (decide (i = b)); lia. }
  rewrite !msum_add, msum_point by done.
  replace (msum n T (fun i => if S i then e i else 0)) with (msum n (fun i => T i && S i) e).
  { destruct (T b); lia. }
  apply zsum_ext. intros i _. by destruct (T i), (S i).
Qed.

Lemma balanced_round n w S e b c : balanced n w c -> (b < n)%nat -> S b = true ->
  (forall i, (i < n)%nat -> S i = true -> 0 <= e i <= w) ->
  (forall i, (i < n)%nat -> S i = true -> c i + e i <= c b + e b) ->
  balanced n w (round n S e b c).
Proof.
  intros [H0 Hc] Hb HSb He Hmax. split.
  { rewrite <- msum_all, msum_round by done. rewrite msum_all, H0.
    change (msum n (fun i => true && S i) e) with (msum n S e). lia. }
  intros T. rewrite msum_round by done. pose proof (Hc T) as HT. pose proof (He b Hb HSb) as Hbe.
  assert (Hpos : 0 <= msum n (fun i => T i && S i) e).
  { transitivity (msum n (fun i => T i && S i) (fun _ => 0)); [rewrite msum_const; lia|].
    apply msum_le. intros i Hi [_ Hi']%andb_prop. by apply He. }
  destruct (T b) eqn:ETb; [|lia].
  set (U := fun i => negb (T i) && S i).
  assert (EU : msum n S e = msum n (fun i => T i && S i) e + msum n U e).
  { rewrite <- msum_disj by (intros i; unfold U; by destruct (T i), (S i)).
    apply msum_ext. intros i _. unfold U. by destruct (T i), (S i). }
  pose proof (Hc (fun i => T i || U i)) as H1.
  pose proof (Hc (fun i => T i && negb (bool_decide (i = b)))) as H2.
  assert (D : forall i, T i && U i = false) by (intros i; unfold U; by destruct (T i), (S i)).
  unfold msize in H1. rewrite !msum_disj in H1 by done. fold (msize n T) (msize n U) in H1.
  assert (P : forall f, msum n (fun i => T i && negb (bool_decide (i = b))) f = msum n T f - f b).
  { intros f. transitivity (msum n T (fun i => f i + (if decide (i = b) then - f b else 0))).
    - apply zsum_ext. intros i _. destruct (decide (i = b)) as [->|Hne].
      + rewrite ETb, bool_decide_eq_true_2 by done. cbn. lia.
      + rewrite bool_decide_eq_false_2 by done. rewrite andb_true_r. destruct (T i); lia.
    - rewrite msum_add, msum_point by done. rewrite ETb. lia. }
  unfold msize in H2. rewrite !P in H2. fold (msize n T) in H2.
  pose proof (balanced_arith (msum n T c) (msum n U c) (msum n U e) (c b) (e b) (msize n T) (msize n U)
                (Z.of_nat n) w) as HA.
  pose proof (msize_bounds n U) as HU. rewrite EU.
  assert (HA1 : msum n U c + msum n U e <= msize n U * (c b + e b)).
  { rewrite <- msum_add, Z.mul_comm, <- msum_const. apply msum_le. intros i Hi [_ ?]%andb_prop. by apply Hmax. }
  assert (HA2 : msum n U e <= w * msize n U).
  { rewrite <- msum_const. apply msum_le. intros i Hi [_ ?]%andb_prop. by apply He. }
  lia.
Qed.

Lemma balanced_zero n w : 0 <= w -> balanced n w (fun _ => 0).
Proof.
  intros Hw. split; [rewrite zsum_const; lia|]. intros T. rewrite msum_const.
  pose proof (msize_bounds n T) as HT. assert (0 <= msize n T * (Z.of_nat n - msize n T)) by nia. nia.
Qed.

Lemma balanced_bound n w c i : balanced n w c -> (i < n)%nat ->
  - w * (Z.of_nat n - 1) <= c i <= w * (Z.of_nat n - 1).
Proof.
  intros [H0 Hc] Hi. split.
  - pose proof (Hc (fun j => bool_decide (j = i))) as H.
    assert (P : forall f, msum n (fun j => bool_decide (j = i)) f = f i).
    { intros f. rewrite <- (zsum_point n i (f i)) by done. apply zsum_ext. intros j _.
      destruct (decide (j = i)) as [->|]; [by rewrite bool_decide_eq_true_2|by rewrite bool_decide_eq_false_2]. }
    unfold msize in H. rewrite !P in H. lia.
  - pose proof (Hc (fun j => negb (bool_decide (j = i)))) as H.
    assert (P : forall f, msum n (fun j => negb (bool_decide (j = i))) f = zsum n f - f i).
    { intros f. rewrite <- (zsum_point n i (f i)) by done. unfold msum.
      apply (Z.add_cancel_r _ _ (zsum n (fun i0 => if decide (i0 = i) then f i else 0))).
      rewrite Z.sub_add, <- zsum_add. apply zsum_ext. intros j _.
      destruct (decide (j = i)) as [->|]; [rewrite bool_decide_eq_true_2 by done|rewrite bool_decide_eq_false_2 by done];
        cbn; lia. }
    unfold msize in H. rewrite !P, zsum_const in H. lia.
Qed.

(** ** The loop over the peers *)

(** Whether the loop gives its weight to peer [p] at index [i]. *)
Definition turn_at (now : Z) (tried : list Z) (i : nat) (p : peer) : bool :=
  match tried !! word_of i with
  | Some word => negb (bool_decide (Z.land word (mask_of i) <> 0) || skipped now p)
  | None => false
  end.

Fixpoint turns (now : Z) (tried : list Z) (i : nat) (ps : list peer) : list bool :=
  match ps with [] => [] | p :: ps => turn_at now tried i p :: turns now tried (S i) ps end.

Definition bump (p : peer) : peer :=
  set_weights (current_weight p + effective_weight p)
    (if decide (effective_weight p < weight p) then effective_weight p + 1 else effective_weight p) p.

Definition bumped (t : bool) (p : peer) : peer := if t then bump p else p.
Definition candidate (t : bool) (p : peer) : option Z :=
  if t then Some (current_weight p + effective_weight p) else None.
Definition share (t : bool) (p : peer) : Z := if t then effective_weight p else 0.

Fixpoint sum_list (l : list Z) : Z := match l with [] => 0 | x :: l => x + sum_list l end.

(** The first of the candidates with the greatest weight. *)
Fixpoint richest (i : nat) (cs : list (option Z)) (best : option (nat * Z)) : option (nat * Z) :=
  match cs with
  | [] => best
  | None :: cs => richest (S i) cs best
  | Some c :: cs =>
      richest (S i) cs
        (match best with
         | None => Some (i, c)
         | Some (_, b) => if decide (c > b) then Some (i, c) else best
         end)
  end.

Definition in_int (x : Z) : Prop := - 2 ^ 63 <= x < 2 ^ 63.

Lemma int_of_ok x : in_int x -> int_of x = Some x.
Proof. intros H. unfold int_of. by rewrite decide_True. Qed.

Lemma length_turns now tried ps : forall i, length (turns now tried i ps) = length ps.
Proof. induction ps; intros i; cbn; [done|]. by rewrite IHps. Qed.

Lemma lookup_turns now tried ps : forall i j,
  turns now tried i ps !! j = turn_at now tried (i + j) <$> ps !! j.
Proof.
  induction ps as [|p ps IH]; intros i [|j]; cbn; try done; [by rewrite Nat.add_0_r|].
  rewrite IH. by rewrite Nat.add_succ_r.
Qed.

Lemma peer_loop_eq now tried ps : forall i total best w,
  (forall j, (j < length ps)%nat -> is_Some (tried !! word_of (i + j))) ->
  Forall (fun p => 0 <= effective_weight p <= w /\ in_int (current_weight p + effective_weight p)) ps ->
  0 <= total -> total + w * Z.of_nat (length ps) < 2 ^ 63 ->
  peer_loop now tried i ps total best =
  let ts := turns now tried i ps in
  Some (zip_with bumped ts ps, total + sum_list (zip_with share ts ps), richest i (zip_with candidate ts ps) best).
Proof.
  induction ps as [|p ps IH]; intros i total best w Ht Hf H0 Hw.
  - cbn. by rewrite Z.add_0_r.
  - apply List.Forall_cons_iff in Hf as [[He Hc] Hf]. cbn [length] in Hw.
    assert (Ht' : forall j, (j < length ps)%nat -> is_Some (tried !! word_of (S i + j))).
    { intros j Hj. replace (S i + j)%nat with (i + S j)%nat by lia. apply Ht. cbn. lia. }
    destruct (Ht 0%nat ltac:(cbn; lia)) as [word Hword]. rewrite Nat.add_0_r in Hword.
    assert (Et : turn_at now tried i p = negb (bool_decide (Z.land word (mask_of i) <> 0) || skipped now p)).
    { unfold turn_at. by rewrite Hword. }
    cbn [peer_loop turns zip_with]. unfold mbind, option_bind. rewrite Hword.
    rewrite Et. destruct (_ || _) eqn:E; cbn [negb bumped share candidate sum_list richest].
    + rewrite (IH _ _ _ w) by (done || lia). cbn. by rewrite !Z.add_0_l.
    + rewrite !int_of_ok by (done || (unfold in_int in *; nia)). rewrite (IH _ _ _ w) by (done || nia). cbn.
      rewrite Z.add_assoc. done.
Qed.

(** What [richest] finds. *)
Definition is_richest (cs : list (option Z)) (r : option (nat * Z)) : Prop :=
  match r with
  | None => forall j c, cs !! j <> Some (Some c)
  | Some (b, x) => cs !! b = Some (Some x) /\
      forall j c, cs !! j = Some (Some c) -> c <= x /\ ((j < b)%nat -> c < x)
  end.

Lemma richest_app cs : forall pre best, is_richest pre best ->
  is_richest (pre ++ cs) (richest (length pre) cs best).
Proof.
  induction cs as [|[c|] cs IH]; intros pre best Hb; cbn [richest].
  - by rewrite app_nil_r.
  - replace (S (length pre)) with (length (pre ++ [Some c])) by (rewrite length_app; cbn; lia).
    rewrite cons_middle, app_assoc. apply IH.
    assert (Hl : forall j y, (pre ++ [Some c]) !! j = Some (Some y) ->
      pre !! j = Some (Some y) /\ (j < length pre)%nat \/ j = length pre /\ y = c).
    { intros j y [[? H]|[-> [= ->]]]%lookup_snoc_Some; [left; by split|by right]. }
    destruct best as [[b x]|]; cbn in Hb |- *.
    + destruct Hb as [H1 H2]. assert (Hlt : (b < length pre)%nat) by (by eapply lookup_lt_Some).
      destruct (decide (c > x)); cbn.
      * split; [by apply lookup_snoc_Some; right|]. intros j y [[H ?]|[-> ->]]%Hl; [|lia].
        apply H2 in H. lia.
      * split; [by rewrite lookup_app_l|]. intros j y [[H ?]|[-> ->]]%Hl; [by apply H2|lia].
    + split; [by apply lookup_snoc_Some; right|]. intros j y [[H ?]|[-> ->]]%Hl; [|lia]. by apply Hb in H.
  - replace (S (length pre)) with (length (pre ++ [None : option Z])) by (rewrite length_app; cbn; lia).
    rewrite cons_middle, app_assoc. apply IH.
    assert (Hl : forall j y, (pre ++ [None]) !! j = Some (Some y) -> pre !! j = Some (Some y)).
    { intros j y [[? H]|[_ H]]%lookup_snoc_Some; done. }
    destruct best as [[b x]|]; cbn in Hb |- *.
    + destruct Hb as [H1 H2]. split; [|by intros j y ?%Hl; apply H2].
      rewrite lookup_app_l; [done|by eapply lookup_lt_Some].
    + by intros j y ?%Hl%Hb.
Qed.

Lemma richest_ok cs : is_richest cs (richest 0 cs None).
Proof. apply (richest_app cs [] None). by intros j c. Qed.

Lemma zsum_first n f : zsum (S n) f = f 0%nat + zsum n (fun i => f (S i)).
Proof. induction n as [|n IH]; [cbn; lia|]. change (zsum (S (S n)) f) with (zsum (S n) f + f (S n)). rewrite IH. cbn. lia. Qed.

Lemma sum_list_zsum l : sum_list l = zsum (length l) (fun i => default 0 (l !! i)).
Proof. induction l as [|x l IH]; [done|]. cbn [length sum_list]. rewrite zsum_first, IH. done. Qed.

(** The fields of peer [i] as functions of [i]. *)
Definition field (f : peer -> Z) (ps : list peer) (i : nat) : Z := default 0 (f <$> ps !! i).
Definition turn (now : Z) (tried : list Z) (ps : list peer) (i : nat) : bool :=
  default false (turns now tried 0 ps !! i).

Lemma field_lookup f ps i p : ps !! i = Some p -> field f ps i = f p.
Proof. unfold field. by intros ->. Qed.

Lemma sum_shares now tried ps :
  sum_list (zip_with share (turns now tried 0 ps) ps) =
  msum (length ps) (turn now tried ps) (field effective_weight ps).
Proof.
  rewrite sum_list_zsum, length_zip_with, length_turns, Nat.min_id. apply zsum_ext. intros i [p Hp]%lookup_lt_is_Some.
  rewrite lookup_zip_with. unfold turn, field. rewrite !lookup_turns, Hp. cbn.
  unfold share. by destruct (turn_at _ _ _ _).
Qed.

(** ** The choice of a peer *)

(** The bounds of a peer: [w] is at least its weight. *)
Definition peer_ok (w : Z) (p : peer) : Prop :=
  0 <= effective_weight p <= weight p /\ weight p <= w /\ 0 <= max_fails p /\ 0 <= max_conns p < 2 ^ 64.

(** A group of peers whose weights add up to less than overflows. *)
Definition group_ok (w : Z) (ps : list peer) : Prop :=
  0 < w /\ w * Z.of_nat (length ps) < 2 ^ 63 /\ Forall (peer_ok w) ps /\
  balanced (length ps) w (field current_weight ps).

Definition covers (tried : list Z) (n : nat) : Prop := Z.of_nat n <= 64 * Z.of_nat (length tried).

Lemma covers_word tried n i : covers tried n -> (i < n)%nat -> is_Some (tried !! word_of i).
Proof. unfold covers, word_of. intros H Hi. apply lookup_lt_is_Some. change (8 * 8) with 64. dlia. Qed.

(** The chosen peer [p] at the end of a round with the given total. *)
Definition pay (now total : Z) (p : peer) : peer :=
  let p := set_weights (current_weight p - total) (effective_weight p) p in
  if decide (now - checked p > fail_timeout p) then set_health (fails p) (accessed p) now p else p.

Definition rounded (now : Z) (tried : list Z) (ps : list peer) : list peer :=
  zip_with bumped (turns now tried 0 ps) ps.

Definition mark (tried : list Z) (i : nat) : list Z :=
  <[word_of i := Z.lor (default 0 (tried !! word_of i)) (mask_of i)]> tried.

(** [b] is the first of the peers in turn with the greatest weight. *)
Definition wins (T : nat -> bool) (ps : list peer) (b : nat) : Prop :=
  T b = true /\ forall i, T i = true ->
    field current_weight ps i + field effective_weight ps i <= field current_weight ps b + field effective_weight ps b /\
    ((i < b)%nat ->
     field current_weight ps i + field effective_weight ps i < field current_weight ps b + field effective_weight ps b).

Definition round_total (now : Z) (tried : list Z) (ps : list peer) : Z :=
  msum (length ps) (turn now tried ps) (field effective_weight ps).

Lemma length_rounded now tried ps : length (rounded now tried ps) = length ps.
Proof. unfold rounded. rewrite length_zip_with, length_turns. lia. Qed.

Lemma lookup_rounded now tried ps i :
  rounded now tried ps !! i = bumped (turn now tried ps i) <$> ps !! i.
Proof.
  unfold rounded, turn. rewrite lookup_zip_with, lookup_turns. destruct (ps !! i) as [p|]; done.
Qed.

Lemma turn_lt now tried ps i : turn now tried ps i = true -> (i < length ps)%nat.
Proof.
  unfold turn. rewrite lookup_turns. destruct (ps !! i) eqn:E; [|done]. intros _. by eapply lookup_lt_Some.
Qed.

Lemma rounded_none now tried ps : (forall i, turn now tried ps i = false) -> rounded now tried ps = ps.
Proof.
  intros H. apply list_eq. intros i. rewrite lookup_rounded, H. by destruct (ps !! i).
Qed.

Lemma candidate_lookup now tried ps i x :
  zip_with candidate (turns now tried 0 ps) ps !! i = Some (Some x) <->
  turn now tried ps i = true /\ x = field current_weight ps i + field effective_weight ps i.
Proof.
  rewrite lookup_zip_with. unfold turn, field. rewrite !lookup_turns.
  destruct (ps !! i) as [p|]; cbn; [|by split; [|intros [? _]]].
  unfold candidate. destruct (turn_at _ _ _ _); cbn; split; [by intros [= <-]|by intros [_ ->]|done|by intros [? _]].
Qed.

Lemma field_bounds w ps i p : group_ok w ps -> ps !! i = Some p ->
  - w * (Z.of_nat (length ps) - 1) <= current_weight p <= w * (Z.of_nat (length ps) - 1).
Proof.
  intros (_ & _ & _ & Hb) Hi. rewrite <- (field_lookup current_weight ps i p Hi).
  apply balanced_bound; [done|by eapply lookup_lt_Some].
Qed.

Lemma peer_ok_lookup w ps i p : group_ok w ps -> ps !! i = Some p -> peer_ok w p.
Proof. intros (_ & _ & H & _) Hi. by eapply Forall_lookup_1 in H. Qed.

Lemma round_total_bounds w now tried ps : group_ok w ps ->
  0 <= round_total now tried ps <= w * Z.of_nat (length ps).
Proof.
  intros H. unfold round_total. pose proof (msize_bounds (length ps) (turn now tried ps)). split.
  - transitivity (msum (length ps) (turn now tried ps) (fun _ => 0)); [rewrite msum_const; lia|].
    apply msum_le. intros i [p Hp]%lookup_lt_is_Some _. rewrite (field_lookup _ _ _ p) by done.
    apply (peer_ok_lookup w) in Hp as (? & ? & _); [lia|done].
  - transitivity (msum (length ps) (turn now tried ps) (fun _ => w)).
    + apply msum_le. intros i [p Hp]%lookup_lt_is_Some _. rewrite (field_lookup _ _ _ p) by done.
      apply (peer_ok_lookup w) in Hp as (? & ? & _); [lia|done].
    + rewrite msum_const. destruct H. nia.
Qed.

Lemma round_loop w now tried ps : group_ok w ps -> covers tried (length ps) ->
  peer_loop now tried 0 ps 0 None =
  Some (rounded now tried ps, round_total now tried ps, richest 0 (zip_with candidate (turns now tried 0 ps) ps) None).
Proof.
  intros H Hc. rewrite (peer_loop_eq _ _ _ _ _ _ w).
  - cbn [Z.add]. by rewrite sum_shares.
  - intros j Hj. by eapply covers_word.
  - apply Forall_lookup_2. intros i p Hp. destruct (peer_ok_lookup w ps i p H Hp) as (? & ? & _).
    pose proof (field_bounds w ps i p H Hp). split; [lia|]. destruct H as (? & ? & _).
    pose proof (lookup_lt_Some _ _ _ Hp). unfold in_int. nia.
  - lia.
  - by destruct H as (_ & ? & _).
Qed.

Lemma get_peer_none w now g ps rrp : group_ok w ps -> covers (rrp_tried rrp) (length ps) ->
  (forall i, turn now (rrp_tried rrp) ps i = false) ->
  ngx_http_upstream_get_peer now g ps rrp = Some (None, ps, rrp).
Proof.
  intros H Hc Hn. unfold ngx_http_upstream_get_peer. rewrite (round_loop w) by done. cbn.
  pose proof (richest_ok (zip_with candidate (turns now (rrp_tried rrp) 0 ps) ps)) as Hr.
  destruct (richest _ _ _) as [[b x]|].
  - destruct Hr as [[Hb _]%candidate_lookup _]. by rewrite Hn in Hb.
  - by rewrite rounded_none.
Qed.

Lemma wins_balanced w now tried ps b : group_ok w ps -> wins (turn now tried ps) ps b ->
  balanced (length ps) w
    (round (length ps) (turn now tried ps) (field effective_weight ps) b (field current_weight ps)).
Proof.
  intros H [Hb Hmax]. pose proof (turn_lt _ _ _ _ Hb). destruct H as (Hw & Hn & Hf & Hbal).
  apply balanced_round; try done.
  - intros i [p Hp]%lookup_lt_is_Some _. rewrite (field_lookup _ _ _ p) by done.
    eapply Forall_lookup_1 in Hf as (? & ? & _); [|done]. lia.
  - intros i _ Hi. by apply Hmax.
Qed.

Lemma wins_bound w now tried ps b : group_ok w ps -> wins (turn now tried ps) ps b ->
  - w * (Z.of_nat (length ps) - 1) <=
    field current_weight ps b + field effective_weight ps b - round_total now tried ps
  <= w * (Z.of_nat (length ps) - 1).
Proof.
  intros H Hb. pose proof (wins_balanced w now tried ps b H Hb) as HB. destruct Hb as [Hb _].
  pose proof (balanced_bound _ _ _ b HB (turn_lt _ _ _ _ Hb)) as Hbd. unfold round in Hbd.
  rewrite Hb, decide_True in Hbd by done. done.
Qed.

Lemma get_peer_some w now g ps rrp i : group_ok w ps -> covers (rrp_tried rrp) (length ps) ->
  turn now (rrp_tried rrp) ps i = true ->
  exists b p, wins (turn now (rrp_tried rrp) ps) ps b /\ ps !! b = Some p /\
    ngx_http_upstream_get_peer now g ps rrp =
    Some (Some b,
          <[b := pay now (round_total now (rrp_tried rrp) ps) (bump p)]> (rounded now (rrp_tried rrp) ps),
          RRData (rrp_peers rrp) (Some (g, b)) (mark (rrp_tried rrp) b)).
Proof.
  intros H Hc Hi. unfold ngx_http_upstream_get_peer. rewrite (round_loop w) by done. cbn.
  pose proof (richest_ok (zip_with candidate (turns now (rrp_tried rrp) 0 ps) ps)) as Hr.
  destruct (richest _ _ _) as [[b x]|];
    [|by destruct (Hr i _ (proj2 (candidate_lookup _ _ _ _ _) (conj Hi eq_refl)))].
  destruct Hr as [[Hb ->]%candidate_lookup Hmax].
  pose proof (turn_lt _ _ _ _ Hb) as Hlt. destruct (lookup_lt_is_Some_2 _ _ Hlt) as [p Hp].
  assert (Hwin : wins (turn now (rrp_tried rrp) ps) ps b).
  { split; [done|]. intros j Hj. apply Hmax. by apply candidate_lookup. }
  exists b, p. split; [done|split; [done|]].
  destruct (covers_word _ _ _ Hc Hlt) as [word Hw]. rewrite Hw, lookup_rounded, Hb, Hp. cbn.
  rewrite int_of_ok; cbn.
  - unfold mark. by rewrite Hw.
  - pose proof (wins_bound w _ _ _ _ H Hwin) as Hbd. rewrite !(field_lookup _ _ _ p) in Hbd by done.
    destruct H as (? & ? & _). unfold in_int. cbn in Hbd. nia.
Qed.

(** What a choice leaves as it is. *)
Definition shape (p : peer) : addr * list Z * Z * Z * Z * Z * Z * Z * Z :=
  (p_addr p, p_server p, weight p, conns p, max_conns p, fails p, max_fails p, fail_timeout p, down p).

Lemma shape_eq p q : shape p = shape q ->
  p_addr p = p_addr q /\ weight p = weight q /\ conns p = conns q /\ max_conns p = max_conns q /\
  fails p = fails q /\ max_fails p = max_fails q /\ fail_timeout p = fail_timeout q /\ down p = down q.
Proof. unfold shape. intros [=]. tauto. Qed.

Lemma shape_bumped t p : shape (bumped t p) = shape p.
Proof. by destruct t. Qed.

Lemma shape_pay now total p : shape (pay now total p) = shape p.
Proof. unfold pay. by case_decide. Qed.

Lemma shape_insert (ps : list peer) i p q : ps !! i = Some p -> shape q = shape p -> shape <$> <[i := q]> ps = shape <$> ps.
Proof.
  intros Hi Hq. rewrite list_fmap_insert. apply list_insert_id. rewrite list_lookup_fmap, Hi. cbn. by rewrite Hq.
Qed.

Lemma shape_rounded now tried ps : shape <$> rounded now tried ps = shape <$> ps.
Proof.
  apply list_eq. intros i. rewrite !list_lookup_fmap, lookup_rounded. destruct (ps !! i); [|done].
  cbn. by rewrite shape_bumped.
Qed.

(** The group after the choice of peer [b], which is [p] before. *)
Definition chosen (now : Z) (tried : list Z) (ps : list peer) (b : nat) (p : peer) : list peer :=
  <[b := pay now (round_total now tried ps) (bump p)]> (rounded now tried ps).

Lemma shape_chosen now tried ps b p : ps !! b = Some p -> shape <$> chosen now tried ps b p = shape <$> ps.
Proof.
  intros Hp. unfold chosen. rewrite (shape_insert _ _ (bumped (turn now tried ps b) p)).
  - apply shape_rounded.
  - by rewrite lookup_rounded, Hp.
  - rewrite shape_pay. rewrite shape_bumped. apply (shape_bumped true).
Qed.

Lemma length_chosen now tried ps b p : length (chosen now tried ps b p) = length ps.
Proof. unfold chosen. by rewrite length_insert, length_rounded. Qed.

(** The weights of peer [i] after the choice of peer [b]. *)
Lemma chosen_weights now tried ps b p i q : wins (turn now tried ps) ps b -> ps !! b = Some p ->
  chosen now tried ps b p !! i = Some q -> exists q0, ps !! i = Some q0 /\ shape q = shape q0 /\
    current_weight q =
      round (length ps) (turn now tried ps) (field effective_weight ps) b (field current_weight ps) i /\
    effective_weight q =
      (if turn now tried ps i && bool_decide (effective_weight q0 < weight q0) then effective_weight q0 + 1
       else effective_weight q0).
Proof.
  intros [Hb _] Hp. unfold chosen, round. fold (round_total now tried ps). destruct (decide (i = b)) as [->|Hne].
  - rewrite list_lookup_insert_eq by (rewrite length_rounded; by eapply lookup_lt_Some). intros [= <-].
    exists p. split; [done|]. rewrite shape_pay, (shape_bumped true). split; [done|].
    rewrite Hb, !(field_lookup _ _ _ p) by done.
    assert (E : current_weight (pay now (round_total now tried ps) (bump p)) = current_weight (bump p) - round_total now tried ps
      /\ effective_weight (pay now (round_total now tried ps) (bump p)) = effective_weight (bump p))
      by (unfold pay; by case_decide). destruct E as [-> ->]. cbn. split; [lia|].
    destruct (decide _); [by rewrite bool_decide_eq_true_2|by rewrite bool_decide_eq_false_2].
  - rewrite list_lookup_insert_ne, lookup_rounded by done. destruct (ps !! i) as [q0|] eqn:Hq; [|done].
    intros [= <-]. exists q0. split; [done|]. split; [apply shape_bumped|].
    rewrite !(field_lookup _ _ _ q0) by done.
    destruct (turn now tried ps i); cbn; [|split; [lia|done]]. split; [lia|].
    destruct (decide _); [by rewrite bool_decide_eq_true_2|by rewrite bool_decide_eq_false_2].
Qed.

(** The choice of peer [b], the peers of [ps] being [qs] after it, if those of [T]
    are in turn. *)
Definition choice (T : nat -> bool) (ps qs : list peer) (b : nat) : Prop :=
  wins T ps b /\
  forall i q, qs !! i = Some q -> exists q0, ps !! i = Some q0 /\ shape q = shape q0 /\
    current_weight q = round (length ps) T (field effective_weight ps) b (field current_weight ps) i /\
    effective_weight q =
      (if T i && bool_decide (effective_weight q0 < weight q0) then effective_weight q0 + 1 else effective_weight q0).

Lemma choice_ext T T' ps qs b : (forall i, T i = T' i) -> choice T ps qs b -> choice T' ps qs b.
Proof.
  intros E [[H1 H2] H3]. split; [split; [by rewrite <- E|]|].
  - intros i Hi. apply H2. by rewrite E.
  - intros i q Hq. destruct (H3 i q Hq) as (q0 & Hq0 & Hs & Hc & He). exists q0. split; [done|]. split; [done|].
    rewrite <- E. split; [|done]. rewrite Hc. unfold round. rewrite <- E.
    rewrite (msum_ext (length ps) T T' (field effective_weight ps) (field effective_weight ps)); done.
Qed.

Lemma chosen_choice now tried ps b p : wins (turn now tried ps) ps b -> ps !! b = Some p ->
  choice (turn now tried ps) ps (chosen now tried ps b p) b.
Proof. intros Hb Hp. split; [done|]. intros i q Hq. by eapply chosen_weights. Qed.

Lemma chosen_ok w now tried ps b p : group_ok w ps -> wins (turn now tried ps) ps b -> ps !! b = Some p ->
  group_ok w (chosen now tried ps b p).
Proof.
  intros H Hb Hp. pose proof (wins_balanced w now tried ps b H Hb) as HB. pose proof H as (Hw & Hn & Hf & _).
  unfold group_ok. rewrite length_chosen. split; [done|]. split; [done|]. split.
  - apply Forall_lookup_2. intros i q Hq.
    destruct (chosen_weights now tried ps b p i q Hb Hp Hq) as (q0 & Hq0 & Hs & _ & He).
    apply shape_eq in Hs as (_ & Ew & _ & Em & _ & Ef & _).
    destruct (peer_ok_lookup w ps i q0 H Hq0) as (? & ? & ? & ?). unfold peer_ok. rewrite He, Ew, Em, Ef.
    destruct (turn now tried ps i); cbn; [|lia]. case_bool_decide; lia.
  - revert HB. apply balanced_ext. intros i Hi. rewrite <- (length_chosen now tried ps b p) in Hi.
    apply lookup_lt_is_Some in Hi as [q Hq].
    destruct (chosen_weights now tried ps b p i q Hb Hp Hq) as (q0 & Hq0 & _ & Ec & _).
    rewrite (field_lookup current_weight (chosen _ _ _ _ _) i q) by done. by rewrite Ec.
Qed.

(** A change of a peer that leaves its current weight. *)
Lemma group_ok_insert w ps i p q : group_ok w ps -> ps !! i = Some p -> peer_ok w q ->
  current_weight q = current_weight p -> group_ok w (<[i := q]> ps).
Proof.
  intros (Hw & Hn & Hf & Hb) Hp Hq Hc. unfold group_ok. rewrite length_insert. split; [done|]. split; [done|]. split.
  - by apply Forall_insert.
  - revert Hb. apply balanced_ext. intros j Hj. unfold field. destruct (decide (j = i)) as [->|Hne].
    + rewrite list_lookup_insert_eq, Hp by done. cbn. by rewrite Hc.
    + by rewrite list_lookup_insert_ne.
Qed.

Lemma turn_not_skipped now tried ps i p : ps !! i = Some p -> turn now tried ps i = true -> skipped now p = false.
Proof.
  intros Hp. unfold turn. rewrite lookup_turns, Hp. cbn. unfold turn_at. destruct (tried !! _); [|done].
  intros [_ H]%negb_true_iff%orb_false_iff. done.
Qed.

Lemma skipped_false now p : skipped now p = false ->
  down p = 0 /\ (max_fails p <> 0 -> fails p < max_fails p \/ now - checked p > fail_timeout p) /\
  (max_conns p <> 0 -> conns p < max_conns p).
Proof.
  unfold skipped. intros [[H1 H2]%orb_false_iff H3]%orb_false_iff.
  apply bool_decide_eq_false_1 in H1, H2, H3. lia.
Qed.

(** ** A group *)

Definition rr_group_ok (w : Z) (g : rr_peers) : Prop :=
  group_ok w (peers_peer g) /\ number g = Z.of_nat (length (peers_peer g)) /\
  (single g = true -> number g = 1).

(** Whether group [g] has no peer for the request. *)
Definition group_busy (now : Z) (tried : list Z) (g : rr_peers) : Prop :=
  if single g then
    forall p, peers_peer g !! 0%nat = Some p -> down p <> 0 \/ max_conns p <> 0 /\ conns p >= max_conns p
  else forall i, turn now tried (peers_peer g) i = false.

Lemma turn_dec now tried ps : (forall i, turn now tried ps i = false) \/ exists i, turn now tried ps i = true.
Proof.
  unfold turn. destruct (list_find (eq true) (turns now tried 0 ps)) as [[i x]|] eqn:E.
  - apply list_find_Some in E as (Hi & <- & _). right. exists i. by rewrite Hi.
  - apply list_find_None in E. left. intros i. destruct (turns now tried 0 ps !! i) as [[]|] eqn:Ei; [|done|done].
    by eapply Forall_lookup_1 in E; [|exact Ei].
Qed.

Lemma group_get_cases w now g G rrp : rr_group_ok w G -> covers (rrp_tried rrp) (length (peers_peer G)) ->
  group_busy now (rrp_tried rrp) G /\ group_get now g G rrp = Some (None, peers_peer G, rrp) \/
  exists b p ps tried,
    peers_peer G !! b = Some p /\
    group_get now g G rrp = Some (Some b, ps, RRData (rrp_peers rrp) (Some (g, b)) tried) /\
    length tried = length (rrp_tried rrp) /\ down p = 0 /\ (max_conns p <> 0 -> conns p < max_conns p) /\
    group_ok w ps /\ shape <$> ps = shape <$> peers_peer G /\
    (if single G then ps = peers_peer G /\ tried = rrp_tried rrp
     else choice (turn now (rrp_tried rrp) (peers_peer G)) (peers_peer G) ps b /\ tried = mark (rrp_tried rrp) b).
Proof.
  intros (H & Hn & Hs) Hc. unfold group_get, group_busy. destruct (single G) eqn:E.
  - specialize (Hs eq_refl). destruct (peers_peer G) as [|p ps] eqn:Ep; [cbn in Hn; lia|].
    destruct (decide (down p <> 0)); [left; split; [|done]; intros ? [= <-]; by left|].
    destruct (decide (max_conns p <> 0 /\ conns p >= max_conns p)); [left; split; [|done]; intros ? [= <-]; by right|].
    right. exists 0%nat, p, (p :: ps), (rrp_tried rrp). do 7 (split; [done || lia|]). done.
  - destruct (turn_dec now (rrp_tried rrp) (peers_peer G)) as [Hno|[i Hi]].
    + left. split; [done|]. by apply (get_peer_none w).
    + right. destruct (get_peer_some w now g (peers_peer G) rrp i H Hc Hi) as (b & p & Hwin & Hp & Heq).
      exists b, p, (chosen now (rrp_tried rrp) (peers_peer G) b p), (mark (rrp_tried rrp) b).
      pose proof (skipped_false now p (turn_not_skipped _ _ _ _ _ Hp (proj1 Hwin))) as (Hd & _ & Hmc).
      split; [done|]. split; [exact Heq|]. split; [unfold mark; by rewrite length_insert|]. split; [done|].
      split; [done|]. split; [by apply chosen_ok|]. split; [by apply shape_chosen|].
      split; [by apply chosen_choice|done].
Qed.

(** ** The call with its backup groups *)

(** Whether group [g] has no peer for a request that has tried none of it. *)
Definition group_down (now : Z) (g : rr_peers) : Prop :=
  if single g then
    forall p, peers_peer g !! 0%nat = Some p -> down p <> 0 \/ max_conns p <> 0 /\ conns p >= max_conns p
  else forall i p, peers_peer g !! i = Some p -> skipped now p = true.

Lemma group_words w G : rr_group_ok w G ->
  Z.of_nat (length (peers_peer G)) <= 64 * (u64 (number G + (8 * 8 - 1)) / (8 * 8)).
Proof.
  intros ((Hw & Hn & _) & -> & _). rewrite u64_small by nia. change (8 * 8) with 64. dlia.
Qed.

Lemma covers_words w G tried : rr_group_ok w G -> covers tried (length (peers_peer G)) ->
  (Z.to_nat (u64 (number G + (8 * 8 - 1)) / (8 * 8)) <= length tried)%nat.
Proof.
  intros ((Hw & Hn & _) & -> & _) Hc. unfold covers in Hc. rewrite u64_small by nia. change (8 * 8) with 64. dlia.
Qed.

Lemma clear_tried_ok w G tried : rr_group_ok w G -> covers tried (length (peers_peer G)) ->
  exists tried', clear_tried (Z.to_nat (u64 (number G + (8 * 8 - 1)) / (8 * 8))) tried = Some tried' /\
    length tried' = length tried /\
    (forall i, (i < length (peers_peer G))%nat -> tried' !! word_of i = Some 0).
Proof.
  intros HG Hc. unfold clear_tried. pose proof (covers_words w G tried HG Hc) as Hl.
  rewrite decide_True by done. eexists. split; [done|].
  split; [rewrite length_app, length_replicate, length_drop; lia|].
  intros i Hi. pose proof (group_words w G HG) as Hg.
  assert (word_of i < Z.to_nat (u64 (number G + (8 * 8 - 1)) / (8 * 8)))%nat.
  { unfold word_of in *. change (8 * 8) with 64 in *. dlia. }
  rewrite lookup_app_l by (by rewrite length_replicate).
  by apply lookup_replicate_2.
Qed.

Lemma busy_cleared now tried G : group_busy now tried G ->
  (forall i, (i < length (peers_peer G))%nat -> tried !! word_of i = Some 0) -> group_down now G.
Proof.
  unfold group_busy, group_down. intros H Hz. destruct (single G); [done|]. intros i p Hp.
  specialize (H i). unfold turn in H. rewrite lookup_turns, Hp in H. cbn in H. unfold turn_at in H.
  rewrite Hz in H by (by eapply lookup_lt_Some). rewrite Z.land_0_l, bool_decide_eq_false_2 in H by tauto.
  cbn in H. by destruct (skipped now p).
Qed.

Definition fresh_turn (now : Z) (ps : list peer) (i : nat) : bool :=
  match ps !! i with Some p => negb (skipped now p) | None => false end.

Lemma turn_cleared now tried ps i :
  (forall i, (i < length ps)%nat -> tried !! word_of i = Some 0) -> turn now tried ps i = fresh_turn now ps i.
Proof.
  intros Hz. unfold turn, fresh_turn. rewrite lookup_turns. destruct (ps !! i) as [p|] eqn:Hp; [|done]. cbn.
  unfold turn_at. rewrite Hz by (by eapply lookup_lt_Some). rewrite Z.land_0_l, bool_decide_eq_false_2 by tauto. done.
Qed.

(** The peers in turn of the group that is [k] groups after the one of the
    request: those that the request has tried count in its own group only. *)
Definition avail (now : Z) (tried : list Z) (k : nat) (G : rr_peers) : nat -> bool :=
  if decide (k = 0%nat) then turn now tried (peers_peer G) else fresh_turn now (peers_peer G).

(** The groups after a choice in group [k]. *)
Definition put_group (k : nat) (G : rr_peers) (b : nat) (q : peer) (ps : list peer) (ups : list rr_peers) :
    list rr_peers :=
  <[k := set_peers (<[b := set_conns (u64 (conns q + 1)) q]> ps) G]> ups.

(** A choice of peer [b] of group [k], which is [p] before and [q] after the choice. *)
Definition picked (w now : Z) (tried : list Z) (ups : list rr_peers) (k : nat) (G : rr_peers) (b : nat) (p q : peer)
    (ps : list peer) : Prop :=
  ups !! k = Some G /\ peers_peer G !! b = Some p /\ ps !! b = Some q /\ down p = 0 /\
  (max_conns p <> 0 -> conns p < max_conns p) /\ group_ok w ps /\ shape <$> ps = shape <$> peers_peer G /\
  (if single G then ps = peers_peer G else choice (avail now tried k G) (peers_peer G) ps b).

Lemma set_peers_id G : set_peers (peers_peer G) G = G.
Proof. by destruct G. Qed.

Lemma shape_fmap (ps qs : list peer) i p : shape <$> ps = shape <$> qs -> qs !! i = Some p ->
  exists q, ps !! i = Some q /\ shape q = shape p.
Proof.
  intros E Hi. assert (Hs : (shape <$> ps) !! i = Some (shape p)) by (rewrite E, list_lookup_fmap, Hi; done).
  rewrite list_lookup_fmap in Hs. destruct (ps !! i) as [q|]; [|done]. apply Some_inv in Hs. by exists q.
Qed.

Lemma picked_next w now tried tried' Q ups P k G b p q ps :
  (forall i, (i < length (peers_peer Q))%nat -> tried' !! word_of i = Some 0) ->
  picked w now tried' (Q :: ups) k G b p q ps -> picked w now tried (P :: Q :: ups) (S k) G b p q ps.
Proof.
  intros Hz (H1 & H2 & H3 & H4 & H5 & H6 & H7 & H8). unfold picked. do 7 (split; [done|]).
  destruct (single G); [done|]. revert H8. apply choice_ext. intros i. unfold avail.
  rewrite (decide_False (P := S k = 0%nat)) by done. destruct (decide (k = 0%nat)) as [->|]; [|done].
  injection H1 as ->. by apply turn_cleared.
Qed.

Lemma get_from_cases w now : forall ups g rrp pc, ups <> [] -> Forall (rr_group_ok w) ups ->
  Forall (fun G => covers (rrp_tried rrp) (length (peers_peer G))) ups -> rrp_peers rrp = g ->
  exists rrp' pc', length (rrp_tried rrp') = length (rrp_tried rrp) /\ pc_tries pc' = pc_tries pc /\
    (get_from now g ups rrp pc = Some (NGX_BUSY, ups, rrp', pc') /\ rrp_current rrp' = rrp_current rrp /\
     pc_sockaddr pc' = pc_sockaddr pc /\ (g <= rrp_peers rrp' < g + length ups)%nat /\
     (forall j G, ups !! j = Some G -> if decide (j = 0%nat) then group_busy now (rrp_tried rrp) G else group_down now G)
     \/
     exists k G b p q ps, picked w now (rrp_tried rrp) ups k G b p q ps /\
       get_from now g ups rrp pc = Some (NGX_OK, put_group k G b q ps ups, rrp', pc') /\
       rrp_peers rrp' = (g + k)%nat /\ rrp_current rrp' = Some ((g + k)%nat, b) /\
       pc_sockaddr pc' = Some (a_sockaddr (p_addr p)) /\
       (forall j G, (j < k)%nat -> ups !! j = Some G ->
          if decide (j = 0%nat) then group_busy now (rrp_tried rrp) G else group_down now G)).
Proof.
  induction ups as [|G ups IH]; intros g rrp pc Hne Hok Hc Hg; [done|].
  apply List.Forall_cons_iff in Hok as [HG Hok]. apply List.Forall_cons_iff in Hc as [HcG Hc].
  cbn [get_from]. unfold mbind, option_bind.
  destruct (group_get_cases w now g G rrp HG HcG) as
    [[Hbusy ->]|(b & p & ps & tried & Hp & -> & Hl & Hd & Hm & Hgo & Hs & Hch)].
  - rewrite set_peers_id. destruct ups as [|Q ups].
    + exists rrp, (PC None false (pc_sockaddr pc) (pc_socklen pc) (peers_name G) (pc_tries pc)).
      do 2 (split; [done|]). left. do 3 (split; [done|]). split; [cbn; lia|].
      intros [|j] G' E; [by injection E as <-|done].
    + pose proof (List.Forall_inv Hok) as HQ. pose proof (List.Forall_inv Hc) as HcQ. cbn beta in HcQ.
      destruct (clear_tried_ok w Q (rrp_tried rrp) HQ HcQ) as (tried & -> & Hl & Hz).
      set (pc0 := PC None false (pc_sockaddr pc) (pc_socklen pc) (pc_name pc) (pc_tries pc)).
      destruct (IH (S g) (RRData (S g) (rrp_current rrp) tried) pc0) as (rrp' & pc' & Hl' & Ht' & Hcase); try done.
      { eapply List.Forall_impl; [|exact Hc]. intros G'. unfold covers. cbn. by rewrite Hl. }
      assert (Hfirst : forall j G', (Q :: ups) !! j = Some G' ->
        (if decide (j = 0%nat) then group_busy now tried G' else group_down now G') -> group_down now G').
      { intros j G' Hj. destruct (decide (j = 0%nat)) as [->|]; [|done]. injection Hj as <-.
        intros Hb. by eapply busy_cleared. }
      cbn in Hl', Ht'. exists rrp'.
      destruct Hcase as [(-> & Hcur & Hsa & Hrange & Hall)|(k & G' & b & p & q & ps & Hpick & -> & Hk & Hcur & Hsa & Hall)].
      * rewrite decide_False by tauto.
        exists (PC (pc_connection pc') (pc_cached pc') (pc_sockaddr pc') (pc_socklen pc') (peers_name G) (pc_tries pc')).
        split; [congruence|]. split; [exact Ht'|]. left.
        split; [reflexivity|]. split; [done|]. split; [done|]. split; [cbn in *; lia|].
        intros [|j] G' Hj; [by injection Hj as <-|]. cbn in Hj |- *. apply (Hfirst j); [done|]. by apply Hall.
      * rewrite decide_True by done. exists pc'. split; [congruence|]. split; [exact Ht'|]. right.
        exists (S k), G', b, p, q, ps. split; [by eapply picked_next|]. split; [done|]. split; [rewrite Hk; lia|].
        split; [rewrite Hcur; do 2 f_equal; lia|]. split; [done|].
        intros [|j] G'' Hjk Hj; [by injection Hj as <-|]. cbn in Hj |- *. apply (Hfirst j); [done|].
        apply Hall; [lia|done].
  - destruct (shape_fmap ps (peers_peer G) b p Hs Hp) as (q & Hq & Hqp). rewrite Hq.
    pose proof (shape_eq _ _ Hqp) as (Ea & _).
    exists (RRData (rrp_peers rrp) (Some (g, b)) tried),
      (PC None false (Some (a_sockaddr (p_addr q))) (a_socklen (p_addr q)) (a_name (p_addr q)) (pc_tries pc)).
    split; [exact Hl|]. split; [|right; exists 0%nat, G, b, p, q, ps]; [reflexivity|].
    split; [unfold picked; do 7 (split; [done|]); by destruct (single G); destruct Hch|]. split; [reflexivity|]. cbn. rewrite Nat.add_0_r. split; [done|]. split; [done|].
    split; [by rewrite Ea|]. intros j G' Hj. lia.
Qed.

(** ** Requests over shared groups *)

(** The groups of an upstream and the requests, by their index. *)
Record sys := Sys { groups : list rr_peers; requests : list (rr_data * peer_connection) }.

(** A new request; the choice of a peer for it; the end of the use of its peer,
    with a result, after which the caller resets [sockaddr]. *)
Inductive event :=
  | Start
  | Get (id : nat) (now : Z)
  | Free (id : nat) (now state : Z).

Definition new_connection : peer_connection := PC None false None 0 [] 0.

Definition step (s : sys) (e : event) : option sys :=
  match e with
  | Start =>
      r ← ngx_http_upstream_init_round_robin_peer (groups s) new_connection;
      Some (Sys (groups s) (requests s ++ [r]))
  | Get id now =>
      '(rrp, pc) ← requests s !! id;
      '(rc, ups, rrp, pc) ← ngx_http_upstream_get_round_robin_peer now (groups s) rrp pc;
      Some (Sys ups (<[id := (rrp, pc)]> (requests s)))
  | Free id now state =>
      '(rrp, pc) ← requests s !! id;
      '(ups, pc) ← ngx_http_upstream_free_round_robin_peer now (groups s) rrp pc state;
      let pc := PC (pc_connection pc) (pc_cached pc) None (pc_socklen pc) (pc_name pc) (pc_tries pc) in
      Some (Sys ups (<[id := (rrp, pc)]> (requests s)))
  end.

(** The callers free a peer if [sockaddr] is set, and ask for one otherwise. *)
Definition enabled (s : sys) (e : event) : Prop :=
  match e with
  | Start => True
  | Get id _ => exists r, requests s !! id = Some r /\ pc_sockaddr r.2 = None
  | Free id _ _ => exists r, requests s !! id = Some r /\ pc_sockaddr r.2 <> None
  end.

Inductive reachable (ups : list rr_peers) : sys -> Prop :=
  | reach_start : reachable ups (Sys ups [])
  | reach_step s e s' : reachable ups s -> enabled s e -> step s e = Some s' -> reachable ups s'.

(** The peer that a request uses. *)
Definition held (r : rr_data * peer_connection) : option (nat * nat) :=
  match pc_sockaddr r.2 with Some _ => rrp_current r.1 | None => None end.

Definition users (s : sys) (gi : nat * nat) : Z :=
  Z.of_nat (length (filter (eq (Some gi)) (held <$> requests s))).

Definition peer_at (ups : list rr_peers) (gi : nat * nat) : option peer :=
  G ← ups !! gi.1; peers_peer G !! gi.2.

(** *** Counting *)

Lemma count_insert {A} `{EqDecision A} (a x y : A) l i : l !! i = Some x ->
  Z.of_nat (length (filter (eq a) (<[i := y]> l))) =
  Z.of_nat (length (filter (eq a) l)) + (if decide (a = y) then 1 else 0) - (if decide (a = x) then 1 else 0).
Proof.
  revert i. induction l as [|z l IH]; intros [|i] Hi; try done.
  - injection Hi as ->. change (<[0%nat := y]> (x :: l)) with (y :: l). rewrite !filter_cons.
    destruct (decide (a = y)), (decide (a = x)); cbn [length]; lia.
  - change (<[S i := y]> (z :: l)) with (z :: <[i := y]> l). rewrite !filter_cons. specialize (IH i Hi). destruct (decide (a = z)); cbn [length]; lia.
Qed.

Lemma users_insert ups ups' reqs id r r' gi : reqs !! id = Some r ->
  users (Sys ups' (<[id := r']> reqs)) gi =
  users (Sys ups reqs) gi + (if decide (Some gi = held r') then 1 else 0) - (if decide (Some gi = held r) then 1 else 0).
Proof.
  intros Hr. unfold users. cbn. rewrite list_fmap_insert. apply count_insert. by rewrite list_lookup_fmap, Hr.
Qed.

(** *** The invariant *)

Definition request_ok (ups : list rr_peers) (r : rr_data * peer_connection) : Prop :=
  (rrp_peers r.1 < length ups)%nat /\
  Forall (fun G => covers (rrp_tried r.1) (length (peers_peer G))) ups /\
  (pc_sockaddr r.2 <> None -> exists gi, rrp_current r.1 = Some gi /\ is_Some (peer_at ups gi)).

(** The number of connections of each peer is the one of the requests that use
    it, and not more than allowed. *)
Definition conns_ok (s : sys) : Prop :=
  forall gi p, peer_at (groups s) gi = Some p ->
    conns p = u64 (users s gi) /\ (max_conns p <> 0 -> users s gi <= max_conns p).

Definition sys_ok (w : Z) (s : sys) : Prop :=
  (length (groups s) = 1 \/ length (groups s) = 2)%nat /\ Forall (rr_group_ok w) (groups s) /\
  Forall (request_ok (groups s)) (requests s) /\ conns_ok s.

Definition sizes (ups : list rr_peers) : list nat := (fun G => length (peers_peer G)) <$> ups.

Lemma request_ok_sizes ups ups' r : sizes ups' = sizes ups ->
  (forall gi, is_Some (peer_at ups gi) -> is_Some (peer_at ups' gi)) -> request_ok ups r -> request_ok ups' r.
Proof.
  intros Hs Hp (H1 & H2 & H3). assert (Hl : length ups' = length ups).
  { rewrite <- (length_fmap (fun G => length (peers_peer G)) ups'). fold (sizes ups'). rewrite Hs.
    unfold sizes. by rewrite length_fmap. }
  split; [by rewrite Hl|]. split.
  - assert (E : forall us, Forall (fun G => covers (rrp_tried r.1) (length (peers_peer G))) us <->
      Forall (covers (rrp_tried r.1)) (sizes us)) by (intros us; unfold sizes; by rewrite Forall_fmap).
    apply E. rewrite Hs. by apply E.
  - intros Hsa. destruct (H3 Hsa) as (gi & Hc & Hpe). exists gi. split; [done|]. by apply Hp.
Qed.

Lemma sizes_set ups k G ps : ups !! k = Some G -> length ps = length (peers_peer G) ->
  sizes (<[k := set_peers ps G]> ups) = sizes ups.
Proof.
  intros Hk Hl. unfold sizes. rewrite list_fmap_insert. apply list_insert_id. rewrite list_lookup_fmap, Hk. cbn.
  by rewrite Hl.
Qed.

Lemma peer_at_set ups k G ps gi : ups !! k = Some G ->
  peer_at (<[k := set_peers ps G]> ups) gi = if decide (gi.1 = k) then ps !! gi.2 else peer_at ups gi.
Proof.
  intros Hk. unfold peer_at. destruct gi as [g i]. cbn. destruct (decide (g = k)) as [->|Hne].
  - rewrite list_lookup_insert_eq by (by eapply lookup_lt_Some). done.
  - by rewrite list_lookup_insert_ne.
Qed.

Lemma rr_group_ok_set w G ps : rr_group_ok w G -> group_ok w ps -> length ps = length (peers_peer G) ->
  rr_group_ok w (set_peers ps G).
Proof. intros (H1 & H2 & H3) Hps Hl. unfold rr_group_ok. cbn. by rewrite Hl. Qed.

Lemma length_shape (ps qs : list peer) : shape <$> ps = shape <$> qs -> length ps = length qs.
Proof. intros E. rewrite <- (length_fmap shape ps), E. by rewrite length_fmap. Qed.

Lemma u64_succ x : u64 (u64 x + 1) = u64 (x + 1).
Proof. unfold u64. by rewrite Z.add_mod_idemp_l. Qed.
Lemma u64_pred x : u64 (u64 x - 1) = u64 (x - 1).
Proof. unfold u64. by rewrite Zminus_mod_idemp_l. Qed.

Lemma insert_drop {A} (l : list A) g k x : (g <= length l)%nat ->
  take g l ++ <[k := x]> (drop g l) = <[(g + k)%nat := x]> l.
Proof.
  intros Hg. rewrite <- (take_drop g l) at 3. rewrite insert_app_r_alt by (rewrite length_take; lia).
  rewrite length_take. do 2 f_equal. lia.
Qed.

(** The call for a request of the system. *)
Lemma get_cases w now ups rrp pc : Forall (rr_group_ok w) ups -> request_ok ups (rrp, pc) ->
  exists rrp' pc', length (rrp_tried rrp') = length (rrp_tried rrp) /\ pc_tries pc' = pc_tries pc /\
    (rrp_peers rrp' < length ups)%nat /\
    (ngx_http_upstream_get_round_robin_peer now ups rrp pc = Some (NGX_BUSY, ups, rrp', pc') /\
     rrp_current rrp' = rrp_current rrp /\ pc_sockaddr pc' = pc_sockaddr pc /\
     (forall j G, ups !! (rrp_peers rrp + j)%nat = Some G ->
        if decide (j = 0%nat) then group_busy now (rrp_tried rrp) G else group_down now G)
     \/
     exists k G b p q ps, picked w now (rrp_tried rrp) (drop (rrp_peers rrp) ups) k G b p q ps /\
       ups !! (rrp_peers rrp + k)%nat = Some G /\
       ngx_http_upstream_get_round_robin_peer now ups rrp pc =
         Some (NGX_OK, put_group (rrp_peers rrp + k) G b q ps ups, rrp', pc') /\
       rrp_current rrp' = Some ((rrp_peers rrp + k)%nat, b) /\
       pc_sockaddr pc' = Some (a_sockaddr (p_addr p)) /\
       (forall j G, (j < k)%nat -> ups !! (rrp_peers rrp + j)%nat = Some G ->
          if decide (j = 0%nat) then group_busy now (rrp_tried rrp) G else group_down now G)).
Proof.
  intros Hok (Hg & Hc & _). cbn [fst] in Hg, Hc. set (g := rrp_peers rrp) in *.
  destruct (get_from_cases w now (drop g ups) g rrp pc) as (rrp' & pc' & Hl & Ht & Hcase).
  { intros E. apply (f_equal length) in E. rewrite length_drop in E. cbn in E. lia. }
  { by apply Forall_drop. } { apply Forall_drop. exact Hc. } { done. }
  unfold ngx_http_upstream_get_round_robin_peer. fold g. exists rrp', pc'. split; [done|]. split; [done|].
  rewrite length_drop in Hcase.
  destruct Hcase as [(-> & Hcur & Hsa & Hr & Hall)|(k & G & b & p & q & ps & Hpick & -> & Hk & Hcur & Hsa & Hall)].
  - split; [lia|]. left. cbn. rewrite take_drop. do 3 (split; [done|]).
    intros j G Hj. apply Hall. by rewrite lookup_drop.
  - assert (HG : ups !! (g + k)%nat = Some G) by (destruct Hpick as [H _]; by rewrite lookup_drop in H).
    split; [rewrite Hk; by eapply lookup_lt_Some|]. right. exists k, G, b, p, q, ps. split; [done|]. split; [done|].
    split; [|split; [done|split; [done|]]].
    + cbn. unfold put_group. by rewrite insert_drop by lia.
    + intros j G' Hj HG'. apply Hall; [done|]. by rewrite lookup_drop.
Qed.

(** *** Every operation succeeds and keeps the invariant *)

Lemma covers_tried_words n m : 0 <= n < 2 ^ 64 - 64 -> Z.of_nat m <= n -> covers (tried_words n) m.
Proof.
  intros Hn Hm. unfold covers, tried_words. change (8 * 8) with 64. case_decide; cbn [length]; [lia|].
  rewrite length_replicate, u64_small by lia. dlia.
Qed.

Lemma number_bound w G : rr_group_ok w G -> number G = Z.of_nat (length (peers_peer G)) /\ 0 <= number G < 2 ^ 63.
Proof. intros ((Hw & Hn & _) & -> & _). split; [done|]. nia. Qed.

Lemma rr_init_ok w ups pc : (length ups = 1 \/ length ups = 2)%nat -> Forall (rr_group_ok w) ups ->
  exists rrp tries,
    ngx_http_upstream_init_round_robin_peer ups pc =
      Some (rrp, PC (pc_connection pc) (pc_cached pc) (pc_sockaddr pc) (pc_socklen pc) (pc_name pc) tries) /\
    rrp_peers rrp = 0%nat /\ rrp_current rrp = None /\ Forall (eq 0) (rrp_tried rrp) /\
    Forall (fun G => covers (rrp_tried rrp) (length (peers_peer G))) ups.
Proof.
  intros Hl Hok. assert (Z0 : forall n, Forall (eq 0) (tried_words n)).
  { intros n. unfold tried_words. case_decide; [by repeat constructor|]. by apply Forall_replicate. }
  destruct ups as [|P [|Q [|]]]; cbn in Hl; try lia.
  - pose proof (number_bound w P (List.Forall_inv Hok)) as [E1 B1]. eexists _, _. split; [reflexivity|]. cbn.
    do 2 (split; [done|]). split; [done|]. constructor; [|constructor]. apply covers_tried_words; lia.
  - pose proof (number_bound w P (List.Forall_inv Hok)) as [E1 B1].
    pose proof (number_bound w Q (List.Forall_inv (List.Forall_inv_tail Hok))) as [E2 B2].
    eexists _, _. split; [reflexivity|]. cbn. do 2 (split; [done|]). split; [done|].
    constructor; [|constructor; [|constructor]]; apply covers_tried_words; case_decide; lia.
Qed.

(** A change of one peer of a group of the list. *)
Lemma peer_at_change ups k G ps gi p' : ups !! k = Some G ->
  (forall i q, ps !! i = Some q -> exists q0, peers_peer G !! i = Some q0 /\ max_conns q = max_conns q0) ->
  peer_at (<[k := set_peers ps G]> ups) gi = Some p' ->
  exists p, peer_at ups gi = Some p /\ max_conns p' = max_conns p.
Proof.
  intros Hk Hps. rewrite peer_at_set by done. destruct gi as [g i]. cbn. destruct (decide (g = k)) as [->|]; [|eauto].
  intros Hq. destruct (Hps _ _ Hq) as (q0 & Hq0 & Hm). exists q0. unfold peer_at. cbn. by rewrite Hk.
Qed.

Lemma conns_step s s' (d : nat * nat -> Z) : conns_ok s ->
  (forall gi p', peer_at (groups s') gi = Some p' ->
     users s' gi = users s gi + d gi /\
     exists p, peer_at (groups s) gi = Some p /\ max_conns p' = max_conns p /\ conns p' = u64 (conns p + d gi) /\
       (d gi <= 0 \/ (d gi = 1 /\ (max_conns p <> 0 -> conns p < max_conns p /\ max_conns p < 2 ^ 64)))) ->
  conns_ok s'.
Proof.
  intros Hc Hstep gi p' Hp'. destruct (Hstep gi p' Hp') as (Hu & p & Hp & Hm & Hn & Hd).
  destruct (Hc gi p Hp) as [Hcp Hlim]. rewrite Hu, Hm, Hn, Hcp. split.
  - unfold u64. by rewrite Z.add_mod_idemp_l.
  - intros Hmc. specialize (Hlim Hmc). destruct Hd as [|[-> Hlt]]; [lia|]. specialize (Hlt Hmc) as [Hlt Hmax].
    rewrite Hcp in Hlt. rewrite u64_small in Hlt; [lia|]. unfold users in *. lia.
Qed.

Lemma is_Some_peer_at ups gi : is_Some (peer_at ups gi) <-> exists n, sizes ups !! gi.1 = Some n /\ (gi.2 < n)%nat.
Proof.
  unfold peer_at, sizes. destruct gi as [g i]. cbn. rewrite list_lookup_fmap. destruct (ups !! g) as [G|]; cbn.
  - rewrite lookup_lt_is_Some. split; [by eauto|]. by intros (n & [= <-] & ?).
  - split; [by intros []|]. by intros (n & ? & _).
Qed.

Lemma request_ok_same ups ups' r : sizes ups' = sizes ups -> request_ok ups r -> request_ok ups' r.
Proof. intros Hs. apply request_ok_sizes; [done|]. intros gi. rewrite !is_Some_peer_at. by rewrite Hs. Qed.

Lemma users_start ups ups' reqs r gi : held r = None -> users (Sys ups' (reqs ++ [r])) gi = users (Sys ups reqs) gi.
Proof.
  intros Hr. unfold users. cbn. rewrite fmap_app, filter_app, length_app. cbn. rewrite Hr, decide_False by done.
  cbn. lia.
Qed.

Lemma step_start w s : sys_ok w s -> exists s', step s Start = Some s' /\ sys_ok w s'.
Proof.
  intros (Hl & Hok & Hr & Hc). cbn. destruct (rr_init_ok w (groups s) new_connection Hl Hok) as
    (rrp & tries & -> & Hp & Hcur & _ & Hcov). cbn. eexists. split; [reflexivity|].
  split; [done|]. split; [done|]. split; cbn.
  - apply Forall_app. split; [done|]. constructor; [|constructor]. split; cbn [fst snd]; [rewrite Hp; lia|]. by split.
  - apply (conns_step s _ (fun _ => 0) Hc). cbn. intros gi p Hpa. split.
    + destruct s as [gs rs]. rewrite Z.add_0_r. by apply users_start.
    + exists p. split; [done|]. split; [done|]. split; [|by left]. destruct (Hc gi p Hpa) as [-> _].
      rewrite Z.add_0_r. unfold u64. by rewrite Z.mod_mod.
Qed.

Lemma put_group_sizes ups k G b q ps : ups !! k = Some G -> shape <$> ps = shape <$> peers_peer G ->
  sizes (put_group k G b q ps ups) = sizes ups.
Proof. intros Hk Hs. apply sizes_set; [done|]. rewrite length_insert. by apply length_shape. Qed.

Lemma put_group_ok w ups k G b p q ps : Forall (rr_group_ok w) ups -> ups !! k = Some G ->
  peers_peer G !! b = Some p -> ps !! b = Some q -> group_ok w ps -> shape <$> ps = shape <$> peers_peer G ->
  Forall (rr_group_ok w) (put_group k G b q ps ups) /\
  forall gi p', peer_at (put_group k G b q ps ups) gi = Some p' ->
    exists p0, peer_at ups gi = Some p0 /\ max_conns p' = max_conns p0 /\
      (if decide (gi = (k, b)) then p0 = p /\ conns p' = u64 (conns p0 + 1) else conns p' = conns p0).
Proof.
  intros Hok Hk Hp Hq Hgo Hs. pose proof (length_shape _ _ Hs) as Hl. split.
  - apply Forall_insert; [done|]. apply rr_group_ok_set.
    + by eapply Forall_lookup_1 in Hok.
    + apply (group_ok_insert w ps b q); try done. by apply (peer_ok_lookup w ps b q).
    + by rewrite length_insert.
  - intros [g i] p'. unfold put_group. rewrite peer_at_set by done. cbn [fst snd]. destruct (decide (g = k)) as [->|Hne].
    + intros Hi. unfold peer_at, mbind, option_bind. cbn [fst snd]. rewrite Hk. destruct (decide (i = b)) as [->|Hne].
      * rewrite list_lookup_insert_eq in Hi by (by eapply lookup_lt_Some). injection Hi as <-. exists p.
        assert (Hqp : shape q = shape p).
        { apply (f_equal (fun l => l !! b)) in Hs. rewrite !list_lookup_fmap, Hp, Hq in Hs. by apply Some_inv in Hs. }
        apply shape_eq in Hqp as (_ & _ & Ec & Em & _). destruct (decide ((k, b) = (k, b))); [|done]. split; [done|].
        split; [done|]. split; [done|]. cbn. by rewrite Ec.
      * rewrite list_lookup_insert_ne in Hi by done. destruct (decide ((k, i) = (k, b))); [congruence|].
        destruct (shape_fmap (peers_peer G) ps i p' (eq_sym Hs) Hi) as (p0 & Hp0 & E). exists p0.
        apply shape_eq in E as (_ & _ & Ec & Em & _). by rewrite Ec, Em.
    + intros Hi. destruct (decide ((g, i) = (k, b))); [congruence|]. by exists p'.
Qed.

Lemma step_get w s id now : sys_ok w s -> enabled s (Get id now) ->
  exists s', step s (Get id now) = Some s' /\ sys_ok w s'.
Proof.
  intros (Hl & Hok & Hr & Hc) ([rrp pc] & Hid & Hsa). cbn in Hsa. cbn. rewrite Hid. cbn.
  pose proof (proj1 (Forall_lookup _ _) Hr id _ Hid) as Hreq.
  assert (Hh : held (rrp, pc) = None) by (unfold held; cbn; by rewrite Hsa).
  destruct (get_cases w now (groups s) rrp pc Hok Hreq) as (rrp' & pc' & Hlt & Htr & Hpe &
    [(-> & Hcur & Hsa' & _)|(k & G & b & p & q & ps & Hpick & HG & -> & Hcur & Hsa' & _)]); cbn.
  - eexists. split; [reflexivity|]. split; [done|]. split; [done|]. split; cbn.
    + apply Forall_insert; [done|]. destruct Hreq as (H1 & H2 & H3). split; [done|]. split; cbn [fst snd].
      * revert H2. apply List.Forall_impl. intros G. unfold covers. cbn. by rewrite Hlt.
      * by rewrite Hsa', Hsa.
    + apply (conns_step s _ (fun _ => 0) Hc). cbn. intros gi p Hp. split.
      * destruct s as [gs rs]. rewrite (users_insert gs _ _ _ (rrp, pc)) by done. unfold held. cbn. rewrite Hsa', Hsa.
        rewrite decide_False by done. unfold users. cbn in *. lia.
      * exists p. split; [done|]. split; [done|]. split; [|by left]. destruct (Hc gi p Hp) as [-> _].
        rewrite Z.add_0_r. unfold u64. by rewrite Z.mod_mod.
  - eexists. split; [reflexivity|]. set (kk := (rrp_peers rrp + k)%nat) in *.
    destruct Hpick as (_ & Hp & Hq & _ & Hmc & Hgo & Hs & _).
    destruct (put_group_ok w (groups s) kk G b p q ps Hok HG Hp Hq Hgo Hs) as [Hok' Hpa].
    pose proof (put_group_sizes (groups s) kk G b q ps HG Hs) as Hsz.
    split; [unfold put_group; cbn; by rewrite length_insert|]. split; [done|]. split; cbn [groups requests].
    + apply Forall_insert.
      * revert Hr. apply List.Forall_impl. intros r. by apply request_ok_same.
      * apply (request_ok_same (groups s)); [done|]. destruct Hreq as (H1 & H2 & H3). split; [done|]. split; cbn [fst snd].
        -- revert H2. apply List.Forall_impl. intros G'. unfold covers. cbn. by rewrite Hlt.
        -- intros _. exists (kk, b). split; [done|]. unfold peer_at. cbn. rewrite HG. cbn. by rewrite Hp.
    + apply (conns_step s _ (fun gi => if decide (gi = (kk, b)) then 1 else 0) Hc). cbn [groups].
      intros gi p' Hp'. destruct (Hpa gi p' Hp') as (p0 & Hp0 & Hm & Hcn). split.
      * destruct s as [gs rs]. rewrite (users_insert gs _ _ _ (rrp, pc)) by done. rewrite Hh. unfold held. cbn [fst snd].
        rewrite Hsa', Hcur, (decide_False (P := Some gi = None)) by done. unfold users. cbn [requests].
        destruct (decide (gi = (kk, b))) as [->|Hne]; [rewrite decide_True by done; lia|].
        rewrite decide_False by congruence. lia.
      * exists p0. split; [done|]. split; [done|]. destruct (decide (gi = (kk, b))) as [->|Hne].
        -- destruct Hcn as [-> ->]. split; [done|]. right. split; [done|]. intros Hnz. split; [by apply Hmc|].
           eapply Forall_lookup_1 in Hok; [|exact HG]. destruct Hok as [Hgg _].
           destruct (peer_ok_lookup w _ b p Hgg Hp) as (_ & _ & _ & _ & Hmax). exact Hmax.
        -- split; [|by left]. rewrite Hcn. destruct (Hc gi p0 Hp0) as [-> _].
           rewrite Z.add_0_r. unfold u64. by rewrite Z.mod_mod.
Qed.

Lemma failed_weight w p : peer_ok w p -> w < 2 ^ 63 -> max_fails p <> 0 ->
  s64 (u64 (effective_weight p - u64 (weight p) / max_fails p)) = effective_weight p - weight p / max_fails p /\
  0 <= weight p / max_fails p <= weight p.
Proof.
  intros (He & Hw & Hm & _) Hlt Hnz. rewrite (u64_small (weight p)) by lia.
  assert (0 <= weight p / max_fails p <= weight p).
  { split; [apply Z.div_pos; lia|]. apply Z.div_le_upper_bound; nia. }
  split; [|done]. rewrite s64_u64. apply s64_small. lia.
Qed.

(** The peer after its use; the invariant and what a success leaves. *)
Definition freed (p q : peer) (failed : Prop) : Prop :=
  conns q = u64 (conns p - 1) /\ max_conns q = max_conns p /\ current_weight q = current_weight p /\
  weight q = weight p /\ down q = down p /\
  (~ failed -> effective_weight q = effective_weight p /\ (fails p = 0 -> fails q = 0)).

Lemma free_failed_ok w now p : peer_ok w p -> w < 2 ^ 63 ->
  peer_ok w (free_failed now p) /\ current_weight (free_failed now p) = current_weight p /\
  weight (free_failed now p) = weight p /\ down (free_failed now p) = down p /\
  max_conns (free_failed now p) = max_conns p /\ conns (free_failed now p) = conns p.
Proof.
  intros Hp Hw. unfold free_failed, peer_ok. cbn. split; [|done].
  pose proof Hp as (He & Hwp & Hm & Hmc). split; [|done].
  destruct (decide (max_fails p <> 0)) as [Hnz|]; [|case_decide; lia].
  destruct (failed_weight w p Hp Hw Hnz) as [-> ?]. case_decide; lia.
Qed.

Lemma free_cases w now ups rrp pc state gi p : Forall (rr_group_ok w) ups -> rrp_current rrp = Some gi ->
  (rrp_peers rrp < length ups)%nat -> peer_at ups gi = Some p ->
  exists G q tries, ups !! gi.1 = Some G /\ peers_peer G !! gi.2 = Some p /\
    ngx_http_upstream_free_round_robin_peer now ups rrp pc state =
      Some (<[gi.1 := set_peers (<[gi.2 := q]> (peers_peer G)) G]> ups,
            PC (pc_connection pc) (pc_cached pc) (pc_sockaddr pc) (pc_socklen pc) (pc_name pc) tries) /\
    peer_ok w q /\ freed p q (Z.land state NGX_PEER_FAILED <> 0).
Proof.
  destruct gi as [g i]. intros Hok Hcur Hg Hpa. unfold peer_at in Hpa. cbn in Hpa.
  destruct (ups !! g) as [G|] eqn:HG; [|done]. cbn in Hpa. destruct (lookup_lt_is_Some_2 _ _ Hg) as [P HP].
  pose proof (proj1 (Forall_lookup _ _) Hok g G HG) as [Hgo _]. pose proof (peer_ok_lookup w _ i p Hgo Hpa) as Hp.
  assert (Hw : w < 2 ^ 63).
  { destruct Hgo as (? & ? & _). pose proof (lookup_lt_Some _ _ _ Hpa). nia. }
  unfold ngx_http_upstream_free_round_robin_peer, mbind, option_bind. rewrite Hcur, HP, HG, Hpa. exists G. cbn [fst snd].
  destruct (single P).
  - eexists _, _. split; [done|]. split; [done|]. split; [reflexivity|]. unfold freed.
    destruct (decide (fails p <> 0)); (split; [exact Hp|]); cbn; repeat split; try done; tauto.
  - eexists _, _. split; [done|]. split; [done|]. split; [reflexivity|]. unfold freed.
    destruct (decide (Z.land state NGX_PEER_FAILED <> 0)) as [Hf|Hf].
    + destruct (free_failed_ok w now p Hp Hw) as (H1 & H2 & H3 & H4 & H5 & H6). split; [exact H1|]. cbn.
      do 5 (split; [done|]). tauto.
    + destruct (decide (accessed p < checked p)); (split; [exact Hp|]); cbn; by repeat split.
Qed.

Lemma step_free w s id now state : sys_ok w s -> enabled s (Free id now state) ->
  exists s', step s (Free id now state) = Some s' /\ sys_ok w s'.
Proof.
  intros (Hl & Hok & Hr & Hc) ([rrp pc] & Hid & Hsa). cbn in Hsa. cbn. rewrite Hid. cbn.
  pose proof (proj1 (Forall_lookup _ _) Hr id _ Hid) as Hreq. pose proof Hreq as (Hg & Hcov & Hcur).
  destruct (Hcur Hsa) as (gi & Hgi & p & Hp). cbn [fst snd] in *.
  destruct (free_cases w now (groups s) rrp pc state gi p Hok Hgi Hg Hp) as
    (G & q & tries & HG & Hpg & -> & Hq & Hconns & Hmax & Hcw & _). cbn.
  assert (Hsz : sizes (<[gi.1 := set_peers (<[gi.2 := q]> (peers_peer G)) G]> (groups s)) = sizes (groups s)).
  { apply sizes_set; [done|]. by rewrite length_insert. }
  pose proof (proj1 (Forall_lookup _ _) Hok _ G HG) as HGok.
  eexists. split; [reflexivity|]. split; [cbn; by rewrite length_insert|]. split; [|split]; cbn [groups requests].
  - apply Forall_insert; [done|]. apply rr_group_ok_set; [done| |by rewrite length_insert].
    apply (group_ok_insert w _ _ p); try done. by destruct HGok.
  - apply Forall_insert.
    + revert Hr. apply List.Forall_impl. intros r. by apply request_ok_same.
    + apply (request_ok_same (groups s)); [done|]. split; [done|]. by split.
  - assert (Hh : held (rrp, pc) = Some gi).
    { unfold held. cbn. destruct (pc_sockaddr pc); [done|done]. }
    apply (conns_step s _ (fun g => if decide (g = gi) then -1 else 0) Hc). cbn [groups].
    intros g p' Hp'. split.
    + destruct s as [gs rs]. rewrite (users_insert gs _ _ _ (rrp, pc)) by done. rewrite Hh. unfold held. cbn [fst snd pc_sockaddr].
      rewrite (decide_False (P := Some g = None)) by done. unfold users. cbn [requests].
      destruct (decide (g = gi)) as [->|Hne]; [rewrite decide_True by done; lia|].
      rewrite decide_False by congruence. lia.
    + rewrite peer_at_set in Hp' by done. destruct g as [g i], gi as [g0 i0]. cbn [fst snd] in *.
      assert (Hsame : forall p0, peer_at (groups s) (g, i) = Some p0 -> conns p0 = u64 (conns p0 + 0)).
      { intros p0 Hp0. destruct (Hc _ _ Hp0) as [-> _]. rewrite Z.add_0_r. unfold u64. by rewrite Z.mod_mod. }
      destruct (decide (g = g0)) as [->|Hne].
      * destruct (decide (i = i0)) as [->|Hne].
        -- rewrite list_lookup_insert_eq in Hp' by (by eapply lookup_lt_Some). injection Hp' as <-. exists p.
           destruct (decide ((g0, i0) = (g0, i0))); [|done]. split; [done|]. split; [done|]. split; [done|]. left. lia.
        -- rewrite list_lookup_insert_ne in Hp' by done. destruct (decide ((g0, i) = (g0, i0))); [congruence|].
           assert (Hpa : peer_at (groups s) (g0, i) = Some p').
           { unfold peer_at, mbind, option_bind. cbn. by rewrite HG. }
           exists p'. split; [done|]. split; [done|]. split; [by apply Hsame|]. left. lia.
      * destruct (decide ((g, i) = (g0, i0))); [congruence|]. exists p'. split; [done|]. split; [done|].
        split; [by apply Hsame|]. left. lia.
Qed.

Lemma rr_step_ok w s e : sys_ok w s -> enabled s e -> exists s', step s e = Some s' /\ sys_ok w s'.
Proof.
  intros Hs He. destruct e; [by apply step_start|by apply step_get|by apply step_free].
Qed.

(** *** The configuration *)

(** What ngx_http_upstream_server accepts, with a bound for the weights. *)
Definition server_ok (w : Z) (s : server) : Prop :=
  0 < s_weight s <= w /\ 0 <= s_max_fails s /\ 0 <= s_max_conns s < 2 ^ 64.

Definition fresh_peer (p : peer) : Prop :=
  current_weight p = 0 /\ effective_weight p = weight p /\ 0 < weight p /\ conns p = 0 /\ fails p = 0.

Lemma make_peers_ok w b servers : Forall (server_ok w) servers ->
  Forall (fun p => peer_ok w p /\ fresh_peer p) (make_peers b servers).
Proof.
  induction servers as [|s servers IH]; intros Hs; cbn; [done|]. apply List.Forall_cons_iff in Hs as [(Hw & Hf & Hm) Hs].
  case_decide; [|by apply IH]. apply Forall_app. split; [|by apply IH].
  apply Forall_forall. intros p (a & <- & _)%list_elem_of_In%in_map_iff. unfold peer_ok, fresh_peer. cbn. lia.
Qed.

Lemma count_servers_eq b servers : forall n w t,
  0 <= n -> n + Z.of_nat (length (make_peers b servers)) < 2 ^ 64 ->
  (count_servers b servers n w t).1.1 = n + Z.of_nat (length (make_peers b servers)).
Proof.
  induction servers as [|s servers IH]; intros n w t Hn Hlt; cbn in *; [lia|].
  destruct (decide (s_backup s = b)); [|by apply IH]. rewrite length_app, length_map in *.
  rewrite (u64_small (n + _)) by lia. rewrite IH; lia.
Qed.

Lemma fresh_group_ok w ps : 0 < w -> w * Z.of_nat (length ps) < 2 ^ 63 ->
  Forall (fun p => peer_ok w p /\ fresh_peer p) ps -> group_ok w ps.
Proof.
  intros Hw Hl Hf. split; [done|]. split; [done|]. split.
  - revert Hf. apply List.Forall_impl. tauto.
  - apply (balanced_ext _ _ (fun _ => 0)); [|by apply balanced_zero; lia].
    intros i [p Hp]%lookup_lt_is_Some. rewrite (field_lookup _ _ _ p) by done.
    eapply Forall_lookup_1 in Hf as [_ (-> & _)]; [done|exact Hp].
Qed.

(** A configuration whose weights cannot overflow. *)
Definition conf_ok (w : Z) (resolve : list Z -> Z -> option (list addr)) (us : srv_conf) : Prop :=
  0 < w /\
  match us_servers us with
  | Some servers => Forall (server_ok w) servers /\
      forall b, w * Z.of_nat (length (make_peers b servers)) < 2 ^ 63
  | None => forall addrs, resolve (us_host us) (us_port us) = Some addrs ->
      (0 < length addrs)%nat /\ w * Z.of_nat (length addrs) < 2 ^ 63
  end.

Lemma init_groups_ok w resolve us ups : conf_ok w resolve us ->
  ngx_http_upstream_init_round_robin resolve us = Some ups ->
  sys_ok w (Sys ups []) /\ Forall (fun G => Forall fresh_peer (peers_peer G) /\ peers_peer G <> []) ups.
Proof.
  intros (Hw & Hconf) Hi.
  assert (K : (length ups = 1 \/ length ups = 2)%nat ->
    Forall (fun G => number G = Z.of_nat (length (peers_peer G)) /\ number G <> 0 /\ (single G = true -> number G = 1) /\
      w * Z.of_nat (length (peers_peer G)) < 2 ^ 63 /\
      Forall (fun p => peer_ok w p /\ fresh_peer p) (peers_peer G)) ups ->
    sys_ok w (Sys ups []) /\ Forall (fun G => Forall fresh_peer (peers_peer G) /\ peers_peer G <> []) ups).
  { intros Hl Hall. split; [split; [done|split; [|split; [constructor|]]]|].
    - revert Hall. apply List.Forall_impl. intros G (H1 & _ & H3 & H4 & H5). split; [by apply fresh_group_ok|done].
    - intros [g i] p Hp. unfold peer_at in Hp. cbn in Hp. destruct (ups !! g) as [G|] eqn:HG; [|done]. cbn in Hp.
      eapply Forall_lookup_1 in Hall as (_ & _ & _ & _ & Hf); [|exact HG].
      eapply Forall_lookup_1 in Hf as [(_ & _ & _ & Hm) (_ & _ & _ & -> & _)]; [|exact Hp]. cbn. split; [done|].
      intros _. unfold users. cbn. lia.
    - revert Hall. apply List.Forall_impl. intros G (H1 & H2 & _ & _ & H5). split.
      + revert H5. apply List.Forall_impl. tauto.
      + intros E. rewrite E in H1. cbn in H1. lia. }
  unfold ngx_http_upstream_init_round_robin in Hi. destruct (us_servers us) as [servers|].
  - destruct Hconf as [Hs Hb].
    pose proof (count_servers_eq false servers 0 0 0 ltac:(lia) ltac:(pose proof (Hb false); nia)) as E1.
    pose proof (count_servers_eq true servers 0 0 0 ltac:(lia) ltac:(pose proof (Hb true); nia)) as E2.
    destruct (count_servers false servers 0 0 0) as [[n wt] t], (count_servers true servers 0 0 0) as [[nb wb] tb].
    cbn in E1, E2. destruct (decide (n = 0)); [done|].
    destruct (decide (nb = 0)); injection Hi as <-; apply K; cbn; try lia.
    + constructor; [|constructor]. cbn. split; [done|]. split; [done|]. split; [by intros ?%bool_decide_eq_true_1|].
      split; [apply Hb|by apply make_peers_ok].
    + constructor; [|constructor; [|constructor]]; cbn; (split; [done|]); (split; [done|]); (split; [done|]);
        (split; [apply Hb|by apply make_peers_ok]).
  - destruct (decide (us_port us = 0)); [done|]. destruct (resolve _ _) as [addrs|] eqn:E; [|done]. cbn in Hi.
    destruct (Hconf addrs eq_refl) as [Hne Hlt].
    injection Hi as <-. apply K; [cbn; lia|]. constructor; [|constructor]. cbn. rewrite length_map. split; [done|].
    split; [lia|]. split; [by intros ?%bool_decide_eq_true_1|]. split; [done|].
    apply Forall_forall. intros p (a & <- & _)%list_elem_of_In%in_map_iff. unfold peer_ok, fresh_peer. cbn. lia.
Qed.

Lemma reachable_ok w ups s : sys_ok w (Sys ups []) -> reachable ups s -> sys_ok w s.
Proof.
  intros H0. induction 1 as [|s e s' _ IH He Hs]; [done|]. destruct (rr_step_ok w s e IH He) as (s'' & Hs' & Hok).
  rewrite Hs in Hs'. by injection Hs' as ->.
Qed.

(** C17: whatever the requests do, and in whatever order they take, free and lose
    their peers, no step of them fails: no read outside of the peers or of the
    bitmaps, no overflow of a weight. The connections of a peer are the requests
    that use it, never more than its limit; the current weights of a group add
    up to zero, and none is further from zero than the greatest weight times the number of the
    other peers; an effective weight is between zero and the weight. *)
Theorem rr_invariant w resolve us ups s : conf_ok w resolve us ->
  ngx_http_upstream_init_round_robin resolve us = Some ups -> reachable ups s ->
  (forall e, enabled s e -> exists s', step s e = Some s') /\
  forall g G, groups s !! g = Some G ->
    zsum (length (peers_peer G)) (field current_weight (peers_peer G)) = 0 /\
    forall i p, peers_peer G !! i = Some p ->
      conns p = u64 (users s (g, i)) /\ (max_conns p <> 0 -> users s (g, i) <= max_conns p) /\
      Z.abs (current_weight p) <= w * (Z.of_nat (length (peers_peer G)) - 1) /\
      0 <= effective_weight p <= weight p.
Proof.
  intros Hconf Hi Hr. destruct (init_groups_ok w resolve us ups Hconf Hi) as [H0 _].
  pose proof (reachable_ok w ups s H0 Hr) as Hok. split.
  - intros e He. destruct (rr_step_ok w s e Hok He) as (s' & Hs & _). by exists s'.
  - intros g G HG. destruct Hok as (_ & Hgs & _ & Hc). eapply Forall_lookup_1 in Hgs as [Hgo _]; [|exact HG].
    split; [by destruct Hgo as (_ & _ & _ & [? _])|]. intros i p Hp.
    destruct (Hc (g, i) p) as [H1 H2]; [by unfold peer_at; cbn; rewrite HG|]. split; [done|]. split; [done|].
    pose proof (field_bounds w _ i p Hgo Hp). destruct (peer_ok_lookup w _ i p Hgo Hp). split; [lia|done].
Qed.

(** C19: the answer to a request. If the call returns NGX_BUSY, nothing of the
    groups has changed and no group from the one of the request on has a peer
    that the request has not tried, that is up, has connections left and has
    not failed too often and too recently. Otherwise, the first group that has such
    a peer loses its richest one in weight, the first of them, to the request; the others are
    credited with their effective weights, that grow to the weights a unit at a time. *)
Theorem rr_get_exact w resolve us ups s id now rrp pc : conf_ok w resolve us ->
  ngx_http_upstream_init_round_robin resolve us = Some ups -> reachable ups s ->
  requests s !! id = Some (rrp, pc) ->
  exists rrp' pc',
    ngx_http_upstream_get_round_robin_peer now (groups s) rrp pc = Some (NGX_BUSY, groups s, rrp', pc') /\
    pc_sockaddr pc' = pc_sockaddr pc /\
    (forall j G, groups s !! (rrp_peers rrp + j)%nat = Some G ->
       if decide (j = 0%nat) then group_busy now (rrp_tried rrp) G else group_down now G)
    \/
    exists k G b p q ps, picked w now (rrp_tried rrp) (drop (rrp_peers rrp) (groups s)) k G b p q ps /\
      ngx_http_upstream_get_round_robin_peer now (groups s) rrp pc =
        Some (NGX_OK, put_group (rrp_peers rrp + k) G b q ps (groups s), rrp', pc') /\
      rrp_current rrp' = Some ((rrp_peers rrp + k)%nat, b) /\
      pc_sockaddr pc' = Some (a_sockaddr (p_addr p)) /\
      (forall j G, (j < k)%nat -> groups s !! (rrp_peers rrp + j)%nat = Some G ->
         if decide (j = 0%nat) then group_busy now (rrp_tried rrp) G else group_down now G).
Proof.
  intros Hconf Hi Hr Hid. destruct (init_groups_ok w resolve us ups Hconf Hi) as [H0 _].
  destruct (reachable_ok w ups s H0 Hr) as (_ & Hgs & Hrs & _).
  destruct (get_cases w now (groups s) rrp pc Hgs (proj1 (Forall_lookup _ _) Hrs id _ Hid)) as
    (rrp' & pc' & _ & _ & _ & [(H1 & _ & H2 & H3)|(k & G & b & p & q & ps & H1 & _ & H2 & H3 & H4 & H5)]);
    exists rrp', pc'; [by left|right]. exists k, G, b, p, q, ps. done.
Qed.

(** ** Fairness *)

(** The peers that a sequence of events gives to the requests. *)
Fixpoint run (s : sys) (evs : list event) : option (sys * list (nat * nat)) :=
  match evs with
  | [] => Some (s, [])
  | e :: evs =>
      s ← step s e;
      '(s', picks) ← run s evs;
      Some (s', match e with
                | Get id _ => match r ← requests s !! id; held r with Some gi => gi :: picks | None => picks end
                | _ => picks
                end)
  end.

(** Requests that get one peer each, at any times and in any order, and no failures. *)
Inductive status := Ready | Using | Finished.

Fixpoint protocol (st : list status) (evs : list event) : Prop :=
  match evs with
  | [] => True
  | Start :: evs => protocol (st ++ [Ready]) evs
  | Get id _ :: evs => st !! id = Some Ready /\ protocol (<[id := Using]> st) evs
  | Free id _ state :: evs =>
      st !! id = Some Using /\ Z.land state NGX_PEER_FAILED = 0 /\ protocol (<[id := Finished]> st) evs
  end.

Fixpoint gets (evs : list event) : Z :=
  match evs with [] => 0 | Get _ _ :: evs => 1 + gets evs | _ :: evs => gets evs end.

Definition times (gi : nat * nat) (picks : list (nat * nat)) : Z := Z.of_nat (length (filter (eq gi) picks)).

Lemma zsum_ge_max n f b : (b < n)%nat -> (forall i, (i < n)%nat -> f i <= f b) -> 0 < zsum n f -> 0 < f b.
Proof.
  intros Hb Hmax Hs. pose proof (zsum_le n f (fun _ => f b) Hmax) as H. rewrite zsum_const in H. nia.
Qed.

Section Fair.

(** The weights of the [n] peers of the first group, all up and without limits. *)
Context (w : Z) (n : nat) (wt : nat -> Z) (Hwt : forall i, (i < n)%nat -> 0 < wt i).

Let W : Z := zsum n wt.

(** A peer after [k] choices of which [c] were its own. *)
Definition fair_peer (i : nat) (k c : Z) (p : peer) : Prop :=
  weight p = wt i /\ effective_weight p = wt i /\ down p = 0 /\ max_conns p = 0 /\ fails p = 0 /\
  current_weight p = k * wt i - W * c /\ - W < current_weight p.

Definition fair_request (t : status) (r : rr_data * peer_connection) : Prop :=
  match t with
  | Ready => rrp_peers r.1 = 0%nat /\ Forall (eq 0) (rrp_tried r.1) /\ pc_sockaddr r.2 = None
  | Using => pc_sockaddr r.2 <> None
  | Finished => True
  end.

Definition fair (k : Z) (c : nat -> Z) (st : list status) (s : sys) : Prop :=
  sys_ok w s /\ Forall2 fair_request st (requests s) /\
  exists G, groups s !! 0%nat = Some G /\ length (peers_peer G) = n /\
    forall i p, peers_peer G !! i = Some p -> fair_peer i k (c i) p.

Lemma fair_not_skipped i k c now p : 0 <= max_fails p -> fair_peer i k c p -> skipped now p = false.
Proof.
  intros H0 (_ & _ & Hd & Hm & Hf & _). unfold skipped. rewrite Hd, Hm.
  rewrite bool_decide_eq_false_2 by tauto. rewrite (bool_decide_eq_false_2 (0 <> 0 /\ _)) by tauto.
  rewrite bool_decide_eq_false_2; [done|]. lia.
Qed.

Lemma word_zero tried i : Forall (eq 0) tried -> covers tried n -> (i < n)%nat -> tried !! word_of i = Some 0.
Proof.
  intros Hz Hc Hi. destruct (covers_word tried n i Hc Hi) as [word Hw]. rewrite Hw. f_equal.
  by eapply Forall_lookup_1 in Hz; [|exact Hw].
Qed.

Lemma fair_turn k (c : nat -> Z) now tried G i : group_ok w (peers_peer G) -> length (peers_peer G) = n ->
  (forall i p, peers_peer G !! i = Some p -> fair_peer i k (c i) p) ->
  Forall (eq 0) tried -> covers tried n -> (i < n)%nat -> turn now tried (peers_peer G) i = true.
Proof.
  intros Hgo Hn Hp Hz Hc Hi. rewrite turn_cleared.
  - unfold fresh_turn. destruct (lookup_lt_is_Some_2 (peers_peer G) i) as [p E]; [by rewrite Hn|]. rewrite E.
    destruct (peer_ok_lookup w _ i p Hgo E) as (_ & _ & Hmf & _).
    by rewrite (fair_not_skipped i k (c i) now p Hmf) by (by apply Hp).
  - intros j Hj. rewrite Hn in Hj. by apply word_zero.
Qed.

Lemma fair_available k (c : nat -> Z) now tried G : (0 < n)%nat -> group_ok w (peers_peer G) -> length (peers_peer G) = n ->
  (forall i p, peers_peer G !! i = Some p -> fair_peer i k (c i) p) ->
  Forall (eq 0) tried -> covers tried n -> ~ group_busy now tried G.
Proof.
  intros H0 Hgo Hn Hp Hz Hc. unfold group_busy. destruct (lookup_lt_is_Some_2 (peers_peer G) 0) as [p E]; [by rewrite Hn|].
  destruct (single G).
  - intros H. destruct (Hp 0%nat p E) as (_ & _ & Hd & Hm & _). specialize (H p E). lia.
  - intros H. specialize (H 0%nat). rewrite (fair_turn k c) in H; done.
Qed.

(** The weights after a choice. *)
Lemma fair_choice k c T ps qs b : length ps = n -> 0 < W -> group_ok w ps ->
  (forall i p, ps !! i = Some p -> fair_peer i k (c i) p) -> (forall i, (i < n)%nat -> T i = true) -> (b < n)%nat ->
  choice T ps qs b ->
  forall i q, qs !! i = Some q -> fair_peer i (k + 1) (c i + if decide (i = b) then 1 else 0) q.
Proof.
  intros Hn HW Hgo Hf HT Hb [[_ Hmax] Hq] i q Hi. destruct (Hq i q Hi) as (p & Hp & Hs & Hcw & Hew).
  pose proof (lookup_lt_Some _ _ _ Hp) as Hlt. rewrite Hn in Hlt.
  destruct (Hf i p Hp) as (E1 & E2 & E3 & E4 & E5 & E6 & E7).
  apply shape_eq in Hs as (_ & S1 & _ & S2 & S3 & _ & _ & S4). unfold fair_peer. rewrite S1, S2, S3, S4.
  do 1 (split; [done|]). split.
  { rewrite Hew, HT, bool_decide_eq_false_2 by (done || lia). done. }
  do 3 (split; [done|]).
  assert (Etot : msum n T (field effective_weight ps) = W).
  { unfold W. apply zsum_ext. intros j Hj. rewrite HT by done.
    destruct (lookup_lt_is_Some_2 ps j) as [pj Hpj]; [by rewrite Hn|]. rewrite (field_lookup _ _ _ pj) by done.
    by destruct (Hf j pj Hpj) as (_ & -> & _). }
  unfold round in Hcw. rewrite Hn, HT, Etot, !(field_lookup _ _ _ p) in Hcw by done.
  pose proof (Hwt i Hlt) as Hwi. rewrite Hcw. destruct (decide (i = b)) as [->|Hne]; [|split; lia].
  split; [lia|]. assert (0 < current_weight p + effective_weight p); [|lia].
  rewrite <- (field_lookup current_weight ps b p Hp), <- (field_lookup effective_weight ps b p Hp).
  apply (zsum_ge_max n (fun j => field current_weight ps j + field effective_weight ps j) b).
  - done.
  - intros j Hj. apply Hmax. by apply HT.
  - rewrite zsum_add. destruct Hgo as (_ & _ & _ & [E0 _]). rewrite Hn in E0. rewrite E0. cbn.
    rewrite <- Etot in HW. unfold msum in HW. erewrite zsum_ext; [exact HW|]. intros j Hj. cbn. by rewrite HT.
Qed.

Context (Hpos : (0 < n)%nat).

Lemma total_pos : 0 < W.
Proof.
  unfold W. clear -Hwt Hpos. destruct n as [|m]; [lia|]. cbn.
  pose proof (zsum_le m (fun _ => 0) wt) as H. rewrite zsum_const in H. pose proof (Hwt m ltac:(lia)) as Hm.
  assert (Hi : forall i, (i < m)%nat -> 0 <= wt i); [|specialize (H Hi); lia].
  intros i Hi. specialize (Hwt i ltac:(lia)). lia.
Qed.

Lemma fair_start k c st s : fair k c st s -> exists s', step s Start = Some s' /\ fair k c (st ++ [Ready]) s'.
Proof.
  intros (Hok & Hst & HG). destruct (step_start w s Hok) as (s' & Hs & Hok'). exists s'. split; [done|].
  pose proof Hok as (Hl & Hgs & _). destruct (rr_init_ok w (groups s) new_connection Hl Hgs) as
    (rrp & tries & E & Hp & Hcur & Hz & Hcov). cbn in Hs. rewrite E in Hs. injection Hs as <-.
  split; [done|]. split; [|done]. cbn. apply Forall2_app; [done|]. constructor; [|constructor]. by split.
Qed.

Lemma fair_get k c st s id now : fair k c st s -> st !! id = Some Ready ->
  exists s' b, step s (Get id now) = Some s' /\ (b < n)%nat /\
    (r ← requests s' !! id; held r) = Some (0%nat, b) /\
    fair (k + 1) (fun i => c i + if decide (i = b) then 1 else 0) (<[id := Using]> st) s'.
Proof.
  intros (Hok & Hst & G & HG & Hn & Hf) Hid. destruct (Forall2_lookup_l _ _ _ _ _ Hst Hid) as ([rrp pc] & Hr & Hrq).
  destruct Hrq as (Hp0 & Hz & Hsa). cbn [fst snd] in *.
  destruct (step_get w s id now Hok) as (s' & Hs & Hok'); [by exists (rrp, pc)|]. exists s'.
  pose proof Hok as (Hl & Hgs & Hrs & _). pose proof (proj1 (Forall_lookup _ _) Hrs id _ Hr) as Hreq.
  pose proof (proj1 (Forall_lookup _ _) Hgs _ G HG) as HGok.
  assert (Hcov : covers (rrp_tried rrp) n).
  { destruct Hreq as (_ & Hcov & _). rewrite <- Hn. by eapply Forall_lookup_1 in Hcov; [|exact HG]. }
  pose proof (fair_available k c now (rrp_tried rrp) G Hpos (proj1 HGok) Hn Hf Hz Hcov) as Hav.
  cbn in Hs. rewrite Hr in Hs. cbn in Hs.
  destruct (get_cases w now (groups s) rrp pc Hgs Hreq) as (rrp' & pc' & _ & _ & _ &
    [(_ & _ & _ & Hall)|(j & G' & b & p & q & ps & Hpick & HG' & E & Hcur & Hsa' & Hall)]).
  { specialize (Hall 0%nat G). rewrite Hp0 in Hall. by specialize (Hall HG). }
  rewrite Hp0, Nat.add_0_l in HG', Hcur, E.
  assert (j = 0%nat) as ->.
  { destruct j; [done|]. specialize (Hall 0%nat G ltac:(lia)). rewrite Hp0 in Hall. by specialize (Hall HG). }
  rewrite HG in HG'. injection HG' as <-. rewrite E in Hs. cbn in Hs. injection Hs as <-.
  destruct Hpick as (_ & Hp & Hq & _ & _ & Hgo & Hsh & Hch). pose proof (length_shape _ _ Hsh) as Hlps.
  assert (Hb : (b < n)%nat) by (rewrite <- Hn; by eapply lookup_lt_Some).
  exists b. split; [cbn; rewrite Hr; cbn; by rewrite E|]. split; [done|]. split.
  { cbn. rewrite list_lookup_insert_eq by (by eapply lookup_lt_Some). cbn. unfold held. cbn. by rewrite Hsa'. }
  split; [done|]. split.
  { cbn. apply Forall2_insert; [done|]. cbn. by rewrite Hsa'. }
  assert (Hnew : forall i p', ps !! i = Some p' -> fair_peer i (k + 1) (c i + if decide (i = b) then 1 else 0) p').
  { destruct (single G) eqn:Esg.
    - subst ps. destruct HGok as (_ & En & Hs1). specialize (Hs1 Esg). rewrite Hn, Hs1 in En.
      intros i p' Hi. pose proof (lookup_lt_Some _ _ _ Hi). rewrite decide_True by lia.
      destruct (Hf i p' Hi) as (E1 & E2 & E3 & E4 & E5 & E6 & E7). do 5 (split; [done|]). split; [|done].
      rewrite E6. unfold W. replace n with 1%nat by lia. cbn. replace i with 0%nat by lia. lia.
    - unfold avail in Hch. rewrite decide_True in Hch by done.
      apply (fair_choice k c (turn now (rrp_tried rrp) (peers_peer G)) (peers_peer G)); try done.
      + exact total_pos.
      + by destruct HGok.
      + intros i Hi. by apply (fair_turn k c) with (G := G); try done; destruct HGok. }
  eexists. split; [unfold put_group; cbn; apply list_lookup_insert_eq; by eapply lookup_lt_Some|]. cbn.
  split; [by rewrite length_insert, Hlps|]. intros i p'. destruct (decide (i = b)) as [->|Hne].
  - rewrite list_lookup_insert_eq by (by eapply lookup_lt_Some). intros [= <-].
    specialize (Hnew b q Hq). destruct (decide (b = b)); [|done]. exact Hnew.
  - rewrite list_lookup_insert_ne by done. intros Hi. specialize (Hnew i p' Hi). by destruct (decide (i = b)).
Qed.

Lemma fair_free k c st s id now state : fair k c st s -> st !! id = Some Using ->
  Z.land state NGX_PEER_FAILED = 0 ->
  exists s', step s (Free id now state) = Some s' /\ fair k c (<[id := Finished]> st) s'.
Proof.
  intros (Hok & Hst & G & HG & Hn & Hf) Hid Hstate.
  destruct (Forall2_lookup_l _ _ _ _ _ Hst Hid) as ([rrp pc] & Hr & Hsa). cbn in Hsa.
  destruct (step_free w s id now state Hok) as (s' & Hs & Hok'); [by exists (rrp, pc)|]. exists s'. split; [done|].
  pose proof Hok as (Hl & Hgs & Hrs & _). pose proof (proj1 (Forall_lookup _ _) Hrs id _ Hr) as (Hg & _ & Hcur).
  cbn [fst snd] in *. destruct (Hcur Hsa) as ([g i] & Hgi & p & Hp).
  destruct (free_cases w now (groups s) rrp pc state (g, i) p Hgs Hgi Hg Hp) as
    (G' & q & tries & HG' & Hpg & E & _ & Hq). cbn in Hs. rewrite Hr in Hs. cbn in Hs. rewrite E in Hs. injection Hs as <-.
  split; [done|]. split; [cbn; by apply Forall2_insert|]. cbn [groups fst snd] in *.
  destruct (decide (g = 0%nat)) as [->|Hne]; [|exists G; rewrite list_lookup_insert_ne by done; done].
  rewrite HG in HG'. injection HG' as <-. eexists.
  split; [apply list_lookup_insert_eq; by eapply lookup_lt_Some|]. cbn. split; [by rewrite length_insert|].
  intros j p'. destruct (decide (j = i)) as [->|Hne].
  - rewrite list_lookup_insert_eq by (by eapply lookup_lt_Some). intros [= <-].
    destruct Hq as (_ & Q1 & Q2 & Q3 & Q4 & Q5). destruct (Q5 ltac:(tauto)) as [Q6 Q7].
    destruct (Hf i p Hpg) as (E1 & E2 & E3 & E4 & E5 & E6 & E7). unfold fair_peer.
    rewrite Q1, Q2, Q3, Q4, Q6. do 4 (split; [done|]). split; [by apply Q7|done].
  - rewrite list_lookup_insert_ne by done. apply Hf.
Qed.

Lemma fair_run evs : forall k c st s, fair k c st s -> protocol st evs ->
  exists s' picks st', run s evs = Some (s', picks) /\
    Forall (fun gi => gi.1 = 0%nat /\ (gi.2 < n)%nat) picks /\ Z.of_nat (length picks) = gets evs /\
    fair (k + gets evs) (fun i => c i + times (0%nat, i) picks) st' s'.
Proof.
  assert (Hext : forall k k' c c' st s, k = k' -> (forall i, c i = c' i) -> fair k c st s -> fair k' c' st s).
  { intros k k' c c' st s -> Hc (H1 & H2 & G & HG & Hn & Hf). split; [done|]. split; [done|]. exists G.
    split; [done|]. split; [done|]. intros i p Hp. rewrite <- Hc. by apply Hf. }
  induction evs as [|[|id now|id now state] evs IH]; intros k c st s Hf Hp; cbn [run gets protocol] in *.
  - exists s, [], st. split; [done|]. split; [done|]. split; [done|]. eapply Hext; [..|exact Hf]; [lia|].
    intros i. unfold times. cbn. lia.
  - destruct (fair_start k c st s Hf) as (s1 & -> & Hf1). cbn.
    destruct (IH k c _ s1 Hf1 Hp) as (s' & picks & st' & -> & H). exists s', picks, st'. done.
  - destruct Hp as [Hid Hp]. destruct (fair_get k c st s id now Hf Hid) as (s1 & b & -> & Hb & Hheld & Hf1). cbn.
    destruct (IH _ _ _ s1 Hf1 Hp) as (s' & picks & st' & -> & H1 & H2 & H3). cbn. rewrite Hheld.
    exists s', ((0%nat, b) :: picks), st'. split; [done|]. split; [by constructor|]. split; [cbn [length]; lia|].
    eapply Hext; [..|exact H3]; [lia|]. intros i. cbn beta. unfold times. rewrite filter_cons.
    destruct (decide (i = b)) as [->|Hne], (decide _) as [E|E]; cbn [length]; try congruence; lia.
  - destruct Hp as (Hid & Hst & Hp). destruct (fair_free k c st s id now state Hf Hid Hst) as (s1 & -> & Hf1). cbn.
    destruct (IH _ _ _ s1 Hf1 Hp) as (s' & picks & st' & -> & H). exists s', picks, st'. done.
Qed.

End Fair.

Lemma zsum_times n picks : Forall (fun gi => gi.1 = 0%nat /\ (gi.2 < n)%nat) picks ->
  zsum n (fun i => times (0%nat, i) picks) = Z.of_nat (length picks).
Proof.
  induction picks as [|[g b] picks IH]; intros H.
  - unfold times. cbn. apply zsum_const.
  - apply List.Forall_cons_iff in H as [[Hg Hb] H]. cbn in Hg, Hb. subst g. cbn [length].
    rewrite Nat2Z.inj_succ, <- IH, <- Z.add_1_r, <- (zsum_point n b 1), <- zsum_add by done.
    apply zsum_ext. intros i _. unfold times. rewrite filter_cons.
    destruct (decide (i = b)) as [->|Hne], (decide _) as [E|E]; cbn [length]; try congruence; lia.
Qed.

Lemma zsum_tight n f g : (forall i, (i < n)%nat -> f i <= g i) -> zsum n f = zsum n g ->
  forall i, (i < n)%nat -> f i = g i.
Proof.
  induction n as [|n IH]; intros Hle Hs i Hi; [lia|]. cbn in Hs.
  pose proof (zsum_le n f g ltac:(intros; apply Hle; lia)). pose proof (Hle n ltac:(lia)).
  destruct (decide (i = n)) as [->|]; [lia|]. apply IH; [intros; apply Hle; lia|lia|lia].
Qed.

(** C18: fairness, when every primary server is up and without a limit on its
    connections ([down] and [max_conns] are zero for each peer of the first
    group; the proof needs both, since a server that is down has no share and one
    that is full is passed over). Then requests that get a peer each, at any
    times, interleaved in any way, and without failures, all get one, of the
    first group; after any number of them no peer is ahead of its share by one
    request or more, and after [m] times the total weight of requests each peer
    has had exactly [m] times its weight. *)
Theorem rr_fair w resolve us ups G evs : conf_ok w resolve us ->
  ngx_http_upstream_init_round_robin resolve us = Some ups -> ups !! 0%nat = Some G ->
  Forall (fun p => down p = 0 /\ max_conns p = 0) (peers_peer G) -> protocol [] evs ->
  let W := zsum (length (peers_peer G)) (field weight (peers_peer G)) in
  exists s picks, run (Sys ups []) evs = Some (s, picks) /\ Z.of_nat (length picks) = gets evs /\
    Forall (fun gi => gi.1 = 0%nat) picks /\
    forall i p, peers_peer G !! i = Some p ->
      W * times (0%nat, i) picks < gets evs * weight p + W /\
      forall m, gets evs = m * W -> times (0%nat, i) picks = m * weight p.
Proof.
  intros Hconf Hi HG Hup Hp W. destruct (init_groups_ok w resolve us ups Hconf Hi) as [Hok Hfresh].
  eapply Forall_lookup_1 in Hfresh as [Hfresh Hne]; [|exact HG].
  set (n := length (peers_peer G)) in *. set (wt := field weight (peers_peer G)) in *.
  assert (Hwt : forall i, (i < n)%nat -> 0 < wt i).
  { intros i [p E]%lookup_lt_is_Some. unfold wt. rewrite (field_lookup _ _ _ p E).
    eapply Forall_lookup_1 in Hfresh as (_ & _ & ? & _); [done|exact E]. }
  assert (Hpos : (0 < n)%nat) by (unfold n; destruct (peers_peer G); [done|cbn; lia]).
  assert (Hfair : fair w n wt 0 (fun _ => 0) [] (Sys ups [])).
  { split; [done|]. split; [constructor|]. exists G. split; [done|]. split; [done|]. intros i p E.
    pose proof (total_pos n wt Hwt Hpos). unfold fair_peer, wt. rewrite (field_lookup _ _ _ p E).
    eapply Forall_lookup_1 in Hup as [? ?]; [|exact E].
    eapply Forall_lookup_1 in Hfresh as (-> & ? & _ & _ & ?); [|exact E]. fold wt. do 5 (split; [done|]). lia. }
  destruct (fair_run w n wt Hwt Hpos evs 0 (fun _ => 0) [] _ Hfair Hp) as (s & picks & st & Hrun & Hin & Hlen & Hend).
  exists s, picks. split; [done|]. split; [done|]. split; [revert Hin; apply List.Forall_impl; tauto|].
  destruct Hend as (_ & _ & G' & _ & Hn & Hf). cbn beta in Hf. fold W in Hf.
  assert (Hc : forall i, (i < n)%nat -> W * times (0%nat, i) picks < gets evs * wt i + W).
  { intros i Hi'. rewrite <- Hn in Hi'. apply lookup_lt_is_Some in Hi' as [p' E].
    destruct (Hf i p' E) as (_ & _ & _ & _ & _ & E6 & E7). fold W in E6, E7. lia. }
  intros i p E. pose proof (lookup_lt_Some _ _ _ E) as Hlt. fold n in Hlt.
  rewrite <- (field_lookup weight _ i p E). fold (wt i). split; [by apply Hc|]. intros m Hm.
  pose proof (total_pos n wt Hwt Hpos) as HW. fold W in HW.
  apply (zsum_tight n (fun i => times (0%nat, i) picks) (fun i => m * wt i)); [|by rewrite zsum_times, zsum_scale, Hlen by done|done].
  intros j Hj. specialize (Hc j Hj). rewrite Hm in Hc. nia.
Qed.

(** *** Concrete runs *)

Definition server_of (w : Z) (backup : bool) : server :=
  Server (bstr "s") [Addr (sockaddr_in 20480 16777343) 16 (bstr "127.0.0.1:80")] w 0 1 10 0 backup.
Definition conf_511 : srv_conf := SrvConf (Some [server_of 5 false; server_of 1 false; server_of 1 false; server_of 1 true]) [] 80.
Definition ups_511 : list rr_peers := default [] (ngx_http_upstream_init_round_robin (fun _ _ => None) conf_511).

Lemma conf_511_ok : conf_ok 5 (fun _ _ => None) conf_511.
Proof.
  split; [lia|]. split; [repeat constructor; cbn; lia|]. intros []; vm_compute; done.
Qed.

Definition evs_511 : list event :=
  [Start; Start; Get 1 7; Get 0 7; Start; Free 1 8 0; Get 2 9; Start; Start; Start; Get 5 9; Get 3 9; Free 0 9 2;
   Start; Get 4 10; Get 6 10; Free 4 11 0].

Lemma rr_fair_witness : exists s picks, run (Sys ups_511 []) evs_511 = Some (s, picks) /\
  times (0, 0)%nat picks = 5 /\ times (0, 1)%nat picks = 1.
Proof.
  destruct (rr_fair 5 (fun _ _ => None) conf_511 ups_511 (nth 0 ups_511 (Peers 0 0 0 false false [] [])) evs_511
    conf_511_ok eq_refl eq_refl) as (s & picks & Hr & _ & _ & Hp).
  - vm_compute. repeat constructor.
  - vm_compute. repeat split.
  - exists s, picks. split; [exact Hr|]. split.
    + destruct (Hp 0%nat _ eq_refl) as [_ H]. specialize (H 1 eq_refl). exact H.
    + destruct (Hp 1%nat _ eq_refl) as [_ H]. specialize (H 1 eq_refl). exact H.
Defined.

Definition state_511 : sys := match run (Sys ups_511 []) [Start; Get 0 7] with Some (s, _) => s | None => Sys [] [] end.

Lemma state_511_reachable : reachable ups_511 state_511.
Proof.
  apply (reach_step _ (default (Sys [] []) (step (Sys ups_511 []) Start)) (Get 0 7)).
  - apply (reach_step _ (Sys ups_511 []) Start); [constructor|exact I|reflexivity].
  - eexists. split; [reflexivity|reflexivity].
  - vm_compute. reflexivity.
Qed.

Lemma rr_invariant_witness : exists s, step state_511 (Free 0 9 4) = Some s.
Proof.
  destruct (rr_invariant 5 (fun _ _ => None) conf_511 ups_511 state_511 conf_511_ok eq_refl state_511_reachable) as [H _].
  apply (H (Free 0 9 4)). eexists. split; [reflexivity|]. vm_compute. discriminate.
Defined.

Definition request_511 : rr_data * peer_connection :=
  default (RRData 0 None [], new_connection) (requests state_511 !! 0%nat).

Lemma rr_get_exact_witness : exists k G b p q ps,
  picked 5 8 (rrp_tried request_511.1) (drop (rrp_peers request_511.1) (groups state_511)) k G b p q ps.
Proof.
  destruct (rr_get_exact 5 (fun _ _ => None) conf_511 ups_511 state_511 0 8 request_511.1 request_511.2 conf_511_ok
    eq_refl state_511_reachable eq_refl) as
    (rrp' & pc' & [(H & _)|(k & G & b & p & q & ps & H & _)]); [|by exists k, G, b, p, q, ps].
  vm_compute in H. discriminate.
Defined.
