(* ===== verification/QuicFrame.v ===== *)
(** * QUIC integers and frames: event/quic/ngx_event_quic_transport.c

    Variable-length integers, the frames that a client may send and the parser
    of them, and the frames that the server creates. A pointer with its [end] is
    the list of bytes between them. *)

From S2P Require Import Prelude NgxString Inet.
From stdpp Require Import list.

Open Scope Z_scope.

(** ** Definitions *)

(** *** Integers *)

(** [while (--len) { value = (value << 8) + *p++; }], of [k] rounds. *)
Fixpoint int_loop (k : nat) (value : Z) (p : list Z) : option (Z * list Z) :=
  match k with
  | O => Some (value, p)
  | S k =>
      match p with
      | [] => None
      | c :: p => int_loop k (u64 (u64 (Z.shiftl value 8) + c)) p
      end
  end.

(** The value and the bytes after it. *)
Definition ngx_quic_parse_int (p : list Z) : option (Z * list Z) :=
  match p with
  | [] => None
  | c :: p =>
      let len := Z.shiftl 1 (Z.shiftr c 6) in
      let value := Z.land c 0x3f in
      if decide (Z.of_nat (length p) < len - 1) then None else int_loop (Z.to_nat (len - 1)) value p
  end.

Definition ngx_quic_read_uint8 (p : list Z) : option (Z * list Z) :=
  match p with [] => None | c :: p => Some (c, p) end.

(** The four bytes at [p] as a word, with its bytes swapped. *)
Definition ngx_quic_parse_uint32 (a b c d : Z) : Z := ntohl (a + b * 2 ^ 8 + c * 2 ^ 16 + d * 2 ^ 24).

Definition ngx_quic_read_uint32 (p : list Z) : option (Z * list Z) :=
  match p with
  | a :: b :: c :: d :: p => Some (ngx_quic_parse_uint32 a b c d, p)
  | _ => None
  end.

Definition ngx_quic_read_bytes (len : Z) (p : list Z) : option (list Z * list Z) :=
  if decide (Z.of_nat (length p) < len) then None else Some (take (Z.to_nat len) p, drop (Z.to_nat len) p).

(** The bytes that are copied. *)
Definition ngx_quic_copy_bytes (len : Z) (p : list Z) : option (list Z * list Z) :=
  if decide (Z.of_nat (length p) < len) then None else Some (take (Z.to_nat len) p, drop (Z.to_nat len) p).

Definition ngx_quic_varint_len (value : Z) : Z :=
  if decide (value < Z.shiftl 1 6) then 1
  else if decide (value < Z.shiftl 1 14) then 2
  else if decide (value < Z.shiftl 1 30) then 4
  else 8.

(** The byte that the macro stores. *)
Definition ngx_quic_build_int_set (value len bits : Z) : Z :=
  u8 (Z.lor (Z.land (Z.shiftr value (len * 8)) 0xff) (Z.shiftl bits 6)).

(** The bytes that are written. *)
Definition ngx_quic_build_int (value : Z) : list Z :=
  let set := ngx_quic_build_int_set value in
  if decide (value < Z.shiftl 1 6) then [set 0 0]
  else if decide (value < Z.shiftl 1 14) then [set 1 1; set 0 0]
  else if decide (value < Z.shiftl 1 30) then [set 3 2; set 2 0; set 1 0; set 0 0]
  else [set 7 3; set 6 0; set 5 0; set 4 0; set 3 0; set 2 0; set 1 0; set 0 0].

(** *** Frames *)

Definition NGX_QUIC_FT_PADDING : Z := 0x00.
Definition NGX_QUIC_FT_PING : Z := 0x01.
Definition NGX_QUIC_FT_ACK : Z := 0x02.
Definition NGX_QUIC_FT_ACK_ECN : Z := 0x03.
Definition NGX_QUIC_FT_RESET_STREAM : Z := 0x04.
Definition NGX_QUIC_FT_STOP_SENDING : Z := 0x05.
Definition NGX_QUIC_FT_CRYPTO : Z := 0x06.
Definition NGX_QUIC_FT_NEW_TOKEN : Z := 0x07.
Definition NGX_QUIC_FT_STREAM : Z := 0x08.
Definition NGX_QUIC_FT_STREAM7 : Z := 0x0F.
Definition NGX_QUIC_FT_MAX_DATA : Z := 0x10.
Definition NGX_QUIC_FT_MAX_STREAM_DATA : Z := 0x11.
Definition NGX_QUIC_FT_MAX_STREAMS : Z := 0x12.
Definition NGX_QUIC_FT_MAX_STREAMS2 : Z := 0x13.
Definition NGX_QUIC_FT_DATA_BLOCKED : Z := 0x14.
Definition NGX_QUIC_FT_STREAM_DATA_BLOCKED : Z := 0x15.
Definition NGX_QUIC_FT_STREAMS_BLOCKED : Z := 0x16.
Definition NGX_QUIC_FT_STREAMS_BLOCKED2 : Z := 0x17.
Definition NGX_QUIC_FT_NEW_CONNECTION_ID : Z := 0x18.
Definition NGX_QUIC_FT_RETIRE_CONNECTION_ID : Z := 0x19.
Definition NGX_QUIC_FT_PATH_CHALLENGE : Z := 0x1A.
Definition NGX_QUIC_FT_PATH_RESPONSE : Z := 0x1B.
Definition NGX_QUIC_FT_CONNECTION_CLOSE : Z := 0x1C.
Definition NGX_QUIC_FT_CONNECTION_CLOSE_APP : Z := 0x1D.
Definition NGX_QUIC_FT_HANDSHAKE_DONE : Z := 0x1E.
Definition NGX_QUIC_FT_LAST : Z := NGX_QUIC_FT_HANDSHAKE_DONE.

Definition NGX_QUIC_STREAM_FRAME_FIN : Z := 0x01.
Definition NGX_QUIC_STREAM_FRAME_LEN : Z := 0x02.
Definition NGX_QUIC_STREAM_FRAME_OFF : Z := 0x04.

Definition NGX_QUIC_ERR_FRAME_ENCODING_ERROR : Z := 0x07.
Definition NGX_QUIC_ERR_PROTOCOL_VIOLATION : Z := 0x0A.

Definition NGX_QUIC_PKT_LONG : Z := 0x80.
Definition NGX_QUIC_PKT_TYPE : Z := 0x30.
Definition NGX_QUIC_PKT_INITIAL : Z := 0x00.
Definition NGX_QUIC_PKT_ZRTT : Z := 0x10.
Definition NGX_QUIC_PKT_HANDSHAKE : Z := 0x20.
Definition NGX_QUIC_CID_LEN_MAX : Z := 20.
Definition NGX_QUIC_SR_TOKEN_LEN : Z := 16.

Definition ngx_quic_long_pkt (flags : Z) : bool := bool_decide (Z.land flags NGX_QUIC_PKT_LONG <> 0).
Definition ngx_quic_pkt_in (flags : Z) : bool := bool_decide (Z.land flags NGX_QUIC_PKT_TYPE = NGX_QUIC_PKT_INITIAL).
Definition ngx_quic_pkt_zrtt (flags : Z) : bool := bool_decide (Z.land flags NGX_QUIC_PKT_TYPE = NGX_QUIC_PKT_ZRTT).
Definition ngx_quic_pkt_hs (flags : Z) : bool := bool_decide (Z.land flags NGX_QUIC_PKT_TYPE = NGX_QUIC_PKT_HANDSHAKE).

(** The union of [ngx_quic_frame_t]. *)
Inductive frame_u :=
  | u_none
  | u_ack (largest delay range_count first_range ect0 ect1 ce ranges_length : Z)
  | u_crypto (offset length : Z)
  | u_ncid (seqnum retire len : Z) (cid srt : list Z)
  | u_token (length : Z)
  | u_stream (offset length stream_id : Z) (off len fin : bool)
  | u_max_data (max_data : Z)
  | u_close (error_code frame_type : Z) (reason : list Z)
  | u_reset_stream (id error_code final_size : Z)
  | u_stop_sending (id error_code : Z)
  | u_streams_blocked (limit : Z) (bidi : bool)
  | u_max_streams (limit : Z) (bidi : bool)
  | u_max_stream_data (id limit : Z)
  | u_data_blocked (limit : Z)
  | u_stream_data_blocked (id limit : Z)
  | u_retire_cid (sequence_number : Z)
  | u_path_challenge (data : list Z)
  | u_path_response (data : list Z).

(** [ngx_quic_frame_t]: the fields that the parser and the writers use; [f_data]
    is the contents of the buffers of the chain. *)
Record frame := Frame { f_type : Z; f_level : Z; f_data : list (list Z); f_u : frame_u }.

Definition frame_masks : list Z :=
  [0xF; 0xF; 0xD; 0xD; 0x3; 0x3; 0xD; 0x0; 0x3; 0x3; 0x3; 0x3; 0x3; 0x3; 0x3; 0x3; 0x3; 0x3; 0x3; 0x3; 0x3; 0x3;
   0x3; 0x3; 0x3; 0x3; 0x3; 0x1; 0xF; 0x3; 0x0].

Definition packet_type (flags : Z) : Z :=
  if ngx_quic_long_pkt flags then
    if ngx_quic_pkt_in flags then 8 else if ngx_quic_pkt_hs flags then 4 else 2
  else 1.

(** [None] is a read outside of the table. *)
Definition ngx_quic_frame_allowed (flags frame_type : Z) : option bool :=
  mask ← rd frame_masks frame_type;
  Some (bool_decide (Z.land (packet_type flags) mask <> 0)).

(** The result of the parser: the frame and the bytes after it; NGX_ERROR with the
    code in [pkt->error], which one case does not set; a read outside of the
    table of masks. *)
Inductive parsed :=
  | Parsed (f : frame) (p : list Z)
  | Error (error : option Z)
  | OutOfTable.

(** [p = f(p, end, &x); if (p == NULL) goto error;] *)
Definition field {A} (x : option (A * list Z)) (k : A -> list Z -> parsed) : parsed :=
  match x with Some (v, p) => k v p | None => Error (Some NGX_QUIC_ERR_FRAME_ENCODING_ERROR) end.

Notation "'let*' x , p := m 'in' k" := (field m (fun x p => k)) (at level 10, x name, p name, m at level 200, k at level 200).

(** [while (p < end && *p == NGX_QUIC_FT_PADDING) { p++; }] *)
Fixpoint skip_padding (p : list Z) : list Z :=
  match p with
  | c :: q => if decide (c = NGX_QUIC_FT_PADDING) then skip_padding q else p
  | [] => []
  end.

(** The loop over [n] ranges; a range has two bytes or more, so that [fuel] as the
    number of bytes and one more is enough. *)
Fixpoint skip_ranges (fuel : nat) (n : Z) (p : list Z) : option (unit * list Z) :=
  match fuel with
  | O => None
  | S fuel =>
      if decide (n > 0) then
        match ngx_quic_parse_int p with
        | Some (_, p) =>
            match ngx_quic_parse_int p with Some (_, p) => skip_ranges fuel (n - 1) p | None => None end
        | None => None
        end
      else Some (tt, p)
  end.

Definition encoding_error : parsed := Error (Some NGX_QUIC_ERR_FRAME_ENCODING_ERROR).

(** The switch over the type; the frame is zero before the call. *)
Definition parse_body (level ty : Z) (p : list Z) : parsed :=
  let done ty data u p := Parsed (Frame ty level data u) p in
  if decide (ty = NGX_QUIC_FT_CRYPTO) then
    let* offset, p := ngx_quic_parse_int p in
    let* length, p := ngx_quic_parse_int p in
    let* data, p := ngx_quic_read_bytes length p in
    done ty [data] (u_crypto offset length) p
  else if decide (ty = NGX_QUIC_FT_PADDING) then done ty [] u_none (skip_padding p)
  else if decide (ty = NGX_QUIC_FT_ACK \/ ty = NGX_QUIC_FT_ACK_ECN) then
    let* largest, p := ngx_quic_parse_int p in
    let* delay, p := ngx_quic_parse_int p in
    let* range_count, p := ngx_quic_parse_int p in
    let* first_range, pos := ngx_quic_parse_int p in
    let* _, last := skip_ranges (S (length pos)) range_count pos in
    let n := (length pos - length last)%nat in
    let ack ect0 ect1 ce p :=
      done ty [take n pos] (u_ack largest delay range_count first_range ect0 ect1 ce (Z.of_nat n)) p in
    if decide (ty = NGX_QUIC_FT_ACK_ECN) then
      let* ect0, p := ngx_quic_parse_int last in
      let* ect1, p := ngx_quic_parse_int p in
      let* ce, p := ngx_quic_parse_int p in
      ack ect0 ect1 ce p
    else ack 0 0 0 last
  else if decide (ty = NGX_QUIC_FT_PING) then done ty [] u_none p
  else if decide (ty = NGX_QUIC_FT_NEW_CONNECTION_ID) then
    let* seqnum, p := ngx_quic_parse_int p in
    let* retire, p := ngx_quic_parse_int p in
    if decide (retire > seqnum) then encoding_error
    else
      let* len, p := ngx_quic_read_uint8 p in
      if decide (len < 1 \/ len > NGX_QUIC_CID_LEN_MAX) then encoding_error
      else
        let* cid, p := ngx_quic_copy_bytes len p in
        let* srt, p := ngx_quic_copy_bytes NGX_QUIC_SR_TOKEN_LEN p in
        done ty [] (u_ncid seqnum retire len cid srt) p
  else if decide (ty = NGX_QUIC_FT_RETIRE_CONNECTION_ID) then
    let* sequence_number, p := ngx_quic_parse_int p in
    done ty [] (u_retire_cid sequence_number) p
  else if decide (ty = NGX_QUIC_FT_CONNECTION_CLOSE \/ ty = NGX_QUIC_FT_CONNECTION_CLOSE_APP) then
    let* error_code, p := ngx_quic_parse_int p in
    let close frame_type p :=
      let* len, p := ngx_quic_parse_int p in
      let* reason, p := ngx_quic_read_bytes len p in
      done ty [] (u_close error_code frame_type reason) p in
    if decide (ty = NGX_QUIC_FT_CONNECTION_CLOSE) then
      let* frame_type, p := ngx_quic_parse_int p in
      close frame_type p
    else close 0 p
  else if decide (NGX_QUIC_FT_STREAM <= ty <= NGX_QUIC_FT_STREAM7) then
    let fin := bool_decide (Z.land ty NGX_QUIC_STREAM_FRAME_FIN <> 0) in
    let* stream_id, p := ngx_quic_parse_int p in
    let data off offset len length p :=
      let* data, p := ngx_quic_read_bytes length p in
      done NGX_QUIC_FT_STREAM [data] (u_stream offset length stream_id off len fin) p in
    let sized off offset p :=
      if decide (Z.land ty NGX_QUIC_STREAM_FRAME_LEN <> 0) then
        let* length, p := ngx_quic_parse_int p in
        data off offset true length p
      else data off offset false (Z.of_nat (length p)) p in
    if decide (Z.land ty NGX_QUIC_STREAM_FRAME_OFF <> 0) then
      let* offset, p := ngx_quic_parse_int p in
      sized true offset p
    else sized false 0 p
  else if decide (ty = NGX_QUIC_FT_MAX_DATA) then
    let* max_data, p := ngx_quic_parse_int p in
    done ty [] (u_max_data max_data) p
  else if decide (ty = NGX_QUIC_FT_RESET_STREAM) then
    let* id, p := ngx_quic_parse_int p in
    let* error_code, p := ngx_quic_parse_int p in
    let* final_size, p := ngx_quic_parse_int p in
    done ty [] (u_reset_stream id error_code final_size) p
  else if decide (ty = NGX_QUIC_FT_STOP_SENDING) then
    let* id, p := ngx_quic_parse_int p in
    let* error_code, p := ngx_quic_parse_int p in
    done ty [] (u_stop_sending id error_code) p
  else if decide (ty = NGX_QUIC_FT_STREAMS_BLOCKED \/ ty = NGX_QUIC_FT_STREAMS_BLOCKED2) then
    let* limit, p := ngx_quic_parse_int p in
    if decide (limit > 0x1000000000000000) then encoding_error
    else done ty [] (u_streams_blocked limit (bool_decide (ty = NGX_QUIC_FT_STREAMS_BLOCKED))) p
  else if decide (ty = NGX_QUIC_FT_MAX_STREAMS \/ ty = NGX_QUIC_FT_MAX_STREAMS2) then
    let* limit, p := ngx_quic_parse_int p in
    if decide (limit > 0x1000000000000000) then encoding_error
    else done ty [] (u_max_streams limit (bool_decide (ty = NGX_QUIC_FT_MAX_STREAMS))) p
  else if decide (ty = NGX_QUIC_FT_MAX_STREAM_DATA) then
    let* id, p := ngx_quic_parse_int p in
    let* limit, p := ngx_quic_parse_int p in
    done ty [] (u_max_stream_data id limit) p
  else if decide (ty = NGX_QUIC_FT_DATA_BLOCKED) then
    let* limit, p := ngx_quic_parse_int p in
    done ty [] (u_data_blocked limit) p
  else if decide (ty = NGX_QUIC_FT_STREAM_DATA_BLOCKED) then
    let* id, p := ngx_quic_parse_int p in
    let* limit, p := ngx_quic_parse_int p in
    done ty [] (u_stream_data_blocked id limit) p
  else if decide (ty = NGX_QUIC_FT_PATH_CHALLENGE) then
    let* data, p := ngx_quic_copy_bytes 8 p in
    done ty [] (u_path_challenge data) p
  else if decide (ty = NGX_QUIC_FT_PATH_RESPONSE) then
    let* data, p := ngx_quic_copy_bytes 8 p in
    done ty [] (u_path_response data) p
  else Error None.

Definition ngx_quic_parse_frame (flags level : Z) (p : list Z) : parsed :=
  let* ty, p := ngx_quic_parse_int p in
  if decide (ty > NGX_QUIC_FT_LAST) then encoding_error
  else
    match ngx_quic_frame_allowed flags ty with
    | None => OutOfTable
    | Some false => Error (Some NGX_QUIC_ERR_PROTOCOL_VIOLATION)
    | Some true => parse_body level ty p
    end.

(** *** The creation of frames *)

(** A writer called with NULL returns the length of the frame, otherwise it writes
    the frame: the pairs below are the length and the bytes. *)
Definition int_len (value : Z) : Z := ngx_quic_varint_len value.

Definition ngx_quic_create_ack_range (gap range : Z) : Z * list Z :=
  (int_len gap + int_len range, ngx_quic_build_int gap ++ ngx_quic_build_int range).

Definition ngx_quic_create_ping : Z * list Z := (int_len NGX_QUIC_FT_PING, ngx_quic_build_int NGX_QUIC_FT_PING).

Definition ngx_quic_create_ack (largest delay range_count first_range ranges_length : Z) (ranges : list (list Z)) :
    Z * list Z :=
  (int_len NGX_QUIC_FT_ACK + int_len largest + int_len delay + int_len range_count + int_len first_range + ranges_length,
   ngx_quic_build_int NGX_QUIC_FT_ACK ++ ngx_quic_build_int largest ++ ngx_quic_build_int delay ++
   ngx_quic_build_int range_count ++ ngx_quic_build_int first_range ++ concat ranges).

Definition ngx_quic_create_reset_stream (id error_code final_size : Z) : Z * list Z :=
  (int_len NGX_QUIC_FT_RESET_STREAM + int_len id + int_len error_code + int_len final_size,
   ngx_quic_build_int NGX_QUIC_FT_RESET_STREAM ++ ngx_quic_build_int id ++ ngx_quic_build_int error_code ++
   ngx_quic_build_int final_size).

Definition ngx_quic_create_stop_sending (id error_code : Z) : Z * list Z :=
  (int_len NGX_QUIC_FT_STOP_SENDING + int_len id + int_len error_code,
   ngx_quic_build_int NGX_QUIC_FT_STOP_SENDING ++ ngx_quic_build_int id ++ ngx_quic_build_int error_code).

Definition ngx_quic_create_crypto (offset length : Z) (data : list (list Z)) : Z * list Z :=
  (int_len NGX_QUIC_FT_CRYPTO + int_len offset + int_len length + length,
   ngx_quic_build_int NGX_QUIC_FT_CRYPTO ++ ngx_quic_build_int offset ++ ngx_quic_build_int length ++ concat data).

Definition ngx_quic_create_hs_done : Z * list Z :=
  (int_len NGX_QUIC_FT_HANDSHAKE_DONE, ngx_quic_build_int NGX_QUIC_FT_HANDSHAKE_DONE).

Definition ngx_quic_create_new_token (length : Z) (data : list (list Z)) : Z * list Z :=
  (int_len NGX_QUIC_FT_NEW_TOKEN + int_len length + length,
   ngx_quic_build_int NGX_QUIC_FT_NEW_TOKEN ++ ngx_quic_build_int length ++ concat data).

Definition ngx_quic_create_stream (offset length stream_id : Z) (off len fin : bool) (data : list (list Z)) :
    Z * list Z :=
  let ty := NGX_QUIC_FT_STREAM in
  let ty := if off then Z.lor ty NGX_QUIC_STREAM_FRAME_OFF else ty in
  let ty := if len then Z.lor ty NGX_QUIC_STREAM_FRAME_LEN else ty in
  let ty := if fin then Z.lor ty NGX_QUIC_STREAM_FRAME_FIN else ty in
  (int_len ty + int_len stream_id + (if off then int_len offset else 0) + (if len then int_len length else 0) + length,
   ngx_quic_build_int ty ++ ngx_quic_build_int stream_id ++ (if off then ngx_quic_build_int offset else []) ++
   (if len then ngx_quic_build_int length else []) ++ concat data).

Definition ngx_quic_create_max_streams (limit : Z) (bidi : bool) : Z * list Z :=
  let ty := if bidi then NGX_QUIC_FT_MAX_STREAMS else NGX_QUIC_FT_MAX_STREAMS2 in
  (int_len ty + int_len limit, ngx_quic_build_int ty ++ ngx_quic_build_int limit).

Definition ngx_quic_create_max_stream_data (id limit : Z) : Z * list Z :=
  (int_len NGX_QUIC_FT_MAX_STREAM_DATA + int_len id + int_len limit,
   ngx_quic_build_int NGX_QUIC_FT_MAX_STREAM_DATA ++ ngx_quic_build_int id ++ ngx_quic_build_int limit).

Definition ngx_quic_create_max_data (max_data : Z) : Z * list Z :=
  (int_len NGX_QUIC_FT_MAX_DATA + int_len max_data,
   ngx_quic_build_int NGX_QUIC_FT_MAX_DATA ++ ngx_quic_build_int max_data).

Definition ngx_quic_create_path_challenge (data : list Z) : Z * list Z :=
  (int_len NGX_QUIC_FT_PATH_CHALLENGE + 8, ngx_quic_build_int NGX_QUIC_FT_PATH_CHALLENGE ++ data).

Definition ngx_quic_create_path_response (data : list Z) : Z * list Z :=
  (int_len NGX_QUIC_FT_PATH_RESPONSE + 8, ngx_quic_build_int NGX_QUIC_FT_PATH_RESPONSE ++ data).

Definition ngx_quic_create_new_connection_id (seqnum retire len : Z) (cid srt : list Z) : Z * list Z :=
  (int_len NGX_QUIC_FT_NEW_CONNECTION_ID + int_len seqnum + int_len retire + 1 + len + NGX_QUIC_SR_TOKEN_LEN,
   ngx_quic_build_int NGX_QUIC_FT_NEW_CONNECTION_ID ++ ngx_quic_build_int seqnum ++ ngx_quic_build_int retire ++
   [len] ++ take (Z.to_nat len) cid ++ srt).

Definition ngx_quic_create_retire_connection_id (sequence_number : Z) : Z * list Z :=
  (int_len NGX_QUIC_FT_RETIRE_CONNECTION_ID + int_len sequence_number,
   ngx_quic_build_int NGX_QUIC_FT_RETIRE_CONNECTION_ID ++ ngx_quic_build_int sequence_number).

Definition ngx_quic_create_close (ty error_code frame_type : Z) (reason : list Z) : Z * list Z :=
  let len := Z.of_nat (length reason) in
  let app := bool_decide (ty = NGX_QUIC_FT_CONNECTION_CLOSE_APP) in
  (int_len ty + int_len error_code + (if app then 0 else int_len frame_type) + int_len len + len,
   ngx_quic_build_int ty ++ ngx_quic_build_int error_code ++ (if app then [] else ngx_quic_build_int frame_type) ++
   ngx_quic_build_int len ++ reason).

(** [need_ack] with the length and the bytes; [None] for NGX_ERROR and for a union
    that is not of the type. *)
Definition ngx_quic_create_frame (f : frame) : option (bool * (Z * list Z)) :=
  let ty := f_type f in
  match f_u f with
  | u_none =>
      if decide (ty = NGX_QUIC_FT_PING) then Some (true, ngx_quic_create_ping)
      else if decide (ty = NGX_QUIC_FT_HANDSHAKE_DONE) then Some (true, ngx_quic_create_hs_done)
      else None
  | u_ack largest delay range_count first_range _ _ _ ranges_length =>
      if decide (ty = NGX_QUIC_FT_ACK) then
        Some (false, ngx_quic_create_ack largest delay range_count first_range ranges_length (f_data f))
      else None
  | u_reset_stream id error_code final_size =>
      if decide (ty = NGX_QUIC_FT_RESET_STREAM) then Some (true, ngx_quic_create_reset_stream id error_code final_size)
      else None
  | u_stop_sending id error_code =>
      if decide (ty = NGX_QUIC_FT_STOP_SENDING) then Some (true, ngx_quic_create_stop_sending id error_code) else None
  | u_crypto offset length =>
      if decide (ty = NGX_QUIC_FT_CRYPTO) then Some (true, ngx_quic_create_crypto offset length (f_data f)) else None
  | u_token length =>
      if decide (ty = NGX_QUIC_FT_NEW_TOKEN) then Some (true, ngx_quic_create_new_token length (f_data f)) else None
  | u_stream offset length stream_id off len fin =>
      if decide (ty = NGX_QUIC_FT_STREAM) then
        Some (true, ngx_quic_create_stream offset length stream_id off len fin (f_data f))
      else None
  | u_close error_code frame_type reason =>
      if decide (ty = NGX_QUIC_FT_CONNECTION_CLOSE \/ ty = NGX_QUIC_FT_CONNECTION_CLOSE_APP) then
        Some (false, ngx_quic_create_close ty error_code frame_type reason)
      else None
  | u_max_streams limit bidi =>
      if decide (ty = NGX_QUIC_FT_MAX_STREAMS) then Some (true, ngx_quic_create_max_streams limit bidi) else None
  | u_max_stream_data id limit =>
      if decide (ty = NGX_QUIC_FT_MAX_STREAM_DATA) then Some (true, ngx_quic_create_max_stream_data id limit) else None
  | u_max_data max_data =>
      if decide (ty = NGX_QUIC_FT_MAX_DATA) then Some (true, ngx_quic_create_max_data max_data) else None
  | u_path_challenge data =>
      if decide (ty = NGX_QUIC_FT_PATH_CHALLENGE) then Some (true, ngx_quic_create_path_challenge data) else None
  | u_path_response data =>
      if decide (ty = NGX_QUIC_FT_PATH_RESPONSE) then Some (true, ngx_quic_create_path_response data) else None
  | u_ncid seqnum retire len cid srt =>
      if decide (ty = NGX_QUIC_FT_NEW_CONNECTION_ID) then
        Some (true, ngx_quic_create_new_connection_id seqnum retire len cid srt)
      else None
  | u_retire_cid sequence_number =>
      if decide (ty = NGX_QUIC_FT_RETIRE_CONNECTION_ID) then
        Some (true, ngx_quic_create_retire_connection_id sequence_number)
      else None
  | _ => None
  end.

Definition ngx_quic_parse_ack_range (p : list Z) : option (Z * Z * list Z) :=
  '(gap, p) ← ngx_quic_parse_int p;
  '(range, p) ← ngx_quic_parse_int p;
  Some (gap, range, p).

Example parse_stream : ngx_quic_parse_frame 0x40 3 [0x0d; 4; 0x40; 9; 7; 8] =
  Parsed (Frame NGX_QUIC_FT_STREAM 3 [[7; 8]] (u_stream 9 2 4 true false true)) [].
Proof. by vm_compute. Qed.
Example parse_ack : ngx_quic_parse_frame 0x40 3 [2; 9; 0; 1; 3; 0; 1; 1; 1] =
  Parsed (Frame NGX_QUIC_FT_ACK 3 [[0; 1]] (u_ack 9 0 1 3 0 0 0 2)) [1; 1].
Proof. by vm_compute. Qed.
Example create_close : ngx_quic_create_frame (Frame 0x1d 0 [] (u_close 500 0 [65])) =
  Some (false, (5, [0x1d; 0x41; 0xf4; 1; 65])).
Proof. by vm_compute. Qed.

(** ** Integers *)

(** The value of big-endian bytes after [hi]. *)
Definition be_from (hi : Z) (l : list Z) : Z := fold_left (fun v c => v * 2 ^ 8 + c) l hi.

(** The bytes of an integer: two bits with the logarithm of the length, then the value. *)
Definition int_wire (v : Z) (bs : list Z) : Prop :=
  exists k hi l, 0 <= k <= 3 /\ 0 <= hi < 64 /\ bs = (k * 64 + hi) :: l /\ Z.of_nat (length l) = 2 ^ k - 1 /\
    bytes l /\ v = be_from hi l.

Lemma be_from_bound l : forall hi, bytes l -> 0 <= hi -> forall n, hi < n ->
  hi * 2 ^ (8 * Z.of_nat (length l)) <= be_from hi l < n * 2 ^ (8 * Z.of_nat (length l)).
Proof.
  induction l as [|c l IH]; intros hi Hb Hhi n Hn; [cbn; lia|].
  apply List.Forall_cons_iff in Hb as [Hc Hb]. unfold is_byte in Hc. cbn [be_from fold_left length].
  fold (be_from (hi * 2 ^ 8 + c) l).
  specialize (IH (hi * 2 ^ 8 + c) Hb ltac:(lia)).
  replace (8 * Z.of_nat (S (length l))) with (8 + 8 * Z.of_nat (length l)) by lia. rewrite Z.pow_add_r by lia.
  specialize (IH (n * 2 ^ 8) ltac:(nia)). nia.
Qed.

Lemma int_loop_eq l : forall k v r, bytes l -> 0 <= v -> (length l = k)%nat ->
  (v + 1) * 2 ^ (8 * Z.of_nat k) <= 2 ^ 64 -> int_loop k v (l ++ r) = Some (be_from v l, r).
Proof.
  induction l as [|c l IH]; intros k v r Hb Hv Hk Hlt; cbn in Hk; subst k; [done|].
  apply List.Forall_cons_iff in Hb as [Hc Hb]. unfold is_byte in Hc. cbn [app int_loop].
  replace (8 * Z.of_nat (S (length l))) with (8 + 8 * Z.of_nat (length l)) in Hlt by lia.
  rewrite Z.pow_add_r in Hlt by lia. pose proof (Z.pow_pos_nonneg 2 (8 * Z.of_nat (length l)) ltac:(lia) ltac:(lia)).
  rewrite Z.shiftl_mul_pow2 by lia. rewrite (u64_small (v * 2 ^ 8)) by nia. rewrite u64_small by nia.
  rewrite IH by (done || nia). done.
Qed.

Lemma len_of_wire k hi : 0 <= k <= 3 -> 0 <= hi < 64 ->
  Z.shiftl 1 (Z.shiftr (k * 64 + hi) 6) = 2 ^ k /\ Z.land (k * 64 + hi) 0x3f = hi.
Proof.
  intros Hk Hhi. rewrite Z.shiftr_div_pow2, (land_ones_mod _ _ 6) by (done || lia).
  replace ((k * 64 + hi) / 2 ^ 6) with k by dlia. rewrite Z.shiftl_1_l. split; [done|dlia].
Qed.

Lemma parse_int_wire v bs r : int_wire v bs -> ngx_quic_parse_int (bs ++ r) = Some (v, r).
Proof.
  intros (k & hi & l & Hk & Hhi & -> & Hl & Hb & ->). cbn [app ngx_quic_parse_int].
  destruct (len_of_wire k hi Hk Hhi) as [-> ->]. rewrite length_app.
  rewrite decide_False by lia. apply int_loop_eq; [done|lia|lia|].
  rewrite Z2Nat.id by lia. assert (k = 0 \/ k = 1 \/ k = 2 \/ k = 3) as [-> | [-> | [-> | ->]]] by lia; cbn; lia.
Qed.

Lemma parse_int_inv p v r : bytes p -> ngx_quic_parse_int p = Some (v, r) ->
  exists bs, p = bs ++ r /\ int_wire v bs.
Proof.
  intros Hp. destruct p as [|c p]; [done|]. apply List.Forall_cons_iff in Hp as [Hc Hp]. unfold is_byte in Hc.
  intros H. set (k := c / 64). set (hi := c mod 64). assert (Ec : c = k * 64 + hi) by (unfold k, hi; dlia).
  assert (Hk : 0 <= k <= 3) by (unfold k; dlia). assert (Hhi : 0 <= hi < 64) by (unfold hi; dlia).
  revert H. cbn [ngx_quic_parse_int]. rewrite Ec. destruct (len_of_wire k hi Hk Hhi) as [-> ->].
  destruct (decide _) as [|Hlen]; [done|]. intros H. set (n := Z.to_nat (2 ^ k - 1)) in *.
  assert (1 <= 2 ^ k) by (pose proof (Z.pow_pos_nonneg 2 k); lia).
  assert (W : int_wire (be_from hi (take n p)) ((k * 64 + hi) :: take n p)).
  { exists k, hi, (take n p). split; [done|]. split; [done|]. split; [done|].
    split; [rewrite length_take; lia|]. split; [by apply Forall_take|done]. }
  pose proof (parse_int_wire _ _ (drop n p) W) as E. cbn [app] in E. rewrite take_drop in E.
  cbn [ngx_quic_parse_int] in E. destruct (len_of_wire k hi Hk Hhi) as [E1 E2]. rewrite E1, E2 in E.
  rewrite decide_False in E by done. fold n in E. rewrite H in E. injection E as -> ->.
  exists ((k * 64 + hi) :: take n p). split; [cbn; by rewrite take_drop|done].
Qed.

Lemma int_wire_range v bs : int_wire v bs -> 0 <= v < 2 ^ 62 /\ bytes bs /\ (1 <= length bs <= 8)%nat.
Proof.
  intros (k & hi & l & Hk & Hhi & -> & Hl & Hb & ->).
  pose proof (be_from_bound l hi Hb ltac:(lia) 64 ltac:(lia)) as B.
  assert (K : k = 0 \/ k = 1 \/ k = 2 \/ k = 3) by lia.
  assert (8 * Z.of_nat (length l) <= 56 /\ (length l <= 7)%nat) as [H56 H7].
  { destruct K as [-> | [-> | [-> | ->]]]; cbn in Hl; lia. }
  assert (2 ^ (8 * Z.of_nat (length l)) <= 2 ^ 56) by (apply Z.pow_le_mono_r; lia).
  pose proof (Z.pow_pos_nonneg 2 (8 * Z.of_nat (length l))).
  split; [nia|]. split; [constructor; [unfold is_byte; lia|done]|cbn; lia].
Qed.

Lemma int_set_byte v n : 0 <= v -> 0 <= n -> ngx_quic_build_int_set v n 0 = v / 2 ^ (n * 8) mod 2 ^ 8.
Proof.
  intros Hv Hn. unfold ngx_quic_build_int_set. rewrite Z.shiftl_0_l, Z.lor_0_r, Z.shiftr_div_pow2 by lia.
  rewrite (land_ones_mod _ _ 8) by (done || lia). rewrite u8_small; [done|]. unfold is_byte. dlia.
Qed.

Lemma int_set_first v n k : 0 <= v < 2 ^ (n * 8 + 6) -> 0 <= n -> 0 <= k <= 3 ->
  ngx_quic_build_int_set v n k = k * 64 + v / 2 ^ (n * 8).
Proof.
  intros Hv Hn Hk. unfold ngx_quic_build_int_set. rewrite Z.shiftr_div_pow2 by lia.
  assert (0 <= v / 2 ^ (n * 8) < 64).
  { rewrite Z.pow_add_r in Hv by lia. pose proof (Z.pow_pos_nonneg 2 (n * 8)). split; [apply Z.div_pos; lia|].
    apply Z.div_lt_upper_bound; lia. }
  rewrite (land_ones_mod _ _ 8) by (done || lia). rewrite (Z.mod_small (v / _)) by lia.
  rewrite Z.lor_comm, lor_shiftl_add by lia. change (2 ^ 6) with 64. apply u8_small. unfold is_byte. lia.
Qed.

Lemma build_int_wire v : 0 <= v < 2 ^ 62 -> int_wire v (ngx_quic_build_int v).
Proof.
  intros Hv. unfold ngx_quic_build_int. change (Z.shiftl 1 6) with (2 ^ 6). change (Z.shiftl 1 14) with (2 ^ 14).
  change (Z.shiftl 1 30) with (2 ^ 30).
  assert (B : forall n, 0 <= n -> is_byte (ngx_quic_build_int_set v n 0)).
  { intros n Hn. rewrite int_set_byte by lia. unfold is_byte. dlia. }
  destruct (decide (v < 2 ^ 6)); [|destruct (decide (v < 2 ^ 14)); [|destruct (decide (v < 2 ^ 30))]].
  - exists 0, v, []. rewrite int_set_first by lia. change (2 ^ (0 * 8)) with 1. rewrite Z.div_1_r. by repeat split; lia || auto.
  - exists 1, (v / 2 ^ 8), [ngx_quic_build_int_set v 0 0]. rewrite int_set_first by lia.
    split; [lia|]. split; [dlia|]. split; [done|]. split; [done|]. split; [repeat constructor; by apply B|].
    cbn. rewrite int_set_byte by lia. cbn. dlia.
  - exists 2, (v / 2 ^ 24), [ngx_quic_build_int_set v 2 0; ngx_quic_build_int_set v 1 0; ngx_quic_build_int_set v 0 0].
    rewrite int_set_first by lia.
    split; [lia|]. split; [dlia|]. split; [done|]. split; [done|]. split; [repeat (constructor; [by apply B|]); constructor|].
    cbn [be_from fold_left]. rewrite !int_set_byte by lia. cbn. dlia.
  - exists 3, (v / 2 ^ 56), (map (fun n => ngx_quic_build_int_set v n 0) [6; 5; 4; 3; 2; 1; 0]).
    rewrite int_set_first by lia.
    split; [lia|]. split; [dlia|]. split; [done|]. split; [done|]. split; [repeat (constructor; [by apply B|]); constructor|].
    cbn [be_from fold_left map]. rewrite !int_set_byte by lia. cbn. dlia.
Qed.

Lemma length_build_int v : Z.of_nat (length (ngx_quic_build_int v)) = int_len v.
Proof. unfold ngx_quic_build_int, int_len, ngx_quic_varint_len. by repeat case_decide. Qed.

(** ** The grammar of frames *)

Inductive ints : list Z -> list Z -> Prop :=
  | ints_nil : ints [] []
  | ints_cons v vs b bs : int_wire v b -> ints vs bs -> ints (v :: vs) (b ++ bs).

Lemma ints_app vs bs ws cs : ints vs bs -> ints ws cs -> ints (vs ++ ws) (bs ++ cs).
Proof. induction 1 as [|v vs b bs W _ IH]; intros H; [done|]. cbn. rewrite <- app_assoc. constructor; [done|by apply IH]. Qed.

(** A frame of the type, its bytes after the type and the bytes after the frame. *)
Inductive body_wire (lv : Z) : Z -> frame -> list Z -> list Z -> Prop :=
  | w_padding bs r : Forall (eq 0) bs -> head r <> Some 0 ->
      body_wire lv 0x00 (Frame 0x00 lv [] u_none) bs r
  | w_ping r : body_wire lv 0x01 (Frame 0x01 lv [] u_none) [] r
  | w_ack largest delay count first bs ranges rs r :
      ints [largest; delay; count; first] bs -> ints ranges rs -> Z.of_nat (length ranges) = 2 * count ->
      body_wire lv 0x02 (Frame 0x02 lv [rs] (u_ack largest delay count first 0 0 0 (Z.of_nat (length rs)))) (bs ++ rs) r
  | w_ack_ecn largest delay count first bs ranges rs ect0 ect1 ce es r :
      ints [largest; delay; count; first] bs -> ints ranges rs -> Z.of_nat (length ranges) = 2 * count ->
      ints [ect0; ect1; ce] es ->
      body_wire lv 0x03 (Frame 0x03 lv [rs] (u_ack largest delay count first ect0 ect1 ce (Z.of_nat (length rs))))
        (bs ++ rs ++ es) r
  | w_reset_stream id error_code final_size bs r : ints [id; error_code; final_size] bs ->
      body_wire lv 0x04 (Frame 0x04 lv [] (u_reset_stream id error_code final_size)) bs r
  | w_stop_sending id error_code bs r : ints [id; error_code] bs ->
      body_wire lv 0x05 (Frame 0x05 lv [] (u_stop_sending id error_code)) bs r
  | w_crypto offset data bs r : ints [offset; Z.of_nat (length data)] bs ->
      body_wire lv 0x06 (Frame 0x06 lv [data] (u_crypto offset (Z.of_nat (length data)))) (bs ++ data) r
  | w_stream (off len fin : bool) id offset data bs r :
      ints (id :: (if off then [offset] else []) ++ (if len then [Z.of_nat (length data)] else [])) bs ->
      (off = false -> offset = 0) -> (len = false -> r = []) ->
      body_wire lv (8 + (if off then 4 else 0) + (if len then 2 else 0) + (if fin then 1 else 0))
        (Frame 0x08 lv [data] (u_stream offset (Z.of_nat (length data)) id off len fin)) (bs ++ data) r
  | w_max_data n bs r : ints [n] bs -> body_wire lv 0x10 (Frame 0x10 lv [] (u_max_data n)) bs r
  | w_max_stream_data id limit bs r : ints [id; limit] bs ->
      body_wire lv 0x11 (Frame 0x11 lv [] (u_max_stream_data id limit)) bs r
  | w_max_streams (bidi : bool) limit bs r : ints [limit] bs -> limit <= 2 ^ 60 ->
      body_wire lv (if bidi then 0x12 else 0x13)
        (Frame (if bidi then 0x12 else 0x13) lv [] (u_max_streams limit bidi)) bs r
  | w_data_blocked limit bs r : ints [limit] bs -> body_wire lv 0x14 (Frame 0x14 lv [] (u_data_blocked limit)) bs r
  | w_stream_data_blocked id limit bs r : ints [id; limit] bs ->
      body_wire lv 0x15 (Frame 0x15 lv [] (u_stream_data_blocked id limit)) bs r
  | w_streams_blocked (bidi : bool) limit bs r : ints [limit] bs -> limit <= 2 ^ 60 ->
      body_wire lv (if bidi then 0x16 else 0x17)
        (Frame (if bidi then 0x16 else 0x17) lv [] (u_streams_blocked limit bidi)) bs r
  | w_ncid seqnum retire cid srt bs r : ints [seqnum; retire] bs -> retire <= seqnum ->
      (1 <= length cid <= 20)%nat -> length srt = 16%nat ->
      body_wire lv 0x18 (Frame 0x18 lv [] (u_ncid seqnum retire (Z.of_nat (length cid)) cid srt))
        (bs ++ Z.of_nat (length cid) :: cid ++ srt) r
  | w_retire_cid n bs r : ints [n] bs -> body_wire lv 0x19 (Frame 0x19 lv [] (u_retire_cid n)) bs r
  | w_path_challenge data r : length data = 8%nat ->
      body_wire lv 0x1a (Frame 0x1a lv [] (u_path_challenge data)) data r
  | w_path_response data r : length data = 8%nat ->
      body_wire lv 0x1b (Frame 0x1b lv [] (u_path_response data)) data r
  | w_close error_code frame_type reason bs r : ints [error_code; frame_type; Z.of_nat (length reason)] bs ->
      body_wire lv 0x1c (Frame 0x1c lv [] (u_close error_code frame_type reason)) (bs ++ reason) r
  | w_close_app error_code reason bs r : ints [error_code; Z.of_nat (length reason)] bs ->
      body_wire lv 0x1d (Frame 0x1d lv [] (u_close error_code 0 reason)) (bs ++ reason) r.

(** The packet allows the type. *)
Definition allowed (flags ty : Z) : Prop := ngx_quic_frame_allowed flags ty = Some true.

#[global] Instance allowed_dec flags ty : Decision (allowed flags ty).
Proof. unfold allowed. apply _. Defined.

Definition frame_wire (flags lv : Z) (f : frame) (bs r : list Z) : Prop :=
  exists ty tb body, bs = tb ++ body /\ int_wire ty tb /\ allowed flags ty /\ body_wire lv ty f body r.

Lemma int_wire_nonneg v bs : int_wire v bs -> 0 <= v.
Proof. intros H. apply int_wire_range in H. lia. Qed.

(** *** The parser accepts the grammar *)

Lemma read_bytes_app data r : ngx_quic_read_bytes (Z.of_nat (length data)) (data ++ r) = Some (data, r).
Proof.
  unfold ngx_quic_read_bytes. rewrite decide_False by (rewrite length_app; lia).
  by rewrite Nat2Z.id, take_app_length, drop_app_length.
Qed.

Lemma read_uint8_cons c p : ngx_quic_read_uint8 (c :: p) = Some (c, p).
Proof. done. Qed.

Lemma copy_bytes_app n data r : Z.of_nat (length data) = n -> ngx_quic_copy_bytes n (data ++ r) = Some (data, r).
Proof. intros <-. apply read_bytes_app. Qed.

Lemma read_bytes_inv len p data r : 0 <= len -> ngx_quic_read_bytes len p = Some (data, r) ->
  p = data ++ r /\ Z.of_nat (length data) = len.
Proof.
  unfold ngx_quic_read_bytes. intros Hl. case_decide; [done|]. intros [= <- <-].
  split; [by rewrite take_drop|]. rewrite length_take. lia.
Qed.

Lemma field_app {A} (x : option (A * list Z)) v r k : x = Some (v, r) -> field x k = k v r.
Proof. by intros ->. Qed.

Lemma field_inv {A} (x : option (A * list Z)) k f r : field x k = Parsed f r ->
  exists v q, x = Some (v, q) /\ k v q = Parsed f r.
Proof. destruct x as [[v q]|]; [|done]. intros H. by exists v, q. Qed.

Lemma skip_padding_app bs r : Forall (eq 0) bs -> head r <> Some 0 -> skip_padding (bs ++ r) = r.
Proof.
  induction bs as [|c bs IH]; intros Hb Hr.
  - destruct r as [|c r]; [done|]. cbn. rewrite decide_False; [done|]. intros ->. by apply Hr.
  - apply List.Forall_cons_iff in Hb as [<- Hb]. cbn. by apply IH.
Qed.

Lemma skip_padding_inv p : exists bs, p = bs ++ skip_padding p /\ Forall (eq 0) bs /\ head (skip_padding p) <> Some 0.
Proof.
  induction p as [|c p IH]; [by exists []|]. cbn. destruct (decide (c = NGX_QUIC_FT_PADDING)) as [->|Hne].
  - destruct IH as (bs & E & Hb & Hh). exists (0 :: bs). split; [cbn; by rewrite <- E|]. split; [by constructor|done].
  - exists []. split; [done|]. split; [done|]. intros [= ->]. by apply Hne.
Qed.

Lemma ints_inv_cons v vs bs : ints (v :: vs) bs -> exists b bs', bs = b ++ bs' /\ int_wire v b /\ ints vs bs'.
Proof. inversion 1; subst. eauto. Qed.

Lemma ints_inv_nil bs : ints [] bs -> bs = [].
Proof. by inversion 1. Qed.

Lemma skip_ranges_app ranges : forall rs r fuel n, ints ranges rs -> Z.of_nat (length ranges) = 2 * n ->
  (length rs < fuel)%nat -> skip_ranges fuel n (rs ++ r) = Some (tt, r).
Proof.
  intros rs r fuel. revert ranges rs r. induction fuel as [|fuel IH]; intros ranges rs r n Hi Hn Hf; [lia|].
  destruct ranges as [|a [|b ranges]]; cbn [length] in Hn; cbn [skip_ranges].
  - apply ints_inv_nil in Hi as ->. rewrite decide_False by lia. done.
  - lia.
  - apply ints_inv_cons in Hi as (ba & rs1 & -> & Ha & Hi). apply ints_inv_cons in Hi as (bb & rs2 & -> & Hb & Hi).
    rewrite decide_True by lia. rewrite <- !app_assoc, (parse_int_wire _ _ _ Ha), (parse_int_wire _ _ _ Hb).
    destruct (int_wire_range _ _ Ha) as (_ & _ & ?). rewrite !length_app in Hf.
    apply (IH ranges); [done|lia|lia].
Qed.

Lemma skip_ranges_inv fuel : forall n p r, bytes p -> 0 <= n -> skip_ranges fuel n p = Some (tt, r) ->
  exists ranges rs, p = rs ++ r /\ ints ranges rs /\ Z.of_nat (length ranges) = 2 * n.
Proof.
  induction fuel as [|fuel IH]; intros n p r Hp Hn H; [done|]. cbn in H. destruct (decide (n > 0)) as [Hpos|].
  - destruct (ngx_quic_parse_int p) as [[a p1]|] eqn:E1; [|done].
    destruct (parse_int_inv _ _ _ Hp E1) as (b1 & -> & W1). apply Forall_app in Hp as [_ Hp].
    destruct (ngx_quic_parse_int p1) as [[b p2]|] eqn:E2; [|done].
    destruct (parse_int_inv _ _ _ Hp E2) as (b2 & -> & W2). apply Forall_app in Hp as [_ Hp].
    destruct (IH (n - 1) p2 r Hp ltac:(lia) H) as (ranges & rs & -> & Hi & Hl).
    exists (a :: b :: ranges), (b1 ++ b2 ++ rs). split; [by rewrite !app_assoc|].
    split; [by repeat constructor|]. cbn [length]. lia.
  - injection H as <-. exists [], []. split; [done|]. split; [constructor|]. cbn. lia.
Qed.

(** Integers at the beginning of the bytes. *)
Ltac eat_ints :=
  repeat match goal with
    | H : ints (_ :: _) _ |- _ => apply ints_inv_cons in H as (? & ? & -> & ? & H)
    | H : ints [] _ |- _ => apply ints_inv_nil in H as ->
    end;
  rewrite ?app_nil_r, <- ?app_assoc;
  repeat (erewrite (field_app (ngx_quic_parse_int _)) by (by apply parse_int_wire); rewrite <- ?app_assoc).

(** A closed condition at the head of the left-hand side. *)
Ltac closed_if :=
  repeat match goal with
    | |- (if decide ?P then _ else _) = _ =>
        lazymatch P with _ > _ => fail | _ < _ \/ _ => fail | _ => idtac end;
        let b := eval vm_compute in (bool_decide P) in
        lazymatch b with
        | true => rewrite (decide_True (P := P)) by (apply (bool_decide_eq_true_1 P); vm_compute; reflexivity)
        | false => rewrite (decide_False (P := P)) by (apply (bool_decide_eq_false_1 P); vm_compute; reflexivity)
        end
    end.

Ltac eat_body := unfold parse_body; cbv zeta; do 3 (closed_if; eat_ints).

Lemma parse_body_wire lv ty f bs r : body_wire lv ty f bs r -> parse_body lv ty (bs ++ r) = Parsed f r.
Proof.
  intros W. destruct W.
  - eat_body. by rewrite skip_padding_app.
  - by eat_body.
  - eat_body. rewrite (field_app _ tt r) by (eapply skip_ranges_app; [done..|rewrite length_app; lia]). closed_if.
    rewrite length_app, Nat.add_sub, take_app_length. done.
  - eat_body. erewrite (field_app _ tt) by (eapply skip_ranges_app; [done..|rewrite !length_app; lia]). closed_if.
    rewrite length_app, Nat.add_sub, take_app_length. eat_ints. done.
  - by eat_body.
  - by eat_body.
  - eat_body. by rewrite (field_app _ _ _ _ (read_bytes_app data r)).
  - destruct off, len, fin; cbn [app] in *; try specialize (H0 eq_refl); try specialize (H1 eq_refl); subst;
      eat_body; try rewrite app_nil_r.
    all: first [by rewrite (field_app _ _ _ _ (read_bytes_app data _))
               |by (pose proof (read_bytes_app data []) as E; rewrite app_nil_r in E; rewrite (field_app _ _ _ _ E))].
  - by eat_body.
  - by eat_body.
  - destruct bidi; eat_body; rewrite decide_False by lia; done.
  - by eat_body.
  - by eat_body.
  - destruct bidi; eat_body; rewrite decide_False by lia; done.
  - eat_body. rewrite decide_False by lia. cbn [app]. rewrite (field_app _ _ _ _ (read_uint8_cons _ _)).
    rewrite decide_False by (unfold NGX_QUIC_CID_LEN_MAX; lia).
    rewrite <- app_assoc, (field_app _ _ _ _ (copy_bytes_app _ cid _ eq_refl)).
    by rewrite (field_app _ _ _ _ (copy_bytes_app _ srt _ ltac:(by rewrite H2))).
  - by eat_body.
  - eat_body. by rewrite (field_app _ _ _ _ (copy_bytes_app _ data _ ltac:(by rewrite H))).
  - eat_body. by rewrite (field_app _ _ _ _ (copy_bytes_app _ data _ ltac:(by rewrite H))).
  - eat_body. by rewrite (field_app _ _ _ _ (read_bytes_app reason r)).
  - eat_body. by rewrite (field_app _ _ _ _ (read_bytes_app reason r)).
Qed.

(** *** What the parser accepts is in the grammar *)

(** Take the parser apart, an integer at a time. *)
Ltac take_int :=
  match goal with
  | Hp : bytes ?p, H : field (ngx_quic_parse_int ?p) _ = Parsed _ _ |- _ =>
      let v := fresh "v" in let q := fresh "q" in let E := fresh "E" in let b := fresh "b" in let W := fresh "W" in
      apply field_inv in H as (v & q & E & H); cbn beta in H;
      apply (parse_int_inv _ _ _ Hp) in E as (b & -> & W); apply Forall_app in Hp as [_ Hp]
  end.

Ltac give_ints := repeat (eapply ints_cons; [eassumption|]); try apply ints_nil.

(** The rest of a stream frame after its id. *)
Definition stream_rest (lv ty id : Z) (p : list Z) : parsed :=
  let fin := bool_decide (Z.land ty NGX_QUIC_STREAM_FRAME_FIN <> 0) in
  let data off offset len length p :=
    let* data, p := ngx_quic_read_bytes length p in
    Parsed (Frame NGX_QUIC_FT_STREAM lv [data] (u_stream offset length id off len fin)) p in
  let sized off offset p :=
    if decide (Z.land ty NGX_QUIC_STREAM_FRAME_LEN <> 0) then
      let* length, p := ngx_quic_parse_int p in
      data off offset true length p
    else data off offset false (Z.of_nat (length p)) p in
  if decide (Z.land ty NGX_QUIC_STREAM_FRAME_OFF <> 0) then
    let* offset, p := ngx_quic_parse_int p in
    sized true offset p
  else sized false 0 p.

Lemma stream_flags ty : NGX_QUIC_FT_STREAM <= ty <= NGX_QUIC_FT_STREAM7 ->
  exists off len fin : bool, ty = 8 + (if off then 4 else 0) + (if len then 2 else 0) + (if fin then 1 else 0) /\
    (Z.land ty NGX_QUIC_STREAM_FRAME_OFF <> 0 <-> off = true) /\
    (Z.land ty NGX_QUIC_STREAM_FRAME_LEN <> 0 <-> len = true) /\
    bool_decide (Z.land ty NGX_QUIC_STREAM_FRAME_FIN <> 0) = fin.
Proof.
  unfold NGX_QUIC_FT_STREAM, NGX_QUIC_FT_STREAM7. intros H.
  assert (ty = 8 \/ ty = 9 \/ ty = 10 \/ ty = 11 \/ ty = 12 \/ ty = 13 \/ ty = 14 \/ ty = 15) as K by lia.
  exists (Z.testbit ty 2), (Z.testbit ty 1), (Z.testbit ty 0).
  destruct K as [-> | [-> | [-> | [-> | [-> | [-> | [-> | ->]]]]]]]; cbn; by repeat split.
Qed.

Lemma stream_rest_inv lv ty id b q f r : NGX_QUIC_FT_STREAM <= ty <= NGX_QUIC_FT_STREAM7 -> int_wire id b -> bytes q ->
  stream_rest lv ty id q = Parsed f r -> exists bs, b ++ q = bs ++ r /\ body_wire lv ty f bs r.
Proof.
  intros Hty W Hq. destruct (stream_flags ty Hty) as (off & len & fin & E & Hoff & Hlen & Hfin).
  unfold stream_rest. rewrite Hfin. clear Hfin. cbv zeta.
  assert (K : forall off' offset q bs, off' = off -> bytes q -> ints (id :: (if off then [offset] else [])) bs ->
    (off = false -> offset = 0) ->
    (if decide (Z.land ty NGX_QUIC_STREAM_FRAME_LEN <> 0) then
       let* length, p := ngx_quic_parse_int q in
       let* data, p := ngx_quic_read_bytes length p in
       Parsed (Frame NGX_QUIC_FT_STREAM lv [data] (u_stream offset length id off' true fin)) p
     else
       let* data, p := ngx_quic_read_bytes (Z.of_nat (length q)) q in
       Parsed (Frame NGX_QUIC_FT_STREAM lv [data] (u_stream offset (Z.of_nat (length q)) id off' false fin)) p) = Parsed f r ->
    exists cs, bs ++ q = cs ++ r /\ body_wire lv ty f cs r).
  { intros off' offset p bs -> Hp Hbs Ho. destruct (decide _) as [Hl|Hl]; rewrite E.
    - apply Hlen in Hl as ->. intros H. take_int. apply field_inv in H as (d & q1 & E1 & H). cbn beta in H.
      apply read_bytes_inv in E1 as [-> <-]; [|by eapply int_wire_nonneg]. injection H as <- <-.
      exists ((bs ++ b0) ++ d). split; [by rewrite !app_assoc|]. apply (w_stream lv off true fin); [|done..].
      rewrite app_comm_cons. apply ints_app; [done|]. rewrite <- (app_nil_r b0). give_ints.
    - destruct len; [by destruct Hl; apply Hlen|]. intros H. apply field_inv in H as (d & q1 & E1 & H). cbn beta in H.
      pose proof (read_bytes_inv _ _ _ _ (Zle_0_nat _) E1) as [-> El]. rewrite length_app in El.
      assert (q1 = []) as -> by (destruct q1; [done|cbn in El; lia]). rewrite app_nil_r in *. injection H as <- <-.
      exists (bs ++ d). split; [by rewrite app_nil_r|].
      apply (w_stream lv off false fin); [by rewrite app_nil_r|done..]. }
  destruct (decide (Z.land ty NGX_QUIC_STREAM_FRAME_OFF <> 0)) as [Ho|Ho].
  - apply Hoff in Ho as ->. intros H. take_int. rewrite app_assoc. eapply (K true v); try done.
    rewrite <- (app_nil_r b0). give_ints.
  - destruct off; [by destruct Ho; apply Hoff|]. intros H. eapply (K false 0); try done.
    rewrite <- (app_nil_r b). give_ints.
Qed.

Lemma parse_body_inv lv ty p f r : bytes p -> parse_body lv ty p = Parsed f r ->
  exists bs, p = bs ++ r /\ body_wire lv ty f bs r.
Proof.
  intros Hp. unfold parse_body. cbv zeta.
  destruct (decide (ty = NGX_QUIC_FT_CRYPTO)) as [->|_].
  { intros H. do 2 take_int. apply field_inv in H as (d & q1 & E & H).
    apply read_bytes_inv in E as [-> <-]; [|by eapply int_wire_nonneg]. injection H as <- <-.
    exists ((b ++ b0 ++ []) ++ d). split; [by rewrite app_nil_r, !app_assoc|]. apply w_crypto. give_ints. }
  destruct (decide (ty = NGX_QUIC_FT_PADDING)) as [->|_].
  { intros [= <- <-]. destruct (skip_padding_inv p) as (bs & E & Hb & Hh). exists bs. split; [done|]. by apply w_padding. }
  destruct (decide (ty = NGX_QUIC_FT_ACK \/ ty = NGX_QUIC_FT_ACK_ECN)) as [Hty|_].
  { intros H. do 4 take_int. apply field_inv in H as ([] & q4 & E & H). cbn beta in H.
    apply (skip_ranges_inv _ _ _ _ Hp) in E as (ranges & rs & -> & Hr & Hl); [|by eapply int_wire_nonneg].
    apply Forall_app in Hp as [_ Hp]. rewrite length_app, Nat.add_sub, take_app_length in H.
    destruct Hty as [-> | ->].
    - rewrite decide_False in H by done. injection H as <- <-.
      exists ((b ++ b0 ++ b1 ++ b2 ++ []) ++ rs). split; [by rewrite app_nil_r, !app_assoc|].
      eapply w_ack; [give_ints|exact Hr|done].
    - rewrite decide_True in H by done. do 3 take_int. injection H as <- <-.
      exists ((b ++ b0 ++ b1 ++ b2 ++ []) ++ rs ++ b3 ++ b4 ++ b5 ++ []).
      split; [by rewrite !app_nil_r, !app_assoc|]. eapply w_ack_ecn; [give_ints|exact Hr|done|give_ints]. }
  destruct (decide (ty = NGX_QUIC_FT_PING)) as [->|_].
  { intros [= <- <-]. exists []. split; [done|constructor]. }
  destruct (decide (ty = NGX_QUIC_FT_NEW_CONNECTION_ID)) as [->|_].
  { intros H. do 2 take_int. destruct (decide (v0 > v)); [done|].
    apply field_inv in H as (len & q1 & E & H). cbn beta in H.
    destruct q0 as [|len' q0]; [done|]. injection E as -> ->.
    destruct (decide _) as [|Hlen]; [done|]. unfold NGX_QUIC_CID_LEN_MAX in Hlen.
    apply field_inv in H as (cid & q2 & E & H). cbn beta in H. apply read_bytes_inv in E as [-> El]; [|lia].
    apply field_inv in H as (srt & q3 & E & H). cbn beta in H. apply read_bytes_inv in E as [-> Es]; [|done].
    injection H as <- <-. subst len. exists ((b ++ b0 ++ []) ++ Z.of_nat (length cid) :: cid ++ srt).
    split; [by rewrite app_nil_r, <- !app_assoc; cbn; rewrite <- !app_assoc|].
    unfold NGX_QUIC_SR_TOKEN_LEN in Es. apply w_ncid; [give_ints|lia..]. }
  destruct (decide (ty = NGX_QUIC_FT_RETIRE_CONNECTION_ID)) as [->|_].
  { intros H. take_int. injection H as <- <-. exists (b ++ []). split; [by rewrite app_nil_r|].
    apply w_retire_cid. give_ints. }
  destruct (decide (ty = NGX_QUIC_FT_CONNECTION_CLOSE \/ ty = NGX_QUIC_FT_CONNECTION_CLOSE_APP)) as [[-> | ->]|_].
  { intros H. take_int. rewrite decide_True in H by done. do 2 take_int. apply field_inv in H as (d & q2 & E & H).
    apply read_bytes_inv in E as [-> <-]; [|by eapply int_wire_nonneg]. injection H as <- <-.
    exists ((b ++ b0 ++ b1 ++ []) ++ d). split; [by rewrite app_nil_r, !app_assoc|]. apply w_close. give_ints. }
  { intros H. take_int. rewrite decide_False in H by done. take_int. apply field_inv in H as (d & q2 & E & H).
    apply read_bytes_inv in E as [-> <-]; [|by eapply int_wire_nonneg]. injection H as <- <-.
    exists ((b ++ b0 ++ []) ++ d). split; [by rewrite app_nil_r, !app_assoc|]. apply w_close_app. give_ints. }
  destruct (decide (NGX_QUIC_FT_STREAM <= ty <= NGX_QUIC_FT_STREAM7)) as [Hty|_].
  { intros H. take_int. by apply (stream_rest_inv lv ty v b q). }
  destruct (decide (ty = NGX_QUIC_FT_MAX_DATA)) as [->|_].
  { intros H. take_int. injection H as <- <-. exists (b ++ []). split; [by rewrite app_nil_r|]. constructor. give_ints. }
  destruct (decide (ty = NGX_QUIC_FT_RESET_STREAM)) as [->|_].
  { intros H. do 3 take_int. injection H as <- <-. exists (b ++ b0 ++ b1 ++ []). split; [by rewrite app_nil_r, !app_assoc|].
    constructor. give_ints. }
  destruct (decide (ty = NGX_QUIC_FT_STOP_SENDING)) as [->|_].
  { intros H. do 2 take_int. injection H as <- <-. exists (b ++ b0 ++ []). split; [by rewrite app_nil_r, !app_assoc|].
    constructor. give_ints. }
  destruct (decide (ty = NGX_QUIC_FT_STREAMS_BLOCKED \/ ty = NGX_QUIC_FT_STREAMS_BLOCKED2)) as [Hty|_].
  { intros H. take_int. destruct (decide _) as [|Hlim]; [done|]. injection H as <- <-. exists (b ++ []).
    split; [by rewrite app_nil_r|]. destruct Hty as [-> | ->].
    - apply (w_streams_blocked lv true); [give_ints|lia].
    - apply (w_streams_blocked lv false); [give_ints|lia]. }
  destruct (decide (ty = NGX_QUIC_FT_MAX_STREAMS \/ ty = NGX_QUIC_FT_MAX_STREAMS2)) as [Hty|_].
  { intros H. take_int. destruct (decide _) as [|Hlim]; [done|]. injection H as <- <-. exists (b ++ []).
    split; [by rewrite app_nil_r|]. destruct Hty as [-> | ->].
    - apply (w_max_streams lv true); [give_ints|lia].
    - apply (w_max_streams lv false); [give_ints|lia]. }
  destruct (decide (ty = NGX_QUIC_FT_MAX_STREAM_DATA)) as [->|_].
  { intros H. do 2 take_int. injection H as <- <-. exists (b ++ b0 ++ []). split; [by rewrite app_nil_r, !app_assoc|].
    constructor. give_ints. }
  destruct (decide (ty = NGX_QUIC_FT_DATA_BLOCKED)) as [->|_].
  { intros H. take_int. injection H as <- <-. exists (b ++ []). split; [by rewrite app_nil_r|]. constructor. give_ints. }
  destruct (decide (ty = NGX_QUIC_FT_STREAM_DATA_BLOCKED)) as [->|_].
  { intros H. do 2 take_int. injection H as <- <-. exists (b ++ b0 ++ []). split; [by rewrite app_nil_r, !app_assoc|].
    constructor. give_ints. }
  destruct (decide (ty = NGX_QUIC_FT_PATH_CHALLENGE)) as [->|_].
  { intros H. apply field_inv in H as (d & q & E & H). apply read_bytes_inv in E as [-> El]; [|done].
    injection H as <- <-. exists d. split; [done|]. constructor. lia. }
  destruct (decide (ty = NGX_QUIC_FT_PATH_RESPONSE)) as [->|_].
  { intros H. apply field_inv in H as (d & q & E & H). apply read_bytes_inv in E as [-> El]; [|done].
    injection H as <- <-. exists d. split; [done|]. constructor. lia. }
  done.
Qed.

(** ** The whole parser *)

Lemma parse_frame_wire flags lv f bs r : frame_wire flags lv f bs r -> ngx_quic_parse_frame flags lv (bs ++ r) = Parsed f r.
Proof.
  intros (ty & tb & body & -> & W & A & B). unfold ngx_quic_parse_frame.
  rewrite <- app_assoc, (field_app _ _ _ _ (parse_int_wire _ _ _ W)).
  rewrite decide_False by (destruct B; try destruct off; try destruct len; try destruct fin; try destruct bidi; done).
  unfold allowed in A. rewrite A. by apply parse_body_wire.
Qed.

Lemma allowed_defined flags ty : 0 <= ty <= NGX_QUIC_FT_LAST -> is_Some (ngx_quic_frame_allowed flags ty).
Proof.
  intros H. unfold ngx_quic_frame_allowed. destruct (rd_in_range frame_masks ty) as [m ->]; [by cbn; unfold NGX_QUIC_FT_LAST, NGX_QUIC_FT_HANDSHAKE_DONE in H; lia|].
  by eexists.
Qed.

Lemma allowed_server flags ty : allowed flags ty -> ty <> NGX_QUIC_FT_NEW_TOKEN /\ ty <> NGX_QUIC_FT_HANDSHAKE_DONE.
Proof.
  assert (K : forall n, rd frame_masks n = Some 0 -> ~ allowed flags n).
  { intros n E H. unfold allowed, ngx_quic_frame_allowed in H. rewrite E in H. cbn in H. by rewrite Z.land_0_r in H. }
  intros H. split; intros ->; (eapply K; [|exact H]; reflexivity).
Qed.

Ltac unfold_types :=
  unfold NGX_QUIC_FT_LAST in *;
  unfold NGX_QUIC_FT_PADDING, NGX_QUIC_FT_PING, NGX_QUIC_FT_ACK, NGX_QUIC_FT_ACK_ECN, NGX_QUIC_FT_RESET_STREAM,
    NGX_QUIC_FT_STOP_SENDING, NGX_QUIC_FT_CRYPTO, NGX_QUIC_FT_NEW_TOKEN, NGX_QUIC_FT_STREAM, NGX_QUIC_FT_STREAM7,
    NGX_QUIC_FT_MAX_DATA, NGX_QUIC_FT_MAX_STREAM_DATA, NGX_QUIC_FT_MAX_STREAMS, NGX_QUIC_FT_MAX_STREAMS2,
    NGX_QUIC_FT_DATA_BLOCKED, NGX_QUIC_FT_STREAM_DATA_BLOCKED, NGX_QUIC_FT_STREAMS_BLOCKED,
    NGX_QUIC_FT_STREAMS_BLOCKED2, NGX_QUIC_FT_NEW_CONNECTION_ID, NGX_QUIC_FT_RETIRE_CONNECTION_ID,
    NGX_QUIC_FT_PATH_CHALLENGE, NGX_QUIC_FT_PATH_RESPONSE, NGX_QUIC_FT_CONNECTION_CLOSE,
    NGX_QUIC_FT_CONNECTION_CLOSE_APP, NGX_QUIC_FT_HANDSHAKE_DONE in *.

(** A frame or the one error of the parser of a known type. *)
Definition frame_or_error (res : parsed) : Prop := res = encoding_error \/ exists f r, res = Parsed f r.

Lemma field_or_error {A} (x : option (A * list Z)) k : (forall v q, frame_or_error (k v q)) -> frame_or_error (field x k).
Proof. destruct x as [[v q]|]; intros H; [apply H|by left]. Qed.

Lemma parse_body_or_error lv ty p : 0 <= ty <= NGX_QUIC_FT_LAST -> ty <> NGX_QUIC_FT_NEW_TOKEN ->
  ty <> NGX_QUIC_FT_HANDSHAKE_DONE -> frame_or_error (parse_body lv ty p).
Proof.
  intros Hty H1 H2. unfold parse_body. cbv zeta.
  repeat first [apply field_or_error; intros ? ? | by right; eexists _, _ | by left | case_decide].
  unfold_types. lia.
Qed.

(** C25: the parser of frames. A result is a frame exactly if the bytes begin with one
    of the grammar whose type the packet allows, and the result is that frame and
    the bytes after it; otherwise the code of the error is PROTOCOL_VIOLATION if
    there is a known type that the packet does not allow, and FRAME_ENCODING_ERROR if
    not. The table of permissions is never read outside of its bounds, and the
    case of an unknown type after the table is never reached. *)
Theorem quic_frame_exact flags lv p : bytes p ->
  match ngx_quic_parse_frame flags lv p with
  | Parsed f r => exists bs, p = bs ++ r /\ frame_wire flags lv f bs r
  | Error e => (forall f bs r, p = bs ++ r -> ~ frame_wire flags lv f bs r) /\
      e = Some (match ngx_quic_parse_int p with
                | Some (ty, _) =>
                    if decide (ty <= NGX_QUIC_FT_LAST /\ ~ allowed flags ty) then NGX_QUIC_ERR_PROTOCOL_VIOLATION
                    else NGX_QUIC_ERR_FRAME_ENCODING_ERROR
                | None => NGX_QUIC_ERR_FRAME_ENCODING_ERROR
                end)
  | OutOfTable => False
  end.
Proof.
  intros Hp.
  assert (K : forall e, ngx_quic_parse_frame flags lv p = Error e ->
    forall f bs r, p = bs ++ r -> ~ frame_wire flags lv f bs r).
  { intros e E f bs r -> W. apply parse_frame_wire in W. by rewrite W in E. }
  destruct (ngx_quic_parse_frame flags lv p) as [f r|e|] eqn:E.
  - unfold ngx_quic_parse_frame in E. take_int. destruct (decide (v > NGX_QUIC_FT_LAST)); [done|].
    destruct (ngx_quic_frame_allowed flags v) as [[]|] eqn:A; [|done..].
    destruct (parse_body_inv lv v q f r Hp E) as (body & -> & B). exists (b ++ body).
    split; [by rewrite app_assoc|]. by exists v, b, body.
  - split; [by apply (K e)|]. unfold ngx_quic_parse_frame in E.
    destruct (ngx_quic_parse_int p) as [[ty q]|] eqn:Ep; cbn [field] in E; [|by injection E as <-].
    destruct (parse_int_inv p ty q Hp Ep) as (tb & _ & W). apply int_wire_nonneg in W.
    destruct (decide (ty > NGX_QUIC_FT_LAST)); [injection E as <-; rewrite decide_False by lia; done|].
    destruct (ngx_quic_frame_allowed flags ty) as [[]|] eqn:A; [|injection E as <-|done].
    + rewrite decide_False by (intros [_ H]; by apply H). destruct (allowed_server flags ty A) as [H1 H2].
      destruct (parse_body_or_error lv ty q ltac:(lia) H1 H2) as [Eb|(f & r & Eb)]; rewrite Eb in E; [|done].
      by injection E as <-.
    + rewrite decide_True; [done|]. split; [lia|]. unfold allowed. by rewrite A.
  - unfold ngx_quic_parse_frame in E. destruct (ngx_quic_parse_int p) as [[ty q]|] eqn:Ep; cbn [field] in E; [|done].
    destruct (parse_int_inv p ty q Hp Ep) as (tb & _ & W). apply int_wire_nonneg in W.
    destruct (decide (ty > NGX_QUIC_FT_LAST)); [done|].
    destruct (allowed_defined flags ty ltac:(lia)) as [b A]. rewrite A in E. destruct b; [|done].
    destruct (allowed_server flags ty A) as [H1 H2].
    destruct (parse_body_or_error lv ty q ltac:(lia) H1 H2) as [Eb|(f & r & Eb)]; by rewrite Eb in E.
Qed.

(** ** Well-formed frames *)

Definition int62 (v : Z) : Prop := 0 <= v < 2 ^ 62.

(** The data of the chain as the bytes of [n] integers. *)
Definition range_data (n : Z) (data : list Z) : Prop := exists ranges, ints ranges data /\ Z.of_nat (length ranges) = n.

(** A frame whose union is the one of its type, with lengths that are the ones of the data and values in
    their ranges. *)
Definition typed (f : frame) : Prop :=
  let ty := f_type f in
  let data := concat (f_data f) in
  let n := Z.of_nat (length data) in
  bytes data /\
  match f_u f with
  | u_none => ty = NGX_QUIC_FT_PADDING \/ ty = NGX_QUIC_FT_PING \/ ty = NGX_QUIC_FT_HANDSHAKE_DONE
  | u_ack largest delay range_count first_range ect0 ect1 ce ranges_length =>
      (ty = NGX_QUIC_FT_ACK /\ ect0 = 0 /\ ect1 = 0 /\ ce = 0 \/ ty = NGX_QUIC_FT_ACK_ECN) /\
      Forall int62 [largest; delay; range_count; first_range; ect0; ect1; ce] /\
      range_data (2 * range_count) data /\ ranges_length = n
  | u_crypto offset length => ty = NGX_QUIC_FT_CRYPTO /\ Forall int62 [offset; length] /\ length = n
  | u_ncid seqnum retire len cid srt =>
      ty = NGX_QUIC_FT_NEW_CONNECTION_ID /\ Forall int62 [seqnum; retire] /\ retire <= seqnum /\
      1 <= len <= NGX_QUIC_CID_LEN_MAX /\ Z.of_nat (length cid) = len /\
      Z.of_nat (length srt) = NGX_QUIC_SR_TOKEN_LEN /\ bytes cid /\ bytes srt
  | u_token length => ty = NGX_QUIC_FT_NEW_TOKEN /\ int62 length /\ length = n
  | u_stream offset length stream_id off len fin =>
      ty = NGX_QUIC_FT_STREAM /\ Forall int62 [offset; stream_id] /\ length = n /\ (len = true -> int62 length) /\
      (off = false -> offset = 0)
  | u_max_data v => ty = NGX_QUIC_FT_MAX_DATA /\ int62 v
  | u_close error_code frame_type reason =>
      (ty = NGX_QUIC_FT_CONNECTION_CLOSE \/ ty = NGX_QUIC_FT_CONNECTION_CLOSE_APP /\ frame_type = 0) /\
      Forall int62 [error_code; frame_type; Z.of_nat (length reason)] /\ bytes reason
  | u_reset_stream id error_code final_size =>
      ty = NGX_QUIC_FT_RESET_STREAM /\ Forall int62 [id; error_code; final_size]
  | u_stop_sending id error_code => ty = NGX_QUIC_FT_STOP_SENDING /\ Forall int62 [id; error_code]
  | u_streams_blocked limit bidi =>
      ty = (if bidi then NGX_QUIC_FT_STREAMS_BLOCKED else NGX_QUIC_FT_STREAMS_BLOCKED2) /\ 0 <= limit <= 2 ^ 60
  | u_max_streams limit bidi =>
      (ty = NGX_QUIC_FT_MAX_STREAMS \/ ty = NGX_QUIC_FT_MAX_STREAMS2 /\ bidi = false) /\ 0 <= limit <= 2 ^ 60
  | u_max_stream_data id limit => ty = NGX_QUIC_FT_MAX_STREAM_DATA /\ Forall int62 [id; limit]
  | u_data_blocked v => ty = NGX_QUIC_FT_DATA_BLOCKED /\ int62 v
  | u_stream_data_blocked id limit => ty = NGX_QUIC_FT_STREAM_DATA_BLOCKED /\ Forall int62 [id; limit]
  | u_retire_cid v => ty = NGX_QUIC_FT_RETIRE_CONNECTION_ID /\ int62 v
  | u_path_challenge data => ty = NGX_QUIC_FT_PATH_CHALLENGE /\ length data = 8%nat /\ bytes data
  | u_path_response data => ty = NGX_QUIC_FT_PATH_RESPONSE /\ length data = 8%nat /\ bytes data
  end.

Lemma ints_62 vs bs : ints vs bs -> Forall int62 vs /\ bytes bs.
Proof.
  induction 1 as [|v vs b bs W _ [IH1 IH2]]; [by repeat constructor|]. apply int_wire_range in W as (Hv & Hb & _).
  split; [by constructor|]. by apply Forall_app.
Qed.

Ltac ints62 :=
  repeat match goal with
    | H : ints _ _ |- _ => apply ints_62 in H as [H _]; repeat apply List.Forall_cons_iff in H as [? H]
    end.

Lemma body_wire_typed lv ty f bs r : bytes bs -> body_wire lv ty f bs r -> typed f.
Proof.
  intros Hb W. destruct W; unfold typed; cbn [f_type f_data f_u concat]; rewrite ?app_nil_r;
    repeat match goal with H : bytes (_ ++ _) |- _ => apply Forall_app in H as [? H] end.
  all: try match goal with H : ints ?ranges ?rs, H0 : Z.of_nat (length ?ranges) = _ |- context [range_data] =>
         assert (range_data (2 * count) rs) by (by exists ranges) end.
  all: repeat match goal with b : bool |- _ => destruct b end; cbn [app] in *.
  all: ints62.
  all: repeat match goal with H : bytes (_ :: _) |- _ => apply List.Forall_cons_iff in H as [? H] end.
  all: repeat match goal with H : bytes (_ ++ _) |- _ => apply Forall_app in H as [? H] end.
  all: repeat match goal with |- _ /\ _ => split end; try done; try (by repeat constructor); try lia; try (by auto).
  all: repeat match goal with H : ?b = ?b -> _ |- _ => specialize (H eq_refl) end.
  all: try (repeat (constructor; [unfold int62 in *; (assumption || lia)|]); constructor).
  all: unfold int62, NGX_QUIC_CID_LEN_MAX, NGX_QUIC_SR_TOKEN_LEN in *; lia.
Qed.

(** The type on the wire. *)
Definition wire_type (f : frame) : Z :=
  match f_u f with
  | u_stream _ _ _ off len fin => 8 + (if off then 4 else 0) + (if len then 2 else 0) + (if fin then 1 else 0)
  | u_max_streams _ bidi => if bidi then NGX_QUIC_FT_MAX_STREAMS else NGX_QUIC_FT_MAX_STREAMS2
  | _ => f_type f
  end.

(** The frame as the parser leaves it: the data in one buffer, the type of a limit of
    unidirectional streams. *)
Definition as_parsed (f : frame) : frame :=
  Frame (match f_u f with u_max_streams _ _ => wire_type f | _ => f_type f end) (f_level f)
    (match f_u f with
     | u_ack _ _ _ _ _ _ _ _ | u_crypto _ _ | u_stream _ _ _ _ _ _ => [concat (f_data f)]
     | _ => []
     end) (f_u f).

(** Whether the end of the packet is the end of the frame. *)
Definition to_packet_end (f : frame) : bool := match f_u f with u_stream _ _ _ _ false _ => true | _ => false end.

Lemma create_stream_type (off len fin : bool) :
  (let ty := NGX_QUIC_FT_STREAM in
   let ty := if off then Z.lor ty NGX_QUIC_STREAM_FRAME_OFF else ty in
   let ty := if len then Z.lor ty NGX_QUIC_STREAM_FRAME_LEN else ty in
   if fin then Z.lor ty NGX_QUIC_STREAM_FRAME_FIN else ty) =
  8 + (if off then 4 else 0) + (if len then 2 else 0) + (if fin then 1 else 0).
Proof. by destruct off, len, fin. Qed.

(** The shortest encodings of integers in a row. *)
Definition build_ints (vs : list Z) : list Z := concat (map ngx_quic_build_int vs).

Lemma build_ints_wire vs : Forall int62 vs -> ints vs (build_ints vs).
Proof. induction 1; cbn; constructor; [by apply build_int_wire|done]. Qed.

(** What is created is the type and a body of the grammar. *)
Lemma create_frame_wire f need n bs r : typed f -> ngx_quic_create_frame f = Some (need, (n, bs)) ->
  f_type f <> NGX_QUIC_FT_NEW_TOKEN -> f_type f <> NGX_QUIC_FT_HANDSHAKE_DONE -> (to_packet_end f = true -> r = []) ->
  exists body, bs = ngx_quic_build_int (wire_type f) ++ body /\ body_wire (f_level f) (wire_type f) (as_parsed f) body r.
Proof.
  destruct f as [ty lv data u]. unfold typed, ngx_quic_create_frame. cbn [f_type f_level f_data f_u].
  intros [Hb Ht] Hc Hn1 Hn2 Hr.
  destruct u; repeat match type of Hc with (if decide ?P then _ else _) = _ => destruct (decide P) end; try done;
    injection Hc as <- <- <-; unfold wire_type, as_parsed; cbn [f_type f_level f_data f_u].
  - subst ty. exists []. split; [done|constructor].
  - destruct Ht as ([(_ & -> & -> & ->)|?] & Hi & (ranges & Hr1 & Hr2) & ->); [|by subst ty]. subst ty.
    exists (build_ints [largest; delay; range_count; first_range] ++ concat data).
    split; [cbn; by rewrite !app_nil_r, <- !app_assoc|].
    eapply w_ack; [apply build_ints_wire|exact Hr1|done].
    by apply (Forall_take _ 4%nat) in Hi.
  - destruct Ht as (_ & Hi & ->). subst ty. exists (build_ints [offset; Z.of_nat (length (concat data))] ++ concat data).
    split; [cbn; by rewrite !app_nil_r, <- !app_assoc|]. apply w_crypto. by apply build_ints_wire.
  - destruct Ht as (_ & Hi & Hre & Hl & <- & Hs & _). subst ty.
    exists (build_ints [seqnum; retire] ++ Z.of_nat (length cid) :: cid ++ srt).
    rewrite Nat2Z.id, take_ge by lia. split; [cbn; by rewrite !app_nil_r, <- !app_assoc|].
    unfold NGX_QUIC_CID_LEN_MAX, NGX_QUIC_SR_TOKEN_LEN in *. apply w_ncid; [by apply build_ints_wire|lia..].
  - destruct Ht as (_ & Hi & -> & Hlen & Hoff). subst ty.
    pose proof (create_stream_type off len fin) as E. cbv zeta in E. rewrite E.
    exists (build_ints (stream_id :: (if off then [offset] else []) ++
              (if len then [Z.of_nat (length (concat data))] else [])) ++ concat data).
    split; [by destruct off, len; cbn; rewrite !app_nil_r, <- ?app_assoc|].
    apply w_stream; [|done|intros ->; by apply Hr]. apply build_ints_wire.
    apply List.Forall_cons_iff in Hi as [? Hi]. apply List.Forall_cons_iff in Hi as [? _].
    constructor; [done|]. apply Forall_app. split; [destruct off; [constructor; [done|constructor]|constructor]|].
    destruct len; [constructor; [by apply Hlen|constructor]|constructor].
  - destruct Ht as [_ Hi]. subst ty. exists (build_ints [max_data]). split; [cbn; by rewrite app_nil_r|].
    constructor. apply build_ints_wire. repeat (constructor; [assumption|]). constructor.
  - destruct Ht as (Hty & Hi & _). repeat apply List.Forall_cons_iff in Hi as [? Hi].
    destruct Hty as [-> | [-> ->]]; cbn [bool_decide].
    + rewrite bool_decide_eq_false_2 by done.
      exists (build_ints [error_code; frame_type; Z.of_nat (length reason)] ++ reason).
      split; [cbn; by rewrite !app_nil_r, <- !app_assoc|]. apply w_close. apply build_ints_wire. repeat (constructor; [assumption|]). constructor.
    + rewrite bool_decide_eq_true_2 by done. exists (build_ints [error_code; Z.of_nat (length reason)] ++ reason).
      split; [cbn; by rewrite !app_nil_r, <- !app_assoc|]. apply w_close_app. apply build_ints_wire. repeat (constructor; [assumption|]). constructor.
  - destruct Ht as [_ Hi]. subst ty. exists (build_ints [id; error_code; final_size]).
    split; [cbn; by rewrite app_nil_r|]. constructor. by apply build_ints_wire.
  - destruct Ht as [_ Hi]. subst ty. exists (build_ints [id; error_code]).
    split; [cbn; by rewrite app_nil_r|]. constructor. by apply build_ints_wire.
  - destruct Ht as [_ Hi]. exists (build_ints [limit]). split; [cbn; by rewrite app_nil_r|].
    apply (w_max_streams lv bidi); [|lia]. apply build_ints_wire. constructor; [unfold int62; lia|constructor].
  - destruct Ht as [_ Hi]. subst ty. exists (build_ints [id; limit]).
    split; [cbn; by rewrite app_nil_r|]. constructor. by apply build_ints_wire.
  - destruct Ht as [_ Hi]. subst ty. exists (build_ints [sequence_number]). split; [cbn; by rewrite app_nil_r|].
    constructor. apply build_ints_wire. repeat (constructor; [assumption|]). constructor.
  - destruct Ht as (_ & Hl & _). subst ty. exists data0. split; [done|]. by constructor.
  - destruct Ht as (_ & Hl & _). subst ty. exists data0. split; [done|]. by constructor.
Qed.

(** The length that a writer announces is the one of what it writes. *)
Lemma create_frame_length f need n bs : typed f -> ngx_quic_create_frame f = Some (need, (n, bs)) ->
  n = Z.of_nat (length bs).
Proof.
  destruct f as [ty lv data u]. unfold typed, ngx_quic_create_frame. cbn [f_type f_level f_data f_u].
  intros [_ Ht] Hc.
  destruct u; repeat match type of Hc with (if decide ?P then _ else _) = _ => destruct (decide P) end; try done;
    injection Hc as _ <- <-;
    repeat match goal with |- context [if ?b then _ else _] => destruct b end;
    rewrite ?length_app, ?length_cons, ?length_app, ?length_nil, ?length_take;
    rewrite ?Nat2Z.inj_add, ?Nat2Z.inj_succ, ?Nat2Z.inj_add, ?length_build_int;
    repeat match goal with |- context [int_len ?c] => change (int_len c) with 1 end;
    cbn [Datatypes.length app]; rewrite ?length_app, ?length_take;
    unfold NGX_QUIC_CID_LEN_MAX, NGX_QUIC_SR_TOKEN_LEN in *; lia.
Qed.

(** C26: what the parser returns is well-formed: the members of the union are the ones of the
    type, every integer is below 2^62, the lengths are the lengths of the data, the
    chain of an acknowledgement holds exactly twice as many integers as it has ranges, limits of streams
    are at most 2^60, connection ids have 1 to 20 bytes and the challenges have 8; and
    the parser consumes a byte at least, so that the loop over the payload of a packet ends. *)
Theorem quic_frame_typed flags lv p f r : bytes p -> ngx_quic_parse_frame flags lv p = Parsed f r ->
  typed f /\ f_level f = lv /\ exists bs, p = bs ++ r /\ bs <> [].
Proof.
  intros Hp E. unfold ngx_quic_parse_frame in E. take_int.
  destruct (decide (v > NGX_QUIC_FT_LAST)); [done|].
  destruct (ngx_quic_frame_allowed flags v) as [[]|]; [|done..].
  destruct (parse_body_inv lv v q f r Hp E) as (body & -> & B). apply Forall_app in Hp as [Hb _].
  split; [by eapply body_wire_typed|]. split; [by destruct B|].
  exists (b ++ body). split; [by rewrite app_assoc|]. apply int_wire_range in W as (_ & _ & Hl).
  destruct b; [cbn in Hl; lia|done].
Qed.

Lemma create_parse_frame flags f need n bs r : typed f -> ngx_quic_create_frame f = Some (need, (n, bs)) ->
  allowed flags (wire_type f) -> (to_packet_end f = true -> r = []) ->
  n = Z.of_nat (length bs) /\ ngx_quic_parse_frame flags (f_level f) (bs ++ r) = Parsed (as_parsed f) r.
Proof.
  intros Ht Hc A Hr. split; [by eapply create_frame_length|]. apply parse_frame_wire.
  destruct (allowed_server _ _ A) as [H1 H2].
  assert (f_type f <> NGX_QUIC_FT_NEW_TOKEN /\ f_type f <> NGX_QUIC_FT_HANDSHAKE_DONE) as [H3 H4].
  { destruct f as [ty lv data u]. unfold typed, wire_type in *. cbn in *. destruct Ht as [_ Ht].
    destruct u; try done; destruct Ht as [Ht _]; unfold_types; lia. }
  destruct (create_frame_wire f need n bs r Ht Hc H3 H4 Hr) as (body & -> & B).
  exists (wire_type f), (ngx_quic_build_int (wire_type f)), body. split; [done|].
  split; [|done]. apply build_int_wire.
  destruct f as [ty lv data u]. unfold typed, wire_type in *. cbn in *. destruct Ht as [_ Ht].
  destruct u; repeat match goal with b : bool |- _ => destruct b end; try (destruct Ht as [Ht _]); unfold_types; lia.
Qed.

(** A frame that the server creates is read back. The length computed with a NULL
    buffer is the one of the bytes written, and the parser, in a packet that may carry the type,
    takes exactly these bytes and returns the frame, with the data of the
    chain in one buffer and the type of a limit of unidirectional streams as it is on the wire. A stream frame
    without a length must be the last of its packet. *)
Theorem quic_frame_roundtrip flags f need n bs r : typed f -> ngx_quic_create_frame f = Some (need, (n, bs)) ->
  allowed flags (wire_type f) -> (to_packet_end f = true -> r = []) ->
  n = Z.of_nat (length bs) /\ ngx_quic_parse_frame flags (f_level f) (bs ++ r) = Parsed (as_parsed f) r.
Proof. apply create_parse_frame. Qed.

(** ** Witnesses *)

Definition stream_bytes : list Z := [0x0d; 4; 0x40; 9; 7; 8].
Definition stream_frame : frame := Frame NGX_QUIC_FT_STREAM 3 [[7]; [8]] (u_stream 9 2 4 true false true).

Lemma stream_bytes_ok : bytes stream_bytes.
Proof. repeat (constructor; [by split|]). constructor. Qed.

Lemma quic_frame_exact_witness : bytes stream_bytes /\ exists f bs, stream_bytes = bs ++ [] /\ frame_wire 0x40 3 f bs [].
Proof.
  split; [exact stream_bytes_ok|]. pose proof (quic_frame_exact 0x40 3 stream_bytes stream_bytes_ok) as H.
  destruct (ngx_quic_parse_frame 0x40 3 stream_bytes) as [f r| |] eqn:E; vm_compute in E; [|discriminate..].
  injection E as <- <-. eexists. exact H.
Defined.

Lemma quic_frame_typed_witness : exists f, ngx_quic_parse_frame 0x40 3 stream_bytes = Parsed f [] /\ typed f.
Proof.
  exists (Frame NGX_QUIC_FT_STREAM 3 [[7; 8]] (u_stream 9 2 4 true false true)). split; [vm_compute; reflexivity|].
  refine (proj1 (quic_frame_typed 0x40 3 stream_bytes _ [] stream_bytes_ok _)). vm_compute. reflexivity.
Defined.

Lemma quic_frame_roundtrip_witness : exists n bs, ngx_quic_create_frame stream_frame = Some (true, (n, bs)) /\
  ngx_quic_parse_frame 0x40 3 (bs ++ []) = Parsed (as_parsed stream_frame) [].
Proof.
  eexists _, _. split; [reflexivity|].
  refine (proj2 (quic_frame_roundtrip 0x40 stream_frame true _ _ [] _ eq_refl _ _)).
  - split; [repeat (constructor; [by split|]); constructor|]. cbn. split; [done|].
    split; [repeat (constructor; [by split|]); constructor|]. done.
  - vm_compute. reflexivity.
  - done.
Defined.
