(* ===== verification/QuicAck.v ===== *)
(** * QUIC acknowledgements: event/quic/ngx_event_quic_ack.c, ngx_event_quic_output.c

    The packet numbers that a packet number space has received, kept as a
    largest number, a first range and an array of at most ten gaps and ranges; the
    frame that acknowledges them; what a received ACK frame does to the queue
    of sent frames. *)

From S2P Require Import Prelude NgxString Inet QuicFrame.
From stdpp Require Import list relations.
From Stdlib Require Import Sorted.

Open Scope Z_scope.

(** ** Definitions *)

Definition NGX_QUIC_UNSET_PN : Z := u64 (-1).
Definition NGX_TIMER_INFINITE : Z := u64 (-1).
Definition NGX_QUIC_MAX_RANGES : Z := 10.
Definition NGX_QUIC_MAX_ACK_GAP : Z := 2.
Definition NGX_QUIC_BUFFER_SIZE : Z := 4096.
Definition NGX_QUIC_ENCRYPTION_APPLICATION : Z := 3.

(** [ngx_quic_ack_range_t] *)
Record ack_range := Range { r_gap : Z; r_range : Z }.

(** A frame in a queue of a context: the fields of [ngx_quic_frame_t] beside the ones of [frame]. *)
Record queued := Queued { q_frame : frame; q_len : Z; q_pnum : Z; q_plen : Z; q_send_time : Z }.

(** [ngx_quic_send_ctx_t], without the crypto stream and the numbers of received packets. *)
Record send_ctx := SendCtx {
  level : Z;
  pnum : Z;
  largest_ack : Z;
  frames : list queued;
  sent : list queued;
  pending_ack : Z;
  largest_range : Z;
  first_range : Z;
  largest_received : Z;
  ack_delay_start : Z;
  nranges : Z;
  ranges : list ack_range;
  send_ack : Z
}.

(** The part of [ngx_quic_connection_t] that acknowledgements use: the length of the
    list of free frames, the number of frames and its limit, [closing], the push event
    in the queue of posted events, its timer, the error to report and [pto_count]. *)
Record conn := Conn {
  free_frames : nat;
  nframes : Z;
  max_frames : Z;
  closing : bool;
  push_posted : bool;
  push_timer : option Z;
  qerror : Z;
  pto_count : Z
}.

(** [qc->tp.max_ack_delay], [qc->tp.ack_delay_exponent] *)
Record tparams := TParams { max_ack_delay : Z; ack_delay_exponent : Z }.

Definition set_frames (v : list queued) (c : send_ctx) : send_ctx :=
  SendCtx (level c) (pnum c) (largest_ack c) v (sent c) (pending_ack c) (largest_range c) (first_range c)
    (largest_received c) (ack_delay_start c) (nranges c) (ranges c) (send_ack c).
Definition set_sent (v : list queued) (c : send_ctx) : send_ctx :=
  SendCtx (level c) (pnum c) (largest_ack c) (frames c) v (pending_ack c) (largest_range c) (first_range c)
    (largest_received c) (ack_delay_start c) (nranges c) (ranges c) (send_ack c).
Definition set_largest_ack (v : Z) (c : send_ctx) : send_ctx :=
  SendCtx (level c) (pnum c) v (frames c) (sent c) (pending_ack c) (largest_range c) (first_range c)
    (largest_received c) (ack_delay_start c) (nranges c) (ranges c) (send_ack c).
Definition set_pending (v : Z) (c : send_ctx) : send_ctx :=
  SendCtx (level c) (pnum c) (largest_ack c) (frames c) (sent c) v (largest_range c) (first_range c)
    (largest_received c) (ack_delay_start c) (nranges c) (ranges c) (send_ack c).
Definition set_largest (v : Z) (c : send_ctx) : send_ctx :=
  SendCtx (level c) (pnum c) (largest_ack c) (frames c) (sent c) (pending_ack c) v (first_range c)
    (largest_received c) (ack_delay_start c) (nranges c) (ranges c) (send_ack c).
Definition set_first (v : Z) (c : send_ctx) : send_ctx :=
  SendCtx (level c) (pnum c) (largest_ack c) (frames c) (sent c) (pending_ack c) (largest_range c) v
    (largest_received c) (ack_delay_start c) (nranges c) (ranges c) (send_ack c).
Definition set_received (v : Z) (c : send_ctx) : send_ctx :=
  SendCtx (level c) (pnum c) (largest_ack c) (frames c) (sent c) (pending_ack c) (largest_range c) (first_range c)
    v (ack_delay_start c) (nranges c) (ranges c) (send_ack c).
Definition set_delay_start (v : Z) (c : send_ctx) : send_ctx :=
  SendCtx (level c) (pnum c) (largest_ack c) (frames c) (sent c) (pending_ack c) (largest_range c) (first_range c)
    (largest_received c) v (nranges c) (ranges c) (send_ack c).
Definition set_ranges (n : Z) (rs : list ack_range) (c : send_ctx) : send_ctx :=
  SendCtx (level c) (pnum c) (largest_ack c) (frames c) (sent c) (pending_ack c) (largest_range c) (first_range c)
    (largest_received c) (ack_delay_start c) n rs (send_ack c).
Definition set_send_ack (v : Z) (c : send_ctx) : send_ctx :=
  SendCtx (level c) (pnum c) (largest_ack c) (frames c) (sent c) (pending_ack c) (largest_range c) (first_range c)
    (largest_received c) (ack_delay_start c) (nranges c) (ranges c) v.

(** [ngx_post_event(&qc->push, &ngx_posted_events)] *)
Definition post_push (qc : conn) : conn :=
  Conn (free_frames qc) (nframes qc) (max_frames qc) (closing qc) true (push_timer qc) (qerror qc) (pto_count qc).
Definition set_push_timer (v : Z) (qc : conn) : conn :=
  Conn (free_frames qc) (nframes qc) (max_frames qc) (closing qc) (push_posted qc) (Some v) (qerror qc) (pto_count qc).
Definition set_error (v : Z) (qc : conn) : conn :=
  Conn (free_frames qc) (nframes qc) (max_frames qc) (closing qc) (push_posted qc) (push_timer qc) v (pto_count qc).
Definition set_pto_count (v : Z) (qc : conn) : conn :=
  Conn (free_frames qc) (nframes qc) (max_frames qc) (closing qc) (push_posted qc) (push_timer qc) (qerror qc) v.

(** *** Frames: ngx_event_quic_frames.c *)

(** [None] is the flood of frames; allocation from the pool is assumed to work. *)
Definition ngx_quic_alloc_frame (qc : conn) : option conn :=
  match free_frames qc with
  | S n => Some (Conn n (nframes qc) (max_frames qc) (closing qc) (push_posted qc) (push_timer qc) (qerror qc) (pto_count qc))
  | O =>
      if decide (nframes qc < max_frames qc) then
        Some (Conn O (nframes qc + 1) (max_frames qc) (closing qc) (push_posted qc) (push_timer qc) (qerror qc) (pto_count qc))
      else None
  end.

Definition ngx_quic_free_frame (qc : conn) : conn :=
  Conn (S (free_frames qc)) (nframes qc) (max_frames qc) (closing qc) (push_posted qc) (push_timer qc) (qerror qc) (pto_count qc).

(** [frame->len = ngx_quic_create_frame(NULL, frame)] of a new frame *)
Definition new_frame (f : frame) : queued :=
  Queued f (match ngx_quic_create_frame f with Some (_, (n, _)) => n | None => NGX_ERROR end) 0 0 0.

(** The context of the frame's level is [ctx]. *)
Definition ngx_quic_queue_frame (qc : conn) (ctx : send_ctx) (f : frame) : conn * send_ctx :=
  (if closing qc then qc else post_push qc, set_frames (frames ctx ++ [new_frame f]) ctx).

(** *** The acknowledgement frame *)

(** The loop over the ranges: the buffers of the chain and [ranges_length]; [None] is
    the NGX_ERROR of a range that does not fit in a buffer. *)
Fixpoint ack_chain (rs : list ack_range) (chain : list (list Z)) (ranges_length : Z) : option (list (list Z) * Z) :=
  match rs with
  | [] => Some (chain, ranges_length)
  | r :: rs =>
      let (len, bs) := ngx_quic_create_ack_range (r_gap r) (r_range r) in
      let left := match list.last chain with Some b => NGX_QUIC_BUFFER_SIZE - Z.of_nat (length b) | None => 0 end in
      let full := bool_decide (left < len) in
      let (init, b) := if full then (chain, []) else (removelast chain, List.last chain []) in
      let left := if full then NGX_QUIC_BUFFER_SIZE else left in
      if decide (left < len) then None
      else ack_chain rs (init ++ [b ++ bs]) (u64 (ranges_length + len))
  end.

(** The elements before [n] of the array; [None] is a read outside of it. *)
Definition upto (n : Z) (rs : list ack_range) : option (list ack_range) :=
  if decide (n <= Z.of_nat (length rs)) then Some (take (Z.to_nat n) rs) else None.

(** The result of an operation: the return code and the states; [None] is undefined behaviour. *)
Abbreviation result := (option (Z * conn * send_ctx)).

Definition ngx_quic_send_ack (now : Z) (tp : tparams) (qc : conn) (ctx : send_ctx) : result :=
  let ack_delay := u64 (now - largest_received ctx) in
  let ack_delay := u64 (ack_delay * 1000) in
  let ack_delay := Z.shiftr ack_delay (ack_delay_exponent tp) in
  match ngx_quic_alloc_frame qc with
  | None => Some (NGX_ERROR, qc, ctx)
  | Some qc =>
      rs ← upto (nranges ctx) (ranges ctx);
      match ack_chain rs [] 0 with
      | None => Some (NGX_ERROR, qc, ctx)
      | Some (chain, ranges_length) =>
          let f := Frame NGX_QUIC_FT_ACK (level ctx) chain
            (u_ack (largest_range ctx) ack_delay (nranges ctx) (first_range ctx) 0 0 0 ranges_length) in
          Some (NGX_OK, qc, set_frames (new_frame f :: frames ctx) ctx)
      end
  end.

Definition ngx_quic_send_ack_range (qc : conn) (ctx : send_ctx) (smallest largest : Z) : result :=
  match ngx_quic_alloc_frame qc with
  | None => Some (NGX_ERROR, qc, ctx)
  | Some qc =>
      let f := Frame NGX_QUIC_FT_ACK (level ctx) [] (u_ack largest 0 0 (u64 (largest - smallest)) 0 0 0 0) in
      let (qc, ctx) := ngx_quic_queue_frame qc ctx f in
      Some (NGX_OK, qc, ctx)
  end.

Definition ngx_quic_generate_ack (now : Z) (tp : tparams) (qc : conn) (ctx : send_ctx) : result :=
  if decide (send_ack ctx = 0) then Some (NGX_OK, qc, ctx)
  else
    let delay := u64 (now - ack_delay_start ctx) in
    if decide (level ctx = NGX_QUIC_ENCRYPTION_APPLICATION /\ frames ctx = [] /\
               send_ack ctx < NGX_QUIC_MAX_ACK_GAP /\ delay < max_ack_delay tp) then
      Some (NGX_OK,
            match push_timer qc with
            | None => if closing qc then qc else set_push_timer (max_ack_delay tp - delay) qc
            | Some _ => qc
            end, ctx)
    else
      '(rc, qc, ctx) ← ngx_quic_send_ack now tp qc ctx;
      if decide (rc <> NGX_OK) then Some (NGX_ERROR, qc, ctx) else Some (NGX_OK, qc, set_send_ack 0 ctx).

(** *** Received packets *)

(** [ngx_memmove(&ranges[dst], &ranges[src], n)] and [ranges[i] = v]; [None] is outside of the array. *)
Definition move_ranges (dst src n : nat) (rs : list ack_range) : option (list ack_range) :=
  if decide (dst + n <= length rs /\ src + n <= length rs)%nat then
    Some (take dst rs ++ take n (drop src rs) ++ drop (dst + n) rs)
  else None.

Definition store_range (i : nat) (v : ack_range) (rs : list ack_range) : option (list ack_range) :=
  if decide (i < length rs)%nat then Some (<[i := v]> rs) else None.

(** [first_range += d] for the range before the first of the array,
    [ranges[i - 1].range += d] for the others. *)
Definition grow (i : nat) (d : Z) (ctx : send_ctx) : option send_ctx :=
  match i with
  | O => Some (set_first (u64 (first_range ctx + d)) ctx)
  | S i =>
      r ← ranges ctx !! i;
      rs ← store_range i (Range (r_gap r) (u64 (r_range r + d))) (ranges ctx);
      Some (set_ranges (nranges ctx) rs ctx)
  end.

(** The label [insert]. *)
Definition insert_range (i : nat) (gap range : Z) (ctx : send_ctx) : option send_ctx :=
  let n := if decide (nranges ctx < NGX_QUIC_MAX_RANGES) then nranges ctx + 1 else nranges ctx in
  rs ← move_ranges (i + 1) i (Z.to_nat n - i - 1) (ranges ctx);
  rs ← store_range i (Range gap range) rs;
  Some (set_ranges n rs ctx).

(** Where the loop over the ranges ends: the number is in a range; it is in
    the gap before range [i], from [gs] to [ge]; it is below all of them. *)
Inductive place :=
  | Known
  | Within (i : nat) (r : ack_range) (gs ge : Z)
  | Below (smallest : Z).

(** [k] is the number of ranges that are left. *)
Fixpoint search (k i : nat) (smallest pn : Z) (rs : list ack_range) : option place :=
  match k with
  | O => Some (Below smallest)
  | S k =>
      r ← rs !! i;
      let ge := u64 (smallest - 1) in
      let gs := u64 (ge - r_gap r) in
      if decide (gs <= pn <= ge) then Some (Within i r gs ge)
      else
        let largest := u64 (smallest - r_gap r - 2) in
        let smallest := u64 (largest - r_range r) in
        if decide (smallest <= pn <= largest) then Some Known else search k (S i) smallest pn rs
  end.

(** What both calls for a new range do when there is no place for it. *)
Definition send_full (now : Z) (tp : tparams) (prev_pending : Z) (need_ack : bool) (qc : conn) (ctx : send_ctx) : result :=
  if decide (nranges ctx = NGX_QUIC_MAX_RANGES) then
    '(rc, qc, ctx) ← (if decide (prev_pending <> NGX_QUIC_UNSET_PN) then ngx_quic_send_ack now tp qc ctx
                      else Some (NGX_OK, qc, ctx));
    if decide (rc <> NGX_OK) then Some (NGX_ERROR, qc, ctx)
    else
      Some (NGX_OK, qc,
            if decide (prev_pending = pending_ack ctx \/ need_ack = false) then set_pending NGX_QUIC_UNSET_PN ctx else ctx)
  else Some (NGX_OK, qc, ctx).

(** The body of the loop for a number in the gap before range [i]. *)
Definition fill_gap (now : Z) (tp : tparams) (prev_pending pn : Z) (need_ack : bool) (i : nat) (r : ack_range)
    (gs ge : Z) (qc : conn) (ctx : send_ctx) : result :=
  if decide (gs = ge) then
    ctx ← grow i (r_range r + 2) ctx;
    let nr := (Z.to_nat (nranges ctx) - i - 1)%nat in
    rs ← (if decide (nr <> O) then move_ranges i (i + 1) nr (ranges ctx) else Some (ranges ctx));
    Some (NGX_OK, qc, set_ranges (nranges ctx - 1) rs ctx)
  else if decide (pn = gs) then
    rs ← store_range i (Range (u64 (r_gap r - 1)) (u64 (r_range r + 1))) (ranges ctx);
    Some (NGX_OK, qc, set_ranges (nranges ctx) rs ctx)
  else if decide (pn = ge) then
    rs ← store_range i (Range (u64 (r_gap r - 1)) (r_range r)) (ranges ctx);
    ctx ← grow i 1 (set_ranges (nranges ctx) rs ctx);
    Some (NGX_OK, qc, ctx)
  else
    let gap := u64 (ge - pn - 1) in
    '(rc, qc, ctx) ← send_full now tp prev_pending need_ack qc ctx;
    if decide (rc <> NGX_OK) then Some (NGX_ERROR, qc, ctx)
    else
      rs ← store_range i (Range (u64 (pn - gs - 1)) (r_range r)) (ranges ctx);
      ctx ← insert_range i gap 0 (set_ranges (nranges ctx) rs ctx);
      Some (NGX_OK, qc, ctx).

(** A new gap in front of the current largest number. *)
Definition new_front (now : Z) (tp : tparams) (prev_pending pn received : Z) (need_ack : bool) (qc : conn)
    (ctx : send_ctx) : result :=
  '(rc, qc, ctx) ← send_full now tp prev_pending need_ack qc ctx;
  if decide (rc <> NGX_OK) then Some (NGX_ERROR, qc, ctx)
  else
    let gap := u64 (pn - largest_range ctx - 2) in
    let range := first_range ctx in
    let ctx := set_received received (set_largest pn (set_first 0 ctx)) in
    let ctx := if need_ack then set_send_ack NGX_QUIC_MAX_ACK_GAP ctx else ctx in
    ctx ← insert_range 0 gap range ctx;
    Some (NGX_OK, qc, ctx).

(** The part of [ngx_quic_ack_packet] after the flags. *)
Definition record_packet (now : Z) (tp : tparams) (prev_pending pn received : Z) (need_ack : bool)
    (qc : conn) (ctx : send_ctx) : result :=
  let base := largest_range ctx in
  if decide (base = NGX_QUIC_UNSET_PN) then Some (NGX_OK, qc, set_received received (set_largest pn ctx))
  else if decide (base = pn) then Some (NGX_OK, qc, ctx)
  else
    let largest := base in
    let smallest := u64 (largest - first_range ctx) in
    if decide (pn > base) then
      if decide (u64 (pn - base) = 1) then
        Some (NGX_OK, qc, set_received received (set_largest pn (set_first (u64 (first_range ctx + 1)) ctx)))
      else new_front now tp prev_pending pn received need_ack qc ctx
    else
      let ctx := if need_ack then set_send_ack NGX_QUIC_MAX_ACK_GAP ctx else ctx in
      if decide (smallest <= pn <= largest) then Some (NGX_OK, qc, ctx)
      else
        p ← search (Z.to_nat (nranges ctx)) 0 smallest pn (ranges ctx);
        match p with
        | Known => Some (NGX_OK, qc, ctx)
        | Within i r gs ge => fill_gap now tp prev_pending pn need_ack i r gs ge qc ctx
        | Below smallest =>
            if decide (pn = u64 (smallest - 1)) then
              ctx ← grow (Z.to_nat (nranges ctx)) 1 ctx;
              Some (NGX_OK, qc, ctx)
            else if decide (nranges ctx = NGX_QUIC_MAX_RANGES) then
              if need_ack then ngx_quic_send_ack_range qc ctx pn pn else Some (NGX_OK, qc, ctx)
            else
              ctx ← insert_range (Z.to_nat (nranges ctx)) (u64 (smallest - 2 - pn)) 0 ctx;
              Some (NGX_OK, qc, ctx)
        end.

(** The flags of a packet that needs an acknowledgement. *)
Definition note_ack (now pn : Z) (ctx : send_ctx) : send_ctx :=
  let ctx := if decide (send_ack ctx = 0) then set_delay_start now ctx else ctx in
  let ctx := set_send_ack (u64 (send_ack ctx + 1)) ctx in
  if decide (pending_ack ctx = NGX_QUIC_UNSET_PN \/ pending_ack ctx < pn) then set_pending pn ctx else ctx.

(** [keys]: the write keys of the level are available. *)
Definition ngx_quic_ack_packet (now : Z) (tp : tparams) (keys : bool) (pn received : Z) (need_ack : bool)
    (qc : conn) (ctx : send_ctx) : result :=
  if negb keys then Some (NGX_OK, qc, ctx)
  else
    record_packet now tp (pending_ack ctx) pn received need_ack (if need_ack then post_push qc else qc)
      (if need_ack then note_ack now pn ctx else ctx).

(** The loop over the ranges, from range [i]. *)
Fixpoint drop_loop (k i : nat) (smallest pn : Z) (ctx : send_ctx) : option send_ctx :=
  match k with
  | O => Some ctx
  | S k =>
      r ← ranges ctx !! i;
      let largest := u64 (smallest - r_gap r - 2) in
      let smallest := u64 (largest - r_range r) in
      if decide (pn >= largest) then Some (set_ranges (Z.of_nat i) (ranges ctx) ctx)
      else if decide (pn >= smallest) then
        rs ← store_range i (Range (r_gap r) (u64 (largest - pn - 1))) (ranges ctx);
        Some (set_ranges (Z.of_nat i + 1) rs ctx)
      else drop_loop k (S i) smallest pn ctx
  end.

Definition ngx_quic_drop_ack_ranges (pn : Z) (ctx : send_ctx) : option send_ctx :=
  let base := largest_range ctx in
  if decide (base = NGX_QUIC_UNSET_PN) then Some ctx
  else
    let ctx :=
      if decide (pending_ack ctx <> NGX_QUIC_UNSET_PN /\ pn >= pending_ack ctx) then set_pending NGX_QUIC_UNSET_PN ctx
      else ctx in
    let largest := base in
    let smallest := u64 (largest - first_range ctx) in
    if decide (pn >= largest) then Some (set_ranges 0 (ranges ctx) (set_first 0 (set_largest NGX_QUIC_UNSET_PN ctx)))
    else if decide (pn >= smallest) then Some (set_ranges 0 (ranges ctx) (set_first (u64 (largest - pn - 1)) ctx))
    else drop_loop (Z.to_nat (nranges ctx)) 0 smallest pn ctx.

(** *** Received acknowledgements *)

(** [ngx_quic_ack_stat_t] *)
Record ack_stat := AckStat { max_pn : Z; oldest : Z; newest : Z }.

(** What the handler asks of the congestion controller, the streams, path discovery and
    loss detection, which have a state [W] of their own. *)
Class AckClient (W : Type) := {
  congestion_ack : W -> conn -> send_ctx -> queued -> W * conn;
  handle_stream_ack : W -> conn -> send_ctx -> queued -> W * conn * send_ctx;
  handle_path_mtu : W -> Z -> Z -> option W;
  rtt_sample : W -> frame_u -> Z -> W;
  detect_lost : W -> ack_stat -> conn -> send_ctx -> option (Z * W * conn * send_ctx)
}.

Section HandleAck.

Context {W : Type} `{AckClient W}.

(** The body of the loop for an acknowledged frame, before it is freed. *)
Definition acked (f : queued) (max : Z) (st : ack_stat) (w : W) (qc : conn) (ctx : send_ctx) :
    option (ack_stat * W * conn * send_ctx) :=
  let (w, qc) := congestion_ack w qc ctx f in
  '(w, qc, ctx) ←
    (let ty := f_type (q_frame f) in
     if decide (ty = NGX_QUIC_FT_ACK \/ ty = NGX_QUIC_FT_ACK_ECN) then
       match f_u (q_frame f) with
       | u_ack largest _ _ _ _ _ _ _ => ctx ← ngx_quic_drop_ack_ranges largest ctx; Some (w, qc, ctx)
       | _ => None
       end
     else if decide (ty = NGX_QUIC_FT_STREAM \/ ty = NGX_QUIC_FT_RESET_STREAM) then
       Some (handle_stream_ack w qc ctx f)
     else Some (w, qc, ctx));
  let t := q_send_time f in
  Some (AckStat (if decide (q_pnum f = max) then t else max_pn st)
          (if decide (oldest st = NGX_TIMER_INFINITE \/ t < oldest st) then t else oldest st)
          (if decide (newest st = NGX_TIMER_INFINITE \/ t > newest st) then t else newest st), w, qc, ctx).

(** The loop over the frames after [kept], which were passed over. *)
Fixpoint acked_loop (q kept : list queued) (min max : Z) (found : bool) (st : ack_stat) (w : W) (qc : conn)
    (ctx : send_ctx) : option (bool * ack_stat * W * conn * send_ctx) :=
  match q with
  | [] => Some (found, st, w, qc, ctx)
  | f :: q =>
      if decide (q_pnum f > max) then Some (found, st, w, qc, ctx)
      else if decide (q_pnum f >= min) then
        '(st, w, qc, ctx) ← acked f max st w qc ctx;
        acked_loop q kept min max true st w (ngx_quic_free_frame qc) (set_sent (kept ++ q) ctx)
      else acked_loop q (kept ++ [f]) min max found st w qc ctx
  end.

Definition ngx_quic_handle_ack_frame_range (min max : Z) (st : ack_stat) (w : W) (qc : conn) (ctx : send_ctx) :
    option (Z * ack_stat * W * conn * send_ctx) :=
  match (if decide (level ctx = NGX_QUIC_ENCRYPTION_APPLICATION) then handle_path_mtu w min max else Some w) with
  | None => Some (NGX_ERROR, st, w, qc, ctx)
  | Some w =>
      let st := AckStat NGX_TIMER_INFINITE (oldest st) (newest st) in
      '(found, st, w, qc, ctx) ← acked_loop (sent ctx) [] min max false st w qc ctx;
      if (found : bool) then
        Some (NGX_OK, st, w, set_pto_count 0 (match push_timer qc with None => post_push qc | Some _ => qc end), ctx)
      else if decide (max < pnum ctx) then Some (NGX_OK, st, w, qc, ctx)
      else Some (NGX_ERROR, st, w, set_error NGX_QUIC_ERR_PROTOCOL_VIOLATION qc, ctx)
  end.

(** The loop over [n] ranges; a range has two bytes or more. *)
Fixpoint ranges_loop (fuel : nat) (n min : Z) (pos : list Z) (st : ack_stat) (w : W) (qc : conn) (ctx : send_ctx) :
    option (Z * ack_stat * W * conn * send_ctx) :=
  match fuel with
  | O => None
  | S fuel =>
      if decide (n > 0) then
        match ngx_quic_parse_ack_range pos with
        | None => Some (NGX_ERROR, st, w, qc, ctx)
        | Some (gap, range, pos) =>
            if decide (u64 (gap + 2) > min) then
              Some (NGX_ERROR, st, w, set_error NGX_QUIC_ERR_FRAME_ENCODING_ERROR qc, ctx)
            else
              let max := u64 (min - gap - 2) in
              if decide (range > max) then
                Some (NGX_ERROR, st, w, set_error NGX_QUIC_ERR_FRAME_ENCODING_ERROR qc, ctx)
              else
                let min := u64 (max - range) in
                '(rc, st, w, qc, ctx) ← ngx_quic_handle_ack_frame_range min max st w qc ctx;
                if decide (rc <> NGX_OK) then Some (NGX_ERROR, st, w, qc, ctx)
                else ranges_loop fuel (n - 1) min pos st w qc ctx
        end
      else Some (NGX_OK, st, w, qc, ctx)
  end.

(** [ngx_quic_handle_ack_frame] before the detection of losses. *)
Definition handle_ranges (f : frame) (w : W) (qc : conn) (ctx : send_ctx) :
    option (Z * ack_stat * W * conn * send_ctx) :=
  match f_u f with
  | u_ack largest delay range_count first_range ect0 ect1 ce ranges_length =>
      let st := AckStat 0 NGX_TIMER_INFINITE NGX_TIMER_INFINITE in
      if decide (first_range > largest) then
        Some (NGX_ERROR, st, w, set_error NGX_QUIC_ERR_FRAME_ENCODING_ERROR qc, ctx)
      else
        let min := u64 (largest - first_range) in
        let max := largest in
        '(rc, st, w, qc, ctx) ← ngx_quic_handle_ack_frame_range min max st w qc ctx;
        if decide (rc <> NGX_OK) then Some (NGX_ERROR, st, w, qc, ctx)
        else
          let (w, ctx) :=
            if decide (largest_ack ctx < max \/ largest_ack ctx = NGX_QUIC_UNSET_PN) then
              (if decide (max_pn st <> NGX_TIMER_INFINITE) then rtt_sample w (f_u f) (max_pn st) else w,
               set_largest_ack max ctx)
            else (w, ctx) in
          let pos := List.hd [] (f_data f) in
          ranges_loop (S (length pos)) range_count min pos st w qc ctx
  | _ => None
  end.

Definition ngx_quic_handle_ack_frame (f : frame) (w : W) (qc : conn) (ctx : send_ctx) :
    option (Z * W * conn * send_ctx) :=
  '(rc, st, w, qc, ctx) ← handle_ranges f w qc ctx;
  if decide (rc <> NGX_OK) then Some (NGX_ERROR, w, qc, ctx) else detect_lost w st qc ctx.

End HandleAck.

(** ** The set of received numbers *)

Definition pn_ok (x : Z) : Prop := 0 <= x < 2 ^ 62.

(** Ranges below the number [s], which is the smallest one of the range before them. *)
Fixpoint in_ranges (s : Z) (rs : list ack_range) (x : Z) : Prop :=
  match rs with
  | [] => False
  | r :: rs =>
      let l := s - r_gap r - 2 in
      l - r_range r <= x <= l \/ in_ranges (l - r_range r) rs x
  end.

(** The smallest number of the last range. *)
Fixpoint bottom (s : Z) (rs : list ack_range) : Z :=
  match rs with
  | [] => s
  | r :: rs => bottom (s - r_gap r - 2 - r_range r) rs
  end.

Definition range_ok (r : ack_range) : Prop := 0 <= r_gap r /\ 0 <= r_range r.
Definition ranges_ok (s : Z) (rs : list ack_range) : Prop := Forall range_ok rs /\ 0 <= bottom s rs.

(** The first range with the ones of the array that are in use, all of them below [top]. *)
Definition spans (ctx : send_ctx) : list ack_range := Range 0 (first_range ctx) :: take (Z.to_nat (nranges ctx)) (ranges ctx).
Definition top (ctx : send_ctx) : Z := largest_range ctx + 2.

(** The numbers that the context acknowledges. *)
Definition received (ctx : send_ctx) (x : Z) : Prop :=
  largest_range ctx <> NGX_QUIC_UNSET_PN /\ in_ranges (top ctx) (spans ctx) x.

Definition wf (ctx : send_ctx) : Prop :=
  0 <= nranges ctx <= NGX_QUIC_MAX_RANGES /\ length (ranges ctx) = 10%nat /\
  (largest_range ctx = NGX_QUIC_UNSET_PN /\ first_range ctx = 0 /\ nranges ctx = 0 \/
   pn_ok (largest_range ctx) /\ ranges_ok (top ctx) (spans ctx)).

Lemma in_ranges_app s rs qs x : in_ranges s (rs ++ qs) x <-> in_ranges s rs x \/ in_ranges (bottom s rs) qs x.
Proof. revert s. induction rs as [|r rs IH]; intros s; cbn; [tauto|]. rewrite IH. tauto. Qed.

Lemma bottom_app s rs qs : bottom s (rs ++ qs) = bottom (bottom s rs) qs.
Proof. revert s. induction rs as [|r rs IH]; intros s; cbn; [done|]. apply IH. Qed.

Lemma bottom_le s rs : Forall range_ok rs -> bottom s rs <= s - 2 * Z.of_nat (length rs).
Proof.
  intros H. revert s. induction H as [|r rs [Hg Hr] _ IH]; intros s; cbn [bottom length]; [lia|].
  specialize (IH (s - r_gap r - 2 - r_range r)). lia.
Qed.

Lemma in_ranges_bounds s rs x : Forall range_ok rs -> in_ranges s rs x -> bottom s rs <= x <= s - 2.
Proof.
  intros H. revert s. induction H as [|r rs [Hg Hr] H IH]; intros s; cbn; [done|].
  pose proof (bottom_le (s - r_gap r - 2 - r_range r) rs H). intros [Hx|Hx]; [lia|]. specialize (IH _ Hx). lia.
Qed.

Lemma in_ranges_below s rs x : Forall range_ok rs -> s - 2 < x -> ~ in_ranges s rs x.
Proof. intros H Hx Hi. apply in_ranges_bounds in Hi; [lia|done]. Qed.

Lemma ranges_ok_app s rs qs : ranges_ok s (rs ++ qs) <-> Forall range_ok rs /\ ranges_ok (bottom s rs) qs.
Proof. unfold ranges_ok. rewrite Forall_app, bottom_app. tauto. Qed.

Lemma unset_eq : NGX_QUIC_UNSET_PN = 2 ^ 64 - 1.
Proof. done. Qed.

(** *** Operations on arrays *)

Lemma store_range_eq i v rs : (i < length rs)%nat -> store_range i v rs = Some (<[i := v]> rs).
Proof. intros H. unfold store_range. by rewrite decide_True. Qed.

(** The elements in use after an insertion: the last one goes if there is no place. *)
Lemma insert_moved i n v rs : (i < n)%nat -> (n <= length rs)%nat ->
  exists rs', move_ranges (i + 1) i (n - i - 1) rs = Some rs' /\ length rs' = length rs /\
    take n (<[i := v]> rs') = take n (take i rs ++ v :: drop i rs).
Proof.
  intros Hi Hn. unfold move_ranges. rewrite decide_True by lia. eexists. split; [done|].
  set (rs' := take (i + 1) rs ++ take (n - i - 1) (drop i rs) ++ drop (i + 1 + (n - i - 1)) rs).
  assert (Hl : length rs' = length rs) by (unfold rs'; rewrite !length_app, !length_take, !length_drop; lia).
  split; [done|]. apply list_eq. intros j. destruct (decide (j < n)%nat) as [Hj|Hj].
  - rewrite !lookup_take_lt by done. destruct (decide (j = i)) as [->|Hne].
    + rewrite list_lookup_insert_eq by lia. rewrite lookup_app_r by (rewrite length_take; lia).
      rewrite length_take. replace (i - i `min` length rs)%nat with O by lia. done.
    + rewrite list_lookup_insert_ne by done. unfold rs'. destruct (decide (j < i)%nat) as [Hlt|Hlt].
      * rewrite lookup_app_l by (rewrite length_take; lia). rewrite lookup_app_l by (rewrite length_take; lia).
        by rewrite !lookup_take_lt by lia.
      * rewrite lookup_app_r by (rewrite length_take; lia). rewrite length_take.
        rewrite lookup_app_l by (rewrite length_take, length_drop; lia). rewrite lookup_take_lt by lia.
        rewrite lookup_app_r by (rewrite length_take; lia). rewrite length_take, lookup_drop.
        replace (j - i `min` length rs)%nat with (S (j - i - 1)) by lia.
        change ((v :: drop i rs) !! S (j - i - 1)) with (drop i rs !! (j - i - 1)%nat). rewrite lookup_drop. f_equal. lia.
  - rewrite !lookup_take_ge by lia. done.
Qed.

Lemma delete_moved i n rs : (i < n)%nat -> (n <= length rs)%nat ->
  exists rs', (if decide (n - i - 1 <> O)%nat then move_ranges i (i + 1) (n - i - 1) rs else Some rs) = Some rs' /\
    length rs' = length rs /\ take (n - 1) rs' = take i rs ++ take (n - i - 1) (drop (i + 1) rs).
Proof.
  intros Hi Hn. destruct (decide _) as [Hne|He].
  - unfold move_ranges. rewrite decide_True by lia. eexists. split; [done|].
    split; [rewrite !length_app, !length_take, !length_drop; lia|].
    rewrite app_assoc, take_app_le by (rewrite length_app, !length_take, length_drop; lia).
    apply take_ge. rewrite length_app, !length_take, length_drop. lia.
  - exists rs. split; [done|]. split; [done|]. replace (n - 1)%nat with i by lia.
    replace (n - i - 1)%nat with O by lia. by rewrite app_nil_r.
Qed.

(** *** A change in the middle of the ranges *)

Lemma in_ranges_take s k l x : Forall range_ok l -> (0 < k)%nat ->
  in_ranges s (take k l) x <-> in_ranges s l x /\ bottom s (take k l) <= x.
Proof.
  intros H Hk. rewrite <- (take_drop k l) at 2. rewrite in_ranges_app. split.
  - intros Hx. split; [by left|]. apply in_ranges_bounds in Hx; [lia|]. by apply Forall_take.
  - intros [[Hx|Hx] Hb]; [done|]. apply in_ranges_bounds in Hx; [lia|]. by apply Forall_drop.
Qed.

Lemma ranges_ok_take s k l : ranges_ok s l -> ranges_ok s (take k l).
Proof.
  rewrite <- (take_drop k l) at 1. intros [H Hb]. apply Forall_app in H as [H1 H2]. split; [done|].
  rewrite bottom_app in Hb. pose proof (bottom_le (bottom s (take k l)) _ H2). lia.
Qed.

Lemma change_mid s pre mid mid' post pn :
  bottom (bottom s pre) mid' = bottom (bottom s pre) mid -> Forall range_ok mid' ->
  (forall x, in_ranges (bottom s pre) mid' x <-> in_ranges (bottom s pre) mid x \/ x = pn) ->
  ranges_ok s (pre ++ mid ++ post) ->
  ranges_ok s (pre ++ mid' ++ post) /\
  forall x, in_ranges s (pre ++ mid' ++ post) x <-> in_ranges s (pre ++ mid ++ post) x \/ x = pn.
Proof.
  intros Hb Hm Hx [Hf H0]. rewrite !Forall_app in Hf. split.
  - split; [rewrite !Forall_app; tauto|]. rewrite !bottom_app in *. by rewrite Hb.
  - intros x. rewrite !in_ranges_app, Hb, Hx. tauto.
Qed.

Section Changes.

Context (s pn : Z) (pre : list ack_range) (p : ack_range).

Let low : Z := bottom s (pre ++ [p]).

Lemma low_eq : low = bottom s pre - r_gap p - 2 - r_range p.
Proof. unfold low. by rewrite bottom_app. Qed.

Ltac solve_change Hok :=
  pose proof low_eq; unfold low in *; rewrite ?bottom_app in *;
  destruct Hok as [Hf ?]; rewrite ?Forall_app, ?List.Forall_cons_iff in Hf; unfold range_ok in *;
  cbn -[Z.mul Z.sub Z.add] in *; try (intros x);
  repeat match goal with
    | |- Forall _ (_ :: _) => constructor; [cbn; lia|]
    | |- Forall _ [] => constructor
    | |- _ => lia
    end.

Lemma fill_ok r post : ranges_ok s (pre ++ p :: r :: post) -> r_gap r = 0 -> pn = low - 1 ->
  let l := pre ++ Range (r_gap p) (r_range p + (r_range r + 2)) :: post in
  ranges_ok s l /\ forall x, in_ranges s l x <-> in_ranges s (pre ++ p :: r :: post) x \/ x = pn.
Proof.
  intros Hok Hg Hpn. destruct r as [g n]. cbn in Hg.
  apply (change_mid s pre [p; Range g n] [Range (r_gap p) (r_range p + (n + 2))] post); [..|done]; solve_change Hok.
Qed.

Lemma shrink_tail_ok r post : ranges_ok s (pre ++ p :: r :: post) -> 0 < r_gap r -> pn = low - 1 - r_gap r ->
  let l := pre ++ p :: Range (r_gap r - 1) (r_range r + 1) :: post in
  ranges_ok s l /\ forall x, in_ranges s l x <-> in_ranges s (pre ++ p :: r :: post) x \/ x = pn.
Proof.
  intros Hok Hg Hpn. destruct r as [g n]. cbn in *.
  apply (change_mid s pre [p; Range g n] [p; Range (g - 1) (n + 1)] post); [..|done]; solve_change Hok.
Qed.

Lemma shrink_head_ok r post : ranges_ok s (pre ++ p :: r :: post) -> 0 < r_gap r -> pn = low - 1 ->
  let l := pre ++ Range (r_gap p) (r_range p + 1) :: Range (r_gap r - 1) (r_range r) :: post in
  ranges_ok s l /\ forall x, in_ranges s l x <-> in_ranges s (pre ++ p :: r :: post) x \/ x = pn.
Proof.
  intros Hok Hg Hpn. destruct r as [g n]. cbn in *.
  apply (change_mid s pre [p; Range g n] [Range (r_gap p) (r_range p + 1); Range (g - 1) n] post); [..|done];
    solve_change Hok.
Qed.

Lemma split_ok r post : ranges_ok s (pre ++ p :: r :: post) -> low - 1 - r_gap r < pn < low - 1 ->
  let l := pre ++ p :: Range (low - 1 - pn - 1) 0 :: Range (pn - (low - 1 - r_gap r) - 1) (r_range r) :: post in
  ranges_ok s l /\ forall x, in_ranges s l x <-> in_ranges s (pre ++ p :: r :: post) x \/ x = pn.
Proof.
  intros Hok Hpn. destruct r as [g n]. cbn in *.
  apply (change_mid s pre [p; Range g n] [p; Range (low - 1 - pn - 1) 0; Range (pn - (low - 1 - g) - 1) n] post);
    [..|done]; solve_change Hok.
Qed.

Ltac unfold_end Hok :=
  pose proof low_eq; unfold ranges_ok in *; rewrite ?Forall_app, ?List.Forall_cons_iff, ?bottom_app in *;
  unfold range_ok in *; destruct Hok as [(Hpre & (Hg & Hr) & Hnil) Hb]; cbn in *.

Lemma extend_ok : ranges_ok s (pre ++ [p]) -> pn = low - 1 -> 0 <= pn ->
  let l := pre ++ [Range (r_gap p) (r_range p + 1)] in
  ranges_ok s l /\ forall x, in_ranges s l x <-> in_ranges s (pre ++ [p]) x \/ x = pn.
Proof.
  intros Hok Hpn H0 l. unfold l. unfold_end Hok. split; [split; [|lia]; split; [done|split; [lia|done]]|].
  intros x. rewrite !in_ranges_app. cbn. intuition lia.
Qed.

Lemma append_ok : ranges_ok s (pre ++ [p]) -> 0 <= pn < low - 1 ->
  let l := pre ++ [p; Range (low - 2 - pn) 0] in
  ranges_ok s l /\ forall x, in_ranges s l x <-> in_ranges s (pre ++ [p]) x \/ x = pn.
Proof.
  intros Hok Hpn l. unfold l. unfold_end Hok.
  split; [split; [|lia]; split; [done|split; [lia|split; [lia|done]]]|].
  intros x. rewrite !in_ranges_app. cbn. intuition lia.
Qed.

End Changes.

(** *** The operations on the spans *)

(** Everything but the numbers that are acknowledged. *)
Definition rest (c : send_ctx) : send_ctx := set_received 0 (set_ranges 0 [] (set_largest 0 (set_first 0 c))).

(** The array has ten elements, and the ones in use are among them. *)
Definition array_ok (ctx : send_ctx) : Prop := 0 <= nranges ctx <= 10 /\ length (ranges ctx) = 10%nat.

Lemma length_spans ctx : array_ok ctx -> Z.of_nat (length (spans ctx)) = nranges ctx + 1.
Proof. intros [Hn Hl]. unfold spans. cbn [length]. rewrite length_take. lia. Qed.

Lemma spans_lookup ctx i : (i < Z.to_nat (nranges ctx))%nat -> spans ctx !! S i = ranges ctx !! i.
Proof. intros Hi. unfold spans. cbn. by apply lookup_take_lt. Qed.

(** The operation [ctx'] changed the ranges only. *)
Definition only_ranges (ctx ctx' : send_ctx) : Prop :=
  array_ok ctx' /\ largest_range ctx' = largest_range ctx /\ largest_received ctx' = largest_received ctx /\
  rest ctx' = rest ctx.

Lemma take_insert_app (n i : nat) (v p : ack_range) l pre post : take n l = pre ++ p :: post -> length pre = i ->
  (n <= length l)%nat -> take n (<[i := v]> l) = pre ++ v :: post.
Proof.
  intros E Hi Hn. rewrite <- (take_drop n l), E. subst i.
  assert (Hlen : n = length (pre ++ p :: post)) by (rewrite <- E, length_take; lia).
  rewrite insert_app_l by (rewrite length_app; cbn; lia). rewrite insert_app_r_alt by lia. rewrite Nat.sub_diag.
  change (<[0%nat := v]> (p :: post)) with (v :: post).
  rewrite take_app_le by (rewrite Hlen, !length_app; cbn; lia). apply take_ge. rewrite Hlen, !length_app. cbn. lia.
Qed.

Lemma store_spans ctx i v pre p post : array_ok ctx -> spans ctx = pre ++ p :: post -> length pre = S i ->
  exists rs, store_range i v (ranges ctx) = Some rs /\
    spans (set_ranges (nranges ctx) rs ctx) = pre ++ v :: post /\
    only_ranges ctx (set_ranges (nranges ctx) rs ctx).
Proof.
  intros [Hn Hl] E Hi. destruct pre as [|h pre]; [done|]. cbn in Hi. injection Hi as Hi. injection E as Eh E.
  assert (length (pre ++ p :: post) = Z.to_nat (nranges ctx)) as Hlen by (rewrite <- E, length_take; lia).
  rewrite length_app in Hlen. cbn in Hlen. rewrite store_range_eq by lia. eexists. split; [done|].
  split; [|split; [split; cbn; [lia|by rewrite length_insert]|done]].
  unfold spans. cbn. rewrite Eh. f_equal. eapply take_insert_app; [done|done|lia].
Qed.

Lemma grow_spans ctx i d pre p post : array_ok ctx -> spans ctx = pre ++ p :: post -> length pre = i ->
  0 <= r_range p + d < 2 ^ 64 ->
  exists ctx', grow i d ctx = Some ctx' /\ spans ctx' = pre ++ Range (r_gap p) (r_range p + d) :: post /\
    only_ranges ctx ctx' /\ nranges ctx' = nranges ctx.
Proof.
  intros Ha E Hi Hd. destruct i as [|i].
  - destruct pre; [|done]. injection E as Ep E. subst p. cbn in Hd.
    eexists. split; [done|]. split; [|done]. unfold spans. cbn. rewrite u64_small by done. by rewrite E.
  - cbn [grow]. assert (ranges ctx !! i = Some p) as ->.
    { assert (i < Z.to_nat (nranges ctx))%nat.
      { pose proof (length_spans ctx Ha) as Hlen. rewrite E, length_app in Hlen. cbn in Hlen. lia. }
      rewrite <- spans_lookup, E by done. rewrite lookup_app_r by lia. by rewrite Hi, Nat.sub_diag. }
    cbn [mbind option_bind]. destruct (store_spans ctx i (Range (r_gap p) (u64 (r_range p + d))) pre p post Ha E Hi)
      as (rs & -> & Es & Hs).
    eexists. split; [done|]. split; [rewrite Es, u64_small by done; done|]. split; [exact Hs|done].
Qed.

Lemma insert_spans ctx i gap range pre post : array_ok ctx -> spans ctx = pre ++ post -> length pre = S i -> (i <= 9)%nat ->
  exists ctx', insert_range i gap range ctx = Some ctx' /\
    spans ctx' = take 11 (pre ++ Range gap range :: post) /\ only_ranges ctx ctx' /\
    nranges ctx' = Z.min 10 (nranges ctx + 1).
Proof.
  intros [Hn Hl] E Hi Hi9. destruct pre as [|h pre]; [done|]. cbn in Hi. injection Hi as Hi. injection E as Eh E.
  assert (length (pre ++ post) = Z.to_nat (nranges ctx)) as Hlen by (rewrite <- E, length_take; lia).
  rewrite length_app in Hlen. unfold insert_range, NGX_QUIC_MAX_RANGES.
  set (n := if decide (nranges ctx < 10) then nranges ctx + 1 else nranges ctx).
  assert (Hn' : n = Z.min 10 (nranges ctx + 1)) by (unfold n; case_decide; lia).
  destruct (insert_moved i (Z.to_nat n) (Range gap range) (ranges ctx) ltac:(lia) ltac:(lia)) as (rs & -> & Hlr & Ht).
  cbn [mbind option_bind]. rewrite store_range_eq by lia. cbn [mbind option_bind]. eexists. split; [done|].
  split; [|split; [split; [split; cbn; [lia|rewrite length_insert; lia]|done]|exact Hn']].
  unfold spans. cbn. rewrite Ht, Eh. f_equal.
  assert (E1 : take i (ranges ctx) = pre).
  { replace (take i (ranges ctx)) with (take i (take (Z.to_nat (nranges ctx)) (ranges ctx))) by (rewrite take_take; f_equal; lia).
    rewrite E. subst i. apply take_app_length. }
  assert (E2 : drop i (ranges ctx) = post ++ drop (Z.to_nat (nranges ctx)) (ranges ctx)).
  { rewrite <- (take_drop (Z.to_nat (nranges ctx)) (ranges ctx)) at 1. rewrite E, <- app_assoc. subst i. apply drop_app_length. }
  rewrite E1, E2. change (pre ++ Range gap range :: post ++ drop (Z.to_nat (nranges ctx)) (ranges ctx))
    with (pre ++ (Range gap range :: post) ++ drop (Z.to_nat (nranges ctx)) (ranges ctx)).
  rewrite app_assoc, take_app_le by (rewrite length_app; cbn; lia).
  destruct (decide (nranges ctx < 10)).
  - rewrite !take_ge by (rewrite length_app; cbn; lia). done.
  - f_equal. lia.
Qed.

Lemma delete_spans ctx i pre p post : array_ok ctx -> spans ctx = pre ++ p :: post -> length pre = S i ->
  exists rs, (let nr := (Z.to_nat (nranges ctx) - i - 1)%nat in
      if decide (nr <> O) then move_ranges i (i + 1) nr (ranges ctx) else Some (ranges ctx)) = Some rs /\
    spans (set_ranges (nranges ctx - 1) rs ctx) = pre ++ post /\
    only_ranges ctx (set_ranges (nranges ctx - 1) rs ctx).
Proof.
  intros [Hn Hl] E Hi. destruct pre as [|h pre]; [done|]. cbn in Hi. injection Hi as Hi. injection E as Eh E.
  assert (length (pre ++ p :: post) = Z.to_nat (nranges ctx)) as Hlen by (rewrite <- E, length_take; lia).
  rewrite length_app in Hlen. cbn in Hlen.
  destruct (delete_moved i (Z.to_nat (nranges ctx)) (ranges ctx) ltac:(lia) ltac:(lia)) as (rs & Er & Hlr & Ht).
  exists rs. split; [exact Er|]. split; [|split; [split; cbn; lia|done]].
  unfold spans. cbn. rewrite Eh. f_equal. replace (Z.to_nat (nranges ctx - 1)) with (Z.to_nat (nranges ctx) - 1)%nat by lia.
  rewrite Ht.
  assert (Ed : drop (i + 1) (take (Z.to_nat (nranges ctx)) (ranges ctx)) = post).
  { rewrite E. replace (i + 1)%nat with (length (pre ++ [p])) by (rewrite length_app; cbn; lia).
    replace (pre ++ p :: post) with ((pre ++ [p]) ++ post) by (by rewrite <- app_assoc). apply drop_app_length. }
  rewrite <- Ed, skipn_firstn_comm. f_equal; [|f_equal; lia].
  replace (take i (ranges ctx)) with (take i (take (Z.to_nat (nranges ctx)) (ranges ctx))) by (rewrite take_take; f_equal; lia).
  rewrite E. subst i. apply take_app_length.
Qed.

(** *** The search *)

Definition place_ok (ctx : send_ctx) (pn : Z) (pl : place) : Prop :=
  match pl with
  | Known => in_ranges (top ctx) (spans ctx) pn
  | Within i r gs ge => exists pre p post, spans ctx = pre ++ p :: r :: post /\ length pre = i /\
      ge = bottom (top ctx) (pre ++ [p]) - 1 /\ gs = ge - r_gap r /\ gs <= pn <= ge
  | Below s => s = bottom (top ctx) (spans ctx) /\ pn < s
  end.

Lemma u64_in_ok s : 0 <= s < 2 ^ 63 -> u64 s = s.
Proof. intros H. apply u64_small. lia. Qed.

Lemma search_ok ctx pn : array_ok ctx -> ranges_ok (top ctx) (spans ctx) -> top ctx < 2 ^ 62 + 2 -> 0 <= pn ->
  forall post pre, spans ctx = pre ++ post -> pre <> [] -> pn < bottom (top ctx) pre ->
  exists pl, search (length post) (length pre - 1) (bottom (top ctx) pre) pn (ranges ctx) = Some pl /\ place_ok ctx pn pl.
Proof.
  intros Ha Hok Ht Hpn. induction post as [|r post IH]; intros pre E Hne Hlt.
  - exists (Below (bottom (top ctx) pre)). split; [done|]. cbn [place_ok]. by rewrite E, app_nil_r.
  - destruct (exists_last Hne) as (pre' & p & ->). rewrite length_app in *. cbn [length] in *.
    replace (length pre' + 1 - 1)%nat with (length pre') in * by lia.
    assert (ranges ctx !! length pre' = Some r) as Er.
    { assert (length pre' < Z.to_nat (nranges ctx))%nat.
      { pose proof (length_spans ctx Ha) as Hlen. rewrite E, !length_app in Hlen. cbn in Hlen. lia. }
      rewrite <- spans_lookup, E, lookup_app_r by (done || rewrite length_app; cbn; lia).
      rewrite length_app. cbn. by replace (S (length pre') - (length pre' + 1))%nat with O by lia. }
    assert (Hrk := Hok). rewrite E, ranges_ok_app in Hrk. destruct Hrk as [Hpre [Hf Hb]].
    apply List.Forall_cons_iff in Hf as [[Hg Hr] Hf]. cbn [bottom] in Hb.
    pose proof (bottom_le (top ctx) (pre' ++ [p]) Hpre) as Hs.
    set (s := bottom (top ctx) (pre' ++ [p])) in *. pose proof (bottom_le (s - r_gap r - 2 - r_range r) post Hf).
    cbn [search]. rewrite Er. cbn [mbind option_bind]. rewrite (u64_in_ok (s - 1)), (u64_in_ok (s - 1 - r_gap r)) by lia.
    destruct (decide _) as [Hin|Hout].
    { eexists. split; [done|]. exists pre', p, post. split; [by rewrite E, <- app_assoc|]. done. }
    rewrite (u64_in_ok (s - r_gap r - 2)), (u64_in_ok (s - r_gap r - 2 - r_range r)) by lia.
    destruct (decide _) as [Hin|Hout2].
    { eexists. split; [done|]. cbn [place_ok]. rewrite E, in_ranges_app. right. fold s. by left. }
    specialize (IH ((pre' ++ [p]) ++ [r])). rewrite !length_app in IH. cbn [length] in IH.
    replace (length pre' + 1 + 1 - 1)%nat with (S (length pre')) in IH by lia.
    rewrite (bottom_app _ (pre' ++ [p])) in IH. fold s in IH. cbn [bottom] in IH.
    apply IH; [by rewrite E, <- !app_assoc| |lia]. by destruct pre'.
Qed.

(** *** The frame that is sent *)

(** The bytes of the ranges. *)
Definition range_bytes (rs : list ack_range) : list Z :=
  concat (map (fun r => ngx_quic_build_int (r_gap r) ++ ngx_quic_build_int (r_range r)) rs).

Lemma build_int_len v : (1 <= length (ngx_quic_build_int v) <= 8)%nat.
Proof. unfold ngx_quic_build_int. repeat case_decide; cbn; lia. Qed.

Lemma length_range_bytes rs : (length (range_bytes rs) <= 16 * length rs)%nat.
Proof.
  induction rs as [|r rs IH]; [done|]. unfold range_bytes in *. cbn. rewrite !length_app.
  pose proof (build_int_len (r_gap r)). pose proof (build_int_len (r_range r)). lia.
Qed.

Lemma create_range_len g r : let (len, bs) := ngx_quic_create_ack_range g r in
  len = Z.of_nat (length bs) /\ bs = ngx_quic_build_int g ++ ngx_quic_build_int r.
Proof. cbn. rewrite length_app, Nat2Z.inj_add, !length_build_int. done. Qed.

Lemma ack_chain_eq rs : forall b, (length b + 16 * length rs <= 4096)%nat ->
  ack_chain rs [b] (Z.of_nat (length b)) = Some ([b ++ range_bytes rs], Z.of_nat (length (b ++ range_bytes rs))).
Proof.
  induction rs as [|r rs IH]; intros b Hl; [by rewrite app_nil_r|]. cbn [ack_chain].
  pose proof (create_range_len (r_gap r) (r_range r)) as E. destruct (ngx_quic_create_ack_range _ _) as [len bs].
  destruct E as [-> ->]. set (bs := ngx_quic_build_int (r_gap r) ++ ngx_quic_build_int (r_range r)).
  pose proof (build_int_len (r_gap r)). pose proof (build_int_len (r_range r)).
  assert (length bs <= 16)%nat by (unfold bs; rewrite length_app; lia).
  cbn [list.last List.last length] in *. unfold NGX_QUIC_BUFFER_SIZE. rewrite bool_decide_eq_false_2 by lia.
  cbn [removelast app]. rewrite decide_False by lia. rewrite u64_small by lia.
  replace (Z.of_nat (length b) + Z.of_nat (length bs)) with (Z.of_nat (length (b ++ bs))) by (rewrite length_app; lia).
  rewrite IH by (rewrite length_app; lia). unfold range_bytes. cbn. fold (range_bytes rs). fold bs. by rewrite <- !app_assoc.
Qed.

(** The chain has a buffer if there is a range. *)
Definition range_chain (rs : list ack_range) : list (list Z) := match rs with [] => [] | _ => [range_bytes rs] end.

Lemma ack_chain_ok rs : (length rs <= 10)%nat ->
  ack_chain rs [] 0 = Some (range_chain rs, Z.of_nat (length (range_bytes rs))).
Proof.
  intros Hl. destruct rs as [|r rs]; [done|]. cbn [ack_chain length] in *.
  pose proof (create_range_len (r_gap r) (r_range r)) as E. destruct (ngx_quic_create_ack_range _ _) as [len bs].
  destruct E as [-> ->]. set (bs := ngx_quic_build_int (r_gap r) ++ ngx_quic_build_int (r_range r)).
  pose proof (build_int_len (r_gap r)). pose proof (build_int_len (r_range r)).
  assert (1 <= length bs <= 16)%nat by (unfold bs; rewrite length_app; lia).
  unfold NGX_QUIC_BUFFER_SIZE. rewrite bool_decide_eq_true_2 by (cbn; lia). cbn [app]. rewrite decide_False by lia.
  rewrite u64_small by lia. rewrite Z.add_0_l. rewrite ack_chain_eq by lia. done.
Qed.

Definition ack_delay (now : Z) (tp : tparams) (ctx : send_ctx) : Z :=
  Z.shiftr (u64 (u64 (now - largest_received ctx) * 1000)) (ack_delay_exponent tp).

(** The frame for the numbers of the context. *)
Definition ack_frame (now : Z) (tp : tparams) (ctx : send_ctx) : frame :=
  let rs := take (Z.to_nat (nranges ctx)) (ranges ctx) in
  Frame NGX_QUIC_FT_ACK (level ctx) (range_chain rs)
    (u_ack (largest_range ctx) (ack_delay now tp ctx) (nranges ctx) (first_range ctx) 0 0 0
       (Z.of_nat (length (range_bytes rs)))).

Lemma send_ack_eq now tp qc ctx : array_ok ctx -> ngx_quic_send_ack now tp qc ctx =
  match ngx_quic_alloc_frame qc with
  | None => Some (NGX_ERROR, qc, ctx)
  | Some qc => Some (NGX_OK, qc, set_frames (new_frame (ack_frame now tp ctx) :: frames ctx) ctx)
  end.
Proof.
  intros [Hn Hl]. unfold ngx_quic_send_ack. fold (ack_delay now tp ctx). destruct (ngx_quic_alloc_frame qc); [|done].
  unfold upto. rewrite decide_True by lia. cbn [mbind option_bind]. rewrite ack_chain_ok by (rewrite length_take; lia). done.
Qed.

(** *** A received packet *)

(** The context after [pn] was received: of the numbers received before and this one, it has the ones from
    a bound on, which is zero as long as there is place for another range. *)
Definition recorded (pn : Z) (ctx ctx' : send_ctx) : Prop :=
  wf ctx' /\ largest_range ctx' <> NGX_QUIC_UNSET_PN /\
  exists low, (low = 0 \/ nranges ctx' = NGX_QUIC_MAX_RANGES) /\
    forall x, received ctx' x <-> (received ctx x \/ x = pn) /\ low <= x.

(** The numbers did not change. *)
Definition same_numbers (ctx ctx' : send_ctx) : Prop := wf ctx' /\ forall x, received ctx' x <-> received ctx x.

(** A context with packets. *)
Definition filled (ctx : send_ctx) : Prop :=
  array_ok ctx /\ pn_ok (largest_range ctx) /\ ranges_ok (top ctx) (spans ctx).

Lemma pn_set x : pn_ok x -> x <> NGX_QUIC_UNSET_PN.
Proof. unfold pn_ok. rewrite unset_eq. lia. Qed.

Lemma filled_wf ctx : filled ctx -> wf ctx.
Proof. intros ([Hn Hl] & Hp & Hok). split; [done|]. split; [done|]. by right. Qed.

Lemma wf_filled ctx : wf ctx -> largest_range ctx <> NGX_QUIC_UNSET_PN -> filled ctx.
Proof. intros (Hn & Hl & [[? _]|[Hp Hok]]) Hs; [done|]. done. Qed.

Lemma filled_received ctx x : filled ctx -> received ctx x <-> in_ranges (top ctx) (spans ctx) x.
Proof. intros (_ & Hp & _). unfold received. pose proof (pn_set _ Hp). tauto. Qed.

Lemma in_ranges_nonneg s rs x : ranges_ok s rs -> in_ranges s rs x -> 0 <= x.
Proof. intros [Hf Hb] Hx. apply in_ranges_bounds in Hx; [lia|done]. Qed.

Lemma recorded_take pn ctx ctx' l : filled ctx -> array_ok ctx' -> pn_ok (largest_range ctx') -> 0 <= pn ->
  spans ctx' = take 11 l -> ranges_ok (top ctx') l -> (length l <= 11)%nat \/ nranges ctx' = 10 ->
  (forall x, in_ranges (top ctx') l x <-> in_ranges (top ctx) (spans ctx) x \/ x = pn) -> recorded pn ctx ctx'.
Proof.
  intros Hc Ha Hp Hpn E Hok Hfull Hx.
  assert (Hc' : filled ctx') by (split; [done|]; split; [done|]; rewrite E; by apply ranges_ok_take).
  split; [by apply filled_wf|]. split; [by apply pn_set|].
  assert (Hpos : forall x, in_ranges (top ctx) (spans ctx) x -> 0 <= x) by (intros x; apply in_ranges_nonneg; apply Hc).
  destruct (decide (length l <= 11)%nat) as [Hle|Hgt].
  - exists 0. split; [by left|]. intros x. rewrite (filled_received _ _ Hc), (filled_received _ _ Hc'), E.
    rewrite take_ge by done. rewrite Hx. split; [|tauto]. intros H. split; [done|]. destruct H as [H| ->]; [by apply Hpos|done].
  - destruct Hfull as [|Hfull]; [lia|]. exists (bottom (top ctx') (take 11 l)). split; [by right|].
    intros x. rewrite (filled_received _ _ Hc), (filled_received _ _ Hc'), E.
    rewrite in_ranges_take by (apply Hok || lia). by rewrite Hx.
Qed.

Lemma recorded_spans pn ctx ctx' : filled ctx -> only_ranges ctx ctx' -> 0 <= pn ->
  ranges_ok (top ctx) (spans ctx') /\
    (forall x, in_ranges (top ctx) (spans ctx') x <-> in_ranges (top ctx) (spans ctx) x \/ x = pn) ->
  recorded pn ctx ctx'.
Proof.
  intros Hc (Ha & El & _) Hpn [Hok Hx]. assert (Et : top ctx' = top ctx) by (unfold top; by rewrite El).
  pose proof (length_spans _ Ha). destruct Ha as [Hn Hl].
  apply (recorded_take pn ctx ctx' (spans ctx')); [done|done|rewrite El; apply Hc|done| |by rewrite Et|left; lia|by rewrite Et].
  rewrite take_ge; [done|]. lia.
Qed.

Lemma recorded_known pn ctx : filled ctx -> in_ranges (top ctx) (spans ctx) pn -> recorded pn ctx ctx.
Proof.
  intros Hc Hx. split; [by apply filled_wf|]. split; [apply pn_set, Hc|]. exists 0. split; [by left|]. intros x.
  rewrite (filled_received _ _ Hc). assert (in_ranges (top ctx) (spans ctx) x -> 0 <= x) by (apply in_ranges_nonneg, Hc).
  split; [tauto|]. by intros [[?| ->] _].
Qed.

(** There is no frame to allocate. *)
Definition flood (qc : conn) : Prop := free_frames qc = O /\ max_frames qc <= nframes qc.

Lemma alloc_flood qc : ngx_quic_alloc_frame qc = None -> flood qc.
Proof. unfold ngx_quic_alloc_frame, flood. destruct (free_frames qc); [|done]. case_decide; [done|]. split; [done|lia]. Qed.

(** What an operation on a packet may return. *)
Definition ack_result (pn : Z) (qc : conn) (ctx : send_ctx) (res : result) : Prop :=
  exists rc qc' ctx', res = Some (rc, qc', ctx') /\
    (rc = NGX_OK /\ recorded pn ctx ctx' \/
     rc = NGX_ERROR /\ flood qc /\ same_numbers ctx ctx').

Lemma send_full_ok now tp prev need qc ctx : filled ctx -> exists rc qc' ctx',
  send_full now tp prev need qc ctx = Some (rc, qc', ctx') /\ filled ctx' /\
  spans ctx' = spans ctx /\ largest_range ctx' = largest_range ctx /\ nranges ctx' = nranges ctx /\ ranges ctx' = ranges ctx /\
  first_range ctx' = first_range ctx /\
  (rc = NGX_OK \/ rc = NGX_ERROR /\ flood qc).
Proof.
  intros Hc. assert (Ha := proj1 Hc). unfold send_full. destruct (decide (nranges ctx = _)); [|by eexists _, _, _; auto 10].
  destruct (decide (prev <> _)).
  - rewrite send_ack_eq by done. destruct (ngx_quic_alloc_frame qc) as [qc'|] eqn:Ef; [|apply alloc_flood in Ef]; cbn [mbind option_bind].
    + rewrite decide_False by (intros H; by apply H). destruct (decide _); by eexists _, _, _; auto 10.
    + rewrite decide_True by done. by eexists _, _, _; auto 10.
  - cbn [mbind option_bind]. rewrite decide_False by (intros H; by apply H). destruct (decide _); by eexists _, _, _; auto 10.
Qed.

Lemma span_bound ctx pre p q : filled ctx -> spans ctx = pre ++ p :: q ->
  0 <= r_gap p /\ 0 <= r_range p /\ bottom (top ctx) (pre ++ [p]) = bottom (top ctx) pre - r_gap p - 2 - r_range p /\
  2 * Z.of_nat (length q) <= bottom (top ctx) (pre ++ [p]) /\ bottom (top ctx) pre <= top ctx /\ top ctx < 2 ^ 62 + 2.
Proof.
  intros (_ & Hp & Hok) E. rewrite E in Hok. change (pre ++ p :: q) with (pre ++ [p] ++ q) in Hok.
  rewrite app_assoc in Hok. destruct Hok as [Hf Hb]. rewrite !Forall_app in Hf. destruct Hf as [[Hpre Hp1] Hq].
  apply List.Forall_cons_iff in Hp1 as [[Hg Hr] _]. rewrite (bottom_app _ (pre ++ [p])) in Hb.
  pose proof (bottom_le (bottom (top ctx) (pre ++ [p])) q Hq). pose proof (bottom_le (top ctx) pre Hpre).
  rewrite bottom_app in *. cbn [bottom] in *. unfold pn_ok, top in *. lia.
Qed.

Lemma only_ranges_trans a b c : only_ranges a b -> only_ranges b c -> only_ranges a c.
Proof. intros (_ & E1 & E2 & E3) (Ha & E4 & E5 & E6). split; [done|]. by rewrite E4, E5, E6. Qed.

Lemma only_ranges_top a b : only_ranges a b -> top b = top a.
Proof. intros (_ & E & _). unfold top. by rewrite E. Qed.

(** The spans of [ctx1] are the ones of [ctx], so that changes of [ctx1] are changes of [ctx]. *)
Definition same_spans (ctx ctx1 : send_ctx) : Prop :=
  spans ctx1 = spans ctx /\ largest_range ctx1 = largest_range ctx /\ nranges ctx1 = nranges ctx.

Lemma recorded_same pn ctx ctx1 ctx2 : same_spans ctx ctx1 -> recorded pn ctx1 ctx2 -> recorded pn ctx ctx2.
Proof.
  intros (E1 & E2 & E3) (H1 & H2 & low & H3 & Hx). split; [done|]. split; [done|]. exists low. split; [done|].
  intros x. rewrite Hx. unfold received, top. by rewrite E1, E2.
Qed.

Lemma same_numbers_same ctx ctx1 : filled ctx1 -> same_spans ctx ctx1 -> same_numbers ctx ctx1.
Proof.
  intros Hc (E1 & E2 & E3). split; [by apply filled_wf|]. intros x. unfold received, top. by rewrite E1, E2.
Qed.

Lemma fill_gap_ok now tp prev pn need i r gs ge qc ctx pre p post : filled ctx ->
  spans ctx = pre ++ p :: r :: post -> length pre = i -> ge = bottom (top ctx) (pre ++ [p]) - 1 ->
  gs = ge - r_gap r -> gs <= pn <= ge -> 0 <= pn ->
  ack_result pn qc ctx (fill_gap now tp prev pn need i r gs ge qc ctx).
Proof.
  intros Hc E Hi -> -> Hpn H0. assert (Ha := proj1 Hc). assert (Hok := proj2 (proj2 Hc)). rewrite E in Hok.
  destruct (span_bound ctx pre p (r :: post) Hc E) as (Hpg & Hpr & Hlow & Hq & Hb & Ht).
  assert (E' : spans ctx = (pre ++ [p]) ++ r :: post) by (by rewrite <- app_assoc).
  destruct (span_bound ctx (pre ++ [p]) r post Hc E') as (Hrg & Hrr & Hlow2 & Hq2 & _).
  assert (Hlen : length (pre ++ [p]) = S i) by (rewrite length_app; cbn; lia).
  set (low := bottom (top ctx) (pre ++ [p])) in *. unfold fill_gap.
  destruct (decide (low - 1 - r_gap r = low - 1)).
  { destruct (grow_spans ctx i (r_range r + 2) pre p (r :: post) Ha E Hi ltac:(lia)) as (c1 & -> & E1 & Ho1 & En).
    cbn [mbind option_bind]. set (p' := Range (r_gap p) (r_range p + (r_range r + 2))) in *.
    destruct (delete_spans c1 i (pre ++ [p']) r post) as (rs & Er & E2 & Ho2).
    { apply Ho1. } { by rewrite E1, <- app_assoc. } { rewrite length_app. cbn. lia. }
    cbv zeta in Er |- *. rewrite Er. cbn [mbind option_bind]. eexists _, _, _. split; [done|]. left. split; [done|].
    apply recorded_spans; [done|exact (only_ranges_trans _ _ _ Ho1 Ho2)|done|]. rewrite E2, <- app_assoc, E.
    apply fill_ok; [done|lia|fold low; lia]. }
  destruct (decide (pn = low - 1 - r_gap r)).
  { destruct (store_spans ctx i (Range (u64 (r_gap r - 1)) (u64 (r_range r + 1))) (pre ++ [p]) r post Ha E' Hlen)
      as (rs & -> & E1 & Ho1).
    cbn [mbind option_bind]. eexists _, _, _. split; [done|]. left. split; [done|]. apply recorded_spans; [done..|].
    rewrite E1, <- app_assoc, E, !u64_small by lia. apply shrink_tail_ok; [done|lia|fold low; lia]. }
  destruct (decide (pn = low - 1)).
  { destruct (store_spans ctx i (Range (u64 (r_gap r - 1)) (r_range r)) (pre ++ [p]) r post Ha E' Hlen)
      as (rs & -> & E1 & Ho1).
    cbn [mbind option_bind]. rewrite <- app_assoc in E1. cbn [app] in E1.
    destruct (grow_spans _ i 1 pre p _ (proj1 Ho1) E1 Hi ltac:(lia)) as (c2 & -> & E2 & Ho2 & _).
    cbn [mbind option_bind]. eexists _, _, _. split; [done|]. left. split; [done|].
    apply recorded_spans; [done|exact (only_ranges_trans _ _ _ Ho1 Ho2)|done|].
    rewrite E2, E, u64_small by lia. apply shrink_head_ok; [done|lia|fold low; lia]. }
  destruct (send_full_ok now tp prev need qc ctx Hc) as (rc & qc1 & c1 & -> & Hc1 & Es & El & En & Er & Ef & Hrc).
  cbn [mbind option_bind]. assert (Hs : same_spans ctx c1) by done. destruct (decide (rc <> NGX_OK)) as [Hne|].
  { eexists _, _, _. split; [done|]. right. destruct Hrc as [|[_ Hfl]]; [done|]. split; [done|]. split; [done|].
    by apply same_numbers_same. }
  assert (Et : top c1 = top ctx) by (unfold top; by rewrite El). rewrite <- Es in E'.
  destruct (store_spans c1 i (Range (u64 (pn - (low - 1 - r_gap r) - 1)) (r_range r)) (pre ++ [p]) r post (proj1 Hc1) E' Hlen)
    as (rs & -> & E1 & Ho1).
  cbn [mbind option_bind].
  assert (length (spans ctx) <= 11)%nat as Hl11 by (pose proof (length_spans ctx Ha); unfold array_ok in Ha; lia).
  rewrite E, length_app in Hl11. cbn in Hl11.
  destruct (insert_spans _ i (u64 (low - 1 - pn - 1)) 0 (pre ++ [p]) _ (proj1 Ho1) E1 Hlen ltac:(lia)) as (c2 & -> & E2 & Ho2 & En2).
  cbn [mbind option_bind]. eexists _, _, _. split; [done|]. left. split; [done|]. apply (recorded_same pn ctx c1); [done|].
  rewrite <- app_assoc, !u64_small in E2 by lia. cbn [app] in E2.
  assert (Ho := only_ranges_trans _ _ _ Ho1 Ho2). assert (Et2 := only_ranges_top _ _ Ho).
  destruct (split_ok (top ctx) pn pre p r post Hok ltac:(fold low; lia)) as [Hok2 Hx2]. fold low in Hok2, Hx2.
  eapply recorded_take; [done|apply Ho|rewrite (proj1 (proj2 Ho)); apply Hc1|done|exact E2|by rewrite Et2, Et| |].
  - rewrite length_app. cbn [length]. cbn [nranges set_ranges] in En2. pose proof (length_spans ctx Ha) as Hls.
    rewrite E, length_app in Hls. cbn in Hls. lia.
  - intros x. rewrite Et2, Et, Es, E. apply Hx2.
Qed.

Lemma extend_last_ok qc ctx pn : filled ctx -> pn = bottom (top ctx) (spans ctx) - 1 -> 0 <= pn ->
  ack_result pn qc ctx
    (ctx ← grow (Z.to_nat (nranges ctx)) 1 ctx; Some (NGX_OK, qc, ctx)).
Proof.
  intros Hc Hpn H0. assert (Ha := proj1 Hc).
  destruct (exists_last (l := spans ctx) ltac:(done)) as (pre & p & E).
  pose proof (length_spans ctx Ha) as Hl. rewrite E, length_app in Hl. cbn in Hl.
  destruct (span_bound ctx pre p [] Hc E) as (? & ? & Hlow & _ & ? & ?). rewrite E in Hpn.
  destruct (grow_spans ctx (Z.to_nat (nranges ctx)) 1 pre p [] Ha E ltac:(lia) ltac:(lia)) as (c1 & -> & E1 & Ho & _).
  cbn [mbind option_bind]. eexists _, _, _. split; [done|]. left. split; [done|]. apply recorded_spans; [done..|].
  rewrite E1, E. assert (Hok := proj2 (proj2 Hc)). rewrite E in Hok. by apply extend_ok.
Qed.

Lemma append_last_ok qc ctx pn : filled ctx -> 0 <= pn < bottom (top ctx) (spans ctx) - 1 -> nranges ctx < 10 ->
  ack_result pn qc ctx
    (ctx ← insert_range (Z.to_nat (nranges ctx)) (u64 (bottom (top ctx) (spans ctx) - 2 - pn)) 0 ctx; Some (NGX_OK, qc, ctx)).
Proof.
  intros Hc Hpn Hn. assert (Ha := proj1 Hc).
  destruct (exists_last (l := spans ctx) ltac:(done)) as (pre & p & E).
  pose proof (length_spans ctx Ha) as Hl. assert (Hl' := Hl). rewrite E, length_app in Hl. cbn in Hl.
  destruct (span_bound ctx pre p [] Hc E) as (? & ? & Hlow & _ & ? & ?).
  assert (Hok := proj2 (proj2 Hc)).
  assert (Hn0 := proj1 Ha).
  destruct (insert_spans ctx (Z.to_nat (nranges ctx)) (u64 (bottom (top ctx) (spans ctx) - 2 - pn)) 0 (spans ctx) [] Ha
    ltac:(by rewrite app_nil_r) ltac:(lia) ltac:(unfold array_ok in Ha; lia)) as (c1 & -> & E1 & Ho & _).
  cbn [mbind option_bind]. eexists _, _, _. split; [done|]. left. split; [done|]. apply recorded_spans; [done..|lia|].
  rewrite E1. rewrite take_ge by (rewrite length_app; cbn [length]; lia). rewrite E in Hok, Hpn |- *. rewrite <- app_assoc.
  rewrite u64_small by lia. by apply append_ok.
Qed.

(** Only the numbers matter. *)
Lemma same_result pn qc ctx ctx1 res : same_spans ctx ctx1 -> ack_result pn qc ctx1 res -> ack_result pn qc ctx res.
Proof.
  intros Hs (rc & qc' & ctx' & -> & H). eexists _, _, _. split; [done|].
  destruct H as [[-> H]|(-> & Hf & Hw & Hx)]; [left; split; [done|by eapply recorded_same]|right].
  split; [done|]. split; [done|]. split; [done|]. intros x. rewrite Hx.
  destruct Hs as (E1 & E2 & _). unfold received, top. by rewrite E1, E2.
Qed.

Lemma new_front_ok now tp prev need pn rcv qc ctx : filled ctx -> pn_ok pn -> largest_range ctx + 1 < pn ->
  ack_result pn qc ctx (new_front now tp prev pn rcv need qc ctx).
Proof.
  intros Hc Hpn Hgt. unfold new_front. destruct (send_full_ok now tp prev need qc ctx Hc) as (rc & qc1 & c1 & -> & Hc1 & Es & El & En & Er & Ef & Hrc).
  cbn [mbind option_bind]. assert (Hs : same_spans ctx c1) by done. destruct (decide (rc <> NGX_OK)) as [Hne|].
  { eexists _, _, _. split; [done|]. right. destruct Hrc as [|[_ Hfl]]; [done|]. split; [done|]. split; [done|].
    by apply same_numbers_same. }
  cbv zeta. apply (same_result pn qc ctx c1 _ Hs). rewrite <- El in Hgt. clear Es El En Er Ef Hs Hrc Hc ctx. rename c1 into ctx.
  set (ctx1 := if need then _ else _). set (gap := u64 (pn - largest_range ctx - 2)).
  assert (Hgap : gap = pn - largest_range ctx - 2) by (destruct Hc1 as (_ & Hp & _); unfold gap, pn_ok in *; apply u64_small; lia).
  assert (E1 : spans ctx1 = [Range 0 0] ++ take (Z.to_nat (nranges ctx)) (ranges ctx)) by (unfold ctx1; by destruct need).
  assert (El1 : largest_range ctx1 = pn) by (unfold ctx1; by destruct need).
  assert (En1 : nranges ctx1 = nranges ctx) by (unfold ctx1; by destruct need).
  assert (Ha1 : array_ok ctx1) by (unfold ctx1; destruct need; apply Hc1).
  destruct (insert_spans ctx1 0 gap (first_range ctx) [Range 0 0] _ Ha1 E1 eq_refl ltac:(lia)) as (c2 & -> & E2 & Ho & En2).
  cbn [mbind option_bind]. eexists _, _, _. split; [done|]. left. split; [done|].
  assert (Hok := proj2 (proj2 Hc1)). unfold spans in Hok. destruct Hok as [Hf Hb].
  apply List.Forall_cons_iff in Hf as [[_ Hr] Hf]. cbn in Hr. cbn [bottom r_gap r_range] in Hb.
  assert (Hp := proj1 (proj2 Hc1)). unfold pn_ok in *.
  assert (Hl2 : largest_range c2 = pn) by (rewrite <- El1; apply Ho).
  assert (Et : pn + 2 - 0 - 2 - 0 - gap - 2 = top ctx - 0 - 2) by (unfold top; lia).
  eapply recorded_take; [exact Hc1|apply Ho|by rewrite Hl2|lia|exact E2| | |].
  - unfold top. rewrite Hl2. split.
    + repeat (constructor; [unfold range_ok; cbn; lia|]). done.
    + cbn [app bottom r_gap r_range]. by rewrite Et.
  - cbn [app length]. rewrite length_take. rewrite En2, En1. unfold array_ok in Ha1. rewrite En1 in Ha1. lia.
  - intros x. unfold top at 1. rewrite Hl2. unfold spans. cbn [app in_ranges r_gap r_range]. rewrite Et. split.
    + intros [Hx|Hx]; [right; lia|by left].
    + intros [Hx| ->]; [by right|left; lia].
Qed.

(** *** The cases of a received packet *)

Lemma place_result now tp prev need pn qc ctx pl : filled ctx -> 0 <= pn -> place_ok ctx pn pl ->
  ack_result pn qc ctx
    match pl with
    | Known => Some (NGX_OK, qc, ctx)
    | Within i r gs ge => fill_gap now tp prev pn need i r gs ge qc ctx
    | Below smallest =>
        if decide (pn = u64 (smallest - 1)) then
          ctx ← grow (Z.to_nat (nranges ctx)) 1 ctx;
          Some (NGX_OK, qc, ctx)
        else if decide (nranges ctx = NGX_QUIC_MAX_RANGES) then
          if need then ngx_quic_send_ack_range qc ctx pn pn else Some (NGX_OK, qc, ctx)
        else
          ctx ← insert_range (Z.to_nat (nranges ctx)) (u64 (smallest - 2 - pn)) 0 ctx;
          Some (NGX_OK, qc, ctx)
    end.
Proof.
  intros Hc H0 Hp. assert (Ha := proj1 Hc). destruct pl as [|i r gs ge|s]; cbn [place_ok] in Hp.
  - eexists _, _, _. split; [done|]. left. split; [done|]. by apply recorded_known.
  - destruct Hp as (pre & p & post & E & Hi & -> & -> & Hg). by eapply fill_gap_ok.
  - destruct Hp as [-> Hlt]. pose proof (bottom_le (top ctx) (spans ctx) (proj1 (proj2 (proj2 Hc)))).
    assert (top ctx < 2 ^ 62 + 2) by (destruct Hc as (_ & Hp & _); unfold top, pn_ok in *; lia).
    rewrite u64_in_ok by lia.
    destruct (decide (pn = _)) as [E|]; [by apply extend_last_ok|].
    destruct (decide (nranges ctx = _)) as [E|]; [|apply append_last_ok; [done|lia|unfold NGX_QUIC_MAX_RANGES, array_ok in *; lia]].
    assert (R : forall ctx', wf ctx' /\ spans ctx' = spans ctx /\ largest_range ctx' = largest_range ctx /\
                nranges ctx' = nranges ctx -> recorded pn ctx ctx').
    { intros ctx' (Hw & Es & El & En). split; [done|]. split; [rewrite El; apply pn_set, Hc|].
      exists (bottom (top ctx) (spans ctx)). split; [right; by rewrite En|]. intros x.
      assert (Et : top ctx' = top ctx) by (unfold top; by rewrite El). unfold received. rewrite Et, Es, El. split.
      - intros [Hs Hx]. split; [by left|]. apply in_ranges_bounds in Hx; [lia|apply Hc].
      - intros [[?| ->] ?]; [done|lia]. }
    assert (Hw := filled_wf ctx Hc). destruct need; [|eexists _, _, _; split; [done|]; left; split; [done|by apply R]].
    unfold ngx_quic_send_ack_range. destruct (ngx_quic_alloc_frame qc) eqn:Ef.
    + cbn. eexists _, _, _. split; [done|]. left. split; [done|]. by apply R.
    + apply alloc_flood in Ef. eexists _, _, _. split; [done|]. right. split; [done|]. split; [done|]. by split.
Qed.

Lemma record_packet_ok now tp prev pn rcv need qc ctx : wf ctx -> pn_ok pn ->
  ack_result pn qc ctx (record_packet now tp prev pn rcv need qc ctx).
Proof.
  intros Hw Hpn. unfold record_packet. cbv zeta.
  destruct (decide (largest_range ctx = NGX_QUIC_UNSET_PN)) as [Hu|Hset].
  { destruct Hw as (Hn & Hl & [(_ & Hf & H0)|[Hp _]]); [|by destruct (pn_set _ Hp)].
    set (ctx' := set_received rcv (set_largest pn ctx)).
    assert (Hc' : filled ctx').
    { split; [done|]. split; [done|]. unfold ctx', spans, top. cbn. rewrite Hf, H0.
      change (take (Z.to_nat 0) (ranges ctx)) with (@nil ack_range). split; [|cbn; unfold pn_ok in Hpn; lia].
      constructor; [|done]. unfold range_ok. cbn. lia. }
    eexists _, _, ctx'. split; [done|]. left. split; [done|]. split; [by apply filled_wf|]. split; [by apply pn_set|].
    exists 0. split; [by left|]. intros x. rewrite filled_received by done. unfold received, pn_ok in *.
    unfold ctx', spans, top. cbn. rewrite Hf, H0.
    change (take (Z.to_nat 0) (ranges ctx)) with (@nil ack_range). cbn. intuition lia. }
  assert (Hc := wf_filled ctx Hw Hset). assert (Hp := proj1 (proj2 Hc)). assert (Hok := proj2 (proj2 Hc)).
  assert (Hb : 0 <= first_range ctx /\ 0 <= largest_range ctx - first_range ctx /\
               bottom (top ctx) [Range 0 (first_range ctx)] = largest_range ctx - first_range ctx).
  { destruct (span_bound ctx [] _ _ Hc eq_refl) as (_ & ? & E & ? & _ & _). cbn in *. unfold top in *. lia. }
  destruct Hb as (Hf0 & Hs0 & Hbot). unfold pn_ok in Hp, Hpn.
  assert (Hfirst : forall x, largest_range ctx - first_range ctx <= x <= largest_range ctx ->
            in_ranges (top ctx) (spans ctx) x) by (intros x Hx; left; unfold top; cbn; lia).
  destruct (decide (largest_range ctx = pn)) as [Eq|Hne].
  { eexists _, _, _. split; [done|]. left. split; [done|]. apply recorded_known; [done|]. apply Hfirst. lia. }
  destruct (decide (pn > largest_range ctx)) as [Hgt|Hle].
  - rewrite u64_in_ok by lia. destruct (decide (pn - largest_range ctx = 1)) as [H1|H1]; [|apply new_front_ok; [done|done|lia]].
    set (ctx' := set_received _ _).
    eexists _, _, ctx'. split; [done|]. left. split; [done|].
    assert (Es : spans ctx' = Range 0 (first_range ctx + 1) :: take (Z.to_nat (nranges ctx)) (ranges ctx)).
    { unfold ctx', spans. cbn. by rewrite u64_in_ok by lia. }
    assert (Et : pn + 2 - 0 - 2 - (first_range ctx + 1) = top ctx - 0 - 2 - first_range ctx) by (unfold top; lia).
    destruct Hok as [HF HB]. unfold spans in HF, HB. apply List.Forall_cons_iff in HF as [_ HF]. cbn [bottom r_gap r_range] in HB.
    eapply (recorded_take pn ctx ctx'); [done|apply Hc|done|lia|rewrite Es; symmetry; apply take_ge| | |].
    + cbn [length]. rewrite length_take. destruct Hc as [[? ?] _]. lia.
    + unfold top. cbn [ctx' largest_range set_received set_largest]. split.
      * constructor; [unfold range_ok; cbn; lia|done].
      * cbn [bottom r_gap r_range]. by rewrite Et.
    + left. cbn [length]. rewrite length_take. destruct Hc as [[? ?] _]. lia.
    + intros x. unfold top at 1. cbn [ctx' largest_range set_received set_largest]. unfold spans.
      cbn [in_ranges r_gap r_range]. rewrite Et. unfold top. intuition lia.
  - rewrite u64_in_ok by lia. set (ctx1 := if need then set_send_ack _ _ else ctx).
    assert (Hc1 : filled ctx1 /\ same_spans ctx ctx1 /\ first_range ctx1 = first_range ctx /\ ranges ctx1 = ranges ctx)
      by (unfold ctx1; by destruct need).
    destruct Hc1 as (Hc1 & Hs1 & Ef & Er). apply (same_result pn qc ctx ctx1); [done|].
    destruct Hs1 as (Es & El & En). rewrite <- El, <- Ef in *. rewrite <- Es in Hfirst.
    assert (Et : top ctx1 = top ctx) by (unfold top; by rewrite El). rewrite <- Et in *.
    clearbody ctx1. clear Es En Er Et Hc Hset Hok. 
    destruct (decide (largest_range ctx1 - first_range ctx1 <= pn <= largest_range ctx1)) as [Hin|Hout].
    { eexists _, _, _. split; [done|]. left. split; [done|]. apply recorded_known; [done|]. by apply Hfirst. }
    assert (Hln : length (take (Z.to_nat (nranges ctx1)) (ranges ctx1)) = Z.to_nat (nranges ctx1))
      by (rewrite length_take; destruct Hc1 as [[? ?] _]; lia).
    destruct (search_ok ctx1 pn (proj1 Hc1) (proj2 (proj2 Hc1)) ltac:(unfold top; lia) ltac:(lia)
      (take (Z.to_nat (nranges ctx1)) (ranges ctx1)) [Range 0 (first_range ctx1)] eq_refl ltac:(done) ltac:(lia))
      as (pl & Esr & Hpl).
    rewrite Hln, Hbot in Esr. cbn [length Nat.sub] in Esr. rewrite Esr. cbn [mbind option_bind].
    apply place_result; [done|lia|done].
Qed.

(** C22: the ranges of a packet number space are the set of the numbers received. For every context in its
    invariant, every number and all flags, [ngx_quic_ack_packet] reads and
    writes inside of the array, keeps the invariant and adds the number to the set; when
    all ten ranges are in use it forgets the numbers below a bound, and no
    others. It fails only if there is no frame for an acknowledgement, and then the set does not change. *)
Theorem ack_packet_refines now tp pn rcv need qc ctx : wf ctx -> pn_ok pn ->
  exists rc qc' ctx', ngx_quic_ack_packet now tp true pn rcv need qc ctx = Some (rc, qc', ctx') /\
    (rc = NGX_OK /\ recorded pn ctx ctx' \/ rc = NGX_ERROR /\ flood qc /\ same_numbers ctx ctx').
Proof.
  intros Hw Hpn. unfold ngx_quic_ack_packet. cbn [negb].
  assert (Hs : same_spans ctx (if need then note_ack now pn ctx else ctx)).
  { destruct need; [|done]. unfold note_ack. cbv zeta. by repeat case_decide. }
  assert (Hw' : wf (if need then note_ack now pn ctx else ctx)).
  { destruct need; [|done]. unfold note_ack. cbv zeta. by repeat case_decide. }
  destruct (same_result pn _ ctx _ _ Hs (record_packet_ok now tp (pending_ack ctx) pn rcv need
    (if need then post_push qc else qc) _ Hw' Hpn)) as (rc & qc' & ctx' & E & H).
  exists rc, qc', ctx'. split; [exact E|]. by destruct need.
Qed.

(** *** Ranges that the peer knows to be acknowledged *)

(** Nothing but the numbers and the pending one changed. *)
Definition only_numbers (ctx ctx' : send_ctx) : Prop := set_pending 0 (rest ctx') = set_pending 0 (rest ctx).

(** The numbers above [pn] are left, and nothing else changed but the pending number. *)
Definition dropped (pn : Z) (ctx ctx' : send_ctx) : Prop :=
  wf ctx' /\ only_numbers ctx ctx' /\ forall x, received ctx' x <-> received ctx x /\ pn < x.

Lemma dropped_filled pn ctx ctx' : filled ctx -> array_ok ctx' -> largest_range ctx' = largest_range ctx ->
  only_numbers ctx ctx' -> ranges_ok (top ctx) (spans ctx') ->
  (forall x, in_ranges (top ctx) (spans ctx') x <-> in_ranges (top ctx) (spans ctx) x /\ pn < x) -> dropped pn ctx ctx'.
Proof.
  intros Hc Ha El Ho Hok Hx. assert (Et : top ctx' = top ctx) by (unfold top; by rewrite El).
  assert (Hc' : filled ctx') by (split; [done|]; rewrite El, Et; split; [apply Hc|done]).
  split; [by apply filled_wf|]. split; [done|]. intros x.
  by rewrite (filled_received _ _ Hc), (filled_received _ _ Hc'), Et, Hx.
Qed.

(** Above the bottom of the first part, and at most the top of the second. *)
Lemma in_ranges_cut s pre post x : ranges_ok s (pre ++ post) ->
  (in_ranges s pre x -> bottom s pre <= x) /\ (in_ranges (bottom s pre) post x -> x <= bottom s pre - 2).
Proof.
  intros [Hf Hb]. apply Forall_app in Hf as [H1 H2].
  split; intros H; apply in_ranges_bounds in H; (lia || done).
Qed.

Lemma spans_prefix ctx n pre q : spans ctx = pre ++ q -> Z.of_nat (length pre) = n + 1 -> 0 <= n ->
  spans (set_ranges n (ranges ctx) ctx) = pre.
Proof.
  intros E Hl Hn. unfold spans in *. cbn [first_range nranges ranges set_ranges].
  change (take (S (Z.to_nat (nranges ctx))) (Range 0 (first_range ctx) :: ranges ctx) = pre ++ q) in E.
  change (take (S (Z.to_nat n)) (Range 0 (first_range ctx) :: ranges ctx) = pre).
  assert (Hl2 := f_equal length E). rewrite length_take, length_app in Hl2.
  replace (S (Z.to_nat n)) with (length pre `min` S (Z.to_nat (nranges ctx)))%nat by lia.
  rewrite <- take_take, E. apply take_app_length.
Qed.

Lemma drop_loop_ok ctx pn : filled ctx ->
  forall post pre, spans ctx = pre ++ post -> pre <> [] -> pn < bottom (top ctx) pre ->
  exists ctx', drop_loop (length post) (length pre - 1) (bottom (top ctx) pre) pn ctx = Some ctx' /\ dropped pn ctx ctx'.
Proof.
  intros Hc. assert (Ha := proj1 Hc). assert (Hn10 := proj1 Ha). assert (Hok := proj2 (proj2 Hc)).
  induction post as [|r post IH]; intros pre E Hne Hlt.
  - exists ctx. split; [done|]. split; [by apply filled_wf|]. split; [done|]. intros x. rewrite filled_received by done.
    rewrite E, app_nil_r. rewrite E, app_nil_r in Hok. split; [|tauto]. intros Hx. split; [done|].
    apply in_ranges_bounds in Hx; [lia|apply Hok].
  - destruct (exists_last Hne) as (pre' & p & ->). rewrite length_app in *. cbn [length] in *.
    replace (length pre' + 1 - 1)%nat with (length pre') in * by lia.
    assert (Hln := length_spans ctx Ha). rewrite E, !length_app in Hln. cbn in Hln.
    assert (ranges ctx !! length pre' = Some r) as Er.
    { rewrite <- spans_lookup, E, lookup_app_r by (lia || rewrite length_app; cbn; lia).
      rewrite length_app. cbn. by replace (S (length pre') - (length pre' + 1))%nat with O by lia. }
    destruct (span_bound ctx (pre' ++ [p]) r post Hc E) as (Hg & Hr & Hlow & Hq & Hb & Ht).
    set (s := bottom (top ctx) (pre' ++ [p])) in *. rewrite Hlow in Hq.
    assert (Hok' := Hok). rewrite E in Hok'.
    cbn [drop_loop]. rewrite Er. cbn [mbind option_bind].
    rewrite (u64_in_ok (s - r_gap r - 2)), (u64_in_ok (s - r_gap r - 2 - r_range r)) by lia.
    destruct (decide (pn >= s - r_gap r - 2)) as [H1|H1].
    { eexists. split; [done|].
      assert (Es : spans (set_ranges (Z.of_nat (length pre')) (ranges ctx) ctx) = pre' ++ [p]).
      { eapply spans_prefix; [exact E|rewrite length_app; cbn; lia|lia]. }
      apply dropped_filled; [done|split; cbn; [lia|apply Ha]|done|done| |].
      - rewrite Es. destruct Hok' as [HF HB]. apply Forall_app in HF as [HF HF2]. split; [done|]. fold s. lia.
      - intros x. rewrite Es, E, (in_ranges_app _ (pre' ++ [p])). fold s. destruct (in_ranges_cut _ _ _ x Hok') as [C1 C2]. fold s in C1, C2.
        assert (Hle : in_ranges s (r :: post) x -> x <= pn).
        { cbn. intros [Hx|Hx]; [lia|]. apply in_ranges_bounds in Hx; [lia|].
          destruct Hok' as [HF _]. apply Forall_app in HF as [_ HF]. by inversion HF. }
        split; [intros Hx; specialize (C1 Hx); split; [by left|lia]|]. intros [[Hx|Hx] ?]; [done|]. specialize (Hle Hx). lia. }
    destruct (decide (pn >= s - r_gap r - 2 - r_range r)) as [H2|H2].
    { destruct (store_spans ctx (length pre') (Range (r_gap r) (u64 (s - r_gap r - 2 - pn - 1))) (pre' ++ [p]) r post Ha E
        ltac:(rewrite length_app; cbn; lia)) as (rs & -> & Es & Ho).
      cbn [mbind option_bind]. eexists. split; [done|]. rewrite u64_small in Es by lia.
      set (r' := Range (r_gap r) (s - r_gap r - 2 - pn - 1)) in *.
      assert (Es' : spans (set_ranges (Z.of_nat (length pre') + 1) rs ctx) = (pre' ++ [p]) ++ [r']).
      { change (spans (set_ranges (Z.of_nat (length pre') + 1) (ranges (set_ranges (nranges ctx) rs ctx))
                  (set_ranges (nranges ctx) rs ctx)) = (pre' ++ [p]) ++ [r']).
        apply (spans_prefix _ _ _ post); [by rewrite Es, <- !app_assoc|rewrite !length_app; cbn; lia|lia]. }
      destruct Hok' as [HF HB]. apply Forall_app in HF as [HF HF2].
      apply dropped_filled; [done| |done| | |].
      - split; cbn; [lia|]. apply Ho.
      - done.
      - rewrite Es'. split; [apply Forall_app; split; [done|]; constructor; [|done]; unfold range_ok; cbn; lia|].
        rewrite bottom_app. fold s. cbn. lia.
      - intros x. rewrite Es', E, !(in_ranges_app _ (pre' ++ [p])). fold s. cbn [in_ranges r_gap r_range r'].
        assert (in_ranges (s - r_gap r - 2 - r_range r) post x -> x <= pn).
        { intros Hx. apply in_ranges_bounds in Hx; [lia|]. by inversion HF2. }
        assert (in_ranges (top ctx) (pre' ++ [p]) x -> s <= x) by (intros Hx; apply in_ranges_bounds in Hx; [apply Hx|done]).
        unfold r'. cbn. intuition lia. }
    specialize (IH ((pre' ++ [p]) ++ [r])). rewrite !length_app in IH. cbn [length] in IH.
    replace (length pre' + 1 + 1 - 1)%nat with (S (length pre')) in IH by lia.
    rewrite Hlow in IH. apply IH; [by rewrite E, <- !app_assoc| |lia]. by destruct pre'.
Qed.

Lemma drop_ok pn ctx : wf ctx -> 0 <= pn ->
  exists ctx', ngx_quic_drop_ack_ranges pn ctx = Some ctx' /\ dropped pn ctx ctx'.
Proof.
  intros Hw Hpn. unfold ngx_quic_drop_ack_ranges. cbv zeta.
  destruct (decide (largest_range ctx = NGX_QUIC_UNSET_PN)) as [Hu|Hset].
  { exists ctx. split; [done|]. split; [done|]. split; [done|]. intros x. unfold received. tauto. }
  set (ctx1 := if decide (pending_ack ctx <> _ /\ _) then _ else ctx).
  assert (H1 : wf ctx1 /\ same_spans ctx ctx1 /\ only_numbers ctx ctx1 /\ first_range ctx1 = first_range ctx /\
               ranges ctx1 = ranges ctx) by (unfold ctx1; case_decide; done).
  destruct H1 as (Hw1 & (Es & El & En) & Ho & Ef & Er).
  assert (K : exists ctx', (if decide (pn >= largest_range ctx1)
     then Some (set_ranges 0 (ranges ctx1) (set_first 0 (set_largest NGX_QUIC_UNSET_PN ctx1)))
     else if decide (pn >= u64 (largest_range ctx1 - first_range ctx1))
          then Some (set_ranges 0 (ranges ctx1) (set_first (u64 (largest_range ctx1 - pn - 1)) ctx1))
          else drop_loop (Z.to_nat (nranges ctx1)) 0 (u64 (largest_range ctx1 - first_range ctx1)) pn ctx1) = Some ctx' /\
     dropped pn ctx1 ctx').
  { rewrite <- El in Hset. clear Es El En Ef Er Ho Hw. clearbody ctx1. clear ctx. rename ctx1 into ctx.
    assert (Hc := wf_filled ctx Hw1 Hset). assert (Hp := proj1 (proj2 Hc)). assert (Ha := proj1 Hc). unfold pn_ok in Hp.
    destruct (span_bound ctx [] _ _ Hc eq_refl) as (_ & Hf & Hbot & Hq & _ & _). cbn in Hf, Hq.
    cbn [app r_gap r_range] in Hbot. replace (bottom (top ctx) []) with (top ctx) in Hbot by done. unfold top in Hbot at 2.
    replace (largest_range ctx + 2 - 0 - 2 - first_range ctx) with (largest_range ctx - first_range ctx) in Hbot by lia.
    change (top ctx - 0 - 2 - first_range ctx) with (bottom (top ctx) [Range 0 (first_range ctx)]) in Hq. rewrite Hbot in Hq.
    assert (Hok := proj2 (proj2 Hc)). change (spans ctx) with ([Range 0 (first_range ctx)] ++ take (Z.to_nat (nranges ctx)) (ranges ctx)) in Hok.
    rewrite u64_in_ok by lia. destruct (decide (pn >= largest_range ctx)) as [H1|H1].
    { eexists. split; [done|]. split; [split; [done|]; split; [apply Ha|]; by left|]. split; [done|]. intros x.
      rewrite (filled_received ctx) by done. split; [by intros [? _]|]. intros [Hx ?].
      apply in_ranges_bounds in Hx; [unfold top in Hx; lia|apply Hc]. }
    destruct (decide (pn >= largest_range ctx - first_range ctx)) as [H2|H2].
    { rewrite u64_in_ok by lia. eexists. split; [done|]. set (ctx' := set_ranges _ _ _).
      assert (Es : spans ctx' = [Range 0 (largest_range ctx - pn - 1)]) by done.
      apply dropped_filled; [done|split; [done|apply Ha]|done|done| |].
      - rewrite Es. unfold top. split; [repeat (constructor; [unfold range_ok; cbn; lia|]); done|cbn; lia].
      - intros x. rewrite Es. change (spans ctx) with ([Range 0 (first_range ctx)] ++ take (Z.to_nat (nranges ctx)) (ranges ctx)).
        rewrite (in_ranges_app _ [Range 0 (first_range ctx)]), Hbot. unfold top. cbn.
        assert (in_ranges (largest_range ctx - first_range ctx) (take (Z.to_nat (nranges ctx)) (ranges ctx)) x -> x <= pn).
        { intros Hx. apply in_ranges_bounds in Hx; [lia|]. destruct Hok as [HF _]. by apply Forall_app in HF as [_ HF]. }
        intuition lia. }
    destruct (drop_loop_ok ctx pn Hc (take (Z.to_nat (nranges ctx)) (ranges ctx)) [Range 0 (first_range ctx)] eq_refl
      ltac:(done) ltac:(lia)) as (ctx' & E & Hd).
    rewrite Hbot, length_take in E. replace (Z.to_nat (nranges ctx) `min` length (ranges ctx))%nat with (Z.to_nat (nranges ctx)) in E
      by (unfold array_ok in Ha; lia).
    exists ctx'. split; [exact E|done]. }
  rewrite El in K. destruct K as (ctx' & E & Hw2 & Ho2 & Hx). exists ctx'. split; [exact E|]. split; [done|].
  split; [unfold only_numbers in *; congruence|]. intros x. rewrite Hx. unfold received, top. by rewrite Es, El.
Qed.

(** ** The frame for the received numbers *)

(** The integers of gaps and ranges. *)
Definition flat (ps : list (Z * Z)) : list Z := concat (map (fun p => [p.1; p.2]) ps).

(** The intervals below [min], as long as no number is negative. *)
Fixpoint intervals (min : Z) (ps : list (Z * Z)) : option (list (Z * Z)) :=
  match ps with
  | [] => Some []
  | (gap, range) :: ps =>
      if decide (0 <= min - gap - 2 - range) then
        ivs ← intervals (min - gap - 2 - range) ps;
        Some ((min - gap - 2 - range, min - gap - 2) :: ivs)
      else None
  end.

(** The intervals that a frame acknowledges. *)
Definition ack_covers (f : frame) (ivs : list (Z * Z)) : Prop :=
  match f_u f with
  | u_ack largest _ count first _ _ _ _ => exists ps, ints (flat ps) (concat (f_data f)) /\ Z.of_nat (length ps) = count /\
      intervals (largest + 2) ((0, first) :: ps) = Some ivs
  | _ => False
  end.

Definition pair_of (r : ack_range) : Z * Z := (r_gap r, r_range r).

Lemma intervals_ok s rs : ranges_ok s rs -> exists ivs, intervals s (map pair_of rs) = Some ivs /\
  forall x, in_ranges s rs x <-> Exists (fun iv => iv.1 <= x <= iv.2) ivs.
Proof.
  revert s. induction rs as [|r rs IH]; intros s [Hf Hb].
  - exists []. split; [done|]. intros x. by rewrite Exists_nil.
  - apply List.Forall_cons_iff in Hf as [[Hg Hr] Hf]. cbn [bottom] in Hb.
    destruct (IH (s - r_gap r - 2 - r_range r) (conj Hf Hb)) as (ivs & E & Hx).
    pose proof (bottom_le (s - r_gap r - 2 - r_range r) rs Hf).
    cbn. rewrite decide_True by lia. rewrite E. cbn. eexists. split; [done|]. intros x. rewrite Exists_cons, <- Hx. done.
Qed.

Lemma ints_range_bytes rs : Forall (fun r => int62 (r_gap r) /\ int62 (r_range r)) rs ->
  ints (flat (map pair_of rs)) (range_bytes rs).
Proof.
  induction 1 as [|r rs [H1 H2] _ IH]; [constructor|]. unfold range_bytes, flat. cbn. rewrite <- app_assoc.
  constructor; [by apply build_int_wire|]. constructor; [by apply build_int_wire|]. exact IH.
Qed.

Lemma spans_62 s rs : ranges_ok s rs -> s < 2 ^ 62 + 2 -> Forall (fun r => int62 (r_gap r) /\ int62 (r_range r)) rs.
Proof.
  revert s. induction rs as [|r rs IH]; intros s [Hf Hb] Hs; [done|].
  apply List.Forall_cons_iff in Hf as [[Hg Hr] Hf]. cbn [bottom] in Hb.
  pose proof (bottom_le (s - r_gap r - 2 - r_range r) rs Hf). unfold int62.
  constructor; [lia|]. apply (IH (s - r_gap r - 2 - r_range r)); [done|lia].
Qed.

Lemma concat_range_chain rs : concat (range_chain rs) = range_bytes rs.
Proof. destruct rs; [done|]. cbn. by rewrite app_nil_r. Qed.

Lemma flat_length ps : length (flat ps) = (2 * length ps)%nat.
Proof. induction ps as [|p ps IH]; [done|]. unfold flat in *. cbn. rewrite IH. lia. Qed.

Lemma ack_frame_typed now tp ctx : filled ctx -> int62 (ack_delay now tp ctx) -> typed (ack_frame now tp ctx).
Proof.
  intros Hc Hd. destruct Hc as ([Hn Hl] & Hp & Hok).
  assert (H62 := spans_62 _ _ Hok ltac:(unfold top, pn_ok in *; lia)). unfold spans in H62.
  apply List.Forall_cons_iff in H62 as [[_ Hf] H62].
  assert (Hi := ints_range_bytes _ H62). unfold typed, ack_frame. cbn [f_type f_data f_u]. rewrite concat_range_chain.
  split; [by apply ints_62 in Hi as [_ ?]|]. split; [by left|]. split.
  { repeat (constructor; [unfold int62, pn_ok in *; (done || lia)|]). constructor. }
  split; [|done]. eexists. split; [exact Hi|]. rewrite flat_length, length_map, length_take. lia.
Qed.

(** The acknowledgement of a packet number space is read back as exactly the numbers received. For every
    context with packets, [ngx_quic_send_ack] puts a frame in front of the queue that
    [ngx_quic_create_frame] writes with the announced length, the parser of frames
    accepts it, and the intervals of the frame, computed as its receiver does, contain a
    number if and only if the context has received it. The delay must be below 2^62
    after the scaling. *)
Theorem send_ack_roundtrip now tp qc qc' ctx flags r : wf ctx -> largest_range ctx <> NGX_QUIC_UNSET_PN ->
  int62 (ack_delay now tp ctx) -> ngx_quic_alloc_frame qc = Some qc' -> allowed flags NGX_QUIC_FT_ACK ->
  exists q bs f ivs, ngx_quic_send_ack now tp qc ctx = Some (NGX_OK, qc', set_frames (q :: frames ctx) ctx) /\
    ngx_quic_create_frame (q_frame q) = Some (false, (q_len q, bs)) /\ q_len q = Z.of_nat (length bs) /\
    ngx_quic_parse_frame flags (level ctx) (bs ++ r) = Parsed f r /\ ack_covers f ivs /\
    forall x, received ctx x <-> Exists (fun iv => iv.1 <= x <= iv.2) ivs.
Proof.
  intros Hw Hset Hd Hal A. assert (Hc := wf_filled ctx Hw Hset). assert (Hok := proj2 (proj2 Hc)).
  set (f := ack_frame now tp ctx). assert (Ht : typed f) by (by apply ack_frame_typed).
  destruct (ngx_quic_create_frame f) as [[need [n bs]]|] eqn:Ecr; [|done].
  assert (need = false) as -> 
    by (unfold f, ngx_quic_create_frame, ack_frame in Ecr; cbn [f_u f_type] in Ecr; rewrite decide_True in Ecr by done; by injection Ecr).
  destruct (create_parse_frame flags f false n bs r Ht Ecr A ltac:(done)) as [Hn Hpf].
  destruct (intervals_ok _ _ Hok) as (ivs & Ei & Hx).
  exists (new_frame f), bs, (as_parsed f), ivs. split; [rewrite send_ack_eq by apply Hc; by rewrite Hal|].
  split; [unfold new_frame; cbn [q_frame q_len]; by rewrite Ecr|].
  split; [unfold new_frame; cbn [q_len]; by rewrite Ecr|]. split; [exact Hpf|]. split.
  - unfold ack_covers. cbn [as_parsed f_u f_data f]. cbn. rewrite app_nil_r, concat_range_chain.
    exists (map pair_of (take (Z.to_nat (nranges ctx)) (ranges ctx))). split; [|split].
    + apply ints_range_bytes. assert (H62 := spans_62 _ _ Hok). unfold spans in H62.
      assert (Hp := proj1 (proj2 Hc)). unfold top, pn_ok in *. specialize (H62 ltac:(lia)). by apply List.Forall_cons_iff in H62 as [_ H62].
    + rewrite length_map, length_take. destruct Hc as [[? ?] _]. lia.
    + exact Ei.
  - intros x. rewrite filled_received by done. apply Hx.
Qed.

(** ** Received acknowledgements *)

(** What the handler relies on: the congestion controller does not touch the error of the connection; the streams
    touch neither the numbers nor the sent frames of the context (a stream that is closed queues a frame), but they
    may set the error, as [ngx_quic_close_stream] does at the end of a shutdown; path discovery never fails. *)
Class AckLaws (W : Type) `{AckClient W} : Prop := {
  congestion_keeps w qc ctx f : qerror (congestion_ack w qc ctx f).2 = qerror qc;
  stream_keeps w qc ctx f : let '(w', qc', ctx') := handle_stream_ack w qc ctx f in
    set_frames [] ctx' = set_frames [] ctx;
  mtu_total w min max : is_Some (handle_path_mtu w min max)
}.

(** A frame of which a stream is told when it is acknowledged. *)
Definition of_stream (q : queued) : Prop :=
  f_type (q_frame q) = NGX_QUIC_FT_STREAM \/ f_type (q_frame q) = NGX_QUIC_FT_RESET_STREAM.

(** The largest number that a sent frame acknowledges. *)
Definition ack_largest (q : queued) : option Z :=
  if decide (f_type (q_frame q) = NGX_QUIC_FT_ACK \/ f_type (q_frame q) = NGX_QUIC_FT_ACK_ECN) then
    match f_u (q_frame q) with u_ack largest _ _ _ _ _ _ _ => Some largest | _ => None end
  else None.

(** The union of a sent acknowledgement is the one of its type. *)
Definition sent_ok (q : queued) : Prop :=
  f_type (q_frame q) = NGX_QUIC_FT_ACK \/ f_type (q_frame q) = NGX_QUIC_FT_ACK_ECN ->
  exists l, ack_largest q = Some l /\ 0 <= l.

(** The packet of the frame is in the interval. *)
Definition hit (iv : Z * Z) (q : queued) : Prop := iv.1 <= q_pnum q <= iv.2.

#[global] Instance hit_dec iv q : Decision (hit iv q).
Proof. unfold hit. apply _. Defined.

Definition hits (ivs : list (Z * Z)) (q : queued) : Prop := Exists (fun iv => hit iv q) ivs.

#[global] Instance hits_dec ivs q : Decision (hits ivs q).
Proof. unfold hits. apply _. Defined.

Definition by_pnum (a b : queued) : Prop := q_pnum a <= q_pnum b.

(** No stream has a sent frame in the intervals. *)
Definition no_stream (ivs : list (Z * Z)) (s : list queued) : Prop :=
  forall q, q ∈ s -> hits ivs q -> ~ of_stream q.

(** The same context but for the queues and the numbers. *)
Definition stable (ctx ctx' : send_ctx) : Prop :=
  pnum ctx' = pnum ctx /\ level ctx' = level ctx /\ largest_ack ctx' = largest_ack ctx.

(** The frames of the intervals left the queue, and the numbers that the peer has seen
    acknowledged are dropped. *)
Definition acked_by (ivs : list (Z * Z)) (ctx ctx' : send_ctx) : Prop :=
  wf ctx' /\ sent ctx' = filter (fun q => ~ hits ivs q) (sent ctx) /\
  forall x, received ctx' x <-> received ctx x /\
    forall q l, q ∈ sent ctx -> hits ivs q -> ack_largest q = Some l -> l < x.

Lemma filter_all {A} (P : A -> Prop) `{forall x, Decision (P x)} l : Forall P l -> filter P l = l.
Proof. induction 1 as [|x l Hx _ IH]; [done|]. by rewrite filter_cons_True, IH. Qed.

Section HandleAckOk.

Context {W : Type} `{AckLaws W}.

Lemma acked_ok f max st w qc ctx : wf ctx -> sent_ok f ->
  exists st' w' qc' ctx', acked f max st w qc ctx = Some (st', w', qc', ctx') /\ (~ of_stream f -> qerror qc' = qerror qc) /\
    wf ctx' /\ sent ctx' = sent ctx /\ stable ctx ctx' /\
    forall x, received ctx' x <-> received ctx x /\ forall l, ack_largest f = Some l -> l < x.
Proof.
  intros Hw Hs. unfold acked. pose proof (congestion_keeps w qc ctx f) as Hq.
  destruct (congestion_ack w qc ctx f) as [w1 qc1]. cbn in Hq. unfold sent_ok, ack_largest in *.
  destruct (decide (f_type (q_frame f) = NGX_QUIC_FT_ACK \/ f_type (q_frame f) = NGX_QUIC_FT_ACK_ECN)) as [Ht|Ht].
  - destruct (Hs Ht) as (l & El & Hl). destruct (f_u (q_frame f)); try done. injection El as ->.
    destruct (drop_ok l ctx Hw Hl) as (ctx1 & -> & Hw1 & Ho & Hx). cbn [mbind option_bind].
    eexists _, w1, qc1, ctx1. split; [done|]. split; [done|]. split; [done|].
    split; [exact (f_equal sent Ho)|]. split.
    { split; [exact (f_equal pnum Ho)|]. split; [exact (f_equal level Ho)|exact (f_equal largest_ack Ho)]. }
    intros x. rewrite Hx. split; [intros [? ?]; split; [done|congruence]|]. intros [? Hlt]. split; [done|]. by apply Hlt.
  - destruct (decide (f_type (q_frame f) = NGX_QUIC_FT_STREAM \/ _)) as [Hty|Hty].
    + pose proof (stream_keeps w1 qc1 ctx f) as Hst. destruct (handle_stream_ack w1 qc1 ctx f) as [[w2 qc2] ctx2].
      rename Hst into Hc. cbn [mbind option_bind]. eexists _, w2, qc2, ctx2. split; [done|].
      split; [intros Hn; by destruct Hn|].
      split; [|split; [exact (f_equal sent Hc)|]].
      { change (wf (set_frames [] ctx2)). by rewrite Hc. }
      split; [split; [exact (f_equal pnum Hc)|]; split; [exact (f_equal level Hc)|exact (f_equal largest_ack Hc)]|].
      intros x. change (received ctx2 x) with (received (set_frames [] ctx2) x). rewrite Hc. 
      change (received (set_frames [] ctx) x) with (received ctx x). split; [done|]. by intros [? _].
    + cbn [mbind option_bind]. eexists _, w1, qc1, ctx. do 5 (split; [done|]). intros x. split; [done|]. by intros [? _].
Qed.

(** The frames of the queue that the loop passes. *)
Lemma acked_loop_ok min max q : forall kept found st w qc ctx, wf ctx -> Forall sent_ok q -> StronglySorted by_pnum q ->
  sent ctx = kept ++ q -> Forall (fun f => q_pnum f < min) kept ->
  exists found' st' w' qc' ctx', acked_loop q kept min max found st w qc ctx = Some (found', st', w', qc', ctx') /\
    (found' = true <-> found = true \/ Exists (hit (min, max)) q) /\
    (no_stream [(min, max)] q -> qerror qc' = qerror qc) /\
    wf ctx' /\ sent ctx' = kept ++ filter (fun f => ~ hits [(min, max)] f) q /\ stable ctx ctx' /\
    forall x, received ctx' x <-> received ctx x /\ forall f l, f ∈ q -> hits [(min, max)] f -> ack_largest f = Some l -> l < x.
Proof.
  assert (K : forall f, hits [(min, max)] f <-> hit (min, max) f).
  { intros f. unfold hits. rewrite Exists_cons, Exists_nil. tauto. }
  induction q as [|f q IH]; intros kept found st w qc ctx Hw Hs Hsort E Hk; cbn [acked_loop].
  - exists found, st, w, qc, ctx. split; [done|]. rewrite Exists_nil. split; [tauto|]. do 4 (split; [done|]).
    intros x. split; [|tauto]. intros Hx. split; [done|]. intros f l Hf. by apply elem_of_nil in Hf.
  - apply List.Forall_cons_iff in Hs as [Hf Hs]. apply StronglySorted_inv in Hsort as [Hsort Hle].
    destruct (decide (q_pnum f > max)) as [Hgt|Hgt].
    { assert (Hall : Forall (fun g => ~ hit (min, max) g) (f :: q)).
      { constructor; [unfold hit; cbn; lia|]. eapply List.Forall_impl; [|exact Hle]. intros g Hg. unfold by_pnum, hit in *. cbn. lia. }
      exists found, st, w, qc, ctx. split; [done|]. split.
      { split; [by left|]. intros [?|He]; [done|]. apply Exists_exists in He as (g & Hg & Hh).
        rewrite Forall_forall in Hall. by destruct (Hall g Hg). }
      split; [done|]. split; [done|]. split; [|split; [done|]].
      - rewrite E. f_equal. symmetry. apply filter_all. eapply List.Forall_impl; [|exact Hall]. intros g Hg. cbn. by rewrite K.
      - intros x. split; [|tauto]. intros Hx. split; [done|]. intros g l Hg Hh. rewrite Forall_forall in Hall.
        apply K in Hh. by destruct (Hall g Hg). }
    destruct (decide (q_pnum f >= min)) as [Hge|Hge].
    + assert (Hh : hit (min, max) f) by (unfold hit; cbn; lia).
      destruct (acked_ok f max st w qc ctx Hw Hf) as (st1 & w1 & qc1 & c1 & -> & Hq1 & Hw1 & Es & Hst & Hx1).
      cbn [mbind option_bind].
      destruct (IH kept true st1 w1 (ngx_quic_free_frame qc1) (set_sent (kept ++ q) c1) Hw1 Hs Hsort eq_refl Hk)
        as (found' & st' & w' & qc' & ctx' & -> & Hfo & Hq' & Hw' & Es' & Hst' & Hx').
      exists found', st', w', qc', ctx'. split; [done|]. split.
      { rewrite Hfo, Exists_cons. tauto. }
      split.
      { intros Hn. rewrite Hq' by (intros g Hg; apply Hn; by right). cbn. apply Hq1.
        apply Hn; [by left|by apply K]. }
      split; [done|]. split.
      { rewrite Es', filter_cons, decide_False; [done|]. intros Hn. apply Hn. by apply K. }
      split; [unfold stable in *; cbn in Hst'; intuition congruence|].
      intros x. rewrite Hx'. change (received (set_sent (kept ++ q) c1) x) with (received c1 x). rewrite Hx1. split.
      * intros [[Hx Hl] Hrest]. split; [done|]. intros g l Hg. apply elem_of_cons in Hg as [->|Hg]; [by intros _; apply Hl|by apply Hrest].
      * intros [Hx Hl]. split; [split; [done|]|].
        -- intros l. apply Hl; [by left|by apply K].
        -- intros g l Hg. apply Hl. by right.
    + destruct (IH (kept ++ [f]) found st w qc ctx Hw Hs Hsort) as (found' & st' & w' & qc' & ctx' & -> & Hfo & Hq' & Hw' & Es' & Hst' & Hx').
      { by rewrite E, <- app_assoc. } { apply Forall_app. split; [done|]. constructor; [lia|done]. }
      assert (Hn : ~ hit (min, max) f) by (unfold hit; cbn; lia).
      exists found', st', w', qc', ctx'. split; [done|]. split.
      { rewrite Hfo, Exists_cons. tauto. }
      split; [intros Hns; apply Hq'; intros g Hg; apply Hns; by right|]. split; [done|]. split.
      { rewrite Es', filter_cons, decide_True by (by rewrite K). by rewrite <- app_assoc. }
      split; [done|]. intros x. rewrite Hx'. split.
      * intros [Hx Hl]. split; [done|]. intros g l Hg. apply elem_of_cons in Hg as [->|Hg]; [by rewrite K|by apply Hl].
      * intros [Hx Hl]. split; [done|]. intros g l Hg. apply Hl. by right.
Qed.

Lemma hits_one iv f : hits [iv] f <-> hit iv f.
Proof. unfold hits. rewrite Exists_cons, Exists_nil. tauto. Qed.

Lemma acked_by_nil ctx ctx' : wf ctx' -> sent ctx' = sent ctx -> (forall x, received ctx' x <-> received ctx x) ->
  acked_by [] ctx ctx'.
Proof.
  intros Hw Es Hx. assert (N : forall f, ~ hits [] f) by (intros f; unfold hits; rewrite Exists_nil; tauto).
  split; [done|]. split.
  - rewrite filter_all; [done|]. apply Forall_forall. intros f _. apply N.
  - intros x. rewrite Hx. split; [|tauto]. intros Hr. split; [done|]. intros q l _ Hh. by destruct (N q).
Qed.

Lemma acked_by_cons iv ivs a b c : acked_by [iv] a b -> acked_by ivs b c -> acked_by (iv :: ivs) a c.
Proof.
  intros (_ & Es1 & Hx1) (Hw & Es2 & Hx2).
  assert (K : forall f, hits (iv :: ivs) f <-> hits [iv] f \/ hits ivs f).
  { intros f. unfold hits. rewrite !Exists_cons, Exists_nil. tauto. }
  split; [done|]. split.
  - rewrite Es2, Es1, list_filter_filter. apply list_filter_iff. intros f. rewrite K. tauto.
  - intros x. rewrite Hx2, Hx1, Es1. split.
    + intros [[Hr H1] H2]. split; [done|]. intros q l Hq Hh. apply K in Hh as [Hh|Hh]; [by apply H1|].
      destruct (decide (hits [iv] q)) as [Hi|Hi]; [by apply H1|]. apply H2; [|done]. by apply list_elem_of_filter.
    + intros [Hr H1]. split; [split; [done|]|].
      * intros q l Hq Hh. apply H1; [done|]. apply K. by left.
      * intros q l Hq Hh. apply list_elem_of_filter in Hq as [_ Hq]. apply H1; [done|]. apply K. by right.
Qed.

(** Some sent frame is in the interval, or its packets were sent. *)
Definition known (s : list queued) (pn : Z) (iv : Z * Z) : Prop := Exists (hit iv) s \/ iv.2 < pn.

#[global] Instance known_dec s pn iv : Decision (known s pn iv).
Proof. unfold known. apply _. Defined.

(** The intervals that are handled, and the error. *)
Fixpoint outcome (s : list queued) (pn min : Z) (ps : list (Z * Z)) : list (Z * Z) * option Z :=
  match ps with
  | [] => ([], None)
  | (gap, range) :: ps =>
      let max := min - gap - 2 in
      if decide (max - range < 0) then ([], Some NGX_QUIC_ERR_FRAME_ENCODING_ERROR)
      else if decide (known s pn (max - range, max)) then
        let (ivs, e) := outcome s pn (max - range) ps in
        ((max - range, max) :: ivs, e)
      else ([], Some NGX_QUIC_ERR_PROTOCOL_VIOLATION)
  end.

Definition pair_ok (p : Z * Z) : Prop := int62 p.1 /\ int62 p.2.

Lemma outcome_agree s s' pn ps : forall min, Forall pair_ok ps -> (forall q, q_pnum q < min - 1 -> q ∈ s' <-> q ∈ s) ->
  outcome s' pn min ps = outcome s pn min ps.
Proof.
  induction ps as [|[g r] ps IH]; intros min Hp Hs; [done|]. apply List.Forall_cons_iff in Hp as [[Hg Hr] Hp].
  unfold int62 in Hg, Hr. cbn in Hg, Hr. cbn [outcome]. destruct (decide (min - g - 2 - r < 0)); [done|].
  assert (E : known s' pn (min - g - 2 - r, min - g - 2) <-> known s pn (min - g - 2 - r, min - g - 2)).
  { unfold known. rewrite !Exists_exists. cbn. split; (intros [(q & Hq & Hh)|?]; [left; exists q|by right]).
    - split; [|done]. unfold hit in Hh. cbn in Hh. apply Hs; [lia|done].
    - split; [|done]. unfold hit in Hh. cbn in Hh. apply Hs; [lia|done]. }
  rewrite (IH (min - g - 2 - r)) by (done || (intros q Hq; apply Hs; lia)).
  destruct (decide (known s' pn _)) as [H1|H1], (decide (known s pn _)) as [H2|H2]; tauto.
Qed.

(** The queue of sent frames is in the order of their packets. *)
Definition queue_ok (ctx : send_ctx) : Prop := Forall sent_ok (sent ctx) /\ StronglySorted by_pnum (sent ctx).

Lemma queue_filter (P : queued -> Prop) `{forall q, Decision (P q)} s :
  Forall sent_ok s /\ StronglySorted by_pnum s -> Forall sent_ok (filter P s) /\ StronglySorted by_pnum (filter P s).
Proof.
  intros [Hs Hsort]. split; [apply Forall_forall; intros q Hq; apply list_elem_of_filter in Hq as [_ Hq]; by eapply Forall_forall in Hs|].
  induction Hsort as [|q s Hsort IH Hle]; [constructor|]. apply List.Forall_cons_iff in Hs as [_ Hs].
  rewrite filter_cons. case_decide; [|by apply IH]. constructor; [by apply IH|].
  apply Forall_forall. intros g Hg. apply list_elem_of_filter in Hg as [_ Hg]. by eapply Forall_forall in Hle.
Qed.

Lemma handle_range_ok min max st w qc ctx : wf ctx -> queue_ok ctx ->
  exists rc st' w' qc' ctx', ngx_quic_handle_ack_frame_range min max st w qc ctx = Some (rc, st', w', qc', ctx') /\
    stable ctx ctx' /\ queue_ok ctx' /\
    if decide (known (sent ctx) (pnum ctx) (min, max))
    then rc = NGX_OK /\ (no_stream [(min, max)] (sent ctx) -> qerror qc' = qerror qc) /\ acked_by [(min, max)] ctx ctx'
    else rc = NGX_ERROR /\ qerror qc' = NGX_QUIC_ERR_PROTOCOL_VIOLATION /\ acked_by [] ctx ctx'.
Proof.
  intros Hw Hq. unfold ngx_quic_handle_ack_frame_range.
  assert (Hm : is_Some (if decide (level ctx = NGX_QUIC_ENCRYPTION_APPLICATION) then handle_path_mtu w min max else Some w)).
  { case_decide; [apply mtu_total|by eexists]. }
  destruct Hm as [w1 ->]. destruct Hq as [Hs Hsort].
  destruct (acked_loop_ok min max (sent ctx) [] false (AckStat NGX_TIMER_INFINITE (oldest st) (newest st)) w1 qc ctx
    Hw Hs Hsort eq_refl (Forall_nil_2 _)) as (found & st' & w' & qc' & ctx' & -> & Hf & Hqe & Hw' & Es & Hst & Hx).
  cbn [app] in Es. cbn [mbind option_bind].
  assert (Hq' : queue_ok ctx') by (unfold queue_ok; rewrite Es; by apply queue_filter).
  assert (Hby : acked_by [(min, max)] ctx ctx') by done.
  assert (Hpn : pnum ctx' = pnum ctx) by apply Hst.
  destruct found.
  - eexists _, st', w', _, ctx'. split; [done|]. split; [done|]. split; [done|]. rewrite decide_True.
    + split; [done|]. split; [|done]. cbn. destruct (push_timer qc'); done.
    + left. destruct Hf as [Hf _]. by destruct (Hf eq_refl).
  - assert (Hn : ~ Exists (hit (min, max)) (sent ctx)) by (intros He; destruct Hf as [_ Hf]; by specialize (Hf (or_intror He))).
    destruct (decide (max < pnum ctx')) as [Hlt|Hlt].
    + eexists _, st', w', qc', ctx'. split; [done|]. split; [done|]. split; [done|]. rewrite decide_True; [done|].
      right. cbn. lia.
    + eexists _, st', w', _, ctx'. split; [done|]. split; [done|]. split; [done|]. rewrite decide_False.
      * split; [done|]. split; [done|]. assert (Hno : forall f, f ∈ sent ctx -> ~ hits [(min, max)] f).
        { intros f Hin Hh. apply Hn. apply Exists_exists. exists f. split; [done|]. by apply hits_one. }
        apply acked_by_nil; [done| |].
        -- rewrite Es. apply filter_all. apply Forall_forall. exact Hno.
        -- intros x. rewrite Hx. split; [tauto|]. intros Hr. split; [done|]. intros f l Hin Hh. by destruct (Hno f).
      * intros [?|?]; [done|]. cbn in *. lia.
Qed.

Lemma stable_trans a b c : stable a b -> stable b c -> stable a c.
Proof. unfold stable. intuition congruence. Qed.

Lemma acked_by_queue ivs a b : queue_ok a -> acked_by ivs a b -> queue_ok b.
Proof. intros Hq (_ & Es & _). unfold queue_ok. rewrite Es. by apply queue_filter. Qed.

(** The error of the connection afterwards: that of the frame, or the one before, which only a stream may change. *)
Definition error_is (e : option Z) (ivs : list (Z * Z)) (s : list queued) (before after : Z) : Prop :=
  match e with Some err => after = err | None => no_stream ivs s -> after = before end.

Lemma no_stream_cons iv ivs a b : acked_by [iv] a b -> no_stream (iv :: ivs) (sent a) ->
  no_stream [iv] (sent a) /\ no_stream ivs (sent b).
Proof.
  intros (_ & Es & _) Hn. unfold no_stream, hits in *. split; intros q Hq Hh.
  - apply Hn; [done|]. apply Exists_cons in Hh as [Hh|Hh]; [by apply Exists_cons_hd|by apply Exists_nil in Hh].
  - rewrite Es in Hq. apply list_elem_of_filter in Hq as [_ Hq]. apply Hn; [done|]. by apply Exists_cons_tl.
Qed.

Definition result_of (e : option Z) : Z := match e with None => NGX_OK | Some _ => NGX_ERROR end.

Lemma ranges_loop_ok ps : forall fuel min pos st w qc ctx, wf ctx -> queue_ok ctx -> ints (flat ps) pos ->
  Forall pair_ok ps -> (length ps < fuel)%nat -> 0 <= min < 2 ^ 62 ->
  let (ivs, e) := outcome (sent ctx) (pnum ctx) min ps in
  exists st' w' qc' ctx', ranges_loop fuel (Z.of_nat (length ps)) min pos st w qc ctx =
      Some (result_of e, st', w', qc', ctx') /\
    error_is e ivs (sent ctx) (qerror qc) (qerror qc') /\ stable ctx ctx' /\ acked_by ivs ctx ctx'.
Proof.
  induction ps as [|[g r] ps IH]; intros fuel min pos st w qc ctx Hw Hq Hi Hp Hf Hmin;
    (destruct fuel as [|fuel]; [cbn in Hf; lia|]); cbn [outcome ranges_loop].
  - rewrite decide_False by (cbn; lia). eexists _, _, _, _. split; [done|]. split; [done|]. split; [done|]. by apply acked_by_nil.
  - apply List.Forall_cons_iff in Hp as [[Hg Hr] Hp]. unfold int62 in Hg, Hr. cbn in Hg, Hr.
    rewrite (decide_True (P := Z.of_nat (length ((g, r) :: ps)) > 0)) by (cbn; lia). change (flat ((g, r) :: ps)) with (g :: r :: flat ps) in Hi.
    apply ints_inv_cons in Hi as (bg & p1 & -> & Wg & Hi). apply ints_inv_cons in Hi as (br & p2 & -> & Wr & Hi).
    unfold ngx_quic_parse_ack_range. rewrite (parse_int_wire _ _ _ Wg). cbn [mbind option_bind].
    rewrite (parse_int_wire _ _ _ Wr). cbn [mbind option_bind]. rewrite (u64_small (g + 2)) by lia.
    destruct (decide (min - g - 2 - r < 0)) as [Hneg|Hpos].
    { destruct (decide (g + 2 > min)); [|rewrite (u64_small (min - g - 2)) by lia; rewrite decide_True by lia];
        (eexists _, _, _, _; split; [done|]; split; [done|]; split; [done|]; by apply acked_by_nil). }
    rewrite (decide_False (P := g + 2 > min)), (u64_small (min - g - 2)) by lia.
    rewrite (decide_False (P := r > min - g - 2)), u64_small by lia.
    destruct (handle_range_ok (min - g - 2 - r) (min - g - 2) st w qc ctx Hw Hq)
      as (rc & st1 & w1 & qc1 & c1 & -> & Hst1 & Hq1 & Hk).
    cbn [mbind option_bind]. destruct (decide (known _ _ _)) as [Hkn|Hkn].
    + destruct Hk as (-> & Hqe & Hby). rewrite (decide_False (P := NGX_OK <> NGX_OK)) by (intros H1; by apply H1).
      replace (Z.of_nat (length ((g, r) :: ps)) - 1) with (Z.of_nat (length ps)) by (cbn; lia).
      specialize (IH fuel (min - g - 2 - r) p2 st1 w1 qc1 c1 (proj1 Hby) Hq1 Hi Hp ltac:(cbn in Hf; lia) ltac:(lia)).
      assert (Eo : outcome (sent c1) (pnum c1) (min - g - 2 - r) ps = outcome (sent ctx) (pnum ctx) (min - g - 2 - r) ps).
      { destruct Hst1 as (-> & _). apply outcome_agree; [done|]. intros q Hlt. destruct Hby as (_ & -> & _).
        rewrite list_elem_of_filter. split; [tauto|]. intros Hin. split; [|done]. rewrite hits_one. unfold hit. cbn. lia. }
      rewrite Eo in IH. destruct (outcome (sent ctx) (pnum ctx) (min - g - 2 - r) ps) as [ivs e].
      destruct IH as (st' & w' & qc' & ctx' & -> & Hqe' & Hst' & Hby'). eexists _, _, _, _. split; [done|].
      split; [|split; [by eapply stable_trans|by eapply acked_by_cons]].
      destruct e; [exact Hqe'|]. intros Hn. destruct (no_stream_cons _ _ _ _ Hby Hn) as [Hn1 Hn2].
      by rewrite (Hqe' Hn2), (Hqe Hn1).
    + destruct Hk as (-> & Hqe & Hby). rewrite (decide_True (P := NGX_ERROR <> NGX_OK)) by done. eexists _, _, _, _. split; [done|]. done.
Qed.

Lemma flat_pairs ps : Forall int62 (flat ps) -> Forall pair_ok ps.
Proof.
  induction ps as [|[g r] ps IH]; intros Hf; [done|]. change (flat ((g, r) :: ps)) with (g :: r :: flat ps) in Hf.
  apply List.Forall_cons_iff in Hf as [Hg Hf]. apply List.Forall_cons_iff in Hf as [Hr Hf]. constructor; [done|by apply IH].
Qed.

Lemma flat_bytes ps bs : ints (flat ps) bs -> (length ps < S (length bs))%nat.
Proof.
  revert bs. induction ps as [|[g r] ps IH]; intros bs Hi; [cbn; lia|]. change (flat ((g, r) :: ps)) with (g :: r :: flat ps) in Hi.
  apply ints_inv_cons in Hi as (bg & p1 & -> & Wg & Hi). apply ints_inv_cons in Hi as (br & p2 & -> & Wr & Hi).
  specialize (IH p2 Hi). apply int_wire_range in Wg as (_ & _ & ?). rewrite !length_app. cbn [length]. lia.
Qed.

(** C23: what a received acknowledgement does. For every well-formed ACK frame with pairs [ps] of gap and range in its
    buffer, [ngx_quic_handle_ack_frame] handles the intervals in the order of the
    frame up to the first one that has a negative number, which is FRAME_ENCODING_ERROR, or that has no frame in the
    queue of sent frames and reaches a number that was not used yet, which is PROTOCOL_VIOLATION ([outcome]; an interval
    with a sent frame is accepted even if it goes on to numbers that were not used). The sent frames of exactly the
    packets of these intervals leave the queue, each acknowledgement among them drops the numbers up to its
    largest one, and nothing else of the received numbers changes; the largest acknowledged number is
    raised to the one of the frame; the detection of losses runs exactly if there is no error. The error of the
    connection is that of the frame; without one it is the one before, unless a stream that was told of an
    acknowledged frame has set it. *)
Theorem handle_ack_exact f w qc ctx largest delay first ect0 ect1 ce n ps : wf ctx -> queue_ok ctx ->
  f_u f = u_ack largest delay (Z.of_nat (length ps)) first ect0 ect1 ce n -> ints (flat ps) (List.hd [] (f_data f)) ->
  int62 largest -> int62 first ->
  let (ivs, e) := outcome (sent ctx) (pnum ctx) (largest + 2) ((0, first) :: ps) in
  exists st w' qc' ctx', acked_by ivs ctx ctx' /\ error_is e ivs (sent ctx) (qerror qc) (qerror qc') /\ pnum ctx' = pnum ctx /\
    largest_ack ctx' =
      (if decide (ivs <> [] /\ (largest_ack ctx < largest \/ largest_ack ctx = NGX_QUIC_UNSET_PN)) then largest
       else largest_ack ctx) /\
    ngx_quic_handle_ack_frame f w qc ctx =
      match e with None => detect_lost w' st qc' ctx' | Some _ => Some (NGX_ERROR, w', qc', ctx') end.
Proof.
  intros Hw Hq Eu Hi Hl Hf. unfold ngx_quic_handle_ack_frame, handle_ranges. rewrite Eu.
  cbn [outcome]. unfold int62 in Hl, Hf. replace (largest + 2 - 0 - 2) with largest by lia.
  destruct (decide (largest - first < 0)) as [Hneg|Hpos].
  { rewrite (decide_True (P := first > largest)) by lia. cbn [mbind option_bind].
    eexists (AckStat 0 0 0), w, _, ctx. split; [by apply acked_by_nil|]. split; [|split; [done|]; split; [|done]]; [done|].
    by rewrite decide_False by (intros [Hn _]; by apply Hn). }
  rewrite (decide_False (P := first > largest)), u64_small by lia.
  destruct (handle_range_ok (largest - first) largest (AckStat 0 NGX_TIMER_INFINITE NGX_TIMER_INFINITE) w qc ctx Hw Hq)
    as (rc & st1 & w1 & qc1 & c1 & -> & Hst1 & Hq1 & Hk).
  cbn [mbind option_bind]. destruct (decide (known _ _ _)) as [Hkn|Hkn].
  - destruct Hk as (-> & Hqe & Hby). rewrite (decide_False (P := NGX_OK <> NGX_OK)) by (intros H1; by apply H1).
    set (wc := if decide (largest_ack c1 < largest \/ _) then _ else (w1, c1)). destruct wc as [w2 c2] eqn:Ewc.
    assert (E2 : sent c2 = sent c1 /\ pnum c2 = pnum c1 /\ wf c2 /\ (forall x, received c2 x <-> received c1 x) /\
                 largest_ack c2 = if decide (largest_ack c1 < largest \/ largest_ack c1 = NGX_QUIC_UNSET_PN) then largest
                                  else largest_ack c1).
    { unfold wc in Ewc. destruct Hby as [Hw1 _]. case_decide; injection Ewc as _ <-; done. }
    destruct E2 as (Es2 & Ep2 & Hw2 & Hx2 & El2). clearbody wc. clear wc Ewc.
    assert (Hq2 : queue_ok c2) by (unfold queue_ok; by rewrite Es2).
    assert (Hp := proj1 (ints_62 _ _ Hi)). apply flat_pairs in Hp.
    assert (R := ranges_loop_ok ps (S (length (List.hd [] (f_data f)))) (largest - first) _ st1 w2 qc1 c2 Hw2 Hq2 Hi Hp
      (flat_bytes _ _ Hi) ltac:(lia)).
    assert (Eo : outcome (sent c2) (pnum c2) (largest - first) ps = outcome (sent ctx) (pnum ctx) (largest - first) ps).
    { rewrite Ep2, (proj1 Hst1). apply outcome_agree; [done|]. intros q Hlt. rewrite Es2. destruct Hby as (_ & -> & _).
      rewrite list_elem_of_filter. split; [tauto|]. intros Hin. split; [|done]. rewrite hits_one. unfold hit. cbn. lia. }
    rewrite Eo in R. destruct (outcome (sent ctx) (pnum ctx) (largest - first) ps) as [ivs e].
    destruct R as (st' & w' & qc' & ctx' & -> & Hqe' & Hst' & Hby'). cbn [mbind option_bind].
    exists st', w', qc', ctx'. split; [|split].
    2: { destruct e; [exact Hqe'|]. intros Hn. destruct (no_stream_cons _ _ _ _ Hby Hn) as [Hn1 Hn2].
         rewrite <- Es2 in Hn2. by rewrite (Hqe' Hn2), (Hqe Hn1). }
    { apply (acked_by_cons _ _ _ c1); [done|]. destruct Hby' as (Hw' & Es' & Hx'). split; [done|].
      split; [by rewrite Es', Es2|]. intros x. by rewrite Hx', Hx2, Es2. }
    split; [rewrite (proj1 Hst'), Ep2; apply Hst1|]. split.
    + rewrite (proj2 (proj2 Hst')), El2, (proj2 (proj2 Hst1)). repeat case_decide; try done; exfalso; naive_solver.
    + destruct e; cbn [result_of]; [by rewrite decide_True|by rewrite decide_False by (intros H1; by apply H1)].
  - destruct Hk as (-> & Hqe & Hby). rewrite (decide_True (P := NGX_ERROR <> NGX_OK)) by done. cbn [mbind option_bind].
    exists st1, w1, qc1, c1. split; [done|]. split; [done|]. split; [apply Hst1|]. split; [|by rewrite decide_True].
    rewrite decide_False by (intros [Hn _]; by apply Hn). apply Hst1.
Qed.

End HandleAckOk.

(** ** Runs of a packet number space *)

(** The frame of [ngx_quic_send_ack_range] for one number. *)
Definition single_frame (lv pn : Z) : frame := Frame NGX_QUIC_FT_ACK lv [] (u_ack pn 0 0 (u64 (pn - pn)) 0 0 0 0).

(** The queues after an operation on the packet [pn]: at most one acknowledgement more, of the numbers
    before the packet or of the packet alone. *)
Definition emits (now : Z) (tp : tparams) (pn : Z) (ctx ctx' : send_ctx) : Prop :=
  sent ctx' = sent ctx /\
  (frames ctx' = frames ctx \/
   (exists c, same_spans ctx c /\ filled c /\ frames ctx' = new_frame (ack_frame now tp c) :: frames ctx) \/
   frames ctx' = frames ctx ++ [new_frame (single_frame (level ctx) pn)]).

Definition same_queues (ctx ctx' : send_ctx) : Prop :=
  sent ctx' = sent ctx /\ frames ctx' = frames ctx /\ level ctx' = level ctx.

Lemma grow_queues i d ctx ctx' : grow i d ctx = Some ctx' -> same_queues ctx ctx'.
Proof.
  destruct i; cbn [grow]; [by intros [= <-]|]. destruct (ranges ctx !! i); [|done]. cbn [mbind option_bind].
  destruct (store_range _ _ _); [|done]. by intros [= <-].
Qed.

Lemma insert_queues i g r ctx ctx' : insert_range i g r ctx = Some ctx' -> same_queues ctx ctx'.
Proof.
  unfold insert_range. cbv zeta. destruct (move_ranges _ _ _ _) as [rs|]; [|done]. cbn [mbind option_bind].
  destruct (store_range _ _ _); [|done]. by intros [= <-].
Qed.

Lemma same_emits now tp pn a b c : same_queues b c -> emits now tp pn a b -> emits now tp pn a c.
Proof. intros (E1 & E2 & E3) [H1 H2]. unfold emits. by rewrite E1, E2. Qed.

Lemma emits_same now tp pn ctx ctx' : same_queues ctx ctx' -> emits now tp pn ctx ctx'.
Proof. intros (E1 & E2 & E3). split; [done|by left]. Qed.

Lemma send_full_emits now tp prev need pn qc ctx rc qc' ctx' : filled ctx ->
  send_full now tp prev need qc ctx = Some (rc, qc', ctx') -> emits now tp pn ctx ctx'.
Proof.
  intros Hc. unfold send_full. destruct (decide (nranges ctx = _)); [|intros [= <- <- <-]; by apply emits_same].
  destruct (decide (prev <> _)).
  - rewrite send_ack_eq by apply Hc. destruct (ngx_quic_alloc_frame qc) as [qc1|]; cbn [mbind option_bind].
    + rewrite decide_False by (intros H1; by apply H1).
      intros [= <- <- <-]. split; [by case_decide|]. right. left. exists ctx. split; [done|]. split; [done|]. by case_decide.
    + rewrite decide_True by done. intros [= <- <- <-]. by apply emits_same.
  - cbn [mbind option_bind]. rewrite decide_False by (intros H1; by apply H1). intros [= <- <- <-].
    apply emits_same. by case_decide.
Qed.

Lemma fill_gap_emits now tp prev pn need i r gs ge qc ctx rc qc' ctx' : filled ctx ->
  fill_gap now tp prev pn need i r gs ge qc ctx = Some (rc, qc', ctx') -> emits now tp pn ctx ctx'.
Proof.
  intros Hc. unfold fill_gap. destruct (decide (gs = ge)).
  { destruct (grow _ _ _) as [c1|] eqn:E1; [|done]. apply grow_queues in E1. cbn [mbind option_bind].
    set (m := if decide _ then _ else _). destruct m; [|done]. intros [= <- <- <-]. apply emits_same. exact E1. }
  destruct (decide (pn = gs)).
  { destruct (store_range _ _ _); [|done]. intros [= <- <- <-]. by apply emits_same. }
  destruct (decide (pn = ge)).
  { destruct (store_range _ _ _) as [rs|]; [|done]. cbn [mbind option_bind].
    destruct (grow _ _ _) as [c1|] eqn:E1; [|done]. apply grow_queues in E1. intros [= <- <- <-]. apply emits_same. exact E1. }
  destruct (send_full _ _ _ _ _ _) as [[[rc1 qc1] c1]|] eqn:Es; [|done].
  apply (send_full_emits _ _ _ _ pn) in Es; [|done]. cbn [mbind option_bind].
  destruct (decide (rc1 <> NGX_OK)); [by intros [= <- <- <-]|].
  destruct (store_range _ _ _) as [rs|]; [|done]. cbn [mbind option_bind].
  destruct (insert_range _ _ _ _) as [c2|] eqn:E2; [|done]. apply insert_queues in E2. intros [= <- <- <-].
  by apply (same_emits _ _ _ _ c1).
Qed.

Lemma record_packet_emits now tp prev pn rcv need qc ctx rc qc' ctx' : wf ctx ->
  record_packet now tp prev pn rcv need qc ctx = Some (rc, qc', ctx') -> emits now tp pn ctx ctx'.
Proof.
  intros Hw. unfold record_packet. cbv zeta.
  destruct (decide (largest_range ctx = NGX_QUIC_UNSET_PN)) as [|Hset]; [intros [= <- <- <-]; by apply emits_same|].
  assert (Hc := wf_filled ctx Hw Hset).
  destruct (decide (largest_range ctx = pn)); [intros [= <- <- <-]; by apply emits_same|].
  destruct (decide (pn > largest_range ctx)).
  - destruct (decide (u64 _ = 1)); [intros [= <- <- <-]; by apply emits_same|]. unfold new_front.
    destruct (send_full _ _ _ _ _ _) as [[[rc1 qc1] c1]|] eqn:Es; [|done].
    apply (send_full_emits _ _ _ _ pn) in Es; [|done]. cbn [mbind option_bind].
    destruct (decide (rc1 <> NGX_OK)); [by intros [= <- <- <-]|]. cbv zeta.
    destruct (insert_range _ _ _ _) as [c2|] eqn:E2; [|done]. apply insert_queues in E2. intros [= <- <- <-].
    apply (same_emits _ _ _ _ c1); [|done]. by destruct need.
  - set (ctx1 := if need then set_send_ack _ _ else ctx).
    assert (Hs : filled ctx1 /\ same_spans ctx ctx1 /\ same_queues ctx ctx1) by (unfold ctx1; by destruct need).
    clearbody ctx1. destruct Hs as (Hc1 & Hs1 & Hq1).
    assert (K : forall c, emits now tp pn ctx1 c -> emits now tp pn ctx c).
    { intros c [H1 H2]. destruct Hq1 as (Q1 & Q2 & Q3). split; [congruence|]. rewrite Q2, Q3 in H2.
      destruct H2 as [?|[(c1 & Hcs & ? & ?)|?]]; [by left| |by right; right]. right. left. exists c1.
      split; [|done]. unfold same_spans in *. intuition congruence. }
    intros H. apply K. clear K. revert H.
    destruct (decide (u64 _ <= pn <= _)); [intros [= <- <- <-]; by apply emits_same|].
    destruct (search _ _ _ _ _) as [[|i r gs ge|s]|]; [..|done]; cbn [mbind option_bind].
    + intros [= <- <- <-]. by apply emits_same.
    + by apply fill_gap_emits.
    + destruct (decide (pn = _)).
      { destruct (grow _ _ _) as [c1|] eqn:E1; [|done]. apply grow_queues in E1. intros [= <- <- <-]. by apply emits_same. }
      destruct (decide (nranges ctx1 = _)).
      { destruct need; [|intros [= <- <- <-]; by apply emits_same]. unfold ngx_quic_send_ack_range.
        destruct (ngx_quic_alloc_frame qc); [|intros [= <- <- <-]; by apply emits_same]. cbn.
        intros [= <- <- <-]. split; [done|]. right. by right. }
      destruct (insert_range _ _ _ _) as [c1|] eqn:E1; [|done]. apply insert_queues in E1. intros [= <- <- <-].
      by apply emits_same.
Qed.

(** A packet number space with the numbers that were received so far. *)
Record space := Space { s_conn : conn; s_ctx : send_ctx; s_history : list Z }.

(** The frame acknowledges packets. *)
Definition is_ack (q : queued) : Prop :=
  f_type (q_frame q) = NGX_QUIC_FT_ACK \/ f_type (q_frame q) = NGX_QUIC_FT_ACK_ECN.

Fixpoint drop_all (ls : list Z) (ctx : send_ctx) : option send_ctx :=
  match ls with
  | [] => Some ctx
  | l :: ls => ctx ← ngx_quic_drop_ack_ranges l ctx; drop_all ls ctx
  end.

(** A packet is handled: the acknowledgements in it drop numbers and the loss of
    others may force an acknowledgement; then the packet is recorded. The output makes an acknowledgement;
    a frame of the queue is sent with a number; a sent frame leaves the queue, and the loss of an
    acknowledgement forces another one. Other frames come and go in the queue of frames. *)
Inductive step : space -> space -> Prop :=
  | step_receive now tp ls forced pn rcv need qc qc0 qc' ctx ctx1 ctx' h :
      pn_ok pn -> Forall (fun l => 0 <= l) ls -> drop_all ls ctx = Some ctx1 ->
      ngx_quic_ack_packet now tp true pn rcv need qc0
        (if forced : bool then set_send_ack NGX_QUIC_MAX_ACK_GAP ctx1 else ctx1) = Some (NGX_OK, qc', ctx') ->
      step (Space qc ctx h) (Space qc' ctx' (pn :: h))
  | step_generate now tp qc qc' ctx ctx' h :
      ngx_quic_generate_ack now tp qc ctx = Some (NGX_OK, qc', ctx') -> step (Space qc ctx h) (Space qc' ctx' h)
  | step_send qc qc' ctx a q q' b h : frames ctx = a ++ q :: b -> q_frame q' = q_frame q ->
      step (Space qc ctx h) (Space qc' (set_sent (sent ctx ++ [q']) (set_frames (a ++ b) ctx)) h)
  | step_lost qc qc' ctx a q b h : sent ctx = a ++ q :: b ->
      step (Space qc ctx h) (Space qc' (set_sent (a ++ b)
        (if decide (is_ack q /\ level ctx = NGX_QUIC_ENCRYPTION_APPLICATION) then set_send_ack NGX_QUIC_MAX_ACK_GAP ctx else ctx)) h)
  | step_other qc qc' ctx fs h : Forall (fun q => is_ack q -> q ∈ frames ctx) fs ->
      step (Space qc ctx h) (Space qc' (set_frames fs ctx) h).

(** A new space: nothing received, empty queues. *)
Definition initial (s : space) : Prop :=
  wf (s_ctx s) /\ largest_range (s_ctx s) = NGX_QUIC_UNSET_PN /\ frames (s_ctx s) = [] /\ sent (s_ctx s) = [] /\
  send_ack (s_ctx s) = 0 /\ s_history s = [].

(** What the frame acknowledges was received, and it acknowledges something. *)
Definition truthful (h : list Z) (q : queued) : Prop :=
  is_ack q -> exists ivs, ack_covers (q_frame q) ivs /\ (exists x, Exists (fun iv => iv.1 <= x <= iv.2) ivs) /\
    forall x, Exists (fun iv => iv.1 <= x <= iv.2) ivs -> x ∈ h.

Record space_inv (s : space) : Prop := {
  inv_wf : wf (s_ctx s);
  inv_numbers : forall x, received (s_ctx s) x -> x ∈ s_history s;
  inv_set : s_history s <> [] -> largest_range (s_ctx s) <> NGX_QUIC_UNSET_PN;
  inv_flag : send_ack (s_ctx s) <> 0 -> s_history s <> [];
  inv_frames : Forall (truthful (s_history s)) (frames (s_ctx s) ++ sent (s_ctx s))
}.

Lemma truthful_mono h h' q : (forall x, x ∈ h -> x ∈ h') -> truthful h q -> truthful h' q.
Proof. intros Hs Ht Ha. destruct (Ht Ha) as (ivs & H1 & H2 & H3). exists ivs. split; [done|]. split; [done|]. auto. Qed.

Lemma truthful_history h q : truthful h q -> is_ack q -> h <> [].
Proof.
  intros Ht Ha. destruct (Ht Ha) as (ivs & _ & (x & Hx) & H3). apply H3 in Hx. intros ->. by apply not_elem_of_nil in Hx.
Qed.

Lemma ack_frame_truthful now tp c h : filled c -> (forall x, received c x -> x ∈ h) -> truthful h (new_frame (ack_frame now tp c)).
Proof.
  intros Hc Hh _. destruct (intervals_ok _ _ (proj2 (proj2 Hc))) as (ivs & Ei & Hx). exists ivs. split; [|split].
  - cbn. rewrite concat_range_chain. exists (map pair_of (take (Z.to_nat (nranges c)) (ranges c))).
    split; [|split; [rewrite length_map, length_take; destruct Hc as [[? ?] _]; lia|exact Ei]].
    assert (Hp := proj1 (proj2 Hc)). assert (H62 := spans_62 (top c) (spans c) (proj2 (proj2 Hc)) ltac:(unfold top, pn_ok in *; lia)).
    apply ints_range_bytes. by apply List.Forall_cons_iff in H62 as [_ H62].
  - exists (largest_range c). apply Hx. left. destruct (span_bound c [] _ _ Hc eq_refl) as (_ & Hf & _). unfold top. cbn in *. lia.
  - intros x He. apply Hh, filled_received; [done|]. by apply Hx.
Qed.

Lemma single_truthful lv pn h : 0 <= pn -> pn ∈ h -> truthful h (new_frame (single_frame lv pn)).
Proof.
  intros H0 Hin _. exists [(pn, pn)]. split; [|split].
  - cbn. exists []. split; [constructor|]. split; [done|]. rewrite Z.sub_diag. change (u64 0) with 0. cbn. rewrite decide_True by lia.
    cbn. do 3 f_equal; lia.
  - exists pn. left. cbn. lia.
  - intros x He. apply Exists_cons in He as [He|He]; [|by apply Exists_nil in He]. cbn in He. by replace x with pn by lia.
Qed.

Lemma drop_all_ok ls : forall ctx ctx', wf ctx -> Forall (fun l => 0 <= l) ls -> drop_all ls ctx = Some ctx' ->
  wf ctx' /\ frames ctx' = frames ctx /\ sent ctx' = sent ctx /\ forall x, received ctx' x -> received ctx x.
Proof.
  induction ls as [|l ls IH]; intros ctx ctx' Hw Hl; cbn; [by intros [= <-]|].
  apply List.Forall_cons_iff in Hl as [Hl Hls]. destruct (drop_ok l ctx Hw Hl) as (c1 & -> & Hw1 & Ho & Hx).
  cbn. intros E. destruct (IH c1 ctx' Hw1 Hls E) as (Hw2 & Ef & Es & Hx2).
  split; [done|]. split; [rewrite Ef; exact (f_equal frames Ho)|]. split; [rewrite Es; exact (f_equal sent Ho)|].
  intros x Hr. by apply Hx2, Hx in Hr as [? _].
Qed.

Lemma same_spans_received a b x : same_spans a b -> received b x <-> received a x.
Proof. intros (E1 & E2 & _). unfold received, top. by rewrite E1, E2. Qed.

Lemma step_receive_inv now tp forced pn rcv need qc0 qc' ctx ctx1 ctx' h qc : pn_ok pn ->
  space_inv (Space qc ctx h) -> wf ctx1 -> frames ctx1 = frames ctx -> sent ctx1 = sent ctx ->
  (forall x, received ctx1 x -> received ctx x) ->
  ngx_quic_ack_packet now tp true pn rcv need qc0
    (if forced : bool then set_send_ack NGX_QUIC_MAX_ACK_GAP ctx1 else ctx1) = Some (NGX_OK, qc', ctx') ->
  space_inv (Space qc' ctx' (pn :: h)).
Proof.
  intros Hpn [Iw In Is If Iq] Hw1 Ef Es Hx1. cbn in *. unfold ngx_quic_ack_packet. cbn [negb].
  set (c1 := if forced then _ else ctx1). set (c2 := if need then note_ack now pn c1 else c1).
  assert (H2 : wf c2 /\ same_spans ctx1 c2 /\ same_queues ctx1 c2).
  { unfold c2, note_ack, c1. destruct need, forced; cbv zeta; repeat case_decide; done. }
  destruct H2 as (Hw2 & Hs2 & Hq2). clearbody c2. intros E.
  assert (Hem := record_packet_emits _ _ _ _ _ _ _ _ _ _ _ Hw2 E).
  destruct (record_packet_ok now tp (pending_ack c1) pn rcv need (if need then post_push qc0 else qc0) c2 Hw2 Hpn)
    as (rc & qc1 & c3 & E' & H). rewrite E in E'. injection E' as <- <- <-.
  destruct H as [[_ (Hw' & Hset & low & _ & Hx)]|[? _]]; [|done]. split; cbn.
  - done.
  - intros x Hr. apply Hx in Hr as [[Hr| ->] _]; [right|by left]. apply In, Hx1. by apply (same_spans_received _ c2).
  - done.
  - done.
  - destruct Hem as [Es' Hfr]. destruct Hq2 as (Q1 & Q2 & Q3). rewrite Es', Q1, Es. rewrite Q2, Ef in Hfr.
    apply Forall_app in Iq as [Iq1 Iq2].
    assert (M : forall l, Forall (truthful h) l -> Forall (truthful (pn :: h)) l).
    { intros l Hl. eapply List.Forall_impl; [|exact Hl]. intros q. apply truthful_mono. intros x. by right. }
    apply Forall_app. split; [|by apply M]. destruct Hfr as [->|[(c & Hsc & Hc & ->)| ->]]; [by apply M| |].
    + constructor; [|by apply M]. apply ack_frame_truthful; [done|]. intros x Hr. right. apply In, Hx1.
      apply (same_spans_received _ c2); [done|]. by apply (same_spans_received _ c).
    + apply Forall_app. split; [by apply M|]. constructor; [|done]. apply single_truthful; [apply Hpn|by left].
Qed.

Lemma step_inv s s' : step s s' -> space_inv s -> space_inv s'.
Proof.
  destruct 1 as [now tp ls forced pn rcv need qc qc0 qc' ctx ctx1 ctx' h Hpn Hls Hd E|now tp qc qc' ctx ctx' h E
                |qc qc' ctx a q q' b h E Eq|qc qc' ctx a q b h E|qc qc' ctx fs h Hfs]; intros Hinv.
  - destruct (drop_all_ok ls ctx ctx1 (inv_wf _ Hinv) Hls Hd) as (Hw1 & Ef & Es & Hx1). by eapply step_receive_inv.
  - destruct Hinv as [Iw In Is If Iq]. cbn in *. unfold ngx_quic_generate_ack in E.
    destruct (decide (send_ack ctx = 0)) as [H0|H0]; [by injection E as <- <-|]. cbv zeta in E.
    destruct (decide (level ctx = _ /\ _)); [by injection E as <- <-|].
    assert (Hc := wf_filled ctx Iw (Is (If H0))). rewrite send_ack_eq in E by apply Hc.
    destruct (ngx_quic_alloc_frame qc) as [qc1|]; cbn [mbind option_bind] in E; [|by rewrite decide_True in E].
    rewrite decide_False in E by (intros H1; by apply H1). injection E as <- <-. split; cbn; [done..|].
    constructor; [|done]. by apply ack_frame_truthful.
  - destruct Hinv as [Iw In Is If Iq]. cbn in *. split; cbn; [done..|]. rewrite E in Iq.
    rewrite !Forall_app, List.Forall_cons_iff in *. destruct Iq as [(H1 & H2 & H3) H4].
    split; [done|]. split; [done|]. split; [|done]. unfold truthful, is_ack in *. by rewrite Eq.
  - destruct Hinv as [Iw In Is If Iq]. cbn in *. rewrite E in Iq.
    rewrite !Forall_app, List.Forall_cons_iff in Iq. destruct Iq as (H1 & H2 & H3 & H4).
    split; cbn; [by case_decide|by case_decide|by case_decide| |].
    + case_decide as Hd; [|done]. intros _. exact (truthful_history h q H3 (proj1 Hd)).
    + case_decide; cbn; rewrite !Forall_app; done.
  - destruct Hinv as [Iw In Is If Iq]. cbn in *. split; cbn; [done..|]. apply Forall_app in Iq as [H1 H2].
    apply Forall_app. split; [|done]. eapply List.Forall_impl; [|exact Hfs]. intros q Hq Ha.
    rewrite Forall_forall in H1. by apply (H1 q (Hq Ha)).
Qed.

(** C21: in every run of a packet number space, with any packets, losses and acknowledgements in any order, a
    packet that was not received is never acknowledged: every ACK frame in
    the queues covers at least one number and only numbers of packets received before. In particular no
    frame is made while the largest number is unset. *)
Theorem acks_truthful s0 s q : initial s0 -> rtc step s0 s -> q ∈ frames (s_ctx s) ++ sent (s_ctx s) -> is_ack q ->
  exists ivs, ack_covers (q_frame q) ivs /\ (exists x, Exists (fun iv => iv.1 <= x <= iv.2) ivs) /\
    forall x, Exists (fun iv => iv.1 <= x <= iv.2) ivs -> x ∈ s_history s.
Proof.
  intros (Hw & Hu & Hf & Hs & H0 & Hh) Hrun.
  assert (I0 : space_inv s0).
  { split; rewrite ?Hf, ?Hs, ?Hh, ?H0; [done| |done|done|constructor]. intros x [? _]. done. }
  assert (I : space_inv s) by (clear -I0 Hrun; induction Hrun; [done|]; eauto using step_inv).
  intros Hq Ha. apply (proj1 (Forall_forall _ _) (inv_frames _ I) q Hq Ha).
Qed.

(** ** Witnesses *)

Definition conn_0 : conn := Conn 0 0 10 false false None 0 0.
Definition tp_0 : tparams := TParams 25 3.

(** A space that has received 5 and 8 to 10. *)
Definition ctx_10 : send_ctx :=
  SendCtx 3 7 NGX_QUIC_UNSET_PN [] [] NGX_QUIC_UNSET_PN 10 2 0 0 1 (Range 1 0 :: replicate 9 (Range 0 0)) 0.

Lemma ctx_10_wf : wf ctx_10.
Proof.
  split; [by split|]. split; [done|]. right. split; [by split|].
  split; [repeat (constructor; [by split|]); constructor|]. vm_compute. discriminate.
Qed.

Lemma ack_packet_refines_witness : exists rc qc' ctx',
  ngx_quic_ack_packet 0 tp_0 true 6 0 true conn_0 ctx_10 = Some (rc, qc', ctx') /\
  (rc = NGX_OK /\ recorded 6 ctx_10 ctx' \/ rc = NGX_ERROR /\ flood conn_0 /\ same_numbers ctx_10 ctx').
Proof. apply (ack_packet_refines 0 tp_0 6 0 true conn_0 ctx_10 ctx_10_wf). by split. Defined.

Lemma send_ack_roundtrip_witness : exists q bs f ivs, 
  ngx_quic_send_ack 0 tp_0 conn_0 ctx_10 = Some (NGX_OK, Conn 0 1 10 false false None 0 0, set_frames (q :: frames ctx_10) ctx_10) /\
  ngx_quic_create_frame (q_frame q) = Some (false, (q_len q, bs)) /\ q_len q = Z.of_nat (length bs) /\
  ngx_quic_parse_frame 0x40 (level ctx_10) (bs ++ []) = Parsed f [] /\ ack_covers f ivs /\
  forall x, received ctx_10 x <-> Exists (fun iv => iv.1 <= x <= iv.2) ivs.
Proof.
  refine (send_ack_roundtrip 0 tp_0 conn_0 _ ctx_10 0x40 [] ctx_10_wf _ _ _ _); [discriminate|by split|reflexivity|].
  vm_compute. reflexivity.
Defined.

(** A client that notes the packets. *)
#[local] Instance log_client : AckClient (list Z) := {
  congestion_ack w qc ctx f := (w ++ [q_pnum f], qc);
  handle_stream_ack w qc ctx f := (w, qc, ctx);
  handle_path_mtu w min max := Some w;
  rtt_sample w u t := w;
  detect_lost w st qc ctx := Some (NGX_OK, w, qc, ctx)
}.

#[local] Instance log_laws : AckLaws (list Z).
Proof. split; [done|done|by eexists]. Qed.

(** The frame for 5 and 8 to 10, and a space that has sent packets up to 11. *)
Definition frame_10 : frame := Frame NGX_QUIC_FT_ACK 3 [range_bytes [Range 1 0]] (u_ack 10 0 1 2 0 0 0 2).
Definition sent_frame (pn : Z) : queued := Queued (Frame NGX_QUIC_FT_PING 3 [] u_none) 1 pn 30 0.
Definition ctx_sent : send_ctx :=
  SendCtx 3 12 NGX_QUIC_UNSET_PN [] [sent_frame 5; sent_frame 7; sent_frame 9] NGX_QUIC_UNSET_PN 10 2 0 0 1
    (Range 1 0 :: replicate 9 (Range 0 0)) 0.

Lemma handle_ack_exact_witness : exists st w' qc' ctx', acked_by [(8, 10); (5, 5)] ctx_sent ctx' /\
  ngx_quic_handle_ack_frame frame_10 [] conn_0 ctx_sent = detect_lost (w' : list Z) st qc' ctx'.
Proof.
  assert (Hq : queue_ok ctx_sent).
  { split; [repeat (constructor; [by intros [?|?]|]); constructor|].
    repeat (constructor; [|repeat (constructor; [unfold by_pnum; cbn; lia|]); constructor]). constructor. }
  assert (Hi : ints (flat [(1, 0)]) (List.hd [] (f_data frame_10))).
  { apply (ints_range_bytes [Range 1 0]). constructor; [by split; split|constructor]. }
  destruct (handle_ack_exact frame_10 [] conn_0 ctx_sent 10 0 2 0 0 0 2 [(1, 0)] ctx_10_wf Hq eq_refl Hi
    ltac:(by split) ltac:(by split)) as (st & w' & qc' & ctx' & Hby & _ & _ & _ & E).
  exists st, w', qc', ctx'. split; [exact Hby|exact E].
Defined.

Definition ctx_new : send_ctx :=
  SendCtx 3 0 NGX_QUIC_UNSET_PN [] [] NGX_QUIC_UNSET_PN NGX_QUIC_UNSET_PN 0 0 0 0 (replicate 10 (Range 0 0)) 0.

Lemma acks_truthful_witness : exists s q ivs, rtc step (Space conn_0 ctx_new []) s /\ frames (s_ctx s) = [q] /\
  ack_covers (q_frame q) ivs /\ (forall x, Exists (fun iv => iv.1 <= x <= iv.2) ivs -> x ∈ [8; 5]).
Proof.
  assert (Hrun : exists s q, rtc step (Space conn_0 ctx_new []) s /\ frames (s_ctx s) = [q] /\ is_ack q /\ s_history s = [8; 5]).
  { eexists _, _. split; [|split; [|split]].
    - eapply rtc_l; [eapply (step_receive 0 tp_0 [] false 5 0 true conn_0 conn_0); [by split|constructor|reflexivity|vm_compute; reflexivity]|].
      eapply rtc_l; [eapply (step_receive 1 tp_0 [] false 8 1 true _ conn_0); [by split|constructor|reflexivity|vm_compute; reflexivity]|].
      eapply rtc_l; [eapply (step_generate 2 tp_0); vm_compute; reflexivity|apply rtc_refl].
    - reflexivity.
    - by left.
    - reflexivity. }
  destruct Hrun as (s & q & Hrun & Ef & Ha & Eh). exists s, q.
  assert (Hi : initial (Space conn_0 ctx_new [])).
  { split; [|done]. split; [by split|]. split; [done|]. by left. }
  destruct (acks_truthful _ s q Hi Hrun) as (ivs & Hc & _ & Hx); [rewrite Ef; by left|done|].
  exists ivs. rewrite <- Eh. done.
Defined.
