(* ===== verification/QuicBuf.v ===== *)
(** * QUIC reassembly buffers and the splitting of frames: event/quic/ngx_event_quic_frames.c

    The buffer of a stream or of the handshake, which takes data at any offset, in any order and more than once, and
    gives them back in order: a chain of buffers, some of them holes. Written bytes go into blocks of
    4096 bytes; buffers that are split share a block, but the parts between [pos]
    and [last] are disjoint, so that a buffer is the cells of its own part. A cell of a hole has no value:
    no operation may return one. Allocation is assumed to work. Offsets and lengths are below 2^62
    as the ones of frames are, so that sums do not wrap. *)

From S2P Require Import Prelude NgxString Inet QuicFrame.
From stdpp Require Import list.

Open Scope Z_scope.

(** ** Definitions *)

Definition NGX_QUIC_BUFFER_SIZE : nat := 4096.

(** [ngx_buf_t]: the mark of a hole and the cells from [pos] to [last]. *)
Record buf := Buf { sync : bool; cells : list (option Z) }.

(** [ngx_quic_buffer_t]; [last_chain] is an index into the chain. *)
Record qbuffer := QBuffer {
  chain : list buf;
  last_chain : option nat;
  size : Z;
  offset : Z;
  last_offset : Z
}.

(** [ngx_memzero(&qb, sizeof(ngx_quic_buffer_t))] *)
Definition empty_buffer : qbuffer := QBuffer [] None 0 0 0.

Definition blen (b : buf) : Z := Z.of_nat (length (cells b)).

(** What [ngx_quic_alloc_chain] returns, made a hole. *)
Definition new_hole : buf := Buf true (replicate NGX_QUIC_BUFFER_SIZE None).

(** The two links after the split. *)
Definition ngx_quic_split_chain (b : buf) (offset : Z) : buf * buf :=
  (Buf (sync b) (take (Z.to_nat offset) (cells b)), Buf (sync b) (drop (Z.to_nat offset) (cells b))).

(** *** Reading *)

(** The loop over the chain: the links before [*ll], the ones from it on, the offset and whether a link was split. *)
Fixpoint read_loop (ll : list buf) (limit offset : Z) : list buf * list buf * Z * bool :=
  match ll with
  | [] => ([], [], offset, false)
  | b :: next =>
      if sync b then ([], ll, offset, false)
      else if decide (limit = 0) then ([], ll, offset, false)
      else
        let n := blen b in
        if decide (n > limit) then
          (* the next link is the rest of this one, and the limit is zero there *)
          let (b, tail) := ngx_quic_split_chain b limit in ([b], tail :: next, offset + limit, true)
        else
          let '(out, rest, offset, split) := read_loop next (limit - n) (offset + n) in
          (b :: out, rest, offset, split)
  end.

Definition ngx_quic_read_buffer (qb : qbuffer) (limit : Z) : list buf * qbuffer :=
  let '(out, rest, off, split) := read_loop (chain qb) limit (offset qb) in
  let last :=
    if decide (off >= last_offset qb) then None
    else (fun k => k + (if split then 1 else 0) - length out)%nat <$> last_chain qb in
  (out, QBuffer rest last (size qb) off (last_offset qb)).

(** *** Skipping *)

(** The number of links that are freed, the chain and the offset. *)
Fixpoint skip_loop (cl : list buf) (off offset : Z) : nat * list buf * Z :=
  match cl with
  | [] => (O, [], off)
  | b :: next =>
      if decide (off >= offset) then (O, cl, off)
      else
        let n := blen b in
        if decide (off + n > offset) then
          let n := offset - off in
          (O, Buf (sync b) (drop (Z.to_nat n) (cells b)) :: next, off + n)
        else
          let '(freed, rest, off) := skip_loop next (off + n) offset in (S freed, rest, off)
  end.

Definition ngx_quic_skip_buffer (qb : qbuffer) (off : Z) : qbuffer :=
  let '(freed, rest, o) := skip_loop (chain qb) (offset qb) off in
  let o := match rest with [] => off | _ => o end in
  let last := if decide (o >= last_offset qb) then None else (fun k => k - freed)%nat <$> last_chain qb in
  QBuffer rest last (size qb) o (last_offset qb).

(** *** Writing *)

(** [ngx_memcpy(p, in->buf->pos, n)] *)
Definition put (p : Z) (bs : list Z) (data : list (option Z)) : list (option Z) :=
  take (Z.to_nat p) data ++ (Some <$> bs) ++ drop (Z.to_nat p + length bs) data.

(** The inner loop over the input, from the cell [p] of the buffer: the input, the cells, [p], the offset,
    the limit and the size. A buffer of the input has bytes left only if the loop ends. *)
Fixpoint copy_loop (hole : bool) (ins : list (list Z)) (data : list (option Z)) (p offset limit size : Z) :
    list (list Z) * list (option Z) * Z * Z * Z * Z :=
  match ins with
  | [] => ([], data, p, offset, limit, size)
  | [] :: next => copy_loop hole next data p offset limit size
  | i :: next =>
      if decide (p = Z.of_nat (length data) \/ limit = 0) then (ins, data, p, offset, limit, size)
      else
        let n := Z.min (Z.min (Z.of_nat (length data) - p) (Z.of_nat (length i))) limit in
        let bs := take (Z.to_nat n) i in
        let data := if hole then put p bs data else data in
        let size := if hole then size + n else size in
        match drop (Z.to_nat n) i with
        | [] => copy_loop hole next data (p + n) (offset + n) (limit - n) size
        | i => (i :: next, data, p + n, offset + n, limit - n, size)
        end
  end.

(** The state of the outer loop: the links before [*chain], the ones from it on, [base], the input, the offset, the limit
    and the size. *)
Record writing := Writing {
  w_pre : list buf;
  w_rest : list buf;
  w_base : Z;
  w_in : list (list Z);
  w_offset : Z;
  w_limit : Z;
  w_size : Z
}.

(** One round of the outer loop, with input and a limit. *)
Definition write_step (w : writing) : writing :=
  let '(Writing pre rest base ins offset limit size) := w in
  match ins with
  | [] => w
  | i :: next =>
      if decide (offset < base) then
        let n := Z.min (Z.of_nat (length i)) (Z.min (base - offset) limit) in
        Writing pre rest base (match drop (Z.to_nat n) i with [] => next | i => i :: next end)
          (offset + n) (limit - n) size
      else
        let (b, next) := match rest with [] => (new_hole, []) | b :: next => (b, next) end in
        let n := blen b in
        if decide (base + n <= offset) then Writing (pre ++ [b]) next (base + n) ins offset limit size
        else if decide (sync b = true /\ offset > base) then
          let (b, tail) := ngx_quic_split_chain b (offset - base) in
          Writing pre (b :: tail :: next) base ins offset limit size
        else
          let '(ins, data, p, offset, limit, size) :=
            copy_loop (sync b) ins (cells b) (offset - base) offset limit size in
          let b := Buf (sync b) data in
          if decide (sync b = true /\ p = blen b) then
            Writing pre (Buf false data :: next) base ins offset limit size
          else if decide (sync b = true /\ p <> 0) then
            let (b, tail) := ngx_quic_split_chain b p in
            Writing pre (Buf false (cells b) :: tail :: next) base ins offset limit size
          else Writing pre (b :: next) base ins offset limit size
  end.

(** [while (in && limit)] *)
Fixpoint write_loop (fuel : nat) (w : writing) : option writing :=
  if decide (w_in w = [] \/ w_limit w = 0) then Some w
  else
    match fuel with
    | O => None
    | S fuel => write_loop fuel (write_step w)
    end.

(** Rounds that are enough. *)
Definition write_fuel (qb : qbuffer) (ins : list (list Z)) (offset : Z) : nat :=
  (8 * (length (concat ins) + length ins) + length (chain qb) + Z.to_nat (offset / 4096) + 5)%nat.

(** Where a write starts: the chain from the last link on if the offset is not before it. *)
Definition write_start (qb : qbuffer) (ins : list (list Z)) (limit off : Z) : writing :=
  match last_chain qb with
  | Some k =>
      if decide (off >= last_offset qb) then
        Writing (take k (chain qb)) (drop k (chain qb)) (last_offset qb) ins off limit (size qb)
      else Writing [] (chain qb) (offset qb) ins off limit (size qb)
  | None => Writing [] (chain qb) (offset qb) ins off limit (size qb)
  end.

Definition ngx_quic_write_buffer (qb : qbuffer) (ins : list (list Z)) (limit off : Z) : option (list (list Z) * qbuffer) :=
  w ← write_loop (write_fuel qb ins off) (write_start qb ins limit off);
  Some (w_in w,
        QBuffer (w_pre w ++ w_rest w) (match w_rest w with [] => None | _ => Some (length (w_pre w)) end)
          (w_size w) (offset qb) (w_base w)).

(** The rest of the state is not used after it. *)
Definition ngx_quic_free_buffer (qb : qbuffer) : qbuffer :=
  QBuffer [] None (size qb) (offset qb) (last_offset qb).

(** *** The data of a frame *)

(** A chain of bytes, as a frame has it. *)
Definition data_chain (data : list (list Z)) : list buf := map (fun bs => Buf false (Some <$> bs)) data.

(** The bytes of a chain. *)
Definition chain_bytes (out : list buf) : list (list Z) := map (fun b => omap id (cells b)) out.

Definition ngx_quic_copy_buffer (data : list Z) : option (list buf) :=
  '(_, qb) ← ngx_quic_write_buffer empty_buffer [data] (Z.of_nat (length data)) 0;
  Some (fst (ngx_quic_read_buffer qb (Z.of_nat (length data)))).

(** *** The splitting of a frame that does not fit *)

(** [f->u.ord]: the offset and the length, and the mark of the end of a stream. *)
Definition ord (u : frame_u) : option (Z * Z * bool) :=
  match u with
  | u_crypto offset length => Some (offset, length, false)
  | u_stream offset length _ _ _ fin => Some (offset, length, fin)
  | _ => None
  end.

Definition with_ord (u : frame_u) (offset length : Z) (fin : bool) : frame_u :=
  match u with
  | u_crypto _ _ => u_crypto offset length
  | u_stream _ _ id off len _ => u_stream offset length id off len fin
  | _ => u
  end.

(** NGX_DECLINED, NGX_OK without and with a second frame, with [f->len] and [nf->len], and NGX_ERROR. *)
Inductive split := Declined | Whole | Split (f nf : frame) (flen nlen : Z) | SplitError.

Definition frame_len (f : frame) : option Z := (fun r => fst (snd r)) <$> ngx_quic_create_frame f.

Definition ngx_quic_split_frame (f : frame) (flen len : Z) : split :=
  match (if decide (f_type f = NGX_QUIC_FT_CRYPTO \/ f_type f = NGX_QUIC_FT_STREAM) then ord (f_u f) else None) with
  | None => Declined
  | Some (offset, length, fin) =>
      if decide (flen <= len) then Whole
      else
        let shrink := flen - len in
        if decide (length <= shrink) then Declined
        else
          let n := length - shrink in
          match frame_len (Frame (f_type f) (f_level f) (f_data f) (with_ord (f_u f) offset n fin)) with
          | None => SplitError
          | Some flen =>
              if decide (flen > len) then SplitError
              else
                let (out, qb) := ngx_quic_read_buffer (QBuffer (data_chain (f_data f)) None 0 0 0) n in
                let nf := Frame (f_type f) (f_level f) (chain_bytes (chain qb)) (with_ord (f_u f) (offset + n) shrink fin) in
                match frame_len nf with
                | None => SplitError
                | Some nlen =>
                    let fin := if decide (f_type f = NGX_QUIC_FT_STREAM) then false else fin in
                    Split (Frame (f_type f) (f_level f) (chain_bytes out) (with_ord (f_u f) offset n fin)) nf flen nlen
                end
          end
  end.

(** ** The cells by their offsets *)

(** The byte at the offset [x] when the cells start at [o]. *)
Definition cell (o : Z) (cs : list (option Z)) (x : Z) : option Z :=
  if decide (o <= x) then mjoin (cs !! Z.to_nat (x - o)) else None.

Definition clen (cs : list (option Z)) : Z := Z.of_nat (length cs).

Lemma cell_nil o x : cell o [] x = None.
Proof. unfold cell. by case_decide. Qed.

Lemma cell_before o cs x : x < o -> cell o cs x = None.
Proof. intros. unfold cell. by rewrite decide_False by lia. Qed.

Lemma cell_after o cs x : o + clen cs <= x -> cell o cs x = None.
Proof.
  intros H. unfold cell, clen in *. case_decide; [|done]. by rewrite lookup_ge_None_2 by lia.
Qed.

Lemma cell_app o a b x : cell o (a ++ b) x = cell o a x ∪ cell (o + clen a) b x.
Proof.
  destruct (decide (x < o + clen a)) as [H|H].
  - rewrite (cell_before (o + clen a)) by done. rewrite (right_id None (∪)).
    unfold cell, clen in *. case_decide; [|done]. by rewrite lookup_app_l by lia.
  - rewrite (cell_after o a) by lia. rewrite (left_id None (∪)).
    unfold cell, clen in *. rewrite !decide_True by lia. rewrite lookup_app_r by lia.
    do 2 f_equal. lia.
Qed.

Lemma cell_none o cs x : Forall (fun c => c = None) cs -> cell o cs x = None.
Proof.
  intros H. unfold cell. case_decide; [|done]. destruct (cs !! _) eqn:E; [|done].
  rewrite Forall_lookup in H. by rewrite (H _ _ E).
Qed.

Lemma cell_some o cs x : Forall is_Some cs -> o <= x < o + clen cs -> is_Some (cell o cs x).
Proof.
  intros H Hx. unfold cell, clen in *. rewrite decide_True by lia.
  destruct (lookup_lt_is_Some_2 cs (Z.to_nat (x - o)) ltac:(lia)) as [c E]. rewrite E.
  rewrite Forall_lookup in H. by apply H in E.
Qed.

Lemma cell_some_bytes o bs x : cell o (Some <$> bs) x = if decide (o <= x) then bs !! Z.to_nat (x - o) else None.
Proof. unfold cell. case_decide; [|done]. rewrite list_lookup_fmap. by destruct (bs !! _). Qed.

Lemma clen_app a b : clen (a ++ b) = clen a + clen b.
Proof. unfold clen. rewrite length_app. lia. Qed.

Lemma clen_nonneg cs : 0 <= clen cs.
Proof. unfold clen. lia. Qed.

Lemma clen_some bs : clen (Some <$> bs) = Z.of_nat (length bs).
Proof. unfold clen. by rewrite length_fmap. Qed.

(** The number of bytes among the cells. *)
Definition known (cs : list (option Z)) : Z := Z.of_nat (length (omap id cs)).

Lemma known_app a b : known (a ++ b) = known a + known b.
Proof. unfold known. rewrite omap_app, length_app. lia. Qed.

Lemma known_none cs : Forall (fun c => c = None) cs -> known cs = 0.
Proof. unfold known. induction 1; [done|]. subst. done. Qed.

Lemma omap_some (bs : list Z) : omap id (Some <$> bs) = bs.
Proof. induction bs as [|b bs IH]; [done|]. cbn. by rewrite IH. Qed.

Lemma known_some bs : known (Some <$> bs) = Z.of_nat (length bs).
Proof. unfold known. by rewrite omap_some. Qed.

Lemma union_some (a b : option Z) : is_Some a -> a ∪ b = a.
Proof. intros [? ->]. by apply union_Some_l. Qed.

Lemma union_assoc (a b c : option Z) : (a ∪ b) ∪ c = a ∪ (b ∪ c).
Proof. by destruct a, b, c. Qed.

(** ** Well-formed buffers *)

Definition buf_ok (b : buf) : Prop :=
  cells b <> [] /\ (if sync b then Forall (fun c => c = None) (cells b) else Forall is_Some (cells b)).

(** All the cells of a chain. *)
Definition content (bs : list buf) : list (option Z) := concat (map cells bs).

Lemma content_app a b : content (a ++ b) = content a ++ content b.
Proof. unfold content. by rewrite map_app, concat_app. Qed.

Lemma content_cons b bs : content (b :: bs) = cells b ++ content bs.
Proof. done. Qed.

Lemma blen_pos b : buf_ok b -> 0 < blen b.
Proof. intros [H _]. unfold blen. destruct (cells b); cbn; [done|lia]. Qed.

Lemma new_hole_ok : buf_ok new_hole.
Proof. split; [done|]. cbn [sync new_hole cells]. by apply Forall_replicate. Qed.

(** Bytes of the network. *)
Definition filled (b : list Z) : buf := Buf false (Some <$> b).

Lemma filled_ok b : b <> [] -> buf_ok (filled b).
Proof.
  intros H. split; cbn [cells filled].
  - by destruct b.
  - apply Forall_fmap. apply Forall_true. cbn. eauto.
Qed.

Lemma filled_inv (cs : list (option Z)) : Forall is_Some cs -> exists b : list Z, cs = Some <$> b.
Proof.
  induction 1 as [|c cs [v ->] H [b ->]]; [by exists []|by exists (v :: b)].
Qed.

Lemma hole_inv cs : Forall (fun c : option Z => c = None) cs -> cs = replicate (length cs) None.
Proof. induction 1; [done|]. subst. cbn. congruence. Qed.

Lemma part_buf_ok (h : bool) cs : cs <> [] -> (if h then Forall (fun c => c = None) cs else Forall is_Some cs) -> buf_ok (Buf h cs).
Proof. done. Qed.

Lemma split_chain_ok b n : buf_ok b -> 0 < n < blen b -> exists x y, ngx_quic_split_chain b n = (Buf (sync b) x, Buf (sync b) y) /\
  buf_ok (Buf (sync b) x) /\ buf_ok (Buf (sync b) y) /\ cells b = x ++ y /\ clen x = n.
Proof.
  intros [Hne Hb] Hn. unfold blen, clen in *.
  exists (take (Z.to_nat n) (cells b)), (drop (Z.to_nat n) (cells b)).
  assert (length (take (Z.to_nat n) (cells b)) = Z.to_nat n) as Ht by (rewrite length_take; lia).
  assert (length (drop (Z.to_nat n) (cells b)) = length (cells b) - Z.to_nat n)%nat as Hd by apply length_drop.
  split; [done|]. split; [apply part_buf_ok|split; [apply part_buf_ok|split; [by rewrite take_drop|lia]]].
  - intros E. rewrite E in Ht. cbn in Ht. lia.
  - destruct (sync b); by apply Forall_take.
  - intros E. rewrite E in Hd. cbn in Hd. lia.
  - destruct (sync b); by apply Forall_drop.
Qed.

(** [last_chain] points to the link where [last_offset] is, which is where the last write has stopped. *)
Definition buffer_ok (qb : qbuffer) : Prop :=
  Forall buf_ok (chain qb) /\
  match last_chain qb with
  | None => True
  | Some k => (k < length (chain qb))%nat /\ last_offset qb = offset qb + clen (content (take k (chain qb)))
  end.

(** The byte at an offset, if it has been received and not read. *)
Definition byte_at (qb : qbuffer) (x : Z) : option Z := cell (offset qb) (content (chain qb)) x.

(** Where the input of a write goes, and what it leaves. *)
Definition bytes_at (off : Z) (bs : list Z) (x : Z) : option Z := cell off (Some <$> bs) x.

Lemma bytes_at_app off a b x : bytes_at off (a ++ b) x = bytes_at off a x ∪ bytes_at (off + Z.of_nat (length a)) b x.
Proof. unfold bytes_at. by rewrite fmap_app, cell_app, clen_some. Qed.

(** ** The inner loop *)

Lemma put_nil p data : put p [] data = data.
Proof. unfold put. cbn [fmap list_fmap app length]. rewrite Nat.add_0_r. apply take_drop. Qed.

Lemma put_twice p a b data : 0 <= p -> p + Z.of_nat (length a) + Z.of_nat (length b) <= clen data ->
  put (p + Z.of_nat (length a)) b (put p a data) = put p (a ++ b) data.
Proof.
  intros Hp Hl. unfold put, clen in *. rewrite fmap_app, length_app.
  assert (length (take (Z.to_nat p) data) = Z.to_nat p) as Ht by (rewrite length_take; lia).
  rewrite (take_app_ge _ _ (Z.to_nat (p + Z.of_nat (length a)))) by lia.
  rewrite take_app_length' by (rewrite length_fmap; lia).
  rewrite (drop_app_ge _ _ (_ + _)%nat) by lia. rewrite drop_app_ge by (rewrite length_fmap; lia).
  rewrite drop_drop, length_fmap, Ht, <- !app_assoc. do 4 f_equal. lia.
Qed.

Lemma clen_put p bs data : 0 <= p -> p + Z.of_nat (length bs) <= clen data -> clen (put p bs data) = clen data.
Proof.
  intros Hp Hl. unfold clen, put in *. rewrite !length_app, length_take, length_fmap, length_drop. lia.
Qed.

(** The loop takes the bytes [bs] from the input, and stops at the end of the buffer, of the limit or of the input. *)
Definition copied (hole : bool) (ins : list (list Z)) (data : list (option Z)) (p offset limit size : Z)
    (res : list (list Z) * list (option Z) * Z * Z * Z * Z) (bs : list Z) : Prop :=
  let '(ins', data', p', offset', limit', size') := res in
  let n := Z.of_nat (length bs) in
  concat ins = bs ++ concat ins' /\ p' = p + n /\ p' <= clen data /\ offset' = offset + n /\ limit' = limit - n /\
  0 <= limit' /\ size' = (if hole then size + n else size) /\ data' = (if hole then put p bs data else data) /\
  (ins' = [] \/ p' = clen data \/ limit' = 0) /\ (length ins' <= length ins)%nat.

Lemma copy_loop_ok hole ins : forall data p offset limit size, 0 <= p <= clen data -> 0 <= limit ->
  exists bs, copied hole ins data p offset limit size (copy_loop hole ins data p offset limit size) bs.
Proof.
  induction ins as [|i next IH]; intros data p offset limit size Hp Hl.
  - exists []. cbn. rewrite put_nil. destruct hole; repeat split; try lia; auto.
  - destruct i as [|c i].
    + destruct (IH data p offset limit size Hp Hl) as [bs H]. exists bs. cbn [copy_loop]. unfold copied in *.
      destruct (copy_loop _ _ _ _ _ _ _) as [[[[[? ?] ?] ?] ?] ?]. cbn [concat app length]. intuition lia.
    + cbn [copy_loop]. case_decide as Hd.
      * exists []. cbn [copied length app]. rewrite put_nil. unfold clen in *. destruct hole; repeat split; auto; lia.
      * set (n := Z.min _ limit). set (j := c :: i) in *. unfold clen in *.
        assert (0 < n) as Hn by (subst n j; cbn [length]; lia).
        assert (n <= Z.of_nat (length data) - p /\ n <= Z.of_nat (length j) /\ n <= limit) as (Hn1 & Hn2 & Hn3) by (subst n; lia).
        assert (length (take (Z.to_nat n) j) = Z.to_nat n) as Ht by (rewrite length_take; lia).
        assert (j = take (Z.to_nat n) j ++ drop (Z.to_nat n) j) as Hj by (by rewrite take_drop).
        destruct (drop (Z.to_nat n) j) as [|d r] eqn:Ed.
        -- match goal with |- context [copy_loop hole next ?D _ _ _ _] => set (data1 := D) in * end.
           assert (length data1 = length data) as Hd1.
           { subst data1. destruct hole; [|done]. apply Nat2Z.inj. apply clen_put; unfold clen; lia. }
           destruct (IH data1 (p + n) (offset + n) (limit - n) (if hole then size + n else size)) as [bs H];
             [unfold clen; lia|lia|].
           exists (take (Z.to_nat n) j ++ bs). unfold copied in *. unfold clen in *.
           destruct (copy_loop _ _ _ _ _ _ _) as [[[[[ins' ?] ?] ?] ?] ?].
           destruct H as (E1 & -> & H2 & -> & -> & H3 & -> & -> & H4 & H5). rewrite Hd1 in *.
           rewrite length_app, Ht, Nat2Z.inj_add, Z2Nat.id by lia.
           rewrite app_nil_r in Hj. rewrite <- Hj. cbn [concat length]. rewrite E1, app_assoc.
           assert (put (p + n) bs (put p j data) = put p (j ++ bs) data) as Hput.
           { assert (Z.of_nat (length j) = n) as Hjn by (rewrite Hj; lia). rewrite <- Hjn. apply put_twice; unfold clen; lia. }
           subst data1. rewrite <- Hj. destruct hole; rewrite ?Hput; repeat split; try lia; try done.
        -- exists (take (Z.to_nat n) j). unfold copied. rewrite Ht, Z2Nat.id by lia. cbn [concat length].
           assert (n < Z.of_nat (length j)).
           { apply (f_equal length) in Ed. rewrite length_drop in Ed. cbn [length] in Ed. lia. }
           repeat split; try lia; unfold clen; try (destruct hole; done); [|lia..].
           rewrite app_assoc. by rewrite <- Ed, take_drop.
Qed.

(** ** The rounds of a write *)

Definition w_content (w : writing) : list (option Z) := content (w_pre w ++ w_rest w).

Definition w_ok (o : Z) (w : writing) : Prop :=
  Forall buf_ok (w_pre w ++ w_rest w) /\ w_base w = o + clen (content (w_pre w)) /\ 0 <= w_limit w /\
  (w_offset w < w_base w -> w_pre w = []).

(** Between two states the bytes [bs] of the input have been written, where there was none before. *)
Definition advanced (o : Z) (w w' : writing) (bs : list Z) : Prop :=
  concat (w_in w) = bs ++ concat (w_in w') /\ w_offset w' = w_offset w + Z.of_nat (length bs) /\
  w_limit w' = w_limit w - Z.of_nat (length bs) /\
  (forall x, o <= x -> cell o (w_content w') x = cell o (w_content w) x ∪ bytes_at (w_offset w) bs x) /\
  w_size w' + known (w_content w) = w_size w + known (w_content w').

Lemma advanced_trans o w1 w2 w3 b1 b2 : advanced o w1 w2 b1 -> advanced o w2 w3 b2 -> advanced o w1 w3 (b1 ++ b2).
Proof.
  intros (A1 & A2 & A3 & A4 & A5) (B1 & B2 & B3 & B4 & B5). unfold advanced. rewrite length_app.
  split; [by rewrite A1, B1, app_assoc|]. split; [lia|]. split; [lia|]. split; [|lia].
  intros x Hx. rewrite B4, A4, bytes_at_app, A2 by done. apply union_assoc.
Qed.

(** Nothing is written when the cells are the same but for more holes at the end. *)
Lemma advanced_same o w w' n : w_in w' = w_in w -> w_offset w' = w_offset w -> w_limit w' = w_limit w ->
  w_size w' = w_size w -> w_content w' = w_content w ++ replicate n None -> advanced o w w' [].
Proof.
  intros E1 E2 E3 E4 E5. unfold advanced. rewrite E1, E2, E3, E4, E5, known_app, (known_none (replicate _ _)) by (by apply Forall_replicate).
  cbn [length app]. split; [done|]. split; [lia|]. split; [lia|]. split; [|lia].
  intros x Hx. rewrite cell_app, (cell_none _ (replicate _ _)) by (by apply Forall_replicate).
  unfold bytes_at. cbn [fmap list_fmap]. by rewrite cell_nil.
Qed.

(** The number of rounds that are left: bytes and buffers of the input, links, a split at the offset if no link starts
    there, blocks to allocate. *)
Fixpoint boundary (base : Z) (rest : list buf) (offset : Z) : bool :=
  bool_decide (offset = base) || match rest with [] => false | b :: rest => boundary (base + blen b) rest offset end.

(** The links from the current one on, which is allocated when there is none. *)
Definition here (rest : list buf) : list buf := match rest with [] => [new_hole] | _ => rest end.

Definition measure (w : writing) : nat :=
  (8 * (length (concat (w_in w)) + length (w_in w)) + length (here (w_rest w)) +
   (if boundary (w_base w) (here (w_rest w)) (w_offset w) then 0 else 3) +
   Z.to_nat ((w_offset w - (w_base w + clen (content (here (w_rest w))))) / 4096 + 1))%nat.

Definition round_ok (o : Z) (w w' : writing) : Prop :=
  w_ok o w' /\ (exists bs, advanced o w w' bs) /\ (measure w' < measure w)%nat.

Lemma boundary_before rest : forall base offset, Forall buf_ok rest -> offset < base -> boundary base rest offset = false.
Proof.
  induction rest as [|b rest IH]; intros base offset H Ho; cbn; rewrite bool_decide_false by lia; [done|].
  apply Forall_cons in H as [Hb H]. pose proof (blen_pos b Hb). rewrite IH by (done || lia). done.
Qed.

Lemma w_ok_cons o w pre b next : w_ok o w -> w_pre w = pre -> w_rest w = b :: next ->
  Forall buf_ok pre /\ buf_ok b /\ Forall buf_ok next.
Proof. intros (H & _) <- E. rewrite E in H. apply Forall_app in H as [? H]. by apply Forall_cons in H as [? ?]. Qed.

(** The input before the buffer is dropped. *)
Lemma round_drop o pre rest base i next offset limit size : 
  let w := Writing pre rest base (i :: next) offset limit size in
  w_ok o w -> limit <> 0 -> offset < base ->
  let n := Z.min (Z.of_nat (length i)) (Z.min (base - offset) limit) in
  round_ok o w (Writing pre rest base (match drop (Z.to_nat n) i with [] => next | i => i :: next end)
          (offset + n) (limit - n) size).
Proof.
  intros w (H1 & H2 & H3 & H4) Hl Hb n. cbn [w w_pre w_rest w_base w_limit w_offset] in *.
  specialize (H4 Hb). subst pre. change (clen (content [])) with 0 in H2.
  assert (0 <= n /\ n <= limit /\ n <= base - offset /\ n <= Z.of_nat (length i)) as (Hn1 & Hn2 & Hn3 & Hn4) by lia.
  assert (Z.of_nat (length (take (Z.to_nat n) i)) = n) as Ht by (rewrite length_take; lia).
  assert (n = 0 -> length i = 0%nat) as Hn5 by lia. clearbody n.
  assert (concat (i :: next) = take (Z.to_nat n) i ++ concat (match drop (Z.to_nat n) i with [] => next | i => i :: next end)) as Hc.
  { cbn [concat]. rewrite <- (take_drop (Z.to_nat n) i) at 1. rewrite <- app_assoc. by destruct (drop _ i). }
  split; [|split].
  - split; [done|]. split; [done|]. split; [cbn; lia|]. done.
  - exists (take (Z.to_nat n) i). split; [exact Hc|]. cbn [w_offset w_limit w_size w]. rewrite Ht.
    split; [done|]. split; [done|]. split; [|done].
    intros x Hx. unfold bytes_at. rewrite (cell_after _ (Some <$> _)) by (rewrite clen_some, Ht; cbn [w_offset w]; lia).
    by rewrite (right_id None (∪)).
  - unfold measure. cbn [w_in w_rest w_base w_offset w].
    assert (Forall buf_ok (here rest)) as Hh.
    { destruct rest; [|done]. constructor; [apply new_hole_ok|constructor]. }
    rewrite (boundary_before _ _ offset) by done.
    pose proof (clen_nonneg (content (here rest))).
    assert ((offset - (base + clen (content (here rest)))) / 4096 < 0) by (apply Z.div_lt_upper_bound; lia).
    assert ((offset + n - (base + clen (content (here rest)))) / 4096 <= 0) by (apply Z.div_le_upper_bound; lia).
    apply (f_equal length) in Hc. rewrite length_app in Hc. rewrite Hc.
    destruct (decide (n = 0)) as [Hn0|].
    + assert (i = []) as -> by (by apply length_zero_iff_nil, Hn5).
      rewrite Hn0, Z.add_0_r, boundary_before by done. change (drop (Z.to_nat 0) []) with (@nil Z). cbn [length]. lia.
    + assert (length (match drop (Z.to_nat n) i with [] => next | i => i :: next end) <= length (i :: next))%nat by (destruct (drop _ i); cbn [length]; lia).
      destruct (boundary _ _ _); lia.
Qed.

(** The next link. *)
Lemma round_next o pre b next base ins offset limit size :
  let w := Writing pre (b :: next) base ins offset limit size in
  w_ok o w -> base + blen b <= offset ->
  round_ok o w (Writing (pre ++ [b]) next (base + blen b) ins offset limit size).
Proof.
  intros w Hw Hb. destruct (w_ok_cons o w pre b next Hw eq_refl eq_refl) as (Hp & Hbo & Hn).
  pose proof (blen_pos b Hbo). destruct Hw as (H1 & H2 & H3 & H4). cbn [w w_pre w_rest w_base w_limit w_offset] in *.
  split; [|split].
  - split; [cbn; by rewrite <- app_assoc|]. cbn [w_pre w_rest w_base w_limit w_offset].
    rewrite content_app, clen_app. cbn [content map concat]. rewrite app_nil_r.
    split; [unfold blen, clen in *; lia|]. split; [done|]. intros. lia.
  - exists []. apply (advanced_same o _ _ 0); try done. unfold w_content. cbn [w_pre w_rest w replicate].
    by rewrite app_nil_r, <- app_assoc.
  - unfold measure. cbn [w_in w_rest w_base w_offset w here].
    assert (boundary (base + blen b) (here next) offset = false -> boundary base (b :: next) offset = false) as Hbd.
    { cbn [boundary]. rewrite (bool_decide_false (offset = base)) by lia. cbn [orb]. destruct next; [|done].
      cbn [here boundary]. by intros [-> _]%orb_false_iff. }
    assert (clen (content (b :: next)) = blen b + clen (content next)) as Hc by (cbn [content map concat]; apply clen_app).
    destruct next as [|d next].
    + cbn [here] in *. change (clen (content [new_hole])) with 4096. change (clen (content [])) with 0 in Hc.
      cbn [length]. rewrite Hc.
      assert ((offset - (base + blen b + 4096)) / 4096 = (offset - (base + (blen b + 0))) / 4096 - 1) as ->.
      { replace (offset - (base + (blen b + 0))) with (offset - (base + blen b + 4096) + 1 * 4096) by lia.
        rewrite Z.div_add by lia. lia. }
      assert (0 <= (offset - (base + (blen b + 0))) / 4096) by (apply Z.div_pos; lia).
      destruct (boundary (base + blen b) _ _) eqn:E; [|rewrite Hbd by done]; destruct (boundary base _ _); lia.
    + cbn [here] in *. rewrite Hc, Z.add_assoc.
      destruct (boundary (base + blen b) _ _) eqn:E; [|rewrite Hbd by done]; destruct (boundary base _ _); cbn [length]; lia.
Qed.

(** A hole is cut where the bytes begin. *)
Lemma round_split o pre b next base ins offset limit size :
  let w := Writing pre (b :: next) base ins offset limit size in
  w_ok o w -> base < offset < base + blen b ->
  let (x, y) := ngx_quic_split_chain b (offset - base) in
  round_ok o w (Writing pre (x :: y :: next) base ins offset limit size).
Proof.
  intros w Hw Hb. destruct (w_ok_cons o w pre b next Hw eq_refl eq_refl) as (Hp & Hbo & Hn).
  destruct Hw as (H1 & H2 & H3 & H4). cbn [w w_pre w_rest w_base w_limit w_offset] in *.
  destruct (split_chain_ok b (offset - base) Hbo ltac:(lia)) as (x & y & -> & Hx & Hy & Hc & Hl).
  assert (content (Buf (sync b) x :: Buf (sync b) y :: next) = content (b :: next)) as Hcc.
  { rewrite !content_cons. cbn [cells]. by rewrite Hc, app_assoc. }
  split; [|split].
  - split; [cbn; by rewrite Forall_app, !Forall_cons|]. done.
  - exists []. apply (advanced_same o _ _ 0); try done. unfold w_content. cbn [w_pre w_rest w replicate].
    by rewrite app_nil_r, !content_app, Hcc.
  - unfold measure. cbn [w_in w_rest w_base w_offset w here]. rewrite Hcc.
    cbn [boundary]. rewrite !(bool_decide_false (offset = base)) by lia. cbn [orb].
    rewrite (bool_decide_true (offset = base + _)) by (unfold blen; cbn [cells]; unfold clen in Hl; lia). cbn [orb].
    assert (boundary (base + blen b) next offset = false) as -> by (apply boundary_before; [done|lia]). cbn [length]. lia.
Qed.

(** Copying. *)
Lemma put_front bs cs : Forall (fun c => c = None) cs -> Z.of_nat (length bs) <= clen cs ->
  put 0 bs cs = (Some <$> bs) ++ replicate (length cs - length bs) None.
Proof.
  intros H Hl. unfold put, clen in *. rewrite (hole_inv cs H). cbn [Z.to_nat take app]. rewrite drop_replicate, length_replicate. done.
Qed.

(** The links that a copy of [bs] into the buffer [b] leaves: what is filled and the hole after it. *)
Definition copied_links (b : buf) (bs : list Z) : list buf :=
  if sync b then
    (if decide (bs = []) then [] else [filled bs]) ++
    (if decide (Z.of_nat (length bs) = blen b) then [] else [Buf true (replicate (length (cells b) - length bs) None)])
  else [b].

Lemma copied_links_ok b bs : buf_ok b -> Z.of_nat (length bs) <= blen b ->
  Forall buf_ok (copied_links b bs) /\ (0 < length (copied_links b bs) <= 2)%nat /\ clen (content (copied_links b bs)) = blen b /\
  known (content (copied_links b bs)) = (if sync b then Z.of_nat (length bs) else known (cells b)) /\
  forall base p x, 0 <= p -> (sync b = true -> p = 0) -> p + Z.of_nat (length bs) <= blen b ->
    cell base (content (copied_links b bs)) x = cell base (cells b) x ∪ bytes_at (base + p) bs x.
Proof.
  intros Hb Hl. pose proof (blen_pos b Hb) as Hpos. destruct Hb as [Hne Hb]. unfold copied_links, blen in *.
  destruct (sync b) eqn:Es.
  - set (k := (length (cells b) - length bs)%nat).
    assert (content ((if decide (bs = []) then [] else [filled bs]) ++
      (if decide (Z.of_nat (length bs) = Z.of_nat (length (cells b))) then [] else [Buf true (replicate k None)])) =
      (Some <$> bs) ++ replicate k None) as Hc.
    { rewrite content_app. f_equal.
      - case_decide as E; [by rewrite E|]. cbn. by rewrite app_nil_r.
      - case_decide as E; [by replace k with 0%nat by lia|]. cbn. by rewrite app_nil_r. }
    rewrite Hc. split; [|split; [|split; [|split]]].
    + clear Hc. apply Forall_app. split; (case_decide as E; [apply Forall_nil_2|apply Forall_singleton]); [by apply filled_ok|].
      split; cbn [sync cells]; [|by apply Forall_replicate].
      intros Er%(f_equal length). rewrite length_replicate in Er. cbn in Er. lia.
    + clear Hc. rewrite length_app. do 2 case_decide; subst; cbn [length] in *; lia.
    + rewrite clen_app, clen_some. unfold clen. rewrite length_replicate. lia.
    + rewrite known_app, known_some, known_none by (by apply Forall_replicate). lia.
    + intros base p x Hp Hp0 Hle. rewrite (Hp0 eq_refl), Z.add_0_r, cell_app, (cell_none base (cells b)) by done.
      rewrite (cell_none _ (replicate _ _)) by (by apply Forall_replicate). unfold bytes_at.
      by rewrite (left_id None (∪)), (right_id None (∪)).
  - cbn [content map concat]. rewrite app_nil_r. split; [apply Forall_singleton; split; [done|by rewrite Es]|].
    split; [cbn; lia|]. split; [done|]. split; [done|]. intros base p x Hp _ Hle.
    destruct (decide (base <= x < base + clen (cells b))).
    + by rewrite union_some by (by apply cell_some).
    + unfold bytes_at.
      destruct (decide (x < base)).
      * rewrite !cell_before by lia. done.
      * rewrite !cell_after by (rewrite ?clen_some; unfold clen in *; lia). done.
Qed.

(** What a round does with the result of the copy. *)
Definition place (pre : list buf) (b : buf) (next : list buf) (base : Z)
    (res : list (list Z) * list (option Z) * Z * Z * Z * Z) : writing :=
  let '(ins, data, p, offset, limit, size) := res in
  let b := Buf (sync b) data in
  if decide (sync b = true /\ p = blen b) then Writing pre (Buf false data :: next) base ins offset limit size
  else if decide (sync b = true /\ p <> 0) then
    let (b, tail) := ngx_quic_split_chain b p in
    Writing pre (Buf false (cells b) :: tail :: next) base ins offset limit size
  else Writing pre (b :: next) base ins offset limit size.

Lemma place_links pre b next base ins res p offset limit size bs :
  buf_ok b -> (sync b = true -> p = 0) -> 0 <= p -> copied (sync b) ins (cells b) p offset limit size res bs ->
  let '(ins', _, _, offset', limit', size') := res in
  place pre b next base res = Writing pre (copied_links b bs ++ next) base ins' offset' limit' size'.
Proof.
  intros [Hne Hb] Hp0 Hp. destruct res as [[[[[ins' data] p'] offset'] limit'] size'].
  intros (E1 & E2 & E3 & E4 & E5 & E6 & E7 & E8 & E9 & _). unfold place, copied_links. cbn [sync].
  destruct (sync b) eqn:Es.
  - specialize (Hp0 eq_refl). subst p. rewrite Z.add_0_l in E2.
    assert (data = (Some <$> bs) ++ replicate (length (cells b) - length bs) None) as Hd by (subst data; apply put_front; [done|lia]).
    assert (clen data = clen (cells b)) as Hl by (rewrite E8; apply clen_put; lia).
    unfold blen, clen in *. cbn [cells]. rewrite Hl.
    destruct (decide (p' = Z.of_nat (length (cells b)))) as [Hf|Hf].
    + rewrite decide_True by done. rewrite (decide_True (P := Z.of_nat (length bs) = _)) by lia.
      rewrite decide_False by (intros ->; destruct (cells b); cbn in *; [done|lia]).
      cbn [app]. unfold filled. rewrite Hd. replace (length (cells b) - length bs)%nat with 0%nat by lia. cbn [replicate]. by rewrite app_nil_r.
    + rewrite decide_False by tauto. rewrite (decide_False (P := Z.of_nat (length bs) = _)) by lia.
      destruct (decide (bs = [])) as [->|Hbs].
      * rewrite decide_False by (cbn in E2; tauto). by rewrite Hd.
      * assert (length bs <> 0)%nat by (by destruct bs). rewrite decide_True by (split; [done|lia]).
        cbn [ngx_quic_split_chain sync cells app]. unfold filled. rewrite Hd.
        rewrite take_app_length' by (rewrite length_fmap; lia). rewrite drop_app_length' by (rewrite length_fmap; lia). done.
  - rewrite !decide_False by (by intros [??]). subst data. cbn [app]. by destruct b; cbn in Es |- *; subst.
Qed.

Lemma round_copy o pre b next base ins offset limit size :
  let w := Writing pre (b :: next) base ins offset limit size in
  w_ok o w -> ins <> [] -> limit <> 0 -> base <= offset < base + blen b -> (sync b = true -> offset = base) ->
  round_ok o w (place pre b next base (copy_loop (sync b) ins (cells b) (offset - base) offset limit size)).
Proof.
  intros w Hw Hi Hl Hb Hs. destruct (w_ok_cons o w pre b next Hw eq_refl eq_refl) as (Hp & Hbo & Hn).
  destruct Hw as (H1 & H2 & H3 & H4). cbn [w w_pre w_rest w_base w_limit w_offset] in *.
  unfold blen in Hb. fold (clen (cells b)) in Hb.
  destruct (copy_loop_ok (sync b) ins (cells b) (offset - base) offset limit size ltac:(lia) H3) as [bs Hcp].
  pose proof (place_links pre b next base _ _ (offset - base) _ _ _ _ Hbo ltac:(intros E; specialize (Hs E); lia) ltac:(lia) Hcp) as Hpl.
  destruct (copy_loop _ _ _ _ _ _ _) as [[[[[ins' data] p'] offset'] limit'] size']. rewrite Hpl.
  destruct Hcp as (E1 & E2 & E3 & E4 & E5 & E6 & E7 & E8 & E9 & E10).
  assert (Z.of_nat (length bs) <= blen b) as Hbl by (unfold blen; fold (clen (cells b)); lia).
  destruct (copied_links_ok b bs Hbo Hbl) as (L1 & L2 & L3 & L4 & L5).
  split; [|split].
  - split; [cbn; by rewrite !Forall_app|]. cbn [w_pre w_rest w_base w_limit w_offset]. split; [done|]. split; [done|]. intros. lia.
  - exists bs. split; [exact E1|]. cbn [w_offset w_limit w_size w w_content w_pre w_rest].
    split; [done|]. split; [done|]. unfold w_content. cbn [w_pre w_rest w]. rewrite !content_app, content_cons. split.
    + intros x Hx. rewrite !cell_app, L3.
      rewrite (L5 (o + clen (content pre)) (offset - base) x); [|lia|intros E; specialize (Hs E); lia|unfold blen, clen in *; lia].
      rewrite <- H2. replace (base + (offset - base)) with offset by lia. unfold blen. fold (clen (cells b)).
      rewrite !union_assoc. do 2 f_equal. clear - E2 E3. 
      destruct (decide (offset <= x < offset + Z.of_nat (length bs))) as [Hx|Hx].
      * rewrite (cell_before (base + clen (cells b))) by lia. by rewrite (left_id None (∪)), (right_id None (∪)).
      * assert (bytes_at offset bs x = None) as ->.
        { unfold bytes_at. destruct (decide (x < offset)); [by apply cell_before|]. apply cell_after. rewrite clen_some. lia. }
        by rewrite (left_id None (∪)), (right_id None (∪)).
    + rewrite !known_app, L4. destruct (sync b) eqn:Es; [|lia]. destruct Hbo as [_ Hbo]. rewrite Es in Hbo.
      rewrite (known_none (cells b)) by done. lia.
  - unfold measure. cbn [w_in w_rest w_base w_offset w here].
    assert (here (copied_links b bs ++ next) = copied_links b bs ++ next) as ->.
    { destruct (copied_links b bs); cbn in L2; [lia|done]. }
    rewrite content_app, clen_app, L3, length_app. cbn [length].
    pose proof (clen_nonneg (content next)). pose proof (clen_nonneg (content (b :: next))).
    assert ((offset' - (base + (blen b + clen (content next)))) / 4096 <= 0).
    { apply Z.div_le_upper_bound; [lia|]. unfold blen, clen in *. lia. }
    apply (f_equal length) in E1. rewrite length_app in E1.
    assert (length ins <> 0)%nat by (by destruct ins).
    assert (length bs = 0 -> length ins' = 0)%nat.
    { intros E. destruct E9 as [->|[?|?]]; [done|lia|lia]. }
    destruct (boundary base (copied_links b bs ++ next) _), (boundary base (b :: next) _); lia.
Qed.

Lemma write_step_there o w b next : w_rest w = b :: next -> w_ok o w -> w_in w <> [] -> w_limit w <> 0 ->
  w_base w <= w_offset w -> round_ok o w (write_step w).
Proof.
  destruct w as [pre rest base ins offset limit size]. cbn. intros -> Hw Hi Hl Hb.
  destruct (w_ok_cons o _ pre b next Hw eq_refl eq_refl) as (Hp & Hbo & Hn).
  unfold write_step. destruct ins as [|i more]; [done|]. rewrite decide_False by lia.
  case_decide as H1; [by apply round_next|]. case_decide as H2.
  - apply (round_split o pre b next base (i :: more) offset limit size Hw). lia.
  - apply (round_copy o pre b next base (i :: more) offset limit size Hw); [done|done|lia|].
    intros Es. destruct (decide (offset > base)); [tauto|lia].
Qed.

Lemma write_step_ok o w : w_ok o w -> w_in w <> [] -> w_limit w <> 0 -> round_ok o w (write_step w).
Proof.
  intros Hw Hi Hl. destruct (decide (w_offset w < w_base w)) as [Hb|Hb].
  - destruct w as [pre rest base ins offset limit size]. cbn in *. destruct ins as [|i more]; [done|].
    unfold write_step. rewrite decide_True by done. by apply round_drop.
  - destruct (w_rest w) as [|b next] eqn:E; [|by apply (write_step_there o w b next); [..|lia]].
    set (w1 := Writing (w_pre w) [new_hole] (w_base w) (w_in w) (w_offset w) (w_limit w) (w_size w)).
    assert (w_ok o w1) as Hw1.
    { destruct Hw as (H1 & H2 & H3 & H4). rewrite E, app_nil_r in H1. split; [|done].
      cbn. apply Forall_app. split; [done|]. apply Forall_singleton, new_hole_ok. }
    assert (write_step w = write_step w1) as ->.
    { destruct w as [pre rest base ins offset limit size]. cbn in *. subst rest. unfold write_step.
      destruct ins; [done|]. by rewrite !(decide_False (P := offset < base)) by lia. }
    destruct (write_step_there o w1 new_hole [] eq_refl Hw1 Hi Hl) as (R1 & [bs R2] & R3); [cbn; lia|].
    split; [done|]. split.
    + exists ([] ++ bs). apply (advanced_trans _ _ w1); [|done]. apply (advanced_same _ _ _ NGX_QUIC_BUFFER_SIZE); try done.
      unfold w_content. rewrite E, app_nil_r. cbn [w_pre w_rest w1]. rewrite content_app. f_equal. 
    + unfold measure in *. rewrite E. exact R3.
Qed.

(** ** The whole write *)

Lemma write_loop_ok o : forall fuel w, w_ok o w -> (measure w <= fuel)%nat ->
  exists w' bs, write_loop fuel w = Some w' /\ w_ok o w' /\ advanced o w w' bs /\ (w_in w' = [] \/ w_limit w' = 0).
Proof.
  assert (forall w, advanced o w w []) as Hr.
  { intros w. apply (advanced_same o w w 0); try done. cbn. by rewrite app_nil_r. }
  induction fuel as [|fuel IH]; intros w Hw Hm; cbn [write_loop]; case_decide as Hd.
  - by exists w, [].
  - unfold measure in Hm. assert (length (w_in w) <> 0)%nat by (destruct (w_in w); [tauto|done]). lia.
  - by exists w, [].
  - destruct (write_step_ok o w Hw) as (H1 & [b1 H2] & H3); [tauto..|].
    destruct (IH _ H1 ltac:(lia)) as (w' & b2 & E & H4 & H5 & H6).
    exists w', (b1 ++ b2). split; [done|]. split; [done|]. split; [by apply (advanced_trans _ _ (write_step w))|done].
Qed.

Lemma write_start_ok qb ins limit off : buffer_ok qb -> 0 <= limit -> 0 <= offset qb -> let w := write_start qb ins limit off in
  w_ok (offset qb) w /\ w_content w = content (chain qb) /\ w_in w = ins /\ w_offset w = off /\ w_limit w = limit /\
  w_size w = size qb /\ (measure w <= write_fuel qb ins off)%nat.
Proof.
  intros [H1 H2] Hl Ho w. subst w. unfold write_start.
  assert (forall pre rest base, Forall buf_ok (pre ++ rest) -> 0 <= base -> (length rest <= length (chain qb))%nat ->
    (measure (Writing pre rest base ins off limit (size qb)) <= write_fuel qb ins off)%nat) as Hm.
  { intros pre rest base Hp Hb Hlen. unfold measure, write_fuel. cbn [w_in w_rest w_base w_offset].
    assert (length (here rest) <= length rest + 1)%nat by (destruct rest; cbn; lia).
    assert ((off - (base + clen (content (here rest)))) / 4096 <= off / 4096).
    { apply Z.div_le_mono; [lia|]. pose proof (clen_nonneg (content (here rest))). lia. }
    destruct (boundary _ _ _); lia. }
  assert (let w := Writing [] (chain qb) (offset qb) ins off limit (size qb) in
    w_ok (offset qb) w /\ w_content w = content (chain qb) /\ w_in w = ins /\ w_offset w = off /\ w_limit w = limit /\
    w_size w = size qb /\ (measure w <= write_fuel qb ins off)%nat) as Hfront.
  { split; [|repeat split; try done; apply Hm; [done|done|lia]].
    split; [done|]. cbn. unfold clen. cbn. repeat split; [lia|done]. }
  destruct (last_chain qb) as [k|]; [|exact Hfront]. case_decide as Hd; [|exact Hfront].
  destruct H2 as [Hk Hlo].
  split.
  - split; [cbn; by rewrite take_drop|]. cbn. split; [done|]. split; [done|]. intros. lia.
  - unfold w_content. cbn [w_pre w_rest w_in w_offset w_limit w_size]. rewrite take_drop. repeat split.
    apply Hm; [by rewrite take_drop| |rewrite length_drop; lia].
    pose proof (clen_nonneg (content (take k (chain qb)))). lia.
Qed.

(** What a write does: it takes the input up to the limit, and each byte of it goes to its offset unless there is one, or
    unless the offset has been read. *)
Definition write_spec (qb qb' : qbuffer) (ins ins' : list (list Z)) (limit off : Z) : Prop :=
  let bs := take (Z.to_nat limit) (concat ins) in
  concat ins' = drop (Z.to_nat limit) (concat ins) /\ offset qb' = offset qb /\
  (forall x, offset qb <= x -> byte_at qb' x = byte_at qb x ∪ bytes_at off bs x) /\
  size qb' - size qb = known (content (chain qb')) - known (content (chain qb)).

Lemma write_buffer_ok qb ins limit off : buffer_ok qb -> 0 <= limit -> 0 <= offset qb ->
  exists ins' qb', ngx_quic_write_buffer qb ins limit off = Some (ins', qb') /\ buffer_ok qb' /\
    write_spec qb qb' ins ins' limit off.
Proof.
  intros Hq Hl Ho. unfold ngx_quic_write_buffer.
  destruct (write_start_ok qb ins limit off Hq Hl Ho) as (W1 & W2 & W3 & W4 & W5 & W6 & W7).
  destruct (write_loop_ok _ _ _ W1 W7) as (w & bs & -> & (V1 & V2 & V3 & _) & (A1 & A2 & A3 & A4 & A5) & Hend).
  rewrite W2, W3, W4, W5, W6 in *. cbn [mbind option_bind].
  exists (w_in w), (QBuffer (w_pre w ++ w_rest w) (match w_rest w with [] => None | _ => Some (length (w_pre w)) end)
    (w_size w) (offset qb) (w_base w)).
  assert (bs = take (Z.to_nat limit) (concat ins) /\ concat (w_in w) = drop (Z.to_nat limit) (concat ins)) as [Hbs Hrest].
  { destruct Hend as [E|E].
    - rewrite E in *. cbn [concat] in *. rewrite app_nil_r in A1. rewrite A1.
      rewrite take_ge, drop_ge by lia. done.
    - rewrite A1, take_app_length', drop_app_length' by lia. done. }
  split; [done|]. split; [|split; [done|split; [done|split]]].
  - split; [done|]. cbn [chain last_chain last_offset offset]. destruct (w_rest w) as [|b rest] eqn:E; [done|].
    rewrite length_app, take_app_length. cbn [length]. split; [lia|done].
  - intros x Hx. rewrite <- Hbs. unfold byte_at. cbn [chain offset]. by apply A4.
  - cbn [size chain]. unfold w_content in A5. lia.
Qed.

(** ** Reading *)

Definition no_hole (b : buf) : Prop := buf_ok b /\ sync b = false.

(** What is read, what is left, and where the links are. *)
Lemma read_chain_ok ll : forall limit o, Forall buf_ok ll -> 0 <= limit ->
  let '(out, rest, o', split) := read_loop ll limit o in
  Forall no_hole out /\ Forall buf_ok rest /\ content ll = content out ++ content rest /\ o' = o + clen (content out) /\
  clen (content out) <= limit /\
  (clen (content out) = limit \/ rest = [] \/ exists b rest', rest = b :: rest' /\ sync b = true) /\
  (forall k, (k < length ll)%nat -> o' < o + clen (content (take k ll)) ->
     let k' := (k + (if split then 1 else 0) - length out)%nat in
     (k' < length rest)%nat /\ content (take k ll) = content out ++ content (take k' rest)).
Proof.
  induction ll as [|b next IH]; intros limit o Hll Hl.
  - cbn. change (clen (content [])) with 0. rewrite Z.add_0_r.
    do 2 (split; [apply Forall_nil_2|]). repeat (split; [done|]). split; [by right; left|]. intros; lia.
  - apply Forall_cons in Hll as [Hb Hn]. cbn [read_loop].
    assert (clen (content []) = 0) as H0 by done.
    assert (forall k, content (take k (b :: next)) = content [] ++ content (take (k + 0 - length (@nil buf)) (b :: next))) as Hid.
    { intros k. cbn [length content map concat app]. by rewrite Nat.add_0_r, Nat.sub_0_r. }
    destruct (sync b) eqn:Es.
    { rewrite H0, Z.add_0_r. split; [apply Forall_nil_2|]. split; [by constructor|]. repeat (split; [done|]).
      split; [right; right; by exists b, next|]. intros k Hk _. split; [cbn [length] in *; lia|apply Hid]. }
    case_decide as E0.
    { rewrite H0, Z.add_0_r. split; [apply Forall_nil_2|]. split; [by constructor|]. repeat (split; [done|]).
      split; [by left|]. intros k Hk _. split; [cbn [length] in *; lia|apply Hid]. }
    case_decide as En.
    + destruct (split_chain_ok b limit Hb ltac:(lia)) as (x & y & -> & Hx & Hy & Hc & Hlen). rewrite Es in *.
      assert (content [Buf false x] = x) as Hcx by (cbn; apply app_nil_r). rewrite Hcx.
      split; [by apply Forall_singleton|]. split; [by constructor|]. split; [rewrite !content_cons, Hc; cbn [cells]; by rewrite app_assoc|].
      split; [lia|]. split; [lia|]. split; [by left|]. intros k Hk Hlt. cbn [length] in *.
      destruct k as [|k]; [cbn [take] in Hlt; lia|]. cbn zeta.
      replace (S k + 1 - 1)%nat with (S k) by lia. split; [lia|]. cbn [take]. rewrite !content_cons, Hc. cbn [cells]. by rewrite app_assoc.
    + specialize (IH (limit - blen b) (o + blen b) Hn ltac:(lia)).
      destruct (read_loop next _ _) as [[[out rest] o'] split]. destruct IH as (I1 & I2 & I3 & I4 & I5 & I6 & I7).
      assert (clen (content (b :: out)) = blen b + clen (content out)) as Hc by (rewrite content_cons; apply clen_app).
      split; [by constructor|]. split; [done|]. split; [rewrite !content_cons, I3; by rewrite app_assoc|].
      rewrite Hc. split; [lia|]. split; [lia|]. split; [destruct I6 as [?|?]; [left; lia|by right]|].
      intros k Hk Hlt. destruct k as [|k].
      { cbn [take] in Hlt. pose proof (clen_nonneg (content out)). pose proof (blen_pos b Hb). lia. }
      cbn [length take] in *. rewrite content_cons, clen_app in Hlt. fold (blen b) in Hlt.
      destruct (I7 k ltac:(lia)) as [J1 J2]; [unfold blen, clen in *; lia|]. cbn zeta in *.
      replace (S k + (if split then 1 else 0) - S (length out))%nat with (k + (if split then 1 else 0) - length out)%nat by lia.
      split; [done|]. rewrite !content_cons, J2. by rewrite app_assoc.
Qed.

Lemma content_no_hole out : Forall no_hole out -> content out = Some <$> concat (chain_bytes out).
Proof.
  induction 1 as [|b out [[_ Hb] Es] H IH]; [done|]. rewrite content_cons, IH. cbn [chain_bytes map concat].
  rewrite Es in Hb. destruct (filled_inv _ Hb) as [bs ->]. by rewrite omap_some, fmap_app.
Qed.

(** What a read does: it takes the bytes up to the limit or to the first one that has not been received. *)
Definition read_spec (qb qb' : qbuffer) (data : list Z) (limit : Z) : Prop :=
  offset qb' = offset qb + Z.of_nat (length data) /\ Z.of_nat (length data) <= limit /\
  (forall i, (i < length data)%nat -> data !! i = byte_at qb (offset qb + Z.of_nat i)) /\
  (Z.of_nat (length data) = limit \/ byte_at qb (offset qb') = None) /\
  (forall x, offset qb' <= x -> byte_at qb' x = byte_at qb x) /\ size qb' = size qb /\
  known (content (chain qb')) = known (content (chain qb)) - Z.of_nat (length data).

Lemma read_buffer_ok qb limit : buffer_ok qb -> 0 <= limit ->
  let '(out, qb') := ngx_quic_read_buffer qb limit in
  buffer_ok qb' /\ Forall no_hole out /\ read_spec qb qb' (concat (chain_bytes out)) limit.
Proof.
  intros [H1 H2] Hl. unfold ngx_quic_read_buffer.
  pose proof (read_chain_ok (chain qb) limit (offset qb) H1 Hl) as R.
  destruct (read_loop _ _ _) as [[[out rest] o'] split]. destruct R as (R1 & R2 & R3 & R4 & R5 & R6 & R7).
  pose proof (content_no_hole out R1) as Hout. set (data := concat (chain_bytes out)) in *.
  rewrite Hout, clen_some in *.
  split; [|split; [done|]].
  - split; [done|]. cbn [chain last_chain last_offset offset]. case_decide as Hd; [done|].
    destruct (last_chain qb) as [k|]; [|done]. cbn [fmap option_fmap option_map]. destruct H2 as [Hk Hlo].
    destruct (R7 k Hk ltac:(lia)) as [K1 K2]. split; [done|]. rewrite Hlo, K2, clen_app, clen_some. lia.
  - unfold read_spec, byte_at. cbn [chain offset size]. rewrite R3.
    split; [done|]. split; [done|]. split; [|split; [|split; [|split]]].
    + intros i Hi.
      rewrite cell_app, (cell_before (_ + _)) by (rewrite clen_some; lia). rewrite (right_id None (∪)), cell_some_bytes, decide_True by lia.
      f_equal. lia.
    + destruct R6 as [?|R6]; [by left|right]. rewrite cell_app, cell_after by (rewrite clen_some; lia).
      rewrite (left_id None (∪)), clen_some, <- R4. destruct R6 as [->|(b & rest' & -> & Eb)]; [apply cell_nil|].
      apply Forall_cons in R2 as [Hb _]. pose proof (blen_pos b Hb). destruct Hb as [_ Hb]. rewrite Eb in Hb.
      rewrite content_cons, cell_app, cell_none by done. rewrite cell_before by (unfold blen, clen in *; lia). done.
    + intros x Hx. rewrite cell_app, (cell_after (offset qb)) by (rewrite clen_some; lia).
      by rewrite (left_id None (∪)), clen_some, <- R4.
    + done.
    + rewrite known_app, known_some. lia.
Qed.

(** ** Skipping *)

Lemma skip_loop_ok cl : forall o off, Forall buf_ok cl ->
  let '(freed, rest, o') := skip_loop cl o off in
  exists dropped, content cl = dropped ++ content rest /\ Forall buf_ok rest /\ o' = o + clen dropped /\
  (rest = [] \/ o' = Z.max o off) /\ o' <= Z.max o off /\
  (forall k, (k < length cl)%nat -> o' < o + clen (content (take k cl)) ->
     (k - freed < length rest)%nat /\ content (take k cl) = dropped ++ content (take (k - freed) rest)).
Proof.
  induction cl as [|b next IH]; intros o off H.
  - exists []. cbn. change (clen []) with 0. split; [done|]. split; [done|]. split; [lia|]. split; [by left|]. split; [lia|].
    intros. lia.
  - apply Forall_cons in H as [Hb Hn]. pose proof (blen_pos b Hb) as Hpos. cbn [skip_loop]. case_decide as H1.
    + exists []. change (clen []) with 0. split; [done|]. split; [by constructor|]. split; [lia|]. split; [right; lia|]. split; [lia|].
      intros k Hk _. by rewrite Nat.sub_0_r.
    + case_decide as H2.
      * destruct (split_chain_ok b (off - o) Hb ltac:(lia)) as (x & y & E & Hx & Hy & Hc & Hlen).
        injection E as Ex Ey. rewrite Ey. exists x. rewrite !content_cons, Hc. cbn [cells].
        split; [by rewrite app_assoc|]. split; [by constructor|]. split; [lia|]. split; [right; lia|]. split; [lia|].
        intros k Hk Hlt. rewrite Nat.sub_0_r. split; [done|]. destruct k as [|k]; [cbn [take] in Hlt; change (clen (content [])) with 0 in Hlt; lia|].
        cbn [take]. rewrite !content_cons, Hc. cbn [cells]. by rewrite app_assoc.
      * specialize (IH (o + blen b) off Hn). destruct (skip_loop next _ _) as [[freed rest] o'].
        destruct IH as (d & I1 & I2 & I3 & I4 & I5 & I6). exists (cells b ++ d). rewrite content_cons, I1, clen_app.
        fold (clen (cells b)). change (clen (cells b)) with (blen b).
        split; [by rewrite app_assoc|]. split; [done|]. split; [lia|]. split; [destruct I4; [by left|right; lia]|]. split; [lia|].
        intros k Hk Hlt. destruct k as [|k].
        { cbn [take] in Hlt. change (clen (content [])) with 0 in Hlt. pose proof (clen_nonneg d). lia. }
        cbn [length take] in *. rewrite content_cons, clen_app in *. change (clen (cells b)) with (blen b) in Hlt.
        destruct (I6 k ltac:(lia) ltac:(lia)) as [J1 J2]. cbn [Nat.sub]. split; [done|]. by rewrite J2, app_assoc.
Qed.

(** The bytes before [off] are dropped, and only these. A smaller [off] leaves the buffer as it is, but an empty one
    takes its offset from it. *)
Lemma skip_buffer_ok qb off : buffer_ok qb -> let qb' := ngx_quic_skip_buffer qb off in
  buffer_ok qb' /\ offset qb' = (match chain qb with [] => off | _ => Z.max (offset qb) off end) /\
  (forall x, offset qb <= offset qb' <= x -> byte_at qb' x = byte_at qb x).
Proof.
  intros [H1 H2]. unfold ngx_quic_skip_buffer, buffer_ok, byte_at.
  pose proof (skip_loop_ok (chain qb) (offset qb) off H1) as S.
  destruct (skip_loop _ _ _) as [[freed rest] o'] eqn:El. destruct S as (d & S1 & S2 & S3 & S4 & S5 & S6).
  pose proof (clen_nonneg d) as Hd.
  assert ((match rest with [] => off | _ => o' end) = match chain qb with [] => off | _ => Z.max (offset qb) off end) as Ho.
  { destruct (chain qb) as [|b next] eqn:Ec; [cbn in El; injection El as <- <- <-; done|].
    destruct rest; [|by destruct S4]. cbn [skip_loop] in El. case_decide; [done|lia]. }
  cbn zeta. cbn [chain last_chain last_offset offset]. rewrite Ho. split; [|split; [done|]].
  - split; [done|]. case_decide as Hlo; [done|]. destruct (last_chain qb) as [k|]; [|done].
    cbn [fmap option_fmap option_map]. destruct H2 as [Hk Hlo2].
    destruct (chain qb) as [|b next] eqn:Ec; [cbn in Hk; lia|]. rewrite <- Ec in *.
    destruct (S6 k Hk ltac:(lia)) as [K1 K2]. split; [done|]. rewrite Hlo2, K2, clen_app.
    destruct rest; [cbn in K1; lia|]. lia.
  - intros x Hx. rewrite S1, cell_app, <- S3. destruct rest as [|r rest].
    + rewrite !cell_nil. rewrite cell_after; [done|]. rewrite <- Ho in Hx.
      destruct (chain qb) eqn:Ec.
      * cbn in El. inversion El. lia.
      * cbn in *. lia.
    + rewrite <- Ho in *. rewrite (cell_after (offset qb) d) by lia. by rewrite (left_id None (∪)).
Qed.

(** ** A stream in pieces *)

(** What the users of a buffer do: the data of a frame are written at their offset, and what is in order is read. *)
Inductive op := Write (off limit : Z) (ins : list (list Z)) | Read (limit : Z).

Definition step (qb : qbuffer) (o : op) : option (list Z * qbuffer) :=
  match o with
  | Write off limit ins => '(_, qb) ← ngx_quic_write_buffer qb ins limit off; Some ([], qb)
  | Read limit => let '(out, qb) := ngx_quic_read_buffer qb limit in Some (concat (chain_bytes out), qb)
  end.

Fixpoint run (qb : qbuffer) (ops : list op) : option (list Z * qbuffer) :=
  match ops with
  | [] => Some ([], qb)
  | o :: ops => '(a, qb) ← step qb o; '(b, qb) ← run qb ops; Some (a ++ b, qb)
  end.

(** The bytes that an operation brings are the ones of the stream [s] at their offset. *)
Definition op_of (s : list Z) (o : op) : Prop :=
  match o with
  | Write off limit ins => 0 <= off /\ 0 <= limit /\
      take (Z.to_nat limit) (concat ins) `prefix_of` drop (Z.to_nat off) s
  | Read limit => 0 <= limit
  end.

(** The offset [x] is in a piece that has been written. *)
Definition op_covers (x : Z) (o : op) : Prop :=
  match o with
  | Write off limit ins => off <= x < off + Z.of_nat (length (take (Z.to_nat limit) (concat ins)))
  | Read _ => False
  end.

Definition covered (ops : list op) (x : Z) : Prop := Exists (op_covers x) ops.

(** The state after the operations [ops] that have given [out]. *)
Record delivers (s : list Z) (ops : list op) (out : list Z) (qb : qbuffer) : Prop := Delivers {
  del_ok : buffer_ok qb;
  del_offset : offset qb = Z.of_nat (length out);
  del_out : forall i v, out !! i = Some v -> s !! i = Some v;
  del_read : forall x, 0 <= x < offset qb -> covered ops x;
  del_byte : forall x v, offset qb <= x -> byte_at qb x = Some v <-> covered ops x /\ s !! Z.to_nat x = Some v;
  del_size : size qb = Z.of_nat (length out) + known (content (chain qb))
}.

Lemma covered_app a b x : covered (a ++ b) x <-> covered a x \/ covered b x.
Proof. apply Exists_app. Qed.

Lemma covered_in s ops x : Forall (op_of s) ops -> covered ops x -> 0 <= x < Z.of_nat (length s).
Proof.
  intros H [o [Hin Hc]]%Exists_exists. rewrite Forall_forall in H. specialize (H _ Hin). destruct o as [off limit ins|]; [|done].
  cbn in *. destruct H as (H1 & H2 & H3%prefix_length). rewrite length_drop in H3. lia.
Qed.

Lemma bytes_at_piece s off bs x v : 0 <= off -> bs `prefix_of` drop (Z.to_nat off) s ->
  bytes_at off bs x = Some v <-> off <= x < off + Z.of_nat (length bs) /\ s !! Z.to_nat x = Some v.
Proof.
  intros Ho [r Hr]. unfold bytes_at. rewrite cell_some_bytes. case_decide as Hx; [|split; [done|lia]].
  assert (forall i, (i < length bs)%nat -> bs !! i = s !! (Z.to_nat off + i)%nat) as Hb.
  { intros i Hi. by rewrite <- lookup_drop, Hr, lookup_app_l. }
  destruct (decide (x < off + Z.of_nat (length bs))).
  - rewrite Hb by lia. replace (Z.to_nat off + Z.to_nat (x - off))%nat with (Z.to_nat x) by lia. split; [by intros|by intros [_ ?]].
  - rewrite lookup_ge_None_2 by lia. split; [done|lia].
Qed.

Lemma delivers_write s ops out qb off limit ins : delivers s ops out qb -> op_of s (Write off limit ins) ->
  exists qb', step qb (Write off limit ins) = Some ([], qb') /\ delivers s (ops ++ [Write off limit ins]) out qb'.
Proof.
  intros [D1 D2 D3 D4 D5 D6] (O1 & O2 & O3).
  destruct (write_buffer_ok qb ins limit off D1 O2) as (ins' & qb' & E & W1 & W2 & W3 & W4 & W5); [lia|].
  exists qb'. cbn [step]. rewrite E. split; [done|]. split; rewrite ?W3; try done.
  - intros x Hx. rewrite covered_app. left. by apply D4.
  - intros x v Hx. rewrite W4 by done. rewrite union_Some, D5, (bytes_at_piece s) by done.
    rewrite covered_app. unfold covered at 3. rewrite Exists_cons, Exists_nil. cbn [op_covers].
    split; [intros [[??]|(_&?&?)]; tauto|]. intros [[Hc|[Hc|[]]] Hv]; [by left|].
    destruct (byte_at qb x) as [u|] eqn:Eu; [left|right; tauto].
    apply D5 in Eu as [Hu Hu2]; [|done]. split; [done|congruence].
  - lia.
Qed.

Lemma delivers_read s ops out qb limit : delivers s ops out qb -> 0 <= limit ->
  exists data qb', step qb (Read limit) = Some (data, qb') /\ delivers s (ops ++ [Read limit]) (out ++ data) qb' /\
    (Z.of_nat (length data) = limit \/ ~ covered ops (offset qb') \/ Z.of_nat (length s) <= offset qb').
Proof.
  intros [D1 D2 D3 D4 D5 D6] Hl. pose proof (read_buffer_ok qb limit D1 Hl) as R. cbn [step].
  destruct (ngx_quic_read_buffer qb limit) as [outb qb']. destruct R as (R1 & R2 & R3 & R4 & R5 & R6 & R7 & R8 & R9).
  set (data := concat (chain_bytes outb)) in *. exists data, qb'. split; [done|].
  assert (forall x, covered (ops ++ [Read limit]) x <-> covered ops x) as Hcov.
  { intros x. rewrite covered_app. unfold covered at 2. rewrite Exists_cons, Exists_nil. cbn. tauto. }
  assert (forall i v, data !! i = Some v -> covered ops (offset qb + Z.of_nat i) /\ s !! (length out + i)%nat = Some v) as Hd.
  { intros i v Hi. pose proof (lookup_lt_Some _ _ _ Hi). rewrite R5 in Hi by done. apply D5 in Hi as [Hc Hv]; [|lia].
    split; [done|]. rewrite <- Hv. f_equal. lia. }
  split.
  - split; [done|rewrite length_app; lia| | | |].
    + intros i v [Hi|[Hi1 Hi2]]%lookup_app_Some; [by apply D3|]. apply Hd in Hi2 as [_ <-]. f_equal. lia.
    + intros x Hx. rewrite Hcov. destruct (decide (x < offset qb)); [by apply D4; lia|].
      destruct (lookup_lt_is_Some_2 data (Z.to_nat (x - offset qb)) ltac:(lia)) as [v Hv]. apply Hd in Hv as [Hc _].
      by replace (offset qb + Z.of_nat (Z.to_nat (x - offset qb))) with x in Hc by lia.
    + intros x v Hx. rewrite R7, D5, Hcov by lia. done.
    + rewrite length_app. lia.
  - destruct R6 as [?|R6]; [by left|right]. destruct (decide (offset qb' < Z.of_nat (length s))) as [Hs|]; [left|right; lia].
    intros Hc. destruct (lookup_lt_is_Some_2 s (Z.to_nat (offset qb')) ltac:(lia)) as [v Hv].
    assert (byte_at qb (offset qb') = Some v) as E by (apply D5; [lia|done]). congruence.
Qed.

Lemma delivers_run s ops : forall done_ out qb, delivers s done_ out qb -> Forall (op_of s) ops ->
  exists out' qb', run qb ops = Some (out', qb') /\ delivers s (done_ ++ ops) (out ++ out') qb'.
Proof.
  induction ops as [|o ops IH]; intros done_ out qb D H.
  - exists [], qb. split; [done|]. by rewrite !app_nil_r.
  - apply Forall_cons in H as [Ho H]. destruct o as [off limit ins|limit].
    + destruct (delivers_write _ _ _ _ _ _ _ D Ho) as (qb1 & E1 & D1). destruct (IH _ _ _ D1 H) as (out' & qb' & E2 & D2).
      exists out', qb'. cbn [run]. rewrite E1. cbn [mbind option_bind]. rewrite E2. split; [done|]. by rewrite <- app_assoc in D2.
    + destruct (delivers_read _ _ _ _ _ D Ho) as (data & qb1 & E1 & D1 & _). destruct (IH _ _ _ D1 H) as (out' & qb' & E2 & D2).
      exists (data ++ out'), qb'. cbn [run]. rewrite E1. cbn [mbind option_bind]. rewrite E2. split; [done|]. by rewrite <- !app_assoc in *.
Qed.

Lemma empty_delivers s : delivers s [] [] empty_buffer.
Proof.
  split; try done; cbn; [lia|]. intros x v Hx. unfold byte_at. cbn. rewrite cell_nil. split; [done|].
  unfold covered. rewrite Exists_nil. tauto.
Qed.

Lemma delivers_prefix s ops out qb : delivers s ops out qb -> out `prefix_of` s.
Proof.
  intros D. exists (drop (length out) s). apply list_eq. intros i. destruct (decide (i < length out)%nat) as [Hi|Hi].
  - rewrite lookup_app_l by done. destruct (lookup_lt_is_Some_2 out i Hi) as [v Hv]. rewrite Hv. by apply (del_out _ _ _ _ D).
  - rewrite lookup_app_r, lookup_drop by lia. f_equal. lia.
Qed.

(** ** The splitting of a frame *)

Lemma int_len_mono a b : a <= b -> int_len a <= int_len b.
Proof. unfold int_len, ngx_quic_varint_len. intros. repeat case_decide; lia. Qed.

Lemma data_chain_ok data : Forall (fun b => b <> []) data -> Forall buf_ok (data_chain data).
Proof. intros H. unfold data_chain. apply Forall_fmap. eapply Forall_impl; [exact H|]. intros b Hb. by apply filled_ok. Qed.

Lemma content_data data : content (data_chain data) = Some <$> concat data.
Proof. induction data as [|b data IH]; [done|]. cbn [data_chain map concat]. rewrite content_cons, fmap_app. by f_equal. Qed.

(** Reading a chain without holes cuts it at the limit. *)
Lemma read_data data limit : Forall (fun b => b <> []) data -> 0 <= limit <= Z.of_nat (length (concat data)) ->
  let '(out, qb) := ngx_quic_read_buffer (QBuffer (data_chain data) None 0 0 0) limit in
  Forall no_hole out /\ Forall no_hole (chain qb) /\
  concat data = concat (chain_bytes out) ++ concat (chain_bytes (chain qb)) /\
  Z.of_nat (length (concat (chain_bytes out))) = limit.
Proof.
  intros Hne Hl. unfold ngx_quic_read_buffer. cbn [chain offset last_offset last_chain size].
  pose proof (read_chain_ok (data_chain data) limit 0 (data_chain_ok _ Hne) ltac:(lia)) as R.
  assert (Forall (fun b => sync b = false) (data_chain data)) as Hs by (unfold data_chain; apply Forall_fmap; apply Forall_true; done).
  assert (forall l m o, Forall (fun b => sync b = false) l ->
    let '(_, rest, _, _) := read_loop l m o in Forall (fun b => sync b = false) rest) as Hrest.
  { clear. induction l as [|b l IH]; intros m o H; [done|]. apply Forall_cons in H as [Hb H]. cbn [read_loop]. rewrite Hb.
    case_decide; [by constructor|]. case_decide; [cbn; rewrite Hb; by constructor|].
    specialize (IH (m - blen b) (o + blen b) H). by destruct (read_loop l _ _) as [[[??]?]?]. }
  specialize (Hrest _ limit 0 Hs).
  destruct (read_loop _ _ _) as [[[out rest] o'] sp]. destruct R as (R1 & R2 & R3 & R4 & R5 & R6 & R7).
  assert (Forall no_hole rest) as Hr.
  { apply Forall_forall. intros b Hb. rewrite Forall_forall in R2. rewrite Forall_forall in Hrest. split; auto. }
  cbn [chain]. split; [done|]. split; [done|].
  rewrite content_data, (content_no_hole out R1), (content_no_hole rest Hr), <- fmap_app in R3.
  assert (concat data = concat (chain_bytes out) ++ concat (chain_bytes rest)) as Hc.
  { assert (omap id (Some <$> concat data) = omap id (Some <$> (concat (chain_bytes out) ++ concat (chain_bytes rest)))) as E by congruence.
    by rewrite !omap_some in E. }
  split; [done|]. rewrite (content_no_hole out R1), clen_some in R6. destruct R6 as [?|[->|(b & r & -> & Eb)]]; [done| |].
  - cbn [chain_bytes map concat] in Hc. rewrite app_nil_r in Hc. rewrite Hc in Hl.
    rewrite (content_no_hole out R1), clen_some in R5. lia.
  - apply Forall_cons in Hr as [[_ Hr] _]. congruence.
Qed.

(** A frame with data at an offset as the server makes them: the offset is on the wire, the data fill the buffers. *)
Definition sendable (f : frame) : Prop :=
  typed f /\ Forall (fun b => b <> []) (f_data f) /\
  match f_u f with
  | u_crypto offset length => offset + length < 2 ^ 62
  | u_stream offset length _ off _ _ => off = true /\ offset + length < 2 ^ 62
  | _ => False
  end.

(** The length of a frame is the one of its head, which grows with the offset and the length, and the one of the data. *)
Definition head_len (u : frame_u) (offset length : Z) : Z :=
  match u with
  | u_crypto _ _ => 1 + int_len offset + int_len length
  | u_stream _ _ id off len _ => 1 + int_len id + (if off then int_len offset else 0) + (if len then int_len length else 0)
  | _ => 0
  end.

Lemma frame_len_ord ty lv data u offset length fin fin' o : ord u = Some o ->
  ty = (match u with u_crypto _ _ => NGX_QUIC_FT_CRYPTO | _ => NGX_QUIC_FT_STREAM end) ->
  frame_len (Frame ty lv data (with_ord u offset length fin)) = Some (head_len u offset length + length) /\
  frame_len (Frame ty lv data (with_ord u offset length fin)) = frame_len (Frame ty lv data (with_ord u offset length fin')).
Proof.
  intros Ho ->. destruct u; try done; unfold frame_len, ngx_quic_create_frame; cbn [with_ord f_type f_u head_len].
  rewrite !decide_True by done. cbn [fmap option_fmap option_map snd fst f_data]. unfold ngx_quic_create_stream. cbn [fst].
  split; [|by destruct off, len, fin, fin'].
  f_equal. f_equal. by destruct off, len, fin.
Qed.

Lemma with_ord_id u offset length fin : ord u = Some (offset, length, fin) -> with_ord u offset length fin = u.
Proof. destruct u; try done; cbn; intros E; by inversion E. Qed.

Lemma ord_with_ord u o offset length fin : ord u = Some o ->
  ord (with_ord u offset length fin) = Some (offset, length, match u with u_crypto _ _ => false | _ => fin end).
Proof. by destruct u. Qed.

(** A part of a frame, at an offset in it. *)
Lemma sendable_part f k data fin : sendable f -> bytes (concat data) -> 
  Forall (fun b => b <> []) data -> 0 <= k -> k + Z.of_nat (length (concat data)) <= Z.of_nat (length (concat (f_data f))) ->
  forall offset length0 fin0, ord (f_u f) = Some (offset, length0, fin0) ->
  sendable (Frame (f_type f) (f_level f) data (with_ord (f_u f) (offset + k) (Z.of_nat (length (concat data))) fin)).
Proof.
  intros ((Hb & Ht) & Hn & Hs) Hbd Hd Hk Hl offset length0 fin0 Ho.
  destruct f as [ty lv fd u]. cbn [f_type f_level f_data f_u] in *. unfold sendable, typed. cbn [f_type f_level f_data f_u].
  destruct u; try done; cbn [ord with_ord] in *; injection Ho as -> -> ?; unfold int62 in *.
  - destruct Ht as (-> & [H1 [H2 _]%Forall_cons]%Forall_cons & ->). 
    split; [split; [done|]|split; [done|lia]]. split; [done|]. split; [|done].
    repeat (apply Forall_cons; split; [lia|]). apply Forall_nil_2.
  - destruct Ht as (-> & [H1 [H2 _]%Forall_cons]%Forall_cons & -> & H3 & H4). destruct Hs as [-> Hs].
    split; [split; [done|]|split; [done|split; [done|lia]]]. split; [done|]. split.
    + repeat (apply Forall_cons; split; [lia|]). apply Forall_nil_2.
    + split; [done|]. split; [intros E; specialize (H3 E); lia|done].
Qed.

Lemma chain_bytes_ne out : Forall no_hole out -> Forall (fun b => b <> []) (chain_bytes out).
Proof.
  intros H. unfold chain_bytes. apply Forall_fmap. eapply Forall_impl; [exact H|]. intros b [[Hne Hb] Es]. cbn.
  rewrite Es in Hb. destruct (filled_inv _ Hb) as [bs E]. rewrite E, omap_some in *. by destruct bs.
Qed.

(** The bytes of data for which there is place in [len] beside the header of the whole frame. *)
Definition room (f : frame) (flen len : Z) : Z := len - (flen - Z.of_nat (length (concat (f_data f)))).

(** The frame with the first [m] bytes of the data alone. *)
Definition first_part (f : frame) (m : Z) : frame :=
  match ord (f_u f) with
  | Some (offset, _, fin) =>
      Frame (f_type f) (f_level f) [take (Z.to_nat m) (concat (f_data f))] (with_ord (f_u f) offset m fin)
  | None => f
  end.

(** A part that fits has at most seven bytes more than [k]. *)
Definition near_best (f : frame) (len k : Z) : Prop :=
  forall m l, 0 <= m <= Z.of_nat (length (concat (f_data f))) -> frame_len (first_part f m) = Some l -> l <= len -> m <= k + 7.

(** The outcome of a split: nothing to do, no place for a byte of data beside the header of the whole frame, or two
    frames for the parts of the data, of which the first one is cut to that place, and fits. *)
Definition split_spec (f : frame) (flen len : Z) (r : split) : Prop :=
  match r with
  | SplitError => False
  | Whole => flen <= len
  | Declined => len < flen /\ room f flen len <= 0 /\ near_best f len (room f flen len)
  | Split f1 f2 n1 n2 =>
      len < flen /\ sendable f1 /\ sendable f2 /\ frame_len f1 = Some n1 /\ frame_len f2 = Some n2 /\ n1 <= len /\
      concat (f_data f1) ++ concat (f_data f2) = concat (f_data f) /\
      0 < room f flen len /\ Z.of_nat (length (concat (f_data f1))) = room f flen len /\ concat (f_data f2) <> [] /\
      near_best f len (room f flen len) /\
      (exists offset fin, ord (f_u f) = Some (offset, Z.of_nat (length (concat (f_data f))), fin) /\
         f1 = Frame (f_type f) (f_level f) (f_data f1) (with_ord (f_u f) offset (Z.of_nat (length (concat (f_data f1)))) false) /\
         f2 = Frame (f_type f) (f_level f) (f_data f2)
                (with_ord (f_u f) (offset + Z.of_nat (length (concat (f_data f1)))) (Z.of_nat (length (concat (f_data f2)))) fin))
  end.

Lemma int_len_range n : 1 <= int_len n <= 8.
Proof. unfold int_len, ngx_quic_varint_len. repeat case_decide; lia. Qed.

(** The length field of a part is seven bytes shorter at most. *)
Lemma split_near_best f flen len : sendable f -> frame_len f = Some flen -> near_best f len (room f flen len).
Proof.
  intros Hs Hlen m l Hm El Hl. unfold room, first_part in *.
  assert (exists offset fin, ord (f_u f) = Some (offset, Z.of_nat (length (concat (f_data f))), fin) /\
    f_type f = (match f_u f with u_crypto _ _ => NGX_QUIC_FT_CRYPTO | _ => NGX_QUIC_FT_STREAM end)) as (offset & fin & Ho & Ht).
  { destruct Hs as ((_ & Ht) & _ & Hs). destruct (f_u f) as [| | offset length | | |offset length ? ? ? fin | | | | | | | | | | | |]; try done.
    - destruct Ht as (E & _ & ->). by exists offset, false.
    - destruct Ht as (E & _ & -> & _). by exists offset, fin. }
  rewrite Ho in El. set (total := Z.of_nat (length (concat (f_data f)))) in *.
  pose proof (frame_len_ord (f_type f) (f_level f) (f_data f) (f_u f) offset total fin fin _ Ho Ht) as [Hf _].
  rewrite with_ord_id in Hf by done. assert (Frame (f_type f) (f_level f) (f_data f) (f_u f) = f) as Hff by by destruct f.
  rewrite Hff, Hlen in Hf. injection Hf as Hf.
  pose proof (frame_len_ord (f_type f) (f_level f) [take (Z.to_nat m) (concat (f_data f))] (f_u f) offset m fin fin _ Ho Ht) as [E1 _].
  rewrite E1 in El. injection El as <-.
  pose proof (int_len_range total). pose proof (int_len_range m).
  assert (head_len (f_u f) offset total <= head_len (f_u f) offset m + 7).
  { destruct (f_u f); cbn; try lia. destruct len0; lia. }
  lia.
Qed.

Lemma split_frame_ok f flen len : sendable f -> frame_len f = Some flen -> split_spec f flen len (ngx_quic_split_frame f flen len).
Proof.
  intros Hs Hlen. pose proof (split_near_best f flen len Hs Hlen) as Hbest.
  assert (exists offset fin, ord (f_u f) = Some (offset, Z.of_nat (length (concat (f_data f))), fin) /\
    f_type f = (match f_u f with u_crypto _ _ => NGX_QUIC_FT_CRYPTO | _ => NGX_QUIC_FT_STREAM end)) as (offset & fin & Ho & Ht).
  { destruct Hs as ((_ & Ht) & _ & Hs). destruct (f_u f) as [| | offset length | | |offset length ? ? ? fin | | | | | | | | | | | |]; try done.
    - destruct Ht as (E & _ & ->). by exists offset, false.
    - destruct Ht as (E & _ & -> & _). by exists offset, fin. }
  unfold ngx_quic_split_frame. rewrite decide_True by (rewrite Ht; destruct (f_u f); auto). rewrite Ho.
  case_decide as Hd; [done|]. case_decide as Hsh; [split; [lia|split; [unfold room; lia|done]]|].
  set (total := Z.of_nat (length (concat (f_data f)))) in *. set (n := total - (flen - len)) in *.
  pose proof (frame_len_ord (f_type f) (f_level f) (f_data f) (f_u f) offset total fin fin _ Ho Ht) as [Hf _].
  rewrite with_ord_id in Hf by done. assert (Frame (f_type f) (f_level f) (f_data f) (f_u f) = f) as Hff by by destruct f.
  rewrite Hff, Hlen in Hf. injection Hf as Hf.
  pose proof (frame_len_ord (f_type f) (f_level f) (f_data f) (f_u f) offset n fin fin _ Ho Ht) as [-> _].
  assert (head_len (f_u f) offset n <= head_len (f_u f) offset total) as Hh.
  { pose proof (int_len_mono n total ltac:(lia)). destruct (f_u f); cbn; try done; [lia|]. destruct len0; lia. }
  rewrite decide_False by lia.
  pose proof (read_data (f_data f) n ltac:(apply Hs) ltac:(lia)) as R.
  destruct (ngx_quic_read_buffer _ n) as [out qb]. destruct R as (R1 & R2 & R3 & R4).
  assert (Z.of_nat (length (concat (chain_bytes (chain qb)))) = flen - len) as R5.
  { apply (f_equal length) in R3. rewrite length_app in R3. lia. }
  pose proof (proj1 (frame_len_ord (f_type f) (f_level f) (chain_bytes (chain qb)) (f_u f) (offset + n) (flen - len) fin fin _ Ho Ht)) as E2.
  rewrite E2.
  set (fin1 := if decide (f_type f = NGX_QUIC_FT_STREAM) then false else fin).
  assert (with_ord (f_u f) offset n fin1 = with_ord (f_u f) offset n false) as ->.
  { subst fin1. rewrite Ht. destruct (f_u f); done. }
  pose proof (proj1 (frame_len_ord (f_type f) (f_level f) (chain_bytes out) (f_u f) offset n false false _ Ho Ht)) as E1.
  assert (bytes (concat (chain_bytes out)) /\ bytes (concat (chain_bytes (chain qb)))) as [Hb1 Hb2].
  { destruct Hs as ((Hb & _) & _). rewrite R3 in Hb. by apply Forall_app in Hb. }
  unfold split_spec. cbn [f_data]. rewrite R4, R5. split; [lia|]. split; [|split; [|split; [exact E1|split; [exact E2|split; [lia|]]]]].
  - rewrite <- (Z.add_0_r offset), <- R4. eapply sendable_part; eauto using chain_bytes_ne; lia.
  - rewrite <- R5. eapply sendable_part; eauto using chain_bytes_ne; lia.
  - split; [done|]. split; [unfold room; lia|]. split; [unfold room; lia|]. split; [intros E; rewrite E in R5; cbn in R5; lia|].
    split; [done|]. by exists offset, fin.
Qed.

(** ** The theorems *)

(** C24: [ngx_quic_write_buffer] on a well-formed buffer ends, and takes from its input exactly the bytes up to the limit,
    over all buffers of the input, empty ones included: each byte goes to its own offset, wherever blocks begin
    and holes are, a byte that has been received before is kept as it is, bytes that have been read already are dropped, and
    all other offsets keep what they had. The size grows by the number of bytes that are new. The links stay
    well-formed: buffers are not empty, they are holes or full, and the last link starts at the last
    offset. *)
Theorem quic_write_exact qb ins limit off : buffer_ok qb -> 0 <= limit -> 0 <= offset qb ->
  exists ins' qb', ngx_quic_write_buffer qb ins limit off = Some (ins', qb') /\ buffer_ok qb' /\
    write_spec qb qb' ins ins' limit off.
Proof. apply write_buffer_ok. Qed.

(** C20: reassembly. Pieces of a stream are written in any order, any number of times and with any overlaps, between reads of any
    length: what the reads give is a prefix of the stream, of bytes that have been written, none twice, and
    when all of the first [m] bytes have been written a read of [m] bytes at the end completes
    them. No operation fails, and no cell of a hole is returned. *)
Theorem quic_reassembly s ops limit : Forall (op_of s) ops -> 0 <= limit ->
  exists out qb, run empty_buffer (ops ++ [Read limit]) = Some (out, qb) /\ out `prefix_of` s /\
    offset qb = Z.of_nat (length out) /\ (forall x, 0 <= x < Z.of_nat (length out) -> covered ops x) /\
    (forall m, (forall x, 0 <= x < m -> covered ops x) -> m <= limit -> m <= Z.of_nat (length out)).
Proof.
  intros H Hl. destruct (delivers_run s ops [] [] empty_buffer (empty_delivers s) H) as (out & qb & E & D).
  destruct (delivers_read s ops out qb limit D Hl) as (data & qb' & E' & D' & Hfull).
  exists (out ++ data), qb'. split.
  { revert E. generalize empty_buffer as q, out as r. clear - E'. induction ops as [|o ops IH]; intros q r E.
    - cbn [run app] in *. injection E as <- ->. rewrite E'. cbn. by rewrite app_nil_r.
    - cbn [run app] in *. destruct (step q o) as [[a q1]|]; [|done]. cbn [mbind option_bind] in *.
      destruct (run q1 ops) as [[b q2]|] eqn:E1; [|done]. injection E as <- ->. rewrite (IH _ _ E1). cbn. by rewrite app_assoc. }
  pose proof (del_offset _ _ _ _ D') as Ho.
  assert (forall x, covered (ops ++ [Read limit]) x -> covered ops x) as Hcov.
  { intros x. rewrite covered_app. intros [?|Hx]; [done|]. apply Exists_cons in Hx as [[]|Hx]. by apply Exists_nil in Hx. }
  split; [by eapply delivers_prefix|]. split; [done|]. split.
  - intros x Hx. apply Hcov. apply (del_read _ _ _ _ D'). lia.
  - intros m Hm Hml. destruct Hfull as [Hf|[Hf|Hf]].
    + rewrite length_app. lia.
    + destruct (decide (m <= Z.of_nat (length (out ++ data)))); [done|]. destruct Hf. apply Hm. lia.
    + destruct (decide (0 < m)); [|lia]. pose proof (covered_in s ops (m - 1) H (Hm (m - 1) ltac:(lia))). lia.
Qed.

(** C27: [ngx_quic_split_frame] on a frame of the server: a frame that fits is left alone; a frame is declined exactly when
    there is no place for a byte of its data beside the header that it has as a whole, which may be up to seven bytes
    longer than that of a part, as the length field shrinks with the part; otherwise there are two frames, the first of
    which has exactly the data for which there is that place, so that it fits, and the second the rest, at the
    offsets where they belong, with the end of the stream on the second one only; both are
    well-formed frames and the lengths that are stored are the ones of the frames. No part that fits has more than
    seven bytes more than what is kept. It never ends with an error. *)
Theorem quic_split_exact f flen len : sendable f -> frame_len f = Some flen -> split_spec f flen len (ngx_quic_split_frame f flen len).
Proof. apply split_frame_ok. Qed.

(** A copy is the bytes in buffers without holes. *)
Lemma copy_buffer_ok data : exists out, ngx_quic_copy_buffer data = Some out /\ Forall no_hole out /\ concat (chain_bytes out) = data.
Proof.
  unfold ngx_quic_copy_buffer.
  destruct (write_buffer_ok empty_buffer [data] (Z.of_nat (length data)) 0) as (ins' & qb & -> & B & W1 & W2 & W3 & W4);
    [split; [apply Forall_nil_2|done]|lia|done|].
  cbn [mbind option_bind]. pose proof (read_buffer_ok qb (Z.of_nat (length data)) B ltac:(lia)) as R.
  destruct (ngx_quic_read_buffer qb _) as [out qb']. destruct R as (_ & R2 & R3 & R4 & R5 & R6 & _).
  exists out. split; [done|]. split; [done|].
  assert (forall i v, data !! i = Some v -> byte_at qb (Z.of_nat i) = Some v) as Hd.
  { intros i v Hv. rewrite W3 by (cbn; lia). unfold byte_at. cbn [chain empty_buffer]. change (content []) with (@nil (option Z)).
    rewrite cell_nil, (left_id None (∪)). cbn [concat]. rewrite app_nil_r, Nat2Z.id, firstn_all.
    unfold bytes_at. rewrite cell_some_bytes, decide_True, Z.sub_0_r, Nat2Z.id by lia. done. }
  rewrite W2 in *. cbn [offset empty_buffer] in *.
  assert (Z.of_nat (length (concat (chain_bytes out))) = Z.of_nat (length data)) as Hlen.
  { destruct R6 as [?|R6]; [done|]. destruct (decide (offset qb' < Z.of_nat (length data))); [|lia].
    destruct (lookup_lt_is_Some_2 data (Z.to_nat (offset qb')) ltac:(lia)) as [v Hv]. apply Hd in Hv.
    rewrite Z2Nat.id in Hv by lia. congruence. }
  apply list_eq. intros i. destruct (data !! i) as [v|] eqn:E.
  - pose proof (lookup_lt_Some _ _ _ E). rewrite R5 by lia. rewrite Z.add_0_l. by apply Hd.
  - apply lookup_ge_None_1 in E. apply lookup_ge_None_2. lia.
Qed.

(** ** Witnesses *)

Definition two_holes : qbuffer := QBuffer [Buf true [None; None]; Buf false [Some 7]; Buf true [None]] (Some 1%nat) 8 5 7.

Lemma two_holes_ok : buffer_ok two_holes.
Proof.
  split.
  - repeat (apply Forall_cons; split; [split; [done|cbn [sync cells]; repeat (apply Forall_cons; split; [done || by eexists|]); apply Forall_nil_2]|]).
    apply Forall_nil_2.
  - split; [cbn; lia|done].
Qed.

Lemma quic_write_exact_witness : exists ins' qb', ngx_quic_write_buffer two_holes [[1; 2]; []; [3; 4; 5]] 4 4 = Some (ins', qb') /\
  buffer_ok qb' /\ write_spec two_holes qb' [[1; 2]; []; [3; 4; 5]] ins' 4 4.
Proof. apply quic_write_exact; [apply two_holes_ok|lia|cbn; lia]. Defined.

Example write_two_holes : ngx_quic_write_buffer two_holes [[1; 2]; []; [3; 4; 5]] 4 4 =
  Some ([[5]], QBuffer [Buf false [Some 2; Some 3]; Buf false [Some 7]; Buf true [None]] (Some 1%nat) 10 5 7).
Proof. vm_compute. reflexivity. Qed.

Definition numbers : list Z := [1; 2; 3; 4; 5; 6; 7; 8; 9; 10].

Definition pieces : list op :=
  [Write 6 4 [[7; 8]; []; [9; 10; 99]]; Write 2 3 [[3; 4; 5]]; Read 100; Write 0 3 [[1; 2; 3]]; Read 4; Write 3 4 [[4]; [5; 6; 7]]].

Lemma pieces_of_numbers : Forall (op_of numbers) pieces.
Proof.
  assert (forall a b : list Z, take (length a) b = a -> a `prefix_of` b) as Hp.
  { intros a b H. exists (drop (length a) b). rewrite <- H at 1. by rewrite take_drop. }
  repeat (apply Forall_cons; split; [try (split; [lia|split; [lia|by apply Hp]]); cbn; lia|]). apply Forall_nil_2.
Qed.

Lemma quic_reassembly_witness : Forall (op_of numbers) pieces /\
  exists out qb, run empty_buffer (pieces ++ [Read 100]) = Some (out, qb) /\ out `prefix_of` numbers /\
    offset qb = Z.of_nat (length out) /\ (forall x, 0 <= x < Z.of_nat (length out) -> covered pieces x) /\
    (forall m, (forall x, 0 <= x < m -> covered pieces x) -> m <= 100 -> m <= Z.of_nat (length out)).
Proof. split; [apply pieces_of_numbers|]. apply quic_reassembly; [apply pieces_of_numbers|lia]. Defined.

Example run_pieces : fst <$> run empty_buffer (pieces ++ [Read 100]) = Some numbers.
Proof. vm_compute. reflexivity. Qed.

Definition long_frame : frame := Frame NGX_QUIC_FT_STREAM 3 [[1; 2; 3; 4]; [5; 6]; [7; 8; 9; 10]] (u_stream 1000 10 4 true true true).

Lemma quic_split_exact_witness : sendable long_frame /\ frame_len long_frame = Some 15 /\
  split_spec long_frame 15 10 (ngx_quic_split_frame long_frame 15 10).
Proof.
  assert (sendable long_frame) as H.
  { split; [split; [cbn; repeat (apply Forall_cons; split; [done|]); apply Forall_nil_2|]|].
    - cbn. repeat split; try lia; repeat (apply Forall_cons; split; [unfold int62; lia|]); apply Forall_nil_2.
    - split; [repeat (apply Forall_cons; split; [done|]); apply Forall_nil_2|]. cbn. lia. }
  split; [exact H|]. split; [reflexivity|]. apply quic_split_exact; [exact H|reflexivity].
Defined.

(** A frame is declined although a byte of its data would fit, for a length field of one byte less. *)
Definition hundred_bytes : frame := Frame NGX_QUIC_FT_STREAM 3 [replicate 100 7] (u_stream 8 100 4 true true false).

Example split_declined : frame_len hundred_bytes = Some 105 /\ ngx_quic_split_frame hundred_bytes 105 5 = Declined /\
  frame_len (first_part hundred_bytes 1) = Some 5.
Proof. vm_compute. done. Qed.

Example split_long : ngx_quic_split_frame long_frame 15 10 =
  Split (Frame NGX_QUIC_FT_STREAM 3 [[1; 2; 3; 4]; [5]] (u_stream 1000 5 4 true true false))
    (Frame NGX_QUIC_FT_STREAM 3 [[6]; [7; 8; 9; 10]] (u_stream 1005 5 4 true true true)) 10 10.
Proof. vm_compute. reflexivity. Qed.
