(* ===== verification/Hpack.v ===== *)
(** * HPACK tables: http/v2/ngx_http_v2_table.c

    The static table and the dynamic one of a connection: a ring of
    bytes, a ring of pointers to entries that grows, and entries that are used again after they have been
    evicted. Pointers to entries are indices into [objs], pointers into the storage are offsets from its
    start; uninitialised memory is [None], and an operation that would read it or leave an array is [None].
    Allocation is assumed to work, and the counters of entries not to reach 2^64. *)

From S2P Require Import Prelude.
From stdpp Require Import list.

Open Scope Z_scope.

(** ** Definitions *)

Definition NGX_HTTP_V2_TABLE_SIZE : Z := 4096.

(** [ngx_http_v2_header_t] of a field: its name and value. *)
Abbreviation header := (list Z * list Z)%type.

Definition hd (name value : String.string) : header := (bstr name, bstr value).

Arguments hd (name value)%_string_scope.

Definition ngx_http_v2_static_table : list header := Eval vm_compute in
  [hd ":authority" String.EmptyString;
   hd ":method" "GET";
   hd ":method" "POST";
   hd ":path" "/";
   hd ":path" "/index.html";
   hd ":scheme" "http";
   hd ":scheme" "https";
   hd ":status" "200";
   hd ":status" "204";
   hd ":status" "206";
   hd ":status" "304";
   hd ":status" "400";
   hd ":status" "404";
   hd ":status" "500";
   hd "accept-charset" String.EmptyString;
   hd "accept-encoding" "gzip, deflate";
   hd "accept-language" String.EmptyString;
   hd "accept-ranges" String.EmptyString;
   hd "accept" String.EmptyString;
   hd "access-control-allow-origin" String.EmptyString;
   hd "age" String.EmptyString;
   hd "allow" String.EmptyString;
   hd "authorization" String.EmptyString;
   hd "cache-control" String.EmptyString;
   hd "content-disposition" String.EmptyString;
   hd "content-encoding" String.EmptyString;
   hd "content-language" String.EmptyString;
   hd "content-length" String.EmptyString;
   hd "content-location" String.EmptyString;
   hd "content-range" String.EmptyString;
   hd "content-type" String.EmptyString;
   hd "cookie" String.EmptyString;
   hd "date" String.EmptyString;
   hd "etag" String.EmptyString;
   hd "expect" String.EmptyString;
   hd "expires" String.EmptyString;
   hd "from" String.EmptyString;
   hd "host" String.EmptyString;
   hd "if-match" String.EmptyString;
   hd "if-modified-since" String.EmptyString;
   hd "if-none-match" String.EmptyString;
   hd "if-range" String.EmptyString;
   hd "if-unmodified-since" String.EmptyString;
   hd "last-modified" String.EmptyString;
   hd "link" String.EmptyString;
   hd "location" String.EmptyString;
   hd "max-forwards" String.EmptyString;
   hd "proxy-authenticate" String.EmptyString;
   hd "proxy-authorization" String.EmptyString;
   hd "range" String.EmptyString;
   hd "referer" String.EmptyString;
   hd "refresh" String.EmptyString;
   hd "retry-after" String.EmptyString;
   hd "server" String.EmptyString;
   hd "set-cookie" String.EmptyString;
   hd "strict-transport-security" String.EmptyString;
   hd "transfer-encoding" String.EmptyString;
   hd "user-agent" String.EmptyString;
   hd "vary" String.EmptyString;
   hd "via" String.EmptyString;
   hd "www-authenticate" String.EmptyString].

Definition NGX_HTTP_V2_STATIC_TABLE_ENTRIES : Z := Z.of_nat (length ngx_http_v2_static_table).

Definition ngx_http_v2_get_static_name (index : Z) : option (list Z) :=
  fst <$> ngx_http_v2_static_table !! Z.to_nat (index - 1).

Definition ngx_http_v2_get_static_value (index : Z) : option (list Z) :=
  snd <$> ngx_http_v2_static_table !! Z.to_nat (index - 1).

(** [ngx_http_v2_header_t] of an entry: lengths, and data in the storage. *)
Record entry := Entry { name_len : Z; name_data : Z; value_len : Z; value_data : Z }.

(** [ngx_http_v2_hpack_t]; [entries] is [None] for NULL. *)
Record hpack := Hpack {
  objs : list entry;
  entries : option (list (option nat));
  added : Z;
  deleted : Z;
  reused : Z;
  allocated : Z;
  size : Z;
  free : Z;
  storage : list (option Z);
  pos : Z
}.

(** A connection starts with zeroes. *)
Definition hpack_zero : hpack := Hpack [] None 0 0 0 0 0 0 [] 0.

Definition set_free (x : Z) (h : hpack) : hpack :=
  Hpack (objs h) (entries h) (added h) (deleted h) (reused h) (allocated h) (size h) x (storage h) (pos h).

Definition set_deleted (x : Z) (h : hpack) : hpack :=
  Hpack (objs h) (entries h) (added h) x (reused h) (allocated h) (size h) (free h) (storage h) (pos h).

Definition set_size (x : Z) (h : hpack) : hpack :=
  Hpack (objs h) (entries h) (added h) (deleted h) (reused h) (allocated h) x (free h) (storage h) (pos h).

(** [entries[i % allocated]] *)
Definition slot (h : hpack) (i : Z) : option nat :=
  es ← entries h; if decide (allocated h = 0) then None else mjoin (es !! Z.to_nat (i mod allocated h)).

(** [n] bytes of the storage from [p], and the storage after a copy to [p]. *)
Definition rd_storage (st : list (option Z)) (p n : Z) : option (list Z) :=
  if decide (0 <= p /\ 0 <= n /\ p + n <= Z.of_nat (length st)) then mapM id (take (Z.to_nat n) (drop (Z.to_nat p) st)) else None.

Definition wr_storage (st : list (option Z)) (p : Z) (bs : list Z) : option (list (option Z)) :=
  if decide (0 <= p /\ p + Z.of_nat (length bs) <= Z.of_nat (length st)) then
    Some (take (Z.to_nat p) st ++ (Some <$> bs) ++ drop (Z.to_nat p + length bs) st)
  else None.

(** A string of an entry, which may go on at the start of the storage. *)
Definition rd_ring (st : list (option Z)) (data len : Z) : option (list Z) :=
  let rest := NGX_HTTP_V2_TABLE_SIZE - data in
  if decide (len > rest) then
    a ← rd_storage st data rest; b ← rd_storage st 0 (len - rest); Some (a ++ b)
  else rd_storage st data len.

(** [None] in the result for NGX_ERROR; [h2c->state.header] is [hdr], before and after. *)
Definition ngx_http_v2_get_indexed_header (h : hpack) (index : Z) (name_only : bool) (hdr : header) :
    option (option header) :=
  if decide (index = 0) then Some None
  else
    let index := index - 1 in
    if decide (index < NGX_HTTP_V2_STATIC_TABLE_ENTRIES) then
      e ← ngx_http_v2_static_table !! Z.to_nat index; Some (Some e)
    else
      let index := index - NGX_HTTP_V2_STATIC_TABLE_ENTRIES in
      if decide (index < added h - deleted h) then
        p ← slot h (added h - index - 1);
        e ← objs h !! p;
        name ← rd_ring (storage h) (name_data e) (name_len e);
        if name_only then Some (Some (name, snd hdr))
        else
          value ← rd_ring (storage h) (value_data e) (value_len e);
          Some (Some (name, value))
      else Some None.

(** The next entry is given up. *)
Definition evict (h : hpack) : option hpack :=
  p ← slot h (deleted h);
  e ← objs h !! p;
  Some (set_free (free h + (32 + name_len e + value_len e)) (set_deleted (deleted h + 1) h)).

(** [while (needed > free)]; the fuel is the number of entries. *)
Fixpoint evict_while (fuel : nat) (needed : Z) (h : hpack) : option hpack :=
  if decide (needed > free h) then
    match fuel with
    | O => None
    | S fuel => h ← evict h; evict_while fuel needed h
    end
  else Some h.

Definition live (h : hpack) : nat := Z.to_nat (added h - deleted h).

(** NGX_OK or NGX_DECLINED. The loop of the code is a do ... while, whose first round is taken as the size is
    greater than what is free. *)
Definition ngx_http_v2_table_account (h : hpack) (sz : Z) : option (Z * hpack) :=
  let sz := sz + 32 in
  if decide (sz <= free h) then Some (NGX_OK, set_free (free h - sz) h)
  else if decide (sz > size h) then Some (NGX_DECLINED, set_free (size h) (set_deleted (added h) h))
  else
    h ← evict_while (live h) sz h;
    Some (NGX_OK, set_free (free h - sz) h).

(** [None] in the result for NGX_ERROR. *)
Definition ngx_http_v2_table_size (h : hpack) (sz : Z) : option (option hpack) :=
  if decide (sz > NGX_HTTP_V2_TABLE_SIZE) then Some None
  else
    let needed := s64 (u64 (size h - sz)) in
    h ← evict_while (live h) needed h;
    Some (Some (set_free (u64 (free h - needed)) (set_size sz h))).

(** The first insertion. *)
Definition hpack_init (h : hpack) : hpack :=
  match entries h with
  | Some _ => h
  | None =>
      Hpack (objs h) (Some (replicate 64 None)) (added h) (deleted h) (reused h) 64 NGX_HTTP_V2_TABLE_SIZE
        NGX_HTTP_V2_TABLE_SIZE (replicate (Z.to_nat NGX_HTTP_V2_TABLE_SIZE) None) 0
  end.

(** A pointer to an entry to fill: a new one, or the oldest one that was evicted. *)
Definition new_entry (h : hpack) : option (nat * hpack) :=
  if decide (reused h = deleted h) then
    Some (length (objs h),
          Hpack (objs h ++ [Entry 0 0 0 0]) (entries h) (added h) (deleted h) (reused h) (allocated h) (size h) (free h)
            (storage h) (pos h))
  else
    p ← slot h (reused h);
    Some (p, Hpack (objs h) (entries h) (added h) (deleted h) (reused h + 1) (allocated h) (size h) (free h) (storage h) (pos h)).

(** A copy to the ring at [pos], with [avail] bytes to its end: [storage], [pos] and [avail]. *)
Definition wr_ring (st : list (option Z)) (pos avail : Z) (bs : list Z) : option (list (option Z) * Z * Z) :=
  let len := Z.of_nat (length bs) in
  if decide (avail >= len) then
    st ← wr_storage st pos bs; Some (st, pos + len, avail - len)
  else
    st ← wr_storage st pos (take (Z.to_nat avail) bs);
    st ← wr_storage st 0 (drop (Z.to_nat avail) bs);
    Some (st, len - avail, NGX_HTTP_V2_TABLE_SIZE - len).

(** The strings of the header are copied into the storage and the entry. *)
Definition fill (p : nat) (hdr : header) (h : hpack) : option hpack :=
  let avail := NGX_HTTP_V2_TABLE_SIZE - pos h in
  '(st, q, avail) ← wr_ring (storage h) (pos h) avail (fst hdr);
  '(st, r, _) ← wr_ring st q avail (snd hdr);
  Some (Hpack (<[p := Entry (Z.of_nat (length (fst hdr))) (pos h) (Z.of_nat (length (snd hdr))) q]> (objs h))
          (entries h) (added h) (deleted h) (reused h) (allocated h) (size h) (free h) st r).

(** The array of pointers grows when all of it is in use. *)
Definition grow (h : hpack) : option hpack :=
  if decide (allocated h = added h - deleted h) then
    es ← entries h;
    let index := Z.to_nat (deleted h mod allocated h) in
    Some (Hpack (objs h) (Some (drop index es ++ take index es ++ replicate 64 None)) (allocated h) 0 0 (allocated h + 64)
            (size h) (free h) (storage h) (pos h))
  else Some h.

Definition push (p : nat) (h : hpack) : option hpack :=
  es ← entries h;
  Some (Hpack (objs h) (Some (<[Z.to_nat (added h mod allocated h) := Some p]> es)) (added h + 1) (deleted h) (reused h)
          (allocated h) (size h) (free h) (storage h) (pos h)).

Definition ngx_http_v2_add_header (h : hpack) (hdr : header) : option hpack :=
  let h := hpack_init h in
  '(rc, h) ← ngx_http_v2_table_account h (Z.of_nat (length (fst hdr)) + Z.of_nat (length (snd hdr)));
  if decide (rc <> NGX_OK) then Some h
  else
    '(p, h) ← new_entry h;
    h ← fill p hdr h;
    h ← grow h;
    push p h.

(** ** The table of RFC 7541 *)

Definition hsize (x : header) : Z := 32 + Z.of_nat (length (fst x)) + Z.of_nat (length (snd x)).

Definition total (t : list header) : Z := foldr (fun x n => hsize x + n) 0 t.

(** The newest headers that fit. *)
Fixpoint fit (m : Z) (t : list header) : list header :=
  match t with
  | [] => []
  | x :: t => if decide (hsize x <= m) then x :: fit (m - hsize x) t else []
  end.

(** The dynamic table, newest first, and its maximum size; [fresh] before the first insertion, when updates
    of the size have no effect. *)
Record table := Table { fresh : bool; dyn : list header; max : Z }.

Definition table_start : table := Table true [] NGX_HTTP_V2_TABLE_SIZE.

Definition insert_header (x : header) (t : table) : table :=
  Table false (if decide (hsize x <= max t) then x :: fit (max t - hsize x) (dyn t) else []) (max t).

Definition resize_table (m : Z) (t : table) : option table :=
  if decide (m > NGX_HTTP_V2_TABLE_SIZE) then None
  else if fresh t then Some t
  else Some (Table false (fit m (dyn t)) m).

(** A name with an index of the dynamic table does not touch the value. *)
Definition lookup_header (t : table) (index : Z) (name_only : bool) (hdr : header) : option header :=
  if decide (index = 0) then None
  else
    match (ngx_http_v2_static_table !! Z.to_nat (index - 1)) with
    | Some e => Some e
    | None =>
        (fun e => if name_only then (fst e, snd hdr) else e) <$>
          dyn t !! Z.to_nat (index - 1 - NGX_HTTP_V2_STATIC_TABLE_ENTRIES)
    end.

(** ** The ring of bytes *)

#[local] Notation "'T'" := NGX_HTTP_V2_TABLE_SIZE.

(** The cell at a position of an endless sequence that the ring repeats. *)
Definition cell (st : list (option Z)) (k : Z) : option Z := mjoin (st !! Z.to_nat (k mod T)).

Definition ring (st : list (option Z)) (v : Z) (bs : list Z) : Prop :=
  forall i b, bs !! i = Some b -> cell st (v + Z.of_nat i) = Some b.

(** The offset [d] is the position [v]; the end of the storage is the same position as its start. *)
Definition at_pos (v d : Z) : Prop := 0 <= d <= T /\ d mod T = v mod T.

Lemma T_pos : 0 < T.
Proof. done. Qed.

#[local] Hint Resolve T_pos : core.

Lemma mod_range v : 0 <= v mod T < T.
Proof. by apply Z.mod_pos_bound. Qed.

(** Positions less than a turn apart are different cells. *)
Lemma mod_differ a b : a < b -> b - a < T -> a mod T <> b mod T.
Proof.
  intros H1 H2 E. assert ((b - a) mod T = 0) as E0 by (rewrite Zminus_mod, E, Z.sub_diag; done).
  rewrite Z.mod_small in E0 by lia. lia.
Qed.

Lemma at_pos_add v d i : at_pos v d -> 0 <= i -> d + i < T -> (v + i) mod T = d + i.
Proof.
  intros [H1 H2] Hi H. rewrite Zplus_mod, <- H2, <- Zplus_mod. apply Z.mod_small. lia.
Qed.

Lemma at_pos_wrap v d i : at_pos v d -> T - d <= i -> i - (T - d) < T -> (v + i) mod T = i - (T - d).
Proof.
  intros [H1 H2] Hi H. rewrite Zplus_mod, <- H2, <- Zplus_mod.
  replace (d + i) with (i - (T - d) + 1 * T) by lia. rewrite Z_mod_plus_full. apply Z.mod_small. lia.
Qed.

Lemma cell_in st v k : (v mod T = Z.of_nat k) -> cell st v = mjoin (st !! k).
Proof. intros E. unfold cell. by rewrite E, Nat2Z.id. Qed.

Lemma rd_storage_ok st p bs : 0 <= p -> p + Z.of_nat (length bs) <= Z.of_nat (length st) ->
  (forall i b, bs !! i = Some b -> mjoin (st !! (Z.to_nat p + i)%nat) = Some b) ->
  rd_storage st p (Z.of_nat (length bs)) = Some bs.
Proof.
  intros Hp Hl H. unfold rd_storage. rewrite decide_True by lia. rewrite Nat2Z.id.
  assert (take (length bs) (drop (Z.to_nat p) st) = Some <$> bs) as ->; [|apply mapM_some].
  apply list_eq. intros i. rewrite list_lookup_fmap. destruct (bs !! i) as [b|] eqn:E.
  - pose proof (lookup_lt_Some _ _ _ E). rewrite lookup_take, decide_True, lookup_drop by done.
    specialize (H i b E). destruct (st !! _) as [c|]; [|done]. cbn in H. by subst c.
  - apply lookup_ge_None in E. rewrite lookup_take, decide_False by lia. done.
Qed.

(** A string of the ring is read whatever its place. *)
Lemma rd_ring_ok st v d bs : Z.of_nat (length st) = T -> at_pos v d -> Z.of_nat (length bs) <= T -> ring st v bs ->
  rd_ring st d (Z.of_nat (length bs)) = Some bs.
Proof.
  intros Hst Hd Hl Hr. pose proof Hd as [Hd1 Hd2]. unfold rd_ring. case_decide as Hw.
  - set (k := Z.to_nat (T - d)). set (a := take k bs). set (c := drop k bs).
    assert (bs = a ++ c) as Hbs by (subst a c; by rewrite take_drop).
    assert (Z.of_nat (length a) = T - d) as Ha by (subst a k; rewrite length_take; lia).
    assert (Z.of_nat (length c) = Z.of_nat (length bs) - (T - d)) as Hc by (subst c k; rewrite length_drop; lia).
    clearbody a c. rewrite <- Hc, <- Ha, (rd_storage_ok st d a), (rd_storage_ok st 0 c); [by cbn; rewrite <- Hbs|lia|lia| |lia|lia|].
    + intros i b Hi. specialize (Hr (length a + i)%nat b). rewrite <- Hr; [|rewrite Hbs, lookup_app_r by lia; by rewrite Nat.add_sub'].
      pose proof (lookup_lt_Some _ _ _ Hi). symmetry. apply cell_in. rewrite (at_pos_wrap v d _ Hd) by lia. lia.
    + intros i b Hi. pose proof (lookup_lt_Some _ _ _ Hi). specialize (Hr i b). rewrite <- Hr; [|rewrite Hbs, lookup_app_l by lia; exact Hi].
      symmetry. apply cell_in. rewrite (at_pos_add v d _ Hd) by lia. lia.
  - apply rd_storage_ok; [lia|lia|]. intros i b Hi. pose proof (lookup_lt_Some _ _ _ Hi). rewrite <- (Hr i b Hi).
    symmetry. apply cell_in. rewrite (at_pos_add v d _ Hd) by lia. lia.
Qed.

Lemma wr_storage_ok st p bs : 0 <= p -> p + Z.of_nat (length bs) <= Z.of_nat (length st) ->
  exists st', wr_storage st p bs = Some st' /\ length st' = length st /\
    (forall i b, bs !! i = Some b -> st' !! (Z.to_nat p + i)%nat = Some (Some b)) /\
    (forall j, (j < Z.to_nat p \/ Z.to_nat p + length bs <= j)%nat -> st' !! j = st !! j).
Proof.
  intros Hp Hl. unfold wr_storage. rewrite decide_True by lia. eexists. split; [done|].
  assert (length (take (Z.to_nat p) st) = Z.to_nat p) as Ht by (rewrite length_take; lia).
  split; [rewrite !length_app, length_fmap, length_drop; lia|]. split.
  - intros i b Hi. pose proof (lookup_lt_Some _ _ _ Hi). rewrite lookup_app_r, Ht, Nat.add_sub' by lia.
    rewrite lookup_app_l by (rewrite length_fmap; lia). by rewrite list_lookup_fmap, Hi.
  - intros j [Hj|Hj].
    + rewrite lookup_app_l by lia. rewrite lookup_take, decide_True by lia. done.
    + rewrite lookup_app_r by lia. rewrite lookup_app_r by (rewrite length_fmap; lia).
      rewrite lookup_drop, length_fmap. f_equal. lia.
Qed.

Lemma at_pos_next v d n : at_pos v d -> 0 <= n -> d + n <= T -> at_pos (v + n) (d + n).
Proof. intros [H1 H2] Hn H. split; [lia|]. by rewrite Zplus_mod, H2, <- Zplus_mod. Qed.

Lemma at_pos_turn v d n : at_pos v d -> T - d <= n -> n - (T - d) <= T -> at_pos (v + n) (n - (T - d)).
Proof.
  intros [H1 H2] Hn H. split; [lia|]. rewrite (Zplus_mod v n), <- H2, <- Zplus_mod.
  replace (d + n) with (n - (T - d) + 1 * T) by lia. by rewrite Z_mod_plus_full.
Qed.

(** A string is written where it belongs; what was written less than a turn before is kept. *)
Lemma wr_ring_ok st w p avail bs : Z.of_nat (length st) = T -> at_pos w p -> Z.of_nat (length bs) <= T ->
  (avail = T - p \/ Z.of_nat (length bs) <= avail <= T - p) ->
  exists st' p' avail', wr_ring st p avail bs = Some (st', p', avail') /\ length st' = length st /\
    at_pos (w + Z.of_nat (length bs)) p' /\ ring st' w bs /\
    (forall k, w + Z.of_nat (length bs) - T <= k < w -> cell st' k = cell st k) /\
    (avail = T - p -> avail' = T - p' \/ T - Z.of_nat (length bs) <= avail' <= T - p').
Proof.
  intros Hst Hp Hl Ha. pose proof Hp as [Hp1 Hp2]. unfold wr_ring. set (n := Z.of_nat (length bs)) in *.
  destruct (decide (avail >= n)) as [Hw|Hw].
  - destruct (wr_storage_ok st p bs) as (st' & -> & L & W1 & W2); [lia|lia|].
    exists st', (p + n), (avail - n). split; [done|]. split; [done|]. split; [apply at_pos_next; [done|lia..]|]. split; [|split].
    + intros i b Hi. pose proof (lookup_lt_Some _ _ _ Hi).
      rewrite (cell_in _ _ (Z.to_nat p + i)) by (rewrite (at_pos_add w p _ Hp) by lia; lia). by rewrite (W1 _ _ Hi).
    + intros k Hk. unfold cell. f_equal. apply W2. pose proof (mod_range k).
      destruct (decide (Z.to_nat (k mod T) < Z.to_nat p \/ Z.to_nat p + length bs <= Z.to_nat (k mod T))%nat); [done|].
      exfalso. apply (mod_differ k (w + (k mod T - p))); [lia..|]. rewrite (at_pos_add w p _ Hp) by lia. lia.
    + lia.
  - destruct Ha as [->|Ha]; [|lia].
    assert (Z.of_nat (length (take (Z.to_nat (T - p)) bs)) = T - p) as Ht by (rewrite length_take; lia).
    assert (Z.of_nat (length (drop (Z.to_nat (T - p)) bs)) = n - (T - p)) as Hd by (rewrite length_drop; lia).
    destruct (wr_storage_ok st p (take (Z.to_nat (T - p)) bs)) as (st1 & -> & L1 & A1 & A2); [lia..|].
    cbn [mbind option_bind].
    destruct (wr_storage_ok st1 0 (drop (Z.to_nat (T - p)) bs)) as (st' & -> & L & W1 & W2); [lia..|].
    exists st', (n - (T - p)), (T - n). split; [done|]. split; [lia|]. split; [apply at_pos_turn; [done|lia..]|]. split; [|split].
    + intros i b Hi. pose proof (lookup_lt_Some _ _ _ Hi). destruct (decide (i < Z.to_nat (T - p))%nat).
      * rewrite (cell_in _ _ (Z.to_nat p + i)) by (rewrite (at_pos_add w p _ Hp) by lia; lia).
        rewrite W2 by lia. rewrite (A1 i b); [done|]. by rewrite lookup_take, decide_True by done.
      * rewrite (cell_in _ _ (i - Z.to_nat (T - p))) by (rewrite (at_pos_wrap w p _ Hp) by lia; lia).
        specialize (W1 (i - Z.to_nat (T - p))%nat b). change (Z.to_nat 0 + (i - Z.to_nat (T - p)))%nat with (i - Z.to_nat (T - p))%nat in W1. rewrite W1; [done|].
        rewrite lookup_drop. rewrite <- Hi. f_equal. lia.
    + intros k Hk. unfold cell. f_equal. pose proof (mod_range k).
      destruct (decide (Z.to_nat (k mod T) < length (drop (Z.to_nat (T - p)) bs))%nat).
      { exfalso. apply (mod_differ k (w + (T - p + k mod T))); [lia..|]. rewrite (at_pos_wrap w p _ Hp) by lia. lia. }
      rewrite W2 by (cbn [Z.to_nat]; lia).
      destruct (decide (Z.to_nat (k mod T) < Z.to_nat p)%nat); [rewrite A2 by lia; done|].
      exfalso. apply (mod_differ k (w + (k mod T - p))); [lia..|]. rewrite (at_pos_add w p _ Hp) by lia. lia.
    + lia.
Qed.

(** ** The table in the ring *)

(** The entries [ps], oldest first, have the headers [xs], one after the other from [v] to [w]. *)
Fixpoint laid (os : list entry) (st : list (option Z)) (v : Z) (ps : list nat) (xs : list header) (w : Z) : Prop :=
  match ps, xs with
  | [], [] => v = w
  | p :: ps, x :: xs =>
      (exists nd vd, os !! p = Some (Entry (Z.of_nat (length (fst x))) nd (Z.of_nat (length (snd x))) vd) /\
        at_pos v nd /\ at_pos (v + Z.of_nat (length (fst x))) vd /\ ring st v (fst x ++ snd x)) /\
      laid os st (v + (hsize x - 32)) ps xs w
  | _, _ => False
  end.

(** The pointers [rs] have been evicted and can be used again, [ps] are the table; [res] bytes are reserved for a header. *)
Record in_ring (h : hpack) (t : table) (res : Z) (rs ps : list nat) (v w : Z) : Prop := InRing {
  ir_alloc : exists es, entries h = Some es /\ Z.of_nat (length es) = allocated h;
  ir_min : 0 < allocated h;
  ir_reused : 0 <= reused h;
  ir_deleted : deleted h = reused h + Z.of_nat (length rs);
  ir_added : added h = deleted h + Z.of_nat (length ps);
  ir_room : added h <= reused h + allocated h;
  ir_slots : forall i p, (rs ++ ps) !! i = Some p -> slot h (reused h + Z.of_nat i) = Some p;
  ir_nodup : NoDup (rs ++ ps);
  ir_objs : Forall (fun p => p < length (objs h))%nat (rs ++ ps);
  ir_size : 0 <= size h <= T;
  ir_max : max t = size h;
  ir_fresh : fresh t = false;
  ir_free : free h = size h - total (dyn t) - res;
  ir_storage : Z.of_nat (length (storage h)) = T;
  ir_pos : at_pos w (pos h);
  ir_turn : w - T <= v;
  ir_laid : laid (objs h) (storage h) v ps (reverse (dyn t)) w
}.

Lemma hsize_min x : 32 <= hsize x.
Proof. unfold hsize. lia. Qed.

Lemma total_app a b : total (a ++ b) = total a + total b.
Proof. induction a as [|x a IH]; cbn; [done|]. fold (total (a ++ b)) (total a). unfold total in *. lia. Qed.

Lemma total_nonneg t : 0 <= total t.
Proof. induction t as [|x t IH]; cbn; [done|]. fold (total t). pose proof (hsize_min x). lia. Qed.

Lemma fit_all m t : total t <= m -> fit m t = t.
Proof.
  revert m. induction t as [|x t IH]; intros m H; [done|]. cbn in H. fold (total t) in H. pose proof (total_nonneg t).
  cbn [fit]. rewrite decide_True by lia. rewrite IH by lia. done.
Qed.

Lemma fit_drop m t x : m < total (t ++ [x]) -> fit m (t ++ [x]) = fit m t.
Proof.
  revert m. induction t as [|y t IH]; intros m H; cbn in *.
  - by rewrite decide_False by lia.
  - fold (total (t ++ [x])) in H. case_decide; [|done]. rewrite IH by lia. done.
Qed.

Lemma fit_total m t : 0 <= m -> total (fit m t) <= m.
Proof.
  revert m. induction t as [|x t IH]; intros m H; [done|]. cbn [fit]. case_decide; [|done]. cbn. fold (total (fit (m - hsize x) t)).
  specialize (IH (m - hsize x) ltac:(lia)). lia.
Qed.

Lemma laid_length os st v ps xs w : laid os st v ps xs w -> length ps = length xs.
Proof.
  revert v xs. induction ps as [|p ps IH]; intros v [|x xs] H; try done. destruct H as [_ H]. cbn. f_equal. by apply (IH _ _ H).
Qed.

Lemma laid_total os st v ps xs w : laid os st v ps xs w -> w = v + total xs - 32 * Z.of_nat (length xs).
Proof.
  revert v xs. induction ps as [|p ps IH]; intros v [|x xs] H; try done; cbn in *; [subst; lia|].
  destruct H as [_ H]. apply IH in H. fold (total xs). lia.
Qed.

Lemma evict_ok h t res rs p ps v w : in_ring h t res rs (p :: ps) v w ->
  exists h' d x, dyn t = d ++ [x] /\ evict h = Some h' /\ in_ring h' (Table false d (max t)) res (rs ++ [p]) ps (v + (hsize x - 32)) w /\
    size h' = size h /\ free h' = free h + hsize x.
Proof.
  intros [H1 H2 H3 H4 H5 H6 H7 H8 H9 H10 H11 H12 H13 H14 H15 H16 H17].
  destruct (reverse (dyn t)) as [|x xs] eqn:E; [done|].
  assert (dyn t = reverse xs ++ [x]) as Ed by (by rewrite <- (reverse_involutive (dyn t)), E, reverse_cons).
  cbn [laid] in H17. destruct H17 as [(nd & vd & Ho & Hn & Hv & Hr) Hl].
  assert (slot h (deleted h) = Some p) as Es.
  { rewrite H4. apply (H7 (length rs) p). rewrite lookup_app_r, Nat.sub_diag by lia. done. }
  unfold evict. rewrite Es. cbn [mbind option_bind]. rewrite Ho. cbn [name_len value_len mbind option_bind].
  eexists _, (reverse xs), x. split; [done|]. split; [done|]. split; [|split; [done|cbn; unfold hsize; lia]].
  assert (free (set_free (free h + (32 + Z.of_nat (length (fst x)) + Z.of_nat (length (snd x)))) h) = free h + hsize x) as Ef
    by (cbn; unfold hsize; lia).
  split; cbn [objs entries added deleted reused allocated size free storage pos set_free set_deleted dyn max fresh]; try done.
  - rewrite length_app. cbn. lia.
  - cbn [length] in H5. lia.
  - intros i q. rewrite <- app_assoc. exact (H7 i q).
  - by rewrite <- app_assoc.
  - by rewrite <- app_assoc.
  - rewrite H13, Ed, total_app. cbn. unfold hsize. lia.
  - pose proof (hsize_min x). lia.
  - by rewrite reverse_involutive.
Qed.

Lemma total_snoc d x : total (d ++ [x]) = total d + hsize x.
Proof. rewrite total_app. cbn. lia. Qed.

Lemma evict_while_ok needed : forall ps h t res rs v w fuel, in_ring h t res rs ps v w -> (length ps <= fuel)%nat ->
  needed <= size h - res ->
  exists h' rs' ps' v', evict_while fuel needed h = Some h' /\
    in_ring h' (Table false (fit (size h - res - needed) (dyn t)) (max t)) res rs' ps' v' w /\ needed <= free h' /\ size h' = size h.
Proof.
  induction ps as [|p ps IH]; intros h t res rs v w fuel H Hf Hn.
  - exists h, rs, [], v. pose proof (ir_laid _ _ _ _ _ _ _ H) as Hl.
    destruct (reverse (dyn t)) as [|x xs] eqn:E; [|done]. assert (dyn t = []) as Ed by (by rewrite <- (reverse_involutive (dyn t)), E).
    pose proof (ir_free _ _ _ _ _ _ _ H) as Hfr. rewrite Ed in Hfr. cbn in Hfr.
    assert (evict_while fuel needed h = Some h) as -> by (destruct fuel; cbn; rewrite decide_False by lia; done).
    split; [done|]. split; [|split; [lia|done]]. rewrite Ed. cbn [fit].
    replace (Table false [] (max t)) with t; [done|]. destruct t; cbn in *. pose proof (ir_fresh _ _ _ _ _ _ _ H). cbn in *. by subst.
  - destruct (decide (needed > free h)) as [Hd|Hd].
    + destruct (evict_ok _ _ _ _ _ _ _ _ H) as (h1 & d & x & Ed & E1 & I1 & Es & Efr).
      destruct fuel as [|fuel]; [cbn in Hf; lia|]. cbn [evict_while]. rewrite decide_True by done. rewrite E1. cbn [mbind option_bind].
      destruct (IH _ _ _ _ _ _ fuel I1 ltac:(cbn in Hf; lia) ltac:(lia)) as (h' & rs' & ps' & v' & E & I & Hfr & Es').
      exists h', rs', ps', v'. split; [done|]. rewrite Es in *. split; [|split; [done|lia]].
      pose proof (ir_free _ _ _ _ _ _ _ H) as Hfree. rewrite Ed in *. cbn [dyn max] in I.
      rewrite fit_drop by lia. exact I.
    + exists h, rs, (p :: ps), v.
      assert (evict_while fuel needed h = Some h) as -> by (destruct fuel; cbn; rewrite decide_False by lia; done).
      split; [done|]. split; [|split; [lia|done]]. pose proof (ir_free _ _ _ _ _ _ _ H).
      rewrite fit_all by lia. replace (Table false (dyn t) (max t)) with t; [done|].
      destruct t; cbn in *. pose proof (ir_fresh _ _ _ _ _ _ _ H). cbn in *. by subst.
Qed.

(** ** The operations *)

Definition same_table (t t' : table) : Prop := dyn t = dyn t' /\ max t = max t' /\ fresh t = fresh t'.

(** The state of a connection stands for a table. *)
Definition stands (h : hpack) (t : table) : Prop :=
  (entries h = None /\ objs h = [] /\ added h = 0 /\ deleted h = 0 /\ reused h = 0 /\ 0 <= size h <= T /\ free h = size h /\
   t = table_start) \/
  (exists rs ps v w, in_ring h t 0 rs ps v w /\ 0 <= free h).

Lemma zero_stands : stands hpack_zero table_start.
Proof. left. cbn. unfold NGX_HTTP_V2_TABLE_SIZE. repeat split; lia. Qed.

(** A change of the accounts only. *)
Lemma in_ring_free h t res rs ps v w f : in_ring h t res rs ps v w ->
  in_ring (set_free f h) t (size h - total (dyn t) - f) rs ps v w.
Proof.
  intros [H1 H2 H3 H4 H5 H6 H7 H8 H9 H10 H11 H12 H13 H14 H15 H16 H17]. split; try done. cbn. lia.
Qed.

Lemma in_ring_size h t res rs ps v w s : in_ring h t res rs ps v w -> 0 <= s <= T ->
  in_ring (set_size s h) (Table false (dyn t) s) (s - total (dyn t) - free h) rs ps v w.
Proof.
  intros [H1 H2 H3 H4 H5 H6 H7 H8 H9 H10 H11 H12 H13 H14 H15 H16 H17] Hs. split; try done. cbn [free set_size dyn size]. lia.
Qed.

Lemma table_size_ok h t sz : stands h t -> 0 <= sz ->
  match ngx_http_v2_table_size h sz, resize_table sz t with
  | Some None, None => True
  | Some (Some h'), Some t' => stands h' t'
  | _, _ => False
  end.
Proof.
  intros H Hsz. unfold ngx_http_v2_table_size, resize_table. case_decide as Hbig; [done|].
  destruct H as [(E1 & E2 & E3 & E4 & E5 & Hs & Ef & ->)|(rs & ps & v & w & H & Hf)].
  - cbn [fresh table_start].
    assert (s64 (u64 (size h - sz)) = size h - sz) as -> by (rewrite s64_u64; apply s64_small; unfold NGX_HTTP_V2_TABLE_SIZE in *; lia).
    assert (evict_while (live h) (size h - sz) h = Some h) as -> by (destruct (live h); cbn; rewrite decide_False by lia; done).
    cbn [mbind option_bind]. left. cbn. rewrite u64_small by (unfold NGX_HTTP_V2_TABLE_SIZE in *; lia). repeat split; try done; try lia.
  - pose proof (ir_size _ _ _ _ _ _ _ H) as Hs. pose proof (ir_fresh _ _ _ _ _ _ _ H) as ->.
    assert (s64 (u64 (size h - sz)) = size h - sz) as -> by (rewrite s64_u64; apply s64_small; unfold NGX_HTTP_V2_TABLE_SIZE in *; lia).
    destruct (evict_while_ok (size h - sz) ps h t 0 rs v w (live h) H) as (h' & rs' & ps' & v' & -> & I & Hfr & Es); [|lia|].
    { unfold live. rewrite (ir_added _ _ _ _ _ _ _ H). lia. }
    cbn [mbind option_bind]. replace (size h - 0 - (size h - sz)) with sz in I by lia. right.
    pose proof (ir_free _ _ _ _ _ _ _ I) as Hfree. cbn [dyn] in Hfree.
    pose proof (total_nonneg (fit sz (dyn t))). pose proof (fit_total sz (dyn t) Hsz).
    exists rs', ps', v', w. rewrite u64_small by (unfold NGX_HTTP_V2_TABLE_SIZE in *; lia).
    apply (in_ring_size _ _ _ _ _ _ _ sz) in I; [|lia]. apply (in_ring_free _ _ _ _ _ _ _ (free h' - (size h - sz))) in I.
    cbn [dyn size set_size free set_free] in *. split; [|lia].
    replace (sz - total (fit sz (dyn t)) - (free h' - (size h - sz))) with 0 in I by lia. exact I.
Qed.

(** The pointers alone. *)
Record pointers (h : hpack) (rs ps : list nat) : Prop := Pointers {
  po_alloc : exists es, entries h = Some es /\ Z.of_nat (length es) = allocated h;
  po_min : 0 < allocated h;
  po_reused : 0 <= reused h;
  po_deleted : deleted h = reused h + Z.of_nat (length rs);
  po_added : added h = deleted h + Z.of_nat (length ps);
  po_room : added h <= reused h + allocated h;
  po_slots : forall i p, (rs ++ ps) !! i = Some p -> slot h (reused h + Z.of_nat i) = Some p
}.

Lemma in_ring_pointers h t res rs ps v w : in_ring h t res rs ps v w -> pointers h rs ps.
Proof. by intros [H1 H2 H3 H4 H5 H6 H7 H8 H9 H10 H11 H12 H13 H14 H15 H16 H17]. Qed.

Lemma residue_differ a b m : 0 < m -> a < b -> b - a < m -> a mod m <> b mod m.
Proof.
  intros Hm H1 H2 E. assert ((b - a) mod m = 0) as E0 by (rewrite Zminus_mod, E, Z.sub_diag; apply Z.mod_0_l; lia).
  rewrite Z.mod_small in E0 by lia. lia.
Qed.

Lemma slot_eq h es i : entries h = Some es -> 0 < allocated h -> slot h i = mjoin (es !! Z.to_nat (i mod allocated h)).
Proof. intros E H. unfold slot. rewrite E. cbn. by rewrite decide_False by lia. Qed.

Lemma slot_hpack os es ad de re al sz fr st po i : 0 < al ->
  slot (Hpack os (Some es) ad de re al sz fr st po) i = mjoin (es !! Z.to_nat (i mod al)).
Proof. intros H. by rewrite (slot_eq _ es). Qed.

(** The fields that the pointers do not touch. *)
Definition same_data (h h' : hpack) : Prop :=
  objs h' = objs h /\ size h' = size h /\ free h' = free h /\ storage h' = storage h /\ pos h' = pos h.

Lemma grow_stands h rs ps : pointers h rs ps -> added h < reused h + allocated h \/ rs = [] ->
  exists h', grow h = Some h' /\ pointers h' rs ps /\ added h' < reused h' + allocated h' /\ same_data h h'.
Proof.
  intros P Hrs. pose proof P as [(es & E & Hl) Hm Hr Hd Ha Hroom Hs]. unfold grow. case_decide as Hg.
  - assert (rs = []) as -> by (destruct rs; [done|cbn [length] in *; lia]). cbn [length app] in *.
    rewrite E. cbn [mbind option_bind]. eexists. split; [done|].
    set (a := allocated h) in *. set (index := Z.to_nat (deleted h mod a)).
    assert (0 <= deleted h mod a < a) as Hi by (apply Z.mod_pos_bound; lia).
    assert (Z.of_nat index = deleted h mod a) as Hidx by (subst index; lia). clearbody index.
    split; [|split; [cbn; lia|done]].
    split; cbn [entries added deleted reused allocated length]; try lia.
    + eexists. split; [done|]. rewrite !length_app, length_drop, length_take, length_replicate. lia.
    + intros j p Hj. cbn [app] in Hj. pose proof (lookup_lt_Some _ _ _ Hj). rewrite <- (Hs j p Hj), (slot_eq h es) by done.
      rewrite slot_hpack by lia. rewrite Z.add_0_l, Z.mod_small, Nat2Z.id by lia. f_equal.
      fold a. replace (reused h) with (deleted h) by lia.
      destruct (decide (Z.of_nat j < a - deleted h mod a)).
      * rewrite lookup_app_l by (rewrite length_drop; lia). rewrite lookup_drop. f_equal.
        assert ((deleted h + Z.of_nat j) mod a = deleted h mod a + Z.of_nat j) as ->; [|lia].
        rewrite Zplus_mod, (Z.mod_small (Z.of_nat j)) by lia. apply Z.mod_small. lia.
      * rewrite lookup_app_r by (rewrite length_drop; lia).
        rewrite lookup_app_l by (rewrite length_take, length_drop; lia).
        rewrite lookup_take, decide_True by (rewrite length_drop; lia). f_equal. rewrite length_drop.
        assert ((deleted h + Z.of_nat j) mod a = deleted h mod a + Z.of_nat j - a) as ->; [|lia].
        rewrite Zplus_mod, (Z.mod_small (Z.of_nat j)) by lia.
        replace (deleted h mod a + Z.of_nat j) with (deleted h mod a + Z.of_nat j - a + 1 * a) at 1 by lia.
        rewrite Z_mod_plus_full. apply Z.mod_small. lia.
  - exists h. split; [done|]. split; [done|]. split; [|done]. destruct Hrs as [?| ->]; [done|]. cbn [length] in *. lia.
Qed.

Lemma push_ok h rs ps p : pointers h rs ps -> added h < reused h + allocated h ->
  exists h', push p h = Some h' /\ pointers h' rs (ps ++ [p]) /\ same_data h h'.
Proof.
  intros [(es & E & Hl) Hm Hr Hd Ha Hroom Hs] Hlt. unfold push. rewrite E. cbn [mbind option_bind].
  eexists. split; [done|]. split; [|done]. split; cbn [entries added deleted reused allocated length]; try lia.
  - eexists. split; [done|]. by rewrite length_insert.
  - rewrite length_app. cbn. lia.
  - intros i q Hq. rewrite slot_hpack by lia.
    assert (0 <= added h mod allocated h < allocated h) by (apply Z.mod_pos_bound; lia).
    rewrite app_assoc in Hq. apply lookup_app_Some in Hq as [Hq|[Hge Hq]].
    + pose proof (lookup_lt_Some _ _ _ Hq) as Hlt2. rewrite length_app in Hlt2. rewrite list_lookup_insert_ne.
      * rewrite <- (slot_eq h es) by done. by apply Hs.
      * pose proof (residue_differ (reused h + Z.of_nat i) (added h) (allocated h) Hm ltac:(lia) ltac:(lia)).
        assert (0 <= (reused h + Z.of_nat i) mod allocated h < allocated h) by (apply Z.mod_pos_bound; lia). lia.
    + rewrite length_app in *. apply list_lookup_singleton_Some in Hq as [Hi ->].
      replace (reused h + Z.of_nat i) with (added h) by lia. rewrite list_lookup_insert_eq by lia. done.
Qed.

Lemma new_entry_ok h t res rs ps v w : in_ring h t res rs ps v w ->
  exists p h' rs', new_entry h = Some (p, h') /\ in_ring h' t res rs' ps v w /\ ~ (p ∈ rs' ++ ps) /\ (p < length (objs h'))%nat /\
    (added h' < reused h' + allocated h' \/ rs' = []) /\ size h' = size h /\ free h' = free h.
Proof.
  intros [H1 H2 H3 H4 H5 H6 H7 H8 H9 H10 H11 H12 H13 H14 H15 H16 H17]. unfold new_entry. case_decide as Hd.
  - assert (rs = []) as -> by (destruct rs; [done|cbn [length] in *; lia]).
    assert (forall p e, objs h !! p = Some e -> (objs h ++ [Entry 0 0 0 0]) !! p = Some e) as Hob.
    { intros p e Hp. rewrite lookup_app_l; [done|]. by apply lookup_lt_Some in Hp. }
    eexists _, _, []. split; [done|]. split; [|split; [|split; [|split; [by right|done]]]].
    + split; try done.
      * cbn [objs]. eapply Forall_impl; [exact H9|]. cbn. intros q. rewrite length_app. lia.
      * cbn [objs storage]. revert H17. generalize (reverse (dyn t)) as xs. generalize v as v0. clear - Hob.
        induction ps as [|q ps IH]; intros v0 [|x xs]; try done. cbn. intros [(nd & vd & Ho & Hx) Hl]. split; [|by apply IH].
        exists nd, vd. split; [by apply Hob|done].
    + intros Hin. rewrite Forall_forall in H9. apply H9 in Hin. lia.
    + cbn [objs]. rewrite length_app. cbn. lia.
  - destruct rs as [|p rs]; [cbn in *; lia|].
    pose proof (H7 0%nat p eq_refl) as Hslot. rewrite Z.add_0_r in Hslot. rewrite Hslot. cbn [mbind option_bind].
    eexists _, _, rs. split; [done|]. apply NoDup_cons in H8 as [Hni H8]. apply Forall_cons in H9 as [Hp H9].
    split; [|split; [done|split; [done|split; [left; cbn [added reused allocated length] in *; lia|done]]]].
    split; try done; cbn [added deleted reused allocated length] in *; try lia.
    intros i q Hq. replace (reused h + 1 + Z.of_nat i) with (reused h + Z.of_nat (S i)) by lia. by apply (H7 (S i)).
Qed.

Lemma laid_frame os os' st st' ps : forall v xs w, laid os st v ps xs w -> (forall p, p ∈ ps -> os' !! p = os !! p) ->
  (forall k, v <= k < w -> cell st' k = cell st k) -> laid os' st' v ps xs w.
Proof.
  induction ps as [|p ps IH]; intros v [|x xs] w H Ho Hc; try done. pose proof (laid_total _ _ _ _ _ _ H) as Hw.
  cbn [laid] in *. destruct H as [(nd & vd & Hp & Hn & Hv & Hr) Hl]. pose proof (laid_total _ _ _ _ _ _ Hl) as Hw2.
  pose proof (hsize_min x).
  assert (forall ys, 32 * Z.of_nat (length ys) <= total ys) as Htot.
  { intros ys. induction ys as [|y ys IHy]; [done|]. cbn. fold (total ys). pose proof (hsize_min y). lia. }
  specialize (Htot xs). split.
  - exists nd, vd. split; [rewrite Ho; [done|]; apply list_elem_of_here|]. split; [done|]. split; [done|].
    intros i b Hi. pose proof (lookup_lt_Some _ _ _ Hi) as Hlt. rewrite length_app in Hlt. rewrite Hc; [by apply Hr|].
    unfold hsize in *. lia.
  - apply IH; [done|intros q Hq; apply Ho; by apply list_elem_of_further|]. intros k Hk. apply Hc. lia.
Qed.

Lemma total_reverse t : total (reverse t) = total t.
Proof. induction t as [|x t IH]; [done|]. rewrite reverse_cons, total_snoc, IH. cbn. fold (total t). lia. Qed.

(** The end of an insertion: the strings are stored and the pointer is added. *)
Lemma fill_stands h t x rs ps v w p : in_ring h t (hsize x) rs ps v w -> 0 <= free h -> ~ (p ∈ rs ++ ps) -> (p < length (objs h))%nat ->
  exists h', fill p x h = Some h' /\ length (objs h') = length (objs h) /\
    (entries h', added h', deleted h', reused h', allocated h', size h', free h') =
    (entries h, added h, deleted h, reused h, allocated h, size h, free h) /\
    Z.of_nat (length (storage h')) = T /\ at_pos (w + (hsize x - 32)) (pos h') /\ w + (hsize x - 32) - T <= v /\
    laid (objs h') (storage h') v (ps ++ [p]) (reverse (x :: dyn t)) (w + (hsize x - 32)).
Proof.
  intros H Hf Hp Hpl. destruct H as [H1 H2 H3 H4 H5 H6 H7 H8 H9 H10 H11 H12 H13 H14 H15 H16 H17].
  pose proof (laid_total _ _ _ _ _ _ H17) as Hw. rewrite total_reverse in Hw. pose proof (total_nonneg (dyn t)) as Ht.
  set (n1 := Z.of_nat (length (fst x))) in *. set (n2 := Z.of_nat (length (snd x))) in *.
  assert (hsize x = 32 + n1 + n2) as Hx by done.
  assert (0 <= n1 /\ 0 <= n2) as [Hn1 Hn2] by (subst n1 n2; lia).
  assert (w + (n1 + n2) - T <= v) as Hturn by lia.
  destruct (wr_ring_ok (storage h) w (pos h) (T - pos h) (fst x)) as (st1 & q & avail & E1 & L1 & Q1 & R1 & F1 & A1);
    [done|done|fold n1; lia|by left|]. fold n1 in Q1, F1, A1.
  destruct (wr_ring_ok st1 (w + n1) q avail (snd x)) as (st2 & r & avail2 & E2 & L2 & Q2 & R2 & F2 & _);
    [lia|done|fold n2; lia|fold n2; lia|]. fold n2 in Q2, F2.
  unfold fill. rewrite E1. cbn [mbind option_bind]. rewrite E2. cbn [mbind option_bind].
  eexists. split; [done|]. cbn [objs storage pos]. split; [apply length_insert|]. split; [done|]. split; [lia|].
  replace (w + (hsize x - 32)) with (w + n1 + n2) by lia. split; [done|]. split; [lia|].
  set (e := Entry n1 (pos h) n2 q).
  assert (laid (<[p:=e]> (objs h)) st2 v ps (reverse (dyn t)) w) as Hold.
  { eapply laid_frame; [exact H17| |].
    - intros p' Hp'. apply list_lookup_insert_ne. intros <-. apply Hp. apply elem_of_app. by right.
    - intros k Hk. rewrite F2, F1 by lia. done. }
  rewrite reverse_cons. revert Hold. clear H17. generalize (reverse (dyn t)) as xs. clear - e Hpl R1 R2 Q1 H15 F2 Hx Hn1 Hn2 Hturn n1 n2. revert v Hturn.
  induction ps as [|p' ps IH]; intros v Hturn [|y xs] Hl; try done; cbn [app laid] in *.
  - subst v. split; [|lia]. exists (pos h), q. split; [by rewrite list_lookup_insert_eq by done|]. split; [done|]. split; [done|].
    intros i b Hi. apply lookup_app_Some in Hi as [Hi|[Hge Hi]].
    + pose proof (lookup_lt_Some _ _ _ Hi). rewrite F2 by lia. by apply R1.
    + rewrite <- (R2 _ _ Hi). f_equal. lia.
  - destruct Hl as [Hy Hl]. split; [exact Hy|]. apply IH; [|done]. pose proof (hsize_min y). lia.
Qed.

Lemma account_ok h t rs ps v w x : in_ring h t 0 rs ps v w -> 0 <= free h ->
  exists rc h' rs' ps' v', ngx_http_v2_table_account h (Z.of_nat (length (fst x)) + Z.of_nat (length (snd x))) = Some (rc, h') /\
    0 <= free h' /\
    (if decide (hsize x <= max t) then
       rc = NGX_OK /\ in_ring h' (Table false (fit (max t - hsize x) (dyn t)) (max t)) (hsize x) rs' ps' v' w
     else rc <> NGX_OK /\ in_ring h' (Table false [] (max t)) 0 rs' ps' v' w).
Proof.
  intros H Hf. pose proof (ir_free _ _ _ _ _ _ _ H) as Hfree. rewrite (ir_max _ _ _ _ _ _ _ H).
  unfold ngx_http_v2_table_account.
  replace (Z.of_nat (length (fst x)) + Z.of_nat (length (snd x)) + 32) with (hsize x) by (unfold hsize; lia).
  pose proof (total_nonneg (dyn t)) as Ht. pose proof (hsize_min x) as Hx.
  case_decide as H1.
  - exists NGX_OK, (set_free (free h - hsize x) h), rs, ps, v. split; [done|]. split; [cbn; lia|].
    rewrite decide_True by lia. split; [done|].
    rewrite fit_all by lia. apply (in_ring_free _ _ _ _ _ _ _ (free h - hsize x)) in H.
    replace (size h - total (dyn t) - (free h - hsize x)) with (hsize x) in H by lia.
    replace (Table false (dyn t) (size h)) with t; [done|].
    pose proof (ir_max _ _ _ _ _ _ _ H). pose proof (ir_fresh _ _ _ _ _ _ _ H). destruct t; cbn in *. by subst.
  - case_decide as H2.
    + exists NGX_DECLINED, (set_free (size h) (set_deleted (added h) h)), (rs ++ ps), [], w. split; [done|].
      pose proof (ir_size _ _ _ _ _ _ _ H). split; [cbn; lia|]. rewrite decide_False by lia. split; [done|].
      destruct H as [I1 I2 I3 I4 I5 I6 I7 I8 I9 I10 I11 I12 I13 I14 I15 I16 I17].
      split; cbn [objs entries added deleted reused allocated size free storage pos set_free set_deleted dyn max fresh]; try done;
        rewrite ?app_nil_r; try done; rewrite ?length_app; cbn [length laid total foldr]; try lia; try done.
    + destruct (evict_while_ok (hsize x) ps h t 0 rs v w (live h) H) as (h' & rs' & ps' & v' & -> & I & Hfr & Es); [|lia|].
      { unfold live. rewrite (ir_added _ _ _ _ _ _ _ H). lia. }
      cbn [mbind option_bind]. exists NGX_OK, (set_free (free h' - hsize x) h'), rs', ps', v'. split; [done|]. split; [cbn; lia|].
      rewrite decide_True by lia. split; [done|]. pose proof (ir_free _ _ _ _ _ _ _ I) as Hfr2. cbn [dyn] in Hfr2.
      apply (in_ring_free _ _ _ _ _ _ _ (free h' - hsize x)) in I. cbn [dyn] in I.
      replace (size h - 0 - hsize x) with (size h - hsize x) in * by lia. rewrite Es in *.
      replace (size h - total (fit (size h - hsize x) (dyn t)) - (free h' - hsize x)) with (hsize x) in I by lia.
      by rewrite (ir_max _ _ _ _ _ _ _ H) in I.
Qed.

Lemma insert_stands h t rs ps v w x : in_ring h t 0 rs ps v w -> 0 <= free h ->
  exists h', ('(rc, h) ← ngx_http_v2_table_account h (Z.of_nat (length (fst x)) + Z.of_nat (length (snd x)));
    if decide (rc <> NGX_OK) then Some h
    else '(p, h) ← new_entry h; h ← fill p x h; h ← grow h; push p h) = Some h' /\ stands h' (insert_header x t).
Proof.
  intros H Hf. destruct (account_ok h t rs ps v w x H Hf) as (rc & h1 & rs1 & ps1 & v1 & -> & Hf1 & Hc).
  cbn [mbind option_bind]. unfold insert_header. case_decide as Hx; destruct Hc as [Hrc I].
  - subst rc. rewrite decide_False by tauto.
    destruct (new_entry_ok _ _ _ _ _ _ _ I) as (p & h2 & rs2 & -> & I2 & Hp & Hpl & Hroom & Es2 & Ef2). cbn [mbind option_bind].
    destruct (fill_stands _ _ _ _ _ _ _ p I2 ltac:(lia) Hp Hpl) as (h3 & -> & L3 & E3 & S3 & Q3 & T3 & D3). cbn [mbind option_bind].
    injection E3 as X1 X2 X3 X4 X5 X6 X7.
    assert (pointers h3 rs2 ps1) as P3.
    { destruct (in_ring_pointers _ _ _ _ _ _ _ I2) as [P1 P2 P3 P4 P5 P6 P7]. split; rewrite ?X1, ?X2, ?X3, ?X4, ?X5; try done.
      intros i q Hq. rewrite <- (P7 i q Hq). unfold slot. by rewrite X1, X5. }
    destruct (grow_stands h3 rs2 ps1 P3 ltac:(by rewrite X2, X4, X5)) as (h4 & -> & P4 & Hroom4 & (Y1 & Y2 & Y3 & Y4 & Y5)). cbn [mbind option_bind].
    destruct (push_ok h4 rs2 ps1 p P4 Hroom4) as (h5 & -> & P5 & (Z1 & Z2 & Z3 & Z4 & Z5)).
    exists h5. split; [done|]. right. exists rs2, (ps1 ++ [p]), v1, (w + (hsize x - 32)).
    destruct I2 as [I1' I2' I3' I4' I5' I6' I7' I8' I9' I10' I11' I12' I13' I14' I15' I16' I17']. destruct P5 as [O1 O2 O3 O4 O5 O6 O7].
    cbn [dyn max] in *. split; [|rewrite Z3, Y3, X7; lia].
    split; cbn [dyn max fresh]; try done; rewrite ?Z1, ?Z2, ?Z3, ?Z4, ?Z5, ?Y1, ?Y2, ?Y3, ?Y4, ?Y5, ?X6, ?X7; try done; try lia.
    + rewrite app_assoc. apply NoDup_app. split; [done|]. split; [|apply NoDup_singleton]. intros q Hq ->%list_elem_of_singleton. done.
    + rewrite L3, app_assoc. apply Forall_app. split; [done|]. by apply Forall_singleton.
    + cbn. fold (total (fit (max t - hsize x) (dyn t))). lia.
  - rewrite decide_True by done. exists h1. split; [done|]. right. by exists rs1, ps1, v1, w.
Qed.

Lemma add_header_ok h t x : stands h t -> exists h', ngx_http_v2_add_header h x = Some h' /\ stands h' (insert_header x t).
Proof.
  intros [(E1 & E2 & E3 & E4 & E5 & Hs & Ef & ->)|(rs & ps & v & w & H & Hf)]; unfold ngx_http_v2_add_header.
  - assert (in_ring (hpack_init h) (Table false [] T) 0 [] [] 0 0) as I.
    { unfold hpack_init. rewrite E1, E2, E3, E4, E5. split; cbn [objs entries added deleted reused allocated size free storage pos dyn max fresh]; try done.
      - eexists. split; [done|]. by rewrite length_replicate.
      - apply NoDup_nil_2. }
    assert (0 <= free (hpack_init h)) as Hf by (unfold hpack_init; rewrite E1; done).
    exact (insert_stands _ _ _ _ _ _ x I Hf).
  - assert (hpack_init h = h) as ->.
    { destruct (ir_alloc _ _ _ _ _ _ _ H) as (es & E & _). unfold hpack_init. by rewrite E. }
    destruct (insert_stands _ _ _ _ _ _ x H Hf) as (h' & E & S). by exists h'.
Qed.

Lemma laid_lookup os st ps : forall v xs w i x, laid os st v ps xs w -> xs !! i = Some x ->
  exists p v' nd vd, ps !! i = Some p /\ os !! p = Some (Entry (Z.of_nat (length (fst x))) nd (Z.of_nat (length (snd x))) vd) /\
    v <= v' /\ v' + (hsize x - 32) <= w /\ at_pos v' nd /\ at_pos (v' + Z.of_nat (length (fst x))) vd /\ ring st v' (fst x ++ snd x).
Proof.
  induction ps as [|p ps IH]; intros v [|y ys] w i x H Hi; try done. pose proof (laid_total _ _ _ _ _ _ H) as Hw.
  cbn [laid] in H. destruct H as [(nd & vd & Ho & Hn & Hv & Hr) Hl]. pose proof (hsize_min y).
  pose proof (laid_total _ _ _ _ _ _ Hl) as Hw2. destruct i as [|i].
  - injection Hi as ->. exists p, v, nd, vd. assert (32 * Z.of_nat (length ys) <= total ys).
    { clear. induction ys as [|y ys IHy]; [done|]. cbn. fold (total ys). pose proof (hsize_min y). lia. }
    repeat (split; [done || lia|]). done.
  - destruct (IH _ _ _ i x Hl Hi) as (p' & v' & nd' & vd' & H1 & H2 & H3 & H4). exists p', v', nd', vd'.
    split; [done|]. split; [done|]. split; [lia|done].
Qed.

Lemma static_lookup i : NGX_HTTP_V2_STATIC_TABLE_ENTRIES <= Z.of_nat i <-> ngx_http_v2_static_table !! i = None.
Proof. rewrite lookup_ge_None. unfold NGX_HTTP_V2_STATIC_TABLE_ENTRIES. lia. Qed.

Lemma get_indexed_ok h t index name_only hdr : stands h t -> 0 <= index ->
  ngx_http_v2_get_indexed_header h index name_only hdr = Some (lookup_header t index name_only hdr).
Proof.
  intros H Hi. unfold ngx_http_v2_get_indexed_header, lookup_header. case_decide as E0; [done|].
  case_decide as Es.
  - destruct (ngx_http_v2_static_table !! _) as [e|] eqn:E; [done|]. apply static_lookup in E. lia.
  - assert (ngx_http_v2_static_table !! Z.to_nat (index - 1) = None) as -> by (apply static_lookup; lia).
    set (k := index - 1 - NGX_HTTP_V2_STATIC_TABLE_ENTRIES). case_decide as Ed.
    + destruct H as [(E1 & E2 & E3 & E4 & E5 & _)|(rs & ps & v & w & H & Hf)]; [lia|].
      pose proof H as [H1 H2 H3 H4 H5 H6 H7 H8 H9 H10 H11 H12 H13 H14 H15 H16 H17].
      pose proof (laid_length _ _ _ _ _ _ H17) as Hlen. rewrite length_reverse in Hlen.
      pose proof (laid_total _ _ _ _ _ _ H17) as Hw. rewrite total_reverse in Hw.
      destruct (lookup_lt_is_Some_2 (dyn t) (Z.to_nat k) ltac:(lia)) as [x Hx].
      assert (reverse (dyn t) !! (length (dyn t) - S (Z.to_nat k))%nat = Some x) as Hrx.
      { rewrite reverse_lookup by lia. rewrite <- Hx. f_equal. lia. }
      destruct (laid_lookup _ _ _ _ _ _ _ _ H17 Hrx) as (p & v' & nd & vd & Hp & Ho & Hv1 & Hv2 & Hn & Hvd & Hr).
      assert (slot h (added h - k - 1) = Some p) as ->.
      { rewrite <- (H7 (length rs + (length (dyn t) - S (Z.to_nat k)))%nat p); [f_equal; lia|].
        rewrite lookup_app_r by lia. rewrite <- Hp. f_equal. lia. }
      cbn [mbind option_bind]. rewrite Ho. cbn [mbind option_bind name_data name_len value_data value_len].
      rewrite Hx. cbn [fmap option_fmap option_map]. unfold hsize in Hv2.
      rewrite (rd_ring_ok (storage h) v' nd (fst x)); [|done|done|lia|intros i b Hb; apply Hr; by apply lookup_app_l_Some].
      cbn [mbind option_bind]. destruct name_only; [done|].
      rewrite (rd_ring_ok (storage h) (v' + Z.of_nat (length (fst x))) vd (snd x)); [|done|done|lia|].
      * cbn. by destruct x.
      * intros i b Hb. pose proof (Hr (length (fst x) + i)%nat b) as Hrb. rewrite <- Hrb; [f_equal; lia|].
        rewrite lookup_app_r, Nat.add_sub' by lia. done.
    + replace (dyn t !! Z.to_nat k) with (@None header); [done|]. symmetry. apply lookup_ge_None_2.
      destruct H as [(E1 & E2 & E3 & E4 & E5 & _ & _ & ->)|(rs & ps & v & w & H & Hf)]; [cbn; lia|].
      pose proof (laid_length _ _ _ _ _ _ (ir_laid _ _ _ _ _ _ _ H)) as Hlen. rewrite length_reverse in Hlen.
      pose proof (ir_added _ _ _ _ _ _ _ H). lia.
Qed.

(** ** Runs *)

(** What the decoder of header blocks does with the tables. *)
Inductive hop := Get (index : Z) (name_only : bool) (hdr : header) | Resize (sz : Z) | Add (x : header).

Definition hop_ok (o : hop) : Prop := match o with Get index _ _ => 0 <= index | Resize sz => 0 <= sz | Add _ => True end.

Inductive answer := Got (r : option header) | Resized (ok : bool) | Added.

Definition exec_hpack (h : hpack) (o : hop) : option (answer * hpack) :=
  match o with
  | Get index name_only hdr => r ← ngx_http_v2_get_indexed_header h index name_only hdr; Some (Got r, h)
  | Resize sz => r ← ngx_http_v2_table_size h sz; Some (match r with Some h => (Resized true, h) | None => (Resized false, h) end)
  | Add x => h ← ngx_http_v2_add_header h x; Some (Added, h)
  end.

Definition exec_table (t : table) (o : hop) : answer * table :=
  match o with
  | Get index name_only hdr => (Got (lookup_header t index name_only hdr), t)
  | Resize sz => match resize_table sz t with Some t => (Resized true, t) | None => (Resized false, t) end
  | Add x => (Added, insert_header x t)
  end.

Fixpoint run_hpack (h : hpack) (ops : list hop) : option (list answer * hpack) :=
  match ops with
  | [] => Some ([], h)
  | o :: ops => '(a, h) ← exec_hpack h o; '(l, h) ← run_hpack h ops; Some (a :: l, h)
  end.

Fixpoint run_table (t : table) (ops : list hop) : list answer * table :=
  match ops with
  | [] => ([], t)
  | o :: ops => let (a, t) := exec_table t o in let (l, t) := run_table t ops in (a :: l, t)
  end.

Lemma exec_ok h t o : stands h t -> hop_ok o -> exists h', exec_hpack h o = Some (fst (exec_table t o), h') /\ stands h' (snd (exec_table t o)).
Proof.
  intros H Ho. destruct o as [index name_only hdr|sz|x]; cbn [exec_hpack exec_table hop_ok] in *.
  - rewrite (get_indexed_ok h t) by done. by exists h.
  - pose proof (table_size_ok h t sz H Ho) as R. destruct (ngx_http_v2_table_size h sz) as [[h'|]|], (resize_table sz t) as [t'|]; try done.
    + by exists h'.
    + by exists h.
  - destruct (add_header_ok h t x H) as (h' & -> & S). by exists h'.
Qed.

Lemma run_ok ops : forall h t, stands h t -> Forall hop_ok ops ->
  exists h', run_hpack h ops = Some (fst (run_table t ops), h') /\ stands h' (snd (run_table t ops)).
Proof.
  induction ops as [|o ops IH]; intros h t H Ho; [by exists h|]. apply Forall_cons in Ho as [Ho Hops].
  destruct (exec_ok h t o H Ho) as (h1 & E1 & S1). cbn [run_hpack run_table]. rewrite E1. cbn [mbind option_bind].
  destruct (exec_table t o) as [a t1]. cbn [fst snd] in *. destruct (IH h1 t1 S1 Hops) as (h2 & -> & S2).
  cbn [mbind option_bind]. destruct (run_table t1 ops) as [l t2]. by exists h2.
Qed.

(** The table is within its size, and its size within the storage. *)
Lemma stands_bound h t : stands h t -> total (dyn t) <= max t <= T.
Proof.
  intros [(_ & _ & _ & _ & _ & _ & _ & ->)|(rs & ps & v & w & H & Hf)]; [done|].
  pose proof (ir_free _ _ _ _ _ _ _ H). pose proof (ir_max _ _ _ _ _ _ _ H). pose proof (ir_size _ _ _ _ _ _ _ H). lia.
Qed.

(** C11: the HPACK tables of a connection, the ring of bytes, the ring of pointers and the entries that are used
    again, implement the tables of RFC 7541 for every sequence of lookups, insertions and changes of the size: the
    answers are the same, entry by entry and byte by byte, the oldest entries are given up exactly when the size
    requires it, and no operation reads memory that was not written, leaves an array or gives up more
    entries than there are. The entries and their overhead never exceed the size of the table, nor that the
    storage. The one difference to the standard is in the specification: a change of the size before the
    first insertion is accepted and has no effect. *)
Theorem hpack_refines ops : Forall hop_ok ops ->
  exists h, run_hpack hpack_zero ops = Some (fst (run_table table_start ops), h) /\ stands h (snd (run_table table_start ops)) /\
    total (dyn (snd (run_table table_start ops))) <= max (snd (run_table table_start ops)) <= NGX_HTTP_V2_TABLE_SIZE.
Proof.
  intros H. destruct (run_ok ops _ _ zero_stands H) as (h & E & S). exists h. split; [done|]. split; [done|].
  by apply (stands_bound h).
Qed.

(** ** Witnesses *)

Definition some_ops : list hop :=
  [Resize 4096; Add (bstr "a", bstr "1"); Add (bstr "b", bstr "22"); Get 62 false ([], []); Get 63 true ([], bstr "v");
   Get 64 false ([], []); Get 2 false ([], []); Resize 40; Get 63 false ([], []); Add (bstr "c", bstr "333333333"); Get 62 false ([], []);
   Resize 5000].

Lemma hpack_refines_witness : Forall hop_ok some_ops /\
  exists h, run_hpack hpack_zero some_ops = Some (fst (run_table table_start some_ops), h) /\ stands h (snd (run_table table_start some_ops)) /\
    total (dyn (snd (run_table table_start some_ops))) <= max (snd (run_table table_start some_ops)) <= NGX_HTTP_V2_TABLE_SIZE.
Proof.
  assert (Forall hop_ok some_ops) as H by (repeat (apply Forall_cons; split; [cbn; lia || done|]); apply Forall_nil_2).
  split; [exact H|]. exact (hpack_refines some_ops H).
Defined.

Example some_answers : fst <$> run_hpack hpack_zero some_ops =
  Some [Resized true; Added; Added; Got (Some (bstr "b", bstr "22")); Got (Some (bstr "a", bstr "v")); Got None;
        Got (Some (bstr ":method", bstr "GET")); Resized true; Got None; Added; Got None; Resized false].
Proof. vm_compute. reflexivity. Qed.

(** The size 0 before the first insertion is forgotten by it. *)
Example size_forgotten : fst <$> run_hpack hpack_zero [Resize 0; Add (bstr "a", bstr "1"); Get 62 false ([], [])] =
  Some [Resized true; Added; Got (Some (bstr "a", bstr "1"))].
Proof. vm_compute. reflexivity. Qed.
