(* ===== verification/HeaderBlock.v ===== *)
(** * Header blocks of HTTP/2: http/v2/ngx_http_v2.c

    The handlers that decode the header block of a HEADERS frame and of the CONTINUATION frames after it: integers, strings,
    the dynamic table, the moves over frame boundaries, and the state that is saved when the input ends anywhere.
    A handler gets the bytes from [pos] to [end]; the calls between handlers and the returns to the read loop
    are outcomes. The stream that gets the headers is a parameter with any behaviour, as are the
    limits of the configuration. *)

From S2P Require Import Prelude NgxString HuffTables Huff Hpack.
From stdpp Require Import list.

Open Scope Z_scope.

(** ** Definitions *)

Definition NGX_HTTP_V2_STATE_BUFFER_SIZE : Z := 16.
Definition NGX_HTTP_V2_INT_OCTETS : Z := 4.
Definition NGX_HTTP_V2_FRAME_HEADER_SIZE : Z := 9.
Definition NGX_HTTP_V2_CONTINUATION_FRAME : Z := 0x9.
Definition NGX_HTTP_V2_END_HEADERS_FLAG : Z := 0x04.
Definition NGX_HTTP_V2_PROTOCOL_ERROR : Z := 0x1.
Definition NGX_HTTP_V2_INTERNAL_ERROR : Z := 0x2.
Definition NGX_HTTP_V2_SIZE_ERROR : Z := 0x6.
Definition NGX_HTTP_V2_COMP_ERROR : Z := 0x9.
Definition NGX_HTTP_V2_ENHANCE_YOUR_CALM : Z := 0xb.

Definition ngx_http_v2_prefix (bits : Z) : Z := Z.shiftl 1 bits - 1.

Definition ngx_http_v2_parse_uint32 (a b c d : Z) : Z :=
  Z.lor (Z.lor (Z.lor (Z.shiftl a 24) (Z.shiftl b 16)) (Z.shiftl c 8)) d.

Definition ngx_http_v2_parse_length (head : Z) : Z := Z.shiftr head 8.
Definition ngx_http_v2_parse_type (head : Z) : Z := Z.land head 0xff.
Definition ngx_http_v2_parse_sid (a b c d : Z) : Z := Z.land (ngx_http_v2_parse_uint32 a b c d) 0x7fffffff.

(** *** Integers *)

(** A value with the input after it and the length that is left; NGX_ERROR, NGX_DECLINED and NGX_AGAIN. *)
Inductive int_result := Int (value : Z) (inp : list Z) (len : Z) | IntError | IntDeclined | IntAgain.

(** The octets after the first one, from [p] to [end]: the value and their number. *)
Fixpoint int_octets (octets : list Z) (shift value : Z) (n : nat) : option (Z * nat) :=
  match octets with
  | [] => None
  | octet :: octets =>
      let value := value + Z.shiftl (Z.land octet 0x7f) shift in
      if decide (octet < 128) then Some (value, S n) else int_octets octets (shift + 7) value (S n)
  end.

(** [None] when there is no octet at [*pos]; [len] is [h2c->state.length]. *)
Definition ngx_http_v2_parse_int (len : Z) (inp : list Z) (prefix : Z) : option int_result :=
  match inp with
  | [] => None
  | first :: p =>
      let value := Z.land first prefix in
      Some
        (if decide (value <> prefix) then
           if decide (len = 0) then IntError else Int value p (len - 1)
         else
           let octets := take (Z.to_nat NGX_HTTP_V2_INT_OCTETS) inp in
           match int_octets (drop 1 octets) 0 value 1 with
           | Some (value, n) => if decide (Z.of_nat n > len) then IntError else Int value (drop n inp) (len - Z.of_nat n)
           | None =>
               if decide (Z.of_nat (length octets) >= len) then IntError
               else if decide (Z.of_nat (length octets) = NGX_HTTP_V2_INT_OCTETS) then IntDeclined
               else IntAgain
           end)
  end.

(** *** The state *)

Inductive handler := header_block | field_len | field_huff | field_raw | field_skip | process_header | header_complete.

(** What happens to a header of a stream: it goes on, the request is finalized, or the connection fails. *)
Inductive verdict := Keep | Drop | Abort.

Section Connection.

Context {client : Type} (deliver : header -> client -> client * verdict) (buffers_size : Z).

(** The part of [h2c->state] for HPACK, with the table and the stream; [field] is the memory from [field_start] to
    [field_end], of a block of [alloc] bytes. *)
Record state := State {
  st_length : Z;
  st_padding : Z;
  st_flags : Z;
  st_sid : Z;
  parse_name : bool;
  parse_value : bool;
  index : bool;
  st_header : header;
  header_limit : Z;
  field_state : Z;
  field : list Z;
  alloc : Z;
  field_rest : Z;
  stream : option client;
  tables : hpack
}.

Definition set_length (x : Z) (s : state) : state :=
  State x (st_padding s) (st_flags s) (st_sid s) (parse_name s) (parse_value s) (index s) (st_header s) (header_limit s)
    (field_state s) (field s) (alloc s) (field_rest s) (stream s) (tables s).

Definition set_frame (len pad flags : Z) (s : state) : state :=
  State len pad flags (st_sid s) (parse_name s) (parse_value s) (index s) (st_header s) (header_limit s)
    (field_state s) (field s) (alloc s) (field_rest s) (stream s) (tables s).

Definition set_parse (name value : bool) (s : state) : state :=
  State (st_length s) (st_padding s) (st_flags s) (st_sid s) name value (index s) (st_header s) (header_limit s)
    (field_state s) (field s) (alloc s) (field_rest s) (stream s) (tables s).

Definition set_index (x : bool) (s : state) : state :=
  State (st_length s) (st_padding s) (st_flags s) (st_sid s) (parse_name s) (parse_value s) x (st_header s) (header_limit s)
    (field_state s) (field s) (alloc s) (field_rest s) (stream s) (tables s).

Definition set_header (x : header) (s : state) : state :=
  State (st_length s) (st_padding s) (st_flags s) (st_sid s) (parse_name s) (parse_value s) (index s) x (header_limit s)
    (field_state s) (field s) (alloc s) (field_rest s) (stream s) (tables s).

Definition set_limit (x : Z) (s : state) : state :=
  State (st_length s) (st_padding s) (st_flags s) (st_sid s) (parse_name s) (parse_value s) (index s) (st_header s) x
    (field_state s) (field s) (alloc s) (field_rest s) (stream s) (tables s).

Definition set_rest (x : Z) (s : state) : state :=
  State (st_length s) (st_padding s) (st_flags s) (st_sid s) (parse_name s) (parse_value s) (index s) (st_header s) (header_limit s)
    (field_state s) (field s) (alloc s) x (stream s) (tables s).

Definition set_field (fs : Z) (x : list Z) (a : Z) (s : state) : state :=
  State (st_length s) (st_padding s) (st_flags s) (st_sid s) (parse_name s) (parse_value s) (index s) (st_header s) (header_limit s)
    fs x a (field_rest s) (stream s) (tables s).

Definition set_stream (x : option client) (s : state) : state :=
  State (st_length s) (st_padding s) (st_flags s) (st_sid s) (parse_name s) (parse_value s) (index s) (st_header s) (header_limit s)
    (field_state s) (field s) (alloc s) (field_rest s) x (tables s).

Definition set_tables (x : hpack) (s : state) : state :=
  State (st_length s) (st_padding s) (st_flags s) (st_sid s) (parse_name s) (parse_value s) (index s) (st_header s) (header_limit s)
    (field_state s) (field s) (alloc s) (field_rest s) (stream s) x.

(** What a handler does: it calls another one, returns to the loop with the handler to call next, saves the rest of the input
    and its handler until more arrives, fails, or is done with the block. [Undefined] is an access outside of
    an object. *)
Inductive outcome :=
  | Call (hd : handler) (s : state) (inp : list Z)
  | Return (hd : handler) (s : state) (inp : list Z)
  | Save (hd : handler) (s : state) (rest : list Z)
  | Fail (err : Z)
  | Complete (s : state) (inp : list Z)
  | Undefined.

Definition end_headers (s : state) : bool := bool_decide (Z.land (st_flags s) NGX_HTTP_V2_END_HEADERS_FLAG <> 0).

(** Also [ngx_http_v2_state_headers_save], which sets a timer before. *)
Definition ngx_http_v2_state_save (s : state) (inp : list Z) (hd : handler) : outcome :=
  if decide (Z.of_nat (length inp) > NGX_HTTP_V2_STATE_BUFFER_SIZE) then Fail NGX_HTTP_V2_INTERNAL_ERROR else Save hd s inp.

(** The rest of the frame moves over the padding and over the header of the next frame. *)
Definition ngx_http_v2_handle_continuation (s : state) (inp : list Z) (hd : handler) : outcome :=
  let len := st_length s in
  let n := Z.to_nat len in
  let skip :=
    if decide (st_padding s <> 0 /\ Z.of_nat (length inp) > len) then Z.min (st_padding s) (Z.of_nat (length inp) - len) else 0 in
  let s := set_frame len (st_padding s - skip) (st_flags s) s in
  let inp := take n inp ++ drop (n + Z.to_nat skip) inp in
  if decide (Z.of_nat (length inp) < len + NGX_HTTP_V2_FRAME_HEADER_SIZE) then ngx_http_v2_state_save s inp hd
  else
    match drop n inp with
    | a :: b :: c :: d :: flags :: e :: f :: g :: h :: after =>
        let head := ngx_http_v2_parse_uint32 a b c d in
        if decide (ngx_http_v2_parse_type head <> NGX_HTTP_V2_CONTINUATION_FRAME) then Fail NGX_HTTP_V2_PROTOCOL_ERROR
        else
          let s := set_frame len (st_padding s) (Z.lor (st_flags s) flags) s in
          if decide (st_sid s <> ngx_http_v2_parse_sid e f g h) then Fail NGX_HTTP_V2_PROTOCOL_ERROR
          else Return hd (set_length (len + ngx_http_v2_parse_length head) s) (take n inp ++ after)
    | _ => Undefined
    end.

(** Both handlers below start with this test. *)
Definition in_frame (s : state) : bool := end_headers s || bool_decide (st_length s >= NGX_HTTP_V2_INT_OCTETS).

(** The errors of an integer. *)
Definition int_failed (r : int_result) (s : state) (inp : list Z) (hd : handler) : outcome :=
  match r with
  | IntAgain => ngx_http_v2_state_save s inp hd
  | IntDeclined => Fail NGX_HTTP_V2_COMP_ERROR
  | _ => Fail NGX_HTTP_V2_SIZE_ERROR
  end.

(** *** The handlers *)

(** Whether the field is indexed or an update of the size, whether it will be inserted, and the bits of the integer. *)
Definition field_kind (ch : Z) : bool * bool * bool * Z :=
  if decide (ch >= Z.shiftl 1 7) then (true, false, false, 7)
  else if decide (ch >= Z.shiftl 1 6) then (false, false, true, 6)
  else if decide (ch >= Z.shiftl 1 5) then (false, true, false, 5)
  else (false, false, false, 4).

Definition ngx_http_v2_state_header_block (s : state) (inp : list Z) : outcome :=
  match inp with
  | [] => ngx_http_v2_state_save s inp header_block
  | ch :: _ =>
      if negb (in_frame s) then ngx_http_v2_handle_continuation s inp header_block
      else
        let '(indexed, size_update, insert, bits) := field_kind ch in
        let s := if insert then set_index true s else s in
        match ngx_http_v2_parse_int (st_length s) inp (ngx_http_v2_prefix bits) with
        | None => Undefined
        | Some (Int value inp len) =>
            let s := set_length len s in
            if indexed then
              match ngx_http_v2_get_indexed_header (tables s) value false (st_header s) with
              | None => Undefined
              | Some None => Fail NGX_HTTP_V2_COMP_ERROR
              | Some (Some x) => Call process_header (set_header x s) inp
              end
            else if size_update then
              match ngx_http_v2_table_size (tables s) value with
              | None => Undefined
              | Some None => Fail NGX_HTTP_V2_COMP_ERROR
              | Some (Some t) => Call header_complete (set_tables t s) inp
              end
            else if decide (value = 0) then Call field_len (set_parse true true s) inp
            else
              match ngx_http_v2_get_indexed_header (tables s) value true (st_header s) with
              | None => Undefined
              | Some None => Fail NGX_HTTP_V2_COMP_ERROR
              | Some (Some x) => Call field_len (set_parse (parse_name s) true (set_header x s)) inp
              end
        | Some r => int_failed r s inp header_block
        end
  end.

Definition ngx_http_v2_state_field_len (s : state) (inp : list Z) : outcome :=
  if negb (in_frame s) then ngx_http_v2_handle_continuation s inp field_len
  else if decide (st_length s < 1) then Fail NGX_HTTP_V2_SIZE_ERROR
  else
    match inp with
    | [] => ngx_http_v2_state_save s inp field_len
    | ch :: _ =>
        let huff := bool_decide (Z.shiftr ch 7 <> 0) in
        match ngx_http_v2_parse_int (st_length s) inp (ngx_http_v2_prefix 7) with
        | None => Undefined
        | Some (Int len inp length) =>
            let s := set_length length s in
            if decide (len > buffers_size) then Fail NGX_HTTP_V2_ENHANCE_YOUR_CALM
            else
              let s := set_rest len s in
              match stream s, index s with
              | None, false => Call field_skip s inp
              | _, _ =>
                  let s := set_field (field_state s) [] ((if huff then len * 8 / 5 else len) + 1) s in
                  Call (if huff then field_huff else field_raw) s inp
              end
        | Some r => int_failed r s inp field_len
        end
    end.

(** The bytes of the string that are there. *)
Definition field_size (s : state) (inp : list Z) : Z := Z.min (Z.min (Z.of_nat (length inp)) (field_rest s)) (st_length s).

(** The end of the three handlers of strings. *)
Definition field_next (s : state) (inp : list Z) (hd : handler) : outcome :=
  if decide (field_rest s = 0) then Call process_header s inp
  else if decide (st_length s <> 0) then ngx_http_v2_state_save s inp hd
  else if end_headers s then Fail NGX_HTTP_V2_SIZE_ERROR
  else ngx_http_v2_handle_continuation s inp hd.

(** The writes stay in the block, and so does the zero after the string. *)
Definition in_alloc (s : state) (written : list Z) : bool := bool_decide (Z.of_nat (length written) < alloc s).

Definition ngx_http_v2_state_field_huff (s : state) (inp : list Z) : outcome :=
  let size := field_size s inp in
  let s := set_rest (field_rest s - size) (set_length (st_length s - size) s) in
  let '(rc, fs, out) :=
    ngx_http_huff_decode (field_state s) (take (Z.to_nat size) inp) (bool_decide (field_rest s = 0)) in
  if negb (in_alloc s (field s ++ out)) then Undefined
  else if decide (rc <> NGX_OK) then Fail NGX_HTTP_V2_COMP_ERROR
  else field_next (set_field fs (field s ++ out) (alloc s) s) (drop (Z.to_nat size) inp) field_huff.

Definition ngx_http_v2_state_field_raw (s : state) (inp : list Z) : outcome :=
  let size := field_size s inp in
  let s := set_rest (field_rest s - size) (set_length (st_length s - size) s) in
  let out := take (Z.to_nat size) inp in
  if negb (in_alloc s (field s ++ out)) then Undefined
  else field_next (set_field (field_state s) (field s ++ out) (alloc s) s) (drop (Z.to_nat size) inp) field_raw.

Definition ngx_http_v2_state_field_skip (s : state) (inp : list Z) : outcome :=
  let size := field_size s inp in
  let s := set_rest (field_rest s - size) (set_length (st_length s - size) s) in
  field_next s (drop (Z.to_nat size) inp) field_skip.

Definition ngx_http_v2_state_process_header (s : state) (inp : list Z) : outcome :=
  if parse_name s then
    let s := set_header (field s, snd (st_header s)) (set_parse false (parse_value s) s) in
    if decide (fst (st_header s) = []) then Fail NGX_HTTP_V2_PROTOCOL_ERROR else Call field_len s inp
  else
    let s := if parse_value s then set_header (fst (st_header s), field s) (set_parse false false s) else s in
    let hdr := st_header s in
    let len := Z.of_nat (length (fst hdr)) + Z.of_nat (length (snd hdr)) in
    if decide (len > header_limit s) then Fail NGX_HTTP_V2_ENHANCE_YOUR_CALM
    else
      let s := set_limit (header_limit s - len) s in
      match (if index s then ngx_http_v2_add_header (tables s) hdr else Some (tables s)) with
      | None => Undefined
      | Some t =>
          let s := set_index false (set_tables t s) in
          match stream s with
          | None => Call header_complete s inp
          | Some c =>
              match deliver hdr c with
              | (c, Keep) => Call header_complete (set_stream (Some c) s) inp
              | (c, Drop) => Call header_complete (set_stream None s) inp
              | (c, Abort) => Fail NGX_HTTP_V2_INTERNAL_ERROR
              end
          end
      end.

Definition ngx_http_v2_state_header_complete (s : state) (inp : list Z) : outcome :=
  if decide (st_length s <> 0) then
    match inp with
    | [] => ngx_http_v2_state_save s inp header_block
    | _ => Return header_block s inp
    end
  else if negb (end_headers s) then ngx_http_v2_handle_continuation s inp header_complete
  else Complete s inp.

Definition handle (hd : handler) (s : state) (inp : list Z) : outcome :=
  match hd with
  | header_block => ngx_http_v2_state_header_block s inp
  | field_len => ngx_http_v2_state_field_len s inp
  | field_huff => ngx_http_v2_state_field_huff s inp
  | field_raw => ngx_http_v2_state_field_raw s inp
  | field_skip => ngx_http_v2_state_field_skip s inp
  | process_header => ngx_http_v2_state_process_header s inp
  | header_complete => ngx_http_v2_state_header_complete s inp
  end.

(** The loop of [ngx_http_v2_read_handler]: [do { p = handler(p, end) } while (p != end)]. [None] is out of fuel. *)
Inductive status := Waiting (hd : handler) (s : state) (rest : list Z) | Failed (err : Z) | Done (s : state) (inp : list Z) | Broken.

Fixpoint read_loop (fuel : nat) (hd : handler) (s : state) (inp : list Z) : option status :=
  match fuel with
  | O => None
  | S fuel =>
      match handle hd s inp with
      | Call hd s inp => read_loop fuel hd s inp
      | Return hd s [] => Some (Waiting hd s [])
      | Return hd s inp => read_loop fuel hd s inp
      | Save hd s rest => Some (Waiting hd s rest)
      | Fail err => Some (Failed err)
      | Complete s inp => Some (Done s inp)
      | Undefined => Some Broken
      end
  end.

Definition loop_fuel (inp : list Z) : nat := 8 * length inp + 8.

(** The chunks that arrive, each after the bytes that were saved; the result has the chunks that are not
    used. *)
Fixpoint feed (hd : handler) (s : state) (rest : list Z) (chunks : list (list Z)) : option (status * list (list Z)) :=
  match chunks with
  | [] => Some (Waiting hd s rest, [])
  | c :: chunks =>
      r ← read_loop (loop_fuel (rest ++ c)) hd s (rest ++ c);
      match r with
      | Waiting hd s rest => feed hd s rest chunks
      | r => Some (r, chunks)
      end
  end.

(** ** Decoding of a whole block

    The fields of a block one by one, with the integers and the kinds of fields
    of the handlers: a step between the handlers and the format of the RFC,
    which is stated below. *)

(** An error is a code of the connection, or an integer of four octets that does not end, for which the code depends on where
    the frame ends. *)
Inductive error := Code (err : Z) | LongInteger.

Inductive result (A : Type) := Ok (a : A) | Err (e : error).

Arguments Ok {A} a.
Arguments Err {A} e.

Definition bind {A B} (m : result A) (k : A -> result B) : result B := match m with Ok a => k a | Err e => Err e end.

(** The state between fields: the tables, the bytes of headers that are still allowed, the stream, and the last string, the length of
    which is taken for one that is skipped. *)
Record dec := Dec { d_table : table; d_limit : Z; d_stream : option client; d_last : list Z }.

Definition set_last (x : list Z) (d : dec) : dec := Dec (d_table d) (d_limit d) (d_stream d) x.

Definition spec_int (bits : Z) (F : list Z) : result (Z * list Z) :=
  match F with
  | [] => Err (Code NGX_HTTP_V2_SIZE_ERROR)
  | first :: p =>
      let value := Z.land first (ngx_http_v2_prefix bits) in
      if decide (value <> ngx_http_v2_prefix bits) then Ok (value, p)
      else
        match int_octets (take 3 p) 0 value 1 with
        | Some (value, n) => Ok (value, drop n F)
        | None => if decide (length F < 4)%nat then Err (Code NGX_HTTP_V2_SIZE_ERROR) else Err LongInteger
        end
  end.

(** [len] bytes of a string after [pre]. *)
Definition spec_raw (len : Z) (pre F : list Z) : result (list Z * list Z) :=
  if decide (Z.of_nat (length F) < len) then Err (Code NGX_HTTP_V2_SIZE_ERROR)
  else Ok (pre ++ take (Z.to_nat len) F, drop (Z.to_nat len) F).

(** A coded string that is cut by the end of the block is decoded as far as it goes. *)
Definition spec_huff (fs len : Z) (pre F : list Z) : result (list Z * list Z) :=
  let '(rc, _, out) := ngx_http_huff_decode fs (take (Z.to_nat len) F) (bool_decide (len <= Z.of_nat (length F))) in
  if decide (rc <> NGX_OK) then Err (Code NGX_HTTP_V2_COMP_ERROR)
  else if decide (Z.of_nat (length F) < len) then Err (Code NGX_HTTP_V2_SIZE_ERROR)
  else Ok (pre ++ out, drop (Z.to_nat len) F).

(** A string is skipped when nobody needs it. *)
Definition skips (idx : bool) (str : option client) : bool := match str, idx with None, false => true | _, _ => false end.

Definition spec_string (idx : bool) (d : dec) (F : list Z) : result (list Z * dec * list Z) :=
  match F with
  | [] => Err (Code NGX_HTTP_V2_SIZE_ERROR)
  | ch :: _ =>
      bind (spec_int 7 F) (fun '(len, F) =>
        if decide (len > buffers_size) then Err (Code NGX_HTTP_V2_ENHANCE_YOUR_CALM)
        else if skips idx (d_stream d) then
          if decide (Z.of_nat (length F) < len) then Err (Code NGX_HTTP_V2_SIZE_ERROR) else Ok (d_last d, d, drop (Z.to_nat len) F)
        else
          bind (if decide (Z.shiftr ch 7 <> 0) then spec_huff 0 len [] F else spec_raw len [] F)
            (fun '(x, F) => Ok (x, set_last x d, F)))
  end.

(** A header: its size, the dynamic table, the stream. *)
Definition spec_header (idx : bool) (hdr : header) (d : dec) : result dec :=
  let len := Z.of_nat (length (fst hdr)) + Z.of_nat (length (snd hdr)) in
  if decide (len > d_limit d) then Err (Code NGX_HTTP_V2_ENHANCE_YOUR_CALM)
  else
    let t := if idx then insert_header hdr (d_table d) else d_table d in
    let limit := d_limit d - len in
    match d_stream d with
    | None => Ok (Dec t limit None (d_last d))
    | Some c =>
        match deliver hdr c with
        | (c, Keep) => Ok (Dec t limit (Some c) (d_last d))
        | (c, Drop) => Ok (Dec t limit None (d_last d))
        | (c, Abort) => Err (Code NGX_HTTP_V2_INTERNAL_ERROR)
        end
    end.

(** The value of a header with a name. *)
Definition spec_value (idx : bool) (name : list Z) (d : dec) (F : list Z) : result (dec * list Z) :=
  bind (spec_string idx d F) (fun '(value, d, F) => bind (spec_header idx (name, value) d) (fun d => Ok (d, F))).

Definition spec_name (idx : bool) (d : dec) (F : list Z) : result (dec * list Z) :=
  bind (spec_string idx d F) (fun '(name, d, F) =>
    if decide (name = []) then Err (Code NGX_HTTP_V2_PROTOCOL_ERROR) else spec_value idx name d F).

(** One representation of a field. *)
Definition spec_field (d : dec) (F : list Z) : result (dec * list Z) :=
  match F with
  | [] => Err (Code NGX_HTTP_V2_SIZE_ERROR)
  | ch :: _ =>
      let '(indexed, size_update, insert, bits) := field_kind ch in
      bind (spec_int bits F) (fun '(value, F) =>
        if indexed then
          match lookup_header (d_table d) value false ([], []) with
          | None => Err (Code NGX_HTTP_V2_COMP_ERROR)
          | Some hdr => bind (spec_header false hdr d) (fun d => Ok (d, F))
          end
        else if size_update then
          match resize_table value (d_table d) with
          | None => Err (Code NGX_HTTP_V2_COMP_ERROR)
          | Some t => Ok (Dec t (d_limit d) (d_stream d) (d_last d), F)
          end
        else if decide (value = 0) then spec_name insert d F
        else
          match lookup_header (d_table d) value true ([], []) with
          | None => Err (Code NGX_HTTP_V2_COMP_ERROR)
          | Some hdr => spec_value insert (fst hdr) d F
          end)
  end.

(** The fields of a block; the fuel is its length. *)
Fixpoint spec_fields (fuel : nat) (d : dec) (F : list Z) : result dec :=
  match F, fuel with
  | [], _ => Ok d
  | _, O => Err LongInteger
  | _, S fuel => bind (spec_field d F) (fun '(d, F) => spec_fields fuel d F)
  end.

Definition spec_block (d : dec) (F : list Z) : result dec := spec_fields (length F) d F.

End Connection.

Arguments Ok {A} a.
Arguments Err {A} e.

(** ** RFC 7541

    The format of a header block, from the text of the RFC and with none of the
    definitions of the handlers: the patterns of section 6, the integers of
    section 5.1, the strings of section 5.2 with the code words of appendix B
    read one bit at a time, the tables of section 2.3 and 4. What nginx adds is
    written out: integers of at most [NGX_HTTP_V2_INT_OCTETS] octets, the limits
    on a string and on all headers, names that may not be empty, strings that
    nobody needs, which are not looked into. *)

(** The first octet of a field tells its representation: [1xxxxxxx], [01xxxxxx],
    [001xxxxx], and [0000xxxx] or [0001xxxx], which differ for proxies only. *)
Inductive representation := Indexed | Literal (incremental : bool) | SizeUpdate.

Definition representation_of (ch : Z) : representation :=
  if Z.testbit ch 7 then Indexed
  else if Z.testbit ch 6 then Literal true
  else if Z.testbit ch 5 then SizeUpdate
  else Literal false.

Definition prefix_bits (r : representation) : Z :=
  match r with Indexed => 7 | Literal true => 6 | SizeUpdate => 5 | Literal false => 4 end.

(** Groups of seven bits, the least significant one first; the last octet has a
    zero in its highest bit. *)
Fixpoint octet_groups (octets : list Z) : option (Z * list Z) :=
  match octets with
  | [] => None
  | o :: octets =>
      if Z.testbit o 7 then '(v, rest) ← octet_groups octets; Some (o mod 128 + 128 * v, rest)
      else Some (o mod 128, octets)
  end.

(** An integer with a prefix: the prefix alone, or when all of its bits are set
    the groups after it added to it. *)
Definition rfc_int (bits : Z) (F : list Z) : result (Z * list Z) :=
  match F with
  | [] => Err (Code NGX_HTTP_V2_SIZE_ERROR)
  | first :: p =>
      let v := first mod 2 ^ bits in
      if decide (v < 2 ^ bits - 1) then Ok (v, p)
      else
        match octet_groups p with
        | Some (w, rest) =>
            if decide (Z.of_nat (length F) - Z.of_nat (length rest) <= NGX_HTTP_V2_INT_OCTETS)
            then Ok (2 ^ bits - 1 + w, rest)
            else Err LongInteger
        | None =>
            if decide (Z.of_nat (length F) < NGX_HTTP_V2_INT_OCTETS)
            then Err (Code NGX_HTTP_V2_SIZE_ERROR)
            else Err LongInteger
        end
  end.

(** The octets of a string. A coded one is decoded as far as it goes before the
    end of the block is noticed; what is left of a code word has to be ones. *)
Definition rfc_octets (huffman : bool) (len : Z) (F : list Z) : result (list Z * list Z) :=
  let str := take (Z.to_nat len) F in
  let short := bool_decide (Z.of_nat (length F) < len) in
  let next := drop (Z.to_nat len) F in
  if huffman then
    match bit_run [] (bytes_bits str) with
    | None => Err (Code NGX_HTTP_V2_COMP_ERROR)
    | Some (pending, text) =>
        if short then Err (Code NGX_HTTP_V2_SIZE_ERROR)
        else if forallb id pending then Ok (text, next)
        else Err (Code NGX_HTTP_V2_COMP_ERROR)
    end
  else if short then Err (Code NGX_HTTP_V2_SIZE_ERROR)
  else Ok (str, next).

Section Rfc.

Context {client : Type} (deliver : header -> client -> client * verdict) (buffers_size : Z).

Implicit Types (d : dec (client := client)).

(** A string literal: a bit that tells whether it is coded, and its length. One
    that is skipped is taken for the last string that was not. *)
Definition rfc_string (incremental : bool) d (F : list Z) : result (list Z * dec * list Z) :=
  bind (rfc_int 7 F) (fun '(len, next) =>
    if decide (len > buffers_size) then Err (Code NGX_HTTP_V2_ENHANCE_YOUR_CALM)
    else if skips incremental (d_stream d) then
      if decide (Z.of_nat (length next) < len) then Err (Code NGX_HTTP_V2_SIZE_ERROR)
      else Ok (d_last d, d, drop (Z.to_nat len) next)
    else
      let huffman := match F with ch :: _ => Z.testbit ch 7 | [] => false end in
      bind (rfc_octets huffman len next) (fun '(x, F) => Ok (x, set_last x d, F))).

(** A literal field, of which the name may be known from a table. *)
Definition rfc_literal (incremental : bool) (name : option (list Z)) d (F : list Z)
  : result (dec * list Z) :=
  bind
    match name with
    | Some name => Ok (name, d, F)
    | None =>
        bind (rfc_string incremental d F) (fun '(name, d, F) =>
          if decide (name = []) then Err (Code NGX_HTTP_V2_PROTOCOL_ERROR) else Ok (name, d, F))
    end
    (fun '(name, d, F) =>
      bind (rfc_string incremental d F) (fun '(value, d, F) =>
        bind (spec_header deliver incremental (name, value) d) (fun d => Ok (d, F)))).

Definition rfc_field d (F : list Z) : result (dec * list Z) :=
  let r := match F with ch :: _ => representation_of ch | [] => Indexed end in
  bind (rfc_int (prefix_bits r) F) (fun '(n, F) =>
    match r with
    | Indexed =>
        match lookup_header (d_table d) n false ([], []) with
        | Some hdr => bind (spec_header deliver false hdr d) (fun d => Ok (d, F))
        | None => Err (Code NGX_HTTP_V2_COMP_ERROR)
        end
    | SizeUpdate =>
        match resize_table n (d_table d) with
        | Some t => Ok (Dec t (d_limit d) (d_stream d) (d_last d), F)
        | None => Err (Code NGX_HTTP_V2_COMP_ERROR)
        end
    | Literal incremental =>
        if decide (n = 0) then rfc_literal incremental None d F
        else
          match lookup_header (d_table d) n true ([], []) with
          | Some hdr => rfc_literal incremental (Some (fst hdr)) d F
          | None => Err (Code NGX_HTTP_V2_COMP_ERROR)
          end
    end).

(** The fields of a block. Each takes an octet at least, so that the length of
    the block is enough fuel. *)
Fixpoint rfc_fields (fuel : nat) d (F : list Z) : result dec :=
  match F, fuel with
  | [], _ => Ok d
  | _, O => Err LongInteger
  | _, S fuel => bind (rfc_field d F) (fun '(d, F) => rfc_fields fuel d F)
  end.

Definition rfc_block d (F : list Z) : result dec := rfc_fields (length F) d F.

End Rfc.

(** ** Frames *)

(** The header of a CONTINUATION frame of the stream, for a fragment of [len] bytes; [e] is whether it is the last one. *)
Definition frame_header (sid len : Z) (e : bool) (bs : list Z) : Prop :=
  exists a b c d flags f g h i, bs = [a; b; c; d; flags; f; g; h; i] /\
    ngx_http_v2_parse_type (ngx_http_v2_parse_uint32 a b c d) = NGX_HTTP_V2_CONTINUATION_FRAME /\
    ngx_http_v2_parse_length (ngx_http_v2_parse_uint32 a b c d) = len /\
    e = bool_decide (Z.land flags NGX_HTTP_V2_END_HEADERS_FLAG <> 0) /\ ngx_http_v2_parse_sid f g h i = sid.

(** The input [W] has [len] bytes of a block in the current frame and [pad] bytes of padding; [e] is whether the frame
    is the last one. The fragments of all frames together are [F], and [rest] comes after the last one. *)
Inductive wire (sid : Z) : Z -> Z -> bool -> list Z -> list Z -> list Z -> Prop :=
  | wire_last len pad F rest : Z.of_nat (length F) = len -> 0 <= pad -> wire sid len pad true (F ++ rest) F rest
  | wire_more len pad f padding len2 e2 bs W F rest :
      Z.of_nat (length f) = len -> Z.of_nat (length padding) = pad -> frame_header sid len2 e2 bs ->
      wire sid len2 0 e2 W F rest -> wire sid len pad false (f ++ padding ++ bs ++ W) (f ++ F) rest.

Lemma wire_len sid len pad e W F rest : wire sid len pad e W F rest ->
  0 <= len /\ 0 <= pad /\ exists f F' W', F = f ++ F' /\ W = f ++ W' /\ Z.of_nat (length f) = len /\ (e = true -> F' = [] /\ W' = rest) /\
    (e = false -> pad + 9 <= Z.of_nat (length W')).
Proof.
  intros H. destruct H as [len pad F rest Hl Hp|len pad f padding len2 e2 bs W F rest Hl Hp Hh H].
  - split; [lia|]. split; [lia|]. exists F, [], rest. by rewrite app_nil_r.
  - split; [lia|]. split; [lia|]. exists f, F, (padding ++ bs ++ W). split; [done|]. split; [done|]. split; [done|].
    split; [done|]. intros _. destruct Hh as (a & b & c & d & fl & x & y & z & i & -> & _). rewrite !length_app. cbn [length]. lia.
Qed.

(** Bytes of the frame are taken from both sides. *)
Lemma wire_take sid len pad e W F rest n : wire sid len pad e W F rest -> 0 <= n <= len ->
  exists x W' F', W = x ++ W' /\ F = x ++ F' /\ Z.of_nat (length x) = n /\ wire sid (len - n) pad e W' F' rest.
Proof.
  intros H Hn. destruct H as [len pad F rest Hl Hp|len pad f padding len2 e2 bs W F rest Hl Hp Hh H].
  - exists (take (Z.to_nat n) F), (drop (Z.to_nat n) F ++ rest), (drop (Z.to_nat n) F).
    rewrite app_assoc, take_drop. split; [done|]. split; [done|]. split; [rewrite length_take; lia|].
    apply wire_last; [rewrite length_drop; lia|done].
  - exists (take (Z.to_nat n) f), (drop (Z.to_nat n) f ++ padding ++ bs ++ W), (drop (Z.to_nat n) f ++ F).
    rewrite !app_assoc, take_drop. split; [done|]. split; [done|]. split; [rewrite length_take; lia|].
    rewrite <- !app_assoc. eapply wire_more; [rewrite length_drop; lia|done|done|done].
Qed.

(** Bytes of the input that are in the frame are the first ones of the block. *)
Lemma wire_prefix sid len pad e inp fut F rest n : wire sid len pad e (inp ++ fut) F rest ->
  0 <= n <= len -> n <= Z.of_nat (length inp) ->
  exists x inp' F', inp = x ++ inp' /\ F = x ++ F' /\ Z.of_nat (length x) = n /\ wire sid (len - n) pad e (inp' ++ fut) F' rest.
Proof.
  intros H Hn Hi. destruct (wire_take _ _ _ _ _ _ _ n H Hn) as (x & W' & F' & E & -> & Hx & H').
  exists x, (drop (length x) inp), F'.
  assert (inp = x ++ drop (length x) inp) as Ei.
  { rewrite <- (take_drop (length x) inp) at 1. f_equal.
    apply (f_equal (take (length x))) in E. rewrite take_app_le, take_app_length in E by lia. done. }
  split; [exact Ei|]. split; [done|]. split; [done|].
  rewrite Ei, <- app_assoc in E. apply app_inv_head in E. by rewrite E.
Qed.

(** ** Integers *)

Lemma int_octets_app a b : forall shift value n v k, int_octets a shift value n = Some (v, k) ->
  int_octets (a ++ b) shift value n = Some (v, k).
Proof.
  induction a as [|o a IH]; intros shift value n v k H; [done|]. cbn in *. case_decide; [done|]. by apply IH.
Qed.

Lemma int_octets_length a : forall shift value n v k, int_octets a shift value n = Some (v, k) -> (n < k <= n + length a)%nat.
Proof.
  induction a as [|o a IH]; intros shift value n v k H; [done|]. cbn in *. case_decide.
  - injection H as _ <-. lia.
  - apply IH in H. lia.
Qed.

(** It ends at its last octet. *)
Lemma int_octets_cut a : forall shift value n v k m, int_octets a shift value n = Some (v, k) -> (k - n <= m)%nat ->
  int_octets (take m a) shift value n = Some (v, k).
Proof.
  induction a as [|o a IH]; intros shift value n v k m H Hm; [done|]. cbn in H. case_decide as Ho.
  - injection H as <- <-. destruct m as [|m]; [lia|]. cbn. by rewrite decide_True by done.
  - pose proof (int_octets_length _ _ _ _ _ _ H). destruct m as [|m]; [lia|]. cbn. rewrite decide_False by done. apply IH; [done|lia].
Qed.

Lemma int_octets_nonneg a : bytes a -> forall shift value n v k, 0 <= value -> 0 <= shift -> int_octets a shift value n = Some (v, k) -> 0 <= v.
Proof.
  induction 1 as [|o a Ho Ha IH]; intros shift value n v k Hv Hs H; [done|]. cbn in H.
  assert (0 <= Z.shiftl (Z.land o 127) shift) by (apply Z.shiftl_nonneg, Z.land_nonneg; right; lia).
  case_decide; [injection H as <- <-; lia|]. eapply IH; [| |exact H]; lia.
Qed.

(** What the parser of integers returns on a part of the input, against the integer of the whole block. *)
Definition int_agrees (sid pad : Z) (e : bool) (bits len : Z) (inp fut F rest : list Z) (r : option int_result) : Prop :=
  match r with
  | None => False
  | Some (Int v inp' len') =>
      exists F', spec_int bits F = Ok (v, F') /\ wire sid len' pad e (inp' ++ fut) F' rest /\ (length inp' < length inp)%nat /\ 0 <= v
  | Some IntAgain => (length inp < 4)%nat /\ fut <> []
  | Some IntDeclined => spec_int bits F = Err LongInteger
  | Some IntError => spec_int bits F = Err (Code NGX_HTTP_V2_SIZE_ERROR) \/ spec_int bits F = Err LongInteger
  end.

Lemma last_frame sid len pad W F rest : wire sid len pad true W F rest -> Z.of_nat (length F) = len /\ W = F ++ rest.
Proof. inversion 1; subst. done. Qed.

Lemma prefix_nonneg bits : 0 <= bits -> 0 <= ngx_http_v2_prefix bits.
Proof. intros H. unfold ngx_http_v2_prefix. rewrite Z.shiftl_1_l. pose proof (Z.pow_pos_nonneg 2 bits). lia. Qed.

(** The octets of the machine and of the block are the same as far as both have them. *)
Lemma octets_same (x a b : list Z) v : int_octets (take 3 (x ++ a)) 0 v 1 = None -> (3 <= length x)%nat \/ a = [] \/ b = [] ->
  int_octets (take 3 (x ++ b)) 0 v 1 <> None -> (length x < 3)%nat /\ b <> [].
Proof.
  intros Ha Hx Hb. destruct (decide (3 <= length x)%nat) as [H3|H3].
  - rewrite take_app_le in Ha, Hb by lia. congruence.
  - split; [lia|]. intros ->. rewrite app_nil_r in Hb. apply Hb.
    destruct (int_octets (take 3 x) 0 v 1) as [[v' k]|] eqn:E; [|done].
    rewrite (take_ge x) in E by lia. apply (int_octets_app _ (take (3 - length x) a)) in E.
    rewrite take_app_ge in Ha by lia. congruence.
Qed.

Lemma parse_int_ok sid len pad e bits inp fut F rest : wire sid len pad e (inp ++ fut) F rest -> inp <> [] -> bytes inp ->
  (e = true \/ 4 <= len) -> 0 <= bits -> int_agrees sid pad e bits len inp fut F rest (ngx_http_v2_parse_int len inp (ngx_http_v2_prefix bits)).
Proof.
  intros Hw Hi Hb He Hbits. pose proof (wire_len _ _ _ _ _ _ _ Hw) as (Hlen & _ & f & Fr & Wr & EF & EW & Hf & Hlast & Hmore).
  remember (Z.min len (Z.of_nat (length inp))) as m eqn:Em.
  destruct (wire_prefix _ _ _ _ _ _ _ _ m Hw ltac:(lia) ltac:(lia)) as (x & inp' & F' & Ei & EF' & Hx & Hw').
  destruct inp as [|first p]; [done|]. unfold ngx_http_v2_parse_int, NGX_HTTP_V2_INT_OCTETS. cbn [int_agrees].
  set (value := Z.land first (ngx_http_v2_prefix bits)).
  assert (0 <= value) as Hv by (apply Z.land_nonneg; right; by apply prefix_nonneg).
  change (take (Z.to_nat 4) (first :: p)) with (first :: take 3 p).
  change (drop 1 (first :: take 3 p)) with (take 3 p). cbn [length].
  destruct (decide (len = 0)) as [E0|E0].
  { destruct He as [->|He]; [|lia]. apply last_frame in Hw as [HF _]. assert (F = []) as -> by (apply length_zero_iff_nil; lia).
    case_decide; [by left|]. destruct (int_octets _ _ _ _) as [[v n]|] eqn:E.
    - apply int_octets_length in E. rewrite decide_True by lia. by left.
    - rewrite decide_True by lia. by left. }
  assert (exists x', x = first :: x') as [x' ->].
  { destruct x as [|c x']; [cbn in *; lia|]. injection Ei as <- _. by exists x'. }
  cbn [app] in Ei. injection Ei as Ep. subst p. rewrite EF'. cbn [app spec_int]. fold value. cbn [length] in *.
  rewrite ?length_app in *.
  case_decide as Hval.
  - destruct (wire_prefix _ _ _ _ (first :: x' ++ inp') fut F rest 1 Hw ltac:(lia) ltac:(cbn; lia)) as (y & inp2 & F2 & Ey & EFy & Hy & Hw2).
    destruct y as [|c [|? ?]]; cbn [length] in Hy; [lia| |lia]. cbn in Ey, EFy. injection Ey as <- Ey. rewrite EF' in EFy. injection EFy as EFy.
    exists F2. rewrite EFy. split; [done|]. rewrite Ey. split; [done|]. split; [|done]. rewrite <- Ey, ?length_app. lia.
  - destruct (int_octets (take 3 (x' ++ inp')) 0 value 1) as [[v n]|] eqn:E.
    + pose proof (int_octets_length _ _ _ _ _ _ E) as Hn. rewrite length_take, length_app in Hn.
      case_decide as Hnl.
      * destruct He as [->|He]; [|lia]. left. apply last_frame in Hw as [HF _]. rewrite EF' in HF. cbn in HF. rewrite length_app in HF.
        assert (F' = []) as -> by (apply length_zero_iff_nil; lia). rewrite app_nil_r in *.
        destruct (int_octets (take 3 x') 0 value 1) as [[v' k]|] eqn:E'.
        -- pose proof (int_octets_length _ _ _ _ _ _ E') as Hk. rewrite length_take in Hk.
           apply (int_octets_app _ (take (3 - length x') inp')) in E'. rewrite (take_ge x') in E' by lia.
           destruct (decide (3 <= length x')%nat); [lia|]. rewrite take_app_ge in E by lia. rewrite E in E'. injection E' as _ <-. lia.
        -- rewrite decide_True by (cbn; lia). done.
      * destruct (wire_prefix _ _ _ _ (first :: x' ++ inp') fut F rest (Z.of_nat n) Hw ltac:(lia) ltac:(cbn; rewrite length_app; lia)) as (y & inp2 & F2 & Ey & EFy & Hy & Hw2).
        assert (int_octets (take 3 (x' ++ F')) 0 value 1 = Some (v, n)) as ->.
        { apply (int_octets_cut _ _ _ _ _ _ (n - 1)) in E; [|lia]. rewrite take_take in E.
          replace (Nat.min (n - 1) 3) with (n - 1)%nat in E by lia. rewrite take_app_le in E by lia.
          rewrite <- (take_drop (n - 1) (take 3 (x' ++ F'))), take_take.
          replace (Nat.min (n - 1) 3) with (n - 1)%nat by lia. rewrite take_app_le by lia. by apply int_octets_app. }
        assert (drop n (first :: x' ++ F') = F2) as -> by (change (first :: x' ++ F') with ((first :: x') ++ F'); rewrite <- EF', EFy; apply drop_app_length'; lia).
        assert (drop n (first :: x' ++ inp') = inp2) as -> by (rewrite Ey; apply drop_app_length'; lia).
        exists F2. split; [done|]. split; [done|]. split.
        -- apply (f_equal length) in Ey. cbn [length] in Ey. rewrite ?length_app in *. lia.
        -- eapply int_octets_nonneg; [| | |exact E]; [|lia|lia]. apply Forall_take. apply Forall_cons in Hb. tauto.
    + assert (Z.of_nat (length (x' ++ F')) + 1 = Z.of_nat (length F)) as HFl by (rewrite EF'; cbn; lia).
      rewrite length_take, length_app. case_decide as Hge.
      * destruct (int_octets (take 3 (x' ++ F')) 0 value 1) as [[v' k]|] eqn:E'.
        -- exfalso. destruct (octets_same x' inp' F' value E) as (H1 & H2); [|congruence|].
           { destruct He as [->|He]; [|left; lia]. apply last_frame in Hw as [HF _]. right. right. apply length_zero_iff_nil.
             rewrite EF' in HF. cbn in HF. rewrite length_app in HF. lia. }
           destruct He as [->|He]; [|lia]. apply last_frame in Hw as [HF _]. apply H2, length_zero_iff_nil.
           rewrite EF' in HF. cbn in HF. rewrite length_app in HF. lia.
        -- case_decide; [by left|by right].
      * assert (len > 4 \/ (length x' + length inp' < 3)%nat) as Hc by lia.
        case_decide as H4.
        -- destruct (int_octets (take 3 (x' ++ F')) 0 value 1) as [[v' k]|] eqn:E'.
           ++ rewrite take_app_le in E, E' by lia. congruence.
           ++ rewrite decide_False by (cbn [length]; rewrite length_app in *; lia). done.
        -- cbn [length]. rewrite ?length_app. split; [lia|]. intros ->. rewrite app_nil_r in EW. apply (f_equal length) in EW.
           cbn in EW. rewrite !length_app in EW. lia.
Qed.

(** ** Strings *)

(** A symbol takes five bits at least, those of an unfinished code word are still to be counted. *)
Definition entry_room (s n : Z) : bool :=
  let e := huff_decode_entry s n in
  (d_next e =? s) ||
  bool_decide ((if (d_emit e =? 0)%Z then 0 else 5) + length (state_path (d_next e)) <= length (state_path s) + 4)%nat &&
  bool_decide (is_byte (d_next e)).

Lemma table_room s n : is_byte s -> 0 <= n < 16 -> entry_room s n = true.
Proof.
  intros Hs Hn.
  assert (bytes_all (fun s => zall (entry_room s) 0 16) = true) as H by (vm_compute; reflexivity).
  apply (zall_spec _ 0 16); [|lia]. by apply (bytes_all_spec _ H).
Qed.

Definition huff_room (d : huff_decoder) : nat := (5 * length (hd_dst d) + length (state_path (hd_state d)))%nat.

Lemma decode_bits_room d n : is_byte (hd_state d) -> 0 <= n < 16 ->
  let d' := snd (ngx_http_huff_decode_bits d n) in is_byte (hd_state d') /\ (huff_room d' <= huff_room d + 4)%nat.
Proof.
  intros Hs Hn. pose proof (table_room _ _ Hs Hn) as H. unfold entry_room in H. apply orb_true_iff in H as [H|H].
  - apply Z.eqb_eq in H. unfold ngx_http_huff_decode_bits. rewrite decide_True by done. cbn [snd]. split; [exact Hs|lia].
  - apply andb_true_iff in H as [H1%bool_decide_eq_true H2%bool_decide_eq_true]. unfold ngx_http_huff_decode_bits.
    destruct (decide (d_next _ = _)); [cbn [snd]; split; [exact Hs|lia]|]. cbn [snd hd_state]. split; [done|].
    unfold huff_room. cbn [hd_dst hd_state]. destruct (Z.eqb_spec (d_emit (huff_decode_entry (hd_state d) n)) 0) as [Em|Em].
    + rewrite decide_False by tauto. lia.
    + rewrite decide_True by done. rewrite length_app. cbn [length]. lia.
Qed.

Lemma decode_loop_room src : forall d, bytes src -> is_byte (hd_state d) ->
  let d' := snd (huff_decode_loop src d) in is_byte (hd_state d') /\ (huff_room d' <= huff_room d + 8 * length src)%nat.
Proof.
  induction src as [|c src IH]; intros d Hb Hs; [cbn [snd huff_decode_loop length]; split; [exact Hs|lia]|]. apply Forall_cons in Hb as [Hc Hb]. cbn [huff_decode_loop length].
  destruct (byte_nibbles c Hc) as (_ & N1 & N2).
  destruct (decode_bits_room d (Z.shiftr c 4) Hs N1) as [S1 R1].
  destruct (ngx_http_huff_decode_bits d (Z.shiftr c 4)) as [rc d1]. cbn [snd] in *. case_decide; [cbn [snd]; split; [done|lia]|].
  destruct (decode_bits_room d1 (Z.land c 15) S1 N2) as [S2 R2].
  destruct (ngx_http_huff_decode_bits d1 (Z.land c 15)) as [rc2 d2]. cbn [snd] in *. case_decide; [cbn [snd]; split; [done|lia]|].
  destruct (IH d2 Hb S2) as [S3 R3]. split; [done|lia].
Qed.

(** The output of a decoder fits in 8/5 of the input. *)
Lemma decode_room fs src last : is_byte fs -> bytes src ->
  let '(_, fs', out) := ngx_http_huff_decode fs src last in
  is_byte fs' /\ (5 * length out + length (state_path fs') <= length (state_path fs) + 8 * length src)%nat.
Proof.
  intros Hs Hb. unfold ngx_http_huff_decode. destruct (decode_loop_room src (HD fs 1 []) Hb Hs) as [S R].
  destruct (huff_decode_loop src _) as [rc d]. unfold huff_room in R. cbn [snd hd_dst hd_state length] in *.
  assert (length (state_path 0) = 0%nat) as E0 by done.
  case_decide; [split; [done|lia]|]. destruct last; [|split; [done|lia]]. case_decide; (split; [done || by split|lia]).
Qed.

(** An error in a part is an error of the whole, and a part that is not the last one leaves the state for the rest. *)
Lemma decode_part_error fs a b last : fst (fst (ngx_http_huff_decode fs a false)) <> NGX_OK ->
  fst (fst (ngx_http_huff_decode fs (a ++ b) last)) <> NGX_OK.
Proof.
  unfold ngx_http_huff_decode. rewrite decode_loop_app. destruct (huff_decode_loop a _) as [rc d].
  case_decide as H; [|done]. intros _. by rewrite decide_True by done.
Qed.


Lemma huff_decode_last fs src fs' out : ngx_http_huff_decode fs src true = (NGX_OK, fs', out) -> fs' = 0.
Proof.
  unfold ngx_http_huff_decode. destruct (huff_decode_loop _ _) as [rc d]. case_decide; [by intros [= -> _ _]|].
  case_decide; by intros [= <- _].
Qed.

Lemma spec_huff_fail fs len pre x F : Z.of_nat (length x) <= len ->
  fst (fst (ngx_http_huff_decode fs x (bool_decide (len - Z.of_nat (length x) = 0)))) <> NGX_OK ->
  spec_huff fs len pre (x ++ F) = Err (Code NGX_HTTP_V2_COMP_ERROR).
Proof.
  intros Hx H. unfold spec_huff.
  assert (fst (fst (ngx_http_huff_decode fs (take (Z.to_nat len) (x ++ F)) (bool_decide (len <= Z.of_nat (length (x ++ F)))))) <> NGX_OK) as H'.
  { rewrite take_app_ge by lia. case_bool_decide as E.
    - replace (Z.to_nat len - length x)%nat with 0%nat by lia. rewrite take_0, app_nil_r, bool_decide_true by (rewrite length_app; lia). done.
    - by apply decode_part_error. }
  clear H. destruct (ngx_http_huff_decode _ _ _) as [[rc ?] ?]. cbn [fst] in H'. by rewrite decide_True by done.
Qed.

Lemma spec_huff_all fs len pre x F fs' out : Z.of_nat (length x) = len -> ngx_http_huff_decode fs x true = (NGX_OK, fs', out) ->
  spec_huff fs len pre (x ++ F) = Ok (pre ++ out, F).
Proof.
  intros <- E. unfold spec_huff. rewrite Nat2Z.id, take_app_length, drop_app_length, bool_decide_true by (rewrite length_app; lia).
  rewrite E. cbv beta iota. rewrite decide_False by tauto. by rewrite decide_False by (rewrite length_app; lia).
Qed.

Lemma spec_huff_part fs len pre x F fs' out : Z.of_nat (length x) < len -> ngx_http_huff_decode fs x false = (NGX_OK, fs', out) ->
  spec_huff fs len pre (x ++ F) = spec_huff fs' (len - Z.of_nat (length x)) (pre ++ out) F.
Proof.
  intros Hx E. unfold spec_huff.
  replace (bool_decide (len <= Z.of_nat (length (x ++ F)))) with (bool_decide (len - Z.of_nat (length x) <= Z.of_nat (length F)))
    by (apply bool_decide_ext; rewrite length_app; lia).
  rewrite take_app_ge, drop_app_ge by lia. replace (Z.to_nat len - length x)%nat with (Z.to_nat (len - Z.of_nat (length x))) by lia.
  destruct F as [|c F].
  - rewrite take_nil, app_nil_r, bool_decide_false by (cbn; lia). rewrite E. cbv beta iota. rewrite (decide_False (P := NGX_OK <> NGX_OK)) by tauto.
    rewrite decide_True by lia. unfold ngx_http_huff_decode. cbn [huff_decode_loop]. cbv beta iota.
    rewrite (decide_False (P := NGX_OK <> NGX_OK)) by tauto. cbv beta iota. rewrite (decide_False (P := NGX_OK <> NGX_OK)) by tauto.
    by rewrite decide_True by (cbn [length]; lia).
  - assert (take (Z.to_nat (len - Z.of_nat (length x))) (c :: F) <> []) as Hne by (destruct (Z.to_nat _) eqn:?; [lia|done]).
    rewrite (huff_decode_split _ _ _ _ _ _ Hne E). destruct (ngx_http_huff_decode fs' _ _) as [[rc ?] o2].
    rewrite app_assoc. case_decide; [done|]. rewrite length_app. do 2 case_decide; [done|lia|lia|done].
Qed.

Lemma spec_raw_part len pre x F : Z.of_nat (length x) <= len ->
  spec_raw len pre (x ++ F) = spec_raw (len - Z.of_nat (length x)) (pre ++ x) F.
Proof.
  intros Hx. unfold spec_raw. rewrite length_app. do 2 case_decide; [done|lia|lia|].
  rewrite take_app_ge, drop_app_ge by lia. replace (Z.to_nat len - length x)%nat with (Z.to_nat (len - Z.of_nat (length x))) by lia.
  by rewrite app_assoc.
Qed.

Lemma bind_ok {A B} (m : result A) (k : A -> result B) b : bind m k = Ok b -> exists a, m = Ok a /\ k a = Ok b.
Proof. destruct m as [a|e]; [|done]. intros H. by exists a. Qed.

(** ** The fields read by the handlers are those of the RFC *)

Lemma int_octets_groups p : bytes p -> forall m shift value n, 0 <= shift ->
  int_octets (take m p) shift value n =
    match octet_groups p with
    | Some (w, rest) =>
        if decide (length p - length rest <= m)%nat
        then Some (value + w * 2 ^ shift, (n + (length p - length rest))%nat) else None
    | None => None
    end.
Proof.
  induction 1 as [|o p Ho Hp IH]; intros m shift value n Hs; [by rewrite take_nil|].
  assert (Z.testbit o 7 = negb (bool_decide (o < 128))) as Ht by byte_sweep o Ho.
  assert (Z.land o 127 = o mod 128) as Hm by byte_sweep o Ho.
  assert (forall w rest, octet_groups p = Some (w, rest) -> (length rest < length p)%nat) as Hl.
  { clear. induction p as [|o p IH]; [done|]. intros w rest. cbn [octet_groups].
    destruct (Z.testbit o 7).
    - destruct (octet_groups p) as [[v r]|]; [|done]. cbn. intros [= _ <-].
      specialize (IH v r eq_refl). lia.
    - intros [= _ <-]. cbn. lia. }
  destruct m as [|m].
  { cbn [take int_octets]. cbn [octet_groups]. destruct (Z.testbit o 7).
    - destruct (octet_groups p) as [[v r]|]; [|done]. specialize (Hl v r eq_refl). cbn [mbind option_bind length].
      by rewrite decide_False by lia.
    - by rewrite decide_False by (cbn [length]; lia). }
  cbn [take int_octets octet_groups]. rewrite Ht, Hm, Z.shiftl_mul_pow2 by done.
  destruct (decide (o < 128)) as [H1|H1].
  - rewrite bool_decide_true by done. cbn [negb length]. rewrite decide_True by lia.
    do 2 f_equal. lia.
  - rewrite bool_decide_false by done. cbn [negb]. rewrite IH by lia.
    destruct (octet_groups p) as [[v r]|]; [|done]. specialize (Hl v r eq_refl).
    cbn [mbind option_bind length]. rewrite Z.pow_add_r by lia.
    repeat case_decide; try lia; [|done]. do 2 f_equal; lia.
Qed.

Lemma rfc_int_eq bits F : 0 <= bits -> bytes F -> spec_int bits F = rfc_int bits F.
Proof.
  intros Hb HF. destruct F as [|first p]; [done|]. apply List.Forall_cons_iff in HF. destruct HF as [_ Hp].
  unfold spec_int, rfc_int. rewrite int_octets_groups by done.
  assert (ngx_http_v2_prefix bits = 2 ^ bits - 1) as -> by (unfold ngx_http_v2_prefix; by rewrite Z.shiftl_1_l).
  assert (Z.land first (2 ^ bits - 1) = first mod 2 ^ bits) as ->.
  { replace (2 ^ bits - 1) with (Z.ones bits) by (rewrite Z.ones_equiv; lia). by apply Z.land_ones. }
  pose proof (Z.mod_pos_bound first (2 ^ bits) ltac:(apply Z.pow_pos_nonneg; lia)) as Hm.
  unfold NGX_HTTP_V2_INT_OCTETS. cbn [length].
  destruct (decide (first mod 2 ^ bits < 2 ^ bits - 1)) as [Hv|Hv].
  { rewrite decide_True by lia. done. }
  rewrite decide_False by lia. replace (first mod 2 ^ bits) with (2 ^ bits - 1) by lia.
  destruct (octet_groups p) as [[w rest]|] eqn:E.
  - assert (exists x, p = x ++ rest) as [x ->].
    { revert w rest E. clear. induction p as [|o p IH]; [done|]. intros w rest. cbn [octet_groups].
      destruct (Z.testbit o 7).
      - destruct (octet_groups p) as [[v r]|]; [|done]. cbn. intros [= _ <-].
        destruct (IH v r eq_refl) as [x ->]. by exists (o :: x).
      - intros [= _ <-]. by exists [o]. }
    rewrite length_app. case_decide.
    + rewrite decide_True by lia. rewrite Z.pow_0_r, Z.mul_1_r.
      replace (1 + (length x + length rest - length rest))%nat with (S (length x)) by lia. cbn [drop].
      by rewrite drop_app_length.
    + rewrite decide_False by lia. by rewrite decide_False by lia.
  - repeat case_decide; done || lia.
Qed.

Lemma rfc_octets_eq (huffman : bool) len F :
  bytes F -> 0 <= len ->
  (if huffman then spec_huff 0 len [] F else spec_raw len [] F) = rfc_octets huffman len F.
Proof.
  intros HF Hl. unfold rfc_octets. destruct huffman.
  - unfold spec_huff. set (str := take (Z.to_nat len) F).
    assert (bytes str) as Hb by (by apply Forall_take).
    pose proof (huff_decode_run 0 str (bool_decide (len <= Z.of_nat (length F))) ltac:(by_decide) Hb) as H.
    change (state_path 0) with (@nil bool) in H.
    assert (str = [] -> bit_run [] (bytes_bits str) = Some ([], [])) as He by (by intros ->).
    destruct (bit_run [] (bytes_bits str)) as [[p o]|].
    + assert (bool_decide (str = []) || padding_ok p = forallb id p) as Hp.
      { destruct (decide (str = [])) as [H0|H0]; [|by rewrite bool_decide_false].
        rewrite bool_decide_true by done. by injection (He H0) as -> _. }
      destruct H as (s & _ & _ & ->).
      destruct (decide (len <= Z.of_nat (length F))) as [H1|H1];
        [rewrite (bool_decide_true (len <= _)) by done|rewrite (bool_decide_false (len <= _)) by done].
      * rewrite (bool_decide_false (Z.of_nat (length F) < len)) by lia. rewrite Hp.
        destruct (forallb id p); cbv beta iota.
        -- rewrite decide_False by tauto. by rewrite decide_False by lia.
        -- by rewrite decide_True by done.
      * rewrite bool_decide_true by lia. rewrite decide_False by tauto. by rewrite decide_True by lia.
    + destruct (ngx_http_huff_decode _ _ _) as [[rc ?] out]. cbn [fst] in H. subst rc.
      by rewrite decide_True by done.
  - unfold spec_raw. case_decide; [by rewrite bool_decide_true|by rewrite bool_decide_false].
Qed.

Lemma rfc_int_suffix bits F v F' : rfc_int bits F = Ok (v, F') -> bytes F -> bytes F' /\ (0 <= bits -> 0 <= v).
Proof.
  unfold rfc_int. destruct F as [|first p]; [done|]. intros H HF.
  apply List.Forall_cons_iff in HF. destruct HF as [_ Hp].
  assert (forall w rest, octet_groups p = Some (w, rest) -> 0 <= w /\ bytes rest) as Hg.
  { clear H. induction Hp as [|o p Ho Hp IH]; [done|]. intros w rest. cbn [octet_groups].
    pose proof (Z.mod_pos_bound o 128 ltac:(lia)). destruct (Z.testbit o 7).
    - destruct (octet_groups p) as [[x r]|]; [|done]. cbn. intros [= <- <-].
      destruct (IH x r eq_refl). split; [lia|done].
    - intros [= <- <-]. split; [lia|done]. }
  case_decide.
  - injection H as <- <-. split; [done|]. intros Hb. apply Z.mod_pos_bound, Z.pow_pos_nonneg; lia.
  - destruct (octet_groups p) as [[w rest]|]; [|by case_decide]. case_decide; [|done].
    injection H as <- <-. destruct (Hg w rest eq_refl). split; [done|]. intros Hb.
    pose proof (Z.pow_pos_nonneg 2 bits ltac:(lia) Hb). lia.
Qed.

Lemma rfc_octets_suffix huffman len F x F' : rfc_octets huffman len F = Ok (x, F') -> bytes F -> bytes F'.
Proof.
  unfold rfc_octets. intros H HF. assert (bytes (drop (Z.to_nat len) F)) as Hd by (by apply Forall_drop).
  destruct huffman; [destruct (bit_run _ _) as [[p o]|]; [|done]|]; case_bool_decide; try done;
    [destruct (forallb id p)|]; try done; by injection H as _ <-.
Qed.

Section RfcProofs.

Context {client : Type} (deliver : header -> client -> client * verdict) (buffers_size : Z).

Implicit Types (d : dec (client := client)).

Lemma rfc_string_eq idx d F : bytes F -> spec_string buffers_size idx d F = rfc_string buffers_size idx d F.
Proof.
  intros HF. unfold spec_string, rfc_string. destruct F as [|ch F0]; [done|].
  rewrite rfc_int_eq by done || lia. apply List.Forall_cons_iff in HF as HF'. destruct HF' as [Hc _].
  assert (Z.testbit ch 7 = bool_decide (Z.shiftr ch 7 <> 0)) as -> by byte_sweep ch Hc.
  destruct (rfc_int 7 (ch :: F0)) as [[len next]|e] eqn:E; [|done]. cbn [bind].
  apply rfc_int_suffix in E; [|done]. destruct E as [Hn Hv].
  case_decide; [done|]. destruct (skips _ _); [done|].
  rewrite <- rfc_octets_eq by (tauto || lia).
  destruct (decide (Z.shiftr ch 7 <> 0)); [by rewrite bool_decide_true|by rewrite bool_decide_false].
Qed.

Lemma rfc_string_suffix idx d F x d' F' : rfc_string buffers_size idx d F = Ok (x, d', F') -> bytes F -> bytes F'.
Proof.
  unfold rfc_string. intros ([len next] & E & H)%bind_ok HF. apply rfc_int_suffix in E; [|done].
  case_decide; [done|]. destruct (skips _ _).
  - case_decide; [done|]. injection H as _ _ <-. apply Forall_drop. tauto.
  - apply bind_ok in H. destruct H as ([y F1] & H & [= _ _ <-]).
    eapply rfc_octets_suffix; [exact H|tauto].
Qed.

Lemma rfc_value_eq idx name d F :
  bytes F -> spec_value deliver buffers_size idx name d F = rfc_literal deliver buffers_size idx (Some name) d F.
Proof. intros HF. unfold spec_value, rfc_literal. cbn [bind]. by rewrite rfc_string_eq. Qed.

Lemma rfc_name_eq idx d F :
  bytes F -> spec_name deliver buffers_size idx d F = rfc_literal deliver buffers_size idx None d F.
Proof.
  intros HF. unfold spec_name, rfc_literal. rewrite rfc_string_eq by done.
  destruct (rfc_string buffers_size idx d F) as [[[name d1] F1]|e] eqn:E; [|done]. cbn [bind].
  apply rfc_string_suffix in E; [|done]. case_decide; [done|]. by apply rfc_value_eq.
Qed.

Lemma rfc_literal_suffix idx name d F d' F' :
  rfc_literal deliver buffers_size idx name d F = Ok (d', F') -> bytes F -> bytes F'.
Proof.
  unfold rfc_literal. intros H HF. apply bind_ok in H. destruct H as ([[n d1] F1] & H1 & H).
  assert (bytes F1) as HF1.
  { destruct name; [by injection H1 as _ _ <-|]. apply bind_ok in H1. destruct H1 as ([[y d2] F2] & H1 & H2).
    case_decide; [done|]. injection H2 as _ _ <-. by eapply rfc_string_suffix. }
  apply bind_ok in H. destruct H as ([[v d2] F2] & H2 & H). apply bind_ok in H.
  destruct H as (d3 & _ & [= _ <-]). by eapply rfc_string_suffix.
Qed.

Lemma rfc_field_eq d F : bytes F -> spec_field deliver buffers_size d F = rfc_field deliver buffers_size d F.
Proof.
  intros HF. destruct F as [|ch F0]; [done|]. unfold spec_field, rfc_field.
  apply List.Forall_cons_iff in HF as HF'. destruct HF' as [Hc _].
  assert (field_kind ch = match representation_of ch with
    | Indexed => (true, false, false, 7) | Literal true => (false, false, true, 6)
    | SizeUpdate => (false, true, false, 5) | Literal false => (false, false, false, 4) end) as ->.
  { unfold field_kind, representation_of. byte_sweep ch Hc. }
  destruct (representation_of ch) as [|[]|]; cbn [prefix_bits]; rewrite rfc_int_eq by (done || lia);
    destruct (rfc_int _ (ch :: F0)) as [[n F1]|e] eqn:E; try done; cbn [bind].
  - case_decide; [apply rfc_name_eq|destruct (lookup_header _ _ _ _); [|done]; apply rfc_value_eq];
      by apply (rfc_int_suffix _ _ _ _ E).
  - case_decide; [apply rfc_name_eq|destruct (lookup_header _ _ _ _); [|done]; apply rfc_value_eq];
      by apply (rfc_int_suffix _ _ _ _ E).
Qed.

Lemma rfc_field_suffix d F d' F' : rfc_field deliver buffers_size d F = Ok (d', F') -> bytes F -> bytes F'.
Proof.
  unfold rfc_field. intros ([n F1] & E & H)%bind_ok HF. apply rfc_int_suffix in E; [|done]. destruct E as [HF1 _].
  set (r := match F with [] => _ | _ => _ end) in H. clearbody r. destruct r as [|i|].
  - destruct (lookup_header _ _ _ _); [|done]. apply bind_ok in H. by destruct H as (d1 & _ & [= _ <-]).
  - case_decide; [|destruct (lookup_header _ _ _ _); [|done]]; by eapply rfc_literal_suffix.
  - destruct (resize_table _ _); [|done]. by injection H as _ <-.
Qed.

Lemma rfc_fields_eq n : forall d F,
  bytes F -> spec_fields deliver buffers_size n d F = rfc_fields deliver buffers_size n d F.
Proof.
  induction n as [|n IH]; intros d F HF; [by destruct F|]. destruct F as [|c F0]; [done|].
  cbn [spec_fields rfc_fields]. rewrite rfc_field_eq by done.
  destruct (rfc_field deliver buffers_size d (c :: F0)) as [[d1 F1]|e] eqn:E; [|done]. cbn [bind].
  apply IH. by eapply rfc_field_suffix.
Qed.

Lemma rfc_block_eq d F : bytes F -> spec_block deliver buffers_size d F = rfc_block deliver buffers_size d F.
Proof. apply rfc_fields_eq. Qed.

End RfcProofs.

Lemma wire_bytes sid len pad e W F rest : wire sid len pad e W F rest -> bytes W -> bytes F.
Proof.
  induction 1 as [len pad F rest Hl Hp|len pad f padding len2 e2 bs W F rest Hl Hp Hh H IH]; intros HW.
  - by apply Forall_app in HW as [? _].
  - apply Forall_app in HW as [Hf HW]. apply Forall_app in HW as [_ HW]. apply Forall_app in HW as [_ HW].
    apply Forall_app. split; [done|by apply IH].
Qed.

(** ** The meaning of a state *)

Section Meaning.

Context {client : Type} (deliver : header -> client -> client * verdict) (buffers_size : Z).

Implicit Types (s : state (client := client)) (d : dec (client := client)).

Definition dec_of s (t : table) : dec := Dec t (header_limit s) (stream s) (field s).

(** The rest of the block after a string. *)
Definition after_string s d (x F : list Z) : result dec :=
  if parse_name s then
    if decide (x = []) then Err (Code NGX_HTTP_V2_PROTOCOL_ERROR)
    else bind (spec_value deliver buffers_size (index s) x d F) (fun '(d, F) => spec_block deliver buffers_size d F)
  else
    bind (spec_header deliver (index s) (fst (st_header s), x) d) (fun d => spec_block deliver buffers_size d F).

(** What is left to decode when the handler is called and [F] is left of the block. *)
Definition meaning (hd : handler) s (t : table) (F : list Z) : result dec :=
  let d := dec_of s t in
  match hd with
  | header_block => spec_block deliver buffers_size d F
  | field_len => bind (spec_string buffers_size (index s) d F) (fun '(x, d, F) => after_string s d x F)
  | field_huff =>
      bind (spec_huff (field_state s) (field_rest s) (field s) F) (fun '(x, F) => after_string s (set_last x d) x F)
  | field_raw => bind (spec_raw (field_rest s) (field s) F) (fun '(x, F) => after_string s (set_last x d) x F)
  | field_skip =>
      if decide (Z.of_nat (length F) < field_rest s) then Err (Code NGX_HTTP_V2_SIZE_ERROR)
      else after_string s d (field s) (drop (Z.to_nat (field_rest s)) F)
  | process_header =>
      if parse_value s then after_string s d (field s) F
      else bind (spec_header deliver (index s) (st_header s) d) (fun d => spec_block deliver buffers_size d F)
  | header_complete => spec_block deliver buffers_size d F
  end.

(** The state of the decoder of strings: the block has room for all that the rest of the string can give. *)
Definition string_ok (hd : handler) s : Prop :=
  match hd with
  | field_huff =>
      0 <= field_rest s /\ is_byte (field_state s) /\ skips (index s) (stream s) = false /\
      exists total, (5 * Z.of_nat (length (field s)) + Z.of_nat (length (state_path (field_state s))) + 8 * field_rest s <= 8 * total) /\
        alloc s = total * 8 / 5 + 1
  | field_raw => field_state s = 0 /\ 0 <= field_rest s /\ skips (index s) (stream s) = false /\
      alloc s = Z.of_nat (length (field s)) + field_rest s + 1
  | field_skip => field_state s = 0 /\ 0 <= field_rest s /\ skips (index s) (stream s) = true
  | _ => field_state s = 0
  end.

(** The marks of the parser; [index] may be set already when a field is read for the second time. *)
Definition marks_ok (hd : handler) s (F : list Z) : Prop :=
  match hd with
  | header_block => parse_name s = false /\ parse_value s = false /\ F <> [] /\
      (index s = true -> exists ch F', F = ch :: F' /\ snd (fst (field_kind ch)) = true)
  | header_complete => parse_name s = false /\ parse_value s = false /\ index s = false
  | process_header => parse_name s = true -> parse_value s = true
  | _ => parse_value s = true
  end.

(** The input is [inp], [fut] is to come, [F] is the rest of the block and [rest] comes after it. *)
Record situation (hd : handler) s (t : table) (inp fut F rest : list Z) : Prop := Situation {
  sit_wire : wire (st_sid s) (st_length s) (st_padding s) (end_headers s) (inp ++ fut) F rest;
  sit_bytes : bytes (inp ++ fut);
  sit_tables : stands (tables s) t;
  sit_string : string_ok hd s;
  sit_marks : marks_ok hd s F
}.

Definition rank (hd : handler) : nat :=
  match hd with
  | header_block => 1
  | field_len | header_complete => 2
  | process_header => 3
  | field_huff | field_raw | field_skip => 4
  end.

Definition work (hd : handler) (inp : list Z) : nat := 8 * length inp + rank hd.

Definition error_code (e : error) (err : Z) : Prop :=
  match e with Code c => err = c | LongInteger => err = NGX_HTTP_V2_SIZE_ERROR \/ err = NGX_HTTP_V2_COMP_ERROR end.

(** Between two blocks. *)
Definition ready s : Prop := parse_name s = false /\ parse_value s = false /\ index s = false /\ field_state s = 0.

(** An outcome keeps the meaning. *)
Definition outcome_ok (m : result dec) (w : nat) (fut rest : list Z) (o : outcome) : Prop :=
  match o with
  | Call hd s inp | Return hd s inp =>
      exists t F, situation hd s t inp fut F rest /\ m = meaning hd s t F /\ (work hd inp < w)%nat
  | Save hd s inp => exists t F, situation hd s t inp fut F rest /\ m = meaning hd s t F /\ fut <> []
  | Fail err => exists e, m = Err e /\ error_code e err
  | Complete s inp => exists t, m = Ok (dec_of s t) /\ stands (tables s) t /\ ready s /\ inp ++ fut = rest
  | Undefined => False
  end.

Lemma wire_prepend sid len pad e W F rest f : wire sid len pad e W F rest ->
  wire sid (Z.of_nat (length f) + len) pad e (f ++ W) (f ++ F) rest.
Proof.
  intros H. destruct H as [len pad F rest Hl Hp|len pad g padding len2 e2 bs W F rest Hl Hp Hh H].
  - rewrite app_assoc. apply wire_last; [rewrite length_app; lia|done].
  - rewrite !(app_assoc f). eapply wire_more; [rewrite length_app; lia|done..].
Qed.

Lemma save_ok m w hd s t inp fut F rest : situation hd s t inp fut F rest -> m = meaning hd s t F -> fut <> [] ->
  (length inp <= 16)%nat -> outcome_ok m w fut rest (ngx_http_v2_state_save s inp hd).
Proof.
  intros H Hm Hf Hl. unfold ngx_http_v2_state_save, NGX_HTTP_V2_STATE_BUFFER_SIZE. rewrite decide_False by lia. by exists t, F.
Qed.

(** Only the frame of the state changes. *)
Lemma meaning_frame hd s t F len pad fl : meaning hd (set_frame len pad fl s) t F = meaning hd s t F.
Proof. done. Qed.

Lemma situation_frame hd s t inp fut F rest len pad fl inp' : situation hd s t inp fut F rest ->
  wire (st_sid s) len pad (bool_decide (Z.land fl NGX_HTTP_V2_END_HEADERS_FLAG <> 0)) (inp' ++ fut) F rest -> bytes inp' ->
  situation hd (set_frame len pad fl s) t inp' fut F rest.
Proof.
  intros [H1 H2 H3 H4 H5] Hw Hb. split; try done. apply Forall_app in H2 as [_ H2]. by apply Forall_app.
Qed.

Lemma end_headers_or s fl : end_headers s = false ->
  bool_decide (Z.land (Z.lor (st_flags s) fl) NGX_HTTP_V2_END_HEADERS_FLAG <> 0) = bool_decide (Z.land fl NGX_HTTP_V2_END_HEADERS_FLAG <> 0).
Proof.
  unfold end_headers. intros H%bool_decide_eq_false. rewrite Z.land_lor_distr_l.
  destruct (decide (Z.land (st_flags s) NGX_HTTP_V2_END_HEADERS_FLAG = 0)) as [->|]; [by rewrite Z.lor_0_l|tauto].
Qed.

(** The padding that is there is dropped. *)
Lemma skip_padding_ok (f padding inp fut r : list Z) : inp ++ fut = f ++ padding ++ r ->
  let n := length f in
  let skip := if decide (Z.of_nat (length padding) <> 0 /\ Z.of_nat (length inp) > Z.of_nat n)
    then Z.min (Z.of_nat (length padding)) (Z.of_nat (length inp) - Z.of_nat n) else 0 in
  let inp' := take n inp ++ drop (n + Z.to_nat skip) inp in
  0 <= skip <= Z.of_nat (length padding) /\ inp' ++ fut = f ++ drop (Z.to_nat skip) padding ++ r /\
  (drop (Z.to_nat skip) padding <> [] -> (length inp' <= n)%nat) /\ (length inp' <= length inp)%nat /\ (bytes inp -> bytes inp').
Proof.
  intros E n skip inp'.
  assert (0 <= skip <= Z.of_nat (length padding) /\ inp' ++ fut = f ++ drop (Z.to_nat skip) padding ++ r /\
    (drop (Z.to_nat skip) padding <> [] -> (length inp' <= n)%nat)) as (H1 & H2 & H3).
  { destruct (decide (length inp <= n)%nat) as [Hi|Hi].
    - assert (skip = 0) as Es by (subst skip; rewrite decide_False by lia; done). subst inp'. rewrite Es. cbn [Z.to_nat drop].
      rewrite Nat.add_0_r, take_drop. split; [lia|]. split; [done|]. intros _. lia.
    - assert (inp = f ++ drop n inp) as Ei.
      { rewrite <- (take_drop n inp) at 1. f_equal. apply (f_equal (take n)) in E. rewrite take_app_le in E by lia. rewrite E. by apply take_app_length'. }
      set (q := drop n inp) in *. rewrite Ei, <- app_assoc in E. apply app_inv_head in E.
      assert (length inp = n + length q)%nat as Hl by (rewrite Ei, length_app; done).
      assert (skip = Z.min (Z.of_nat (length padding)) (Z.of_nat (length q))) as Es.
      { subst skip. case_decide; lia. }
      assert (inp' = f ++ drop (Z.to_nat skip) q) as ->.
      { subst inp'. rewrite <- drop_drop. fold q. f_equal. rewrite Ei. apply take_app_length'. done. }
      split; [lia|]. split.
      + rewrite <- app_assoc. f_equal. rewrite <- !drop_app_le by lia. by rewrite E.
      + intros Hne. rewrite length_app, length_drop. assert (skip <> Z.of_nat (length padding)); [|lia].
        intros Ek. apply Hne. apply drop_ge. lia. }
  split; [done|]. split; [done|]. split; [done|]. subst inp'. split.
  - rewrite length_app, length_take, length_drop. lia.
  - intros Hb. apply Forall_app. split; [by apply Forall_take|by apply Forall_drop].
Qed.

(** The next frame. *)
Lemma continuation_ok hd s t inp fut F rest : situation hd s t inp fut F rest -> end_headers s = false -> st_length s < 4 ->
  outcome_ok (meaning hd s t F) (work hd inp) fut rest (ngx_http_v2_handle_continuation s inp hd).
Proof.
  intros H He Hl. pose proof H as [H1 H2 _ _ _]. rewrite He in H1.
  inversion H1 as [|len pad f padding len2 e2 bs W F1 rest1 Hf Hp Hh Hw Elen Epad EW EF]; subst.
  unfold ngx_http_v2_handle_continuation. rewrite <- Hf, <- Hp, Nat2Z.id in *.
  symmetry in EF. destruct (skip_padding_ok f padding inp fut (bs ++ W) EF) as (K1 & K2 & K3 & K4 & K5).
  set (skip := if decide _ then _ else 0) in *. set (inp' := take (length f) inp ++ drop _ inp) in *.
  apply Forall_app in H2 as [H2 _]. specialize (K5 H2). clearbody skip inp'.
  assert (length bs = 9%nat) as Hbs by (destruct Hh as (? & ? & ? & ? & ? & ? & ? & ? & ? & -> & _); done).
  assert (wire (st_sid s) (Z.of_nat (length f)) (Z.of_nat (length padding) - skip)
    (bool_decide (Z.land (st_flags s) NGX_HTTP_V2_END_HEADERS_FLAG <> 0)) (inp' ++ fut) (f ++ F1) rest) as Hw1.
  { unfold end_headers in He. rewrite He, K2. eapply wire_more; [done|rewrite length_drop; lia|done|done]. }
  pose proof (situation_frame _ _ _ _ _ _ _ _ _ _ _ H Hw1 K5) as H'.
  unfold NGX_HTTP_V2_FRAME_HEADER_SIZE.
  destruct (decide (Z.of_nat (length inp') < Z.of_nat (length f) + 9)) as [Hshort|Hshort].
  - apply (save_ok _ _ _ _ t _ _ (f ++ F1)); [exact H'|done| |lia].
    intros ->. rewrite app_nil_r in K2. apply (f_equal length) in K2. rewrite !length_app in K2. lia.
  - assert (drop (Z.to_nat skip) padding = []) as Hpad.
    { destruct (drop (Z.to_nat skip) padding); [done|]. specialize (K3 ltac:(done)). lia. }
    rewrite Hpad in K2. cbn [app] in K2.
    assert (exists W1, inp' = f ++ bs ++ W1 /\ W = W1 ++ fut) as (W1 & -> & ->).
    { exists (drop (length f + 9) inp'). assert (inp' = (f ++ bs) ++ drop (length f + 9) inp') as Ei.
      { rewrite <- (take_drop (length f + 9) inp') at 1. f_equal. apply (f_equal (take (length f + 9))) in K2.
        rewrite take_app_le in K2 by lia. rewrite K2, app_assoc, take_app_length'; [done|]. rewrite length_app. lia. }
      rewrite <- app_assoc in Ei. split; [exact Ei|]. rewrite Ei in K2. rewrite <- !app_assoc in K2.
      apply app_inv_head, app_inv_head in K2. done. }
    rewrite drop_app_length, take_app_length. destruct Hh as (a & b & c & d & fl & x & y & z & i & -> & T1 & T2 & T3 & T4). cbn [app].
    rewrite decide_False by (rewrite T1; tauto). rewrite decide_False by (cbn [st_sid set_frame]; congruence).
    cbn [outcome_ok]. exists t, (f ++ F1). split; [|split; [done|]].
    + change (set_length ?L (set_frame ?a ?b ?c ?s0)) with (set_frame L b c s0).
      eapply situation_frame; [exact H'| |].
      * cbn [st_sid set_frame st_padding st_flags]. rewrite (end_headers_or s fl He), <- T3, T2, <- app_assoc. 
        replace (Z.of_nat (length padding) - skip) with 0; [by apply wire_prepend|].
        apply (f_equal length) in Hpad. rewrite length_drop in Hpad. cbn in Hpad. lia.
      * apply Forall_app in K5 as [Kf K5]. apply Forall_app. split; [done|]. by repeat apply Forall_cons in K5 as [_ K5].
    + unfold work. rewrite !length_app in *. cbn [length] in *. lia.
Qed.

Lemma spec_int_shorter bits F v F' : spec_int bits F = Ok (v, F') -> (length F' < length F)%nat.
Proof.
  destruct F as [|c p]; [done|]. cbn [spec_int]. case_decide; [intros [= _ <-]; cbn; lia|].
  destruct (int_octets _ _ _ _) as [[v' n]|] eqn:E; [|by case_decide].
  apply int_octets_length in E. intros [= _ <-]. rewrite length_drop. cbn [length]. lia.
Qed.

Lemma spec_raw_shorter len pre F x F' : spec_raw len pre F = Ok (x, F') -> (length F' <= length F)%nat.
Proof. unfold spec_raw. case_decide; [done|]. intros [= _ <-]. rewrite length_drop. lia. Qed.

Lemma spec_huff_shorter fs len pre F x F' : spec_huff fs len pre F = Ok (x, F') -> (length F' <= length F)%nat.
Proof.
  unfold spec_huff. destruct (ngx_http_huff_decode _ _ _) as [[rc ?] out]. case_decide; [done|]. case_decide; [done|].
  intros [= _ <-]. rewrite length_drop. lia.
Qed.

Lemma spec_string_shorter idx d F x d' F' : spec_string buffers_size idx d F = Ok (x, d', F') -> (length F' < length F)%nat.
Proof.
  unfold spec_string. destruct F as [|c p]; [done|]. intros ([len F1] & E1%spec_int_shorter & E)%bind_ok.
  case_decide; [done|]. destruct (skips _ _).
  - case_decide; [done|]. injection E as _ _ <-. rewrite length_drop. lia.
  - apply bind_ok in E as ([y F2] & E2 & E3). injection E3 as _ _ <-.
    case_decide; [apply spec_huff_shorter in E2|apply spec_raw_shorter in E2]; lia.
Qed.

Lemma spec_value_shorter idx name d F d' F' : spec_value deliver buffers_size idx name d F = Ok (d', F') -> (length F' < length F)%nat.
Proof.
  unfold spec_value. intros ([[v d1] F1] & E1%spec_string_shorter & E)%bind_ok. apply bind_ok in E as (d2 & _ & E). by injection E as _ <-.
Qed.

Lemma spec_field_shorter d F d' F' : spec_field deliver buffers_size d F = Ok (d', F') -> (length F' < length F)%nat.
Proof.
  unfold spec_field. destruct F as [|c p]; [done|]. destruct (field_kind c) as [[[indexed upd] ins] bits].
  intros ([v F1] & E1%spec_int_shorter & E)%bind_ok.
  destruct indexed.
  { destruct (lookup_header _ _ _ _); [|done]. apply bind_ok in E as (? & _ & E). by injection E as _ <-. }
  destruct upd.
  { destruct (resize_table _ _); [|done]. by injection E as _ <-. }
  case_decide.
  - apply bind_ok in E as ([[n d1] F2] & E2%spec_string_shorter & E3). case_decide; [done|]. apply spec_value_shorter in E3. lia.
  - destruct (lookup_header _ _ _ _); [|done]. apply spec_value_shorter in E. lia.
Qed.

Lemma spec_fields_fuel n : forall d F, (length F <= n)%nat -> spec_fields deliver buffers_size n d F = spec_block deliver buffers_size d F.
Proof.
  unfold spec_block. induction n as [n IH] using lt_wf_ind. intros d F Hl. destruct F as [|c p]; [by destruct n|].
  destruct n as [|n]; [cbn in Hl; lia|]. cbn [spec_fields length].
  destruct (spec_field deliver buffers_size d (c :: p)) as [[d' F']|e] eqn:E; [|done]. cbn [bind].
  apply spec_field_shorter in E. cbn [length] in *.
  transitivity (spec_fields deliver buffers_size (length F') d' F'); [|symmetry]; apply IH; lia.
Qed.

Lemma spec_block_cons d F : F <> [] ->
  spec_block deliver buffers_size d F = bind (spec_field deliver buffers_size d F) (fun '(d, F) => spec_block deliver buffers_size d F).
Proof.
  intros HF. unfold spec_block at 1. destruct F as [|c p]; [done|]. cbn [spec_fields length].
  destruct (spec_field deliver buffers_size d (c :: p)) as [[d' F']|e] eqn:E; [|done]. cbn [bind].
  apply spec_field_shorter in E. apply spec_fields_fuel. cbn in E. lia.
Qed.

(** A name with an index does not depend on the header before it. *)
Lemma lookup_name t i hdr : fst <$> lookup_header t i true hdr = fst <$> lookup_header t i true ([], []).
Proof.
  unfold lookup_header. case_decide; [done|]. destruct (ngx_http_v2_static_table !! _); [done|]. by destruct (dyn t !! _).
Qed.

Lemma lookup_whole t i hdr : lookup_header t i false hdr = lookup_header t i false ([], []).
Proof. unfold lookup_header. case_decide; [done|]. destruct (ngx_http_v2_static_table !! _); [done|]. by destruct (dyn t !! _). Qed.

(** An error of an integer. *)
Lemma int_failed_ok hd s t bits inp fut F rest r len : situation hd s t inp fut F rest ->
  int_agrees (st_sid s) (st_padding s) (end_headers s) bits len inp fut F rest (Some r) -> (forall v i l, r <> Int v i l) ->
  (forall e, spec_int bits F = Err e -> meaning hd s t F = Err e) ->
  outcome_ok (meaning hd s t F) (work hd inp) fut rest (int_failed r s inp hd).
Proof.
  intros H Hr Hn Hm. destruct r as [v i l| | |]; cbn [int_agrees int_failed] in *.
  - by destruct (Hn v i l).
  - destruct Hr as [Hr|Hr]; rewrite (Hm _ Hr); cbn [outcome_ok]; eexists; (split; [done|]); [done|by left].
  - rewrite (Hm _ Hr). eexists. split; [done|]. by right.
  - destruct Hr as [Hr1 Hr2]. eapply save_ok; [exact H|done|done|lia].
Qed.

Lemma in_frame_cases s : in_frame s = false -> end_headers s = false /\ st_length s < 4.
Proof. unfold in_frame. intros [H1 H2%bool_decide_eq_false]%orb_false_iff. unfold NGX_HTTP_V2_INT_OCTETS in H2. split; [done|lia]. Qed.

Lemma in_frame_true s : in_frame s = true -> end_headers s = true \/ 4 <= st_length s.
Proof. unfold in_frame. intros [H|H%bool_decide_eq_true]%orb_true_iff; [by left|]. unfold NGX_HTTP_V2_INT_OCTETS in H. right. lia. Qed.

Lemma field_kind_bits ch : 0 <= snd (field_kind ch) /\
  (fst (fst (fst (field_kind ch))) = true -> snd (fst (field_kind ch)) = false) /\
  (snd (fst (fst (field_kind ch))) = true -> snd (fst (field_kind ch)) = false).
Proof. unfold field_kind. repeat case_decide; cbn; repeat split; try lia; done. Qed.
(** *** Strings *)

Lemma outcome_mono m w w' fut rest o : outcome_ok m w fut rest o -> (w <= w')%nat -> outcome_ok m w' fut rest o.
Proof. intros H Hw. destruct o; cbn in *; try done; destruct H as (t & F & H1 & H2 & H3); exists t, F; (split; [done|]; split; [done|lia]). Qed.

Lemma spec_huff_nil fs len pre : 0 < len -> spec_huff fs len pre [] = Err (Code NGX_HTTP_V2_SIZE_ERROR).
Proof.
  intros H. unfold spec_huff. rewrite take_nil, bool_decide_false by (cbn [length]; lia). unfold ngx_http_huff_decode. cbn [huff_decode_loop].
  rewrite (decide_False (P := NGX_OK <> NGX_OK)) by tauto. cbv beta iota. rewrite (decide_False (P := NGX_OK <> NGX_OK)) by tauto.
  by rewrite decide_True by (cbn [length]; lia).
Qed.

(** A string that is cut by the end of the block. *)
Lemma meaning_cut hd s t : rank hd = 4%nat -> 0 < field_rest s -> meaning hd s t [] = Err (Code NGX_HTTP_V2_SIZE_ERROR).
Proof.
  intros Hr H. destruct hd; try done; cbn [meaning].
  - by rewrite spec_huff_nil.
  - unfold spec_raw. by rewrite decide_True by (cbn [length]; lia).
  - by rewrite decide_True by (cbn [length]; lia).
Qed.

Lemma field_next_ok hd m s t inp fut F rest : situation hd s t inp fut F rest -> rank hd = 4%nat ->
  (field_rest s = 0 -> field_state s = 0 /\ m = after_string s (dec_of s t) (field s) F) ->
  (field_rest s <> 0 -> m = meaning hd s t F /\ 0 <= field_rest s /\ (inp = [] \/ st_length s = 0)) ->
  outcome_ok m (work hd inp) fut rest (field_next s inp hd).
Proof.
  intros H Hr H0 H1. pose proof H as [W B T S M]. unfold field_next. 
  assert (parse_value s = true) as Hv by (destruct hd; done).
  destruct (decide (field_rest s = 0)) as [E0|E0].
  - destruct (H0 E0) as [Es ->]. exists t, F. split; [|split].
    + split; [done|done|done|exact Es|]. intros _. exact Hv.
    + cbn [meaning]. by rewrite Hv.
    + unfold work. rewrite Hr. cbn [rank]. lia.
  - destruct (H1 E0) as (-> & Hp & Hi). destruct (decide (st_length s <> 0)) as [El|El].
    + destruct Hi as [->|Hi]; [|done]. eapply save_ok; [exact H|done| |cbn; lia]. intros ->.
      apply wire_len in W as (Hl & _ & f & F' & W' & _ & EW & Hf & _). cbn in EW. destruct f; [cbn in Hf; lia|done].
    + destruct (end_headers s) eqn:Ee.
      * apply last_frame in W as [W _]. assert (F = []) as -> by (apply length_zero_iff_nil; lia).
        rewrite (meaning_cut hd s t Hr) by lia. by eexists.
      * apply continuation_ok; [done|done|lia].
Qed.

(** The bytes of the string that are there. *)
Lemma field_taken hd s t inp fut F rest : situation hd s t inp fut F rest -> 0 <= field_rest s ->
  exists x inp' F', inp = x ++ inp' /\ F = x ++ F' /\ field_size s inp = Z.of_nat (length x) /\ bytes x /\ bytes (inp' ++ fut) /\
    wire (st_sid s) (st_length s - Z.of_nat (length x)) (st_padding s) (end_headers s) (inp' ++ fut) F' rest /\
    Z.of_nat (length x) <= field_rest s /\
    (Z.of_nat (length x) <> field_rest s -> inp' = [] \/ st_length s - Z.of_nat (length x) = 0).
Proof.
  intros [W B T S M] Hr. pose proof (wire_len _ _ _ _ _ _ _ W) as (Hl & _ & _).
  remember (field_size s inp) as n eqn:En. unfold field_size in En.
  destruct (wire_prefix _ _ _ _ _ _ _ _ n W ltac:(lia) ltac:(lia)) as (x & inp' & F' & -> & -> & Hx & W').
  exists x, inp', F'. rewrite <- app_assoc in B. apply Forall_app in B as [Bx B]. rewrite length_app in En. rewrite Hx.
  repeat (split; [done|]). split; [lia|]. intros Hne. 
  destruct inp'; [by left|right]. cbn [length] in En. lia.
Qed.

Lemma field_raw_ok s t inp fut F rest : situation field_raw s t inp fut F rest ->
  outcome_ok (meaning field_raw s t F) (work field_raw inp) fut rest (ngx_http_v2_state_field_raw s inp).
Proof.
  intros H. pose proof H as [_ _ T (S1 & S2 & S3 & S4) M].
  destruct (field_taken _ _ _ _ _ _ _ H S2) as (x & inp' & F' & -> & -> & En & Bx & B & W & Hx & Hi).
  unfold ngx_http_v2_state_field_raw. rewrite En, Nat2Z.id, take_app_length, drop_app_length.
  unfold in_alloc. cbn [alloc field set_rest set_length]. rewrite bool_decide_true by (rewrite length_app; lia). cbn [negb].
  eapply outcome_mono; [eapply (field_next_ok _ _ _ t inp' fut F' rest)|unfold work; rewrite length_app; lia].
  - split; [exact W|exact B|exact T| |exact M]. cbn. split; [done|]. split; [lia|]. split; [done|]. rewrite length_app. lia.
  - done.
  - cbn. intros E0. split; [done|]. rewrite spec_raw_part by lia. unfold spec_raw. rewrite decide_False by lia.
    rewrite E0. cbn [bind Z.to_nat]. by rewrite take_0, drop_0, app_nil_r.
  - cbn. intros E0. rewrite spec_raw_part by lia. split; [done|]. split; [lia|]. apply Hi. lia.
Qed.

Lemma field_skip_ok s t inp fut F rest : situation field_skip s t inp fut F rest ->
  outcome_ok (meaning field_skip s t F) (work field_skip inp) fut rest (ngx_http_v2_state_field_skip s inp).
Proof.
  intros H. pose proof H as [_ _ T (S1 & S2 & S3) M].
  destruct (field_taken _ _ _ _ _ _ _ H S2) as (x & inp' & F' & -> & -> & En & Bx & B & W & Hx & Hi).
  unfold ngx_http_v2_state_field_skip. rewrite En, Nat2Z.id, drop_app_length.
  eapply outcome_mono; [eapply (field_next_ok _ _ _ t inp' fut F' rest)|unfold work; rewrite length_app; lia].
  - split; [exact W|exact B|exact T| |exact M]. cbn. split; [done|]. split; [lia|]. done.
  - done.
  - cbn. intros E0. split; [done|]. rewrite length_app, decide_False by lia. rewrite drop_app_length' by lia. done.
  - cbn. intros E0. split; [|split; [lia|apply Hi; lia]]. rewrite length_app, drop_app_ge by lia.
    replace (Z.to_nat (field_rest s) - length x)%nat with (Z.to_nat (field_rest s - Z.of_nat (length x))) by lia.
    destruct (decide (Z.of_nat (length x + length F') < field_rest s)), (decide (Z.of_nat (length F') < _)); done || lia.
Qed.

Lemma huff_alloc (a p b q total : Z) : 5 * a + p <= 8 * total -> 0 <= p -> a < total * 8 / 5 + 1.
Proof. intros H Hp. assert (a <= total * 8 / 5); [|lia]. apply Z.div_le_lower_bound; lia. Qed.

Lemma field_huff_ok s t inp fut F rest : situation field_huff s t inp fut F rest ->
  outcome_ok (meaning field_huff s t F) (work field_huff inp) fut rest (ngx_http_v2_state_field_huff s inp).
Proof.
  intros H. pose proof H as [_ _ T (S1 & S2 & S3 & total & S4 & S5) M].
  destruct (field_taken _ _ _ _ _ _ _ H S1) as (x & inp' & F' & -> & -> & En & Bx & B & W & Hx & Hi).
  unfold ngx_http_v2_state_field_huff. rewrite En, Nat2Z.id, take_app_length, drop_app_length.
  cbn [field_state field_rest set_rest set_length alloc field]. cbn [meaning].
  pose proof (decode_room (field_state s) x (bool_decide (field_rest s - Z.of_nat (length x) = 0)) S2 Bx) as Hroom.
  pose proof (spec_huff_fail (field_state s) (field_rest s) (field s) x F' Hx) as Hfail.
  destruct (ngx_http_huff_decode _ _ _) as [[rc fs] out] eqn:Ed. destruct Hroom as [R1 R2]. cbn [fst] in Hfail.
  unfold in_alloc. cbn [alloc set_rest set_length]. rewrite bool_decide_true
    by (rewrite S5; eapply (huff_alloc _ 0 0 0); [rewrite length_app; lia|lia]). cbn [negb].
  destruct (decide (rc = NGX_OK)) as [->|Hrc].
  2: { rewrite Hfail by done. rewrite decide_True by done. by eexists. }
  rewrite decide_False by tauto. clear Hfail.
  eapply outcome_mono; [eapply (field_next_ok _ _ _ t inp' fut F' rest)|unfold work; rewrite length_app; lia].
  - split; [exact W|exact B|exact T| |exact M]. cbn [string_ok field_rest field_state index stream alloc field set_field set_rest set_length].
    split; [lia|]. split; [done|]. split; [done|]. exists total. split; [rewrite length_app; lia|done].
  - done.
  - cbn. intros E0. rewrite bool_decide_true in Ed by done. split; [by eapply huff_decode_last|].
    erewrite spec_huff_all; [|lia|exact Ed]. done.
  - cbn. intros E0. rewrite bool_decide_false in Ed by done. erewrite spec_huff_part; [|lia|exact Ed].
    split; [done|]. split; [lia|]. apply Hi. lia.
Qed.

(** *** The handlers *)

Lemma parse_int_bytes len inp prefix v inp' len' : ngx_http_v2_parse_int len inp prefix = Some (Int v inp' len') -> bytes inp -> bytes inp'.
Proof.
  unfold ngx_http_v2_parse_int. destruct inp as [|c p]; [done|]. intros E Hb. case_decide.
  - case_decide; [done|]. injection E as _ <- _. by apply Forall_cons in Hb as [_ Hb].
  - destruct (int_octets _ _ _ _) as [[v' n]|].
    + case_decide; [done|]. injection E as _ <- _. by apply Forall_drop.
    + by repeat case_decide.
Qed.

Lemma after_string_frame s s' d x F : parse_name s' = parse_name s -> index s' = index s -> fst (st_header s') = fst (st_header s) ->
  after_string s' d x F = after_string s d x F.
Proof. intros E1 E2 E3. unfold after_string. by rewrite E1, E2, E3. Qed.

(** The first byte of the block. *)
Lemma wire_first sid len pad e c inp fut F rest : wire sid len pad e ((c :: inp) ++ fut) F rest -> 0 < len ->
  exists F', F = c :: F'.
Proof.
  intros H Hl. destruct (wire_prefix _ _ _ _ _ _ _ _ 1 H ltac:(lia) ltac:(cbn; lia)) as (x & inp' & F' & E & -> & Hx & _).
  destruct x as [|b [|? ?]]; cbn [length] in Hx; [lia| |lia]. injection E as <- _. by exists F'.
Qed.

Lemma wire_more_comes sid len pad e fut F rest : wire sid len pad e fut F rest -> 0 < len -> fut <> [].
Proof.
  intros H Hl ->. apply wire_len in H as (_ & _ & f & F' & W' & _ & EW & Hf & _). destruct f; [cbn in Hf; lia|done].
Qed.

Lemma field_len_ok s t inp fut F rest : situation field_len s t inp fut F rest ->
  outcome_ok (meaning field_len s t F) (work field_len inp) fut rest (ngx_http_v2_state_field_len buffers_size s inp).
Proof.
  intros H. pose proof H as [W B T S M]. unfold ngx_http_v2_state_field_len.
  destruct (in_frame s) eqn:Ef; cbn [negb].
  2: { apply in_frame_cases in Ef as [E1 E2]. by apply continuation_ok. }
  apply in_frame_true in Ef. case_decide as Hl.
  { destruct Ef as [Ef|Ef]; [|lia]. rewrite Ef in W. apply last_frame in W as [W _].
    assert (F = []) as -> by (apply length_zero_iff_nil; lia). by eexists. }
  destruct inp as [|ch inp].
  { eapply save_ok; [exact H|done| |cbn; lia]. eapply wire_more_comes; [exact W|lia]. }
  destruct (wire_first _ _ _ _ _ _ _ _ _ W ltac:(lia)) as [F0 EF].
  apply Forall_app in B as [B Bf].
  pose proof (parse_int_ok _ _ _ _ 7 _ _ _ _ W ltac:(done) B Ef ltac:(lia)) as Hint.
  destruct (ngx_http_v2_parse_int _ _ _) as [r|] eqn:Ei; [|done].
  destruct r as [len inp' l| | |].
  2-4: eapply int_failed_ok; [exact H|exact Hint|done|]; intros e He; subst F; cbn [meaning spec_string]; by rewrite He.
  destruct Hint as (F' & Hs & W' & Hlt & Hpos).
  assert (bytes (inp' ++ fut)) as B' by (apply Forall_app; split; [by eapply parse_int_bytes|done]).
  assert (meaning field_len s t F =
    if decide (len > buffers_size) then Err (Code NGX_HTTP_V2_ENHANCE_YOUR_CALM)
    else if skips (index s) (stream s) then
      if decide (Z.of_nat (length F') < len) then Err (Code NGX_HTTP_V2_SIZE_ERROR)
      else after_string s (dec_of s t) (field s) (drop (Z.to_nat len) F')
    else bind (if decide (Z.shiftr ch 7 <> 0) then spec_huff 0 len [] F' else spec_raw len [] F')
      (fun '(x, F) => after_string s (set_last x (dec_of s t)) x F)) as ->.
  { subst F. cbn [meaning spec_string]. rewrite Hs. cbn [bind]. case_decide; [done|]. cbn [d_stream dec_of d_last].
    destruct (skips _ _); [by case_decide|]. by destruct (if decide _ then _ else _) as [[x F]|e]. }
  cbv zeta. case_decide; [by eexists|]. cbn [string_ok] in S. unfold work. cbn [rank]. set (L := inp') in *.
  destruct (skips (index s) (stream s)) eqn:Esk.
  - destruct (stream s) eqn:Estr; [done|]. destruct (index s) eqn:Eidx; [done|]. cbn [set_rest set_length stream index]. rewrite Estr, Eidx.
    exists t, F'. split; [|split; [done|unfold work; cbn [rank length] in *; lia]]. split; [exact W'|exact B'|exact T| |exact M].
    cbn. rewrite Estr, Eidx. done.
  - replace (match stream (set_rest len (set_length l s)) with Some _ => _ | None => _ end) with
      (Call (if decide (Z.shiftr ch 7 <> 0) then field_huff else field_raw)
        (set_field (field_state s) [] ((if decide (Z.shiftr ch 7 <> 0) then len * 8 / 5 else len) + 1) (set_rest len (set_length l s))) L).
    2: { unfold skips in Esk. cbn [set_rest set_length stream index].
         destruct (decide (Z.shiftr ch 7 <> 0)); [rewrite bool_decide_true by done|rewrite bool_decide_false by done]; by destruct (stream s), (index s). }
    exists t, F'. destruct (decide (Z.shiftr ch 7 <> 0)).
    + split; [|split].
      * split; [exact W'|exact B'|exact T| |exact M]. 
        cbn [string_ok field_rest field_state index stream alloc field set_field set_rest set_length]. rewrite S.
        split; [done|]. split; [done|]. split; [done|]. exists len. split; [|done].
        change (state_path 0) with (@nil bool). cbn [length]. lia.
      * cbn [meaning field_state field_rest field set_field set_rest set_length]. by rewrite S.
      * unfold work; cbn [rank length] in *; lia.
    + split; [|split; [done|unfold work; cbn [rank length] in *; lia]]. split; [exact W'|exact B'|exact T| |exact M].
      cbn. split; [done|]. split; [done|]. split; [done|]. lia.
Qed.

(** The ends of a header and of a block. *)
Lemma wire_comes sid len pad e fut F rest : wire sid len pad e fut F rest -> F <> [] -> fut <> [].
Proof.
  intros H HF ->. pose proof (wire_len _ _ _ _ _ _ _ H) as (_ & Hp & f & F' & W' & -> & EW & Hf & Ht & Hm).
  symmetry in EW. apply app_eq_nil in EW as [-> ->]. destruct e.
  - by destruct (Ht ltac:(done)) as [-> _].
  - cbn [length] in Hm. specialize (Hm ltac:(done)). lia.
Qed.

Lemma header_complete_ok s t inp fut F rest : situation header_complete s t inp fut F rest ->
  outcome_ok (meaning header_complete s t F) (work header_complete inp) fut rest (ngx_http_v2_state_header_complete s inp).
Proof.
  intros H. pose proof H as [W B T S (M1 & M2 & M3)]. unfold ngx_http_v2_state_header_complete. case_decide as Hl.
  - pose proof (wire_len _ _ _ _ _ _ _ W) as (Hl0 & _ & f & F' & W' & EF & EW & Hf & _).
    assert (F <> []) as HF by (intros ->; destruct f; [cbn in Hf; lia|done]).
    assert (situation header_block s t inp fut F rest) as H'.
    { split; [exact W|exact B|exact T|exact S|]. cbn. split; [done|]. split; [done|]. split; [exact HF|]. by rewrite M3. }
    destruct inp as [|c inp].
    + eapply save_ok; [exact H'|done| |cbn; lia]. eapply wire_comes; [exact W|exact HF].
    + exists t, F. split; [exact H'|]. split; [done|]. unfold work. cbn [rank]. lia.
  - destruct (end_headers s) eqn:Ee; cbn [negb].
    + apply last_frame in W as [W E]. assert (F = []) as -> by (apply length_zero_iff_nil; lia). by exists t.
    + apply continuation_ok; [done|done|lia].
Qed.

Lemma process_header_ok s t inp fut F rest : situation process_header s t inp fut F rest ->
  outcome_ok (meaning process_header s t F) (work process_header inp) fut rest (ngx_http_v2_state_process_header deliver s inp).
Proof.
  intros H. pose proof H as [W B T S M]. unfold ngx_http_v2_state_process_header. cbn [meaning]. unfold work. cbn [rank].
  destruct (parse_name s) eqn:En.
  - cbn [marks_ok] in M. pose proof (M En) as Ev. rewrite Ev. unfold after_string. rewrite En.
    cbn [fst st_header set_header set_parse]. case_decide as E0; [by eexists|].
    exists t, F. split; [|split; [|unfold work; cbn [rank]; lia]].
    + split; [exact W|exact B|exact T|exact S|done].
    + cbn [meaning]. unfold spec_value. cbn [index set_header set_parse].
      change (dec_of (set_header _ _) t) with (dec_of s t).
      destruct (spec_string _ _ _ _) as [[[v d1] F1]|e]; [|done]. cbn [bind]. unfold after_string. cbn.
      by destruct (spec_header _ _ _ _).
  - set (hdr := if parse_value s then (fst (st_header s), field s) else st_header s).
    set (s1 := if parse_value s then _ else s).
    assert (s1 = set_header hdr (set_parse false false s)) as -> by (subst s1 hdr; destruct (parse_value s) eqn:Ev; [done|]; destruct s; cbn in *; by subst).
    assert ((if parse_value s then after_string s (dec_of s t) (field s) F
             else bind (spec_header deliver (index s) (st_header s) (dec_of s t)) (fun d => spec_block deliver buffers_size d F)) =
            bind (spec_header deliver (index s) hdr (dec_of s t)) (fun d => spec_block deliver buffers_size d F)) as ->.
    { subst hdr. unfold after_string. rewrite En. by destruct (parse_value s). }
    clearbody hdr. cbn [st_header set_header set_parse header_limit]. unfold spec_header.
    cbn [d_limit dec_of d_table d_stream d_last]. case_decide as Hlim; [by eexists|]. cbn [index tables set_limit set_header set_parse].
    set (t' := if index s then insert_header hdr t else t).
    assert (exists h, (if index s then ngx_http_v2_add_header (tables s) hdr else Some (tables s)) = Some h /\ stands h t') as (h & -> & T').
    { subst t'. destruct (index s); [by apply add_header_ok|by exists (tables s)]. }
    clearbody t'. cbn [stream set_index set_tables set_limit set_header set_parse].
    assert (forall str, situation header_complete (set_stream str (set_index false (set_tables h (set_limit
        (header_limit s - (Z.of_nat (length (fst hdr)) + Z.of_nat (length (snd hdr)))) (set_header hdr (set_parse false false s)))))) t' inp fut F rest) as Hs.
    { intros str. split; [exact W|exact B|exact T'|exact S|done]. }
    destruct (stream s) as [c|] eqn:Es.
    + destruct (deliver hdr c) as [c' []]; [| |by eexists];
        (exists t', F; split; [apply Hs|]; split; [done|]; unfold work; cbn [rank]; lia).
    + exists t', F. split; [|split; [|unfold work; cbn [rank]; lia]].
      * specialize (Hs None). split; [exact W|exact B|exact T'|exact S|done].
      * cbn. unfold dec_of. cbn. by rewrite Es.
Qed.

(** The start of a field. *)
Lemma field_indexed s d (F' : list Z) hdr : 
  bind (bind (spec_header deliver false hdr d) (fun d => Ok (d, F'))) (fun '(d, F) => spec_block deliver buffers_size d F) =
  bind (spec_header deliver false hdr d) (fun d => spec_block deliver buffers_size d F').
Proof. by destruct (spec_header _ _ _ _). Qed.

Lemma field_name s t F' insert : index s = insert ->
  bind (spec_name deliver buffers_size insert (dec_of s t) F') (fun '(d, F) => spec_block deliver buffers_size d F) =
  meaning field_len (set_parse true true s) t F'.
Proof.
  intros <-. unfold spec_name. cbn [meaning]. change (index (set_parse true true s)) with (index s).
  change (dec_of (set_parse true true s) t) with (dec_of s t).
  destruct (spec_string _ _ _ _) as [[[x d] F1]|e]; [|done]. cbn [bind]. unfold after_string. cbn. by case_decide.
Qed.

Lemma field_value s t F' insert name : index s = insert -> parse_name s = false -> fst (st_header s) = name ->
  bind (spec_value deliver buffers_size insert name (dec_of s t) F') (fun '(d, F) => spec_block deliver buffers_size d F) =
  meaning field_len (set_parse (parse_name s) true s) t F'.
Proof.
  intros <- En <-. unfold spec_value. cbn [meaning]. rewrite En. change (index (set_parse false true s)) with (index s).
  change (dec_of (set_parse false true s) t) with (dec_of s t).
  destruct (spec_string _ _ _ _) as [[[x d] F1]|e]; [|done]. cbn [bind]. unfold after_string. cbn.
  by destruct (spec_header _ _ _ _).
Qed.

Lemma header_block_ok s t inp fut F rest : situation header_block s t inp fut F rest ->
  outcome_ok (meaning header_block s t F) (work header_block inp) fut rest (ngx_http_v2_state_header_block s inp).
Proof.
  intros H. pose proof H as [W B T S (M1 & M2 & M3 & M4)]. unfold ngx_http_v2_state_header_block.
  destruct inp as [|ch inp].
  { eapply save_ok; [exact H|done|by eapply wire_comes|cbn; lia]. }
  destruct (in_frame s) eqn:Ef; cbn [negb].
  2: { apply in_frame_cases in Ef as [E1 E2]. by apply continuation_ok. }
  apply in_frame_true in Ef.
  assert (0 < st_length s) as Hl.
  { destruct Ef as [Ef|Ef]; [|lia]. rewrite Ef in W. apply last_frame in W as [W _]. destruct F; [done|]. cbn [length] in W. lia. }
  destruct (wire_first _ _ _ _ _ _ _ _ _ W Hl) as [F0 EF]. subst F.
  pose proof (field_kind_bits ch) as (K1 & K2 & K3).
  assert (forall d, spec_block deliver buffers_size d (ch :: F0) =
    bind (spec_field deliver buffers_size d (ch :: F0)) (fun '(d, F) => spec_block deliver buffers_size d F)) as Hcons
    by (intros d; by apply spec_block_cons).
  cbn [spec_field] in Hcons.
  assert (index s = true -> snd (fst (field_kind ch)) = true) as Hidx by (intros Hi; by destruct (M4 Hi) as (? & ? & [= <- _] & ?)).
  destruct (field_kind ch) as [[[indexed upd] insert] bits] eqn:Ek. cbn [fst snd] in *.
  set (s1 := if insert then set_index true s else s).
  assert (index s1 = insert) as Ei by (subst s1; destruct insert; [done|]; destruct (index s); [by specialize (Hidx eq_refl)|done]).
  assert (situation header_block s1 t (ch :: inp) fut (ch :: F0) rest /\ st_length s1 = st_length s /\ dec_of s1 t = dec_of s t /\
    end_headers s1 = end_headers s /\ parse_name s1 = false) as (H1 & El & Ed & Ee & En).
  { subst s1. destruct insert; [|done]. split; [|done]. split; [exact W|exact B|exact T|exact S|]. 
    split; [exact M1|]. split; [exact M2|]. split; [done|]. intros _. exists ch, F0. by rewrite Ek. }
  change (meaning header_block s t (ch :: F0)) with (spec_block deliver buffers_size (dec_of s t) (ch :: F0)). rewrite <- Ed.
  change (spec_block deliver buffers_size (dec_of s1 t) (ch :: F0)) with (meaning header_block s1 t (ch :: F0)).
  clearbody s1. clear H W T S M1 M2 M4 Hidx. rewrite <- El, <- Ee in *. clear El Ee Ed. pose proof H1 as [W _ T S (M1 & M2 & _ & _)].
  apply Forall_app in B as [B Bf].
  pose proof (parse_int_ok _ _ _ _ bits _ _ _ _ W ltac:(done) B Ef K1) as Hint.
  destruct (ngx_http_v2_parse_int _ _ _) as [r|] eqn:Er; [|done].
  destruct r as [v inp' l| | |].
  2-4: eapply int_failed_ok; [exact H1|exact Hint|done|]; intros e He; unfold meaning; rewrite Hcons; by rewrite He.
  destruct Hint as (F' & Hs & W' & Hlt & Hpos).
  assert (bytes (inp' ++ fut)) as B' by (apply Forall_app; split; [by eapply parse_int_bytes|done]).
  change (meaning header_block s1 t (ch :: F0)) with (spec_block deliver buffers_size (dec_of s1 t) (ch :: F0)). rewrite Hcons, Hs. cbn [bind]. clear Hcons. cbn [d_table dec_of]. unfold work in *. cbn [rank].
  destruct indexed.
  { specialize (K2 eq_refl). cbn [tables set_length st_header]. rewrite (get_indexed_ok _ t) by done. rewrite (lookup_whole t v (st_header s1)).
    destruct (lookup_header _ _ _ _) as [x|]; [|by eexists]. rewrite (field_indexed s1).
    exists t, F'. split; [|split; [|unfold work; cbn [rank length] in *; lia]].
    - split; [exact W'|exact B'|exact T|exact S|]. cbn. by rewrite M1.
    - cbn [meaning]. cbn. by rewrite M2, Ei, K2. }
  destruct upd.
  { specialize (K3 eq_refl). pose proof (table_size_ok _ _ v T Hpos) as Hsz. cbn [tables set_length].
    destruct (ngx_http_v2_table_size _ _) as [[h|]|], (resize_table _ _) as [t'|]; try done; [|by eexists].
    exists t', F'. split; [|split; [done|unfold work; cbn [rank length] in *; lia]].
    split; [exact W'|exact B'|exact Hsz|exact S|]. cbn. by rewrite Ei. }
  destruct (decide (v = 0)).
  - exists t, F'. split; [|split; [|unfold work; cbn [rank length] in *; lia]].
    + split; [exact W'|exact B'|exact T|exact S|done].
    + change (dec_of s1 t) with (dec_of (set_length l s1) t). by apply field_name.
  - cbn [tables set_length st_header]. rewrite (get_indexed_ok _ t) by done.
    pose proof (lookup_name t v (st_header s1)) as Hn.
    destruct (lookup_header t v true (st_header s1)) as [x|], (lookup_header t v true ([], [])) as [y|]; try done; [|by eexists].
    injection Hn as Hn. exists t, F'. split; [|split; [|unfold work; cbn [rank length] in *; lia]].
    + split; [exact W'|exact B'|exact T|exact S|done].
    + change (dec_of s1 t) with (dec_of (set_header x (set_length l s1)) t). 
      change (parse_name (set_length l s1)) with (parse_name (set_header x (set_length l s1))). by apply field_value.
Qed.

(** *** The loop *)

Lemma handle_ok hd s t inp fut F rest : situation hd s t inp fut F rest ->
  outcome_ok (meaning hd s t F) (work hd inp) fut rest (handle deliver buffers_size hd s inp).
Proof.
  destruct hd; [apply header_block_ok|apply field_len_ok|apply field_huff_ok|apply field_raw_ok|apply field_skip_ok|apply process_header_ok|
    apply header_complete_ok].
Qed.

(** The result of the block, with the bytes after it. *)
Definition settled (m : result dec) (rest left : list Z) (st : status (client := client)) : Prop :=
  match st with
  | Done s inp => exists t, m = Ok (dec_of s t) /\ stands (tables s) t /\ ready s /\ inp ++ left = rest
  | Failed err => exists e, m = Err e /\ error_code e err
  | _ => False
  end.

(** It waits for input, in a state with the same meaning. *)
Definition waits (m : result dec) (rest fut : list Z) (st : status (client := client)) : Prop :=
  exists hd s r t F, st = Waiting hd s r /\ situation hd s t r fut F rest /\ m = meaning hd s t F /\ (fut = [] -> r = []).

Lemma read_loop_ok fuel : forall hd s t inp fut F rest, situation hd s t inp fut F rest -> (work hd inp < fuel)%nat ->
  exists st, read_loop deliver buffers_size fuel hd s inp = Some st /\
    (settled (meaning hd s t F) rest fut st \/ waits (meaning hd s t F) rest fut st).
Proof.
  induction fuel as [|fuel IH]; intros hd s t inp fut F rest H Hf; [lia|]. cbn [read_loop].
  pose proof (handle_ok _ _ _ _ _ _ _ H) as Ho. destruct (handle _ _ _ _ _) as [hd' s' inp'|hd' s' inp'|hd' s' r|err|s' inp'|]; cbn [outcome_ok] in Ho.
  - destruct Ho as (t' & F' & H' & -> & Hw). apply (IH _ _ t'); [done|lia].
  - destruct Ho as (t' & F' & H' & -> & Hw). destruct inp' as [|c inp']; [|apply (IH _ _ t'); [done|lia]].
    eexists. split; [done|]. right. by exists hd', s', [], t', F'.
  - destruct Ho as (t' & F' & H' & -> & Hne). eexists. split; [done|]. right. by exists hd', s', r, t', F'.
  - eexists. split; [done|]. by left.
  - eexists. split; [done|]. by left.
  - done.
Qed.

Lemma feed_ok chunks : forall hd s t r F rest, situation hd s t r (concat chunks) F rest -> (chunks = [] -> r = []) ->
  exists st left, feed deliver buffers_size hd s r chunks = Some (st, left) /\
    (settled (meaning hd s t F) rest (concat left) st \/ (left = [] /\ waits (meaning hd s t F) rest [] st)).
Proof.
  induction chunks as [|c chunks IH]; intros hd s t r F rest H Hr; cbn [feed].
  { eexists _, _. split; [done|]. right. split; [done|]. exists hd, s, r, t, F. by rewrite (Hr eq_refl) in *. }
  assert (situation hd s t (r ++ c) (concat chunks) F rest) as H' by (destruct H; split; try done; cbn [concat] in *; by rewrite <- app_assoc).
  destruct (read_loop_ok (loop_fuel (r ++ c)) _ _ _ _ _ _ _ H') as (st & E & Hst).
  { unfold work, loop_fuel. destruct hd; cbn [rank]; lia. }
  rewrite E. cbn [mbind option_bind]. destruct Hst as [Hst|(hd' & s' & r' & t' & F' & -> & H2 & -> & Hne)].
  - exists st, chunks. split; [by destruct st|by left].
  - apply (IH _ _ t'); [done|]. intros ->. by apply Hne.
Qed.

Lemma wire_nil sid len pad e F rest : wire sid len pad e [] F rest -> e = true /\ len = 0 /\ 0 <= pad /\ F = [] /\ rest = [].
Proof.
  intros H. destruct e.
  - pose proof (wire_len _ _ _ _ _ _ _ H) as (_ & Hp & _). apply last_frame in H as [H E]. symmetry in E. apply app_eq_nil in E as [-> ->].
    by rewrite <- H.
  - apply wire_len in H as (_ & Hp & f & F' & W' & _ & E & _ & _ & Hm). symmetry in E. apply app_eq_nil in E as [-> ->].
    specialize (Hm eq_refl). cbn [length] in Hm. lia.
Qed.

(** The loop waits after a block only when the last frame was empty; the next bytes settle it. *)
Lemma waits_ok m rest st : waits m rest [] st -> rest = [] /\ exists hd s, st = Waiting hd s [] /\
  forall c, c <> [] -> bytes c -> exists st left, feed deliver buffers_size hd s [] [c] = Some (st, left) /\ settled m c (concat left) st.
Proof.
  intros (hd & s & r & t & F & -> & [W B T S M] & -> & Hr). rewrite (Hr eq_refl) in *. cbn [app] in W.
  apply wire_nil in W as (We & Wl & Wp & -> & ->). split; [done|]. exists hd, s. split; [done|]. intros c Hc Bc.
  assert (situation hd s t [] (concat [c]) [] c) as H.
  { cbn [concat]. rewrite app_nil_r. split; [|exact Bc|exact T|exact S|exact M]. rewrite We. apply (wire_last _ _ _ []); [by rewrite Wl|done]. }
  destruct (feed_ok [c] _ _ _ _ _ _ H ltac:(done)) as (st & left & E & [Hs|[_ (hd' & s' & r' & t' & F' & _ & [W' _ _ _ _] & _ & Hr')]]); [by exists st, left|].
  rewrite (Hr' eq_refl) in W'. by apply wire_nil in W' as (_ & _ & _ & _ & ->).
Qed.

(** C8: the handlers implement the format of RFC 7541 ([rfc_block], which shares
    no definition with them), however the block is cut into a HEADERS frame with
    padding and CONTINUATION frames, and however the bytes of the frames are cut
    into reads: the tables, the headers that the stream gets, in order, and the
    limit that is left are those of the fields of the whole block; the loop ends,
    the bytes after the block are untouched, and no byte is read that is not
    there nor written outside of the block for a string. The format is that of
    the RFC with what nginx adds to it, all of it in [rfc_block]: it refuses
    integers of more than four octets, with SIZE_ERROR or COMPRESSION_ERROR by
    where the frame ends, strings and headers over the configured limits and
    empty names; a block that ends inside of a field is a SIZE_ERROR; padding of
    a coded string may be longer than seven ones; updates of the size are taken
    anywhere; and the strings of a dropped request that are not inserted into the
    table are not decoded, where for a name the last string that was decoded is
    taken. When the last frame is empty and nothing comes after it, the end of
    the block is seen with the next byte only. *)
Theorem header_block_refines s t W F rest chunks :
  ready s -> stands (tables s) t -> F <> [] -> bytes W -> concat chunks = W ->
  wire (st_sid s) (st_length s) (st_padding s) (end_headers s) W F rest ->
  let m := rfc_block deliver buffers_size (dec_of s t) F in
  exists st left, feed deliver buffers_size header_block s [] chunks = Some (st, left) /\
    (settled m rest (concat left) st \/
     rest = [] /\ left = [] /\ exists hd s', st = Waiting hd s' [] /\
       forall c, c <> [] -> bytes c ->
         exists st left, feed deliver buffers_size hd s' [] [c] = Some (st, left) /\ settled m c (concat left) st).
Proof.
  intros (R1 & R2 & R3 & R4) T HF B E W0 m. unfold m.
  rewrite <- rfc_block_eq by (by eapply wire_bytes). clear m.
  assert (situation header_block s t [] (concat chunks) F rest) as H.
  { rewrite E. split; [exact W0|exact B|exact T|exact R4|]. split; [done|]. split; [done|]. split; [done|]. by rewrite R3. }
  destruct (feed_ok chunks _ _ _ _ _ _ H ltac:(done)) as (st & left & Ef & [Hs|[-> Hw]]).
  - exists st, left. split; [done|]. by left.
  - exists st, []. split; [done|]. right. destruct (waits_ok _ _ _ Hw) as (-> & hd & s' & -> & Hc).
    split; [done|]. split; [done|]. by exists hd, s'.
Qed.

End Meaning.

(** ** Witnesses *)

(** A stream that keeps its headers. *)
Definition collect (x : header) (c : list header) : list header * verdict := (c ++ [x], Keep).

(** A HEADERS frame without END_HEADERS of stream 1, with four bytes of a block and two bytes of padding. *)
Definition first_state : state (client := list header) :=
  State 4 2 0 1 false false false ([], []) 1000 0 [] 0 0 (Some []) hpack_zero.

(** The first request of RFC 7541, C.4.1, where the string is in a second frame. *)
Definition request_frames : list Z :=
  [0x82; 0x86; 0x84; 0x41] ++ [0; 0] ++ [0; 0; 13; 9; 4; 0; 0; 0; 1] ++
  [0x8c; 0xf1; 0xe3; 0xc2; 0xe5; 0xf2; 0x3a; 0x6b; 0xa0; 0xab; 0x90; 0xf4; 0xff] ++ [0; 0; 0].

Definition request_block : list Z :=
  [0x82; 0x86; 0x84; 0x41; 0x8c; 0xf1; 0xe3; 0xc2; 0xe5; 0xf2; 0x3a; 0x6b; 0xa0; 0xab; 0x90; 0xf4; 0xff].

Definition request_chunks : list (list Z) := [take 3 request_frames; take 8 (drop 3 request_frames); drop 11 request_frames].

Definition stream_of {client} (r : option (status * list (list Z))) : option client :=
  match r with Some (Done s _, _) => stream s | _ => None end.

Example request_headers : stream_of (feed collect 4096 header_block first_state [] request_chunks) =
  Some [(bstr ":method", bstr "GET"); (bstr ":scheme", bstr "http"); (bstr ":path", bstr "/"); (bstr ":authority", bstr "www.example.com")].
Proof. vm_compute. reflexivity. Qed.

(** The last frame is empty: the loop has all bytes and does not complete the block. *)
Example empty_last_frame : exists s,
  feed collect 4096 header_block (set_frame 5 0 0 first_state) [] [[0x02; 0x03; 97; 98; 99] ++ [0; 0; 0; 9; 4; 0; 0; 0; 1]] =
    Some (Waiting header_complete s [], []) /\ end_headers s = true /\ st_length s = 0 /\
    stream s = Some [(bstr ":method", bstr "abc")].
Proof. eexists. split; [vm_compute; reflexivity|]. repeat split; vm_compute; reflexivity. Qed.

(** A request that is dropped: the name of the literal field is skipped, and the empty string before it counts as the
    name, which ends the connection. *)
Definition drop_second (x : header) (c : nat) : nat * verdict := (S c, if decide (c = 1)%nat then Drop else Keep).

Example skipped_name :
  let s := State 12 0 4 1 false false false ([], []) 1000 0 [] 0 0 (Some 0%nat) hpack_zero in
  feed drop_second 4096 header_block s [] [[0x82; 0x00; 0x01; 0x61; 0x00; 0x00; 0x01; 0x62; 0x01; 0x63; 0x86; 0x84]] =
    Some (Failed NGX_HTTP_V2_PROTOCOL_ERROR, []) /\
  match feed drop_second 4096 header_block s [] [[0x82; 0x00; 0x01; 0x61; 0x01; 0x31; 0x00; 0x01; 0x62; 0x01; 0x63; 0x86]] with
  | Some (Done s' _, _) => stream s' = None
  | _ => False
  end.
Proof. split; vm_compute; reflexivity. Qed.

Lemma header_block_refines_witness :
  wire 1 4 2 false request_frames request_block [0; 0; 0] /\
  exists st left, feed collect 4096 header_block first_state [] request_chunks = Some (st, left) /\
    (settled (rfc_block collect 4096 (dec_of first_state table_start) request_block) [0; 0; 0] (concat left) st \/
     [0; 0; 0] = ([] : list Z) /\ left = [] /\ exists hd s', st = Waiting hd s' [] /\
       forall c, c <> [] -> bytes c -> exists st left, feed collect 4096 hd s' [] [c] = Some (st, left) /\
         settled (rfc_block collect 4096 (dec_of first_state table_start) request_block) c (concat left) st).
Proof.
  assert (wire 1 4 2 false request_frames request_block [0; 0; 0]) as W.
  { apply (wire_more 1 4 2 [0x82; 0x86; 0x84; 0x41] [0; 0] 13 true [0; 0; 13; 9; 4; 0; 0; 0; 1]); [reflexivity..| |].
    - exists 0, 0, 13, 9, 4, 0, 0, 0, 1. vm_compute. repeat split; reflexivity.
    - apply (wire_last 1 13 0 [0x8c; 0xf1; 0xe3; 0xc2; 0xe5; 0xf2; 0x3a; 0x6b; 0xa0; 0xab; 0x90; 0xf4; 0xff]); [reflexivity|lia]. }
  split; [exact W|].
  apply (header_block_refines collect 4096 first_state table_start request_frames request_block [0; 0; 0] request_chunks).
  - repeat split; reflexivity.
  - exact zero_stands.
  - discriminate.
  - apply (bool_decide_eq_true_1 _). vm_compute. reflexivity.
  - vm_compute. reflexivity.
  - exact W.
Defined.
