(* ===== verification/V2Encode.v ===== *)
(** * Header fields of HTTP/2, written: http/v2/ngx_http_v2_encode.c

    Integers and strings as the encoder writes them, and their meaning for the decoder of [HeaderBlock]: what is written is
    read back, with the octets that ngx_http_v2.h reserves for it. *)

From S2P Require Import Prelude NgxString HuffTables Huff Hpack HeaderBlock.
From stdpp Require Import list.

Open Scope Z_scope.

(** ** Definitions *)

Definition NGX_HTTP_V2_ENCODE_RAW : Z := 0.
Definition NGX_HTTP_V2_ENCODE_HUFF : Z := 0x80.

Definition NGX_HTTP_V2_MAX_FIELD : Z := 127 + Z.shiftl 1 ((NGX_HTTP_V2_INT_OCTETS - 1) * 7) - 1.

Definition ngx_http_v2_indexed (i : Z) : Z := 128 + i.
Definition ngx_http_v2_inc_indexed (i : Z) : Z := 64 + i.

(** The octets of [while (value >= 128)] and the last one; ten are enough for 64 bits. *)
Fixpoint int_tail (fuel : nat) (value : Z) : list Z :=
  match fuel with
  | O => []
  | S fuel => if decide (value >= 128) then u8 (value mod 128 + 128) :: int_tail fuel (value / 128) else [u8 value]
  end.

(** [first] is the octet that [*pos] holds. *)
Definition ngx_http_v2_write_int (first prefix value : Z) : list Z :=
  if decide (value < prefix) then [u8 (Z.lor first value)]
  else u8 (Z.lor first prefix) :: int_tail 10 (value - prefix).

(** The octets from [dst]; the length that the Huffman coder returns is 0 when it gives up and for an empty string. *)
Definition ngx_http_v2_string_encode (src : list Z) (lower : bool) : list Z :=
  let hlen := match ngx_http_huff_encode src lower with Some tmp => Z.of_nat (length tmp) | None => 0 end in
  if decide (hlen > 0) then
    ngx_http_v2_write_int NGX_HTTP_V2_ENCODE_HUFF (ngx_http_v2_prefix 7) hlen ++ default [] (ngx_http_huff_encode src lower)
  else
    ngx_http_v2_write_int NGX_HTTP_V2_ENCODE_RAW (ngx_http_v2_prefix 7) (Z.of_nat (length src)) ++
    (if lower then ngx_strlow src else src).

Definition ngx_http_v2_write_name (src : list Z) : list Z := ngx_http_v2_string_encode src true.
Definition ngx_http_v2_write_value (src : list Z) : list Z := ngx_http_v2_string_encode src false.

(** The number of octets of an integer, at least, and of a string. *)
Definition ngx_http_v2_integer_octets (v : Z) : Z := 1 + v / 127.
Definition ngx_http_v2_literal_size (len : Z) : Z := ngx_http_v2_integer_octets len + len.

(** ** Integers *)

Lemma int_tail_length fuel : forall v, 0 <= v < 128 ^ Z.of_nat fuel -> (0 < fuel)%nat ->
  (0 < length (int_tail fuel v))%nat /\ Z.of_nat (length (int_tail fuel v)) <= 1 + v / 128 /\
  (forall k, 0 < k -> v < 128 ^ k -> Z.of_nat (length (int_tail fuel v)) <= k).
Proof.
  induction fuel as [|fuel IH]; intros v Hv Hf; [lia|]. cbn [int_tail]. rewrite Nat2Z.inj_succ, Z.pow_succ_r in Hv by lia.
  case_decide as H.
  - assert (0 <= v / 128 < 128 ^ Z.of_nat fuel) as Hq by (split; [apply Z.div_pos; lia|apply Z.div_lt_upper_bound; lia]).
    assert (0 < fuel)%nat as Hf' by (destruct fuel; [change (128 ^ Z.of_nat 0) with 1 in Hv; lia|lia]).
    destruct (IH _ Hq Hf') as (I1 & I2 & I3). cbn [length]. split; [lia|]. split.
    + assert (1 <= v / 128) by dlia. assert (v / 128 / 128 + 1 <= v / 128) by dlia. lia.
    + intros k Hk Hvk. assert (1 < k) as Hk1.
      { destruct (decide (k = 1)) as [->|]; [|lia]. change (128 ^ 1) with 128 in Hvk. lia. }
      assert (v / 128 < 128 ^ (k - 1)); [|specialize (I3 (k - 1) ltac:(lia) ltac:(done)); lia].
      apply Z.div_lt_upper_bound; [lia|]. rewrite <- Z.pow_succ_r by lia. by replace (Z.succ (k - 1)) with k by lia.
  - cbn [length]. split; [lia|]. split; [|lia]. assert (0 <= v / 128) by (apply Z.div_pos; lia). lia.
Qed.

Lemma int_tail_bytes fuel : forall v, bytes (int_tail fuel v).
Proof.
  induction fuel as [|fuel IH]; intros v; [by apply Forall_nil_2|]. cbn [int_tail].
  case_decide; [apply Forall_cons; split; [apply u8_byte|apply IH]|apply Forall_singleton, u8_byte].
Qed.

(** The decoder's loop over the octets. *)
Lemma int_tail_read fuel : forall v F shift value n, 0 <= v < 128 ^ Z.of_nat fuel -> (0 < fuel)%nat -> 0 <= shift ->
  int_octets (int_tail fuel v ++ F) shift value n = Some (value + v * 2 ^ shift, (n + length (int_tail fuel v))%nat).
Proof.
  induction fuel as [|fuel IH]; intros v F shift value n Hv Hf Hs; [lia|]. cbn [int_tail].
  rewrite Nat2Z.inj_succ, Z.pow_succ_r in Hv by lia.
  assert (forall x, 0 <= x < 256 -> Z.land x 127 = x mod 128) as Hland by (intros x Hx; exact (Z.land_ones x 7 ltac:(lia))).
  case_decide as H.
  - pose proof (Z.mod_pos_bound v 128 ltac:(lia)) as Hm. rewrite u8_small by (unfold is_byte; lia).
    assert (0 <= v / 128 < 128 ^ Z.of_nat fuel) as Hq by (split; [apply Z.div_pos; lia|apply Z.div_lt_upper_bound; lia]).
    assert (0 < fuel)%nat as Hf' by (destruct fuel; [change (128 ^ Z.of_nat 0) with 1 in Hv; lia|lia]).
    cbn [app int_octets length]. rewrite decide_False by lia. rewrite (IH _ _ _ _ _ Hq Hf') by lia. f_equal.
    rewrite Hland, Z.shiftl_mul_pow2, Z.pow_add_r by lia.
    replace ((v mod 128 + 128) mod 128) with (v mod 128) by (symmetry; rewrite <- (Z.add_mod_idemp_r _ 128) by lia; rewrite Z.mod_same, Z.add_0_r, Z.mod_mod by lia; done).
    change (2 ^ 7) with 128. f_equal; [|lia]. rewrite (Z.div_mod v 128) at 3 by lia. ring.
  - rewrite u8_small by (unfold is_byte; lia). cbn [app int_octets length]. rewrite decide_True by lia.
    rewrite Hland, Z.shiftl_mul_pow2 by lia. rewrite Z.mod_small by lia. f_equal. f_equal. lia.
Qed.

Lemma max_field_eq : NGX_HTTP_V2_MAX_FIELD = 127 + 128 ^ 3 - 1.
Proof. reflexivity. Qed.

Lemma write_int_length first v : 0 <= v < 2 ^ 64 ->
  (0 < length (ngx_http_v2_write_int first 127 v))%nat /\
  Z.of_nat (length (ngx_http_v2_write_int first 127 v)) <= ngx_http_v2_integer_octets v /\
  (v <= NGX_HTTP_V2_MAX_FIELD -> Z.of_nat (length (ngx_http_v2_write_int first 127 v)) <= NGX_HTTP_V2_INT_OCTETS).
Proof.
  intros Hv. unfold ngx_http_v2_write_int, ngx_http_v2_integer_octets, NGX_HTTP_V2_INT_OCTETS. rewrite max_field_eq. case_decide as H.
  - cbn [length]. assert (0 <= v / 127) by (apply Z.div_pos; lia). lia.
  - destruct (int_tail_length 10 (v - 127)) as (I1 & I2 & I3); [change (128 ^ Z.of_nat 10) with (2 ^ 70); lia|lia|]. cbn [length].
    split; [lia|]. split.
    + assert ((v - 127) / 128 + 1 <= v / 127); [|lia]. dlia.
    + intros Hm. specialize (I3 3 ltac:(lia) ltac:(lia)). lia.
Qed.

Lemma write_int_bytes first v : bytes (ngx_http_v2_write_int first 127 v).
Proof.
  unfold ngx_http_v2_write_int. case_decide; [apply Forall_singleton, u8_byte|].
  apply Forall_cons. split; [apply u8_byte|apply int_tail_bytes].
Qed.

(** The two first octets in use. *)
Lemma first_octet first x : first = 0 \/ first = 128 -> 0 <= x <= 127 ->
  Z.land (u8 (Z.lor first x)) 127 = x /\ Z.shiftr (u8 (Z.lor first x)) 7 = Z.shiftr first 7.
Proof.
  intros Hf Hx. assert (is_byte x) as Hb by (unfold is_byte; lia).
  assert (forall y, is_byte y -> y <= 127 -> (Z.land (u8 (Z.lor first y)) 127 = y /\ Z.shiftr (u8 (Z.lor first y)) 7 = Z.shiftr first 7)) as Hall.
  { intros y Hy. destruct Hf as [->| ->]; byte_sweep y Hy. }
  apply Hall; [done|lia].
Qed.

Lemma write_int_head first v : first = 0 \/ first = 128 -> 0 <= v ->
  exists c l, ngx_http_v2_write_int first 127 v = c :: l /\ Z.shiftr c 7 = Z.shiftr first 7.
Proof.
  intros Hf Hv. unfold ngx_http_v2_write_int. case_decide; eexists _, _; (split; [done|]); apply first_octet; (done || lia).
Qed.

(** What is written is read. *)
Lemma spec_int_write first v F : first = 0 \/ first = 128 -> 0 <= v <= NGX_HTTP_V2_MAX_FIELD ->
  spec_int 7 (ngx_http_v2_write_int first 127 v ++ F) = Ok (v, F).
Proof.
  intros Hf Hv. rewrite max_field_eq in Hv. unfold ngx_http_v2_write_int. change (ngx_http_v2_prefix 7) with 127. case_decide as H.
  - cbn [app spec_int]. change (ngx_http_v2_prefix 7) with 127. rewrite (proj1 (first_octet first v Hf ltac:(lia))). by rewrite decide_True by lia.
  - cbn [app spec_int]. change (ngx_http_v2_prefix 7) with 127. rewrite (proj1 (first_octet first 127 Hf ltac:(lia))).
    rewrite decide_False by lia.
    assert (0 <= v - 127 < 128 ^ Z.of_nat 10) as Hr by (change (128 ^ 3) with 2097152 in *; change (128 ^ Z.of_nat 10) with (2 ^ 70); lia).
    pose proof (int_tail_read 10 (v - 127) F 0 127 1 Hr ltac:(lia) ltac:(lia)) as E.
    destruct (int_tail_length 10 (v - 127) Hr ltac:(lia)) as (I1 & _ & I3). specialize (I3 3 ltac:(lia) ltac:(lia)).
    apply (int_octets_cut _ _ _ _ _ _ 3) in E; [|lia]. rewrite E. f_equal. f_equal; [lia|].
    change (u8 (Z.lor first 127) :: int_tail 10 (v - 127) ++ F) with ((u8 (Z.lor first 127) :: int_tail 10 (v - 127)) ++ F).
    by apply drop_app_length'.
Qed.

(** ** Strings *)

(** The coded string is shorter, so an empty one is not used. *)
Lemma string_encode_cases src lower : bytes src ->
  (exists tmp, ngx_http_huff_encode src lower = Some tmp /\ bytes tmp /\ (0 < length tmp < length src)%nat /\
    ngx_http_v2_string_encode src lower = ngx_http_v2_write_int NGX_HTTP_V2_ENCODE_HUFF 127 (Z.of_nat (length tmp)) ++ tmp) \/
  ngx_http_v2_string_encode src lower =
    ngx_http_v2_write_int NGX_HTTP_V2_ENCODE_RAW 127 (Z.of_nat (length src)) ++ fold_case lower src.
Proof.
  intros Hb. destruct src as [|c src]; [right; by destruct lower|]. pose proof (encode_ok lower (c :: src) Hb) as E.
  unfold ngx_http_v2_string_encode. change (ngx_http_v2_prefix 7) with 127.
  destruct (ngx_http_huff_encode (c :: src) lower) as [tmp|]; [|right; by rewrite decide_False by lia].
  destruct E as (Hd & _ & Hl). case_decide as H; [|by right]. left. exists tmp. split; [done|]. split; [done|]. split; [|done].
  split; [lia|by apply Hl].
Qed.

Lemma fold_case_length lower src : length (fold_case lower src) = length src.
Proof. destruct lower; [apply length_map|done]. Qed.

Lemma fold_case_bytes lower src : bytes src -> bytes (fold_case lower src).
Proof.
  intros H. destruct lower; [|done]. apply Forall_forall. intros x Hx. apply list_elem_of_fmap in Hx as (y & -> & _). apply ngx_tolower_byte.
Qed.

Lemma string_encode_length src lower : bytes src -> Z.of_nat (length src) < 2 ^ 64 ->
  Z.of_nat (length (ngx_http_v2_string_encode src lower)) <= ngx_http_v2_literal_size (Z.of_nat (length src)) /\
  (Z.of_nat (length src) <= NGX_HTTP_V2_MAX_FIELD ->
   Z.of_nat (length (ngx_http_v2_string_encode src lower)) <= NGX_HTTP_V2_INT_OCTETS + Z.of_nat (length src)).
Proof.
  intros Hb Hl. unfold ngx_http_v2_literal_size.
  destruct (string_encode_cases src lower Hb) as [(tmp & _ & _ & Ht & ->)| ->]; rewrite length_app.
  - destruct (write_int_length NGX_HTTP_V2_ENCODE_HUFF (Z.of_nat (length tmp)) ltac:(lia)) as (_ & H1 & H2).
    assert (ngx_http_v2_integer_octets (Z.of_nat (length tmp)) <= ngx_http_v2_integer_octets (Z.of_nat (length src))).
    { unfold ngx_http_v2_integer_octets. apply Z.add_le_mono_l, Z.div_le_mono; lia. }
    split; [lia|]. intros Hm. specialize (H2 ltac:(lia)). lia.
  - rewrite fold_case_length. destruct (write_int_length NGX_HTTP_V2_ENCODE_RAW (Z.of_nat (length src)) ltac:(lia)) as (_ & H1 & H2).
    split; [lia|]. intros Hm. specialize (H2 ltac:(lia)). lia.
Qed.

Lemma string_encode_bytes src lower : bytes src -> bytes (ngx_http_v2_string_encode src lower).
Proof.
  intros Hb. destruct (string_encode_cases src lower Hb) as [(tmp & _ & Ht & _ & ->)| ->]; apply Forall_app; (split; [apply write_int_bytes|done || by apply fold_case_bytes]).
Qed.

(** A string that is written is the string that the decoder gets. *)
Lemma spec_string_write {client} buffers_size idx (d : dec (client := client)) src lower F : bytes src -> d_stream d <> None ->
  Z.of_nat (length src) <= NGX_HTTP_V2_MAX_FIELD -> Z.of_nat (length src) <= buffers_size ->
  spec_string buffers_size idx d (ngx_http_v2_string_encode src lower ++ F) = Ok (fold_case lower src, set_last (fold_case lower src) d, F).
Proof.
  intros Hb Hs Hm Hl. assert (skips idx (d_stream d) = false) as Esk by (unfold skips; by destruct (d_stream d)).
  destruct (string_encode_cases src lower Hb) as [(tmp & E & Bt & Ht & ->)| ->]; rewrite <- app_assoc.
  - pose proof (spec_int_write NGX_HTTP_V2_ENCODE_HUFF (Z.of_nat (length tmp)) (tmp ++ F) ltac:(by right) ltac:(lia)) as Ei.
    destruct (write_int_head NGX_HTTP_V2_ENCODE_HUFF (Z.of_nat (length tmp)) ltac:(by right) ltac:(lia)) as (c & l & El & Ec).
    rewrite El in *. cbn [app] in *. unfold spec_string. rewrite Ei. cbn [bind]. rewrite decide_False by lia. rewrite Esk.
    rewrite decide_True by (rewrite Ec; done). pose proof (huff_decode_encode _ _ _ Hb E) as Ed.
    erewrite spec_huff_all; [|reflexivity|exact Ed]. done.
  - pose proof (spec_int_write NGX_HTTP_V2_ENCODE_RAW (Z.of_nat (length src)) (fold_case lower src ++ F) ltac:(by left) ltac:(lia)) as Ei.
    destruct (write_int_head NGX_HTTP_V2_ENCODE_RAW (Z.of_nat (length src)) ltac:(by left) ltac:(lia)) as (c & l & El & Ec).
    rewrite El in *. cbn [app] in *. unfold spec_string. rewrite Ei. cbn [bind]. rewrite decide_False by lia. rewrite Esk.
    rewrite decide_False by (rewrite Ec; by intros []). unfold spec_raw. rewrite length_app, fold_case_length, decide_False by lia.
    rewrite take_app_length', drop_app_length' by (rewrite fold_case_length; lia). done.
Qed.

(** ** Fields *)

Definition fsize (h : header) : Z := Z.of_nat (length (fst h)) + Z.of_nat (length (snd h)).

Definition sizes (hs : list header) : Z := foldr (fun h n => fsize h + n) 0 hs.

Lemma sizes_app a b : sizes (a ++ b) = sizes a + sizes b.
Proof. induction a as [|h a IH]; [done|]. cbn [app sizes foldr]. fold (sizes (a ++ b)) (sizes a). lia. Qed.

Lemma sizes_nonneg hs : 0 <= sizes hs.
Proof. induction hs as [|h hs IH]; [done|]. cbn [sizes foldr]. fold (sizes hs). unfold fsize. lia. Qed.

Section Written.

Context (buffers_size : Z).

(** The bytes [p] of a block give the headers [hs] to a stream that collects them. *)
Definition gives (p : list Z) (hs : list header) : Prop :=
  forall d F c, d_stream d = Some c -> sizes hs <= d_limit d ->
    exists t x, spec_block collect buffers_size d (p ++ F) =
      spec_block collect buffers_size (Dec t (d_limit d - sizes hs) (Some (c ++ hs)) x) F.

Lemma gives_nil : gives [] [].
Proof.
  intros d F c Hc _. destruct d as [t l s x]. cbn in *. subst s. exists t, x. by rewrite Z.sub_0_r, app_nil_r.
Qed.

Lemma gives_app p q a b : gives p a -> gives q b -> gives (p ++ q) (a ++ b).
Proof.
  intros Hp Hq d F c Hc Hl. rewrite sizes_app in *. pose proof (sizes_nonneg a). pose proof (sizes_nonneg b).
  destruct (Hp d (q ++ F) c Hc ltac:(lia)) as (t & x & E). rewrite <- app_assoc, E.
  destruct (Hq (Dec t (d_limit d - sizes a) (Some (c ++ a)) x) F (c ++ a) eq_refl ltac:(cbn; lia)) as (t' & x' & E').
  exists t', x'. rewrite E'. cbn. by rewrite app_assoc, Z.sub_add_distr.
Qed.

(** One header. *)
Lemma gives_field p h : (forall d F c, d_stream d = Some c -> exists idx x t,
    spec_field collect buffers_size d (p ++ F) =
    bind (spec_header collect idx h (Dec t (d_limit d) (Some c) x)) (fun d => Ok (d, F))) -> p <> [] -> gives p [h].
Proof.
  intros H Hp d F c Hc Hl. cbn [sizes foldr] in Hl. fold (sizes []) in Hl. cbn [sizes foldr] in Hl. rewrite spec_block_cons by (destruct p; done).
  destruct (H d F c Hc) as (idx & x & t & E). rewrite E. unfold spec_header. cbn [d_limit d_table d_stream d_last].
  unfold fsize in Hl. rewrite decide_False by lia. cbn [bind collect]. eexists _, _. f_equal. cbn [sizes foldr]. unfold fsize. f_equal. lia.
Qed.

Lemma kind_indexed i : 1 <= i <= 61 ->
  field_kind (ngx_http_v2_indexed i) = (true, false, false, 7) /\
  forall F, spec_int 7 (ngx_http_v2_indexed i :: F) = Ok (i, F).
Proof.
  intros Hi. unfold ngx_http_v2_indexed. split; [unfold field_kind; by rewrite decide_True by (change (Z.shiftl 1 7) with 128; lia)|].
  intros F. cbn [spec_int]. change (ngx_http_v2_prefix 7) with (Z.ones 7). rewrite Z.land_ones by lia.
  replace ((128 + i) mod 2 ^ 7) with i by (change (2 ^ 7) with 128; dlia). change (Z.ones 7) with 127. by rewrite decide_True by lia.
Qed.

Lemma kind_inc_indexed i : 1 <= i <= 61 ->
  field_kind (ngx_http_v2_inc_indexed i) = (false, false, true, 6) /\
  forall F, spec_int 6 (ngx_http_v2_inc_indexed i :: F) = Ok (i, F).
Proof.
  intros Hi. unfold ngx_http_v2_inc_indexed. split.
  - unfold field_kind. change (Z.shiftl 1 7) with 128. change (Z.shiftl 1 6) with 64. rewrite decide_False by lia. by rewrite decide_True by lia.
  - intros F. cbn [spec_int]. change (ngx_http_v2_prefix 6) with (Z.ones 6). rewrite Z.land_ones by lia.
    replace ((64 + i) mod 2 ^ 6) with i by (change (2 ^ 6) with 64; dlia). change (Z.ones 6) with 63. by rewrite decide_True by lia.
Qed.

Lemma lookup_static t i name_only hdr h : 1 <= i -> ngx_http_v2_static_table !! Z.to_nat (i - 1) = Some h -> lookup_header t i name_only hdr = Some h.
Proof. intros Hi E. unfold lookup_header. rewrite decide_False by lia. by rewrite E. Qed.

Lemma gives_indexed i h : 1 <= i <= 61 -> ngx_http_v2_static_table !! Z.to_nat (i - 1) = Some h -> gives [ngx_http_v2_indexed i] [h].
Proof.
  intros Hi E. apply gives_field; [|done]. intros d F c Hc. destruct (kind_indexed i Hi) as [K I]. cbn [app spec_field]. rewrite K, I. cbn [bind].
  rewrite (lookup_static _ i _ _ _ (proj1 Hi) E). destruct d as [t l s x]. cbn in *. subst s. by exists false, x, t.
Qed.

(** The value may be written in any way that is read back. *)
Definition reads_string (p v : list Z) : Prop :=
  forall idx d F, d_stream d <> None -> spec_string (client := list header) buffers_size idx d (p ++ F) = Ok (v, set_last v d, F).

Lemma gives_inc_indexed i name w p v : 1 <= i <= 61 -> ngx_http_v2_static_table !! Z.to_nat (i - 1) = Some (name, w) ->
  reads_string p v -> gives (ngx_http_v2_inc_indexed i :: p) [(name, v)].
Proof.
  intros Hi E Hp. apply gives_field; [|done]. intros d F c Hc. destruct (kind_inc_indexed i Hi) as [K I]. cbn [app spec_field]. rewrite K, I. cbn [bind].
  rewrite decide_False by lia. rewrite (lookup_static _ i _ _ _ (proj1 Hi) E). unfold spec_value. rewrite Hp by (by rewrite Hc). cbn [bind fst].
  destruct d as [t l s x]. cbn in Hc. subst s. by exists true, v, t.
Qed.

Lemma gives_new p name q v : name <> [] -> reads_string p name -> reads_string q v -> gives (0 :: p ++ q) [(name, v)].
Proof.
  intros Hn Hp Hq. apply gives_field; [|done]. intros d F c Hc. cbn [app spec_field]. change (field_kind 0) with (false, false, false, 4).
  cbn [spec_int]. change (ngx_http_v2_prefix 4) with 15. change (Z.land 0 15) with 0. rewrite decide_True by done. cbn [bind].
  rewrite decide_True by done. unfold spec_name. rewrite <- app_assoc, Hp by (by rewrite Hc). cbn [bind]. rewrite decide_False by done.
  unfold spec_value. rewrite Hq by (cbn; by rewrite Hc). cbn [bind]. destruct d as [t l s x]. cbn in Hc. subst s. by exists false, v, t.
Qed.

(** The update of the table size to 0. *)
Lemma gives_update : gives [32] [].
Proof.
  intros d F c Hc _. rewrite spec_block_cons by done. cbn [app spec_field]. change (field_kind 32) with (false, true, false, 5).
  cbn [spec_int]. change (ngx_http_v2_prefix 5) with 31. change (Z.land 32 31) with 0. rewrite decide_True by done. cbn [bind].
  assert (exists t, resize_table 0 (d_table d) = Some t) as [t Et].
  { unfold resize_table. rewrite decide_False by (unfold NGX_HTTP_V2_TABLE_SIZE; lia). destruct (Hpack.fresh _); eauto. }
  rewrite Et. cbn [bind]. exists t, (d_last d). by rewrite Hc, Z.sub_0_r, app_nil_r.
Qed.

Lemma reads_written src lower : bytes src -> Z.of_nat (length src) <= NGX_HTTP_V2_MAX_FIELD -> Z.of_nat (length src) <= buffers_size ->
  reads_string (ngx_http_v2_string_encode src lower) (fold_case lower src).
Proof. intros Hb Hm Hl idx d F Hd. by apply spec_string_write. Qed.

(** A short string without coding. *)
Lemma reads_raw v : Z.of_nat (length v) < 127 -> Z.of_nat (length v) <= buffers_size ->
  reads_string (Z.lor NGX_HTTP_V2_ENCODE_RAW (Z.of_nat (length v)) :: v) v.
Proof.
  intros Hv Hl idx d F Hd. unfold NGX_HTTP_V2_ENCODE_RAW. rewrite Z.lor_0_l. cbn [app]. unfold spec_string. cbn [spec_int].
  change (ngx_http_v2_prefix 7) with (Z.ones 7). rewrite Z.land_ones by lia. rewrite Z.mod_small by (change (2 ^ 7) with 128; lia). change (Z.ones 7) with 127.
  rewrite decide_True by lia. cbn [bind]. rewrite decide_False by lia. assert (skips idx (d_stream d) = false) as -> by (unfold skips; by destruct (d_stream d)).
  rewrite decide_False.
  - unfold spec_raw. rewrite length_app, decide_False by lia. rewrite take_app_length', drop_app_length' by lia. done.
  - intros []. rewrite Z.shiftr_div_pow2 by lia. apply Z.div_small. change (2 ^ 7) with 128. lia.
Qed.

End Written.

Example encode_host : ngx_http_v2_string_encode (bstr "www.example.com") false =
  [0x8c; 0xf1; 0xe3; 0xc2; 0xe5; 0xf2; 0x3a; 0x6b; 0xa0; 0xab; 0x90; 0xf4; 0xff].
Proof. vm_compute. reflexivity. Qed.

Example encode_raw : ngx_http_v2_string_encode (bstr "X~") true = [2; 120; 126].
Proof. vm_compute. reflexivity. Qed.
