(* ===== verification/V2Filter.v ===== *)
(** * Response headers of HTTP/2: http/v2/ngx_http_v2_filter_module.c

    The filters that write the header block of a response, of early hints and of trailers, and its HEADERS and CONTINUATION
    frames. A block is a list of pieces that are written one after the other into memory of the size that was
    computed before; a write outside of it, or outside of the memory for coded strings, is undefined. *)

From S2P Require Import Prelude NgxString Num Sprintf HttpTime HuffTables Huff Hpack HeaderBlock V2Encode.
From stdpp Require Import list.

Open Scope Z_scope.

(** ** Definitions *)

Definition NGX_HTTP_V2_HEADERS_FRAME : Z := 0x1.
Definition NGX_HTTP_V2_NO_FLAG : Z := 0x00.
Definition NGX_HTTP_V2_END_STREAM_FLAG : Z := 0x01.

Definition NGX_HTTP_V2_STATUS_INDEX : Z := 8.
Definition NGX_HTTP_V2_STATUS_200_INDEX : Z := 8.
Definition NGX_HTTP_V2_STATUS_204_INDEX : Z := 9.
Definition NGX_HTTP_V2_STATUS_206_INDEX : Z := 10.
Definition NGX_HTTP_V2_STATUS_304_INDEX : Z := 11.
Definition NGX_HTTP_V2_STATUS_400_INDEX : Z := 12.
Definition NGX_HTTP_V2_STATUS_404_INDEX : Z := 13.
Definition NGX_HTTP_V2_STATUS_500_INDEX : Z := 14.
Definition NGX_HTTP_V2_CONTENT_LENGTH_INDEX : Z := 28.
Definition NGX_HTTP_V2_CONTENT_TYPE_INDEX : Z := 31.
Definition NGX_HTTP_V2_DATE_INDEX : Z := 33.
Definition NGX_HTTP_V2_LAST_MODIFIED_INDEX : Z := 44.
Definition NGX_HTTP_V2_LOCATION_INDEX : Z := 46.
Definition NGX_HTTP_V2_SERVER_INDEX : Z := 54.
Definition NGX_HTTP_V2_VARY_INDEX : Z := 59.

Definition NGX_HTTP_EARLY_HINTS : Z := 103.
Definition NGX_HTTP_OK : Z := 200.
Definition NGX_HTTP_NO_CONTENT : Z := 204.
Definition NGX_HTTP_PARTIAL_CONTENT : Z := 206.
Definition NGX_HTTP_NOT_MODIFIED : Z := 304.
Definition NGX_HTTP_BAD_REQUEST : Z := 400.
Definition NGX_HTTP_NOT_FOUND : Z := 404.
Definition NGX_HTTP_INTERNAL_SERVER_ERROR : Z := 500.

Definition NGX_OFF_T_LEN : Z := 20.

(** The build without a name of its own. *)
Definition NGINX_VER : list Z := bstr "nginx/1.29.1".
Definition NGINX_VER_BUILD : list Z := NGINX_VER.

Definition nginx : list Z := [0x84; 0xaa; 0x63; 0x55; 0xe7].
Definition accept_encoding : list Z := [0x8b; 0x84; 0x84; 0x2d; 0x69; 0x5b; 0x05; 0x44; 0x3c; 0x86; 0xaa; 0x6f].

(** *** The state *)

(** [ngx_table_elt_t] of a response; an element with the hash 0 is not sent. *)
Record table_elt := TableElt { hash : Z; key : list Z; value : list Z }.

(** [r->headers_out]; a pointer that is only compared with NULL is a [bool], [location] is an element of [headers]. *)
Record headers_out := HeadersOut {
  headers : list table_elt;
  trailers : list table_elt;
  status : Z;
  server : bool;
  date : bool;
  content_length : bool;
  last_modified : bool;
  location : option nat;
  content_type : list Z;
  content_type_len : Z;
  charset : list Z;
  content_length_n : Z;
  last_modified_time : Z
}.

Record request := Request {
  r_main : bool;
  r_head : bool;
  header_sent : bool;
  header_only : bool;
  expect_trailers : bool;
  gzip_vary : bool;
  in_server : list Z;
  out : headers_out
}.

Inductive tokens := TokensOff | TokensOn | TokensBuild.

Record conf := Conf {
  server_tokens : tokens;
  absolute_redirect : bool;
  server_name_in_redirect : bool;
  port_in_redirect : bool;
  gzip_vary_conf : bool;
  server_name : list Z
}.

(** The connection and the stream, the text of the clock, and the coded versions, which the process keeps: [None] before the first use.
    [local_addr] is what [ngx_connection_local_sockaddr] gives. *)
Record env := Env {
  fc_error : bool;
  table_update : bool;
  frame_size : Z;
  sid : Z;
  ssl : bool;
  local_addr : option (list Z);
  local_port : Z;
  cached_http_time : list Z;
  nginx_ver : option (list Z);
  nginx_ver_build : option (list Z)
}.

(** *** Memory *)

(** What is written: octets, a string by way of the memory at [tmp], and a string that is written over itself. *)
Inductive piece := Octets (bs : list Z) | Str (src : list Z) (lower : bool) | InPlace (src : list Z).

Definition piece_bytes (p : piece) : option (list Z) :=
  match p with
  | Octets bs => Some bs
  | Str src lower => Some (ngx_http_v2_string_encode src lower)
  | InPlace src =>
      match ngx_http_huff_encode src false with
      | Some (_ :: _) => Some (ngx_http_v2_string_encode src false)
      | _ => None
      end
  end.

(** The bytes that a piece needs at the end of the block while it is written, and at [tmp]: the coder stops before its output has
    the length of the string. *)
Definition piece_room (p : piece) (bs : list Z) : Z :=
  match p with InPlace src => Z.max (Z.of_nat (length src)) (Z.of_nat (length bs)) | _ => Z.of_nat (length bs) end.

Definition piece_tmp (p : piece) : Z :=
  match p with Octets _ => 0 | Str src _ | InPlace src => Z.of_nat (length src) end.

(** The writes after [out] into a block of [len] bytes. *)
Fixpoint write_pieces (len tmp_len : Z) (out : list Z) (ps : list piece) : option (list Z) :=
  match ps with
  | [] => Some out
  | p :: ps =>
      bs ← piece_bytes p;
      if decide (Z.of_nat (length out) + piece_room p bs <= len /\ piece_tmp p <= tmp_len)
      then write_pieces len tmp_len (out ++ bs) ps
      else None
  end.

(** *** Lists of headers *)

(** Both lengths after the loop over the headers; [None] for a name or a value that is too long. *)
Fixpoint list_len (hs : list table_elt) (len tmp_len : Z) : option (Z * Z) :=
  match hs with
  | [] => Some (len, tmp_len)
  | h :: hs =>
      let k := Z.of_nat (length (key h)) in
      let v := Z.of_nat (length (value h)) in
      if decide (hash h = 0) then list_len hs len tmp_len
      else if decide (k > NGX_HTTP_V2_MAX_FIELD) then None
      else if decide (v > NGX_HTTP_V2_MAX_FIELD) then None
      else
        let tmp_len := if decide (k > tmp_len) then k else tmp_len in
        let tmp_len := if decide (v > tmp_len) then v else tmp_len in
        list_len hs (len + (1 + NGX_HTTP_V2_INT_OCTETS + k + NGX_HTTP_V2_INT_OCTETS + v)) tmp_len
  end.

Fixpoint list_pieces (hs : list table_elt) : list piece :=
  match hs with
  | [] => []
  | h :: hs =>
      if decide (hash h = 0) then list_pieces hs
      else Octets [0] :: Str (key h) true :: Str (value h) false :: list_pieces hs
  end.

(** *** Frames *)

Definition ngx_http_v2_write_uint32 (s : Z) : list Z := [u8 (Z.shiftr s 24); u8 (Z.shiftr s 16); u8 (Z.shiftr s 8); u8 s].

Definition ngx_http_v2_write_len_and_type (l t : Z) : list Z := ngx_http_v2_write_uint32 (u32 (Z.lor (Z.shiftl l 8) t)).

(** A frame of the queue: the buffers, a header and a part of the block in turn, [length] and [fin]. *)
Record out_frame := OutFrame { bufs : list (list Z * list Z); flength : Z; fin : bool }.

(** The loop; the fuel is the length of the block and one more. *)
Fixpoint frames_loop (fuel : nat) (stream_id size type flags : Z) (rest : list Z) : option (list (list Z * list Z)) :=
  match fuel with
  | O => None
  | S fuel =>
      let last := bool_decide (Z.of_nat (length rest) <= size) in
      let size := if last then Z.of_nat (length rest) else size in
      let flags := if last then Z.lor flags NGX_HTTP_V2_END_HEADERS_FLAG else flags in
      let head := ngx_http_v2_write_len_and_type size type ++ [flags] ++ ngx_http_v2_write_uint32 stream_id in
      let payload := take (Z.to_nat size) rest in
      let rest := drop (Z.to_nat size) rest in
      match rest with
      | [] => Some [(head, payload)]
      | _ =>
          bufs ← frames_loop fuel stream_id size NGX_HTTP_V2_CONTINUATION_FRAME NGX_HTTP_V2_NO_FLAG rest;
          Some ((head, payload) :: bufs)
      end
  end.

Definition ngx_http_v2_create_headers_frame (e : env) (block : list Z) (fin : bool) : option out_frame :=
  bufs ← frames_loop (S (length block)) (sid e) (frame_size e) NGX_HTTP_V2_HEADERS_FRAME
           (if fin then NGX_HTTP_V2_END_STREAM_FLAG else NGX_HTTP_V2_NO_FLAG) block;
  Some (OutFrame bufs (Z.of_nat (length block) + NGX_HTTP_V2_FRAME_HEADER_SIZE * (Z.of_nat (length bufs) - 1)) fin).

(** *** The header filter *)

Definition set_out (o : headers_out) (r : request) : request :=
  Request (r_main r) (r_head r) (header_sent r) (header_only r) (expect_trailers r) (gzip_vary r) (in_server r) o.

Definition set_header_sent (r : request) : request :=
  Request (r_main r) (r_head r) true (header_only r) (expect_trailers r) (gzip_vary r) (in_server r) (out r).

Definition set_header_only (r : request) : request :=
  Request (r_main r) (r_head r) (header_sent r) true (expect_trailers r) (gzip_vary r) (in_server r) (out r).

Definition set_gzip_vary (x : bool) (r : request) : request :=
  Request (r_main r) (r_head r) (header_sent r) (header_only r) (expect_trailers r) x (in_server r) (out r).

Definition set_headers (hs : list table_elt) (o : headers_out) : headers_out :=
  HeadersOut hs (trailers o) (status o) (server o) (date o) (content_length o) (last_modified o) (location o)
    (content_type o) (content_type_len o) (charset o) (content_length_n o) (last_modified_time o).

Definition set_content_type (ct : list Z) (o : headers_out) : headers_out :=
  HeadersOut (headers o) (trailers o) (status o) (server o) (date o) (content_length o) (last_modified o) (location o)
    ct (content_type_len o) (charset o) (content_length_n o) (last_modified_time o).

Definition clear_last_modified (o : headers_out) : headers_out :=
  HeadersOut (headers o) (trailers o) (status o) (server o) (date o) (content_length o) false (location o)
    (content_type o) (content_type_len o) (charset o) (content_length_n o) (-1).

Definition clear_content (o : headers_out) : headers_out :=
  HeadersOut (headers o) (trailers o) (status o) (server o) (date o) false false (location o)
    [] (content_type_len o) (charset o) (-1) (-1).

(** The switch over the status: the octet that stands for it, or 0. *)
Definition status_case (r : request) : request * Z :=
  let o := out r in
  if decide (status o = NGX_HTTP_OK) then (r, ngx_http_v2_indexed NGX_HTTP_V2_STATUS_200_INDEX)
  else if decide (status o = NGX_HTTP_NO_CONTENT) then
    (set_out (clear_content o) (set_header_only r), ngx_http_v2_indexed NGX_HTTP_V2_STATUS_204_INDEX)
  else if decide (status o = NGX_HTTP_PARTIAL_CONTENT) then (r, ngx_http_v2_indexed NGX_HTTP_V2_STATUS_206_INDEX)
  else if decide (status o = NGX_HTTP_NOT_MODIFIED) then (set_header_only r, ngx_http_v2_indexed NGX_HTTP_V2_STATUS_304_INDEX)
  else
    (set_out (clear_last_modified o) r,
     if decide (status o = NGX_HTTP_BAD_REQUEST) then ngx_http_v2_indexed NGX_HTTP_V2_STATUS_400_INDEX
     else if decide (status o = NGX_HTTP_NOT_FOUND) then ngx_http_v2_indexed NGX_HTTP_V2_STATUS_404_INDEX
     else if decide (status o = NGX_HTTP_INTERNAL_SERVER_ERROR) then ngx_http_v2_indexed NGX_HTTP_V2_STATUS_500_INDEX
     else 0).

Definition redirect_host (cf : conf) (e : env) (r : request) : option (list Z) :=
  if server_name_in_redirect cf then Some (server_name cf)
  else if decide (in_server r <> []) then Some (in_server r)
  else local_addr e.

Definition redirect_port (cf : conf) (e : env) : Z :=
  if port_in_redirect cf then
    if ssl e then (if decide (local_port e = 443) then 0 else local_port e)
    else (if decide (local_port e = 80) then 0 else local_port e)
  else 0.

(** The URL is written into memory of a length that is computed before. *)
Definition redirect_url (e : env) (host : list Z) (port : Z) (path : list Z) : option (list Z) :=
  let len := 8 + Z.of_nat (length host) + Z.of_nat (length path) + (if decide (port <> 0) then 6 else 0) in
  p ← (if decide (port <> 0) then ngx_sprintf (bstr ":%ui") [AInt port] else Some []);
  let url := bstr "http" ++ (if ssl e then bstr "s" else []) ++ bstr "://" ++ host ++ p ++ path in
  if decide (Z.of_nat (length url) <= len) then Some url else None.

(** The Location header is made absolute and taken out of the list; [None] in the result for NGX_ERROR. *)
Definition location_case (cf : conf) (e : env) (r : request) : option (option headers_out) :=
  let o := out r in
  match location o with
  | None => Some (Some o)
  | Some i =>
      h ← headers o !! i;
      match value h with
      | [] => Some (Some o)
      | c :: _ =>
          if bool_decide (c = 47) && absolute_redirect cf then
            match redirect_host cf e r with
            | None => Some None
            | Some host =>
                url ← redirect_url e host (redirect_port cf e) (value h);
                Some (Some (set_headers (<[i := TableElt 0 (bstr "Location") url]> (headers o)) o))
            end
          else Some (Some (set_headers (<[i := TableElt 0 (key h) (value h)]> (headers o)) o))
      end
  end.

Definition location_value (o : headers_out) : list Z :=
  match location o with Some i => default [] (value <$> headers o !! i) | None => [] end.

Definition needs_charset (o : headers_out) : bool :=
  bool_decide (content_type_len o = Z.of_nat (length (content_type o))) && bool_decide (charset o <> []).

Definition ver_len (coded : option (list Z)) (ver : list Z) : Z :=
  match coded with Some v => Z.of_nat (length v) | None => ngx_http_v2_literal_size (Z.of_nat (length ver)) end.

Definition server_len (cf : conf) (e : env) : Z :=
  match server_tokens cf with
  | TokensOn => 1 + ver_len (nginx_ver e) NGINX_VER
  | TokensBuild => 1 + ver_len (nginx_ver_build e) NGINX_VER_BUILD
  | TokensOff => 1 + Z.of_nat (length nginx)
  end.

(** The length of the block without the list of headers. *)
Definition fixed_len (cf : conf) (e : env) (st : Z) (o : headers_out) : Z :=
  (if table_update e then 1 else 0) +
  (if decide (st <> 0) then 1 else 1 + ngx_http_v2_literal_size 3) +
  (if server o then 0 else server_len cf e) +
  (if date o then 0 else 1 + ngx_http_v2_literal_size 29) +
  (if decide (content_type o <> []) then
     1 + NGX_HTTP_V2_INT_OCTETS + Z.of_nat (length (content_type o)) +
     (if needs_charset o then 10 + Z.of_nat (length (charset o)) else 0)
   else 0) +
  (if negb (content_length o) && bool_decide (content_length_n o >= 0) then
     1 + ngx_http_v2_integer_octets NGX_OFF_T_LEN + NGX_OFF_T_LEN
   else 0) +
  (if negb (last_modified o) && bool_decide (last_modified_time o <> -1) then 1 + ngx_http_v2_literal_size 29 else 0) +
  (if decide (location_value o <> []) then 1 + NGX_HTTP_V2_INT_OCTETS + Z.of_nat (length (location_value o)) else 0).

Definition with_charset (o : headers_out) : headers_out :=
  if decide (content_type o <> []) then
    if needs_charset o then set_content_type (content_type o ++ bstr "; charset=" ++ charset o) o else o
  else o.

(** A status that has no octet. *)
Definition status_octets (st : Z) : option (list Z) :=
  ds ← ngx_sprintf (bstr "%03ui") [AInt st];
  Some (ngx_http_v2_inc_indexed NGX_HTTP_V2_STATUS_INDEX :: Z.lor NGX_HTTP_V2_ENCODE_RAW 3 :: ds).

Definition ver_piece (coded : option (list Z)) (ver : list Z) : piece :=
  match coded with Some v => Octets v | None => Str ver false end.

Definition server_pieces (cf : conf) (e : env) : list piece :=
  Octets [ngx_http_v2_inc_indexed NGX_HTTP_V2_SERVER_INDEX] ::
  [match server_tokens cf with
   | TokensOn => ver_piece (nginx_ver e) NGINX_VER
   | TokensBuild => ver_piece (nginx_ver_build e) NGINX_VER_BUILD
   | TokensOff => Octets nginx
   end].

Definition content_length_octets (n : Z) : option (list Z) :=
  ds ← ngx_sprintf (bstr "%O") [AInt n];
  Some (ngx_http_v2_inc_indexed NGX_HTTP_V2_CONTENT_LENGTH_INDEX ::
        Z.lor NGX_HTTP_V2_ENCODE_RAW (u8 (Z.of_nat (length ds))) :: ds).

(** The 29 bytes of a date are written at the end of the block and then coded where they are. *)
Definition last_modified_pieces (t : Z) : option (list piece) :=
  d ← ngx_http_time t;
  if decide (length d = 29%nat) then Some [Octets [ngx_http_v2_inc_indexed NGX_HTTP_V2_LAST_MODIFIED_INDEX]; InPlace d] else None.

Definition fixed_pieces (cf : conf) (e : env) (st : Z) (o : headers_out) (vary : bool) : option (list piece) :=
  st ← (if decide (st <> 0) then Some [st] else status_octets (status o));
  cl ← (if negb (content_length o) && bool_decide (content_length_n o >= 0) then
          bs ← content_length_octets (content_length_n o); Some [Octets bs]
        else Some []);
  lm ← (if negb (last_modified o) && bool_decide (last_modified_time o <> -1) then last_modified_pieces (last_modified_time o)
        else Some []);
  Some
    ((if table_update e then [Octets [Z.lor (Z.shiftl 1 5) 0]] else []) ++
     [Octets st] ++
     (if server o then [] else server_pieces cf e) ++
     (if date o then [] else [Octets [ngx_http_v2_inc_indexed NGX_HTTP_V2_DATE_INDEX]; Str (cached_http_time e) false]) ++
     (if decide (content_type o <> []) then
        [Octets [ngx_http_v2_inc_indexed NGX_HTTP_V2_CONTENT_TYPE_INDEX]; Str (content_type o) false]
      else []) ++
     cl ++ lm ++
     (if decide (location_value o <> []) then
        [Octets [ngx_http_v2_inc_indexed NGX_HTTP_V2_LOCATION_INDEX]; Str (location_value o) false]
      else []) ++
     (if vary then [Octets (ngx_http_v2_inc_indexed NGX_HTTP_V2_VARY_INDEX :: accept_encoding)] else [])).

(** What a filter returns: a code, no trailers, NULL, or the frame that is queued. *)
Inductive answer := Rc (rc : Z) | NoTrailers | Null | Sent (f : out_frame).

(** The table update is written once, and the coded versions are kept. *)
Definition after_filter (cf : conf) (o : headers_out) (e : env) : env :=
  Env (fc_error e) false (frame_size e) (sid e) (ssl e) (local_addr e) (local_port e) (cached_http_time e)
    (match nginx_ver e, server_tokens cf, server o with
     | None, TokensOn, false => Some (ngx_http_v2_write_value NGINX_VER)
     | v, _, _ => v
     end)
    (match nginx_ver_build e, server_tokens cf, server o with
     | None, TokensBuild, false => Some (ngx_http_v2_write_value NGINX_VER_BUILD)
     | v, _, _ => v
     end).

Definition ngx_http_v2_header_filter (cf : conf) (e : env) (r : request) : option (answer * env * request) :=
  if header_sent r then Some (Rc NGX_OK, e, r)
  else
    let r := set_header_sent r in
    if negb (r_main r) then Some (Rc NGX_OK, e, r)
    else if fc_error e then Some (Rc NGX_ERROR, e, r)
    else
      let r := if r_head r then set_header_only r else r in
      let '(r, st) := status_case r in
      o ← location_case cf e r;
      match o with
      | None => Some (Rc NGX_ERROR, e, r)
      | Some o =>
          let len := fixed_len cf e st o in
          let vary := gzip_vary r && gzip_vary_conf cf in
          let r := set_gzip_vary vary (set_out o r) in
          match list_len (headers o) (if vary then len + (1 + Z.of_nat (length accept_encoding)) else len) len with
          | None => Some (Rc NGX_ERROR, e, r)
          | Some (len, tmp_len) =>
              let o := with_charset o in
              let r := set_out o r in
              ps ← fixed_pieces cf e st o vary;
              block ← write_pieces len tmp_len [] (ps ++ list_pieces (headers o));
              let fin := header_only r || (bool_decide (content_length_n o = 0) && negb (expect_trailers r)) in
              frame ← ngx_http_v2_create_headers_frame e block fin;
              Some (Sent frame, after_filter cf o e, r)
          end
      end.

(** *** Early hints and trailers *)

Definition no_table_update (e : env) : env :=
  Env (fc_error e) false (frame_size e) (sid e) (ssl e) (local_addr e) (local_port e) (cached_http_time e)
    (nginx_ver e) (nginx_ver_build e).

Definition ngx_http_v2_early_hints_filter (e : env) (r : request) : option (answer * env) :=
  if negb (r_main r) then Some (Rc NGX_OK, e)
  else if fc_error e then Some (Rc NGX_ERROR, e)
  else
    match list_len (headers (out r)) 0 0 with
    | None => Some (Rc NGX_ERROR, e)
    | Some (len, tmp_len) =>
        if decide (len = 0) then Some (Rc NGX_OK, e)
        else
          let len := len + (if table_update e then 1 else 0) + (1 + ngx_http_v2_literal_size 3) in
          st ← status_octets NGX_HTTP_EARLY_HINTS;
          block ← write_pieces len tmp_len []
            ((if table_update e then [Octets [Z.lor (Z.shiftl 1 5) 0]] else []) ++ [Octets st] ++ list_pieces (headers (out r)));
          frame ← ngx_http_v2_create_headers_frame e block false;
          Some (Sent frame, no_table_update e)
    end.

Definition ngx_http_v2_create_trailers_frame (e : env) (r : request) : option answer :=
  match list_len (trailers (out r)) 0 0 with
  | None => Some Null
  | Some (len, tmp_len) =>
      if decide (len = 0) then Some NoTrailers
      else
        block ← write_pieces len tmp_len [] (list_pieces (trailers (out r)));
        frame ← ngx_http_v2_create_headers_frame e block true;
        Some (Sent frame)
  end.

(** ** Numbers and dates *)

Definition decimal (x : Z) : list Z := num_digits 20 10 x lower_hex [].

Definition dec3 (x : Z) : list Z := [48 + x / 100; 48 + x / 10 mod 10; 48 + x mod 10].

Lemma decimal_ok x : 0 <= x < 2 ^ 64 ->
  numeral 10 (fun c => c - 48) 0 (decimal x) = x /\ bytes (decimal x) /\ (0 < length (decimal x) <= 20)%nat /\
  (0 < x -> 10 ^ (Z.of_nat (length (decimal x)) - 1) <= x).
Proof.
  intros Hx. destruct (num_digits_spec 10 lower_hex (fun c => c - 48) is_digit ltac:(lia) dec_digit_ok 20 x) as (Ev & Eg & Hne & Hlen & Hlo); [|lia|].
  { change (10 ^ Z.of_nat 20) with 100000000000000000000. lia. }
  fold (decimal x) in *. split; [done|]. split; [|split; [|done]].
  - apply Forall_forall. intros c Hc. apply forallb_forall with (x := c) in Eg; [|by apply list_elem_of_In].
    apply bool_decide_eq_true in Eg. unfold is_byte. lia.
  - split; [|done]. destruct (decimal x); [done|cbn; lia].
Qed.

Lemma print_decimal out x zero : ngx_sprintf_num None out x zero 0 0 = out ++ decimal x.
Proof. unfold ngx_sprintf_num. rewrite decide_True by done. rewrite pad_num_none. replace (Z.to_nat _) with 0%nat by lia. cbn [replicate safe_copy]. by rewrite app_nil_r. Qed.

Lemma print_dec3 x : 0 <= x <= 999 -> ngx_sprintf_num None [] x 48 0 3 = dec3 x.
Proof.
  intros Hx. assert (zall (fun x => bool_decide (ngx_sprintf_num None [] x 48 0 3 = dec3 x)) 0 1000 = true) as H by (vm_compute; reflexivity).
  pose proof (zall_spec _ 0 1000 H x ltac:(lia)) as E. by apply bool_decide_eq_true in E.
Qed.

Lemma sprintf_status x : 0 <= x <= 999 -> ngx_sprintf (bstr "%03ui") [AInt x] = Some (dec3 x).
Proof.
  intros Hx. unfold ngx_sprintf, ngx_vslprintf. change (S (length (bstr "%03ui"))) with 6%nat.
  change (bstr "%03ui") with ("%"%ch :: "0"%ch :: "3"%ch :: "u"%ch :: ["i"%ch]). rewrite vslprintf_conv by done.
  change (parse_width 0 _) with (3, "u"%ch :: ["i"%ch]). cbv zeta beta iota.
  change (parse_flags _ _ _) with (Some (Conv 48 3 false 0 false 0 None, ["i"%ch], [AInt x])). cbv beta iota.
  change (do_conv None [] (Conv 48 3 false 0 false 0 None) "i"%ch [AInt x]) with (Some (ngx_sprintf_num None [] (u64 (u64 x)) 48 0 3, [] : list va_arg)).
  rewrite !(u64_small x) by lia. rewrite print_dec3 by done. reflexivity.
Qed.

Lemma sprintf_off x : 0 <= x < 2 ^ 63 -> ngx_sprintf (bstr "%O") [AInt x] = Some (decimal x).
Proof.
  intros Hx. unfold ngx_sprintf, ngx_vslprintf. change (S (length (bstr "%O"))) with 3%nat.
  change (bstr "%O") with ("%"%ch :: ["O"%ch]). rewrite vslprintf_conv by done.
  change (parse_width 0 _) with (0, ["O"%ch]). cbv zeta beta iota.
  change (parse_flags _ _ _) with (Some (Conv 32 0 true 0 false 0 None, ["O"%ch], [AInt x])). cbv beta iota.
  change (do_conv None [] (Conv 32 0 true 0 false 0 None) "O"%ch [AInt x]) with
    (let out := if true && bool_decide (s64 x < 0) then [] ++ ["-"%ch] else [] in
     let ui64 := if true && bool_decide (s64 x < 0) then u64 (- s64 x) else u64 (s64 x) in
     Some (ngx_sprintf_num None out ui64 32 0 0, [] : list va_arg)).
  rewrite s64_small by lia. rewrite bool_decide_false by lia. cbn [andb]. cbv zeta. rewrite u64_small by lia. rewrite print_decimal. reflexivity.
Qed.

Lemma sprintf_port x : 0 <= x < 2 ^ 16 -> ngx_sprintf (bstr ":%ui") [AInt x] = Some (58 :: decimal x).
Proof.
  intros Hx. unfold ngx_sprintf, ngx_vslprintf. change (S (length (bstr ":%ui"))) with 5%nat.
  change (bstr ":%ui") with (":"%ch :: "%"%ch :: "u"%ch :: ["i"%ch]). rewrite vslprintf_plain by (done || (intros [=])). rewrite vslprintf_conv by done.
  change (parse_width 0 _) with (0, "u"%ch :: ["i"%ch]). cbv zeta beta iota.
  change (parse_flags _ _ _) with (Some (Conv 32 0 false 0 false 0 None, ["i"%ch], [AInt x])). cbv beta iota.
  change (do_conv None ([] ++ [":"%ch]) (Conv 32 0 false 0 false 0 None) "i"%ch [AInt x]) with
    (Some (ngx_sprintf_num None [":"%ch] (u64 (u64 x)) 32 0 0, [] : list va_arg)).
  rewrite !(u64_small x) by lia. rewrite print_decimal. reflexivity.
Qed.

(** A port has five digits at most. *)
Lemma port_digits x : 0 < x < 2 ^ 16 -> (length (decimal x) <= 5)%nat.
Proof.
  intros Hx. destruct (decimal_ok x ltac:(lia)) as (_ & _ & _ & Hlo). specialize (Hlo ltac:(lia)).
  destruct (decide (length (decimal x) <= 5)%nat); [done|]. exfalso.
  assert (10 ^ 5 <= 10 ^ (Z.of_nat (length (decimal x)) - 1)) by (apply Z.pow_le_mono_r; lia). lia.
Qed.

(** A date needs less than 28 coded bytes. *)
Lemma code_bits_app a b : code_bits false (a ++ b) = code_bits false a ++ code_bits false b.
Proof. apply bind_app. Qed.

Definition code_len (c : Z) : Z := e_len (huff_encode_entry false c).

Lemma code_len_digit d : 0 <= d <= 9 -> (Z.to_nat (code_len (digit d)) <= 6)%nat.
Proof.
  intros Hd. assert (zall (fun d => bool_decide (Z.to_nat (code_len (digit d)) <= 6)%nat) 0 10 = true) as H by (vm_compute; reflexivity).
  pose proof (zall_spec _ 0 10 H d ltac:(lia)) as E. by apply bool_decide_eq_true in E.
Qed.

Lemma code_bits_dec2 x : 0 <= x <= 99 -> (length (code_bits false (dec2 x)) <= 12)%nat.
Proof.
  intros Hx. unfold dec2. rewrite !length_code_bits_cons. pose proof (code_len_digit (x / 10) ltac:(dlia)). pose proof (code_len_digit (x mod 10) ltac:(dlia)).
  unfold code_len in *. cbn [length code_bits mbind list_bind]. lia.
Qed.

Lemma date_bits wday day mon year hour min sec : 0 <= wday < 7 -> 0 <= day <= 99 -> 1 <= mon <= 12 -> 0 <= year <= 9999 -> 
  0 <= hour <= 99 -> 0 <= min <= 99 -> 0 <= sec <= 99 ->
  let d := rfc1123 wday day mon year hour min sec in
  bytes d /\ (length (code_bits false d) <= 224)%nat.
Proof.
  intros Hw Hd Hm Hy Hh Hmi Hs d.
  assert (zall (fun w => bool_decide ((length (code_bits false (nth (Z.to_nat w) week [])) <= 24)%nat /\ bytes (nth (Z.to_nat w) week []))) 0 7 = true) as H1 by (vm_compute; reflexivity).
  assert (zall (fun w => bool_decide ((length (code_bits false (nth (Z.to_nat (w - 1)) months [])) <= 24)%nat /\ bytes (nth (Z.to_nat (w - 1)) months []))) 1 12 = true) as H2 by (vm_compute; reflexivity).
  apply (zall_spec _ 0 7 H1) in Hw as [W1 W2]%bool_decide_eq_true. pose proof (zall_spec _ 1 12 H2 mon ltac:(lia)) as [M1 M2]%bool_decide_eq_true.
  assert (forall x, 0 <= x <= 99 -> bytes (dec2 x)) as B2.
  { intros x Hx. unfold dec2, digit. apply Forall_cons. split; [unfold is_byte; dlia|]. apply Forall_singleton. unfold is_byte. dlia. }
  split.
  - unfold d, rfc1123. repeat (apply Forall_app; split); try (by apply B2); try exact W2; try exact M2; try by_decide.
    unfold dec4, digit. repeat (apply Forall_cons; split); try apply Forall_nil_2; unfold is_byte; dlia.
  - unfold d, rfc1123. rewrite !code_bits_app, !length_app.
    pose proof (code_bits_dec2 day Hd). pose proof (code_bits_dec2 hour Hh). pose proof (code_bits_dec2 min Hmi). pose proof (code_bits_dec2 sec Hs).
    assert (length (code_bits false (dec4 year)) <= 24)%nat.
    { unfold dec4. rewrite !length_code_bits_cons.
      pose proof (code_len_digit (year / 1000) ltac:(dlia)). pose proof (code_len_digit (year / 100 mod 10) ltac:(dlia)).
      pose proof (code_len_digit (year / 10 mod 10) ltac:(dlia)). pose proof (code_len_digit (year mod 10) ltac:(dlia)).
      unfold code_len in *. cbn [length code_bits mbind list_bind]. lia. }
    change (length (code_bits false (bstr ", "))) with 14%nat. change (length (code_bits false (bstr " "))) with 6%nat.
    change (length (code_bits false (bstr ":"))) with 7%nat. change (length (code_bits false (bstr " GMT"))) with 27%nat. lia.
Qed.

(** ** The list of headers *)

Definition list_headers (hs : list table_elt) : list header :=
  (fun h => (ngx_strlow (key h), value h)) <$> filter (fun h => hash h <> 0) hs.

(** The names and values are bytes; a name is not empty. *)
Definition elt_ok (h : table_elt) : Prop := hash h <> 0 -> key h <> [] /\ bytes (key h) /\ bytes (value h).

Lemma list_len_ok hs : forall len tmp_len len' tmp_len', list_len hs len tmp_len = Some (len', tmp_len') ->
  len <= len' /\ tmp_len <= tmp_len' /\ (list_headers hs = [] -> len' = len) /\
  Forall (fun h => hash h <> 0 -> Z.of_nat (length (key h)) <= Z.min tmp_len' NGX_HTTP_V2_MAX_FIELD /\
    Z.of_nat (length (value h)) <= Z.min tmp_len' NGX_HTTP_V2_MAX_FIELD) hs.
Proof.
  induction hs as [|h hs IH]; intros len tmp_len len' tmp_len' E; cbn [list_len] in E.
  { injection E as <- <-. split; [done|]. split; [done|]. split; [done|by apply Forall_nil_2]. }
  destruct (decide (hash h = 0)) as [H0|H0].
  - destruct (IH _ _ _ _ E) as (I1 & I2 & I3 & I4). split; [done|]. split; [done|]. split; [|by apply Forall_cons].
    intros Hh. apply I3. unfold list_headers in *. rewrite filter_cons_False in Hh by tauto. done.
  - destruct (decide (Z.of_nat (length (key h)) > _)); [done|]. destruct (decide (Z.of_nat (length (value h)) > NGX_HTTP_V2_MAX_FIELD)); [done|].
    set (t1 := if decide (Z.of_nat (length (key h)) > tmp_len) then _ else _) in *.
    set (t2 := if decide (Z.of_nat (length (value h)) > t1) then _ else _) in *.
    assert (tmp_len <= t1 /\ Z.of_nat (length (key h)) <= t1) by (subst t1; destruct (decide (Z.of_nat (length (key h)) > tmp_len)); lia).
    assert (t1 <= t2 /\ Z.of_nat (length (value h)) <= t2) by (subst t2; destruct (decide (Z.of_nat (length (value h)) > t1)); lia). clearbody t1 t2.
    destruct (IH _ _ _ _ E) as (I1 & I2 & I3 & I4). unfold NGX_HTTP_V2_INT_OCTETS in *. split; [lia|]. split; [lia|]. split.
    + unfold list_headers. by rewrite filter_cons_True by done.
    + apply Forall_cons. split; [|done]. intros _. lia.
Qed.


(** ** The block *)

Section Block.

(** The decoder takes strings of [n] bytes. *)
Context (n : Z) (Hn : 29 <= n <= NGX_HTTP_V2_MAX_FIELD).

(** The pieces [ps] write the bytes [bs], which give the headers [hs]; [room] bytes of the block and [tmp] bytes for coded strings are
    enough. *)
Record part (tmp : Z) (ps : list piece) (hs : list header) (room : Z) (bs : list Z) : Prop := Part {
  part_gives : gives n bs hs;
  part_bytes : bytes bs;
  part_room : Z.of_nat (length bs) <= room;
  part_write : forall len tmp_len out qs, Z.of_nat (length out) + room <= len -> tmp <= tmp_len ->
    write_pieces len tmp_len out (ps ++ qs) = write_pieces len tmp_len (out ++ bs) qs
}.

Lemma part_nil tmp : part tmp [] [] 0 [].
Proof. split; [apply gives_nil|by apply Forall_nil_2|done|]. intros. by rewrite app_nil_r. Qed.

Lemma part_app tmp ps qs hs gs a b bs cs : part tmp ps hs a bs -> part tmp qs gs b cs -> part tmp (ps ++ qs) (hs ++ gs) (a + b) (bs ++ cs).
Proof.
  intros [P1 P2 P3 P4] [Q1 Q2 Q3 Q4]. split.
  - by apply gives_app.
  - by apply Forall_app.
  - rewrite length_app. lia.
  - intros len tmp_len out rs Hl Ht. rewrite <- app_assoc, P4 by lia. rewrite Q4 by (rewrite ?length_app; lia). by rewrite app_assoc.
Qed.

(** One piece. *)
Lemma part_one tmp p hs room bs : piece_bytes p = Some bs -> piece_room p bs <= room -> piece_tmp p <= tmp ->
  gives n bs hs -> bytes bs -> part tmp [p] hs room bs.
Proof.
  intros E Hr Ht Hg Hb. split; [done|done| |].
  - unfold piece_room in Hr. destruct p; lia.
  - intros len tmp_len out qs Hl Ht'. cbn [app write_pieces]. rewrite E. cbn [mbind option_bind]. by rewrite decide_True by lia.
Qed.

(** A piece after octets that mean nothing without it. *)
Lemma part_two tmp o p hs room bs : piece_bytes p = Some bs -> 0 <= tmp -> piece_tmp p <= tmp ->
  Z.of_nat (length o) + piece_room p bs <= room -> gives n (o ++ bs) hs -> bytes o -> bytes bs -> part tmp [Octets o; p] hs room (o ++ bs).
Proof.
  intros E Ht0 Ht Hr Hg Ho Hb. assert (Z.of_nat (length bs) <= piece_room p bs) as Hbs by (unfold piece_room; destruct p; lia).
  split; [done|by apply Forall_app|rewrite length_app; lia|].
  intros len tmp_len out qs Hl Ht'. cbn [app write_pieces piece_bytes mbind option_bind piece_room piece_tmp].
  rewrite decide_True by lia. rewrite E. cbn [mbind option_bind]. rewrite decide_True by (rewrite length_app; lia). by rewrite app_assoc.
Qed.

(** *** Fields *)

Lemma part_update tmp : 0 <= tmp -> part tmp [Octets [Z.lor (Z.shiftl 1 5) 0]] [] 1 [32].
Proof. intros Ht. apply part_one; [done|done|done|apply gives_update|by_decide]. Qed.

Lemma part_indexed tmp i h : 0 <= tmp -> 1 <= i <= 61 -> ngx_http_v2_static_table !! Z.to_nat (i - 1) = Some h ->
  part tmp [Octets [ngx_http_v2_indexed i]] [h] 1 [ngx_http_v2_indexed i].
Proof.
  intros Ht Hi E. apply part_one; [done|done|done|by apply gives_indexed|]. apply Forall_singleton. unfold ngx_http_v2_indexed, is_byte. lia.
Qed.

(** A static name with a value that is given as octets. *)
Lemma part_octets tmp i name w p v room : 0 <= tmp -> 1 <= i <= 61 -> ngx_http_v2_static_table !! Z.to_nat (i - 1) = Some (name, w) ->
  reads_string n p v -> bytes p -> 1 + Z.of_nat (length p) <= room ->
  part tmp [Octets (ngx_http_v2_inc_indexed i :: p)] [(name, v)] room (ngx_http_v2_inc_indexed i :: p).
Proof.
  intros Ht Hi E Hp Hb Hr. apply part_one; [done|cbn [piece_room length]; lia|done|by eapply gives_inc_indexed|].
  apply Forall_cons. split; [unfold ngx_http_v2_inc_indexed, is_byte; lia|done].
Qed.

(** The same, where the value is a piece. *)
Lemma part_value tmp i name w p v bs room : 0 <= tmp -> 1 <= i <= 61 -> ngx_http_v2_static_table !! Z.to_nat (i - 1) = Some (name, w) ->
  piece_bytes p = Some bs -> piece_tmp p <= tmp -> 1 + piece_room p bs <= room -> reads_string n bs v -> bytes bs ->
  part tmp [Octets [ngx_http_v2_inc_indexed i]; p] [(name, v)] room (ngx_http_v2_inc_indexed i :: bs).
Proof.
  intros Ht Hi E Hp Htmp Hr Hv Hb. change (ngx_http_v2_inc_indexed i :: bs) with ([ngx_http_v2_inc_indexed i] ++ bs).
  apply part_two; [done|done|done|cbn [length]; lia|by eapply gives_inc_indexed| |done].
  apply Forall_singleton. unfold ngx_http_v2_inc_indexed, is_byte. lia.
Qed.

Lemma max_field_small : NGX_HTTP_V2_MAX_FIELD < 2 ^ 64.
Proof. rewrite max_field_eq. lia. Qed.

Lemma part_str tmp i name w v room : 1 <= i <= 61 -> ngx_http_v2_static_table !! Z.to_nat (i - 1) = Some (name, w) ->
  bytes v -> Z.of_nat (length v) <= n -> Z.of_nat (length v) <= tmp ->
  1 + Z.min (ngx_http_v2_literal_size (Z.of_nat (length v))) (NGX_HTTP_V2_INT_OCTETS + Z.of_nat (length v)) <= room ->
  exists bs, part tmp [Octets [ngx_http_v2_inc_indexed i]; Str v false] [(name, v)] room bs.
Proof.
  intros Hi E Hb Hl Ht Hr. pose proof max_field_small.
  destruct (string_encode_length v false Hb ltac:(lia)) as [L1 L2]. specialize (L2 ltac:(lia)).
  eexists. eapply part_value; [lia|done|done|reflexivity|exact Ht| | |].
  - cbn [piece_room]. lia.
  - apply (reads_written n v false); [done|lia|done].
  - by apply string_encode_bytes.
Qed.

(** *** The fields of a response *)

Lemma http_time_coded t : exists d, ngx_http_time t = Some d /\ length d = 29%nat /\ bytes d /\ exists c tmp, ngx_http_huff_encode d false = Some (c :: tmp).
Proof.
  destruct (gmtime_facts t) as (Hv & Hy & Hh & Hmi & Hs & _ & Hw). set (tm := ngx_gmtime t) in *. destruct Hv as [Hm Hd].
  pose proof (month_length_31 (tm_year tm) (tm_mon tm)) as Hl.
  assert (0 <= tm_wday tm < 7) as Hw' by (rewrite Hw; apply Z.mod_pos_bound; lia).
  destruct (http_time_roundtrip t) as (d & Ed & Ld & _). exists d. split; [done|]. split; [done|].
  pose proof (http_time_form t ltac:(fold tm; lia) ltac:(fold tm; lia) Hh Hmi Hs) as E. fold tm in E. rewrite E in Ed. injection Ed as <-.
  destruct (date_bits (tm_wday tm) (tm_mday tm) (tm_mon tm) (tm_year tm) (tm_hour tm) (tm_min tm) (tm_sec tm)) as [B C]; [lia..|].
  split; [done|]. pose proof (encode_ok false _ B) as En. 
  destruct (ngx_http_huff_encode _ _) as [[|c tmp]|] eqn:Eh; [|by exists c, tmp|].
  - apply (huff_decode_encode _ _ _ B) in Eh. cbn [fold_case] in Eh. change (ngx_http_huff_decode 0 [] true) with (NGX_OK, 0, [] : list Z) in Eh.
    injection Eh as Eh. rewrite <- Eh in Ld. done.
  - rewrite Ld in En. lia.
Qed.

Lemma part_room_eq tmp ps hs a b bs : part tmp ps hs a bs -> a = b -> part tmp ps hs b bs.
Proof. by intros H <-. Qed.

(** An optional part. *)
Lemma part_if tmp (c : bool) ps hs room : (c = true -> exists bs, part tmp ps hs room bs) ->
  exists bs, part tmp (if c then ps else []) (if c then hs else []) (if c then room else 0) bs.
Proof. intros H. destruct c; [by apply H|]. exists []. apply part_nil. Qed.

Definition status_octet (st x : Z) : Prop :=
  st = 0 \/ exists i, st = ngx_http_v2_indexed i /\ 1 <= i <= 61 /\ ngx_http_v2_static_table !! Z.to_nat (i - 1) = Some (bstr ":status", dec3 x).

Lemma status_case_ok r : status (out (fst (status_case r))) = status (out r) /\ status_octet (snd (status_case r)) (status (out r)).
Proof.
  unfold status_case, status_octet. repeat case_decide; cbn [fst snd]; (split; [done|]);
    try (right; eexists; (split; [reflexivity|]); (split; [done|]); match goal with H : status _ = _ |- _ => rewrite H end; reflexivity).
  by left.
Qed.

Lemma part_status tmp st x : 0 <= tmp -> 0 <= x <= 999 -> status_octet st x -> exists so bs,
  (if decide (st <> 0) then Some [st] else status_octets x) = Some so /\
  part tmp [Octets so] [(bstr ":status", dec3 x)] (if decide (st <> 0) then 1 else 1 + ngx_http_v2_literal_size 3) bs.
Proof.
  intros Ht Hx [->|(i & -> & Hi & E)].
  - unfold status_octets. rewrite sprintf_status by done. rewrite decide_False by tauto. cbn [mbind option_bind].
    eexists _, _. split; [done|]. rewrite decide_False by tauto. eapply part_octets; [done|done|reflexivity| | |].
    + change (Z.lor NGX_HTTP_V2_ENCODE_RAW 3) with (Z.lor NGX_HTTP_V2_ENCODE_RAW (Z.of_nat (length (dec3 x)))). apply reads_raw; cbn; lia.
    + unfold dec3. repeat (apply Forall_cons; split); try apply Forall_nil_2; unfold is_byte; try dlia. done.
    + change (ngx_http_v2_literal_size 3) with 4. by vm_compute.
  - assert (ngx_http_v2_indexed i <> 0) as H0 by (unfold ngx_http_v2_indexed; lia). rewrite decide_True by done.
    eexists _, _. split; [done|]. rewrite decide_True by done. by apply part_indexed.
Qed.

Definition server_text (cf : conf) : list Z :=
  match server_tokens cf with TokensOff => bstr "nginx" | TokensOn => NGINX_VER | TokensBuild => NGINX_VER_BUILD end.

(** The versions that are kept are the coded ones. *)
Definition kept (coded : option (list Z)) (ver : list Z) : Prop := coded = None \/ coded = Some (ngx_http_v2_write_value ver).

Lemma part_ver tmp coded ver : kept coded ver -> bytes ver -> Z.of_nat (length ver) <= 29 -> 1 + ver_len coded ver <= tmp ->
  exists bs, part tmp [Octets [ngx_http_v2_inc_indexed NGX_HTTP_V2_SERVER_INDEX]; ver_piece coded ver] [(bstr "server", ver)] (1 + ver_len coded ver) bs.
Proof.
  intros H Hb Hl Ht. pose proof max_field_small. destruct (string_encode_length ver false Hb ltac:(lia)) as [L1 L2].
  assert (piece_bytes (ver_piece coded ver) = Some (ngx_http_v2_string_encode ver false)) as Ep by (by destruct H as [->| ->]).
  assert (Z.of_nat (length ver) <= ngx_http_v2_literal_size (Z.of_nat (length ver))).
  { unfold ngx_http_v2_literal_size, ngx_http_v2_integer_octets. assert (0 <= Z.of_nat (length ver) / 127) by (apply Z.div_pos; lia). lia. }
  assert (0 <= ver_len coded ver) by (destruct H as [->| ->]; cbn [ver_len]; lia).
  eexists. eapply part_value; [lia|by unfold NGX_HTTP_V2_SERVER_INDEX|reflexivity|exact Ep| | | |by apply string_encode_bytes].
  - destruct H as [->| ->]; cbn [ver_piece piece_tmp ver_len] in *; lia.
  - destruct H as [->| ->]; cbn [ver_piece piece_room ver_len]; [lia|]. unfold ngx_http_v2_write_value. lia.
  - apply (reads_written n ver false); [done|lia|lia].
Qed.

Lemma part_server tmp cf e : kept (nginx_ver e) NGINX_VER -> kept (nginx_ver_build e) NGINX_VER_BUILD -> server_len cf e <= tmp ->
  exists bs, part tmp (server_pieces cf e) [(bstr "server", server_text cf)] (server_len cf e) bs.
Proof.
  intros H1 H2 Ht. unfold server_pieces, server_text, server_len in *. destruct (server_tokens cf).
  - cbn in Ht. eexists. eapply part_value; [lia|by unfold NGX_HTTP_V2_SERVER_INDEX|reflexivity|reflexivity|cbn; lia|done| |by_decide].
    assert (nginx = ngx_http_v2_string_encode (bstr "nginx") false) as -> by (vm_compute; reflexivity).
    apply (reads_written n (bstr "nginx") false); [by_decide|cbn; lia|cbn; lia].
  - apply part_ver; [done|by_decide|cbn; lia|done].
  - apply part_ver; [done|by_decide|cbn; lia|done].
Qed.

Lemma part_length tmp x : 0 <= tmp -> 0 <= x < 2 ^ 63 -> exists lo bs, content_length_octets x = Some lo /\
  part tmp [Octets lo] [(bstr "content-length", decimal x)] (1 + ngx_http_v2_integer_octets NGX_OFF_T_LEN + NGX_OFF_T_LEN) bs.
Proof.
  intros Ht Hx. unfold content_length_octets. rewrite sprintf_off by done. cbn [mbind option_bind].
  destruct (decimal_ok x ltac:(lia)) as (_ & B & L & _). rewrite u8_small by (unfold is_byte; lia).
  eexists _, _. split; [done|]. eapply part_octets; [done|by unfold NGX_HTTP_V2_CONTENT_LENGTH_INDEX|reflexivity| | |].
  - apply reads_raw; lia.
  - unfold NGX_HTTP_V2_ENCODE_RAW. rewrite Z.lor_0_l. apply Forall_cons. split; [unfold is_byte; lia|done].
  - cbn [length]. change (ngx_http_v2_integer_octets NGX_OFF_T_LEN) with 1. unfold NGX_OFF_T_LEN. lia.
Qed.

Lemma part_modified tmp t : 29 <= tmp -> exists ps d bs, last_modified_pieces t = Some ps /\ ngx_http_time t = Some d /\
  part tmp ps [(bstr "last-modified", d)] (1 + ngx_http_v2_literal_size 29) bs.
Proof.
  intros Ht. destruct (http_time_coded t) as (d & Ed & Ld & B & c & coded & Eh). unfold last_modified_pieces. rewrite Ed. cbn [mbind option_bind].
  rewrite decide_True by done. pose proof max_field_small. destruct (string_encode_length d false B ltac:(lia)) as [L1 _]. rewrite Ld in L1.
  eexists _, d, _. split; [done|]. split; [done|].
  eapply part_value; [lia|by unfold NGX_HTTP_V2_LAST_MODIFIED_INDEX|reflexivity|cbn [piece_bytes]; by rewrite Eh| | | |by apply string_encode_bytes].
  - cbn [piece_tmp]. lia.
  - cbn [piece_room]. rewrite Ld. change (ngx_http_v2_literal_size (Z.of_nat 29)) with 30 in L1. change (ngx_http_v2_literal_size 29) with 30. lia.
  - apply (reads_written n d false); [done|lia|lia].
Qed.

Lemma part_vary tmp : 0 <= tmp -> exists bs, part tmp [Octets (ngx_http_v2_inc_indexed NGX_HTTP_V2_VARY_INDEX :: accept_encoding)]
  [(bstr "vary", bstr "Accept-Encoding")] (1 + Z.of_nat (length accept_encoding)) bs.
Proof.
  intros Ht. eexists. eapply part_octets; [done|by unfold NGX_HTTP_V2_VARY_INDEX|reflexivity| |by_decide|done].
  assert (accept_encoding = ngx_http_v2_string_encode (bstr "Accept-Encoding") false) as -> by (vm_compute; reflexivity).
  apply (reads_written n (bstr "Accept-Encoding") false); [by_decide|cbn; lia|cbn; lia].
Qed.

(** *** The list of headers *)

Definition elt_short (h : table_elt) : Prop := hash h <> 0 -> Z.of_nat (length (key h)) <= n /\ Z.of_nat (length (value h)) <= n.

Lemma part_new tmp k v : k <> [] -> bytes k -> bytes v -> Z.of_nat (length k) <= n -> Z.of_nat (length v) <= n ->
  Z.of_nat (length k) <= tmp -> Z.of_nat (length v) <= tmp ->
  exists bs, part tmp [Octets [0]; Str k true; Str v false] [(ngx_strlow k, v)]
    (1 + NGX_HTTP_V2_INT_OCTETS + Z.of_nat (length k) + NGX_HTTP_V2_INT_OCTETS + Z.of_nat (length v)) bs.
Proof.
  intros Hk Bk Bv Lk Lv Tk Tv. pose proof max_field_small.
  destruct (string_encode_length k true Bk ltac:(lia)) as [_ L1]. specialize (L1 ltac:(lia)).
  destruct (string_encode_length v false Bv ltac:(lia)) as [_ L2]. specialize (L2 ltac:(lia)).
  exists (0 :: ngx_http_v2_string_encode k true ++ ngx_http_v2_string_encode v false). split.
  - apply gives_new; [by destruct k|by apply (reads_written n k true); [..|lia|]|by apply (reads_written n v false); [..|lia|]].
  - apply Forall_cons. split; [unfold is_byte; lia|]. apply Forall_app. split; by apply string_encode_bytes.
  - cbn [length]. rewrite length_app. lia.
  - intros len tmp_len out qs Hl Ht. cbn [app write_pieces piece_bytes mbind option_bind piece_room piece_tmp].
    rewrite decide_True by (cbn [length]; lia). rewrite decide_True by (rewrite ?length_app; cbn [length]; lia).
    rewrite decide_True by (rewrite ?length_app; cbn [length]; lia). f_equal. by rewrite <- !app_assoc.
Qed.

Lemma part_list tmp hs : forall len tmp_len len' tmp_len', list_len hs len tmp_len = Some (len', tmp_len') -> 
  Forall elt_ok hs -> Forall elt_short hs -> Forall (fun h => hash h <> 0 -> Z.of_nat (length (key h)) <= tmp /\ Z.of_nat (length (value h)) <= tmp) hs ->
  exists bs, part tmp (list_pieces hs) (list_headers hs) (len' - len) bs.
Proof.
  induction hs as [|h hs IH]; intros len tmp_len len' tmp_len' E Hok Hs Ht; cbn [list_len list_pieces] in *.
  { injection E as <- <-. exists []. rewrite Z.sub_diag. apply part_nil. }
  apply Forall_cons in Hok as [Hok1 Hok]. apply Forall_cons in Hs as [Hs1 Hs]. apply Forall_cons in Ht as [Ht1 Ht]. unfold list_headers.
  destruct (decide (hash h = 0)) as [H0|H0].
  - rewrite filter_cons_False by tauto. by apply (IH len tmp_len len' tmp_len').
  - destruct (decide (Z.of_nat (length (key h)) > _)); [done|]. destruct (decide (Z.of_nat (length (value h)) > NGX_HTTP_V2_MAX_FIELD)); [done|].
    destruct (IH _ _ _ _ E Hok Hs Ht) as [bs P]. destruct (Hok1 H0) as (K1 & K2 & K3). destruct (Hs1 H0) as [S1 S2]. destruct (Ht1 H0) as [T1 T2].
    destruct (part_new tmp (key h) (value h) K1 K2 K3 S1 S2 T1 T2) as [cs Q]. rewrite filter_cons_True by done. exists (cs ++ bs).
    eapply part_room_eq; [exact (part_app _ _ _ _ _ _ _ _ _ Q P)|lia].
Qed.

(** *** The whole block *)

(** The headers of a response, but for its list. *)
Definition fixed_headers (cf : conf) (e : env) (vary : bool) (o : headers_out) : list header :=
  [(bstr ":status", dec3 (status o))] ++
  (if server o then [] else [(bstr "server", server_text cf)]) ++
  (if date o then [] else [(bstr "date", cached_http_time e)]) ++
  (if decide (content_type o <> []) then [(bstr "content-type", content_type o)] else []) ++
  (if negb (content_length o) && bool_decide (content_length_n o >= 0) then [(bstr "content-length", decimal (content_length_n o))] else []) ++
  (if negb (last_modified o) && bool_decide (last_modified_time o <> -1) then
     [(bstr "last-modified", default [] (ngx_http_time (last_modified_time o)))]
   else []) ++
  (if decide (location_value o <> []) then [(bstr "location", location_value o)] else []) ++
  (if vary then [(bstr "vary", bstr "Accept-Encoding")] else []).

Record env_ok (e : env) : Prop := EnvOk {
  env_time : bytes (cached_http_time e) /\ length (cached_http_time e) = 29%nat;
  env_ver : kept (nginx_ver e) NGINX_VER /\ kept (nginx_ver_build e) NGINX_VER_BUILD;
  env_frame : 0 < frame_size e < 2 ^ 24;
  env_sid : 0 <= sid e < 2 ^ 31
}.

(** The values are bytes and not longer than the decoder takes. *)
Record fields_ok (o : headers_out) : Prop := FieldsOk {
  f_status : 0 <= status o <= 999;
  f_length : content_length_n o < 2 ^ 63;
  f_type : bytes (content_type o) /\ Z.of_nat (length (content_type o)) <= n;
  f_location : bytes (location_value o) /\ Z.of_nat (length (location_value o)) <= n
}.

Lemma literal_pos v : 0 <= v -> v < ngx_http_v2_literal_size v.
Proof.
  intros Hv. unfold ngx_http_v2_literal_size, ngx_http_v2_integer_octets. assert (0 <= v / 127) by (apply Z.div_pos; lia). lia.
Qed.

Lemma server_len_nonneg cf e : 0 <= server_len cf e.
Proof.
  unfold server_len, ver_len. destruct (server_tokens cf), (nginx_ver e), (nginx_ver_build e); try lia;
    change (ngx_http_v2_literal_size (Z.of_nat (length NGINX_VER))) with 13; change (ngx_http_v2_literal_size (Z.of_nat (length NGINX_VER_BUILD))) with 13; lia.
Qed.

Lemma with_charset_same o : status (with_charset o) = status o /\ server (with_charset o) = server o /\ date (with_charset o) = date o /\
  content_length (with_charset o) = content_length o /\ last_modified (with_charset o) = last_modified o /\
  content_length_n (with_charset o) = content_length_n o /\ last_modified_time (with_charset o) = last_modified_time o /\
  location_value (with_charset o) = location_value o /\ headers (with_charset o) = headers o.
Proof. unfold with_charset. case_decide; [|done]. by destruct (needs_charset o). Qed.

Lemma with_charset_type o : (content_type (with_charset o) <> [] <-> content_type o <> []) /\
  (content_type o <> [] ->
   Z.of_nat (length (content_type (with_charset o))) =
   Z.of_nat (length (content_type o)) + (if needs_charset o then 10 + Z.of_nat (length (charset o)) else 0)).
Proof.
  unfold with_charset. case_decide as H; [|done]. destruct (needs_charset o); [|split; [done|lia]]. cbn [content_type set_content_type].
  split; [split; [done|]; intros _; by destruct (content_type o)|]. intros _. rewrite !length_app. change (length (bstr "; charset=")) with 10%nat. lia.
Qed.

(** The parts that may be missing. *)
Lemma part_date tmp e (c : bool) : bytes (cached_http_time e) -> length (cached_http_time e) = 29%nat ->
  (if c then 0 else 1 + ngx_http_v2_literal_size 29) <= tmp ->
  exists bs, part tmp (if c then [] else [Octets [ngx_http_v2_inc_indexed NGX_HTTP_V2_DATE_INDEX]; Str (cached_http_time e) false])
    (if c then [] else [(bstr "date", cached_http_time e)]) (if c then 0 else 1 + ngx_http_v2_literal_size 29) bs.
Proof.
  intros E1 E2 Ht. destruct c; [eexists; apply part_nil|]. pose proof (literal_pos 29 ltac:(lia)).
  eapply part_str; [by unfold NGX_HTTP_V2_DATE_INDEX|reflexivity|done|lia|lia|]. rewrite E2. change (Z.of_nat 29) with 29. lia.
Qed.

Lemma part_text tmp i name w v room : 1 <= i <= 61 -> ngx_http_v2_static_table !! Z.to_nat (i - 1) = Some (name, w) ->
  bytes v -> Z.of_nat (length v) <= n -> (v <> [] -> room = 1 + NGX_HTTP_V2_INT_OCTETS + Z.of_nat (length v)) -> (v <> [] -> room <= tmp) ->
  (v = [] -> room = 0) ->
  exists bs, part tmp (if decide (v <> []) then [Octets [ngx_http_v2_inc_indexed i]; Str v false] else [])
    (if decide (v <> []) then [(name, v)] else []) room bs.
Proof.
  intros Hi E Hb Hl Hr Ht H0. destruct (decide (v <> [])) as [Hv|Hv].
  - specialize (Hr Hv). specialize (Ht Hv). unfold NGX_HTTP_V2_INT_OCTETS in *. eapply part_str; [done|exact E|done|lia|lia|unfold NGX_HTTP_V2_INT_OCTETS; lia].
  - rewrite (H0 ltac:(destruct v; [done|by destruct Hv])). eexists. apply part_nil.
Qed.

Lemma part_opt_length tmp (c : bool) x : 0 <= tmp -> (c = true -> 0 <= x < 2 ^ 63) -> exists ps bs,
  (if c then bs ← content_length_octets x; Some [Octets bs] else Some []) = Some ps /\
  part tmp ps (if c then [(bstr "content-length", decimal x)] else []) (if c then 1 + ngx_http_v2_integer_octets NGX_OFF_T_LEN + NGX_OFF_T_LEN else 0) bs.
Proof.
  intros Ht Hx. destruct c; [|eexists _, _; split; [done|apply part_nil]].
  destruct (part_length tmp x Ht (Hx eq_refl)) as (lo & bs & -> & P). by exists [Octets lo], bs.
Qed.

Lemma part_opt_modified tmp (c : bool) t : (if c then 1 + ngx_http_v2_literal_size 29 else 0) <= tmp -> exists ps bs,
  (if c then last_modified_pieces t else Some []) = Some ps /\
  part tmp ps (if c then [(bstr "last-modified", default [] (ngx_http_time t))] else []) (if c then 1 + ngx_http_v2_literal_size 29 else 0) bs.
Proof.
  intros Ht. destruct c; [|eexists _, _; split; [done|apply part_nil]]. pose proof (literal_pos 29 ltac:(lia)).
  destruct (part_modified tmp t ltac:(lia)) as (ps & d & bs & -> & -> & P). by exists ps, bs.
Qed.

Lemma part_fixed tmp cf e st o0 vary : let o := with_charset o0 in env_ok e -> fields_ok o -> status_octet st (status o) -> fixed_len cf e st o0 <= tmp ->
  exists ps bs, fixed_pieces cf e st o vary = Some ps /\
    part tmp ps (fixed_headers cf e vary o) (fixed_len cf e st o0 + (if vary then 1 + Z.of_nat (length accept_encoding) else 0)) bs.
Proof.
  intros o [[E1 E2] [E3 E4] _ _] [F1 F2 [F3 F4] [F5 F6]] Hst Ht.
  destruct (with_charset_same o0) as (C1 & C2 & C3 & C4 & C5 & C6 & C7 & C8 & _). destruct (with_charset_type o0) as [C9 C10]. fold o in C1, C2, C3, C4, C5, C6, C7, C8, C9, C10.
  unfold fixed_len in *. rewrite <- C2, <- C3, <- C4, <- C5, <- C6, <- C7, <- C8 in *.
  pose proof (server_len_nonneg cf e). pose proof (literal_pos 3 ltac:(lia)). pose proof (literal_pos 29 ltac:(lia)).
  change (ngx_http_v2_integer_octets NGX_OFF_T_LEN) with 1 in *. unfold NGX_OFF_T_LEN in *.
  set (r1 := if table_update e then 1 else 0) in *. assert (0 <= r1) by (subst r1; destruct (table_update e); lia).
  set (r2 := if decide (st <> 0) then 1 else _) in *. assert (0 <= r2) by (subst r2; destruct (decide (st <> 0)); lia).
  set (r3 := if server o then 0 else _) in *. assert (0 <= r3) by (subst r3; destruct (server o); lia).
  set (r4 := if date o then 0 else _) in *. assert (0 <= r4) by (subst r4; destruct (date o); lia).
  set (r5 := if decide (content_type o0 <> []) then _ else 0) in *.
  assert (0 <= r5) by (subst r5; unfold NGX_HTTP_V2_INT_OCTETS; destruct (decide (content_type o0 <> [])), (needs_charset o0); lia).
  set (c6 := negb (content_length o) && _) in *. set (r6 := if c6 then _ else 0) in *. assert (0 <= r6) by (subst r6; destruct c6; lia).
  set (c7 := negb (last_modified o) && _) in *. set (r7 := if c7 then _ else 0) in *. assert (0 <= r7) by (subst r7; destruct c7; lia).
  set (r8 := if decide (location_value o <> []) then _ else 0) in *.
  assert (0 <= r8) by (subst r8; unfold NGX_HTTP_V2_INT_OCTETS; destruct (decide (location_value o <> [])); lia).
  set (r9 := if vary then _ else 0).
  assert (exists bs, part tmp (if table_update e then [Octets [Z.lor (Z.shiftl 1 5) 0]] else []) [] r1 bs) as [b1 P1].
  { subst r1. destruct (table_update e); eexists; [apply part_update; lia|apply part_nil]. }
  assert (exists so bs, (if decide (st <> 0) then Some [st] else status_octets (status o)) = Some so /\ part tmp [Octets so] [(bstr ":status", dec3 (status o))] r2 bs)
    as (so & b2 & S2 & P2) by (apply part_status; [lia|done|done]).
  assert (exists bs, part tmp (if server o then [] else server_pieces cf e) (if server o then [] else [(bstr "server", server_text cf)]) r3 bs) as [b3 P3].
  { subst r3. destruct (server o); [eexists; apply part_nil|]. apply part_server; [done|done|lia]. }
  destruct (part_date tmp e (date o) E1 E2 ltac:(fold r4; lia)) as [b4 P4].
  assert (exists bs, part tmp (if decide (content_type o <> []) then [Octets [ngx_http_v2_inc_indexed NGX_HTTP_V2_CONTENT_TYPE_INDEX]; Str (content_type o) false] else [])
    (if decide (content_type o <> []) then [(bstr "content-type", content_type o)] else []) r5 bs) as [b5 P5].
  { eapply part_text; [by unfold NGX_HTTP_V2_CONTENT_TYPE_INDEX|reflexivity|done|done| |lia|].
    - intros Hc%C9. subst r5. rewrite decide_True by done. specialize (C10 Hc). lia.
    - intros Hc. subst r5. rewrite decide_False; [done|]. intros Hc'%C9. done. }
  destruct (part_opt_length tmp c6 (content_length_n o) ltac:(lia)) as (p6 & b6 & S6 & P6).
  { intros Ec. apply andb_true_iff in Ec as [_ Ec%bool_decide_eq_true]. lia. }
  destruct (part_opt_modified tmp c7 (last_modified_time o) ltac:(fold r7; lia)) as (p7 & b7 & S7 & P7).
  assert (exists bs, part tmp (if decide (location_value o <> []) then [Octets [ngx_http_v2_inc_indexed NGX_HTTP_V2_LOCATION_INDEX]; Str (location_value o) false] else [])
    (if decide (location_value o <> []) then [(bstr "location", location_value o)] else []) r8 bs) as [b8 P8].
  { eapply part_text; [by unfold NGX_HTTP_V2_LOCATION_INDEX|reflexivity|done|done| |lia|]; intros Hc; subst r8; [by rewrite decide_True|].
    rewrite decide_False; [done|tauto]. }
  assert (exists bs, part tmp (if vary then [Octets (ngx_http_v2_inc_indexed NGX_HTTP_V2_VARY_INDEX :: accept_encoding)] else [])
    (if vary then [(bstr "vary", bstr "Accept-Encoding")] else []) r9 bs) as [b9 P9].
  { subst r9. destruct vary; [|eexists; apply part_nil]. apply part_vary. lia. }
  unfold fixed_pieces. rewrite S2. cbn [mbind option_bind]. fold c6 c7. rewrite S6. cbn [mbind option_bind]. rewrite S7. cbn [mbind option_bind].
  eexists _, _. split; [done|]. unfold fixed_headers. fold c6 c7. eapply part_room_eq.
  - change ([(bstr ":status", dec3 (status o))] ++ ?x) with ([] ++ [(bstr ":status", dec3 (status o))] ++ x).
    do 8 (eapply part_app; [eassumption|]). exact P9.
  - subst r4 r6 r7. change (ngx_http_v2_integer_octets NGX_OFF_T_LEN) with 1. unfold NGX_OFF_T_LEN. lia.
Qed.

End Block.

(** ** Frames *)

Lemma write_uint32_read x : 0 <= x < 2 ^ 32 -> exists a b c d, ngx_http_v2_write_uint32 x = [a; b; c; d] /\ bytes [a; b; c; d] /\
  ngx_http_v2_parse_uint32 a b c d = x.
Proof.
  intros Hx. eexists _, _, _, _. split; [reflexivity|]. split; [repeat (apply Forall_cons; split); try apply u8_byte; apply Forall_nil_2|].
  unfold ngx_http_v2_parse_uint32, u8. rewrite !Z.shiftr_div_pow2 by lia.
  change (2 ^ 24) with 16777216. change (2 ^ 16) with 65536. change (2 ^ 8) with 256.
  set (a := x / 16777216 mod 256). set (b := x / 65536 mod 256). set (c := x / 256 mod 256). set (d := x mod 256).
  assert (0 <= a < 256 /\ 0 <= b < 256 /\ 0 <= c < 256 /\ 0 <= d < 256 /\ x = a * 16777216 + b * 65536 + c * 256 + d) as (Ha & Hb & Hc & Hd & E).
  { subst a b c d. dlia. }
  clearbody a b c d. rewrite <- !Z.lor_assoc. rewrite (lor_shiftl_add c d 8) by lia. rewrite (lor_shiftl_add b _ 16) by lia.
  rewrite (lor_shiftl_add a _ 24) by lia. rewrite E. change (2 ^ 24) with 16777216. change (2 ^ 16) with 65536. change (2 ^ 8) with 256. lia.
Qed.

(** The header of a frame that is written is the header that is read. *)
Lemma head_read l t flags id : 0 <= l < 2 ^ 24 -> 0 <= t < 256 -> is_byte flags -> 0 <= id < 2 ^ 31 ->
  exists a b c d f g h i, ngx_http_v2_write_len_and_type l t ++ [flags] ++ ngx_http_v2_write_uint32 id = [a; b; c; d; flags; f; g; h; i] /\
    bytes [a; b; c; d; flags; f; g; h; i] /\
    ngx_http_v2_parse_type (ngx_http_v2_parse_uint32 a b c d) = t /\ ngx_http_v2_parse_length (ngx_http_v2_parse_uint32 a b c d) = l /\
    ngx_http_v2_parse_sid f g h i = id.
Proof.
  intros Hl Ht Hf Hid. unfold ngx_http_v2_write_len_and_type. rewrite (lor_shiftl_add l t 8) by lia. change (2 ^ 8) with 256.
  rewrite u32_small by lia. destruct (write_uint32_read (l * 256 + t) ltac:(lia)) as (a & b & c & d & -> & B1 & E1).
  destruct (write_uint32_read id ltac:(lia)) as (f & g & h & i & -> & B2 & E2). exists a, b, c, d, f, g, h, i. split; [done|]. split.
  - change [a; b; c; d; flags; f; g; h; i] with ([a; b; c; d] ++ [flags] ++ [f; g; h; i]). apply Forall_app. split; [done|].
    apply Forall_app. split; [by apply Forall_singleton|done].
  - unfold ngx_http_v2_parse_type, ngx_http_v2_parse_length, ngx_http_v2_parse_sid. rewrite E1, E2. split; [|split].
    + change 0xff with (Z.ones 8). rewrite Z.land_ones by lia. change (2 ^ 8) with 256. rewrite Z.add_comm, Z.mod_add by lia. by apply Z.mod_small.
    + rewrite Z.shiftr_div_pow2 by lia. change (2 ^ 8) with 256. rewrite Z.add_comm, Z.div_add by lia. rewrite Z.div_small by lia. lia.
    + change 0x7fffffff with (Z.ones 31). rewrite Z.land_ones by lia. by apply Z.mod_small.
Qed.

Definition frame_bytes (f : list Z * list Z) : list Z := fst f ++ snd f.

(** A frame of the stream [id] with the given type and flags. *)
Definition framed (id size type flags : Z) (last : bool) (f : list Z * list Z) : Prop :=
  Z.of_nat (length (snd f)) <= size /\
  fst f = ngx_http_v2_write_len_and_type (Z.of_nat (length (snd f))) type ++
    [if last then Z.lor flags NGX_HTTP_V2_END_HEADERS_FLAG else flags] ++ ngx_http_v2_write_uint32 id.

Lemma frames_loop_ok fuel : forall id size type flags block, (length block < fuel)%nat -> 0 < size < 2 ^ 24 -> 0 <= id < 2 ^ 31 ->
  exists f more, frames_loop fuel id size type flags block = Some (f :: more) /\ framed id size type flags (bool_decide (more = [])) f /\
    (forall rest pad, 0 <= pad -> pad = 0 \/ more = [] ->
       wire id (Z.of_nat (length (snd f))) pad (bool_decide (more = [])) (snd f ++ concat (map frame_bytes more) ++ rest) block rest) /\
    (bytes block -> bytes (snd f ++ concat (map frame_bytes more))) /\
    Forall (fun g => Z.of_nat (length (snd g)) <= size /\ length (fst g) = 9%nat) more /\ concat (map snd (f :: more)) = block.
Proof.
  induction fuel as [|fuel IH]; intros id size type flags block Hf Hs Hid; [lia|]. cbn [frames_loop].
  destruct (decide (Z.of_nat (length block) <= size)) as [Hl|Hl].
  - rewrite bool_decide_true by done. rewrite Nat2Z.id, drop_all. rewrite (take_ge block) by lia.
    eexists _, []. split; [done|]. rewrite bool_decide_true by done. cbn [map concat fst snd].
    split; [by split|]. split; [|split; [by rewrite app_nil_r|split; [by apply Forall_nil_2|by rewrite app_nil_r]]].
    intros rest pad Hp _. cbn [app]. by apply wire_last.
  - rewrite bool_decide_false by done. assert (Z.to_nat size < length block)%nat as Hlt by lia.
    destruct (drop (Z.to_nat size) block) as [|c q] eqn:Ed.
    { apply (f_equal length) in Ed. rewrite length_drop in Ed. cbn in Ed. lia. }
    rewrite <- Ed. assert (length (take (Z.to_nat size) block) = Z.to_nat size) as Et by (rewrite length_take; lia).
    destruct (IH id size NGX_HTTP_V2_CONTINUATION_FRAME NGX_HTTP_V2_NO_FLAG (drop (Z.to_nat size) block)) as (f & more & E & [F1 F2] & W & B & L & C).
    { rewrite length_drop. lia. } { done. } { done. }
    rewrite E. cbn [mbind option_bind]. eexists _, (f :: more). split; [done|]. rewrite bool_decide_false by done. cbn [fst snd]. rewrite Et.
    set (fl := if bool_decide (more = []) then _ else _) in F2.
    assert (is_byte fl /\ bool_decide (more = []) = bool_decide (Z.land fl NGX_HTTP_V2_END_HEADERS_FLAG <> 0)) as [Bfl Efl].
    { subst fl. destruct (bool_decide (more = [])); split; by_decide || reflexivity. }
    destruct (head_read (Z.of_nat (length (snd f))) NGX_HTTP_V2_CONTINUATION_FRAME fl id) as (a & b & c' & d & x & y & z & w & Eh & Bh & T1 & T2 & T3);
      [lia|by unfold NGX_HTTP_V2_CONTINUATION_FRAME|done|done|].
    split; [split; cbn [fst snd]; rewrite Et; [lia|by rewrite Z2Nat.id by lia]|]. split; [|split; [|split]].
    + intros rest pad Hp [->|?]; [|done]. cbn [map concat]. unfold frame_bytes at 1. rewrite <- !app_assoc.
      rewrite <- (take_drop (Z.to_nat size) block) at 2. 
      apply (wire_more _ _ _ (take (Z.to_nat size) block) [] (Z.of_nat (length (snd f))) (bool_decide (more = [])) (fst f)); [by rewrite Et|done| |].
      * rewrite F2, Eh. exists a, b, c', d, fl, x, y, z, w. done.
      * apply W; [done|by left].
    + intros Hb. cbn [map concat]. unfold frame_bytes at 1. specialize (B ltac:(by apply Forall_drop)). rewrite <- app_assoc. apply Forall_app.
      split; [by apply Forall_take|]. apply Forall_app. split; [by rewrite F2, Eh|done].
    + apply Forall_cons. split; [|done]. split; [done|]. by rewrite F2, Eh.
    + cbn [map concat snd] in *. rewrite C. apply take_drop.
Qed.

(** ** What is sent *)

Definition response_headers (cf : conf) (e : env) (vary : bool) (o : headers_out) : list header :=
  fixed_headers cf e vary o ++ list_headers (headers o).

(** The response when its Location is absolute. *)
Definition prepared (cf : conf) (e : env) (r : request) : option (option headers_out) := location_case cf e (fst (status_case r)).

Record response_ok (n : Z) (cf : conf) (e : env) (r : request) : Prop := ResponseOk {
  ok_index : forall i, location (out r) = Some i -> (i < length (headers (out r)))%nat;
  ok_port : 0 <= local_port e < 2 ^ 16;
  ok_fields : forall o, prepared cf e r = Some (Some o) -> fields_ok n (with_charset o);
  ok_headers : Forall elt_ok (headers (out r));
  ok_trailers : Forall elt_ok (trailers (out r))
}.

Definition response_short (n : Z) (r : request) : Prop := Forall (elt_short n) (headers (out r)) /\ Forall (elt_short n) (trailers (out r)).

(** A frame with a block that gives the headers [hs]. *)
Definition frame_of (n : Z) (e : env) (f : out_frame) (hs : list header) : Prop :=
  exists block, gives n block hs /\ bytes block /\ block <> [] /\ ngx_http_v2_create_headers_frame e block (fin f) = Some f.

Lemma gives_nonempty n block hs : gives n block hs -> hs <> [] -> block <> [].
Proof.
  intros H Hh ->. destruct (H (Dec table_start (sizes hs) (Some []) []) [] [] eq_refl ltac:(cbn; lia)) as (t & x & E).
  cbn in E. by inversion E.
Qed.

Lemma create_frame_total e block fl : env_ok e -> exists f, ngx_http_v2_create_headers_frame e block fl = Some f /\ fin f = fl.
Proof.
  intros [_ _ Hf Hs]. unfold ngx_http_v2_create_headers_frame.
  destruct (frames_loop_ok (S (length block)) (sid e) (frame_size e) NGX_HTTP_V2_HEADERS_FRAME (if fl then NGX_HTTP_V2_END_STREAM_FLAG else NGX_HTTP_V2_NO_FLAG) block
    ltac:(lia) Hf Hs) as (f & more & E & _). rewrite E. by eexists.
Qed.

(** A block that was written becomes a frame. *)
Lemma part_frame n e tmp ps hs room bs len fl : env_ok e -> part n tmp ps hs room bs -> room <= len -> hs <> [] ->
  exists f, write_pieces len tmp [] ps = Some bs /\ ngx_http_v2_create_headers_frame e bs fl = Some f /\ frame_of n e f hs /\ fin f = fl.
Proof.
  intros He [P1 P2 P3 P4] Hl Hh. destruct (create_frame_total e bs fl He) as (f & E & Ef). exists f. split; [|split; [done|split; [|done]]].
  - specialize (P4 len tmp [] [] ltac:(cbn; lia) ltac:(lia)). by rewrite app_nil_r in P4.
  - exists bs. split; [done|]. split; [done|]. split; [by eapply gives_nonempty|by rewrite Ef].
Qed.

Lemma fixed_headers_nonempty cf e vary o : fixed_headers cf e vary o <> [].
Proof. done. Qed.

(** *** The Location header *)

Lemma redirect_url_total e host port path : 0 <= port < 2 ^ 16 -> exists url, redirect_url e host port path = Some url.
Proof.
  intros Hp. unfold redirect_url. destruct (decide (port <> 0)) as [H0|H0].
  - rewrite sprintf_port by done. cbn [mbind option_bind]. pose proof (port_digits port ltac:(lia)).
    rewrite decide_True; [by eexists|]. rewrite !length_app. cbn [length].
    change (length (bstr "http")) with 4%nat. change (length (bstr "://")) with 3%nat. destruct (ssl e); [change (length (bstr "s")) with 1%nat|cbn [length]]; lia.
  - cbn [mbind option_bind]. rewrite decide_True; [by eexists|]. rewrite !length_app. cbn [length].
    change (length (bstr "http")) with 4%nat. change (length (bstr "://")) with 3%nat. destruct (ssl e); [change (length (bstr "s")) with 1%nat|cbn [length]]; lia.
Qed.

Lemma redirect_port_range cf e : 0 <= local_port e < 2 ^ 16 -> 0 <= redirect_port cf e < 2 ^ 16.
Proof. intros H. unfold redirect_port. destruct (port_in_redirect cf), (ssl e); try lia; destruct (decide (local_port e = _)); lia. Qed.

Lemma location_case_ok cf e r : 0 <= local_port e < 2 ^ 16 -> (forall i, location (out r) = Some i -> (i < length (headers (out r)))%nat) ->
  exists x, location_case cf e r = Some x /\
    forall o, x = Some o -> status o = status (out r) /\ forall P : table_elt -> Prop, (forall h, hash h = 0 -> P h) -> Forall P (headers (out r)) -> Forall P (headers o).
Proof.
  intros Hp Hi. unfold location_case. destruct (location (out r)) as [i|] eqn:El; [|eexists; split; [done|]; by intros o [= <-]].
  destruct (lookup_lt_is_Some_2 _ _ (Hi i eq_refl)) as [h Eh]. rewrite Eh. cbn [mbind option_bind].
  destruct (value h) as [|c v] eqn:Ev; [eexists; split; [done|]; by intros o [= <-]|].
  destruct (_ && _).
  - destruct (redirect_host cf e r) as [host|]; [|eexists; split; [done|]; by intros o [=]].
    destruct (redirect_url_total e host (redirect_port cf e) (c :: v) (redirect_port_range cf e Hp)) as [url ->]. cbn [mbind option_bind].
    eexists. split; [done|]. intros o [= <-]. split; [done|]. intros P HP Hh. cbn [headers set_headers]. apply Forall_insert; [done|by apply HP].
  - eexists. split; [done|]. intros o [= <-]. split; [done|]. intros P HP Hh. cbn [headers set_headers]. apply Forall_insert; [done|by apply HP].
Qed.

(** Only the headers and the server of the request count. *)
Lemma location_case_same cf e r r' : out r = out r' -> in_server r = in_server r' -> location_case cf e r = location_case cf e r'.
Proof. intros E1 E2. unfold location_case, redirect_host. by rewrite E1, E2. Qed.

Lemma status_case_same r r' : out r = out r' -> in_server r = in_server r' ->
  out (fst (status_case r)) = out (fst (status_case r')) /\ snd (status_case r) = snd (status_case r') /\
  in_server (fst (status_case r)) = in_server (fst (status_case r')).
Proof. intros E1 E2. unfold status_case. rewrite E1. repeat case_decide; done. Qed.

Lemma status_case_lists r : headers (out (fst (status_case r))) = headers (out r) /\ location (out (fst (status_case r))) = location (out r).
Proof. unfold status_case. repeat case_decide; done. Qed.

(** *** The filters *)

Lemma after_filter_ok cf o e : env_ok e -> env_ok (after_filter cf o e).
Proof.
  intros [E1 [E2 E3] E4 E5]. split; [exact E1| |exact E4|exact E5]. cbn [after_filter nginx_ver nginx_ver_build].
  split; destruct (nginx_ver e), (nginx_ver_build e), (server_tokens cf), (server o); try done; (by left) || by right.
Qed.

Lemma no_table_update_ok e : env_ok e -> env_ok (no_table_update e).
Proof. by intros [E1 E2 E4 E5]. Qed.

(** The request when the length of the block is computed. *)
Definition started (r : request) : request := if r_head r then set_header_only (set_header_sent r) else set_header_sent r.

Lemma prepared_started cf e r : location_case cf e (fst (status_case (started r))) = prepared cf e r /\
  snd (status_case (started r)) = snd (status_case r) /\ out (fst (status_case (started r))) = out (fst (status_case r)).
Proof.
  assert (out (started r) = out r /\ in_server (started r) = in_server r) as [E1 E2] by (unfold started; by destruct (r_head r)).
  destruct (status_case_same _ _ E1 E2) as (S1 & S2 & S3). split; [by apply location_case_same|done].
Qed.

Lemma elt_short_min n t hs : n = NGX_HTTP_V2_MAX_FIELD ->
  Forall (fun h => hash h <> 0 -> Z.of_nat (length (key h)) <= Z.min t NGX_HTTP_V2_MAX_FIELD /\ Z.of_nat (length (value h)) <= Z.min t NGX_HTTP_V2_MAX_FIELD) hs ->
  Forall (elt_short n) hs.
Proof. intros -> Hs. eapply Forall_impl; [exact Hs|]. intros h H H0. destruct (H H0). lia. Qed.

Lemma elt_tmp t hs :
  Forall (fun h => hash h <> 0 -> Z.of_nat (length (key h)) <= Z.min t NGX_HTTP_V2_MAX_FIELD /\ Z.of_nat (length (value h)) <= Z.min t NGX_HTTP_V2_MAX_FIELD) hs ->
  Forall (fun h => hash h <> 0 -> Z.of_nat (length (key h)) <= t /\ Z.of_nat (length (value h)) <= t) hs.
Proof. intros Hs. eapply Forall_impl; [exact Hs|]. intros h H H0. destruct (H H0). lia. Qed.

Lemma header_filter_ok n cf e r : 29 <= n <= NGX_HTTP_V2_MAX_FIELD -> env_ok e -> response_ok n cf e r ->
  response_short n r \/ n = NGX_HTTP_V2_MAX_FIELD ->
  exists a e' r', ngx_http_v2_header_filter cf e r = Some (a, e', r') /\ env_ok e' /\
    forall f, a = Sent f -> frame_of n e f (response_headers cf e (gzip_vary r') (out r')).
Proof.
  intros Hn He [Oi Op Of Oh _] Hs. unfold ngx_http_v2_header_filter.
  destruct (header_sent r); [by do 3 eexists|]. change (r_main (set_header_sent r)) with (r_main r).
  destruct (r_main r); cbn [negb]; [|by do 3 eexists]. destruct (fc_error e); [by do 3 eexists|].
  change (r_head (set_header_sent r)) with (r_head r). fold (started r).
  destruct (prepared_started cf e r) as (E1 & E2 & E3). destruct (status_case_ok r) as [C1 C2]. rewrite <- E2 in C2.
  destruct (status_case_lists r) as [L1 L2]. rewrite <- E3 in L1, L2, C1.
  destruct (status_case (started r)) as [r1 st]. cbn [fst snd] in *.
  destruct (location_case_ok cf e r1 Op ltac:(by rewrite L1, L2)) as (x & Ex & Hx). rewrite Ex. cbn [mbind option_bind].
  destruct x as [o|]; [|by do 3 eexists]. destruct (Hx o eq_refl) as [Xs Xh]. clear Hx. rewrite L1 in Xh.
  pose proof (Xh elt_ok ltac:(intros h H0 Hh; done) Oh) as Hok. rewrite <- E1 in Of. specialize (Of o Ex).
  cbn [gzip_vary set_out]. set (vary := gzip_vary r1 && gzip_vary_conf cf).
  destruct (list_len (headers o) _ _) as [[len tmp_len]|] eqn:El; [|by do 3 eexists].
  destruct (list_len_ok _ _ _ _ _ El) as (K1 & K2 & _ & K4).
  assert (Forall (elt_short n) (headers o)) as Hshort.
  { destruct Hs as [[Hs _]|Hs]; [|by eapply elt_short_min]. apply Xh; [|done]. by intros h H0 Hh. }
  destruct (with_charset_same o) as (W1 & _ & _ & _ & _ & _ & _ & _ & W9).
  destruct (part_fixed n Hn tmp_len cf e st o vary He Of ltac:(by rewrite W1, Xs, C1) K2) as (ps & b1 & Ep & P1). rewrite Ep. cbn [mbind option_bind].
  destruct (part_list n Hn tmp_len _ _ _ _ _ El Hok Hshort (elt_tmp _ _ K4)) as [b2 P2]. rewrite W9.
  pose proof (part_app n _ _ _ _ _ _ _ _ _ P1 P2) as P.
  set (fl := header_only _ || _).
  destruct (part_frame n e tmp_len _ _ _ _ len fl He P) as (f & F1 & F2 & F3 & _).
  { destruct vary; lia. } { by destruct (fixed_headers cf e vary (with_charset o)) eqn:?. }
  rewrite F1. cbn [mbind option_bind]. rewrite F2. cbn [mbind option_bind]. do 3 eexists. split; [done|]. split; [by apply after_filter_ok|].
  intros f' [= <-]. unfold response_headers. cbn [gzip_vary out set_out set_gzip_vary]. by rewrite W9.
Qed.

Lemma early_hints_ok n e r : 29 <= n <= NGX_HTTP_V2_MAX_FIELD -> env_ok e -> Forall elt_ok (headers (out r)) ->
  response_short n r \/ n = NGX_HTTP_V2_MAX_FIELD ->
  exists a e', ngx_http_v2_early_hints_filter e r = Some (a, e') /\ env_ok e' /\
    forall f, a = Sent f -> frame_of n e f ((bstr ":status", dec3 NGX_HTTP_EARLY_HINTS) :: list_headers (headers (out r))).
Proof.
  intros Hn He Hok Hs. unfold ngx_http_v2_early_hints_filter. destruct (r_main r); cbn [negb]; [|by do 2 eexists].
  destruct (fc_error e); [by do 2 eexists|]. destruct (list_len _ _ _) as [[len tmp_len]|] eqn:El; [|by do 2 eexists].
  destruct (list_len_ok _ _ _ _ _ El) as (K1 & K2 & _ & K4). case_decide; [by do 2 eexists|].
  assert (Forall (elt_short n) (headers (out r))) as Hshort by (destruct Hs as [[Hs _]|Hs]; [done|by eapply elt_short_min]).
  destruct (part_list n Hn tmp_len _ _ _ _ _ El Hok Hshort (elt_tmp _ _ K4)) as [b2 P2].
  destruct (part_status n Hn tmp_len 0 NGX_HTTP_EARLY_HINTS ltac:(lia) ltac:(by unfold NGX_HTTP_EARLY_HINTS) ltac:(by left)) as (so & b1 & S1 & P1).
  rewrite decide_False in S1 by tauto. rewrite decide_False in P1 by tauto. rewrite S1. cbn [mbind option_bind].
  assert (exists b0, part n tmp_len (if table_update e then [Octets [Z.lor (Z.shiftl 1 5) 0]] else []) [] (if table_update e then 1 else 0) b0) as [b0 P0].
  { destruct (table_update e); eexists; [apply part_update; lia|apply part_nil]. }
  pose proof (part_app n _ _ _ _ _ _ _ _ _ P0 (part_app n _ _ _ _ _ _ _ _ _ P1 P2)) as P. cbn [app] in P.
  destruct (part_frame n e tmp_len _ _ _ _ (len + (if table_update e then 1 else 0) + (1 + ngx_http_v2_literal_size 3)) false He P ltac:(lia) ltac:(done))
    as (f & F1 & F2 & F3 & _).
  cbn [app]. rewrite F1. cbn [mbind option_bind]. rewrite F2. cbn [mbind option_bind]. do 2 eexists. split; [done|]. split; [by apply no_table_update_ok|]. by intros f' [= <-].
Qed.

Lemma trailers_ok n e r : 29 <= n <= NGX_HTTP_V2_MAX_FIELD -> env_ok e -> Forall elt_ok (trailers (out r)) ->
  response_short n r \/ n = NGX_HTTP_V2_MAX_FIELD ->
  exists a, ngx_http_v2_create_trailers_frame e r = Some a /\ forall f, a = Sent f -> frame_of n e f (list_headers (trailers (out r))).
Proof.
  intros Hn He Hok Hs. unfold ngx_http_v2_create_trailers_frame. destruct (list_len _ _ _) as [[len tmp_len]|] eqn:El; [|by eexists].
  destruct (list_len_ok _ _ _ _ _ El) as (K1 & K2 & K3 & K4). case_decide as H0; [by eexists|].
  assert (Forall (elt_short n) (trailers (out r))) as Hshort by (destruct Hs as [[_ Hs]|Hs]; [done|by eapply elt_short_min]).
  destruct (part_list n Hn tmp_len _ _ _ _ _ El Hok Hshort (elt_tmp _ _ K4)) as [b P].
  destruct (part_frame n e tmp_len _ _ _ _ len true He P ltac:(lia) ltac:(intros Hh; by apply H0, K3)) as (f & F1 & F2 & F3 & _).
  rewrite F1. cbn [mbind option_bind]. rewrite F2. cbn [mbind option_bind]. eexists. split; [done|]. by intros f' [= <-].
Qed.

(** ** The properties *)

(** The state after the header of a HEADERS frame without padding and priority. *)
Definition block_start (head : list Z) (s : state (client := list header)) : state :=
  match head with
  | [a; b; c; d; flags; x; y; z; w] =>
      State (ngx_http_v2_parse_length (ngx_http_v2_parse_uint32 a b c d)) 0 flags (ngx_http_v2_parse_sid x y z w)
        (parse_name s) (parse_value s) (index s) (st_header s) (header_limit s) (field_state s) (field s) (alloc s) (field_rest s)
        (stream s) (tables s)
  | _ => s
  end.

(** A decoder with room for the headers gets them, for any reads of the frames and bytes after them. *)
Definition received (n : Z) (f : out_frame) (hs : list header) : Prop :=
  exists head payload more, bufs f = (head, payload) :: more /\
    forall s t c chunks rest, ready s -> stands (tables s) t -> stream s = Some c -> sizes hs <= header_limit s -> rest <> [] -> bytes rest ->
      concat chunks = payload ++ concat (map frame_bytes more) ++ rest ->
      exists s' inp left, feed collect n header_block (block_start head s) [] chunks = Some (Done s' inp, left) /\
        stream s' = Some (c ++ hs) /\ header_limit s' = header_limit s - sizes hs /\ ready s' /\ (exists t', stands (tables s') t') /\
        inp ++ concat left = rest.

Lemma frame_received n e f hs : env_ok e -> frame_of n e f hs -> received n f hs.
Proof.
  intros [_ _ Hf Hs] (block & G & B & Hne & E). unfold ngx_http_v2_create_headers_frame in E.
  set (flags := if fin f then _ else _) in E.
  destruct (frames_loop_ok (S (length block)) (sid e) (frame_size e) NGX_HTTP_V2_HEADERS_FRAME flags block ltac:(lia) Hf Hs)
    as ([head payload] & more & El & [F1 F2] & W & Bw & _). rewrite El in E. cbn [mbind option_bind] in E. injection E as E. cbn [fst snd] in *.
  exists head, payload, more. split; [by rewrite <- E|]. intros s t c chunks rest R T Hc Hl Hr Br Hch.
  set (fl := if bool_decide (more = []) then _ else _) in F2.
  assert (is_byte fl /\ bool_decide (more = []) = bool_decide (Z.land fl NGX_HTTP_V2_END_HEADERS_FLAG <> 0)) as [Bfl Efl].
  { subst fl flags. destruct (fin f), (bool_decide (more = [])); split; by_decide || reflexivity. }
  destruct (head_read (Z.of_nat (length payload)) NGX_HTTP_V2_HEADERS_FRAME fl (sid e)) as (a & b & c' & d & x & y & z & w & Eh & _ & _ & T2 & T3);
    [lia|by unfold NGX_HTTP_V2_HEADERS_FRAME|done|done|]. rewrite Eh in F2. subst head.
  specialize (W rest 0 ltac:(lia) ltac:(by left)). destruct R as (R1 & R2 & R3 & R4).
  set (s0 := block_start _ s).
  assert (situation header_block s0 t [] (concat chunks) block rest) as Hsit.
  { rewrite Hch. split.
    - cbn [app s0 block_start st_sid st_length st_padding]. unfold end_headers. cbn [s0 block_start st_flags].
      unfold end_headers. cbn [s0 block_start st_flags]. rewrite T2, T3, <- Efl. exact W.
    - cbn [app]. rewrite app_assoc. apply Forall_app. split; [by apply Bw|done].
    - exact T.
    - exact R4.
    - split; [exact R1|]. split; [exact R2|]. split; [done|]. cbn [s0 block_start index]. by rewrite R3. }
  destruct (G (dec_of s0 t) [] c Hc Hl) as (t' & last & Eg). rewrite app_nil_r in Eg.
  destruct (feed_ok collect n chunks _ _ _ _ _ _ Hsit ltac:(done)) as (st & left & Ef & [Hst|[-> Hw]]).
  - change (meaning collect n header_block s0 t block) with (spec_block collect n (dec_of s0 t) block) in Hst. rewrite Eg in Hst.
    destruct st as [| |s' inp|]; cbn [settled] in Hst; [done|by destruct Hst as (? & [=] & _)| |done].
    destruct Hst as (t2 & Em & T' & R' & Ei). cbn in Em. injection Em as Et Elim Estr _.
    exists s', inp, left. split; [exact Ef|]. split; [done|]. split; [done|]. split; [done|]. split; [by exists t2|done].
  - apply waits_ok in Hw as (-> & _). done.
Qed.

(** The frames of the three filters and the headers that they stand for. *)
Inductive sends (cf : conf) (e : env) (r : request) : out_frame -> list header -> Prop :=
  | sends_response f e' r' : ngx_http_v2_header_filter cf e r = Some (Sent f, e', r') ->
      sends cf e r f (response_headers cf e (gzip_vary r') (out r'))
  | sends_hints f e' : ngx_http_v2_early_hints_filter e r = Some (Sent f, e') ->
      sends cf e r f ((bstr ":status", dec3 NGX_HTTP_EARLY_HINTS) :: list_headers (headers (out r)))
  | sends_trailers f : ngx_http_v2_create_trailers_frame e r = Some (Sent f) ->
      sends cf e r f (list_headers (trailers (out r))).

Lemma sends_frame n cf e r f hs : 29 <= n <= NGX_HTTP_V2_MAX_FIELD -> env_ok e -> response_ok n cf e r ->
  response_short n r \/ n = NGX_HTTP_V2_MAX_FIELD -> sends cf e r f hs -> frame_of n e f hs.
Proof.
  intros Hn He Hok Hs H. destruct H as [f e' r' H|f e' H|f H].
  - destruct (header_filter_ok n cf e r Hn He Hok Hs) as (a & e2 & r2 & E & _ & Hf). rewrite E in H. injection H as -> -> ->. by apply Hf.
  - destruct (early_hints_ok n e r Hn He (ok_headers _ _ _ _ Hok) Hs) as (a & e2 & E & _ & Hf). rewrite E in H. injection H as -> ->. by apply Hf.
  - destruct (trailers_ok n e r Hn He (ok_trailers _ _ _ _ Hok) Hs) as (a & E & Hf). rewrite E in H. injection H as ->. by apply Hf.
Qed.

(** C9: the headers of a response, of early hints and of trailers arrive: the frames that the filters make, read by the decoder of
    [HeaderBlock] in any pieces and with anything after them, give the stream exactly the headers of the response, in their order,
    the names in lower case, with the status, the server, the date, the type with its charset, the length, the time of modification,
    the absolute location, Vary and the list of headers, whatever the dynamic table of the decoder holds, for every size of the
    frames; the decoder is ready for the next block after it. The decoder takes strings of [n] bytes and has room for the
    headers. *)
Theorem response_received n cf e r f hs :
  29 <= n <= NGX_HTTP_V2_MAX_FIELD -> env_ok e -> response_ok n cf e r -> response_short n r -> sends cf e r f hs -> received n f hs.
Proof.
  intros Hn He Hok Hs H. apply (frame_received n e); [done|]. eapply sends_frame; [done|done|done|by left|done].
Qed.

(** The buffers of a frame: none is longer than the frames of the connection, and the length counts all of them after the header of the first one. *)
Definition well_framed (e : env) (f : out_frame) : Prop :=
  Forall (fun b => length (fst b) = 9%nat /\ Z.of_nat (length (snd b)) <= frame_size e) (bufs f) /\ bufs f <> [] /\
  flength f = Z.of_nat (length (concat (map frame_bytes (bufs f)))) - NGX_HTTP_V2_FRAME_HEADER_SIZE.

Lemma frames_total_length bufs : Forall (fun b : list Z * list Z => length (fst b) = 9%nat) bufs ->
  Z.of_nat (length (concat (map frame_bytes bufs))) = 9 * Z.of_nat (length bufs) + Z.of_nat (length (concat (map snd bufs))).
Proof.
  induction 1 as [|b bufs Hb _ IH]; [done|]. cbn [map concat length]. unfold frame_bytes at 1. rewrite !length_app, Hb. lia.
Qed.

Lemma frame_well_framed n e f hs : env_ok e -> frame_of n e f hs -> well_framed e f.
Proof.
  intros [_ _ Hf Hs] (block & _ & _ & _ & E). unfold ngx_http_v2_create_headers_frame in E.
  set (flags := if fin f then _ else _) in E.
  destruct (frames_loop_ok (S (length block)) (sid e) (frame_size e) NGX_HTTP_V2_HEADERS_FRAME flags block ltac:(lia) Hf Hs)
    as (g & more & El & [F1 F2] & _ & _ & L & C). rewrite El in E. cbn [mbind option_bind] in E. injection E as <-.
  assert (Forall (fun b => length (fst b) = 9%nat /\ Z.of_nat (length (snd b)) <= frame_size e) (g :: more)) as HF.
  { apply Forall_cons. split; [split; [by rewrite F2|done]|]. eapply Forall_impl; [exact L|]. tauto. }
  split; [exact HF|]. split; [done|]. cbn [flength bufs]. rewrite frames_total_length by (eapply Forall_impl; [exact HF|]; tauto).
  rewrite C. unfold NGX_HTTP_V2_FRAME_HEADER_SIZE. cbn [length]. lia.
Qed.

(** C10: the lengths that are computed before the block is written are enough, for every response: no write of the three filters leaves
    the block, the memory for coded strings or the URL of a redirect, a date is never copied over itself, and the loop over the frames
    ends; a frame has no payload above the limit of the peer and counts its bytes, and the connection is left such that the same holds
    for the next response. *)
Theorem response_fits cf e r : env_ok e -> response_ok NGX_HTTP_V2_MAX_FIELD cf e r ->
  (exists a e' r', ngx_http_v2_header_filter cf e r = Some (a, e', r') /\ env_ok e' /\ forall f, a = Sent f -> well_framed e f) /\
  (exists a e', ngx_http_v2_early_hints_filter e r = Some (a, e') /\ env_ok e' /\ forall f, a = Sent f -> well_framed e f) /\
  (exists a, ngx_http_v2_create_trailers_frame e r = Some a /\ forall f, a = Sent f -> well_framed e f).
Proof.
  intros He Hok. assert (29 <= NGX_HTTP_V2_MAX_FIELD <= NGX_HTTP_V2_MAX_FIELD) as Hn by (rewrite max_field_eq; lia).
  split; [|split].
  - destruct (header_filter_ok _ cf e r Hn He Hok ltac:(by right)) as (a & e' & r' & E & He' & Hf). exists a, e', r'. split; [done|]. split; [done|].
    intros f Ha. by eapply frame_well_framed, Hf.
  - destruct (early_hints_ok _ e r Hn He (ok_headers _ _ _ _ Hok) ltac:(by right)) as (a & e' & E & He' & Hf). exists a, e'. split; [done|]. split; [done|].
    intros f Ha. by eapply frame_well_framed, Hf.
  - destruct (trailers_ok _ e r Hn He (ok_trailers _ _ _ _ Hok) ltac:(by right)) as (a & E & Hf). exists a. split; [done|].
    intros f Ha. by eapply frame_well_framed, Hf.
Qed.

(** ** Witnesses *)

Definition some_response : request :=
  Request true false false false false true (bstr "example.com")
    (HeadersOut
      [TableElt 1 (bstr "X-Cache") (bstr "HIT"); TableElt 1 (bstr "Location") (bstr "/a"); TableElt 0 (bstr "ETag") (bstr "x")]
      [TableElt 1 (bstr "X-Sum") (bstr "0")] 302 false false false false (Some 1%nat) (bstr "text/html") 9 (bstr "utf-8") 138 (-1)).

Definition some_env : env := Env false true 16 1 true None 8443 (bstr "Mon, 28 Sep 1970 06:00:00 GMT") None None.

Definition some_conf : conf := Conf TokensOn true false true true (bstr "host").

Definition some_frame : out_frame :=
  match ngx_http_v2_header_filter some_conf some_env some_response with Some (Sent f, _, _) => f | _ => OutFrame [] 0 false end.

Definition some_headers : list header :=
  [(bstr ":status", bstr "302"); (bstr "server", bstr "nginx/1.29.1"); (bstr "date", bstr "Mon, 28 Sep 1970 06:00:00 GMT");
   (bstr "content-type", bstr "text/html; charset=utf-8"); (bstr "content-length", bstr "138");
   (bstr "location", bstr "https://example.com:8443/a"); (bstr "vary", bstr "Accept-Encoding"); (bstr "x-cache", bstr "HIT")].

Example some_frames : (fun b => length (snd b)) <$> bufs some_frame = [16; 16; 16; 16; 16; 16; 15]%nat /\ flength some_frame = 165.
Proof. split; vm_compute; reflexivity. Qed.

Lemma some_env_ok : env_ok some_env.
Proof.
  split; [split; [by_decide|reflexivity]|split; by left| |]; cbn [frame_size sid some_env]; lia.
Qed.

Lemma some_response_ok n : 64 <= n -> response_ok n some_conf some_env some_response.
Proof.
  intros Hn. split.
  - intros i [= <-]. cbn. lia.
  - cbn [local_port some_env]. lia.
  - intros o E. vm_compute in E. injection E as <-.
    assert (forall l : list Z, (length l <= 64)%nat -> Z.of_nat (length l) <= n) as Hlen by (intros l Hl; lia).
    split; [vm_compute; split; discriminate|reflexivity|split; [by_decide|]|split; [by_decide|]]; apply Hlen; vm_compute; lia.
  - repeat (apply Forall_cons; split); try apply Forall_nil_2; intros H; (split; [discriminate|split; by_decide]).
  - repeat (apply Forall_cons; split); try apply Forall_nil_2; intros H; (split; [discriminate|split; by_decide]).
Qed.

Lemma some_response_short : response_short 4096 some_response.
Proof. split; repeat (apply Forall_cons; split); try apply Forall_nil_2; intros H; cbn [key value]; vm_compute; split; discriminate. Qed.

Lemma some_response_sends : sends some_conf some_env some_response some_frame some_headers.
Proof.
  destruct (ngx_http_v2_header_filter some_conf some_env some_response) as [[[a e'] r']|] eqn:E; [|vm_compute in E; discriminate].
  assert (a = Sent some_frame) as -> by (vm_compute in E; injection E as <- _ _; vm_compute; reflexivity).
  assert (some_headers = response_headers some_conf some_env (gzip_vary r') (out r')) as ->.
  { vm_compute in E. injection E as _ <-. vm_compute. reflexivity. }
  by eapply sends_response.
Qed.

Lemma response_received_witness :
  env_ok some_env /\ response_ok 4096 some_conf some_env some_response /\ sends some_conf some_env some_response some_frame some_headers /\
  received 4096 some_frame some_headers.
Proof.
  split; [exact some_env_ok|]. split; [by apply some_response_ok|]. split; [exact some_response_sends|].
  apply (response_received 4096 some_conf some_env some_response); [rewrite max_field_eq; lia|exact some_env_ok|by apply some_response_ok|
    exact some_response_short|exact some_response_sends].
Defined.

Lemma response_fits_witness :
  env_ok some_env /\ response_ok NGX_HTTP_V2_MAX_FIELD some_conf some_env some_response /\
  exists a, ngx_http_v2_create_trailers_frame some_env some_response = Some a /\ forall f, a = Sent f -> well_framed some_env f.
Proof.
  assert (response_ok NGX_HTTP_V2_MAX_FIELD some_conf some_env some_response) as Hok by (apply some_response_ok; rewrite max_field_eq; lia).
  split; [exact some_env_ok|]. split; [exact Hok|]. exact (proj2 (proj2 (response_fits some_conf some_env some_response some_env_ok Hok))).
Defined.
